(* ===== verification/_CoqProject ===== *)
-Q . S2P
Prelude.v
Serial.v
Errors.v
Param.v
Chunk.v
ChunkLaws.v
Packet.v
PacketLaws.v
PayloadQueue.v
PendingQueue.v
ReassemblyQueue.v
Timer.v
Stream.v
Assoc.v
Receive.v
Transmit.v
Tame.v
Invariant.v
ReceiveSafe.v
TransmitSafe.v
System.v
Sack.v
Window.v
Handshake.v
ReplayDetector.v
Buffer.v
Mux.v
DataChannel.v
Utf8.v
Stun.v
StunLaws.v
StunAttrs.v
StunAttrsLaws.v
DtlsTypes.v
DtlsExtension.v
DtlsHandshake.v
DtlsRecord.v
DtlsCodec.v
DtlsLaws.v
DtlsTotal.v
DtlsFragment.v
DtlsCache.v
DtlsConn.v
DtlsConnLaws.v
DtlsSend.v
DtlsReceive.v
DtlsCrypto.v
DtlsCipher.v
DtlsSuite.v
DtlsState.v
DtlsFlight.v
DtlsServerFlight.v
DtlsHandshaker.v
DtlsSample.v
DtlsAuth.v
Text.v
TextLaws.v
Sdp.v
SdpText.v
SdpLaws.v
IpText.v
IceCandidate.v
IceAgent.v
IceSelector.v
IceApi.v
IceMessage.v
IceSample.v
IceInvariant.v
IceSystem.v
IceSafety.v
IceLaws.v
IceTimeout.v
RtcTypes.v
RtcSdp.v
RtcPeer.v
RtcSample.v
RtcLaws.v
RtcOffer.v
Client.v
Vnet.v
