(* ===== verification/Prelude.v ===== *)
(** * A verification of the WebRTC data-channel client

    The repository is a client for unreliable WebRTC data channels: a Rust crate
    ([src/client/src]) with a stripped-down [webrtc-rs] in [webrtc/].  Paths below
    are relative to [webrtc/]; [sctp/], [dtls/], [ice/], [sdp/], [stun/] and
    [util/] are under its [crates/].

    ** The program

    [Socket::connect] ([socket.rs]) makes a peer connection with one data channel,
    posts its offer to a server, and takes the answer and a candidate from the response.
    The peer connection ([peer_connection/]) keeps the two descriptions of JSEP and
    a queue of operations, which start its transports in turn: the ICE transport
    ([ice_transport/]), over it the DTLS transport ([dtls_transport/]), over it the
    SCTP transport ([sctp_transport/]), and on that its data channels
    ([data_channel/]).

    The ICE agent ([ice/]) gathers the addresses of the host, pairs them with the
    candidates of the peer, and checks the pairs with STUN messages ([stun/]) until
    it selects one.  What comes over the selected pair goes through the multiplexer
    ([mux/]), which hands each packet to the endpoint whose match function accepts its
    first byte.  DTLS ([dtls/]) shakes hands in flights, and then seals and opens
    records, each checked by a replay detector ([util/replay_detector]).  Its
    application data are SCTP packets ([sctp/]): an association shakes hands, cuts
    the messages of its streams into DATA chunks, sends them under congestion
    control, acknowledges and reassembles them.  A data channel is one stream,
    opened by a DCEP message.  The descriptions are texts of [sdp/].

    ** Conventions

    - A call that can fail is a [res]: a value, an [Err], a panic, or no fuel
      left.  A call with [&mut self] is a program of the state monad [ST]; when it
      panics, the state it has reached is what is left behind.
    - [usize] counts of bytes are [nat]; other integers are [Z], wrapped to their
      width where the code does ([as], [wrapping_add], ...).  Plain [+], [-], [*]
      and [<<] panic on overflow in a debug build and wrap in a release build:
      such a definition is given a [Profile], and the theorems hold for both
      unless they say otherwise.
    - Bytes are [list byte]; a [String] is a list of code points ([Text]).  A
      [HashMap] is a [gmap]; where its iteration order shows, the order is
      [map_to_list]'s or an argument, and no theorem depends on it.
    - Every call runs under the lock the source takes, so calls are atomic, and
      tasks are step relations whose steps are those calls.  Where the source
      lets another task in between (the pending queue's push, the wait of a
      reader, the timers' tasks, the polls of a [PollStream]), the model has those
      steps apart.  What is shared behind an [Arc] and changes lives in a store, and the
      lists that share it hold references: candidates and pairs of an agent, the
      connections of a host, the flags of SCTP chunks.
    - The clock, random bytes, and what a socket or a server gives are arguments.
      The clock of an agent is set by an event ([ClockTo]).
    - A task that waits for another part is cut at its waits, and what ends a wait
      is an event with its outcome: a handshake event of DTLS ([DtlsHandshaker]),
      an operation of the peer connection ([RtcPeer]: the ICE connection, the end
      of the DTLS handshake, the end of the SCTP handshake), what happens while
      [connect] waits ([Client]).  A task that only runs on is run at once.
    - Code of other crates is a parameter, with what its documentation says as
      named laws: CRC-32C of SCTP ([Packet]), CRC-32 and HMAC-SHA1 of STUN
      ([StunAttrs]), SHA-256 of the transcript ([DtlsCache]), the cryptography of
      DTLS ([Primitives], with [PrimitiveLaws] in [DtlsSuite]), the url crate
      ([Urls] and [UrlLaws]), the hashes and sockets of the agent ([IceEnv] and
      [IceEnvLaws]), a regular expression of the peer connection ([PeerEnv]), JSON
      and a regular expression of the client ([ClientEnv]), the ipnet crate
      ([IpNets]).  Each class has an instance for the witnesses.  The readers and
      writers of [bytes], [byteorder], [std::io] and [std::net] are written out
      from their documentation.

    ** Files

    SCTP.  [Serial] is [sctp/util.rs]; [Errors] [error.rs] and [error_cause.rs];
    [Param] [param/]; [Chunk] [chunk/]; [Packet] [packet.rs]; [PayloadQueue],
    [PendingQueue] and [ReassemblyQueue] the files of [queue/]; [Timer]
    [timer/]; [Stream] [stream/mod.rs]; [Assoc], [Receive] and [Transmit]
    [association/association_internal.rs] (state and calls, handlers of received
    chunks, gathering of outbound packets and timer callbacks).  [ChunkLaws]
    and [PacketLaws] are the laws of the codecs.  [Tame], [Invariant],
    [ReceiveSafe] and [TransmitSafe] establish the invariant of the association
    call by call; [System] is the association with its tasks ([association/mod.rs])
    and holds in every reachable state.  [Sack], [Window] and [Handshake] are the
    acknowledgements, the windows and the handshake.

    Utilities.  [ReplayDetector] is [util/replay_detector] with
    [util/fixed_big_int], [Buffer] [util/buffer], [Vnet] the virtual network of
    [util/vnet]; [Utf8] is [String::from_utf8], [Text] and [TextLaws] the methods of
    strings, [IpText] the text of addresses.  [Mux] is [mux/]; [DataChannel] is
    [data_channel/], with the traits of [util/marshal].

    STUN.  [Stun] is [stun/message.rs], [attributes.rs] and [agent.rs];
    [StunAttrs] the attributes; [StunLaws] and [StunAttrsLaws] their laws.

    DTLS.  [DtlsTypes] has the enumerations, [DtlsExtension] the hello
    extensions, [DtlsHandshake] the handshake messages, [DtlsRecord] the record
    layer; [DtlsCodec], [DtlsLaws] and [DtlsTotal] are their laws.
    [DtlsFragment] is [fragment_buffer/], [DtlsCache]
    [handshake/handshake_cache.rs], [DtlsConn] the packet path of [conn/mod.rs];
    [DtlsConnLaws], [DtlsSend] and [DtlsReceive] are what holds of it.
    [DtlsCrypto] is [prf/], [crypto/] and [curve/] over the primitives,
    [DtlsCipher] the record ciphers and the suites of [cipher_suite/], [DtlsSuite]
    their law; [DtlsState] [state.rs] and [config.rs], [DtlsFlight] and
    [DtlsServerFlight] the flights of the two sides, [DtlsHandshaker]
    [handshaker.rs] and the start and the close of a connection; [DtlsAuth] is
    what a completed handshake shows, [DtlsSample] a run of one.

    SDP.  [Sdp] is [sdp/]: the description, its text, the lexer and the parser;
    [SdpText] has the round trip of every line, [SdpLaws] that of the whole.

    ICE.  [IceCandidate] is [ice/candidate] with the small modules it uses,
    [IceAgent] the state of the agent and its operations, [IceSelector] its
    selectors, the task of the checks and the handling of a datagram, [IceApi] its
    construction, gathering and the rest of its interface.  [IceMessage] is what its
    STUN messages hold, [IceInvariant] the invariant of the operations, [IceSystem] the
    agent as a system of events, in every state of which it holds; [IceSafety],
    [IceLaws] and [IceTimeout] are what a nomination needs, the order of the pairs
    with the text of a candidate, and the end of the checks; [IceSample] two agents that
    connect.

    The peer connection.  [RtcTypes] has the enumerations and errors, [RtcSdp] the
    making and reading of descriptions, [RtcPeer] the calls, the operations and the
    transports as a system of events; [RtcLaws] and [RtcOffer] are what holds of
    it, [RtcSample] a run up to an open channel.  [Client] is [socket.rs] and
    [addr_cell.rs].

    The prelude below has the results, the state monad, machine integers, bytes
    and their codecs, and the lemmas and tactics that the files share.

    ** What is shown

    - The client: when [connect] returns, whatever the tasks did meanwhile, the
      peer connection is stable with an offer and an answer that both parse, the
      answer being the text of the server; and what the server sends reaches the caller
      whole and in order, up to the first message that is too long for the buffer.
    - The peer connection: its descriptions follow the state machine of JSEP; a
      channel is open only above an association, above a connected DTLS transport;
      its agent is never misused; and an offer is understood by the other peer:
      its credentials, its fingerprint, and each of its candidates.
    - ICE: in every state of the agent references point into the stores and a
      connected agent has a selected pair that was nominated and answered; a pair
      is valid or selected only by an authentic message; checks that nobody answers
      end; a candidate is read back from its text.
    - DTLS: a client whose handshake completes has checked the server's signature
      over the keys, its verify data, and its certificate unless that is switched
      off (which the peer connection does); a suite opens the records that it seals; application data is authentic and delivered once;
      sequence numbers sent are fresh; a handshake is put together from its
      fragments in any order.
    - The association: in every state its tasks, its peer and its user can reach,
      the queues, counters and TSNs agree, no call runs out of fuel, and no call
      panics except for an arithmetic overflow in a debug build.  A SACK frees
      exactly the chunks it acknowledges; the SACK sent reports exactly what was
      received; what is sent respects the windows; a message is reassembled
      whatever the order of its fragments, and read as a stream of bytes; the
      client's handshake completes.
    - Codecs: SCTP packets, STUN messages and their attributes, DCEP messages,
      DTLS records and session descriptions are read back as they were written.
      The parsers return on every input; where they panic is stated.
    - Refinements: the replay detector is a set of sequence numbers, the packet
      buffer a queue; the map of a virtual host is the set of its open
      connections.
    - Theorems about what the code gets wrong are stated as the code behaves:
      certificates that are not compared with their fingerprint, a nomination that
      nobody signed, an offer of the peer that nothing answers, the Finished
      message that the server does not check, a write that swallows the next one,
      the lost wake-up of a stream's reader, panics and endless recursion on
      packets of the peer.

    ** Fuel

    A loop over a list or a buffer gets the length of that list or buffer, of which
    every round takes a part; a loop over TSNs gets the number of chunks of the
    queue it walks; the theorems on termination show that this is enough.  The parser
    of a description gets twice the length of the text and two, which is enough too.
    [append_message] of [DtlsFragment] has no such bound, and there is a theorem
    that says so.  [handle_datagram] and [pop_messages] of [DtlsConn] take their
    fuel as an argument.  The loop in which the client posts its offer runs over the
    list of what comes of its requests, and has no end while the server is silent.

    ** Not modelled

    - The runtime: deadlines, wake-ups and fairness of tokio beyond the steps
      above; a channel that is full; the sockets, and the calls that list the
      interfaces of the machine ([util/ifaces], raw pointers).
    - The handlers of the user, and the routine of the agent that calls them; the
      wait of [dial] and [accept] for the connection, which the peer connection has
      as the stage of an operation.
    - The generation of a certificate ([peer_connection/certificate.rs]: the rcgen
      crate); of [sdp/], [ExtMap] and [Codec], which nothing uses.
    - [Display] implementations and log output, the address getters and forwarding
      methods of connections, the adapters of [util/conn].
    - The STUN client's ticker and the printing of URIs; the DTLS listener.
    - The entry point of the library and the demos. *)

From Stdlib Require Export ZArith Lia.
From Stdlib Require Strings.Byte.
From stdpp Require Export base tactics numbers list gmap.

Declare Scope sctp_scope.
Delimit Scope sctp_scope with sctp.
Open Scope Z_scope.

(** * Results

    A Rust call ends in one of four ways: a value, a [Result::Err], a panic,
    or (only in this model) it runs out of the fuel a loop was given.  The
    theorems about loops show that the last one does not happen. *)
Inductive res (E A : Type) : Type :=
  | Ok (a : A)
  | Err (e : E)
  | Panic
  | OutOfFuel.
Arguments Ok {E A} a.
Arguments Err {E A} e.
Arguments Panic {E A}.
Arguments OutOfFuel {E A}.

#[export] Instance res_ret E : MRet (res E) := fun A a => Ok a.
#[export] Instance res_bind E : MBind (res E) := fun A B f m =>
  match m with
  | Ok a => f a
  | Err e => Err e
  | Panic => Panic
  | OutOfFuel => OutOfFuel
  end.
#[export] Instance res_fmap E : FMap (res E) := fun A B f m =>
  match m with
  | Ok a => Ok (f a)
  | Err e => Err e
  | Panic => Panic
  | OutOfFuel => OutOfFuel
  end.

(** [safe r]: the call returns (a value or an error) instead of panicking. *)
Definition safe {E A} (r : res E A) : Prop :=
  match r with Ok _ | Err _ => True | Panic | OutOfFuel => False end.

(** [terminates r]: the fuel given to the loops was enough. *)
Definition terminates {E A} (r : res E A) : Prop := r <> OutOfFuel.

Lemma terminates_bind {E A B} (r : res E A) (f : A -> res E B) :
  terminates r -> (forall a, r = Ok a -> terminates (f a)) -> terminates (r ≫= f).
Proof. intros Hr Hf. destruct r; try done. by apply Hf. Qed.

Lemma terminates_fmap {E A B} (r : res E A) (f : A -> B) : terminates r -> terminates (f <$> r).
Proof. by destruct r. Qed.

Lemma bind_Ok {E A B} (r : res E A) (f : A -> res E B) b :
  (r ≫= f) = Ok b -> exists a, r = Ok a /\ f a = Ok b.
Proof. destruct r; try done. eauto. Qed.

Lemma fmap_Ok {E A B} (r : res E A) (f : A -> B) b :
  (f <$> r) = Ok b -> exists a, r = Ok a /\ b = f a.
Proof. destruct r; try done. intros [= <-]. eauto. Qed.

(** Takes apart [H : r = Ok x], for a parser [r], into its reads. *)
Ltac invert_Ok :=
  repeat match goal with
  | H : mbind _ _ = Ok _ |- _ => apply bind_Ok in H as (? & ? & H)
  | H : _ <$> _ = Ok _ |- _ => apply fmap_Ok in H as (? & H & ?); subst
  | H : Ok _ = Ok _ |- _ => injection H as ?; subst
  | H : Err _ = Ok _ |- _ => discriminate H
  | H : Panic = Ok _ |- _ => discriminate H
  | H : OutOfFuel = Ok _ |- _ => discriminate H
  | H : (let '(_, _) := ?p in _) = Ok _ |- _ => destruct p
  | H : (if ?b then _ else _) = Ok _ |- _ => destruct b eqn:?
  end.

(** * Machine integers

    A [w]-bit unsigned integer is a [Z] in [0, 2^w).  Rust's checked
    arithmetic panics on overflow when the build profile has
    [overflow-checks] (the default of the dev profile) and wraps otherwise
    (the default of the release profile); the repository sets neither, so the
    profile is a parameter of the model and the theorems hold for both. *)
Class Profile := { overflow_checks : bool }.

Definition dev_profile : Profile := {| overflow_checks := true |}.
Definition release_profile : Profile := {| overflow_checks := false |}.

Definition in_range (w z : Z) : Prop := 0 <= z < 2 ^ w.
Definition in_rangeb (w z : Z) : bool := (0 <=? z) && (z <? 2 ^ w).
Definition wrap (w z : Z) : Z := z mod 2 ^ w.

Definition arith {P : Profile} {E} (w z : Z) : res E Z :=
  if in_rangeb w z then Ok z
  else if overflow_checks then Panic else Ok (wrap w z).

Abbreviation add16 a b := (arith 16 (a + b)).
Abbreviation add32 a b := (arith 32 (a + b)).
Abbreviation sub32 a b := (arith 32 (a - b)).
Abbreviation mul32 a b := (arith 32 (a * b)).
Abbreviation add64 a b := (arith 64 (a + b)).
Abbreviation sub64 a b := (arith 64 (a - b)).
Abbreviation mul64 a b := (arith 64 (a * b)).

Definition u8_max : Z := 255.
Definition u16_max : Z := 65535.
Definition u32_max : Z := 4294967295.

Lemma in_rangeb_spec w z : in_rangeb w z = true <-> in_range w z.
Proof. unfold in_rangeb, in_range. rewrite andb_true_iff, Z.leb_le, Z.ltb_lt. done. Qed.

Lemma wrap_range w z : 0 <= w -> in_range w (wrap w z).
Proof. intros. apply Z.mod_pos_bound, Z.pow_pos_nonneg; lia. Qed.

Lemma wrap_small w z : in_range w z -> wrap w z = z.
Proof. intros. by apply Z.mod_small. Qed.

Section arith.
Context {P : Profile} {E : Type}.

Lemma arith_ok w z : in_range w z -> arith (E := E) w z = Ok z.
Proof. intros H. unfold arith. by rewrite (proj2 (in_rangeb_spec _ _) H). Qed.

Lemma arith_Ok_range w z x : 0 <= w -> arith (E := E) w z = Ok x -> in_range w x.
Proof.
  unfold arith. destruct (in_rangeb w z) eqn:Hz.
  - intros _ [= <-]. by apply in_rangeb_spec.
  - destruct overflow_checks; [done|]. intros Hw [= <-]. by apply wrap_range.
Qed.

Lemma arith_Ok_wrap w z x : arith (E := E) w z = Ok x -> x = wrap w z.
Proof.
  unfold arith. destruct (in_rangeb w z) eqn:Hz.
  - intros [= <-]. symmetry. by apply wrap_small, in_rangeb_spec.
  - destruct overflow_checks; [done|]. by intros [= <-].
Qed.

Lemma arith_not_Err w z e : arith (E := E) w z <> Err e.
Proof. unfold arith. destruct (in_rangeb w z), overflow_checks; done. Qed.

Lemma arith_fuel w z : arith (E := E) w z <> OutOfFuel.
Proof. unfold arith. destruct (in_rangeb w z), overflow_checks; done. Qed.
End arith.

(** * Bytes, and the [bytes] crate's readers and writers

    [Bytes]/[BytesMut] are byte lists.  [slice], indexing and the [get_*]
    readers panic out of range, exactly where the crate does. *)
Abbreviation byte := Byte.byte.
Abbreviation bytes := (list Byte.byte).

Definition u8_of_byte (b : byte) : Z := Z.of_N (Byte.to_N b).

Definition byte_of_u8 (z : Z) : byte :=
  match Byte.of_N (Z.to_N (wrap 8 z)) with Some b => b | None => Byte.x00 end.

#[export] Instance byte_eq_dec : EqDecision byte := Byte.byte_eq_dec.

Definition zero_byte (b : byte) : bool := Byte.eqb b Byte.x00.

(** [Bytes::slice(a..b)] *)
Definition slice {E} (raw : bytes) (a b : nat) : res E bytes :=
  if (a <=? b)%nat && (b <=? length raw)%nat then Ok (take (b - a) (drop a raw))
  else Panic.

(** [Bytes::slice(a..)] *)
Definition slice_from {E} (raw : bytes) (a : nat) : res E bytes := slice raw a (length raw).

(** [raw[i]] *)
Definition index {E A} (l : list A) (i : nat) : res E A :=
  match l !! i with Some x => Ok x | None => Panic end.

Definition get_u8 {E} (r : bytes) : res E (Z * bytes) :=
  match r with
  | b0 :: r' => Ok (u8_of_byte b0, r')
  | _ => Panic
  end.

Definition get_u16 {E} (r : bytes) : res E (Z * bytes) :=
  match r with
  | b1 :: b0 :: r' => Ok (u8_of_byte b1 * 2 ^ 8 + u8_of_byte b0, r')
  | _ => Panic
  end.

Definition get_u32 {E} (r : bytes) : res E (Z * bytes) :=
  match r with
  | b3 :: b2 :: b1 :: b0 :: r' =>
      Ok (((u8_of_byte b3 * 2 ^ 8 + u8_of_byte b2) * 2 ^ 8 + u8_of_byte b1) * 2 ^ 8
          + u8_of_byte b0, r')
  | _ => Panic
  end.

Definition get_u32_le {E} (r : bytes) : res E (Z * bytes) :=
  match r with
  | b0 :: b1 :: b2 :: b3 :: r' =>
      Ok (((u8_of_byte b3 * 2 ^ 8 + u8_of_byte b2) * 2 ^ 8 + u8_of_byte b1) * 2 ^ 8
          + u8_of_byte b0, r')
  | _ => Panic
  end.

Definition put_u8 (z : Z) : bytes := [byte_of_u8 z].
Definition put_u16 (z : Z) : bytes := [byte_of_u8 (z / 2 ^ 8); byte_of_u8 z].
Definition put_u32 (z : Z) : bytes :=
  [byte_of_u8 (z / 2 ^ 24); byte_of_u8 (z / 2 ^ 16); byte_of_u8 (z / 2 ^ 8); byte_of_u8 z].
Definition put_u32_le (z : Z) : bytes := rev (put_u32 z).

Lemma u8_of_byte_range b : in_range 8 (u8_of_byte b).
Proof.
  unfold in_range, u8_of_byte. pose proof (Byte.to_N_bounded b). change (2 ^ 8) with 256. lia.
Qed.

Lemma byte_of_u8_of_byte b : byte_of_u8 (u8_of_byte b) = b.
Proof.
  unfold byte_of_u8. rewrite wrap_small by apply u8_of_byte_range.
  unfold u8_of_byte. rewrite N2Z.id. by rewrite Byte.of_to_N.
Qed.

Lemma u8_of_byte_of_u8 z : u8_of_byte (byte_of_u8 z) = wrap 8 z.
Proof.
  pose proof (wrap_range 8 z ltac:(lia)) as Hr. unfold in_range in Hr.
  unfold byte_of_u8. destruct (Byte.of_N (Z.to_N (wrap 8 z))) as [b|] eqn:Hb.
  - apply Byte.to_of_N in Hb. unfold u8_of_byte. rewrite Hb. lia.
  - exfalso. apply Byte.of_N_None_iff in Hb. change (2 ^ 8) with 256 in Hr. lia.
Qed.

Lemma u8_of_byte_inj b1 b2 : u8_of_byte b1 = u8_of_byte b2 -> b1 = b2.
Proof. intros H. by rewrite <- (byte_of_u8_of_byte b1), H, byte_of_u8_of_byte. Qed.

Lemma zero_byte_true b : zero_byte b = true <-> b = Byte.x00.
Proof. unfold zero_byte. split; [apply Byte.byte_dec_bl | intros ->; apply Byte.byte_dec_lb; done]. Qed.

Ltac byte_arith :=
  rewrite ?u8_of_byte_of_u8; unfold in_range, wrap in *;
  change (2 ^ 8) with 256 in *; change (2 ^ 16) with 65536 in *;
  change (2 ^ 24) with 16777216 in *; change (2 ^ 32) with 4294967296 in *;
  Z.div_mod_to_equations; lia.

Section readers.
Context {E : Type}.

Lemma get_put_u8 z r : in_range 8 z -> get_u8 (E := E) (put_u8 z ++ r) = Ok (z, r).
Proof. intros H. unfold put_u8; simpl. do 2 f_equal. by rewrite u8_of_byte_of_u8, wrap_small. Qed.

Lemma get_put_u16 z r : in_range 16 z -> get_u16 (E := E) (put_u16 z ++ r) = Ok (z, r).
Proof. intros H. unfold put_u16; cbn [app get_u16]. do 2 f_equal. byte_arith. Qed.

Lemma get_put_u32 z r : in_range 32 z -> get_u32 (E := E) (put_u32 z ++ r) = Ok (z, r).
Proof. intros H. unfold put_u32; cbn [app get_u32]. do 2 f_equal. byte_arith. Qed.

Lemma get_put_u32_le z r : in_range 32 z -> get_u32_le (E := E) (put_u32_le z ++ r) = Ok (z, r).
Proof. intros H. unfold put_u32_le, put_u32; cbn [app get_u32_le rev]. do 2 f_equal. byte_arith. Qed.

Lemma get_u8_ok r : (1 <= length r)%nat ->
  exists z r', get_u8 (E := E) r = Ok (z, r') /\ in_range 8 z /\ length r' = (length r - 1)%nat.
Proof.
  destruct r as [|b0 r]; simpl; [lia|]. intros _. eexists _, _. split_and!; [done| |lia].
  apply u8_of_byte_range.
Qed.

Lemma get_u16_ok r : (2 <= length r)%nat ->
  exists z r', get_u16 (E := E) r = Ok (z, r') /\ in_range 16 z /\ length r' = (length r - 2)%nat.
Proof.
  destruct r as [|b1 [|b0 r]]; cbn [length]; try lia. intros _. eexists _, _.
  split_and!; [done| |cbn; lia].
  pose proof (u8_of_byte_range b1). pose proof (u8_of_byte_range b0). byte_arith.
Qed.

Lemma get_u32_ok r : (4 <= length r)%nat ->
  exists z r', get_u32 (E := E) r = Ok (z, r') /\ in_range 32 z /\ length r' = (length r - 4)%nat.
Proof.
  destruct r as [|b3 [|b2 [|b1 [|b0 r]]]]; cbn [length]; try lia. intros _. eexists _, _.
  split_and!; [done| |cbn; lia].
  pose proof (u8_of_byte_range b3). pose proof (u8_of_byte_range b2).
  pose proof (u8_of_byte_range b1). pose proof (u8_of_byte_range b0). byte_arith.
Qed.

Lemma get_u16_Ok r z r' : get_u16 (E := E) r = Ok (z, r') -> in_range 16 z.
Proof.
  destruct r as [|b1 [|b0 r]]; cbn [get_u16]; try done. intros [= <- _].
  pose proof (u8_of_byte_range b1). pose proof (u8_of_byte_range b0). byte_arith.
Qed.

Lemma get_u32_Ok r z r' : get_u32 (E := E) r = Ok (z, r') -> in_range 32 z.
Proof.
  destruct r as [|b3 [|b2 [|b1 [|b0 r]]]]; cbn [get_u32]; try done. intros [= <- _].
  pose proof (u8_of_byte_range b3). pose proof (u8_of_byte_range b2).
  pose proof (u8_of_byte_range b1). pose proof (u8_of_byte_range b0). byte_arith.
Qed.

Lemma slice_ok raw a b : (a <= b)%nat -> (b <= length raw)%nat ->
  slice (E := E) raw a b = Ok (take (b - a) (drop a raw)).
Proof. intros Ha Hb. unfold slice. by rewrite (proj2 (Nat.leb_le _ _) Ha), (proj2 (Nat.leb_le _ _) Hb). Qed.

Lemma slice_Ok_length raw a b s : slice (E := E) raw a b = Ok s ->
  length s = (b - a)%nat /\ (a <= b)%nat /\ (b <= length raw)%nat.
Proof.
  unfold slice. destruct (a <=? b)%nat eqn:Ha; [|done].
  destruct (b <=? length raw)%nat eqn:Hb; [|done]. simpl. intros [= <-].
  apply Nat.leb_le in Ha, Hb. rewrite length_take, length_drop. lia.
Qed.

Lemma slice_app raw pre mid post a b :
  raw = pre ++ mid ++ post -> a = length pre -> b = (a + length mid)%nat ->
  slice (E := E) raw a b = Ok mid.
Proof.
  intros -> -> ->. rewrite slice_ok by (rewrite ?length_app; lia).
  rewrite drop_app_length. replace (_ + _ - _)%nat with (length mid) by lia.
  by rewrite take_app_length.
Qed.

Lemma index_ok {A} (l : list A) i : (i < length l)%nat ->
  exists x, index (E := E) l i = Ok x /\ l !! i = Some x.
Proof. intros [x Hx]%lookup_lt_is_Some_2. exists x. unfold index. by rewrite Hx. Qed.
End readers.

Section reader_fuel.
Context {E : Type}.

Lemma terminates_slice raw a b : terminates (slice (E := E) raw a b).
Proof. unfold slice. by destruct (_ && _). Qed.
Lemma terminates_slice_from raw a : terminates (slice_from (E := E) raw a).
Proof. apply terminates_slice. Qed.
Lemma terminates_index {A} (l : list A) i : terminates (index (E := E) l i).
Proof. unfold index. by destruct (l !! i). Qed.
Lemma terminates_get_u8 r : terminates (get_u8 (E := E) r).
Proof. by destruct r. Qed.
Lemma terminates_get_u16 r : terminates (get_u16 (E := E) r).
Proof. by destruct r as [|? [|? ?]]. Qed.
Lemma terminates_get_u32 r : terminates (get_u32 (E := E) r).
Proof. by destruct r as [|? [|? [|? [|? ?]]]]. Qed.
Lemma terminates_get_u32_le r : terminates (get_u32_le (E := E) r).
Proof. by destruct r as [|? [|? [|? [|? ?]]]]. Qed.
Lemma terminates_arith {P : Profile} w z : terminates (arith (E := E) w z).
Proof. apply arith_fuel. Qed.
Lemma terminates_Ok {A} (a : A) : terminates (E := E) (Ok a). Proof. done. Qed.
Lemma terminates_Err {A} (e : E) : terminates (A := A) (Err e). Proof. done. Qed.
End reader_fuel.

Create HintDb fuel.
#[export] Hint Resolve terminates_slice terminates_slice_from terminates_index terminates_get_u8
  terminates_get_u16 terminates_get_u32 terminates_get_u32_le terminates_arith terminates_Ok
  terminates_Err terminates_fmap : fuel.

(** Follows the binds and the branches of a parser down to its readers. *)
Ltac solve_terminates :=
  repeat first
    [ solve [eauto with fuel nocore]
    | apply terminates_fmap
    | apply terminates_bind; [|intros]
    | case_match ].

Lemma length_put_u8 z : length (put_u8 z) = 1%nat. Proof. done. Qed.
Lemma length_put_u16 z : length (put_u16 z) = 2%nat. Proof. done. Qed.
Lemma length_put_u32 z : length (put_u32 z) = 4%nat. Proof. done. Qed.
Lemma length_put_u32_le z : length (put_u32_le z) = 4%nat. Proof. done. Qed.
Create Rewrite HintDb bytes_len.
#[export] Hint Rewrite @length_app @length_replicate length_put_u8 length_put_u16 length_put_u32
  length_put_u32_le : bytes_len.

Lemma ltb_false (a b : nat) : (b <= a)%nat -> (a <? b)%nat = false.
Proof. apply Nat.ltb_ge. Qed.

Lemma ltb_true (a b : nat) : (a < b)%nat -> (a <? b)%nat = true.
Proof. apply Nat.ltb_lt. Qed.

Lemma leb_false (a b : nat) : (b < a)%nat -> (a <=? b)%nat = false.
Proof. apply Nat.leb_gt. Qed.

Lemma leb_true (a b : nat) : (a <= b)%nat -> (a <=? b)%nat = true.
Proof. apply Nat.leb_le. Qed.

Lemma list_filter_all {A} (Q : A -> Prop) `{forall x, Decision (Q x)} (l : list A) :
  Forall Q l -> filter Q l = l.
Proof. induction 1 as [|x l Hx Hl IH]; [done|]. by rewrite filter_cons_True, IH. Qed.

Lemma list_filter_none {A} (Q : A -> Prop) `{forall x, Decision (Q x)} (l : list A) :
  Forall (fun x => ~ Q x) l -> filter Q l = [].
Proof. induction 1 as [|x l Hx Hl IH]; [done|]. by rewrite filter_cons_False. Qed.

(** * Records updated in place

    [r <| f := v |>] is the record [r] with field [f] set to [v], and
    [r <| f ::= g |>] applies [g] to the field: the assignments [self.f = v]
    and [self.f op= v] of the source.  A record becomes updatable by an
    instance of [Settable], its eta expansion; the setter of a field is
    computed from it by abstracting the projection. *)
Class Settable (R : Type) := eta : R -> R.
Class Setter {R T : Type} (proj : R -> T) := set : (T -> T) -> R -> R.
Arguments set {R T} proj {_} f r.

Ltac build_setter proj :=
  match type of proj with
  | ?R -> ?T =>
      let i := constr:(_ : Settable R) in
      let e := eval hnf in i in
      let p := eval pattern proj in e in
      match p with
      | ?g _ =>
          let s := constr:(fun (f : T -> T) (r : R) => g (fun r0 => f (proj r0)) r) in
          let s := eval cbv beta in s in
          exact s
      end
  end.
#[export] Hint Extern 1 (Setter ?p) => build_setter p : typeclass_instances.

Notation "r <| f := v |>" := (set f (fun _ => v) r)
  (at level 1, left associativity, f constr at next level).
Notation "r <| f ::= g |>" := (set f g r)
  (at level 1, left associativity, f constr at next level).

(** * Stateful calls

    A method with [&mut self] maps the state before the call to its outcome
    and the state after it; the state is kept when the call returns an error,
    as the updates made before a [return Err(..)] are. *)
Definition ST (S E A : Type) : Type := S -> res E A * S.

#[export] Instance st_ret S E : MRet (ST S E) := fun A a s => (Ok a, s).
#[export] Instance st_bind S E : MBind (ST S E) := fun A B f m s =>
  match m s with
  | (Ok a, s') => f a s'
  | (Err e, s') => (Err e, s')
  | (Panic, s') => (Panic, s')
  | (OutOfFuel, s') => (OutOfFuel, s')
  end.

Definition st_get {S E A} (f : S -> A) : ST S E A := fun s => (Ok (f s), s).
Definition st_modify {S E} (f : S -> S) : ST S E unit := fun s => (Ok tt, f s).
Definition st_lift {S E A} (r : res E A) : ST S E A := fun s => (r, s).
Definition st_raise {S E A} (e : E) : ST S E A := fun s => (Err e, s).
Definition st_when {S E} (b : bool) (m : ST S E unit) : ST S E unit :=
  if b then m else mret tt.

(** [for x in l { body x }] *)
Fixpoint st_for {S E A} (l : list A) (body : A -> ST S E unit) : ST S E unit :=
  match l with
  | [] => mret tt
  | x :: l' => body x ≫= fun _ => st_for l' body
  end.

(** The loop with values carried from one round to the next. *)
Fixpoint st_fold {S E A B} (l : list A) (body : B -> A -> ST S E B) (b : B) : ST S E B :=
  match l with
  | [] => mret b
  | x :: l' => body b x ≫= fun b' => st_fold l' body b'
  end.

(** [tame r]: the call does not run out of fuel, and if it panics the cause can
    only be an arithmetic overflow in a build that checks for it. *)
Definition tame {P : Profile} {E A} (r : res E A) : Prop :=
  match r with
  | Ok _ | Err _ => True
  | Panic => overflow_checks = true
  | OutOfFuel => False
  end.

Section tame.
Context {P : Profile} {E : Type}.

Lemma tame_bind {A B} (r : res E A) (f : A -> res E B) :
  tame r -> (forall a, r = Ok a -> tame (f a)) -> tame (r ≫= f).
Proof. intros Hr Hf. destruct r; try done. by apply Hf. Qed.

Lemma tame_fmap {A B} (r : res E A) (f : A -> B) : tame r -> tame (f <$> r).
Proof. by destruct r. Qed.

Lemma tame_arith w z : tame (arith (E := E) w z).
Proof. unfold arith. destruct (in_rangeb w z); [done|]. by destruct overflow_checks eqn:H. Qed.

Lemma tame_Ok {A} (a : A) : tame (E := E) (Ok a). Proof. done. Qed.
Lemma tame_Err {A} (e : E) : tame (A := A) (Err e). Proof. done. Qed.
End tame.

Create HintDb tame.
#[export] Hint Resolve tame_arith tame_Ok tame_Err tame_fmap : tame.

Ltac solve_tame :=
  repeat first
    [ solve [eauto with tame nocore]
    | apply tame_fmap
    | apply tame_bind; [|intros]
    | case_match ].

(** [triple P m Q R]: from a state satisfying [P], the call [m] terminates,
    with [Q] on success and [R] on an error; it panics only on an overflow in a
    build that checks for it. *)
Definition triple {P : Profile} {S E A} (Pre : S -> Prop) (m : ST S E A)
    (Q : A -> S -> Prop) (R : E -> S -> Prop) : Prop :=
  forall s, Pre s ->
  match m s with
  | (Ok a, s') => Q a s'
  | (Err e, s') => R e s'
  | (Panic, _) => overflow_checks = true
  | (OutOfFuel, _) => False
  end.

(** [keeps I R m]: [m] preserves [I], and an error ends in a state with [R]. *)
Definition keeps {P : Profile} {S E A} (I : S -> Prop) (R : E -> S -> Prop) (m : ST S E A) : Prop :=
  triple I m (fun _ => I) R.

Section triples.
Context {P : Profile} {S E : Type}.
Implicit Types Pre I : S -> Prop.
Implicit Types R : E -> S -> Prop.

Lemma triple_ret {A} Pre (a : A) (Q : A -> S -> Prop) R :
  (forall s, Pre s -> Q a s) -> triple Pre (mret a) Q R.
Proof. intros H s Hs. by apply H. Qed.

Lemma triple_modify Pre (f : S -> S) (Q : unit -> S -> Prop) R :
  (forall s, Pre s -> Q tt (f s)) -> triple Pre (st_modify f) Q R.
Proof. intros H s Hs. by apply H. Qed.

Lemma triple_bind {A B} Pre (m : ST S E A) (f : A -> ST S E B) Q0 (Q : B -> S -> Prop) R :
  triple Pre m Q0 R -> (forall a, triple (Q0 a) (f a) Q R) -> triple Pre (m ≫= f) Q R.
Proof.
  intros Hm Hf s Hs. unfold mbind, st_bind. specialize (Hm s Hs).
  destruct (m s) as [[a|e| |] s'] eqn:Em; try done. by apply Hf.
Qed.

Lemma triple_conseq {A} Pre Pre' (m : ST S E A) Q Q' R R' :
  triple Pre' m Q' R' -> (forall s, Pre s -> Pre' s) ->
  (forall a s, Q' a s -> Q a s) -> (forall e s, R' e s -> R e s) -> triple Pre m Q R.
Proof.
  intros Hm HP HQ HR s Hs. specialize (Hm s (HP s Hs)). destruct (m s) as [[] ?]; auto.
Qed.

(** A read: what was read is known of the state that follows. *)
Lemma triple_bind_get {A B} Pre (f : S -> A) (k : A -> ST S E B) Q R :
  (forall x, triple (fun s => Pre s /\ f s = x) (k x) Q R) -> triple Pre (st_get f ≫= k) Q R.
Proof. intros H s Hs. by apply H. Qed.

Lemma triple_bind_modify {B} Pre Pre' (f : S -> S) (k : unit -> ST S E B) Q R :
  (forall s, Pre s -> Pre' (f s)) -> triple Pre' (k tt) Q R -> triple Pre (st_modify f ≫= k) Q R.
Proof. intros Hf H s Hs. by apply H, Hf. Qed.

Lemma triple_bind_lift {A B} Pre (r : res E A) (k : A -> ST S E B) Q R :
  tame r -> (forall e s, Pre s -> r = Err e -> R e s) ->
  (forall x, r = Ok x -> triple Pre (k x) Q R) -> triple Pre (st_lift r ≫= k) Q R.
Proof. intros Hr HR H s Hs. unfold st_lift, mbind, st_bind. destruct r; eauto. by apply H. Qed.

Lemma triple_pre {A} (prem : Prop) Pre (m : ST S E A) Q R :
  (prem -> triple Pre m Q R) -> triple (fun s => prem /\ Pre s) m Q R.
Proof. intros H s [Hp Hs]. by apply H. Qed.

Lemma keeps_ret {A} I R (a : A) : keeps I R (mret a).
Proof. by apply triple_ret. Qed.

Lemma keeps_bind {A B} I R (m : ST S E A) (f : A -> ST S E B) :
  keeps I R m -> (forall a, keeps I R (f a)) -> keeps I R (m ≫= f).
Proof. intros Hm Hf. eapply triple_bind; [exact Hm|]. intros a. apply Hf. Qed.

Lemma keeps_get {A} I R (f : S -> A) : keeps I R (st_get f).
Proof. by intros s Hs. Qed.

Lemma keeps_modify I R (f : S -> S) : (forall s, I s -> I (f s)) -> keeps I R (st_modify f).
Proof. intros H s Hs. by apply H. Qed.

Lemma keeps_lift {A} I R (r : res E A) :
  tame r -> (forall e s, I s -> r = Err e -> R e s) -> keeps I R (st_lift r).
Proof. intros H HR s Hs. unfold st_lift. destruct r; eauto. Qed.

Lemma keeps_arith I R w z : keeps I R (st_lift (arith w z)).
Proof. apply keeps_lift; [apply tame_arith|]. intros e s _ H. by apply arith_not_Err in H. Qed.

Lemma keeps_raise {A} I R (e : E) : (forall s, I s -> R e s) -> keeps (A := A) I R (st_raise e).
Proof. intros H s Hs. by apply H. Qed.

Lemma keeps_when I R b (m : ST S E unit) : (b = true -> keeps I R m) -> keeps I R (st_when b m).
Proof. intros H. destruct b; [by apply H|]. apply keeps_ret. Qed.

Lemma keeps_for {A} I R (l : list A) (body : A -> ST S E unit) :
  (forall x, x ∈ l -> keeps I R (body x)) -> keeps I R (st_for l body).
Proof.
  intros H. induction l as [|x l IH]; [apply keeps_ret|].
  simpl. apply keeps_bind; [apply H; by left|]. intros _. apply IH. intros y Hy. apply H. by right.
Qed.

Lemma keeps_fold {A B} I R (l : list A) (body : B -> A -> ST S E B) b :
  (forall b x, x ∈ l -> keeps I R (body b x)) -> keeps I R (st_fold l body b).
Proof.
  intros H. revert b. induction l as [|x l IH]; intros b; [apply keeps_ret|].
  simpl. apply keeps_bind; [apply H; by left|]. intros b'. apply IH. intros b0 y Hy. apply H. by right.
Qed.
End triples.

(** [stable f m]: however the call [m] ends, it does not change [f] of the state. *)
Definition stable {S E A T} (f : S -> T) (m : ST S E A) : Prop := forall s, f (snd (m s)) = f s.

Section stability.
Context {S E T : Type} (f : S -> T).

Lemma stable_ret {A} (x : A) : stable (E := E) f (mret x).
Proof. done. Qed.

Lemma stable_bind {A B} (m : ST S E A) (k : A -> ST S E B) :
  stable f m -> (forall x, stable f (k x)) -> stable f (m ≫= k).
Proof.
  intros Hm Hk s. unfold mbind, st_bind. specialize (Hm s). destruct (m s) as [[x|e| |] s']; cbn in *; try done.
  by rewrite (Hk x s').
Qed.

Lemma stable_get {A} (g : S -> A) : stable (E := E) f (st_get g).
Proof. done. Qed.

Lemma stable_lift {A} (r : res E A) : stable f (st_lift r).
Proof. done. Qed.

Lemma stable_raise {A} (e : E) : stable (A := A) f (st_raise e).
Proof. done. Qed.

Lemma stable_modify (g : S -> S) : (forall s, f (g s) = f s) -> stable (E := E) f (st_modify g).
Proof. done. Qed.

Lemma stable_when b (m : ST S E unit) : stable f m -> stable f (st_when b m).
Proof. by destruct b. Qed.

Lemma stable_for {A} (l : list A) (body : A -> ST S E unit) :
  (forall x, stable f (body x)) -> stable f (st_for l body).
Proof. intros H. induction l as [|x l IH]; [done|]. by apply stable_bind. Qed.

Lemma stable_fold {A B} (l : list A) (body : B -> A -> ST S E B) b :
  (forall b x, stable f (body b x)) -> stable f (st_fold l body b).
Proof. intros H. revert b. induction l as [|x l IH]; intros b; [done|]. by apply stable_bind. Qed.

Lemma triple_stable {P : Profile} {A} x (Pre : S -> Prop) (m : ST S E A) (Q : A -> S -> Prop) R :
  stable f m -> triple Pre m Q R ->
  triple (fun s => Pre s /\ f s = x) m (fun a s => Q a s /\ f s = x) R.
Proof.
  intros Hs Hm s [Hp Hx]. specialize (Hm s Hp). specialize (Hs s). destruct (m s) as [[] s']; cbn in *; try done.
  split; congruence.
Qed.
End stability.

Create HintDb stable.
#[export] Hint Resolve stable_ret stable_get stable_lift stable_raise : stable.

(** Proves [stable] along the structure of a program. *)
Ltac stab :=
  repeat first
    [ solve [auto with stable nocore]
    | apply stable_modify; intros ?; repeat case_match; reflexivity
    | apply stable_when
    | apply stable_for; intros
    | apply stable_fold; intros
    | apply stable_bind; [|intros]
    | intros ?; reflexivity
    | case_match ].

Create HintDb keeps.
#[export] Hint Resolve keeps_ret keeps_get keeps_arith : keeps.

(** Runs the primitive calls at the head of a stateful program. *)
Ltac st_run :=
  unfold st_get, st_modify, st_lift, st_raise, mret, st_ret, mbind, st_bind; cbn [fst snd].

Lemma st_bind_Ok {S E A B} (m : ST S E A) (k : A -> ST S E B) s b s' :
  (m ≫= k) s = (Ok b, s') -> exists a s1, m s = (Ok a, s1) /\ k a s1 = (Ok b, s').
Proof. unfold mbind, st_bind. destruct (m s) as [[a| | |] s1]; try done. eauto. Qed.

(** * Partial correctness of state programs

    [partial Pre m Q R] says what holds when the call [m] returns a value ([Q]) or an
    error ([R]).  Nothing is said of a panic: it ends the task, and no state is
    observed after it. *)
Definition partial {S E A} (Pre : S -> Prop) (m : ST S E A) (Q : A -> S -> Prop) (R : E -> S -> Prop) : Prop :=
  forall s, Pre s ->
  match m s with
  | (Ok a, s') => Q a s'
  | (Err e, s') => R e s'
  | _ => True
  end.

Section partial.
Context {S E : Type}.
Implicit Types Pre : S -> Prop.
Implicit Types R : E -> S -> Prop.

Lemma partial_ret {A} Pre (a : A) (Q : A -> S -> Prop) R : (forall s, Pre s -> Q a s) -> partial Pre (mret a) Q R.
Proof. intros H s Hs. by apply H. Qed.

Lemma partial_bind {A B} Pre (m : ST S E A) (f : A -> ST S E B) Q0 (Q : B -> S -> Prop) R :
  partial Pre m Q0 R -> (forall a, partial (Q0 a) (f a) Q R) -> partial Pre (m ≫= f) Q R.
Proof.
  intros Hm Hf s Hs. unfold mbind, st_bind. specialize (Hm s Hs). destruct (m s) as [[a|e| |] s']; try done.
  by apply Hf.
Qed.

Lemma partial_conseq {A} (Pre Pre' : S -> Prop) (m : ST S E A) (Q Q' : A -> S -> Prop) (R R' : E -> S -> Prop) :
  (forall s, Pre s -> Pre' s) -> (forall a s, Q' a s -> Q a s) -> (forall e s, R' e s -> R e s) ->
  partial Pre' m Q' R' -> partial Pre m Q R.
Proof.
  intros HP HQ HR H s Hs. specialize (H s (HP s Hs)). destruct (m s) as [[a|e| |] s']; auto.
Qed.

Lemma partial_pre {A} Pre (Pre' : S -> Prop) (m : ST S E A) Q R :
  (forall s, Pre s -> Pre' s) -> partial Pre' m Q R -> partial Pre m Q R.
Proof. intros H Hm s Hs. by apply Hm, H. Qed.

Lemma partial_err {A} Pre (m : ST S E A) Q R R' :
  (forall e s, R' e s -> R e s) -> partial Pre m Q R' -> partial Pre m Q R.
Proof. intros H Hm s Hs. specialize (Hm s Hs). destruct (m s) as [[a|e| |] s']; auto. Qed.

Lemma partial_post {A} Pre (m : ST S E A) (Q Q' : A -> S -> Prop) R :
  (forall a s, Q' a s -> Q a s) -> partial Pre m Q' R -> partial Pre m Q R.
Proof. intros H Hm s Hs. specialize (Hm s Hs). destruct (m s) as [[a|e| |] s']; auto. Qed.

Lemma partial_get {A B} Pre (f : S -> A) (k : A -> ST S E B) Q R :
  (forall x, partial (fun s => Pre s /\ f s = x) (k x) Q R) -> partial Pre (st_get f ≫= k) Q R.
Proof. intros H s Hs. apply (H (f s)). done. Qed.

Lemma partial_modify {B} Pre (Pre' : S -> Prop) (f : S -> S) (k : unit -> ST S E B) Q R :
  (forall s, Pre s -> Pre' (f s)) -> partial Pre' (k tt) Q R -> partial Pre (st_modify f ≫= k) Q R.
Proof. intros H Hk s Hs. apply Hk. by apply H. Qed.

Lemma partial_modify_last Pre (f : S -> S) (Q : unit -> S -> Prop) R :
  (forall s, Pre s -> Q tt (f s)) -> partial Pre (st_modify f) Q R.
Proof. intros H s Hs. by apply H. Qed.

Lemma partial_get_last {A} Pre (f : S -> A) (Q : A -> S -> Prop) R :
  (forall s, Pre s -> Q (f s) s) -> partial Pre (st_get f) Q R.
Proof. intros H s Hs. by apply H. Qed.

Lemma partial_lift {A} Pre (r : res E A) (Q : A -> S -> Prop) R :
  (forall a s, r = Ok a -> Pre s -> Q a s) -> (forall e s, r = Err e -> Pre s -> R e s) -> partial Pre (st_lift r) Q R.
Proof. intros HQ HR s Hs. cbn. destruct r; auto. Qed.

Lemma partial_raise {A} Pre (e : E) (Q : A -> S -> Prop) R : (forall s, Pre s -> R e s) -> partial Pre (st_raise e) Q R.
Proof. intros H s Hs. by apply H. Qed.

Lemma partial_when Pre b (m : ST S E unit) (Q : unit -> S -> Prop) R :
  (b = true -> partial Pre m Q R) -> (b = false -> forall s, Pre s -> Q tt s) -> partial Pre (st_when b m) Q R.
Proof. intros Ht Hf. destruct b; [by apply Ht|]. intros s Hs. by apply Hf. Qed.

Lemma partial_pure {A} Pre (m : ST S E A) Q R : (forall s, Pre s -> partial (fun s' => s' = s) m Q R) -> partial Pre m Q R.
Proof. intros H s Hs. by apply (H s Hs). Qed.

(** A loop keeps what every round keeps. *)
Lemma partial_for {A} (I : S -> Prop) (l : list A) (body : A -> ST S E unit) R :
  (forall a, partial I (body a) (fun _ => I) R) -> partial I (st_for l body) (fun _ => I) R.
Proof.
  intros H. induction l as [|a l IH]; cbn [st_for]; [by apply partial_ret|].
  eapply partial_bind; [apply H|]. intros []. exact IH.
Qed.

(** What only depends on a part of the state that a call leaves alone *)
Lemma partial_stable {A T} (f : S -> T) (I : T -> Prop) (m : ST S E A) :
  stable f m -> partial (fun s => I (f s)) m (fun _ s => I (f s)) (fun _ s => I (f s)).
Proof. intros Hm s Hs. specialize (Hm s). destruct (m s) as [[a|e| |] s']; cbn in *; by rewrite ?Hm. Qed.

Lemma partial_keep {A T} (f : S -> T) (J : S -> Prop) (m : ST S E A) :
  (forall s s', f s = f s' -> J s -> J s') -> stable f m -> partial J m (fun _ => J) (fun _ => J).
Proof. intros HJ Hm s Hs. specialize (Hm s). destruct (m s) as [[a|e| |] s']; cbn in *; eauto. Qed.

Lemma partial_and {A} Pre (m : ST S E A) (Q Q' : A -> S -> Prop) R R' :
  partial Pre m Q R -> partial Pre m Q' R' ->
  partial Pre m (fun a s => Q a s /\ Q' a s) (fun e s => R e s /\ R' e s).
Proof.
  intros H H' s Hs. specialize (H s Hs). specialize (H' s Hs). by destruct (m s) as [[a|e| |] s'].
Qed.
End partial.

(** Follows a program, from its precondition. *)
Ltac partial_step :=
  first
    [ apply partial_get; intros
    | eapply partial_modify; [intros ? ?|]
    | apply partial_raise; intros
    | apply partial_ret; intros
    | apply partial_modify_last; intros ].
