(* ===== verification/Serial.v ===== *)
(** Serial number arithmetic (RFC 1982) and the padding rule of
    [sctp/util.rs], and the sort the queues perform with it.

    [dist w a b] is the distance from [a] forward to [b] modulo [2^w]; every
    comparison of the source is characterised by it.  Numbers that lie within
    half the space after a common base are totally ordered, which is what
    makes the queues' sorts well defined; [sort_by] is proved to put any such
    list in increasing order of distance. *)
From S2P Require Import Prelude.
From Stdlib Require Import Permutation Sorted.

(** * sctp/util.rs *)
Definition PADDING_MULTIPLE : nat := 4.

Definition get_padding_size (len : nat) : nat :=
  ((PADDING_MULTIPLE - len `mod` PADDING_MULTIPLE) `mod` PADDING_MULTIPLE)%nat.

Definition sna32lt (i1 i2 : Z) : bool :=
  ((i1 <? i2) && (i2 - i1 <? Z.shiftl 1 31)) || ((i1 >? i2) && (i1 - i2 >? Z.shiftl 1 31)).

Definition sna32lte (i1 i2 : Z) : bool := (i1 =? i2) || sna32lt i1 i2.

Definition sna32gt (i1 i2 : Z) : bool :=
  ((i1 <? i2) && (i2 - i1 >=? Z.shiftl 1 31)) || ((i1 >? i2) && (i1 - i2 <=? Z.shiftl 1 31)).

Definition sna32gte (i1 i2 : Z) : bool := (i1 =? i2) || sna32gt i1 i2.

Definition sna16lt (i1 i2 : Z) : bool :=
  ((i1 <? i2) && (i2 - i1 <? Z.shiftl 1 15)) || ((i1 >? i2) && (i1 - i2 >? Z.shiftl 1 15)).

Definition sna16lte (i1 i2 : Z) : bool := (i1 =? i2) || sna16lt i1 i2.

Definition sna16gt (i1 i2 : Z) : bool :=
  ((i1 <? i2) && (i2 - i1 >=? Z.shiftl 1 15)) || ((i1 >? i2) && (i1 - i2 <=? Z.shiftl 1 15)).

(** [slice::sort_by] with a comparator that answers [Less] exactly when
    [lt a b]: the standard library's insertion of each element, from the last
    to the first, in front of the first element that is not less than it. *)
Fixpoint insert_by {A} (lt : A -> A -> bool) (x : A) (l : list A) : list A :=
  match l with
  | [] => [x]
  | y :: l' => if lt y x then y :: insert_by lt x l' else x :: y :: l'
  end.

Definition sort_by {A} (lt : A -> A -> bool) (l : list A) : list A :=
  foldr (insert_by lt) [] l.

(** * Padding *)
Lemma get_padding_size_spec len :
  (get_padding_size len < 4 /\ (len + get_padding_size len) `mod` 4 = 0)%nat.
Proof.
  unfold get_padding_size, PADDING_MULTIPLE. rewrite <- Nat.Div0.add_mod_idemp_l.
  pose proof (Nat.mod_upper_bound len 4 ltac:(lia)).
  destruct (len `mod` 4)%nat as [|[|[|[|n]]]]; [cbn; lia..|lia].
Qed.

Lemma get_padding_size_lt len : (get_padding_size len < 4)%nat.
Proof. apply get_padding_size_spec. Qed.

Lemma get_padding_size_mult len : (len `mod` 4 = 0)%nat -> get_padding_size len = 0%nat.
Proof. unfold get_padding_size, PADDING_MULTIPLE. by intros ->. Qed.

(** * Distance *)
Definition dist (w a b : Z) : Z := (b - a) mod 2 ^ w.

Ltac serial_arith :=
  unfold dist, in_range, wrap in *;
  change (2 ^ 32) with 4294967296 in *; change (2 ^ 31) with 2147483648 in *;
  change (2 ^ 16) with 65536 in *; change (2 ^ 15) with 32768 in *;
  change (Z.shiftl 1 31) with 2147483648 in *; change (Z.shiftl 1 15) with 32768 in *;
  Z.div_mod_to_equations; lia.

Ltac serial_bool :=
  unfold sna32lte, sna32gte, sna16lte, sna32lt, sna32gt, sna16lt, sna16gt in *; serial_arith.

Lemma dist_range w a b : 0 <= w -> 0 <= dist w a b < 2 ^ w.
Proof. intros. apply Z.mod_pos_bound, Z.pow_pos_nonneg; lia. Qed.

Lemma dist_self w a : dist w a a = 0.
Proof. unfold dist. by rewrite Z.sub_diag. Qed.

Section serial32.
Context (a b : Z) (Ha : in_range 32 a) (Hb : in_range 32 b).

Lemma dist32_zero : dist 32 a b = 0 <-> a = b.
Proof using Ha Hb. serial_arith. Qed.

Lemma sna32lt_spec : sna32lt a b = true <-> 0 < dist 32 a b < 2 ^ 31.
Proof using Ha Hb. serial_bool. Qed.

Lemma sna32lte_spec : sna32lte a b = true <-> dist 32 a b < 2 ^ 31.
Proof using Ha Hb. serial_bool. Qed.

Lemma sna32gt_spec : sna32gt a b = true <-> 2 ^ 31 <= dist 32 a b.
Proof using Ha Hb. serial_bool. Qed.

Lemma sna32gt_lte : sna32gt a b = negb (sna32lte a b).
Proof using Ha Hb. serial_bool. Qed.
End serial32.

Section serial16.
Context (a b : Z) (Ha : in_range 16 a) (Hb : in_range 16 b).

Lemma sna16lt_spec : sna16lt a b = true <-> 0 < dist 16 a b < 2 ^ 15.
Proof using Ha Hb. serial_bool. Qed.

Lemma sna16lte_spec : sna16lte a b = true <-> dist 16 a b < 2 ^ 15.
Proof using Ha Hb. serial_bool. Qed.

Lemma sna16gt_lte : sna16gt a b = negb (sna16lte a b).
Proof using Ha Hb. serial_bool. Qed.
End serial16.

(** Two numbers within half the space after [c] compare as their distances
    from [c] do: serial order is total there, across the wrap-around too. *)
Lemma sna32lt_window c a b :
  in_range 32 c -> in_range 32 a -> in_range 32 b ->
  0 < dist 32 c a <= 2 ^ 31 -> 0 < dist 32 c b <= 2 ^ 31 ->
  sna32lt a b = (dist 32 c a <? dist 32 c b).
Proof. intros. serial_bool. Qed.

Lemma sna16lt_window c a b :
  in_range 16 c -> in_range 16 a -> in_range 16 b ->
  0 <= dist 16 c a < 2 ^ 15 -> 0 <= dist 16 c b < 2 ^ 15 ->
  sna16lt a b = (dist 16 c a <? dist 16 c b).
Proof. intros. serial_bool. Qed.

Lemma dist32_succ c t :
  in_range 32 c -> in_range 32 t -> 0 < dist 32 c t ->
  dist 32 (wrap 32 (c + 1)) t = dist 32 c t - 1.
Proof. intros. serial_arith. Qed.

Lemma dist32_add c k : in_range 32 c -> 0 <= k < 2 ^ 32 -> dist 32 c (wrap 32 (c + k)) = k.
Proof. intros. serial_arith. Qed.

Lemma dist32_inj c a b : in_range 32 c -> in_range 32 a -> in_range 32 b ->
  dist 32 c a = dist 32 c b -> a = b.
Proof. intros. serial_arith. Qed.

(** * Sorting *)
Section sort.
Context {A : Type} (lt : A -> A -> bool).

Lemma insert_by_perm x l : insert_by lt x l ≡ₚ x :: l.
Proof.
  induction l as [|y l IH]; simpl; [done|]. destruct (lt y x); [|done].
  rewrite IH. apply Permutation_swap.
Qed.

Lemma sort_by_perm l : sort_by lt l ≡ₚ l.
Proof. induction l as [|x l IH]; simpl; [done|]. by rewrite insert_by_perm, IH. Qed.

Lemma sort_by_length l : length (sort_by lt l) = length l.
Proof. by rewrite sort_by_perm. Qed.

Lemma elem_of_sort_by x l : x ∈ sort_by lt l <-> x ∈ l.
Proof. by rewrite sort_by_perm. Qed.

Context (key : A -> Z).

(** [lt] decides the order of the keys on the elements of [l]. *)
Definition agrees (l : list A) : Prop :=
  forall x y, x ∈ l -> y ∈ l -> lt x y = (key x <? key y).

Lemma agrees_perm l l' : l ≡ₚ l' -> agrees l -> agrees l'.
Proof. intros HP H x y Hx Hy. apply H; by rewrite HP. Qed.

Lemma agrees_cons x l : agrees (x :: l) -> agrees l.
Proof. intros H a b Ha Hb. apply H; by right. Qed.

Lemma insert_by_sorted x l :
  agrees (x :: l) -> StronglySorted (fun a b => key a <= key b) l ->
  StronglySorted (fun a b => key a <= key b) (insert_by lt x l).
Proof.
  intros Hag Hs. induction Hs as [|y l Hs IH Hy]; simpl; [by repeat constructor|].
  rewrite (Hag y x) by (rewrite ?elem_of_cons; auto).
  destruct (key y <? key x) eqn:Hyx.
  - constructor.
    + apply IH. intros a b Ha Hb. rewrite elem_of_cons in Ha, Hb.
      apply Hag; rewrite !elem_of_cons; tauto.
    + apply Forall_forall. intros z Hz. rewrite insert_by_perm in Hz.
      apply elem_of_cons in Hz as [->|Hz]; [lia|]. rewrite Forall_forall in Hy. auto.
  - constructor; [by constructor|]. constructor; [lia|].
    eapply Forall_impl; [exact Hy|]. simpl. lia.
Qed.

Lemma sort_by_sorted l :
  agrees l -> StronglySorted (fun a b => key a <= key b) (sort_by lt l).
Proof.
  induction l as [|x l IH]; simpl; intros Hag; [constructor|].
  apply insert_by_sorted.
  - eapply agrees_perm; [|exact Hag]. constructor. symmetry. apply sort_by_perm.
  - apply IH. by eapply agrees_cons.
Qed.

Lemma insert_by_min x l :
  agrees (x :: l) -> Forall (fun y => key x <= key y) l -> insert_by lt x l = x :: l.
Proof.
  intros Hag Hmin. destruct l as [|y l]; [done|]. simpl.
  rewrite (Hag y x) by (rewrite ?elem_of_cons; auto).
  inversion Hmin; subst. by destruct (Z.ltb_spec (key y) (key x)); [lia|].
Qed.

Lemma sort_by_id l :
  agrees l -> StronglySorted (fun a b => key a <= key b) l -> sort_by lt l = l.
Proof.
  intros Hag Hs. induction Hs as [|x l Hs IH Hx]; simpl; [done|].
  rewrite IH by (by eapply agrees_cons). by apply insert_by_min.
Qed.

(** With distinct keys the order is strict, and the result is the only
    sorted arrangement of the elements. *)
Lemma sorted_strict l :
  NoDup (map key l) -> StronglySorted (fun a b => key a <= key b) l ->
  StronglySorted (fun a b => key a < key b) l.
Proof.
  intros Hnd Hs. induction Hs as [|x l Hs IH Hx]; [constructor|].
  cbn in Hnd. apply NoDup_cons in Hnd as [Hnin Hnd]. constructor; [auto|].
  rewrite Forall_forall in Hx |- *. intros y Hy. specialize (Hx y Hy).
  assert (key x <> key y); [|lia].
  intros Heq. apply Hnin. rewrite Heq. apply list_elem_of_In, in_map. by apply list_elem_of_In.
Qed.
End sort.

(** The TSNs of a queue whose elements all lie within half the space after
    [c] are sorted by their distance from [c]. *)
Definition window32 (c t : Z) : Prop := in_range 32 t /\ 0 < dist 32 c t <= 2 ^ 31.

Lemma window32_agrees {A} (key : A -> Z) c l :
  in_range 32 c -> Forall (fun x => window32 c (key x)) l ->
  agrees (fun a b => sna32lt (key a) (key b)) (fun x => dist 32 c (key x)) l.
Proof.
  intros Hc Hl a b Ha Hb. rewrite Forall_forall in Hl.
  destruct (Hl a Ha), (Hl b Hb). by apply sna32lt_window.
Qed.

Lemma sort32_sorted {A} (key : A -> Z) c l :
  in_range 32 c -> Forall (fun x => window32 c (key x)) l -> NoDup (map key l) ->
  StronglySorted (fun a b => dist 32 c (key a) < dist 32 c (key b))
    (sort_by (fun a b => sna32lt (key a) (key b)) l).
Proof.
  intros Hc Hl Hnd. eapply (sorted_strict (fun x => dist 32 c (key x))).
  - rewrite sort_by_perm. rewrite <- (map_map key (dist 32 c)).
    assert (Hin : Forall (window32 c) (map key l)) by (by apply Forall_map).
    clear Hl. induction (map key l) as [|t ts IH]; [constructor|].
    apply NoDup_cons in Hnd as [Hnin Hnd]. inversion Hin as [|?? Ht Hts]; subst.
    cbn. constructor; [|by apply IH].
    intros (t' & Heq & Ht')%list_elem_of_In%in_map_iff. apply Hnin.
    rewrite Forall_forall in Hts. apply list_elem_of_In in Ht'.
    destruct (Hts t' Ht'), Ht. rewrite (dist32_inj c t t') by done. done.
  - apply (sort_by_sorted _ (fun x => dist 32 c (key x))). by apply window32_agrees.
Qed.
