(* ===== verification/Errors.v ===== *)
(** The error type of the SCTP crate ([sctp/error.rs]) and the chunk type
    numbers ([sctp/chunk/chunk_type.rs]). *)
From S2P Require Import Prelude.

Inductive Error : Type :=
  | ErrChunkHeaderTooSmall
  | ErrChunkHeaderNotEnoughSpace
  | ErrChunkHeaderPaddingNonZero
  | ErrChunkHeaderInvalidLength
  | ErrChunkTypeNotAbort
  | ErrChunkTypeNotCookieAck
  | ErrChunkTypeNotCookieEcho
  | ErrChunkTypeNotCtError
  | ErrChunkTooShort
  | ErrChunkTypeNotForwardTsn
  | ErrChunkTypeNotHeartbeat
  | ErrChunkTypeNotHeartbeatAck
  | ErrHeartbeatNotLongEnoughInfo
  | ErrHeartbeatParam
  | ErrHeartbeatAckParams
  | ErrHeartbeatAckNotHeartbeatInfo
  | ErrErrorCauseTooSmall
  | ErrParamTypeUnhandled
  | ErrParamTypeUnexpected
  | ErrParamHeaderTooShort
  | ErrSsnResetRequestParamTooShort
  | ErrReconfigRespParamTooShort
  | ErrInvalidAlgorithmType
  | ErrChunkTypeNotTypeInit
  | ErrChunkValueNotLongEnough
  | ErrChunkTypeInitFlagZero
  | ErrChunkTypeInitInitateTagZero
  | ErrInitInboundStreamRequestZero
  | ErrInitOutboundStreamRequestZero
  | ErrInitAdvertisedReceiver1500
  | ErrChunkPayloadSmall
  | ErrChunkTypeNotPayloadData
  | ErrChunkTypeNotReconfig
  | ErrChunkReconfigInvalidParamA
  | ErrChunkTypeNotSack
  | ErrSackSizeNotLargeEnoughInfo
  | ErrInvalidChunkSize
  | ErrChunkTypeNotShutdown
  | ErrChunkTypeNotShutdownAck
  | ErrChunkTypeNotShutdownComplete
  | ErrPacketRawTooSmall
  | ErrParseSctpChunkNotEnoughData
  | ErrUnmarshalUnknownChunkType
  | ErrChecksumMismatch
  | ErrTryAgain
  | ErrChunk
  | ErrAssociationHandshakeClosed
  | ErrInitNotStoredToSend
  | ErrCookieEchoNotStoredToSend
  | ErrSctpPacketSourcePortZero
  | ErrSctpPacketDestinationPortZero
  | ErrInitChunkBundled
  | ErrInitChunkVerifyTagNotZero
  | ErrHandleInitState
  | ErrInitAckNoCookie
  | ErrStreamAlreadyExist
  | ErrStreamCreateFailed
  | ErrInflightQueueTsnPop
  | ErrTsnRequestNotExist
  | ErrResetPacketInStateNotExist
  | ErrParamterType
  | ErrPayloadDataStateNotExist
  | ErrChunkTypeUnhandled
  | ErrHandshakeInitAck
  | ErrHandshakeCookieEcho
  | ErrOutboundPacketTooLarge
  | ErrStreamClosed
  | ErrShortBuffer
  | ErrEof
  | ErrInvalidSystemTime.

#[export] Instance Error_eq_dec : EqDecision Error.
Proof. solve_decision. Defined.

(** [struct ChunkType(u8)] *)
Abbreviation ChunkType := Z.

Definition CT_PAYLOAD_DATA : ChunkType := 0.
Definition CT_INIT : ChunkType := 1.
Definition CT_INIT_ACK : ChunkType := 2.
Definition CT_SACK : ChunkType := 3.
Definition CT_HEARTBEAT : ChunkType := 4.
Definition CT_HEARTBEAT_ACK : ChunkType := 5.
Definition CT_ABORT : ChunkType := 6.
Definition CT_SHUTDOWN : ChunkType := 7.
Definition CT_SHUTDOWN_ACK : ChunkType := 8.
Definition CT_ERROR : ChunkType := 9.
Definition CT_COOKIE_ECHO : ChunkType := 10.
Definition CT_COOKIE_ACK : ChunkType := 11.
Definition CT_CWR : ChunkType := 13.
Definition CT_SHUTDOWN_COMPLETE : ChunkType := 14.
Definition CT_RECONFIG : ChunkType := 130.
Definition CT_FORWARD_TSN : ChunkType := 192.
