(* ===== verification/Param.v ===== *)
(** The parameters of INIT, INIT ACK, HEARTBEAT and RE-CONFIG chunks
    ([sctp/param/]): one record per parameter type with the methods of the
    [Param] trait, the trait as the class [ParamImpl], [Box<dyn Param>] as the
    sum [Param], and [build_param].  [ParamLaws] is the codec contract: what
    [marshal] writes, [unmarshal] reads back, whatever bytes follow. *)
From S2P Require Import Prelude Serial Errors.

(** * param_type.rs *)
Inductive ParamType : Type :=
  | HeartbeatInfo | Ipv4Addr | Ipv6Addr | StateCookie | UnrecognizedParam
  | CookiePreservative | HostNameAddr | SupportedAddrTypes | OutSsnResetReq
  | IncSsnResetReq | SsnTsnResetReq | ReconfigResp | AddOutStreamsReq
  | AddIncStreamsReq | Random | ChunkList | ReqHmacAlgo | Padding | SupportedExt
  | ForwardTsnSupp | AddIpAddr | DelIpaddr | ErrClauseInd | SetPriAddr | SuccessInd
  | ParamTypeUnknown.

#[export] Instance ParamType_eq_dec : EqDecision ParamType.
Proof. solve_decision. Defined.

Definition ParamType_from (v : Z) : ParamType :=
  match v with
  | 1 => HeartbeatInfo | 5 => Ipv4Addr | 6 => Ipv6Addr | 7 => StateCookie
  | 8 => UnrecognizedParam | 9 => CookiePreservative | 11 => HostNameAddr
  | 12 => SupportedAddrTypes | 13 => OutSsnResetReq | 14 => IncSsnResetReq
  | 15 => SsnTsnResetReq | 16 => ReconfigResp | 17 => AddOutStreamsReq
  | 18 => AddIncStreamsReq | 32770 => Random | 32771 => ChunkList
  | 32772 => ReqHmacAlgo | 32773 => Padding | 32776 => SupportedExt
  | 49152 => ForwardTsnSupp | 49153 => AddIpAddr | 49154 => DelIpaddr
  | 49155 => ErrClauseInd | 49156 => SetPriAddr | 49157 => SuccessInd
  | _ => ParamTypeUnknown
  end.

(** [self.typ as u16]: the declared discriminants, and the next free value
    for [Unknown]. *)
Definition ParamType_as_u16 (t : ParamType) : Z :=
  match t with
  | HeartbeatInfo => 1 | Ipv4Addr => 5 | Ipv6Addr => 6 | StateCookie => 7
  | UnrecognizedParam => 8 | CookiePreservative => 9 | HostNameAddr => 11
  | SupportedAddrTypes => 12 | OutSsnResetReq => 13 | IncSsnResetReq => 14
  | SsnTsnResetReq => 15 | ReconfigResp => 16 | AddOutStreamsReq => 17
  | AddIncStreamsReq => 18 | Random => 32770 | ChunkList => 32771
  | ReqHmacAlgo => 32772 | Padding => 32773 | SupportedExt => 32776
  | ForwardTsnSupp => 49152 | AddIpAddr => 49153 | DelIpaddr => 49154
  | ErrClauseInd => 49155 | SetPriAddr => 49156 | SuccessInd => 49157
  | ParamTypeUnknown => 49158
  end.

Lemma ParamType_roundtrip t : ParamType_from (ParamType_as_u16 t) = t.
Proof. by destruct t. Qed.

Lemma ParamType_as_u16_range t : in_range 16 (ParamType_as_u16 t).
Proof. destruct t; unfold in_range; simpl; lia. Qed.

(** * The trait [Param] (param/mod.rs) and the header (param_header.rs) *)
Record ParamHeader := mkParamHeader { ph_typ : ParamType; ph_value_length : Z }.

Definition PARAM_HEADER_LENGTH : nat := 4.

Class ParamImpl {P : Profile} (T : Type) := {
  p_header : T -> ParamHeader;
  p_unmarshal : bytes -> res Error T;
  p_marshal_to : T -> bytes -> res Error bytes;
  p_value_length : T -> nat
}.

Definition ParamHeader_unmarshal (raw : bytes) : res Error ParamHeader :=
  if (length raw <? PARAM_HEADER_LENGTH)%nat then Err ErrParamHeaderTooShort
  else
    '(typ, reader) ← get_u16 raw;
    '(len, _) ← get_u16 reader;
    if (Z.to_nat len <? PARAM_HEADER_LENGTH)%nat || (length raw <? Z.to_nat len)%nat
    then Err ErrParamHeaderTooShort
    else Ok (mkParamHeader (ParamType_from typ)
               (wrap 16 (Z.of_nat (Z.to_nat len - PARAM_HEADER_LENGTH)))).

Definition ParamHeader_value_length (h : ParamHeader) : nat := Z.to_nat (ph_value_length h).

(** [value_length as u16] in every [header()] *)
Definition as_u16 (n : nat) : Z := wrap 16 (Z.of_nat n).

(** [raw.slice(PARAM_HEADER_LENGTH..PARAM_HEADER_LENGTH + header.value_length())] *)
Definition param_value (raw : bytes) (h : ParamHeader) : res Error bytes :=
  slice raw PARAM_HEADER_LENGTH (PARAM_HEADER_LENGTH + ParamHeader_value_length h).

Section params.
Context {P : Profile}.

Definition ParamHeader_marshal_to (h : ParamHeader) (writer : bytes) : res Error bytes :=
  let writer := writer ++ put_u16 (ParamType_as_u16 (ph_typ h)) in
  len ← add16 (ph_value_length h) (Z.of_nat PARAM_HEADER_LENGTH);
  Ok (writer ++ put_u16 len).

Definition p_marshal {T} {I : ParamImpl T} (p : T) : res Error bytes := p_marshal_to p [].

(** * param_forward_tsn_supported.rs *)
Record ParamForwardTsnSupported := mkParamForwardTsnSupported {}.

Definition ParamForwardTsnSupported_value_length (_ : ParamForwardTsnSupported) : nat := 0.

Definition ParamForwardTsnSupported_header (p : ParamForwardTsnSupported) : ParamHeader :=
  mkParamHeader ForwardTsnSupp (as_u16 (ParamForwardTsnSupported_value_length p)).

Definition ParamForwardTsnSupported_unmarshal (raw : bytes) : res Error ParamForwardTsnSupported :=
  _ ← ParamHeader_unmarshal raw;
  Ok mkParamForwardTsnSupported.

Definition ParamForwardTsnSupported_marshal_to (p : ParamForwardTsnSupported) (buf : bytes) :
    res Error bytes :=
  ParamHeader_marshal_to (ParamForwardTsnSupported_header p) buf.

#[global] Instance ParamForwardTsnSupported_impl : ParamImpl ParamForwardTsnSupported := {|
  p_header := ParamForwardTsnSupported_header;
  p_unmarshal := ParamForwardTsnSupported_unmarshal;
  p_marshal_to := ParamForwardTsnSupported_marshal_to;
  p_value_length := ParamForwardTsnSupported_value_length |}.

(** * param_supported_extensions.rs *)
Record ParamSupportedExtensions := mkParamSupportedExtensions { se_chunk_types : list ChunkType }.

(** [while reader.has_remaining() { chunk_types.push(ChunkType(reader.get_u8())) }] *)
Fixpoint read_chunk_types (reader : bytes) : list ChunkType :=
  match reader with
  | [] => []
  | b :: reader' => u8_of_byte b :: read_chunk_types reader'
  end.

Definition ParamSupportedExtensions_value_length (p : ParamSupportedExtensions) : nat :=
  length (se_chunk_types p).

Definition ParamSupportedExtensions_header (p : ParamSupportedExtensions) : ParamHeader :=
  mkParamHeader SupportedExt (as_u16 (ParamSupportedExtensions_value_length p)).

Definition ParamSupportedExtensions_unmarshal (raw : bytes) : res Error ParamSupportedExtensions :=
  header ← ParamHeader_unmarshal raw;
  reader ← param_value raw header;
  Ok (mkParamSupportedExtensions (read_chunk_types reader)).

Definition ParamSupportedExtensions_marshal_to (p : ParamSupportedExtensions) (buf : bytes) :
    res Error bytes :=
  buf ← ParamHeader_marshal_to (ParamSupportedExtensions_header p) buf;
  Ok (buf ++ flat_map put_u8 (se_chunk_types p)).

#[global] Instance ParamSupportedExtensions_impl : ParamImpl ParamSupportedExtensions := {|
  p_header := ParamSupportedExtensions_header;
  p_unmarshal := ParamSupportedExtensions_unmarshal;
  p_marshal_to := ParamSupportedExtensions_marshal_to;
  p_value_length := ParamSupportedExtensions_value_length |}.

(** * param_random.rs *)
Record ParamRandom := mkParamRandom { random_data : bytes }.

Definition ParamRandom_value_length (p : ParamRandom) : nat := length (random_data p).

Definition ParamRandom_header (p : ParamRandom) : ParamHeader :=
  mkParamHeader Random (as_u16 (ParamRandom_value_length p)).

Definition ParamRandom_unmarshal (raw : bytes) : res Error ParamRandom :=
  header ← ParamHeader_unmarshal raw;
  data ← param_value raw header;
  Ok (mkParamRandom data).

Definition ParamRandom_marshal_to (p : ParamRandom) (buf : bytes) : res Error bytes :=
  buf ← ParamHeader_marshal_to (ParamRandom_header p) buf;
  Ok (buf ++ random_data p).

#[global] Instance ParamRandom_impl : ParamImpl ParamRandom := {|
  p_header := ParamRandom_header;
  p_unmarshal := ParamRandom_unmarshal;
  p_marshal_to := ParamRandom_marshal_to;
  p_value_length := ParamRandom_value_length |}.

(** * param_chunk_list.rs *)
Record ParamChunkList := mkParamChunkList { cl_chunk_types : list ChunkType }.

Definition ParamChunkList_value_length (p : ParamChunkList) : nat := length (cl_chunk_types p).

Definition ParamChunkList_header (p : ParamChunkList) : ParamHeader :=
  mkParamHeader ChunkList (as_u16 (ParamChunkList_value_length p)).

Definition ParamChunkList_unmarshal (raw : bytes) : res Error ParamChunkList :=
  header ← ParamHeader_unmarshal raw;
  if decide (ph_typ header <> ChunkList) then Err ErrParamTypeUnexpected
  else
    reader ← param_value raw header;
    Ok (mkParamChunkList (read_chunk_types reader)).

Definition ParamChunkList_marshal_to (p : ParamChunkList) (buf : bytes) : res Error bytes :=
  buf ← ParamHeader_marshal_to (ParamChunkList_header p) buf;
  Ok (buf ++ flat_map put_u8 (cl_chunk_types p)).

#[global] Instance ParamChunkList_impl : ParamImpl ParamChunkList := {|
  p_header := ParamChunkList_header;
  p_unmarshal := ParamChunkList_unmarshal;
  p_marshal_to := ParamChunkList_marshal_to;
  p_value_length := ParamChunkList_value_length |}.

(** * param_state_cookie.rs *)
Record ParamStateCookie := mkParamStateCookie { psc_cookie : bytes }.

(** [ParamStateCookie::new()]: 32 bytes from the random generator, which are
    the argument. *)
Definition ParamStateCookie_new (random : bytes) : ParamStateCookie :=
  mkParamStateCookie (take 32 (random ++ replicate 32 Byte.x00)).

Definition ParamStateCookie_value_length (p : ParamStateCookie) : nat := length (psc_cookie p).

Definition ParamStateCookie_header (p : ParamStateCookie) : ParamHeader :=
  mkParamHeader StateCookie (as_u16 (ParamStateCookie_value_length p)).

Definition ParamStateCookie_unmarshal (raw : bytes) : res Error ParamStateCookie :=
  header ← ParamHeader_unmarshal raw;
  cookie ← param_value raw header;
  Ok (mkParamStateCookie cookie).

Definition ParamStateCookie_marshal_to (p : ParamStateCookie) (buf : bytes) : res Error bytes :=
  buf ← ParamHeader_marshal_to (ParamStateCookie_header p) buf;
  Ok (buf ++ psc_cookie p).

#[global] Instance ParamStateCookie_impl : ParamImpl ParamStateCookie := {|
  p_header := ParamStateCookie_header;
  p_unmarshal := ParamStateCookie_unmarshal;
  p_marshal_to := ParamStateCookie_marshal_to;
  p_value_length := ParamStateCookie_value_length |}.

(** * param_heartbeat_info.rs *)
Record ParamHeartbeatInfo := mkParamHeartbeatInfo { heartbeat_information : bytes }.

Definition ParamHeartbeatInfo_value_length (p : ParamHeartbeatInfo) : nat :=
  length (heartbeat_information p).

Definition ParamHeartbeatInfo_header (p : ParamHeartbeatInfo) : ParamHeader :=
  mkParamHeader HeartbeatInfo (as_u16 (ParamHeartbeatInfo_value_length p)).

Definition ParamHeartbeatInfo_unmarshal (raw : bytes) : res Error ParamHeartbeatInfo :=
  header ← ParamHeader_unmarshal raw;
  info ← param_value raw header;
  Ok (mkParamHeartbeatInfo info).

Definition ParamHeartbeatInfo_marshal_to (p : ParamHeartbeatInfo) (buf : bytes) : res Error bytes :=
  buf ← ParamHeader_marshal_to (ParamHeartbeatInfo_header p) buf;
  Ok (buf ++ heartbeat_information p).

#[global] Instance ParamHeartbeatInfo_impl : ParamImpl ParamHeartbeatInfo := {|
  p_header := ParamHeartbeatInfo_header;
  p_unmarshal := ParamHeartbeatInfo_unmarshal;
  p_marshal_to := ParamHeartbeatInfo_marshal_to;
  p_value_length := ParamHeartbeatInfo_value_length |}.

(** * param_outgoing_reset_request.rs *)
Record ParamOutgoingResetRequest := mkParamOutgoingResetRequest {
  reconfig_request_sequence_number : Z;
  reconfig_response_sequence_number : Z;
  sender_last_tsn : Z;
  stream_identifiers : list Z
}.

Definition PARAM_OUTGOING_RESET_REQUEST_STREAM_IDENTIFIERS_OFFSET : nat := 12.

(** [for _ in 0..n { v.push(reader.get_u16()) }] *)
Fixpoint read_u16s {E} (n : nat) (reader : bytes) : res E (list Z * bytes) :=
  match n with
  | O => Ok ([], reader)
  | S n' =>
      '(x, reader) ← get_u16 reader;
      '(xs, reader) ← read_u16s n' reader;
      Ok (x :: xs, reader)
  end.

Definition ParamOutgoingResetRequest_value_length (p : ParamOutgoingResetRequest) : nat :=
  (PARAM_OUTGOING_RESET_REQUEST_STREAM_IDENTIFIERS_OFFSET + length (stream_identifiers p) * 2)%nat.

Definition ParamOutgoingResetRequest_header (p : ParamOutgoingResetRequest) : ParamHeader :=
  mkParamHeader OutSsnResetReq (as_u16 (ParamOutgoingResetRequest_value_length p)).

(** The number of stream identifiers is computed by a [usize] subtraction. *)
Definition ParamOutgoingResetRequest_unmarshal (raw : bytes) :
    res Error ParamOutgoingResetRequest :=
  header ← ParamHeader_unmarshal raw;
  if (length raw <? PARAM_HEADER_LENGTH
                    + PARAM_OUTGOING_RESET_REQUEST_STREAM_IDENTIFIERS_OFFSET)%nat
  then Err ErrSsnResetRequestParamTooShort
  else
    reader ← param_value raw header;
    '(request, reader) ← get_u32 reader;
    '(response, reader) ← get_u32 reader;
    '(last_tsn, reader) ← get_u32 reader;
    rest ← sub64 (Z.of_nat (ParamHeader_value_length header))
                 (Z.of_nat PARAM_OUTGOING_RESET_REQUEST_STREAM_IDENTIFIERS_OFFSET);
    '(sids, _) ← read_u16s (Z.to_nat (rest / 2)) reader;
    Ok (mkParamOutgoingResetRequest request response last_tsn sids).

Definition ParamOutgoingResetRequest_marshal_to (p : ParamOutgoingResetRequest) (buf : bytes) :
    res Error bytes :=
  buf ← ParamHeader_marshal_to (ParamOutgoingResetRequest_header p) buf;
  Ok (buf ++ put_u32 (reconfig_request_sequence_number p)
          ++ put_u32 (reconfig_response_sequence_number p)
          ++ put_u32 (sender_last_tsn p)
          ++ flat_map put_u16 (stream_identifiers p)).

#[global] Instance ParamOutgoingResetRequest_impl : ParamImpl ParamOutgoingResetRequest := {|
  p_header := ParamOutgoingResetRequest_header;
  p_unmarshal := ParamOutgoingResetRequest_unmarshal;
  p_marshal_to := ParamOutgoingResetRequest_marshal_to;
  p_value_length := ParamOutgoingResetRequest_value_length |}.

(** * param_reconfig_response.rs *)
Inductive ReconfigResult : Type :=
  | SuccessNop | SuccessPerformed | Denied | ErrorWrongSsn
  | ErrorRequestAlreadyInProgress | ErrorBadSequenceNumber | InProgress
  | ReconfigResultUnknown.

#[export] Instance ReconfigResult_eq_dec : EqDecision ReconfigResult.
Proof. solve_decision. Defined.

Definition ReconfigResult_from (v : Z) : ReconfigResult :=
  match v with
  | 0 => SuccessNop | 1 => SuccessPerformed | 2 => Denied | 3 => ErrorWrongSsn
  | 4 => ErrorRequestAlreadyInProgress | 5 => ErrorBadSequenceNumber
  | 6 => InProgress | _ => ReconfigResultUnknown
  end.

Definition ReconfigResult_as_u32 (r : ReconfigResult) : Z :=
  match r with
  | SuccessNop => 0 | SuccessPerformed => 1 | Denied => 2 | ErrorWrongSsn => 3
  | ErrorRequestAlreadyInProgress => 4 | ErrorBadSequenceNumber => 5
  | InProgress => 6 | ReconfigResultUnknown => 7
  end.

Record ParamReconfigResponse := mkParamReconfigResponse {
  prr_response_sequence_number : Z;
  prr_result : ReconfigResult
}.

Definition ParamReconfigResponse_value_length (_ : ParamReconfigResponse) : nat := 8.

Definition ParamReconfigResponse_header (p : ParamReconfigResponse) : ParamHeader :=
  mkParamHeader ReconfigResp (as_u16 (ParamReconfigResponse_value_length p)).

Definition ParamReconfigResponse_unmarshal (raw : bytes) : res Error ParamReconfigResponse :=
  header ← ParamHeader_unmarshal raw;
  if (length raw <? 8 + PARAM_HEADER_LENGTH)%nat then Err ErrReconfigRespParamTooShort
  else
    reader ← param_value raw header;
    '(response, reader) ← get_u32 reader;
    '(result, reader) ← get_u32 reader;
    Ok (mkParamReconfigResponse response (ReconfigResult_from result)).

Definition ParamReconfigResponse_marshal_to (p : ParamReconfigResponse) (buf : bytes) :
    res Error bytes :=
  buf ← ParamHeader_marshal_to (ParamReconfigResponse_header p) buf;
  Ok (buf ++ put_u32 (prr_response_sequence_number p)
          ++ put_u32 (ReconfigResult_as_u32 (prr_result p))).

#[global] Instance ParamReconfigResponse_impl : ParamImpl ParamReconfigResponse := {|
  p_header := ParamReconfigResponse_header;
  p_unmarshal := ParamReconfigResponse_unmarshal;
  p_marshal_to := ParamReconfigResponse_marshal_to;
  p_value_length := ParamReconfigResponse_value_length |}.

(** * param_requested_hmac_algorithm.rs *)
Inductive HmacAlgorithm : Type :=
  | HmacResv1 | HmacSha128 | HmacResv2 | HmacSha256 | HmacUnknown.

#[export] Instance HmacAlgorithm_eq_dec : EqDecision HmacAlgorithm.
Proof. solve_decision. Defined.

Definition HmacAlgorithm_from (v : Z) : HmacAlgorithm :=
  match v with
  | 0 => HmacResv1 | 1 => HmacSha128 | 2 => HmacResv2 | 3 => HmacSha256
  | _ => HmacUnknown
  end.

Definition HmacAlgorithm_as_u16 (a : HmacAlgorithm) : Z :=
  match a with
  | HmacResv1 => 0 | HmacSha128 => 1 | HmacResv2 => 2 | HmacSha256 => 3
  | HmacUnknown => 4
  end.

Record ParamRequestedHmacAlgorithm := mkParamRequestedHmacAlgorithm {
  available_algorithms : list HmacAlgorithm
}.

(** The loop [while offset + 1 < header.value_length()], with [offset] going
    up by two: [n] rounds, each reading one [u16]. *)
Fixpoint read_hmac_algorithms (n : nat) (reader : bytes) : res Error (list HmacAlgorithm) :=
  match n with
  | O => Ok []
  | S n' =>
      '(v, reader) ← get_u16 reader;
      let a := HmacAlgorithm_from v in
      if bool_decide (a = HmacSha128) || bool_decide (a = HmacSha256) then
        rest ← read_hmac_algorithms n' reader;
        Ok (a :: rest)
      else Err ErrInvalidAlgorithmType
  end.

Definition ParamRequestedHmacAlgorithm_value_length (p : ParamRequestedHmacAlgorithm) : nat :=
  (2 * length (available_algorithms p))%nat.

Definition ParamRequestedHmacAlgorithm_header (p : ParamRequestedHmacAlgorithm) : ParamHeader :=
  mkParamHeader ReqHmacAlgo (as_u16 (ParamRequestedHmacAlgorithm_value_length p)).

Definition ParamRequestedHmacAlgorithm_unmarshal (raw : bytes) :
    res Error ParamRequestedHmacAlgorithm :=
  header ← ParamHeader_unmarshal raw;
  reader ← param_value raw header;
  algorithms ← read_hmac_algorithms (ParamHeader_value_length header / 2)%nat reader;
  Ok (mkParamRequestedHmacAlgorithm algorithms).

Definition ParamRequestedHmacAlgorithm_marshal_to (p : ParamRequestedHmacAlgorithm)
    (buf : bytes) : res Error bytes :=
  buf ← ParamHeader_marshal_to (ParamRequestedHmacAlgorithm_header p) buf;
  Ok (buf ++ flat_map (fun a => put_u16 (HmacAlgorithm_as_u16 a)) (available_algorithms p)).

#[global] Instance ParamRequestedHmacAlgorithm_impl : ParamImpl ParamRequestedHmacAlgorithm := {|
  p_header := ParamRequestedHmacAlgorithm_header;
  p_unmarshal := ParamRequestedHmacAlgorithm_unmarshal;
  p_marshal_to := ParamRequestedHmacAlgorithm_marshal_to;
  p_value_length := ParamRequestedHmacAlgorithm_value_length |}.

(** * [Box<dyn Param>] and [build_param] (param/mod.rs) *)
Inductive Param : Type :=
  | PForwardTsnSupported (p : ParamForwardTsnSupported)
  | PSupportedExtensions (p : ParamSupportedExtensions)
  | PRandom (p : ParamRandom)
  | PRequestedHmacAlgorithm (p : ParamRequestedHmacAlgorithm)
  | PChunkList (p : ParamChunkList)
  | PStateCookie (p : ParamStateCookie)
  | PHeartbeatInfo (p : ParamHeartbeatInfo)
  | POutgoingResetRequest (p : ParamOutgoingResetRequest)
  | PReconfigResponse (p : ParamReconfigResponse).

Definition build_param (raw_param : bytes) : res Error Param :=
  if (length raw_param <? PARAM_HEADER_LENGTH)%nat then Err ErrParamHeaderTooShort
  else
    reader ← slice raw_param 0 2;
    '(t, _) ← get_u16 reader;
    match ParamType_from t with
    | ForwardTsnSupp => p ← p_unmarshal raw_param; Ok (PForwardTsnSupported p)
    | SupportedExt => p ← p_unmarshal raw_param; Ok (PSupportedExtensions p)
    | Random => p ← p_unmarshal raw_param; Ok (PRandom p)
    | ReqHmacAlgo => p ← p_unmarshal raw_param; Ok (PRequestedHmacAlgorithm p)
    | ChunkList => p ← p_unmarshal raw_param; Ok (PChunkList p)
    | StateCookie => p ← p_unmarshal raw_param; Ok (PStateCookie p)
    | HeartbeatInfo => p ← p_unmarshal raw_param; Ok (PHeartbeatInfo p)
    | OutSsnResetReq => p ← p_unmarshal raw_param; Ok (POutgoingResetRequest p)
    | ReconfigResp => p ← p_unmarshal raw_param; Ok (PReconfigResponse p)
    | _ => Err ErrParamTypeUnhandled
    end.

(** Dynamic dispatch of the trait's methods. *)
#[global] Instance Param_impl : ParamImpl Param := {|
  p_header p :=
    match p with
    | PForwardTsnSupported p => p_header p | PSupportedExtensions p => p_header p
    | PRandom p => p_header p | PRequestedHmacAlgorithm p => p_header p
    | PChunkList p => p_header p | PStateCookie p => p_header p
    | PHeartbeatInfo p => p_header p | POutgoingResetRequest p => p_header p
    | PReconfigResponse p => p_header p
    end;
  p_unmarshal := build_param;
  p_marshal_to p buf :=
    match p with
    | PForwardTsnSupported p => p_marshal_to p buf | PSupportedExtensions p => p_marshal_to p buf
    | PRandom p => p_marshal_to p buf | PRequestedHmacAlgorithm p => p_marshal_to p buf
    | PChunkList p => p_marshal_to p buf | PStateCookie p => p_marshal_to p buf
    | PHeartbeatInfo p => p_marshal_to p buf | POutgoingResetRequest p => p_marshal_to p buf
    | PReconfigResponse p => p_marshal_to p buf
    end;
  p_value_length p :=
    match p with
    | PForwardTsnSupported p => p_value_length p | PSupportedExtensions p => p_value_length p
    | PRandom p => p_value_length p | PRequestedHmacAlgorithm p => p_value_length p
    | PChunkList p => p_value_length p | PStateCookie p => p_value_length p
    | PHeartbeatInfo p => p_value_length p | POutgoingResetRequest p => p_value_length p
    | PReconfigResponse p => p_value_length p
    end |}.
End params.

(** * The codec contract *)

(** A TLV: type, length and value as they appear on the wire. *)
Definition tlv (t : ParamType) (value : bytes) : bytes :=
  put_u16 (ParamType_as_u16 t) ++ put_u16 (Z.of_nat (length value) + 4) ++ value.

Definition fits (n : nat) : Prop := Z.of_nat n <= 65531.

(** [p] is written as [raw], [value_length] bytes after the header, and
    [raw] is read back as [p] whatever follows it. *)
Class ParamLaws {P : Profile} (T : Type) {I : ParamImpl T} (wf : T -> Prop) : Prop :=
  p_roundtrip p : wf p ->
    exists raw, p_marshal p = Ok raw /\ length raw = (PARAM_HEADER_LENGTH + p_value_length p)%nat /\
      forall tail, p_unmarshal (raw ++ tail) = Ok p.

Lemma as_u16_small n : fits n -> as_u16 n = Z.of_nat n.
Proof. intros H. unfold fits in H. apply wrap_small. unfold in_range. lia. Qed.

Lemma length_tlv t v : length (tlv t v) = (4 + length v)%nat.
Proof. unfold tlv. rewrite !length_app. simpl. lia. Qed.

Section laws.
Context {P : Profile}.

Lemma ParamHeader_marshal_ok t n buf : fits n ->
  ParamHeader_marshal_to (mkParamHeader t (as_u16 n)) buf
  = Ok (buf ++ put_u16 (ParamType_as_u16 t) ++ put_u16 (Z.of_nat n + 4)).
Proof.
  intros H. unfold ParamHeader_marshal_to. cbn [ph_typ ph_value_length].
  rewrite as_u16_small by done. unfold fits in H.
  rewrite arith_ok by (unfold in_range, PARAM_HEADER_LENGTH; lia).
  cbn -[put_u16]. by rewrite <- app_assoc.
Qed.

Lemma ParamHeader_unmarshal_tlv t v tail : fits (length v) ->
  ParamHeader_unmarshal (tlv t v ++ tail) = Ok (mkParamHeader t (Z.of_nat (length v))).
Proof.
  intros H. unfold fits in H. unfold ParamHeader_unmarshal.
  assert (Hl : length (tlv t v ++ tail) = (4 + length v + length tail)%nat)
    by (rewrite length_app, length_tlv; lia).
  rewrite Hl, ltb_false by (unfold PARAM_HEADER_LENGTH; lia).
  unfold tlv. rewrite <- !app_assoc.
  rewrite get_put_u16 by apply ParamType_as_u16_range. cbn [mbind res_bind].
  rewrite get_put_u16 by (unfold in_range; lia). cbn [mbind res_bind].
  unfold PARAM_HEADER_LENGTH. replace (Z.to_nat _) with (length v + 4)%nat by lia.
  rewrite ParamType_roundtrip.
  replace (_ || _) with false
    by (symmetry; apply orb_false_iff; split; apply Nat.ltb_ge; lia).
  do 2 f_equal. rewrite wrap_small by (unfold in_range; lia). lia.
Qed.

Lemma param_value_tlv t v tail :
  param_value (tlv t v ++ tail) (mkParamHeader t (Z.of_nat (length v))) = Ok v.
Proof.
  unfold param_value, ParamHeader_value_length, tlv. cbn [ph_value_length].
  rewrite Nat2Z.id. rewrite <- !app_assoc, (app_assoc (put_u16 _)).
  eapply slice_app; [done|by rewrite length_app|done].
Qed.

Lemma read_chunk_types_put l : Forall (in_range 8) l -> read_chunk_types (flat_map put_u8 l) = l.
Proof.
  induction 1 as [|x l Hx Hl IH]; [done|]. simpl. by rewrite u8_of_byte_of_u8, wrap_small, IH.
Qed.

Lemma length_flat_put_u8 l : length (flat_map put_u8 l) = length l.
Proof. induction l; simpl; auto. Qed.

Lemma read_u16s_put {E} l tail : Forall (in_range 16) l ->
  read_u16s (E := E) (length l) (flat_map put_u16 l ++ tail) = Ok (l, tail).
Proof.
  induction 1 as [|x l Hx Hl IH]; [done|]. cbn [length flat_map read_u16s].
  rewrite <- app_assoc, get_put_u16 by done. cbn [mbind res_bind]. by rewrite IH.
Qed.

Lemma length_flat_map_const {A B} (f : A -> list B) k l :
  (forall x, length (f x) = k) -> length (flat_map f l) = (k * length l)%nat.
Proof. intros Hf. induction l; simpl; rewrite ?length_app, ?Hf; lia. Qed.

Lemma read_hmac_put l : Forall (fun a => a = HmacSha128 \/ a = HmacSha256) l ->
  read_hmac_algorithms (length l) (flat_map (fun a => put_u16 (HmacAlgorithm_as_u16 a)) l) = Ok l.
Proof.
  induction 1 as [|x l Hx Hl IH]; [done|]. cbn [length flat_map read_hmac_algorithms].
  rewrite get_put_u16 by (destruct x; unfold in_range; simpl; lia). cbn [mbind res_bind].
  destruct Hx; subst x; cbn; by rewrite IH.
Qed.

(** A codec that writes [tlv t (value p)] and whose reader recovers [p] from
    it satisfies the contract. *)
Lemma ParamLaws_tlv {T} {I : ParamImpl T} (wf : T -> Prop) t (value : T -> bytes) :
  (forall p, wf p -> p_marshal p = Ok (tlv t (value p))) ->
  (forall p, wf p -> length (value p) = p_value_length p) ->
  (forall p tail, wf p -> p_unmarshal (tlv t (value p) ++ tail) = Ok p) ->
  ParamLaws T wf.
Proof.
  intros Hm Hl Hu p Hp. exists (tlv t (value p)). split_and!; [auto| |auto].
  by rewrite length_tlv, Hl.
Qed.

End laws.

Create HintDb param.
#[export] Hint Unfold p_marshal
  ParamForwardTsnSupported_impl ParamForwardTsnSupported_header ParamForwardTsnSupported_unmarshal ParamForwardTsnSupported_marshal_to ParamForwardTsnSupported_value_length
  ParamSupportedExtensions_impl ParamSupportedExtensions_header ParamSupportedExtensions_unmarshal ParamSupportedExtensions_marshal_to ParamSupportedExtensions_value_length
  ParamRandom_impl ParamRandom_header ParamRandom_unmarshal ParamRandom_marshal_to ParamRandom_value_length
  ParamChunkList_impl ParamChunkList_header ParamChunkList_unmarshal ParamChunkList_marshal_to ParamChunkList_value_length
  ParamStateCookie_impl ParamStateCookie_header ParamStateCookie_unmarshal ParamStateCookie_marshal_to ParamStateCookie_value_length
  ParamHeartbeatInfo_impl ParamHeartbeatInfo_header ParamHeartbeatInfo_unmarshal ParamHeartbeatInfo_marshal_to ParamHeartbeatInfo_value_length
  ParamOutgoingResetRequest_impl ParamOutgoingResetRequest_header ParamOutgoingResetRequest_unmarshal ParamOutgoingResetRequest_marshal_to ParamOutgoingResetRequest_value_length
  ParamReconfigResponse_impl ParamReconfigResponse_header ParamReconfigResponse_unmarshal ParamReconfigResponse_marshal_to ParamReconfigResponse_value_length
  ParamRequestedHmacAlgorithm_impl ParamRequestedHmacAlgorithm_header ParamRequestedHmacAlgorithm_unmarshal ParamRequestedHmacAlgorithm_marshal_to ParamRequestedHmacAlgorithm_value_length
  : param.

Ltac param_methods :=
  autounfold with param; cbn [p_marshal_to p_unmarshal p_value_length p_header];
  autounfold with param.

(** The two premises of [ParamLaws_tlv] about [marshal] and [unmarshal], for a
    parameter whose methods handle the header and then the value. *)
Ltac solve_param_marshal :=
  intros p Hp; param_methods;
  rewrite ParamHeader_marshal_ok by (unfold fits in *; cbn in *; lia);
  cbn [mbind res_bind app]; unfold tlv; rewrite <- ?app_assoc.

Ltac solve_param_unmarshal :=
  param_methods;
  rewrite ParamHeader_unmarshal_tlv by (unfold fits in *; cbn in *; lia);
  cbn [mbind res_bind ph_typ]; rewrite ?param_value_tlv; cbn [mbind res_bind].

Section instances.
Context {P : Profile}.

#[export] Instance ParamRandom_laws :
  ParamLaws ParamRandom (fun p => fits (length (random_data p))).
Proof.
  apply (ParamLaws_tlv _ Random random_data); [by solve_param_marshal|done|].
  intros [v] tail Hp. by solve_param_unmarshal.
Qed.

#[export] Instance ParamStateCookie_laws :
  ParamLaws ParamStateCookie (fun p => fits (length (psc_cookie p))).
Proof.
  apply (ParamLaws_tlv _ StateCookie psc_cookie); [by solve_param_marshal|done|].
  intros [v] tail Hp. by solve_param_unmarshal.
Qed.

#[export] Instance ParamHeartbeatInfo_laws :
  ParamLaws ParamHeartbeatInfo (fun p => fits (length (heartbeat_information p))).
Proof.
  apply (ParamLaws_tlv _ HeartbeatInfo heartbeat_information); [by solve_param_marshal|done|].
  intros [v] tail Hp. by solve_param_unmarshal.
Qed.

#[export] Instance ParamForwardTsnSupported_laws :
  ParamLaws ParamForwardTsnSupported (fun _ => True).
Proof.
  apply (ParamLaws_tlv _ ForwardTsnSupp (fun _ => [])); [by solve_param_marshal|done|].
  intros [] tail _. by solve_param_unmarshal.
Qed.

#[export] Instance ParamSupportedExtensions_laws :
  ParamLaws ParamSupportedExtensions
    (fun p => fits (length (se_chunk_types p)) /\ Forall (in_range 8) (se_chunk_types p)).
Proof.
  apply (ParamLaws_tlv _ SupportedExt (fun p => flat_map put_u8 (se_chunk_types p))).
  - solve_param_marshal. by rewrite length_flat_put_u8.
  - intros p _. by rewrite length_flat_put_u8.
  - intros [l] tail [Hf Hr]. cbn [se_chunk_types] in *.
    assert (fits (length (flat_map put_u8 l))) by (by rewrite length_flat_put_u8).
    solve_param_unmarshal. by rewrite read_chunk_types_put.
Qed.

#[export] Instance ParamChunkList_laws :
  ParamLaws ParamChunkList
    (fun p => fits (length (cl_chunk_types p)) /\ Forall (in_range 8) (cl_chunk_types p)).
Proof.
  apply (ParamLaws_tlv _ ChunkList (fun p => flat_map put_u8 (cl_chunk_types p))).
  - solve_param_marshal. by rewrite length_flat_put_u8.
  - intros p _. by rewrite length_flat_put_u8.
  - intros [l] tail [Hf Hr]. cbn [cl_chunk_types] in *.
    assert (fits (length (flat_map put_u8 l))) by (by rewrite length_flat_put_u8).
    solve_param_unmarshal. rewrite decide_False by auto. cbn [mbind res_bind].
    by rewrite read_chunk_types_put.
Qed.

Definition wf_hmac (p : ParamRequestedHmacAlgorithm) : Prop :=
  fits (2 * length (available_algorithms p)) /\
  Forall (fun a => a = HmacSha128 \/ a = HmacSha256) (available_algorithms p).

#[export] Instance ParamRequestedHmacAlgorithm_laws : ParamLaws ParamRequestedHmacAlgorithm wf_hmac.
Proof.
  assert (Hlen : forall l, length (flat_map (fun a => put_u16 (HmacAlgorithm_as_u16 a)) l)
                           = (2 * length l)%nat) by (intros; by apply length_flat_map_const).
  apply (ParamLaws_tlv _ ReqHmacAlgo
    (fun p => flat_map (fun a => put_u16 (HmacAlgorithm_as_u16 a)) (available_algorithms p))).
  - intros p [Hf Hw]. revert p Hf Hw. solve_param_marshal. intros _. by rewrite Hlen.
  - intros p _. apply Hlen.
  - intros [l] tail [Hf Hr]. cbn [available_algorithms] in *.
    assert (fits (length (flat_map (fun a => put_u16 (HmacAlgorithm_as_u16 a)) l)))
      by (by rewrite Hlen).
    solve_param_unmarshal. unfold ParamHeader_value_length. cbn [ph_value_length].
    rewrite Nat2Z.id, Hlen, Nat.mul_comm, Nat.div_mul by lia.
    by rewrite read_hmac_put.
Qed.

Definition wf_reset_request (p : ParamOutgoingResetRequest) : Prop :=
  fits (12 + length (stream_identifiers p) * 2) /\
  in_range 32 (reconfig_request_sequence_number p) /\
  in_range 32 (reconfig_response_sequence_number p) /\
  in_range 32 (sender_last_tsn p) /\ Forall (in_range 16) (stream_identifiers p).

Definition reset_request_value (p : ParamOutgoingResetRequest) : bytes :=
  put_u32 (reconfig_request_sequence_number p) ++ put_u32 (reconfig_response_sequence_number p)
  ++ put_u32 (sender_last_tsn p) ++ flat_map put_u16 (stream_identifiers p).

Lemma length_reset_request_value p :
  length (reset_request_value p) = (12 + length (stream_identifiers p) * 2)%nat.
Proof.
  unfold reset_request_value. rewrite !length_app, (length_flat_map_const _ 2) by done.
  simpl. lia.
Qed.

#[export] Instance ParamOutgoingResetRequest_laws :
  ParamLaws ParamOutgoingResetRequest wf_reset_request.
Proof.
  apply (ParamLaws_tlv _ OutSsnResetReq reset_request_value).
  - intros p (Hf & _). revert p Hf. solve_param_marshal.
    by rewrite length_reset_request_value.
  - intros p _. apply length_reset_request_value.
  - intros p tail (Hf & H1 & H2 & H3 & Hs).
    pose proof (length_reset_request_value p) as Hlen.
    assert (fits (length (reset_request_value p))) by (by rewrite Hlen).
    solve_param_unmarshal.
    rewrite length_app, length_tlv, !Hlen.
    rewrite ltb_false by (unfold PARAM_HEADER_LENGTH, PARAM_OUTGOING_RESET_REQUEST_STREAM_IDENTIFIERS_OFFSET; cbn [length]; rewrite ?length_put_u32; lia).
    unfold reset_request_value. repeat (rewrite get_put_u32 by done; cbn [mbind res_bind]).
    unfold ParamHeader_value_length. cbn [ph_value_length].
    rewrite Nat2Z.id. unfold PARAM_OUTGOING_RESET_REQUEST_STREAM_IDENTIFIERS_OFFSET.
    rewrite arith_ok by (unfold in_range, fits in *; lia). cbn [mbind res_bind].
    replace (Z.to_nat _) with (length (stream_identifiers p))
      by (replace (_ - _) with (Z.of_nat (length (stream_identifiers p)) * 2) by lia;
          rewrite Z.div_mul by lia; lia).
    rewrite <- (app_nil_r (flat_map _ _)), read_u16s_put by done. by destruct p.
Qed.

#[export] Instance ParamReconfigResponse_laws :
  ParamLaws ParamReconfigResponse (fun p => in_range 32 (prr_response_sequence_number p)).
Proof.
  apply (ParamLaws_tlv _ ReconfigResp (fun p =>
    put_u32 (prr_response_sequence_number p) ++ put_u32 (ReconfigResult_as_u32 (prr_result p)))).
  - by solve_param_marshal.
  - done.
  - intros [sn r] tail Hp. cbn [prr_response_sequence_number prr_result] in *.
    assert (fits (length (put_u32 sn ++ put_u32 (ReconfigResult_as_u32 r)))) by (unfold fits; simpl; lia).
    solve_param_unmarshal. rewrite length_app, length_tlv, length_app.
    rewrite ltb_false by (unfold PARAM_HEADER_LENGTH, PARAM_OUTGOING_RESET_REQUEST_STREAM_IDENTIFIERS_OFFSET; cbn [length]; rewrite ?length_put_u32; lia).
    rewrite get_put_u32 by done. cbn [mbind res_bind].
    rewrite <- (app_nil_r (put_u32 _)), get_put_u32 by (destruct r; unfold in_range; simpl; lia).
    by destruct r.
Qed.

Definition wf_param (p : Param) : Prop :=
  match p with
  | PForwardTsnSupported _ => True
  | PSupportedExtensions p => fits (length (se_chunk_types p)) /\ Forall (in_range 8) (se_chunk_types p)
  | PRandom p => fits (length (random_data p))
  | PRequestedHmacAlgorithm p => wf_hmac p
  | PChunkList p => fits (length (cl_chunk_types p)) /\ Forall (in_range 8) (cl_chunk_types p)
  | PStateCookie p => fits (length (psc_cookie p))
  | PHeartbeatInfo p => fits (length (heartbeat_information p))
  | POutgoingResetRequest p => wf_reset_request p
  | PReconfigResponse p => in_range 32 (prr_response_sequence_number p)
  end.

(** What the header of a written parameter says, for the dispatch on it. *)
Definition param_typ (p : Param) : ParamType := ph_typ (p_header p).

Lemma marshal_typ (p : Param) raw : p_marshal p = Ok raw ->
  exists rest, raw = put_u16 (ParamType_as_u16 (param_typ p)) ++ rest.
Proof.
  unfold param_typ. destruct p; param_methods; cbn [p_marshal_to p_header Param_impl];
    param_methods; unfold ParamHeader_marshal_to; cbn [ph_typ ph_value_length];
    (destruct (arith _ _); cbn [mbind res_bind]; [|done..]);
    intros [= <-]; cbn [app]; rewrite <- ?app_assoc; eauto.
Qed.

Lemma build_param_dispatch (p : Param) raw tail :
  p_marshal p = Ok raw -> (4 <= length raw)%nat ->
  build_param (raw ++ tail) =
    match p with
    | PForwardTsnSupported _ => PForwardTsnSupported <$> p_unmarshal (raw ++ tail)
    | PSupportedExtensions _ => PSupportedExtensions <$> p_unmarshal (raw ++ tail)
    | PRandom _ => PRandom <$> p_unmarshal (raw ++ tail)
    | PRequestedHmacAlgorithm _ => PRequestedHmacAlgorithm <$> p_unmarshal (raw ++ tail)
    | PChunkList _ => PChunkList <$> p_unmarshal (raw ++ tail)
    | PStateCookie _ => PStateCookie <$> p_unmarshal (raw ++ tail)
    | PHeartbeatInfo _ => PHeartbeatInfo <$> p_unmarshal (raw ++ tail)
    | POutgoingResetRequest _ => POutgoingResetRequest <$> p_unmarshal (raw ++ tail)
    | PReconfigResponse _ => PReconfigResponse <$> p_unmarshal (raw ++ tail)
    end.
Proof.
  intros Hm Hlen. destruct (marshal_typ p raw Hm) as [rest ->]. unfold build_param.
  rewrite length_app in Hlen. rewrite ltb_false by (rewrite !length_app; unfold PARAM_HEADER_LENGTH; lia).
  rewrite (slice_app _ [] (put_u16 (ParamType_as_u16 (param_typ p))) (rest ++ tail))
    by (rewrite <- ?app_assoc; done).
  cbn [mbind res_bind]. rewrite <- (app_nil_r (put_u16 _)) at 1.
  rewrite get_put_u16 by apply ParamType_as_u16_range. cbn [mbind res_bind].
  rewrite ParamType_roundtrip. unfold param_typ. by destruct p.
Qed.

#[export] Instance Param_laws : ParamLaws Param wf_param.
Proof.
  assert (Haux : forall T (I : ParamImpl T) wf (c : T -> Param),
    ParamLaws T wf -> forall p, wf p ->
    (forall p, p_marshal (c p) = p_marshal p) ->
    (forall p, p_value_length (c p) = p_value_length p) ->
    (forall raw tail, p_marshal (c p) = Ok raw -> (4 <= length raw)%nat ->
       build_param (raw ++ tail) = c <$> p_unmarshal (raw ++ tail)) ->
    exists raw, p_marshal (c p) = Ok raw /\
      length raw = (PARAM_HEADER_LENGTH + p_value_length (c p))%nat /\
      forall tail, p_unmarshal (raw ++ tail) = Ok (c p)).
  { intros T I wf c HL p Hp Hm Hv Hb. destruct (p_roundtrip p Hp) as (raw & Hr & Hlen & Hu).
    exists raw. rewrite Hm, Hv. split_and!; [done..|]. intros tail.
    cbn [p_unmarshal Param_impl]. unfold PARAM_HEADER_LENGTH in Hlen.
    rewrite (Hb raw tail), Hu by (rewrite ?Hm; first [done|lia]). done. }
  intros [p|p|p|p|p|p|p|p|p] Hp; (eapply Haux; [apply _|exact Hp|done|done|]);
    intros raw tail Hm Hl; by rewrite (build_param_dispatch _ _ _ Hm Hl).
Qed.
End instances.
