(* ===== verification/Chunk.v ===== *)
(** The SCTP chunks ([sctp/chunk/], [sctp/error_cause.rs]): one record per
    chunk type with the methods of the [Chunk] trait, the trait as the class
    [ChunkImpl], and [Box<dyn Chunk>] as the sum [AnyChunk].

    Parsing a DATA chunk reads the clock and allocates the two shared flags of
    the chunk; what the environment supplies is the argument [Fresh]. *)
From S2P Require Import Prelude Serial Errors Param.

(** * The trait (chunk/mod.rs) and the header (chunk_header.rs) *)
Record ChunkHeader := mkChunkHeader { ch_typ : ChunkType; ch_flags : Z; ch_value_length : Z }.

Definition CHUNK_HEADER_SIZE : nat := 4.

(** The current time and the next free location of the store of shared
    [AtomicBool]s. *)
Record Fresh := mkFresh { fr_now : Z; fr_loc : nat }.

Class ChunkImpl {P : Profile} (C : Type) := {
  c_header : C -> ChunkHeader;
  c_unmarshal : Fresh -> bytes -> res Error C;
  c_marshal_to : C -> bytes -> res Error bytes;
  c_check : C -> res Error unit;
  c_value_length : C -> nat
}.

(** The padding loop, on the offsets it visits. *)
Fixpoint check_padding (raw : bytes) (offsets : list nat) : res Error unit :=
  match offsets with
  | [] => Ok tt
  | padding_offset :: rest =>
      b ← index raw padding_offset;
      if zero_byte b then check_padding raw rest else Err ErrChunkHeaderPaddingNonZero
  end.

Definition ChunkHeader_unmarshal (raw : bytes) : res Error ChunkHeader :=
  if (length raw <? CHUNK_HEADER_SIZE)%nat then Err ErrChunkHeaderTooSmall
  else
    '(typ, reader) ← get_u8 raw;
    '(flags, reader) ← get_u8 reader;
    '(length_, _) ← get_u16 reader;
    if length_ <? Z.of_nat CHUNK_HEADER_SIZE then Err ErrChunkHeaderInvalidLength
    else
      let value_length := length_ - Z.of_nat CHUNK_HEADER_SIZE in
      let length_after_value := Z.of_nat (length raw) - length_ in
      if length_after_value <? 0 then Err ErrChunkHeaderNotEnoughSpace
      else
        _ ← (if length_after_value <? 4 then
               check_padding raw
                 (map (fun i => CHUNK_HEADER_SIZE + (Z.to_nat value_length + i - 1))%nat
                    (rev (seq 1 (Z.to_nat length_after_value))))
             else Ok tt);
        Ok (mkChunkHeader typ flags (length_ - Z.of_nat CHUNK_HEADER_SIZE)).

Definition ChunkHeader_value_length (h : ChunkHeader) : nat := Z.to_nat (ch_value_length h).

(** [raw.slice(CHUNK_HEADER_SIZE..CHUNK_HEADER_SIZE + header.value_length())] *)
Definition chunk_value (raw : bytes) (h : ChunkHeader) : res Error bytes :=
  slice raw CHUNK_HEADER_SIZE (CHUNK_HEADER_SIZE + ChunkHeader_value_length h).

Definition header_of (typ : ChunkType) (value_length : nat) : ChunkHeader :=
  mkChunkHeader typ 0 (as_u16 value_length).

(** * chunk_payload_data.rs *)
Definition PAYLOAD_DATA_ENDING_FRAGMENT_BITMASK : Z := 1.
Definition PAYLOAD_DATA_BEGINING_FRAGMENT_BITMASK : Z := 2.
Definition PAYLOAD_DATA_UNORDERED_BITMASK : Z := 4.
Definition PAYLOAD_DATA_IMMEDIATE_SACK : Z := 8.
Definition PAYLOAD_DATA_HEADER_SIZE : nat := 12.

Inductive PayloadProtocolIdentifier : Type :=
  | Dcep | PpiString | Binary | StringEmpty | BinaryEmpty | PpiUnknown.

#[export] Instance PayloadProtocolIdentifier_eq_dec : EqDecision PayloadProtocolIdentifier.
Proof. solve_decision. Defined.

Definition PayloadProtocolIdentifier_from (v : Z) : PayloadProtocolIdentifier :=
  match v with
  | 50 => Dcep | 51 => PpiString | 53 => Binary | 56 => StringEmpty | 57 => BinaryEmpty
  | _ => PpiUnknown
  end.

Definition PayloadProtocolIdentifier_as_u32 (p : PayloadProtocolIdentifier) : Z :=
  match p with
  | Dcep => 50 | PpiString => 51 | Binary => 53 | StringEmpty => 56 | BinaryEmpty => 57
  | PpiUnknown => 58
  end.

(** [abandoned] and [all_inflight] are [Arc<AtomicBool>]s, shared by the
    fragments of one message: locations of a store of booleans. *)
Record ChunkPayloadData := mkChunkPayloadData {
  pd_unordered : bool;
  pd_beginning_fragment : bool;
  pd_ending_fragment : bool;
  pd_immediate_sack : bool;
  pd_tsn : Z;
  pd_stream_identifier : Z;
  pd_stream_sequence_number : Z;
  pd_payload_type : PayloadProtocolIdentifier;
  pd_user_data : bytes;
  pd_acked : bool;
  pd_miss_indicator : Z;
  pd_since : Z;
  pd_nsent : Z;
  pd_abandoned : nat;
  pd_all_inflight : nat;
  pd_retransmit : bool
}.

#[export] Instance ChunkPayloadData_settable : Settable ChunkPayloadData := fun c =>
  mkChunkPayloadData (pd_unordered c) (pd_beginning_fragment c) (pd_ending_fragment c)
    (pd_immediate_sack c) (pd_tsn c) (pd_stream_identifier c) (pd_stream_sequence_number c)
    (pd_payload_type c) (pd_user_data c) (pd_acked c) (pd_miss_indicator c) (pd_since c)
    (pd_nsent c) (pd_abandoned c) (pd_all_inflight c) (pd_retransmit c).

(** [ChunkPayloadData::default()] *)
Definition ChunkPayloadData_default (fr : Fresh) : ChunkPayloadData :=
  mkChunkPayloadData false false false false 0 0 0 PpiUnknown [] false 0 (fr_now fr) 0
    (fr_loc fr) (S (fr_loc fr)) false.

Definition ChunkPayloadData_value_length (c : ChunkPayloadData) : nat :=
  (PAYLOAD_DATA_HEADER_SIZE + length (pd_user_data c))%nat.

Definition ChunkPayloadData_header (c : ChunkPayloadData) : ChunkHeader :=
  let flags := 0 in
  let flags := if pd_ending_fragment c then 1 else flags in
  let flags := if pd_beginning_fragment c then Z.lor flags (Z.shiftl 1 1) else flags in
  let flags := if pd_unordered c then Z.lor flags (Z.shiftl 1 2) else flags in
  let flags := if pd_immediate_sack c then Z.lor flags (Z.shiftl 1 3) else flags in
  mkChunkHeader CT_PAYLOAD_DATA flags (as_u16 (ChunkPayloadData_value_length c)).

Definition ChunkPayloadData_unmarshal (fr : Fresh) (raw : bytes) : res Error ChunkPayloadData :=
  header ← ChunkHeader_unmarshal raw;
  if negb (ch_typ header =? CT_PAYLOAD_DATA) then Err ErrChunkTypeNotPayloadData
  else
    let immediate_sack := negb (Z.land (ch_flags header) PAYLOAD_DATA_IMMEDIATE_SACK =? 0) in
    let unordered := negb (Z.land (ch_flags header) PAYLOAD_DATA_UNORDERED_BITMASK =? 0) in
    let beginning_fragment :=
      negb (Z.land (ch_flags header) PAYLOAD_DATA_BEGINING_FRAGMENT_BITMASK =? 0) in
    let ending_fragment :=
      negb (Z.land (ch_flags header) PAYLOAD_DATA_ENDING_FRAGMENT_BITMASK =? 0) in
    if (length raw <? PAYLOAD_DATA_HEADER_SIZE)%nat then Err ErrChunkPayloadSmall
    else
      reader ← chunk_value raw header;
      '(tsn, reader) ← get_u32 reader;
      '(stream_identifier, reader) ← get_u16 reader;
      '(stream_sequence_number, reader) ← get_u16 reader;
      '(payload_type, reader) ← get_u32 reader;
      user_data ← slice raw (CHUNK_HEADER_SIZE + PAYLOAD_DATA_HEADER_SIZE)
                            (CHUNK_HEADER_SIZE + ChunkHeader_value_length header);
      Ok (mkChunkPayloadData unordered beginning_fragment ending_fragment immediate_sack
            tsn stream_identifier stream_sequence_number
            (PayloadProtocolIdentifier_from payload_type) user_data
            false 0 (fr_now fr) 0 (fr_loc fr) (S (fr_loc fr)) false).

Definition SELECTIVE_ACK_HEADER_SIZE : nat := 12.

Record GapAckBlock := mkGapAckBlock { gap_start : Z; gap_end : Z }.

(** * chunk_selective_ack.rs *)
Record ChunkSelectiveAck := mkChunkSelectiveAck {
  sack_cumulative_tsn_ack : Z;
  sack_advertised_receiver_window_credit : Z;
  sack_gap_ack_blocks : list GapAckBlock;
  sack_duplicate_tsn : list Z
}.

Fixpoint read_gap_ack_blocks {E} (n : nat) (reader : bytes) : res E (list GapAckBlock * bytes) :=
  match n with
  | O => Ok ([], reader)
  | S n' =>
      '(start, reader) ← get_u16 reader;
      '(end_, reader) ← get_u16 reader;
      '(rest, reader) ← read_gap_ack_blocks n' reader;
      Ok (mkGapAckBlock start end_ :: rest, reader)
  end.

Fixpoint read_u32s {E} (n : nat) (reader : bytes) : res E (list Z * bytes) :=
  match n with
  | O => Ok ([], reader)
  | S n' =>
      '(x, reader) ← get_u32 reader;
      '(xs, reader) ← read_u32s n' reader;
      Ok (x :: xs, reader)
  end.

Definition ChunkSelectiveAck_value_length (c : ChunkSelectiveAck) : nat :=
  (SELECTIVE_ACK_HEADER_SIZE + length (sack_gap_ack_blocks c) * 4
   + length (sack_duplicate_tsn c) * 4)%nat.

Definition ChunkSelectiveAck_header (c : ChunkSelectiveAck) : ChunkHeader :=
  header_of CT_SACK (ChunkSelectiveAck_value_length c).

Definition ChunkSelectiveAck_unmarshal (_ : Fresh) (raw : bytes) : res Error ChunkSelectiveAck :=
  header ← ChunkHeader_unmarshal raw;
  if negb (ch_typ header =? CT_SACK) then Err ErrChunkTypeNotSack
  else if (length raw <? CHUNK_HEADER_SIZE + SELECTIVE_ACK_HEADER_SIZE)%nat
  then Err ErrSackSizeNotLargeEnoughInfo
  else
    reader ← chunk_value raw header;
    '(cumulative_tsn_ack, reader) ← get_u32 reader;
    '(a_rwnd, reader) ← get_u32 reader;
    '(gap_ack_blocks_len, reader) ← get_u16 reader;
    '(duplicate_tsn_len, reader) ← get_u16 reader;
    if (length raw <? CHUNK_HEADER_SIZE + SELECTIVE_ACK_HEADER_SIZE
                      + (4 * Z.to_nat gap_ack_blocks_len + 4 * Z.to_nat duplicate_tsn_len))%nat
    then Err ErrSackSizeNotLargeEnoughInfo
    else
      '(gap_ack_blocks, reader) ← read_gap_ack_blocks (Z.to_nat gap_ack_blocks_len) reader;
      '(duplicate_tsn, _) ← read_u32s (Z.to_nat duplicate_tsn_len) reader;
      Ok (mkChunkSelectiveAck cumulative_tsn_ack a_rwnd gap_ack_blocks duplicate_tsn).

(** * chunk_forward_tsn.rs *)
Record ChunkForwardTsnStream := mkChunkForwardTsnStream {
  fts_identifier : Z;
  fts_sequence : Z
}.

Record ChunkForwardTsn := mkChunkForwardTsn {
  ft_new_cumulative_tsn : Z;
  ft_streams : list ChunkForwardTsnStream
}.

Definition NEW_CUMULATIVE_TSN_LENGTH : nat := 4.
Definition FORWARD_TSN_STREAM_LENGTH : nat := 4.

Definition ChunkForwardTsnStream_unmarshal (buf : bytes) : res Error ChunkForwardTsnStream :=
  if (length buf <? FORWARD_TSN_STREAM_LENGTH)%nat then Err ErrChunkTooShort
  else
    '(identifier, reader) ← get_u16 buf;
    '(sequence, _) ← get_u16 reader;
    Ok (mkChunkForwardTsnStream identifier sequence).

Definition ChunkForwardTsn_value_length (c : ChunkForwardTsn) : nat :=
  (NEW_CUMULATIVE_TSN_LENGTH + FORWARD_TSN_STREAM_LENGTH * length (ft_streams c))%nat.

Definition ChunkForwardTsn_header (c : ChunkForwardTsn) : ChunkHeader :=
  header_of CT_FORWARD_TSN (ChunkForwardTsn_value_length c).

(** The loop [while remaining > 0]; each round consumes a stream entry, so
    the length of the buffer is fuel enough. *)
Fixpoint read_forward_tsn_streams {P : Profile} (fuel : nat) (buf : bytes) (offset limit : nat)
    (remaining : Z) : res Error (list ChunkForwardTsnStream) :=
  if remaining >? 0 then
    match fuel with
    | O => OutOfFuel
    | S fuel' =>
        part ← slice buf offset limit;
        s ← ChunkForwardTsnStream_unmarshal part;
        remaining ← sub64 remaining (Z.of_nat FORWARD_TSN_STREAM_LENGTH);
        rest ← read_forward_tsn_streams fuel' buf (offset + FORWARD_TSN_STREAM_LENGTH)%nat limit
                 remaining;
        Ok (s :: rest)
    end
  else Ok [].

Section chunks.
Context {P : Profile}.

Definition ChunkHeader_marshal_to (h : ChunkHeader) (writer : bytes) : res Error bytes :=
  let writer := writer ++ put_u8 (ch_typ h) in
  let writer := writer ++ put_u8 (ch_flags h) in
  len ← add16 (ch_value_length h) (Z.of_nat CHUNK_HEADER_SIZE);
  Ok (writer ++ put_u16 len).

(** [Chunk::marshal] *)
Definition c_marshal {C} {I : ChunkImpl C} (c : C) : res Error bytes := c_marshal_to c [].

Definition ChunkPayloadData_marshal_to (c : ChunkPayloadData) (writer : bytes) : res Error bytes :=
  writer ← ChunkHeader_marshal_to (ChunkPayloadData_header c) writer;
  Ok (writer ++ put_u32 (pd_tsn c) ++ put_u16 (pd_stream_identifier c)
        ++ put_u16 (pd_stream_sequence_number c)
        ++ put_u32 (PayloadProtocolIdentifier_as_u32 (pd_payload_type c)) ++ pd_user_data c).

#[global] Instance ChunkPayloadData_impl : ChunkImpl ChunkPayloadData := {|
  c_header := ChunkPayloadData_header;
  c_unmarshal := ChunkPayloadData_unmarshal;
  c_marshal_to := ChunkPayloadData_marshal_to;
  c_check _ := Ok tt;
  c_value_length := ChunkPayloadData_value_length |}.

Definition ChunkSelectiveAck_marshal_to (c : ChunkSelectiveAck) (writer : bytes) :
    res Error bytes :=
  writer ← ChunkHeader_marshal_to (ChunkSelectiveAck_header c) writer;
  Ok (writer ++ put_u32 (sack_cumulative_tsn_ack c)
        ++ put_u32 (sack_advertised_receiver_window_credit c)
        ++ put_u16 (as_u16 (length (sack_gap_ack_blocks c)))
        ++ put_u16 (as_u16 (length (sack_duplicate_tsn c)))
        ++ flat_map (fun g => put_u16 (gap_start g) ++ put_u16 (gap_end g)) (sack_gap_ack_blocks c)
        ++ flat_map put_u32 (sack_duplicate_tsn c)).

#[global] Instance ChunkSelectiveAck_impl : ChunkImpl ChunkSelectiveAck := {|
  c_header := ChunkSelectiveAck_header;
  c_unmarshal := ChunkSelectiveAck_unmarshal;
  c_marshal_to := ChunkSelectiveAck_marshal_to;
  c_check _ := Ok tt;
  c_value_length := ChunkSelectiveAck_value_length |}.

Definition ChunkForwardTsn_unmarshal (_ : Fresh) (buf : bytes) : res Error ChunkForwardTsn :=
  header ← ChunkHeader_unmarshal buf;
  if negb (ch_typ header =? CT_FORWARD_TSN) then Err ErrChunkTypeNotForwardTsn
  else
    let offset := (CHUNK_HEADER_SIZE + NEW_CUMULATIVE_TSN_LENGTH)%nat in
    if (length buf <? offset)%nat then Err ErrChunkTooShort
    else
      reader ← chunk_value buf header;
      '(new_cumulative_tsn, _) ← get_u32 reader;
      let remaining := Z.of_nat (length buf - offset) in
      streams ← read_forward_tsn_streams (length buf) buf offset
                  (CHUNK_HEADER_SIZE + ChunkHeader_value_length header) remaining;
      Ok (mkChunkForwardTsn new_cumulative_tsn streams).

Definition ChunkForwardTsnStream_marshal (s : ChunkForwardTsnStream) : bytes :=
  put_u16 (fts_identifier s) ++ put_u16 (fts_sequence s).

Definition ChunkForwardTsn_marshal_to (c : ChunkForwardTsn) (writer : bytes) : res Error bytes :=
  writer ← ChunkHeader_marshal_to (ChunkForwardTsn_header c) writer;
  Ok (writer ++ put_u32 (ft_new_cumulative_tsn c)
        ++ flat_map ChunkForwardTsnStream_marshal (ft_streams c)).

#[global] Instance ChunkForwardTsn_impl : ChunkImpl ChunkForwardTsn := {|
  c_header := ChunkForwardTsn_header;
  c_unmarshal := ChunkForwardTsn_unmarshal;
  c_marshal_to := ChunkForwardTsn_marshal_to;
  c_check _ := Ok tt;
  c_value_length := ChunkForwardTsn_value_length |}.

(** * chunk_init.rs *)
Record ChunkInit := mkChunkInit {
  ci_is_ack : bool;
  ci_initiate_tag : Z;
  ci_advertised_receiver_window_credit : Z;
  ci_num_outbound_streams : Z;
  ci_num_inbound_streams : Z;
  ci_initial_tsn : Z;
  ci_params : list Param
}.

Definition INIT_CHUNK_MIN_LENGTH : nat := 16.
Definition INIT_OPTIONAL_VAR_HEADER_LENGTH : nat := 4.

(** The parameters' total length: every one but the last is padded. *)
Fixpoint params_value_length (params : list Param) : nat :=
  match params with
  | [] => 0
  | [p] => PARAM_HEADER_LENGTH + p_value_length p
  | p :: params' =>
      let p_len := (PARAM_HEADER_LENGTH + p_value_length p)%nat in
      p_len + get_padding_size p_len + params_value_length params'
  end%nat.

(** The loop that writes them. *)
Fixpoint params_marshal_to (params : list Param) (writer : bytes) : res Error bytes :=
  match params with
  | [] => Ok writer
  | [p] => pp ← p_marshal p; Ok (writer ++ pp)
  | p :: params' =>
      pp ← p_marshal p;
      params_marshal_to params'
        (writer ++ pp ++ replicate (get_padding_size (length pp)) Byte.x00)
  end.

(** The loop [while remaining > INIT_OPTIONAL_VAR_HEADER_LENGTH]. *)
Fixpoint read_init_params (fuel : nat) (raw : bytes) (offset limit : nat) (remaining : Z) :
    res Error (list Param) :=
  if remaining >? Z.of_nat INIT_OPTIONAL_VAR_HEADER_LENGTH then
    match fuel with
    | O => OutOfFuel
    | S fuel' =>
        part ← slice raw offset limit;
        p ← build_param part;
        let p_len := (PARAM_HEADER_LENGTH + p_value_length p)%nat in
        let len_plus_padding := (p_len + get_padding_size p_len)%nat in
        rest ← read_init_params fuel' raw (offset + len_plus_padding)%nat limit
                 (remaining - Z.of_nat len_plus_padding);
        Ok (p :: rest)
    end
  else Ok [].

Definition ChunkInit_value_length (c : ChunkInit) : nat :=
  (4 + 4 + 2 + 2 + 4 + params_value_length (ci_params c))%nat.

Definition ChunkInit_header (c : ChunkInit) : ChunkHeader :=
  header_of (if ci_is_ack c then CT_INIT_ACK else CT_INIT) (ChunkInit_value_length c).

Definition ChunkInit_unmarshal (_ : Fresh) (raw : bytes) : res Error ChunkInit :=
  header ← ChunkHeader_unmarshal raw;
  if negb ((ch_typ header =? CT_INIT) || (ch_typ header =? CT_INIT_ACK))
  then Err ErrChunkTypeNotTypeInit
  else if (length raw <? CHUNK_HEADER_SIZE + INIT_CHUNK_MIN_LENGTH)%nat
  then Err ErrChunkValueNotLongEnough
  else if negb (ch_flags header =? 0) then Err ErrChunkTypeInitFlagZero
  else
    reader ← chunk_value raw header;
    '(initiate_tag, reader) ← get_u32 reader;
    '(a_rwnd, reader) ← get_u32 reader;
    '(num_outbound_streams, reader) ← get_u16 reader;
    '(num_inbound_streams, reader) ← get_u16 reader;
    '(initial_tsn, reader) ← get_u32 reader;
    let offset := (CHUNK_HEADER_SIZE + INIT_CHUNK_MIN_LENGTH)%nat in
    let remaining := Z.of_nat (length raw) - Z.of_nat offset in
    params ← read_init_params (length raw) raw offset
               (CHUNK_HEADER_SIZE + ChunkHeader_value_length header) remaining;
    Ok (mkChunkInit (ch_typ header =? CT_INIT_ACK) initiate_tag a_rwnd num_outbound_streams
          num_inbound_streams initial_tsn params).

Definition ChunkInit_marshal_to (c : ChunkInit) (writer : bytes) : res Error bytes :=
  writer ← ChunkHeader_marshal_to (ChunkInit_header c) writer;
  params_marshal_to (ci_params c)
    (writer ++ put_u32 (ci_initiate_tag c) ++ put_u32 (ci_advertised_receiver_window_credit c)
       ++ put_u16 (ci_num_outbound_streams c) ++ put_u16 (ci_num_inbound_streams c)
       ++ put_u32 (ci_initial_tsn c)).

Definition ChunkInit_check (c : ChunkInit) : res Error unit :=
  if ci_initiate_tag c =? 0 then Err ErrChunkTypeInitInitateTagZero
  else if ci_num_inbound_streams c =? 0 then Err ErrInitInboundStreamRequestZero
  else if ci_num_outbound_streams c =? 0 then Err ErrInitOutboundStreamRequestZero
  else if ci_advertised_receiver_window_credit c <? 1500 then Err ErrInitAdvertisedReceiver1500
  else Ok tt.

#[global] Instance ChunkInit_impl : ChunkImpl ChunkInit := {|
  c_header := ChunkInit_header;
  c_unmarshal := ChunkInit_unmarshal;
  c_marshal_to := ChunkInit_marshal_to;
  c_check := ChunkInit_check;
  c_value_length := ChunkInit_value_length |}.

Definition set_forward_tsn_supported (c : ChunkInit) : ChunkInit :=
  mkChunkInit (ci_is_ack c) (ci_initiate_tag c) (ci_advertised_receiver_window_credit c)
    (ci_num_outbound_streams c) (ci_num_inbound_streams c) (ci_initial_tsn c)
    (ci_params c ++ [PForwardTsnSupported mkParamForwardTsnSupported]).

(** * error_cause.rs *)
Record ErrorCause := mkErrorCause { ec_code : Z; ec_raw : bytes }.

Definition ERROR_CAUSE_HEADER_LENGTH : nat := 4.

(** [ErrorCauseUnrecognizedChunkType::default()] *)
Definition ErrorCause_default : ErrorCause := mkErrorCause 0 [].

Definition ErrorCause_length (e : ErrorCause) : nat :=
  (length (ec_raw e) + ERROR_CAUSE_HEADER_LENGTH)%nat.

Definition ErrorCause_unmarshal (buf : bytes) : res Error ErrorCause :=
  if (length buf <? ERROR_CAUSE_HEADER_LENGTH)%nat then Err ErrErrorCauseTooSmall
  else
    '(code, reader) ← get_u16 buf;
    '(len, _) ← get_u16 reader;
    if len <? Z.of_nat ERROR_CAUSE_HEADER_LENGTH then Err ErrErrorCauseTooSmall
    else
      let value_length := (Z.to_nat len - ERROR_CAUSE_HEADER_LENGTH)%nat in
      raw ← slice buf ERROR_CAUSE_HEADER_LENGTH (ERROR_CAUSE_HEADER_LENGTH + value_length);
      Ok (mkErrorCause code raw).

Definition ErrorCause_marshal (e : ErrorCause) : bytes :=
  put_u16 (ec_code e) ++ put_u16 (as_u16 (length (ec_raw e) + ERROR_CAUSE_HEADER_LENGTH))
  ++ ec_raw e.

(** The loop [while offset + 4 <= raw.len()] of ABORT and ERROR. *)
Fixpoint read_error_causes (fuel : nat) (raw : bytes) (offset limit : nat) :
    res Error (list ErrorCause) :=
  if (offset + 4 <=? length raw)%nat then
    match fuel with
    | O => OutOfFuel
    | S fuel' =>
        part ← slice raw offset limit;
        e ← ErrorCause_unmarshal part;
        rest ← read_error_causes fuel' raw (offset + ErrorCause_length e)%nat limit;
        Ok (e :: rest)
    end
  else Ok [].

Definition causes_length (l : list ErrorCause) : nat :=
  foldl (fun n ec => (n + ErrorCause_length ec)%nat) 0%nat l.

(** * chunk_abort.rs *)
Record ChunkAbort := mkChunkAbort { ab_error_causes : list ErrorCause }.

Definition ChunkAbort_value_length (c : ChunkAbort) : nat := causes_length (ab_error_causes c).

Definition ChunkAbort_header (c : ChunkAbort) : ChunkHeader :=
  header_of CT_ABORT (ChunkAbort_value_length c).

Definition ChunkAbort_unmarshal (_ : Fresh) (raw : bytes) : res Error ChunkAbort :=
  header ← ChunkHeader_unmarshal raw;
  if negb (ch_typ header =? CT_ABORT) then Err ErrChunkTypeNotAbort
  else
    error_causes ← read_error_causes (length raw) raw CHUNK_HEADER_SIZE
                     (CHUNK_HEADER_SIZE + ChunkHeader_value_length header);
    Ok (mkChunkAbort error_causes).

Definition ChunkAbort_marshal_to (c : ChunkAbort) (buf : bytes) : res Error bytes :=
  buf ← ChunkHeader_marshal_to (ChunkAbort_header c) buf;
  Ok (buf ++ flat_map ErrorCause_marshal (ab_error_causes c)).

#[global] Instance ChunkAbort_impl : ChunkImpl ChunkAbort := {|
  c_header := ChunkAbort_header;
  c_unmarshal := ChunkAbort_unmarshal;
  c_marshal_to := ChunkAbort_marshal_to;
  c_check _ := Ok tt;
  c_value_length := ChunkAbort_value_length |}.

(** * chunk_error.rs *)
Record ChunkError := mkChunkError { er_error_causes : list ErrorCause }.

Definition ChunkError_value_length (c : ChunkError) : nat := causes_length (er_error_causes c).

Definition ChunkError_header (c : ChunkError) : ChunkHeader :=
  header_of CT_ERROR (ChunkError_value_length c).

Definition ChunkError_unmarshal (_ : Fresh) (raw : bytes) : res Error ChunkError :=
  header ← ChunkHeader_unmarshal raw;
  if negb (ch_typ header =? CT_ERROR) then Err ErrChunkTypeNotCtError
  else
    error_causes ← read_error_causes (length raw) raw CHUNK_HEADER_SIZE
                     (CHUNK_HEADER_SIZE + ChunkHeader_value_length header);
    Ok (mkChunkError error_causes).

Definition ChunkError_marshal_to (c : ChunkError) (buf : bytes) : res Error bytes :=
  buf ← ChunkHeader_marshal_to (ChunkError_header c) buf;
  Ok (buf ++ flat_map ErrorCause_marshal (er_error_causes c)).

#[global] Instance ChunkError_impl : ChunkImpl ChunkError := {|
  c_header := ChunkError_header;
  c_unmarshal := ChunkError_unmarshal;
  c_marshal_to := ChunkError_marshal_to;
  c_check _ := Ok tt;
  c_value_length := ChunkError_value_length |}.

(** * chunk_heartbeat.rs *)
Record ChunkHeartbeat := mkChunkHeartbeat { hb_params : list Param }.

Definition ChunkHeartbeat_value_length (c : ChunkHeartbeat) : nat :=
  foldl (fun n p => (n + PARAM_HEADER_LENGTH + p_value_length p)%nat) 0%nat (hb_params c).

Definition ChunkHeartbeat_header (c : ChunkHeartbeat) : ChunkHeader :=
  header_of CT_HEARTBEAT (ChunkHeartbeat_value_length c).

Definition ChunkHeartbeat_unmarshal (_ : Fresh) (raw : bytes) : res Error ChunkHeartbeat :=
  header ← ChunkHeader_unmarshal raw;
  if negb (ch_typ header =? CT_HEARTBEAT) then Err ErrChunkTypeNotHeartbeat
  else if (length raw <=? CHUNK_HEADER_SIZE)%nat then Err ErrHeartbeatNotLongEnoughInfo
  else
    part ← chunk_value raw header;
    p ← build_param part;
    if decide (ph_typ (p_header p) <> HeartbeatInfo) then Err ErrHeartbeatParam
    else Ok (mkChunkHeartbeat [p]).

Fixpoint params_extend (params : list Param) (buf : bytes) : res Error bytes :=
  match params with
  | [] => Ok buf
  | p :: params' => pp ← p_marshal p; params_extend params' (buf ++ pp)
  end.

Definition ChunkHeartbeat_marshal_to (c : ChunkHeartbeat) (buf : bytes) : res Error bytes :=
  buf ← ChunkHeader_marshal_to (ChunkHeartbeat_header c) buf;
  params_extend (hb_params c) buf.

#[global] Instance ChunkHeartbeat_impl : ChunkImpl ChunkHeartbeat := {|
  c_header := ChunkHeartbeat_header;
  c_unmarshal := ChunkHeartbeat_unmarshal;
  c_marshal_to := ChunkHeartbeat_marshal_to;
  c_check _ := Ok tt;
  c_value_length := ChunkHeartbeat_value_length |}.

(** * chunk_heartbeat_ack.rs *)
Record ChunkHeartbeatAck := mkChunkHeartbeatAck { hba_params : list Param }.

Definition ChunkHeartbeatAck_value_length (c : ChunkHeartbeatAck) : nat :=
  params_value_length (hba_params c).

Definition ChunkHeartbeatAck_header (c : ChunkHeartbeatAck) : ChunkHeader :=
  header_of CT_HEARTBEAT_ACK (ChunkHeartbeatAck_value_length c).

Definition ChunkHeartbeatAck_unmarshal (_ : Fresh) (raw : bytes) : res Error ChunkHeartbeatAck :=
  header ← ChunkHeader_unmarshal raw;
  if negb (ch_typ header =? CT_HEARTBEAT_ACK) then Err ErrChunkTypeNotHeartbeatAck
  else if (length raw <=? CHUNK_HEADER_SIZE)%nat then Err ErrHeartbeatNotLongEnoughInfo
  else
    part ← chunk_value raw header;
    p ← build_param part;
    if decide (ph_typ (p_header p) <> HeartbeatInfo) then Err ErrHeartbeatParam
    else Ok (mkChunkHeartbeatAck [p]).

Definition ChunkHeartbeatAck_marshal_to (c : ChunkHeartbeatAck) (buf : bytes) : res Error bytes :=
  if negb (length (hba_params c) =? 1)%nat then Err ErrHeartbeatAckParams
  else
    p0 ← index (hba_params c) 0;
    if decide (ph_typ (p_header p0) <> HeartbeatInfo) then Err ErrHeartbeatAckNotHeartbeatInfo
    else
      buf ← ChunkHeader_marshal_to (ChunkHeartbeatAck_header c) buf;
      params_marshal_to (hba_params c) buf.

#[global] Instance ChunkHeartbeatAck_impl : ChunkImpl ChunkHeartbeatAck := {|
  c_header := ChunkHeartbeatAck_header;
  c_unmarshal := ChunkHeartbeatAck_unmarshal;
  c_marshal_to := ChunkHeartbeatAck_marshal_to;
  c_check _ := Ok tt;
  c_value_length := ChunkHeartbeatAck_value_length |}.

(** * chunk_shutdown.rs *)
Record ChunkShutdown := mkChunkShutdown { sd_cumulative_tsn_ack : Z }.

Definition CUMULATIVE_TSN_ACK_LENGTH : nat := 4.

Definition ChunkShutdown_value_length (_ : ChunkShutdown) : nat := CUMULATIVE_TSN_ACK_LENGTH.

Definition ChunkShutdown_header (c : ChunkShutdown) : ChunkHeader :=
  header_of CT_SHUTDOWN (ChunkShutdown_value_length c).

Definition ChunkShutdown_unmarshal (_ : Fresh) (raw : bytes) : res Error ChunkShutdown :=
  header ← ChunkHeader_unmarshal raw;
  if negb (ch_typ header =? CT_SHUTDOWN) then Err ErrChunkTypeNotShutdown
  else if negb (length raw =? CHUNK_HEADER_SIZE + CUMULATIVE_TSN_ACK_LENGTH)%nat
  then Err ErrInvalidChunkSize
  else
    reader ← chunk_value raw header;
    '(cumulative_tsn_ack, _) ← get_u32 reader;
    Ok (mkChunkShutdown cumulative_tsn_ack).

Definition ChunkShutdown_marshal_to (c : ChunkShutdown) (writer : bytes) : res Error bytes :=
  writer ← ChunkHeader_marshal_to (ChunkShutdown_header c) writer;
  Ok (writer ++ put_u32 (sd_cumulative_tsn_ack c)).

#[global] Instance ChunkShutdown_impl : ChunkImpl ChunkShutdown := {|
  c_header := ChunkShutdown_header;
  c_unmarshal := ChunkShutdown_unmarshal;
  c_marshal_to := ChunkShutdown_marshal_to;
  c_check _ := Ok tt;
  c_value_length := ChunkShutdown_value_length |}.

(** * chunk_shutdown_ack.rs *)
Record ChunkShutdownAck := mkChunkShutdownAck {}.

Definition ChunkShutdownAck_header (_ : ChunkShutdownAck) : ChunkHeader :=
  header_of CT_SHUTDOWN_ACK 0.

Definition ChunkShutdownAck_unmarshal (_ : Fresh) (raw : bytes) : res Error ChunkShutdownAck :=
  header ← ChunkHeader_unmarshal raw;
  if negb (ch_typ header =? CT_SHUTDOWN_ACK) then Err ErrChunkTypeNotShutdownAck
  else Ok mkChunkShutdownAck.

Definition ChunkShutdownAck_marshal_to (c : ChunkShutdownAck) (writer : bytes) : res Error bytes :=
  ChunkHeader_marshal_to (ChunkShutdownAck_header c) writer.

#[global] Instance ChunkShutdownAck_impl : ChunkImpl ChunkShutdownAck := {|
  c_header := ChunkShutdownAck_header;
  c_unmarshal := ChunkShutdownAck_unmarshal;
  c_marshal_to := ChunkShutdownAck_marshal_to;
  c_check _ := Ok tt;
  c_value_length _ := 0%nat |}.

(** * chunk_shutdown_complete.rs *)
Record ChunkShutdownComplete := mkChunkShutdownComplete {}.

Definition ChunkShutdownComplete_header (_ : ChunkShutdownComplete) : ChunkHeader :=
  header_of CT_SHUTDOWN_COMPLETE 0.

Definition ChunkShutdownComplete_unmarshal (_ : Fresh) (raw : bytes) :
    res Error ChunkShutdownComplete :=
  header ← ChunkHeader_unmarshal raw;
  if negb (ch_typ header =? CT_SHUTDOWN_COMPLETE) then Err ErrChunkTypeNotShutdownComplete
  else Ok mkChunkShutdownComplete.

Definition ChunkShutdownComplete_marshal_to (c : ChunkShutdownComplete) (writer : bytes) :
    res Error bytes :=
  ChunkHeader_marshal_to (ChunkShutdownComplete_header c) writer.

#[global] Instance ChunkShutdownComplete_impl : ChunkImpl ChunkShutdownComplete := {|
  c_header := ChunkShutdownComplete_header;
  c_unmarshal := ChunkShutdownComplete_unmarshal;
  c_marshal_to := ChunkShutdownComplete_marshal_to;
  c_check _ := Ok tt;
  c_value_length _ := 0%nat |}.

(** * chunk_cookie_echo.rs *)
Record ChunkCookieEcho := mkChunkCookieEcho { ce_cookie : bytes }.

Definition ChunkCookieEcho_value_length (c : ChunkCookieEcho) : nat := length (ce_cookie c).

Definition ChunkCookieEcho_header (c : ChunkCookieEcho) : ChunkHeader :=
  header_of CT_COOKIE_ECHO (ChunkCookieEcho_value_length c).

Definition ChunkCookieEcho_unmarshal (_ : Fresh) (raw : bytes) : res Error ChunkCookieEcho :=
  header ← ChunkHeader_unmarshal raw;
  if negb (ch_typ header =? CT_COOKIE_ECHO) then Err ErrChunkTypeNotCookieEcho
  else
    cookie ← chunk_value raw header;
    Ok (mkChunkCookieEcho cookie).

Definition ChunkCookieEcho_marshal_to (c : ChunkCookieEcho) (buf : bytes) : res Error bytes :=
  buf ← ChunkHeader_marshal_to (ChunkCookieEcho_header c) buf;
  Ok (buf ++ ce_cookie c).

#[global] Instance ChunkCookieEcho_impl : ChunkImpl ChunkCookieEcho := {|
  c_header := ChunkCookieEcho_header;
  c_unmarshal := ChunkCookieEcho_unmarshal;
  c_marshal_to := ChunkCookieEcho_marshal_to;
  c_check _ := Ok tt;
  c_value_length := ChunkCookieEcho_value_length |}.

(** * chunk_cookie_ack.rs *)
Record ChunkCookieAck := mkChunkCookieAck {}.

Definition ChunkCookieAck_header (_ : ChunkCookieAck) : ChunkHeader := header_of CT_COOKIE_ACK 0.

Definition ChunkCookieAck_unmarshal (_ : Fresh) (raw : bytes) : res Error ChunkCookieAck :=
  header ← ChunkHeader_unmarshal raw;
  if negb (ch_typ header =? CT_COOKIE_ACK) then Err ErrChunkTypeNotCookieAck
  else Ok mkChunkCookieAck.

Definition ChunkCookieAck_marshal_to (c : ChunkCookieAck) (buf : bytes) : res Error bytes :=
  ChunkHeader_marshal_to (ChunkCookieAck_header c) buf.

#[global] Instance ChunkCookieAck_impl : ChunkImpl ChunkCookieAck := {|
  c_header := ChunkCookieAck_header;
  c_unmarshal := ChunkCookieAck_unmarshal;
  c_marshal_to := ChunkCookieAck_marshal_to;
  c_check _ := Ok tt;
  c_value_length _ := 0%nat |}.

(** * chunk_reconfig.rs *)
Record ChunkReconfig := mkChunkReconfig { rc_param_a : option Param; rc_param_b : option Param }.

Definition ChunkReconfig_value_length (c : ChunkReconfig) : nat :=
  let l := PARAM_HEADER_LENGTH in
  let '(l, param_a_value_length) :=
    match rc_param_a c with
    | Some param_a => ((l + p_value_length param_a)%nat, p_value_length param_a)
    | None => (l, 0%nat)
    end in
  match rc_param_b c with
  | Some param_b =>
      let padding := get_padding_size (PARAM_HEADER_LENGTH + param_a_value_length) in
      (l + (PARAM_HEADER_LENGTH + p_value_length param_b + padding))%nat
  | None => l
  end.

Definition ChunkReconfig_header (c : ChunkReconfig) : ChunkHeader :=
  header_of CT_RECONFIG (ChunkReconfig_value_length c).

Definition ChunkReconfig_unmarshal (_ : Fresh) (raw : bytes) : res Error ChunkReconfig :=
  header ← ChunkHeader_unmarshal raw;
  if negb (ch_typ header =? CT_RECONFIG) then Err ErrChunkTypeNotReconfig
  else
    part_a ← chunk_value raw header;
    param_a ← build_param part_a;
    let padding := get_padding_size (PARAM_HEADER_LENGTH + p_value_length param_a) in
    let offset := (CHUNK_HEADER_SIZE + PARAM_HEADER_LENGTH + p_value_length param_a + padding)%nat in
    param_b ← (if (offset <? CHUNK_HEADER_SIZE + ChunkHeader_value_length header)%nat then
                 part_b ← slice raw offset (CHUNK_HEADER_SIZE + ChunkHeader_value_length header);
                 param_b ← build_param part_b;
                 Ok (Some param_b)
               else Ok None);
    Ok (mkChunkReconfig (Some param_a) param_b).

Definition ChunkReconfig_marshal_to (c : ChunkReconfig) (writer : bytes) : res Error bytes :=
  writer ← ChunkHeader_marshal_to (ChunkReconfig_header c) writer;
  match rc_param_a c with
  | Some param_a =>
      raw_a ← p_marshal param_a;
      let writer := writer ++ raw_a in
      match rc_param_b c with
      | Some param_b =>
          let padding := get_padding_size (PARAM_HEADER_LENGTH + p_value_length param_a) in
          raw_b ← p_marshal param_b;
          Ok (writer ++ replicate padding Byte.x00 ++ raw_b)
      | None => Ok writer
      end
  | None => Err ErrChunkReconfigInvalidParamA
  end.

#[global] Instance ChunkReconfig_impl : ChunkImpl ChunkReconfig := {|
  c_header := ChunkReconfig_header;
  c_unmarshal := ChunkReconfig_unmarshal;
  c_marshal_to := ChunkReconfig_marshal_to;
  c_check _ := Ok tt;
  c_value_length := ChunkReconfig_value_length |}.

(** * [Box<dyn Chunk>] *)
Inductive AnyChunk : Type :=
  | CPayloadData (c : ChunkPayloadData)
  | CInit (c : ChunkInit)
  | CSelectiveAck (c : ChunkSelectiveAck)
  | CHeartbeat (c : ChunkHeartbeat)
  | CHeartbeatAck (c : ChunkHeartbeatAck)
  | CAbort (c : ChunkAbort)
  | CShutdown (c : ChunkShutdown)
  | CShutdownAck (c : ChunkShutdownAck)
  | CError (c : ChunkError)
  | CCookieEcho (c : ChunkCookieEcho)
  | CCookieAck (c : ChunkCookieAck)
  | CShutdownComplete (c : ChunkShutdownComplete)
  | CReconfig (c : ChunkReconfig)
  | CForwardTsn (c : ChunkForwardTsn).

(** Dynamic dispatch: [via c f] applies [f] at the chunk's own type. *)
Definition via {T} (c : AnyChunk) (f : forall C, ChunkImpl C -> C -> T) : T :=
  match c with
  | CPayloadData c => f _ _ c | CInit c => f _ _ c | CSelectiveAck c => f _ _ c
  | CHeartbeat c => f _ _ c | CHeartbeatAck c => f _ _ c | CAbort c => f _ _ c
  | CShutdown c => f _ _ c | CShutdownAck c => f _ _ c | CError c => f _ _ c
  | CCookieEcho c => f _ _ c | CCookieAck c => f _ _ c | CShutdownComplete c => f _ _ c
  | CReconfig c => f _ _ c | CForwardTsn c => f _ _ c
  end.

Definition any_marshal (c : AnyChunk) : res Error bytes := via c (fun C I c => c_marshal c).
Definition any_check (c : AnyChunk) : res Error unit := via c (fun C I c => c_check c).
Definition any_value_length (c : AnyChunk) : nat := via c (fun C I c => c_value_length c).
End chunks.
