(* ===== verification/ChunkLaws.v ===== *)
(** The codec contract of the chunks: what [marshal] writes, [unmarshal] reads
    back, in front of the padding and, for the chunk types that can be
    bundled, of further chunks ([ChunkLaws]). *)
From S2P Require Import Prelude Serial Errors Param Chunk.

(** * The chunk on the wire *)
Definition chunk_wire (typ : ChunkType) (flags : Z) (value : bytes) : bytes :=
  put_u8 typ ++ put_u8 flags ++ put_u16 (Z.of_nat (length value) + 4) ++ value.

(** What follows a chunk of [n] bytes in a packet: its zero padding, and then
    nothing or (if [bundled]) at least a chunk header. *)
Definition chunk_tail (bundled : bool) (n : nat) (tail : bytes) : Prop :=
  exists rest, tail = replicate (get_padding_size n) Byte.x00 ++ rest /\
    (rest = [] \/ bundled = true /\ (4 <= length rest)%nat).

Class ChunkLaws {P : Profile} (C : Type) {I : ChunkImpl C} (wf : C -> Prop) (bundled : bool)
    (received : Fresh -> C -> C) : Prop :=
  c_roundtrip c : wf c ->
    exists raw, c_marshal c = Ok raw /\ length raw = (CHUNK_HEADER_SIZE + c_value_length c)%nat /\
      forall fr tail, chunk_tail bundled (length raw) tail ->
        c_unmarshal fr (raw ++ tail) = Ok (received fr c).

Lemma length_chunk_wire t f v : length (chunk_wire t f v) = (4 + length v)%nat.
Proof. unfold chunk_wire. rewrite !length_app. simpl. lia. Qed.

Lemma chunk_tail_short bundled n tail : chunk_tail bundled n tail ->
  (length tail < 4)%nat -> Forall (fun b => b = Byte.x00) tail.
Proof.
  intros (rest & -> & Hrest) Hlen. rewrite length_app, length_replicate in Hlen.
  destruct Hrest as [->|[_ Hr]]; [|lia]. rewrite app_nil_r. by apply Forall_replicate.
Qed.

Lemma chunk_tail_last n tail : chunk_tail false n tail ->
  tail = replicate (get_padding_size n) Byte.x00.
Proof. intros (rest & -> & [->|[? _]]); [by rewrite app_nil_r|done]. Qed.

Lemma chunk_tail_last_lt n tail : chunk_tail false n tail -> (length tail < 4)%nat.
Proof. intros ->%chunk_tail_last. rewrite length_replicate. apply get_padding_size_lt. Qed.

Lemma chunk_tail_aligned n tail : chunk_tail false n tail -> (n `mod` 4 = 0)%nat -> tail = [].
Proof. intros ->%chunk_tail_last Hn. by rewrite get_padding_size_mult. Qed.

Lemma check_padding_zero raw offsets :
  Forall (fun o => raw !! o = Some Byte.x00) offsets -> check_padding raw offsets = Ok tt.
Proof. induction 1 as [|o os Ho Hos IH]; [done|]. simpl. unfold index. rewrite Ho. done. Qed.

Lemma check_padding_tail pre tail k :
  Forall (fun b => b = Byte.x00) tail -> length pre = (4 + k)%nat ->
  check_padding (pre ++ tail)
    (map (fun i => CHUNK_HEADER_SIZE + (k + i - 1))%nat (rev (seq 1 (length tail)))) = Ok tt.
Proof.
  intros Hz Hk. apply check_padding_zero. apply Forall_map, Forall_forall.
  intros i Hi. apply list_elem_of_In, in_rev, in_seq in Hi. unfold CHUNK_HEADER_SIZE, compose.
  rewrite lookup_app_r by lia.
  destruct (lookup_lt_is_Some_2 tail (4 + (k + i - 1) - length pre)) as [b Hb]; [lia|].
  rewrite Hb. f_equal. rewrite Forall_forall in Hz. apply Hz. apply list_elem_of_lookup. eauto.
Qed.

Lemma ChunkHeader_unmarshal_wire b t f v tail :
  in_range 8 t -> in_range 8 f -> fits (length v) ->
  chunk_tail b (length (chunk_wire t f v)) tail ->
  ChunkHeader_unmarshal (chunk_wire t f v ++ tail) = Ok (mkChunkHeader t f (Z.of_nat (length v))).
Proof.
  intros Ht Hf Hv Htail. unfold fits in Hv. unfold ChunkHeader_unmarshal.
  assert (Hl : length (chunk_wire t f v ++ tail) = (4 + length v + length tail)%nat)
    by (rewrite length_app, length_chunk_wire; lia).
  rewrite Hl, ltb_false by (unfold CHUNK_HEADER_SIZE; lia).
  assert (Hg : get_u8 (E := Error) (chunk_wire t f v ++ tail)
    = Ok (t, put_u8 f ++ put_u16 (Z.of_nat (length v) + 4) ++ v ++ tail))
    by (unfold chunk_wire; rewrite <- !app_assoc; by apply get_put_u8).
  rewrite Hg. cbn [mbind res_bind].
  rewrite get_put_u8 by done. cbn [mbind res_bind].
  rewrite get_put_u16 by (unfold in_range; lia). cbn [mbind res_bind].
  change (Z.of_nat CHUNK_HEADER_SIZE) with (Z.of_nat 4).
  destruct (Z.ltb_spec (Z.of_nat (length v) + 4) (Z.of_nat 4)); [lia|].
  replace (Z.of_nat (length v) + 4 - Z.of_nat 4) with (Z.of_nat (length v)) by lia.
  replace (Z.of_nat (4 + length v + length tail) - (Z.of_nat (length v) + 4))
    with (Z.of_nat (length tail)) by lia.
  destruct (Z.ltb_spec (Z.of_nat (length tail)) 0); [lia|]. rewrite !Nat2Z.id.
  destruct (Z.ltb_spec (Z.of_nat (length tail)) 4); [|done].
  rewrite check_padding_tail; [done| |].
  - eapply chunk_tail_short; [exact Htail|lia].
  - rewrite length_chunk_wire. lia.
Qed.

Lemma chunk_value_wire t f v tail :
  chunk_value (chunk_wire t f v ++ tail) (mkChunkHeader t f (Z.of_nat (length v))) = Ok v.
Proof.
  unfold chunk_value, ChunkHeader_value_length. cbn [ch_value_length]. rewrite Nat2Z.id.
  eapply (slice_app _ (put_u8 t ++ put_u8 f ++ put_u16 (Z.of_nat (length v) + 4)));
    [unfold chunk_wire; by rewrite <- !app_assoc|done|done].
Qed.

Lemma chunk_tail_as_slice {E} t f v tail k : (k <= length v)%nat ->
  slice (E := E) (chunk_wire t f v ++ tail) (4 + k) (4 + length v) = Ok (drop k v).
Proof.
  intros Hk.
  eapply (slice_app _ (put_u8 t ++ put_u8 f ++ put_u16 (Z.of_nat (length v) + 4) ++ take k v)).
  - unfold chunk_wire. rewrite <- !app_assoc. rewrite (app_assoc (take k v)), take_drop. done.
  - rewrite !length_app, length_take. simpl. lia.
  - rewrite length_drop. lia.
Qed.

Section marshal.
Context {P : Profile}.

Lemma ChunkHeader_marshal_ok t f n w : fits n ->
  ChunkHeader_marshal_to (mkChunkHeader t f (as_u16 n)) w
  = Ok (w ++ put_u8 t ++ put_u8 f ++ put_u16 (Z.of_nat n + 4)).
Proof.
  intros H. unfold ChunkHeader_marshal_to. cbn [ch_typ ch_flags ch_value_length].
  rewrite as_u16_small by done. unfold fits in H.
  rewrite arith_ok by (unfold in_range, CHUNK_HEADER_SIZE; lia).
  cbn [mbind res_bind]. by rewrite <- !app_assoc.
Qed.

(** A codec that writes [chunk_wire t f (value c)] and reads it back. *)
Lemma ChunkLaws_wire {C} {I : ChunkImpl C} (wf : C -> Prop) b received
    (t : C -> ChunkType) (f : C -> Z) (value : C -> bytes) :
  (forall c, wf c -> c_marshal c = Ok (chunk_wire (t c) (f c) (value c))) ->
  (forall c, wf c -> length (value c) = c_value_length c) ->
  (forall c fr tail, wf c -> chunk_tail b (length (chunk_wire (t c) (f c) (value c))) tail ->
     c_unmarshal fr (chunk_wire (t c) (f c) (value c) ++ tail) = Ok (received fr c)) ->
  ChunkLaws C wf b received.
Proof.
  intros Hm Hl Hu c Hc. exists (chunk_wire (t c) (f c) (value c)). split_and!; [auto| |auto].
  by rewrite length_chunk_wire, Hl.
Qed.
End marshal.

Create HintDb chunk.
#[export] Hint Unfold c_marshal header_of
  ChunkPayloadData_impl ChunkPayloadData_header ChunkPayloadData_unmarshal ChunkPayloadData_marshal_to ChunkPayloadData_value_length
  ChunkSelectiveAck_impl ChunkSelectiveAck_header ChunkSelectiveAck_unmarshal ChunkSelectiveAck_marshal_to ChunkSelectiveAck_value_length
  ChunkForwardTsn_impl ChunkForwardTsn_header ChunkForwardTsn_unmarshal ChunkForwardTsn_marshal_to ChunkForwardTsn_value_length
  ChunkInit_impl ChunkInit_header ChunkInit_unmarshal ChunkInit_marshal_to ChunkInit_value_length
  ChunkAbort_impl ChunkAbort_header ChunkAbort_unmarshal ChunkAbort_marshal_to ChunkAbort_value_length
  ChunkError_impl ChunkError_header ChunkError_unmarshal ChunkError_marshal_to ChunkError_value_length
  ChunkHeartbeat_impl ChunkHeartbeat_header ChunkHeartbeat_unmarshal ChunkHeartbeat_marshal_to ChunkHeartbeat_value_length
  ChunkHeartbeatAck_impl ChunkHeartbeatAck_header ChunkHeartbeatAck_unmarshal ChunkHeartbeatAck_marshal_to ChunkHeartbeatAck_value_length
  ChunkShutdown_impl ChunkShutdown_header ChunkShutdown_unmarshal ChunkShutdown_marshal_to ChunkShutdown_value_length
  ChunkCookieEcho_impl ChunkCookieEcho_header ChunkCookieEcho_unmarshal ChunkCookieEcho_marshal_to ChunkCookieEcho_value_length
  ChunkReconfig_impl ChunkReconfig_header ChunkReconfig_unmarshal ChunkReconfig_marshal_to ChunkReconfig_value_length
  ChunkShutdownAck_impl ChunkShutdownAck_header ChunkShutdownAck_unmarshal ChunkShutdownAck_marshal_to
  ChunkShutdownComplete_impl ChunkShutdownComplete_header ChunkShutdownComplete_unmarshal ChunkShutdownComplete_marshal_to
  ChunkCookieAck_impl ChunkCookieAck_header ChunkCookieAck_unmarshal ChunkCookieAck_marshal_to
  : chunk.

Create HintDb chunk_sizes.
#[export] Hint Unfold fits PAYLOAD_DATA_HEADER_SIZE SELECTIVE_ACK_HEADER_SIZE
  NEW_CUMULATIVE_TSN_LENGTH FORWARD_TSN_STREAM_LENGTH CUMULATIVE_TSN_ACK_LENGTH
  CHUNK_HEADER_SIZE PARAM_HEADER_LENGTH INIT_CHUNK_MIN_LENGTH INIT_OPTIONAL_VAR_HEADER_LENGTH
  ERROR_CAUSE_HEADER_LENGTH : chunk_sizes.

Ltac solve_sizes := autounfold with chunk_sizes in *; cbn [length app] in *; lia.

Ltac chunk_methods :=
  autounfold with chunk; cbn [c_marshal_to c_unmarshal c_value_length c_header];
  autounfold with chunk.

Ltac solve_chunk_marshal :=
  chunk_methods;
  rewrite ChunkHeader_marshal_ok by solve_sizes;
  cbn [mbind res_bind app]; unfold chunk_wire; rewrite <- ?app_assoc.

(** Reads the header of a chunk written by [chunk_wire] and its value. *)
Ltac solve_chunk_unmarshal Htail :=
  chunk_methods;
  rewrite (fun Ht Hf Hv => ChunkHeader_unmarshal_wire _ _ _ _ _ Ht Hf Hv Htail)
    by first [assumption | (unfold in_range; done) | solve_sizes];
  cbn [mbind res_bind ch_typ ch_flags Z.eqb Pos.eqb negb orb CT_PAYLOAD_DATA CT_INIT CT_INIT_ACK
       CT_SACK CT_HEARTBEAT CT_HEARTBEAT_ACK CT_ABORT CT_SHUTDOWN CT_SHUTDOWN_ACK CT_ERROR
       CT_COOKIE_ECHO CT_COOKIE_ACK CT_SHUTDOWN_COMPLETE CT_RECONFIG CT_FORWARD_TSN];
  rewrite ?chunk_value_wire; cbn [mbind res_bind].

Section instances.
Context {P : Profile}.

(** ** DATA *)
Definition wf_payload_data (c : ChunkPayloadData) : Prop :=
  in_range 32 (pd_tsn c) /\ in_range 16 (pd_stream_identifier c) /\
  in_range 16 (pd_stream_sequence_number c) /\ fits (12 + length (pd_user_data c)).

(** The receiver's copy of a DATA chunk: the sender's bookkeeping is not sent. *)
Definition received_payload_data (fr : Fresh) (c : ChunkPayloadData) : ChunkPayloadData :=
  c <| pd_acked := false |> <| pd_miss_indicator := 0 |> <| pd_since := fr_now fr |>
    <| pd_nsent := 0 |> <| pd_abandoned := fr_loc fr |> <| pd_all_inflight := S (fr_loc fr) |>
    <| pd_retransmit := false |>.

Definition payload_data_flags (c : ChunkPayloadData) : Z := ch_flags (ChunkPayloadData_header c).

Definition payload_data_value (c : ChunkPayloadData) : bytes :=
  put_u32 (pd_tsn c) ++ put_u16 (pd_stream_identifier c) ++ put_u16 (pd_stream_sequence_number c)
  ++ put_u32 (PayloadProtocolIdentifier_as_u32 (pd_payload_type c)) ++ pd_user_data c.

Lemma length_payload_data_value c :
  length (payload_data_value c) = (12 + length (pd_user_data c))%nat.
Proof. unfold payload_data_value. rewrite !length_app. simpl. lia. Qed.

Lemma PayloadProtocolIdentifier_roundtrip p :
  PayloadProtocolIdentifier_from (PayloadProtocolIdentifier_as_u32 p) = p.
Proof. by destruct p. Qed.

Lemma PayloadProtocolIdentifier_range p : in_range 32 (PayloadProtocolIdentifier_as_u32 p).
Proof. destruct p; unfold in_range; simpl; lia. Qed.

#[export] Instance ChunkPayloadData_laws :
  ChunkLaws ChunkPayloadData wf_payload_data true received_payload_data.
Proof.
  apply (ChunkLaws_wire _ _ _ (fun _ => CT_PAYLOAD_DATA) payload_data_flags payload_data_value).
  - intros c (Ht & Hsi & Hssn & Hf). unfold payload_data_flags. solve_chunk_marshal.
    by rewrite length_payload_data_value.
  - intros c _. apply length_payload_data_value.
  - intros c fr tail (Ht & Hsi & Hssn & Hf) Htail.
    pose proof (length_payload_data_value c) as Hlen.
    assert (Hfl : in_range 8 (payload_data_flags c))
      by (destruct c as [[] [] [] [] ? ? ? ? ? ? ? ? ? ? ? ?]; done).
    assert (fits (length (payload_data_value c))) by (by rewrite Hlen).
    pose proof (chunk_tail_as_slice (E := Error) CT_PAYLOAD_DATA (payload_data_flags c)
      (payload_data_value c) tail 12 ltac:(lia)) as Hslice.
    assert (Hdrop : drop 12 (payload_data_value c) = pd_user_data c) by done.
    rewrite Hdrop in Hslice.
    solve_chunk_unmarshal Htail.
    rewrite ltb_false by (rewrite length_app, length_chunk_wire; unfold PAYLOAD_DATA_HEADER_SIZE; lia).
    unfold ChunkHeader_value_length. cbn [ch_value_length]. rewrite Nat2Z.id.
    unfold CHUNK_HEADER_SIZE, PAYLOAD_DATA_HEADER_SIZE. rewrite Hslice.
    unfold payload_data_value.
    rewrite get_put_u32 by done. cbn [mbind res_bind].
    rewrite get_put_u16 by done. cbn [mbind res_bind].
    rewrite get_put_u16 by done. cbn [mbind res_bind].
    rewrite get_put_u32 by apply PayloadProtocolIdentifier_range. cbn [mbind res_bind].
    rewrite PayloadProtocolIdentifier_roundtrip.
    by destruct c as [[] [] [] [] ? ? ? ? ? ? ? ? ? ? ? ?].
Qed.

(** ** SACK *)
Definition wf_sack (c : ChunkSelectiveAck) : Prop :=
  in_range 32 (sack_cumulative_tsn_ack c) /\
  in_range 32 (sack_advertised_receiver_window_credit c) /\
  Forall (fun g => in_range 16 (gap_start g) /\ in_range 16 (gap_end g)) (sack_gap_ack_blocks c) /\
  Forall (in_range 32) (sack_duplicate_tsn c) /\
  fits (12 + length (sack_gap_ack_blocks c) * 4 + length (sack_duplicate_tsn c) * 4).

Definition gap_wire (g : GapAckBlock) : bytes := put_u16 (gap_start g) ++ put_u16 (gap_end g).

Definition sack_value (c : ChunkSelectiveAck) : bytes :=
  put_u32 (sack_cumulative_tsn_ack c) ++ put_u32 (sack_advertised_receiver_window_credit c)
  ++ put_u16 (as_u16 (length (sack_gap_ack_blocks c)))
  ++ put_u16 (as_u16 (length (sack_duplicate_tsn c)))
  ++ flat_map gap_wire (sack_gap_ack_blocks c) ++ flat_map put_u32 (sack_duplicate_tsn c).

Lemma length_sack_value c : length (sack_value c)
  = (12 + length (sack_gap_ack_blocks c) * 4 + length (sack_duplicate_tsn c) * 4)%nat.
Proof.
  unfold sack_value. rewrite !length_app, !(length_flat_map_const _ 4) by done. simpl. lia.
Qed.

Lemma read_gap_ack_blocks_put {E} l tail :
  Forall (fun g => in_range 16 (gap_start g) /\ in_range 16 (gap_end g)) l ->
  read_gap_ack_blocks (E := E) (length l) (flat_map gap_wire l ++ tail) = Ok (l, tail).
Proof.
  induction 1 as [|g l [Hs He] Hl IH]; [done|]. cbn [length flat_map read_gap_ack_blocks].
  unfold gap_wire at 1. rewrite <- !app_assoc, get_put_u16 by done. cbn [mbind res_bind].
  rewrite get_put_u16 by done. cbn [mbind res_bind]. rewrite IH. by destruct g.
Qed.

Lemma read_u32s_put {E} l tail : Forall (in_range 32) l ->
  read_u32s (E := E) (length l) (flat_map put_u32 l ++ tail) = Ok (l, tail).
Proof.
  induction 1 as [|x l Hx Hl IH]; [done|]. cbn [length flat_map read_u32s].
  rewrite <- app_assoc, get_put_u32 by done. cbn [mbind res_bind]. by rewrite IH.
Qed.

#[export] Instance ChunkSelectiveAck_laws :
  ChunkLaws ChunkSelectiveAck wf_sack true (fun _ c => c).
Proof.
  apply (ChunkLaws_wire _ _ _ (fun _ => CT_SACK) (fun _ => 0) sack_value).
  - intros c (_ & _ & _ & _ & Hf). solve_chunk_marshal. by rewrite length_sack_value.
  - intros c _. apply length_sack_value.
  - intros c fr tail (Hc & Ha & Hg & Hd & Hf) Htail.
    pose proof (length_sack_value c) as Hlen.
    assert (fits (length (sack_value c))) by (by rewrite Hlen). unfold fits in *.
    solve_chunk_unmarshal Htail. rewrite length_app, length_chunk_wire, !Hlen.
    rewrite ltb_false by (unfold CHUNK_HEADER_SIZE, SELECTIVE_ACK_HEADER_SIZE; lia).
    unfold sack_value. rewrite get_put_u32 by done. cbn [mbind res_bind].
    rewrite get_put_u32 by done. cbn [mbind res_bind].
    rewrite !as_u16_small by (unfold fits; lia).
    rewrite get_put_u16 by (unfold in_range; lia). cbn [mbind res_bind].
    rewrite get_put_u16 by (unfold in_range; lia). cbn [mbind res_bind]. rewrite !Nat2Z.id.
    rewrite ltb_false by (unfold CHUNK_HEADER_SIZE, SELECTIVE_ACK_HEADER_SIZE; lia).
    rewrite read_gap_ack_blocks_put by done. cbn [mbind res_bind].
    rewrite <- (app_nil_r (flat_map put_u32 _)), read_u32s_put by done. by destruct c.
Qed.

(** ** FORWARD TSN *)
Definition wf_forward_tsn (c : ChunkForwardTsn) : Prop :=
  in_range 32 (ft_new_cumulative_tsn c) /\
  Forall (fun s => in_range 16 (fts_identifier s) /\ in_range 16 (fts_sequence s)) (ft_streams c) /\
  fits (4 + 4 * length (ft_streams c)).

Definition forward_tsn_value (c : ChunkForwardTsn) : bytes :=
  put_u32 (ft_new_cumulative_tsn c) ++ flat_map ChunkForwardTsnStream_marshal (ft_streams c).

Lemma length_forward_tsn_value c :
  length (forward_tsn_value c) = (4 + 4 * length (ft_streams c))%nat.
Proof.
  unfold forward_tsn_value. rewrite length_app, (length_flat_map_const _ 4) by done. done.
Qed.

Lemma ChunkForwardTsnStream_unmarshal_put s tail :
  in_range 16 (fts_identifier s) -> in_range 16 (fts_sequence s) ->
  ChunkForwardTsnStream_unmarshal (ChunkForwardTsnStream_marshal s ++ tail) = Ok s.
Proof.
  intros Hi Hq. unfold ChunkForwardTsnStream_unmarshal, ChunkForwardTsnStream_marshal.
  rewrite ltb_false by (rewrite length_app; unfold FORWARD_TSN_STREAM_LENGTH; simpl; lia).
  rewrite <- app_assoc, get_put_u16 by done. cbn [mbind res_bind].
  rewrite get_put_u16 by done. by destruct s.
Qed.

Lemma read_forward_tsn_streams_put l : forall fuel pre,
  Forall (fun s => in_range 16 (fts_identifier s) /\ in_range 16 (fts_sequence s)) l ->
  (length l <= fuel)%nat -> fits (4 * length l) ->
  read_forward_tsn_streams fuel (pre ++ flat_map ChunkForwardTsnStream_marshal l) (length pre)
    (length pre + 4 * length l) (Z.of_nat (4 * length l)) = Ok l.
Proof.
  induction l as [|s l IH]; intros fuel pre Hl Hfuel Hfit; [by destruct fuel|].
  destruct fuel as [|fuel]; [simpl in Hfuel; lia|]. inversion_clear Hl as [|?? [Hi Hq] Hl'].
  cbn [length] in *. cbn [read_forward_tsn_streams flat_map].
  destruct (Z.gtb_spec (Z.of_nat (4 * S (length l))) 0); [|lia].
  erewrite (slice_app _ pre (ChunkForwardTsnStream_marshal s ++ _) []);
    [|by rewrite app_nil_r|done|rewrite length_app, (length_flat_map_const _ 4) by done; simpl; lia].
  cbn [mbind res_bind]. rewrite ChunkForwardTsnStream_unmarshal_put by done. cbn [mbind res_bind].
  unfold fits in Hfit.
  rewrite arith_ok by (unfold in_range, FORWARD_TSN_STREAM_LENGTH; lia). cbn [mbind res_bind].
  rewrite app_assoc. unfold FORWARD_TSN_STREAM_LENGTH.
  replace (length pre + 4)%nat with (length (pre ++ ChunkForwardTsnStream_marshal s))
    by (rewrite length_app; simpl; lia).
  replace (length pre + 4 * S (length l))%nat
    with (length (pre ++ ChunkForwardTsnStream_marshal s) + 4 * length l)%nat
    by (rewrite length_app; simpl; lia).
  replace (Z.of_nat (4 * S (length l)) - Z.of_nat 4) with (Z.of_nat (4 * length l)) by lia.
  rewrite IH by (try done; unfold fits; lia). by destruct s.
Qed.

#[export] Instance ChunkForwardTsn_laws :
  ChunkLaws ChunkForwardTsn wf_forward_tsn false (fun _ c => c).
Proof.
  apply (ChunkLaws_wire _ _ _ (fun _ => CT_FORWARD_TSN) (fun _ => 0) forward_tsn_value).
  - intros c (_ & _ & Hf). solve_chunk_marshal. by rewrite length_forward_tsn_value.
  - intros c _. apply length_forward_tsn_value.
  - intros c fr tail (Hn & Hs & Hf) Htail. pose proof (length_forward_tsn_value c) as Hlen.
    assert (fits (length (forward_tsn_value c))) by (by rewrite Hlen). unfold fits in *.
    assert (tail = []) as ->.
    { eapply chunk_tail_aligned; [exact Htail|]. rewrite length_chunk_wire, Hlen.
      replace (4 + (4 + 4 * length (ft_streams c)))%nat with ((2 + length (ft_streams c)) * 4)%nat by lia.
      apply Nat.Div0.mod_mul. }
    solve_chunk_unmarshal Htail. rewrite app_nil_r, length_chunk_wire, !Hlen.
    unfold CHUNK_HEADER_SIZE, NEW_CUMULATIVE_TSN_LENGTH, ChunkHeader_value_length.
    cbn [ch_value_length]. rewrite ltb_false by lia. rewrite Nat2Z.id.
    assert (Hget : get_u32 (E := Error) (forward_tsn_value c)
      = Ok (ft_new_cumulative_tsn c, flat_map ChunkForwardTsnStream_marshal (ft_streams c)))
      by (by apply get_put_u32).
    rewrite Hget. cbn [mbind res_bind].
    set (pre := put_u8 CT_FORWARD_TSN ++ put_u8 0
                  ++ put_u16 (Z.of_nat (4 + 4 * length (ft_streams c)) + 4)
                  ++ put_u32 (ft_new_cumulative_tsn c)).
    assert (Hraw : chunk_wire CT_FORWARD_TSN 0 (forward_tsn_value c)
                   = pre ++ flat_map ChunkForwardTsnStream_marshal (ft_streams c)).
    { unfold chunk_wire. rewrite Hlen. unfold pre, forward_tsn_value. by rewrite <- !app_assoc. }
    rewrite Hraw. replace (4 + _ - (4 + 4))%nat with (4 * length (ft_streams c))%nat by lia.
    erewrite (read_forward_tsn_streams_put (ft_streams c) _ pre) by (try done; unfold fits; lia).
    by destruct c.
Qed.

(** ** SHUTDOWN, SHUTDOWN ACK, SHUTDOWN COMPLETE, COOKIE ECHO, COOKIE ACK *)
Definition wf_shutdown (c : ChunkShutdown) : Prop := in_range 32 (sd_cumulative_tsn_ack c).

#[export] Instance ChunkShutdown_laws : ChunkLaws ChunkShutdown wf_shutdown false (fun _ c => c).
Proof.
  apply (ChunkLaws_wire _ _ _ (fun _ => CT_SHUTDOWN) (fun _ => 0)
           (fun c => put_u32 (sd_cumulative_tsn_ack c))).
  - intros c _. by solve_chunk_marshal.
  - done.
  - intros c fr tail Hc Htail.
    assert (tail = []) as -> by (by eapply chunk_tail_aligned).
    solve_chunk_unmarshal Htail. rewrite length_app, length_chunk_wire. cbn [length app Nat.eqb negb].
    rewrite <- (app_nil_r (put_u32 _)), get_put_u32 by done. by destruct c.
Qed.

Ltac solve_empty_chunk typ :=
  apply (ChunkLaws_wire _ _ _ (fun _ => typ) (fun _ => 0) (fun _ => []));
  [intros c _; by solve_chunk_marshal | done
  | intros [] fr tail _ Htail; by solve_chunk_unmarshal Htail].

#[export] Instance ChunkShutdownAck_laws :
  ChunkLaws ChunkShutdownAck (fun _ => True) true (fun _ c => c).
Proof. solve_empty_chunk CT_SHUTDOWN_ACK. Qed.

#[export] Instance ChunkShutdownComplete_laws :
  ChunkLaws ChunkShutdownComplete (fun _ => True) true (fun _ c => c).
Proof. solve_empty_chunk CT_SHUTDOWN_COMPLETE. Qed.

#[export] Instance ChunkCookieAck_laws :
  ChunkLaws ChunkCookieAck (fun _ => True) true (fun _ c => c).
Proof. solve_empty_chunk CT_COOKIE_ACK. Qed.

Definition wf_cookie_echo (c : ChunkCookieEcho) : Prop := fits (length (ce_cookie c)).

#[export] Instance ChunkCookieEcho_laws :
  ChunkLaws ChunkCookieEcho wf_cookie_echo true (fun _ c => c).
Proof.
  apply (ChunkLaws_wire _ _ _ (fun _ => CT_COOKIE_ECHO) (fun _ => 0) ce_cookie).
  - intros c Hc. unfold wf_cookie_echo in Hc. by solve_chunk_marshal.
  - done.
  - intros [v] fr tail Hc Htail. unfold wf_cookie_echo in Hc. cbn [ce_cookie] in *. by solve_chunk_unmarshal Htail.
Qed.

(** ** ABORT and ERROR *)
Definition wf_cause (e : ErrorCause) : Prop := in_range 16 (ec_code e) /\ fits (length (ec_raw e)).

Lemma length_ErrorCause_marshal e : length (ErrorCause_marshal e) = ErrorCause_length e.
Proof.
  unfold ErrorCause_marshal, ErrorCause_length, ERROR_CAUSE_HEADER_LENGTH.
  rewrite !length_app. simpl. lia.
Qed.

Lemma causes_length_spec l : causes_length l = length (flat_map ErrorCause_marshal l).
Proof.
  assert (H : forall n, foldl (fun n ec => (n + ErrorCause_length ec)%nat) n l
                        = (n + length (flat_map ErrorCause_marshal l))%nat).
  { induction l as [|e l IH]; intros n; cbn [flat_map foldl]; [simpl; lia|].
    rewrite IH, length_app, length_ErrorCause_marshal. lia. }
  apply H.
Qed.

Lemma ErrorCause_unmarshal_put e tail : wf_cause e ->
  ErrorCause_unmarshal (ErrorCause_marshal e ++ tail) = Ok e.
Proof.
  intros [Hc Hf]. unfold ErrorCause_unmarshal.
  rewrite ltb_false by (rewrite length_app, length_ErrorCause_marshal; unfold ErrorCause_length; lia).
  assert (Hl : as_u16 (length (ec_raw e) + ERROR_CAUSE_HEADER_LENGTH)
               = Z.of_nat (length (ec_raw e) + 4)).
  { unfold fits in Hf. apply wrap_small. unfold in_range, ERROR_CAUSE_HEADER_LENGTH. lia. }
  unfold ErrorCause_marshal. rewrite Hl, <- !app_assoc, get_put_u16 by done. cbn [mbind res_bind].
  unfold fits in Hf. rewrite get_put_u16 by (unfold in_range; lia). cbn [mbind res_bind].
  unfold ERROR_CAUSE_HEADER_LENGTH.
  destruct (Z.ltb_spec (Z.of_nat (length (ec_raw e) + 4)) (Z.of_nat 4)); [lia|].
  rewrite (slice_app _ (put_u16 (ec_code e) ++ put_u16 (Z.of_nat (length (ec_raw e) + 4)))
             (ec_raw e) tail) by (first [by rewrite <- ?app_assoc | done | lia]).
  by destruct e.
Qed.

Lemma length_causes_ge l : (length l <= length (flat_map ErrorCause_marshal l))%nat.
Proof.
  induction l as [|e l IH]; cbn [flat_map length]; [lia|].
  rewrite length_app, length_ErrorCause_marshal. unfold ErrorCause_length, ERROR_CAUSE_HEADER_LENGTH. lia.
Qed.

Lemma read_error_causes_put l : forall fuel pre tail,
  Forall wf_cause l -> (length l <= fuel)%nat -> (length tail < 4)%nat ->
  read_error_causes fuel (pre ++ flat_map ErrorCause_marshal l ++ tail) (length pre)
    (length pre + length (flat_map ErrorCause_marshal l)) = Ok l.
Proof.
  induction l as [|e l IH]; intros fuel pre tail Hl Hfuel Htail.
  { cbn [flat_map app]. destruct fuel; cbn [read_error_causes];
      by rewrite leb_false by (rewrite length_app; lia). }
  destruct fuel as [|fuel]; [simpl in Hfuel; lia|]. inversion_clear Hl as [|? ? He Hl'].
  cbn [length read_error_causes flat_map] in *.
  pose proof (length_ErrorCause_marshal e) as Hlen.
  assert (4 <= ErrorCause_length e)%nat by (unfold ErrorCause_length, ERROR_CAUSE_HEADER_LENGTH; lia).
  rewrite leb_true by (rewrite !length_app; lia).
  rewrite (slice_app _ pre (ErrorCause_marshal e ++ flat_map ErrorCause_marshal l) tail) by done.
  cbn [mbind res_bind]. rewrite ErrorCause_unmarshal_put by done. cbn [mbind res_bind].
  rewrite <- app_assoc, (app_assoc pre), length_app.
  replace (length pre + ErrorCause_length e)%nat with (length (pre ++ ErrorCause_marshal e))
    by (rewrite length_app; lia).
  replace (length pre + (_ + _))%nat
    with (length (pre ++ ErrorCause_marshal e) + length (flat_map ErrorCause_marshal l))%nat
    by (rewrite length_app; lia).
  rewrite IH by (done || lia). done.
Qed.

Lemma read_error_causes_wire typ l tail :
  Forall wf_cause l -> (length tail < 4)%nat ->
  read_error_causes (length (chunk_wire typ 0 (flat_map ErrorCause_marshal l) ++ tail))
    (chunk_wire typ 0 (flat_map ErrorCause_marshal l) ++ tail) CHUNK_HEADER_SIZE
    (CHUNK_HEADER_SIZE + length (flat_map ErrorCause_marshal l)) = Ok l.
Proof.
  intros Hl Ht. rewrite length_app, length_chunk_wire. set (fuel := (_ + _ + _)%nat).
  unfold chunk_wire. rewrite !app_assoc, <- (app_assoc _ _ tail).
  apply read_error_causes_put; [done| |done].
  pose proof (length_causes_ge l). unfold fuel. lia.
Qed.

Ltac solve_causes typ causes :=
  apply (ChunkLaws_wire _ _ _ (fun _ => typ) (fun _ => 0)
           (fun c => flat_map ErrorCause_marshal (causes c)));
  [ intros c [_ Hf]; rewrite <- causes_length_spec in Hf; solve_chunk_marshal;
    by rewrite causes_length_spec
  | intros c _; symmetry; apply causes_length_spec
  | intros [l] fr tail [Hl Hf] Htail; cbn [causes] in *;
    solve_chunk_unmarshal Htail; unfold ChunkHeader_value_length; cbn [ch_value_length];
    rewrite Nat2Z.id, read_error_causes_wire by (done || by eapply chunk_tail_last_lt); done ].

Definition wf_causes (l : list ErrorCause) : Prop :=
  Forall wf_cause l /\ fits (length (flat_map ErrorCause_marshal l)).
Definition wf_abort (c : ChunkAbort) : Prop := wf_causes (ab_error_causes c).
Definition wf_error (c : ChunkError) : Prop := wf_causes (er_error_causes c).

#[export] Instance ChunkAbort_laws : ChunkLaws ChunkAbort wf_abort false (fun _ c => c).
Proof. solve_causes CT_ABORT ab_error_causes. Qed.

#[export] Instance ChunkError_laws : ChunkLaws ChunkError wf_error false (fun _ c => c).
Proof. solve_causes CT_ERROR er_error_causes. Qed.

(** ** Parameters inside chunks *)
Definition param_wire (p : Param) : bytes :=
  match p_marshal p with Ok raw => raw | _ => [] end.

Lemma param_wire_spec p : wf_param p ->
  p_marshal p = Ok (param_wire p) /\
  length (param_wire p) = (PARAM_HEADER_LENGTH + p_value_length p)%nat /\
  forall tail, build_param (param_wire p ++ tail) = Ok p.
Proof.
  intros Hp. destruct (p_roundtrip p Hp) as (raw & Hm & Hl & Hu).
  unfold param_wire. rewrite Hm. auto.
Qed.

Lemma build_param_wire p : wf_param p -> build_param (param_wire p) = Ok p.
Proof. intros Hp. rewrite <- (app_nil_r (param_wire p)). by apply param_wire_spec. Qed.

(** ** HEARTBEAT and HEARTBEAT ACK *)
Definition wf_heartbeat (params : list Param) : Prop :=
  exists p, params = [p] /\ wf_param p /\ param_typ p = HeartbeatInfo /\ fits (length (param_wire p)).

Definition heartbeat_value (params : list Param) : bytes :=
  match params with p :: _ => param_wire p | [] => [] end.

Definition wf_hb (c : ChunkHeartbeat) : Prop := wf_heartbeat (hb_params c).
Definition wf_hb_ack (c : ChunkHeartbeatAck) : Prop := wf_heartbeat (hba_params c).

#[export] Instance ChunkHeartbeat_laws : ChunkLaws ChunkHeartbeat wf_hb true (fun _ c => c).
Proof.
  apply (ChunkLaws_wire _ _ _ (fun _ => CT_HEARTBEAT) (fun _ => 0)
           (fun c => heartbeat_value (hb_params c))).
  - intros [l] (p & Hl & Hp & Ht & Hf). cbn [hb_params] in *. subst l. cbn [heartbeat_value] in *.
    destruct (param_wire_spec p Hp) as (Hm & Hlen & _).
    assert (Hf' := Hf). rewrite Hlen in Hf'.
    chunk_methods. cbn [hb_params foldl heartbeat_value]. rewrite Nat.add_0_l.
    rewrite ChunkHeader_marshal_ok by done. cbn [mbind res_bind app params_extend].
    rewrite Hm. cbn [mbind res_bind]. unfold chunk_wire.
    by rewrite Hlen, <- !app_assoc.
  - intros [l] (p & Hl & Hp & _). cbn [hb_params] in *. subst l. cbn [heartbeat_value] in *.
    destruct (param_wire_spec p Hp) as (_ & Hlen & _). exact Hlen.
  - intros [l] fr tail (p & Hl & Hp & Ht & Hf) Htail.
    cbn [hb_params] in *. subst l. cbn [heartbeat_value] in *.
    destruct (param_wire_spec p Hp) as (_ & Hlen & _). unfold PARAM_HEADER_LENGTH in Hlen.
    solve_chunk_unmarshal Htail.
    rewrite leb_false by (rewrite length_app, length_chunk_wire; unfold CHUNK_HEADER_SIZE; lia).
    rewrite build_param_wire by done. cbn [mbind res_bind].
    rewrite decide_False by auto. done.
Qed.

#[export] Instance ChunkHeartbeatAck_laws :
  ChunkLaws ChunkHeartbeatAck wf_hb_ack true (fun _ c => c).
Proof.
  apply (ChunkLaws_wire _ _ _ (fun _ => CT_HEARTBEAT_ACK) (fun _ => 0)
           (fun c => heartbeat_value (hba_params c))).
  - intros [l] (p & Hl & Hp & Ht & Hf). cbn [hba_params] in *. subst l. cbn [heartbeat_value] in *.
    destruct (param_wire_spec p Hp) as (Hm & Hlen & _).
    assert (Hf' := Hf). rewrite Hlen in Hf'.
    chunk_methods. cbn [hba_params params_value_length heartbeat_value length Nat.eqb negb].
    unfold index. cbn [lookup list_lookup mbind res_bind]. rewrite decide_False by auto.
    rewrite ChunkHeader_marshal_ok by done. cbn [mbind res_bind app params_marshal_to].
    rewrite Hm. cbn [mbind res_bind]. unfold chunk_wire.
    by rewrite Hlen, <- !app_assoc.
  - intros [l] (p & Hl & Hp & _). cbn [hba_params] in *. subst l. cbn [heartbeat_value] in *.
    destruct (param_wire_spec p Hp) as (_ & Hlen & _). exact Hlen.
  - intros [l] fr tail (p & Hl & Hp & Ht & Hf) Htail.
    cbn [hba_params] in *. subst l. cbn [heartbeat_value] in *.
    destruct (param_wire_spec p Hp) as (_ & Hlen & _). unfold PARAM_HEADER_LENGTH in Hlen.
    solve_chunk_unmarshal Htail.
    rewrite leb_false by (rewrite length_app, length_chunk_wire; unfold CHUNK_HEADER_SIZE; lia).
    rewrite build_param_wire by done. cbn [mbind res_bind].
    rewrite decide_False by auto. done.
Qed.

(** ** RE-CONFIG *)
Definition reconfig_value (c : ChunkReconfig) : bytes :=
  match rc_param_a c with
  | None => []
  | Some a =>
      param_wire a ++
      match rc_param_b c with
      | None => []
      | Some b => replicate (get_padding_size (length (param_wire a))) Byte.x00 ++ param_wire b
      end
  end.

Definition wf_reconfig (c : ChunkReconfig) : Prop :=
  (exists a, rc_param_a c = Some a /\ wf_param a) /\
  (forall b, rc_param_b c = Some b -> wf_param b) /\
  fits (length (reconfig_value c)).

Lemma length_reconfig_value c : wf_reconfig c ->
  length (reconfig_value c) = ChunkReconfig_value_length c.
Proof.
  intros ((a & Ha & Hwa) & Hb & _). unfold reconfig_value, ChunkReconfig_value_length.
  rewrite Ha. destruct (param_wire_spec a Hwa) as (_ & Hla & _).
  destruct (rc_param_b c) as [b|] eqn:Eb.
  - destruct (param_wire_spec b (Hb b eq_refl)) as (_ & Hlb & _).
    rewrite !length_app, length_replicate, Hla, Hlb. lia.
  - rewrite app_nil_r, Hla. lia.
Qed.

#[export] Instance ChunkReconfig_laws : ChunkLaws ChunkReconfig wf_reconfig true (fun _ c => c).
Proof.
  apply (ChunkLaws_wire _ _ _ (fun _ => CT_RECONFIG) (fun _ => 0) reconfig_value).
  - intros c Hc. pose proof (length_reconfig_value c Hc) as Hlen.
    destruct Hc as ((a & Ha & Hwa) & Hb & Hf).
    unfold c_marshal. cbn [c_marshal_to ChunkReconfig_impl]. unfold ChunkReconfig_marshal_to,
      ChunkReconfig_header, header_of.
    rewrite ChunkHeader_marshal_ok by (by rewrite <- Hlen). cbn [mbind res_bind app].
    unfold chunk_wire. rewrite Hlen. unfold reconfig_value. rewrite Ha.
    destruct (param_wire_spec a Hwa) as (Hma & Hla & _). rewrite Hma. cbn [mbind res_bind].
    destruct (rc_param_b c) as [b|] eqn:Eb.
    + destruct (param_wire_spec b (Hb b eq_refl)) as (Hmb & _). rewrite Hmb. cbn [mbind res_bind].
      by rewrite Hla, <- !app_assoc.
    + by rewrite app_nil_r, <- !app_assoc.
  - apply length_reconfig_value.
  - intros c fr tail Hc Htail. pose proof (length_reconfig_value c Hc) as Hlen.
    destruct Hc as ((a & Ha & Hwa) & Hb & Hf).
    assert (Hv := chunk_tail_as_slice (E := Error) CT_RECONFIG 0 (reconfig_value c) tail).
    solve_chunk_unmarshal Htail. unfold ChunkHeader_value_length. cbn [ch_value_length].
    rewrite Nat2Z.id. destruct (param_wire_spec a Hwa) as (_ & Hla & Hua).
    assert (Hpa : build_param (reconfig_value c) = Ok a)
      by (unfold reconfig_value; rewrite Ha; apply Hua).
    rewrite Hpa. cbn [mbind res_bind]. rewrite <- Hla.
    destruct (rc_param_b c) as [b|] eqn:Eb.
    + destruct (param_wire_spec b (Hb b eq_refl)) as (_ & Hlb & _).
      pose (k := (length (param_wire a) + get_padding_size (length (param_wire a)))%nat).
      assert (Hk : length (reconfig_value c) = (k + length (param_wire b))%nat).
      { unfold reconfig_value, k. rewrite Ha, Eb, !length_app, length_replicate. lia. }
      replace (CHUNK_HEADER_SIZE + PARAM_HEADER_LENGTH + p_value_length a
        + get_padding_size (length (param_wire a)))%nat with (4 + k)%nat
        by (unfold k, CHUNK_HEADER_SIZE; lia).
      unfold CHUNK_HEADER_SIZE, PARAM_HEADER_LENGTH in *.
      rewrite ltb_true by lia. rewrite Hv by lia. cbn [mbind res_bind].
      assert (Hd : drop k (reconfig_value c) = param_wire b).
      { unfold reconfig_value, k. rewrite Ha, Eb, app_assoc. apply drop_app_length'.
        rewrite length_app, length_replicate. lia. }
      rewrite Hd, build_param_wire by auto. cbn [mbind res_bind]. destruct c; cbn in *; congruence.
    + rewrite ltb_false.
      * cbn [mbind res_bind]. destruct c; cbn in *; congruence.
      * unfold reconfig_value. rewrite Ha, Eb, app_nil_r.
        unfold CHUNK_HEADER_SIZE in *. lia.
Qed.

(** ** INIT and INIT ACK *)
Fixpoint params_wire (l : list Param) : bytes :=
  match l with
  | [] => []
  | [p] => param_wire p
  | p :: l' =>
      param_wire p ++ replicate (get_padding_size (length (param_wire p))) Byte.x00 ++ params_wire l'
  end.

(** The reader stops when four bytes or less remain, so a last parameter
    without a value is not read back. *)
Definition last_has_value (l : list Param) : Prop :=
  match last l with Some p => (0 < p_value_length p)%nat | None => True end.

Definition wf_init (c : ChunkInit) : Prop :=
  in_range 32 (ci_initiate_tag c) /\ in_range 32 (ci_advertised_receiver_window_credit c) /\
  in_range 16 (ci_num_outbound_streams c) /\ in_range 16 (ci_num_inbound_streams c) /\
  in_range 32 (ci_initial_tsn c) /\ Forall wf_param (ci_params c) /\
  last_has_value (ci_params c) /\ fits (16 + length (params_wire (ci_params c))).

Lemma length_params_wire l : Forall wf_param l ->
  length (params_wire l) = params_value_length l.
Proof.
  induction 1 as [|p [|q l] Hp Hl IH]; [done| |];
    destruct (param_wire_spec p Hp) as (_ & Hlen & _); [exact Hlen|].
  change (params_wire (p :: q :: l)) with (param_wire p
    ++ replicate (get_padding_size (length (param_wire p))) Byte.x00 ++ params_wire (q :: l)).
  rewrite !length_app, length_replicate, IH, Hlen.
  cbn [params_value_length]. lia.
Qed.

Lemma params_marshal_wire l : forall w, Forall wf_param l ->
  params_marshal_to l w = Ok (w ++ params_wire l).
Proof.
  induction l as [|p [|q l] IH]; intros w Hl; [by rewrite app_nil_r| |];
    inversion_clear Hl as [|?? Hp Hl'];
    destruct (param_wire_spec p Hp) as (Hm & _ & _);
    cbn [params_marshal_to]; rewrite Hm; cbn [mbind res_bind]; [done|].
  etransitivity; [by apply IH|]. by rewrite <- !app_assoc.
Qed.

Lemma get_padding_size_shift k n : (k `mod` 4 = 0)%nat ->
  get_padding_size (k + n) = get_padding_size n.
Proof.
  intros Hk. unfold get_padding_size, PADDING_MULTIPLE.
  rewrite <- Nat.Div0.add_mod_idemp_l, Hk. done.
Qed.

Lemma params_wire_cons2 p q l : params_wire (p :: q :: l) =
  (param_wire p ++ replicate (get_padding_size (length (param_wire p))) Byte.x00)
  ++ params_wire (q :: l).
Proof. cbn [params_wire]. by rewrite <- app_assoc. Qed.

Lemma length_params_ge l : Forall wf_param l -> (4 * length l <= length (params_wire l))%nat.
Proof.
  induction 1 as [|p [|q l] Hp Hl IH]; [done| |];
    destruct (param_wire_spec p Hp) as (_ & Hlen & _); unfold PARAM_HEADER_LENGTH in Hlen.
  - cbn [params_wire length]. lia.
  - rewrite params_wire_cons2, !length_app. cbn [length] in *. lia.
Qed.

Lemma length_params_gt p l : wf_param p -> Forall wf_param l -> last_has_value (p :: l) ->
  (4 < length (params_wire (p :: l)))%nat.
Proof.
  intros Hp Hl Hlast. destruct (param_wire_spec p Hp) as (_ & Hlen & _).
  unfold PARAM_HEADER_LENGTH in Hlen. destruct l as [|q l].
  - change (0 < p_value_length p)%nat in Hlast. cbn [params_wire]. lia.
  - pose proof (length_params_ge _ Hl) as Hge. rewrite params_wire_cons2, !length_app.
    cbn [length] in *. lia.
Qed.

Lemma build_params_wire p l : wf_param p -> build_param (params_wire (p :: l)) = Ok p.
Proof.
  intros Hp. destruct (param_wire_spec p Hp) as (_ & _ & Hb).
  destruct l as [|q l]; [by apply build_param_wire|].
  rewrite params_wire_cons2, <- app_assoc. apply Hb.
Qed.

Lemma read_init_params_wire l : forall fuel pre tail,
  Forall wf_param l -> last_has_value l -> (length l <= fuel)%nat ->
  length tail = get_padding_size (length (params_wire l)) ->
  read_init_params fuel (pre ++ params_wire l ++ tail) (length pre)
    (length pre + length (params_wire l)) (Z.of_nat (length (params_wire l) + length tail)) = Ok l.
Proof.
  induction l as [|p l IH]; intros fuel pre tail Hl Hlast Hfuel Htail.
  { cbn [params_wire length] in *. change (get_padding_size 0) with 0%nat in Htail.
    rewrite Htail. by destruct fuel. }
  inversion_clear Hl as [|?? Hp Hl']. destruct fuel as [|fuel]; [cbn in Hfuel; lia|].
  pose proof (length_params_gt p l Hp Hl' Hlast) as Hrem.
  destruct (param_wire_spec p Hp) as (_ & Hlen & _). unfold PARAM_HEADER_LENGTH in Hlen.
  cbn [read_init_params]. unfold INIT_OPTIONAL_VAR_HEADER_LENGTH.
  destruct (Z.gtb_spec (Z.of_nat (length (params_wire (p :: l)) + length tail)) (Z.of_nat 4)); [|lia].
  rewrite (slice_app _ pre (params_wire (p :: l)) tail) by done. cbn [mbind res_bind].
  rewrite build_params_wire by done. cbn [mbind res_bind].
  unfold PARAM_HEADER_LENGTH. rewrite <- Hlen.
  destruct l as [|q l].
  { cbn [params_wire] in *. rewrite Htail, Z.sub_diag. by destruct fuel. }
  set (w := param_wire p) in *. pose proof (get_padding_size_spec (length w)) as [_ Hpad].
  rewrite params_wire_cons2 in *. fold w in Hrem, Htail |- *.
  set (pad := replicate (get_padding_size (length w)) Byte.x00) in *.
  assert (Hlw : length (w ++ pad) = (length w + get_padding_size (length w))%nat)
    by (unfold pad; by rewrite length_app, length_replicate).
  rewrite length_app, Hlw, get_padding_size_shift in Htail by done.
  rewrite <- app_assoc, (app_assoc pre), length_app, <- Hlw, <- length_app, Nat.add_assoc,
    <- length_app.
  match goal with |- context [read_init_params _ _ _ _ ?r] =>
    replace r with (Z.of_nat (length (params_wire (q :: l)) + length tail)) by lia end.
  rewrite IH by (first [done | cbn in *; lia]). done.
Qed.

Definition init_typ (c : ChunkInit) : ChunkType := if ci_is_ack c then CT_INIT_ACK else CT_INIT.

Definition init_fixed (c : ChunkInit) : bytes :=
  put_u32 (ci_initiate_tag c) ++ put_u32 (ci_advertised_receiver_window_credit c)
  ++ put_u16 (ci_num_outbound_streams c) ++ put_u16 (ci_num_inbound_streams c)
  ++ put_u32 (ci_initial_tsn c).

Definition init_value (c : ChunkInit) : bytes := init_fixed c ++ params_wire (ci_params c).

Lemma length_init_value c : wf_init c -> length (init_value c) = ChunkInit_value_length c.
Proof.
  intros (_ & _ & _ & _ & _ & Hp & _). unfold init_value, ChunkInit_value_length.
  rewrite length_app, length_params_wire by done. done.
Qed.

#[export] Instance ChunkInit_laws : ChunkLaws ChunkInit wf_init false (fun _ c => c).
Proof.
  apply (ChunkLaws_wire _ _ _ init_typ (fun _ => 0) init_value).
  - intros c Hc. pose proof (length_init_value c Hc) as Hlen.
    destruct Hc as (_ & _ & _ & _ & _ & Hp & _ & Hf).
    unfold c_marshal. cbn [c_marshal_to ChunkInit_impl]. unfold ChunkInit_marshal_to,
      ChunkInit_header, header_of. fold (init_typ c).
    rewrite ChunkHeader_marshal_ok by (rewrite <- Hlen; unfold init_value; by rewrite length_app).
    cbn [mbind res_bind app]. rewrite params_marshal_wire by done.
    unfold chunk_wire. rewrite Hlen. unfold init_value, init_fixed. by rewrite <- !app_assoc.
  - apply length_init_value.
  - intros c fr tail Hc Htail.
    destruct Hc as (H1 & H2 & H3 & H4 & H5 & Hp & Hlast & Hf).
    assert (Hlen : length (init_value c) = (16 + length (params_wire (ci_params c)))%nat)
      by (unfold init_value; by rewrite length_app).
    pose proof (chunk_tail_last _ _ Htail) as Ht.
    rewrite length_chunk_wire, get_padding_size_shift, Hlen, get_padding_size_shift in Ht by done.
    assert (Hread : read_init_params (length (chunk_wire (init_typ c) 0 (init_value c) ++ tail))
      (chunk_wire (init_typ c) 0 (init_value c) ++ tail) 20 (20 + length (params_wire (ci_params c)))
      (Z.of_nat (length (params_wire (ci_params c)) + length tail)) = Ok (ci_params c)).
    { replace (chunk_wire (init_typ c) 0 (init_value c) ++ tail)
        with ((put_u8 (init_typ c) ++ put_u8 0 ++ put_u16 (Z.of_nat (length (init_value c)) + 4)
               ++ init_fixed c) ++ params_wire (ci_params c) ++ tail)
        by (unfold chunk_wire, init_value at 2; by rewrite <- !app_assoc).
      apply read_init_params_wire; [done..| |by rewrite Ht, length_replicate].
      pose proof (length_params_ge _ Hp). rewrite !length_app. lia. }
    assert (Hty : in_range 8 (init_typ c)) by (unfold init_typ; by destruct (ci_is_ack c)).
    assert (fits (length (init_value c))) by (by rewrite Hlen).
    solve_chunk_unmarshal Htail.
    replace ((init_typ c =? CT_INIT) || (init_typ c =? CT_INIT_ACK)) with true
      by (unfold init_typ; by destruct (ci_is_ack c)). cbn [negb].
    rewrite ltb_false by (rewrite length_app, length_chunk_wire, Hlen;
      unfold CHUNK_HEADER_SIZE, INIT_CHUNK_MIN_LENGTH; lia).
    assert (Hg : get_u32 (E := Error) (init_value c) = Ok (ci_initiate_tag c,
      put_u32 (ci_advertised_receiver_window_credit c) ++ put_u16 (ci_num_outbound_streams c)
      ++ put_u16 (ci_num_inbound_streams c) ++ put_u32 (ci_initial_tsn c)
      ++ params_wire (ci_params c))) by (by apply get_put_u32).
    rewrite Hg. cbn [mbind res_bind].
    rewrite get_put_u32 by done. cbn [mbind res_bind].
    rewrite get_put_u16 by done. cbn [mbind res_bind].
    rewrite get_put_u16 by done. cbn [mbind res_bind].
    rewrite get_put_u32 by done. cbn [mbind res_bind].
    unfold ChunkHeader_value_length. cbn [ch_value_length]. rewrite Nat2Z.id, Hlen.
    unfold CHUNK_HEADER_SIZE, INIT_CHUNK_MIN_LENGTH.
    rewrite (length_app (chunk_wire _ _ _)) at 2. rewrite length_chunk_wire, Hlen.
    replace (Z.of_nat _ - Z.of_nat (4 + 16))
      with (Z.of_nat (length (params_wire (ci_params c)) + length tail)) by lia.
    change (4 + (16 + length (params_wire (ci_params c))))%nat
      with (20 + length (params_wire (ci_params c)))%nat. change (4 + 16)%nat with 20%nat.
    rewrite Hread. cbn [mbind res_bind].
    destruct c as [[] ? ? ? ? ? ?]; done.
Qed.
End instances.
