(* ===== verification/Packet.v ===== *)
(** SCTP packets ([sctp/packet.rs], the checksum of [sctp/util.rs]): the
    common header, the CRC32c check, and the chunk loop with its padding.

    CRC-32C is computed by the [crc] crate: a parameter, the class [Crc], whose
    digest of a sequence of updates is the digest of their concatenation. *)
From S2P Require Import Prelude Serial Errors Param Chunk.

Class Crc := {
  crc32c : bytes -> Z;
  crc32c_range b : in_range 32 (crc32c b)
}.

(** A sum of the bytes: the instance the concrete examples use. *)
Definition sum_crc : Crc :=
  {| crc32c b := wrap 32 (foldr (fun x n => u8_of_byte x + n) 0 b);
     crc32c_range b := wrap_range 32 _ ltac:(lia) |}.

Definition FOUR_ZEROES : bytes := replicate 4 Byte.x00.

Record Packet := mkPacket {
  pk_source_port : Z;
  pk_destination_port : Z;
  pk_verification_tag : Z;
  pk_chunks : list AnyChunk
}.

Definition PACKET_HEADER_SIZE : nat := 12.

(** The [Fresh] of the chunk parsed after [c]. *)
Definition fresh_next (fr : Fresh) (c : AnyChunk) : Fresh :=
  match c with
  | CPayloadData _ => mkFresh (fr_now fr) (S (S (fr_loc fr)))
  | _ => fr
  end.

Section packet.
Context {P : Profile} {C : Crc}.

Definition generate_packet_checksum (raw : bytes) : res Error Z :=
  a ← slice raw 0 8;
  b ← slice_from raw 12;
  Ok (crc32c (a ++ FOUR_ZEROES ++ b)).

(** The [match ct] of the chunk loop. *)
Definition unmarshal_chunk (fr : Fresh) (ct : ChunkType) (raw : bytes) : res Error AnyChunk :=
  if (ct =? CT_INIT) || (ct =? CT_INIT_ACK) then CInit <$> c_unmarshal fr raw
  else if ct =? CT_ABORT then CAbort <$> c_unmarshal fr raw
  else if ct =? CT_COOKIE_ECHO then CCookieEcho <$> c_unmarshal fr raw
  else if ct =? CT_COOKIE_ACK then CCookieAck <$> c_unmarshal fr raw
  else if ct =? CT_HEARTBEAT then CHeartbeat <$> c_unmarshal fr raw
  else if ct =? CT_PAYLOAD_DATA then CPayloadData <$> c_unmarshal fr raw
  else if ct =? CT_SACK then CSelectiveAck <$> c_unmarshal fr raw
  else if ct =? CT_RECONFIG then CReconfig <$> c_unmarshal fr raw
  else if ct =? CT_FORWARD_TSN then CForwardTsn <$> c_unmarshal fr raw
  else if ct =? CT_ERROR then CError <$> c_unmarshal fr raw
  else if ct =? CT_SHUTDOWN then CShutdown <$> c_unmarshal fr raw
  else if ct =? CT_SHUTDOWN_ACK then CShutdownAck <$> c_unmarshal fr raw
  else if ct =? CT_SHUTDOWN_COMPLETE then CShutdownComplete <$> c_unmarshal fr raw
  else Err ErrUnmarshalUnknownChunkType.

(** The chunk loop; every round advances the offset by at least four. *)
Fixpoint unmarshal_chunks (fuel : nat) (fr : Fresh) (raw : bytes) (offset : nat) :
    res Error (list AnyChunk) :=
  if (offset =? length raw)%nat then Ok []
  else if (length raw <? offset + CHUNK_HEADER_SIZE)%nat then Err ErrParseSctpChunkNotEnoughData
  else
    match fuel with
    | O => OutOfFuel
    | S fuel' =>
        ct ← index raw offset;
        part ← slice_from raw offset;
        c ← unmarshal_chunk fr (u8_of_byte ct) part;
        let chunk_value_padding := get_padding_size (any_value_length c) in
        chunks ← unmarshal_chunks fuel' (fresh_next fr c) raw
          (offset + (CHUNK_HEADER_SIZE + any_value_length c + chunk_value_padding))%nat;
        Ok (c :: chunks)
    end.

Definition Packet_unmarshal (fr : Fresh) (raw : bytes) : res Error Packet :=
  if (length raw <? PACKET_HEADER_SIZE)%nat then Err ErrPacketRawTooSmall
  else
    '(source_port, reader) ← get_u16 raw;
    '(destination_port, reader) ← get_u16 reader;
    '(verification_tag, reader) ← get_u32 reader;
    '(their_checksum, _) ← get_u32_le reader;
    our_checksum ← generate_packet_checksum raw;
    if negb (their_checksum =? our_checksum) then Err ErrChecksumMismatch
    else
      chunks ← unmarshal_chunks (length raw) fr raw PACKET_HEADER_SIZE;
      Ok (mkPacket source_port destination_port verification_tag chunks).

(** The loop that writes the chunks: [raw] is padded after each of them. *)
Fixpoint marshal_chunks (chunks : list AnyChunk) (raw : bytes) : res Error bytes :=
  match chunks with
  | [] => Ok raw
  | c :: chunks' =>
      chunk_raw ← any_marshal c;
      let raw := raw ++ chunk_raw in
      let padding_needed := get_padding_size (length raw) in
      marshal_chunks chunks' (raw ++ replicate padding_needed Byte.x00)
  end.

Definition Packet_marshal_to (p : Packet) (writer : bytes) : res Error bytes :=
  let writer := writer ++ put_u16 (pk_source_port p) ++ put_u16 (pk_destination_port p)
                  ++ put_u32 (pk_verification_tag p) in
  raw ← marshal_chunks (pk_chunks p) [];
  let checksum := crc32c (writer ++ FOUR_ZEROES ++ raw) in
  Ok (writer ++ put_u32_le checksum ++ raw).

Definition Packet_marshal (p : Packet) : res Error bytes := Packet_marshal_to p [].

(** The loop of [check_packet] over the chunks. *)
Fixpoint check_chunks (p : Packet) (chunks : list AnyChunk) : res Error unit :=
  match chunks with
  | [] => Ok tt
  | c :: chunks' =>
      _ ← (match c with
           | CInit ci =>
               if negb (ci_is_ack ci) then
                 if negb (length (pk_chunks p) =? 1)%nat then Err ErrInitChunkBundled
                 else if negb (pk_verification_tag p =? 0) then Err ErrInitChunkVerifyTagNotZero
                 else Ok tt
               else Ok tt
           | _ => Ok tt
           end);
      check_chunks p chunks'
  end.

Definition check_packet (p : Packet) : res Error unit :=
  if pk_source_port p =? 0 then Err ErrSctpPacketSourcePortZero
  else if pk_destination_port p =? 0 then Err ErrSctpPacketDestinationPortZero
  else check_chunks p (pk_chunks p).
End packet.
