(* ===== verification/PacketLaws.v ===== *)
(** The codec contract of packets: a packet that is sent is read back, with
    the sender's bookkeeping reset; the parser returns on every input, and
    where it panics; the checks on a received packet. *)
From S2P Require Import Prelude Serial Errors Param Chunk ChunkLaws Packet.

(** * Termination *)
Section termination.
Context {P : Profile}.

Lemma terminates_check_padding raw offs : terminates (check_padding raw offs).
Proof. induction offs as [|o offs IH]; simpl; solve_terminates. Qed.

Lemma terminates_ParamHeader raw : terminates (ParamHeader_unmarshal raw).
Proof. unfold ParamHeader_unmarshal. solve_terminates. Qed.

Lemma terminates_read_u16s {E} n r : terminates (read_u16s (E := E) n r).
Proof. revert r. induction n; intros r; simpl; solve_terminates. Qed.

Lemma terminates_read_u32s {E} n r : terminates (read_u32s (E := E) n r).
Proof. revert r. induction n; intros r; simpl; solve_terminates. Qed.

Lemma terminates_read_gap_ack_blocks {E} n r : terminates (read_gap_ack_blocks (E := E) n r).
Proof. revert r. induction n; intros r; simpl; solve_terminates. Qed.

Lemma terminates_read_hmac n r : terminates (read_hmac_algorithms n r).
Proof. revert r. induction n; intros r; simpl; solve_terminates. Qed.

Hint Resolve terminates_check_padding terminates_ParamHeader terminates_read_u16s
  terminates_read_u32s terminates_read_gap_ack_blocks terminates_read_hmac : fuel.

Lemma terminates_ChunkHeader raw : terminates (ChunkHeader_unmarshal raw).
Proof. unfold ChunkHeader_unmarshal. solve_terminates. Qed.

Lemma terminates_build_param raw : terminates (build_param raw).
Proof.
  unfold build_param. solve_terminates; cbn [p_unmarshal]; autounfold with param;
    cbn [p_unmarshal]; autounfold with param; unfold param_value; solve_terminates.
Qed.

Hint Resolve terminates_ChunkHeader terminates_build_param : fuel.

Lemma terminates_read_streams fuel : forall buf offset limit remaining,
  remaining = Z.of_nat (length buf) - Z.of_nat offset -> in_range 64 (Z.of_nat (length buf)) ->
  (length buf <= fuel + offset)%nat ->
  terminates (read_forward_tsn_streams fuel buf offset limit remaining).
Proof.
  induction fuel as [|fuel IH]; intros buf offset limit remaining Hr H64 Hf;
    cbn [read_forward_tsn_streams]; (destruct (Z.gtb_spec remaining 0); [|done]); [lia|].
  apply terminates_bind; [eauto with fuel|]. intros part Hpart.
  apply terminates_bind; [unfold ChunkForwardTsnStream_unmarshal; solve_terminates|]. intros s Hs.
  apply slice_Ok_length in Hpart as (Hl & Ha & Hb).
  unfold ChunkForwardTsnStream_unmarshal in Hs.
  destruct (Nat.ltb_spec (length part) FORWARD_TSN_STREAM_LENGTH) as [|Hge]; [done|].
  unfold FORWARD_TSN_STREAM_LENGTH in *.
  rewrite arith_ok by (unfold in_range in *; lia). cbn [mbind res_bind].
  apply terminates_bind; [apply IH; [lia|done|lia]|solve_terminates].
Qed.

Lemma terminates_read_init_params fuel : forall raw offset limit remaining,
  remaining <= Z.of_nat fuel -> terminates (read_init_params fuel raw offset limit remaining).
Proof.
  induction fuel as [|fuel IH]; intros raw offset limit remaining Hr;
    cbn [read_init_params]; unfold INIT_OPTIONAL_VAR_HEADER_LENGTH;
    (destruct (Z.gtb_spec remaining (Z.of_nat 4)); [|done]); [lia|].
  apply terminates_bind; [eauto with fuel|]. intros part _.
  apply terminates_bind; [eauto with fuel|]. intros p _.
  apply terminates_bind; [apply IH; unfold PARAM_HEADER_LENGTH; lia|solve_terminates].
Qed.

Lemma terminates_read_error_causes fuel : forall raw offset limit,
  (length raw <= fuel + offset)%nat -> terminates (read_error_causes fuel raw offset limit).
Proof.
  induction fuel as [|fuel IH]; intros raw offset limit Hr;
    cbn [read_error_causes]; (destruct (Nat.leb_spec (offset + 4) (length raw)); [|done]); [lia|].
  apply terminates_bind; [eauto with fuel|]. intros part _.
  apply terminates_bind; [unfold ErrorCause_unmarshal; solve_terminates|]. intros e _.
  apply terminates_bind; [apply IH|solve_terminates].
  unfold ErrorCause_length, ERROR_CAUSE_HEADER_LENGTH. lia.
Qed.

(** Lengths are [usize]s. *)
Definition usize_bytes (raw : bytes) : Prop := in_range 64 (Z.of_nat (length raw)).

Lemma terminates_unmarshal_chunk fr ct raw : usize_bytes raw ->
  terminates (unmarshal_chunk fr ct raw).
Proof.
  intros H64. unfold unmarshal_chunk.
  repeat case_match; try apply terminates_fmap; try done; cbn [c_unmarshal];
    autounfold with chunk; cbn [c_unmarshal]; autounfold with chunk; unfold chunk_value.
  all: try solve [solve_terminates].
  all: repeat first [ apply terminates_read_error_causes; lia
                    | apply terminates_read_init_params; lia
                    | apply terminates_read_streams; [|done|lia]
                    | solve [eauto with fuel nocore]
                    | apply terminates_bind; [|intros]
                    | case_match ].
  match goal with H : (_ <? CHUNK_HEADER_SIZE + _)%nat = false |- _ => apply Nat.ltb_ge in H end.
  lia.
Qed.
End termination.

(** * Chunks of any type *)
Section any.
Context {P : Profile}.

(** HEARTBEAT ACK has no case in the packet parser. *)
Definition any_wf (c : AnyChunk) : Prop :=
  match c with
  | CPayloadData c => wf_payload_data c
  | CInit c => wf_init c
  | CSelectiveAck c => wf_sack c
  | CHeartbeat c => wf_hb c
  | CHeartbeatAck _ => False
  | CAbort c => wf_abort c
  | CShutdown c => wf_shutdown c
  | CError c => wf_error c
  | CCookieEcho c => wf_cookie_echo c
  | CReconfig c => wf_reconfig c
  | CForwardTsn c => wf_forward_tsn c
  | CShutdownAck _ | CCookieAck _ | CShutdownComplete _ => True
  end.

(** The chunks whose parser accepts further chunks behind them. *)
Definition any_bundled (c : AnyChunk) : bool :=
  match c with
  | CInit _ | CAbort _ | CShutdown _ | CError _ | CForwardTsn _ => false
  | _ => true
  end.

Definition any_received (fr : Fresh) (c : AnyChunk) : AnyChunk :=
  match c with
  | CPayloadData c => CPayloadData (received_payload_data fr c)
  | c => c
  end.

Definition any_typ (c : AnyChunk) : ChunkType := ch_typ (via c (fun C I c => c_header c)).

Lemma marshal_header_typ h w r : ChunkHeader_marshal_to h w = Ok r ->
  exists r', r = w ++ put_u8 (ch_typ h) ++ r'.
Proof.
  unfold ChunkHeader_marshal_to. destruct (arith _ _); cbn [mbind res_bind]; try done.
  intros [= <-]. eexists. by rewrite <- !app_assoc.
Qed.

Lemma params_marshal_prefix l : forall w r, params_marshal_to l w = Ok r -> exists r', r = w ++ r'.
Proof.
  induction l as [|p [|q l] IH]; intros w r; cbn [params_marshal_to].
  - intros [= <-]. exists []. by rewrite app_nil_r.
  - destruct (p_marshal p); cbn [mbind res_bind]; try done. intros [= <-]. eauto.
  - destruct (p_marshal p); cbn [mbind res_bind]; try done.
    intros [r' ->]%IH. rewrite <- app_assoc. eauto.
Qed.

Lemma params_extend_prefix l : forall w r, params_extend l w = Ok r -> exists r', r = w ++ r'.
Proof.
  induction l as [|p l IH]; intros w r; cbn [params_extend].
  - intros [= <-]. exists []. by rewrite app_nil_r.
  - destruct (p_marshal p); cbn [mbind res_bind]; try done.
    intros [r' ->]%IH. rewrite <- app_assoc. eauto.
Qed.

Lemma any_marshal_typ c raw : any_wf c -> any_marshal c = Ok raw ->
  exists rest, raw = put_u8 (any_typ c) ++ rest.
Proof.
  intros Hwf. unfold any_marshal, any_typ.
  destruct c; try done; cbn [via c_marshal c_header]; chunk_methods; cbn [c_header];
    (destruct (ChunkHeader_marshal_to _ _) as [w| | |] eqn:Hh; cbn [mbind res_bind]; try done);
    apply marshal_header_typ in Hh as [w' Hw]; cbn [app] in Hw; rewrite Hw.
  all: try (intros [= <-]; rewrite <- ?app_assoc; cbn [app]; by eauto).
  - intros [r' ->]%params_marshal_prefix. rewrite <- ?app_assoc. cbn [app]. by eauto.
  - intros [r' ->]%params_extend_prefix. rewrite <- ?app_assoc. cbn [app]. by eauto.
  - destruct Hwf as ((a & Ha & _) & _). rewrite Ha.
    destruct (p_marshal a); cbn [mbind res_bind]; try done.
    destruct (rc_param_b c).
    + destruct (p_marshal p); cbn [mbind res_bind]; try done.
      intros [= <-]. rewrite <- ?app_assoc. cbn [app]. by eauto.
    + intros [= <-]. rewrite <- ?app_assoc. cbn [app]. by eauto.
Qed.

Lemma any_roundtrip c : any_wf c ->
  exists raw, any_marshal c = Ok raw /\ length raw = (CHUNK_HEADER_SIZE + any_value_length c)%nat /\
    forall fr tail, chunk_tail (any_bundled c) (length raw) tail ->
      exists b, raw !! 0%nat = Some b /\
        unmarshal_chunk fr (u8_of_byte b) (raw ++ tail) = Ok (any_received fr c).
Proof.
  intros Hwf.
  assert (Hty : forall raw, any_marshal c = Ok raw ->
    exists b, raw !! 0%nat = Some b /\ u8_of_byte b = any_typ c).
  { intros raw Hr. destruct (any_marshal_typ c raw Hwf Hr) as [rest ->].
    eexists. split; [done|]. rewrite u8_of_byte_of_u8. apply wrap_small.
    destruct c as [| [[]] | | | | | | | | | | | |]; try done. }
  destruct c; try done; destruct (c_roundtrip c Hwf) as (raw & Hm & Hl & Hu);
    exists raw; (split_and!; [done..|]); intros fr tail Htail;
    destruct (Hty raw Hm) as (b & Hb & Ht); exists b; (split; [done|]); rewrite Ht;
    unfold unmarshal_chunk;
    (assert (Hu' := Hu fr tail Htail); clear -Hu').
  2: destruct c as [[]].
  all: cbn in Hu' |- *; by rewrite Hu'.
Qed.
End any.

(** * Packets *)
Section packets.
Context {P : Profile} {C : Crc}.

(** Every chunk but the last can be bundled. *)
Fixpoint bundle_ok (l : list AnyChunk) : Prop :=
  match l with
  | [] | [_] => True
  | c :: l' => any_bundled c = true /\ bundle_ok l'
  end.

Fixpoint received_chunks (fr : Fresh) (l : list AnyChunk) : list AnyChunk :=
  match l with
  | [] => []
  | c :: l' => any_received fr c :: received_chunks (fresh_next fr c) l'
  end.

Lemma any_received_length fr c : any_value_length (any_received fr c) = any_value_length c.
Proof. by destruct c. Qed.

Lemma fresh_next_received fr fr' c : fresh_next fr (any_received fr' c) = fresh_next fr c.
Proof. by destruct c. Qed.

Lemma unmarshal_chunks_ok l : Forall any_wf l -> bundle_ok l ->
  exists body,
    (forall w, (length w `mod` 4 = 0)%nat -> marshal_chunks l w = Ok (w ++ body)) /\
    (4 * length l <= length body)%nat /\ (l = [] -> body = []) /\
    forall fuel fr pre, (length l <= fuel)%nat ->
      unmarshal_chunks fuel fr (pre ++ body) (length pre) = Ok (received_chunks fr l).
Proof.
  induction 1 as [|c l Hc Hl IH]; intros Hb.
  { exists []. split_and!; [intros w _; by rewrite app_nil_r|done|done|].
    intros fuel fr pre _. rewrite app_nil_r. destruct fuel; simpl; by rewrite Nat.eqb_refl. }
  destruct IH as (body & Hm & Hlen & Hnil & Hu); [destruct l; [done|apply Hb]|].
  destruct (any_roundtrip c Hc) as (raw & Hmc & Hraw & Huc). unfold CHUNK_HEADER_SIZE in Hraw.
  set (pad := replicate (get_padding_size (length raw)) Byte.x00).
  pose proof (get_padding_size_spec (length raw)) as [_ Hpad].
  assert (Hlp : length (raw ++ pad) = (length raw + get_padding_size (length raw))%nat)
    by (unfold pad; by rewrite length_app, length_replicate).
  exists (raw ++ pad ++ body). split_and!.
  - intros w Hw. cbn [marshal_chunks]. rewrite Hmc. cbn [mbind res_bind].
    rewrite length_app, get_padding_size_shift by done. fold pad.
    rewrite Hm by (rewrite <- app_assoc, length_app, Hlp, <- Nat.Div0.add_mod_idemp_l, Hw; done).
    by rewrite <- !app_assoc.
  - rewrite app_assoc, length_app, Hlp. cbn [length]. lia.
  - done.
  - intros [|fuel] fr pre Hfuel; [cbn in Hfuel; lia|]. cbn [unmarshal_chunks received_chunks].
    unfold CHUNK_HEADER_SIZE.
    rewrite (proj2 (Nat.eqb_neq _ _)) by (rewrite !length_app; lia).
    rewrite ltb_false by (rewrite !length_app; lia).
    assert (Htail : chunk_tail (any_bundled c) (length raw) (pad ++ body)).
    { exists body. split; [done|]. destruct l as [|c' l']; [left; by apply Hnil|].
      right. split; [apply Hb|]. cbn [length] in Hlen. lia. }
    destruct (Huc fr (pad ++ body) Htail) as (b & Hb0 & Hub).
    unfold index. rewrite lookup_app_r, Nat.sub_diag, lookup_app_l, Hb0 by lia.
    cbn [mbind res_bind]. unfold slice_from.
    rewrite (slice_app _ pre (raw ++ pad ++ body) []) by (rewrite ?app_nil_r, ?length_app; done).
    cbn [mbind res_bind]. rewrite Hub. cbn [mbind res_bind].
    rewrite any_received_length, fresh_next_received.
    replace (get_padding_size (any_value_length c)) with (get_padding_size (length raw))
      by (by rewrite Hraw, get_padding_size_shift).
    rewrite (app_assoc raw), (app_assoc pre).
    replace (length pre + _)%nat with (length (pre ++ raw ++ pad)) by (rewrite length_app, Hlp; lia).
    rewrite Hu by (cbn in Hfuel; lia). done.
Qed.

Definition wf_packet (p : Packet) : Prop :=
  in_range 16 (pk_source_port p) /\ in_range 16 (pk_destination_port p) /\
  in_range 32 (pk_verification_tag p) /\ Forall any_wf (pk_chunks p) /\ bundle_ok (pk_chunks p).

Lemma Packet_marshal_unmarshal fr p : wf_packet p ->
  exists raw, Packet_marshal p = Ok raw /\
    Packet_unmarshal fr raw = Ok (mkPacket (pk_source_port p) (pk_destination_port p)
      (pk_verification_tag p) (received_chunks fr (pk_chunks p))).
Proof.
  intros (Hs & Hd & Ht & Hc & Hb).
  destruct (unmarshal_chunks_ok (pk_chunks p) Hc Hb) as (body & Hm & Hlen & _ & Hu).
  set (hdr := put_u16 (pk_source_port p) ++ put_u16 (pk_destination_port p)
                ++ put_u32 (pk_verification_tag p)).
  set (crc := crc32c (hdr ++ FOUR_ZEROES ++ body)).
  exists (hdr ++ put_u32_le crc ++ body). split.
  { unfold Packet_marshal, Packet_marshal_to. by rewrite Hm. }
  unfold Packet_unmarshal.
  rewrite ltb_false by (rewrite !length_app; unfold PACKET_HEADER_SIZE; cbn; lia).
  assert (Hg : get_u16 (E := Error) (hdr ++ put_u32_le crc ++ body) = Ok (pk_source_port p,
    put_u16 (pk_destination_port p) ++ put_u32 (pk_verification_tag p) ++ put_u32_le crc ++ body))
    by (by apply get_put_u16).
  rewrite Hg. cbn [mbind res_bind].
  rewrite get_put_u16 by done. cbn [mbind res_bind].
  rewrite get_put_u32 by done. cbn [mbind res_bind].
  rewrite get_put_u32_le by apply crc32c_range. cbn [mbind res_bind].
  unfold generate_packet_checksum.
  rewrite (slice_app _ [] hdr (put_u32_le crc ++ body)) by done. cbn [mbind res_bind].
  unfold slice_from.
  rewrite (slice_app _ (hdr ++ put_u32_le crc) body [])
    by first [by rewrite app_nil_r, <- ?app_assoc | by rewrite !length_app | done].
  cbn [mbind res_bind]. fold crc. rewrite Z.eqb_refl. cbn [negb].
  rewrite (app_assoc hdr), (Hu _ fr (hdr ++ put_u32_le crc))
    by (rewrite !length_app; lia). done.
Qed.

Lemma terminates_unmarshal_chunks fuel : forall fr raw offset, usize_bytes raw ->
  (length raw <= fuel + offset)%nat -> terminates (unmarshal_chunks fuel fr raw offset).
Proof.
  induction fuel as [|fuel IH]; intros fr raw offset H64 Hf; cbn [unmarshal_chunks];
    (destruct (Nat.eqb_spec offset (length raw)); [done|]);
    (destruct (Nat.ltb_spec (length raw) (offset + CHUNK_HEADER_SIZE)) as [|Hge]; [done|]);
    unfold CHUNK_HEADER_SIZE in *; [lia|].
  apply terminates_bind; [eauto with fuel|]. intros ct _.
  apply terminates_bind; [eauto with fuel|]. intros part Hpart.
  apply slice_Ok_length in Hpart as (Hlp & _ & _).
  apply terminates_bind; [apply terminates_unmarshal_chunk; unfold usize_bytes, in_range in *; lia|].
  intros c _. apply terminates_bind; [apply IH; [done|]|solve_terminates].
  unfold CHUNK_HEADER_SIZE. lia.
Qed.

Lemma Packet_unmarshal_terminates fr raw : usize_bytes raw -> terminates (Packet_unmarshal fr raw).
Proof.
  intros H64. unfold Packet_unmarshal, generate_packet_checksum. solve_terminates.
  apply terminates_unmarshal_chunks; [done|lia].
Qed.

(** ** The fields of a parsed packet *)

(** The numbers of a chunk fit their widths. *)
Definition any_ranged (c : AnyChunk) : Prop :=
  match c with
  | CPayloadData c =>
      in_range 32 (pd_tsn c) /\ in_range 16 (pd_stream_identifier c) /\
      in_range 16 (pd_stream_sequence_number c)
  | CInit c =>
      in_range 32 (ci_initiate_tag c) /\ in_range 32 (ci_advertised_receiver_window_credit c) /\
      in_range 16 (ci_num_outbound_streams c) /\ in_range 16 (ci_num_inbound_streams c) /\
      in_range 32 (ci_initial_tsn c)
  | CSelectiveAck c =>
      in_range 32 (sack_cumulative_tsn_ack c) /\
      in_range 32 (sack_advertised_receiver_window_credit c) /\
      Forall (fun g => in_range 16 (gap_start g) /\ in_range 16 (gap_end g)) (sack_gap_ack_blocks c) /\
      Forall (in_range 32) (sack_duplicate_tsn c)
  | CForwardTsn c => in_range 32 (ft_new_cumulative_tsn c)
  | CShutdown c => in_range 32 (sd_cumulative_tsn_ack c)
  | _ => True
  end.

Lemma read_gap_ack_blocks_Ok {E} n : forall r l r', read_gap_ack_blocks (E := E) n r = Ok (l, r') ->
  Forall (fun g => in_range 16 (gap_start g) /\ in_range 16 (gap_end g)) l.
Proof.
  induction n as [|n IH]; intros r l r'; cbn [read_gap_ack_blocks]; intros H; invert_Ok; [done|].
  constructor; [split; eapply get_u16_Ok; eassumption|eauto].
Qed.

Lemma read_u32s_Ok {E} n : forall r l r', read_u32s (E := E) n r = Ok (l, r') -> Forall (in_range 32) l.
Proof.
  induction n as [|n IH]; intros r l r'; cbn [read_u32s]; intros H; invert_Ok; [done|].
  constructor; [eapply get_u32_Ok; eassumption|eauto].
Qed.

Lemma unmarshal_chunk_ranged fr ct raw c : unmarshal_chunk fr ct raw = Ok c -> any_ranged c.
Proof.
  unfold unmarshal_chunk. intros H.
  repeat match type of H with (if ?b then _ else _) = _ => destruct b; [|] end; try discriminate H.
  all: apply fmap_Ok in H as (? & H & ->); cbn [any_ranged]; try exact I; cbn in H; 
    unfold ChunkPayloadData_unmarshal, ChunkInit_unmarshal, ChunkSelectiveAck_unmarshal,
      ChunkForwardTsn_unmarshal, ChunkShutdown_unmarshal in H; invert_Ok; cbn; split_and?;
    solve [eapply get_u32_Ok; eassumption | eapply get_u16_Ok; eassumption
          | eapply read_gap_ack_blocks_Ok; eassumption | eapply read_u32s_Ok; eassumption].
Qed.

Lemma unmarshal_chunks_ranged fuel : forall fr raw offset l,
  unmarshal_chunks fuel fr raw offset = Ok l -> Forall any_ranged l.
Proof.
  induction fuel as [|fuel IH]; intros fr raw offset l; cbn [unmarshal_chunks]; intros H; invert_Ok;
    constructor; [by eapply unmarshal_chunk_ranged|eauto].
Qed.

Definition packet_ranged (p : Packet) : Prop :=
  in_range 16 (pk_source_port p) /\ in_range 16 (pk_destination_port p) /\
  in_range 32 (pk_verification_tag p) /\ Forall any_ranged (pk_chunks p).

Lemma Packet_unmarshal_ranged fr raw p : Packet_unmarshal fr raw = Ok p -> packet_ranged p.
Proof.
  unfold Packet_unmarshal. intros H. invert_Ok. unfold packet_ranged; cbn. split_and!.
  - by eapply get_u16_Ok.
  - by eapply get_u16_Ok.
  - by eapply get_u32_Ok.
  - by eapply unmarshal_chunks_ranged.
Qed.

(** ** What [check_packet] accepts *)
Definition no_init (c : AnyChunk) : Prop :=
  match c with CInit ci => ci_is_ack ci = true | _ => True end.

Lemma check_packet_accepts p :
  check_packet p = Ok tt <->
  pk_source_port p <> 0 /\ pk_destination_port p <> 0 /\
  (Forall no_init (pk_chunks p) \/ (length (pk_chunks p) = 1%nat /\ pk_verification_tag p = 0)).
Proof.
  unfold check_packet.
  destruct (Z.eqb_spec (pk_source_port p) 0); [split; [done|tauto]|].
  destruct (Z.eqb_spec (pk_destination_port p) 0); [split; [done|tauto]|].
  assert (H : forall l, check_chunks p l = Ok tt <->
    Forall no_init l \/ (length (pk_chunks p) = 1%nat /\ pk_verification_tag p = 0)).
  { induction l as [|c l IH]; simpl; [split; auto|].
    destruct c as [?|[ack ? ? ? ? ? ?]|?|?|?|?|?|?|?|?|?|?|?|?]; cbn [mbind res_bind]; rewrite ?Forall_cons;
      try (rewrite IH; unfold no_init; simpl; tauto).
    cbn [ci_is_ack no_init]. destruct ack; cbn [negb mbind res_bind].
    { rewrite IH; tauto. }
    destruct (Nat.eqb_spec (length (pk_chunks p)) 1); cbn [negb mbind res_bind]; [|intuition congruence].
    destruct (Z.eqb_spec (pk_verification_tag p) 0); cbn [negb mbind res_bind]; [|intuition congruence].
    rewrite IH. tauto. }
  rewrite H. tauto.
Qed.

Definition is_init (c : AnyChunk) : bool := match c with CInit ci => negb (ci_is_ack ci) | _ => false end.

(** [check_packet], as a formula: the ports must not be zero, and a packet
    with an INIT chunk must contain nothing else and carry a zero verification
    tag; the first check that fails gives the error.  INIT ACK chunks are not
    restricted, and neither is the tag of any other packet. *)
Theorem check_packet_spec p :
  check_packet p =
    if pk_source_port p =? 0 then Err ErrSctpPacketSourcePortZero
    else if pk_destination_port p =? 0 then Err ErrSctpPacketDestinationPortZero
    else if negb (existsb is_init (pk_chunks p)) then Ok tt
    else if negb (length (pk_chunks p) =? 1)%nat then Err ErrInitChunkBundled
    else if negb (pk_verification_tag p =? 0) then Err ErrInitChunkVerifyTagNotZero
    else Ok tt.
Proof.
  unfold check_packet. do 2 (destruct (_ =? 0); [done|]).
  induction (pk_chunks p) as [|c l IH] at 1 2; [done|]. cbn [check_chunks existsb].
  destruct c as [?|[[] ? ? ? ? ? ?]|?|?|?|?|?|?|?|?|?|?|?|?]; cbn [is_init ci_is_ack negb orb mbind res_bind];
    rewrite ?IH; try done.
  destruct (length _ =? 1)%nat eqn:Hl; cbn [negb mbind res_bind]; [|done].
  destruct (pk_verification_tag p =? 0); cbn [negb mbind res_bind]; [|done]. by destruct (existsb _ _).
Qed.

(** C3. Every well-formed packet is marshalled, and parsing the bytes gives
    back its ports, its tag and its chunks in order; only what the receiver
    sets itself (the time and the flags of DATA chunks) differs.  The parsed
    packet passes [check_packet] exactly when the packet sent does. *)
Theorem packet_roundtrip fr p : wf_packet p ->
  exists raw p', Packet_marshal p = Ok raw /\ Packet_unmarshal fr raw = Ok p' /\
    pk_source_port p' = pk_source_port p /\ pk_destination_port p' = pk_destination_port p /\
    pk_verification_tag p' = pk_verification_tag p /\
    pk_chunks p' = received_chunks fr (pk_chunks p) /\ check_packet p' = check_packet p.
Proof.
  intros Hp. destruct (Packet_marshal_unmarshal fr p Hp) as (raw & Hm & Hu).
  eexists raw, _. split_and!; [done|done|done..|].
  assert (Hlen : forall fr l, length (received_chunks fr l) = length l).
  { intros fr' l. revert fr'. induction l as [|c l IH]; intros fr'; cbn; [done|]. by rewrite IH. }
  unfold check_packet; cbn. do 2 (destruct (_ =? _); [done|]).
  assert (Hcheck : forall p' l fr, length (pk_chunks p') = length (pk_chunks p) ->
    pk_verification_tag p' = pk_verification_tag p ->
    check_chunks p' (received_chunks fr l) = check_chunks p l).
  { intros p' l fr' Hl Ht. revert fr'. induction l as [|c l IH]; intros fr'; [done|].
    cbn. destruct c; cbn; rewrite ?Hl, ?Ht, ?IH; done. }
  apply Hcheck; cbn; by rewrite ?Hlen.
Qed.

(** C33. The packet parser terminates on every buffer whose length a [usize]
    can hold, and what it returns is well typed: ports, tag, TSNs, stream
    identifiers and sequence numbers, window credits, gap offsets and duplicate
    TSNs all fit their widths. *)
Theorem packet_unmarshal_typed fr raw : usize_bytes raw ->
  terminates (Packet_unmarshal fr raw) /\
  forall p, Packet_unmarshal fr raw = Ok p -> packet_ranged p.
Proof.
  intros H. split; [by apply Packet_unmarshal_terminates|]. apply Packet_unmarshal_ranged.
Qed.

(** A packet with a single DATA chunk of [16] bytes whose length field says 4. *)
Definition short_data_packet : bytes :=
  let header := put_u16 5000 ++ put_u16 5000 ++ put_u32 0 in
  let chunk := put_u8 CT_PAYLOAD_DATA ++ put_u8 0 ++ put_u16 4 ++ replicate 12 Byte.x00 in
  header ++ put_u32_le (crc32c (header ++ FOUR_ZEROES ++ chunk)) ++ chunk.

(** A DATA chunk whose length field covers no more than its header passes
    the length check of [ChunkPayloadData::unmarshal] (it compares the bytes
    left in the packet, not the chunk's own length) and panics the parser: the
    TSN is read out of an empty slice.  The packet has a correct checksum. *)
Theorem short_data_chunk_panics fr : Packet_unmarshal fr short_data_packet = Panic.
Proof.
  unfold Packet_unmarshal, short_data_packet.
  set (header := put_u16 5000 ++ put_u16 5000 ++ put_u32 0).
  set (chunk := put_u8 CT_PAYLOAD_DATA ++ put_u8 0 ++ put_u16 4 ++ replicate 12 Byte.x00).
  cbv zeta. set (crc := crc32c (header ++ FOUR_ZEROES ++ chunk)).
  rewrite ltb_false by (rewrite length_app; unfold PACKET_HEADER_SIZE, header; cbn; lia).
  assert (Hg : get_u16 (E := Error) (header ++ put_u32_le crc ++ chunk)
    = Ok (5000, put_u16 5000 ++ put_u32 0 ++ put_u32_le crc ++ chunk)) by (by apply get_put_u16).
  rewrite Hg. cbn [mbind res_bind].
  rewrite get_put_u16 by done. cbn [mbind res_bind].
  rewrite get_put_u32 by done. cbn [mbind res_bind].
  rewrite get_put_u32_le by apply crc32c_range. cbn [mbind res_bind].
  unfold generate_packet_checksum.
  rewrite (slice_app _ [] header (put_u32_le crc ++ chunk)) by done. cbn [mbind res_bind].
  unfold slice_from.
  rewrite (slice_app _ (header ++ put_u32_le crc) chunk [])
    by first [by rewrite app_nil_r, <- ?app_assoc | by rewrite !length_app | done].
  cbn [mbind res_bind]. fold crc. rewrite Z.eqb_refl. cbn [negb].
  generalize crc. intros z. unfold put_u32_le, put_u32. cbn [rev app].
  generalize (byte_of_u8 z) (byte_of_u8 (z / 2 ^ 8)) (byte_of_u8 (z / 2 ^ 16)) (byte_of_u8 (z / 2 ^ 24)).
  intros b0 b1 b2 b3. vm_compute. reflexivity.
Qed.
End packets.

(** ** The theorems at concrete inputs *)
Section examples.
#[local] Existing Instance dev_profile.
#[local] Existing Instance sum_crc.

Definition example_data : ChunkPayloadData :=
  mkChunkPayloadData true true true false 7 1 0 Binary (put_u16 4660) false 0 0 0 0%nat 0%nat false.

Definition example_packet : Packet :=
  mkPacket 5000 5000 99 [CSelectiveAck (mkChunkSelectiveAck 6 1000 [mkGapAckBlock 2 3] [6]);
                         CPayloadData example_data].

Lemma example_packet_wf : wf_packet example_packet.
Proof. split_and!; try done. repeat constructor; done. Qed.

Lemma packet_roundtrip_witness : exists raw p', Packet_marshal example_packet = Ok raw /\
  Packet_unmarshal (mkFresh 5 0) raw = Ok p' /\
  pk_chunks p' = received_chunks (mkFresh 5 0) (pk_chunks example_packet).
Proof.
  destruct (packet_roundtrip (mkFresh 5 0) example_packet example_packet_wf)
    as (raw & p' & Hm & Hu & _ & _ & _ & Hc & _).
  exact (ex_intro _ raw (ex_intro _ p' (conj Hm (conj Hu Hc)))).
Defined.

Lemma packet_unmarshal_typed_witness : terminates (Packet_unmarshal (mkFresh 0 0) (replicate 40 Byte.x00)).
Proof. apply (packet_unmarshal_typed (mkFresh 0 0) (replicate 40 Byte.x00)). vm_compute. split; done. Defined.
End examples.
