(* ===== verification/PayloadQueue.v ===== *)
(** The queue of DATA chunks indexed by TSN ([sctp/queue/payload_queue.rs]),
    used for the chunks in flight and for the chunks received out of order.

    [pq_wf c q] is the invariant of a queue whose cumulative TSN is [c]: every
    TSN lies within half the serial number space after [c], the key list is
    strictly increasing in serial order across the wrap-around, it lists the
    keys of the map, and the counters are the sums they cache. *)
From S2P Require Import Prelude Serial Errors Param Chunk.
From Stdlib Require Import Sorted.

(** [Arc<AtomicBool>]s: a store of booleans, [false] where nothing was stored. *)
Abbreviation Flags := (gmap nat bool).

Definition flag_load (fl : Flags) (l : nat) : bool := default false (fl !! l).

(** [ChunkPayloadData::abandoned] *)
Definition ChunkPayloadData_abandoned (fl : Flags) (c : ChunkPayloadData) : bool :=
  flag_load fl (pd_abandoned c) && flag_load fl (pd_all_inflight c).

Definition set_abandoned (fl : Flags) (c : ChunkPayloadData) (v : bool) : Flags :=
  <[pd_abandoned c := v]> fl.

Definition set_all_inflight (fl : Flags) (c : ChunkPayloadData) : Flags :=
  if pd_ending_fragment c then <[pd_all_inflight c := true]> fl else fl.

Record PayloadQueue := mkPayloadQueue {
  pq_length : Z;
  pq_chunk_map : gmap Z ChunkPayloadData;
  pq_sorted : list Z;
  pq_dup_tsn : list Z;
  pq_n_bytes : Z
}.

#[export] Instance PayloadQueue_settable : Settable PayloadQueue := fun q =>
  mkPayloadQueue (pq_length q) (pq_chunk_map q) (pq_sorted q) (pq_dup_tsn q) (pq_n_bytes q).

Definition data_len (c : ChunkPayloadData) : Z := Z.of_nat (length (pd_user_data c)).

Definition PayloadQueue_new : PayloadQueue := mkPayloadQueue 0 ∅ [] [] 0.

Definition update_sorted_keys (q : PayloadQueue) : PayloadQueue :=
  q <| pq_sorted ::= sort_by sna32lt |>.

Definition contains_key {A} (m : gmap Z A) (k : Z) : bool := bool_decide (is_Some (m !! k)).

Definition can_push (q : PayloadQueue) (p : ChunkPayloadData) (cumulative_tsn : Z) : bool :=
  negb (contains_key (pq_chunk_map q) (pd_tsn p) || sna32lte (pd_tsn p) cumulative_tsn).

Definition pop_duplicates (q : PayloadQueue) : list Z * PayloadQueue :=
  (pq_dup_tsn q, q <| pq_dup_tsn := [] |>).

Definition pq_get (q : PayloadQueue) (tsn : Z) : option ChunkPayloadData := pq_chunk_map q !! tsn.

Definition get_last_tsn_received (q : PayloadQueue) : option Z := last (pq_sorted q).

Definition mark_all_to_retrasmit (fl : Flags) (q : PayloadQueue) : PayloadQueue :=
  q <| pq_chunk_map ::= fmap (fun c =>
         if pd_acked c || ChunkPayloadData_abandoned fl c then c
         else c <| pd_retransmit := true |>) |>.

Section ops.
Context {P : Profile}.

Definition push_no_check (q : PayloadQueue) (p : ChunkPayloadData) : res Error PayloadQueue :=
  n_bytes ← add64 (pq_n_bytes q) (data_len p);
  Ok (update_sorted_keys
        (q <| pq_n_bytes := n_bytes |>
           <| pq_sorted ::= fun s => s ++ [pd_tsn p] |>
           <| pq_chunk_map ::= insert (pd_tsn p) p |>
           <| pq_length ::= fun n => wrap 64 (n + 1) |>)).

Definition pq_push (q : PayloadQueue) (p : ChunkPayloadData) (cumulative_tsn : Z) :
    res Error (bool * PayloadQueue) :=
  let ok := contains_key (pq_chunk_map q) (pd_tsn p) in
  if ok || sna32lte (pd_tsn p) cumulative_tsn then
    Ok (false, q <| pq_dup_tsn ::= fun d => d ++ [pd_tsn p] |>)
  else
    q' ← push_no_check q p;
    Ok (true, q').

Definition pq_pop (q : PayloadQueue) (tsn : Z) : res Error (option ChunkPayloadData * PayloadQueue) :=
  match pq_sorted q with
  | t :: sorted' =>
      if tsn =? t then
        let q := q <| pq_sorted := sorted' |> in
        match pq_chunk_map q !! tsn with
        | Some c =>
            let q := q <| pq_chunk_map ::= delete tsn |>
                       <| pq_length ::= fun n => wrap 64 (n - 1) |> in
            n_bytes ← sub64 (pq_n_bytes q) (data_len c);
            Ok (Some c, q <| pq_n_bytes := n_bytes |>)
        | None => Ok (None, q)
        end
      else Ok (None, q)
  | [] => Ok (None, q)
  end.

(** One round of the loop of [get_gap_ack_blocks] after the first, on the
    block under construction. *)
Definition gap_diff (cumulative_tsn tsn : Z) : Z :=
  if tsn >=? cumulative_tsn then wrap 16 (tsn - cumulative_tsn) else 0.

Fixpoint gap_ack_loop (cumulative_tsn : Z) (b : GapAckBlock) (tsns : list Z) :
    res Error (list GapAckBlock) :=
  match tsns with
  | [] => Ok [b]
  | tsn :: tsns' =>
      let diff := gap_diff cumulative_tsn tsn in
      next ← add16 (gap_end b) 1;
      if next =? diff then
        gap_ack_loop cumulative_tsn (mkGapAckBlock (gap_start b) next) tsns'
      else
        blocks ← gap_ack_loop cumulative_tsn (mkGapAckBlock diff diff) tsns';
        Ok (b :: blocks)
  end.

Definition get_gap_ack_blocks (q : PayloadQueue) (cumulative_tsn : Z) :
    res Error (list GapAckBlock) :=
  if bool_decide (pq_chunk_map q = ∅) then Ok []
  else
    match pq_sorted q with
    | [] => Ok [mkGapAckBlock 0 0]
    | tsn :: tsns =>
        let diff := gap_diff cumulative_tsn tsn in
        gap_ack_loop cumulative_tsn (mkGapAckBlock diff diff) tsns
    end.

Definition mark_as_acked (q : PayloadQueue) (tsn : Z) : res Error (Z * PayloadQueue) :=
  match pq_chunk_map q !! tsn with
  | Some c =>
      let n := data_len c in
      n_bytes ← sub64 (pq_n_bytes q) n;
      let c := c <| pd_acked := true |> <| pd_retransmit := false |> <| pd_user_data := [] |> in
      Ok (n, q <| pq_n_bytes := n_bytes |> <| pq_chunk_map ::= insert tsn c |>)
  | None => Ok (0, q)
  end.

(** [len] asserts that the shared counter agrees with the map. *)
Definition pq_len (q : PayloadQueue) : res Error Z :=
  let n := Z.of_nat (size (pq_chunk_map q)) in
  if n =? pq_length q then Ok n else Panic.

Definition pq_is_empty (q : PayloadQueue) : res Error bool :=
  n ← pq_len q;
  Ok (n =? 0).
End ops.

(** * The invariant *)
Definition map_bytes (m : gmap Z ChunkPayloadData) : Z :=
  map_fold (fun _ c n => data_len c + n) 0 m.

Record pq_wf (c : Z) (q : PayloadQueue) : Prop := {
  wf_cum : in_range 32 c;
  wf_window : Forall (window32 c) (pq_sorted q);
  wf_sorted : StronglySorted (fun a b => dist 32 c a < dist 32 c b) (pq_sorted q);
  wf_keys t : t ∈ pq_sorted q <-> is_Some (pq_chunk_map q !! t);
  wf_tsn t p : pq_chunk_map q !! t = Some p -> pd_tsn p = t;
  wf_length : pq_length q = Z.of_nat (size (pq_chunk_map q));
  wf_bytes : pq_n_bytes q = wrap 64 (map_bytes (pq_chunk_map q))
}.

Lemma map_bytes_insert m t p : m !! t = None ->
  map_bytes (<[t := p]> m) = data_len p + map_bytes m.
Proof. intros H. unfold map_bytes. rewrite map_fold_insert_L; [done| |done]. intros; lia. Qed.

Lemma map_bytes_delete m t p : m !! t = Some p ->
  map_bytes m = data_len p + map_bytes (delete t m).
Proof. intros H. unfold map_bytes. erewrite map_fold_delete_L; [done| |exact H]. intros; lia. Qed.

Lemma data_len_nonneg p : 0 <= data_len p.
Proof. unfold data_len. lia. Qed.

Lemma map_bytes_nonneg m : 0 <= map_bytes m.
Proof.
  induction m as [|t p m Ht IH] using map_ind; [done|].
  rewrite map_bytes_insert by done. pose proof (data_len_nonneg p). lia.
Qed.

Lemma map_bytes_update m t p p' : m !! t = Some p ->
  map_bytes (<[t := p']> m) = map_bytes m - data_len p + data_len p'.
Proof.
  intros H. rewrite <- insert_delete_eq, map_bytes_insert by apply lookup_delete_eq.
  rewrite (map_bytes_delete m t p H). lia.
Qed.

Lemma NoDup_range32 (l : list Z) : NoDup l -> Forall (in_range 32) l -> Z.of_nat (length l) <= 2 ^ 32.
Proof.
  intros Hnd Hr. assert (Hs : l ⊆+ seqZ 0 (2 ^ 32)).
  { apply NoDup_submseteq; [done|]. intros x Hx. rewrite Forall_forall in Hr.
    apply elem_of_seqZ. apply Hr in Hx. unfold in_range in Hx. lia. }
  apply submseteq_length in Hs. rewrite length_seqZ in Hs. lia.
Qed.

Lemma dist_sorted_NoDup c l : StronglySorted (fun a b => dist 32 c a < dist 32 c b) l -> NoDup l.
Proof.
  induction 1 as [|x l Hs IH Hx]; [constructor|]. constructor; [|done].
  intros Hin. rewrite Forall_forall in Hx. specialize (Hx x Hin). lia.
Qed.

Section wf.
Context {P : Profile} (c : Z) (q : PayloadQueue) (Hq : pq_wf c q).

Lemma wf_in_window t : is_Some (pq_chunk_map q !! t) -> window32 c t.
Proof using Hq.
  intros Ht. apply (wf_keys _ _ Hq) in Ht. pose proof (wf_window _ _ Hq) as H.
  rewrite Forall_forall in H. by apply H.
Qed.

Lemma wf_NoDup : NoDup (pq_sorted q).
Proof using Hq. eapply dist_sorted_NoDup, (wf_sorted _ _ Hq). Qed.

Lemma wf_sorted_perm : pq_sorted q ≡ₚ (map_to_list (pq_chunk_map q)).*1.
Proof using Hq.
  apply NoDup_Permutation; [apply wf_NoDup|apply NoDup_fst_map_to_list|]. intros t.
  rewrite (wf_keys _ _ Hq), list_elem_of_fmap. split.
  - intros [p Hp]. exists (t, p). split; [done|]. by apply elem_of_map_to_list.
  - intros ([t' p] & -> & Hp). apply elem_of_map_to_list in Hp. eauto.
Qed.

Lemma wf_size : length (pq_sorted q) = size (pq_chunk_map q).
Proof using Hq. by rewrite wf_sorted_perm, length_fmap, length_map_to_list. Qed.

Lemma wf_size_bound : Z.of_nat (size (pq_chunk_map q)) <= 2 ^ 32.
Proof using Hq.
  rewrite <- wf_size. apply NoDup_range32; [apply wf_NoDup|].
  eapply Forall_impl; [apply (wf_window _ _ Hq)|]. by intros t [Ht _].
Qed.

(** The assertion of [len] never fires. *)
Lemma pq_len_wf : pq_len q = Ok (Z.of_nat (size (pq_chunk_map q))).
Proof using Hq. unfold pq_len. by rewrite (wf_length _ _ Hq), Z.eqb_refl. Qed.

Lemma wf_head_min t l t' : pq_sorted q = t :: l -> is_Some (pq_chunk_map q !! t') ->
  dist 32 c t <= dist 32 c t'.
Proof using Hq.
  intros Hs Ht'. apply (wf_keys _ _ Hq) in Ht'. pose proof (wf_sorted _ _ Hq) as Hss.
  rewrite Hs in *. inversion Hss as [|?? _ Hall]; subst. apply elem_of_cons in Ht' as [->|Ht']; [lia|].
  rewrite Forall_forall in Hall. specialize (Hall t' Ht'). lia.
Qed.

Lemma can_push_spec p : in_range 32 (pd_tsn p) ->
  can_push q p c = true <-> pq_chunk_map q !! pd_tsn p = None /\ window32 c (pd_tsn p).
Proof using Hq.
  intros Hp. unfold can_push, contains_key. rewrite negb_true_iff, orb_false_iff, bool_decide_eq_false.
  rewrite eq_None_not_Some. pose proof (wf_cum _ _ Hq) as Hc.
  assert (H : sna32lte (pd_tsn p) c = false <-> 0 < dist 32 c (pd_tsn p) <= 2 ^ 31).
  { pose proof (sna32lte_spec (pd_tsn p) c Hp Hc) as Hs.
    pose proof (dist_range 32 (pd_tsn p) c ltac:(lia)).
    destruct (sna32lte (pd_tsn p) c); split; try done.
    - intros Hd. assert (dist 32 (pd_tsn p) c < 2 ^ 31) by by apply Hs. exfalso.
      clear Hs. revert Hd H H0. serial_arith.
    - intros _. assert (~ dist 32 (pd_tsn p) c < 2 ^ 31) by (intros ?%Hs; done).
      clear Hs. revert H H0. serial_arith. }
  unfold window32. tauto.
Qed.
End wf.

Lemma sort32_app c l t : in_range 32 c -> Forall (window32 c) l -> window32 c t ->
  NoDup (l ++ [t]) ->
  StronglySorted (fun a b => dist 32 c a < dist 32 c b) (sort_by sna32lt (l ++ [t])).
Proof.
  intros Hc Hl Ht Hnd. apply (sort32_sorted id); [done| |by rewrite map_id].
  apply Forall_app. auto.
Qed.

Lemma push_no_check_wf `{Profile} c q p q' : pq_wf c q ->
  pq_chunk_map q !! pd_tsn p = None -> window32 c (pd_tsn p) -> push_no_check q p = Ok q' ->
  pq_wf c q' /\ pq_chunk_map q' = <[pd_tsn p := p]> (pq_chunk_map q) /\ pq_dup_tsn q' = pq_dup_tsn q.
Proof.
  intros Hq Hnone Hwin. unfold push_no_check.
  destruct (arith 64 _) as [n| | |] eqn:Hn; try done. cbn [mbind res_bind]. intros [= <-].
  apply arith_Ok_wrap in Hn. split; [|done].
  assert (Hnin : pd_tsn p ∉ pq_sorted q).
  { rewrite (wf_keys _ _ Hq), Hnone. intros [? ?]; done. }
  assert (Hnd : NoDup (pq_sorted q ++ [pd_tsn p])).
  { apply NoDup_app. split_and!; [by eapply wf_NoDup| |apply NoDup_singleton].
    intros t Ht ->%list_elem_of_singleton. done. }
  pose proof (wf_window _ _ Hq) as Hw.
  constructor; cbn [pq_sorted pq_chunk_map pq_length pq_n_bytes pq_dup_tsn set update_sorted_keys].
  - apply (wf_cum _ _ Hq).
  - rewrite sort_by_perm. apply Forall_app. auto.
  - by apply sort32_app; [apply (wf_cum _ _ Hq)|..].
  - intros t. rewrite elem_of_sort_by, elem_of_app, list_elem_of_singleton, (wf_keys _ _ Hq).
    destruct (decide (t = pd_tsn p)) as [->|Hne].
    + rewrite lookup_insert_eq. split; [eauto|auto].
    + rewrite lookup_insert_ne by done. tauto.
  - intros t p' Ht. apply lookup_insert_Some in Ht as [[<- <-]|[_ Ht]]; [done|].
    by apply (wf_tsn _ _ Hq).
  - rewrite map_size_insert_None, (wf_length _ _ Hq) by done.
    pose proof (wf_size_bound _ _ Hq). rewrite wrap_small by (unfold in_range; lia). lia.
  - rewrite map_bytes_insert, Hn, (wf_bytes _ _ Hq) by done.
    unfold wrap. rewrite Zplus_mod_idemp_l. f_equal. lia.
Qed.

(** Moving the base to the next number keeps the window and the order of the
    numbers that are not that number. *)
Section advance.
Context (c : Z) (Hc : in_range 32 c).
Let t := wrap 32 (c + 1).

Lemma next_range : in_range 32 t.
Proof using. apply wrap_range. lia. Qed.

Lemma window32_next t' : window32 c t' -> t' <> t ->
  window32 t t' /\ dist 32 t t' = dist 32 c t' - 1.
Proof using Hc.
  intros [Ht' Hw] Hne. pose proof next_range as Ht.
  assert (Hd1 : dist 32 c t = 1) by (by apply dist32_add).
  assert (dist 32 c t' <> 1) by (intros ?; apply Hne, (dist32_inj c); congruence).
  assert (Hs : dist 32 t t' = dist 32 c t' - 1) by (apply dist32_succ; [done..|lia]).
  split; [|done]. split; [done|]. rewrite Hs. lia.
Qed.

Lemma sorted_next l : Forall (window32 c) l -> t ∉ l ->
  StronglySorted (fun a b => dist 32 c a < dist 32 c b) l ->
  Forall (window32 t) l /\ StronglySorted (fun a b => dist 32 t a < dist 32 t b) l.
Proof using Hc.
  induction l as [|x l IH]; intros Hw Hnin Hs; [split; constructor|].
  inversion_clear Hw as [|? ? Hx Hl]. inversion_clear Hs as [|? ? Hs' Hall].
  rewrite not_elem_of_cons in Hnin. destruct Hnin as [Hne Hnin]. destruct (IH Hl Hnin Hs') as [IH1 IH2].
  destruct (window32_next x Hx (not_eq_sym Hne)) as [Hwx Hdx].
  split; [by constructor|]. constructor; [done|].
  rewrite Forall_forall in Hall, Hl |- *. intros y Hy.
  destruct (window32_next y (Hl y Hy)) as [_ Hdy]; [by intros ->|]. specialize (Hall y Hy). lia.
Qed.

(** The next number, if it is in the list, is its head. *)
Lemma next_is_head x l : Forall (window32 c) (x :: l) -> t <> x ->
  StronglySorted (fun a b => dist 32 c a < dist 32 c b) (x :: l) -> t ∉ x :: l.
Proof using Hc.
  intros Hw Hne Hs [->|Hin]%elem_of_cons; [done|].
  inversion_clear Hs as [|? ? _ Hall]. rewrite Forall_forall in Hall. specialize (Hall t Hin).
  inversion_clear Hw as [|? ? Hwx _]. destruct Hwx as [_ ?].
  assert (dist 32 c t = 1) by (by apply dist32_add). lia.
Qed.
End advance.

Lemma pq_wf_next c q q' (t := wrap 32 (c + 1)) : pq_wf c q ->
  Forall (window32 c) (pq_sorted q') -> t ∉ pq_sorted q' ->
  StronglySorted (fun a b => dist 32 c a < dist 32 c b) (pq_sorted q') ->
  (forall t', t' ∈ pq_sorted q' <-> is_Some (pq_chunk_map q' !! t')) ->
  pq_chunk_map q' ⊆ pq_chunk_map q ->
  pq_length q' = Z.of_nat (size (pq_chunk_map q')) ->
  pq_n_bytes q' = wrap 64 (map_bytes (pq_chunk_map q')) -> pq_wf t q'.
Proof.
  intros Hq Hw Hnin Hs Hk Hm Hlen Hb. pose proof (wf_cum _ _ Hq) as Hc.
  destruct (sorted_next c Hc _ Hw Hnin Hs).
  constructor; [apply next_range|done..| |done|done].
  intros t' p Hp. apply (wf_tsn _ _ Hq). by eapply lookup_weaken.
Qed.

Lemma pq_pop_next `{Profile} c q r q' : pq_wf c q ->
  pq_pop q (wrap 32 (c + 1)) = Ok (r, q') ->
  pq_wf (wrap 32 (c + 1)) q' /\ r = pq_chunk_map q !! wrap 32 (c + 1) /\
  pq_chunk_map q' = delete (wrap 32 (c + 1)) (pq_chunk_map q) /\ pq_dup_tsn q' = pq_dup_tsn q.
Proof.
  intros Hq Hpop. pose proof (wf_cum _ _ Hq) as Hc. pose proof (wf_keys _ _ Hq) as Hkeys.
  pose proof (wf_window _ _ Hq) as Hwin. pose proof (wf_sorted _ _ Hq) as Hsrt.
  pose proof (wf_length _ _ Hq) as Hlen. pose proof (wf_bytes _ _ Hq) as Hbytes.
  set (t := wrap 32 (c + 1)) in *.
  assert (Habsent : t ∉ pq_sorted q -> r = None -> q' = q ->
    pq_wf t q' /\ r = pq_chunk_map q !! t /\ pq_chunk_map q' = delete t (pq_chunk_map q) /\
    pq_dup_tsn q' = pq_dup_tsn q).
  { intros Hnin -> ->.
    assert (Hm : pq_chunk_map q !! t = None) by (apply eq_None_not_Some; by rewrite <- Hkeys).
    rewrite Hm, delete_id by done. split_and!; try done. by apply (pq_wf_next c q q). }
  unfold pq_pop in Hpop. destruct (pq_sorted q) as [|x l] eqn:Es.
  { injection Hpop as <- <-. apply Habsent; [apply not_elem_of_nil|done..]. }
  destruct (Z.eqb_spec t x) as [<-|Hne].
  2:{ injection Hpop as <- <-. apply Habsent; [by apply next_is_head|done..]. }
  clear Habsent. destruct (proj1 (Hkeys t)) as [p Hp]; [by left|].
  cbn [pq_chunk_map set] in Hpop. rewrite Hp in Hpop.
  destruct (arith 64 _) as [n| | |] eqn:Hn; try done. cbn [mbind res_bind] in Hpop.
  injection Hpop as <- <-. apply arith_Ok_wrap in Hn. cbn [pq_n_bytes set] in Hn.
  rewrite Hp. split; [|done].
  pose proof (wf_NoDup _ _ Hq) as Hnd. rewrite Es in Hnd. apply NoDup_cons in Hnd as [Hnin _].
  inversion_clear Hwin. inversion_clear Hsrt.
  apply (pq_wf_next c q); [done|done|done|done| |apply delete_subseteq| |];
    cbn [pq_sorted pq_chunk_map pq_length pq_n_bytes set].
  - intros t'. destruct (decide (t' = t)) as [->|Hne'].
    + rewrite lookup_delete_eq. split; [done|by intros [? ?]].
    + rewrite lookup_delete_ne by done. rewrite <- Hkeys, elem_of_cons. tauto.
  - pose proof (wf_size_bound _ _ Hq). rewrite Hlen.
    assert (Hsz : size (delete t (pq_chunk_map q)) = Nat.pred (size (pq_chunk_map q)))
      by (apply map_size_delete_Some; eauto).
    assert (size (pq_chunk_map q) <> 0%nat) by (intros Hz%map_size_empty_inv; by rewrite Hz in Hp).
    rewrite wrap_small by (unfold in_range; lia). lia.
  - rewrite Hn, Hbytes, (map_bytes_delete _ t p Hp).
    unfold wrap. rewrite Zminus_mod_idemp_l. f_equal. lia.
Qed.

Lemma mark_as_acked_wf `{Profile} c q t n q' : pq_wf c q -> mark_as_acked q t = Ok (n, q') ->
  pq_wf c q' /\ dom (pq_chunk_map q') = dom (pq_chunk_map q) /\ pq_dup_tsn q' = pq_dup_tsn q.
Proof.
  intros Hq. unfold mark_as_acked. destruct (pq_chunk_map q !! t) as [p|] eqn:Hp.
  2:{ by intros [= <- <-]. }
  destruct (arith 64 _) as [n'| | |] eqn:Hn; try done. cbn [mbind res_bind]. intros [= <- <-].
  apply arith_Ok_wrap in Hn. set (p' := p <| pd_acked := true |> <| pd_retransmit := false |> <| pd_user_data := [] |>).
  assert (Hdom : dom (<[t := p']> (pq_chunk_map q)) = dom (pq_chunk_map q)).
  { rewrite dom_insert_L. apply subseteq_union_1_L. apply singleton_subseteq_l, elem_of_dom. eauto. }
  split; [|done]. constructor; cbn [pq_sorted pq_chunk_map pq_length pq_n_bytes set].
  - apply (wf_cum _ _ Hq).
  - apply (wf_window _ _ Hq).
  - apply (wf_sorted _ _ Hq).
  - intros t'. rewrite (wf_keys _ _ Hq), <- !elem_of_dom. by rewrite Hdom.
  - intros t' p0 Ht'. apply lookup_insert_Some in Ht' as [[<- <-]|[_ Ht']];
      [apply (wf_tsn _ _ Hq _ _ Hp)|by apply (wf_tsn _ _ Hq)].
  - rewrite map_size_insert_Some by eauto. apply (wf_length _ _ Hq).
  - rewrite (map_bytes_update _ _ p) by done. rewrite Hn, (wf_bytes _ _ Hq).
    unfold wrap. rewrite Zminus_mod_idemp_l. f_equal. unfold p', data_len at 3. simpl. lia.
Qed.

Lemma map_bytes_fmap (f : ChunkPayloadData -> ChunkPayloadData) m :
  (forall p, data_len (f p) = data_len p) -> map_bytes (f <$> m) = map_bytes m.
Proof.
  intros Hf. induction m as [|t p m Ht IH] using map_ind; [by rewrite fmap_empty|].
  rewrite fmap_insert, !map_bytes_insert by (rewrite ?lookup_fmap, ?Ht; done).
  by rewrite Hf, IH.
Qed.

(** An update of the chunks that keeps their numbers and sizes. *)
Lemma pq_wf_fmap c q (f : ChunkPayloadData -> ChunkPayloadData) : pq_wf c q ->
  (forall p, data_len (f p) = data_len p) -> (forall p, pd_tsn (f p) = pd_tsn p) ->
  pq_wf c (q <| pq_chunk_map ::= fmap f |>).
Proof.
  intros Hq Hd Ht. constructor; cbn [pq_sorted pq_chunk_map pq_length pq_n_bytes set].
  - apply (wf_cum _ _ Hq).
  - apply (wf_window _ _ Hq).
  - apply (wf_sorted _ _ Hq).
  - intros t. rewrite lookup_fmap, fmap_is_Some. apply (wf_keys _ _ Hq).
  - intros t p Hp. rewrite lookup_fmap in Hp. destruct (pq_chunk_map q !! t) as [p0|] eqn:Hp0; [|done].
    injection Hp as <-. rewrite Ht. by apply (wf_tsn _ _ Hq).
  - rewrite map_size_fmap. apply (wf_length _ _ Hq).
  - rewrite map_bytes_fmap by done. apply (wf_bytes _ _ Hq).
Qed.

(** An update of one chunk that keeps its number and size. *)
Lemma pq_wf_update c q t p p' : pq_wf c q -> pq_chunk_map q !! t = Some p ->
  data_len p' = data_len p -> pd_tsn p' = pd_tsn p ->
  pq_wf c (q <| pq_chunk_map ::= insert t p' |>).
Proof.
  intros Hq Hp Hd Ht. constructor; cbn [pq_sorted pq_chunk_map pq_length pq_n_bytes set].
  - apply (wf_cum _ _ Hq).
  - apply (wf_window _ _ Hq).
  - apply (wf_sorted _ _ Hq).
  - intros t'. rewrite (wf_keys _ _ Hq). destruct (decide (t' = t)) as [->|];
      [rewrite lookup_insert_eq, Hp; split; eauto|by rewrite lookup_insert_ne].
  - intros t' p0 Ht'. apply lookup_insert_Some in Ht' as [[<- <-]|[_ Ht']];
      [rewrite Ht; by apply (wf_tsn _ _ Hq)|by apply (wf_tsn _ _ Hq)].
  - rewrite map_size_insert_Some by eauto. apply (wf_length _ _ Hq).
  - rewrite (map_bytes_update _ _ p) by done. rewrite (wf_bytes _ _ Hq). f_equal. lia.
Qed.

Lemma mark_all_to_retrasmit_wf fl c q : pq_wf c q -> pq_wf c (mark_all_to_retrasmit fl q).
Proof. intros Hq. apply pq_wf_fmap; [done|..]; intros p; by destruct (_ || _). Qed.

Lemma pq_push_wf `{Profile} c q p ok q' : pq_wf c q -> in_range 32 (pd_tsn p) ->
  pq_push q p c = Ok (ok, q') ->
  pq_wf c q' /\ ok = can_push q p c /\
  pq_chunk_map q' = (if ok then <[pd_tsn p := p]> (pq_chunk_map q) else pq_chunk_map q) /\
  pq_dup_tsn q' = (if ok then pq_dup_tsn q else pq_dup_tsn q ++ [pd_tsn p]).
Proof.
  intros Hq Hp. pose proof (can_push_spec c q Hq p Hp) as Hspec. unfold pq_push, can_push in *.
  destruct (contains_key _ _ || _); cbn [negb] in *.
  - intros [= <- <-]. split_and!; try done. destruct Hq. by constructor.
  - destruct (push_no_check q p) as [q1| | |] eqn:Hpush; try done. cbn [mbind res_bind].
    intros [= <- <-]. destruct Hspec as [Hspec _]. destruct (Hspec eq_refl) as [Hnone Hwin].
    destruct (push_no_check_wf c q p q1 Hq Hnone Hwin Hpush) as (Hwf & Hm & Hd).
    auto.
Qed.

(** Popping and acknowledging a chunk cannot underflow the byte counter while
    the queue holds less than [2^64] bytes. *)
Lemma sub_bytes_ok `{Profile} c q t p : pq_wf c q -> pq_chunk_map q !! t = Some p ->
  in_range 64 (map_bytes (pq_chunk_map q)) ->
  arith (E := Error) 64 (pq_n_bytes q - data_len p) = Ok (pq_n_bytes q - data_len p).
Proof.
  intros Hq Hp Hr. apply arith_ok. rewrite (wf_bytes _ _ Hq), wrap_small by done.
  rewrite (map_bytes_delete _ _ _ Hp) in Hr |- *.
  pose proof (map_bytes_nonneg (delete t (pq_chunk_map q))). pose proof (data_len_nonneg p).
  unfold in_range in *. lia.
Qed.

Lemma pq_pop_safe `{Profile} c q t : pq_wf c q ->
  in_range 64 (map_bytes (pq_chunk_map q)) -> safe (pq_pop q t).
Proof.
  intros Hq Hr. unfold pq_pop. destruct (pq_sorted q) as [|x l]; [done|].
  destruct (t =? x); [|done]. cbn [pq_chunk_map set].
  destruct (pq_chunk_map q !! t) as [p|] eqn:Hp; [|done]. cbn [pq_n_bytes set].
  by rewrite (sub_bytes_ok c q t p).
Qed.

Lemma mark_as_acked_safe `{Profile} c q t : pq_wf c q ->
  in_range 64 (map_bytes (pq_chunk_map q)) -> safe (mark_as_acked q t).
Proof.
  intros Hq Hr. unfold mark_as_acked. destruct (pq_chunk_map q !! t) as [p|] eqn:Hp; [|done].
  by rewrite (sub_bytes_ok c q t p).
Qed.

Lemma PayloadQueue_new_wf c : in_range 32 c -> pq_wf c PayloadQueue_new.
Proof.
  intros Hc. constructor; try done; cbn.
  - constructor.
  - intros t. rewrite lookup_empty. split; [by intros ?%not_elem_of_nil|by intros [? ?]].
Qed.

(** * Gap ack blocks *)
Definition expand_block (b : GapAckBlock) : list Z := seqZ (gap_start b) (gap_end b - gap_start b + 1).

(** Blocks in order, none adjacent to the next: the fewest blocks possible. *)
Fixpoint blocks_separated (l : list GapAckBlock) : Prop :=
  match l with
  | [] => True
  | b :: l' =>
      gap_start b <= gap_end b /\
      match l' with [] => True | b' :: _ => gap_end b + 1 < gap_start b' end /\
      blocks_separated l'
  end.

Section gap.
Context {P : Profile} (cum : Z).

(** The numbers are above the cumulative one without a wrap-around, within
    the reach of a 16-bit offset. *)
Definition gap_reach (t : Z) : Prop := cum <= t <= cum + u16_max.

Lemma gap_ack_loop_spec l : forall b,
  0 <= gap_start b <= gap_end b -> Forall gap_reach l ->
  StronglySorted (fun a b => a < b) (cum + gap_end b :: l) ->
  exists blocks, gap_ack_loop cum b l = Ok blocks /\
    flat_map expand_block blocks = expand_block b ++ map (fun t => t - cum) l /\
    blocks_separated blocks /\ (exists b0 rest, blocks = b0 :: rest /\ gap_start b0 = gap_start b).
Proof.
  induction l as [|t l IH]; intros b Hb Hl Hs.
  { exists [b]. cbn. rewrite !app_nil_r. split_and!; try done; [lia|eauto]. }
  inversion_clear Hl as [|? ? [Ht1 Ht2] Hl']. inversion_clear Hs as [|? ? Hs' Hall].
  inversion Hall as [|? ? Hlt Hall']; subst. unfold u16_max in *.
  assert (Hd : gap_diff cum t = t - cum).
  { unfold gap_diff. destruct (Z.geb_spec t cum); [|lia]. apply wrap_small. unfold in_range. lia. }
  cbn [gap_ack_loop]. rewrite Hd, arith_ok by (unfold in_range; lia). cbn [mbind res_bind].
  destruct (Z.eqb_spec (gap_end b + 1) (t - cum)) as [Heq|Hne].
  - destruct (IH (mkGapAckBlock (gap_start b) (gap_end b + 1))) as (bs & Hok & Hfl & Hsep & b0 & r & Hb0 & Hst);
      cbn [gap_start gap_end]; [lia|done| |].
    { replace (cum + (gap_end b + 1)) with t by lia. done. }
    exists bs. split_and!; [done| |done|eauto]. rewrite Hfl. unfold expand_block. cbn [gap_start gap_end map].
    replace (gap_end b + 1 - gap_start b + 1) with ((gap_end b - gap_start b + 1) + 1) by lia.
    rewrite seqZ_app by lia. rewrite <- app_assoc. f_equal.
    replace (gap_start b + (gap_end b - gap_start b + 1)) with (t - cum) by lia. done.
  - destruct (IH (mkGapAckBlock (t - cum) (t - cum))) as (bs & Hok & Hfl & Hsep & b0 & r & Hb0 & Hst);
      cbn [gap_start gap_end]; [lia|done| |].
    { replace (cum + (t - cum)) with t by lia. done. }
    rewrite Hok. cbn [mbind res_bind]. exists (b :: bs). split_and!; [done| | |eauto].
    + cbn [flat_map]. rewrite Hfl. unfold expand_block. cbn [gap_start gap_end map].
      replace (t - cum - (t - cum) + 1) with 1 by lia. done.
    + subst bs. cbn [gap_start] in Hst. split; [lia|]. split; [rewrite Hst; lia|done].
Qed.

Lemma get_gap_ack_blocks_spec q : pq_wf cum q -> Forall gap_reach (pq_sorted q) ->
  exists blocks, get_gap_ack_blocks q cum = Ok blocks /\
    flat_map expand_block blocks = map (fun t => t - cum) (pq_sorted q) /\
    blocks_separated blocks.
Proof.
  intros Hq Hr. unfold get_gap_ack_blocks.
  pose proof (wf_size _ _ Hq) as Hsz. destruct (bool_decide _) eqn:He.
  { apply bool_decide_eq_true in He. rewrite He, map_size_empty in Hsz.
    apply nil_length_inv in Hsz. rewrite Hsz. exists []. done. }
  destruct (pq_sorted q) as [|t l] eqn:Es.
  { apply bool_decide_eq_false in He. symmetry in Hsz. cbn in Hsz. by apply map_size_empty_inv in Hsz. }
  inversion_clear Hr as [|? ? [Ht1 Ht2] Hl]. unfold u16_max in *.
  assert (Hd : gap_diff cum t = t - cum).
  { unfold gap_diff. destruct (Z.geb_spec t cum); [|lia]. apply wrap_small. unfold in_range. lia. }
  rewrite Hd.
  destruct (gap_ack_loop_spec l (mkGapAckBlock (t - cum) (t - cum))) as (bs & Hok & Hfl & Hsep & _);
    cbn [gap_start gap_end]; [lia|done| |].
  - pose proof (wf_sorted _ _ Hq) as Hs. rewrite Es in Hs. replace (cum + (t - cum)) with t by lia.
    pose proof (wf_cum _ _ Hq) as Hc. pose proof (wf_window _ _ Hq) as Hw. rewrite Es in Hw.
    assert (Hd' : Forall (fun x => dist 32 cum x = x - cum) (t :: l)).
    { rewrite Forall_forall. intros y Hx. rewrite Forall_forall in Hw, Hl. destruct (Hw y Hx) as [Hxr _].
      unfold dist. apply Z.mod_small. apply elem_of_cons in Hx as [->|Hx]; unfold in_range in *; [lia|].
      destruct (Hl y Hx). lia. }
    clear -Hs Hd'. revert Hs Hd'. generalize (t :: l). intros l0 Hs Hd'.
    induction Hs as [|x0 xs Hs IH Hall]; [constructor|].
    inversion_clear Hd' as [|? ? Hx Hxs]. constructor; [auto|].
    rewrite Forall_forall in Hall, Hxs |- *. intros y Hy. specialize (Hall y Hy). specialize (Hxs y Hy). lia.
  - exists bs. split_and!; [done| |done]. rewrite Hfl. unfold expand_block. cbn [gap_start gap_end map].
    replace (t - cum - (t - cum) + 1) with 1 by lia. done.
Qed.
End gap.

(** * Reachable queues *)
Section reachable.
Context {P : Profile}.

(** The calls the association makes on its queues, with the cumulative TSN the
    queue is relative to; a call that panics has no successor. *)
Inductive pq_step : Z * PayloadQueue -> Z * PayloadQueue -> Prop :=
  | pq_step_push c q p ok q' : in_range 32 (pd_tsn p) -> pq_push q p c = Ok (ok, q') ->
      pq_step (c, q) (c, q')
  | pq_step_send c q p q' : pq_chunk_map q !! pd_tsn p = None -> window32 c (pd_tsn p) ->
      push_no_check q p = Ok q' -> pq_step (c, q) (c, q')
  | pq_step_pop c q r q' : pq_pop q (wrap 32 (c + 1)) = Ok (r, q') ->
      pq_step (c, q) (wrap 32 (c + 1), q')
  | pq_step_ack c q t n q' : mark_as_acked q t = Ok (n, q') -> pq_step (c, q) (c, q')
  | pq_step_retransmit c q fl : pq_step (c, q) (c, mark_all_to_retrasmit fl q)
  | pq_step_duplicates c q : pq_step (c, q) (c, snd (pop_duplicates q)).

Lemma pq_step_wf s s' : pq_step s s' -> pq_wf s.1 s.2 -> pq_wf s'.1 s'.2.
Proof.
  destruct 1 as [c q p ok q' Hp Hpush|c q p q' Hn Hw Hpush|c q r q' Hpop|c q t n q' Hack| |]; cbn; intros Hq.
  - by eapply pq_push_wf.
  - by eapply push_no_check_wf.
  - by eapply pq_pop_next.
  - by eapply mark_as_acked_wf.
  - by apply mark_all_to_retrasmit_wf.
  - by destruct Hq.
Qed.

(** C10. Every queue the association can build - from an empty queue by
    receiving or sending chunks, popping the next TSN, acknowledging and
    marking chunks - is well formed: its key list is the set of TSNs of the map
    in strictly increasing serial order, across the wrap-around of TSNs, all
    within half the number space after the cumulative TSN, its counters are
    the size and the bytes of the map, and so the assertion of [len] never
    fails. *)
Theorem payload_queue_reachable c0 c q : in_range 32 c0 ->
  rtc pq_step (c0, PayloadQueue_new) (c, q) ->
  pq_wf c q /\ pq_len q = Ok (Z.of_nat (size (pq_chunk_map q))) /\
  pq_is_empty q = Ok (bool_decide (pq_chunk_map q = ∅)).
Proof.
  intros H0 Hr. assert (Hq : pq_wf c q).
  { enough (H : forall s s', rtc pq_step s s' -> pq_wf s.1 s.2 -> pq_wf s'.1 s'.2).
    { apply (H _ _ Hr). by apply PayloadQueue_new_wf. }
    induction 1; [done|]. intros. by apply IHrtc, (pq_step_wf x). }
  split; [done|]. split; [by eapply pq_len_wf|].
  unfold pq_is_empty. rewrite (pq_len_wf c q Hq). cbn [mbind res_bind]. f_equal.
  destruct (Z.eqb_spec (Z.of_nat (size (pq_chunk_map q))) 0) as [Hz|Hz]; symmetry.
  - apply bool_decide_eq_true, map_size_empty_inv. lia.
  - apply bool_decide_eq_false. intros He. by rewrite He, map_size_empty in Hz.
Qed.

(** The gap ack blocks of a queue whose only TSN lies past the wrap-around
    of the TSN space are wrong: the offset is computed as 0 instead of the
    distance from the cumulative TSN, so the SACK reports the chunk as the
    cumulative TSN itself. *)
Theorem gap_ack_blocks_wraparound c q t : pq_wf c q -> pq_sorted q = [t] -> t < c ->
  get_gap_ack_blocks q c = Ok [mkGapAckBlock 0 0] /\ 0 < dist 32 c t.
Proof.
  intros Hq Hs Ht. unfold get_gap_ack_blocks.
  assert (Hin : is_Some (pq_chunk_map q !! t)) by (apply (wf_keys _ _ Hq); rewrite Hs; by left).
  split; [|apply (wf_in_window c q Hq t Hin)].
  rewrite bool_decide_eq_false_2 by (intros He; rewrite He, lookup_empty in Hin; by destruct Hin).
  rewrite Hs. cbn. unfold gap_diff. destruct (Z.geb_spec t c); [lia|done].
Qed.
End reachable.

Definition example_chunk (tsn : Z) : ChunkPayloadData :=
  mkChunkPayloadData true true true false tsn 1 0 Binary [Byte.x61] false 0 0 0 0%nat 1%nat false.

Definition example_queue : PayloadQueue :=
  match push_no_check (P := dev_profile) PayloadQueue_new (example_chunk 0) with Ok q => q | _ => PayloadQueue_new end.

Lemma payload_queue_reachable_witness : pq_wf 4294967295 example_queue.
Proof.
  apply (payload_queue_reachable (P := dev_profile) 4294967295); [done|].
  apply rtc_once, (pq_step_push _ _ (example_chunk 0) true); [done|reflexivity].
Defined.

Lemma example_queue_wf : pq_wf 4294967294 example_queue.
Proof.
  apply (pq_step_wf (P := dev_profile) (4294967294, PayloadQueue_new) (4294967294, example_queue));
    [|by apply PayloadQueue_new_wf].
  apply (pq_step_push _ _ (example_chunk 0) true); [done|reflexivity].
Qed.

Lemma gap_ack_blocks_wraparound_witness :
  get_gap_ack_blocks (P := dev_profile) example_queue 4294967294 = Ok [mkGapAckBlock 0 0] /\
  0 < dist 32 4294967294 0.
Proof. apply (gap_ack_blocks_wraparound 4294967294 example_queue 0 example_queue_wf); reflexivity. Defined.
