(* ===== verification/PendingQueue.v ===== *)
(** The queue of chunks waiting to be sent ([sctp/queue/pending_queue.rs]).

    The two deques are lists; the counters and the selection flags are the
    atomics of the source.  [pending_wf] says that each deque is a sequence of
    messages, of which the selected one may have lost its first fragments;
    [peek] and [pop] then agree, which is what the sender's loop relies on.
    The last part lets writers and the sender interleave between the three
    effects of [push] and shows that the counters are right at rest. *)
From S2P Require Import Prelude Serial Errors Param Chunk PayloadQueue.

Record PendingQueue := mkPendingQueue {
  unordered_queue : list ChunkPayloadData;
  ordered_queue : list ChunkPayloadData;
  queue_len : Z;
  pend_n_bytes : Z;
  selected : bool;
  unordered_is_selected : bool
}.

#[export] Instance PendingQueue_settable : Settable PendingQueue := fun q =>
  mkPendingQueue (unordered_queue q) (ordered_queue q) (queue_len q) (pend_n_bytes q)
    (selected q) (unordered_is_selected q).

Definition PendingQueue_new : PendingQueue := mkPendingQueue [] [] 0 0 false false.

(** [push] is three effects: the byte counter, the deque, the chunk counter. *)
Definition push_bytes (q : PendingQueue) (c : ChunkPayloadData) : PendingQueue :=
  q <| pend_n_bytes ::= fun n => wrap 64 (n + data_len c) |>.

Definition push_back (q : PendingQueue) (c : ChunkPayloadData) : PendingQueue :=
  if pd_unordered c then q <| unordered_queue ::= fun l => l ++ [c] |>
  else q <| ordered_queue ::= fun l => l ++ [c] |>.

Definition push_count (q : PendingQueue) : PendingQueue :=
  q <| queue_len ::= fun n => wrap 64 (n + 1) |>.

Definition pending_push (q : PendingQueue) (c : ChunkPayloadData) : PendingQueue :=
  push_count (push_back (push_bytes q c) c).

Definition peek (q : PendingQueue) : option ChunkPayloadData :=
  if selected q then
    if unordered_is_selected q then head (unordered_queue q) else head (ordered_queue q)
  else
    match head (unordered_queue q) with
    | Some c => Some c
    | None => head (ordered_queue q)
    end.

Definition pop_front_unordered (q : PendingQueue) : option ChunkPayloadData * PendingQueue :=
  (head (unordered_queue q), q <| unordered_queue ::= tail |>).

Definition pop_front_ordered (q : PendingQueue) : option ChunkPayloadData * PendingQueue :=
  (head (ordered_queue q), q <| ordered_queue ::= tail |>).

(** The [popped] of [pop], before the counters are updated. *)
Definition pop_popped (q : PendingQueue) (beginning_fragment unordered : bool) :
    option ChunkPayloadData * PendingQueue :=
  if selected q then
    let '(popped, q) :=
      if unordered_is_selected q then pop_front_unordered q else pop_front_ordered q in
    match popped with
    | Some p => (popped, if pd_ending_fragment p then q <| selected := false |> else q)
    | None => (popped, q)
    end
  else if negb beginning_fragment then (None, q)
  else if unordered then
    let '(popped, q) := pop_front_unordered q in
    match popped with
    | Some p =>
        (popped, if pd_ending_fragment p then q
                 else q <| selected := true |> <| unordered_is_selected := true |>)
    | None => (popped, q)
    end
  else
    let '(popped, q) := pop_front_ordered q in
    match popped with
    | Some p =>
        (popped, if pd_ending_fragment p then q
                 else q <| selected := true |> <| unordered_is_selected := false |>)
    | None => (popped, q)
    end.

Definition pending_pop (q : PendingQueue) (beginning_fragment unordered : bool) :
    option ChunkPayloadData * PendingQueue :=
  let '(popped, q) := pop_popped q beginning_fragment unordered in
  match popped with
  | Some p =>
      (popped, q <| pend_n_bytes ::= fun n => wrap 64 (n - data_len p) |>
                 <| queue_len ::= fun n => wrap 64 (n - 1) |>)
  | None => (popped, q)
  end.

Definition pending_len (q : PendingQueue) : Z := queue_len q.

(** * Messages *)

(** [brackets inside l]: reading [l] from inside a message or between two,
    every fragment begins a message exactly when none is open; the result
    says whether a message is open at the end. *)
Fixpoint brackets (inside : bool) (l : list ChunkPayloadData) : option bool :=
  match l with
  | [] => Some inside
  | c :: l' =>
      if Bool.eqb (pd_beginning_fragment c) (negb inside)
      then brackets (negb (pd_ending_fragment c)) l'
      else None
  end.

Definition sum_len (l : list ChunkPayloadData) : Z := foldr (fun c n => data_len c + n) 0 l.

Record pending_wf (q : PendingQueue) : Prop := {
  pw_unordered : is_Some (brackets (selected q && unordered_is_selected q) (unordered_queue q));
  pw_ordered : is_Some (brackets (selected q && negb (unordered_is_selected q)) (ordered_queue q));
  pw_flags_u : Forall (fun c => pd_unordered c = true) (unordered_queue q);
  pw_flags_o : Forall (fun c => pd_unordered c = false) (ordered_queue q)
}.

Lemma brackets_app inside l l' :
  brackets inside (l ++ l') = inside' ← brackets inside l; brackets inside' l'.
Proof.
  revert inside. induction l as [|c l IH]; intros inside; simpl; [done|].
  destruct (Bool.eqb _ _); [apply IH|done].
Qed.

(** A message of the unordered (ordered) deque has lost its first fragments. *)
Definition open_unordered (q : PendingQueue) : bool := selected q && unordered_is_selected q.
Definition open_ordered (q : PendingQueue) : bool := selected q && negb (unordered_is_selected q).

(** What a pop of the chunk [c] does: it leaves its deque, whose messages stay
    the same; [c] begins a message exactly when none was open, and the message
    stays open unless [c] ends it. *)
Record popped_front (q : PendingQueue) (c : ChunkPayloadData) (q' : PendingQueue) : Prop := {
  pf_unordered : unordered_queue q = (if pd_unordered c then [c] else []) ++ unordered_queue q';
  pf_ordered : ordered_queue q = (if pd_unordered c then [] else [c]) ++ ordered_queue q';
  pf_brackets_u :
    brackets (open_unordered q') (unordered_queue q') = brackets (open_unordered q) (unordered_queue q);
  pf_brackets_o :
    brackets (open_ordered q') (ordered_queue q') = brackets (open_ordered q) (ordered_queue q);
  pf_begin : pd_beginning_fragment c = negb (selected q);
  pf_open : selected q' = negb (pd_ending_fragment c);
  pf_kind : selected q' = true -> unordered_is_selected q' = pd_unordered c;
  pf_same : selected q = true -> pd_unordered c = unordered_is_selected q
}.

(** Closes a case of a pop, for the chunk [x] taken from the front. *)
Ltac solve_popped x :=
  eexists; split; [done|];
  match goal with H : Bool.eqb _ _ = true |- _ => apply Bool.eqb_prop in H end;
  destruct (pd_ending_fragment x) eqn:He; cbn in *; split_and!; try done; constructor; cbn;
  repeat match goal with H : pd_unordered x = _ |- _ => rewrite ?H; clear H end;
  rewrite ?He; repeat match goal with H : pd_beginning_fragment x = _ |- _ => rewrite ?H end; done.

(** The chunk [peek] shows is the one [pop] takes. *)
Lemma pop_popped_peek q c : pending_wf q -> peek q = Some c ->
  exists q', pop_popped q (pd_beginning_fragment c) (pd_unordered c) = (Some c, q') /\
    popped_front q c q' /\ queue_len q' = queue_len q /\ pend_n_bytes q' = pend_n_bytes q.
Proof.
  intros [[bu Hu] [bo Ho] Hfu Hfo]. unfold peek, pop_popped, pop_front_unordered, pop_front_ordered.
  destruct q as [u o n b sel us]. cbn [selected unordered_is_selected unordered_queue ordered_queue] in *.
  destruct sel; cbn [andb negb] in *.
  - destruct us; cbn [negb] in *.
    + destruct u as [|x u]; [done|]. intros [= <-]. cbn [brackets head] in *.
      destruct (Bool.eqb _ _) eqn:Hb; [|done]. inversion_clear Hfu. solve_popped x.
    + destruct o as [|x o]; [done|]. intros [= <-]. cbn [brackets head] in *.
      destruct (Bool.eqb _ _) eqn:Hb; [|done]. inversion_clear Hfo. solve_popped x.
  - destruct u as [|x u]; cbn [head tail].
    + destruct o as [|x o]; [done|]. intros [= <-]. cbn [brackets] in Ho.
      destruct (Bool.eqb _ _) eqn:Hb; [|done]. apply Bool.eqb_prop in Hb as Hb'.
      inversion_clear Hfo as [|? ? Hx Ho']. rewrite Hx, Hb'. solve_popped x.
    + intros [= <-]. cbn [brackets] in Hu.
      destruct (Bool.eqb _ _) eqn:Hb; [|done]. apply Bool.eqb_prop in Hb as Hb'.
      inversion_clear Hfu as [|? ? Hx Hu']. rewrite Hx, Hb'. solve_popped x.
Qed.

Lemma popped_front_wf q c q' : pending_wf q -> popped_front q c q' -> pending_wf q'.
Proof.
  intros [Hu Ho Hfu Hfo] [Hqu Hqo Hbu Hbo _ _ _]. unfold open_unordered, open_ordered in *.
  rewrite Hqu, Forall_app in Hfu. rewrite Hqo, Forall_app in Hfo.
  split; [by rewrite Hbu|by rewrite Hbo|apply Hfu|apply Hfo].
Qed.

Lemma popped_front_perm q c q' : popped_front q c q' ->
  unordered_queue q ++ ordered_queue q ≡ₚ c :: unordered_queue q' ++ ordered_queue q'.
Proof.
  intros [-> -> _ _ _ _ _]. destruct (pd_unordered c); cbn; [done|]. by rewrite <- Permutation_middle.
Qed.

Lemma pending_pop_peek q c : pending_wf q -> peek q = Some c ->
  exists q', pending_pop q (pd_beginning_fragment c) (pd_unordered c) = (Some c, q') /\
    pending_wf q' /\ popped_front q c q'.
Proof.
  intros Hq Hp. destruct (pop_popped_peek q c Hq Hp) as (q' & Hpop & Hf & _ & _).
  pose proof (popped_front_wf _ _ _ Hq Hf) as Hwf.
  unfold pending_pop. rewrite Hpop. eexists. split; [done|]. split; [by destruct Hwf|by destruct Hf].
Qed.

(** A queue with chunks in it shows one, unless the selected message is not
    completely queued. *)
Lemma peek_None q : peek q = None ->
  (selected q = false /\ unordered_queue q = [] /\ ordered_queue q = []) \/
  (selected q = true /\ (if unordered_is_selected q then unordered_queue q else ordered_queue q) = []).
Proof.
  unfold peek. destruct (selected q), (unordered_is_selected q);
    destruct (unordered_queue q), (ordered_queue q); cbn; auto; done.
Qed.

(** Pushing a message, fragment by fragment, keeps the invariant. *)
Lemma pending_push_wf q c : pending_wf q ->
  (if pd_unordered c
   then is_Some (brackets (selected q && unordered_is_selected q) (unordered_queue q ++ [c]))
   else is_Some (brackets (selected q && negb (unordered_is_selected q)) (ordered_queue q ++ [c]))) ->
  pending_wf (pending_push q c).
Proof.
  intros [Hu Ho Hfu Hfo]. unfold pending_push, push_count, push_back, push_bytes.
  destruct (pd_unordered c) eqn:Hc; intros Hb; constructor; cbn; try done;
    apply Forall_app; split; try done; by constructor.
Qed.

Lemma pending_push_message q l u : pending_wf q ->
  Forall (fun c => pd_unordered c = u) l -> brackets false l = Some false ->
  (if u then brackets (selected q && unordered_is_selected q) (unordered_queue q)
   else brackets (selected q && negb (unordered_is_selected q)) (ordered_queue q)) = Some false ->
  pending_wf (foldl pending_push q l).
Proof.
  intros Hq Hl Hb Hend. assert (Hgen : forall l inside, brackets inside l = Some false ->
    Forall (fun c => pd_unordered c = u) l -> forall q, pending_wf q ->
    (if u then brackets (selected q && unordered_is_selected q) (unordered_queue q)
     else brackets (selected q && negb (unordered_is_selected q)) (ordered_queue q)) = Some inside ->
    pending_wf (foldl pending_push q l)).
  { clear. induction l as [|c l IH]; intros inside Hb Hl q Hq Hend; [done|].
    inversion_clear Hl as [|? ? Hc Hl']. cbn [foldl]. cbn [brackets] in Hb.
    destruct (Bool.eqb _ _) eqn:He; [|done]. apply (IH _ Hb); [done| |].
    - apply pending_push_wf; [done|]. rewrite Hc. destruct u; rewrite brackets_app, Hend; simpl;
        rewrite He; eauto.
    - unfold pending_push, push_count, push_back, push_bytes. rewrite Hc.
      destruct u; cbn; cbn in Hend; rewrite brackets_app, Hend; simpl; by rewrite He. }
  by apply (Hgen l false).
Qed.

(** * Writers and the sender interleaved *)

(** The queue, the chunks whose bytes were counted but which are not in a
    deque yet, and how many chunks are in a deque but not counted yet. *)
Record Pool := mkPool { pool_q : PendingQueue; pool_counted : list ChunkPayloadData; pool_queued : nat }.

Inductive pool_step : Pool -> Pool -> Prop :=
  | pool_begin q l n c : pool_step (mkPool q l n) (mkPool (push_bytes q c) (c :: l) n)
  | pool_enqueue q l1 c l2 n :
      pool_step (mkPool q (l1 ++ c :: l2) n) (mkPool (push_back q c) (l1 ++ l2) (S n))
  | pool_end q l n : pool_step (mkPool q l (S n)) (mkPool (push_count q) l n)
  | pool_pop q l n beginning unord :
      pool_step (mkPool q l n) (mkPool (snd (pending_pop q beginning unord)) l n).

Definition pool_inv (s : Pool) : Prop :=
  let q := pool_q s in
  queue_len q = wrap 64 (Z.of_nat (length (unordered_queue q ++ ordered_queue q)) - Z.of_nat (pool_queued s)) /\
  pend_n_bytes q = wrap 64 (sum_len (unordered_queue q ++ ordered_queue q) + sum_len (pool_counted s)).

Lemma sum_len_app l l' : sum_len (l ++ l') = sum_len l + sum_len l'.
Proof. induction l as [|c l IH]; simpl; [done|]. rewrite IH. lia. Qed.

Lemma sum_len_cons c l : sum_len (c :: l) = data_len c + sum_len l.
Proof. done. Qed.

(** What a pop does to the deques, whatever it is asked for. *)
Lemma pop_popped_lists q b u r q' : pop_popped q b u = (r, q') ->
  queue_len q' = queue_len q /\ pend_n_bytes q' = pend_n_bytes q /\
  let n := length (unordered_queue q ++ ordered_queue q) in
  let n' := length (unordered_queue q' ++ ordered_queue q') in
  let s := sum_len (unordered_queue q ++ ordered_queue q) in
  let s' := sum_len (unordered_queue q' ++ ordered_queue q') in
  match r with Some p => n = S n' /\ s = data_len p + s' | None => n = n' /\ s = s' end.
Proof.
  unfold pop_popped, pop_front_unordered, pop_front_ordered.
  destruct q as [ul ol n k sel us]. cbn -[sum_len].
  destruct sel, us, b, u, ul as [|x ul], ol as [|y ol]; cbn -[sum_len]; intros [= <- <-];
    try (destruct (pd_ending_fragment x)); try (destruct (pd_ending_fragment y)); cbn -[sum_len];
    repeat rewrite ?sum_len_app, ?sum_len_cons; rewrite ?length_app; change (sum_len []) with 0;
    cbn [length];
    split_and!; (done || lia).
Qed.

Lemma wrap_add_cong x y a : x = wrap 64 y -> wrap 64 (x + a) = wrap 64 (y + a).
Proof. intros ->. apply Zplus_mod_idemp_l. Qed.

Lemma pool_step_inv s s' : pool_step s s' -> pool_inv s -> pool_inv s'.
Proof.
  unfold pool_inv. intros Hstep [Hl Hb].
  destruct Hstep as [q l n c|q l1 c l2 n|q l n|q l n b u];
    cbn [pool_q pool_counted pool_queued] in *.
  - split; [done|]. cbn -[sum_len]. rewrite (wrap_add_cong _ _ _ Hb), sum_len_cons. f_equal. lia.
  - repeat rewrite ?sum_len_app, ?sum_len_cons in Hb. unfold push_back.
    destruct (pd_unordered c); cbn -[sum_len] in *; rewrite Hl, Hb;
      repeat rewrite ?sum_len_app, ?sum_len_cons; change (sum_len []) with 0;
      rewrite !length_app; cbn [length]; split; f_equal; lia.
  - split; [|done]. cbn. rewrite (wrap_add_cong _ _ _ Hl). f_equal. lia.
  - unfold pending_pop. destruct (pop_popped q b u) as [r q'] eqn:Hpop.
    destruct (pop_popped_lists q b u r q' Hpop) as (Hl' & Hb' & Hr).
    rewrite <- Hl' in Hl. rewrite <- Hb' in Hb.
    destruct r as [p|]; destruct Hr as [Hr1 Hr2]; cbn -[sum_len]; rewrite Hr1 in Hl; rewrite Hr2 in Hb; [|done].
    split; [rewrite <- Z.add_opp_r, (wrap_add_cong _ _ _ Hl)|rewrite <- Z.add_opp_r, (wrap_add_cong _ _ _ Hb)];
      f_equal; lia.
Qed.

Lemma pool_reachable_inv s : rtc pool_step (mkPool PendingQueue_new [] 0) s -> pool_inv s.
Proof.
  intros H. assert (Hi : pool_inv (mkPool PendingQueue_new [] 0)) by done.
  induction H; [done|]. apply IHrtc. by eapply pool_step_inv.
Qed.

(** * The order in which messages leave *)

(** Every message is completely queued. *)
Record pending_whole (q : PendingQueue) : Prop := {
  pe_wf : pending_wf q;
  pe_unordered : brackets (open_unordered q) (unordered_queue q) = Some false;
  pe_ordered : brackets (open_ordered q) (ordered_queue q) = Some false
}.

Lemma pending_whole_pop q c q' : pending_whole q -> pending_wf q' -> popped_front q c q' -> pending_whole q'.
Proof. intros [_ Hu Ho] Hwf Hf. split; [done| |]; by rewrite ?(pf_brackets_u _ _ _ Hf), ?(pf_brackets_o _ _ _ Hf). Qed.

Lemma pending_whole_peek_None q : pending_whole q -> peek q = None ->
  selected q = false /\ unordered_queue q = [] /\ ordered_queue q = [].
Proof.
  intros [_ Hu Ho] [H|[Hs H]]%peek_None; [done|]. exfalso.
  unfold open_unordered, open_ordered in *. rewrite Hs in *.
  destruct (unordered_is_selected q); rewrite H in *; done.
Qed.

(** The sender's loop on an open window: peek, then pop what was shown. *)
Fixpoint drain (n : nat) (q : PendingQueue) : list ChunkPayloadData :=
  match n, peek q with
  | S n', Some c =>
      match pending_pop q (pd_beginning_fragment c) (pd_unordered c) with
      | (Some c, q') => c :: drain n' q'
      | (None, _) => []
      end
  | _, _ => []
  end.

(** [unbroken open l]: between the first and the last fragment of a message
    come only fragments of the same deque, none of which begins a message. *)
Fixpoint unbroken (open : option bool) (l : list ChunkPayloadData) : Prop :=
  match l with
  | [] => open = None
  | c :: l' =>
      match open with
      | None => pd_beginning_fragment c = true
      | Some u => pd_beginning_fragment c = false /\ pd_unordered c = u
      end /\ unbroken (if pd_ending_fragment c then None else Some (pd_unordered c)) l'
  end.

Definition open_message (q : PendingQueue) : option bool :=
  if selected q then Some (unordered_is_selected q) else None.

(** Pushing a message keeps every message whole. *)
Lemma pending_push_whole q l u : pending_whole q ->
  Forall (fun c => pd_unordered c = u) l -> (l <> [] -> brackets false l = Some false) ->
  pending_whole (foldl pending_push q l).
Proof.
  intros Hq Hl Hb. destruct l as [|c l]; [done|]. specialize (Hb ltac:(done)).
  assert (Hpush : forall l q, Forall (fun c => pd_unordered c = u) l ->
    let q' := foldl pending_push q l in
    selected q' = selected q /\ unordered_is_selected q' = unordered_is_selected q /\
    unordered_queue q' = unordered_queue q ++ (if u then l else []) /\
    ordered_queue q' = ordered_queue q ++ (if u then [] else l)).
  { clear. induction l as [|c l IH]; intros q Hl; cbn zeta; cbn [foldl].
    { destruct u; by rewrite !app_nil_r. }
    inversion_clear Hl as [|? ? Hc Hl']. destruct (IH (pending_push q c) Hl') as (-> & -> & -> & ->).
    unfold pending_push, push_count, push_back, push_bytes. rewrite Hc.
    destruct u; cbn; by rewrite <- ?app_assoc, ?app_nil_r. }
  destruct (Hpush (c :: l) q Hl) as (Hs & Hus & Hu & Ho). destruct Hq as [Hwf Hbu Hbo]. split.
  - apply (pending_push_message q _ u); [done|done|done|]. by destruct u.
  - unfold open_unordered in *. rewrite Hs, Hus, Hu, brackets_app, Hbu. by destruct u.
  - unfold open_ordered in *. rewrite Hs, Hus, Ho, brackets_app, Hbo. by destruct u.
Qed.

(** Draining a pending queue that holds whole messages: every chunk leaves,
    the unordered ones in the order they were pushed and so do the ordered ones,
    and no message is interrupted by a fragment of another one. *)
Theorem pending_queue_drain q : pending_whole q ->
  let l := drain (length (unordered_queue q ++ ordered_queue q)) q in
  unbroken (open_message q) l /\
  filter (fun c => pd_unordered c = true) l = unordered_queue q /\
  filter (fun c => pd_unordered c = false) l = ordered_queue q.
Proof.
  intros Hq. remember (length _) as n eqn:Hn. revert q Hq Hn.
  induction n as [|n IH]; intros q Hq Hn; cbn zeta; cbn [drain].
  - destruct (peek q) as [c|] eqn:Hp.
    + destruct (pending_pop_peek q c (pe_wf _ Hq) Hp) as (q' & _ & _ & Hf).
      apply popped_front_perm, Permutation_length in Hf. cbn in Hf. lia.
    + destruct (pending_whole_peek_None q Hq Hp) as (Hs & -> & ->). unfold open_message. by rewrite Hs.
  - destruct (peek q) as [c|] eqn:Hp.
    + destruct (pending_pop_peek q c (pe_wf _ Hq) Hp) as (q' & -> & Hwf & Hf).
      pose proof (Permutation_length (popped_front_perm _ _ _ Hf)) as Hl. cbn in Hl.
      destruct (IH q' (pending_whole_pop _ _ _ Hq Hwf Hf) ltac:(lia)) as (IH1 & IH2 & IH3).
      destruct Hf as [Hu Ho _ _ Hbeg Hopen Hkind Hsame]. unfold open_message in *.
      split; [|rewrite Hu, Ho; destruct (pd_unordered c) eqn:Hcu].
      * cbn [unbroken]. split.
        { rewrite Hbeg. destruct (selected q); [split; [done|by apply Hsame]|done]. }
        destruct (pd_ending_fragment c); cbn in Hopen; rewrite Hopen in *; [done|].
        by rewrite Hkind in IH1.
      * rewrite filter_cons_True by done. rewrite filter_cons_False by congruence.
        by rewrite IH2, IH3.
      * rewrite filter_cons_False by congruence. rewrite filter_cons_True by done.
        by rewrite IH2, IH3.
    + destruct (pending_whole_peek_None q Hq Hp) as (_ & Hu & Ho). rewrite Hu, Ho in Hn. done.
Qed.

(** The counters of the queue under concurrency: whatever the order in which
    writers perform the three effects of [push] and the sender pops, once no
    push is under way [queue_len] and [n_bytes] are the number of chunks and of
    bytes in the two deques (as [usize] values). *)
Theorem pending_queue_counters_at_rest q :
  rtc pool_step (mkPool PendingQueue_new [] 0) (mkPool q [] 0) ->
  queue_len q = wrap 64 (Z.of_nat (length (unordered_queue q ++ ordered_queue q))) /\
  pend_n_bytes q = wrap 64 (sum_len (unordered_queue q ++ ordered_queue q)).
Proof.
  intros [Hl Hb]%pool_reachable_inv. cbn -[sum_len] in *. by rewrite Z.sub_0_r in Hl; rewrite Z.add_0_r in Hb.
Qed.

(** * The theorems at concrete inputs *)
Definition example_fragment (unordered beginning ending : bool) : ChunkPayloadData :=
  mkChunkPayloadData unordered beginning ending false 0 1 0 Binary [Byte.x61] false 0 0 0 0%nat 1%nat false.

Definition example_pending : PendingQueue :=
  foldl pending_push PendingQueue_new
    [example_fragment false true false; example_fragment true true false; example_fragment false false true;
     example_fragment true false true].

Lemma pending_queue_drain_witness :
  unbroken None (drain 4 example_pending) /\
  filter (fun c => pd_unordered c = true) (drain 4 example_pending) = unordered_queue example_pending.
Proof.
  destruct (pending_queue_drain example_pending) as (H1 & H2 & _).
  - repeat constructor; eexists; reflexivity.
  - exact (conj H1 H2).
Defined.

Lemma pending_queue_counters_at_rest_witness :
  let q := pending_push PendingQueue_new (example_fragment true true true) in
  queue_len q = 1 /\ pend_n_bytes q = 1.
Proof.
  intros q. apply (pending_queue_counters_at_rest q).
  eapply rtc_l; [apply (pool_begin _ _ _ (example_fragment true true true))|].
  eapply rtc_l; [apply (pool_enqueue _ [] (example_fragment true true true) [])|].
  eapply rtc_l; [apply pool_end|]. apply rtc_refl.
Defined.
