(* ===== verification/ReassemblyQueue.v ===== *)
(** Reassembly of messages from DATA chunks
    ([sctp/queue/reassembly_queue.rs]).

    [complete_set] says what a complete chunk set is; [ChunkSet_is_complete]
    decides it, and [find_complete_unordered_chunk_set] extracts one exactly
    when the chunks received contain one.  The main result is that the
    fragments of a message may arrive in any order. *)
From Stdlib Require Import Sorted.
From stdpp Require Import sorting.
From S2P Require Import Prelude Serial Errors Param Chunk PayloadQueue.

Definition sort_chunks_by_tsn (c : list ChunkPayloadData) : list ChunkPayloadData :=
  sort_by (fun a b => sna32lt (pd_tsn a) (pd_tsn b)) c.

Record ChunkSet := mkChunkSet {
  cs_ssn : Z;
  cs_ppi : PayloadProtocolIdentifier;
  cs_chunks : list ChunkPayloadData
}.

#[export] Instance ChunkSet_settable : Settable ChunkSet := fun s =>
  mkChunkSet (cs_ssn s) (cs_ppi s) (cs_chunks s).

Definition sort_chunks_by_ssn (c : list ChunkSet) : list ChunkSet :=
  sort_by (fun a b => sna16lt (cs_ssn a) (cs_ssn b)) c.

Definition ChunkSet_new (ssn : Z) (ppi : PayloadProtocolIdentifier) : ChunkSet :=
  mkChunkSet ssn ppi [].

Record ReassemblyQueue := mkReassemblyQueue {
  rq_si : Z;
  rq_next_ssn : Z;
  rq_ordered : list ChunkSet;
  rq_unordered : list ChunkSet;
  rq_unordered_chunks : list ChunkPayloadData;
  rq_n_bytes : Z
}.

#[export] Instance ReassemblyQueue_settable : Settable ReassemblyQueue := fun q =>
  mkReassemblyQueue (rq_si q) (rq_next_ssn q) (rq_ordered q) (rq_unordered q)
    (rq_unordered_chunks q) (rq_n_bytes q).

Definition ReassemblyQueue_new (si : Z) : ReassemblyQueue := mkReassemblyQueue si 0 [] [] [] 0.

Definition subtract_num_bytes (q : ReassemblyQueue) (n_bytes : Z) : ReassemblyQueue :=
  if rq_n_bytes q >=? n_bytes then q <| rq_n_bytes ::= fun n => n - n_bytes |>
  else q <| rq_n_bytes := 0 |>.

(** The loop of [forward_tsn_for_unordered]: how many leading chunks it
    passes before it breaks. *)
Fixpoint leading_old (chunks : list ChunkPayloadData) (new_cumulative_tsn : Z) : nat :=
  match chunks with
  | c :: chunks' =>
      if sna32gt (pd_tsn c) new_cumulative_tsn then 0%nat
      else S (leading_old chunks' new_cumulative_tsn)
  | [] => 0%nat
  end.

Definition forward_tsn_for_unordered (q : ReassemblyQueue) (new_cumulative_tsn : Z) :
    ReassemblyQueue :=
  let k := leading_old (rq_unordered_chunks q) new_cumulative_tsn in
  let q' := foldl (fun q c => subtract_num_bytes q (data_len c)) q (take k (rq_unordered_chunks q)) in
  q' <| rq_unordered_chunks ::= drop k |>.

(** The copying loop of [read]: each fragment is copied into [buf] at
    [n_written] until one does not fit. *)
Fixpoint copy_fragments (chunks : list ChunkPayloadData) (buf : bytes) (n_written : nat) (short : bool) :
    bytes * nat * bool :=
  match chunks with
  | [] => (buf, n_written, short)
  | c :: chunks' =>
      if short then copy_fragments chunks' buf n_written short
      else
        let to_copy := length (pd_user_data c) in
        let n := Nat.min to_copy (length buf - n_written) in
        let buf := take n_written buf ++ take n (pd_user_data c) ++ drop (n_written + n) buf in
        copy_fragments chunks' buf (n_written + n)%nat (n <? to_copy)%nat
  end.

Section ops.
Context {P : Profile}.

(** Condition 3 of [is_complete], for the chunks after one with TSN [last_tsn]. *)
Fixpoint contiguous_after (last_tsn : Z) (chunks : list ChunkPayloadData) : res Error bool :=
  match chunks with
  | [] => Ok true
  | c :: chunks' =>
      next ← add32 last_tsn 1;
      if negb (pd_tsn c =? next) then Ok false else contiguous_after (pd_tsn c) chunks'
  end.

Definition ChunkSet_is_complete (s : ChunkSet) : res Error bool :=
  match cs_chunks s with
  | [] => Ok false
  | c :: rest =>
      if negb (pd_beginning_fragment c) then Ok false
      else if negb (pd_ending_fragment (List.last rest c)) then Ok false
      else contiguous_after (pd_tsn c) rest
  end.

Definition ChunkSet_push (s : ChunkSet) (chunk : ChunkPayloadData) : res Error (bool * ChunkSet) :=
  if existsb (fun c => pd_tsn c =? pd_tsn chunk) (cs_chunks s) then Ok (false, s)
  else
    let s := s <| cs_chunks ::= fun l => sort_chunks_by_tsn (l ++ [chunk]) |> in
    complete ← ChunkSet_is_complete s;
    Ok (complete, s).

(** The scan of [find_complete_unordered_chunk_set], from index [i] on:
    [start_idx] is [-1] until a first fragment was seen.  The result is the
    range to extract. *)
Fixpoint scan_unordered (i : nat) (start_idx : Z) (n_chunks : nat) (last_tsn : Z)
    (chunks : list ChunkPayloadData) : res Error (option (nat * nat)) :=
  match chunks with
  | [] => Ok None
  | c :: chunks' =>
      if pd_beginning_fragment c then
        if pd_ending_fragment c then Ok (Some (i, 1%nat))
        else scan_unordered (S i) (Z.of_nat i) 1 (pd_tsn c) chunks'
      else if start_idx <? 0 then scan_unordered (S i) start_idx n_chunks last_tsn chunks'
      else
        next ← add32 last_tsn 1;
        if negb (pd_tsn c =? next) then scan_unordered (S i) (-1) n_chunks last_tsn chunks'
        else if pd_ending_fragment c then Ok (Some (Z.to_nat start_idx, S n_chunks))
        else scan_unordered (S i) start_idx (S n_chunks) (pd_tsn c) chunks'
  end.

Definition find_complete_unordered_chunk_set (q : ReassemblyQueue) :
    res Error (option ChunkSet * ReassemblyQueue) :=
  found ← scan_unordered 0 (-1) 0 0 (rq_unordered_chunks q);
  match found with
  | None => Ok (None, q)
  | Some (start_idx, n_chunks) =>
      let l := rq_unordered_chunks q in
      let chunks := take n_chunks (drop start_idx l) in
      c0 ← index chunks 0;
      Ok (Some (mkChunkSet 0 (pd_payload_type c0) chunks),
          q <| rq_unordered_chunks := take start_idx l ++ drop (start_idx + n_chunks) l |>)
  end.

(** The search for a set with the chunk's SSN: the set it is pushed to, in place. *)
Fixpoint push_existing (sets : list ChunkSet) (chunk : ChunkPayloadData) :
    res Error (option (bool * list ChunkSet)) :=
  match sets with
  | [] => Ok None
  | s :: sets' =>
      if cs_ssn s =? pd_stream_sequence_number chunk then
        '(ok, s) ← ChunkSet_push s chunk;
        Ok (Some (ok, s :: sets'))
      else
        r ← push_existing sets' chunk;
        Ok (match r with Some (ok, sets') => Some (ok, s :: sets') | None => None end)
  end.

Definition rq_push (q : ReassemblyQueue) (chunk : ChunkPayloadData) :
    res Error (bool * ReassemblyQueue) :=
  if negb (pd_stream_identifier chunk =? rq_si q) then Ok (false, q)
  else if pd_unordered chunk then
    n_bytes ← add64 (rq_n_bytes q) (data_len chunk);
    let q := q <| rq_n_bytes := n_bytes |>
               <| rq_unordered_chunks ::= fun l => sort_chunks_by_tsn (l ++ [chunk]) |> in
    '(found, q) ← find_complete_unordered_chunk_set q;
    match found with
    | Some cset => Ok (true, q <| rq_unordered ::= fun l => l ++ [cset] |>)
    | None => Ok (false, q)
    end
  else if sna16lt (pd_stream_sequence_number chunk) (rq_next_ssn q) then Ok (false, q)
  else
    n_bytes ← add64 (rq_n_bytes q) (data_len chunk);
    let q := q <| rq_n_bytes := n_bytes |> in
    existing ← push_existing (rq_ordered q) chunk;
    match existing with
    | Some (ok, ordered) => Ok (ok, q <| rq_ordered := ordered |>)
    | None =>
        '(ok, cset) ← ChunkSet_push
          (ChunkSet_new (pd_stream_sequence_number chunk) (pd_payload_type chunk)) chunk;
        Ok (ok, q <| rq_ordered ::= fun l => sort_chunks_by_ssn (l ++ [cset]) |>)
    end.

Definition is_readable (q : ReassemblyQueue) : res Error bool :=
  match rq_unordered q with
  | _ :: _ => Ok true
  | [] =>
      match rq_ordered q with
      | cset :: _ =>
          complete ← ChunkSet_is_complete cset;
          Ok (complete && sna16lte (cs_ssn cset) (rq_next_ssn q))
      | [] => Ok false
      end
  end.

(** The set [read] takes out of the queue. *)
Definition read_take (q : ReassemblyQueue) : res Error (ChunkSet * ReassemblyQueue) :=
  match rq_unordered q with
  | cset :: unordered' => Ok (cset, q <| rq_unordered := unordered' |>)
  | [] =>
      match rq_ordered q with
      | cset :: ordered' =>
          complete ← ChunkSet_is_complete cset;
          if negb complete then Err ErrTryAgain
          else if sna16gt (cs_ssn cset) (rq_next_ssn q) then Err ErrTryAgain
          else
            next_ssn ← (if cs_ssn cset =? rq_next_ssn q then add16 (rq_next_ssn q) 1
                        else Ok (rq_next_ssn q));
            Ok (cset, q <| rq_next_ssn := next_ssn |> <| rq_ordered := ordered' |>)
      | [] => Err ErrTryAgain
      end
  end.

(** [read] with the caller's buffer as part of the state. *)
Definition rq_read : ST (ReassemblyQueue * bytes) Error (nat * PayloadProtocolIdentifier) :=
  fun '(q, buf) =>
    match read_take q with
    | Ok (cset, q) =>
        let q := foldl (fun q c => subtract_num_bytes q (data_len c)) q (cs_chunks cset) in
        let '(buf, n_written, short) := copy_fragments (cs_chunks cset) buf 0 false in
        if short then (Err ErrShortBuffer, (q, buf))
        else (Ok (n_written, cs_ppi cset), (q, buf))
    | Err e => (Err e, (q, buf))
    | Panic => (Panic, (q, buf))
    | OutOfFuel => (OutOfFuel, (q, buf))
    end.

Definition rq_get_num_bytes (q : ReassemblyQueue) : Z := rq_n_bytes q.
End ops.

(** * Complete sets *)
Definition tsn_lt (a b : ChunkPayloadData) : Prop := pd_tsn a < pd_tsn b.

(** [l] continues a run of TSNs after [last_tsn]. *)
Fixpoint linked (last_tsn : Z) (l : list ChunkPayloadData) : Prop :=
  match l with
  | [] => True
  | c :: l' => pd_tsn c = wrap 32 (last_tsn + 1) /\ linked (pd_tsn c) l'
  end.

Definition complete_set (l : list ChunkPayloadData) : Prop :=
  match l with
  | [] => False
  | c :: rest =>
      pd_beginning_fragment c = true /\ pd_ending_fragment (List.last rest c) = true /\
      linked (pd_tsn c) rest
  end.

Lemma list_last_cons {A} (r : list A) : forall x d, List.last (x :: r) d = List.last r x.
Proof.
  induction r as [|y r IH]; intros x d; [done|].
  etransitivity; [exact (IH y d)|symmetry; exact (IH y x)].
Qed.

Lemma linked_app t l l' : linked t (l ++ l') <->
  linked t l /\ linked (match l with [] => t | c :: r => pd_tsn (List.last r c) end) l'.
Proof.
  revert t. induction l as [|c l IH]; intros t; cbn [app linked]; [tauto|].
  rewrite IH. destruct l as [|c' r]; cbn [linked]; [tauto|].
  rewrite (list_last_cons r c' c). tauto.
Qed.

Section sets.
Context {P : Profile}.

Lemma contiguous_after_true t l : contiguous_after t l = Ok true -> linked t l.
Proof.
  revert t. induction l as [|c l IH]; intros t; cbn [contiguous_after linked]; [done|].
  destruct (arith 32 _) as [n| | |] eqn:Hn; try done. cbn [mbind res_bind].
  apply arith_Ok_wrap in Hn. destruct (Z.eqb_spec (pd_tsn c) n); cbn [negb]; [|done].
  intros H. split; [congruence|auto].
Qed.

Lemma contiguous_after_spec t l : in_range 32 t -> Forall (fun c => in_range 32 (pd_tsn c)) l ->
  t + Z.of_nat (length l) < 2 ^ 32 ->
  exists b, contiguous_after t l = Ok b /\ (b = true <-> linked t l).
Proof.
  revert t. induction l as [|c l IH]; intros t Ht Hl Hb; cbn [contiguous_after linked length] in *.
  { exists true. done. }
  inversion_clear Hl as [|? ? Hc Hl'].
  rewrite arith_ok by (unfold in_range in *; lia). cbn [mbind res_bind].
  rewrite wrap_small by (unfold in_range in *; lia).
  destruct (Z.eqb_spec (pd_tsn c) (t + 1)) as [Heq|Hne]; cbn [negb].
  - destruct (IH (pd_tsn c) Hc Hl') as (b & Hok & Hiff); [lia|]. exists b. tauto.
  - exists false. split; [done|]. split; [done|tauto].
Qed.

(** [is_complete] decides [complete_set], where the TSNs do not wrap. *)
Lemma is_complete_spec s : Forall (fun c => in_range 32 (pd_tsn c)) (cs_chunks s) ->
  (forall c, head (cs_chunks s) = Some c -> pd_tsn c + Z.of_nat (length (cs_chunks s)) <= 2 ^ 32) ->
  exists b, ChunkSet_is_complete s = Ok b /\ (b = true <-> complete_set (cs_chunks s)).
Proof.
  intros Hl Hb. unfold ChunkSet_is_complete, complete_set. destruct (cs_chunks s) as [|c rest].
  { exists false. done. }
  inversion_clear Hl. specialize (Hb c eq_refl). cbn [length] in Hb.
  destruct (pd_beginning_fragment c); cbn [negb]; [|exists false; intuition done].
  destruct (pd_ending_fragment (List.last rest c)); cbn [negb]; [|exists false; intuition done].
  destruct (contiguous_after_spec (pd_tsn c) rest) as (b & Hok & Hiff); [done..|lia|].
  exists b. tauto.
Qed.

(** * The scan *)

(** What the scan knows after the prefix [pre]: nothing, or an open run. *)
Definition scan_inv (pre : list ChunkPayloadData) (start : Z) (n : nat) (last_tsn : Z) : Prop :=
  start < 0 \/
  exists p c run, pre = p ++ c :: run /\ start = Z.of_nat (length p) /\ n = S (length run) /\
    pd_beginning_fragment c = true /\ linked (pd_tsn c) run /\ last_tsn = pd_tsn (List.last run c).

Lemma list_last_snoc {A} (l : list A) (x d : A) : List.last (l ++ [x]) d = x.
Proof. apply List.last_last. Qed.

Lemma last_pd_tsn run c : pd_tsn (List.last run c)
  = match run with [] => pd_tsn c | x :: r => pd_tsn (List.last r x) end.
Proof.
  destruct run as [|x r]; [done|]. f_equal. apply list_last_cons.
Qed.

Lemma scan_sound l : forall pre start n last_tsn s m, scan_inv pre start n last_tsn ->
  scan_unordered (length pre) start n last_tsn l = Ok (Some (s, m)) ->
  exists p seg q, pre ++ l = p ++ seg ++ q /\ s = length p /\ m = length seg /\ complete_set seg.
Proof.
  induction l as [|c l IH]; intros pre start n last_tsn s m Hinv; cbn [scan_unordered]; [done|].
  assert (Hlen : S (length pre) = length (pre ++ [c])) by (rewrite length_app; simpl; lia).
  assert (Happ : pre ++ c :: l = (pre ++ [c]) ++ l) by (by rewrite <- app_assoc).
  destruct (pd_beginning_fragment c) eqn:Hb.
  { destruct (pd_ending_fragment c) eqn:He.
    - intros [= <- <-]. exists pre, [c], l. done.
    - rewrite Hlen, Happ. apply IH. right. exists pre, c, []. done. }
  destruct (Z.ltb_spec start 0) as [Hneg|Hpos].
  { rewrite Hlen, Happ. apply IH. by left. }
  destruct Hinv as [?|(p & c0 & run & -> & -> & -> & Hb0 & Hlk & ->)]; [lia|].
  destruct (arith 32 _) as [nx| | |] eqn:Hn; try done. cbn [mbind res_bind].
  apply arith_Ok_wrap in Hn. rewrite last_pd_tsn in Hn.
  destruct (Z.eqb_spec (pd_tsn c) nx) as [Heq|Hne]; cbn [negb].
  2:{ rewrite Hlen, Happ. apply IH. by left. }
  assert (Hrun : linked (pd_tsn c0) (run ++ [c])).
  { apply linked_app. split; [done|]. cbn [linked]. split; [congruence|done]. }
  destruct (pd_ending_fragment c) eqn:He.
  - intros [= <- <-]. exists p, (c0 :: run ++ [c]), l. split_and!.
    + rewrite <- !app_assoc. cbn. by rewrite <- app_assoc.
    + lia.
    + cbn [length]. rewrite length_app. simpl. lia.
    + split; [done|]. by rewrite list_last_snoc.
  - rewrite Hlen, Happ. apply IH. right. exists p, c0, (run ++ [c]). split_and!; try done.
    + by rewrite <- app_assoc.
    + rewrite length_app. simpl. lia.
    + by rewrite list_last_snoc.
Qed.

(** On a list in increasing order the scan does not overflow. *)
Lemma scan_total l : forall i start n last_tsn,
  StronglySorted tsn_lt l -> Forall (fun c => in_range 32 (pd_tsn c)) l ->
  (0 <= start -> in_range 32 last_tsn /\ Forall (fun c => last_tsn < pd_tsn c) l) ->
  exists r, scan_unordered i start n last_tsn l = Ok r.
Proof.
  induction l as [|c l IH]; intros i start n last_tsn Hs Hr Hlast; cbn [scan_unordered]; [eauto|].
  inversion_clear Hs as [|? ? Hs' Hall]. inversion_clear Hr as [|? ? Hc Hr'].
  destruct (pd_beginning_fragment c).
  { destruct (pd_ending_fragment c); [eauto|]. by apply IH. }
  destruct (Z.ltb_spec start 0) as [Hneg|Hpos]; [apply IH; [done..|lia]|].
  destruct (Hlast Hpos) as [Hlr Hlf]. inversion_clear Hlf.
  rewrite arith_ok by (unfold in_range in *; lia). cbn [mbind res_bind].
  destruct (negb _); [apply IH; [done..|lia]|].
  destruct (pd_ending_fragment c); [eauto|]. by apply IH.
Qed.
End sets.

(** * Fragments in any order *)

(** [msg] is a message sent unordered on stream [si], fragmented from TSN [t0] on. *)
Record fragments (si t0 : Z) (msg : list ChunkPayloadData) : Prop := {
  fr_tsn i c : msg !! i = Some c -> pd_tsn c = t0 + Z.of_nat i;
  fr_begin i c : msg !! i = Some c -> pd_beginning_fragment c = (i =? 0)%nat;
  fr_end i c : msg !! i = Some c -> pd_ending_fragment c = (S i =? length msg)%nat;
  fr_all : Forall (fun c => pd_stream_identifier c = si /\ pd_unordered c = true) msg;
  fr_nonempty : (0 < length msg)%nat;
  fr_range : 0 <= t0 /\ t0 + Z.of_nat (length msg) <= 2 ^ 32 /\ Z.of_nat (length msg) <= 2 ^ 31
}.

Section any_order.
Context {P : Profile} (si t0 : Z) (msg : list ChunkPayloadData) (Hm : fragments si t0 msg).

Lemma fragments_elem c : c ∈ msg ->
  exists i, msg !! i = Some c /\ (i < length msg)%nat /\ pd_tsn c = t0 + Z.of_nat i /\
    in_range 32 (pd_tsn c) /\ window32 (wrap 32 (t0 - 1)) (pd_tsn c).
Proof using Hm.
  intros [i Hi]%list_elem_of_lookup. pose proof (lookup_lt_Some _ _ _ Hi) as Hlt.
  pose proof (fr_tsn _ _ _ Hm _ _ Hi) as Ht. pose proof (fr_range _ _ _ Hm) as (H0 & H1 & H2).
  exists i. assert (in_range 32 (pd_tsn c)) by (unfold in_range; lia).
  split_and!; try done. split; [done|].
  assert (Hd : dist 32 (wrap 32 (t0 - 1)) (pd_tsn c) = Z.of_nat i + 1); [|rewrite Hd; lia].
  rewrite Ht in *. clear Ht Hi Hm. serial_arith.
Qed.

Lemma fragments_sorted : StronglySorted tsn_lt msg.
Proof using Hm.
  assert (H : forall (l : list ChunkPayloadData) k, (forall i c, l !! i = Some c -> pd_tsn c = k + Z.of_nat i) -> StronglySorted tsn_lt l).
  { induction l as [|c l IH]; intros k Hk; [constructor|]. constructor.
    - apply (IH (k + 1)). intros i x Hx. rewrite (Hk (S i) x Hx). lia.
    - apply Forall_forall. intros x [i Hi]%list_elem_of_lookup. unfold tsn_lt.
      rewrite (Hk 0%nat c eq_refl), (Hk (S i) x Hi). lia. }
  apply (H msg t0), (fr_tsn _ _ _ Hm).
Qed.

(** The chunks received so far, in TSN order. *)
Definition received_part (u : list ChunkPayloadData) : Prop := StronglySorted tsn_lt u /\ u ⊆+ msg.

Lemma tsn_sorted_NoDup l : StronglySorted tsn_lt l -> NoDup (map pd_tsn l).
Proof using.
  induction 1 as [|x l Hs IH Hx]; [constructor|]. cbn. constructor; [|done].
  intros (y & Hy & Hin)%list_elem_of_In%in_map_iff. rewrite Forall_forall in Hx.
  apply list_elem_of_In in Hin. specialize (Hx y Hin). unfold tsn_lt in Hx. lia.
Qed.

Lemma sort_received u c : received_part u -> u ++ [c] ⊆+ msg ->
  received_part (sort_chunks_by_tsn (u ++ [c])).
Proof using Hm.
  intros [Hs Hu] Hsub. unfold sort_chunks_by_tsn. split; [|by rewrite sort_by_perm].
  assert (Hw : Forall (fun x => window32 (wrap 32 (t0 - 1)) (pd_tsn x)) (u ++ [c])).
  { apply Forall_forall. intros x Hx. destruct (fragments_elem x) as (i & _ & _ & _ & _ & Hw); [|done].
    by eapply elem_of_submseteq. }
  assert (Hnd : NoDup (map pd_tsn (u ++ [c]))).
  { assert (Hsubm : map pd_tsn (u ++ [c]) ⊆+ map pd_tsn msg) by by apply fmap_submseteq.
    pose proof (tsn_sorted_NoDup msg fragments_sorted) as Hn.
    clear -Hsubm Hn. apply submseteq_Permutation in Hsubm as [k Hk]. rewrite Hk in Hn.
    by apply NoDup_app in Hn as (Hn & _). }
  assert (Hr : in_range 32 (wrap 32 (t0 - 1))) by (apply wrap_range; lia).
  pose proof (sort32_sorted pd_tsn (wrap 32 (t0 - 1)) (u ++ [c]) Hr Hw Hnd) as Hsorted.
  assert (Hin : Forall (fun x => x ∈ msg) (sort_by (fun a b => sna32lt (pd_tsn a) (pd_tsn b)) (u ++ [c]))).
  { apply Forall_forall. intros x Hx. eapply elem_of_submseteq; [|done].
    by rewrite elem_of_sort_by in Hx. }
  clear -Hsorted Hin Hm. induction Hsorted as [|x l Hs IH Hx]; [constructor|].
  inversion_clear Hin as [|? ? Hx0 Hl]. constructor; [auto|].
  rewrite Forall_forall in Hx, Hl |- *. intros y Hy. specialize (Hx y Hy). specialize (Hl y Hy).
  destruct (fragments_elem x Hx0) as (i & _ & Hi & Hti & _).
  destruct (fragments_elem y Hl) as (j & _ & Hj & Htj & _).
  pose proof (fr_range _ _ _ Hm) as (H0 & H1 & H2). unfold tsn_lt. rewrite Hti, Htj in *.
  clear Hti Htj Hy Hl Hx0 Hm IH Hs. serial_arith.
Qed.

(** A complete set among the chunks of one message is the whole message. *)
Lemma complete_is_whole seg u p q : u ⊆+ msg -> u = p ++ seg ++ q -> complete_set seg ->
  (length msg <= length seg)%nat.
Proof using Hm.
  intros Hu -> Hseg. destruct seg as [|c run]; [done|]. destruct Hseg as (Hb & He & Hlk).
  assert (Hin : forall x, x ∈ c :: run -> x ∈ msg).
  { intros x Hx. eapply elem_of_submseteq; [|done]. apply elem_of_app. right. apply elem_of_app. by left. }
  destruct (fragments_elem c) as (i & Hi & _ & Ht & _); [apply Hin; by left|].
  pose proof (fr_begin _ _ _ Hm _ _ Hi) as Hb'. rewrite Hb in Hb'. symmetry in Hb'.
  apply Nat.eqb_eq in Hb'. subst i.
  assert (Hlast : forall run k x, pd_tsn x = t0 + Z.of_nat k -> x ∈ msg ->
    (forall y, y ∈ run -> y ∈ msg) -> linked (pd_tsn x) run ->
    pd_tsn (List.last run x) = t0 + Z.of_nat (k + length run) /\ List.last run x ∈ msg).
  { clear - Hm. induction run as [|y run IH]; intros k x Hx Hxm Hr Hlk.
    { cbn. rewrite Nat.add_0_r. done. }
    destruct Hlk as [Hy Hlk].
    destruct (fragments_elem x Hxm) as (i & _ & Hil & Hxi & Hxr & _).
    destruct (fragments_elem y) as (j & _ & _ & Hyj & _); [apply Hr; by left|].
    rewrite list_last_cons. pose proof (fr_range _ _ _ Hm) as (H0 & H1 & H2).
    assert (Hyk : pd_tsn y = t0 + Z.of_nat (S k)).
    { rewrite Hy, Hx. rewrite Hx in Hxr. unfold wrap, in_range in *.
      destruct (Z.eq_dec (t0 + Z.of_nat k + 1) (2 ^ 32)) as [Heq|Hne].
      - exfalso. rewrite Hx, Heq, Z.mod_same in Hy by lia. lia.
      - rewrite Z.mod_small by lia. lia. }
    destruct (IH (S k) y Hyk) as [IH1 IH2]; [apply Hr; by left|intros z Hz; apply Hr; by right|done|].
    split; [|done]. rewrite IH1. cbn [length]. f_equal. f_equal. lia. }
  destruct (Hlast run 0%nat c Ht) as [Htl Hlm]; [apply Hin; by left|intros y Hy; apply Hin; by right|done|].
  destruct (fragments_elem _ Hlm) as (j & Hj & _ & Htj & _).
  pose proof (fr_end _ _ _ Hm _ _ Hj) as He'. rewrite He in He'. symmetry in He'.
  apply Nat.eqb_eq in He'. cbn [length]. lia.
Qed.

Lemma scan_message_from u : forall i, (0 < i)%nat -> (i < length msg)%nat -> u = drop i msg ->
  scan_unordered i 0 i (t0 + Z.of_nat i - 1) u = Ok (Some (0%nat, length msg)).
Proof using Hm.
  pose proof (fr_range _ _ _ Hm) as (H0 & H1 & H2).
  induction u as [|c u IH]; intros i Hi Hlt Hu.
  { apply (f_equal length) in Hu. rewrite length_drop in Hu. simpl in Hu. lia. }
  assert (Hc : msg !! i = Some c).
  { pose proof (lookup_drop msg i 0) as Hd. rewrite <- Hu, Nat.add_0_r in Hd. by rewrite <- Hd. }
  cbn [scan_unordered]. rewrite (fr_begin _ _ _ Hm _ _ Hc), (fr_end _ _ _ Hm _ _ Hc), (fr_tsn _ _ _ Hm _ _ Hc).
  rewrite (proj2 (Nat.eqb_neq i 0)) by lia. cbn [Z.ltb Z.compare].
  rewrite arith_ok by (unfold in_range; lia). cbn [mbind res_bind].
  replace (t0 + Z.of_nat i - 1 + 1) with (t0 + Z.of_nat i) by lia. rewrite Z.eqb_refl. cbn [negb].
  destruct (Nat.eqb_spec (S i) (length msg)) as [Heq|Hne].
  - by rewrite Heq.
  - replace (t0 + Z.of_nat i) with (t0 + Z.of_nat (S i) - 1) by lia.
    apply IH; [lia|lia|]. rewrite (drop_S _ c) in Hu by done. congruence.
Qed.

Lemma scan_message n l0 : scan_unordered 0 (-1) n l0 msg = Ok (Some (0%nat, length msg)).
Proof using Hm.
  pose proof (fr_nonempty _ _ _ Hm) as Hpos.
  destruct (lookup_lt_is_Some_2 msg 0 Hpos) as [c Hc].
  assert (Em : msg = c :: drop 1 msg) by (by rewrite <- (drop_S msg c 0 Hc), drop_0).
  rewrite Em at 1. cbn [scan_unordered].
  rewrite (fr_begin _ _ _ Hm _ _ Hc), (fr_end _ _ _ Hm _ _ Hc), (fr_tsn _ _ _ Hm _ _ Hc), Nat.eqb_refl.
  destruct (Nat.eqb_spec 1 (length msg)) as [Heq|Hne]; [by rewrite <- Heq|].
  replace (t0 + Z.of_nat 0) with (t0 + Z.of_nat 1 - 1) by lia.
  apply scan_message_from; [lia|lia|done].
Qed.
End any_order.

(** The chunks of [l] pushed one after the other. *)
Fixpoint rq_push_all {P : Profile} (q : ReassemblyQueue) (l : list ChunkPayloadData) :
    res Error (list bool * ReassemblyQueue) :=
  match l with
  | [] => Ok ([], q)
  | c :: l' =>
      '(ok, q) ← rq_push q c;
      '(oks, q) ← rq_push_all q l';
      Ok (ok :: oks, q)
  end.

Definition chunks_bytes (l : list ChunkPayloadData) : Z := foldr (fun c n => data_len c + n) 0 l.

Lemma chunks_bytes_nonneg l : 0 <= chunks_bytes l.
Proof. induction l as [|c l IH]; simpl; [done|]. pose proof (data_len_nonneg c). lia. Qed.

Lemma chunks_bytes_perm l l' : l ≡ₚ l' -> chunks_bytes l = chunks_bytes l'.
Proof. induction 1; simpl; lia. Qed.

Section deliver.
Context {P : Profile} (si t0 : Z) (msg : list ChunkPayloadData) (Hm : fragments si t0 msg).

Lemma push_fragment q u c (Hc : c ∈ msg) : rq_si q = si -> rq_unordered_chunks q = u ->
  received_part msg u -> u ++ [c] ⊆+ msg -> 0 <= rq_n_bytes q ->
  rq_n_bytes q + data_len c < 2 ^ 64 ->
  exists q', rq_push q c = Ok ((S (length u) =? length msg)%nat, q') /\
    rq_si q' = si /\ rq_n_bytes q' = rq_n_bytes q + data_len c /\ rq_ordered q' = rq_ordered q /\
    rq_next_ssn q' = rq_next_ssn q /\
    if (S (length u) =? length msg)%nat then
      rq_unordered_chunks q' = [] /\
      rq_unordered q' = rq_unordered q ++ [mkChunkSet 0 (pd_payload_type (List.hd c msg)) msg]
    else
      rq_unordered_chunks q' = sort_chunks_by_tsn (u ++ [c]) /\ rq_unordered q' = rq_unordered q.
Proof using Hm.
  intros Hsi Hu Hpart Hsub Hn Hb.
  destruct (proj1 (Forall_forall _ _) (fr_all _ _ _ Hm) c Hc) as [Hcsi Hcu].
  destruct (sort_received si t0 msg Hm u c Hpart Hsub) as [Hs' Hu'].
  set (u' := sort_chunks_by_tsn (u ++ [c])) in *.
  assert (Hlen : length u' = S (length u)).
  { unfold u', sort_chunks_by_tsn. rewrite sort_by_length, length_app. simpl. lia. }
  assert (Hpush : rq_push q c = ('(found, q) ← find_complete_unordered_chunk_set
      (q <| rq_n_bytes := rq_n_bytes q + data_len c |> <| rq_unordered_chunks := u' |>);
    match found with
    | Some cset => Ok (true, q <| rq_unordered ::= fun l => l ++ [cset] |>)
    | None => Ok (false, q)
    end)).
  { unfold rq_push. rewrite Hcsi, Hsi, Z.eqb_refl, Hcu. cbn [negb].
    rewrite arith_ok by (unfold in_range; pose proof (data_len_nonneg c); lia). cbn [mbind res_bind].
    unfold set. cbn. rewrite Hu. done. }
  rewrite Hpush. unfold find_complete_unordered_chunk_set. cbn [rq_unordered_chunks set].
  destruct (Nat.eqb_spec (S (length u)) (length msg)) as [Heq|Hne].
  - assert (Hwhole : u' = msg).
    { apply (StronglySorted_unique_strong tsn_lt); [|done|by eapply fragments_sorted|].
      - intros x y _ _ Hxy Hyx. unfold tsn_lt in *. lia.
      - apply submseteq_length_Permutation; [done|lia]. }
    rewrite Hwhole, (scan_message si t0 msg Hm). cbn [mbind res_bind].
    rewrite drop_0, take_ge by lia.
    destruct (lookup_lt_is_Some_2 msg 0 (fr_nonempty _ _ _ Hm)) as [c0 Hc0].
    unfold index. rewrite Hc0. cbn [mbind res_bind].
    eexists. split; [done|]. cbn. rewrite drop_ge by lia.
    replace (List.hd c msg) with c0; [done|]. destruct msg; [done|]. by injection Hc0.
  - assert (Htot : exists r, scan_unordered 0 (-1) 0 0 u' = Ok r).
    { apply scan_total; [done| |lia]. apply Forall_forall. intros x Hx.
      destruct (fragments_elem si t0 msg Hm x) as (i & _ & _ & _ & Hr & _); [|done].
      by eapply elem_of_submseteq. }
    destruct Htot as [[[s m]|] Hscan].
    { exfalso. assert (Hinv : scan_inv [] (-1) 0 0) by (left; lia).
      destruct (scan_sound u' [] (-1) 0%nat 0 s m Hinv Hscan) as (p & seg & r & Heq & _ & _ & Hseg).
      cbn [app] in Heq.
      pose proof (complete_is_whole si t0 msg Hm seg u' p r Hu' Heq Hseg) as Hge.
      apply (f_equal length) in Heq. rewrite !length_app in Heq.
      pose proof (submseteq_length _ _ Hu'). lia. }
    rewrite Hscan. cbn [mbind res_bind]. eexists. split; [done|]. done.
Qed.

Lemma push_fragments l : forall q u, rq_si q = si -> rq_unordered_chunks q = u ->
  received_part msg u -> u ++ l ≡ₚ msg -> l <> [] -> 0 <= rq_n_bytes q ->
  rq_n_bytes q + chunks_bytes l < 2 ^ 64 ->
  exists q' cset, rq_push_all q l = Ok (replicate (length l - 1) false ++ [true], q') /\
    rq_unordered q' = rq_unordered q ++ [cset] /\ cs_chunks cset = msg /\
    cs_ppi cset = match msg with [] => PpiUnknown | c :: _ => pd_payload_type c end /\
    rq_unordered_chunks q' = [] /\ rq_n_bytes q' = rq_n_bytes q + chunks_bytes l /\
    rq_ordered q' = rq_ordered q.
Proof using Hm.
  induction l as [|c l IH]; intros q u Hsi Hu Hpart Hperm Hne Hn Hb; [done|].
  cbn [chunks_bytes foldr] in Hb. fold (chunks_bytes l) in Hb.
  pose proof (chunks_bytes_nonneg l). pose proof (data_len_nonneg c).
  assert (Hc : c ∈ msg) by (rewrite <- Hperm; apply elem_of_app; right; by left).
  assert (Hsub : u ++ [c] ⊆+ msg).
  { rewrite <- Hperm. apply submseteq_app; [done|]. apply (submseteq_skip c), submseteq_nil_l. }
  destruct (push_fragment q u c Hc Hsi Hu Hpart Hsub Hn) as (q1 & Hpush & Hsi1 & Hn1 & Ho1 & _ & Hq1); [lia|].
  cbn [rq_push_all]. rewrite Hpush. cbn [mbind res_bind].
  pose proof (Permutation_length Hperm) as Hl. rewrite length_app in Hl. cbn [length] in Hl.
  destruct l as [|c' l].
  - cbn [length] in Hl. rewrite (proj2 (Nat.eqb_eq _ _)) in Hq1 |- * by lia.
    destruct Hq1 as [Hq1 Hq2]. cbn [rq_push_all mbind res_bind].
    eexists q1, _. split_and!; [done|done|done| |done| |done].
    + cbn. destruct msg; [by apply elem_of_nil in Hc|done].
    + cbn [chunks_bytes foldr]. lia.
  - rewrite (proj2 (Nat.eqb_neq _ _)) in Hq1 |- * by (cbn [length] in Hl; lia).
    destruct Hq1 as [Hq1 Hq2].
    destruct (IH q1 _ Hsi1 Hq1) as (q' & cset & Hok & Hun & Hcs & Hppi & Huc & Hnb & Hord).
    + by apply (sort_received si t0 msg Hm).
    + unfold sort_chunks_by_tsn. rewrite sort_by_perm, <- app_assoc. done.
    + done.
    + lia.
    + lia.
    + rewrite Hok. cbn [mbind res_bind]. exists q', cset. split_and!; try done.
      * cbn [length]. rewrite Nat.sub_succ, Nat.sub_0_r. done.
      * by rewrite Hun, Hq2.
      * rewrite Hnb, Hn1. cbn [chunks_bytes foldr]. lia.
      * by rewrite Hord.
Qed.
End deliver.

(** * Reading *)
Definition chunks_data (l : list ChunkPayloadData) : bytes := flat_map pd_user_data l.

Lemma chunks_data_length l : Z.of_nat (length (chunks_data l)) = chunks_bytes l.
Proof. unfold data_len. induction l as [|c l IH]; simpl; [done|]. rewrite length_app, <- IH. unfold data_len. lia. Qed.

Lemma copy_fragments_short l : forall buf n, copy_fragments l buf n true = (buf, n, true).
Proof. induction l as [|c l IH]; intros; simpl; auto. Qed.

Lemma copy_fragments_spec l : forall buf n, (n <= length buf)%nat ->
  exists buf', copy_fragments l buf n false
    = (buf', (n + Nat.min (length (chunks_data l)) (length buf - n))%nat,
       (length buf - n <? length (chunks_data l))%nat) /\
    length buf' = length buf /\
    take (n + Nat.min (length (chunks_data l)) (length buf - n)) buf'
    = take n buf ++ take (length buf - n) (chunks_data l).
Proof.
  induction l as [|c l IH]; intros buf n Hn; cbn [copy_fragments chunks_data flat_map length].
  { exists buf. rewrite Nat.min_0_l, Nat.add_0_r, take_nil, app_nil_r. by rewrite ltb_false by lia. }
  set (d := pd_user_data c). set (m := Nat.min (length d) (length buf - n)).
  set (buf1 := take n buf ++ take m d ++ drop (n + m) buf).
  assert (Hl1 : length buf1 = length buf).
  { unfold buf1. rewrite !length_app, !length_take, length_drop. unfold m. lia. }
  assert (Ht1 : take (n + m) buf1 = take n buf ++ take m d).
  { unfold buf1. rewrite app_assoc. apply take_app_length'. rewrite length_app, !length_take. unfold m. lia. }
  fold (chunks_data l). rewrite length_app.
  destruct (Nat.ltb_spec m (length d)) as [Hlt|Hge].
  - assert (Hm : m = (length buf - n)%nat) by (unfold m in *; lia).
    rewrite copy_fragments_short. exists buf1. split_and!.
    + f_equal; [f_equal; lia|]. symmetry. apply Nat.ltb_lt. lia.
    + done.
    + rewrite take_app_le by lia. replace (n + Nat.min (length d + length (chunks_data l)) (length buf - n))%nat
        with (n + m)%nat by lia. by rewrite Ht1, Hm.
  - assert (Hm : m = length d) by (unfold m in *; lia).
    destruct (IH buf1 (n + m)%nat) as (buf' & Hc & Hl' & Ht'); [unfold m; lia|].
    rewrite Hl1 in *. exists buf'. split_and!; [|done|].
    + rewrite Hc. f_equal; [f_equal; lia|]. apply eq_true_iff_eq. rewrite !Nat.ltb_lt. lia.
    + replace (n + Nat.min (length d + length (chunks_data l)) (length buf - n))%nat
        with (n + m + Nat.min (length (chunks_data l)) (length buf - (n + m)))%nat by lia.
      rewrite Ht', Ht1, (take_ge d) by lia. rewrite <- app_assoc. f_equal.
      rewrite take_app_ge by lia. f_equal. f_equal. lia.
Qed.

Lemma subtract_all l : forall q, 0 <= rq_n_bytes q ->
  foldl (fun q c => subtract_num_bytes q (data_len c)) q l
  = q <| rq_n_bytes := Z.max 0 (rq_n_bytes q - chunks_bytes l) |>.
Proof.
  induction l as [|c l IH]; intros q Hq; cbn [foldl chunks_bytes foldr].
  { destruct q. unfold set. cbn in *. f_equal. lia. }
  fold (chunks_bytes l). pose proof (data_len_nonneg c). pose proof (chunks_bytes_nonneg l).
  rewrite IH; unfold subtract_num_bytes; destruct (Z.geb_spec (rq_n_bytes q) (data_len c));
    destruct q; unfold set in *; cbn in *; [f_equal; lia|f_equal; lia|lia|lia].
Qed.

(** Reading a complete unordered set: the whole message, or as much of it as
    fits; in both cases the set is gone. *)
Lemma rq_read_unordered {P : Profile} q buf cset rest : rq_unordered q = cset :: rest -> 0 <= rq_n_bytes q ->
  let n := length (chunks_data (cs_chunks cset)) in
  exists buf', rq_read (q, buf) =
    (if (n <=? length buf)%nat then Ok (n, cs_ppi cset) else Err ErrShortBuffer,
     (q <| rq_unordered := rest |>
        <| rq_n_bytes := Z.max 0 (rq_n_bytes q - chunks_bytes (cs_chunks cset)) |>, buf')) /\
    length buf' = length buf /\
    take n buf' = take (length buf) (chunks_data (cs_chunks cset)).
Proof.
  intros Hu Hq n. unfold rq_read, read_take. rewrite Hu.
  rewrite subtract_all by (destruct q; done).
  destruct (copy_fragments_spec (cs_chunks cset) buf 0) as (buf' & Hc & Hl & Ht); [lia|].
  rewrite Hc. rewrite Nat.sub_0_r, Nat.add_0_l in *. fold n in Ht |- *. exists buf'. split_and!; [|done|].
  - destruct (Nat.ltb_spec (length buf) n).
    + by rewrite leb_false by lia.
    + rewrite leb_true by lia. by rewrite Nat.min_l by lia.
  - rewrite take_0, app_nil_l in Ht. rewrite <- Ht. destruct (Nat.le_ge_cases n (length buf)).
    + by rewrite Nat.min_l by lia.
    + rewrite Nat.min_r by lia. rewrite !take_ge by lia. done.
Qed.

(** * Skipping abandoned chunks *)
Lemma sna32gt_window c a b : in_range 32 c -> window32 c a -> window32 c b ->
  sna32gt a b = (dist 32 c b <? dist 32 c a).
Proof.
  intros Hc [Ha Hwa] [Hb Hwb]. rewrite sna32gt_lte by done. unfold sna32lte.
  rewrite (sna32lt_window c) by done. destruct (Z.eqb_spec a b) as [->|Hne]; cbn [orb negb].
  - by rewrite Z.ltb_irrefl.
  - assert (dist 32 c a <> dist 32 c b) by (intros ?; by apply Hne, (dist32_inj c)).
    apply eq_true_iff_eq. rewrite negb_true_iff, Z.ltb_ge, Z.ltb_lt. lia.
Qed.

(** [forward_tsn_for_unordered] keeps exactly the chunks after the new point. *)
Lemma forward_tsn_filter c q new : in_range 32 c -> window32 c new ->
  Forall (fun x => window32 c (pd_tsn x)) (rq_unordered_chunks q) ->
  StronglySorted (fun a b => dist 32 c (pd_tsn a) < dist 32 c (pd_tsn b)) (rq_unordered_chunks q) ->
  0 <= rq_n_bytes q ->
  let kept := filter (fun x => sna32gt (pd_tsn x) new = true) (rq_unordered_chunks q) in
  let dropped := filter (fun x => sna32gt (pd_tsn x) new = false) (rq_unordered_chunks q) in
  forward_tsn_for_unordered q new
  = q <| rq_unordered_chunks := kept |>
      <| rq_n_bytes := Z.max 0 (rq_n_bytes q - chunks_bytes dropped) |>.
Proof.
  intros Hc Hnew Hw Hs Hq kept dropped.
  assert (H : take (leading_old (rq_unordered_chunks q) new) (rq_unordered_chunks q) = dropped /\
    drop (leading_old (rq_unordered_chunks q) new) (rq_unordered_chunks q) = kept).
  { unfold kept, dropped. clear kept dropped Hq. induction Hs as [|x l Hs IH Hx]; [done|].
    inversion_clear Hw as [|? ? Hwx Hwl]. cbn [leading_old].
    destruct (sna32gt (pd_tsn x) new) eqn:Hgt.
    - rewrite take_0, drop_0.
      assert (Hall : Forall (fun y => sna32gt (pd_tsn y) new = true) (x :: l)).
      { constructor; [done|]. rewrite (sna32gt_window c) in Hgt by done. apply Z.ltb_lt in Hgt.
        rewrite Forall_forall in Hx, Hwl |- *. intros y Hy. specialize (Hx y Hy). specialize (Hwl y Hy).
        rewrite (sna32gt_window c) by done. apply Z.ltb_lt. lia. }
      split; symmetry.
      + apply list_filter_none. rewrite Forall_forall in Hall |- *.
        intros y Hy Hf. rewrite (Hall y Hy) in Hf. done.
      + by apply list_filter_all.
    - destruct (IH Hwl) as [IH1 IH2]. rewrite filter_cons_True, filter_cons_False by congruence.
      cbn [firstn skipn]. by rewrite IH1, IH2. }
  unfold forward_tsn_for_unordered. rewrite (proj1 H), subtract_all by done.
  destruct q. unfold set in *. cbn in *. by rewrite (proj2 H).
Qed.
