(* ===== verification/Timer.v ===== *)
(** The timers ([sctp/timer/]).

    [RtoManager] computes the retransmission timeout; its [f64] is binary64
    as the Standard Library specifies it.  A timer is the sender it holds (the
    [close_tx] that marks it running) and the tasks it has spawned; a task
    whose sender was dropped ends at its next step, unless its sleep has
    already ended, which is why a stopped timer can still fire once. *)
From Stdlib Require Import Floats.SpecFloat.
From S2P Require Import Prelude Serial Errors.

(** * rtx_timer.rs: the RTO *)
Definition RTO_INITIAL : Z := 3000.
Definition RTO_MIN : Z := 1000.
Definition RTO_MAX : Z := 60000.
Definition RTO_ALPHA : Z := 1.
Definition RTO_BETA : Z := 2.
Definition RTO_BASE : Z := 8.
Definition MAX_INIT_RETRANS : nat := 8.
Definition NO_MAX_RETRANS : nat := 0.

(** [f64] *)
Abbreviation f64 := spec_float.
Definition f64_of_Z (z : Z) : f64 := binary_normalize 53 1024 z 0 false.
Definition f64_mul : f64 -> f64 -> f64 := SFmul 53 1024.
Definition f64_add : f64 -> f64 -> f64 := SFadd 53 1024.
Definition f64_div : f64 -> f64 -> f64 := SFdiv 53 1024.

(** [x as u64]: truncation that saturates, with NaN mapped to zero. *)
Definition f64_to_u64 (x : f64) : Z :=
  match x with
  | S754_finite false m e =>
      Z.min (if 0 <=? e then Z.pos m * 2 ^ e else Z.pos m / 2 ^ (- e)) (2 ^ 64 - 1)
  | S754_infinity false => 2 ^ 64 - 1
  | _ => 0
  end.

Record RtoManager := mkRtoManager {
  srtt : Z;
  rttvar : f64;
  rto : Z;
  no_update : bool
}.

#[export] Instance RtoManager_settable : Settable RtoManager := fun m =>
  mkRtoManager (srtt m) (rttvar m) (rto m) (no_update m).

Definition RtoManager_new : RtoManager := mkRtoManager 0 (S754_zero false) RTO_INITIAL false.

Section rto.
Context {P : Profile}.

(** [x as i64] of a [u64], and checked arithmetic on [i64]. *)
Definition as_i64 (z : Z) : Z := if z <? 2 ^ 63 then z else z - 2 ^ 64.

Definition arith_i64 (z : Z) : res Error Z :=
  if (- 2 ^ 63 <=? z) && (z <? 2 ^ 63) then Ok z
  else if overflow_checks then Panic else Ok (as_i64 (wrap 64 z)).

Definition set_new_rtt (m : RtoManager) (rtt : Z) : res Error (Z * RtoManager) :=
  if no_update m then Ok (srtt m, m)
  else
    m ← (if srtt m =? 0 then
           Ok (m <| srtt := rtt |> <| rttvar := f64_div (f64_of_Z rtt) (f64_of_Z 2) |>)
         else
           diff ← arith_i64 (as_i64 (srtt m) - as_i64 rtt);
           abs_diff ← arith_i64 (Z.abs diff);
           let rttvar' :=
             f64_div (f64_add (f64_mul (f64_of_Z (RTO_BASE - RTO_BETA)) (rttvar m))
                        (f64_mul (f64_of_Z RTO_BETA) (f64_of_Z abs_diff)))
               (f64_of_Z RTO_BASE) in
           a ← mul64 (RTO_BASE - RTO_ALPHA) (srtt m);
           b ← mul64 RTO_ALPHA rtt;
           s ← add64 a b;
           Ok (m <| rttvar := rttvar' |> <| srtt := s / RTO_BASE |>));
    timeout ← add64 (srtt m) (f64_to_u64 (f64_mul (f64_of_Z 4) (rttvar m)));
    Ok (srtt m, m <| rto := Z.min (Z.max timeout RTO_MIN) RTO_MAX |>).

Definition get_rto (m : RtoManager) : Z := rto m.
End rto.

(** [rto << n_rtos] drops the bits that leave the 64. *)
Definition calculate_next_timeout (rto : Z) (n_rtos : nat) : Z :=
  if (n_rtos <? 31)%nat then Z.min (wrap 64 (Z.shiftl rto (Z.of_nat n_rtos))) RTO_MAX else RTO_MAX.

(** [set_new_rtt], whatever the measurements so far and the floating-point
    variance estimate (infinities and NaN included): a call that returns gives
    the smoothed RTT it stores and leaves the RTO between [RTO_MIN] and
    [RTO_MAX], unless updates are disabled, when it changes nothing. *)
Theorem set_new_rtt_bounds {P : Profile} m rtt s m' : set_new_rtt m rtt = Ok (s, m') ->
  s = srtt m' /\ no_update m' = no_update m /\
  if no_update m then m' = m else RTO_MIN <= rto m' <= RTO_MAX.
Proof.
  unfold set_new_rtt. destruct (no_update m) eqn:Hn; [by intros [= <- <-]|].
  assert (Hmin : forall t, RTO_MIN <= Z.min (Z.max t RTO_MIN) RTO_MAX <= RTO_MAX)
    by (intros t; unfold RTO_MIN, RTO_MAX; lia).
  intros H. destruct (srtt m =? 0); cbn [mbind res_bind] in H.
  - destruct (arith 64 _); cbn [mbind res_bind] in H; try done. injection H as <- <-. split; [done|split; [exact Hn|apply Hmin]].
  - repeat match type of H with
      | context [arith_i64 ?z] => destruct (arith_i64 z); cbn [mbind res_bind] in H; try done
      | context [arith ?w ?z] => destruct (arith w z); cbn [mbind res_bind] in H; try done
      end.
    injection H as <- <-. split; [done|split; [exact Hn|apply Hmin]].
Qed.

(** The back-off doubles up to [RTO_MAX], without overflow. *)
Lemma calculate_next_timeout_spec rto n : 0 <= rto < 2 ^ 33 ->
  calculate_next_timeout rto n =
    if (n <? 31)%nat then Z.min (rto * 2 ^ Z.of_nat n) RTO_MAX else RTO_MAX.
Proof.
  intros Hr. unfold calculate_next_timeout. destruct (Nat.ltb_spec n 31); [|done].
  rewrite Z.shiftl_mul_pow2 by lia. rewrite wrap_small; [done|]. unfold in_range.
  assert (2 ^ Z.of_nat n <= 2 ^ 31) by (apply Z.pow_le_mono_r; lia).
  assert (0 < 2 ^ Z.of_nat n) by (apply Z.pow_pos_nonneg; lia).
  change (2 ^ 64) with (2 ^ 33 * 2 ^ 31). nia.
Qed.

Lemma calculate_next_timeout_mono rto n n' : RTO_MIN <= rto <= RTO_MAX -> (n <= n')%nat ->
  rto <= calculate_next_timeout rto n <= calculate_next_timeout rto n' /\
  calculate_next_timeout rto n' <= RTO_MAX.
Proof.
  unfold RTO_MIN, RTO_MAX in *. intros Hr Hn.
  assert (0 <= rto < 2 ^ 33) by lia. rewrite !calculate_next_timeout_spec by done. unfold RTO_MAX.
  assert (0 < 2 ^ Z.of_nat n) by (apply Z.pow_pos_nonneg; lia).
  assert (2 ^ Z.of_nat n <= 2 ^ Z.of_nat n') by (apply Z.pow_le_mono_r; lia).
  destruct (Nat.ltb_spec n 31), (Nat.ltb_spec n' 31); nia.
Qed.

(** * rtx_timer.rs: the timer *)
Inductive RtxTimerId : Type := T1Init | T1Cookie | T2Shutdown | T3RTX | Reconfig.

#[export] Instance RtxTimerId_eq_dec : EqDecision RtxTimerId.
Proof. solve_decision. Defined.

(** A spawned loop: its channel, the [rto] it was started with, its count. *)
Record RtxTask := mkRtxTask { task_chan : nat; task_rto : Z; task_n_rtos : nat }.

Record RtxTimer := mkRtxTimer {
  rtx_id : RtxTimerId;
  rtx_max_retrans : nat;
  rtx_close : option nat;
  rtx_next_chan : nat;
  rtx_tasks : list RtxTask
}.

#[export] Instance RtxTimer_settable : Settable RtxTimer := fun t =>
  mkRtxTimer (rtx_id t) (rtx_max_retrans t) (rtx_close t) (rtx_next_chan t) (rtx_tasks t).

Definition RtxTimer_new (id : RtxTimerId) (max_retrans : nat) : RtxTimer :=
  mkRtxTimer id max_retrans None 0 [].

Definition rtx_start (t : RtxTimer) (rto : Z) : bool * RtxTimer :=
  match rtx_close t with
  | Some _ => (false, t)
  | None =>
      let chan := rtx_next_chan t in
      (true, t <| rtx_close := Some chan |> <| rtx_next_chan := S chan |>
               <| rtx_tasks ::= cons (mkRtxTask chan rto 0) |>)
  end.

Definition rtx_stop (t : RtxTimer) : RtxTimer := t <| rtx_close := None |>.

(** The callback a task makes when its sleep ends. *)
Inductive RtxEvent : Type := RetransmissionTimeout (n_rtos : nat) | RetransmissionFailure.

(** The [timer.as_mut()] branch of a task's loop: the callback to make, and
    the task if it goes on. *)
Definition task_fire (max_retrans : nat) (k : RtxTask) : RtxEvent * option RtxTask :=
  let n_rtos := S (task_n_rtos k) in
  if (max_retrans =? 0)%nat || (n_rtos <=? max_retrans)%nat
  then (RetransmissionTimeout n_rtos, Some (mkRtxTask (task_chan k) (task_rto k) n_rtos))
  else (RetransmissionFailure, None).

(** Steps of the tasks: the sleep of one of them ends (after the callback, a
    failed task clears [close_tx]), or its channel is seen closed. *)
Inductive rtx_task_step : RtxTimer -> option RtxEvent -> RtxTimer -> Prop :=
  | rtx_task_timeout t l1 k l2 ev k' :
      rtx_tasks t = l1 ++ k :: l2 -> task_fire (rtx_max_retrans t) k = (ev, Some k') ->
      rtx_task_step t (Some ev) (t <| rtx_tasks := l1 ++ k' :: l2 |>)
  | rtx_task_failure t l1 k l2 ev :
      rtx_tasks t = l1 ++ k :: l2 -> task_fire (rtx_max_retrans t) k = (ev, None) ->
      rtx_task_step t (Some ev) (t <| rtx_tasks := l1 ++ l2 |> <| rtx_close := None |>)
  | rtx_task_closed t l1 k l2 :
      rtx_tasks t = l1 ++ k :: l2 -> rtx_close t <> Some (task_chan k) ->
      rtx_task_step t None (t <| rtx_tasks := l1 ++ l2 |>).

(** The callbacks of a task that is never stopped, and how long each sleep is. *)
Fixpoint task_run (fuel : nat) (max_retrans : nat) (k : RtxTask) : list (Z * RtxEvent) :=
  match fuel with
  | O => []
  | S fuel' =>
      let interval := calculate_next_timeout (task_rto k) (task_n_rtos k) in
      match task_fire max_retrans k with
      | (ev, Some k') => (interval, ev) :: task_run fuel' max_retrans k'
      | (ev, None) => [(interval, ev)]
      end
  end.

Lemma task_run_spec max chan r : forall k n fuel, (0 < max)%nat -> (n + k = max)%nat -> (k < fuel)%nat ->
  task_run fuel max (mkRtxTask chan r n) =
    map (fun i => (calculate_next_timeout r i, RetransmissionTimeout (S i))) (seq n k)
    ++ [(calculate_next_timeout r max, RetransmissionFailure)].
Proof.
  induction k as [|k IH]; intros n fuel Hm Hn Hf; (destruct fuel as [|fuel]; [lia|]);
    cbn [task_run task_rto task_n_rtos]; unfold task_fire; cbn [task_n_rtos task_chan task_rto].
  - rewrite (proj2 (Nat.eqb_neq max 0)), leb_false by lia. cbn. by replace n with max by lia.
  - rewrite (leb_true (S n) max) by lia. rewrite orb_true_r. cbn [seq map app]. f_equal.
    apply IH; lia.
Qed.

(** * ack_timer.rs *)
Definition ACK_INTERVAL : Z := 200.

Record AckTimer := mkAckTimer {
  ack_close : option nat;
  ack_next_chan : nat;
  ack_tasks : list nat
}.

#[export] Instance AckTimer_settable : Settable AckTimer := fun t =>
  mkAckTimer (ack_close t) (ack_next_chan t) (ack_tasks t).

Definition AckTimer_new : AckTimer := mkAckTimer None 0 [].

Definition ack_start (t : AckTimer) : bool * AckTimer :=
  match ack_close t with
  | Some _ => (false, t)
  | None =>
      let chan := ack_next_chan t in
      (true, t <| ack_close := Some chan |> <| ack_next_chan := S chan |>
               <| ack_tasks ::= cons chan |>)
  end.

Definition ack_stop (t : AckTimer) : AckTimer := t <| ack_close := None |>.

(** Steps of the tasks: the sleep ends and [on_ack_timeout] is called (true),
    or the channel is seen closed (false); the task is over either way, and
    neither touches [close_tx]. *)
Inductive ack_task_step : AckTimer -> bool -> AckTimer -> Prop :=
  | ack_task_timeout t l1 k l2 : ack_tasks t = l1 ++ k :: l2 ->
      ack_task_step t true (t <| ack_tasks := l1 ++ l2 |>)
  | ack_task_closed t l1 k l2 : ack_tasks t = l1 ++ k :: l2 -> ack_close t <> Some k ->
      ack_task_step t false (t <| ack_tasks := l1 ++ l2 |>).

(** A delayed-ack timer that has fired stays "running": the task that called
    [on_ack_timeout] is over without clearing [close_tx], so no task is left,
    none can fire, and [start] does nothing until somebody calls [stop]. *)
Theorem ack_timer_fired_stuck t t1 : ack_close t = None -> ack_tasks t = [] ->
  ack_task_step (snd (ack_start t)) true t1 ->
  ack_tasks t1 = [] /\ ack_start t1 = (false, t1) /\ forall b t2, ~ ack_task_step t1 b t2.
Proof.
  intros Hc Ht Hstep. unfold ack_start in Hstep. rewrite Hc in Hstep. cbn [snd] in Hstep.
  inversion Hstep as [t0 l1 k l2 Htask|]; subst. unfold set in Htask. cbn in Htask. rewrite Ht in Htask.
  destruct l1 as [|x l1]; [|by destruct l1]. injection Htask as <- <-.
  split_and!; [done|done|]. intros b t2 H2. inversion H2 as [? l1' ? ? H|? l1' ? ? H]; subst;
    unfold set in H; cbn in H; by destruct l1'.
Qed.

(** The tasks that can still fire without having been told to stop: at most
    the one whose channel the timer holds. *)
Definition rtx_wf (t : RtxTimer) : Prop :=
  NoDup (map task_chan (rtx_tasks t)) /\
  Forall (fun k => (task_chan k < rtx_next_chan t)%nat) (rtx_tasks t) /\
  (forall c, rtx_close t = Some c -> (c < rtx_next_chan t)%nat).

Lemma rtx_start_wf t rto : rtx_wf t -> rtx_wf (snd (rtx_start t rto)).
Proof.
  intros (Hnd & Hall & Hc). unfold rtx_start. destruct (rtx_close t) as [c|] eqn:Ec.
  { cbn [snd]. unfold rtx_wf. rewrite Ec. auto. }
  unfold rtx_wf, set. cbn. split_and!.
  - constructor; [|done]. intros (k & Hk & Hin)%list_elem_of_In%in_map_iff.
    rewrite Forall_forall in Hall. apply list_elem_of_In in Hin. specialize (Hall k Hin). lia.
  - constructor; [cbn; lia|]. eapply Forall_impl; [exact Hall|]. cbn. lia.
  - intros c' [= <-]. lia.
Qed.

Lemma rtx_task_step_wf t ev t' : rtx_wf t -> rtx_task_step t ev t' -> rtx_wf t'.
Proof.
  intros (Hnd & Hall & Hc) Hstep.
  destruct Hstep as [t l1 k l2 ev k' Ht Hf|t l1 k l2 ev Ht Hf|t l1 k l2 Ht Hne];
    rewrite Ht in Hnd, Hall; unfold rtx_wf, set; cbn; rewrite ?map_app in *; cbn in *.
  - assert (Hk : task_chan k' = task_chan k).
    { unfold task_fire in Hf. destruct (_ || _); [|done]. by injection Hf as <- <-. }
    apply Forall_app in Hall as [Ha1 Ha2]. inversion_clear Ha2. rewrite Hk.
    split_and!; [done| |done]. apply Forall_app. split; [done|]. constructor; [by rewrite Hk|done].
  - apply Forall_app in Hall as [Ha1 Ha2]. inversion_clear Ha2.
    rewrite <- Permutation_middle in Hnd. apply NoDup_cons in Hnd as [_ Hnd].
    split_and!; [done|by apply Forall_app|done].
  - apply Forall_app in Hall as [Ha1 Ha2]. inversion_clear Ha2.
    rewrite <- Permutation_middle in Hnd. apply NoDup_cons in Hnd as [_ Hnd].
    split_and!; [done|by apply Forall_app|done].
Qed.

(** * Timers in use *)
Inductive rtx_step : RtxTimer -> RtxTimer -> Prop :=
  | rtx_step_start t rto : rtx_step t (snd (rtx_start t rto))
  | rtx_step_stop t : rtx_step t (rtx_stop t)
  | rtx_step_task t ev t' : rtx_task_step t ev t' -> rtx_step t t'.

Lemma rtx_step_wf t t' : rtx_step t t' -> rtx_wf t -> rtx_wf t'.
Proof.
  destruct 1 as [t rto|t|t ev t' Hs]; intros Ht.
  - by apply rtx_start_wf.
  - destruct Ht as (H1 & H2 & _). done.
  - by eapply rtx_task_step_wf.
Qed.

(** Whatever the interleaving of [start], [stop] and the timer's tasks, at
    most one task is live (holds the channel that [close_tx] holds): all the
    others have been told to stop.  A [start] of a running timer changes
    nothing, and after [stop] no task is live. *)
Theorem rtx_timer_one_live_task id max t : rtc rtx_step (RtxTimer_new id max) t ->
  let live t := filter (fun k => rtx_close t = Some (task_chan k)) (rtx_tasks t) in
  (length (live t) <= 1)%nat /\
  (forall rto, rtx_close t <> None -> rtx_start t rto = (false, t)) /\
  live (rtx_stop t) = [].
Proof.
  intros Hr live. assert (Hwf : rtx_wf t).
  { assert (H : rtx_wf (RtxTimer_new id max)) by (split_and!; [constructor|constructor|done]).
    induction Hr; [done|]. by eapply IHHr, rtx_step_wf. }
  split_and!.
  - destruct Hwf as (Hnd & _ & _). unfold live. clear -Hnd.
    induction (rtx_tasks t) as [|k l IH]; [cbn; lia|]. cbn in Hnd. apply NoDup_cons in Hnd as [Hk Hnd].
    destruct (decide (rtx_close t = Some (task_chan k))) as [He|He];
      [|rewrite filter_cons_False by done; auto].
    rewrite filter_cons_True by done. rewrite list_filter_none; [done|].
    apply Forall_forall. intros k' Hk' He'. apply Hk. rewrite He in He'. injection He' as He'.
    rewrite He'. by apply (list_elem_of_fmap_2 task_chan).
  - intros rto Hc. unfold rtx_start. by destruct (rtx_close t).
  - unfold live. apply list_filter_none. by apply Forall_forall.
Qed.

(** The schedule of a retransmission timer that is not stopped.  With a
    limit of [max] retransmissions (8 for INIT and COOKIE ECHO) the task calls
    [on_retransmission_timeout] [max] times and then
    [on_retransmission_failure] once; without a limit it never fails.  The
    sleeps start at the RTO, double, never decrease and never exceed one
    minute. *)
Theorem rtx_timer_schedule max chan r n : RTO_MIN <= r <= RTO_MAX ->
  let run := task_run n max (mkRtxTask chan r 0) in
  ((0 < max < n)%nat -> snd <$> run = map RetransmissionTimeout (seq 1 max) ++ [RetransmissionFailure]) /\
  (max = 0%nat -> snd <$> run = map RetransmissionTimeout (seq 1 n)) /\
  Forall (fun i => r <= i <= RTO_MAX) (fst <$> run) /\
  (forall i t t', (fst <$> run) !! i = Some t -> (fst <$> run) !! S i = Some t' ->
     t' = Z.min (2 * t) RTO_MAX).
Proof.
  intros Hr run.
  assert (Hrun : forall n k, max <> 0%nat \/ max = 0%nat ->
    forall i t, (fst <$> task_run n max (mkRtxTask chan r k)) !! i = Some t -> t = calculate_next_timeout r (k + i)).
  { clear n run. induction n as [|n IH]; intros k Hmax i t; cbn [task_run]; [done|].
    unfold task_fire. cbn [task_rto task_n_rtos task_chan]. destruct (_ || _); destruct i as [|i]; cbn.
    - intros [= <-]. by rewrite Nat.add_0_r.
    - intros H. rewrite (IH (S k) Hmax i t H). f_equal. lia.
    - intros [= <-]. by rewrite Nat.add_0_r.
    - done. }
  split_and!.
  - intros Hn. unfold run. rewrite (task_run_spec max chan r max 0 n) by lia.
    rewrite fmap_app. f_equal. clear. change (map RetransmissionTimeout (seq 1 max))
      with (RetransmissionTimeout <$> seq 1 max). rewrite <- fmap_S_seq.
    change (map ?f (seq 0 max)) with (f <$> seq 0 max). by rewrite <- !list_fmap_compose.
  - intros ->. unfold run. generalize 0%nat at 2 3. clear. induction n as [|n IH]; intros k; cbn; [done|].
    f_equal. apply IH.
  - apply Forall_lookup. intros i t Ht. apply Hrun in Ht as ->; [|lia].
    destruct (calculate_next_timeout_mono r (0 + i) (0 + i) Hr ltac:(lia)). lia.
  - intros i t t' Ht Ht'. apply Hrun in Ht as ->; [|lia]. apply Hrun in Ht' as ->; [|lia].
    unfold RTO_MIN, RTO_MAX in *. rewrite !calculate_next_timeout_spec by lia. unfold RTO_MAX. cbn [Nat.add].
    pose proof (Z.pow_pos_nonneg 2 (Z.of_nat i) ltac:(lia) ltac:(lia)).
    rewrite Nat2Z.inj_succ, Z.pow_succ_r by lia.
    assert (Hbig : (31 <= S i)%nat -> 2 ^ 30 <= 2 ^ Z.of_nat i) by (intros; apply Z.pow_le_mono_r; lia).
    destruct (Nat.ltb_spec i 31), (Nat.ltb_spec (S i) 31); [nia|specialize (Hbig ltac:(lia)); nia|lia|lia].
Qed.

(** * The theorems at concrete inputs *)
Lemma rtx_timer_schedule_witness :
  snd <$> task_run 9 MAX_INIT_RETRANS (mkRtxTask 0 3000 0)
  = map RetransmissionTimeout (seq 1 8) ++ [RetransmissionFailure].
Proof. apply (rtx_timer_schedule 8 0 3000 9); [by vm_compute|lia]. Defined.

Lemma rtx_timer_one_live_task_witness :
  rtx_start (snd (rtx_start (RtxTimer_new T3RTX 0) 3000)) 1000
  = (false, snd (rtx_start (RtxTimer_new T3RTX 0) 3000)).
Proof.
  apply (rtx_timer_one_live_task T3RTX 0); [|done]. apply rtc_once, rtx_step_start.
Defined.

Lemma set_new_rtt_bounds_witness : exists s m',
  set_new_rtt (P := dev_profile) RtoManager_new 400 = Ok (s, m') /\ RTO_MIN <= rto m' <= RTO_MAX.
Proof.
  destruct (set_new_rtt (P := dev_profile) RtoManager_new 400) as [[s m']| | |] eqn:H;
    [|vm_compute in H; discriminate..].
  destruct (set_new_rtt_bounds (P := dev_profile) RtoManager_new 400 s m' H) as (_ & _ & Hb).
  exact (ex_intro _ s (ex_intro _ m' (conj eq_refl Hb))).
Defined.

Lemma ack_timer_fired_stuck_witness : exists t1,
  ack_task_step (snd (ack_start AckTimer_new)) true t1 /\ ack_start t1 = (false, t1).
Proof.
  exists (mkAckTimer (Some 0%nat) 1 []).
  assert (H : ack_task_step (snd (ack_start AckTimer_new)) true (mkAckTimer (Some 0%nat) 1 []))
    by exact (ack_task_timeout (snd (ack_start AckTimer_new)) [] 0 [] eq_refl).
  split; [exact H|]. apply (ack_timer_fired_stuck AckTimer_new _ eq_refl eq_refl H).
Defined.
