(* ===== verification/Stream.v ===== *)
(** SCTP streams ([sctp/stream/mod.rs]).

    What a stream shares with its association (the [Arc]s of the source) is
    the record [Shared]; its own atomics and its reassembly queue are the
    record [Stream].  The calls with [&self] that change either are programs
    over the pair of them.  [read_sctp] blocks, so it is one attempt
    ([read_attempt]) and a step relation for the reader's waiting.  At the end of the
    file [PollStream], which makes a stream of bytes of it. *)
From S2P Require Import Prelude Serial Errors Param Chunk ChunkLaws PayloadQueue PendingQueue ReassemblyQueue.

(** * The state of the association (association/mod.rs), as shared with its streams *)
Inductive AssociationState : Type :=
  | Closed | CookieWait | CookieEchoed | Established | ShutdownAckSent | ShutdownPending
  | ShutdownReceived | ShutdownSent.

#[export] Instance AssociationState_eq_dec : EqDecision AssociationState.
Proof. solve_decision. Defined.

Definition AssociationState_as_u8 (s : AssociationState) : Z :=
  match s with
  | Closed => 0 | CookieWait => 1 | CookieEchoed => 2 | Established => 3 | ShutdownAckSent => 4
  | ShutdownPending => 5 | ShutdownReceived => 6 | ShutdownSent => 7
  end.

Definition AssociationState_from (v : Z) : AssociationState :=
  match v with
  | 1 => CookieWait | 2 => CookieEchoed | 3 => Established | 4 => ShutdownAckSent
  | 5 => ShutdownPending | 6 => ShutdownReceived | 7 => ShutdownSent | _ => Closed
  end.

(** [sh_awake] is the one-place channel that wakes the write loop; [sh_flags]
    and [sh_next_loc] are the store of the chunks' shared flags. *)
Record Shared := mkShared {
  sh_max_message_size : Z;
  sh_state : Z;
  sh_awake : bool;
  sh_pending_queue : PendingQueue;
  sh_flags : Flags;
  sh_next_loc : nat
}.

#[export] Instance Shared_settable : Settable Shared := fun s =>
  mkShared (sh_max_message_size s) (sh_state s) (sh_awake s) (sh_pending_queue s) (sh_flags s)
    (sh_next_loc s).

(** [st_read_permit] is the stored permit of the stream's [Notify];
    [st_low_handler] tells whether a callback is installed and
    [st_low_calls] counts its calls. *)
Record Stream := mkStream {
  st_max_payload_size : Z;
  st_stream_identifier : Z;
  st_reassembly_queue : ReassemblyQueue;
  st_sequence_number : Z;
  st_read_permit : bool;
  st_closed : bool;
  st_buffered_amount : Z;
  st_buffered_amount_low : Z;
  st_low_handler : bool;
  st_low_calls : nat
}.

#[export] Instance Stream_settable : Settable Stream := fun s =>
  mkStream (st_max_payload_size s) (st_stream_identifier s) (st_reassembly_queue s)
    (st_sequence_number s) (st_read_permit s) (st_closed s) (st_buffered_amount s)
    (st_buffered_amount_low s) (st_low_handler s) (st_low_calls s).

Definition Stream_new (stream_identifier max_payload_size : Z) : Stream :=
  mkStream max_payload_size stream_identifier (ReassemblyQueue_new stream_identifier) 0 false false
    0 0 false 0.

Definition get_state (sh : Shared) : AssociationState := AssociationState_from (sh_state sh).

Definition awake_write_loop (sh : Shared) : Shared := sh <| sh_awake := true |>.

Definition set_buffered_amount_low_threshold (s : Stream) (th : Z) : Stream :=
  s <| st_buffered_amount_low := th |>.

Definition on_buffered_amount_low (s : Stream) : Stream := s <| st_low_handler := true |>.

Definition notify_one (s : Stream) : Stream := s <| st_read_permit := true |>.

Definition notify_if (readable : bool) (s : Stream) : Stream := if readable then notify_one s else s.

Definition on_buffer_released (s : Stream) (n_bytes_released : Z) : Stream :=
  if n_bytes_released <=? 0 then s
  else
    let from_amount := st_buffered_amount s in
    let new_amount := if from_amount <? n_bytes_released then 0 else from_amount - n_bytes_released in
    let s := s <| st_buffered_amount := new_amount |> in
    if (from_amount >? st_buffered_amount_low s) && (new_amount <=? st_buffered_amount_low s)
       && st_low_handler s
    then s <| st_low_calls ::= S |>
    else s.

Definition get_num_bytes_in_reassembly_queue (s : Stream) : Z :=
  rq_get_num_bytes (st_reassembly_queue s).

(** The loop of [packetize], from offset [i]; every round takes at least one
    byte, so the length of the message is fuel enough. *)
Fixpoint packetize_loop (fuel : nat) (s : Stream) (now : Z) (ppi : PayloadProtocolIdentifier)
    (head_abandoned head_all_inflight : nat) (i : nat) (raw : bytes) :
    res Error (list ChunkPayloadData) :=
  match raw with
  | [] => Ok []
  | _ =>
      match fuel with
      | O => OutOfFuel
      | S fuel' =>
          let fragment_size := Nat.min (Z.to_nat (st_max_payload_size s)) (length raw) in
          let user_data := take fragment_size raw in
          let rest := drop fragment_size raw in
          let chunk := mkChunkPayloadData
            (bool_decide (ppi <> Dcep)) (i =? 0)%nat (length raw - fragment_size =? 0)%nat false
            0 (st_stream_identifier s) (st_sequence_number s) ppi user_data
            false 0 now 0 head_abandoned head_all_inflight false in
          chunks ← packetize_loop fuel' s now ppi head_abandoned head_all_inflight
                     (i + fragment_size)%nat rest;
          Ok (chunk :: chunks)
      end
  end.

Section ops.
Context {P : Profile}.

Definition stream_handle_data (s : Stream) (pd : ChunkPayloadData) : res Error Stream :=
  '(pushed, rq) ← rq_push (st_reassembly_queue s) pd;
  let s := s <| st_reassembly_queue := rq |> in
  readable ← match pushed with true => is_readable rq | false => Ok false end;
  Ok (notify_if readable s).

Definition handle_forward_tsn_for_unordered (s : Stream) (new_cumulative_tsn : Z) :
    res Error Stream :=
  let rq := forward_tsn_for_unordered (st_reassembly_queue s) new_cumulative_tsn in
  let s := s <| st_reassembly_queue := rq |> in
  readable ← is_readable rq;
  Ok (notify_if readable s).

Abbreviation StreamM A := (ST (Shared * Stream) Error A).

Definition modify_shared (f : Shared -> Shared) : StreamM unit :=
  st_modify (fun '(sh, s) => (f sh, s)).
Definition modify_stream (f : Stream -> Stream) : StreamM unit :=
  st_modify (fun '(sh, s) => (sh, f s)).

(** [packetize] allocates one pair of flags for all the fragments. *)
Definition packetize (now : Z) (raw : bytes) (ppi : PayloadProtocolIdentifier) :
    StreamM (list ChunkPayloadData) :=
  s ← st_get snd;
  loc ← st_get (fun st => sh_next_loc (fst st));
  _ ← modify_shared (fun sh => sh <| sh_next_loc := S (S loc) |>);
  chunks ← st_lift (packetize_loop (length raw) s now ppi loc (S loc) 0 raw);
  _ ← st_when (bool_decide (ppi = Dcep))
        (modify_stream (fun s => s <| st_sequence_number ::= fun n => wrap 16 (n + 1) |>));
  _ ← modify_stream (fun s =>
        s <| st_buffered_amount ::= fun n => wrap 64 (n + Z.of_nat (length raw)) |>);
  mret chunks.

Definition send_payload_data (chunks : list ChunkPayloadData) : StreamM unit :=
  state ← st_get (fun st => get_state (fst st));
  if decide (state <> Established) then st_raise ErrPayloadDataStateNotExist
  else
    _ ← modify_shared (fun sh => sh <| sh_pending_queue ::= fun q => foldl pending_push q chunks |>);
    modify_shared awake_write_loop.

Definition write_sctp (now : Z) (p : bytes) (ppi : PayloadProtocolIdentifier) : StreamM Z :=
  max_message_size ← st_get (fun st => sh_max_message_size (fst st));
  if Z.of_nat (length p) >? max_message_size then st_raise ErrOutboundPacketTooLarge
  else
    state ← st_get (fun st => get_state (fst st));
    match state with
    | ShutdownSent | ShutdownAckSent | ShutdownPending | ShutdownReceived =>
        st_raise ErrStreamClosed
    | _ =>
        chunks ← packetize now p ppi;
        _ ← send_payload_data chunks;
        mret (Z.of_nat (length p))
    end.

Definition write (now : Z) (p : bytes) : StreamM Z := write_sctp now p Binary.

Definition send_reset_request (now : Z) (stream_identifier : Z) : StreamM unit :=
  state ← st_get (fun st => get_state (fst st));
  if decide (state <> Established) then st_raise ErrResetPacketInStateNotExist
  else
    loc ← st_get (fun st => sh_next_loc (fst st));
    _ ← modify_shared (fun sh => sh <| sh_next_loc := S (S loc) |>);
    let c := (ChunkPayloadData_default (mkFresh now loc))
      <| pd_stream_identifier := stream_identifier |>
      <| pd_beginning_fragment := true |> <| pd_ending_fragment := true |>
      <| pd_user_data := [] |> in
    _ ← modify_shared (fun sh => sh <| sh_pending_queue ::= fun q => pending_push q c |>);
    modify_shared awake_write_loop.

Definition stream_close (now : Z) : StreamM unit :=
  closed ← st_get (fun st => st_closed (snd st));
  _ ← st_when (negb closed)
        (s ← st_get snd; send_reset_request now (st_stream_identifier s));
  modify_stream (fun s => s <| st_closed := true |>).

(** One round of the loop of [read_sctp]: [Ok None] is the end of the round
    at [read_notifier.notified().await]. *)
Definition read_attempt : ST (Stream * bytes) Error (option (nat * PayloadProtocolIdentifier)) :=
  fun '(s, p) =>
    if st_closed s then (Err ErrStreamClosed, (s, p))
    else
      let '(r, (rq, p)) := rq_read (st_reassembly_queue s, p) in
      let s := s <| st_reassembly_queue := rq |> in
      match r with
      | Ok nppi => (Ok (Some nppi), (s, p))
      | Err ErrShortBuffer => (Err ErrShortBuffer, (s, p))
      | Err _ => (Ok None, (s, p))
      | Panic => (Panic, (s, p))
      | OutOfFuel => (OutOfFuel, (s, p))
      end.
End ops.

(** * Fragmentation *)
Record fragmented (s : Stream) (now : Z) (ppi : PayloadProtocolIdentifier) (ab af i : nat) (raw : bytes)
    (chunks : list ChunkPayloadData) : Prop := {
  fg_data : flat_map pd_user_data chunks = raw;
  fg_begin j c : chunks !! j = Some c -> pd_beginning_fragment c = (i =? 0)%nat && (j =? 0)%nat;
  fg_end j c : chunks !! j = Some c -> pd_ending_fragment c = (S j =? length chunks)%nat;
  fg_all c : c ∈ chunks ->
    pd_unordered c = bool_decide (ppi <> Dcep) /\ pd_stream_identifier c = st_stream_identifier s /\
    pd_stream_sequence_number c = st_sequence_number s /\ pd_payload_type c = ppi /\
    pd_abandoned c = ab /\ pd_all_inflight c = af /\ pd_nsent c = 0 /\ pd_acked c = false /\
    pd_retransmit c = false /\ pd_since c = now /\ pd_miss_indicator c = 0 /\ pd_tsn c = 0 /\
    pd_immediate_sack c = false /\
    (0 < length (pd_user_data c))%nat /\ Z.of_nat (length (pd_user_data c)) <= st_max_payload_size s;
  fg_nonempty : raw <> [] -> chunks <> []
}.

Lemma packetize_loop_spec fuel : forall s now ppi ab af i raw, 0 < st_max_payload_size s ->
  (length raw <= fuel)%nat ->
  exists chunks, packetize_loop fuel s now ppi ab af i raw = Ok chunks /\
    fragmented s now ppi ab af i raw chunks.
Proof.
  induction fuel as [|fuel IH]; intros s now ppi ab af i raw Hmax Hf.
  { destruct raw; [|simpl in Hf; lia]. exists []. split; [done|].
    constructor; try done. intros c Hc. by apply elem_of_nil in Hc. }
  destruct raw as [|b raw0]; [exists []; split; [done|]; constructor; try done;
    intros c Hc; by apply elem_of_nil in Hc|].
  cbn [packetize_loop]. set (raw := b :: raw0) in *.
  set (n := Nat.min (Z.to_nat (st_max_payload_size s)) (length raw)).
  assert (Hpos : (0 < length raw)%nat) by (simpl; lia).
  assert (Hrl : length raw = S (length raw0)) by done.
  assert (Hn : (0 < n <= length raw)%nat) by (unfold n; lia).
  destruct (IH s now ppi ab af (i + n)%nat (drop n raw) Hmax) as (chunks & Hok & Hfg).
  { rewrite length_drop. lia. }
  rewrite Hok. cbn [mbind res_bind]. eexists. split; [done|].
  assert (Hlt : length (take n raw) = n) by (rewrite length_take; lia).
  constructor.
  - cbn [flat_map pd_user_data]. rewrite (fg_data _ _ _ _ _ _ _ _ Hfg). apply take_drop.
  - intros [|j] c; cbn [lookup list_lookup].
    + intros [= <-]. cbn. by rewrite andb_true_r.
    + intros Hj. rewrite (fg_begin _ _ _ _ _ _ _ _ Hfg j c Hj).
      rewrite (proj2 (Nat.eqb_neq (i + n) 0)) by lia. cbn. by rewrite andb_false_r.
  - intros [|j] c; cbn [lookup list_lookup].
    + intros [= <-]. cbn [pd_ending_fragment]. apply eq_true_iff_eq. rewrite !Nat.eqb_eq.
      destruct chunks as [|c1 cs].
      * pose proof (fg_data _ _ _ _ _ _ _ _ Hfg) as Hd.
        apply (f_equal length) in Hd. rewrite length_drop in Hd.
        change (length (flat_map pd_user_data [])) with 0%nat in Hd. split; [done|intros _; lia].
      * assert (drop n raw <> []).
        { intros Hnil. pose proof (fg_data _ _ _ _ _ _ _ _ Hfg) as Hd. rewrite Hnil in Hd.
          pose proof (fg_all _ _ _ _ _ _ _ _ Hfg c1 ltac:(by left)) as Ha.
          apply (f_equal length) in Hd. cbn in Hd. rewrite length_app in Hd. lia. }
        assert (length (drop n raw) <> 0)%nat by (intros ?%nil_length_inv; done).
        rewrite length_drop in H0. split; [lia|intros HH; cbn [length] in HH; lia].
    + intros Hj. rewrite (fg_end _ _ _ _ _ _ _ _ Hfg j c Hj). done.
  - intros c [->|Hc]%elem_of_cons; [|by apply (fg_all _ _ _ _ _ _ _ _ Hfg)].
    cbn. split_and!; try done; rewrite Hlt; unfold n; lia.
  - done.
Qed.

Lemma fragmented_brackets s now ppi ab af raw chunks : raw <> [] ->
  fragmented s now ppi ab af 0 raw chunks -> brackets false chunks = Some false.
Proof.
  intros Hne Hfg.
  assert (H : forall l n, length chunks = (n + length l)%nat -> l <> [] ->
    (forall j c, l !! j = Some c -> pd_beginning_fragment c = (n + j =? 0)%nat /\
       pd_ending_fragment c = (S (n + j) =? length chunks)%nat) ->
    brackets (negb (n =? 0)%nat) l = Some false).
  { induction l as [|c l IH]; intros n Hlen Hl Hall; [done|].
    destruct (Hall 0%nat c eq_refl) as [Hb He]. rewrite Nat.add_0_r in Hb, He.
    cbn [brackets]. rewrite Hb, negb_involutive, Bool.eqb_reflx, He.
    destruct l as [|c' l].
    - cbn [length] in Hlen. rewrite (proj2 (Nat.eqb_eq _ _)) by lia. done.
    - cbn [length] in Hlen. rewrite (proj2 (Nat.eqb_neq _ _)) by lia.
      apply (IH (S n)); [cbn [length]; lia|done|]. intros j x Hx.
      pose proof (Hall (S j) x Hx) as HS. by rewrite Nat.add_succ_r in HS. }
  apply (H chunks 0%nat); [done|by apply (fg_nonempty _ _ _ _ _ _ _ _ Hfg)|].
  intros j c Hj. rewrite (fg_begin _ _ _ _ _ _ _ _ Hfg j c Hj), (fg_end _ _ _ _ _ _ _ _ Hfg j c Hj).
  done.
Qed.

(** * What [write_sctp] does, branch by branch *)
Section write.
Context {P : Profile}.

Lemma write_sctp_too_large now p ppi sh s : Z.of_nat (length p) > sh_max_message_size sh ->
  write_sctp now p ppi (sh, s) = (Err ErrOutboundPacketTooLarge, (sh, s)).
Proof.
  intros H. unfold write_sctp, st_get, mbind, st_bind. cbn [fst].
  destruct (Z.gtb_spec (Z.of_nat (length p)) (sh_max_message_size sh)); [done|lia].
Qed.

(** The state that a write leaves, whether or not the chunks were accepted. *)
Definition after_packetize (sh : Shared) (s : Stream) (p : bytes) (ppi : PayloadProtocolIdentifier) :
    Shared * Stream :=
  (sh <| sh_next_loc := S (S (sh_next_loc sh)) |>,
   let s := if decide (ppi = Dcep) then s <| st_sequence_number ::= fun n => wrap 16 (n + 1) |> else s in
   s <| st_buffered_amount ::= fun n => wrap 64 (n + Z.of_nat (length p)) |>).

Lemma packetize_spec now p ppi sh s : 0 < st_max_payload_size s ->
  exists chunks, packetize now p ppi (sh, s) = (Ok chunks, after_packetize sh s p ppi) /\
    fragmented s now ppi (sh_next_loc sh) (S (sh_next_loc sh)) 0 p chunks.
Proof.
  intros Hmax.
  destruct (packetize_loop_spec (length p) s now ppi (sh_next_loc sh) (S (sh_next_loc sh)) 0 p Hmax)
    as (chunks & Hok & Hfg); [lia|].
  exists chunks. split; [|done]. unfold packetize, after_packetize, modify_shared, modify_stream, st_when.
  st_run. rewrite Hok. destruct (decide (ppi = Dcep)) as [->|Hne].
  - by rewrite bool_decide_true by done.
  - by rewrite bool_decide_false by done.
Qed.

Lemma write_sctp_established now p ppi sh s : 0 < st_max_payload_size s ->
  Z.of_nat (length p) <= sh_max_message_size sh -> get_state sh = Established ->
  exists chunks, fragmented s now ppi (sh_next_loc sh) (S (sh_next_loc sh)) 0 p chunks /\
    write_sctp now p ppi (sh, s) = (Ok (Z.of_nat (length p)),
      ((fst (after_packetize sh s p ppi))
         <| sh_pending_queue ::= fun q => foldl pending_push q chunks |> <| sh_awake := true |>,
       snd (after_packetize sh s p ppi))).
Proof.
  intros Hmax Hlen Hst. destruct (packetize_spec now p ppi sh s Hmax) as (chunks & Hp & Hfg).
  exists chunks. split; [done|]. unfold write_sctp, st_get, mbind, st_bind in *. cbn [fst].
  destruct (Z.gtb_spec (Z.of_nat (length p)) (sh_max_message_size sh)); [lia|]. cbn [fst].
  unfold get_state in *. rewrite Hst, Hp. unfold send_payload_data, st_get, mbind, st_bind.
  unfold after_packetize in *. cbn [fst snd]. unfold get_state, set. cbn [sh_state].
  rewrite decide_False; [done|congruence].
Qed.

(** A write in a state without data transfer fails, but the stream's counters
    have been advanced already. *)
Lemma write_sctp_not_established now p ppi sh s : 0 < st_max_payload_size s ->
  Z.of_nat (length p) <= sh_max_message_size sh ->
  get_state sh = Closed \/ get_state sh = CookieWait \/ get_state sh = CookieEchoed ->
  write_sctp now p ppi (sh, s) = (Err ErrPayloadDataStateNotExist, after_packetize sh s p ppi).
Proof.
  intros Hmax Hlen Hst. destruct (packetize_spec now p ppi sh s Hmax) as (chunks & Hp & Hfg).
  unfold write_sctp, st_get, mbind, st_bind in *. cbn [fst].
  destruct (Z.gtb_spec (Z.of_nat (length p)) (sh_max_message_size sh)); [lia|]. cbn [fst].
  assert (Hs : get_state (fst (after_packetize sh s p ppi)) = get_state sh) by done.
  destruct Hst as [Hst|[Hst|Hst]]; rewrite Hst, Hp; unfold send_payload_data, st_get, mbind, st_bind;
    rewrite Hs, decide_True by congruence; by destruct (after_packetize sh s p ppi).
Qed.

Lemma write_sctp_shutdown now p ppi sh s : Z.of_nat (length p) <= sh_max_message_size sh ->
  get_state sh ∈ [ShutdownSent; ShutdownAckSent; ShutdownPending; ShutdownReceived] ->
  write_sctp now p ppi (sh, s) = (Err ErrStreamClosed, (sh, s)).
Proof.
  intros Hlen Hst. unfold write_sctp, st_get, mbind, st_bind. cbn [fst].
  destruct (Z.gtb_spec (Z.of_nat (length p)) (sh_max_message_size sh)); [lia|]. cbn [fst].
  repeat (apply elem_of_cons in Hst as [->|Hst]; [done|]). by apply elem_of_nil in Hst.
Qed.

(** The queue stays a sequence of whole messages. *)
Lemma fragmented_whole s now ppi ab af raw chunks q : fragmented s now ppi ab af 0 raw chunks ->
  pending_whole q -> pending_whole (foldl pending_push q chunks).
Proof.
  intros Hfg Hq. apply (pending_push_whole q _ (bool_decide (ppi <> Dcep))); [done| |].
  - apply Forall_forall. intros c Hc. by apply (fg_all _ _ _ _ _ _ _ _ Hfg).
  - intros Hne. eapply fragmented_brackets; [|done]. intros ->.
    destruct chunks as [|c cs]; [done|].
    pose proof (fg_data _ _ _ _ _ _ _ _ Hfg) as Hd.
    pose proof (fg_all _ _ _ _ _ _ _ _ Hfg c ltac:(by left)) as Ha.
    apply (f_equal length) in Hd. cbn in Hd. rewrite length_app in Hd. lia.
Qed.

Lemma write_sctp_cases now p ppi sh s : 0 < st_max_payload_size s ->
  let too_large := Z.of_nat (length p) > sh_max_message_size sh in
  let outcome := write_sctp now p ppi (sh, s) in
  (too_large -> outcome = (Err ErrOutboundPacketTooLarge, (sh, s))) /\
  (~ too_large ->
   match get_state sh with
   | ShutdownSent | ShutdownAckSent | ShutdownPending | ShutdownReceived =>
       outcome = (Err ErrStreamClosed, (sh, s))
   | Closed | CookieWait | CookieEchoed =>
       outcome = (Err ErrPayloadDataStateNotExist, after_packetize sh s p ppi)
   | Established =>
       exists chunks, fragmented s now ppi (sh_next_loc sh) (S (sh_next_loc sh)) 0 p chunks /\
         outcome = (Ok (Z.of_nat (length p)),
           ((fst (after_packetize sh s p ppi))
              <| sh_pending_queue ::= fun q => foldl pending_push q chunks |> <| sh_awake := true |>,
            snd (after_packetize sh s p ppi)))
   end).
Proof.
  intros Hmax too_large outcome. split; [apply write_sctp_too_large|]. intros Hl.
  destruct (get_state sh) eqn:Hst.
  4: apply write_sctp_established; [done|unfold too_large in Hl; lia|done].
  1-3: apply write_sctp_not_established; [done|unfold too_large in Hl; lia|auto].
  all: apply write_sctp_shutdown; [unfold too_large in Hl; lia|rewrite Hst; set_solver].
Qed.

Lemma write_sctp_whole now p ppi sh s r sh' s' : 0 < st_max_payload_size s ->
  pending_whole (sh_pending_queue sh) ->
  write_sctp now p ppi (sh, s) = (r, (sh', s')) ->
  pending_whole (sh_pending_queue sh') /\ sh_state sh' = sh_state sh /\ r <> OutOfFuel.
Proof.
  intros Hmax Hwf Hw. destruct (write_sctp_cases now p ppi sh s Hmax) as [H1 H2].
  rewrite Hw in H1, H2.
  destruct (Z_gt_dec (Z.of_nat (length p)) (sh_max_message_size sh)) as [Hl|Hl].
  { specialize (H1 Hl). by injection H1 as -> -> ->. }
  specialize (H2 Hl). destruct (get_state sh).
  4:{ destruct H2 as (chunks & Hfg & [= -> -> ->]). cbn. split; [|done]. by eapply fragmented_whole. }
  all: by injection H2 as -> -> ->.
Qed.

(** The outcomes of [write_sctp], for a message of any length and every
    state of the association: a message above the limit and a write during the
    shutdown are refused and change nothing; before the association is
    established (or when it is closed) the write fails although the buffered
    amount and, for DCEP messages, the sequence number have advanced; when it is
    established the message is cut into fragments that carry it - each within
    the maximal payload size, the first and only the first marked as beginning,
    the last and only the last as ending - which are queued in order, and the
    write loop is woken. *)
Theorem write_sctp_spec now p ppi sh s : 0 < st_max_payload_size s ->
  match write_sctp now p ppi (sh, s) with
  | (Err ErrOutboundPacketTooLarge, st) =>
      Z.of_nat (length p) > sh_max_message_size sh /\ st = (sh, s)
  | (Err ErrStreamClosed, st) =>
      get_state sh ∈ [ShutdownSent; ShutdownAckSent; ShutdownPending; ShutdownReceived] /\ st = (sh, s)
  | (Err ErrPayloadDataStateNotExist, st) =>
      get_state sh ∈ [Closed; CookieWait; CookieEchoed] /\ st = after_packetize sh s p ppi
  | (Ok n, (sh', s')) =>
      get_state sh = Established /\ n = Z.of_nat (length p) /\
      st_buffered_amount s' = wrap 64 (st_buffered_amount s + n) /\ sh_awake sh' = true /\
      exists chunks, fragmented s now ppi (sh_next_loc sh) (S (sh_next_loc sh)) 0 p chunks /\
        sh_pending_queue sh' = foldl pending_push (sh_pending_queue sh) chunks
  | _ => False
  end.
Proof.
  intros Hmax. destruct (write_sctp_cases now p ppi sh s Hmax) as [H1 H2].
  destruct (Z_gt_dec (Z.of_nat (length p)) (sh_max_message_size sh)) as [Hl|Hl]; [by rewrite H1|].
  specialize (H2 Hl). destruct (get_state sh) eqn:Hst.
  4:{ destruct H2 as (chunks & Hfg & ->). split_and!; try done; [by destruct ppi|]. eauto. }
  all: rewrite H2; split; [set_solver|done].
Qed.
End write.

(** [on_buffer_released]: the buffered amount goes down by what was released, never below zero, and the
    callback runs exactly when the amount crosses the threshold downwards. *)
Theorem on_buffer_released_spec s n : 0 <= st_buffered_amount s ->
  st_buffered_amount (on_buffer_released s n) = Z.max 0 (st_buffered_amount s - Z.max 0 n) /\
  (st_low_calls (on_buffer_released s n) = S (st_low_calls s) <->
     0 < n /\ st_low_handler s = true /\ st_buffered_amount_low s < st_buffered_amount s /\
     Z.max 0 (st_buffered_amount s - n) <= st_buffered_amount_low s).
Proof.
  intros Hs. unfold on_buffer_released. destruct (Z.leb_spec n 0).
  { split; [lia|]. split; [intros; lia|lia]. }
  assert (Hn : (if st_buffered_amount s <? n then 0 else st_buffered_amount s - n)
               = Z.max 0 (st_buffered_amount s - n)) by (destruct (Z.ltb_spec (st_buffered_amount s) n); lia).
  rewrite Hn. destruct s as [a b c d e f g h i j]. unfold set. cbn in *.
  destruct (Z.gtb_spec g h), (Z.leb_spec (Z.max 0 (g - n)) h), i; cbn; split; try lia;
    (split; [intros; try lia; split_and!; (lia || done)|intros (? & ? & ? & ?); (lia || done)]).
Qed.

(** * The reader's wake-up *)

(** Where a task in [read_sctp] is: at the loop test, before taking the
    queue's lock, before [notified()], registered as a waiter, or done. *)
Inductive ReaderPc : Type := RTest | RRead | RNotified | RWaiting | RDone (r : res Error (nat * PayloadProtocolIdentifier)).

Record ReaderState := mkReaderState { rd_stream : Stream; rd_pc : ReaderPc; rd_buf : bytes }.

(** [notify_waiters] wakes a registered waiter and stores no permit. *)
Definition notify_waiters (pc : ReaderPc) : ReaderPc :=
  match pc with RWaiting => RTest | _ => pc end.

Inductive reader_step {P : Profile} : ReaderState -> ReaderState -> Prop :=
  | reader_closed s buf : st_closed s = true ->
      reader_step (mkReaderState s RTest buf) (mkReaderState s (RDone (Err ErrStreamClosed)) buf)
  | reader_open s buf : st_closed s = false ->
      reader_step (mkReaderState s RTest buf) (mkReaderState s RRead buf)
  | reader_read s buf rq' buf' r :
      rq_read (st_reassembly_queue s, buf) = (r, (rq', buf')) ->
      reader_step (mkReaderState s RRead buf)
        (mkReaderState (s <| st_reassembly_queue := rq' |>)
           (match r with
            | Ok nppi => RDone (Ok nppi)
            | Err ErrShortBuffer => RDone (Err ErrShortBuffer)
            | Err _ => RNotified
            | _ => RDone Panic
            end) buf')
  | reader_permit s pc buf : pc = RNotified \/ pc = RWaiting -> st_read_permit s = true ->
      reader_step (mkReaderState s pc buf) (mkReaderState (s <| st_read_permit := false |>) RTest buf)
  | reader_register s buf : st_read_permit s = false ->
      reader_step (mkReaderState s RNotified buf) (mkReaderState s RWaiting buf).

(** The reader interleaved with the end of [close] (and of
    [unregister_stream]): the flag is set and the waiters are notified. *)
Inductive reader_system_step {P : Profile} : ReaderState -> ReaderState -> Prop :=
  | system_reader st st' : reader_step st st' -> reader_system_step st st'
  | system_close s pc buf :
      reader_system_step (mkReaderState s pc buf)
        (mkReaderState (s <| st_closed := true |>) (notify_waiters pc) buf).

(** A lost wake-up: there is an execution in which a stream is closed while
    a reader, which found nothing to read, is about to wait on [read_notifier];
    [notify_waiters] wakes only registered waiters and stores no permit, so the
    reader then waits on a closed stream and can take no further step. *)
Theorem close_lost_wakeup `{Profile} s buf : st_closed s = false -> st_read_permit s = false ->
  rq_unordered (st_reassembly_queue s) = [] -> rq_ordered (st_reassembly_queue s) = [] ->
  exists st, rtc reader_system_step (mkReaderState s RTest buf) st /\
    st_closed (rd_stream st) = true /\ rd_pc st = RWaiting /\ forall st', ~ reader_step st st'.
Proof.
  intros Hc Hp Hu Ho. set (q := st_reassembly_queue s).
  assert (Hr : rq_read (q, buf) = (Err ErrTryAgain, (q, buf))).
  { unfold rq_read, read_take, q. by rewrite Hu, Ho. }
  eexists (mkReaderState (s <| st_reassembly_queue := q |> <| st_closed := true |>) RWaiting buf).
  split_and!; [|done|done|].
  - eapply rtc_l; [apply system_reader, reader_open, Hc|].
    eapply rtc_l; [apply system_reader; by apply (reader_read s buf q buf _ Hr)|].
    eapply rtc_l; [apply system_close|]. cbn [notify_waiters].
    eapply rtc_l; [apply system_reader, reader_register|apply rtc_refl]. done.
  - intros st' Hstep. inversion Hstep as [| | |? ? ? _ Hperm|]; subst. unfold set in Hperm.
    cbn in Hperm. congruence.
Qed.

(** * From packetize to read *)

(** The chunks of a message as the receiver sees them: numbered from [t0],
    with the fields that do not travel set by the receiver. *)
Definition arrived (fr : nat -> Fresh) (t0 : Z) (chunks : list ChunkPayloadData) : list ChunkPayloadData :=
  imap (fun i c => received_payload_data (fr i) (c <| pd_tsn := t0 + Z.of_nat i |>)) chunks.

Lemma arrived_lookup fr t0 chunks i c : arrived fr t0 chunks !! i = Some c ->
  exists c', chunks !! i = Some c' /\ c = received_payload_data (fr i) (c' <| pd_tsn := t0 + Z.of_nat i |>).
Proof. unfold arrived. rewrite list_lookup_imap. intros (c' & Hc' & ->)%fmap_Some. eauto. Qed.

Lemma length_arrived fr t0 chunks : length (arrived fr t0 chunks) = length chunks.
Proof. apply length_imap. Qed.

Lemma arrived_data fr t0 chunks : chunks_data (arrived fr t0 chunks) = flat_map pd_user_data chunks.
Proof.
  unfold chunks_data. rewrite !flat_map_concat_map. f_equal.
  change (pd_user_data <$> arrived fr t0 chunks = pd_user_data <$> chunks).
  apply list_eq. intros i. rewrite !list_lookup_fmap. unfold arrived. rewrite list_lookup_imap.
  by destruct (chunks !! i).
Qed.

Lemma fragmented_count s now ppi ab af i p chunks : fragmented s now ppi ab af i p chunks ->
  (length chunks <= length p)%nat.
Proof.
  intros Hfg. rewrite <- (fg_data _ _ _ _ _ _ _ _ Hfg).
  assert (Ha : forall c, c ∈ chunks -> (0 < length (pd_user_data c))%nat).
  { intros c Hc. by apply (fg_all _ _ _ _ _ _ _ _ Hfg). }
  clear Hfg. induction chunks as [|c l IH]; [done|]. cbn. rewrite length_app.
  pose proof (Ha c ltac:(by left)). specialize (IH ltac:(intros; apply Ha; by right)). lia.
Qed.

Lemma fragmented_arrived s now ppi ab af p chunks fr t0 : ppi <> Dcep -> p <> [] ->
  fragmented s now ppi ab af 0 p chunks -> 0 <= t0 -> t0 + Z.of_nat (length p) <= 2 ^ 32 ->
  Z.of_nat (length p) <= 2 ^ 31 ->
  fragments (st_stream_identifier s) t0 (arrived fr t0 chunks).
Proof.
  intros Hppi Hp Hfg H0 H1 H2. pose proof (fragmented_count _ _ _ _ _ _ _ _ Hfg) as Hcount. split.
  - intros i c (c' & Hc' & ->)%arrived_lookup. done.
  - intros i c (c' & Hc' & ->)%arrived_lookup. cbn. by rewrite (fg_begin _ _ _ _ _ _ _ _ Hfg i c' Hc').
  - intros i c (c' & Hc' & ->)%arrived_lookup. cbn.
    by rewrite (fg_end _ _ _ _ _ _ _ _ Hfg i c' Hc'), length_arrived.
  - apply Forall_forall. intros c [i (c' & Hc' & ->)%arrived_lookup]%list_elem_of_lookup.
    apply list_elem_of_lookup_2 in Hc'. cbn.
    destruct (fg_all _ _ _ _ _ _ _ _ Hfg c' Hc') as (Hu & Hsi & _).
    rewrite Hsi, Hu. by rewrite bool_decide_eq_true_2.
  - rewrite length_arrived. pose proof (fg_nonempty _ _ _ _ _ _ _ _ Hfg Hp). destruct chunks; [done|cbn; lia].
  - rewrite length_arrived. lia.
Qed.


(** * The theorems at concrete inputs *)
Definition example_stream : Stream := Stream_new 1 4.
Definition example_shared (state : AssociationState) : Shared :=
  mkShared 65536 (AssociationState_as_u8 state) false PendingQueue_new ∅ 0.
Definition example_message : bytes := put_u32 1 ++ put_u32 2 ++ put_u16 3.

Lemma write_sctp_spec_witness :
  get_state (example_shared Established) = Established /\
  exists chunks, fragmented example_stream 0 Binary 0 1 0 example_message chunks.
Proof.
  pose proof (write_sctp_spec 0 example_message Binary (example_shared Established) example_stream eq_refl)
    as (Hst & _ & _ & _ & chunks & Hfg & _).
  exact (conj Hst (ex_intro _ chunks Hfg)).
Defined.

Definition buffering_stream : Stream := example_stream <| st_buffered_amount := 10 |>.

Lemma on_buffer_released_spec_witness :
  st_buffered_amount (on_buffer_released buffering_stream 4) = 6.
Proof.
  destruct (on_buffer_released_spec buffering_stream 4 ltac:(by vm_compute)) as [H _].
  exact H.
Defined.

Lemma close_lost_wakeup_witness :
  exists st, rtc (reader_system_step (P := dev_profile)) (mkReaderState example_stream RTest []) st /\
    st_closed (rd_stream st) = true /\ rd_pc st = RWaiting.
Proof.
  destruct (close_lost_wakeup (H := dev_profile) example_stream [] eq_refl eq_refl eq_refl eq_refl)
    as (st & Hr & Hc & Hpc & _).
  exact (ex_intro _ st (conj Hr (conj Hc Hpc))).
Defined.


(** * [PollStream]: the stream as [AsyncRead] and [AsyncWrite] *)
Definition DEFAULT_READ_BUF_SIZE : nat := 4096.

Inductive Poll (A : Type) : Type := Ready (a : A) | Pending.
Arguments Ready {A} a.
Arguments Pending {A}.

(** The future of a read: whether it is at [notified()], and its buffer *)
Inductive ReadFut : Type := Idle | Reading (waits : bool) (temp_buf : bytes) | RemainingData (data : bytes).

(** With the stream and what it shares: the message of the future of a write, and
    whether the future of a shutdown is done. *)
Record PollStream := mkPollStream {
  ps_shared : Shared;
  ps_stream : Stream;
  ps_read_fut : ReadFut;
  ps_write_fut : option bytes;
  ps_shutdown_fut : option bool;
  ps_read_buf_cap : nat
}.

#[export] Instance PollStream_settable : Settable PollStream := fun p =>
  mkPollStream (ps_shared p) (ps_stream p) (ps_read_fut p) (ps_write_fut p) (ps_shutdown_fut p) (ps_read_buf_cap p).

Definition PollStream_new (sh : Shared) (s : Stream) : PollStream :=
  mkPollStream sh s Idle None None DEFAULT_READ_BUF_SIZE.

Section poll.
Context {P : Profile}.

(** A poll of the future of a read: the loop of [read_sctp] up to its end, or to a wait
    without a permit. It takes the permit once at most, so that four rounds are enough. *)
Fixpoint poll_future (fuel : nat) (waits : bool) : ST (Stream * bytes) Error (Poll bytes) := fun '(s, temp_buf) =>
  match fuel with
  | O => (OutOfFuel, (s, temp_buf))
  | S fuel =>
      if waits then
        if st_read_permit s then poll_future fuel false (s <| st_read_permit := false |>, temp_buf)
        else (Ok Pending, (s, temp_buf))
      else
        let '(r, (s, temp_buf)) := read_attempt (s, temp_buf) in
        match r with
        | Ok (Some (n, _)) => (Ok (Ready (take n temp_buf)), (s, temp_buf))
        | Ok None => poll_future fuel true (s, temp_buf)
        | Err e => (Err e, (s, temp_buf))
        | Panic => (Panic, (s, temp_buf))
        | OutOfFuel => (OutOfFuel, (s, temp_buf))
        end
  end.

(** What of [data] is put into a buffer with so many bytes left, and what stays *)
Definition fill_buf (remaining : nat) (data : bytes) : ST PollStream Error (Poll bytes) := fun ps =>
  let len := Nat.min (length data) remaining in
  (Ok (Ready (take len data)),
   ps <| ps_read_fut := if (remaining <? length data)%nat then RemainingData (drop len data) else Idle |>).

(** The loop polls a future that is done once more after [ErrTryAgain], which panics. *)
Definition poll_reading (remaining : nat) (waits : bool) (temp_buf : bytes) : ST PollStream Error (Poll bytes) := fun ps =>
  let '(r, (s, buf)) := poll_future 4 waits (ps_stream ps, temp_buf) in
  let ps := ps <| ps_stream := s |> in
  match r with
  | Ok Pending => (Ok Pending, ps <| ps_read_fut := Reading true buf |>)
  | Err ErrTryAgain => (Panic, ps)
  | Err ErrEof => (Ok (Ready []), ps <| ps_read_fut := Idle |>)
  | Err e => (Err e, ps <| ps_read_fut := Idle |>)
  | Ok (Ready data) => fill_buf remaining data ps
  | Panic => (Panic, ps)
  | OutOfFuel => (OutOfFuel, ps)
  end.

(** [poll_read]: the bytes put into a buffer that has so many left *)
Definition poll_read (remaining : nat) : ST PollStream Error (Poll bytes) := fun ps =>
  if (remaining =? 0)%nat then (Ok (Ready []), ps)
  else
    match ps_read_fut ps with
    | Idle => poll_reading remaining false (replicate (ps_read_buf_cap ps) Byte.x00) ps
    | Reading waits temp_buf => poll_reading remaining waits temp_buf ps
    | RemainingData data => fill_buf remaining data ps
    end.

(** The future of a write runs to its end when it is polled while the locks are free
    ([free]), or does nothing yet. *)
Definition finish_write (now : Z) (msg : bytes) : ST PollStream Error Z := fun ps =>
  let '(r, (sh, s)) := write now msg (ps_shared ps, ps_stream ps) in
  (r, ps <| ps_shared := sh |> <| ps_stream := s |> <| ps_write_fut := None |>).

Definition poll_write (now : Z) (free : bool) (buf : bytes) : ST PollStream Error (Poll Z) := fun ps =>
  let '(msg, fut_is_new) := match ps_write_fut ps with Some msg => (msg, false) | None => (buf, true) end in
  if free then (n ← finish_write now msg; mret (Ready n)) ps
  else (Ok (if fut_is_new then Ready (Z.of_nat (length buf)) else Pending), ps <| ps_write_fut := Some msg |>).

Definition poll_flush (now : Z) (free : bool) : ST PollStream Error (Poll unit) := fun ps =>
  match ps_write_fut ps with
  | None => (Ok (Ready tt), ps)
  | Some msg => if free then (_ ← finish_write now msg; mret (Ready tt)) ps else (Ok Pending, ps)
  end.

(** [notify_waiters], for the reader among the futures *)
Definition wake_reader (f : ReadFut) : ReadFut :=
  match f with Reading true temp_buf => Reading false temp_buf | _ => f end.

(** The future of the shutdown stays when it is done; polled again it panics. *)
Definition poll_shutdown (now : Z) (free : bool) : ST PollStream Error (Poll unit) := fun ps =>
  match ps_shutdown_fut ps with
  | Some true => (Panic, ps)
  | _ =>
      if free then
        let '(r, (sh, s)) := stream_close now (ps_shared ps, ps_stream ps) in
        let ps := ps <| ps_shared := sh |> <| ps_stream := s |> <| ps_shutdown_fut := Some true |> in
        match r with
        | Ok _ => (Ok (Ready tt), ps <| ps_read_fut ::= wake_reader |>)
        | Err e => (Err e, ps)
        | Panic => (Panic, ps)
        | OutOfFuel => (OutOfFuel, ps)
        end
      else (Ok Pending, ps <| ps_shutdown_fut := Some false |>)
  end.

(** Polls for reads, one after the other, with the bytes left in the buffer of each *)
Fixpoint poll_reads (ns : list nat) : ST PollStream Error (list (Poll bytes)) :=
  match ns with
  | [] => mret []
  | n :: ns => x ← poll_read n; xs ← poll_reads ns; mret (x :: xs)
  end.

Definition polled (x : Poll bytes) : bytes := match x with Ready data => data | Pending => [] end.

(** ** The bytes of the messages *)
Definition set_data (cset : ChunkSet) : bytes := chunks_data (cs_chunks cset).

(** The messages [csets] wait for a reader whose buffer is large enough for each; a
    reader that waits has nothing to read, or a permit. *)
Record pollable (ps : PollStream) (csets : list ChunkSet) : Prop := {
  po_open : st_closed (ps_stream ps) = false;
  po_unordered : rq_unordered (st_reassembly_queue (ps_stream ps)) = csets;
  po_ordered : rq_ordered (st_reassembly_queue (ps_stream ps)) = [];
  po_bytes : 0 <= rq_n_bytes (st_reassembly_queue (ps_stream ps));
  po_fit : Forall (fun cset => 0 < length (set_data cset) <= ps_read_buf_cap ps)%nat csets;
  po_fut : match ps_read_fut ps with
           | Idle => True
           | Reading waits temp_buf =>
               length temp_buf = ps_read_buf_cap ps /\ (waits = true -> csets = [] \/ st_read_permit (ps_stream ps) = true)
           | RemainingData data => data <> []
           end
}.

Definition remaining_data (f : ReadFut) : bytes := match f with RemainingData data => data | _ => [] end.
Definition unread (ps : PollStream) (csets : list ChunkSet) : bytes :=
  remaining_data (ps_read_fut ps) ++ flat_map set_data csets.

Lemma read_attempt_message s buf cset csets : st_closed s = false ->
  rq_unordered (st_reassembly_queue s) = cset :: csets -> 0 <= rq_n_bytes (st_reassembly_queue s) ->
  (length (set_data cset) <= length buf)%nat ->
  exists q buf', read_attempt (s, buf) = (Ok (Some (length (set_data cset), cs_ppi cset)), (s <| st_reassembly_queue := q |>, buf')) /\
    take (length (set_data cset)) buf' = set_data cset /\ rq_unordered q = csets /\
    rq_ordered q = rq_ordered (st_reassembly_queue s) /\ 0 <= rq_n_bytes q.
Proof.
  intros Hc Hu Hb Hl. destruct (rq_read_unordered _ buf cset csets Hu Hb) as (buf' & Hr & _ & Ht).
  unfold read_attempt. rewrite Hc, Hr. unfold set_data in *. rewrite leb_true by done.
  eexists _, buf'. split; [reflexivity|]. split; [by rewrite Ht, take_ge by done|]. destruct (st_reassembly_queue s). cbn. by split_and!; try lia.
Qed.

Lemma read_attempt_none s buf : st_closed s = false -> rq_unordered (st_reassembly_queue s) = [] ->
  rq_ordered (st_reassembly_queue s) = [] -> read_attempt (s, buf) = (Ok None, (s, buf)).
Proof. intros Hc Hu Ho. unfold read_attempt, rq_read, read_take. rewrite Hc, Hu, Ho. by destruct s. Qed.

(** Polled with a message there, the future has it; polled without one, it waits. *)
Lemma poll_future_message waits s buf cset csets : st_closed s = false ->
  rq_unordered (st_reassembly_queue s) = cset :: csets -> 0 <= rq_n_bytes (st_reassembly_queue s) ->
  (length (set_data cset) <= length buf)%nat -> (waits = true -> st_read_permit s = true) ->
  exists q permit buf', poll_future 4 waits (s, buf) = (Ok (Ready (set_data cset)), (s <| st_read_permit := permit |> <| st_reassembly_queue := q |>, buf')) /\
    rq_unordered q = csets /\ rq_ordered q = rq_ordered (st_reassembly_queue s) /\ 0 <= rq_n_bytes q.
Proof.
  intros Hc Hu Hb Hl Hw. destruct waits.
  - cbn [poll_future]. rewrite Hw by done. set (s1 := s <| st_read_permit := false |>).
    destruct (read_attempt_message s1 buf cset csets) as (q & buf' & -> & -> & Hq); [by destruct s..|].
    exists q, false, buf'. by destruct s.
  - cbn [poll_future]. destruct (read_attempt_message s buf cset csets) as (q & buf' & -> & -> & Hq); [done..|].
    exists q, (st_read_permit s), buf'. by destruct s.
Qed.

Lemma poll_future_none waits s buf : st_closed s = false -> rq_unordered (st_reassembly_queue s) = [] ->
  rq_ordered (st_reassembly_queue s) = [] ->
  exists permit, poll_future 4 waits (s, buf) = (Ok Pending, (s <| st_read_permit := permit |>, buf)).
Proof.
  intros Hc Hu Ho. destruct s as [a b q c permit cl d e f g]. cbn in Hc, Hu, Ho.
  exists false. cbn [poll_future]. destruct waits, permit; cbn [st_read_permit set];
    repeat (rewrite read_attempt_none by done; cbn [poll_future st_read_permit set]); reflexivity.
Qed.

Lemma fill_buf_pollable n data ps csets : (0 < n)%nat -> data <> [] -> pollable (ps <| ps_read_fut := Idle |>) csets ->
  exists ps', fill_buf n data ps = (Ok (Ready (take n data)), ps') /\ pollable ps' csets /\
    take n data ++ unread ps' csets = data ++ flat_map set_data csets.
Proof.
  intros Hn Hd [H1 H2 H3 H4 H5 _]. unfold fill_buf.
  assert (Ht : take (Nat.min (length data) n) data = take n data).
  { destruct (Nat.min_spec (length data) n) as [[? ->]|[? ->]]; [by rewrite !take_ge by lia|done]. }
  rewrite Ht. eexists. split; [reflexivity|]. unfold unread. destruct (Nat.ltb_spec n (length data)) as [Hl|Hl].
  - rewrite Nat.min_r by lia. split; [|cbn; by rewrite app_assoc, take_drop]. split; try assumption. cbn.
    intros Hnil. apply (f_equal length) in Hnil. rewrite length_drop in Hnil. cbn in Hnil. lia.
  - split; [|cbn; by rewrite take_ge by lia]. by split.
Qed.

Lemma nonempty_data cset : (0 < length (set_data cset))%nat -> set_data cset <> [].
Proof. by destruct (set_data cset); [cbn; lia|]. Qed.

Lemma poll_reading_pollable n waits temp_buf ps csets : (0 < n)%nat -> pollable ps csets ->
  length temp_buf = ps_read_buf_cap ps -> (waits = true -> csets = [] \/ st_read_permit (ps_stream ps) = true) ->
  exists x ps' csets', poll_reading n waits temp_buf ps = (Ok x, ps') /\ pollable ps' csets' /\
    polled x ++ unread ps' csets' = flat_map set_data csets /\ (length (polled x) <= n)%nat /\
    (flat_map set_data csets <> [] -> polled x <> []).
Proof.
  intros Hn [H1 H2 H3 H4 H5 _] Hl Hw. unfold poll_reading. destruct csets as [|cset csets].
  - destruct (poll_future_none waits (ps_stream ps) temp_buf H1 H2 H3) as [permit ->].
    eexists Pending, _, []. split; [reflexivity|]. split; [split; try assumption; cbn; auto|]. by split_and!; [|cbn; lia|].
  - apply Forall_cons in H5 as [Hc H5].
    destruct (poll_future_message waits (ps_stream ps) temp_buf cset csets H1 H2 H4) as (q & permit & buf' & -> & Hu & Ho & Hb); [lia| |].
    { intros Hwt. by destruct (Hw Hwt). }
    destruct (fill_buf_pollable n (set_data cset)
      (ps <| ps_stream := (ps_stream ps) <| st_read_permit := permit |> <| st_reassembly_queue := q |> |>) csets Hn) as (ps' & -> & Hp & Hun);
      [apply nonempty_data; lia|split; try assumption; cbn; [by rewrite Ho|done]|].
    exists (Ready (take n (set_data cset))), ps', csets. split; [reflexivity|]. split; [exact Hp|]. split; [exact Hun|].
    split; [cbn; rewrite length_take; lia|]. intros _ Hnil. apply (f_equal length) in Hnil. cbn in Hnil. rewrite length_take in Hnil. lia.
Qed.

Lemma poll_read_pollable n ps csets : (0 < n)%nat -> pollable ps csets ->
  exists x ps' csets', poll_read n ps = (Ok x, ps') /\ pollable ps' csets' /\
    polled x ++ unread ps' csets' = unread ps csets /\ (length (polled x) <= n)%nat /\ (unread ps csets <> [] -> polled x <> []).
Proof.
  intros Hn Hp. unfold poll_read. destruct (Nat.eqb_spec n 0) as [|_]; [lia|]. pose proof Hp as [_ _ _ _ H5 H6]. unfold unread at 2 3.
  destruct (ps_read_fut ps) as [|waits temp_buf|data]; cbn [remaining_data app].
  - apply poll_reading_pollable; [done|done|by rewrite length_replicate|done].
  - destruct H6. by apply poll_reading_pollable.
  - destruct (fill_buf_pollable n data ps csets Hn H6) as (ps' & Hr & Hp' & Hun); [by destruct Hp; split|].
    exists (Ready (take n data)), ps', csets. split; [exact Hr|]. split; [exact Hp'|]. split; [exact Hun|].
    split; [cbn; rewrite length_take; lia|]. intros _. destruct data, n; [done| |lia|done]. done.
Qed.


(** C40. A write that finds the locks taken is buffered, and the next one is lost: it polls the
    future of the first, and reports the length of the first. *)
Theorem poll_write_swallows now now' msg msg' ps : ps_write_fut ps = None ->
  exists ps', poll_write now false msg ps = (Ok (Ready (Z.of_nat (length msg))), ps') /\
    forall n ps'', poll_write now' true msg' ps' = (Ok (Ready n), ps'') ->
      n = Z.of_nat (length msg) /\ poll_write now' true msg ps = (Ok (Ready n), ps'').
Proof.
  intros Hw. unfold poll_write. rewrite Hw. eexists. split; [reflexivity|]. cbn [ps_write_fut set]. intros n ps'' H.
  assert (Hf : finish_write now' msg (ps <| ps_write_fut := Some msg |>) = finish_write now' msg ps) by done.
  apply st_bind_Ok in H as (k & p1 & H & E). injection E as -> ->. rewrite Hf in H. split.
  - unfold finish_write in H. destruct (write now' msg _) as [r [sh s]] eqn:E. injection H as -> _.
    unfold write, write_sctp in E. apply st_bind_Ok in E as (? & ? & _ & E). destruct (_ >? _); [done|].
    apply st_bind_Ok in E as (st & ? & _ & E). destruct st; try done.
    all: apply st_bind_Ok in E as (? & ? & _ & E); apply st_bind_Ok in E as (? & ? & _ & E); by injection E as <-.
  - unfold mbind, st_bind. by rewrite H.
Qed.

(** A shutdown that is polled again when it is done panics. *)
Lemma poll_shutdown_again now now' free ps ps' r : poll_shutdown now true ps = (r, ps') -> r <> Panic -> r <> OutOfFuel ->
  poll_shutdown now' free ps' = (Panic, ps').
Proof.
  unfold poll_shutdown at 1. destruct (ps_shutdown_fut ps) as [[]|]; [by intros [= <-]| |].
  all: destruct (stream_close _ _) as [[u|e| |] [sh s]]; by intros [= <- <-].
Qed.
End poll.

(** A stream with two messages, and buffers of two and three bytes *)
Definition sample_set (n : nat) : ChunkSet :=
  mkChunkSet 0 Binary [(ChunkPayloadData_default (mkFresh 0 0)) <| pd_user_data := replicate n (byte_of_u8 (Z.of_nat n)) |>].

Definition sample_poll_stream : PollStream :=
  PollStream_new (mkShared 65536 (AssociationState_as_u8 Established) false PendingQueue_new ∅ 0)
    ((Stream_new 1 4) <| st_reassembly_queue := (ReassemblyQueue_new 1) <| rq_unordered := [sample_set 3; sample_set 2] |> <| rq_n_bytes := 5 |> |>).


Lemma poll_write_swallows_witness :
  fst (poll_write 0 false [Byte.x01; Byte.x02] sample_poll_stream) = Ok (Ready 2) /\
  exists ps'', poll_write 5 true [Byte.x01; Byte.x02] sample_poll_stream = (Ok (Ready 2), ps'').
Proof.
  destruct (poll_write_swallows 0 5 [Byte.x01; Byte.x02] [Byte.x03] sample_poll_stream eq_refl) as (ps' & E & H).
  split; [by rewrite E|]. destruct (poll_write 5 true [Byte.x03] ps') as [r ps''] eqn:E2.
  assert (Hr : r = Ok (Ready 2)).
  { assert (Hp : ps' = snd (poll_write 0 false [Byte.x01; Byte.x02] sample_poll_stream)) by (by rewrite E).
    change r with (fst (r, ps'')). rewrite <- E2, Hp. by vm_compute. }
  subst r. exists ps''. by apply (H 2 ps'').
Defined.
