(* ===== verification/Assoc.v ===== *)
(** The association: its state ([AssociationInternal] in
    [sctp/association/association_internal.rs]) and the calls that do not
    handle a received chunk or gather packets.

    The [Arc]s shared with the streams are [a_shared]; a stream is a reference
    into [a_heap], held by the table [a_streams] and by the application, and a
    stream that left the table stays in the heap.  A call with [&mut self] is a
    program of the state monad; [SystemTime::now()] and random bytes are
    arguments (one reading of the clock per call, in nanoseconds); a [HashMap]
    is iterated in the order of [map_to_list]. *)
From S2P Require Import Prelude Serial Errors Param Chunk Packet PayloadQueue PendingQueue.
From S2P Require Import ReassemblyQueue Timer Stream.

(** * Constants and enums of association/mod.rs *)
Definition RECEIVE_MTU : Z := 8192.
Definition INITIAL_MTU : Z := 1228.
Definition INITIAL_RECV_BUF_SIZE : Z := 1024 * 1024.
Definition COMMON_HEADER_SIZE : Z := 12.
Definition DATA_CHUNK_HEADER_SIZE : Z := 16.
Definition DEFAULT_MAX_MESSAGE_SIZE : Z := 65536.

Inductive AckMode : Type := AckNormal | AckAlwaysDelay.
Inductive AckState : Type := AckIdle | AckImmediate | AckDelay.

#[export] Instance AckMode_eq_dec : EqDecision AckMode.
Proof. solve_decision. Defined.
#[export] Instance AckState_eq_dec : EqDecision AckState.
Proof. solve_decision. Defined.

(** association_stats.rs: wrapping 64-bit counters *)
Record AssociationStats := mkAssociationStats {
  n_datas : Z; n_sacks : Z; n_t3timeouts : Z; n_ack_timeouts : Z; n_fast_retrans : Z
}.

#[export] Instance AssociationStats_settable : Settable AssociationStats := fun s =>
  mkAssociationStats (n_datas s) (n_sacks s) (n_t3timeouts s) (n_ack_timeouts s) (n_fast_retrans s).

Definition inc_datas (s : AssociationStats) := s <| n_datas ::= fun n => wrap 64 (n + 1) |>.
Definition inc_sacks (s : AssociationStats) := s <| n_sacks ::= fun n => wrap 64 (n + 1) |>.
Definition inc_t3timeouts (s : AssociationStats) := s <| n_t3timeouts ::= fun n => wrap 64 (n + 1) |>.
Definition inc_ack_timeouts (s : AssociationStats) :=
  s <| n_ack_timeouts ::= fun n => wrap 64 (n + 1) |>.
Definition inc_fast_retrans (s : AssociationStats) :=
  s <| n_fast_retrans ::= fun n => wrap 64 (n + 1) |>.

(** * The state *)

(** The accepting end of new streams: [ac_queue] holds those accepted and not
    taken yet; a channel whose receiver was dropped takes nothing. *)
Record AcceptCh := mkAcceptCh { ac_receiver_alive : bool; ac_queue : list nat }.

Definition ACCEPT_CH_SIZE : nat := 16.

(** [a_handshake_completed] lists what was sent on the channel that
    [Association::client] waits on; [a_close_loop] is true while the sender
    that keeps the read and write loops running is held. *)
Record Assoc := mkAssoc {
  a_shared : Shared;
  a_will_send_shutdown : bool;
  a_peer_verification_tag : Z;
  a_my_verification_tag : Z;
  a_my_next_tsn : Z;
  a_peer_last_tsn : Z;
  a_min_tsn2measure_rtt : Z;
  a_will_send_forward_tsn : bool;
  a_will_retransmit_fast : bool;
  a_will_retransmit_reconfig : bool;
  a_will_send_shutdown_ack : bool;
  a_will_send_shutdown_complete : bool;
  a_my_next_rsn : Z;
  a_reconfigs : gmap Z ChunkReconfig;
  a_reconfig_requests : gmap Z ParamOutgoingResetRequest;
  a_source_port : Z;
  a_destination_port : Z;
  a_my_max_num_inbound_streams : Z;
  a_my_max_num_outbound_streams : Z;
  a_my_cookie : option ParamStateCookie;
  a_payload_queue : PayloadQueue;
  a_inflight_queue : PayloadQueue;
  a_control_queue : list Packet;
  a_mtu : Z;
  a_max_payload_size : Z;
  a_cumulative_tsn_ack_point : Z;
  a_advanced_peer_tsn_ack_point : Z;
  a_use_forward_tsn : bool;
  a_max_receive_buffer_size : Z;
  a_cwnd : Z;
  a_rwnd : Z;
  a_ssthresh : Z;
  a_partial_bytes_acked : Z;
  a_in_fast_recovery : bool;
  a_fast_recover_exit_point : Z;
  a_rto_mgr : RtoManager;
  a_t1init : option RtxTimer;
  a_t1cookie : option RtxTimer;
  a_t2shutdown : option RtxTimer;
  a_t3rtx : option RtxTimer;
  a_treconfig : option RtxTimer;
  a_ack_timer : option AckTimer;
  a_stored_init : option ChunkInit;
  a_stored_cookie_echo : option ChunkCookieEcho;
  a_streams : gmap Z nat;
  a_heap : gmap nat Stream;
  a_next_ref : nat;
  a_close_loop : bool;
  a_accept_ch : option AcceptCh;
  a_handshake_completed : list (option Error);
  a_delayed_ack_triggered : bool;
  a_immediate_ack_triggered : bool;
  a_stats : AssociationStats;
  a_ack_state : AckState;
  a_ack_mode : AckMode
}.

#[export] Instance Assoc_settable : Settable Assoc := fun a =>
  mkAssoc (a_shared a) (a_will_send_shutdown a) (a_peer_verification_tag a) (a_my_verification_tag a)
    (a_my_next_tsn a) (a_peer_last_tsn a) (a_min_tsn2measure_rtt a) (a_will_send_forward_tsn a)
    (a_will_retransmit_fast a) (a_will_retransmit_reconfig a) (a_will_send_shutdown_ack a)
    (a_will_send_shutdown_complete a) (a_my_next_rsn a) (a_reconfigs a) (a_reconfig_requests a)
    (a_source_port a) (a_destination_port a) (a_my_max_num_inbound_streams a)
    (a_my_max_num_outbound_streams a) (a_my_cookie a) (a_payload_queue a) (a_inflight_queue a)
    (a_control_queue a) (a_mtu a) (a_max_payload_size a) (a_cumulative_tsn_ack_point a)
    (a_advanced_peer_tsn_ack_point a) (a_use_forward_tsn a) (a_max_receive_buffer_size a) (a_cwnd a)
    (a_rwnd a) (a_ssthresh a) (a_partial_bytes_acked a) (a_in_fast_recovery a)
    (a_fast_recover_exit_point a) (a_rto_mgr a) (a_t1init a) (a_t1cookie a) (a_t2shutdown a)
    (a_t3rtx a) (a_treconfig a) (a_ack_timer a) (a_stored_init a) (a_stored_cookie_echo a)
    (a_streams a) (a_heap a) (a_next_ref a) (a_close_loop a) (a_accept_ch a)
    (a_handshake_completed a) (a_delayed_ack_triggered a) (a_immediate_ack_triggered a) (a_stats a)
    (a_ack_state a) (a_ack_mode a).

Abbreviation AM A := (ST Assoc Error A).

(** [Config], without the connection and the name. *)
Record Config := mkConfig { cfg_max_receive_buffer_size : Z; cfg_max_message_size : Z }.

(** [AssociationInternal::new]; [random_tsn] and [random_tag] are the two
    [random::<u32>()]s. *)
Definition AssociationInternal_new (config : Config) (random_tsn random_tag : Z) : Assoc :=
  let max_receive_buffer_size :=
    if cfg_max_receive_buffer_size config =? 0 then INITIAL_RECV_BUF_SIZE
    else cfg_max_receive_buffer_size config in
  let max_message_size :=
    if cfg_max_message_size config =? 0 then DEFAULT_MAX_MESSAGE_SIZE
    else cfg_max_message_size config in
  let tsn := if random_tsn =? 0 then random_tsn + 1 else random_tsn in
  {| a_shared := mkShared max_message_size (AssociationState_as_u8 Closed) false PendingQueue_new ∅ 0;
     a_will_send_shutdown := false;
     a_peer_verification_tag := 0;
     a_my_verification_tag := random_tag;
     a_my_next_tsn := tsn;
     a_peer_last_tsn := 0;
     a_min_tsn2measure_rtt := tsn;
     a_will_send_forward_tsn := false;
     a_will_retransmit_fast := false;
     a_will_retransmit_reconfig := false;
     a_will_send_shutdown_ack := false;
     a_will_send_shutdown_complete := false;
     a_my_next_rsn := tsn;
     a_reconfigs := ∅;
     a_reconfig_requests := ∅;
     a_source_port := 0;
     a_destination_port := 0;
     a_my_max_num_inbound_streams := u16_max;
     a_my_max_num_outbound_streams := u16_max;
     a_my_cookie := None;
     a_payload_queue := PayloadQueue_new;
     a_inflight_queue := PayloadQueue_new;
     a_control_queue := [];
     a_mtu := INITIAL_MTU;
     a_max_payload_size := INITIAL_MTU - (COMMON_HEADER_SIZE + DATA_CHUNK_HEADER_SIZE);
     a_cumulative_tsn_ack_point := tsn - 1;
     a_advanced_peer_tsn_ack_point := tsn - 1;
     a_use_forward_tsn := false;
     a_max_receive_buffer_size := max_receive_buffer_size;
     a_cwnd := Z.min (4 * INITIAL_MTU) (Z.max (2 * INITIAL_MTU) 4380);
     a_rwnd := 0;
     a_ssthresh := 0;
     a_partial_bytes_acked := 0;
     a_in_fast_recovery := false;
     a_fast_recover_exit_point := 0;
     a_rto_mgr := RtoManager_new;
     a_t1init := None;
     a_t1cookie := None;
     a_t2shutdown := None;
     a_t3rtx := None;
     a_treconfig := None;
     a_ack_timer := None;
     a_stored_init := None;
     a_stored_cookie_echo := None;
     a_streams := ∅;
     a_heap := ∅;
     a_next_ref := 0;
     a_close_loop := true;
     a_accept_ch := Some (mkAcceptCh true []);
     a_handshake_completed := [];
     a_delayed_ack_triggered := false;
     a_immediate_ack_triggered := false;
     a_stats := mkAssociationStats 0 0 0 0 0;
     a_ack_state := AckIdle;
     a_ack_mode := AckNormal |}.

(** * Small calls *)
Definition a_get_state : AM AssociationState := st_get (fun a => get_state (a_shared a)).

Definition set_state (s : AssociationState) : AM unit :=
  st_modify (fun a => a <| a_shared ::= fun sh => sh <| sh_state := AssociationState_as_u8 s |> |>).

Definition a_awake_write_loop : AM unit := st_modify (fun a => a <| a_shared ::= awake_write_loop |>).

Definition stop_timer (t : option RtxTimer) : option RtxTimer := rtx_stop <$> t.
Definition start_timer (r : Z) (t : option RtxTimer) : option RtxTimer :=
  (fun t => snd (rtx_start t r)) <$> t.

(** The retransmission timers started with the current RTO. *)
Definition start_t1cookie : AM unit :=
  st_modify (fun a => a <| a_t1cookie ::= start_timer (get_rto (a_rto_mgr a)) |>).
Definition start_t2shutdown : AM unit :=
  st_modify (fun a => a <| a_t2shutdown ::= start_timer (get_rto (a_rto_mgr a)) |>).
Definition start_t3rtx : AM unit :=
  st_modify (fun a => a <| a_t3rtx ::= start_timer (get_rto (a_rto_mgr a)) |>).
Definition start_treconfig : AM unit :=
  st_modify (fun a => a <| a_treconfig ::= start_timer (get_rto (a_rto_mgr a)) |>).

Definition close_all_timers : AM unit :=
  st_modify (fun a => a <| a_t1init ::= stop_timer |> <| a_t1cookie ::= stop_timer |>
    <| a_t2shutdown ::= stop_timer |> <| a_t3rtx ::= stop_timer |> <| a_treconfig ::= stop_timer |>
    <| a_ack_timer ::= fmap ack_stop |>).

Definition create_packet (chunks : list AnyChunk) : AM Packet :=
  st_get (fun a => mkPacket (a_source_port a) (a_destination_port a) (a_peer_verification_tag a) chunks).

Definition push_control (p : Packet) : AM unit :=
  st_modify (fun a => a <| a_control_queue ::= fun q => q ++ [p] |>).

(** [send_init] takes the stored INIT out. *)
Definition send_init : AM unit :=
  stored ← st_get a_stored_init;
  match stored with
  | Some stored_init =>
      _ ← st_modify (fun a => a <| a_stored_init := None |> <| a_source_port := 5000 |>
                                <| a_destination_port := 5000 |>);
      outbound ← create_packet [CInit stored_init];
      _ ← push_control outbound;
      a_awake_write_loop
  | None => st_raise ErrInitNotStoredToSend
  end.

Definition send_cookie_echo : AM unit :=
  stored ← st_get a_stored_cookie_echo;
  match stored with
  | Some stored_cookie_echo =>
      outbound ← create_packet [CCookieEcho stored_cookie_echo];
      _ ← push_control outbound;
      a_awake_write_loop
  | None => st_raise ErrCookieEchoNotStoredToSend
  end.

(** A stream that leaves the table is closed; its handles keep it alive. *)
Definition unregister_stream (stream_identifier : Z) : AM unit :=
  st_modify (fun a =>
    match a_streams a !! stream_identifier with
    | Some r =>
        a <| a_streams ::= delete stream_identifier |>
          <| a_heap ::= alter (fun s => s <| st_closed := true |>) r |>
    | None => a
    end).

Definition a_close : AM unit :=
  state ← a_get_state;
  if decide (state <> Closed) then
    _ ← set_state Closed;
    _ ← close_all_timers;
    _ ← st_modify (fun a => a <| a_close_loop := false |>);
    sis ← st_get (fun a => (map_to_list (a_streams a)).*1);
    st_for sis unregister_stream
  else mret tt.

(** [generate_next_tsn] and [generate_next_rsn] *)
Section tsn.
Context {P : Profile}.

Definition generate_next_tsn : AM Z :=
  tsn ← st_get a_my_next_tsn;
  next ← st_lift (add32 tsn 1);
  _ ← st_modify (fun a => a <| a_my_next_tsn := next |>);
  mret tsn.

Definition generate_next_rsn : AM Z :=
  rsn ← st_get a_my_next_rsn;
  next ← st_lift (add32 rsn 1);
  _ ← st_modify (fun a => a <| a_my_next_rsn := next |>);
  mret rsn.

Definition get_my_receiver_window_credit : AM Z :=
  streams ← st_get (fun a => omap (fun '(_, r) => a_heap a !! r) (map_to_list (a_streams a)));
  bytes_queued ← st_fold streams (fun bytes_queued s =>
    st_lift (add32 bytes_queued (wrap 32 (get_num_bytes_in_reassembly_queue s)))) 0;
  max ← st_get a_max_receive_buffer_size;
  mret (if bytes_queued >=? max then 0 else max - bytes_queued).
End tsn.

(** * Streams *)
Definition create_stream (stream_identifier : Z) (accept : bool) : AM (option nat) :=
  s ← st_get (fun a => Stream_new stream_identifier (a_max_payload_size a));
  r ← st_get a_next_ref;
  let insert_stream : AM (option nat) :=
    _ ← st_modify (fun a => a <| a_streams ::= insert stream_identifier r |>);
    mret (Some r) in
  _ ← st_modify (fun a => a <| a_heap ::= insert r s |> <| a_next_ref := S r |>);
  if accept then
    accept_ch ← st_get a_accept_ch;
    match accept_ch with
    | Some ch =>
        if ac_receiver_alive ch && (length (ac_queue ch) <? ACCEPT_CH_SIZE)%nat then
          _ ← st_modify (fun a => a <| a_accept_ch :=
                 Some (mkAcceptCh true (ac_queue ch ++ [r])) |>);
          insert_stream
        else mret None
    | None => mret None
    end
  else insert_stream.

Definition open_stream (stream_identifier : Z) : AM nat :=
  existing ← st_get (fun a => a_streams a !! stream_identifier);
  match existing with
  | Some _ => st_raise ErrStreamAlreadyExist
  | None =>
      created ← create_stream stream_identifier false;
      match created with
      | Some r => mret r
      | None => st_raise ErrStreamCreateFailed
      end
  end.

Definition get_or_create_stream (stream_identifier : Z) : AM (option nat) :=
  existing ← st_get (fun a => a_streams a !! stream_identifier);
  match existing with
  | Some r => mret (Some r)
  | None => create_stream stream_identifier true
  end.

(** A call on the stream behind a reference. *)
Definition on_stream {A} (r : nat) (m : ST (Shared * Stream) Error A) (default : A) : AM A :=
  fun a =>
    match a_heap a !! r with
    | Some s =>
        let '(res, (sh, s)) := m (a_shared a, s) in
        (res, a <| a_shared := sh |> <| a_heap ::= insert r s |>)
    | None => (Ok default, a)
    end.

(** [check_partial_reliability_status] *)
Definition check_partial_reliability_status (c : ChunkPayloadData) : AM unit :=
  st_modify (fun a =>
    if negb (a_use_forward_tsn a) then a
    else if decide (pd_payload_type c = Dcep) then a
    else
      match a_streams a !! pd_stream_identifier c with
      | Some _ => a <| a_shared ::= fun sh => sh <| sh_flags ::= fun fl => set_abandoned fl c true |> |>
      | None => a
      end).

(** * Association::new for a client, up to the wait for the handshake *)
Definition initial_init (a : Assoc) : ChunkInit :=
  set_forward_tsn_supported
    (mkChunkInit false (a_my_verification_tag a) (a_max_receive_buffer_size a)
       (a_my_max_num_outbound_streams a) (a_my_max_num_inbound_streams a) (a_my_next_tsn a) []).

Definition Association_new_client : AM unit :=
  init ← st_get initial_init;
  _ ← st_modify (fun a => a
        <| a_t1init := Some (RtxTimer_new T1Init MAX_INIT_RETRANS) |>
        <| a_t1cookie := Some (RtxTimer_new T1Cookie MAX_INIT_RETRANS) |>
        <| a_t2shutdown := Some (RtxTimer_new T2Shutdown NO_MAX_RETRANS) |>
        <| a_t3rtx := Some (RtxTimer_new T3RTX NO_MAX_RETRANS) |>
        <| a_treconfig := Some (RtxTimer_new Reconfig NO_MAX_RETRANS) |>
        <| a_ack_timer := Some AckTimer_new |>);
  _ ← set_state CookieWait;
  _ ← st_modify (fun a => a <| a_stored_init := Some init |>);
  _ ← send_init;
  _ ← st_modify (fun a => a <| a_t1init ::= start_timer (get_rto (a_rto_mgr a)) |>);
  (* the receiver of [accept_ch] is a local variable of [new] *)
  st_modify (fun a => a <| a_accept_ch ::= fmap (fun ch => mkAcceptCh false (ac_queue ch)) |>).
