(* ===== verification/Receive.v ===== *)
(** What the association does with received packets: [handle_inbound],
    [handle_chunk] and one handler per chunk type
    ([sctp/association/association_internal.rs]).

    The argument [now] is the clock, [random] the bytes a state cookie would be
    made of.  The loops over TSNs get as fuel the number of chunks in the queue
    they walk. *)
From S2P Require Import Prelude Serial Errors Param Chunk Packet PayloadQueue PendingQueue.
From S2P Require Import ReassemblyQueue Timer Stream Assoc.

Section receive.
Context {P : Profile}.

(** [if i.initial_tsn == 0 { u32::MAX } else { i.initial_tsn - 1 }] *)
Definition tsn_before (initial_tsn : Z) : Z :=
  if initial_tsn =? 0 then u32_max else initial_tsn - 1.

Definition lists_forward_tsn (p : Param) : bool :=
  match p with
  | PSupportedExtensions v => existsb (fun t => t =? CT_FORWARD_TSN) (se_chunk_types v)
  | _ => false
  end.

Definition handle_init (random : bytes) (p : Packet) (i : ChunkInit) : AM (list Packet) :=
  state ← a_get_state;
  if decide (state <> Closed /\ state <> CookieWait /\ state <> CookieEchoed)
  then st_raise ErrHandleInitState
  else
    _ ← st_modify (fun a => a
          <| a_my_max_num_inbound_streams ::= Z.min (ci_num_inbound_streams i) |>
          <| a_my_max_num_outbound_streams ::= Z.min (ci_num_outbound_streams i) |>
          <| a_peer_verification_tag := ci_initiate_tag i |>
          <| a_source_port := pk_destination_port p |>
          <| a_destination_port := pk_source_port p |>
          <| a_peer_last_tsn := tsn_before (ci_initial_tsn i) |>
          <| a_use_forward_tsn ::= fun b => b || existsb lists_forward_tsn (ci_params i) |>
          <| a_my_cookie ::= fun c =>
               match c with Some c => Some c | None => Some (ParamStateCookie_new random) end |>);
    init_ack ← st_get (fun a => set_forward_tsn_supported
      (mkChunkInit true (a_my_verification_tag a) (a_max_receive_buffer_size a)
         (a_my_max_num_outbound_streams a) (a_my_max_num_inbound_streams a) (a_my_next_tsn a)
         (match a_my_cookie a with Some my_cookie => [PStateCookie my_cookie] | None => [] end)));
    outbound ← create_packet [CInit init_ack];
    mret [outbound].

(** The last state cookie among the parameters. *)
Definition find_cookie (params : list Param) : option ParamStateCookie :=
  foldl (fun c p => match p with PStateCookie v => Some v | _ => c end) None params.

Definition enables_forward_tsn (p : Param) : bool :=
  match p with
  | PForwardTsnSupported _ => true
  | p => lists_forward_tsn p
  end.

Definition handle_init_ack (p : Packet) (i : ChunkInit) : AM (list Packet) :=
  state ← a_get_state;
  if decide (state <> CookieWait) then mret []
  else
    _ ← st_modify (fun a => a
          <| a_my_max_num_inbound_streams ::= Z.min (ci_num_inbound_streams i) |>
          <| a_my_max_num_outbound_streams ::= Z.min (ci_num_outbound_streams i) |>
          <| a_peer_verification_tag := ci_initiate_tag i |>
          <| a_peer_last_tsn := tsn_before (ci_initial_tsn i) |>);
    mismatch ← st_get (fun a => negb (a_source_port a =? pk_destination_port p)
                                || negb (a_destination_port a =? pk_source_port p));
    match mismatch with
    | true => mret []
    | false =>
        _ ← st_modify (fun a => a
              <| a_rwnd := ci_advertised_receiver_window_credit i |>
              <| a_ssthresh := ci_advertised_receiver_window_credit i |>
              <| a_t1init ::= stop_timer |>
              <| a_stored_init := None |>
              <| a_use_forward_tsn ::= fun b => b || existsb enables_forward_tsn (ci_params i) |>);
        match find_cookie (ci_params i) with
        | Some v =>
            _ ← st_modify (fun a => a <| a_stored_cookie_echo := Some (mkChunkCookieEcho (psc_cookie v)) |>);
            _ ← send_cookie_echo;
            _ ← start_t1cookie;
            _ ← set_state CookieEchoed;
            mret []
        | None => st_raise ErrInitAckNoCookie
        end
    end.

Definition handle_heartbeat (c : ChunkHeartbeat) : AM (list Packet) :=
  match hb_params c with
  | PHeartbeatInfo hbi :: _ =>
      p ← create_packet [CHeartbeatAck (mkChunkHeartbeatAck
            [PHeartbeatInfo (mkParamHeartbeatInfo (heartbeat_information hbi))])];
      mret [p]
  | _ => mret []
  end.

(** [handshake_completed_ch.send(..)] *)
Definition handshake_completed (r : option Error) : AM unit :=
  st_modify (fun a => a <| a_handshake_completed ::= fun l => l ++ [r] |>).

Definition cookie_ack_reply : AM (list Packet) :=
  p ← create_packet [CCookieAck mkChunkCookieAck];
  mret [p].

Definition handle_cookie_echo (c : ChunkCookieEcho) : AM (list Packet) :=
  state ← a_get_state;
  cookie ← st_get a_my_cookie;
  match cookie with
  | None => mret []
  | Some my_cookie =>
      let matches := bool_decide (psc_cookie my_cookie = ce_cookie c) in
      match state with
      | Established => if negb matches then mret [] else cookie_ack_reply
      | Closed | CookieWait | CookieEchoed =>
          if negb matches then mret []
          else
            _ ← st_modify (fun a => a <| a_t1init ::= stop_timer |> <| a_stored_init := None |>
                                      <| a_t1cookie ::= stop_timer |> <| a_stored_cookie_echo := None |>);
            _ ← set_state Established;
            _ ← handshake_completed None;
            cookie_ack_reply
      | _ => mret []
      end
  end.

Definition handle_cookie_ack : AM (list Packet) :=
  state ← a_get_state;
  if decide (state <> CookieEchoed) then mret []
  else
    _ ← st_modify (fun a => a <| a_t1cookie ::= stop_timer |> <| a_stored_cookie_echo := None |>);
    _ ← set_state Established;
    _ ← handshake_completed None;
    mret [].

(** * DATA *)
Definition reset_streams_if_any (p : ParamOutgoingResetRequest) : AM Packet :=
  peer_last_tsn ← st_get a_peer_last_tsn;
  let reached := sna32lte (sender_last_tsn p) peer_last_tsn in
  _ ← st_when reached
        (_ ← st_for (stream_identifiers p) unregister_stream;
         st_modify (fun a => a <| a_reconfig_requests ::= delete (reconfig_request_sequence_number p) |>));
  create_packet [CReconfig (mkChunkReconfig
    (Some (PReconfigResponse (mkParamReconfigResponse (reconfig_request_sequence_number p)
             (if reached then SuccessPerformed else InProgress)))) None)].

(** A call on one of the queues. *)
Definition on_payload_queue {A} (f : PayloadQueue -> res Error (A * PayloadQueue)) : AM A := fun a =>
  match f (a_payload_queue a) with
  | Ok (x, q) => (Ok x, a <| a_payload_queue := q |>)
  | Err e => (Err e, a)
  | Panic => (Panic, a)
  | OutOfFuel => (OutOfFuel, a)
  end.

Definition on_inflight_queue {A} (f : PayloadQueue -> res Error (A * PayloadQueue)) : AM A := fun a =>
  match f (a_inflight_queue a) with
  | Ok (x, q) => (Ok x, a <| a_inflight_queue := q |>)
  | Err e => (Err e, a)
  | Panic => (Panic, a)
  | OutOfFuel => (OutOfFuel, a)
  end.

(** [while self.payload_queue.pop(self.peer_last_tsn + 1).is_some()] *)
Fixpoint advance_peer_last_tsn (fuel : nat) (reply : list Packet) : AM (list Packet) :=
  match fuel with
  | O => fun a => (OutOfFuel, a)
  | S fuel' =>
      peer_last_tsn ← st_get a_peer_last_tsn;
      next ← st_lift (add32 peer_last_tsn 1);
      popped ← on_payload_queue (fun q => pq_pop q next);
      match popped with
      | None => mret reply
      | Some _ =>
          _ ← st_modify (fun a => a <| a_peer_last_tsn := next |>);
          rst_reqs ← st_get (fun a => (map_to_list (a_reconfig_requests a)).*2);
          reply ← st_fold rst_reqs (fun reply rst_req =>
            resp ← reset_streams_if_any rst_req;
            mret (reply ++ [resp])) reply;
          advance_peer_last_tsn fuel' reply
      end
  end.

Definition handle_peer_last_tsn_and_acknowledgement (sack_immediately : bool) : AM (list Packet) :=
  n ← st_get (fun a => length (pq_sorted (a_payload_queue a)));
  reply ← advance_peer_last_tsn (S n) [];
  is_empty ← (q ← st_get a_payload_queue; st_lift (pq_is_empty q));
  let has_packet_loss := negb is_empty in
  _ ← st_modify (fun a =>
        if (bool_decide (a_ack_state a <> AckImmediate) && negb sack_immediately
            && negb has_packet_loss && bool_decide (a_ack_mode a = AckNormal))
           || bool_decide (a_ack_mode a = AckAlwaysDelay)
        then
          if decide (a_ack_state a = AckIdle) then a <| a_delayed_ack_triggered := true |>
          else a <| a_immediate_ack_triggered := true |>
        else a <| a_immediate_ack_triggered := true |>);
  mret reply.

(** The acceptance of a chunk that can be pushed on a stream that exists:
    whether the stream is to handle it. *)
Definition accept_data (d : ChunkPayloadData) : AM bool :=
  credit ← get_my_receiver_window_credit;
  peer_last_tsn ← st_get a_peer_last_tsn;
  if credit >? 0 then
    _ ← on_payload_queue (fun q => pq_push q d peer_last_tsn);
    mret true
  else
    last_tsn ← st_get (fun a => get_last_tsn_received (a_payload_queue a));
    match last_tsn with
    | Some last_tsn =>
        if sna32lt (pd_tsn d) last_tsn then
          _ ← on_payload_queue (fun q => pq_push q d peer_last_tsn);
          mret true
        else mret false
    | None => mret false
    end.

Definition with_stream (r : nat) (f : Stream -> res Error Stream) : AM unit := fun a =>
  match a_heap a !! r with
  | Some s =>
      match f s with
      | Ok s' => (Ok tt, a <| a_heap ::= insert r s' |>)
      | Err e => (Err e, a)
      | Panic => (Panic, a)
      | OutOfFuel => (OutOfFuel, a)
      end
  | None => (Ok tt, a)
  end.

Definition handle_data (d : ChunkPayloadData) : AM (list Packet) :=
  _ ← st_modify (fun a => a <| a_stats ::= inc_datas |>);
  can ← st_get (fun a => can_push (a_payload_queue a) d (a_peer_last_tsn a));
  accepted ← (match can with
    | false => mret (Some false)
    | true =>
        stream ← get_or_create_stream (pd_stream_identifier d);
        match stream with
        | Some _ => b ← accept_data d; mret (Some b)
        | None => mret None
        end
    end);
  match accepted with
  | None => mret []
  | Some stream_handle_data =>
      _ ← st_when stream_handle_data
            (r ← st_get (fun a => a_streams a !! pd_stream_identifier d);
             match r with
             | Some r => with_stream r (fun s => Stream.stream_handle_data s d)
             | None => mret tt
             end);
      handle_peer_last_tsn_and_acknowledgement (pd_immediate_sack d)
  end.

(** * SACK *)

(** [duration_since] in milliseconds, on a clock in nanoseconds. *)
Definition measure_rtt (now : Z) (c : ChunkPayloadData) : AM unit :=
  _ ← st_modify (fun a => a <| a_min_tsn2measure_rtt := a_my_next_tsn a |>);
  if now <? pd_since c then st_raise ErrInvalidSystemTime
  else
    mgr ← st_get a_rto_mgr;
    r ← st_lift (set_new_rtt mgr (wrap 64 ((now - pd_since c) / 1000000)));
    st_modify (fun a => a <| a_rto_mgr := snd r |>).

(** The bytes acknowledged per stream, in [i64]. *)
Abbreviation Acked := (gmap Z Z).

Definition add_acked (acked : Acked) (si n : Z) : res Error Acked :=
  match acked !! si with
  | Some amount => amount ← arith_i64 (amount + n); Ok (<[si := amount]> acked)
  | None => Ok (<[si := n]> acked)
  end.

(** The loop that pops the chunks up to the new cumulative TSN. *)
Fixpoint ack_cumulative (fuel : nat) (now : Z) (d : ChunkSelectiveAck) (i : Z) (acked : Acked) : AM Acked :=
  if sna32lte i (sack_cumulative_tsn_ack d) then
    match fuel with
    | O => fun a => (OutOfFuel, a)
    | S fuel' =>
        popped ← on_inflight_queue (fun q => pq_pop q i);
        match popped with
        | None => st_raise ErrInflightQueueTsnPop
        | Some c =>
            acked ← (if pd_acked c then mret acked
              else
                first ← (t ← st_get a_cumulative_tsn_ack_point; st_lift (add32 t 1));
                _ ← st_when (i =? first) (st_modify (fun a => a <| a_t3rtx ::= stop_timer |>));
                acked ← st_lift (add_acked acked (pd_stream_identifier c) (data_len c));
                min_tsn ← st_get a_min_tsn2measure_rtt;
                _ ← st_when ((pd_nsent c =? 1) && sna32gte (pd_tsn c) min_tsn) (measure_rtt now c);
                mret acked);
            _ ← st_modify (fun a =>
                  if a_in_fast_recovery a && (pd_tsn c =? a_fast_recover_exit_point a)
                  then a <| a_in_fast_recovery := false |> else a);
            next ← st_lift (add32 i 1);
            ack_cumulative fuel' now d next acked
        end
    end
  else mret acked.

(** The offsets the gap ack blocks cover, in the order of the two loops. *)
Definition gap_offsets (blocks : list GapAckBlock) : list Z :=
  flat_map (fun g => seqZ (gap_start g) (gap_end g - gap_start g + 1)) blocks.

Definition ack_gap (now : Z) (d : ChunkSelectiveAck) (acc : Acked * Z) (i : Z) : AM (Acked * Z) :=
  let '(acked, htna) := acc in
  tsn ← st_lift (add32 (sack_cumulative_tsn_ack d) i);
  before ← st_get (fun a => pq_get (a_inflight_queue a) tsn);
  let is_acked := match before with Some c => pd_acked c | None => false end in
  n_bytes_acked ← (match before with
    | Some c => if pd_acked c then mret 0 else on_inflight_queue (fun q => mark_as_acked q tsn)
    | None => mret 0
    end);
  after ← st_get (fun a => pq_get (a_inflight_queue a) tsn);
  match after with
  | None => st_raise ErrTsnRequestNotExist
  | Some c =>
      if is_acked then mret (acked, htna)
      else
        acked ← st_lift (add_acked acked (pd_stream_identifier c) n_bytes_acked);
        _ ← st_when (pd_nsent c =? 1) (measure_rtt now c);
        mret (acked, if sna32lt htna tsn then tsn else htna)
  end.

Definition process_selective_ack (now : Z) (d : ChunkSelectiveAck) : AM (Acked * Z) :=
  i ← (t ← st_get a_cumulative_tsn_ack_point; st_lift (add32 t 1));
  n ← st_get (fun a => length (pq_sorted (a_inflight_queue a)));
  acked ← ack_cumulative (S n) now d i ∅;
  st_fold (gap_offsets (sack_gap_ack_blocks d)) (ack_gap now d) (acked, sack_cumulative_tsn_ack d).

Definition inflight_is_empty : AM bool :=
  q ← st_get a_inflight_queue;
  st_lift (pq_is_empty q).

Definition has_pending (a : Assoc) : bool := pending_len (sh_pending_queue (a_shared a)) >? 0.

Definition on_cumulative_tsn_ack_point_advanced (total_bytes_acked : Z) : AM unit :=
  is_empty ← inflight_is_empty;
  _ ← match is_empty with
      | true => st_modify (fun a => a <| a_t3rtx ::= stop_timer |>)
      | false => start_t3rtx
      end;
  let acked := wrap 32 total_bytes_acked in
  slow_start ← st_get (fun a => a_cwnd a <=? a_ssthresh a);
  match slow_start with
  | true =>
      grow ← st_get (fun a => negb (a_in_fast_recovery a) && has_pending a);
      st_when grow
        (cwnd ← st_get a_cwnd;
         cwnd' ← st_lift (add32 cwnd (Z.min acked cwnd));
         st_modify (fun a => a <| a_cwnd := cwnd' |>))
  | false =>
      pba ← st_get a_partial_bytes_acked;
      pba ← st_lift (add32 pba acked);
      _ ← st_modify (fun a => a <| a_partial_bytes_acked := pba |>);
      grow ← st_get (fun a => (a_partial_bytes_acked a >=? a_cwnd a) && has_pending a);
      st_when grow
        (cwnd ← st_get a_cwnd;
         pba' ← st_lift (sub32 pba cwnd);
         mtu ← st_get a_mtu;
         cwnd' ← st_lift (add32 cwnd mtu);
         st_modify (fun a => a <| a_partial_bytes_acked := pba' |> <| a_cwnd := cwnd' |>))
  end.

(** An update of a chunk in flight through [get_mut]. *)
Definition update_inflight (tsn : Z) (c : ChunkPayloadData) : AM unit :=
  st_modify (fun a => a <| a_inflight_queue ::= fun q => q <| pq_chunk_map ::= insert tsn c |> |>).

Definition enter_fast_recovery (htna : Z) : AM unit :=
  cwnd ← st_get a_cwnd;
  mtu ← st_get a_mtu;
  mtu4 ← st_lift (mul32 4 mtu);
  st_modify (fun a => a
    <| a_in_fast_recovery := true |> <| a_fast_recover_exit_point := htna |>
    <| a_ssthresh := Z.max (cwnd / 2) mtu4 |> <| a_cwnd := Z.max (cwnd / 2) mtu4 |>
    <| a_partial_bytes_acked := 0 |> <| a_will_retransmit_fast := true |>).

Fixpoint mark_missing (fuel : nat) (htna max_tsn tsn : Z) : AM unit :=
  if sna32lt tsn max_tsn then
    match fuel with
    | O => fun a => (OutOfFuel, a)
    | S fuel' =>
        found ← st_get (fun a => pq_get (a_inflight_queue a) tsn);
        match found with
        | None => st_raise ErrTsnRequestNotExist
        | Some c =>
            abandoned ← st_get (fun a => ChunkPayloadData_abandoned (sh_flags (a_shared a)) c);
            _ ← st_when (negb (pd_acked c) && negb abandoned && (pd_miss_indicator c <? 3))
                  (let c := c <| pd_miss_indicator ::= fun n => n + 1 |> in
                   _ ← update_inflight tsn c;
                   fr ← st_get a_in_fast_recovery;
                   st_when ((pd_miss_indicator c =? 3) && negb fr) (enter_fast_recovery htna));
            next ← st_lift (add32 tsn 1);
            mark_missing fuel' htna max_tsn next
        end
    end
  else mret tt.

Definition process_fast_retransmission (cum_tsn_ack_point htna : Z) (cum_tsn_ack_point_advanced : bool) :
    AM unit :=
  fr ← st_get a_in_fast_recovery;
  _ ← st_when (negb fr || cum_tsn_ack_point_advanced)
        (max_tsn ← (match fr with
           | false => mret htna
           | true =>
               n ← (q ← st_get a_inflight_queue; st_lift (pq_len q));
               t ← st_lift (add32 cum_tsn_ack_point (wrap 32 n));
               st_lift (add32 t 1)
           end);
         tsn ← st_lift (add32 cum_tsn_ack_point 1);
         size ← st_get (fun a => size (pq_chunk_map (a_inflight_queue a)));
         mark_missing (S size) htna max_tsn tsn);
  st_modify (fun a =>
    if a_in_fast_recovery a && cum_tsn_ack_point_advanced
    then a <| a_will_retransmit_fast := true |> else a).

(** The loop of RFC 3758 Sec 3.5 C2: past the abandoned chunks. *)
Fixpoint advance_past_abandoned (fuel : nat) (i : Z) : AM unit :=
  match fuel with
  | O => fun a => (OutOfFuel, a)
  | S fuel' =>
      found ← st_get (fun a => pq_get (a_inflight_queue a) i);
      match found with
      | None => mret tt
      | Some c =>
          abandoned ← st_get (fun a => ChunkPayloadData_abandoned (sh_flags (a_shared a)) c);
          match abandoned with
          | false => mret tt
          | true =>
              _ ← st_modify (fun a => a <| a_advanced_peer_tsn_ack_point := i |>);
              next ← st_lift (add32 i 1);
              advance_past_abandoned fuel' next
          end
      end
  end.

(** C2 and C3, shared by [handle_sack] and the T3-rtx timeout. *)
Definition try_advance_peer_ack_point : AM unit :=
  i ← (t ← st_get a_advanced_peer_tsn_ack_point; st_lift (add32 t 1));
  size ← st_get (fun a => size (pq_chunk_map (a_inflight_queue a)));
  _ ← advance_past_abandoned (S size) i;
  st_modify (fun a =>
    if sna32gt (a_advanced_peer_tsn_ack_point a) (a_cumulative_tsn_ack_point a)
    then a <| a_will_send_forward_tsn := true |> else a).

Definition postprocess_sack (state : AssociationState) (should_awake_write_loop : bool) : AM unit :=
  is_empty ← inflight_is_empty;
  should_awake_write_loop ← (match is_empty with
    | false => _ ← start_t3rtx; mret should_awake_write_loop
    | true =>
        match state with
        | ShutdownPending =>
            _ ← st_modify (fun a => a <| a_will_send_shutdown := true |>);
            _ ← set_state ShutdownSent;
            mret true
        | ShutdownReceived =>
            _ ← st_modify (fun a => a <| a_will_send_shutdown_ack := true |>);
            _ ← set_state ShutdownAckSent;
            mret true
        | _ => mret should_awake_write_loop
        end
    end);
  st_when should_awake_write_loop a_awake_write_loop.

Definition handle_sack (now : Z) (d : ChunkSelectiveAck) : AM (list Packet) :=
  state ← a_get_state;
  if decide (state <> Established /\ state <> ShutdownPending /\ state <> ShutdownReceived) then mret []
  else
    _ ← st_modify (fun a => a <| a_stats ::= inc_sacks |>);
    old ← st_get (fun a => sna32gt (a_cumulative_tsn_ack_point a) (sack_cumulative_tsn_ack d));
    match old with
    | true => mret []
    | false =>
        acks ← process_selective_ack now d;
        let bytes_acked_per_stream : Acked := fst acks in
        let htna : Z := snd acks in
        total_bytes_acked ← st_fold ((map_to_list bytes_acked_per_stream).*2)
          (fun total n => st_lift (arith_i64 (total + n))) 0;
        advanced ← st_get (fun a => sna32lt (a_cumulative_tsn_ack_point a) (sack_cumulative_tsn_ack d));
        _ ← st_when advanced
              (_ ← st_modify (fun a => a <| a_cumulative_tsn_ack_point := sack_cumulative_tsn_ack d |>);
               on_cumulative_tsn_ack_point_advanced total_bytes_acked);
        _ ← st_for (map_to_list bytes_acked_per_stream) (fun '(si, n_bytes_acked) =>
              r ← st_get (fun a => a_streams a !! si);
              match r with
              | Some r => with_stream r (fun s => Ok (on_buffer_released s n_bytes_acked))
              | None => mret tt
              end);
        _ ← st_modify (fun a =>
              let bytes_outstanding := wrap 32 (pq_n_bytes (a_inflight_queue a)) in
              a <| a_rwnd := if bytes_outstanding >=? sack_advertised_receiver_window_credit d then 0
                             else sack_advertised_receiver_window_credit d - bytes_outstanding |>);
        _ ← process_fast_retransmission (sack_cumulative_tsn_ack d) htna advanced;
        use_forward_tsn ← st_get a_use_forward_tsn;
        _ ← st_when use_forward_tsn
              (_ ← st_modify (fun a =>
                     if sna32lt (a_advanced_peer_tsn_ack_point a) (a_cumulative_tsn_ack_point a)
                     then a <| a_advanced_peer_tsn_ack_point := a_cumulative_tsn_ack_point a |> else a);
               _ ← try_advance_peer_ack_point;
               a_awake_write_loop);
        _ ← postprocess_sack state advanced;
        mret []
    end.

(** * SHUTDOWN, SHUTDOWN ACK, SHUTDOWN COMPLETE *)
Definition send_shutdown_ack : AM unit :=
  _ ← st_modify (fun a => a <| a_will_send_shutdown_ack := true |>);
  _ ← set_state ShutdownAckSent;
  a_awake_write_loop.

Definition handle_shutdown : AM (list Packet) :=
  state ← a_get_state;
  _ ← match state with
      | Established =>
          is_empty ← inflight_is_empty;
          match is_empty with
          | false => set_state ShutdownReceived
          | true => send_shutdown_ack
          end
      | ShutdownSent => send_shutdown_ack
      | _ => mret tt
      end;
  mret [].

Definition handle_shutdown_ack : AM (list Packet) :=
  state ← a_get_state;
  _ ← match state with
      | ShutdownSent | ShutdownAckSent =>
          _ ← st_modify (fun a => a <| a_t2shutdown ::= stop_timer |>
                                    <| a_will_send_shutdown_complete := true |>);
          a_awake_write_loop
      | _ => mret tt
      end;
  mret [].

Definition handle_shutdown_complete : AM (list Packet) :=
  state ← a_get_state;
  _ ← match state with
      | ShutdownAckSent =>
          _ ← st_modify (fun a => a <| a_t2shutdown ::= stop_timer |>);
          a_close
      | _ => mret tt
      end;
  mret [].

(** * RE-CONFIG and FORWARD TSN *)
Definition handle_reconfig_param (raw : Param) : AM (option Packet) :=
  match raw with
  | POutgoingResetRequest p =>
      _ ← st_modify (fun a => a <| a_reconfig_requests ::= insert (reconfig_request_sequence_number p) p |>);
      r ← reset_streams_if_any p;
      mret (Some r)
  | PReconfigResponse p =>
      _ ← st_modify (fun a => a <| a_reconfigs ::= delete (prr_response_sequence_number p) |>);
      _ ← st_modify (fun a =>
            if bool_decide (a_reconfigs a = ∅) then a <| a_treconfig ::= stop_timer |> else a);
      mret None
  | _ => st_raise ErrParamterType
  end.

Definition handle_reconfig (c : ChunkReconfig) : AM (list Packet) :=
  let one (param : option Param) (pp : list Packet) : AM (list Packet) :=
    match param with
    | Some param =>
        p ← handle_reconfig_param param;
        mret (match p with Some p => pp ++ [p] | None => pp end)
    | None => mret pp
    end in
  pp ← one (rc_param_a c) [];
  one (rc_param_b c) pp.

Definition ack_immediately : AM unit :=
  _ ← st_modify (fun a => a <| a_ack_state := AckImmediate |> <| a_ack_timer ::= fmap ack_stop |>);
  a_awake_write_loop.

(** [while sna32lt(self.peer_last_tsn, c.new_cumulative_tsn)]: [n] rounds. *)
Fixpoint skip_to_tsn (n : nat) : AM unit :=
  match n with
  | O => mret tt
  | S n' =>
      peer_last_tsn ← st_get a_peer_last_tsn;
      next ← st_lift (add32 peer_last_tsn 1);
      _ ← on_payload_queue (fun q => pq_pop q next);
      _ ← st_modify (fun a => a <| a_peer_last_tsn := next |>);
      skip_to_tsn n'
  end.

Definition handle_forward_tsn (c : ChunkForwardTsn) : AM (list Packet) :=
  use_forward_tsn ← st_get a_use_forward_tsn;
  match use_forward_tsn with
  | false =>
      outbound ← create_packet [CError (mkChunkError [ErrorCause_default])];
      mret [outbound]
  | true =>
      peer_last_tsn ← st_get a_peer_last_tsn;
      if sna32lte (ft_new_cumulative_tsn c) peer_last_tsn then
        _ ← ack_immediately;
        mret []
      else
        _ ← st_when (sna32lt peer_last_tsn (ft_new_cumulative_tsn c))
              (skip_to_tsn (Z.to_nat (dist 32 peer_last_tsn (ft_new_cumulative_tsn c))));
        refs ← st_get (fun a => (map_to_list (a_streams a)).*2);
        _ ← st_for refs (fun r =>
              with_stream r (fun s => handle_forward_tsn_for_unordered s (ft_new_cumulative_tsn c)));
        handle_peer_last_tsn_and_acknowledgement false
  end.

(** * Packets *)
Definition handle_chunk_start : AM unit :=
  st_modify (fun a => a <| a_delayed_ack_triggered := false |> <| a_immediate_ack_triggered := false |>).

Definition handle_chunk_end : AM unit :=
  immediate ← st_get a_immediate_ack_triggered;
  delayed ← st_get a_delayed_ack_triggered;
  match immediate, delayed with
  | true, _ => ack_immediately
  | false, true =>
      st_modify (fun a => a <| a_ack_state := AckDelay |>
                            <| a_ack_timer ::= fmap (fun t => snd (ack_start t)) |>)
  | false, false => mret tt
  end.

(** The environment of one packet: the clock and the random bytes. *)
Record Env := mkEnv { env_now : Z; env_random : bytes }.

Definition dispatch_chunk (env : Env) (p : Packet) (chunk : AnyChunk) : AM (list Packet) :=
  match chunk with
  | CInit c => if ci_is_ack c then handle_init_ack p c else handle_init (env_random env) p c
  | CAbort _ | CError _ => st_raise ErrChunk
  | CHeartbeat c => handle_heartbeat c
  | CCookieEcho c => handle_cookie_echo c
  | CCookieAck _ => handle_cookie_ack
  | CPayloadData c => handle_data c
  | CSelectiveAck c => handle_sack (env_now env) c
  | CReconfig c => handle_reconfig c
  | CForwardTsn c => handle_forward_tsn c
  | CShutdown _ => handle_shutdown
  | CShutdownAck _ => handle_shutdown_ack
  | CShutdownComplete _ => handle_shutdown_complete
  | CHeartbeatAck _ => st_raise ErrChunkTypeUnhandled
  end.

Definition handle_chunk (env : Env) (p : Packet) (chunk : AnyChunk) : AM unit :=
  _ ← st_lift (any_check chunk);
  packets ← dispatch_chunk env p chunk;
  st_when (negb (bool_decide (length packets = 0%nat)))
    (_ ← st_modify (fun a => a <| a_control_queue ::= fun q => q ++ packets |>);
     a_awake_write_loop).

Context {C : Crc}.

Definition handle_packet (env : Env) (p : Packet) : AM unit :=
  _ ← handle_chunk_start;
  _ ← st_for (pk_chunks p) (handle_chunk env p);
  handle_chunk_end.

(** [handle_inbound]: a packet that does not parse or does not check is
    dropped; the flags of its chunks are allocated in the store. *)
Definition handle_inbound (env : Env) (raw : bytes) : AM unit :=
  fr ← st_get (fun a => mkFresh (env_now env) (sh_next_loc (a_shared a)));
  match Packet_unmarshal fr raw with
  | Ok p =>
      _ ← st_modify (fun a => a <| a_shared ::= fun sh =>
            sh <| sh_next_loc := fr_loc (foldl fresh_next fr (pk_chunks p)) |> |>);
      match check_packet p with
      | Ok _ => handle_packet env p
      | Err _ => mret tt
      | Panic => fun a => (Panic, a)
      | OutOfFuel => fun a => (OutOfFuel, a)
      end
  | Err _ => mret tt
  | Panic => fun a => (Panic, a)
  | OutOfFuel => fun a => (OutOfFuel, a)
  end.
End receive.
