(* ===== verification/Transmit.v ===== *)
(** What the association sends: [gather_outbound] and the functions it calls,
    and the callbacks of the timers
    ([sctp/association/association_internal.rs]). *)
From S2P Require Import Prelude Serial Errors Param Chunk Packet PayloadQueue PendingQueue.
From S2P Require Import ReassemblyQueue Timer Stream Assoc Receive.

Section transmit.
Context {P : Profile}.

(** * New data *)

(** [move_pending_data_chunk_to_inflight_queue] *)
Definition pending_pop_call (beginning_fragment unordered : bool) : AM (option ChunkPayloadData) := fun a =>
  let '(popped, q) := pending_pop (sh_pending_queue (a_shared a)) beginning_fragment unordered in
  (Ok popped, a <| a_shared ::= fun sh => sh <| sh_pending_queue := q |> |>).

Definition move_pending_data_chunk_to_inflight_queue (now : Z) (beginning_fragment unordered : bool) :
    AM (option ChunkPayloadData) :=
  popped ← pending_pop_call beginning_fragment unordered;
  match popped with
  | Some c =>
      _ ← st_when (pd_ending_fragment c)
            (st_modify (fun a => a <| a_shared ::= fun sh => sh <| sh_flags ::= fun fl => set_all_inflight fl c |> |>));
      tsn ← generate_next_tsn;
      let c := c <| pd_tsn := tsn |> <| pd_since := now |> <| pd_nsent := 1 |> in
      _ ← check_partial_reliability_status c;
      _ ← on_inflight_queue (fun q => q' ← push_no_check q c; Ok (tt, q'));
      mret (Some c)
  | None => mret None
  end.

Definition peek_call : AM (option ChunkPayloadData) :=
  st_get (fun a => peek (sh_pending_queue (a_shared a))).

(** The loop [while let Some(c) = self.pending_queue.peek().await]. *)
Fixpoint pop_pending_loop (fuel : nat) (now : Z) (chunks : list ChunkPayloadData) (sis_to_reset : list Z) :
    AM (list ChunkPayloadData * list Z) :=
  match fuel with
  | O => fun a => (OutOfFuel, a)
  | S fuel' =>
      head ← peek_call;
      match head with
      | None => mret (chunks, sis_to_reset)
      | Some c =>
          let len := data_len c in
          if len =? 0 then
            _ ← pending_pop_call (pd_beginning_fragment c) (pd_unordered c);
            pop_pending_loop fuel' now chunks (sis_to_reset ++ [pd_stream_identifier c])
          else
            n_bytes ← st_get (fun a => pq_n_bytes (a_inflight_queue a));
            total ← st_lift (add64 n_bytes len);
            cwnd ← st_get a_cwnd;
            rwnd ← st_get a_rwnd;
            if (total >? cwnd) || (len >? rwnd) then mret (chunks, sis_to_reset)
            else
              rwnd' ← st_lift (sub32 rwnd (wrap 32 len));
              _ ← st_modify (fun a => a <| a_rwnd := rwnd' |>);
              moved ← move_pending_data_chunk_to_inflight_queue now (pd_beginning_fragment c)
                        (pd_unordered c);
              pop_pending_loop fuel' now
                (match moved with Some chunk => chunks ++ [chunk] | None => chunks end) sis_to_reset
      end
  end.

Definition pop_pending_data_chunks_to_send (now : Z) : AM (list ChunkPayloadData * list Z) :=
  len ← st_get (fun a => pending_len (sh_pending_queue (a_shared a)));
  if len =? 0 then mret ([], [])
  else
    n ← st_get (fun a => length (unordered_queue (sh_pending_queue (a_shared a))
                                 ++ ordered_queue (sh_pending_queue (a_shared a))));
    r ← pop_pending_loop (S n) now [] [];
    let chunks : list ChunkPayloadData := fst r in
    let sis_to_reset : list Z := snd r in
    match chunks with
    | _ :: _ => mret (chunks, sis_to_reset)
    | [] =>
        is_empty ← inflight_is_empty;
        match is_empty with
        | false => mret (chunks, sis_to_reset)
        | true =>
            (* zero window probe *)
            head ← peek_call;
            match head with
            | None => mret (chunks, sis_to_reset)
            | Some c =>
                moved ← move_pending_data_chunk_to_inflight_queue now (pd_beginning_fragment c)
                          (pd_unordered c);
                mret (match moved with Some chunk => [chunk] | None => [] end, sis_to_reset)
            end
        end
    end.

(** * Bundling *)

(** The loop of [bundle_data_chunks_into_packets], on the chunks of the packet
    under construction and its size; the result is one list of chunks per packet. *)
Fixpoint bundle_loop (mtu : Z) (chunks chunks_to_send : list ChunkPayloadData) (bytes_in_packet : Z) :
    res Error (list (list ChunkPayloadData)) :=
  match chunks with
  | [] => Ok (match chunks_to_send with [] => [] | _ => [chunks_to_send] end)
  | c :: chunks' =>
      let user_len := wrap 32 (data_len c) in
      total ← add32 bytes_in_packet user_len;
      if total >? mtu then
        size ← add32 DATA_CHUNK_HEADER_SIZE user_len;
        bytes_in_packet ← add32 COMMON_HEADER_SIZE size;
        packets ← bundle_loop mtu chunks' [c] bytes_in_packet;
        Ok (chunks_to_send :: packets)
      else
        size ← add32 DATA_CHUNK_HEADER_SIZE user_len;
        bytes_in_packet ← add32 bytes_in_packet size;
        bundle_loop mtu chunks' (chunks_to_send ++ [c]) bytes_in_packet
  end.

Definition bundle_data_chunks_into_packets (chunks : list ChunkPayloadData) : AM (list Packet) :=
  mtu ← st_get a_mtu;
  bundles ← st_lift (bundle_loop mtu chunks [] COMMON_HEADER_SIZE);
  st_get (fun a => map (fun l => mkPacket (a_source_port a) (a_destination_port a)
                                   (a_peer_verification_tag a) (map CPayloadData l)) bundles).

Context {C : Crc}.

(** [if let Ok(raw) = p.marshal() { raw_packets.push(raw) }] for each packet *)
Definition marshal_packet (raw_packets : list bytes) (p : Packet) : AM (list bytes) :=
  match Packet_marshal p with
  | Ok raw => mret (raw_packets ++ [raw])
  | Err _ => mret raw_packets
  | Panic => fun a => (Panic, a)
  | OutOfFuel => fun a => (OutOfFuel, a)
  end.

Definition marshal_packets (packets : list Packet) (raw_packets : list bytes) : AM (list bytes) :=
  st_fold packets marshal_packet raw_packets.

(** * Retransmission *)

(** The loop of [get_data_packets_to_retransmit], from index [i] on. *)
Fixpoint retransmit_loop (fuel : nat) (awnd : Z) (i bytes_to_send : Z) (chunks : list ChunkPayloadData) :
    AM (list ChunkPayloadData) :=
  match fuel with
  | O => fun a => (OutOfFuel, a)
  | S fuel' =>
      tsn ← (t ← st_get a_cumulative_tsn_ack_point; t ← st_lift (add32 t i); st_lift (add32 t 1));
      found ← st_get (fun a => pq_get (a_inflight_queue a) tsn);
      match found with
      | None => mret chunks
      | Some c =>
          next ← st_lift (add32 i 1);
          if negb (pd_retransmit c) then retransmit_loop fuel' awnd next bytes_to_send chunks
          else
            rwnd ← st_get a_rwnd;
            let probe := (i =? 0) && (rwnd <? wrap 32 (data_len c)) in
            total ← st_lift (add64 bytes_to_send (data_len c));
            if negb probe && (total >? awnd) then mret chunks
            else
              nsent ← st_lift (add32 (pd_nsent c) 1);
              let c := c <| pd_retransmit := false |> <| pd_nsent := nsent |> in
              _ ← update_inflight tsn c;
              _ ← check_partial_reliability_status c;
              let chunks := chunks ++ [c] in
              if probe then mret chunks else retransmit_loop fuel' awnd next total chunks
      end
  end.

Definition get_data_packets_to_retransmit : AM (list Packet) :=
  awnd ← st_get (fun a => Z.min (a_cwnd a) (a_rwnd a));
  size ← st_get (fun a => size (pq_chunk_map (a_inflight_queue a)));
  chunks ← retransmit_loop (S size) awnd 0 0 [];
  bundle_data_chunks_into_packets chunks.

Definition gather_data_packets_to_retransmit (raw_packets : list bytes) : AM (list bytes) :=
  packets ← get_data_packets_to_retransmit;
  marshal_packets packets raw_packets.

Definition gather_outbound_data_and_reconfig_packets (now : Z) (raw_packets : list bytes) :
    AM (list bytes) :=
  r ← pop_pending_data_chunks_to_send now;
  let chunks : list ChunkPayloadData := fst r in
  let sis_to_reset : list Z := snd r in
  raw_packets ← (match chunks with
    | [] => mret raw_packets
    | _ =>
        _ ← start_t3rtx;
        packets ← bundle_data_chunks_into_packets chunks;
        marshal_packets packets raw_packets
    end);
  will_retransmit_reconfig ← st_get a_will_retransmit_reconfig;
  match negb (bool_decide (length sis_to_reset = 0%nat)) || will_retransmit_reconfig with
  | false => mret raw_packets
  | true =>
      raw_packets ← (match will_retransmit_reconfig with
        | false => mret raw_packets
        | true =>
            _ ← st_modify (fun a => a <| a_will_retransmit_reconfig := false |>);
            cs ← st_get (fun a => (map_to_list (a_reconfigs a)).*2);
            st_fold cs (fun raws c => p ← create_packet [CReconfig c]; marshal_packet raws p) raw_packets
        end);
      raw_packets ← (match sis_to_reset with
        | [] => mret raw_packets
        | _ =>
            rsn ← generate_next_rsn;
            my_next_tsn ← st_get a_my_next_tsn;
            tsn ← st_lift (sub32 my_next_tsn 1);
            let c := mkChunkReconfig
              (Some (POutgoingResetRequest (mkParamOutgoingResetRequest rsn 0 tsn sis_to_reset))) None in
            _ ← st_modify (fun a => a <| a_reconfigs ::= insert rsn c |>);
            p ← create_packet [CReconfig c];
            marshal_packet raw_packets p
        end);
      any ← st_get (fun a => negb (bool_decide (a_reconfigs a = ∅)));
      _ ← st_when any start_treconfig;
      mret raw_packets
  end.

(** The loop of [gather_outbound_fast_retransmission_packets]. *)
Fixpoint fast_retransmit_loop (fuel : nat) (i fast_retrans_size : Z) (to_fast_retrans : list ChunkPayloadData) :
    AM (list ChunkPayloadData) :=
  match fuel with
  | O => fun a => (OutOfFuel, a)
  | S fuel' =>
      tsn ← (t ← st_get a_cumulative_tsn_ack_point; t ← st_lift (add32 t i); st_lift (add32 t 1));
      found ← st_get (fun a => pq_get (a_inflight_queue a) tsn);
      match found with
      | None => mret to_fast_retrans
      | Some c =>
          next ← st_lift (add32 i 1);
          abandoned ← st_get (fun a => ChunkPayloadData_abandoned (sh_flags (a_shared a)) c);
          if pd_acked c || abandoned || (pd_nsent c >? 1) || (pd_miss_indicator c <? 3)
          then fast_retransmit_loop fuel' next fast_retrans_size to_fast_retrans
          else
            mtu ← st_get a_mtu;
            data_chunk_size ← st_lift (add32 DATA_CHUNK_HEADER_SIZE (wrap 32 (data_len c)));
            total ← st_lift (add32 fast_retrans_size data_chunk_size);
            if mtu <? total then mret to_fast_retrans
            else
              _ ← st_modify (fun a => a <| a_stats ::= inc_fast_retrans |>);
              nsent ← st_lift (add32 (pd_nsent c) 1);
              let c := c <| pd_nsent := nsent |> in
              _ ← update_inflight tsn c;
              _ ← check_partial_reliability_status c;
              fast_retransmit_loop fuel' next total (to_fast_retrans ++ [c])
      end
  end.

Definition gather_outbound_fast_retransmission_packets (raw_packets : list bytes) : AM (list bytes) :=
  will ← st_get a_will_retransmit_fast;
  match will with
  | false => mret raw_packets
  | true =>
      _ ← st_modify (fun a => a <| a_will_retransmit_fast := false |>);
      size ← st_get (fun a => size (pq_chunk_map (a_inflight_queue a)));
      to_fast_retrans ← fast_retransmit_loop (S size) 0 COMMON_HEADER_SIZE [];
      match to_fast_retrans with
      | [] => mret raw_packets
      | _ =>
          p ← create_packet (map CPayloadData to_fast_retrans);
          marshal_packet raw_packets p
      end
  end.

(** * SACK, FORWARD TSN, SHUTDOWN *)
Definition create_selective_ack_chunk : AM ChunkSelectiveAck :=
  peer_last_tsn ← st_get a_peer_last_tsn;
  credit ← get_my_receiver_window_credit;
  q ← st_get a_payload_queue;
  blocks ← st_lift (get_gap_ack_blocks q peer_last_tsn);
  _ ← st_modify (fun a => a <| a_payload_queue ::= fun q => snd (pop_duplicates q) |>);
  mret (mkChunkSelectiveAck peer_last_tsn credit blocks (fst (pop_duplicates q))).

Definition gather_outbound_sack_packets (raw_packets : list bytes) : AM (list bytes) :=
  ack_state ← st_get a_ack_state;
  match ack_state with
  | AckImmediate =>
      _ ← st_modify (fun a => a <| a_ack_state := AckIdle |>);
      sack ← create_selective_ack_chunk;
      p ← create_packet [CSelectiveAck sack];
      marshal_packet raw_packets p
  | _ => mret raw_packets
  end.

(** The stream map of [create_forward_tsn]: the greatest SSN per stream. *)
Fixpoint forward_tsn_map (fuel : nat) (q : PayloadQueue) (i last : Z) (stream_map : gmap Z Z) :
    res Error (gmap Z Z) :=
  if sna32lte i last then
    match fuel with
    | O => OutOfFuel
    | S fuel' =>
        match pq_get q i with
        | None => Ok stream_map
        | Some c =>
            let stream_map :=
              match stream_map !! pd_stream_identifier c with
              | Some ssn =>
                  if sna16lt ssn (pd_stream_sequence_number c)
                  then <[pd_stream_identifier c := pd_stream_sequence_number c]> stream_map
                  else stream_map
              | None => <[pd_stream_identifier c := pd_stream_sequence_number c]> stream_map
              end in
            next ← add32 i 1;
            forward_tsn_map fuel' q next last stream_map
        end
    end
  else Ok stream_map.

Definition create_forward_tsn : AM ChunkForwardTsn :=
  i ← (t ← st_get a_cumulative_tsn_ack_point; st_lift (add32 t 1));
  q ← st_get a_inflight_queue;
  last ← st_get a_advanced_peer_tsn_ack_point;
  stream_map ← st_lift (forward_tsn_map (S (size (pq_chunk_map q))) q i last ∅);
  mret (mkChunkForwardTsn last (map (fun '(si, ssn) => mkChunkForwardTsnStream si ssn) (map_to_list stream_map))).

Definition gather_outbound_forward_tsn_packets (raw_packets : list bytes) : AM (list bytes) :=
  will ← st_get a_will_send_forward_tsn;
  match will with
  | false => mret raw_packets
  | true =>
      _ ← st_modify (fun a => a <| a_will_send_forward_tsn := false |>);
      ahead ← st_get (fun a => sna32gt (a_advanced_peer_tsn_ack_point a) (a_cumulative_tsn_ack_point a));
      match ahead with
      | false => mret raw_packets
      | true =>
          fwd_tsn ← create_forward_tsn;
          p ← create_packet [CForwardTsn fwd_tsn];
          marshal_packet raw_packets p
      end
  end.

(** A packet of the shutdown sequence; [after] runs when it was marshalled. *)
Definition gather_shutdown_chunk (c : AnyChunk) (after : AM unit) (ok : bool) (raw_packets : list bytes) :
    AM (list bytes * bool) :=
  p ← create_packet [c];
  match Packet_marshal p with
  | Ok raw => _ ← after; mret (raw_packets ++ [raw], ok)
  | Err _ => mret (raw_packets, true)
  | Panic => fun a => (Panic, a)
  | OutOfFuel => fun a => (OutOfFuel, a)
  end.

Definition gather_outbound_shutdown_packets (raw_packets : list bytes) : AM (list bytes * bool) :=
  will_send_shutdown ← st_get a_will_send_shutdown;
  will_send_shutdown_ack ← st_get a_will_send_shutdown_ack;
  will_send_shutdown_complete ← st_get a_will_send_shutdown_complete;
  match will_send_shutdown, will_send_shutdown_ack, will_send_shutdown_complete with
  | true, _, _ =>
      _ ← st_modify (fun a => a <| a_will_send_shutdown := false |>);
      cumulative_tsn_ack ← st_get a_cumulative_tsn_ack_point;
      gather_shutdown_chunk (CShutdown (mkChunkShutdown cumulative_tsn_ack)) start_t2shutdown true raw_packets
  | false, true, _ =>
      _ ← st_modify (fun a => a <| a_will_send_shutdown_ack := false |>);
      gather_shutdown_chunk (CShutdownAck mkChunkShutdownAck) start_t2shutdown true raw_packets
  | false, false, true =>
      _ ← st_modify (fun a => a <| a_will_send_shutdown_complete := false |>);
      gather_shutdown_chunk (CShutdownComplete mkChunkShutdownComplete) (mret tt) false raw_packets
  | false, false, false => mret (raw_packets, true)
  end.

Definition gather_outbound (now : Z) : AM (list bytes * bool) :=
  control ← st_get a_control_queue;
  _ ← st_modify (fun a => a <| a_control_queue := [] |>);
  raw_packets ← marshal_packets control [];
  state ← a_get_state;
  match state with
  | Established =>
      raw_packets ← gather_data_packets_to_retransmit raw_packets;
      raw_packets ← gather_outbound_data_and_reconfig_packets now raw_packets;
      raw_packets ← gather_outbound_fast_retransmission_packets raw_packets;
      raw_packets ← gather_outbound_sack_packets raw_packets;
      raw_packets ← gather_outbound_forward_tsn_packets raw_packets;
      mret (raw_packets, true)
  | ShutdownPending | ShutdownSent | ShutdownReceived =>
      raw_packets ← gather_data_packets_to_retransmit raw_packets;
      raw_packets ← gather_outbound_fast_retransmission_packets raw_packets;
      raw_packets ← gather_outbound_sack_packets raw_packets;
      gather_outbound_shutdown_packets raw_packets
  | ShutdownAckSent => gather_outbound_shutdown_packets raw_packets
  | _ => mret (raw_packets, true)
  end.

(** * Timer callbacks *)
Definition on_ack_timeout : AM unit :=
  _ ← st_modify (fun a => a <| a_stats ::= inc_ack_timeouts |> <| a_ack_state := AckImmediate |>);
  a_awake_write_loop.

(** The errors of [send_init] and [send_cookie_echo] are logged and dropped. *)
Definition ignore_error (m : AM unit) : AM unit := fun a =>
  match m a with
  | (Err _, a') => (Ok tt, a')
  | r => r
  end.

Definition on_retransmission_timeout (id : RtxTimerId) (n_rtos : nat) : AM unit :=
  match id with
  | T1Init => ignore_error send_init
  | T1Cookie => ignore_error send_cookie_echo
  | T2Shutdown =>
      state ← a_get_state;
      match state with
      | ShutdownSent =>
          _ ← st_modify (fun a => a <| a_will_send_shutdown := true |>);
          a_awake_write_loop
      | ShutdownAckSent =>
          _ ← st_modify (fun a => a <| a_will_send_shutdown_ack := true |>);
          a_awake_write_loop
      | _ => mret tt
      end
  | T3RTX =>
      _ ← st_modify (fun a => a <| a_stats ::= inc_t3timeouts |>);
      cwnd ← st_get a_cwnd;
      mtu ← st_get a_mtu;
      mtu4 ← st_lift (mul32 4 mtu);
      _ ← st_modify (fun a => a <| a_ssthresh := Z.max (cwnd / 2) mtu4 |> <| a_cwnd := mtu |>);
      use_forward_tsn ← st_get a_use_forward_tsn;
      _ ← st_when use_forward_tsn try_advance_peer_ack_point;
      _ ← st_modify (fun a =>
            a <| a_inflight_queue ::= mark_all_to_retrasmit (sh_flags (a_shared a)) |>);
      a_awake_write_loop
  | Reconfig =>
      _ ← st_modify (fun a => a <| a_will_retransmit_reconfig := true |>);
      a_awake_write_loop
  end.

Definition on_retransmission_failure (id : RtxTimerId) : AM unit :=
  match id with
  | T1Init => handshake_completed (Some ErrHandshakeInitAck)
  | T1Cookie => handshake_completed (Some ErrHandshakeCookieEcho)
  | _ => mret tt
  end.
End transmit.
