(* ===== verification/Tame.v ===== *)
(** The calls the association makes on its parts do not panic, except for an
    arithmetic overflow in a build that checks for it ([tame] of the prelude):
    queue operations, RTT measurement, stream callbacks, marshalling. *)
From S2P Require Import Prelude Serial Errors Param Chunk ChunkLaws Packet PacketLaws PayloadQueue.
From S2P Require Import PendingQueue ReassemblyQueue Timer Stream.

(** * Queues *)
Section queues.
Context {P : Profile}.

Lemma tame_push_no_check q p : tame (push_no_check q p).
Proof. unfold push_no_check. solve_tame. Qed.

Lemma tame_pq_push q p c : tame (pq_push q p c).
Proof. unfold pq_push. destruct (_ || _); [done|]. apply tame_bind; [apply tame_push_no_check|done]. Qed.

Lemma tame_pq_pop q t : tame (pq_pop q t).
Proof. unfold pq_pop. solve_tame. Qed.

Lemma tame_mark_as_acked q t : tame (mark_as_acked q t).
Proof. unfold mark_as_acked. solve_tame. Qed.

Lemma tame_gap_ack_loop c l : forall b, tame (gap_ack_loop c b l).
Proof.
  induction l as [|t l IH]; intros b; cbn [gap_ack_loop]; [done|].
  apply tame_bind; [apply tame_arith|]. intros next _. destruct (_ =? _); [apply IH|].
  apply tame_bind; [apply IH|]. done.
Qed.

Lemma tame_get_gap_ack_blocks q c : tame (get_gap_ack_blocks q c).
Proof.
  unfold get_gap_ack_blocks. destruct (bool_decide _); [done|].
  destruct (pq_sorted q); [done|]. apply tame_gap_ack_loop.
Qed.

Lemma pq_is_empty_wf c q : pq_wf c q -> pq_is_empty q = Ok (size (pq_chunk_map q) =? 0)%nat.
Proof.
  intros Hq. unfold pq_is_empty. rewrite (pq_len_wf c q Hq). cbn. f_equal.
  destruct (Nat.eqb_spec (size (pq_chunk_map q)) 0); [apply Z.eqb_eq|apply Z.eqb_neq]; lia.
Qed.

(** ** Errors: the arithmetic of the queues raises none *)
Lemma push_no_check_not_Err q p e : push_no_check q p <> Err e.
Proof.
  unfold push_no_check. destruct (arith _ _) eqn:Ha; try done. by apply arith_not_Err in Ha.
Qed.

Lemma pq_push_not_Err q p c e : pq_push q p c <> Err e.
Proof.
  unfold pq_push. destruct (_ || _); [done|]. destruct (push_no_check q p) eqn:H; try done.
  by apply push_no_check_not_Err in H.
Qed.

Lemma gap_ack_loop_not_Err c l e : forall b, gap_ack_loop c b l <> Err e.
Proof.
  induction l as [|t l IH]; intros b; cbn [gap_ack_loop]; [done|].
  destruct (arith _ _) eqn:Ha; try done; [|by apply arith_not_Err in Ha]. cbn [mbind res_bind].
  destruct (_ =? _); [apply IH|]. specialize (IH (mkGapAckBlock (gap_diff c t) (gap_diff c t))).
  by destruct (gap_ack_loop _ _ _).
Qed.

Lemma get_gap_ack_blocks_not_Err q c e : get_gap_ack_blocks q c <> Err e.
Proof.
  unfold get_gap_ack_blocks. destruct (bool_decide _); [done|].
  destruct (pq_sorted q); [done|]. apply gap_ack_loop_not_Err.
Qed.
End queues.

(** * Reassembly, streams and timers *)
Section streams.
Context {P : Profile}.

Lemma tame_contiguous_after l : forall t, tame (contiguous_after t l).
Proof.
  induction l as [|c l IH]; intros t; cbn [contiguous_after]; [done|].
  apply tame_bind; [apply tame_arith|]. intros next _. destruct (negb _); [done|apply IH].
Qed.

Lemma tame_is_complete s : tame (ChunkSet_is_complete s).
Proof. unfold ChunkSet_is_complete. repeat case_match; try done. apply tame_contiguous_after. Qed.

Lemma tame_ChunkSet_push s c : tame (ChunkSet_push s c).
Proof. unfold ChunkSet_push. destruct (existsb _ _); [done|]. apply tame_bind; [apply tame_is_complete|done]. Qed.

Lemma tame_scan_unordered l : forall i start n t, tame (scan_unordered i start n t l).
Proof.
  induction l as [|c l IH]; intros i start n t; cbn [scan_unordered]; [done|].
  destruct (pd_beginning_fragment c), (pd_ending_fragment c); try done; try apply IH;
    (destruct (start <? 0); [apply IH|]); (apply tame_bind; [apply tame_arith|]); intros next _;
    by destruct (negb _).
Qed.

(** The range the scan finds is not empty, so the first chunk of the set exists. *)
Lemma tame_find_complete q : tame (find_complete_unordered_chunk_set q).
Proof.
  unfold find_complete_unordered_chunk_set. apply tame_bind; [apply tame_scan_unordered|].
  intros [[s m]|] Hscan; [|done].
  destruct (scan_sound (rq_unordered_chunks q) [] (-1) 0 0 s m) as (p & seg & r & Heq & -> & -> & Hseg);
    [left; lia|done|]. cbn [app] in Heq. rewrite Heq, drop_app_length, take_app_length.
  apply tame_bind; [|done]. destruct seg as [|c seg]; [done|]. done.
Qed.

Lemma tame_push_existing l c : tame (push_existing l c).
Proof.
  induction l as [|s l IH]; cbn [push_existing]; [done|]. destruct (_ =? _).
  - apply tame_bind; [apply tame_ChunkSet_push|]. by intros [ok s'] _.
  - by apply tame_bind.
Qed.

Lemma tame_rq_push q c : tame (rq_push q c).
Proof.
  unfold rq_push. repeat (case_match; try done).
  - apply tame_bind; [apply tame_arith|]. intros n _. apply tame_bind; [apply tame_find_complete|].
    intros [[|] q'] _; done.
  - apply tame_bind; [apply tame_arith|]. intros n _. apply tame_bind; [apply tame_push_existing|].
    intros [[ok l]|] _; [done|]. apply tame_bind; [apply tame_ChunkSet_push|]. by intros [ok s] _.
Qed.

Lemma tame_is_readable q : tame (is_readable q).
Proof. unfold is_readable. repeat (case_match; try done). apply tame_bind; [apply tame_is_complete|done]. Qed.

Lemma tame_stream_handle_data s c : tame (stream_handle_data s c).
Proof.
  unfold stream_handle_data. apply tame_bind; [apply tame_rq_push|]. intros [pushed q] _.
  apply tame_bind; [|done]. destruct pushed; [apply tame_is_readable|done].
Qed.

Lemma tame_handle_forward_tsn_for_unordered s t : tame (handle_forward_tsn_for_unordered s t).
Proof. unfold handle_forward_tsn_for_unordered. apply tame_bind; [apply tame_is_readable|done]. Qed.

Lemma tame_arith_i64 z : tame (arith_i64 z).
Proof. unfold arith_i64. destruct (_ && _); [done|]. by destruct overflow_checks eqn:H. Qed.

Lemma tame_set_new_rtt m rtt : tame (set_new_rtt m rtt).
Proof.
  unfold set_new_rtt. destruct (no_update m); [done|].
  apply tame_bind; [|intros; apply tame_bind; [apply tame_arith|done]].
  destruct (srtt m =? 0); [done|].
  repeat (apply tame_bind; [first [apply tame_arith_i64|apply tame_arith]|intros]). done.
Qed.

(** The stream's limits are not touched by what its association does to it. *)
Lemma stream_handle_data_payload_size s c s' : stream_handle_data s c = Ok s' ->
  st_max_payload_size s' = st_max_payload_size s.
Proof.
  unfold stream_handle_data. intros H. invert_Ok; unfold notify_if, notify_one; by repeat case_match.
Qed.

Lemma handle_forward_tsn_payload_size s t s' : handle_forward_tsn_for_unordered s t = Ok s' ->
  st_max_payload_size s' = st_max_payload_size s.
Proof.
  unfold handle_forward_tsn_for_unordered. intros H. invert_Ok; unfold notify_if, notify_one; by repeat case_match.
Qed.

Lemma on_buffer_released_payload_size s n :
  st_max_payload_size (on_buffer_released s n) = st_max_payload_size s.
Proof. unfold on_buffer_released. by repeat case_match. Qed.
End streams.

(** * Marshalling *)
Section marshalling.
Context {P : Profile} {C : Crc}.

Lemma tame_ParamHeader_marshal h w : tame (ParamHeader_marshal_to h w).
Proof. unfold ParamHeader_marshal_to. solve_tame. Qed.

Lemma tame_ChunkHeader_marshal h w : tame (ChunkHeader_marshal_to h w).
Proof. unfold ChunkHeader_marshal_to. solve_tame. Qed.
#[local] Hint Resolve tame_ParamHeader_marshal tame_ChunkHeader_marshal : tame.

Lemma tame_p_marshal (p : Param) : tame (p_marshal p).
Proof.
  unfold p_marshal. destruct p; cbn;
    unfold ParamForwardTsnSupported_marshal_to, ParamSupportedExtensions_marshal_to, ParamRandom_marshal_to,
      ParamRequestedHmacAlgorithm_marshal_to, ParamChunkList_marshal_to, ParamStateCookie_marshal_to,
      ParamHeartbeatInfo_marshal_to, ParamOutgoingResetRequest_marshal_to, ParamReconfigResponse_marshal_to;
    solve_tame.
Qed.
#[local] Hint Resolve tame_p_marshal : tame.

Lemma tame_params_marshal l : forall w, tame (params_marshal_to l w).
Proof.
  induction l as [|p [|q l] IH]; intros w; cbn [params_marshal_to]; [done|solve_tame|].
  apply tame_bind; [apply tame_p_marshal|]. intros pp _. apply IH.
Qed.

Lemma tame_params_extend l : forall w, tame (params_extend l w).
Proof.
  induction l as [|p l IH]; intros w; cbn [params_extend]; [done|].
  apply tame_bind; [apply tame_p_marshal|]. intros pp _. apply IH.
Qed.
#[local] Hint Resolve tame_params_marshal tame_params_extend : tame.

Lemma tame_any_marshal c : tame (any_marshal c).
Proof. unfold any_marshal. destruct c; cbn [via]; chunk_methods; solve_tame.
  by destruct (hba_params c).
Qed.

Lemma tame_any_check c : tame (any_check c).
Proof. unfold any_check. destruct c; cbn; try done. unfold ChunkInit_check. solve_tame. Qed.

Lemma tame_marshal_chunks l : forall w, tame (marshal_chunks l w).
Proof.
  induction l as [|c l IH]; intros w; cbn [marshal_chunks]; [done|].
  apply tame_bind; [apply tame_any_marshal|]. intros raw _. apply IH.
Qed.

Lemma tame_Packet_marshal p : tame (Packet_marshal p).
Proof.
  unfold Packet_marshal, Packet_marshal_to. apply tame_bind; [apply tame_marshal_chunks|done].
Qed.

Lemma tame_check_packet p : tame (check_packet p).
Proof.
  unfold check_packet. do 2 (destruct (_ =? _); [done|]).
  induction (pk_chunks p) as [|c l IH]; cbn [check_chunks]; [done|].
  apply tame_bind; [destruct c; solve_tame|done].
Qed.
End marshalling.
