(* ===== verification/Invariant.v ===== *)
(** The invariant of the association, and the rules to show that a call keeps it.

    [core a] is the part of the state the invariant speaks about: the state
    machine, the two TSN queues with the counters they are relative to, the
    pending queue and the stream table.  A call [frames] when it leaves the core
    as it is; the tactic [frame] proves that for calls built from assignments to
    the other fields.  [sent_wf] is the invariant of the sending side: the chunks
    in flight are exactly the TSNs between the cumulative ack point and the next
    TSN to be used. *)
From S2P Require Import Prelude Serial Errors Param Chunk Packet PayloadQueue PendingQueue.
From S2P Require Import ReassemblyQueue Timer Stream Assoc Receive Transmit Tame.

(** * The chunks in flight *)
Record sent_wf (c next : Z) (q : PayloadQueue) : Prop := {
  sw_queue : pq_wf c q;
  sw_contiguous t : is_Some (pq_chunk_map q !! t) <->
    in_range 32 t /\ 0 < dist 32 c t <= Z.of_nat (size (pq_chunk_map q));
  sw_next : next = wrap 32 (c + 1 + Z.of_nat (size (pq_chunk_map q)))
}.

Lemma pq_wf_empty c c' q : pq_wf c q -> pq_chunk_map q = ∅ -> in_range 32 c' -> pq_wf c' q.
Proof.
  intros Hq He Hc'. pose proof (wf_size _ _ Hq) as Hs. rewrite He, map_size_empty in Hs.
  apply nil_length_inv in Hs. destruct Hq as [_ _ _ Hk Ht Hl Hb]. split; rewrite ?Hs in *; done || constructor.
Qed.

Lemma sent_wf_empty c q : pq_wf c q -> pq_chunk_map q = ∅ -> sent_wf c (wrap 32 (c + 1)) q.
Proof.
  intros Hq He. split; [done| |]; rewrite He, map_size_empty; [|f_equal; lia].
  intros t. rewrite lookup_empty. split; [by intros []|lia].
Qed.

Lemma wrap32_add a b : wrap 32 (wrap 32 a + b) = wrap 32 (a + b).
Proof. unfold wrap. by rewrite Zplus_mod_idemp_l. Qed.

Section sent.
Context {P : Profile} (c next : Z) (q : PayloadQueue) (Hq : sent_wf c next q).

Lemma sent_size : Z.of_nat (size (pq_chunk_map q)) <= 2 ^ 31.
Proof using Hq.
  destruct Hq as [Hwf Hcont _]. pose proof (wf_cum _ _ Hwf) as Hc.
  pose proof (wf_size_bound _ _ Hwf) as Hb.
  destruct (decide (size (pq_chunk_map q) = 0%nat)) as [->|Hne]; [done|].
  set (n := Z.of_nat (size (pq_chunk_map q))) in *.
  destruct (Z.eq_dec n (2 ^ 32)) as [Hn|Hn].
  { exfalso. destruct (wf_in_window _ _ Hwf (wrap 32 (c + (2 ^ 31 + 1)))) as [_ Hw].
    - apply Hcont. split; [apply wrap_range; lia|]. rewrite dist32_add by (done || lia). lia.
    - rewrite dist32_add in Hw by (done || lia). lia. }
  destruct (wf_in_window _ _ Hwf (wrap 32 (c + n))) as [_ Hw].
  - apply Hcont. split; [apply wrap_range; lia|]. rewrite dist32_add by (done || lia). lia.
  - rewrite dist32_add in Hw by (done || lia). lia.
Qed.

(** A run of TSNs from the first one in flight is no longer than the queue. *)
Lemma sent_run j : 0 <= j < 2 ^ 32 - 1 -> is_Some (pq_chunk_map q !! wrap 32 (c + 1 + j)) ->
  j < Z.of_nat (size (pq_chunk_map q)).
Proof using Hq.
  destruct Hq as [Hwf Hcont _]. intros Hj [_ Hd]%Hcont.
  replace (c + 1 + j) with (c + (1 + j)) in Hd by lia.
  rewrite dist32_add in Hd by (apply (wf_cum _ _ Hwf) || lia). lia.
Qed.

Lemma sent_wf_push p q' : Z.of_nat (size (pq_chunk_map q)) < 2 ^ 31 -> pd_tsn p = next ->
  push_no_check q p = Ok q' ->
  sent_wf c (wrap 32 (next + 1)) q' /\ pq_chunk_map q' = <[next := p]> (pq_chunk_map q).
Proof using Hq.
  destruct Hq as [Hwf Hcont Hnext]. intros Hs Hp Hpush. pose proof (wf_cum _ _ Hwf) as Hc.
  set (n := Z.of_nat (size (pq_chunk_map q))) in *.
  assert (Hd : dist 32 c next = 1 + n).
  { rewrite Hnext. replace (c + 1 + n) with (c + (1 + n)) by lia. apply dist32_add; [done|lia]. }
  assert (Hr : in_range 32 next) by (rewrite Hnext; apply wrap_range; lia).
  assert (Hnone : pq_chunk_map q !! next = None).
  { apply eq_None_not_Some. intros [_ H]%Hcont. lia. }
  destruct (push_no_check_wf c q p q' Hwf) as (Hwf' & Hm & _); rewrite ?Hp; [done| |done|].
  { split; [done|lia]. }
  rewrite Hp in Hm. split; [|done].
  assert (Hsize : Z.of_nat (size (pq_chunk_map q')) = n + 1).
  { rewrite Hm, map_size_insert_None by done. lia. }
  split; [done| |]; rewrite Hsize.
  - intros t. rewrite Hm. destruct (decide (t = next)) as [->|Hne].
    + rewrite lookup_insert_eq. split; [intros _; split; [done|lia]|eauto].
    + rewrite lookup_insert_ne by done. rewrite Hcont. split; [intros [? ?]; split; [done|lia]|].
      intros [Ht ?]. split; [done|]. assert (dist 32 c t <> 1 + n); [|lia].
      intros Heq. apply Hne, (dist32_inj c); congruence.
  - rewrite Hnext, wrap32_add. f_equal. lia.
Qed.

Lemma sent_wf_pop p q' : pq_pop q (wrap 32 (c + 1)) = Ok (Some p, q') ->
  sent_wf (wrap 32 (c + 1)) next q' /\ S (size (pq_chunk_map q')) = size (pq_chunk_map q).
Proof using Hq.
  destruct Hq as [Hwf Hcont Hnext]. intros Hpop. pose proof (wf_cum _ _ Hwf) as Hc.
  destruct (pq_pop_next c q _ _ Hwf Hpop) as (Hwf' & Hp & Hm & _). symmetry in Hp.
  assert (Hsize : S (size (pq_chunk_map q')) = size (pq_chunk_map q)).
  { rewrite Hm, map_size_delete_Some by eauto. destruct (size (pq_chunk_map q)) eqn:Hz; [|done].
    apply map_size_empty_inv in Hz. rewrite Hz in Hp. done. }
  split; [|done]. pose proof sent_size as Hbound. split; [done| |].
  - intros t. pose proof (wrap_range 32 (c + 1) ltac:(lia)) as Hr.
    replace (pq_chunk_map q' !! t) with (delete (wrap 32 (c + 1)) (pq_chunk_map q) !! t) by (by rewrite Hm).
    destruct (decide (t = wrap 32 (c + 1))) as [->|Hne].
    + rewrite lookup_delete_eq, dist_self. split; [by intros []|lia].
    + rewrite lookup_delete_ne, Hcont by done.
      assert (Hd1 : dist 32 c (wrap 32 (c + 1)) = 1) by (apply dist32_add; [done|lia]).
      split; intros [Ht Hd]; (split; [done|]).
      * assert (dist 32 c t <> 1) by (intros Heq; apply Hne, (dist32_inj c); congruence).
        rewrite dist32_succ by (done || lia). lia.
      * destruct (Z.eq_dec (dist 32 c t) 0) as [Hz|Hz].
        { apply (dist32_zero c t) in Hz; [|done..]. subst t. exfalso.
          assert (dist 32 (wrap 32 (c + 1)) c = 2 ^ 32 - 1) by (clear -Hc; serial_arith). lia. }
        rewrite dist32_succ in Hd by (done || (pose proof (dist_range 32 c t ltac:(lia)); lia)). lia.
  - replace (wrap 32 (c + 1) + 1 + Z.of_nat (size (pq_chunk_map q')))
      with (wrap 32 (c + 1) + (1 + Z.of_nat (size (pq_chunk_map q')))) by lia.
    rewrite wrap32_add, Hnext. f_equal. lia.
Qed.

(** Updates that keep the TSNs in flight. *)
Lemma sent_wf_dom q' : pq_wf c q' -> dom (pq_chunk_map q') = dom (pq_chunk_map q) -> sent_wf c next q'.
Proof using Hq.
  destruct Hq as [Hwf Hcont Hnext]. intros Hwf' Hdom.
  assert (Hsize : size (pq_chunk_map q') = size (pq_chunk_map q)) by (by rewrite <- !size_dom, Hdom).
  split; [done| |by rewrite Hsize].
  intros t. by rewrite Hsize, <- Hcont, <- !elem_of_dom, Hdom.
Qed.

Lemma sent_wf_update t p p' : pq_chunk_map q !! t = Some p ->
  data_len p' = data_len p -> pd_tsn p' = pd_tsn p ->
  sent_wf c next (q <| pq_chunk_map ::= insert t p' |>).
Proof using Hq.
  intros Hp Hl Ht. apply sent_wf_dom; [by apply (pq_wf_update c q t p p'); [apply (sw_queue _ _ _ Hq)|..]|].
  cbn. rewrite dom_insert_L. assert (t ∈ dom (pq_chunk_map q)) by (apply elem_of_dom; eauto).
  apply set_eq. intros x. rewrite elem_of_union, elem_of_singleton. split; [by intros [->|?]|auto].
Qed.

Lemma sent_wf_retransmit fl : sent_wf c next (mark_all_to_retrasmit fl q).
Proof using Hq.
  apply sent_wf_dom; [by apply mark_all_to_retrasmit_wf, (sw_queue _ _ _ Hq)|].
  unfold mark_all_to_retrasmit. cbn. apply dom_fmap_L.
Qed.

Lemma sent_wf_acked t n q' : mark_as_acked q t = Ok (n, q') -> sent_wf c next q'.
Proof using Hq.
  intros H. destruct (mark_as_acked_wf c q t n q' (sw_queue _ _ _ Hq) H) as (Hwf & Hdom & _).
  by apply sent_wf_dom.
Qed.
End sent.

(** * The core of the state *)
Record Core := mkCore {
  co_state : AssociationState;
  co_pending : PendingQueue;
  co_last : Z;
  co_payload : PayloadQueue;
  co_cum : Z;
  co_next : Z;
  co_inflight : PayloadQueue;
  co_streams : gmap Z nat;
  co_heap : gmap nat Stream;
  co_max_payload : Z;
  co_accept : option AcceptCh;
  co_done : list (option Error);
  co_open : bool;
  co_will_shutdown : bool
}.

Definition core (a : Assoc) : Core :=
  mkCore (get_state (a_shared a)) (sh_pending_queue (a_shared a)) (a_peer_last_tsn a) (a_payload_queue a)
    (a_cumulative_tsn_ack_point a) (a_my_next_tsn a) (a_inflight_queue a) (a_streams a) (a_heap a)
    (a_max_payload_size a) (a_accept_ch a) (a_handshake_completed a) (a_close_loop a)
    (a_will_send_shutdown a).

(** The states before the handshake is over; [Closed] is also the last state. *)
Definition early (s : AssociationState) : Prop :=
  match s with Closed | CookieWait | CookieEchoed => True | _ => False end.

(** [c] is the TSN the queue in flight is relative to: the cumulative ack point,
    but in the middle of the handling of a SACK. *)
Record core_wf (c : Z) (k : Core) : Prop := {
  cw_state : co_state k <> ShutdownPending /\ co_state k <> ShutdownSent;
  cw_will : co_will_shutdown k = false;
  cw_recv : pq_wf (co_last k) (co_payload k);
  cw_sent : sent_wf c (co_next k) (co_inflight k);
  cw_pending : pending_whole (co_pending k);
  cw_heap : map_Forall (fun _ s => 0 < st_max_payload_size s) (co_heap k);
  cw_max : 0 < co_max_payload k;
  cw_accept : match co_accept k with Some ch => ac_receiver_alive ch = false | None => True end;
  cw_open : co_open k = false -> co_state k <> CookieWait /\ co_state k <> CookieEchoed;
  cw_early : co_open k = true -> early (co_state k) ->
    co_streams k = ∅ /\ pq_chunk_map (co_payload k) = ∅;
  cw_running : co_open k = true -> co_state k <> Closed;
  cw_done : co_open k = true -> None ∈ co_done k -> ~ early (co_state k)
}.

Definition core_inv (k : Core) : Prop := core_wf (co_cum k) k.

(** A property of the core of the state. *)
Definition at_core (K : Core -> Prop) (a : Assoc) : Prop := K (core a).

Abbreviation inv := (at_core core_inv).

(** An error ends the read loop, which then closes the association: all that is
    asked of the state it leaves is that [close] will see it open. *)
Definition running (k : Core) : Prop := co_open k = true -> co_state k <> Closed.
Definition closes : Error -> Assoc -> Prop := fun _ => at_core running.
(** Calls that raise no error. *)
Definition no_error : Error -> Assoc -> Prop := fun _ _ => False.

Lemma AssociationState_from_as_u8 s : AssociationState_from (AssociationState_as_u8 s) = s.
Proof. by destruct s. Qed.

(** * Calls that leave the core alone *)
Section frames.
Context {P : Profile}.

Definition frames {A} (m : AM A) : Prop :=
  forall (R : Error -> Assoc -> Prop) (K : Core -> Prop), keeps (at_core K) R m.

Lemma frames_ret {A} (x : A) : frames (mret x).
Proof. intros R K. apply keeps_ret. Qed.

Lemma frames_bind {A B} (m : AM A) (f : A -> AM B) : frames m -> (forall x, frames (f x)) -> frames (m ≫= f).
Proof. intros Hm Hf R K. apply keeps_bind; [apply Hm|]. intros x. apply Hf. Qed.

Lemma frames_get {A} (f : Assoc -> A) : frames (st_get f).
Proof. intros R K. apply keeps_get. Qed.

Lemma frames_modify (f : Assoc -> Assoc) : (forall a, core (f a) = core a) -> frames (st_modify f).
Proof. intros H R K. apply keeps_modify. intros a. unfold at_core. by rewrite H. Qed.

Lemma frames_arith w z : frames (st_lift (arith w z)).
Proof. intros R K. apply keeps_arith. Qed.

Lemma frames_lift {A} (r : res Error A) : tame r -> (forall e, r <> Err e) -> frames (st_lift r).
Proof. intros Hr He R K. apply keeps_lift; [done|]. intros e s _ ->. by destruct (He e). Qed.

Lemma frames_when b (m : AM unit) : frames m -> frames (st_when b m).
Proof. intros H R K. apply keeps_when. intros _. apply H. Qed.

Lemma frames_for {A} (l : list A) (body : A -> AM unit) : (forall x, frames (body x)) -> frames (st_for l body).
Proof. intros H R K. apply keeps_for. intros x _. apply H. Qed.

Lemma frames_fold {A B} (l : list A) (body : B -> A -> AM B) b :
  (forall b x, frames (body b x)) -> frames (st_fold l body b).
Proof. intros H R K. apply keeps_fold. intros b' x _. apply H. Qed.

(** ** Sequencing *)
Context (R : Error -> Assoc -> Prop) (K : Core -> Prop).

Lemma triple_frames {A} (m : AM A) (Q : A -> Assoc -> Prop) : frames m ->
  (forall x a, at_core K a -> Q x a) -> triple (at_core K) m Q R.
Proof. intros Hm HQ. eapply triple_conseq; [apply (Hm R K)|done|apply HQ|done]. Qed.

Lemma bind_frames {A B} (m : AM A) (f : A -> AM B) (Q : B -> Assoc -> Prop) :
  frames m -> (forall x, triple (at_core K) (f x) Q R) -> triple (at_core K) (m ≫= f) Q R.
Proof. intros Hm Hf. eapply triple_bind; [apply Hm|]. done. Qed.

(** A read of the core: its result is known of the state that follows. *)
Lemma bind_core {T B} (g : Core -> T) (f : Assoc -> T) (k : T -> AM B) (Q : B -> Assoc -> Prop) :
  (forall a, f a = g (core a)) ->
  (forall x, triple (at_core (fun c => K c /\ g c = x)) (k x) Q R) ->
  triple (at_core K) (st_get f ≫= k) Q R.
Proof. intros Hf Hk a Ha. apply (Hk (f a)). split; [done|]. symmetry. apply Hf. Qed.

Lemma bind_modify {B} (K' : Core -> Prop) (f : Assoc -> Assoc) (k : unit -> AM B) (Q : B -> Assoc -> Prop) :
  (forall a, K (core a) -> K' (core (f a))) -> triple (at_core K') (k tt) Q R ->
  triple (at_core K) (st_modify f ≫= k) Q R.
Proof. intros Hf Hk. apply (triple_bind_modify _ (at_core K')); [exact Hf|exact Hk]. Qed.

Lemma bind_arith {B} w z (k : Z -> AM B) (Q : B -> Assoc -> Prop) :
  (forall x, x = wrap w z -> triple (at_core K) (k x) Q R) ->
  triple (at_core K) (st_lift (arith w z) ≫= k) Q R.
Proof.
  intros Hk. apply triple_bind_lift; [apply tame_arith| |].
  - intros e s _ H. by apply arith_not_Err in H.
  - intros x Hx. apply Hk. by eapply arith_Ok_wrap.
Qed.

Lemma bind_keeps {A B} (m : AM A) (f : A -> AM B) (Q : B -> Assoc -> Prop) :
  keeps (at_core K) R m -> (forall x, triple (at_core K) (f x) Q R) -> triple (at_core K) (m ≫= f) Q R.
Proof. intros Hm Hf. by eapply triple_bind. Qed.

(** Names a part of the core that the program does not read. *)
Lemma name_core {T A} (g : Core -> T) (m : AM A) (Q : A -> Assoc -> Prop) :
  (forall x, triple (at_core (fun c => K c /\ g c = x)) m Q R) -> triple (at_core K) m Q R.
Proof. intros H a Ha. by apply (H (g (core a)) a). Qed.

Lemma triple_core {A} (K' : Core -> Prop) (m : AM A) (Q : A -> Assoc -> Prop) :
  (forall c, K c -> K' c) -> triple (at_core K') m Q R -> triple (at_core K) m Q R.
Proof. intros H Hm a Ha. apply Hm, H, Ha. Qed.
End frames.

Create HintDb frames.
#[export] Hint Resolve frames_ret frames_get frames_arith : frames.

(** An assignment to fields outside the core, possibly under conditions. *)
Ltac frame_modify := apply frames_modify; intros ?; repeat case_match; reflexivity.

Ltac frame :=
  repeat first
    [ solve [auto with frames nocore]
    | frame_modify
    | apply frames_when
    | apply frames_for; intros
    | apply frames_fold; intros
    | apply frames_bind; [|intros]
    | case_match ].

Section small.
Context {P : Profile}.

Lemma frames_get_state : frames a_get_state.
Proof. unfold a_get_state. frame. Qed.

Lemma frames_awake : frames a_awake_write_loop.
Proof. unfold a_awake_write_loop. frame. Qed.

Lemma frames_start_t1cookie : frames start_t1cookie. Proof. unfold start_t1cookie. frame. Qed.
Lemma frames_start_t2shutdown : frames start_t2shutdown. Proof. unfold start_t2shutdown. frame. Qed.
Lemma frames_start_t3rtx : frames start_t3rtx. Proof. unfold start_t3rtx. frame. Qed.
Lemma frames_start_treconfig : frames start_treconfig. Proof. unfold start_treconfig. frame. Qed.
Lemma frames_close_all_timers : frames close_all_timers. Proof. unfold close_all_timers. frame. Qed.
Lemma frames_create_packet l : frames (create_packet l). Proof. unfold create_packet. frame. Qed.
Lemma frames_push_control p : frames (push_control p). Proof. unfold push_control. frame. Qed.

Lemma frames_generate_next_rsn : frames generate_next_rsn.
Proof. unfold generate_next_rsn. frame. Qed.

Lemma frames_credit : frames get_my_receiver_window_credit.
Proof. unfold get_my_receiver_window_credit. frame. Qed.

Lemma frames_partial_reliability c : frames (check_partial_reliability_status c).
Proof. unfold check_partial_reliability_status. frame. Qed.
End small.

#[export] Hint Resolve frames_get_state frames_awake frames_start_t1cookie frames_start_t2shutdown
  frames_start_t3rtx frames_start_treconfig frames_close_all_timers frames_create_packet
  frames_push_control frames_generate_next_rsn frames_credit frames_partial_reliability : frames.

Lemma raise_closes {P : Profile} {A} (K : Core -> Prop) (e : Error) (Q : A -> Assoc -> Prop) :
  (forall k, K k -> running k) -> triple (at_core K) (st_raise e) Q closes.
Proof. intros H a Ha. by apply H. Qed.

(** The calls at the head of a program that leave the core alone. *)
Ltac skip_frames := repeat (apply bind_frames; [solve [frame]|intros]).

(** A call that keeps the invariant, by the lemmas of the database [keeps] and
    the rules for sequences, branches and loops. *)
Ltac keep :=
  repeat first
    [ match goal with |- triple ?I ?m _ ?R => change (keeps I R m) end
    | solve [auto with keeps nocore]
    | match goal with |- keeps (at_core ?K) ?R ?m =>
        let H := fresh in assert (H : frames m) by (solve [frame]); exact (H R K)
      end
    | apply keeps_when; intros
    | apply keeps_for; intros
    | apply keeps_fold; intros
    | apply keeps_bind; [|intros]
    | case_match ].

(** Finds the invariant of the core among the parts of a hypothesis on it. *)
Ltac running_from H :=
  let T := type of H in
  let T' := eval hnf in T in
  lazymatch T' with
  | _ /\ _ => let H1 := fresh in let H2 := fresh in
      destruct H as [H1 H2]; first [running_from H1 | running_from H2]
  | core_wf _ _ => exact (cw_running _ _ H)
  end.
Ltac core_running := let k := fresh in let H := fresh in intros k H; running_from H.

(** * The state machine and the stream table *)
Section table.
Context {P : Profile} (R : Error -> Assoc -> Prop).

(** The changes of state that respect the invariant. *)
Definition allowed (x y : AssociationState) : Prop :=
  y <> Closed /\ y <> ShutdownPending /\ y <> ShutdownSent /\ (early y -> early x) /\
  (y = CookieWait \/ y = CookieEchoed -> x = CookieWait \/ x = CookieEchoed).

Lemma allowed_late x y : ~ early y -> y <> ShutdownPending -> y <> ShutdownSent -> allowed x y.
Proof.
  intros Hy H1 H2. split_and!; [|done|done|done|]; [by intros ->; destruct Hy|].
  by intros [->| ->]; destruct Hy.
Qed.

Definition in_state (x : AssociationState) (k : Core) : Prop := core_inv k /\ co_state k = x.

Lemma bind_state {B} (f : AssociationState -> AM B) (Q : B -> Assoc -> Prop) :
  (forall x, triple (at_core (in_state x)) (f x) Q R) -> triple inv (a_get_state ≫= f) Q R.
Proof. intros H. by apply (bind_core R core_inv co_state). Qed.

Lemma in_state_inv {A} x (m : AM A) (Q : A -> Assoc -> Prop) :
  triple inv m Q R -> triple (at_core (in_state x)) m Q R.
Proof. apply triple_core. by intros c [? _]. Qed.

Lemma in_state_keeps {A} x (m : AM A) : keeps inv R m -> triple (at_core (in_state x)) m (fun _ => inv) R.
Proof. apply in_state_inv. Qed.

Lemma set_state_in x y : allowed x y ->
  triple (at_core (in_state x)) (set_state y) (fun _ => at_core (in_state y)) R.
Proof.
  intros (H0 & H1 & H2 & H3 & H4). apply triple_modify. intros a [Ha Hx].
  assert (Hs : co_state (core (a <| a_shared ::= fun sh => sh <| sh_state := AssociationState_as_u8 y |> |>)) = y)
    by apply AssociationState_from_as_u8.
  split; [|done]. destruct Ha as [Hst Hw Hr Hse Hp Hh Hm Hac Hop He Hrun Hd].
  split; rewrite ?Hs; try done.
  - intros Ho. destruct (Hop Ho) as [Hn1 Hn2]. rewrite Hx in *. split; intros ->; tauto.
  - intros Ho Hy. apply He; [done|]. rewrite Hx. auto.
  - intros Ho Hin Hy. apply (Hd Ho Hin). rewrite Hx. auto.
Qed.

Lemma keeps_set_late y : ~ early y -> y <> ShutdownPending -> y <> ShutdownSent ->
  keeps inv R (set_state y).
Proof.
  intros H1 H2 H3. apply (name_core R core_inv co_state). intros x.
  eapply triple_conseq; [apply (set_state_in x y), allowed_late; done|done|by intros ? ? []|done].
Qed.

Lemma bind_set_state {B} x y (k : unit -> AM B) (Q : B -> Assoc -> Prop) : allowed x y ->
  triple (at_core (in_state y)) (k tt) Q R -> triple (at_core (in_state x)) (set_state y ≫= k) Q R.
Proof. intros Ha Hk. eapply triple_bind; [by apply set_state_in|]. by intros []. Qed.

Lemma handshake_completed_Some e : keeps inv R (handshake_completed (Some e)).
Proof.
  apply keeps_modify. intros a []. split; cbn in *; try done.
  intros Ho [Hin|Hin%list_elem_of_singleton]%elem_of_app; [auto|done].
Qed.

Lemma handshake_completed_None x : ~ early x ->
  keeps (at_core (in_state x)) R (handshake_completed None).
Proof.
  intros Hx. apply keeps_modify. intros a [[] Hs]. split; [|done]. split; cbn in *; try done.
  intros _ _. by rewrite Hs.
Qed.

Lemma keeps_unregister si : keeps inv R (unregister_stream si).
Proof.
  apply keeps_modify. intros a Ha. destruct (a_streams a !! si) as [r|] eqn:Hr; [|done].
  destruct Ha as [Hst Hw Hre Hse Hp Hh Hm Hac Hop He Hrun Hd]. split; cbn in *; try done.
  - intros r' s. destruct (decide (r' = r)) as [->|Hne].
    + rewrite lookup_alter_eq. intros (s0 & Hs0 & ->)%fmap_Some. by apply (Hh r s0).
    + rewrite lookup_alter_ne by done. apply Hh.
  - intros Ho Hy. destruct (He Ho Hy) as [-> ?]. by rewrite delete_empty.
Qed.
End table.

#[export] Hint Resolve keeps_unregister : keeps.

Section closing.
Context {P : Profile} (R : Error -> Assoc -> Prop).

(** The invariant of the state [close] is about to reach. *)
Definition closing (k : Core) : Prop :=
  core_wf (co_cum k) (mkCore Closed (co_pending k) (co_last k) (co_payload k) (co_cum k) (co_next k)
    (co_inflight k) (co_streams k) (co_heap k) (co_max_payload k) (co_accept k) (co_done k) false
    (co_will_shutdown k)).

Lemma inv_closing k : core_inv k -> closing k.
Proof. intros []. by split. Qed.

Lemma keeps_close : keeps inv R a_close.
Proof.
  unfold a_close. apply bind_frames; [frame|]. intros x. case_match; [|apply keeps_ret].
  apply (triple_core _ _ closing); [apply inv_closing|].
  apply (bind_modify _ _ (fun k => closing k /\ co_state k = Closed)).
  { intros a Ha. split; [|done]. destruct Ha. by split. }
  apply bind_frames; [frame|]. intros _.
  apply (bind_modify _ _ core_inv).
  { intros a [Ha Hs]. destruct Ha as [Hst Hw Hre Hse Hp Hh Hm Hac Hop He Hrun Hd]. cbn in Hs.
    split; cbn in *; rewrite ?Hs; done. }
  keep.
Qed.
End closing.

#[export] Hint Resolve keeps_close handshake_completed_Some : keeps.
