(* ===== verification/ReceiveSafe.v ===== *)
(** Every handler of a received chunk keeps the invariant of the association.

    The handlers of the handshake and of the shutdown follow the state machine;
    the ones for DATA and FORWARD TSN move the receiving queue and
    [peer_last_tsn] together; a SACK moves the queue in flight and the
    cumulative ack point, which disagree in between. *)
From S2P Require Import Prelude Serial Errors Param Chunk Packet PacketLaws PayloadQueue PendingQueue.
From S2P Require Import ReassemblyQueue Timer Stream Assoc Receive Transmit Tame Invariant.

(** * Frames of the inbound side *)
Section frames.
Context {P : Profile}.

Lemma frames_send_cookie_echo_rest c : frames (
  outbound ← create_packet [CCookieEcho c]; _ ← push_control outbound; a_awake_write_loop).
Proof. frame. Qed.

Lemma frames_ack_immediately : frames ack_immediately.
Proof. unfold ack_immediately. frame. Qed.

Lemma frames_cookie_ack_reply : frames cookie_ack_reply.
Proof. unfold cookie_ack_reply. frame. Qed.

Lemma frames_handle_heartbeat c : frames (handle_heartbeat c).
Proof. unfold handle_heartbeat. frame. Qed.

Lemma frames_chunk_start : frames handle_chunk_start.
Proof. unfold handle_chunk_start. frame. Qed.

Lemma frames_enter_fast_recovery t : frames (enter_fast_recovery t).
Proof. unfold enter_fast_recovery. frame. Qed.

Lemma frames_send_shutdown_ack : frames (st_modify (fun a => a <| a_will_send_shutdown_ack := true |>) : AM unit).
Proof. frame. Qed.
End frames.

#[export] Hint Resolve frames_ack_immediately frames_cookie_ack_reply frames_handle_heartbeat
  frames_chunk_start frames_enter_fast_recovery frames_send_shutdown_ack : frames.

Section chunk_end.
Context {P : Profile}.

Lemma frames_chunk_end : frames handle_chunk_end.
Proof. unfold handle_chunk_end. frame. Qed.
End chunk_end.

(** * The handshake *)
Section handshake.
Context {P : Profile}.

Lemma tsn_before_range t : in_range 32 t -> in_range 32 (tsn_before t).
Proof. unfold tsn_before, u32_max, in_range. destruct (Z.eqb_spec t 0); lia. Qed.

(** The receiving side starts afresh: nothing has been queued yet. *)
Definition rebased (t : Z) (k : Core) : Core :=
  mkCore (co_state k) (co_pending k) t (co_payload k) (co_cum k) (co_next k) (co_inflight k) (co_streams k)
    (co_heap k) (co_max_payload k) (co_accept k) (co_done k) (co_open k) (co_will_shutdown k).

Lemma rebase_in_state x t k : early x -> in_range 32 t -> in_state x k -> co_open k = true ->
  in_state x (rebased t k).
Proof.
  intros Hx Ht [[Hst Hw Hr Hse Hp Hh Hm Hac Hop He Hrun Hd] Hs] Ho.
  destruct (He Ho ltac:(by rewrite Hs)) as [_ Hempty].
  split; [|done]. split; cbn; try done. by eapply pq_wf_empty.
Qed.

(** INIT comes alone in its packet, while the read loop runs. *)
Lemma keeps_handle_init random p i : in_range 32 (ci_initial_tsn i) ->
  triple (at_core (fun k => core_inv k /\ co_open k = true)) (handle_init random p i) (fun _ => inv) closes.
Proof.
  intros Hi. unfold handle_init, a_get_state.
  apply (bind_core closes _ co_state); [done|]. intros x. case_match; [apply raise_closes; core_running|].
  assert (Hx : early x) by (destruct x; cbn; tauto || (exfalso; naive_solver)).
  apply (bind_modify _ _ core_inv).
  { intros a [[Ha Ho] Hs].
    exact (proj1 (rebase_in_state x _ (core a) Hx (tsn_before_range _ Hi) (conj Ha Hs) Ho)). }
  keep.
Qed.

Lemma keeps_handle_init_ack p i : in_range 32 (ci_initial_tsn i) -> keeps inv closes (handle_init_ack p i).
Proof.
  intros Hi. unfold handle_init_ack. apply bind_state. intros x.
  case_match; [by apply (in_state_keeps closes), keeps_ret|]. assert (x = CookieWait) as -> by (by destruct x).
  apply (bind_modify _ _ (in_state CookieWait)).
  { intros a Ha. refine (rebase_in_state CookieWait _ (core a) I (tsn_before_range _ Hi) Ha _).
    destruct Ha as [Ha Hs]. destruct (co_open (core a)) eqn:Ho; [done|]. by destruct (cw_open _ _ Ha Ho). }
  apply bind_frames; [frame|]. intros [|]; [by apply (in_state_keeps closes), keeps_ret|].
  apply bind_frames; [frame|]. intros _. case_match; [|apply raise_closes; core_running].
  apply bind_frames; [frame|]. intros _. unfold send_cookie_echo.
  eapply triple_bind with (Q0 := fun _ => at_core (in_state CookieWait)).
  { apply bind_frames; [frame|]. intros [c|]; [|apply raise_closes; core_running].
    apply (frames_send_cookie_echo_rest c). }
  intros _. apply bind_frames; [frame|]. intros _.
  apply (bind_set_state _ _ CookieEchoed); [by split_and!; auto|]. apply (in_state_keeps closes), keeps_ret.
Qed.

Lemma keeps_handle_cookie_echo c : keeps inv closes (handle_cookie_echo c).
Proof.
  unfold handle_cookie_echo. apply bind_state. intros x. apply bind_frames; [frame|]. intros [my|];
    [|by apply (in_state_keeps closes), keeps_ret].
  destruct x; try (by apply (in_state_keeps closes); keep).
  all: cbv zeta; destruct (negb _); [by apply (in_state_keeps closes), keeps_ret|].
  all: apply bind_frames; [frame|]; intros _.
  all: apply (bind_set_state _ _ Established); [apply allowed_late; cbn; auto; done|].
  all: apply bind_keeps; [exact (handshake_completed_None closes Established (fun f => f))|]; intros _.
  all: apply (in_state_keeps closes); keep.
Qed.

Lemma keeps_handle_cookie_ack : keeps inv closes handle_cookie_ack.
Proof.
  unfold handle_cookie_ack. apply bind_state. intros x.
  case_match; [by apply (in_state_keeps closes), keeps_ret|]. assert (x = CookieEchoed) as -> by (by destruct x).
  apply bind_frames; [frame|]. intros _.
  apply (bind_set_state _ _ Established); [apply allowed_late; cbn; auto; done|].
  apply bind_keeps; [exact (handshake_completed_None closes Established (fun f => f))|]. intros _.
  apply (in_state_keeps closes), keeps_ret.
Qed.
End handshake.

(** * Streams *)
Section streams.
Context {P : Profile} (R : Error -> Assoc -> Prop).

(** The invariant, with a name for the cumulative ack point. *)
Definition inv_cum (c : Z) (k : Core) : Prop := core_inv k /\ co_cum k = c.

(** A call on a stream that does not touch its limits. *)
Lemma keeps_with_stream_cum c r (f : Stream -> res Error Stream) :
  (forall s, tame (f s)) -> (forall e a, inv a -> R e a) ->
  (forall s s', f s = Ok s' -> st_max_payload_size s' = st_max_payload_size s) ->
  keeps (at_core (inv_cum c)) R (with_stream r f).
Proof.
  intros Hf He Hs a [Ha Hc]. unfold with_stream. destruct (a_heap a !! r) as [s|] eqn:Hr; [|done].
  specialize (Hf s). specialize (Hs s). destruct (f s) as [s'|e| |]; try done; [|by apply He].
  split; [|done].
  destruct Ha as [Hst Hw Hre Hse Hp Hh Hm Hac Hop Hea Hrun Hd]. split; cbn in *; try done.
  apply map_Forall_insert_2; [|done]. rewrite (Hs s' eq_refl). by apply (Hh r s).
Qed.

Lemma keeps_with_stream r (f : Stream -> res Error Stream) :
  (forall s, tame (f s)) -> (forall e a, inv a -> R e a) ->
  (forall s s', f s = Ok s' -> st_max_payload_size s' = st_max_payload_size s) ->
  keeps inv R (with_stream r f).
Proof.
  intros H1 H2 H3. apply (name_core R core_inv co_cum). intros c.
  eapply triple_conseq; [by apply (keeps_with_stream_cum c)|done|by intros ? ? []|done].
Qed.

(** An accepted stream would be offered to a receiver that is gone. *)
Lemma get_or_create_refused si :
  triple inv (get_or_create_stream si)
    (fun r => at_core (fun k => core_inv k /\ match r with Some r => co_streams k !! si = Some r | None => True end)) R.
Proof.
  intros a Ha. unfold get_or_create_stream, create_stream. st_run.
  destruct (a_streams a !! si) as [r|] eqn:Hr; [by split|].
  assert (Hnew : core_inv (core (a <| a_heap ::= insert (a_next_ref a) (Stream_new si (a_max_payload_size a)) |>
                                   <| a_next_ref := S (a_next_ref a) |>))).
  { destruct Ha. split; cbn in *; try done. by apply map_Forall_insert_2. }
  pose proof (cw_accept _ _ Ha) as Hac. cbn in Hac. unfold set at 1. cbn.
  destruct (a_accept_ch a) as [[alive q]|]; [cbn in Hac; subst alive|]; by split.
Qed.
End streams.

(** * DATA *)
Section data.
Context {P : Profile}.

(** The streams change, the queue of received chunks does not. *)
Lemma keeps_unregister_payload (J : PayloadQueue -> Prop) si :
  keeps (at_core (fun k => core_inv k /\ J (co_payload k))) closes (unregister_stream si).
Proof.
  intros a [Ha HJ]. split; [exact (keeps_unregister closes si a Ha)|].
  unfold unregister_stream. cbn. by destruct (a_streams a !! si).
Qed.

Lemma keeps_reset_streams (J : PayloadQueue -> Prop) p :
  keeps (at_core (fun k => core_inv k /\ J (co_payload k))) closes (reset_streams_if_any p).
Proof.
  unfold reset_streams_if_any. apply keeps_bind; [keep|]. intros t.
  apply keeps_bind; [|intros; keep]. apply keeps_when. intros _.
  apply keeps_bind; [|intros; keep]. apply keeps_for. intros si _. apply keeps_unregister_payload.
Qed.

(** A pop of the next TSN, with the assignment to [peer_last_tsn] that follows. *)
Lemma pop_next_inv k q r (t := wrap 32 (co_last k + 1)) : core_inv k -> pq_pop (co_payload k) t = Ok (r, q) ->
  core_inv (mkCore (co_state k) (co_pending k) t q (co_cum k) (co_next k) (co_inflight k) (co_streams k)
    (co_heap k) (co_max_payload k) (co_accept k) (co_done k) (co_open k) (co_will_shutdown k)).
Proof.
  intros [Hst Hw Hre Hse Hp Hh Hm Hac Hop He Hrun Hd] Hpop.
  destruct (pq_pop_next _ _ _ _ Hre Hpop) as (Hwf & _ & Hmap & _). split; cbn; try done.
  intros Ho Hx. destruct (He Ho Hx) as [Hs Hempty]. split; [done|].
  by rewrite Hmap, Hempty, delete_empty.
Qed.

Lemma pq_pop_None c q t q' : pq_wf c q -> pq_pop q t = Ok (None, q') -> q' = q.
Proof.
  intros Hq. unfold pq_pop. destruct (pq_sorted q) as [|x l] eqn:Hs; [by intros [= <-]|].
  destruct (Z.eqb_spec t x) as [->|]; [|by intros [= <-]].
  destruct (proj1 (wf_keys _ _ Hq x)) as [p Hp]; [rewrite Hs; by left|]. unfold set. cbn. rewrite Hp.
  by destruct (arith _ _).
Qed.

Lemma pq_pop_Some_length q t p q' : pq_pop q t = Ok (Some p, q') ->
  length (pq_sorted q) = S (length (pq_sorted q')).
Proof.
  unfold pq_pop. destruct (pq_sorted q) as [|x l]; [done|]. destruct (t =? x); [|done].
  cbn. destruct (pq_chunk_map q !! t); [|done]. destruct (arith _ _); try done. by intros [= _ <-].
Qed.

Lemma pq_pop_not_Err q t e : pq_pop q t <> Err e.
Proof.
  unfold pq_pop. repeat case_match; try done.
  match goal with |- context [arith ?w ?z] => destruct (arith w z) eqn:Ha end; try done.
  by apply arith_not_Err in Ha.
Qed.

Definition queued_below (n : nat) (k : Core) : Prop :=
  core_inv k /\ (length (pq_sorted (co_payload k)) < n)%nat.

Lemma pop_payload_spec c fuel :
  triple (at_core (fun k => queued_below (S fuel) k /\ co_last k = c))
    (on_payload_queue (fun q => pq_pop q (wrap 32 (c + 1))))
    (fun r => at_core (fun k => match r with
                                | Some _ => queued_below fuel (rebased (wrap 32 (c + 1)) k)
                                | None => core_inv k
                                end)) closes.
Proof.
  intros a [[Ha Hf] <-]. unfold on_payload_queue. cbn in *.
  pose proof (tame_pq_pop (a_payload_queue a) (wrap 32 (a_peer_last_tsn a + 1))) as Ht.
  destruct (pq_pop _ _) as [[[p|] q]| | |] eqn:Hpop; try done; try exact (cw_running _ _ Ha).
  - split; [exact (pop_next_inv (core a) q (Some p) Ha Hpop)|].
    apply pq_pop_Some_length in Hpop. cbn. lia.
  - apply (pq_pop_None (a_peer_last_tsn a)) in Hpop as ->; [|apply (cw_recv _ _ Ha)]. by destruct Ha.
Qed.

(** Each round takes a chunk out of the queue, which is the fuel it is given. *)
Lemma keeps_advance fuel : forall reply,
  triple (at_core (queued_below fuel)) (advance_peer_last_tsn fuel reply) (fun _ => inv) closes.
Proof.
  induction fuel as [|fuel IH]; intros reply; [intros a [_ H]; lia|]. cbn [advance_peer_last_tsn].
  apply (bind_core closes _ co_last); [done|]. intros c. apply bind_arith. intros next ->.
  eapply triple_bind; [apply pop_payload_spec|]. intros [p|]; cbn beta; [|apply keeps_ret].
  apply (bind_modify _ _ (queued_below fuel)); [by intros a Ha|].
  apply bind_frames; [frame|]. intros reqs.
  apply bind_keeps; [|intros reply'; apply IH].
  apply keeps_fold. intros b x _. apply keeps_bind; [|intros; apply keeps_ret].
  apply (keeps_reset_streams (fun q => length (pq_sorted q) < fuel)%nat).
Qed.

Lemma keeps_peer_last_tsn_and_ack b : keeps inv closes (handle_peer_last_tsn_and_acknowledgement b).
Proof.
  unfold handle_peer_last_tsn_and_acknowledgement.
  apply (bind_core closes _ (fun k => length (pq_sorted (co_payload k)))); [done|]. intros n.
  eapply triple_bind with (Q0 := fun _ => inv).
  { eapply triple_core; [|apply keeps_advance]. intros k [Hk Hn]. split; [done|lia]. }
  intros reply. apply bind_keeps.
  { intros a Ha. pose proof (pq_is_empty_wf _ _ (cw_recv _ _ Ha)) as He. cbn in He |- *. st_run. by rewrite He. }
  intros is_empty. cbv zeta. skip_frames. apply keeps_ret.
Qed.

(** A chunk is pushed only where a stream exists, hence after the handshake. *)
Definition streams_exist (k : Core) : Prop := core_inv k /\ co_streams k <> ∅.

Lemma keeps_push_data d : in_range 32 (pd_tsn d) -> forall c,
  triple (at_core (fun k => streams_exist k /\ co_last k = c))
    (on_payload_queue (fun q => pq_push q d c)) (fun _ => inv) closes.
Proof.
  intros Hd c a [[Ha Hs] <-]. unfold on_payload_queue. cbn in *.
  pose proof (tame_pq_push (a_payload_queue a) d (a_peer_last_tsn a)) as Ht.
  destruct (pq_push _ _ _) as [[ok q]| | |] eqn:Hpush; try done; try exact (cw_running _ _ Ha).
  destruct Ha as [Hst Hw Hre Hse Hp Hh Hm Hac Hop He Hrun Hdone]. cbn in *.
  destruct (pq_push_wf _ _ _ _ _ Hre Hd Hpush) as (Hwf & _). split; cbn; try done.
  intros Ho Hx. by destruct (He Ho Hx).
Qed.

Lemma keeps_accept_data d : in_range 32 (pd_tsn d) ->
  triple (at_core streams_exist) (accept_data d) (fun _ => inv) closes.
Proof.
  intros Hd. unfold accept_data. apply bind_frames; [frame|]. intros credit.
  apply (bind_core closes _ co_last); [done|]. intros c.
  assert (Hinv : forall k, streams_exist k /\ co_last k = c -> core_inv k) by (by intros k [[? _] _]).
  case_match.
  - eapply triple_bind; [by apply keeps_push_data|]. intros ok. apply keeps_ret.
  - apply bind_frames; [frame|]. intros [t|]; [case_match|];
      [|by eapply triple_core, keeps_ret..].
    eapply triple_bind; [by apply keeps_push_data|]. intros ok. apply keeps_ret.
Qed.

Lemma keeps_handle_data d : in_range 32 (pd_tsn d) -> keeps inv closes (handle_data d).
Proof.
  intros Hd. unfold handle_data. skip_frames.
  eapply triple_bind with (Q0 := fun _ => inv).
  { match goal with |- triple _ (match ?b with _ => _ end) _ _ => destruct b end; [|apply keeps_ret].
    eapply triple_bind; [apply get_or_create_refused|]. intros [r|]; cbn beta.
    - eapply triple_bind with (Q0 := fun _ => inv); [|intros; apply keeps_ret].
      eapply triple_core; [|by apply keeps_accept_data]. intros k [Hk Hr]. split; [done|].
      intros He. by rewrite He, lookup_empty in Hr.
    - eapply triple_core; [|apply keeps_ret]. by intros k [Hk _]. }
  intros [b|]; [|apply keeps_ret]. apply bind_keeps; [|intros; apply keeps_peer_last_tsn_and_ack].
  apply keeps_when. intros _. apply keeps_bind; [keep|]. intros [r|]; [|apply keeps_ret].
  apply keeps_with_stream;
    [intros; apply tame_stream_handle_data|intros e a Ha; exact (cw_running _ _ Ha)|].
  intros s s'. apply stream_handle_data_payload_size.
Qed.

(** * RE-CONFIG and FORWARD TSN *)
Lemma keeps_reset p : keeps inv closes (reset_streams_if_any p).
Proof.
  eapply triple_conseq; [apply (keeps_reset_streams (fun _ => True) p)|by split|by intros ? ? []|done].
Qed.
#[local] Hint Resolve keeps_reset : keeps.

Lemma keeps_handle_reconfig c : keeps inv closes (handle_reconfig c).
Proof.
  assert (Hp : forall p, keeps inv closes (handle_reconfig_param p)).
  { intros p. unfold handle_reconfig_param. case_match; try (apply raise_closes; core_running); keep. }
  unfold handle_reconfig. destruct (rc_param_a c), (rc_param_b c);
    repeat (apply bind_keeps || apply keeps_bind || apply Hp || apply keeps_ret || intros).
Qed.

Lemma keeps_skip n : keeps inv closes (skip_to_tsn n).
Proof.
  induction n as [|n IH]; [apply keeps_ret|]. cbn [skip_to_tsn].
  apply (bind_core closes _ co_last); [done|]. intros c. apply bind_arith. intros next ->.
  eapply triple_bind with (Q0 := fun _ => at_core (fun k => core_inv (rebased (wrap 32 (c + 1)) k))).
  - intros a [Ha <-]. unfold on_payload_queue. cbn in *.
    pose proof (tame_pq_pop (a_payload_queue a) (wrap 32 (a_peer_last_tsn a + 1))) as Ht.
    destruct (pq_pop _ _) as [[r q]| | |] eqn:Hpop; try done; try exact (cw_running _ _ Ha).
    exact (pop_next_inv (core a) q r Ha Hpop).
  - intros r. apply (bind_modify _ _ core_inv); [by intros a Ha|]. apply IH.
Qed.

Lemma keeps_handle_forward_tsn c : keeps inv closes (handle_forward_tsn c).
Proof.
  unfold handle_forward_tsn. apply bind_frames; [frame|]. intros [|]; [|keep].
  apply bind_frames; [frame|]. intros t. case_match; [keep|].
  apply bind_keeps; [apply keeps_when; intros _; apply keeps_skip|]. intros _.
  apply bind_frames; [frame|]. intros refs.
  apply bind_keeps; [|intros; apply keeps_peer_last_tsn_and_ack].
  apply keeps_for. intros r _. apply keeps_with_stream; [|intros e a Ha; exact (cw_running _ _ Ha)|].
  - intros. apply tame_handle_forward_tsn_for_unordered.
  - intros s s'. apply handle_forward_tsn_payload_size.
Qed.
End data.

(** * SACK *)
Section sack.
Context {P : Profile}.

Lemma keeps_inflight_is_empty K R : (forall k, K k -> pq_wf (co_cum k) (co_inflight k)) ->
  keeps (at_core K) R inflight_is_empty.
Proof.
  intros H a Ha. pose proof (pq_is_empty_wf _ _ (H _ Ha)) as He. unfold inflight_is_empty. st_run.
  cbn in He. by rewrite He.
Qed.

Lemma arith_i64_not_Err z e : arith_i64 z <> Err e.
Proof. unfold arith_i64. destruct (_ && _); [done|]. by destruct overflow_checks. Qed.

Lemma frames_arith_i64 z : frames (st_lift (arith_i64 z)).
Proof. apply frames_lift; [apply tame_arith_i64|apply arith_i64_not_Err]. Qed.
#[local] Hint Resolve frames_arith_i64 : frames.

Lemma frames_add_acked acked si n : frames (st_lift (add_acked acked si n)).
Proof.
  apply frames_lift; unfold add_acked; destruct (acked !! si); try done.
  - apply tame_bind; [apply tame_arith_i64|done].
  - intros e. destruct (arith_i64 _) eqn:H; try done. by apply arith_i64_not_Err in H.
Qed.
#[local] Hint Resolve frames_add_acked : frames.

Lemma keeps_measure_rtt K now c : (forall k, K k -> running k) -> keeps (at_core K) closes (measure_rtt now c).
Proof.
  intros HK. unfold measure_rtt. apply bind_frames; [frame|]. intros _. case_match; [by apply raise_closes|].
  apply bind_frames; [frame|]. intros mgr.
  apply triple_bind_lift; [apply tame_set_new_rtt|intros e a Ha _; by apply HK|]. intros r _. keep.
Qed.

(** While a SACK is handled the queue is relative to [c], the association's
    cumulative ack point is still [c0]. *)
Definition sacking (c0 c : Z) (k : Core) : Prop := core_wf c k /\ co_cum k = c0.

Lemma core_wf_inflight c c' k k' : core_wf c k -> sent_wf c' (co_next k) (co_inflight k') ->
  k' = mkCore (co_state k) (co_pending k) (co_last k) (co_payload k) (co_cum k) (co_next k) (co_inflight k')
    (co_streams k) (co_heap k) (co_max_payload k) (co_accept k) (co_done k) (co_open k) (co_will_shutdown k) ->
  core_wf c' k'.
Proof. intros [] Hs ->. split; done. Qed.

Lemma pop_inflight_spec c0 c fuel :
  triple (at_core (fun k => sacking c0 c k /\ (size (pq_chunk_map (co_inflight k)) < S fuel)%nat))
    (on_inflight_queue (fun q => pq_pop q (wrap 32 (c + 1))))
    (fun r => at_core (fun k => match r with
       | Some _ => sacking c0 (wrap 32 (c + 1)) k /\ (size (pq_chunk_map (co_inflight k)) < fuel)%nat
       | None => running k
       end)) closes.
Proof.
  intros a [[Ha Hc] Hf]. unfold on_inflight_queue. cbn in Hf.
  pose proof (tame_pq_pop (a_inflight_queue a) (wrap 32 (c + 1))) as Ht.
  destruct (pq_pop _ _) as [[[p|] q]| | |] eqn:Hpop; try done; try exact (cw_running _ _ Ha).
  destruct (sent_wf_pop c _ _ (cw_sent _ _ Ha) p q Hpop) as [Hs Hsize].
  split; [|cbn in *; lia]. split; [|exact Hc]. by apply (core_wf_inflight c _ (core a)).
Qed.

Lemma ack_cumulative_spec now d c0 : in_range 32 (sack_cumulative_tsn_ack d) -> forall fuel c acked,
  dist 32 c (sack_cumulative_tsn_ack d) < 2 ^ 31 ->
  triple (at_core (fun k => sacking c0 c k /\ (size (pq_chunk_map (co_inflight k)) < fuel)%nat))
    (ack_cumulative fuel now d (wrap 32 (c + 1)) acked)
    (fun _ => at_core (sacking c0 (sack_cumulative_tsn_ack d))) closes.
Proof.
  set (D := sack_cumulative_tsn_ack d). intros HD. induction fuel as [|fuel IH]; intros c acked Hd a Ha;
    [by destruct Ha as [_ ?]; lia|].
  assert (Hc : in_range 32 c) by (destruct Ha as [[Ha _] _]; apply (wf_cum _ _ (sw_queue _ _ _ (cw_sent _ _ Ha)))).
  revert a Ha. cbn [ack_cumulative]. fold D.
  pose proof (sna32lte_spec (wrap 32 (c + 1)) D (wrap_range 32 _ ltac:(lia)) HD) as Hlte.
  pose proof (dist_range 32 c D ltac:(lia)) as Hdr.
  destruct (Z.eq_dec (dist 32 c D) 0) as [Hz|Hz].
  - assert (Hnot : sna32lte (wrap 32 (c + 1)) D = false).
    { destruct (sna32lte _ _); [|done]. exfalso. assert (Hlt : dist 32 (wrap 32 (c + 1)) D < 2 ^ 31) by by apply Hlte.
      apply (dist32_zero c D Hc HD) in Hz. subst D. rewrite <- Hz in Hlt. clear -Hc Hlt. serial_arith. }
    rewrite Hnot. apply (dist32_zero c D Hc HD) in Hz. rewrite Hz. apply triple_ret. by intros a [? _].
  - rewrite dist32_succ in Hlte by (done || lia). rewrite (proj2 Hlte) by lia.
    eapply triple_bind; [apply pop_inflight_spec|]. intros [p|]; cbn beta; [|by apply raise_closes].
    apply bind_keeps.
    { case_match; [keep|]. apply keeps_bind; [keep|]. intros first. apply keeps_bind; [keep|]. intros _.
      apply keeps_bind; [keep|]. intros acked'. apply keeps_bind; [keep|]. intros t.
      apply keeps_bind; [|intros; keep]. apply keeps_when. intros _. apply keeps_measure_rtt. core_running. }
    intros acked'. apply bind_frames; [frame|]. intros _. apply bind_arith. intros next ->.
    apply IH. rewrite dist32_succ by (done || lia). lia.
Qed.

Lemma keeps_ack_gap now d c0 acc i :
  keeps (at_core (sacking c0 (sack_cumulative_tsn_ack d))) closes (ack_gap now d acc i).
Proof.
  destruct acc as [acked htna]. unfold ack_gap. apply bind_arith. intros tsn _.
  apply bind_frames; [frame|]. intros before. cbv zeta. apply bind_keeps.
  - destruct before as [p|]; [|keep]. case_match; [keep|].
    intros a [Ha Hc]. unfold on_inflight_queue.
    pose proof (tame_mark_as_acked (a_inflight_queue a) tsn) as Ht.
    destruct (mark_as_acked _ _) as [[n q]| | |] eqn:Hack; try done; [|exact (cw_running _ _ Ha)]. split; [|exact Hc].
    pose proof (sent_wf_acked _ _ _ (cw_sent _ _ Ha) tsn n q Hack) as Hs.
    by apply (core_wf_inflight (sack_cumulative_tsn_ack d) _ (core a)).
  - intros n. apply bind_frames; [frame|]. intros [p|]; [|apply raise_closes; core_running]. case_match; [keep|].
    apply bind_frames; [frame|]. intros acked'. apply bind_keeps; [|intros; keep].
    apply keeps_when. intros _. apply keeps_measure_rtt. core_running.
Qed.

Lemma process_selective_ack_spec now d c0 : in_range 32 (sack_cumulative_tsn_ack d) ->
  dist 32 c0 (sack_cumulative_tsn_ack d) < 2 ^ 31 ->
  triple (at_core (inv_cum c0)) (process_selective_ack now d)
    (fun _ => at_core (sacking c0 (sack_cumulative_tsn_ack d))) closes.
Proof.
  intros HD Hd. unfold process_selective_ack.
  eapply triple_bind with (Q0 := fun i => at_core (fun k => i = wrap 32 (c0 + 1) /\ inv_cum c0 k)).
  { apply (bind_core closes _ co_cum); [done|]. intros t. intros a [[Ha Hc] Ht]. unfold st_lift.
    pose proof (tame_arith (E := Error) 32 (t + 1)) as Htame.
    destruct (arith 32 (t + 1)) eqn:Har; try done; [|by apply arith_not_Err in Har].
    apply arith_Ok_wrap in Har. split; [by rewrite Har, <- Ht, Hc|by split]. }
  intros i. apply (bind_core closes _ (fun k => length (pq_sorted (co_inflight k)))); [done|]. intros n.
  eapply triple_bind with (Q0 := fun _ => at_core (sacking c0 (sack_cumulative_tsn_ack d))).
  - intros a [[-> [Ha Hc]] Hn]. apply (ack_cumulative_spec now d c0 HD (S n) c0 ∅ Hd).
    unfold core_inv in Ha. rewrite Hc in Ha. split; [by split|].
    pose proof (wf_size _ _ (sw_queue _ _ _ (cw_sent _ _ Ha))). lia.
  - intros acked. apply keeps_fold. intros acc j _. apply keeps_ack_gap.
Qed.

(** ** Loops over the chunks in flight *)

(** The invariant, with names for the cumulative ack point and for the number
    of chunks in flight. *)
Definition sending (c : Z) (n : nat) (k : Core) : Prop :=
  inv_cum c k /\ size (pq_chunk_map (co_inflight k)) = n.

Lemma sending_sent c n k : sending c n k -> sent_wf c (co_next k) (co_inflight k).
Proof. intros [[Ha <-] _]. apply (cw_sent _ _ Ha). Qed.

Lemma sending_bound c n k : sending c n k -> in_range 32 c /\ Z.of_nat n <= 2 ^ 31.
Proof.
  intros Hk. pose proof (sending_sent _ _ _ Hk) as Hs. split; [apply (wf_cum _ _ (sw_queue _ _ _ Hs))|].
  pose proof (sent_size _ _ _ Hs) as Hb. destruct Hk as [_ Hn]. by rewrite Hn in Hb.
Qed.

(** A chunk found [j] places after the first one: there are more than [j]. *)
Lemma sending_found c n k j : sending c n k -> 0 <= j < 2 ^ 32 - 1 ->
  is_Some (pq_chunk_map (co_inflight k) !! wrap 32 (c + 1 + j)) -> j < Z.of_nat n.
Proof.
  intros Hk Hj Hin. pose proof (sent_run _ _ _ (sending_sent _ _ _ Hk) j Hj Hin) as H.
  destruct Hk as [_ Hn]. by rewrite Hn in H.
Qed.

(** An update of a chunk that was found. *)
Lemma keeps_update_inflight R c n t p p' : data_len p' = data_len p -> pd_tsn p' = pd_tsn p ->
  triple (at_core (fun k => sending c n k /\ pq_get (co_inflight k) t = Some p)) (update_inflight t p')
    (fun _ => at_core (sending c n)) R.
Proof.
  intros Hl Ht. apply triple_modify. intros a [[[Ha Hc] Hn] Hp]. unfold pq_get in Hp.
  pose proof (sent_wf_update _ _ _ (cw_sent _ _ Ha) t p p' Hp Hl Ht) as Hs.
  split; [split; [|exact Hc]|].
  - by apply (core_wf_inflight (co_cum (core a)) _ (core a)).
  - cbn in *. by rewrite map_size_insert_Some by eauto.
Qed.

Lemma keeps_mark_missing c n htna max : forall fuel j, 0 <= j -> j <= Z.of_nat n < j + Z.of_nat fuel ->
  keeps (at_core (sending c n)) closes (mark_missing fuel htna max (wrap 32 (c + 1 + j))).
Proof.
  induction fuel as [|fuel IH]; intros j Hj Hn; [lia|]. cbn [mark_missing].
  destruct (sna32lt _ _); [|apply keeps_ret].
  apply (bind_core closes _ (fun k => pq_get (co_inflight k) (wrap 32 (c + 1 + j)))); [done|].
  intros [p|]; [|apply raise_closes; core_running].
  apply bind_frames; [frame|]. intros ab.
  intros a Ha. pose proof (sending_bound _ _ _ (proj1 Ha)) as [Hc Hb].
  assert (Hlt : j < Z.of_nat n).
  { destruct Ha as [Ha Hp]. apply (sending_found c n (core a)); [done|lia|eauto]. }
  revert a Ha. eapply triple_bind with (Q0 := fun _ => at_core (sending c n)).
  - destruct (negb _ && _ && _); cbn [st_when].
    + eapply triple_bind; [by apply keeps_update_inflight|]. intros u; cbn beta; keep.
    + eapply triple_core; [|apply keeps_ret]. by intros k [? _].
  - intros _. apply bind_arith. intros next ->. rewrite wrap32_add.
    replace (c + 1 + j + 1) with (c + 1 + (j + 1)) by lia. apply IH; lia.
Qed.

Lemma keeps_fast_retransmission c htna b :
  keeps (at_core (inv_cum c)) closes (process_fast_retransmission c htna b).
Proof.
  unfold process_fast_retransmission. apply bind_frames; [frame|]. intros fr.
  apply bind_keeps; [|intros; keep]. apply keeps_when. intros _.
  apply bind_keeps.
  { destruct fr; [|keep]. apply bind_keeps; [|intros; keep].
    intros a Ha. pose proof (pq_len_wf _ _ (sw_queue _ _ _ (cw_sent _ _ (proj1 Ha)))) as Hl.
    cbn in Hl. st_run. by rewrite Hl. }
  intros max. apply bind_arith. intros tsn ->.
  apply (bind_core closes _ (fun k => size (pq_chunk_map (co_inflight k)))); [done|]. intros n.
  replace (c + 1) with (c + 1 + 0) by lia.
  eapply triple_conseq; [apply (keeps_mark_missing c n htna max (S n) 0); lia|done|by intros ? ? [? _]|done].
Qed.

Lemma keeps_advance_past R c n : forall fuel i, (0 < fuel)%nat -> in_range 32 i ->
  dist 32 c i = 0 \/ Z.of_nat n + 1 < Z.of_nat fuel + dist 32 c i ->
  keeps (at_core (sending c n)) R (advance_past_abandoned fuel i).
Proof.
  induction fuel as [|fuel IH]; intros i Hf Hi Hd; [lia|]. cbn [advance_past_abandoned].
  apply (bind_core R _ (fun k => pq_get (co_inflight k) i)); [done|]. intros [p|];
    [|eapply triple_core; [|apply keeps_ret]; by intros k [? _]].
  intros a [Ha Hp]. pose proof (sending_bound _ _ _ Ha) as [Hc Hb].
  assert (Hdi : 0 < dist 32 c i <= Z.of_nat n).
  { destruct Ha as [Ha Hn]. pose proof (sending_sent c n _ (conj Ha Hn)) as Hs. rewrite <- Hn.
    apply (sw_contiguous _ _ _ Hs i). unfold pq_get in Hp. eauto. }
  assert (Ha' : at_core (sending c n) a) by exact Ha. clear Ha Hp. revert a Ha'.
  apply bind_frames; [frame|]. intros [|]; [|apply keeps_ret].
  apply bind_frames; [frame|]. intros _. apply bind_arith. intros next ->.
  assert (Hnext : dist 32 c (wrap 32 (i + 1)) = dist 32 c i + 1) by (clear -Hc Hi Hdi Hb; serial_arith).
  apply IH; [lia|apply wrap_range; lia|lia].
Qed.

Lemma keeps_try_advance R : keeps inv R try_advance_peer_ack_point.
Proof.
  unfold try_advance_peer_ack_point. apply (name_core R core_inv co_cum). intros c.
  apply (name_core R _ (fun k => size (pq_chunk_map (co_inflight k)))). intros n.
  eapply triple_bind with (Q0 := fun i => at_core (fun k => in_range 32 i /\ sending c n k)).
  { apply bind_frames; [frame|]. intros t a Ha. pose proof (tame_arith (E := Error) 32 (t + 1)) as Ht.
    unfold st_lift. destruct (arith 32 (t + 1)) eqn:Har; try done; [|by apply arith_not_Err in Har].
    split; [|exact Ha]. by eapply arith_Ok_range. }
  intros i. apply (bind_core R _ (fun k => size (pq_chunk_map (co_inflight k)))); [done|]. intros n'.
  eapply triple_bind with (Q0 := fun _ => at_core (sending c n)).
  - intros a [[Hi Ha] Hn']. assert (n' = n) as -> by (destruct Ha as [_ Hn]; congruence).
    pose proof (sending_bound _ _ _ Ha) as [Hc Hb]. pose proof (dist_range 32 c i ltac:(lia)).
    apply (keeps_advance_past R c n (S n) i); [lia|done|lia|done].
  - intros _. eapply triple_conseq; [apply (frames_modify _)| | |];
      [|by intros s [[H _] _]; exact H|by intros ? ?|done]. intros a. by case_match.
Qed.

Lemma keeps_cumulative_advanced c total : keeps (at_core (inv_cum c)) closes (on_cumulative_tsn_ack_point_advanced total).
Proof.
  unfold on_cumulative_tsn_ack_point_advanced.
  apply bind_keeps; [apply keeps_inflight_is_empty; by intros k [Hk _]; apply (sw_queue _ _ _ (cw_sent _ _ Hk))|].
  intros is_empty. keep.
Qed.

Lemma keeps_postprocess_sack x b : x <> ShutdownPending -> keeps inv closes (postprocess_sack x b).
Proof.
  intros Hx. unfold postprocess_sack.
  apply bind_keeps; [apply keeps_inflight_is_empty; intros k Hk; apply (sw_queue _ _ _ (cw_sent _ _ Hk))|].
  intros is_empty. apply bind_keeps; [|intros; keep]. destruct is_empty; [|keep].
  destruct x; try done; keep. apply keeps_set_late; auto.
Qed.

(** The cumulative ack point follows the queue. *)
Lemma sack_advance d c0 total b : in_range 32 (sack_cumulative_tsn_ack d) -> in_range 32 c0 ->
  dist 32 c0 (sack_cumulative_tsn_ack d) < 2 ^ 31 ->
  triple (at_core (fun k => sacking c0 (sack_cumulative_tsn_ack d) k /\
                            sna32lt (co_cum k) (sack_cumulative_tsn_ack d) = b))
    (st_when b
       (_ ← st_modify (fun a => a <| a_cumulative_tsn_ack_point := sack_cumulative_tsn_ack d |>);
        on_cumulative_tsn_ack_point_advanced total))
    (fun _ => at_core (inv_cum (sack_cumulative_tsn_ack d))) closes.
Proof.
  set (D := sack_cumulative_tsn_ack d). intros HD Hr Hd. destruct b; cbn [st_when].
  - apply (bind_modify _ _ (inv_cum D)); [|apply keeps_cumulative_advanced].
    intros a [[Ha Hc] _]. split; [|done]. destruct Ha. by split.
  - eapply triple_core with (K' := inv_cum D); [|keep].
    intros k [[Ha Hc] Hlt]. assert (c0 = D) as ->; [|split; [unfold core_inv; by rewrite Hc|done]].
    rewrite Hc in Hlt. apply (dist32_zero c0 D Hr HD). pose proof (dist_range 32 c0 D ltac:(lia)).
    destruct (Z.eq_dec (dist 32 c0 D) 0); [done|]. pose proof (proj2 (sna32lt_spec c0 D Hr HD) ltac:(lia)).
    congruence.
Qed.

Lemma keeps_handle_sack now d : in_range 32 (sack_cumulative_tsn_ack d) -> keeps inv closes (handle_sack now d).
Proof.
  set (D := sack_cumulative_tsn_ack d). intros HD. unfold handle_sack. apply bind_state. intros x.
  destruct (decide (x = ShutdownPending)) as [->|Hx]; [intros a [Ha Hs]; by destruct (cw_state _ _ Ha)|].
  apply (in_state_keeps closes). case_match; [keep|].
  apply bind_frames; [frame|]. intros _. apply (name_core closes core_inv co_cum). intros c0.
  apply (bind_core closes _ (fun k => sna32gt (co_cum k) D)); [done|].
  intros [|]; [eapply triple_core; [|apply keeps_ret]; by intros k [[? _] _]|]. cbn beta iota.
  intros a Ha. assert (Hc0 : in_range 32 c0 /\ dist 32 c0 D < 2 ^ 31).
  { destruct Ha as [[Ha Hc] Hgt]. rewrite Hc in Hgt.
    assert (Hr : in_range 32 c0) by (rewrite <- Hc; apply (wf_cum _ _ (sw_queue _ _ _ (cw_sent _ _ Ha)))).
    split; [done|]. apply (sna32lte_spec c0 D Hr HD). rewrite (sna32gt_lte c0 D Hr HD) in Hgt.
    by destruct (sna32lte c0 D). }
  destruct Hc0 as [Hc0 Hd]. apply proj1 in Ha. revert a Ha.
  eapply triple_bind; [by apply (process_selective_ack_spec now d c0)|]. intros acks. cbv zeta.
  apply bind_frames; [frame|]. intros total.
  apply (bind_core closes _ (fun k => sna32lt (co_cum k) D)); [done|]. intros advanced.
  eapply triple_bind; [by apply (sack_advance d c0)|]. intros ?; cbn beta.
  apply bind_keeps.
  { apply keeps_for. intros [si released] _. apply keeps_bind; [keep|]. intros [r|]; [|keep].
    apply keeps_with_stream_cum; [done|intros e s Hs; exact (cw_running _ _ Hs)|]. intros s s' [= <-]. apply on_buffer_released_payload_size. }
  intros _. apply bind_frames; [frame|]. intros _.
  apply bind_keeps; [apply keeps_fast_retransmission|]. intros _.
  apply (triple_core closes _ core_inv); [by intros k [? _]|].
  apply bind_frames; [frame|]. intros use.
  apply bind_keeps.
  { apply keeps_when. intros _. apply keeps_bind; [keep|]. intros _.
    apply keeps_bind; [apply keeps_try_advance|]. intros _. keep. }
  intros _. apply bind_keeps; [by apply keeps_postprocess_sack|]. intros _. apply keeps_ret.
Qed.
End sack.

(** * SHUTDOWN *)
Section shutdown.
Context {P : Profile}.

Lemma keeps_send_shutdown_ack : keeps inv closes send_shutdown_ack.
Proof.
  unfold send_shutdown_ack. apply bind_frames; [frame|]. intros _.
  apply bind_keeps; [apply keeps_set_late; auto|]. intros _. keep.
Qed.

Lemma keeps_handle_shutdown : keeps inv closes handle_shutdown.
Proof.
  unfold handle_shutdown. apply bind_frames; [frame|]. intros x. apply bind_keeps; [|intros; keep].
  destruct x; try solve [keep]; [|apply keeps_send_shutdown_ack].
  apply bind_keeps; [apply keeps_inflight_is_empty; intros k Hk; apply (sw_queue _ _ _ (cw_sent _ _ Hk))|].
  intros [|]; [apply keeps_send_shutdown_ack|]. apply keeps_set_late; auto.
Qed.

Lemma keeps_handle_shutdown_ack : keeps inv closes handle_shutdown_ack.
Proof. unfold handle_shutdown_ack. keep. Qed.

Lemma keeps_handle_shutdown_complete : keeps inv closes handle_shutdown_complete.
Proof. unfold handle_shutdown_complete. keep. Qed.
End shutdown.

(** * Packets *)
Section packets.
Context {P : Profile}.

Lemma keeps_dispatch env p c : any_ranged c -> no_init c -> keeps inv closes (dispatch_chunk env p c).
Proof.
  intros Hc Hn. destruct c as [c|c|c|c|c|c|c|c|c|c|c|c|c|c]; cbn [dispatch_chunk any_ranged no_init] in *.
  - by apply keeps_handle_data, Hc.
  - rewrite Hn. apply keeps_handle_init_ack, Hc.
  - apply keeps_handle_sack, Hc.
  - keep.
  - apply raise_closes; core_running.
  - apply raise_closes; core_running.
  - apply keeps_handle_shutdown.
  - apply keeps_handle_shutdown_ack.
  - apply raise_closes; core_running.
  - apply keeps_handle_cookie_echo.
  - apply keeps_handle_cookie_ack.
  - apply keeps_handle_shutdown_complete.
  - apply keeps_handle_reconfig.
  - apply keeps_handle_forward_tsn.
Qed.

Lemma keeps_handle_chunk env p c K : any_ranged c -> (forall k, K k -> running k) ->
  triple (at_core K) (dispatch_chunk env p c) (fun _ => inv) closes ->
  triple (at_core K) (handle_chunk env p c) (fun _ => inv) closes.
Proof.
  intros Hc HK Hd. unfold handle_chunk.
  apply triple_bind_lift; [apply tame_any_check|intros e a Ha _; by apply HK|]. intros _ _.
  eapply triple_bind; [exact Hd|]. intros packets; cbn beta. keep.
Qed.

(** A packet that passed [check_packet], received while the read loop runs. *)
Lemma handle_packet_inv env p : packet_ranged p -> check_packet p = Ok tt ->
  triple (at_core (fun k => core_inv k /\ co_open k = true)) (handle_packet env p) (fun _ => inv) closes.
Proof.
  intros (_ & _ & _ & Hr) Hcheck. unfold handle_packet. apply bind_frames; [frame|]. intros _.
  eapply triple_bind with (Q0 := fun _ => inv); [|intros ?; cbn beta; keep].
  apply check_packet_accepts in Hcheck as (_ & _ & Hinit).
  assert (Hmain : forall l, Forall any_ranged l -> Forall no_init l ->
    keeps inv closes (st_for l (handle_chunk env p))).
  { intros l Hrl Hnl. apply keeps_for. intros c Hc. rewrite Forall_forall in Hrl, Hnl.
    apply keeps_handle_chunk; [auto|core_running|]. apply keeps_dispatch; auto. }
  destruct Hinit as [Hn|[Hone _]].
  { eapply triple_core; [|by apply Hmain]. by intros k [? _]. }
  destruct (pk_chunks p) as [|c [|]]; try done. cbn [st_for].
  inversion_clear Hr as [|? ? Hc _].
  eapply triple_bind with (Q0 := fun _ => inv); [|intros ?; cbn beta; keep].
  apply keeps_handle_chunk; [done|core_running|]. destruct c as [c|c|c|c|c|c|c|c|c|c|c|c|c|c];
    try (eapply triple_core; [|by apply keeps_dispatch]; by intros k [? _]).
  cbn [dispatch_chunk any_ranged] in *. destruct (ci_is_ack c) eqn:Hack; [|by apply keeps_handle_init, Hc].
  eapply triple_core; [|by apply keeps_handle_init_ack, Hc]. by intros k [? _].
Qed.
End packets.
