(* ===== verification/TransmitSafe.v ===== *)
(** Gathering outbound packets and the timer callbacks keep the invariant and
    raise no error.

    New chunks enter the queue in flight with the next TSN, so [gather_outbound]
    needs room: [budget] bounds the chunks in flight and pending together by half
    the TSN space.  The source has no such check; reaching the bound takes
    [2^31] chunks in memory. *)
From S2P Require Import Prelude Serial Errors Param Chunk Packet PacketLaws PayloadQueue PendingQueue.
From S2P Require Import ReassemblyQueue Timer Stream Assoc Receive Transmit Tame Invariant ReceiveSafe.

(** * New data *)
Definition pending_count (k : Core) : nat :=
  length (unordered_queue (co_pending k) ++ ordered_queue (co_pending k)).

Definition in_flight (k : Core) : nat := size (pq_chunk_map (co_inflight k)).

Definition budget (k : Core) : Prop := core_inv k /\ Z.of_nat (in_flight k + pending_count k) <= 2 ^ 31.

Definition gathering (fuel : nat) (k : Core) : Prop := budget k /\ (pending_count k < fuel)%nat.

Section new_data.
Context {P : Profile} (R : Error -> Assoc -> Prop).

(** A chunk is out of the pending queue and not in flight yet. *)
Definition popped (fuel : nat) (k : Core) : Prop :=
  core_inv k /\ Z.of_nat (in_flight k + pending_count k) < 2 ^ 31 /\ (pending_count k < fuel)%nat.

Lemma popped_gathering fuel k : popped fuel k -> gathering fuel k.
Proof. intros (H1 & H2 & H3). split; [split|]; [done|lia|done]. Qed.

Lemma pending_pop_call_spec fuel c :
  triple (at_core (fun k => gathering (S fuel) k /\ peek (co_pending k) = Some c))
    (pending_pop_call (pd_beginning_fragment c) (pd_unordered c))
    (fun r => at_core (fun k => r = Some c /\ popped fuel k)) R.
Proof.
  intros a [[[Ha Hb] Hf] Hp]. unfold pending_pop_call. cbn in Hp.
  destruct (pending_pop_peek _ c (pe_wf _ (cw_pending _ _ Ha)) Hp) as (q' & Hpop & Hwf & Hfront).
  cbn in Hpop. rewrite Hpop. split; [done|].
  pose proof (Permutation_length (popped_front_perm _ _ _ Hfront)) as Hl. cbn in Hl.
  unfold popped, pending_count, in_flight in *. cbn in *. split_and!; [|lia|lia].
  destruct Ha. split; cbn in *; try done. by eapply pending_whole_pop.
Qed.

(** The next TSN is taken, its chunk not in flight yet. *)
Definition with_next (t : Z) (k : Core) : Core :=
  mkCore (co_state k) (co_pending k) (co_last k) (co_payload k) (co_cum k) t (co_inflight k) (co_streams k)
    (co_heap k) (co_max_payload k) (co_accept k) (co_done k) (co_open k) (co_will_shutdown k).

Definition numbered (fuel : nat) (tsn : Z) (k : Core) : Prop :=
  popped fuel (with_next tsn k) /\ co_next k = wrap 32 (tsn + 1).

Lemma generate_next_tsn_spec fuel :
  triple (at_core (popped fuel)) generate_next_tsn (fun tsn => at_core (numbered fuel tsn)) R.
Proof.
  unfold generate_next_tsn. apply (bind_core R _ co_next); [done|]. intros tsn.
  apply bind_arith. intros next ->.
  apply (bind_modify _ _ (numbered fuel tsn)); [|by apply triple_ret].
  intros a [Ha <-]. split; [|done].
  destruct Ha as (Ha & Hb & Hf). split; [|by split]. destruct Ha. by split.
Qed.

Lemma push_inflight_spec fuel c :
  triple (at_core (numbered fuel (pd_tsn c)))
    (on_inflight_queue (fun q => q' ← push_no_check q c; Ok (tt, q')))
    (fun _ => at_core (gathering fuel)) R.
Proof.
  intros a [(Ha & Hb & Hf) Hn]. unfold on_inflight_queue.
  pose proof (tame_push_no_check (a_inflight_queue a) c) as Ht.
  destruct (push_no_check (a_inflight_queue a) c) as [q'|e| |] eqn:Hpush; try done;
    [|by apply push_no_check_not_Err in Hpush]. cbn [mbind res_bind].
  unfold in_flight, pending_count in *. cbn in Hb, Hf, Hn.
  destruct (sent_wf_push _ _ _ (cw_sent _ _ Ha) c q') as [Hs Hm]; [cbn; lia|done|done|].
  assert (Hsize : size (pq_chunk_map q') = S (size (pq_chunk_map (a_inflight_queue a)))).
  { cbn in Hm. rewrite Hm. apply map_size_insert_None, eq_None_not_Some.
    intros [Hr Hd]%(sw_contiguous _ _ _ (cw_sent _ _ Ha)). cbn in Hr, Hd.
    pose proof (sw_next _ _ _ (cw_sent _ _ Ha)) as Hnext. cbn in Hnext. rewrite Hnext in Hd.
    pose proof (wf_cum _ _ (sw_queue _ _ _ (cw_sent _ _ Ha))) as Hc. cbn in Hc.
    replace (a_cumulative_tsn_ack_point a + 1 + Z.of_nat (size (pq_chunk_map (a_inflight_queue a))))
      with (a_cumulative_tsn_ack_point a + (1 + Z.of_nat (size (pq_chunk_map (a_inflight_queue a))))) in Hd by lia.
    rewrite dist32_add in Hd by (done || lia). lia. }
  split; [split|]; unfold in_flight, pending_count; cbn; [|rewrite Hsize; lia|lia].
  destruct Ha as [Hst Hw Hre Hse Hp Hh Hmx Hac Hop He Hrun Hd]. split; cbn in *; try done. by rewrite Hn.
Qed.

Lemma move_pending_spec fuel now c :
  triple (at_core (fun k => gathering (S fuel) k /\ peek (co_pending k) = Some c))
    (move_pending_data_chunk_to_inflight_queue now (pd_beginning_fragment c) (pd_unordered c))
    (fun _ => at_core (gathering fuel)) R.
Proof.
  unfold move_pending_data_chunk_to_inflight_queue.
  eapply triple_bind; [apply pending_pop_call_spec|]. intros r; cbn beta.
  apply (triple_pre (r = Some c) (at_core (popped fuel))). intros ->.
  apply bind_frames; [frame|]. intros _.
  eapply triple_bind; [apply generate_next_tsn_spec|]. intros tsn; cbn beta zeta.
  apply bind_frames; [frame|]. intros _.
  match goal with |- context [push_no_check _ ?c] => change tsn with (pd_tsn c) end.
  eapply triple_bind; [apply push_inflight_spec|]. intros []; cbn beta. keep.
Qed.

(** Every round takes a chunk out of the pending queue. *)
Lemma pop_pending_loop_spec now fuel : forall chunks sis,
  triple (at_core (gathering fuel)) (pop_pending_loop fuel now chunks sis) (fun _ => at_core budget) R.
Proof.
  induction fuel as [|fuel IH]; intros chunks sis; [intros a [_ H]; lia|]. cbn [pop_pending_loop].
  assert (Hbudget : forall c k, gathering (S fuel) k /\ peek (co_pending k) = c -> budget k)
    by (by intros c k [[? _] _]).
  apply (bind_core R _ (fun k => peek (co_pending k))); [done|]. intros [c|];
    [|eapply triple_core; [apply Hbudget|keep]]. cbv zeta. case_match.
  { eapply triple_bind; [apply pending_pop_call_spec|]. intros r; cbn beta.
    eapply triple_core; [|apply IH]. intros k [_ Hk]. by apply popped_gathering. }
  apply bind_frames; [frame|]. intros n. apply bind_frames; [frame|]. intros total.
  apply bind_frames; [frame|]. intros cwnd. apply bind_frames; [frame|]. intros rwnd.
  case_match; [eapply triple_core; [apply Hbudget|keep]|].
  apply bind_frames; [frame|]. intros rwnd'. apply bind_frames; [frame|]. intros _.
  eapply triple_bind; [apply move_pending_spec|]. intros moved; cbn beta. apply IH.
Qed.

Lemma pop_pending_spec now : triple (at_core budget) (pop_pending_data_chunks_to_send now) (fun _ => inv) R.
Proof.
  assert (Hinv : forall k, budget k -> core_inv k) by (by intros k [? _]).
  unfold pop_pending_data_chunks_to_send. apply bind_frames; [frame|]. intros len.
  case_match; [eapply triple_core; [apply Hinv|keep]|].
  apply (bind_core R _ pending_count); [done|]. intros n.
  eapply triple_bind with (Q0 := fun _ => at_core budget).
  { eapply triple_core; [|apply pop_pending_loop_spec]. intros k [Hk Hn]. split; [done|lia]. }
  intros r; cbn beta zeta. destruct (fst r); [|eapply triple_core; [apply Hinv|keep]].
  apply bind_keeps; [apply keeps_inflight_is_empty; intros k [Hk _]; apply (sw_queue _ _ _ (cw_sent _ _ Hk))|].
  intros [|]; [|eapply triple_core; [apply Hinv|keep]].
  apply (bind_core R _ (fun k => peek (co_pending k))); [done|].
  intros [c|]; [|eapply triple_core; [by intros k [Hk%Hinv _]|keep]].
  apply (name_core R _ pending_count). intros m.
  eapply triple_bind with (Q0 := fun _ => at_core (gathering m)).
  - eapply triple_core; [|apply (move_pending_spec m)].
    intros k [[Hk Hp] Hm]. split; [|done]. split; [done|lia].
  - intros moved; cbn beta. apply (triple_core R _ core_inv); [|keep]. by intros k [[? _] _].
Qed.
End new_data.

(** * Bundling and marshalling *)
Section bundling.
Context {P : Profile} {C : Crc}.

Lemma tame_bundle_loop mtu l : forall cs n, tame (bundle_loop mtu l cs n) /\ forall e, bundle_loop mtu l cs n <> Err e.
Proof.
  induction l as [|c l IH]; intros cs n; cbn [bundle_loop]; [by destruct cs|].
  assert (Har : forall z (k : Z -> res Error (list (list ChunkPayloadData))),
    (forall x, tame (k x) /\ forall e, k x <> Err e) ->
    tame (arith 32 z ≫= k) /\ forall e, arith 32 z ≫= k <> Err e).
  { intros z k Hk. pose proof (tame_arith (E := Error) 32 z) as Ht.
    destruct (arith 32 z) as [x|e| |] eqn:Hz; cbn; [apply Hk|by apply arith_not_Err in Hz|done|done]. }
  cbv zeta. apply Har. intros total. case_match; repeat (apply Har; intros ?); [|apply IH].
  destruct (IH [c] x0) as [Ht He]. split; [by apply tame_bind|].
  intros e. specialize (He e). by destruct (bundle_loop _ _ _ _).
Qed.

Lemma frames_bundle l : frames (bundle_data_chunks_into_packets l).
Proof.
  unfold bundle_data_chunks_into_packets. apply frames_bind; [frame|]. intros mtu.
  apply frames_bind; [|intros; frame]. apply frames_lift; apply tame_bundle_loop.
Qed.

Lemma frames_marshal_packet raws p : frames (marshal_packet raws p).
Proof.
  unfold marshal_packet. pose proof (tame_Packet_marshal p) as Ht.
  destruct (Packet_marshal p); [frame|frame|by intros R K a _|done].
Qed.
End bundling.

#[export] Hint Resolve frames_bundle frames_marshal_packet : frames.

Section marshal.
Context {P : Profile} {C : Crc}.

Lemma frames_marshal_packets ps raws : frames (marshal_packets ps raws).
Proof. unfold marshal_packets. frame. Qed.
End marshal.

#[export] Hint Resolve frames_marshal_packets : frames.

(** * Retransmission *)
Section retransmission.
Context {P : Profile} (R : Error -> Assoc -> Prop).

(** The TSN of the [i]-th chunk in flight. *)
Lemma bind_nth_tsn {B} c n i (k : Z -> AM B) (Q : B -> Assoc -> Prop) :
  triple (at_core (sending c n)) (k (wrap 32 (c + 1 + i))) Q R ->
  triple (at_core (sending c n))
    ((t ← st_get a_cumulative_tsn_ack_point; t ← st_lift (add32 t i); st_lift (add32 t 1)) ≫= k) Q R.
Proof.
  intros Hk. eapply triple_bind with (Q0 := fun t => at_core (fun k => t = wrap 32 (c + 1 + i) /\ sending c n k)).
  - apply (bind_core R _ co_cum); [done|]. intros t. apply bind_arith. intros t' ->.
    intros a [Ha Hc]. pose proof (tame_arith (E := Error) 32 (wrap 32 (t + i) + 1)) as Ht.
    unfold st_lift. destruct (arith _ _) eqn:Har; try done; [|by apply arith_not_Err in Har].
    split; [|done]. apply arith_Ok_wrap in Har. rewrite Har, wrap32_add. f_equal.
    destruct Ha as [[_ Hc'] _]. lia.
  - intros t. apply triple_pre. by intros ->.
Qed.

Lemma keeps_retransmit_loop c n awnd : forall fuel i sent chunks, 0 <= i ->
  i <= Z.of_nat n < i + Z.of_nat fuel ->
  keeps (at_core (sending c n)) R (retransmit_loop fuel awnd i sent chunks).
Proof.
  induction fuel as [|fuel IH]; intros i sent chunks Hi Hn; [lia|]. cbn [retransmit_loop].
  apply bind_nth_tsn.
  apply (bind_core R _ (fun k => pq_get (co_inflight k) (wrap 32 (c + 1 + i)))); [done|].
  intros [p|]; [|apply (triple_core R _ (sending c n)); [by intros k [? _]|keep]].
  intros a Ha. pose proof (sending_bound _ _ _ (proj1 Ha)) as [Hc Hb].
  assert (Hlt : i < Z.of_nat n).
  { destruct Ha as [Ha Hp]. apply (sending_found c n (core a)); [done|lia|]. unfold pq_get in Hp. eauto. }
  revert a Ha. apply bind_arith. intros next Hnext.
  assert (next = i + 1) as -> by (rewrite Hnext; apply wrap_small; unfold in_range; lia).
  destruct (negb (pd_retransmit p)).
  { apply (triple_core R _ (sending c n)); [by intros k [? _]|]. apply IH; lia. }
  apply bind_frames; [frame|]. intros rwnd. cbv zeta. apply bind_frames; [frame|]. intros total.
  match goal with |- triple _ (if ?b then _ else _) _ _ => destruct b end.
  { apply (triple_core R _ (sending c n)); [by intros k [? _]|keep]. }
  apply bind_frames; [frame|]. intros nsent.
  eapply triple_bind; [by apply keeps_update_inflight|]. intros ?; cbn beta.
  apply bind_frames; [frame|]. intros _. case_match; [keep|]. apply IH; lia.
Qed.

(** The number of chunks in flight does not change. *)
Lemma keeps_get_retransmit c n : keeps (at_core (sending c n)) R get_data_packets_to_retransmit.
Proof.
  unfold get_data_packets_to_retransmit. apply bind_frames; [frame|]. intros awnd.
  apply (bind_core R _ in_flight); [done|]. intros n'.
  intros a [Ha Hn']. assert (n' = n) as -> by (destruct Ha as [_ Hn]; unfold in_flight in Hn'; congruence).
  clear Hn'. revert a Ha. eapply triple_bind; [apply (keeps_retransmit_loop c n awnd (S n) 0); lia|].
  intros chunks; cbn beta. keep.
Qed.

Lemma keeps_fast_retransmit_loop c n : forall fuel i size chunks, 0 <= i ->
  i <= Z.of_nat n < i + Z.of_nat fuel ->
  keeps (at_core (sending c n)) R (fast_retransmit_loop fuel i size chunks).
Proof.
  induction fuel as [|fuel IH]; intros i size chunks Hi Hn; [lia|]. cbn [fast_retransmit_loop].
  apply bind_nth_tsn.
  apply (bind_core R _ (fun k => pq_get (co_inflight k) (wrap 32 (c + 1 + i)))); [done|].
  intros [p|]; [|apply (triple_core R _ (sending c n)); [by intros k [? _]|keep]].
  intros a Ha. pose proof (sending_bound _ _ _ (proj1 Ha)) as [Hc Hb].
  assert (Hlt : i < Z.of_nat n).
  { destruct Ha as [Ha Hp]. apply (sending_found c n (core a)); [done|lia|]. unfold pq_get in Hp. eauto. }
  revert a Ha. apply bind_arith. intros next Hnext.
  assert (next = i + 1) as -> by (rewrite Hnext; apply wrap_small; unfold in_range; lia).
  apply bind_frames; [frame|]. intros ab. case_match.
  { apply (triple_core R _ (sending c n)); [by intros k [? _]|]. apply IH; lia. }
  apply bind_frames; [frame|]. intros mtu. apply bind_frames; [frame|]. intros size'.
  apply bind_frames; [frame|]. intros total.
  case_match; [apply (triple_core R _ (sending c n)); [by intros k [? _]|keep]|].
  apply bind_frames; [frame|]. intros _. apply bind_frames; [frame|]. intros nsent. cbv zeta.
  eapply triple_bind; [by apply keeps_update_inflight|]. intros ?; cbn beta.
  apply bind_frames; [frame|]. intros _. apply IH; lia.
Qed.

Lemma keeps_gather_fast `{Crc} raws : keeps inv R (gather_outbound_fast_retransmission_packets raws).
Proof.
  unfold gather_outbound_fast_retransmission_packets. apply bind_frames; [frame|]. intros [|]; [|keep].
  apply bind_frames; [frame|]. intros _. apply (name_core R core_inv co_cum). intros c.
  apply (bind_core R _ (fun k => size (pq_chunk_map (co_inflight k)))); [done|]. intros n.
  eapply triple_bind; [apply (keeps_fast_retransmit_loop c n (S n) 0); lia|]. intros chunks; cbn beta.
  apply (triple_core R _ core_inv); [by intros k [[? _] _]|]. keep.
Qed.

Lemma forward_tsn_map_tame c next q last : sent_wf c next q -> forall fuel j m,
  0 <= j -> j <= Z.of_nat (size (pq_chunk_map q)) < j + Z.of_nat fuel ->
  tame (forward_tsn_map fuel q (wrap 32 (c + 1 + j)) last m) /\
  forall e, forward_tsn_map fuel q (wrap 32 (c + 1 + j)) last m <> Err e.
Proof.
  intros Hq. induction fuel as [|fuel IH]; intros j m Hj Hn; [lia|]. cbn [forward_tsn_map].
  destruct (sna32lte _ _); [|done]. unfold pq_get.
  destruct (pq_chunk_map q !! wrap 32 (c + 1 + j)) as [p|] eqn:Hp; [|done].
  pose proof (sent_size _ _ _ Hq) as Hb.
  assert (Hlt : j < Z.of_nat (size (pq_chunk_map q))) by (apply (sent_run _ _ _ Hq j); [lia|eauto]).
  cbv zeta. pose proof (tame_arith (E := Error) 32 (wrap 32 (c + 1 + j) + 1)) as Ht.
  destruct (arith 32 _) as [x|e| |] eqn:Har; try done; [|by apply arith_not_Err in Har].
  cbn [mbind res_bind]. apply arith_Ok_wrap in Har as ->. rewrite wrap32_add.
  replace (c + 1 + j + 1) with (c + 1 + (j + 1)) by lia. apply IH; lia.
Qed.

Lemma keeps_create_forward_tsn : keeps inv R create_forward_tsn.
Proof.
  unfold create_forward_tsn. apply (name_core R core_inv co_cum). intros c.
  eapply triple_bind with (Q0 := fun i => at_core (fun k => i = wrap 32 (c + 1) /\ inv_cum c k)).
  { apply (bind_core R _ co_cum); [done|]. intros t a [Ha <-].
    pose proof (tame_arith (E := Error) 32 (co_cum (core a) + 1)) as Ht.
    unfold st_lift. destruct (arith _ _) eqn:Har; try done; [|by apply arith_not_Err in Har].
    split; [|done]. apply arith_Ok_wrap in Har. destruct Ha as [_ <-]. done. }
  intros i. apply triple_pre. intros ->.
  apply (bind_core R _ co_inflight); [done|]. intros q. apply bind_frames; [frame|]. intros last.
  intros a Ha. assert (Hq : sent_wf c (co_next (core a)) q).
  { destruct Ha as [[Ha <-] <-]. apply (cw_sent _ _ Ha). }
  destruct (forward_tsn_map_tame c _ q last Hq (S (size (pq_chunk_map q))) 0 ∅) as [Ht He]; [lia|lia|].
  rewrite Z.add_0_r in Ht, He.
  refine (bind_frames R _ _ _ _ (frames_lift _ Ht He) _ a Ha). intros m.
  apply triple_ret. by intros s [[Hs _] _].
Qed.
End retransmission.

(** * The packets of one round *)
Section gather.
Context {P : Profile} {C : Crc} (R : Error -> Assoc -> Prop).

Lemma keeps_gather_data_reconfig now raws :
  triple (at_core budget) (gather_outbound_data_and_reconfig_packets now raws) (fun _ => inv) R.
Proof.
  unfold gather_outbound_data_and_reconfig_packets. eapply triple_bind; [apply pop_pending_spec|].
  intros r; cbn beta zeta. keep.
Qed.

Lemma keeps_create_sack : keeps inv R create_selective_ack_chunk.
Proof.
  unfold create_selective_ack_chunk. apply bind_frames; [frame|]. intros last.
  apply bind_frames; [frame|]. intros credit. apply bind_frames; [frame|]. intros q.
  apply bind_frames.
  { apply frames_lift; [apply tame_get_gap_ack_blocks|apply get_gap_ack_blocks_not_Err]. }
  intros blocks. apply (bind_modify _ _ core_inv); [|keep].
  intros a [Hst Hw Hre Hse Hp Hh Hmx Hac Hop He Hrun Hd]. split; cbn in *; try done. by destruct Hre.
Qed.

Lemma keeps_gather_sack raws : keeps inv R (gather_outbound_sack_packets raws).
Proof.
  unfold gather_outbound_sack_packets. apply bind_frames; [frame|]. intros st.
  case_match; [keep| |keep]. apply bind_frames; [frame|]. intros _.
  apply bind_keeps; [apply keeps_create_sack|]. intros sack. keep.
Qed.

Lemma keeps_gather_forward raws : keeps inv R (gather_outbound_forward_tsn_packets raws).
Proof.
  unfold gather_outbound_forward_tsn_packets. apply bind_frames; [frame|]. intros [|]; [|keep].
  apply bind_frames; [frame|]. intros _. apply bind_frames; [frame|]. intros [|]; [|keep].
  apply bind_keeps; [apply keeps_create_forward_tsn|]. intros c. keep.
Qed.

Lemma frames_gather_shutdown_chunk c after ok raws : frames after ->
  frames (gather_shutdown_chunk c after ok raws).
Proof.
  intros Ha. unfold gather_shutdown_chunk. apply frames_bind; [frame|]. intros p.
  pose proof (tame_Packet_marshal p) as Ht. destruct (Packet_marshal p); [|frame|by intros K' Q a _|done].
  apply frames_bind; [done|]. intros; frame.
Qed.

Lemma keeps_gather_shutdown raws : keeps inv R (gather_outbound_shutdown_packets raws).
Proof.
  unfold gather_outbound_shutdown_packets. do 3 (apply bind_frames; [frame|]; intros ?).
  match goal with |- context [match ?x with true => _ | false => _ end] => destruct x end.
  - apply (bind_modify _ _ core_inv); [intros a []; by split|].
    apply bind_frames; [frame|]. intros t. apply frames_gather_shutdown_chunk. frame.
  - case_match; [|case_match]; [| |keep];
      (apply bind_frames; [frame|]; intros _; apply frames_gather_shutdown_chunk; frame).
Qed.

Lemma frames_marshal_all ps raws : frames (marshal_packets ps raws).
Proof. frame. Qed.

Lemma keeps_gather_retransmit c n raws :
  keeps (at_core (sending c n)) R (gather_data_packets_to_retransmit raws).
Proof.
  unfold gather_data_packets_to_retransmit. apply bind_keeps; [apply keeps_get_retransmit|]. intros ps. keep.
Qed.

Lemma stable_marshal_packet {T} (f : Assoc -> T) raws p : stable f (marshal_packet raws p).
Proof. unfold marshal_packet. stab. Qed.

Lemma stable_retransmit raws : stable (fun a => sh_pending_queue (a_shared a)) (gather_data_packets_to_retransmit raws).
Proof.
  unfold gather_data_packets_to_retransmit, get_data_packets_to_retransmit, bundle_data_chunks_into_packets,
    marshal_packets.
  apply stable_bind; [|intros; apply stable_fold, stable_marshal_packet].
  apply stable_bind; [stab|]. intros awnd. apply stable_bind; [stab|]. intros n.
  apply stable_bind; [|intros; stab]. generalize 0 at 1. generalize 0. generalize (@nil ChunkPayloadData).
  induction (S n) as [|fuel IH]; intros l z z'; [done|]. cbn [retransmit_loop].
  unfold update_inflight, check_partial_reliability_status. stab; apply IH.
Qed.

(** The retransmissions come first; they leave the room for new data as it is. *)
Lemma keeps_gather_retransmit_budget raws :
  keeps (at_core budget) R (gather_data_packets_to_retransmit raws).
Proof.
  intros a Ha. set (c := co_cum (core a)). set (n := in_flight (core a)). set (q := co_pending (core a)).
  assert (Hpre : at_core (sending c n) a /\ sh_pending_queue (a_shared a) = q) by (destruct Ha; by split_and!).
  pose proof (triple_stable _ q _ _ _ _ (stable_retransmit raws) (keeps_gather_retransmit c n raws) a Hpre) as H.
  destruct (gather_data_packets_to_retransmit raws a) as [[x|e| |] s]; try done.
  destruct H as [[[Hs Hc] Hn] Hq]. destruct Ha as [_ Hb]. split; [done|].
  unfold in_flight, pending_count in *. cbn in *. rewrite Hn, Hq. done.
Qed.

Lemma keeps_gather_outbound now :
  triple (at_core budget) (gather_outbound now) (fun _ => inv) R.
Proof.
  assert (Hinv : forall k, budget k -> core_inv k) by (by intros k [? _]).
  unfold gather_outbound. apply bind_frames; [frame|]. intros control.
  apply bind_frames; [frame|]. intros _. apply bind_frames; [frame|]. intros raws.
  apply bind_frames; [frame|]. intros x.
  assert (Hshut : forall raws, triple (at_core budget)
    (raws ← gather_data_packets_to_retransmit raws;
     raws ← gather_outbound_fast_retransmission_packets raws;
     raws ← gather_outbound_sack_packets raws; gather_outbound_shutdown_packets raws) (fun _ => inv) R).
  { intros raws0. apply bind_keeps; [apply keeps_gather_retransmit_budget|]. intros r1.
    apply (triple_core R _ core_inv); [done|]. apply bind_keeps; [apply keeps_gather_fast|]. intros r2.
    apply bind_keeps; [apply keeps_gather_sack|]. intros r3. apply keeps_gather_shutdown. }
  destruct x; [| | | | |apply Hshut..].
  1-3: apply (triple_core R _ core_inv); [done|]; keep.
  - apply bind_keeps; [apply keeps_gather_retransmit_budget|]. intros r1.
    eapply triple_bind; [apply keeps_gather_data_reconfig|]. intros r2; cbn beta.
    apply bind_keeps; [apply keeps_gather_fast|]. intros r3.
    apply bind_keeps; [apply keeps_gather_sack|]. intros r4.
    apply bind_keeps; [apply keeps_gather_forward|]. intros r5. keep.
  - apply (triple_core R _ core_inv); [done|]. apply keeps_gather_shutdown.
Qed.
End gather.

(** * Timers *)
Section timers.
Context {P : Profile} (R : Error -> Assoc -> Prop).

Lemma frames_on_ack_timeout : frames on_ack_timeout.
Proof. unfold on_ack_timeout. frame. Qed.

(** The errors of the handshake's timers are dropped. *)
Lemma keeps_ignore_error m : keeps inv (fun _ => inv) m -> keeps inv R (ignore_error m).
Proof. intros H a Ha. specialize (H a Ha). unfold ignore_error. by destruct (m a) as [[] ?]. Qed.

Lemma keeps_on_retransmission_timeout id n : keeps inv R (on_retransmission_timeout id n).
Proof.
  destruct id; cbn [on_retransmission_timeout].
  - apply keeps_ignore_error. unfold send_init. apply bind_frames; [frame|]. intros [i|]; [keep|].
    by apply keeps_raise.
  - apply keeps_ignore_error. unfold send_cookie_echo. apply bind_frames; [frame|]. intros [i|]; [keep|].
    by apply keeps_raise.
  - apply bind_state. intros x.
    destruct (decide (x = ShutdownSent)) as [->|Hx]; [intros a [Ha Hs]; by destruct (cw_state _ _ Ha)|].
    apply in_state_keeps. destruct x; try done; keep.
  - do 4 (apply bind_frames; [frame|]; intros ?). apply bind_frames; [frame|]. intros _.
    apply bind_frames; [frame|]. intros use.
    apply bind_keeps; [apply keeps_when; intros _; apply keeps_try_advance|]. intros _.
    apply (bind_modify _ _ core_inv); [|keep].
    intros a Ha. apply (core_wf_inflight _ (co_cum (core a)) (core a) _ Ha); [|done].
    apply sent_wf_retransmit, (cw_sent _ _ Ha).
  - keep.
Qed.

Lemma keeps_on_retransmission_failure id : keeps inv R (on_retransmission_failure id).
Proof. destruct id; cbn [on_retransmission_failure]; keep. Qed.
End timers.
