(* ===== verification/System.v ===== *)
(** The association as a whole: the events its tasks and its user perform, one
    at a time under the lock of the source, and what holds in every state they
    reach.

    [run] is the body each task executes for an event: the read loop and the
    write loop of [association/mod.rs] (which close the association on an
    error), the timers' callbacks and the calls of the application.  [enabled]
    is what the environment guarantees: packets fit the read buffer, streams are
    opened once [Association::client] has returned, and the bound of
    [TransmitSafe.v] on the chunks in memory. *)
From S2P Require Import Prelude Serial Errors Param Chunk Packet PacketLaws PayloadQueue PendingQueue.
From S2P Require Import ReassemblyQueue Timer Stream Assoc Receive Transmit Tame Invariant ReceiveSafe.
From S2P Require Import TransmitSafe.

Inductive Event : Type :=
  | Inbound (env : Env) (raw : bytes)
  | WriteLoop (now : Z) (sent : bool)
  | RtxTimeout (id : RtxTimerId) (n_rtos : nat)
  | RtxFailure (id : RtxTimerId)
  | AckTimeout
  | OpenStream (si : Z)
  | StreamWrite (r : nat) (now : Z) (p : bytes) (ppi : PayloadProtocolIdentifier)
  | StreamClose (r : nat) (now : Z)
  | CloseCall.

Section system.
Context {P : Profile} {C : Crc}.

(** One round of [Association::read_loop]. *)
Definition read_loop (env : Env) (raw : bytes) : AM unit := fun a =>
  match handle_inbound env raw a with
  | (Err _, a') => a_close a'
  | r => r
  end.

(** One round of [Association::write_loop]; [sent] tells whether the packets
    could all be sent. *)
Definition write_loop (now : Z) (sent : bool) : AM unit :=
  r ← gather_outbound now;
  let ok : bool := snd r in
  if ok && sent then mret tt else a_close.

Definition run (ev : Event) : AM unit :=
  match ev with
  | Inbound env raw => read_loop env raw
  | WriteLoop now sent => write_loop now sent
  | RtxTimeout id n_rtos => on_retransmission_timeout id n_rtos
  | RtxFailure id => on_retransmission_failure id
  | AckTimeout => on_ack_timeout
  | OpenStream si => ignore_error (_ ← open_stream si; mret tt)
  | StreamWrite r now p ppi => ignore_error (_ ← on_stream r (write_sctp now p ppi) 0; mret tt)
  | StreamClose r now => ignore_error (on_stream r (stream_close now) tt)
  | CloseCall => a_close
  end.

Definition enabled (ev : Event) (a : Assoc) : Prop :=
  match ev with
  | Inbound _ raw => Z.of_nat (length raw) <= RECEIVE_MTU
  | WriteLoop _ _ => Z.of_nat (in_flight (core a) + pending_count (core a)) <= 2 ^ 31
  | OpenStream _ => None ∈ a_handshake_completed a
  | _ => True
  end.

(** A step of an association that is not closed. *)
Definition step (a a' : Assoc) : Prop :=
  exists ev, a_close_loop a = true /\ enabled ev a /\ run ev a = (Ok tt, a').

(** What [Association::client] starts from: [random_tsn] and [random_tag] are
    the two random numbers of [AssociationInternal::new]. *)
Definition started (config : Config) (random_tsn random_tag : Z) (a : Assoc) : Prop :=
  in_range 32 random_tsn /\
  Association_new_client (AssociationInternal_new config random_tsn random_tag) = (Ok tt, a).

Definition reachable (config : Config) (random_tsn random_tag : Z) (a : Assoc) : Prop :=
  exists a0, started config random_tsn random_tag a0 /\ rtc step a0 a.

(** ** The first state *)
Lemma new_inv config tsn tag : in_range 32 tsn ->
  let a := AssociationInternal_new config tsn tag in
  a_close_loop a = true -> pending_whole (sh_pending_queue (a_shared a)) /\
  sent_wf (a_cumulative_tsn_ack_point a) (a_my_next_tsn a) (a_inflight_queue a) /\
  pq_wf (a_peer_last_tsn a) (a_payload_queue a).
Proof.
  intros Ht a _. split_and!.
  - split; [|done|done]. split; [by eexists|by eexists|constructor|constructor].
  - assert (Hr : in_range 32 (a_cumulative_tsn_ack_point a) /\ a_my_next_tsn a = a_cumulative_tsn_ack_point a + 1
                 /\ in_range 32 (a_my_next_tsn a)).
    { unfold in_range in *. cbn. destruct (Z.eqb_spec tsn 0); lia. }
    destruct Hr as (Hr & -> & Hn). rewrite <- (wrap_small 32 (_ + 1)) by done.
    apply sent_wf_empty; [by apply PayloadQueue_new_wf|done].
  - by apply PayloadQueue_new_wf.
Qed.

Lemma started_inv config tsn tag a : started config tsn tag a -> inv a.
Proof.
  intros [Ht Hrun]. destruct (new_inv config tsn tag Ht eq_refl) as (Hp & Hs & Hq).
  set (a0 := AssociationInternal_new config tsn tag) in *.
  unfold Association_new_client, set_state, send_init, create_packet, push_control, a_awake_write_loop in Hrun.
  unfold st_get, st_modify, mbind, st_bind, mret, st_ret in Hrun. cbn in Hrun.
  injection Hrun as <-. split; cbn; try done; try (by intros ? []%elem_of_nil).
Qed.

(** ** Every event *)
Lemma keeps_on_stream {A} R r (m : ST (Shared * Stream) Error A) (d : A) (k : A -> AM unit) :
  (forall sh s, 0 < st_max_payload_size s -> pending_whole (sh_pending_queue sh) ->
     let '(res, (sh', s')) := m (sh, s) in
     pending_whole (sh_pending_queue sh') /\ sh_state sh' = sh_state sh /\
     st_max_payload_size s' = st_max_payload_size s /\
     match res with Panic | OutOfFuel => False | Err _ | Ok _ => True end) ->
  (forall x, keeps inv (fun _ => inv) (k x)) ->
  keeps inv R (ignore_error (on_stream r m d ≫= k)).
Proof.
  intros Hm Hk. apply keeps_ignore_error. apply keeps_bind; [|done]. intros a Ha. unfold on_stream.
  destruct (a_heap a !! r) as [s|] eqn:Hr; [|done].
  specialize (Hm (a_shared a) s (cw_heap _ _ Ha r s Hr) (cw_pending _ _ Ha)).
  destruct (m (a_shared a, s)) as [res [sh' s']]. destruct Hm as (Hp & Hst & Hmax & Hres).
  assert (Hinv : inv (a <| a_shared := sh' |> <| a_heap ::= insert r s' |>)); [|by destruct res].
  destruct Ha as [Hst' Hw Hre Hse Hp' Hh Hm Hac Hop He Hrun Hd].
  split; cbn in *; unfold get_state in *; rewrite ?Hst; try done.
  apply map_Forall_insert_2; [|done]. rewrite Hmax. by apply (Hh r).
Qed.

Lemma keeps_stream_write R r now p ppi :
  keeps inv R (ignore_error (_ ← on_stream r (write_sctp now p ppi) 0; mret tt)).
Proof.
  apply keeps_on_stream; [|intros; apply keeps_ret]. intros sh s Hs Hp.
  destruct (write_sctp_cases now p ppi sh s Hs) as [H1 H2].
  destruct (write_sctp now p ppi (sh, s)) as [res [sh' s']] eqn:Hw.
  destruct (write_sctp_whole _ _ _ _ _ _ _ _ Hs Hp Hw) as (Hwhole & Hst & _).
  split_and!; [done|done|..].
  all: destruct (Z_gt_dec (Z.of_nat (length p)) (sh_max_message_size sh)) as [Hl|Hl];
    [specialize (H1 Hl); by injection H1 as -> -> ->|].
  all: specialize (H2 Hl); unfold after_packetize in H2; destruct (get_state sh);
    try (destruct H2 as (? & ? & H2)); injection H2 as -> -> ->; try done.
  all: by destruct (decide (ppi = Dcep)).
Qed.

Lemma keeps_stream_close R r now : keeps inv R (ignore_error (on_stream r (stream_close now) tt)).
Proof.
  assert (H : keeps inv R (ignore_error (u ← on_stream r (stream_close now) tt; mret u))).
  { apply keeps_on_stream; [|intros; apply keeps_ret]. intros sh s Hs Hp.
    unfold stream_close, send_reset_request, st_when, modify_shared, modify_stream. st_run.
    destruct (st_closed s) eqn:Hc; cbn [negb fst snd]; [done|].
    destruct (decide (get_state sh <> Established)); [done|]. cbn [fst snd]. split_and!; try done. cbn.
    apply (pending_push_whole _ [_] false); [done|by repeat constructor|done]. }
  intros a Ha. specialize (H a Ha). unfold ignore_error, mbind, st_bind, mret, st_ret in *.
  by destruct (on_stream _ _ _ a) as [[] ?].
Qed.

Lemma keeps_open_stream R si :
  triple (at_core (fun k => core_inv k /\ None ∈ co_done k))
    (ignore_error (_ ← open_stream si; mret tt)) (fun _ => inv) R.
Proof.
  intros a [Ha Hd]. unfold ignore_error, open_stream, create_stream. st_run.
  destruct (a_streams a !! si) as [r|] eqn:Hr; [done|]. st_run.
  destruct Ha as [Hst Hw Hre Hse Hp Hh Hm Hac Hop He Hrun Hdone]. split; cbn in *; try done.
  - apply map_Forall_insert_2; [cbn; done|done].
  - intros Ho Hy. by destruct (Hdone Ho Hd).
Qed.

(** A running association that is closed. *)
Definition shut (a : Assoc) : Prop :=
  get_state (a_shared a) = Closed /\ a_close_loop a = false.

Lemma unregister_shut l : forall a, shut a ->
  exists a', st_for l unregister_stream a = (Ok tt, a') /\ shut a'.
Proof.
  induction l as [|si l IH]; intros a Ha; [by exists a|]. cbn [st_for]. st_run.
  unfold unregister_stream at 1. st_run. apply IH. by destruct (a_streams a !! si).
Qed.

Lemma close_running a : at_core running a -> a_close_loop a = true ->
  exists a', a_close a = (Ok tt, a') /\ shut a'.
Proof.
  intros Hr Ho. unfold a_close, a_get_state, set_state, close_all_timers. st_run.
  rewrite decide_True by (by apply Hr). apply unregister_shut. done.
Qed.

Lemma close_stays_shut a : a_close_loop a = false -> exists a', a_close a = (Ok tt, a') /\ a_close_loop a' = false.
Proof.
  intros Ho. unfold a_close, a_get_state, set_state, close_all_timers. st_run.
  destruct (decide _); [|by exists a]. edestruct unregister_shut as (a' & -> & Ha'); [|exists a'; split; [done|apply Ha']].
  done.
Qed.

(** The parser panics on this packet, whatever the state. *)
Definition parse_panics (raw : bytes) : Prop := exists fr, Packet_unmarshal fr raw = Panic.

Lemma handle_inbound_inv env raw a : inv a -> a_close_loop a = true -> Z.of_nat (length raw) <= RECEIVE_MTU ->
  match handle_inbound env raw a with
  | (Ok _, a') => inv a'
  | (Err _, a') => at_core running a'
  | (Panic, _) => overflow_checks = true \/ parse_panics raw
  | (OutOfFuel, _) => False
  end.
Proof.
  intros Ha Ho Hlen. unfold handle_inbound. st_run.
  set (fr := mkFresh (env_now env) (sh_next_loc (a_shared a))).
  assert (Hb : usize_bytes raw) by (unfold usize_bytes, in_range, RECEIVE_MTU in *; lia).
  destruct (Packet_unmarshal fr raw) as [p|e| |] eqn:Hp.
  - destruct (check_packet p) as [[]|e| |] eqn:Hc; [|done| |].
    + pose proof (handle_packet_inv env p) as Hinv.
      specialize (Hinv ltac:(by eapply Packet_unmarshal_ranged) Hc).
      match goal with |- context [handle_packet env p ?b] => specialize (Hinv b) end.
      match type of Hinv with ?X -> _ => assert X as HX end.
      { split; [|done]. by destruct Ha. }
      specialize (Hinv HX). destruct (handle_packet env p _) as [[] ?]; auto.
    + pose proof (tame_check_packet p) as Ht. rewrite Hc in Ht. by left.
    + pose proof (tame_check_packet p) as Ht. by rewrite Hc in Ht.
  - done.
  - right. by exists fr.
  - by destruct (Packet_unmarshal_terminates fr raw Hb).
Qed.

(** What a task leaves: nothing is asked of an association that is closed. *)
Definition open_inv (a : Assoc) : Prop := a_close_loop a = true -> inv a.

Lemma run_inv ev a : inv a -> a_close_loop a = true -> enabled ev a ->
  match run ev a with
  | (Ok _, a') => open_inv a'
  | (Err _, _) => False
  | (Panic, _) => overflow_checks = true \/ match ev with Inbound _ raw => parse_panics raw | _ => False end
  | (OutOfFuel, _) => False
  end.
Proof.
  intros Ha Ho He.
  assert (Hkeep : forall m : AM unit, triple (fun a0 => a0 = a) m (fun _ => inv) no_error ->
    match m a with
    | (Ok _, a') => open_inv a'
    | (Err _, _) => False
    | (Panic, _) => overflow_checks = true \/ match ev with Inbound _ raw => parse_panics raw | _ => False end
    | (OutOfFuel, _) => False
    end).
  { intros m Hm. specialize (Hm a eq_refl). destruct (m a) as [[] ?]; try done; [by intros ?|by left]. }
  destruct ev; cbn [run enabled] in *.
  - pose proof (handle_inbound_inv env raw a Ha Ho He) as Hi. unfold read_loop.
    destruct (handle_inbound env raw a) as [[[]|e| |] a']; [by intros ?| |done|done].
    destruct (a_close_loop a') eqn:Ho'.
    + destruct (close_running a' Hi Ho') as (a2 & -> & [_ Hc]). intros ?. congruence.
    + destruct (close_stays_shut a' Ho') as (a2 & -> & Hc). intros ?. congruence.
  - apply (Hkeep (write_loop now sent)). unfold write_loop.
    apply (triple_bind _ _ _ (fun _ => inv)).
    + eapply triple_conseq; [apply keeps_gather_outbound| |done|done]. intros ? ->. by split.
    + intros [? ok]. cbn [snd]. destruct (ok && sent); [apply keeps_ret|apply keeps_close].
  - apply Hkeep. eapply triple_conseq; [apply keeps_on_retransmission_timeout| |done|done]. by intros ? ->.
  - apply Hkeep. eapply triple_conseq; [apply keeps_on_retransmission_failure| |done|done]. by intros ? ->.
  - apply Hkeep. eapply triple_conseq; [apply (frames_on_ack_timeout no_error core_inv)| |done|done]. by intros ? ->.
  - apply Hkeep. eapply triple_conseq; [apply keeps_open_stream| |done|done]. by intros ? ->.
  - apply Hkeep. eapply triple_conseq; [apply keeps_stream_write| |done|done]. by intros ? ->.
  - apply Hkeep. eapply triple_conseq; [apply keeps_stream_close| |done|done]. by intros ? ->.
  - apply (Hkeep a_close). eapply triple_conseq; [apply keeps_close| |done|done]. by intros ? ->.
Qed.

Lemma reachable_inv config tsn tag a : reachable config tsn tag a -> open_inv a.
Proof.
  intros (a0 & Hs & Hr). assert (H0 : open_inv a0) by (intros _; by eapply started_inv).
  clear Hs. induction Hr as [|a0 a1 a2 (ev & Ho & He & Hrun) Hr IH]; [done|].
  apply IH. pose proof (run_inv ev a0 (H0 Ho) Ho He) as H. by rewrite Hrun in H.
Qed.

(** ** The theorems *)


(** C2. Every event of an open association ends in a result: no loop of the
    association diverges and no error escapes the task that runs it; a panic
    can only come from an arithmetic overflow in a build that checks for it or
    from the parser of a received packet - so never for a packet that parses, in
    a release build. *)
Theorem association_progress config tsn tag a ev : reachable config tsn tag a -> a_close_loop a = true ->
  enabled ev a ->
  (exists a', run ev a = (Ok tt, a') /\ reachable config tsn tag a') \/
  (exists a', run ev a = (Panic, a') /\
     (overflow_checks = true \/ exists env raw, ev = Inbound env raw /\ parse_panics raw)).
Proof.
  intros Hr Ho He. pose proof (run_inv ev a (reachable_inv _ _ _ _ Hr Ho) Ho He) as H.
  destruct (run ev a) as [[[]|e| |] a'] eqn:Hrun; try done.
  - left. exists a'. split; [done|]. destruct Hr as (a0 & Hs & Hr). exists a0. split; [done|].
    eapply rtc_r; [done|]. by exists ev.
  - right. exists a'. split; [done|]. destruct H as [H|H]; [by left|right]. destruct ev; try done. eauto.
Qed.

(** An open association never leaves the established state by its own will:
    [ShutdownPending] and [ShutdownSent] are not reachable and no SHUTDOWN is
    ever scheduled, so the only orderly end is the one the peer asks for. *)
Theorem shutdown_never_initiated config tsn tag a : reachable config tsn tag a -> a_close_loop a = true ->
  get_state (a_shared a) ∈ [CookieWait; CookieEchoed; Established; ShutdownReceived; ShutdownAckSent] /\
  a_will_send_shutdown a = false.
Proof.
  intros Hr Ho. destruct (reachable_inv _ _ _ _ Hr Ho) as [[Hs1 Hs2] Hw Hre Hse Hp Hh Hm Hac Hop He Hrun Hd].
  split; [|done]. specialize (Hrun Ho). cbn in Hs1, Hs2, Hrun. destruct (get_state _); try done;
    rewrite !elem_of_cons; auto 10.
Qed.

(** ** Runs *)
#[export] Instance enabled_dec ev a : Decision (enabled ev a).
Proof. destruct ev; cbn; apply _. Defined.

(** Performs the events one after the other, as long as the association is open
    and they are enabled. *)
Fixpoint drive (evs : list Event) (a : Assoc) : option Assoc :=
  match evs with
  | [] => Some a
  | ev :: evs' =>
      if a_close_loop a && bool_decide (enabled ev a) then
        match run ev a with
        | (Ok _, a') => drive evs' a'
        | _ => None
        end
      else None
  end.

Lemma drive_reachable config tsn tag evs : in_range 32 tsn -> forall a0 a,
  started config tsn tag a0 -> drive evs a0 = Some a -> reachable config tsn tag a.
Proof.
  intros Ht a0 a Hs Hd. exists a0. split; [done|]. clear Hs. revert a0 Hd.
  induction evs as [|ev evs IH]; intros a0; cbn [drive]; [by intros [= ->]|].
  destruct (a_close_loop a0) eqn:Ho; [|done]. destruct (bool_decide_reflect (enabled ev a0)) as [He|]; [|done].
  cbn. destruct (run ev a0) as [[[]| | |] a1] eqn:Hr; try done. intros Hd.
  eapply rtc_l; [by exists ev|]. by apply IH.
Qed.
End system.

(** * A handshake and a message *)
Section examples.
Local Existing Instance release_profile.
Local Existing Instance sum_crc.

Definition wire (p : Packet) : bytes :=
  match Packet_marshal p with Ok raw => raw | _ => [] end.

Definition example_env : Env := mkEnv 1000000 [].
Definition example_cookie : bytes := put_u32 77 ++ put_u32 78.

Definition example_init_ack : Packet :=
  mkPacket 5000 5000 42 [CInit (mkChunkInit true 99 4000 10 10 1000 [PStateCookie (mkParamStateCookie example_cookie)])].
Definition example_cookie_ack : Packet := mkPacket 5000 5000 42 [CCookieAck mkChunkCookieAck].
Definition example_sack (tsn : Z) : Packet :=
  mkPacket 5000 5000 42 [CSelectiveAck (mkChunkSelectiveAck tsn 4000 [] [])].

Definition example_config : Config := mkConfig 0 0.
Definition example_start : Assoc := snd (Association_new_client (AssociationInternal_new example_config 7 42)).

Lemma example_started : started example_config 7 42 example_start.
Proof. split; [by vm_compute|]. vm_compute. reflexivity. Qed.

(** The handshake, the opening of a stream, a write and its transmission. *)
Definition example_events : list Event :=
  [WriteLoop 1000000 true;
   Inbound example_env (wire example_init_ack);
   WriteLoop 1000000 true;
   Inbound example_env (wire example_cookie_ack);
   OpenStream 1;
   StreamWrite 0 2000000 (put_u32 1 ++ put_u32 2) Binary;
   WriteLoop 2000000 true].

Definition example_running : Assoc := default example_start (drive example_events example_start).

Lemma example_drive : drive example_events example_start = Some example_running.
Proof.
  assert (H : match drive example_events example_start with Some _ => true | None => false end = true)
    by (vm_compute; reflexivity).
  unfold example_running. by destruct (drive example_events example_start).
Qed.

Lemma example_reachable : reachable example_config 7 42 example_running.
Proof.
  refine (drive_reachable example_config 7 42 example_events _ example_start example_running
    example_started example_drive). by vm_compute.
Qed.

Lemma example_running_state :
  get_state (a_shared example_running) = Established /\ a_close_loop example_running = true /\
  a_my_next_tsn example_running = 8 /\ a_cumulative_tsn_ack_point example_running = 6 /\
  size (pq_chunk_map (a_inflight_queue example_running)) = 1%nat /\
  a_handshake_completed example_running = [None].
Proof. vm_compute. split_and!; reflexivity. Qed.


Lemma association_progress_witness : exists r a',
  run (Inbound example_env (wire (example_sack 7))) example_running = (r, a') /\ r <> OutOfFuel.
Proof.
  destruct (association_progress example_config 7 42 example_running
    (Inbound example_env (wire (example_sack 7))) example_reachable) as [(a' & H & _)|(a' & H & _)].
  - vm_compute. reflexivity.
  - vm_compute. discriminate.
  - exists (Ok tt), a'. by split.
  - exists Panic, a'. by split.
Defined.

Lemma shutdown_never_initiated_witness : a_will_send_shutdown example_running = false.
Proof.
  refine (proj2 (shutdown_never_initiated example_config 7 42 example_running example_reachable _)).
  vm_compute. reflexivity.
Defined.
End examples.
