(* ===== verification/Sack.v ===== *)
(** Acknowledgement: what a SACK does to the chunks in flight, that the bytes it
    credits to each stream are those that left the queue, and that the SACK the
    receiver composes reports exactly what it holds. *)
From S2P Require Import Prelude Serial Errors Param Chunk Packet PayloadQueue PendingQueue.
From S2P Require Import ReassemblyQueue Timer Stream Assoc Receive Transmit Tame.

(** * Partial correctness

    [returns Pre m Q]: when [m], started in a state with [Pre], returns a value,
    [Q] holds of it and of the final state. *)
Definition returns {S E A} (Pre : S -> Prop) (m : ST S E A) (Q : A -> S -> Prop) : Prop :=
  forall s x s', Pre s -> m s = (Ok x, s') -> Q x s'.

Section returns.
Context {S E : Type}.
Implicit Types Pre : S -> Prop.

Lemma returns_ret {A} Pre (x : A) (Q : A -> S -> Prop) : (forall s, Pre s -> Q x s) -> returns (E := E) Pre (mret x) Q.
Proof. intros H s y s' Hs [= <- <-]. by apply H. Qed.

Lemma returns_bind {A B} Pre (m : ST S E A) (k : A -> ST S E B) Q0 Q :
  returns Pre m Q0 -> (forall x, returns (Q0 x) (k x) Q) -> returns Pre (m ≫= k) Q.
Proof.
  intros Hm Hk s y s' Hs. unfold mbind, st_bind. destruct (m s) as [[x| | |] s1] eqn:Em; try done.
  intros Hr. exact (Hk x s1 y s' (Hm s x s1 Hs Em) Hr).
Qed.

Lemma returns_get {A B} Pre (f : S -> A) (k : A -> ST S E B) Q :
  (forall x, returns (fun s => Pre s /\ f s = x) (k x) Q) -> returns Pre (st_get f ≫= k) Q.
Proof. intros H s y s' Hs Hr. by apply (H (f s) s y s'). Qed.

Lemma returns_lift {A B} Pre (r : res E A) (k : A -> ST S E B) Q :
  (forall x, r = Ok x -> returns Pre (k x) Q) -> returns Pre (st_lift r ≫= k) Q.
Proof.
  intros H s y s' Hs. unfold st_lift, mbind, st_bind. destruct r as [x| | |] eqn:Er; try done. intros Hr.
  by apply (H x eq_refl s y s').
Qed.

Lemma returns_raise {A} Pre (e : E) (Q : A -> S -> Prop) : returns Pre (st_raise e) Q.
Proof. intros s x s' _ [=]. Qed.

Lemma returns_pre {A} Pre Pre' (m : ST S E A) Q : returns Pre' m Q -> (forall s, Pre s -> Pre' s) -> returns Pre m Q.
Proof. intros H Hp s x s' Hs. by apply H, Hp. Qed.

Lemma returns_pure {A} (prem : Prop) Pre Pre' (m : ST S E A) Q : (forall s, Pre' s -> prem /\ Pre s) ->
  (prem -> returns Pre m Q) -> returns Pre' m Q.
Proof. intros Hp H s x s' Hs. destruct (Hp s Hs) as [H1 H2]. by apply (H H1). Qed.

(** A call that does not change what the assertion is about. *)
Lemma returns_stable {A T} (f : S -> T) (K : T -> Prop) (m : ST S E A) : stable f m ->
  returns (fun s => K (f s)) m (fun _ s => K (f s)).
Proof. intros Hf s x s' Hs Hr. specialize (Hf s). rewrite Hr in Hf. cbn in Hf. by rewrite Hf. Qed.

Lemma returns_bind_stable {A B T} (f : S -> T) (K : T -> Prop) (m : ST S E A) (k : A -> ST S E B) Q :
  stable f m -> (forall x, returns (fun s => K (f s)) (k x) Q) -> returns (fun s => K (f s)) (m ≫= k) Q.
Proof. intros Hf Hk. eapply returns_bind; [by apply returns_stable|]. intros x. apply Hk. Qed.

Lemma returns_fold {A B} (I : list A -> B -> S -> Prop) (body : B -> A -> ST S E B) (l : list A) :
  (forall done b x, returns (I done b) (body b x) (fun b' => I (done ++ [x]) b')) ->
  forall done b, returns (I done b) (st_fold l body b) (fun b' => I (done ++ l) b').
Proof.
  intros H. induction l as [|x l IH]; intros done b.
  - apply returns_ret. intros s Hs. by rewrite app_nil_r.
  - cbn [st_fold]. eapply returns_bind; [apply H|]. intros b'. eapply returns_pre; [|done].
    intros s y s' Hs Hr. specialize (IH (done ++ [x]) b' s y s' Hs Hr). by rewrite <- app_assoc in IH.
Qed.
End returns.

(** * Bytes in flight per stream *)
Abbreviation InflightMap := (gmap Z ChunkPayloadData).

Definition inflight_map (a : Assoc) : InflightMap := pq_chunk_map (a_inflight_queue a).

Definition stream_bytes (si : Z) (m : InflightMap) : Z :=
  map_fold (fun _ p s => (if pd_stream_identifier p =? si then data_len p else 0) + s) 0 m.

Lemma stream_bytes_insert si m t p : m !! t = None ->
  stream_bytes si (<[t := p]> m) = (if pd_stream_identifier p =? si then data_len p else 0) + stream_bytes si m.
Proof. intros H. unfold stream_bytes. rewrite map_fold_insert_L; [done| |done]. intros. lia. Qed.

Lemma stream_bytes_delete si m t p : m !! t = Some p ->
  stream_bytes si m = (if pd_stream_identifier p =? si then data_len p else 0) + stream_bytes si (delete t m).
Proof. intros H. unfold stream_bytes. erewrite map_fold_delete_L; [done| |exact H]. intros. lia. Qed.

Lemma stream_bytes_nonneg si m : 0 <= stream_bytes si m.
Proof.
  unfold stream_bytes. apply (map_fold_weak_ind (fun s _ => 0 <= s)); [done|].
  intros t p m' r _ Hr. pose proof (data_len_nonneg p). case_match; lia.
Qed.

Lemma stream_bytes_update si m t p p' : m !! t = Some p ->
  stream_bytes si (<[t := p']> m) = stream_bytes si m
    - (if pd_stream_identifier p =? si then data_len p else 0)
    + (if pd_stream_identifier p' =? si then data_len p' else 0).
Proof.
  intros H. rewrite <- insert_delete_eq, stream_bytes_insert by apply lookup_delete_eq.
  rewrite (stream_bytes_delete si m t p H). lia.
Qed.

(** What a gap ack block does to a chunk it covers. *)
Definition gap_acked (p : ChunkPayloadData) : ChunkPayloadData :=
  if pd_acked p then p else p <| pd_acked := true |> <| pd_retransmit := false |> <| pd_user_data := [] |>.

Lemma gap_acked_idemp p : gap_acked (gap_acked p) = gap_acked p.
Proof. unfold gap_acked at 2 3. destruct (pd_acked p) eqn:E; [unfold gap_acked; by rewrite E|done]. Qed.

Lemma pq_pop_Some `{Profile} q t p q' : pq_pop q t = Ok (Some p, q') ->
  pq_chunk_map q !! t = Some p /\ pq_chunk_map q' = delete t (pq_chunk_map q).
Proof.
  unfold pq_pop. destruct (pq_sorted q) as [|x l]; [done|]. destruct (t =? x); [|done].
  cbn. destruct (pq_chunk_map q !! t) as [p'|] eqn:E; [|done]. destruct (arith _ _); try done. by intros [= -> <-].
Qed.

Lemma mark_as_acked_Ok `{Profile} q t p n q' : pq_chunk_map q !! t = Some p -> pd_acked p = false ->
  mark_as_acked q t = Ok (n, q') -> n = data_len p /\ pq_chunk_map q' = <[t := gap_acked p]> (pq_chunk_map q).
Proof.
  intros Hp Ha. unfold mark_as_acked. rewrite Hp. destruct (arith _ _); try done. intros [= <- <-].
  unfold gap_acked. by rewrite Ha.
Qed.

Section sack.
Context {P : Profile}.

(** ** The ledger: what each stream is credited is what left its bytes in flight *)
Record balanced (m0 : InflightMap) (acked : gmap Z Z) (m : InflightMap) : Prop := {
  bal_stream si : 0 <= default 0 (acked !! si) /\
    default 0 (acked !! si) + stream_bytes si m = stream_bytes si m0;
  bal_empty t p : m !! t = Some p -> pd_acked p = true -> data_len p = 0
}.

(** The hypotheses on the queue before: no stream has 2^63 bytes in flight, and
    chunks already acknowledged have given their bytes back. *)
Record ledger (m0 : InflightMap) : Prop := {
  le_bound si : stream_bytes si m0 < 2 ^ 63;
  le_empty t p : m0 !! t = Some p -> pd_acked p = true -> data_len p = 0
}.

Lemma balanced_start m0 : ledger m0 -> balanced m0 ∅ m0.
Proof. intros [_ H]. split; [|done]. intros si. by rewrite lookup_empty. Qed.

Lemma arith_i64_small z : 0 <= z < 2 ^ 63 -> arith_i64 z = Ok z.
Proof.
  intros Hz. unfold arith_i64. rewrite (proj2 (Z.leb_le _ _)) by lia. by rewrite (proj2 (Z.ltb_lt _ _)) by lia.
Qed.

Lemma add_acked_balanced m0 acked m m' si n acked' : ledger m0 -> balanced m0 acked m -> 0 <= n ->
  (forall si', stream_bytes si' m = (if si =? si' then n else 0) + stream_bytes si' m') ->
  add_acked acked si n = Ok acked' ->
  forall si', 0 <= default 0 (acked' !! si') /\ default 0 (acked' !! si') + stream_bytes si' m' = stream_bytes si' m0.
Proof.
  intros Hl Hb Hn Hm Hadd. assert (Ha : acked' = <[si := default 0 (acked !! si) + n]> acked).
  { revert Hadd. unfold add_acked. destruct (bal_stream _ _ _ Hb si) as [H1 H2]. pose proof (Hm si) as H3.
    rewrite Z.eqb_refl in H3. pose proof (stream_bytes_nonneg si m'). pose proof (le_bound _ Hl si).
    destruct (acked !! si) as [x|]; cbn in *; [|by intros [= <-]].
    rewrite arith_i64_small by lia. by intros [= <-]. }
  intros si'. rewrite Ha. destruct (bal_stream _ _ _ Hb si') as [H1 H2]. pose proof (Hm si') as H3.
  destruct (decide (si' = si)) as [->|Hne].
  - rewrite lookup_insert_eq. cbn. rewrite Z.eqb_refl in H3. lia.
  - rewrite lookup_insert_ne by done. destruct (Z.eqb_spec si si'); [congruence|]. lia.
Qed.

(** ** The cumulative part *)

(** The queue once the first [j] TSNs after [c] are gone. *)
Definition popped_to (c : Z) (m0 : InflightMap) (j : Z) (m : InflightMap) : Prop :=
  forall t, in_range 32 t -> m !! t = if bool_decide (0 < dist 32 c t <= j) then None else m0 !! t.

Lemma popped_to_next c m0 j m p : in_range 32 c -> 0 <= j < 2 ^ 31 -> popped_to c m0 j m ->
  m !! wrap 32 (c + 1 + j) = Some p -> popped_to c m0 (j + 1) (delete (wrap 32 (c + 1 + j)) m).
Proof.
  intros Hc Hj Hm Hp t Ht. replace (c + 1 + j) with (c + (j + 1)) in * by lia.
  assert (Hd : dist 32 c (wrap 32 (c + (j + 1))) = j + 1) by (apply dist32_add; [done|lia]).
  destruct (decide (t = wrap 32 (c + (j + 1)))) as [->|Hne].
  - rewrite lookup_delete_eq. by rewrite bool_decide_true by lia.
  - rewrite lookup_delete_ne, Hm by done.
    assert (dist 32 c t <> j + 1).
    { intros Heq. apply Hne, (dist32_inj c); [done|done|apply wrap_range; lia|lia]. }
    destruct (decide (0 < dist 32 c t <= j)); [rewrite !bool_decide_true by lia|rewrite !bool_decide_false by lia]; done.
Qed.

Lemma stable_measure_rtt now p : stable inflight_map (measure_rtt now p).
Proof. unfold measure_rtt. stab. Qed.

Lemma returns_pop (K : InflightMap -> Prop) t :
  returns (fun a => K (inflight_map a)) (on_inflight_queue (fun q => pq_pop q t))
    (fun r a => match r with
                | Some p => exists m, K m /\ m !! t = Some p /\ inflight_map a = delete t m
                | None => True
                end).
Proof.
  intros a r a' Ha. unfold on_inflight_queue. destruct (pq_pop _ _) as [[x q]| | |] eqn:Hp; try done.
  intros [= <- <-]. destruct x as [p|]; [|done]. apply pq_pop_Some in Hp as [Hp Hm].
  by exists (inflight_map a).
Qed.

Lemma cumulative_round c D j : in_range 32 c -> in_range 32 D -> dist 32 c D < 2 ^ 31 -> 0 <= j <= dist 32 c D ->
  if sna32lte (wrap 32 (c + 1 + j)) D then j < dist 32 c D else j = dist 32 c D.
Proof.
  intros Hc HD HcD Hj. pose proof (sna32lte_spec (wrap 32 (c + 1 + j)) D (wrap_range 32 _ ltac:(lia)) HD) as Hs.
  assert (Hd : dist 32 (wrap 32 (c + 1 + j)) D = if decide (j < dist 32 c D) then dist 32 c D - (j + 1) else 2 ^ 32 - 1).
  { clear Hs. case_decide; serial_arith. }
  rewrite Hd in Hs. destruct (sna32lte _ _).
  - case_decide; [done|]. assert (2 ^ 32 - 1 < 2 ^ 31) as [=] by by apply Hs.
  - case_decide; [|lia]. assert (true = false) as [=]. { symmetry. apply Hs. lia. }
Qed.

(** The state after the next chunk was popped, whether or not its bytes were
    credited before. *)
Definition credit_pending (c : Z) (m0 : InflightMap) (j : Z) (acked : gmap Z Z) (p : ChunkPayloadData) (m : InflightMap) : Prop :=
  popped_to c m0 (j + 1) m /\
  forall acked', pd_acked p = true /\ acked' = acked \/
    add_acked acked (pd_stream_identifier p) (data_len p) = Ok acked' -> balanced m0 acked' m.

Lemma popped_credit c m0 j acked p m : in_range 32 c -> 0 <= j < 2 ^ 31 -> ledger m0 -> popped_to c m0 j m ->
  balanced m0 acked m -> m !! wrap 32 (c + 1 + j) = Some p ->
  credit_pending c m0 j acked p (delete (wrap 32 (c + 1 + j)) m).
Proof.
  intros Hc Hj Hl Hpop Hb Hp. split; [by apply (popped_to_next c m0 j m p)|]. intros acked' Hacked'. split.
  - destruct Hacked' as [[Ha ->]|Hadd].
    + intros si. destruct (bal_stream _ _ _ Hb si) as [H1 H2]. split; [done|].
      rewrite (stream_bytes_delete si m _ p Hp), (bal_empty _ _ _ Hb _ _ Hp Ha) in H2. by case_match.
    + eapply add_acked_balanced; [done|exact Hb|apply data_len_nonneg| |exact Hadd].
      intros si'. by apply stream_bytes_delete.
  - intros t' p'. intros [_ Ht']%lookup_delete_Some. by apply (bal_empty _ _ _ Hb _ _ Ht').
Qed.

Lemma ack_cumulative_returns now d c m0 : in_range 32 c -> ledger m0 ->
  let D := sack_cumulative_tsn_ack d in in_range 32 D -> dist 32 c D < 2 ^ 31 ->
  forall fuel j acked, 0 <= j <= dist 32 c D ->
  returns (fun a => popped_to c m0 j (inflight_map a) /\ balanced m0 acked (inflight_map a))
    (ack_cumulative fuel now d (wrap 32 (c + 1 + j)) acked)
    (fun acked' a => popped_to c m0 (dist 32 c D) (inflight_map a) /\ balanced m0 acked' (inflight_map a)).
Proof.
  intros Hc Hl D HD HcD. induction fuel as [|fuel IH]; intros j acked Hj; cbn [ack_cumulative]; fold D;
    pose proof (cumulative_round c D j Hc HD HcD Hj) as Hr; destruct (sna32lte (wrap 32 (c + 1 + j)) D).
  1: intros a x a' _ [=].
  1,3: subst j; apply returns_ret; by intros a.
  eapply returns_bind; [apply (returns_pop (fun m => popped_to c m0 j m /\ balanced m0 acked m))|].
  intros [p|]; [|apply returns_raise]. cbn beta.
  apply returns_pre with (Pre' := fun a => credit_pending c m0 j acked p (inflight_map a)); cycle 1.
  { intros a (m & [Hpop Hb] & Hp & ->). apply popped_credit; done || lia. }
  eapply returns_bind with (Q0 := fun acked' a => popped_to c m0 (j + 1) (inflight_map a) /\ balanced m0 acked' (inflight_map a)).
  - destruct (pd_acked p) eqn:Ha.
    + apply returns_ret. intros a [H1 H2]. split; [done|]. apply H2. by left.
    + do 2 (apply (returns_bind_stable inflight_map (credit_pending c m0 j acked p)); [stab|]; intros ?).
      apply returns_lift. intros acked' Hadd.
      apply (returns_bind_stable inflight_map (credit_pending c m0 j acked p)); [stab|]. intros min_tsn.
      apply (returns_bind_stable inflight_map (credit_pending c m0 j acked p)); [apply stable_when, stable_measure_rtt|].
      intros _. apply returns_ret. intros a [H1 H2]. split; [done|]. apply H2. by right.
  - intros acked'. apply (returns_bind_stable inflight_map (fun m => popped_to c m0 (j + 1) m /\ balanced m0 acked' m)); [stab|].
    intros _. apply returns_lift. intros next Hn. apply arith_Ok_wrap in Hn. subst next.
    replace (wrap 32 (wrap 32 (c + 1 + j) + 1)) with (wrap 32 (c + 1 + (j + 1))).
    2:{ unfold wrap. rewrite Zplus_mod_idemp_l. f_equal. lia. }
    apply IH. lia.
Qed.

(** ** The gap ack blocks *)
Definition gap_tsns (D : Z) (offsets : list Z) : list Z := map (fun i => wrap 32 (D + i)) offsets.

(** The queue once the chunks at the [done] offsets are acknowledged. *)
Definition gapped (D : Z) (m1 : InflightMap) (done : list Z) (m : InflightMap) : Prop :=
  (forall t, m !! t = (if decide (t ∈ gap_tsns D done) then gap_acked <$> m1 !! t else m1 !! t)) /\
  forall t, t ∈ gap_tsns D done -> is_Some (m1 !! t).

Lemma gapped_start D m1 : gapped D m1 [] m1.
Proof.
  split; [|by intros t ?%elem_of_nil]. intros t. destruct (decide (t ∈ gap_tsns D [])) as [H|]; [|done].
  by apply elem_of_nil in H.
Qed.

Lemma gap_tsns_app D done i : gap_tsns D (done ++ [i]) = gap_tsns D done ++ [wrap 32 (D + i)].
Proof. apply map_app. Qed.

Lemma gapped_next D m1 done i m p : gapped D m1 done m -> m !! wrap 32 (D + i) = Some p ->
  gapped D m1 (done ++ [i]) (<[wrap 32 (D + i) := gap_acked p]> m).
Proof.
  intros [Hm Hs] Hp. set (t := wrap 32 (D + i)) in *. assert (H1 : exists p1, m1 !! t = Some p1 /\ gap_acked p = gap_acked p1).
  { rewrite Hm in Hp. destruct (m1 !! t) as [p1|]; [|by case_decide]. exists p1. split; [done|].
    case_decide; simplify_eq/=; [apply gap_acked_idemp|done]. }
  destruct H1 as (p1 & Hp1 & Hg). split.
  - intros t'. rewrite gap_tsns_app. fold t. destruct (decide (t' = t)) as [->|Hne].
    + rewrite lookup_insert_eq, decide_True by (apply elem_of_app; right; by left). by rewrite Hp1, Hg.
    + rewrite lookup_insert_ne, Hm by done. assert (Hi : t' ∈ gap_tsns D done ++ [t] <-> t' ∈ gap_tsns D done).
      { rewrite elem_of_app, list_elem_of_singleton. intuition. }
      destruct (decide (t' ∈ gap_tsns D done)); [by rewrite decide_True by by apply Hi|].
      rewrite decide_False; [done|]. by rewrite Hi.
  - intros t'. rewrite gap_tsns_app, elem_of_app, list_elem_of_singleton. intros [?| ->]; [by apply Hs|by eexists].
Qed.

Lemma gap_acked_id p : pd_acked p = true -> gap_acked p = p.
Proof. intros H. unfold gap_acked. by rewrite H. Qed.

Lemma gap_acked_acked p : pd_acked (gap_acked p) = true.
Proof. unfold gap_acked. by destruct (pd_acked p) eqn:E. Qed.

Lemma gap_acked_empty p : (pd_acked p = true -> data_len p = 0) -> data_len (gap_acked p) = 0.
Proof. unfold gap_acked. destruct (pd_acked p); [by intros H; apply H|done]. Qed.

Lemma gap_acked_stream p : pd_stream_identifier (gap_acked p) = pd_stream_identifier p.
Proof. unfold gap_acked. by destruct (pd_acked p). Qed.

Lemma ack_gap_returns now d m0 m1 acc done i : ledger m0 ->
  let D := sack_cumulative_tsn_ack d in
  returns (fun a => gapped D m1 done (inflight_map a) /\ balanced m0 (fst acc) (inflight_map a))
    (ack_gap now d acc i)
    (fun acc' a => gapped D m1 (done ++ [i]) (inflight_map a) /\ balanced m0 (fst acc') (inflight_map a)).
Proof.
  intros Hl D. destruct acc as [acked htna]. unfold ack_gap. cbn [fst]. apply returns_lift. intros tsn Hw.
  apply arith_Ok_wrap in Hw. fold D in Hw. subst tsn. set (t := wrap 32 (D + i)).
  apply returns_get. intros before. cbv zeta.
  set (K0 := fun m => (gapped D m1 done m /\ balanced m0 acked m) /\ m !! t = before).
  apply (returns_pre _ (fun a => K0 (inflight_map a))); [|done]. destruct before as [p|]; cycle 1.
  { eapply returns_bind; [by apply (returns_stable inflight_map K0), stable_ret|]. intros n.
    apply returns_get. intros [q|]; [|apply returns_raise]. intros a x a' [[_ Hn] Hq]. unfold pq_get in Hq.
    unfold inflight_map in Hn. congruence. }
  destruct (pd_acked p) eqn:Ha.
  - eapply returns_bind; [by apply (returns_stable inflight_map K0), stable_ret|]. intros n.
    apply returns_get. intros [q|]; [|apply returns_raise]. apply returns_ret. intros a [[[Hg Hb] Hp] _]. cbn [fst].
    split; [|done]. pose proof (gapped_next D m1 done i _ p Hg Hp) as Hg'. by rewrite (gap_acked_id p Ha), insert_id in Hg'.
  - set (K1 := fun n m => n = data_len p /\ exists m', m = <[t := gap_acked p]> m' /\ K0 m').
    eapply returns_bind with (Q0 := fun n a => K1 n (inflight_map a)).
    { intros a n a' HK. unfold on_inflight_queue. destruct (mark_as_acked _ _) as [[n' q]| | |] eqn:Hm; try done.
      intros [= <- <-]. destruct (mark_as_acked_Ok _ _ p n' q (proj2 HK) Ha Hm) as [Hn Hq]. split; [done|].
      exists (inflight_map a). split; [exact Hq|exact HK]. }
    intros n. apply returns_get. intros after.
    apply (returns_pure (after = Some (gap_acked p)) (fun a => K1 n (inflight_map a))).
    { intros a [HK Hq]. split; [|exact HK]. destruct HK as (_ & m' & Hm & _). unfold pq_get in Hq. unfold inflight_map in Hm.
      by rewrite <- Hq, Hm, lookup_insert_eq. }
    intros ->. rewrite gap_acked_stream. apply returns_lift. intros acked' Hadd.
    apply (returns_bind_stable inflight_map (K1 n)); [apply stable_when, stable_measure_rtt|]. intros _.
    apply returns_ret. intros a (Hn & m' & Hm & [Hg Hb] & Hp). cbn [fst]. rewrite Hm. split; [by apply gapped_next|].
    assert (Hz : data_len (gap_acked p) = 0) by (apply gap_acked_empty; congruence). split.
    + rewrite Hn in Hadd. eapply add_acked_balanced; [done|exact Hb|apply data_len_nonneg| |exact Hadd].
      intros si. rewrite (stream_bytes_update si m' t p) by done. rewrite gap_acked_stream, Hz. repeat case_match; lia.
    + intros t' p' [[<- <-]|[_ Hp']]%lookup_insert_Some; [done|]. by apply (bal_empty _ _ _ Hb _ _ Hp').
Qed.

Lemma process_selective_ack_returns now d c m0 : in_range 32 c -> ledger m0 ->
  let D := sack_cumulative_tsn_ack d in in_range 32 D -> dist 32 c D < 2 ^ 31 ->
  returns (fun a => inflight_map a = m0 /\ a_cumulative_tsn_ack_point a = c) (process_selective_ack now d)
    (fun r a => balanced m0 (fst r) (inflight_map a) /\
       exists m1, popped_to c m0 (dist 32 c D) m1 /\ gapped D m1 (gap_offsets (sack_gap_ack_blocks d)) (inflight_map a)).
Proof.
  intros Hc Hl D HD HcD. unfold process_selective_ack.
  eapply returns_bind with (Q0 := fun i a => i = wrap 32 (c + 1) /\ inflight_map a = m0).
  { apply returns_get. intros x. intros a y a' [[Hm Hca] Hx]. unfold st_lift.
    destruct (arith 32 (x + 1)) as [z| | |] eqn:Hz; try done. intros [= <- <-]. apply arith_Ok_wrap in Hz.
    split; [congruence|done]. }
  intros i. apply (returns_pure (i = wrap 32 (c + 1)) (fun a => inflight_map a = m0)); [by intros a [? ?]|]. intros ->.
  apply (returns_bind_stable inflight_map (fun m => m = m0)); [stab|]. intros n.
  eapply returns_bind.
  { eapply returns_pre; [replace (c + 1) with (c + 1 + 0) by lia; apply (ack_cumulative_returns now d c m0 Hc Hl HD HcD (S n) 0 ∅)|].
    - pose proof (dist_range 32 c D ltac:(lia)). fold D. lia.
    - intros a Ha. cbn beta in *. rewrite Ha. split; [|by apply balanced_start]. intros t Ht. rewrite bool_decide_false; [done|]. lia. }
  intros acked. cbn beta. intros a r a' [Hpop Hbal] Hr.
  pose proof (returns_fold (E := Error) (fun done acc a1 => gapped D (inflight_map a) done (inflight_map a1) /\ balanced m0 (fst acc) (inflight_map a1))
    (ack_gap now d) (gap_offsets (sack_gap_ack_blocks d))) as Hf.
  destruct (Hf (fun done acc i => ack_gap_returns now d m0 (inflight_map a) acc done i Hl) [] (acked, D) a r a') as [Hg Hb].
  - split; [apply gapped_start|done].
  - exact Hr.
  - split; [exact Hb|]. by exists (inflight_map a).
Qed.

(** C23. What a SACK does to the chunks in flight: when processing succeeds, the
    TSNs up to the cumulative ack are gone, every TSN a gap ack block covers is in
    flight and marked acknowledged, with its data dropped, every other chunk is
    untouched; and each stream is credited exactly the bytes it no longer has in
    flight. *)
Theorem process_selective_ack_exact now d a acked htna a' :
  let c := a_cumulative_tsn_ack_point a in let D := sack_cumulative_tsn_ack d in
  in_range 32 c -> in_range 32 D -> dist 32 c D < 2 ^ 31 -> ledger (inflight_map a) ->
  process_selective_ack now d a = (Ok (acked, htna), a') ->
  (forall t, in_range 32 t -> inflight_map a' !! t =
     if bool_decide (0 < dist 32 c t <= dist 32 c D) then None
     else if bool_decide (t ∈ gap_tsns D (gap_offsets (sack_gap_ack_blocks d))) then gap_acked <$> inflight_map a !! t
     else inflight_map a !! t) /\
  (forall t, t ∈ gap_tsns D (gap_offsets (sack_gap_ack_blocks d)) -> is_Some (inflight_map a' !! t)) /\
  (forall si, default 0 (acked !! si) = stream_bytes si (inflight_map a) - stream_bytes si (inflight_map a')) /\
  ledger (inflight_map a').
Proof.
  intros c D Hc HD HcD Hl Hr.
  destruct (process_selective_ack_returns now d c (inflight_map a) Hc Hl HD HcD a (acked, htna) a' ltac:(done) Hr)
    as (Hb & m1 & Hpop & Hg & Hs). cbn [fst] in Hb. fold D in Hs. split_and!.
  - intros t Ht. rewrite Hg. pose proof (Hpop t Ht) as Hp. fold D in Hp |- *. destruct (decide (0 < dist 32 c t <= dist 32 c D)) as [Hd|Hd].
    + rewrite (bool_decide_eq_true_2 _ Hd) in Hp |- *. case_decide as Hin; [|done]. by destruct (Hs t Hin); congruence.
    + rewrite (bool_decide_eq_false_2 _ Hd) in Hp |- *. rewrite Hp.
      case_decide as Hin; [by rewrite (bool_decide_eq_true_2 _ Hin)|by rewrite (bool_decide_eq_false_2 _ Hin)].
  - intros t Ht. rewrite Hg, decide_True by done. apply fmap_is_Some. by apply Hs.
  - intros si. destruct (bal_stream _ _ _ Hb si). lia.
  - split; [|apply (bal_empty _ _ _ Hb)]. intros si. destruct (bal_stream _ _ _ Hb si).
    pose proof (le_bound _ Hl si). lia.
Qed.
End sack.

(** * The SACK the receiver composes *)
Lemma gap_offsets_expand blocks : gap_offsets blocks = flat_map expand_block blocks.
Proof. done. Qed.

Lemma stable_credit {P : Profile} : stable (fun a => a) get_my_receiver_window_credit.
Proof. unfold get_my_receiver_window_credit. stab. Qed.

(** C24. The SACK reports the reception exactly, as long as the TSNs held are
    within 2^16 of the cumulative one and do not pass the end of the TSN space:
    its cumulative TSN is the receiver's, the TSNs its gap ack blocks cover are
    those of the queue, in order, and the blocks are the maximal runs. *)
Theorem sack_reports_exactly {P : Profile} a sack a' :
  pq_wf (a_peer_last_tsn a) (a_payload_queue a) ->
  Forall (gap_reach (a_peer_last_tsn a)) (pq_sorted (a_payload_queue a)) ->
  create_selective_ack_chunk a = (Ok sack, a') ->
  sack_cumulative_tsn_ack sack = a_peer_last_tsn a /\
  gap_tsns (sack_cumulative_tsn_ack sack) (gap_offsets (sack_gap_ack_blocks sack)) = pq_sorted (a_payload_queue a) /\
  blocks_separated (sack_gap_ack_blocks sack) /\
  sack_duplicate_tsn sack = pq_dup_tsn (a_payload_queue a) /\
  a' = a <| a_payload_queue ::= fun q => q <| pq_dup_tsn := [] |> |>.
Proof.
  intros Hq Hr. unfold create_selective_ack_chunk. st_run.
  destruct (get_gap_ack_blocks_spec (a_peer_last_tsn a) (a_payload_queue a) Hq Hr) as (blocks & Hb & Hx & Hsep).
  pose proof (stable_credit a) as Hs. destruct (get_my_receiver_window_credit a) as [[credit| | |] a1]; try done.
  cbn in Hs. subst a1. rewrite Hb. intros [= <- <-]. cbn [sack_cumulative_tsn_ack sack_gap_ack_blocks sack_duplicate_tsn].
  split; [done|]. split; [|done]. rewrite gap_offsets_expand, Hx.
  unfold gap_tsns. rewrite map_map. pose proof (wf_window _ _ Hq) as Hw. clear Hx. induction Hw as [|t l [Ht _] Hl IH]; [done|].
  cbn [map]. inversion Hr; subst. rewrite IH by done. f_equal. replace (a_peer_last_tsn a + (t - a_peer_last_tsn a)) with t by lia.
  by apply wrap_small.
Qed.

(** * Examples *)
Section examples.
Local Existing Instance release_profile.

Definition ledger_chunk (tsn si : Z) : ChunkPayloadData :=
  mkChunkPayloadData true true true false tsn si 0 Binary [Byte.x61; Byte.x62] false 1 1 0 0%nat 1%nat false.

Definition ledger_queue : PayloadQueue :=
  foldl (fun q p => match push_no_check q p with Ok q => q | _ => q end) PayloadQueue_new
    [ledger_chunk 7 1; ledger_chunk 8 1; ledger_chunk 9 2].

Definition ledger_assoc : Assoc :=
  (AssociationInternal_new (mkConfig 0 0) 7 42) <| a_inflight_queue := ledger_queue |> <| a_my_next_tsn := 10 |>.

Definition ledger_sack : ChunkSelectiveAck := mkChunkSelectiveAck 7 4000 [mkGapAckBlock 2 2] [].

Lemma process_selective_ack_exact_witness : exists acked htna a',
  process_selective_ack 5 ledger_sack ledger_assoc = (Ok (acked, htna), a') /\
  inflight_map a' !! 7 = None /\ inflight_map a' !! 8 = Some (ledger_chunk 8 1) /\
  inflight_map a' !! 9 = Some (gap_acked (ledger_chunk 9 2)).
Proof.
  assert (Hok : match fst (process_selective_ack 5 ledger_sack ledger_assoc) with Ok _ => true | _ => false end = true)
    by (vm_compute; reflexivity).
  destruct (process_selective_ack 5 ledger_sack ledger_assoc) as [[[acked htna]| | |] a'] eqn:Hr; try discriminate Hok.
  exists acked, htna, a'. split; [done|].
  assert (Hl : ledger (inflight_map ledger_assoc)).
  { split.
    - intros si. change (inflight_map ledger_assoc) with (pq_chunk_map ledger_queue).
      assert (H : pq_chunk_map ledger_queue = <[7 := ledger_chunk 7 1]> (<[8 := ledger_chunk 8 1]> {[9 := ledger_chunk 9 2]}))
        by (vm_compute; reflexivity).
      rewrite H. rewrite !stream_bytes_insert by (vm_compute; reflexivity).
      rewrite <- insert_empty, stream_bytes_insert by (vm_compute; reflexivity).
      change (stream_bytes si ∅) with 0. change (2 ^ 63) with 9223372036854775808.
      change (data_len (ledger_chunk ?t ?i)) with 2. repeat case_match; lia.
    - assert (H : map_Forall (fun _ p => pd_acked p = false) (inflight_map ledger_assoc))
        by (apply (bool_decide_unpack _); vm_compute; exact I).
      intros t p Hp. by rewrite (H t p Hp). }
  destruct (process_selective_ack_exact 5 ledger_sack ledger_assoc acked htna a') as (H & _);
    [by vm_compute|by vm_compute|by vm_compute|exact Hl|exact Hr|].
  split_and!; rewrite H by (by vm_compute); vm_compute; reflexivity.
Defined.

Definition reporting_assoc : Assoc :=
  (AssociationInternal_new (mkConfig 0 0) 7 42) <| a_peer_last_tsn := 6 |> <| a_payload_queue := ledger_queue |>.

Lemma reporting_wf : pq_wf 6 ledger_queue.
Proof.
  unfold ledger_queue. cbn [foldl].
  assert (Hpush : forall q p, pq_wf 6 q -> pq_chunk_map q !! pd_tsn p = None -> window32 6 (pd_tsn p) ->
    Z.of_nat (size (pq_chunk_map q)) < 2 ^ 31 ->
    pq_wf 6 (match push_no_check q p with Ok q' => q' | _ => q end)).
  { intros q p Hq Hn Hw Hs. destruct (push_no_check q p) as [q'| | |] eqn:Hp; try done.
    by apply (push_no_check_wf 6 q p q' Hq). }
  repeat (apply Hpush; [| vm_compute; done | split; vm_compute; done | vm_compute; done]). by apply PayloadQueue_new_wf.
Qed.

Lemma sack_reports_exactly_witness : exists sack a', create_selective_ack_chunk reporting_assoc = (Ok sack, a') /\
  gap_tsns 6 (gap_offsets (sack_gap_ack_blocks sack)) = [7; 8; 9].
Proof.
  destruct (create_selective_ack_chunk reporting_assoc) as [[sack| | |] a'] eqn:Hr; try (vm_compute in Hr; discriminate Hr).
  exists sack, a'. split; [done|].
  destruct (sack_reports_exactly reporting_assoc sack a' reporting_wf
    ltac:(repeat constructor; vm_compute; done) Hr) as (Hc & Hg & _).
  rewrite Hc in Hg. exact Hg.
Defined.
End examples.
