(* ===== verification/Window.v ===== *)
(** Flow and congestion control: what the association takes out of the pending
    queue to send, and how it bundles chunks into packets. *)
From S2P Require Import Prelude Serial Errors Param Chunk Packet PayloadQueue PendingQueue.
From S2P Require Import ReassemblyQueue Timer Stream Assoc Receive Transmit Tame Sack.

(** * New data *)

(** The part of the state the windows are about. *)
Record Windows := mkWindows { w_pending : PendingQueue; w_in_flight : Z; w_cwnd : Z; w_rwnd : Z }.

Definition windows (a : Assoc) : Windows :=
  mkWindows (sh_pending_queue (a_shared a)) (pq_n_bytes (a_inflight_queue a)) (a_cwnd a) (a_rwnd a).

Section windows.
Context {P : Profile}.

Lemma push_no_check_bytes q p q' : push_no_check q p = Ok q' -> pq_n_bytes q' = wrap 64 (pq_n_bytes q + data_len p).
Proof.
  unfold push_no_check. destruct (arith _ _) as [n| | |] eqn:Hn; try done. intros [= <-]. by apply arith_Ok_wrap in Hn.
Qed.

Lemma pop_call_returns c nb cw rw :
  returns (fun a => exists q, windows a = mkWindows q nb cw rw /\ pending_wf q /\ peek q = Some c)
    (pending_pop_call (pd_beginning_fragment c) (pd_unordered c))
    (fun r a => r = Some c /\ exists q', windows a = mkWindows q' nb cw rw /\ pending_wf q').
Proof.
  intros a r a' (q & Hw & Hq & Hp). unfold pending_pop_call. injection Hw as Hpq Hnb Hcw Hrw. rewrite Hpq.
  destruct (pending_pop_peek q c Hq Hp) as (q' & Hpop & Hwf & _). rewrite Hpop. intros [= <- <-]. split; [done|].
  exists q'. split; [|done]. unfold windows. cbn. by rewrite Hnb, Hcw, Hrw.
Qed.

Lemma move_returns now c nb cw rw :
  returns (fun a => exists q, windows a = mkWindows q nb cw rw /\ pending_wf q /\ peek q = Some c)
    (move_pending_data_chunk_to_inflight_queue now (pd_beginning_fragment c) (pd_unordered c))
    (fun r a => exists c' q', r = Some c' /\ pd_user_data c' = pd_user_data c /\
       windows a = mkWindows q' (wrap 64 (nb + data_len c)) cw rw /\ pending_wf q').
Proof.
  unfold move_pending_data_chunk_to_inflight_queue. eapply returns_bind; [apply pop_call_returns|].
  intros r; cbn beta.
  set (K := fun w => exists q', w = mkWindows q' nb cw rw /\ pending_wf q').
  apply (returns_pure (r = Some c) (fun a => K (windows a))); [done|]. intros ->.
  do 2 (apply (returns_bind_stable windows K); [unfold generate_next_tsn; stab|]; intros ?).
  apply (returns_bind_stable windows K); [unfold check_partial_reliability_status; stab|]. intros _.
  eapply returns_bind with (Q0 := fun _ a => exists q', windows a = mkWindows q' (wrap 64 (nb + data_len c)) cw rw /\ pending_wf q').
  - intros a [] a' (q' & Hw & Hq). unfold on_inflight_queue. injection Hw as Hpq Hnb Hcw Hrw.
    destruct (push_no_check _ _) as [q1| | |] eqn:Hpush; try done. intros [= <-].
    exists q'. split; [|done]. apply push_no_check_bytes in Hpush. unfold windows. cbn. rewrite Hpush, Hpq, Hnb, Hcw, Hrw. done.
  - intros _. apply returns_ret. intros a (q' & Hw & Hq). eexists _, q'. by split_and!.
Qed.

(** The windows once the chunks [l] were taken from a state with [nb0] bytes in
    flight and a receiver window of [rw0]. *)
Definition spent (nb0 cw rw0 : Z) (l : list ChunkPayloadData) (w : Windows) : Prop :=
  exists q, w = mkWindows q (nb0 + sum_len l) cw (rw0 - sum_len l) /\ pending_wf q /\
    sum_len l <= rw0 /\ (l = [] \/ nb0 + sum_len l <= cw).

Lemma sum_len_nonneg l : 0 <= sum_len l.
Proof. induction l as [|c l IH]; cbn; [done|]. pose proof (data_len_nonneg c). fold (sum_len l). lia. Qed.

Lemma pop_pending_loop_returns now nb0 cw rw0 : 0 <= nb0 < 2 ^ 63 -> in_range 32 cw -> in_range 32 rw0 ->
  forall fuel l sis,
  returns (fun a => spent nb0 cw rw0 l (windows a)) (pop_pending_loop fuel now l sis)
    (fun r a => spent nb0 cw rw0 (fst r) (windows a)).
Proof.
  intros Hnb Hcw Hrw. induction fuel as [|fuel IH]; intros l sis; cbn [pop_pending_loop].
  { intros a r a' _ [=]. }
  apply returns_get. intros [c|]; [|apply returns_ret; by intros a [? _]]. cbv zeta.
  destruct (Z.eqb_spec (data_len c) 0) as [Hz|Hz].
  - eapply returns_bind with (Q0 := fun _ a => spent nb0 cw rw0 l (windows a)); [|intros _; apply IH].
    intros a r a' [(q & Hw & Hq & Hle & Hcl) Hp] Hr.
    assert (Hpq : peek q = Some c) by (unfold windows in Hw; injection Hw as <- _ _ _; exact Hp).
    destruct (pop_call_returns c _ _ _ a r a' ltac:(by exists q) Hr) as (_ & q' & Hw' & Hq'). by exists q'.
  - pose proof (data_len_nonneg c) as Hc.
    set (K := fun w => spent nb0 cw rw0 l w /\ peek (w_pending w) = Some c).
    apply (returns_pre _ (fun a => K (windows a))); [|done].
    apply returns_get. intros n_bytes. apply returns_lift. intros total Htot.
    apply returns_get. intros cwnd. apply returns_get. intros rwnd.
    destruct ((total >? cwnd) || (data_len c >? rwnd)) eqn:Hfull.
    { apply returns_ret. by intros a [[[[Hs _] _] _] _]. }
    apply orb_false_iff in Hfull as [Hf1 Hf2]. rewrite Z.gtb_ltb, Z.ltb_ge in Hf1, Hf2.
    apply returns_lift. intros rwnd' Hrw'.
    eapply returns_bind with (Q0 := fun _ a => exists q, windows a = mkWindows q (nb0 + sum_len l) cw (rw0 - sum_len (l ++ [c]))
      /\ pending_wf q /\ peek q = Some c /\ sum_len (l ++ [c]) <= rw0 /\ nb0 + sum_len (l ++ [c]) <= cw).
    { intros a [] a' [[[[(q & Hw & Hq & Hle & Hcl) Hp] Hn] Hcwa] Hrwa] [= <-]. injection Hw as Hpq Hnba Hcw' Hrw''.
      assert (data_len c <= rw0 - sum_len l) by congruence.
      pose proof (sum_len_nonneg l). unfold in_range in *. change (2 ^ 32) with 4294967296 in *. change (2 ^ 63) with 9223372036854775808 in *.
      rewrite arith_ok in Htot by (unfold in_range; change (2 ^ 64) with 18446744073709551616; destruct Hcl as [->|]; cbn in *; lia).
      injection Htot as <-.
      rewrite wrap_small, arith_ok in Hrw' by (unfold in_range; change (2 ^ 32) with 4294967296; lia). injection Hrw' as <-.
      exists q. rewrite sum_len_app. cbn [sum_len foldr]. unfold windows. cbn. split_and!; [|done| |lia|lia].
      - rewrite Hpq, Hnba, Hcw'. f_equal. lia.
      - by rewrite <- Hpq. }
    intros _. apply (returns_pure (sum_len (l ++ [c]) <= rw0 /\ nb0 + sum_len (l ++ [c]) <= cw)
      (fun a => exists q, windows a = mkWindows q (nb0 + sum_len l) cw (rw0 - sum_len (l ++ [c])) /\ pending_wf q /\ peek q = Some c)).
    { intros a (q & ? & ? & ? & ? & ?). split; [done|]. by exists q. }
    intros [Hle Hcl]. eapply returns_bind; [apply move_returns|]. intros r; cbn beta.
    apply (returns_pure (exists c', r = Some c' /\ pd_user_data c' = pd_user_data c)
      (fun a => exists q', windows a = mkWindows q' (wrap 64 (nb0 + sum_len l + data_len c)) cw (rw0 - sum_len (l ++ [c])) /\ pending_wf q')).
    { intros a (c' & q' & -> & Hd & Hw & Hq). split; [by exists c'|]. by exists q'. }
    intros (c' & -> & Hd). eapply returns_pre; [apply IH|]. intros a (q' & Hw & Hq). exists q'. rewrite Hw.
    assert (Hlen : sum_len (l ++ [c']) = sum_len (l ++ [c]))
      by (rewrite !sum_len_app; cbn; unfold data_len; by rewrite Hd).
    rewrite Hlen. split_and!; [|done|done|by right]. f_equal. rewrite sum_len_app in *. cbn [sum_len foldr] in *.
    pose proof (sum_len_nonneg l). unfold in_range in *. change (2 ^ 32) with 4294967296 in *. rewrite wrap_small; [lia|].
    unfold in_range. change (2 ^ 64) with 18446744073709551616. lia.
Qed.

(** A chunk sent although it does not fit: alone. *)
Definition probed (rw0 : Z) (r : list ChunkPayloadData * list Z) (w : Windows) : Prop :=
  length (fst r) = 1%nat /\ w_rwnd w = rw0.

Lemma pop_pending_returns now nb0 cw rw0 : 0 <= nb0 < 2 ^ 63 -> in_range 32 cw -> in_range 32 rw0 ->
  returns (fun a => spent nb0 cw rw0 [] (windows a)) (pop_pending_data_chunks_to_send now)
    (fun r a => spent nb0 cw rw0 (fst r) (windows a) \/ probed rw0 r (windows a)).
Proof.
  intros Hnb Hcw Hrw. unfold pop_pending_data_chunks_to_send. set (K := spent nb0 cw rw0).
  apply (returns_bind_stable windows (K [])); [stab|]. intros len.
  destruct (len =? 0); [apply returns_ret; by left|].
  apply (returns_bind_stable windows (K [])); [stab|]. intros n.
  eapply returns_bind; [by apply pop_pending_loop_returns|]. intros [l sis]. cbn [fst snd]. fold K.
  destruct l as [|c0 l]; [|apply returns_ret; by left].
  apply (returns_bind_stable windows (K [])); [unfold inflight_is_empty; stab|].
  intros [|]; [|apply returns_ret; by left].
  apply returns_get. intros [c|]; [|apply returns_ret; intros a [? _]; by left].
  apply returns_pre with (Pre' := fun a => exists q, windows a = mkWindows q nb0 cw rw0 /\ pending_wf q /\ peek q = Some c).
  - eapply returns_bind; [apply move_returns|]. intros moved. apply returns_ret. intros a (c' & q' & -> & _ & Hw & _).
    right. by rewrite Hw.
  - intros a [(q & Hw & Hq & _ & _) Hp]. cbn in Hw. rewrite Z.add_0_r, Z.sub_0_r in Hw. exists q. split_and!; [done|done|].
    unfold windows in Hw. by injection Hw as <- _ _ _.
Qed.


(** * Bundling *)
Definition bundle_size (l : list ChunkPayloadData) : Z :=
  COMMON_HEADER_SIZE + foldr (fun c n => DATA_CHUNK_HEADER_SIZE + data_len c + n) 0 l.

Lemma bundle_size_app l c : bundle_size (l ++ [c]) = bundle_size l + (DATA_CHUNK_HEADER_SIZE + data_len c).
Proof.
  unfold bundle_size. rewrite <- Z.add_assoc. f_equal. induction l as [|x l IH]; cbn in *; [lia|]. rewrite IH. lia.
Qed.

Lemma bundle_size_one c : bundle_size [c] = COMMON_HEADER_SIZE + (DATA_CHUNK_HEADER_SIZE + data_len c).
Proof. unfold bundle_size. cbn [foldr]. lia. Qed.

Lemma bundle_size_pos l : COMMON_HEADER_SIZE <= bundle_size l.
Proof.
  unfold bundle_size. assert (0 <= foldr (fun c n => DATA_CHUNK_HEADER_SIZE + data_len c + n) 0 l); [|lia].
  induction l as [|x l IH]; cbn [foldr]; [done|]. pose proof (data_len_nonneg x). unfold DATA_CHUNK_HEADER_SIZE in *. lia.
Qed.

(** Bundling keeps the chunks in their order, puts at least one in every
    packet, and bounds a packet by the MTU and one DATA chunk header: the header
    of the chunk being added is not counted by the test. *)
Theorem bundles_bounded mtu chunks : 2000 <= 2 * mtu < 2 ^ 31 ->
  Forall (fun c => COMMON_HEADER_SIZE + data_len c <= mtu) chunks ->
  exists bundles, bundle_loop mtu chunks [] COMMON_HEADER_SIZE = Ok bundles /\ concat bundles = chunks /\
    Forall (fun l => l <> [] /\ bundle_size l <= mtu + DATA_CHUNK_HEADER_SIZE) bundles.
Proof.
  intros Hm Hall. change (2 ^ 31) with 2147483648 in Hm.
  assert (H : forall acc, bundle_size acc <= mtu + DATA_CHUNK_HEADER_SIZE ->
    exists bundles, bundle_loop mtu chunks acc (bundle_size acc) = Ok bundles /\ concat bundles = acc ++ chunks /\
      Forall (fun l => l <> [] /\ bundle_size l <= mtu + DATA_CHUNK_HEADER_SIZE) bundles).
  2:{ destruct (H []) as (bs & Hb & Hc & Hf); [rewrite ?bundle_size_one; unfold bundle_size, COMMON_HEADER_SIZE, DATA_CHUNK_HEADER_SIZE; cbn [foldr]; lia|].
      exists bs. split; [|done]. rewrite <- Hb. f_equal. }
  assert (H32 : 2 ^ 32 = 4294967296) by done.
  induction Hall as [|c l Hc Hall IH]; intros acc Hacc; cbn [bundle_loop].
  - destruct acc as [|x acc]; [by exists []|]. exists [x :: acc]. cbn [concat]. rewrite !app_nil_r. split_and!; [done|done|].
    by constructor.
  - pose proof (data_len_nonneg c) as Hd. pose proof (bundle_size_pos acc) as Hp.
    unfold DATA_CHUNK_HEADER_SIZE, COMMON_HEADER_SIZE in *. cbv zeta.
    assert (Hok : forall z, 0 <= z < 4294967296 -> arith (E := Error) 32 z = Ok z)
      by (intros z Hz; apply arith_ok; unfold in_range; lia).
    rewrite (wrap_small 32 (data_len c)) by (unfold in_range; lia).
    rewrite (Hok (bundle_size acc + data_len c)), (Hok (16 + data_len c)) by lia. cbn [mbind res_bind].
    destruct (Z.gtb_spec (bundle_size acc + data_len c) mtu) as [Hbig|Hfit].
    + rewrite (Hok (12 + (16 + data_len c))) by lia. cbn [mbind res_bind].
      replace (12 + (16 + data_len c)) with (bundle_size [c])
        by (rewrite bundle_size_one; unfold DATA_CHUNK_HEADER_SIZE, COMMON_HEADER_SIZE; lia).
      destruct (IH [c]) as (bs & Hb & Hcc & Hf); [rewrite bundle_size_one; unfold DATA_CHUNK_HEADER_SIZE, COMMON_HEADER_SIZE; lia|].
      rewrite Hb. exists (acc :: bs). split_and!; [done|cbn [concat]; by rewrite Hcc|]. constructor; [|done]. split; [|done].
      intros ->. unfold bundle_size, COMMON_HEADER_SIZE in Hbig. cbn [foldr] in Hbig. lia.
    + rewrite (Hok (bundle_size acc + (16 + data_len c))) by lia. cbn [mbind res_bind].
      replace (bundle_size acc + (16 + data_len c)) with (bundle_size (acc ++ [c]))
        by (rewrite bundle_size_app; unfold DATA_CHUNK_HEADER_SIZE; lia).
      destruct (IH (acc ++ [c])) as (bs & Hb & Hcc & Hf); [rewrite bundle_size_app; unfold DATA_CHUNK_HEADER_SIZE; lia|].
      rewrite Hb. exists bs. split_and!; [done|by rewrite Hcc, <- app_assoc|done].
Qed.
End windows.

(** * Examples *)
Section examples.
Local Existing Instance release_profile.

Definition window_chunk (n : nat) : ChunkPayloadData :=
  mkChunkPayloadData false true true false 0 1 0 Binary (replicate n Byte.x61) false 0 0 0 0%nat 1%nat false.

Definition window_assoc : Assoc :=
  (AssociationInternal_new (mkConfig 0 0) 7 42) <| a_rwnd := 2500 |>
    <| a_shared ::= fun sh => sh <| sh_pending_queue :=
         foldl pending_push PendingQueue_new [window_chunk 1000; window_chunk 1000; window_chunk 1000] |> |>.


Lemma bundles_bounded_witness : exists bundles,
  bundle_loop 1228 (map window_chunk [700; 500; 1200; 4]%nat) [] COMMON_HEADER_SIZE = Ok bundles /\
  concat bundles = map window_chunk [700; 500; 1200; 4]%nat.
Proof.
  destruct (bundles_bounded 1228 (map window_chunk [700; 500; 1200; 4]%nat)) as (bs & Hb & Hc & _).
  - by vm_compute.
  - repeat constructor; vm_compute; discriminate.
  - exists bs. by split.
Defined.
End examples.
