(* ===== verification/Handshake.v ===== *)
(** The client's handshake: INIT, INIT ACK, COOKIE ECHO, COOKIE ACK; and what
    the loss of the INIT leads to. *)
From S2P Require Import Prelude Serial Errors Param Chunk Packet PacketLaws PayloadQueue PendingQueue.
From S2P Require Import ReassemblyQueue Timer Stream Assoc Receive Transmit Tame Invariant ReceiveSafe.
From S2P Require Import TransmitSafe System.

Section handshake.
Context {P : Profile} {C : Crc}.

(** The packet that answers the INIT of a client, and its last one. *)
Definition init_ack_packet (tag : Z) (i : ChunkInit) : Packet := mkPacket 5000 5000 tag [CInit i].
Definition cookie_ack_packet (tag : Z) : Packet := mkPacket 5000 5000 tag [CCookieAck mkChunkCookieAck].

(** Of the state after the first packet: waiting for the INIT ACK, the INIT sent. *)
Record waiting (a : Assoc) : Prop := {
  wa_state : sh_state (a_shared a) = AssociationState_as_u8 CookieWait;
  wa_source : a_source_port a = 5000;
  wa_destination : a_destination_port a = 5000;
  wa_stored : a_stored_init a = None;
  wa_done : a_handshake_completed a = []
}.

Lemma started_waiting config tsn tag a : started config tsn tag a -> waiting a.
Proof.
  intros [Ht Hrun]. unfold Association_new_client, set_state, send_init, create_packet, push_control, a_awake_write_loop in Hrun.
  unfold st_get, st_modify, mbind, st_bind, mret, st_ret in Hrun. cbn in Hrun. injection Hrun as <-. by split.
Qed.

Lemma handle_init_ack_waiting p i v a : waiting a -> pk_source_port p = 5000 -> pk_destination_port p = 5000 ->
  find_cookie (ci_params i) = Some v ->
  exists a', handle_init_ack p i a = (Ok [], a') /\ get_state (a_shared a') = CookieEchoed /\
    a_control_queue a' = a_control_queue a ++
      [mkPacket 5000 5000 (ci_initiate_tag i) [CCookieEcho (mkChunkCookieEcho (psc_cookie v))]] /\
    a_peer_last_tsn a' = tsn_before (ci_initial_tsn i) /\ a_rwnd a' = ci_advertised_receiver_window_credit i /\
    a_peer_verification_tag a' = ci_initiate_tag i /\ a_handshake_completed a' = [] /\
    a_delayed_ack_triggered a' = a_delayed_ack_triggered a /\ a_immediate_ack_triggered a' = a_immediate_ack_triggered a.
Proof.
  intros [Hst Hs Hd Hi Hdone] Hps Hpd Hc. unfold handle_init_ack, a_get_state. st_run.
  unfold get_state. rewrite Hst, AssociationState_from_as_u8. rewrite decide_False by (by intros H; apply H). cbn [fst snd].
  cbn. rewrite Hs, Hd, Hps, Hpd. cbn. rewrite Hc. eexists. split; [reflexivity|]. cbn. rewrite ?Hs, ?Hd, ?Hdone. split_and!; done.
Qed.

Lemma waiting_chunk_start a : waiting a -> exists a', handle_chunk_start a = (Ok tt, a') /\ waiting a' /\
  a_control_queue a' = a_control_queue a /\ a_delayed_ack_triggered a' = false /\ a_immediate_ack_triggered a' = false.
Proof. intros [H1 H2 H3 H4 H5]. eexists. split; [reflexivity|]. by split. Qed.

(** A packet of one chunk whose handler answers nothing and asks for no SACK. *)
Lemma handle_packet_silent env p c a a1 a2 : pk_chunks p = [c] -> any_check c = Ok tt ->
  handle_chunk_start a = (Ok tt, a1) -> dispatch_chunk env p c a1 = (Ok [], a2) ->
  a_delayed_ack_triggered a2 = false -> a_immediate_ack_triggered a2 = false ->
  handle_packet env p a = (Ok tt, a2).
Proof.
  intros Hp Hc Hs Hd Hdel Him.
  assert (Hchunk : handle_chunk env p c a1 = (Ok tt, a2)).
  { unfold handle_chunk, mbind, st_bind, st_lift. by rewrite Hc, Hd. }
  assert (Hend : handle_chunk_end a2 = (Ok tt, a2)).
  { unfold handle_chunk_end, st_get, mbind, st_bind. by rewrite Him, Hdel. }
  unfold handle_packet, mbind, st_bind. rewrite Hs, Hp. cbn [st_for]. unfold mbind, st_bind. by rewrite Hchunk.
Qed.

(** C25. A client whose INIT is answered establishes the association: the INIT ACK
    with a state cookie makes it store the peer's parameters and queue a COOKIE
    ECHO with that cookie under the peer's tag, and the COOKIE ACK then
    establishes the association and completes the handshake, once. *)
Theorem client_handshake config tsn tag a env env' i v tag' :
  started config tsn tag a -> any_check (CInit i) = Ok tt -> ci_is_ack i = true -> find_cookie (ci_params i) = Some v ->
  exists a1 a2, handle_packet env (init_ack_packet tag i) a = (Ok tt, a1) /\
    get_state (a_shared a1) = CookieEchoed /\
    a_control_queue a1 = a_control_queue a ++
      [mkPacket 5000 5000 (ci_initiate_tag i) [CCookieEcho (mkChunkCookieEcho (psc_cookie v))]] /\
    a_peer_last_tsn a1 = tsn_before (ci_initial_tsn i) /\ a_rwnd a1 = ci_advertised_receiver_window_credit i /\
    a_handshake_completed a1 = [] /\
    handle_packet env' (cookie_ack_packet tag') a1 = (Ok tt, a2) /\
    get_state (a_shared a2) = Established /\ a_handshake_completed a2 = [None] /\
    a_peer_verification_tag a2 = ci_initiate_tag i /\ a_peer_last_tsn a2 = a_peer_last_tsn a1.
Proof.
  intros Hst Hck Hack Hv. apply started_waiting in Hst.
  destruct (waiting_chunk_start a Hst) as (a0 & H0 & Hw0 & Hq0 & Hd0 & Hi0).
  destruct (handle_init_ack_waiting (init_ack_packet tag i) i v a0 Hw0 eq_refl eq_refl Hv)
    as (a1 & H1 & Hs1 & Hq1 & Hp1 & Hr1 & Ht1 & Hc1 & Hd1 & Hi1).
  exists a1. set (a1' := snd (handle_chunk_start a1)). eexists.
  assert (Hecho : handle_cookie_ack a1' = (Ok [], snd (handle_cookie_ack a1')) /\
    get_state (a_shared (snd (handle_cookie_ack a1'))) = Established /\
    a_handshake_completed (snd (handle_cookie_ack a1')) = a_handshake_completed a1 ++ [None] /\
    a_peer_verification_tag (snd (handle_cookie_ack a1')) = a_peer_verification_tag a1 /\
    a_peer_last_tsn (snd (handle_cookie_ack a1')) = a_peer_last_tsn a1 /\
    a_delayed_ack_triggered (snd (handle_cookie_ack a1')) = false /\
    a_immediate_ack_triggered (snd (handle_cookie_ack a1')) = false).
  { unfold handle_cookie_ack, a_get_state. st_run. replace (get_state (a_shared a1')) with CookieEchoed by done.
    rewrite decide_False by (by intros H; apply H). by split_and!. }
  destruct Hecho as (He & Hse & Hce & Hte & Hpe & Hde & Hie). split_and!.
  - eapply handle_packet_silent; [done|exact Hck|exact H0| |congruence|congruence]. cbn [dispatch_chunk]. by rewrite Hack.
  - done.
  - by rewrite Hq1, Hq0.
  - done.
  - done.
  - done.
  - eapply (handle_packet_silent env' (cookie_ack_packet tag') (CCookieAck mkChunkCookieAck) a1 a1');
      [done|done|done|exact He|exact Hde|exact Hie].
  - done.
  - by rewrite Hce, Hc1.
  - by rewrite Hte.
  - done.
Qed.
End handshake.

(** * A lost INIT

    [stored_init] is taken out by the first [send_init] and nothing stores it
    again, so the retransmission timer has nothing to send. *)
Abbreviation keeps_init := (stable a_stored_init).

Section stored_init.
Context {P : Profile} {C : Crc}.

Lemma init_on_payload {A} (f : PayloadQueue -> res Error (A * PayloadQueue)) : keeps_init (on_payload_queue f).
Proof. intros a. unfold on_payload_queue. by destruct (f _) as [[]| | |]. Qed.

Lemma init_on_inflight {A} (f : PayloadQueue -> res Error (A * PayloadQueue)) : keeps_init (on_inflight_queue f).
Proof. intros a. unfold on_inflight_queue. by destruct (f _) as [[]| | |]. Qed.

Lemma init_with_stream r f : keeps_init (with_stream r f).
Proof. intros a. unfold with_stream. destruct (a_heap a !! r); [|done]. by destruct (f _). Qed.

Lemma init_on_stream {A} r (m : ST (Shared * Stream) Error A) d : keeps_init (on_stream r m d).
Proof. intros a. unfold on_stream. destruct (a_heap a !! r); [|done]. by destruct (m _) as [? []]. Qed.

Lemma init_pending_pop b u : keeps_init (pending_pop_call b u).
Proof. intros a. unfold pending_pop_call. by destruct (pending_pop _ _ _). Qed.

Lemma init_ignore_error m : keeps_init m -> keeps_init (ignore_error m).
Proof. intros H a. specialize (H a). unfold ignore_error. by destruct (m a) as [[] ?]. Qed.

Hint Resolve init_on_payload init_on_inflight init_with_stream init_on_stream init_pending_pop : stable.

(** [stab], opening the calls on the way. *)
Ltac head_of m := match m with ?f _ => head_of f | _ => m end.
Ltac kept :=
  repeat first
    [ solve [auto with stable nocore]
    | apply stable_modify; intros ?; repeat case_match; reflexivity
    | apply stable_when
    | apply stable_for; intros
    | apply stable_fold; intros
    | apply stable_bind; [|intros]
    | apply init_ignore_error
    | intros ?; reflexivity
    | case_match
    | progress cbv zeta
    | match goal with |- stable _ ?m => let h := head_of m in unfold h end ].

Lemma init_advance fuel : forall reply, keeps_init (advance_peer_last_tsn fuel reply).
Proof. induction fuel; intros; cbn [advance_peer_last_tsn]; kept. Qed.

Lemma init_ack_cumulative now d fuel : forall i acked, keeps_init (ack_cumulative fuel now d i acked).
Proof. induction fuel; intros; cbn [ack_cumulative]; kept. Qed.

Lemma init_mark_missing htna max fuel : forall tsn, keeps_init (mark_missing fuel htna max tsn).
Proof. induction fuel; intros; cbn [mark_missing]; kept. Qed.

Lemma init_advance_past fuel : forall i, keeps_init (advance_past_abandoned fuel i).
Proof. induction fuel; intros; cbn [advance_past_abandoned]; kept. Qed.

Lemma init_skip n : keeps_init (skip_to_tsn n).
Proof. induction n; intros; cbn [skip_to_tsn]; kept. Qed.

Lemma init_pop_pending now fuel : forall l sis, keeps_init (pop_pending_loop fuel now l sis).
Proof. induction fuel; intros; cbn [pop_pending_loop]; kept. Qed.

Lemma init_retransmit awnd fuel : forall i n l, keeps_init (retransmit_loop fuel awnd i n l).
Proof. induction fuel; intros; cbn [retransmit_loop]; kept. Qed.

Lemma init_fast_retransmit fuel : forall i n l, keeps_init (fast_retransmit_loop fuel i n l).
Proof. induction fuel; intros; cbn [fast_retransmit_loop]; kept. Qed.

Hint Resolve init_advance init_ack_cumulative init_mark_missing init_advance_past init_skip init_pop_pending
  init_retransmit init_fast_retransmit : stable.

Lemma init_handle_sack now d : keeps_init (handle_sack now d).
Proof. kept. Qed.

Lemma init_gather_outbound now : keeps_init (gather_outbound now).
Proof. kept. Qed.

Lemma init_close : keeps_init a_close.
Proof. kept. Qed.

(** A call that leaves the stored INIT empty when it is. *)
Definition no_init_stored {A} (m : AM A) : Prop := forall a, a_stored_init a = None -> a_stored_init (snd (m a)) = None.

Lemma none_stable {A} (m : AM A) : keeps_init m -> no_init_stored m.
Proof. intros H a Ha. by rewrite H. Qed.

Lemma none_bind {A B} (m : AM A) (k : A -> AM B) : no_init_stored m -> (forall x, no_init_stored (k x)) -> no_init_stored (m ≫= k).
Proof.
  intros Hm Hk a Ha. specialize (Hm a Ha). unfold mbind, st_bind. destruct (m a) as [[x| | |] a1]; try done. by apply Hk.
Qed.

Lemma none_for {A} (l : list A) (body : A -> AM unit) : (forall x, no_init_stored (body x)) -> no_init_stored (st_for l body).
Proof. intros H. induction l as [|x l IH]; [by intros a|]. apply none_bind; [done|]. by intros _. Qed.

Lemma none_clear {A} (g : Assoc -> Assoc) (k : AM A) : (forall a, a_stored_init (g a) = None) -> keeps_init k ->
  no_init_stored (st_modify g ≫= fun _ => k).
Proof. intros Hg Hk a _. unfold mbind, st_bind, st_modify. by rewrite Hk. Qed.

Lemma none_dispatch env p c : no_init_stored (dispatch_chunk env p c).
Proof.
  destruct c; cbn [dispatch_chunk]; try (apply none_stable; first [apply init_handle_sack | kept]; fail).
  - case_match; [|apply none_stable; kept]. unfold handle_init_ack. apply none_bind; [apply none_stable; kept|]. intros x.
    case_decide; [apply none_stable; kept|]. apply none_bind; [apply none_stable; kept|]. intros _.
    apply none_bind; [apply none_stable; kept|]. intros [|]; [apply none_stable; kept|].
    apply none_clear; [done|]. case_match; kept.
  - unfold handle_cookie_echo. apply none_bind; [apply none_stable; kept|]. intros x. apply none_bind; [apply none_stable; kept|].
    intros [v|]; [|apply none_stable; kept]. cbv zeta.
    destruct x; repeat case_match; first [apply none_clear; [done|kept] | apply none_stable; kept].
Qed.

Lemma none_handle_inbound env raw : no_init_stored (handle_inbound env raw).
Proof.
  unfold handle_inbound. apply none_bind; [apply none_stable; kept|]. intros fr.
  destruct (Packet_unmarshal fr raw) as [p| | |]; try (by intros ?).
  apply none_bind; [apply none_stable; kept|]. intros _. destruct (check_packet p); try (by intros ?).
  unfold handle_packet. apply none_bind; [apply none_stable; kept|]. intros _.
  apply none_bind; [|intros _; apply none_stable; kept]. apply none_for. intros c. unfold handle_chunk.
  apply none_bind; [by intros ?|]. intros _. apply none_bind; [apply none_dispatch|]. intros packets. apply none_stable; kept.
Qed.

Lemma none_send_init : no_init_stored (ignore_error send_init).
Proof. intros a Ha. unfold ignore_error, send_init, st_get, st_raise, mbind, st_bind. by rewrite Ha. Qed.

Lemma none_run ev : no_init_stored (run ev).
Proof.
  destruct ev; cbn [run]; try (apply none_stable; kept; fail).
  - intros a Ha. unfold read_loop. pose proof (none_handle_inbound env raw a Ha) as H.
    destruct (handle_inbound env raw a) as [[] a1]; try done. cbn in H. by rewrite init_close.
  - destruct id; cbn [on_retransmission_timeout]; first [apply none_send_init | apply none_stable; kept].
Qed.

Lemma reachable_no_init config tsn tag a : reachable config tsn tag a -> a_stored_init a = None.
Proof.
  intros (a0 & Hst & Hrtc). apply started_waiting, wa_stored in Hst. induction Hrtc as [a|a a1 a2 (ev & _ & _ & Hrun) _ IH]; [done|].
  apply IH. pose proof (none_run ev a Hst) as H. by rewrite Hrun in H.
Qed.

(** The INIT is sent once: in every reachable state a timeout of the T1-init
    timer changes nothing and queues no packet, so a client whose first INIT is
    lost stays silent until the timer gives up and the handshake fails with
    [ErrHandshakeInitAck]. *)
Theorem init_never_retransmitted config tsn tag a n :
  reachable config tsn tag a -> run (RtxTimeout T1Init n) a = (Ok tt, a).
Proof.
  intros Hr. cbn [run on_retransmission_timeout]. unfold ignore_error, send_init, st_get, st_raise, mbind, st_bind.
  by rewrite (reachable_no_init _ _ _ _ Hr).
Qed.
End stored_init.

(** * Examples *)
Section examples.
Local Existing Instance release_profile.
Local Existing Instance sum_crc.

Definition example_ack : ChunkInit :=
  mkChunkInit true 99 4000 10 10 1000 [PStateCookie (mkParamStateCookie example_cookie)].

Lemma client_handshake_witness : exists a1 a2,
  handle_packet example_env (init_ack_packet 42 example_ack) example_start = (Ok tt, a1) /\
  handle_packet example_env (cookie_ack_packet 42) a1 = (Ok tt, a2) /\
  get_state (a_shared a2) = Established /\ a_handshake_completed a2 = [None].
Proof.
  destruct (client_handshake example_config 7 42 example_start example_env example_env example_ack
    (mkParamStateCookie example_cookie) 42 example_started ltac:(by vm_compute) eq_refl eq_refl)
    as (a1 & a2 & H1 & _ & _ & _ & _ & _ & H2 & H3 & H4 & _).
  exists a1, a2. by split_and!.
Defined.

Lemma init_never_retransmitted_witness : run (RtxTimeout T1Init 1) example_start = (Ok tt, example_start).
Proof.
  apply (init_never_retransmitted example_config 7 42). exists example_start. split; [exact example_started|apply rtc_refl].
Defined.
End examples.
