(* ===== verification/ReplayDetector.v ===== *)
(** The replay detectors of [util/replay_detector/mod.rs], over the bit mask of
    [util/fixed_big_int/mod.rs], and the set of sequence numbers they stand for.

    A caller checks the sequence number of a packet, and accepts it once the
    packet is authenticated ([handle_incoming_packet] of [dtls/conn/mod.rs]);
    [observe] is one such round. *)
From S2P Require Import Prelude.

(** * The fixed-size big integer: a vector of 64-bit words, shifted and probed bit by
    bit, and what each operation does to the sequence of bits it stands for *)
Definition u64_max : Z := 18446744073709551615.

(** [n: usize] is the number of bits. *)
Record FixedBigInt := mkFixedBigInt { fbi_bits : list Z; fbi_n : Z; fbi_msb_mask : Z }.

#[export] Instance FixedBigInt_settable : Settable FixedBigInt := fun x =>
  mkFixedBigInt (fbi_bits x) (fbi_n x) (fbi_msb_mask x).

Definition FixedBigInt_new (n : Z) : FixedBigInt :=
  let chunk_size := (n + 63) / 64 in
  let chunk_size := if chunk_size =? 0 then 1 else chunk_size in
  mkFixedBigInt (replicate (Z.to_nat chunk_size) 0) n
    (if n mod 64 =? 0 then u64_max else Z.shiftl 1 (64 - n mod 64) - 1).

(** The new value of word [i]; the words it reads are not yet overwritten. *)
Definition lsh_word (n : Z) (bits : list Z) (i : nat) : Z :=
  let n_chunk := n / 64 in
  let n_n := n mod 64 in
  let j := Z.of_nat i - n_chunk in
  let carry :=
    if 0 <=? j then
      let carry := wrap 64 (Z.shiftl (nth (Z.to_nat j) bits 0) n_n) in
      if 0 <? j then
        Z.lor carry (if n_n =? 0 then 0 else Z.shiftr (nth (Z.to_nat (j - 1)) bits 0) (64 - n_n))
      else carry
    else 0 in
  if 64 <=? n then carry else Z.lor (wrap 64 (Z.shiftl (nth i bits 0) n)) carry.

(** [for i in (0..self.bits.len()).rev()]: the words below [i]. *)
Fixpoint lsh_loop (n : Z) (i : nat) (bits : list Z) : list Z :=
  match i with
  | O => bits
  | S i' => lsh_loop n i' (<[i' := lsh_word n bits i']> bits)
  end.

Definition lsh (x : FixedBigInt) (n : Z) : FixedBigInt :=
  if n =? 0 then x
  else
    let bits := lsh_loop n (length (fbi_bits x)) (fbi_bits x) in
    let last := (length bits - 1)%nat in
    x <| fbi_bits := <[last := Z.land (nth last bits 0) (fbi_msb_mask x)]> bits |>.

Definition fbi_bit (x : FixedBigInt) (i : Z) : Z :=
  if i >=? fbi_n x then 0
  else
    let chunk := Z.to_nat (i / 64) in
    let pos := i mod 64 in
    if negb (Z.land (nth chunk (fbi_bits x) 0) (Z.shiftl 1 pos) =? 0) then 1 else 0.

Definition set_bit (x : FixedBigInt) (i : Z) : FixedBigInt :=
  if i >=? fbi_n x then x
  else
    let chunk := Z.to_nat (i / 64) in
    let pos := i mod 64 in
    x <| fbi_bits ::= alter (fun w => Z.lor w (Z.shiftl 1 pos)) chunk |>.

(** * The bits *)

(** Bit [k] of the words. *)
Definition word_bit (bits : list Z) (k : Z) : bool :=
  Z.testbit (nth (Z.to_nat (k / 64)) bits 0) (k mod 64).

(** [new] made it: enough words for the [n] bits, each of 64 bits. *)
Record fbi_wf (x : FixedBigInt) : Prop := {
  fw_n : 0 <= fbi_n x;
  fw_words : Forall (in_range 64) (fbi_bits x);
  fw_length : Z.of_nat (length (fbi_bits x)) = Z.max 1 ((fbi_n x + 63) / 64);
  fw_mask : fbi_msb_mask x = if fbi_n x mod 64 =? 0 then u64_max else Z.shiftl 1 (64 - fbi_n x mod 64) - 1
}.

Lemma FixedBigInt_new_wf n : 0 <= n -> fbi_wf (FixedBigInt_new n).
Proof.
  intros Hn. assert (Hd : 0 <= (n + 63) / 64) by (apply Z.div_pos; lia).
  split; cbn [FixedBigInt_new fbi_bits fbi_n fbi_msb_mask]; [done| | |done].
  - by apply Forall_replicate.
  - rewrite length_replicate. destruct (Z.eqb_spec ((n + 63) / 64) 0); lia.
Qed.

Lemma testbit_high w z k : in_range w z -> 0 <= w <= k -> Z.testbit z k = false.
Proof.
  intros [Hz0 Hz] Hk. destruct (Z.eq_dec z 0) as [->|Hne]; [apply Z.bits_0|].
  apply Z.bits_above_log2; [done|]. apply Z.log2_lt_pow2; [lia|].
  eapply Z.lt_le_trans; [exact Hz|]. apply Z.pow_le_mono_r; lia.
Qed.

Lemma testbit_wrap w z k : 0 <= k -> 0 <= w -> Z.testbit (wrap w z) k = (k <? w) && Z.testbit z k.
Proof.
  intros Hk Hw. unfold wrap. destruct (Z.ltb_spec k w).
  - by rewrite Z.mod_pow2_bits_low.
  - by rewrite Z.mod_pow2_bits_high.
Qed.

Lemma range_testbit w z : 0 <= w -> 0 <= z -> (forall k, w <= k -> Z.testbit z k = false) -> in_range w z.
Proof.
  intros Hw Hz H. split; [done|]. destruct (Z.eq_dec z 0) as [->|Hne]; [apply Z.pow_pos_nonneg; lia|].
  apply Z.log2_lt_pow2; [lia|]. apply Z.nle_gt. intros Hle.
  pose proof (Z.bit_log2 z ltac:(lia)) as Hb. by rewrite H in Hb.
Qed.

Lemma land_range w a b : 0 <= w -> in_range w a -> 0 <= b -> in_range w (Z.land a b).
Proof.
  intros Hw Ha Hb. apply range_testbit; [done|apply Z.land_nonneg; left; apply Ha|].
  intros k Hk. by rewrite Z.land_spec, (testbit_high w a).
Qed.

Lemma lor_range w a b : 0 <= w -> in_range w a -> in_range w b -> in_range w (Z.lor a b).
Proof.
  intros Hw Ha Hb. apply range_testbit; [done|apply Z.lor_nonneg; split; [apply Ha|apply Hb]|].
  intros k Hk. by rewrite Z.lor_spec, !(testbit_high w) by done.
Qed.

Section words.
Context (bits : list Z) (Hbits : Forall (in_range 64) bits).

Lemma word_range i : in_range 64 (nth i bits 0).
Proof using Hbits.
  destruct (nth_in_or_default i bits 0) as [Hin| ->]; [|done].
  rewrite Forall_forall in Hbits. by apply Hbits, list_elem_of_In.
Qed.

Lemma lsh_word_range n i : 0 <= n -> in_range 64 (lsh_word n bits i).
Proof using Hbits.
  intros Hn. pose proof (Z.mod_pos_bound n 64 ltac:(lia)) as Hm. unfold lsh_word. cbv zeta.
  assert (Hc : in_range 64
    (if 0 <=? Z.of_nat i - n / 64 then
       if 0 <? Z.of_nat i - n / 64 then
         Z.lor (wrap 64 (Z.shiftl (nth (Z.to_nat (Z.of_nat i - n / 64)) bits 0) (n mod 64)))
           (if n mod 64 =? 0 then 0
            else Z.shiftr (nth (Z.to_nat (Z.of_nat i - n / 64 - 1)) bits 0) (64 - n mod 64))
       else wrap 64 (Z.shiftl (nth (Z.to_nat (Z.of_nat i - n / 64)) bits 0) (n mod 64))
     else 0)).
  { case_match; [|done]. case_match; [|apply wrap_range; lia].
    apply lor_range; [done|apply wrap_range; lia|]. case_match; [done|].
    apply range_testbit; [done|apply Z.shiftr_nonneg, word_range|].
    intros k Hk. rewrite Z.shiftr_spec by lia. apply (testbit_high 64); [apply word_range|lia]. }
  destruct (64 <=? n); [exact Hc|]. apply lor_range; [done|apply wrap_range; lia|exact Hc].
Qed.

(** A word of the shifted number, bit by bit. *)
Lemma lsh_word_bit n i p : 0 <= n -> 0 <= p < 64 ->
  Z.testbit (lsh_word n bits i) p =
  (n <=? 64 * Z.of_nat i + p) && word_bit bits (64 * Z.of_nat i + p - n).
Proof using Hbits.
  intros Hn Hp. pose proof (Z.mod_pos_bound n 64 ltac:(lia)) as Hm.
  pose proof (Z.div_mod n 64 ltac:(lia)) as Hdm. pose proof (Z.div_pos n 64 Hn ltac:(lia)) as Hc.
  set (c := n / 64) in *. set (m := n mod 64) in *. set (k := Z.of_nat i).
  assert (Hsh : forall j q, 0 <= q -> Z.testbit (wrap 64 (Z.shiftl (nth j bits 0) q)) p
                = (q <=? p) && Z.testbit (nth j bits 0) (p - q)).
  { intros j q Hq. rewrite testbit_wrap, Z.shiftl_spec by lia. destruct (Z.ltb_spec p 64); [|lia].
    destruct (Z.leb_spec q p); cbn; [done|]. apply Z.testbit_neg_r. lia. }
  assert (Hcase : Z.testbit (lsh_word n bits i) p =
    (if 0 <=? k - c then (m <=? p) && Z.testbit (nth (Z.to_nat (k - c)) bits 0) (p - m) else false)
    || (if 0 <? k - c then (p <? m) && Z.testbit (nth (Z.to_nat (k - c - 1)) bits 0) (p - m + 64) else false)).
  { assert (Hlow : (if m =? 0 then false else Z.testbit (nth (Z.to_nat (k - c - 1)) bits 0) (p + (64 - m)))
                   = (p <? m) && Z.testbit (nth (Z.to_nat (k - c - 1)) bits 0) (p - m + 64)).
    { replace (p + (64 - m)) with (p - m + 64) by lia.
      destruct (Z.eqb_spec m 0); destruct (Z.ltb_spec p m); cbn; try done; try lia.
      apply (testbit_high 64); [apply word_range|lia]. }
    unfold lsh_word. cbv zeta. fold k c m.
    destruct (Z.leb_spec 64 n).
    - destruct (Z.leb_spec 0 (k - c)).
      + destruct (Z.ltb_spec 0 (k - c)); [|by rewrite Hsh, orb_false_r by lia].
        rewrite Z.lor_spec, Hsh by lia. f_equal. rewrite <- Hlow.
        destruct (Z.eqb_spec m 0); [apply Z.bits_0|apply Z.shiftr_spec; lia].
      + destruct (Z.ltb_spec 0 (k - c)); [lia|]. apply Z.bits_0.
    - assert (Hc0 : c = 0) by lia. assert (Hmn : m = n) by lia. rewrite Hc0, Z.sub_0_r, <- Hmn in *.
      rewrite Z.lor_spec, Hsh by lia. unfold k. rewrite Nat2Z.id.
      destruct (Z.leb_spec 0 (Z.of_nat i)); [|lia].
      destruct (Z.ltb_spec 0 (Z.of_nat i)).
      + rewrite Z.lor_spec, Hsh, orb_assoc, orb_diag by lia. f_equal.
        unfold k in Hlow. rewrite <- Hlow. destruct (Z.eqb_spec m 0); [apply Z.bits_0|apply Z.shiftr_spec; lia].
      + by rewrite Hsh, orb_diag, orb_false_r by lia. }
  rewrite Hcase. unfold word_bit. fold k.
  assert (Hdiv : (64 * k + p - n) / 64 = k - c + (if m <=? p then 0 else -1) /\
                 (64 * k + p - n) mod 64 = if m <=? p then p - m else p - m + 64).
  { destruct (Z.leb_spec m p); split; Z.div_mod_to_equations; lia. }
  destruct Hdiv as [-> ->].
  destruct (Z.leb_spec m p), (Z.ltb_spec p m); try lia; cbn [andb];
    rewrite ?orb_false_r, ?orb_false_l, ?Z.add_0_r, ?Z.add_opp_r;
    destruct (Z.leb_spec 0 (k - c)), (Z.ltb_spec 0 (k - c)), (Z.leb_spec n (64 * k + p)); cbn; try done; try lia;
    by rewrite orb_false_r.
Qed.
End words.

Lemma lsh_loop_length n i bits : length (lsh_loop n i bits) = length bits.
Proof. revert bits. induction i as [|i IH]; intros bits; [done|]. cbn. by rewrite IH, length_insert. Qed.

Lemma nth_insert_ne (l : list Z) i j x : i <> j -> nth j (<[i:=x]> l) 0 = nth j l 0.
Proof. intros Hne. by rewrite !nth_lookup, list_lookup_insert_ne. Qed.

Lemma nth_insert_eq (l : list Z) i x : (i < length l)%nat -> nth i (<[i:=x]> l) 0 = x.
Proof. intros Hi. by rewrite nth_lookup, list_lookup_insert_eq. Qed.

Lemma lsh_word_above n (bits bits' : list Z) i : 0 <= n ->
  (forall j, (j <= i)%nat -> nth j bits' 0 = nth j bits 0) -> lsh_word n bits' i = lsh_word n bits i.
Proof.
  intros Hn H. pose proof (Z.div_pos n 64 Hn ltac:(lia)). unfold lsh_word. cbv zeta.
  destruct (Z.leb_spec 0 (Z.of_nat i - n / 64)); [|by rewrite H].
  rewrite (H i), (H (Z.to_nat (Z.of_nat i - n / 64))), (H (Z.to_nat (Z.of_nat i - n / 64 - 1))) by lia. done.
Qed.

(** The loop overwrites from the top: every word is computed from the old ones. *)
Lemma lsh_loop_nth n i : 0 <= n -> forall bits bits', (i <= length bits)%nat -> length bits' = length bits ->
  (forall j, (j < i)%nat -> nth j bits' 0 = nth j bits 0) ->
  forall j, nth j (lsh_loop n i bits') 0 = if (j <? i)%nat then lsh_word n bits j else nth j bits' 0.
Proof.
  intros Hn. induction i as [|i IH]; intros bits bits' Hi Hlen Heq j; [done|]. cbn [lsh_loop].
  rewrite (IH bits); [|lia|by rewrite length_insert|].
  - destruct (Nat.ltb_spec j i), (Nat.ltb_spec j (S i)); try lia.
    + replace j with i by lia. rewrite nth_insert_eq by lia. apply lsh_word_above; [done|].
      intros j' Hj'. apply Heq. lia.
    + apply nth_insert_ne. lia.
  - intros j' Hj'. rewrite nth_insert_ne by lia. apply Heq. lia.
Qed.

(** [lsh] moves every bit up by [n]; of the bits that reach the last word only
    those under the mask stay. *)
Definition kept (n : Z) : Z := if n mod 64 =? 0 then 64 else 64 - n mod 64.

Lemma mask_bits x p : fbi_wf x -> 0 <= p < 64 -> Z.testbit (fbi_msb_mask x) p = (p <? kept (fbi_n x)).
Proof.
  intros Hx Hp. rewrite (fw_mask x Hx). unfold kept. pose proof (Z.mod_pos_bound (fbi_n x) 64 ltac:(lia)).
  destruct (Z.eqb_spec (fbi_n x mod 64) 0).
  - change u64_max with (Z.ones 64). rewrite Z.testbit_ones by lia.
    destruct (Z.leb_spec 0 p), (Z.ltb_spec p 64); lia || done.
  - change (Z.shiftl 1 (64 - fbi_n x mod 64) - 1) with (Z.pred (Z.shiftl 1 (64 - fbi_n x mod 64))).
    fold (Z.ones (64 - fbi_n x mod 64)). rewrite Z.testbit_ones by lia.
    destruct (Z.leb_spec 0 p), (Z.ltb_spec p (64 - fbi_n x mod 64)); lia || done.
Qed.

Lemma lsh_bits x n k : fbi_wf x -> 0 < n -> 0 <= k < 64 * Z.of_nat (length (fbi_bits x)) ->
  word_bit (fbi_bits (lsh x n)) k =
  (n <=? k) && word_bit (fbi_bits x) (k - n) &&
  ((k / 64 <? Z.of_nat (length (fbi_bits x)) - 1) || (k mod 64 <? kept (fbi_n x))).
Proof.
  intros Hx Hn Hk. unfold lsh. destruct (Z.eqb_spec n 0); [lia|]. cbn [fbi_bits set].
  set (bits := fbi_bits x) in *. rewrite !lsh_loop_length.
  pose proof (Z.mod_pos_bound k 64 ltac:(lia)) as Hm. pose proof (Z.div_mod k 64 ltac:(lia)) as Hdm.
  pose proof (Z.div_pos k 64 ltac:(lia) ltac:(lia)) as Hd.
  assert (Hj : (Z.to_nat (k / 64) < length bits)%nat) by lia.
  assert (Hword : Z.testbit (nth (Z.to_nat (k / 64)) (lsh_loop n (length bits) bits) 0) (k mod 64)
                  = (n <=? k) && word_bit bits (k - n)).
  { rewrite (lsh_loop_nth n _ ltac:(lia) bits bits) by (lia || done).
    rewrite ltb_true by done. rewrite lsh_word_bit by (apply (fw_words x Hx) || lia).
    replace (64 * Z.of_nat (Z.to_nat (k / 64)) + k mod 64) with k by lia. done. }
  unfold word_bit at 1. cbn [fbi_bits]. unfold bits in *.
  destruct (Z.ltb_spec (k / 64) (Z.of_nat (length (fbi_bits x)) - 1)).
  - rewrite nth_insert_ne, Hword by lia. by rewrite orb_true_l, andb_true_r.
  - replace (length (fbi_bits x) - 1)%nat with (Z.to_nat (k / 64)) by lia.
    rewrite nth_insert_eq by (rewrite lsh_loop_length; lia).
    rewrite Z.land_spec, Hword, mask_bits by done. done.
Qed.

Lemma lsh_wf x n : fbi_wf x -> 0 <= n -> fbi_wf (lsh x n).
Proof.
  intros Hx Hn. unfold lsh. destruct (Z.eqb_spec n 0); [done|].
  destruct Hx as [H1 H2 H3 H4]. split; cbn; [done| |by rewrite length_insert, lsh_loop_length|done].
  assert (Hall : Forall (in_range 64) (lsh_loop n (length (fbi_bits x)) (fbi_bits x))).
  { apply Forall_lookup_2. intros j w Hw.
    assert (Hj : (j < length (fbi_bits x))%nat) by (rewrite <- (lsh_loop_length n (length (fbi_bits x)));
      by apply lookup_lt_Some in Hw).
    replace w with (nth j (lsh_loop n (length (fbi_bits x)) (fbi_bits x)) 0) by (by rewrite nth_lookup, Hw).
    rewrite (lsh_loop_nth n _ ltac:(lia) (fbi_bits x)) by done. rewrite ltb_true by done. by apply lsh_word_range. }
  apply Forall_insert; [done|]. apply land_range; [done|by apply word_range|].
  rewrite H4. case_match; [done|].
  pose proof (Z.mod_pos_bound (fbi_n x) 64 ltac:(lia)). rewrite Z.shiftl_1_l.
  pose proof (Z.pow_pos_nonneg 2 (64 - fbi_n x mod 64) ltac:(lia) ltac:(lia)). lia.
Qed.

Lemma fbi_bit_spec x i : 0 <= i -> fbi_bit x i = Z.b2z ((i <? fbi_n x) && word_bit (fbi_bits x) i).
Proof.
  intros Hi. unfold fbi_bit. destruct (Z.geb_spec i (fbi_n x)), (Z.ltb_spec i (fbi_n x)); try lia; [done|].
  pose proof (Z.mod_pos_bound i 64 ltac:(lia)). cbn [andb]. unfold word_bit.
  set (w := nth (Z.to_nat (i / 64)) (fbi_bits x) 0). set (q := i mod 64) in *.
  assert (Hl : Z.land w (Z.shiftl 1 q) = if Z.testbit w q then Z.shiftl 1 q else 0).
  { apply Z.bits_inj'. intros k Hk. rewrite Z.land_spec, Z.shiftl_1_l, Z.pow2_bits_eqb by lia.
    destruct (Z.eqb_spec q k) as [->|Hne].
    - rewrite andb_true_r. destruct (Z.testbit w k); [by rewrite Z.pow2_bits_true by lia|by rewrite Z.bits_0].
    - rewrite andb_false_r. destruct (Z.testbit w q); [|by rewrite Z.bits_0]. by rewrite Z.pow2_bits_false. }
  rewrite Hl. destruct (Z.testbit w q); [|done]. rewrite Z.shiftl_1_l.
  pose proof (Z.pow_pos_nonneg 2 q ltac:(lia) ltac:(lia)). by destruct (Z.eqb_spec (2 ^ q) 0); [lia|].
Qed.

Lemma set_bit_bits x i k : fbi_wf x -> 0 <= i -> 0 <= k ->
  word_bit (fbi_bits (set_bit x i)) k = word_bit (fbi_bits x) k || ((i <? fbi_n x) && (k =? i)).
Proof.
  intros Hx Hi Hk. unfold set_bit. destruct (Z.geb_spec i (fbi_n x)), (Z.ltb_spec i (fbi_n x)); try lia;
    [by rewrite orb_false_r|]. cbn [fbi_bits set andb]. unfold word_bit.
  pose proof (Z.mod_pos_bound i 64 ltac:(lia)). pose proof (Z.mod_pos_bound k 64 ltac:(lia)).
  pose proof (Z.div_mod i 64 ltac:(lia)). pose proof (Z.div_mod k 64 ltac:(lia)).
  pose proof (Z.div_pos i 64 ltac:(lia) ltac:(lia)). pose proof (Z.div_pos k 64 ltac:(lia) ltac:(lia)).
  pose proof (fw_length x Hx).
  rewrite !nth_lookup. destruct (decide (k / 64 = i / 64)) as [Heq|Hne].
  - rewrite Heq, list_lookup_alter_eq.
    destruct (lookup_lt_is_Some_2 (fbi_bits x) (Z.to_nat (i / 64))) as [w Hw].
    { assert (i / 64 < (fbi_n x + 63) / 64); [|lia]. apply Z.div_lt_upper_bound; [lia|].
      pose proof (Z.div_mod (fbi_n x + 63) 64 ltac:(lia)). pose proof (Z.mod_pos_bound (fbi_n x + 63) 64 ltac:(lia)). lia. }
    rewrite Hw. cbn. rewrite Z.lor_spec, Z.shiftl_1_l, Z.pow2_bits_eqb by lia. f_equal.
    destruct (Z.eqb_spec (i mod 64) (k mod 64)), (Z.eqb_spec k i); try done; exfalso; [|congruence].
    assert (k = i); [|done]. congruence.
  - rewrite list_lookup_alter_ne by lia. destruct (Z.eqb_spec k i); [congruence|]. by rewrite orb_false_r.
Qed.

Lemma set_bit_wf x i : fbi_wf x -> 0 <= i -> fbi_wf (set_bit x i).
Proof.
  intros Hx Hi. unfold set_bit. case_match; [done|]. destruct Hx as [H1 H2 H3 H4].
  pose proof (Z.mod_pos_bound i 64 ltac:(lia)).
  split; cbn; [done| |by rewrite length_alter|done].
  apply Forall_alter; [done|]. intros w Hw Hr. apply lor_range; [done|done|].
  rewrite Z.shiftl_1_l. split; [apply Z.pow_nonneg; lia|apply Z.pow_lt_mono_r; lia].
Qed.

(** * The detectors *)
(** [trait ReplayDetector] *)
Class ReplayDetector (D : Type) := {
  rd_check : D -> Z -> res Empty_set (bool * D);
  rd_accept : D -> res Empty_set D
}.

Record SlidingWindowDetector := mkSlidingWindowDetector {
  sw_accepted : bool;
  sw_seq : Z;
  sw_latest_seq : Z;
  sw_max_seq : Z;
  sw_window_size : Z;
  sw_mask : FixedBigInt
}.

#[export] Instance SlidingWindowDetector_settable : Settable SlidingWindowDetector := fun d =>
  mkSlidingWindowDetector (sw_accepted d) (sw_seq d) (sw_latest_seq d) (sw_max_seq d)
    (sw_window_size d) (sw_mask d).

Definition SlidingWindowDetector_new (window_size max_seq : Z) : SlidingWindowDetector :=
  mkSlidingWindowDetector false 0 0 max_seq window_size (FixedBigInt_new window_size).

Record WrappedSlidingWindowDetector := mkWrappedSlidingWindowDetector {
  wsw_accepted : bool;
  wsw_seq : Z;
  wsw_latest_seq : Z;
  wsw_max_seq : Z;
  wsw_window_size : Z;
  wsw_mask : FixedBigInt;
  wsw_init : bool
}.

#[export] Instance WrappedSlidingWindowDetector_settable : Settable WrappedSlidingWindowDetector := fun d =>
  mkWrappedSlidingWindowDetector (wsw_accepted d) (wsw_seq d) (wsw_latest_seq d) (wsw_max_seq d)
    (wsw_window_size d) (wsw_mask d) (wsw_init d).

Section ops.
Context {P : Profile}.

(** [a % b] of unsigned integers *)
Definition rem_u64 {E} (a b : Z) : res E Z := if b =? 0 then Panic else Ok (a mod b).

Definition sw_check (d : SlidingWindowDetector) (seq : Z) : res Empty_set (bool * SlidingWindowDetector) :=
  let d := d <| sw_accepted := false |> in
  let accept := d <| sw_accepted := true |> <| sw_seq := seq |> in
  if seq >? sw_max_seq d then Ok (false, d)
  else if seq <=? sw_latest_seq d then
    edge ← add64 (sw_window_size d) seq;
    if sw_latest_seq d >=? edge then Ok (false, d)
    else if negb (fbi_bit (sw_mask d) (sw_latest_seq d - seq) =? 0) then Ok (false, d)
    else Ok (true, accept)
  else Ok (true, accept).

Definition sw_accept (d : SlidingWindowDetector) : res Empty_set SlidingWindowDetector :=
  if negb (sw_accepted d) then Ok d
  else
    let d := if sw_seq d >? sw_latest_seq d
             then d <| sw_mask ::= fun m => lsh m (sw_seq d - sw_latest_seq d) |>
                    <| sw_latest_seq := sw_seq d |>
             else d in
    diff ← rem_u64 (sw_latest_seq d - sw_seq d) (sw_max_seq d);
    Ok (d <| sw_mask ::= fun m => set_bit m diff |>).

(** [as i64] *)
Definition as_i64 (z : Z) : Z := let r := wrap 64 z in if r <? 2 ^ 63 then r else r - 2 ^ 64.

Definition arith_s64 {E} (z : Z) : res E Z :=
  if (- 2 ^ 63 <=? z) && (z <? 2 ^ 63) then Ok z
  else if overflow_checks then Panic else Ok (as_i64 z).

(** The difference of two sequence numbers, wrapped to the nearer side. *)
Definition wrapped_diff (max_seq latest_seq seq : Z) : res Empty_set Z :=
  diff ← arith_s64 (as_i64 latest_seq - as_i64 seq);
  let half := Z.quot (as_i64 max_seq) 2 in
  if diff >? half then
    period ← add64 max_seq 1; arith_s64 (diff - as_i64 period)
  else if diff <=? - half then
    period ← add64 max_seq 1; arith_s64 (diff + as_i64 period)
  else Ok diff.

Definition wsw_check (d : WrappedSlidingWindowDetector) (seq : Z) :
    res Empty_set (bool * WrappedSlidingWindowDetector) :=
  let d := d <| wsw_accepted := false |> in
  if seq >? wsw_max_seq d then Ok (false, d)
  else
    let d := if negb (wsw_init d)
             then d <| wsw_latest_seq := if negb (seq =? 0) then seq - 1 else wsw_max_seq d |>
                    <| wsw_init := true |>
             else d in
    diff ← wrapped_diff (wsw_max_seq d) (wsw_latest_seq d) seq;
    if diff >=? as_i64 (wsw_window_size d) then Ok (false, d)
    else if (diff >=? 0) && negb (fbi_bit (wsw_mask d) diff =? 0) then Ok (false, d)
    else Ok (true, d <| wsw_accepted := true |> <| wsw_seq := seq |>).

(** [assert!(diff < self.window_size as i64)] *)
Definition wsw_accept (d : WrappedSlidingWindowDetector) : res Empty_set WrappedSlidingWindowDetector :=
  if negb (wsw_accepted d) then Ok d
  else
    diff ← wrapped_diff (wsw_max_seq d) (wsw_latest_seq d) (wsw_seq d);
    if negb (diff <? as_i64 (wsw_window_size d)) then Panic
    else
      let d := if diff <? 0
               then d <| wsw_mask ::= fun m => lsh m (- diff) |> <| wsw_latest_seq := wsw_seq d |>
               else d in
      i ← arith_s64 (as_i64 (wsw_latest_seq d) - as_i64 (wsw_seq d));
      Ok (d <| wsw_mask ::= fun m => set_bit m (wrap 64 i) |>).

#[export] Instance SlidingWindowDetector_detector : ReplayDetector SlidingWindowDetector :=
  {| rd_check := sw_check; rd_accept := sw_accept |}.

#[export] Instance WrappedSlidingWindowDetector_detector : ReplayDetector WrappedSlidingWindowDetector :=
  {| rd_check := wsw_check; rd_accept := wsw_accept |}.

(** [struct NoOpReplayDetector] *)
#[export] Instance NoOpReplayDetector_detector : ReplayDetector unit :=
  {| rd_check d _ := Ok (true, d); rd_accept d := Ok d |}.

(** * Rounds *)
Section rounds.
Context {D : Type} `{ReplayDetector D}.

(** A packet that is checked and, if it passes and is [authentic], accepted. *)
Definition observe (d : D) (packet : Z * bool) : res Empty_set (bool * D) :=
  '(ok, d) ← rd_check d (fst packet);
  if ok && snd packet then d ← rd_accept d; Ok (true, d) else Ok (false, d).

Fixpoint observe_all (d : D) (packets : list (Z * bool)) : res Empty_set (list bool * D) :=
  match packets with
  | [] => Ok ([], d)
  | packet :: packets' =>
      '(ok, d) ← observe d packet;
      '(oks, d) ← observe_all d packets';
      Ok (ok :: oks, d)
  end.
End rounds.
End ops.

(** * The specification: a set of sequence numbers *)
Record Window := mkWindow { w_latest : Z; w_seen : gset Z }.

Definition window_fresh (size max_seq : Z) (w : Window) (seq : Z) : Prop :=
  seq <= max_seq /\ (w_latest w < seq \/ w_latest w - seq < size /\ seq ∉ w_seen w).

#[export] Instance window_fresh_dec size max_seq w seq : Decision (window_fresh size max_seq w seq).
Proof. unfold window_fresh. apply _. Defined.

Definition window_add (w : Window) (seq : Z) : Window :=
  mkWindow (Z.max (w_latest w) seq) ({[seq]} ∪ w_seen w).

Definition window_observe (size max_seq : Z) (w : Window) (packet : Z * bool) : bool * Window :=
  if bool_decide (window_fresh size max_seq w (fst packet)) && snd packet
  then (true, window_add w (fst packet)) else (false, w).

Fixpoint window_observe_all (size max_seq : Z) (w : Window) (packets : list (Z * bool)) : list bool * Window :=
  match packets with
  | [] => ([], w)
  | packet :: packets' =>
      let '(ok, w) := window_observe size max_seq w packet in
      let '(oks, w) := window_observe_all size max_seq w packets' in
      (ok :: oks, w)
  end.

(** What the detector's fields stand for. *)
Record window_of (size max_seq : Z) (d : SlidingWindowDetector) (w : Window) : Prop := {
  wo_size : sw_window_size d = size /\ fbi_n (sw_mask d) = size;
  wo_max : sw_max_seq d = max_seq;
  wo_mask : fbi_wf (sw_mask d);
  wo_latest : sw_latest_seq d = w_latest w /\ 0 <= w_latest w <= max_seq;
  wo_seen s : s ∈ w_seen w -> 0 <= s <= w_latest w;
  wo_bits s : 0 <= s <= w_latest w -> w_latest w - s < size ->
    word_bit (fbi_bits (sw_mask d)) (w_latest w - s) = bool_decide (s ∈ w_seen w)
}.

(** The windows the mask can hold: no shift of at most the window loses a bit. *)
Record window_fits (size max_seq : Z) : Prop := {
  wf_size : 0 <= size <= max_seq;
  wf_word : size mod 64 <= 32;
  wf_edge : size + max_seq < 2 ^ 64
}.

Section refinement.
Context {P : Profile} (size max_seq : Z) (Hfits : window_fits size max_seq).

Lemma new_window : window_of size max_seq (SlidingWindowDetector_new size max_seq) (mkWindow 0 ∅).
Proof using Hfits.
  destruct Hfits as [Hs Hw He]. split; cbn [SlidingWindowDetector_new sw_window_size sw_mask sw_max_seq
    sw_latest_seq w_latest w_seen]; [done|done|apply FixedBigInt_new_wf; lia|lia|set_solver|].
  intros s H0 H1. assert (s = 0) as -> by lia. rewrite bool_decide_false by set_solver.
  unfold word_bit. change (Z.to_nat ((0 - 0) / 64)) with 0%nat. cbn [FixedBigInt_new fbi_bits].
  rewrite nth_lookup. destruct (replicate _ 0 !! 0%nat) eqn:Hr; [|done].
  apply lookup_replicate in Hr as [-> _]. done.
Qed.

Lemma mask_length d w : window_of size max_seq d w ->
  size <= 64 * Z.of_nat (length (fbi_bits (sw_mask d))).
Proof using.
  intros Hd. pose proof (fw_length _ (wo_mask _ _ _ _ Hd)) as Hl. destruct (wo_size _ _ _ _ Hd) as [_ Hn].
  rewrite Hn in Hl. pose proof (Z.div_mod (size + 63) 64 ltac:(lia)).
  pose proof (Z.mod_pos_bound (size + 63) 64 ltac:(lia)). lia.
Qed.

Lemma check_window d w seq : window_of size max_seq d w -> 0 <= seq ->
  exists d', sw_check d seq = Ok (bool_decide (window_fresh size max_seq w seq), d') /\
    window_of size max_seq d' w /\ sw_accepted d' = bool_decide (window_fresh size max_seq w seq) /\
    (window_fresh size max_seq w seq -> sw_seq d' = seq).
Proof using Hfits.
  intros Hd Hseq. destruct Hd as [[Hs Hn] Hm Hwf [Hl Hl'] Hseen Hbits]. destruct Hfits as [Hsz Hw He].
  unfold sw_check. cbn [sw_max_seq sw_latest_seq sw_window_size sw_mask set].
  rewrite Hm, Hl, Hs.
  assert (Hyes : window_fresh size max_seq w seq -> exists d',
     Ok (true, d <| sw_accepted := false |> <| sw_accepted := true |> <| sw_seq := seq |>) =
     Ok (E := Empty_set) (bool_decide (window_fresh size max_seq w seq), d') /\
     window_of size max_seq d' w /\ sw_accepted d' = bool_decide (window_fresh size max_seq w seq) /\
     (window_fresh size max_seq w seq -> sw_seq d' = seq)).
  { intros Hf. rewrite !bool_decide_true by done. eexists. split_and!; [done| |done|done]. by split. }
  assert (Hno : ~ window_fresh size max_seq w seq -> exists d',
     Ok (false, d <| sw_accepted := false |>) =
     Ok (E := Empty_set) (bool_decide (window_fresh size max_seq w seq), d') /\
     window_of size max_seq d' w /\ sw_accepted d' = bool_decide (window_fresh size max_seq w seq) /\
     (window_fresh size max_seq w seq -> sw_seq d' = seq)).
  { intros Hf. rewrite !bool_decide_false by done. eexists. split_and!; [done| |done|done]. by split. }
  destruct (Z.gtb_spec seq max_seq); [apply Hno; intros [? _]; lia|].
  destruct (Z.leb_spec seq (w_latest w)); [|apply Hyes; split; lia].
  rewrite arith_ok by (unfold in_range; lia). cbn [mbind res_bind].
  destruct (Z.geb_spec (w_latest w) (size + seq)); [apply Hno; intros [_ [?|[? _]]]; lia|].
  rewrite fbi_bit_spec, Hn, Hbits by lia. destruct (Z.ltb_spec (w_latest w - seq) size); [|lia].
  cbn [andb]. destruct (bool_decide_reflect (seq ∈ w_seen w)) as [Hin|Hin]; cbn.
  - apply Hno. intros [_ [?|[_ ?]]]; [lia|done].
  - apply Hyes. split; [lia|]. right. split; [lia|done].
Qed.

Lemma shift_window d w seq : window_of size max_seq d w -> w_latest w < seq <= max_seq ->
  window_of size max_seq
    (d <| sw_mask ::= fun m => lsh m (seq - sw_latest_seq d) |> <| sw_latest_seq := seq |>)
    (mkWindow seq (w_seen w)).
Proof using Hfits.
  intros Hd Hseq. pose proof (mask_length d w Hd) as Hlen. destruct Hfits as [Hsz Hw He].
  destruct Hd as [[Hs Hn] Hm Hwf [Hl Hl'] Hseen Hbits].
  split; cbn [sw_window_size sw_max_seq sw_mask sw_latest_seq set w_latest w_seen].
  - split; [done|]. unfold lsh. by case_match.
  - done.
  - apply lsh_wf; [done|lia].
  - lia.
  - intros s Hin. specialize (Hseen s Hin). lia.
  - intros s Hs0 Hs1. rewrite Hl. rewrite lsh_bits by (done || lia).
    assert (Hkept : ((seq - s) / 64 <? Z.of_nat (length (fbi_bits (sw_mask d))) - 1)
                    || ((seq - s) mod 64 <? kept (fbi_n (sw_mask d))) = true).
    { apply orb_true_iff. rewrite !Z.ltb_lt. unfold kept. rewrite Hn.
      pose proof (fw_length _ Hwf) as Hfl. rewrite Hn in Hfl.
      destruct (Z.eqb_spec (size mod 64) 0); [right; apply Z.mod_pos_bound; lia|].
      destruct (Z_lt_dec ((seq - s) / 64) (Z.of_nat (length (fbi_bits (sw_mask d))) - 1)); [by left|right].
      revert Hfl Hlen n0. generalize (Z.of_nat (length (fbi_bits (sw_mask d)))). clear -Hs1 Hs0 Hw n Hsz.
      intros L Hfl Hlen Hd. Z.div_mod_to_equations. lia. }
    rewrite Hkept, andb_true_r. destruct (Z.leb_spec (seq - w_latest w) (seq - s)); cbn [andb].
    + replace (seq - s - (seq - w_latest w)) with (w_latest w - s) by lia. apply Hbits; lia.
    + rewrite bool_decide_false; [done|]. intros Hin. specialize (Hseen s Hin). lia.
Qed.

Lemma mark_window d w seq : window_of size max_seq d w -> 0 <= seq <= w_latest w ->
  w_latest w - seq < size \/ seq = w_latest w ->
  window_of size max_seq (d <| sw_mask ::= fun m => set_bit m (w_latest w - seq) |>)
    (mkWindow (w_latest w) ({[seq]} ∪ w_seen w)).
Proof using Hfits.
  intros Hd Hseq Hin. destruct Hfits as [Hsz Hw He].
  destruct Hd as [[Hs Hn] Hm Hwf [Hl Hl'] Hseen Hbits].
  split; cbn [sw_window_size sw_max_seq sw_mask sw_latest_seq set w_latest w_seen].
  - split; [done|]. unfold set_bit. by case_match.
  - done.
  - apply set_bit_wf; [done|lia].
  - done.
  - intros s [->%elem_of_singleton|H]%elem_of_union; [lia|auto].
  - intros s Hs0 Hs1. rewrite set_bit_bits, Hbits, Hn by (done || lia).
    destruct (Z.eqb_spec (w_latest w - s) (w_latest w - seq)), (Z.ltb_spec (w_latest w - seq) size);
      try lia; cbn [andb].
    + rewrite orb_true_r, bool_decide_true; [done|]. assert (s = seq) as -> by lia. by apply elem_of_union_l, elem_of_singleton.
    + rewrite orb_false_r. apply bool_decide_ext. rewrite elem_of_union, elem_of_singleton. intuition lia.
Qed.

Lemma accept_window d w : window_of size max_seq d w -> sw_accepted d = true -> 0 <= sw_seq d ->
  window_fresh size max_seq w (sw_seq d) ->
  exists d', sw_accept d = Ok d' /\ window_of size max_seq d' (window_add w (sw_seq d)).
Proof using Hfits.
  intros Hd Ha Hpos [Hmax Hf]. pose proof (wo_latest _ _ _ _ Hd) as [Hl Hl'].
  pose proof (wf_size _ _ Hfits) as Hsz.
  unfold sw_accept, window_add, rem_u64. rewrite Ha. cbn [negb]. rewrite Hl.
  destruct (Z.gtb_spec (sw_seq d) (w_latest w)) as [Hgt|Hle]; cbn [sw_seq sw_latest_seq sw_max_seq set];
    rewrite (wo_max _ _ _ _ Hd).
  - destruct (Z.eqb_spec max_seq 0); [lia|]. cbn [mbind res_bind]. eexists. split; [done|].
    rewrite Z.max_r, Z.sub_diag, Zmod_0_l by lia.
    pose proof (shift_window d w (sw_seq d) Hd ltac:(lia)) as Hs.
    pose proof (mark_window _ _ (sw_seq d) Hs) as Hm. cbn [w_latest w_seen] in Hm.
    rewrite Z.sub_diag, Hl in Hm. apply Hm; lia.
  - rewrite Hl. destruct (Z.eqb_spec max_seq 0).
    { destruct Hf as [Hf|[Hf _]]; lia. }
    cbn [mbind res_bind]. rewrite Z.max_l, Z.mod_small by lia. eexists. split; [done|].
    apply mark_window; [done|lia|]. destruct Hf as [Hf|[Hf _]]; lia.
Qed.

Lemma observe_window d w packet : window_of size max_seq d w -> 0 <= fst packet ->
  exists d', observe d packet = Ok (fst (window_observe size max_seq w packet), d') /\
    window_of size max_seq d' (snd (window_observe size max_seq w packet)).
Proof using Hfits.
  intros Hd Hpos. destruct packet as [seq authentic]; cbn [fst] in *. unfold observe, window_observe. cbn [fst snd].
  destruct (check_window d w seq Hd Hpos) as (d' & Hc & Hd' & Ha & Hs).
  change (rd_check d seq) with (sw_check d seq). rewrite Hc. cbn [mbind res_bind].
  case_bool_decide as Hf; cbn [andb]; [|by eexists].
  destruct authentic; [|by eexists]. specialize (Hs Hf).
  destruct (accept_window d' w Hd' Ha ltac:(lia) ltac:(by rewrite Hs)) as (d2 & Hacc & Hd2).
  change (rd_accept d') with (sw_accept d'). rewrite Hacc. cbn [mbind res_bind fst snd].
  rewrite Hs in Hd2. by eexists.
Qed.

Lemma observe_all_window packets : forall d w, window_of size max_seq d w ->
  Forall (fun packet => 0 <= fst packet) packets ->
  exists d', observe_all d packets = Ok (fst (window_observe_all size max_seq w packets), d') /\
    window_of size max_seq d' (snd (window_observe_all size max_seq w packets)).
Proof using Hfits.
  induction packets as [|packet packets IH]; intros d w Hd Hpos; [by eexists|].
  inversion_clear Hpos as [|? ? Hp Hps]. cbn [observe_all window_observe_all].
  destruct (observe_window d w packet Hd Hp) as (d1 & -> & Hd1). cbn [mbind res_bind].
  destruct (window_observe size max_seq w packet) as [ok w1]. cbn [fst snd] in *.
  destruct (IH d1 w1 Hd1 Hps) as (d2 & -> & Hd2). cbn [mbind res_bind].
  destruct (window_observe_all size max_seq w1 packets) as [oks w2]. by eexists.
Qed.

End refinement.

(** * The specification refuses what it has seen *)
Section specification.
Context (size max_seq : Z).

Lemma window_observe_seen w packet : let '(ok, w') := window_observe size max_seq w packet in
  (forall s, s ∈ w_seen w -> s <= w_latest w -> s ∈ w_seen w' /\ s <= w_latest w') /\
  (ok = true -> snd packet = true /\ window_fresh size max_seq w (fst packet) /\
     fst packet ∈ w_seen w' /\ fst packet <= w_latest w').
Proof.
  unfold window_observe. case_bool_decide as Hf; cbn [andb]; [|by split].
  destruct packet as [s []]; cbn [fst snd] in *; [|by split]. unfold window_add; cbn. split.
  - intros s' Hs Hl. split; [set_solver|lia].
  - intros _. split_and!; [done|done|set_solver|lia].
Qed.

Lemma window_seen_refused packets : forall w s, s ∈ w_seen w -> s <= w_latest w ->
  forall i a, packets !! i = Some (s, a) -> fst (window_observe_all size max_seq w packets) !! i = Some false.
Proof.
  induction packets as [|packet packets IH]; intros w s Hs Hl i a Hi; [done|].
  cbn [window_observe_all]. pose proof (window_observe_seen w packet) as Ho.
  destruct (window_observe size max_seq w packet) as [ok w1]. destruct Ho as [Hkeep Hok].
  specialize (IH w1 s). destruct (window_observe_all size max_seq w1 packets) as [oks w2].
  destruct i as [|i]; cbn in *; [|by eapply IH; [apply Hkeep..|]]. injection Hi as ->.
  destruct ok; [|done]. destruct (Hok eq_refl) as (_ & [_ [?|[_ ?]]] & _); cbn in *; [lia|done].
Qed.

(** No sequence number passes twice. *)
Lemma window_no_replay packets : forall w i j s a b, (i < j)%nat ->
  packets !! i = Some (s, a) -> packets !! j = Some (s, b) ->
  fst (window_observe_all size max_seq w packets) !! i = Some true ->
  fst (window_observe_all size max_seq w packets) !! j = Some false.
Proof.
  induction packets as [|packet packets IH]; intros w i j s a b Hij Hi Hj; [done|].
  cbn [window_observe_all]. pose proof (window_observe_seen w packet) as Ho.
  destruct (window_observe size max_seq w packet) as [ok w1]. destruct Ho as [_ Hok].
  pose proof (IH w1) as IH1. pose proof (window_seen_refused packets w1) as Hs.
  destruct (window_observe_all size max_seq w1 packets) as [oks w2].
  destruct j as [|j]; [lia|]. destruct i as [|i]; cbn in *.
  - injection Hi as ->. intros [= ->]. destruct (Hok eq_refl) as (_ & _ & H1 & H2).
    by apply (Hs s H1 H2 j b).
  - intros H. by apply (IH1 i j s a b ltac:(lia)).
Qed.
End specification.

(** * The theorems *)

(** C31. The sliding-window detector implements its specification, the set of the
    sequence numbers accepted so far: on any sequence of packets it never panics
    and gives the answers of the set - fresh if beyond the latest number, or
    inside the window and not yet accepted - so no sequence number is accepted
    twice; this for a window of at most [max_seq] numbers whose size modulo 64
    is at most 32, as the default of 64 is. *)
Theorem replay_detector_refines {P : Profile} size max_seq packets :
  window_fits size max_seq -> Forall (fun packet => 0 <= fst packet) packets ->
  exists d' oks, observe_all (SlidingWindowDetector_new size max_seq) packets = Ok (oks, d') /\
    oks = fst (window_observe_all size max_seq (mkWindow 0 ∅) packets) /\
    (forall i j s a b, (i < j)%nat -> packets !! i = Some (s, a) -> packets !! j = Some (s, b) ->
       oks !! i = Some true -> oks !! j = Some false).
Proof.
  intros Hfits Hpos.
  destruct (observe_all_window size max_seq Hfits packets _ _ (new_window size max_seq Hfits) Hpos) as (d' & Ho & _).
  eexists d', _. split_and!; [exact Ho|done|]. intros i j s a b. apply window_no_replay.
Qed.

(** A window whose size modulo 64 is above 32 forgets: its most significant
    mask keeps [64 - size mod 64] bits instead of [size mod 64], so with the
    size 60 a packet is accepted, four more are, and the first is accepted a
    second time although it is well inside the window. *)
Theorem replay_window_forgets {P : Profile} : exists d',
  observe_all (SlidingWindowDetector_new 60 281474976710655) [(1, true); (5, true); (1, true)]
    = Ok ([true; true; true], d').
Proof. destruct P as [[]]; eexists; vm_compute; reflexivity. Qed.

(** The wrapping detector forgets the numbers before a wrap: its [accept] marks
    bit [latest_seq - seq] although [seq] lies on the other side. *)
Lemma wrapped_detector_forgets {P : Profile} : exists d',
  observe_all (mkWrappedSlidingWindowDetector false 0 0 65535 64 (FixedBigInt_new 64) false)
    [(65534, true); (2, true); (65535, true); (65535, true)] = Ok ([true; true; true; true], d').
Proof. destruct P as [[]]; eexists; vm_compute; reflexivity. Qed.

Section examples.
Local Existing Instance dev_profile.

Lemma replay_detector_refines_witness : exists d',
  observe_all (SlidingWindowDetector_new 64 281474976710655)
    [(1, true); (3, true); (2, false); (2, true); (1, true); (100, true); (3, true)]
  = Ok ([true; true; false; true; false; true; false], d').
Proof.
  destruct (replay_detector_refines 64 281474976710655
    [(1, true); (3, true); (2, false); (2, true); (1, true); (100, true); (3, true)]) as (d' & oks & -> & -> & _).
  - split; [lia|vm_compute; discriminate|vm_compute; reflexivity].
  - repeat constructor; cbn; lia.
  - exists d'. do 2 f_equal.
Defined.
End examples.
