(* ===== verification/Buffer.v ===== *)
(** The packet buffer of [util/buffer/mod.rs]: packets with a two-byte length in
    front, in a ring of bytes that grows on demand.  The theorems relate it to a
    plain queue of packets.

    Every call runs under the lock of [Buffer]; [read_attempt] is one round of
    the loop of [read], up to the wait. *)
From S2P Require Import Prelude.

(** The variants of [util::Error] that the buffer returns. *)
Inductive UtilError : Type :=
  | ErrBufferFull
  | ErrBufferClosed
  | ErrBufferShort
  | ErrPacketTooBig
  | ErrTimeout.

Definition MIN_SIZE : Z := 2048.
Definition CUTOFF_SIZE : Z := 128 * 1024.
Definition MAX_SIZE : Z := 4 * 1024 * 1024.

Record BufferInternal := mkBufferInternal {
  b_data : bytes;
  b_head : Z;
  b_tail : Z;
  b_closed : bool;
  b_subs : bool;
  b_count : Z;
  b_limit_count : Z;
  b_limit_size : Z;
  b_notified : bool
}.

#[export] Instance BufferInternal_settable : Settable BufferInternal := fun b =>
  mkBufferInternal (b_data b) (b_head b) (b_tail b) (b_closed b) (b_subs b) (b_count b)
    (b_limit_count b) (b_limit_size b) (b_notified b).

Definition Buffer_new (limit_count limit_size : Z) : BufferInternal :=
  mkBufferInternal [] 0 0 false false 0 limit_count limit_size false.

Abbreviation BM A := (ST BufferInternal UtilError A).

Definition data_length (b : BufferInternal) : Z := Z.of_nat (length (b_data b)).

(** [data[a..b]], [data[i]] and the stores through them *)
Definition data_slice {E} (d : bytes) (a b : Z) : res E bytes :=
  if (0 <=? a) && (0 <=? b) then slice d (Z.to_nat a) (Z.to_nat b) else Panic.

Definition data_index {E} (d : bytes) (i : Z) : res E byte :=
  if 0 <=? i then index d (Z.to_nat i) else Panic.

Definition data_set {E} (d : bytes) (i : Z) (x : byte) : res E bytes :=
  if (0 <=? i) && (i <? Z.of_nat (length d)) then Ok (<[Z.to_nat i := x]> d) else Panic.

(** [data[a..b].copy_from_slice(src)]: the lengths must agree. *)
Definition copy_from_slice {E} (d : bytes) (a b : Z) (src : bytes) : res E bytes :=
  if (0 <=? a) && (a <=? b) && (b <=? Z.of_nat (length d)) && (b - a =? Z.of_nat (length src))
  then Ok (take (Z.to_nat a) d ++ src ++ drop (Z.to_nat b) d)
  else Panic.

Definition available (b : BufferInternal) (size : Z) : bool :=
  let available := b_head b - b_tail b in
  let available := if available <=? 0 then available + data_length b else available in
  size + 2 <? available.

Definition b_size (b : BufferInternal) : Z :=
  let size := b_tail b - b_head b in
  if size <? 0 then size + data_length b else size.

Section ops.
Context {P : Profile}.

Definition grow (b : BufferInternal) : res UtilError BufferInternal :=
  let newsize := if data_length b <? CUTOFF_SIZE then 2 * data_length b else 5 * data_length b / 4 in
  let newsize := if newsize <? MIN_SIZE then MIN_SIZE else newsize in
  let newsize := if (b_limit_size b =? 0) && (newsize >? MAX_SIZE) then MAX_SIZE else newsize in
  newsize ← (if b_limit_size b >? 0 then
               limit ← add64 (b_limit_size b) 1;
               Ok (if newsize >? limit then limit else newsize)
             else Ok newsize);
  if newsize <=? data_length b then Err ErrBufferFull
  else
    let newdata := replicate (Z.to_nat newsize) Byte.x00 in
    '(newdata, n) ← (if b_head b <=? b_tail b then
        let n := b_tail b - b_head b in
        src ← data_slice (b_data b) (b_head b) (b_tail b);
        newdata ← copy_from_slice newdata 0 n src;
        Ok (newdata, n)
      else
        let n := data_length b - b_head b in
        src ← data_slice (b_data b) (b_head b) (data_length b);
        newdata ← copy_from_slice newdata 0 n src;
        src ← data_slice (b_data b) 0 (b_tail b);
        newdata ← copy_from_slice newdata n (n + b_tail b) src;
        Ok (newdata, n + b_tail b));
    Ok (b <| b_head := 0 |> <| b_tail := n |> <| b_data := newdata |>).

(** [while !b.available(packet.len()) { b.grow()?; }] *)
Fixpoint grow_loop (fuel : nat) (size : Z) (b : BufferInternal) : res UtilError BufferInternal * BufferInternal :=
  if available b size then (Ok b, b)
  else
    match fuel with
    | O => (OutOfFuel, b)
    | S fuel' =>
        match grow b with
        | Ok b' => grow_loop fuel' size b'
        | Err e => (Err e, b)
        | Panic => (Panic, b)
        | OutOfFuel => (OutOfFuel, b)
        end
    end.

(** Stores one byte at the tail and moves on. *)
Definition put_tail (b : BufferInternal) (x : byte) : res UtilError BufferInternal :=
  data ← data_set (b_data b) (b_tail b) x;
  let tail := b_tail b + 1 in
  Ok (b <| b_data := data |> <| b_tail := if tail >=? Z.of_nat (length data) then 0 else tail |>).

(** The bytes of the packet, in one or two pieces. *)
Definition store_packet (packet : bytes) (b : BufferInternal) : res UtilError BufferInternal :=
  let len := Z.of_nat (length packet) in
  let e := Z.min (data_length b) (b_tail b + len) in
  let n := e - b_tail b in
  src ← data_slice packet 0 n;
  data ← copy_from_slice (b_data b) (b_tail b) e src;
  let b := b <| b_data := data |> <| b_tail := b_tail b + n |> in
  if b_tail b >=? data_length b then
    let m := len - n in
    src ← data_slice packet n len;
    data ← copy_from_slice (b_data b) 0 m src;
    Ok (b <| b_data := data |> <| b_tail := m |>)
  else Ok b.

(** The packet, with its length in front, at the tail. *)
Definition store (packet : bytes) (b : BufferInternal) : res UtilError BufferInternal :=
  let len := Z.of_nat (length packet) in
  b ← put_tail b (byte_of_u8 (Z.shiftr len 8));
  b ← put_tail b (byte_of_u8 len);
  store_packet packet b.

Definition buffer_write (packet : bytes) : BM Z := fun b =>
  let len := Z.of_nat (length packet) in
  if len >=? 65536 then (Err ErrPacketTooBig, b)
  else if b_closed b then (Err ErrBufferClosed, b)
  else if ((b_limit_count b >? 0) && (b_count b >=? b_limit_count b))
          || ((b_limit_size b >? 0) && (b_size b + 2 + len >? b_limit_size b))
  then (Err ErrBufferFull, b)
  else
    match grow_loop (length packet + 4) len b with
    | (Ok b, _) =>
        match store packet b with
        | Ok b =>
            let b := b <| b_count ::= Z.succ |> in
            let b := if b_subs b then b <| b_notified := true |> <| b_subs := false |> else b in
            (Ok len, b)
        | Err e => (Err e, b)
        | Panic => (Panic, b)
        | OutOfFuel => (OutOfFuel, b)
        end
    | (Err e, b) => (Err e, b)
    | (Panic, b) => (Panic, b)
    | (OutOfFuel, b) => (OutOfFuel, b)
    end.

(** Takes one byte at the head. *)
Definition take_head (b : BufferInternal) : res UtilError (byte * BufferInternal) :=
  x ← data_index (b_data b) (b_head b);
  let head := b_head b + 1 in
  Ok (x, b <| b_head := if head >=? data_length b then 0 else head |>).

(** One round of [read] on a non-empty buffer: the result and the slice. *)
Definition take_packet (packet : bytes) (b : BufferInternal) :
    res UtilError (res UtilError Z * bytes * BufferInternal) :=
  '(n1, b) ← take_head b;
  '(n2, b) ← take_head b;
  let count := Z.lor (Z.shiftl (u8_of_byte n1) 8) (u8_of_byte n2) in
  let copied := if count >? Z.of_nat (length packet) then Z.of_nat (length packet) else count in
  packet ← (if b_head b + copied <? data_length b then
      src ← data_slice (b_data b) (b_head b) (b_head b + copied);
      copy_from_slice packet 0 copied src
    else
      let k := data_length b - b_head b in
      src ← data_slice (b_data b) (b_head b) (data_length b);
      packet ← copy_from_slice packet 0 k src;
      src ← data_slice (b_data b) 0 (copied - k);
      copy_from_slice packet k copied src);
  let head := b_head b + count in
  let b := b <| b_head := if head >=? data_length b then head - data_length b else head |> in
  let b := if b_head b =? b_tail b then b <| b_head := 0 |> <| b_tail := 0 |> else b in
  n ← sub64 (b_count b) 1;
  let b := b <| b_count := n |> in
  Ok (if copied <? count then Err ErrBufferShort else Ok copied, packet, b).

(** [Ok None]: the reader waits. *)
Definition read_attempt (packet : bytes) : BM (option (res UtilError Z * bytes)) := fun b =>
  if negb (b_head b =? b_tail b) then
    match take_packet packet b with
    | Ok (r, packet, b) => (Ok (Some (r, packet)), b)
    | Err e => (Err e, b)
    | Panic => (Panic, b)
    | OutOfFuel => (OutOfFuel, b)
    end
  else
    let b := b <| b_subs := true |> in
    if b_closed b then (Err ErrBufferClosed, b) else (Ok None, b).

Definition buffer_close : BM unit :=
  st_modify (fun b => if b_closed b then b else b <| b_closed := true |>).
End ops.

(** * The ring *)

(** The bytes from the head to the tail: in one piece, or in two around the end
    of the vector.  A byte is always free. *)
Inductive ring (d : bytes) (h t : Z) : bytes -> Prop :=
  | ring_straight A c C : d = A ++ c ++ C -> C <> [] ->
      h = Z.of_nat (length A) -> t = Z.of_nat (length A + length c) -> ring d h t c
  | ring_wrapped c2 G c1 : d = c2 ++ G ++ c1 -> G <> [] -> c1 <> [] ->
      h = Z.of_nat (length c2 + length G) -> t = Z.of_nat (length c2) -> ring d h t (c1 ++ c2).

Lemma length_pos {A} (l : list A) : l <> [] -> (0 < length l)%nat.
Proof. destruct l; [done|cbn; lia]. Qed.

Ltac ring_len :=
  repeat match goal with H : ?l <> [] |- _ => apply length_pos in H end;
  subst; rewrite ?length_app, ?length_take, ?length_drop, ?length_replicate in *; lia.

Lemma ring_bounds d h t c : ring d h t c ->
  0 <= h < Z.of_nat (length d) /\ 0 <= t < Z.of_nat (length d) /\ (length c < length d)%nat.
Proof. destruct 1; ring_len. Qed.

Lemma ring_size d h t c : ring d h t c ->
  (if t - h <? 0 then t - h + Z.of_nat (length d) else t - h) = Z.of_nat (length c).
Proof. destruct 1; destruct (Z.ltb_spec (t - h) 0); ring_len. Qed.

Lemma ring_free d h t c : ring d h t c ->
  (if h - t <=? 0 then h - t + Z.of_nat (length d) else h - t) = Z.of_nat (length d) - Z.of_nat (length c).
Proof. destruct 1; destruct (Z.leb_spec (h - t) 0); ring_len. Qed.

Lemma ring_empty d h t c : ring d h t c -> (h = t <-> c = []).
Proof.
  intros H. pose proof (ring_size _ _ _ _ H) as Hs. pose proof (ring_bounds _ _ _ _ H) as Hb. split.
  - intros ->. rewrite Z.sub_diag in Hs. cbn in Hs. destruct c; [done|cbn in Hs; lia].
  - intros ->. cbn in Hs. destruct (Z.ltb_spec (t - h) 0); lia.
Qed.

(** What a write of the block [w] at the tail leaves: the vector and the tail. *)
Definition ring_put (d : bytes) (t : Z) (w : bytes) : bytes * Z :=
  let room := Z.to_nat (Z.of_nat (length d) - t) in
  if (length w <? room)%nat then (take (Z.to_nat t) d ++ w ++ drop (Z.to_nat t + length w) d, t + Z.of_nat (length w))
  else (drop room w ++ drop (length w - room) (take (Z.to_nat t) d) ++ take room w,
        Z.of_nat (length w) - (Z.of_nat (length d) - t)).

Lemma ring_put_spec d h t c w : ring d h t c -> (length c + length w < length d)%nat ->
  ring (fst (ring_put d t w)) h (snd (ring_put d t w)) (c ++ w) /\
  length (fst (ring_put d t w)) = length d.
Proof.
  intros Hr Hw. pose proof (ring_bounds _ _ _ _ Hr) as (_ & Ht & _). unfold ring_put.
  destruct (Nat.ltb_spec (length w) (Z.to_nat (Z.of_nat (length d) - t))) as [Hlt|Hge]; cbn [fst snd].
  - split; [|rewrite !length_app, length_take, length_drop; lia].
    destruct Hr as [A c C Hd HC Hh Ht'|c2 G c1 Hd HG Hc1 Hh Ht'].
    + assert (HC' : (length w < length C)%nat) by ring_len.
      assert (H1 : take (Z.to_nat t) d = A ++ c).
      { rewrite Hd, app_assoc. apply take_app_length'. ring_len. }
      assert (H2 : drop (Z.to_nat t + length w) d = drop (length w) C).
      { rewrite Hd, app_assoc, drop_app_ge by ring_len. f_equal. ring_len. }
      rewrite H1, H2.
      apply (ring_straight _ _ _ A (c ++ w) (drop (length w) C)).
      * by rewrite <- !app_assoc.
      * intros H%(f_equal length). rewrite length_drop in H. cbn in H. lia.
      * done.
      * rewrite length_app. lia.
    + assert (HG' : (length w < length G)%nat) by ring_len.
      assert (H1 : take (Z.to_nat t) d = c2) by (rewrite Hd; apply take_app_length'; lia).
      assert (H2 : drop (Z.to_nat t + length w) d = drop (length w) G ++ c1).
      { rewrite Hd, drop_app_ge, drop_app_le by lia. do 2 f_equal. lia. }
      rewrite H1, H2, <- (app_assoc c1).
      apply (ring_wrapped _ _ _ (c2 ++ w) (drop (length w) G) c1).
      * by rewrite <- !app_assoc.
      * intros H%(f_equal length). rewrite length_drop in H. cbn in H. lia.
      * done.
      * rewrite length_app, length_drop. lia.
      * rewrite length_app. lia.
  - destruct Hr as [A c C Hd HC Hh Ht'|c2 G c1 Hd HG Hc1 Hh Ht']; [|exfalso; ring_len].
    assert (Hroom : Z.to_nat (Z.of_nat (length d) - t) = length C) by ring_len. rewrite Hroom in *.
    assert (HwA : (length w - length C < length A)%nat) by ring_len.
    assert (H1 : take (Z.to_nat t) d = A ++ c).
    { rewrite Hd, app_assoc. apply take_app_length'. ring_len. }
    rewrite H1, drop_app_le by lia.
    split; [|ring_len].
    replace (c ++ w) with ((c ++ take (length C) w) ++ drop (length C) w) by (by rewrite <- app_assoc, take_drop).
    apply (ring_wrapped _ _ _ (drop (length C) w) (drop (length w - length C) A) (c ++ take (length C) w)).
    + by rewrite <- !app_assoc.
    + intros H%(f_equal length). rewrite length_drop in H. cbn in H. lia.
    + intros [_ H%(f_equal length)]%app_nil. rewrite length_take in H. apply length_pos in HC. cbn in H. lia.
    + rewrite !length_drop. lia.
    + ring_len.
Qed.

(** Reads at the head. *)
Lemma ring_get d h t c k : ring d h t c -> (k <= length c)%nat ->
  let room := Z.to_nat (Z.of_nat (length d) - h) in
  take k c = if (k <? room)%nat then take k (drop (Z.to_nat h) d)
             else drop (Z.to_nat h) d ++ take (k - room) d.
Proof.
  intros Hr Hk. cbv zeta. destruct Hr as [A c C Hd HC Hh Ht|c2 G c1 Hd HG Hc1 Hh Ht].
  - rewrite ltb_true by ring_len. rewrite Hh, Nat2Z.id, Hd, drop_app_length, take_app_le; [done|lia].
  - assert (Hroom : Z.to_nat (Z.of_nat (length d) - h) = length c1) by ring_len. rewrite Hroom.
    assert (Hdrop : drop (Z.to_nat h) d = c1).
    { rewrite Hd, Hh, Nat2Z.id, app_assoc. by apply drop_app_length'; rewrite length_app. }
    rewrite Hdrop. destruct (Nat.ltb_spec k (length c1)); [by apply take_app_le; lia|].
    rewrite take_app_ge by lia. f_equal. rewrite length_app in Hk. rewrite Hd. by rewrite take_app_le by lia.
Qed.

Lemma ring_advance d h t c k : ring d h t c -> (k <= length c)%nat ->
  let h' := h + Z.of_nat k in
  ring d (if h' >=? Z.of_nat (length d) then h' - Z.of_nat (length d) else h') t (drop k c).
Proof.
  intros Hr Hk. cbv zeta. destruct Hr as [A c C Hd HC Hh Ht|c2 G c1 Hd HG Hc1 Hh Ht].
  - destruct (Z.geb_spec (h + Z.of_nat k) (Z.of_nat (length d))); [exfalso; ring_len|].
    apply (ring_straight _ _ _ (A ++ take k c) (drop k c) C).
    + rewrite Hd, <- !app_assoc. f_equal. by rewrite app_assoc, take_drop.
    + done.
    + rewrite length_app, length_take. lia.
    + rewrite length_app, length_take, length_drop. lia.
  - rewrite length_app in Hk.
    assert (Hl : Z.of_nat (length d) - h = Z.of_nat (length c1)) by ring_len.
    destruct (Z.geb_spec (h + Z.of_nat k) (Z.of_nat (length d))).
    + assert (Hk1 : (length c1 <= k)%nat) by lia.
      replace (drop k (c1 ++ c2)) with (drop (k - length c1) c2) by (by rewrite drop_app_ge).
      apply (ring_straight _ _ _ (take (k - length c1) c2) (drop (k - length c1) c2) (G ++ c1)).
      * by rewrite app_assoc, take_drop.
      * intros [? ?]%app_nil. done.
      * rewrite length_take. lia.
      * rewrite length_take, length_drop. lia.
    + rewrite drop_app_le by lia.
      apply (ring_wrapped _ _ _ c2 (G ++ take k c1) (drop k c1)).
      * rewrite <- app_assoc, take_drop. done.
      * intros [? ?]%app_nil. done.
      * intros H'%(f_equal length). rewrite length_drop in H'. cbn in H'. lia.
      * rewrite length_app, length_take. lia.
      * done.
Qed.

Lemma data_slice_mid {E} (d p m s : bytes) a e : d = p ++ m ++ s -> a = Z.of_nat (length p) ->
  e = Z.of_nat (length p + length m) -> data_slice (E := E) d a e = Ok m.
Proof.
  intros -> -> ->. unfold data_slice. destruct (Z.leb_spec 0 (Z.of_nat (length p))); [|lia].
  destruct (Z.leb_spec 0 (Z.of_nat (length p + length m))); [|lia]. cbn [andb]. rewrite !Nat2Z.id.
  by apply (slice_app _ p m s).
Qed.

Lemma copy_into {E} (d p m s src : bytes) a e : d = p ++ m ++ s -> a = Z.of_nat (length p) ->
  e = Z.of_nat (length p + length m) -> length src = length m ->
  copy_from_slice (E := E) d a e src = Ok (p ++ src ++ s).
Proof.
  intros -> -> -> Hl. unfold copy_from_slice.
  destruct (Z.leb_spec 0 (Z.of_nat (length p))); [|lia].
  destruct (Z.leb_spec (Z.of_nat (length p)) (Z.of_nat (length p + length m))); [|lia].
  destruct (Z.leb_spec (Z.of_nat (length p + length m)) (Z.of_nat (length (p ++ m ++ s)))); [|ring_len].
  destruct (Z.eqb_spec (Z.of_nat (length p + length m) - Z.of_nat (length p)) (Z.of_nat (length src))); [|lia].
  cbn [andb]. rewrite !Nat2Z.id, take_app_length, (app_assoc p m s), drop_app_length' by (rewrite length_app; lia).
  done.
Qed.

Lemma copy_front {E} (d m s src : bytes) e : d = m ++ s -> e = Z.of_nat (length m) ->
  length src = length m -> copy_from_slice (E := E) d 0 e src = Ok (src ++ s).
Proof. intros Hd He Hl. by apply (copy_into d [] m s). Qed.

Lemma data_slice_front {E} (d m s : bytes) e : d = m ++ s -> e = Z.of_nat (length m) ->
  data_slice (E := E) d 0 e = Ok m.
Proof. intros Hd He. by apply (data_slice_mid d [] m s). Qed.

(** The size the vector can grow to. *)
Definition capacity (b : BufferInternal) : Z := if b_limit_size b >? 0 then b_limit_size b + 1 else MAX_SIZE.

Record ring_of (b : BufferInternal) (c : bytes) : Prop := {
  ro_ring : ring (b_data b) (b_head b) (b_tail b) c \/
            b_data b = [] /\ b_head b = 0 /\ b_tail b = 0 /\ c = [];
  ro_cap : data_length b <= capacity b;
  ro_limit : 0 <= b_limit_size b < 2 ^ 64 - 1
}.

Lemma ring_of_free b c size : ring_of b c ->
  available b size = (size + 2 <? data_length b - Z.of_nat (length c)).
Proof.
  intros [[Hr|(Hd & Hh & Ht & ->)] _ _]; unfold available; fold (data_length b).
  - pose proof (ring_free _ _ _ _ Hr) as Hf. fold (data_length b) in Hf. by rewrite Hf.
  - rewrite Hh, Ht, Z.sub_diag, Z.leb_refl. cbn [length]. f_equal. lia.
Qed.

Lemma ring_of_size b c : ring_of b c -> b_size b = Z.of_nat (length c).
Proof.
  intros [[Hr|(Hd & Hh & Ht & ->)] _ _]; unfold b_size, data_length; [by apply (ring_size _ _ _ _ Hr)|]. by rewrite Hh, Ht.
Qed.

Lemma ring_of_length b c : ring_of b c -> Z.of_nat (length c) <= data_length b.
Proof.
  intros [[Hr|(Hd & Hh & Ht & ->)] _ _]; [apply ring_bounds in Hr; unfold data_length; lia|].
  unfold data_length. cbn. lia.
Qed.

Section grow.
Context {P : Profile}.

Lemma grow_spec b c : ring_of b c ->
  if data_length b <? capacity b then
    exists d, grow b = Ok (b <| b_head := 0 |> <| b_tail := Z.of_nat (length c) |> <| b_data := d |>) /\
      ring d 0 (Z.of_nat (length c)) c /\ data_length b < Z.of_nat (length d) <= capacity b
  else grow b = Err ErrBufferFull.
Proof.
  intros Hb. pose proof (ring_of_length b c Hb) as Hlen. destruct Hb as [Hr Hcap Hlim].
  unfold grow. set (len := data_length b) in *.
  set (s0 := if len <? CUTOFF_SIZE then 2 * len else 5 * len / 4).
  set (s1 := if s0 <? MIN_SIZE then MIN_SIZE else s0).
  set (s2 := if (b_limit_size b =? 0) && (s1 >? MAX_SIZE) then MAX_SIZE else s1).
  assert (Hs1 : len < s1).
  { unfold s1, s0, MIN_SIZE, CUTOFF_SIZE. destruct (Z.ltb_spec len (128 * 1024)).
    - destruct (Z.ltb_spec (2 * len) 2048); lia.
    - destruct (Z.ltb_spec (5 * len / 4) 2048); Z.div_mod_to_equations; lia. }
  assert (Hsize : (if b_limit_size b >? 0 then
      limit ← add64 (b_limit_size b) 1; Ok (if s2 >? limit then limit else s2) else Ok s2)
      = Ok (E := UtilError) (Z.min s1 (capacity b))).
  { unfold s2, capacity in *. destruct (Z.gtb_spec (b_limit_size b) 0), (Z.eqb_spec (b_limit_size b) 0); try lia; cbn [andb].
    - rewrite arith_ok by (unfold in_range; lia). cbn. f_equal. destruct (Z.gtb_spec s1 (b_limit_size b + 1)); lia.
    - f_equal. destruct (Z.gtb_spec s1 MAX_SIZE); lia. }
  rewrite Hsize. cbn [mbind res_bind].
  destruct (Z.ltb_spec len (capacity b)), (Z.leb_spec (Z.min s1 (capacity b)) len); try lia; [|done].
  set (size := Z.min s1 (capacity b)) in *.
  assert (Hszc : size <= capacity b) by (unfold size; lia). clearbody s0 s1 s2 size.
  assert (Hzeros : forall m : bytes, Z.of_nat (length m) <= len ->
    exists G, replicate (Z.to_nat size) Byte.x00 = replicate (length m) Byte.x00 ++ G /\ G <> []).
  { intros m Hm. exists (replicate (Z.to_nat size - length m) Byte.x00). split.
    - rewrite <- replicate_add. f_equal. lia.
    - intros H'%(f_equal length). rewrite length_replicate in H'. cbn in H'. lia. }
  destruct (Hzeros c Hlen) as (G & HG & HGne).
  exists (c ++ G). split; [|split].
  - assert (Hcopy : (if b_head b <=? b_tail b then
        src ← data_slice (b_data b) (b_head b) (b_tail b);
        newdata ← copy_from_slice (replicate (Z.to_nat size) Byte.x00) 0 (b_tail b - b_head b) src;
        Ok (newdata, b_tail b - b_head b)
      else
        src ← data_slice (b_data b) (b_head b) len;
        newdata ← copy_from_slice (replicate (Z.to_nat size) Byte.x00) 0 (len - b_head b) src;
        src ← data_slice (b_data b) 0 (b_tail b);
        newdata ← copy_from_slice newdata (len - b_head b) (len - b_head b + b_tail b) src;
        Ok (newdata, len - b_head b + b_tail b))
      = Ok (E := UtilError) (c ++ G, Z.of_nat (length c))).
    { destruct Hr as [Hr|(Hd & Hh & Ht & ->)].
      - destruct Hr as [A c C Hd HC Hh Ht|c2 G' c1 Hd HG' Hc1 Hh Ht].
        + rewrite Hh, Ht. destruct (Z.leb_spec (Z.of_nat (length A)) (Z.of_nat (length A + length c))); [|lia].
          rewrite (data_slice_mid _ A c C) by done. cbn [mbind res_bind].
          rewrite (copy_front _ (replicate (length c) Byte.x00) G)
            by (rewrite ?length_replicate; done || lia).
          cbn [mbind res_bind]. do 2 f_equal. lia.
        + assert (Hl : len - b_head b = Z.of_nat (length c1)) by (unfold len, data_length; rewrite Hd, Hh; ring_len).
          assert (Hlen' : len = Z.of_nat (length c2 + length G' + length c1)) by lia.
          rewrite Hl, Hh, Ht. apply length_pos in HG' as HGp.
          destruct (Z.leb_spec (Z.of_nat (length c2 + length G')) (Z.of_nat (length c2))); [lia|].
          rewrite (data_slice_mid (b_data b) (c2 ++ G') c1 [] (Z.of_nat (length c2 + length G')) len);
            [|by rewrite app_nil_r, <- app_assoc|by rewrite length_app|rewrite length_app; lia].
          cbn [mbind res_bind]. rewrite length_app, replicate_add in HG.
          rewrite <- app_assoc in HG.
          rewrite (copy_front _ (replicate (length c1) Byte.x00) (replicate (length c2) Byte.x00 ++ G))
            by (rewrite ?length_replicate; done || lia).
          cbn [mbind res_bind app]. rewrite (data_slice_front _ c2 (G' ++ c1)) by (done || lia).
          cbn [mbind res_bind].
          rewrite (copy_into _ c1 (replicate (length c2) Byte.x00) G) by (rewrite ?length_replicate; done || lia).
          cbn. rewrite app_assoc. do 2 f_equal. rewrite length_app. lia.
      - rewrite Hh, Ht, Hd. cbn [Z.leb Z.compare Z.sub Z.add Z.opp].
        rewrite (data_slice_front [] [] []) by done. cbn [mbind res_bind].
        by rewrite (copy_front _ [] G [] 0). }
    rewrite Hcopy. done.
  - apply (ring_straight _ _ _ [] c G); cbn; done || lia.
  - apply (f_equal length) in HG. rewrite length_replicate, length_app, length_replicate in HG.
    rewrite length_app. lia.
Qed.

Lemma grow_loop_spec size c fuel : forall b, ring_of b c ->
  0 <= size -> size + 3 - (data_length b - Z.of_nat (length c)) <= Z.of_nat fuel ->
  if size + 2 + Z.of_nat (length c) <? capacity b then
    exists d h t, let b' := b <| b_head := h |> <| b_tail := t |> <| b_data := d |> in
      grow_loop fuel size b = (Ok b', b') /\ ring d h t c /\ ring_of b' c /\
      size + 2 < Z.of_nat (length d) - Z.of_nat (length c)
  else exists b', grow_loop fuel size b = (Err ErrBufferFull, b') /\ ring_of b' c /\
      b_count b' = b_count b /\ b_limit_count b' = b_limit_count b /\ b_limit_size b' = b_limit_size b /\
      b_closed b' = b_closed b.
Proof.
  induction fuel as [|fuel IH]; intros b Hb Hs Hfuel; pose proof (ring_of_length b c Hb) as Hlen;
    cbn [grow_loop]; rewrite (ring_of_free b c size Hb);
    destruct (Z.ltb_spec (size + 2) (data_length b - Z.of_nat (length c))) as [Hav|Hav]; try lia.
  1,2: pose proof (ro_cap _ _ Hb) as Hcap;
    destruct (Z.ltb_spec (size + 2 + Z.of_nat (length c)) (capacity b)); [|lia];
    exists (b_data b), (b_head b), (b_tail b); cbn zeta; destruct b as [d h t a e f g i j];
    split; [done|]; destruct (ro_ring _ _ Hb) as [Hr|(Hd & _ & _ & ->)];
    [split_and!; [done|done|exact Hav]|cbn in Hd; subst d; unfold data_length in Hav; cbn in Hav; lia].
  pose proof (grow_spec b c Hb) as Hg. destruct (Z.ltb_spec (data_length b) (capacity b)) as [Hlt|Hge].
  - destruct Hg as (d & Hg & Hr & Hd). rewrite Hg.
    set (b1 := b <| b_head := 0 |> <| b_tail := Z.of_nat (length c) |> <| b_data := d |>).
    assert (Hb1 : ring_of b1 c).
    { split; [left; exact Hr| |apply (ro_limit _ _ Hb)]. change (capacity b1) with (capacity b).
      unfold data_length. cbn. lia. }
    assert (Hlen1 : data_length b1 = Z.of_nat (length d)) by done.
    specialize (IH b1 Hb1 Hs ltac:(lia)). change (capacity b1) with (capacity b) in IH.
    destruct (Z.ltb_spec (size + 2 + Z.of_nat (length c)) (capacity b)).
    + exact IH.
    + destruct IH as (b' & H1 & H2 & H3). exists b'. split; [exact H1|]. split; [exact H2|exact H3].
  - rewrite Hg. destruct (Z.ltb_spec (size + 2 + Z.of_nat (length c)) (capacity b)); [lia|]. exists b. done.
Qed.
End grow.

(** * Packets in the ring *)
Definition frame (p : bytes) : bytes :=
  [byte_of_u8 (Z.shiftr (Z.of_nat (length p)) 8); byte_of_u8 (Z.of_nat (length p))] ++ p.

Lemma frame_length p : length (frame p) = (2 + length p)%nat.
Proof. done. Qed.

Lemma word_of_bytes (p : bytes) : Z.of_nat (length p) < 65536 ->
  Z.lor (Z.shiftl (u8_of_byte (byte_of_u8 (Z.shiftr (Z.of_nat (length p)) 8))) 8)
    (u8_of_byte (byte_of_u8 (Z.of_nat (length p)))) = Z.of_nat (length p).
Proof.
  intros Hp. rewrite !u8_of_byte_of_u8, Z.shiftr_div_pow2 by lia. unfold wrap.
  set (n := Z.of_nat (length p)). assert (Hn : 0 <= n < 65536) by lia. clearbody n.
  rewrite (Z.mod_small (n / 2 ^ 8)) by (change (2 ^ 8) with 256; Z.div_mod_to_equations; lia).
  pose proof (Z.add_lor_land (Z.shiftl (n / 2 ^ 8) 8) (n mod 2 ^ 8)) as H.
  assert (Hz : Z.land (Z.shiftl (n / 2 ^ 8) 8) (n mod 2 ^ 8) = 0).
  { apply Z.bits_inj'. intros k Hk. rewrite Z.land_spec, Z.bits_0, Z.shiftl_spec by done.
    destruct (Z.ltb_spec k 8); [rewrite Z.testbit_neg_r by lia; done|].
    rewrite Z.mod_pow2_bits_high by lia. apply andb_false_r. }
  rewrite Hz, Z.add_0_r in H. rewrite H, Z.shiftl_mul_pow2 by lia.
  change (2 ^ 8) with 256. Z.div_mod_to_equations. lia.
Qed.

Lemma put_tail_spec b x : 0 <= b_tail b < data_length b ->
  put_tail b x = Ok (b <| b_data := fst (ring_put (b_data b) (b_tail b) [x]) |>
                       <| b_tail := snd (ring_put (b_data b) (b_tail b) [x]) |>).
Proof.
  intros Ht. unfold put_tail, data_set, ring_put, data_length in *. destruct b as [d h t a e f g i j].
  cbn [b_data b_tail] in *. destruct (Z.leb_spec 0 t), (Z.ltb_spec t (Z.of_nat (length d))); try lia.
  cbn [andb mbind res_bind length]. rewrite length_insert, insert_take_drop by lia.
  destruct (Nat.ltb_spec 1 (Z.to_nat (Z.of_nat (length d) - t))), (Z.geb_spec (t + 1) (Z.of_nat (length d)));
    try lia; cbn [fst snd]; unfold set; cbn.
  - by replace (Z.to_nat t + 1)%nat with (S (Z.to_nat t)) by lia.
  - replace (Z.to_nat (Z.of_nat (length d) - t)) with 1%nat by lia.
    rewrite drop_ge by lia. cbn. do 2 f_equal; lia.
Qed.

Lemma store_packet_spec b p : 0 <= b_tail b < data_length b -> Z.of_nat (length p) < data_length b ->
  store_packet p b = Ok (b <| b_data := fst (ring_put (b_data b) (b_tail b) p) |>
                           <| b_tail := snd (ring_put (b_data b) (b_tail b) p) |>).
Proof.
  intros Ht Hp. unfold store_packet. destruct b as [d h t a e f g i j]. unfold data_length in *. cbn [b_data b_tail] in *. cbv zeta.
  unfold ring_put. set (room := Z.to_nat (Z.of_nat (length d) - t)).
  destruct (Nat.ltb_spec (length p) room) as [Hlt|Hge]; cbn [fst snd].
  - rewrite Z.min_r by lia. replace (t + Z.of_nat (length p) - t) with (Z.of_nat (length p)) by lia.
    rewrite (data_slice_front p p []) by (rewrite ?app_nil_r; done). cbn [mbind res_bind].
    rewrite (copy_into d (take (Z.to_nat t) d) (take (length p) (drop (Z.to_nat t) d))
               (drop (Z.to_nat t + length p) d)).
    + cbn [mbind res_bind]. unfold set. cbn [b_data b_tail].
      destruct (Z.geb_spec (t + Z.of_nat (length p)) (Z.of_nat (length (take (Z.to_nat t) d ++ p ++ drop (Z.to_nat t + length p) d))));
        [|done]. rewrite !length_app, length_take, length_drop in *. lia.
    + rewrite <- drop_drop, take_drop, take_drop. done.
    + rewrite length_take. lia.
    + rewrite !length_take, length_drop. lia.
    + rewrite length_take, length_drop. lia.
  - rewrite Z.min_l by lia. rewrite (data_slice_front p (take room p) (drop room p));
      [|by rewrite take_drop|rewrite length_take; lia]. cbn [mbind res_bind].
    rewrite (copy_into d (take (Z.to_nat t) d) (drop (Z.to_nat t) d) []);
      [|by rewrite app_nil_r, take_drop|rewrite length_take; lia|rewrite length_take, length_drop; lia
       |rewrite length_take, length_drop; lia].
    cbn [mbind res_bind]. unfold set. cbn [b_data b_tail].
    rewrite !length_app, !length_take. cbn [length].
    destruct (Z.geb_spec (t + (Z.of_nat (length d) - t))
      (Z.of_nat (Z.to_nat t `min` length d + (room `min` length p + 0)))); [|lia].
    rewrite (data_slice_mid p (take room p) (drop room p) []);
      [|by rewrite app_nil_r, take_drop|rewrite length_take; lia|rewrite length_take, length_drop; lia].
    cbn [mbind res_bind].
    rewrite (copy_front _ (take (length p - room) (take (Z.to_nat t) d))
      (drop (length p - room) (take (Z.to_nat t) d) ++ take room p ++ []));
      [|by rewrite (app_assoc (take _ _) (drop _ _)), take_drop|rewrite !length_take; lia
       |rewrite !length_take, length_drop; lia].
    cbn [mbind res_bind]. rewrite app_nil_r. done.
Qed.

Lemma store_spec b c p : ring (b_data b) (b_head b) (b_tail b) c ->
  (length c + (2 + length p) < length (b_data b))%nat ->
  exists d t, store p b = Ok (b <| b_data := d |> <| b_tail := t |>) /\
    ring d (b_head b) t (c ++ frame p) /\ length d = length (b_data b).
Proof.
  intros Hr Hl. unfold store. set (hi := byte_of_u8 (Z.shiftr (Z.of_nat (length p)) 8)).
  set (lo := byte_of_u8 (Z.of_nat (length p))).
  pose proof (ring_bounds _ _ _ _ Hr) as (_ & Ht & _).
  rewrite put_tail_spec by done. cbn [mbind res_bind].
  destruct (ring_put_spec _ _ _ c [hi] Hr ltac:(cbn; lia)) as [Hr1 Hl1].
  set (d1 := fst (ring_put (b_data b) (b_tail b) [hi])) in *.
  set (t1 := snd (ring_put (b_data b) (b_tail b) [hi])) in *.
  pose proof (ring_bounds _ _ _ _ Hr1) as (_ & Ht1 & _).
  rewrite put_tail_spec by exact Ht1. cbn [mbind res_bind].
  destruct (ring_put_spec _ _ _ _ [lo] Hr1 ltac:(rewrite length_app; cbn; lia)) as [Hr2 Hl2].
  pose proof (ring_bounds _ _ _ _ Hr2) as (_ & Ht2 & _).
  destruct (ring_put_spec _ _ _ _ p Hr2 ltac:(rewrite !length_app; cbn; lia)) as [Hr3 Hl3].
  rewrite store_packet_spec by (try exact Ht2; unfold data_length; cbn; lia).
  eexists _, _. split; [done|]. split; [|exact (eq_trans Hl3 (eq_trans Hl2 Hl1))].
  replace (c ++ frame p) with (((c ++ [hi]) ++ [lo]) ++ p); [exact Hr3|].
  unfold frame. by rewrite <- !app_assoc.
Qed.

Lemma take_head_spec b x c : ring (b_data b) (b_head b) (b_tail b) (x :: c) ->
  exists h, take_head b = Ok (x, b <| b_head := h |>) /\ ring (b_data b) h (b_tail b) c.
Proof.
  intros Hr. pose proof (ring_bounds _ _ _ _ Hr) as (Hh & _ & _).
  pose proof (ring_get _ _ _ _ 1 Hr ltac:(cbn; lia)) as Hg. cbv zeta in Hg.
  pose proof (ring_advance _ _ _ _ 1 Hr ltac:(cbn; lia)) as Ha. cbv zeta in Ha. cbn [drop] in Ha.
  assert (Hx : b_data b !! Z.to_nat (b_head b) = Some x).
  { destruct (lookup_lt_is_Some_2 (b_data b) (Z.to_nat (b_head b)) ltac:(lia)) as [y Hy].
    apply drop_S in Hy as Hd. rewrite Hd in Hg. destruct (_ <? _)%nat; cbn in Hg; by injection Hg as ->. }
  unfold take_head, data_index, index, data_length. destruct (Z.leb_spec 0 (b_head b)); [|lia]. rewrite Hx.
  cbn [mbind res_bind]. eexists. split; [done|]. 
  replace (if b_head b + 1 >=? Z.of_nat (length (b_data b)) then 0 else b_head b + 1)
    with (if b_head b + Z.of_nat 1 >=? Z.of_nat (length (b_data b)) then
            b_head b + Z.of_nat 1 - Z.of_nat (length (b_data b)) else b_head b + Z.of_nat 1); [exact Ha|].
  change (Z.of_nat 1) with 1. destruct (Z.geb_spec (b_head b + 1) (Z.of_nat (length (b_data b)))); lia.
Qed.

(** The copy into the reader's slice. *)
Lemma read_copy b c packet n : ring (b_data b) (b_head b) (b_tail b) c ->
  (n <= length packet)%nat -> (n <= length c)%nat ->
  (if b_head b + Z.of_nat n <? data_length b then
     src ← data_slice (b_data b) (b_head b) (b_head b + Z.of_nat n);
     copy_from_slice packet 0 (Z.of_nat n) src
   else
     let k := data_length b - b_head b in
     src ← data_slice (b_data b) (b_head b) (data_length b);
     packet ← copy_from_slice packet 0 k src;
     src ← data_slice (b_data b) 0 (Z.of_nat n - k);
     copy_from_slice packet k (Z.of_nat n) src)
  = Ok (E := UtilError) (take n c ++ drop n packet).
Proof.
  intros Hr Hp Hc. pose proof (ring_bounds _ _ _ _ Hr) as (Hh & _ & Hlen).
  rewrite (ring_get _ _ _ _ n Hr Hc). cbv zeta. unfold data_length.
  set (d := b_data b) in *. set (h := b_head b) in *. clearbody d h.
  destruct (Z.ltb_spec (h + Z.of_nat n) (Z.of_nat (length d))) as [Hlt|Hge].
  - rewrite ltb_true by lia.
    rewrite (data_slice_mid d (take (Z.to_nat h) d) (take n (drop (Z.to_nat h) d)) (drop n (drop (Z.to_nat h) d)));
      [|by rewrite !take_drop|rewrite length_take; lia|rewrite !length_take, length_drop; lia].
    cbn [mbind res_bind].
    rewrite (copy_front packet (take n packet) (drop n packet));
      [done|by rewrite take_drop|rewrite length_take; lia|rewrite !length_take, length_drop; lia].
  - rewrite ltb_false by lia. set (k := Z.to_nat (Z.of_nat (length d) - h)).
    rewrite (data_slice_mid d (take (Z.to_nat h) d) (drop (Z.to_nat h) d) [] h (Z.of_nat (length d)));
      [|by rewrite app_nil_r, take_drop|rewrite length_take; lia|rewrite length_take, length_drop; lia].
    cbn [mbind res_bind].
    rewrite (copy_front packet (take k packet) (drop k packet) _ (Z.of_nat (length d) - h));
      [|by rewrite take_drop|rewrite length_take; lia|rewrite length_take, length_drop; lia].
    cbn [mbind res_bind].
    rewrite (data_slice_front d (take (n - k) d) (drop (n - k) d));
      [|by rewrite take_drop|rewrite length_take; lia]. cbn [mbind res_bind].
    rewrite (copy_into _ (drop (Z.to_nat h) d) (take (n - k) (drop k packet)) (drop n packet));
      [by rewrite <- app_assoc| |rewrite length_drop; lia|rewrite length_take, !length_drop; lia
       |rewrite !length_take, !length_drop; lia].
    f_equal. rewrite <- (take_drop (n - k) (drop k packet)) at 1. rewrite drop_drop. do 2 f_equal. lia.
Qed.

(** * The queue the buffer stands for *)
Definition framed (q : list bytes) : bytes := concat (map frame q).

Record holds (b : BufferInternal) (q : list bytes) : Prop := {
  ho_ring : ring_of b (framed q);
  ho_count : b_count b = Z.of_nat (length q);
  ho_small : Forall (fun p => Z.of_nat (length p) < 65536) q
}.

Lemma framed_length q : (length q <= length (framed q))%nat.
Proof. induction q as [|p q IH]; [done|]. unfold framed in *. cbn. rewrite length_app. lia. Qed.

Lemma framed_app q p : framed (q ++ [p]) = framed q ++ frame p.
Proof. unfold framed. by rewrite map_app, concat_app, <- (app_nil_r (frame p)). Qed.

Section theorems.
Context {P : Profile}.

(** The buffer takes the packet: fewer packets than the limit, and room. *)
Definition admits (b : BufferInternal) (p : bytes) : Prop :=
  (0 < b_limit_count b -> b_count b < b_limit_count b) /\
  b_size b + 2 + Z.of_nat (length p) < capacity b.

#[export] Instance admits_dec b p : Decision (admits b p).
Proof. unfold admits. apply _. Defined.

Lemma take_packet_spec b p q buf : holds b (p :: q) ->
  exists b', take_packet buf b =
    Ok (if (length buf <? length p)%nat then Err ErrBufferShort else Ok (Z.of_nat (length p)),
        take (length buf) p ++ drop (length p) buf, b') /\
    holds b' q /\ b_closed b' = b_closed b /\ b_limit_count b' = b_limit_count b /\
    b_limit_size b' = b_limit_size b.
Proof.
  intros [[Hring Hcap Hlim] Hcount Hsmall]. pose proof Hsmall as Hp. apply Forall_cons in Hp as [Hp Hsmall'].
  destruct Hring as [Hr|(_ & _ & _ & Hr)]; [|done]. unfold framed in Hr. cbn [map concat app frame] in Hr.
  fold (framed q) in Hr. unfold take_packet.
  destruct (take_head_spec b _ _ Hr) as (h1 & -> & Hr1). cbn [mbind res_bind].
  set (b1 := b <| b_head := h1 |>).
  destruct (take_head_spec b1 (byte_of_u8 (Z.of_nat (length p))) (p ++ framed q) Hr1) as (h2 & -> & Hr2).
  cbn [mbind res_bind]. rewrite word_of_bytes by done.
  set (b2 := b1 <| b_head := h2 |>) in *.
  set (n := Nat.min (length p) (length buf)).
  assert (Hn : (if Z.of_nat (length p) >? Z.of_nat (length buf) then Z.of_nat (length buf)
                else Z.of_nat (length p)) = Z.of_nat n).
  { destruct (Z.gtb_spec (Z.of_nat (length p)) (Z.of_nat (length buf))); lia. }
  rewrite Hn. pose proof (read_copy b2 _ buf n Hr2 ltac:(lia) ltac:(rewrite length_app; lia)) as Hcopy.
  cbv zeta in Hcopy. rewrite Hcopy. cbn [mbind res_bind].
  pose proof (ring_advance _ _ _ _ (length p) Hr2 ltac:(rewrite length_app; lia)) as Hadv. cbv zeta in Hadv.
  rewrite drop_app_length in Hadv. fold (data_length b2) in Hadv.
  set (h3 := if b_head b2 + Z.of_nat (length p) >=? data_length b2
             then b_head b2 + Z.of_nat (length p) - data_length b2 else b_head b2 + Z.of_nat (length p)) in *.
  pose proof (framed_length (p :: q)) as Hfl. pose proof (ring_bounds _ _ _ _ Hr) as (_ & _ & Hbound).
  assert (Hcap64 : capacity b <= 2 ^ 64).
  { unfold capacity, MAX_SIZE. destruct (Z.gtb_spec (b_limit_size b) 0); lia. }
  assert (Hsub : forall b', b_count b' = b_count b ->
    sub64 (b_count b') 1 = Ok (E := UtilError) (Z.of_nat (length q))).
  { intros b' Hb'. rewrite Hb', Hcount. cbn [length] in *. rewrite arith_ok; [f_equal; lia|].
    unfold in_range, data_length in *. rewrite length_app in Hbound. cbn in Hbound.
    unfold framed in Hfl. cbn in Hfl. rewrite length_app in Hfl. fold (framed q) in Hfl. lia. }
  assert (Hbuf : take n (p ++ framed q) ++ drop n buf = take (length buf) p ++ drop (length p) buf).
  { unfold n. destruct (Nat.le_gt_cases (length p) (length buf)).
    - rewrite Nat.min_l, take_app_le, !take_ge by lia. done.
    - rewrite Nat.min_r, take_app_le, (drop_ge buf (length buf)), (drop_ge buf (length p)) by lia. done. }
  assert (Hres : (if Z.of_nat n <? Z.of_nat (length p) then Err ErrBufferShort else Ok (Z.of_nat n))
               = if (length buf <? length p)%nat then Err ErrBufferShort else Ok (Z.of_nat (length p))).
  { destruct (Z.ltb_spec (Z.of_nat n) (Z.of_nat (length p))), (Nat.ltb_spec (length buf) (length p)); try lia;
      [done|]. do 2 f_equal. lia. }
  rewrite Hbuf, Hres.
  destruct (Z.eqb_spec (b_head (b2 <| b_head := h3 |>)) (b_tail (b2 <| b_head := h3 |>))) as [He|He].
  - rewrite Hsub by done. cbn [mbind res_bind]. eexists. split; [done|]. split_and!; [|done..].
    split; [split| |].
    + left. change (b_head (b2 <| b_head := h3 |>)) with h3 in He. apply (ring_empty _ _ _ _ Hadv) in He.
      rewrite He. apply (ring_straight _ _ _ [] [] (b_data b)); [done| |done|done].
      intros Hd. rewrite Hd in Hbound. cbn in Hbound. lia.
    + exact Hcap.
    + exact Hlim.
    + done.
    + done.
  - rewrite Hsub by done. cbn [mbind res_bind]. eexists. split; [done|]. split_and!; [|done..].
    split; [split| |]; [left; exact Hadv|exact Hcap|exact Hlim|done|done].
Qed.

Lemma write_admitted b q p : holds b q -> b_closed b = false -> Z.of_nat (length p) < 65536 -> admits b p ->
  exists b', buffer_write p b = (Ok (Z.of_nat (length p)), b') /\ holds b' (q ++ [p]) /\ b_closed b' = false.
Proof.
  intros Hb Hcl Hp [Hcount Hroom]. destruct Hb as [Hring Hn Hsmall].
  rewrite (ring_of_size b _ Hring) in Hroom. pose proof (ro_limit _ _ Hring) as Hlim.
  unfold buffer_write. destruct (Z.geb_spec (Z.of_nat (length p)) 65536); [lia|]. rewrite Hcl.
  rewrite (ring_of_size b _ Hring).
  assert (Hgate : ((b_limit_count b >? 0) && (b_count b >=? b_limit_count b))
    || ((b_limit_size b >? 0) && (Z.of_nat (length (framed q)) + 2 + Z.of_nat (length p) >? b_limit_size b)) = false).
  { apply orb_false_iff. unfold capacity in Hroom.
    destruct (Z.gtb_spec (b_limit_count b) 0), (Z.geb_spec (b_count b) (b_limit_count b)),
      (Z.gtb_spec (b_limit_size b) 0),
      (Z.gtb_spec (Z.of_nat (length (framed q)) + 2 + Z.of_nat (length p)) (b_limit_size b)); cbn; split; try done; lia. }
  rewrite Hgate. pose proof (ring_of_length _ _ Hring).
  pose proof (grow_loop_spec (Z.of_nat (length p)) (framed q) (length p + 4) b Hring ltac:(lia) ltac:(lia)) as Hg.
  destruct (Z.ltb_spec (Z.of_nat (length p) + 2 + Z.of_nat (length (framed q))) (capacity b)); [|lia].
  destruct Hg as (d & h & t & Hg & Hr & Hro & Hfree). cbv zeta in Hg. rewrite Hg.
  set (b1 := b <| b_head := h |> <| b_tail := t |> <| b_data := d |>) in *.
  destruct (store_spec b1 (framed q) p Hr ltac:(cbn; lia)) as (d2 & t2 & -> & Hr2 & Hl2).
  assert (Hholds : forall b', b_data b' = d2 -> b_head b' = h -> b_tail b' = t2 -> b_count b' = Z.succ (b_count b) ->
    capacity b' = capacity b -> b_limit_size b' = b_limit_size b -> holds b' (q ++ [p])).
  { intros b' Hd Hh Ht Hc Hcap Hls. split; [split| |].
    - left. rewrite Hd, Hh, Ht, framed_app. exact Hr2.
    - rewrite Hcap. pose proof (ro_cap _ _ Hro) as Hc1. unfold data_length in *. rewrite Hd, Hl2. exact Hc1.
    - by rewrite Hls.
    - rewrite Hc, Hn, length_app. cbn. lia.
    - apply Forall_app; split; [done|]. by constructor. }
  eexists. split; [done|]. split; [|by case_match]. case_match; by apply Hholds.
Qed.

Lemma write_refused b q p : holds b q -> b_closed b = false -> Z.of_nat (length p) < 65536 -> ~ admits b p ->
  exists b', buffer_write p b = (Err ErrBufferFull, b') /\ holds b' q /\ b_closed b' = false.
Proof.
  intros Hb Hcl Hp Hno. destruct Hb as [Hring Hn Hsmall]. unfold admits in Hno.
  rewrite (ring_of_size b _ Hring) in Hno. pose proof (ro_limit _ _ Hring) as Hlim.
  unfold buffer_write. destruct (Z.geb_spec (Z.of_nat (length p)) 65536); [lia|]. rewrite Hcl.
  rewrite (ring_of_size b _ Hring). destruct (_ || _) eqn:Hgate; [by exists b|].
  apply orb_false_iff in Hgate as [Hg1 Hg2]. pose proof (ring_of_length _ _ Hring).
  pose proof (grow_loop_spec (Z.of_nat (length p)) (framed q) (length p + 4) b Hring ltac:(lia) ltac:(lia)) as Hg.
  destruct (Z.ltb_spec (Z.of_nat (length p) + 2 + Z.of_nat (length (framed q))) (capacity b)).
  - exfalso. apply Hno. split; [|lia]. intros Hc. rewrite andb_false_iff in Hg1.
    destruct (Z.gtb_spec (b_limit_count b) 0), (Z.geb_spec (b_count b) (b_limit_count b)); lia || (destruct Hg1; done).
  - destruct Hg as (b' & -> & Hr & Hc & Hlc & Hls & Hcl'). exists b'. split; [done|]. split; [|congruence].
    split; [done|congruence|done].
Qed.
Lemma buffer_write_cases b q p : holds b q ->
  match buffer_write p b with
  | (Ok n, b') => n = Z.of_nat (length p) /\ n < 65536 /\ b_closed b = false /\ admits b p /\ holds b' (q ++ [p])
  | (Err e, b') => holds b' q /\
      (e = ErrPacketTooBig /\ 65536 <= Z.of_nat (length p) \/ e = ErrBufferClosed /\ b_closed b = true \/
       e = ErrBufferFull /\ b_closed b = false /\ ~ admits b p)
  | _ => False
  end.
Proof.
  intros Hb. destruct (Z_lt_ge_dec (Z.of_nat (length p)) 65536) as [Hp|Hp].
  2:{ unfold buffer_write. destruct (Z.geb_spec (Z.of_nat (length p)) 65536); [|lia]. split; [done|].
      left. split; [done|lia]. }
  destruct (b_closed b) eqn:Hcl.
  { unfold buffer_write. destruct (Z.geb_spec (Z.of_nat (length p)) 65536); [lia|]. rewrite Hcl.
    split; [done|]. right. by left. }
  destruct (decide (admits b p)) as [Ha|Ha].
  - destruct (write_admitted b q p Hb Hcl Hp Ha) as (b' & -> & Hh & _). done.
  - destruct (write_refused b q p Hb Hcl Hp Ha) as (b' & -> & Hh & _). split; [done|]. right. by right.
Qed.

Lemma read_attempt_cases b q buf : holds b q ->
  match read_attempt buf b with
  | (Ok (Some (r, buf')), b') => exists p q', q = p :: q' /\ holds b' q' /\
      buf' = take (length buf) p ++ drop (length p) buf /\
      r = if (length buf <? length p)%nat then Err ErrBufferShort else Ok (Z.of_nat (length p))
  | (Ok None, b') => q = [] /\ holds b' q /\ b_closed b = false /\ b_subs b' = true
  | (Err e, b') => e = ErrBufferClosed /\ q = [] /\ b_closed b = true
  | _ => False
  end.
Proof.
  intros Hb. unfold read_attempt. destruct q as [|p q].
  - assert (He : (b_head b =? b_tail b) = true).
    { apply Z.eqb_eq. destruct (ro_ring _ _ (ho_ring _ _ Hb)) as [Hr|(_ & -> & -> & _)]; [|done].
      by apply (ring_empty _ _ _ _ Hr). }
    rewrite He. cbn [negb b_closed set]. destruct (b_closed b) eqn:Hcl; [done|]. split_and!; [done| |done|done].
    destruct Hb as [[]]. by split; [split|..].
  - assert (He : (b_head b =? b_tail b) = false).
    { apply Z.eqb_neq. intros He. destruct (ro_ring _ _ (ho_ring _ _ Hb)) as [Hr|(_ & _ & _ & Hr)]; [|done].
      by apply (ring_empty _ _ _ _ Hr) in He. }
    rewrite He. cbn [negb]. destruct (take_packet_spec b p q buf Hb) as (b' & -> & Hh & _). by exists p, q.
Qed.
End theorems.

(** A new buffer holds no packet. *)
Lemma new_holds limit_count limit_size : 0 <= limit_size < 2 ^ 64 - 1 -> holds (Buffer_new limit_count limit_size) [].
Proof.
  intros Hl. split; [split| |done]; [by right| |done|done].
  unfold data_length, capacity, MAX_SIZE. cbn. destruct (Z.gtb_spec limit_size 0); lia.
Qed.

(** C32. The ring buffer implements a bounded queue of packets.  A write appends
    the packet exactly when it is below 64 KiB, the buffer is open, the packet
    count is below its limit and the framed packets fit the size limit (4 MiB
    without one), and otherwise reports which of the three it was and leaves the
    queue as it was; a read takes the oldest packet off - into the reader's
    slice, truncated with an error if the slice is short -, waits on an empty
    open buffer and fails on an empty closed one; nothing panics or loops. *)
Theorem buffer_refines_queue {P : Profile} :
  (forall limit_count limit_size, 0 <= limit_size < 2 ^ 64 - 1 -> holds (Buffer_new limit_count limit_size) []) /\
  forall b q, holds b q ->
  (forall p, match buffer_write p b with
   | (Ok n, b') => n = Z.of_nat (length p) /\ n < 65536 /\ b_closed b = false /\ admits b p /\ holds b' (q ++ [p])
   | (Err e, b') => holds b' q /\
       (e = ErrPacketTooBig /\ 65536 <= Z.of_nat (length p) \/ e = ErrBufferClosed /\ b_closed b = true \/
        e = ErrBufferFull /\ b_closed b = false /\ ~ admits b p)
   | _ => False
   end) /\
  (forall buf, match read_attempt buf b with
   | (Ok (Some (r, buf')), b') => exists p q', q = p :: q' /\ holds b' q' /\
       buf' = take (length buf) p ++ drop (length p) buf /\
       r = if (length buf <? length p)%nat then Err ErrBufferShort else Ok (Z.of_nat (length p))
   | (Ok None, b') => q = [] /\ holds b' q /\ b_closed b = false /\ b_subs b' = true
   | (Err e, b') => e = ErrBufferClosed /\ q = [] /\ b_closed b = true
   | _ => False
   end).
Proof.
  split; [exact new_holds|]. intros b q Hb. split; intros; [by apply buffer_write_cases|by apply read_attempt_cases].
Qed.

Section examples.
Local Existing Instance dev_profile.

Definition write_ok (r : res UtilError Z * BufferInternal) : bool :=
  match fst r with Ok _ => true | _ => false end.

Lemma write_ok_holds b q p r :
  match r with
  | (Ok n, b') => n = Z.of_nat (length p) /\ n < 65536 /\ b_closed b = false /\ admits b p /\ holds b' (q ++ [p])
  | (Err e, b') => holds b' q /\
      (e = ErrPacketTooBig /\ 65536 <= Z.of_nat (length p) \/ e = ErrBufferClosed /\ b_closed b = true \/
       e = ErrBufferFull /\ b_closed b = false /\ ~ admits b p)
  | _ => False
  end -> write_ok r = true -> holds (snd r) (q ++ [p]).
Proof. destruct r as [[n|e| |] b']; try done. by intros (_ & _ & _ & _ & H). Qed.

Lemma buffer_refines_queue_witness : holds (snd (buffer_write (put_u32 7) (Buffer_new 0 0))) ([] ++ [put_u32 7]).
Proof.
  assert (Hok : write_ok (buffer_write (put_u32 7) (Buffer_new 0 0)) = true) by (vm_compute; reflexivity).
  destruct (buffer_refines_queue (P := dev_profile)) as [Hnew Hops].
  assert (Hlimit : 0 <= 0 < 2 ^ 64 - 1) by lia.
  destruct (Hops (Buffer_new 0 0) [] (Hnew 0 0 Hlimit)) as [Hw _].
  specialize (Hw (put_u32 7)).
  revert Hok Hw. generalize (buffer_write (put_u32 7) (Buffer_new 0 0)). intros r Hok Hw.
  exact (write_ok_holds (Buffer_new 0 0) [] (put_u32 7) r Hw Hok).
Defined.
End examples.
