(* ===== verification/Mux.v ===== *)
(** The multiplexer of [mux/mod.rs]: one read loop that hands every packet to
    the first endpoint whose match function accepts it, and the match functions
    of [mux/mux_func.rs].

    The endpoints are a hash map in the source; here they are the list of its
    values in the order in which the map enumerates them, which is arbitrary. *)
From S2P Require Import Prelude Buffer.

Definition MUX_RECEIVE_MTU : nat := 1460.
Definition MAX_BUFFER_SIZE : Z := 1000 * 1000.

Abbreviation MatchFunc := (bytes -> bool).

Definition match_range (lower upper : Z) : MatchFunc := fun buf =>
  match buf with
  | [] => false
  | b :: _ => (lower <=? u8_of_byte b) && (u8_of_byte b <=? upper)
  end.

Definition match_dtls : MatchFunc := match_range 20 63.

Record Endpoint := mkEndpoint { ep_id : Z; ep_buffer : BufferInternal; ep_match_fn : MatchFunc }.

#[export] Instance Endpoint_settable : Settable Endpoint := fun e =>
  mkEndpoint (ep_id e) (ep_buffer e) (ep_match_fn e).

Record Mux := mkMux { mux_id : Z; mux_endpoints : list Endpoint }.

#[export] Instance Mux_settable : Settable Mux := fun m => mkMux (mux_id m) (mux_endpoints m).

Definition Mux_new : Mux := mkMux 0 [].

(** The new endpoint may come anywhere in the order of the map: [before] is the
    number of endpoints in front of it. *)
Definition new_endpoint (f : MatchFunc) (before : nat) (m : Mux) : Endpoint * Mux :=
  let e := mkEndpoint (mux_id m) (Buffer_new 0 MAX_BUFFER_SIZE) f in
  (e, m <| mux_id ::= fun id => wrap 64 (id + 1) |>
        <| mux_endpoints ::= fun l => take before l ++ e :: drop before l |>).

Section ops.
Context {P : Profile}.

(** [Mux::dispatch]: a packet nobody wants is logged. *)
Fixpoint dispatch (buf : bytes) (endpoints : list Endpoint) : res UtilError (list Endpoint) * list Endpoint :=
  match endpoints with
  | [] => (Ok [], [])
  | ep :: eps =>
      if ep_match_fn ep buf then
        let '(r, b) := buffer_write buf (ep_buffer ep) in
        let eps' := ep <| ep_buffer := b |> :: eps in
        match r with
        | Ok _ => (Ok eps', eps')
        | Err e => (Err e, eps')
        | Panic => (Panic, eps')
        | OutOfFuel => (OutOfFuel, eps')
        end
      else
        let '(r, eps') := dispatch buf eps in
        match r with
        | Ok l => (Ok (ep :: l), ep :: eps')
        | Err e => (Err e, ep :: eps')
        | Panic => (Panic, ep :: eps')
        | OutOfFuel => (OutOfFuel, ep :: eps')
        end
  end.

(** The read loop: its buffer, the size [n] of the last packet, and whether it
    still runs. *)
Record ReadLoop := mkReadLoop { rl_buf : bytes; rl_n : nat; rl_running : bool }.

Definition ReadLoop_start : ReadLoop := mkReadLoop (replicate MUX_RECEIVE_MTU Byte.x00) 0 true.

(** One round; [received] is what [next_conn.recv] returned, [None] for an
    error, which leaves [n] as it was. *)
Definition mux_round (received : option bytes) (l : ReadLoop) (m : Mux) : res UtilError ReadLoop * Mux :=
  let l := match received with
           | Some p => mkReadLoop (p ++ drop (length p) (rl_buf l)) (length p) (rl_running l)
           | None => l
           end in
  let '(r, endpoints) := dispatch (take (rl_n l) (rl_buf l)) (mux_endpoints m) in
  let m := m <| mux_endpoints := endpoints |> in
  match r with
  | Ok _ => (Ok l, m)
  | Err _ => (Ok (mkReadLoop (rl_buf l) (rl_n l) false), m)
  | Panic => (Panic, m)
  | OutOfFuel => (OutOfFuel, m)
  end.
End ops.

(** * What dispatching does *)
Section spec.
Context {P : Profile}.

Lemma dispatch_cases buf : forall eps qs, Forall2 (fun e q => holds (ep_buffer e) q) eps qs ->
  match list_find (fun e => ep_match_fn e buf = true) eps with
  | None => dispatch buf eps = (Ok eps, eps)
  | Some (i, e) => exists q b', qs !! i = Some q /\
      snd (dispatch buf eps) = <[i := e <| ep_buffer := b' |>]> eps /\
      match fst (dispatch buf eps) with
      | Ok l => l = snd (dispatch buf eps) /\ holds b' (q ++ [buf])
      | Err _ => holds b' q
      | _ => False
      end
  end.
Proof.
  induction eps as [|ep eps IH]; intros qs Hqs; [done|].
  inversion_clear Hqs as [|? q ? qs' Hq Hqs']. cbn [dispatch list_find].
  destruct (ep_match_fn ep buf) eqn:Hm.
  - rewrite decide_True by done. exists q. pose proof (buffer_write_cases (ep_buffer ep) q buf Hq) as Hw.
    destruct (buffer_write buf (ep_buffer ep)) as [[n|e| |] b']; [| |done|done]; exists b'.
    + by destruct Hw as (_ & _ & _ & _ & Hw).
    + by destruct Hw as [Hw _].
  - rewrite decide_False by done. specialize (IH qs' Hqs').
    destruct (list_find (fun e => ep_match_fn e buf = true) eps) as [[i e]|]; cbn.
    + destruct IH as (q' & b' & Hi & Hs & Hf). exists q', b'.
      destruct (dispatch buf eps) as [[l|x| |] eps']; cbn in *; subst; [|done|done|done].
      destruct Hf as [-> Hf]. done.
    + by rewrite IH.
Qed.
End spec.

(** A packet goes to the first endpoint, in the order of the map, that matches
    it and to no other: its queue gets the packet at the end, or stays as it was
    when its buffer refuses; a packet that nobody matches changes nothing. *)
Theorem mux_dispatch_spec {P : Profile} buf eps qs :
  Forall2 (fun e q => holds (ep_buffer e) q) eps qs ->
  match list_find (fun e => ep_match_fn e buf = true) eps with
  | None => dispatch buf eps = (Ok eps, eps)
  | Some (i, e) => exists q b', qs !! i = Some q /\
      snd (dispatch buf eps) = <[i := e <| ep_buffer := b' |>]> eps /\
      match fst (dispatch buf eps) with
      | Ok l => l = snd (dispatch buf eps) /\ holds b' (q ++ [buf])
      | Err _ => holds b' q
      | _ => False
      end
  end.
Proof. apply dispatch_cases. Qed.

(** A failing [recv] delivers the previous packet again: the read loop keeps
    its size and dispatches the old contents of the buffer. *)
Theorem recv_error_redelivers {P : Profile} p l m l1 m1 :
  (length p <= MUX_RECEIVE_MTU)%nat -> length (rl_buf l) = MUX_RECEIVE_MTU ->
  mux_round (Some p) l m = (Ok l1, m1) -> rl_running l1 = true ->
  mux_round None l1 m1 = mux_round (Some p) l1 m1 /\ take (rl_n l1) (rl_buf l1) = p.
Proof.
  intros Hp Hl Hr Hrun. unfold mux_round in *. cbn [rl_buf rl_n rl_running] in *.
  destruct (dispatch (take (length p) (p ++ drop (length p) (rl_buf l))) (mux_endpoints m)) as [[]];
    try done; injection Hr as <- <-; [|done]. cbn [rl_buf rl_n rl_running] in *.
  split; [|by rewrite take_app_length]. do 2 f_equal.
  assert (Hbuf : p ++ drop (length p) (p ++ drop (length p) (rl_buf l)) = p ++ drop (length p) (rl_buf l))
    by (by rewrite drop_app_length).
  by rewrite Hbuf.
Qed.

Section examples.
Local Existing Instance dev_profile.

Definition example_mux : Mux := snd (new_endpoint match_dtls 0 Mux_new).

Lemma mux_dispatch_spec_witness : exists q b',
  snd (dispatch [Byte.x16] (mux_endpoints example_mux)) =
    [mkEndpoint 0 b' match_dtls] /\ q = [] ++ [[Byte.x16]] /\ holds b' q.
Proof.
  assert (Hnew : Forall2 (fun e q => holds (ep_buffer e) q) (mux_endpoints example_mux) [[]]).
  { repeat constructor; cbn; try done; by right. }
  assert (Hok : match fst (dispatch [Byte.x16] (mux_endpoints example_mux)) with Ok _ => true | _ => false end = true)
    by (vm_compute; reflexivity).
  pose proof (mux_dispatch_spec [Byte.x16] _ _ Hnew) as H.
  change (mux_endpoints example_mux) with [mkEndpoint 0 (Buffer_new 0 MAX_BUFFER_SIZE) match_dtls] in *.
  assert (Hfind : list_find (fun e => ep_match_fn e [Byte.x16] = true)
    [mkEndpoint 0 (Buffer_new 0 MAX_BUFFER_SIZE) match_dtls]
    = Some (0%nat, mkEndpoint 0 (Buffer_new 0 MAX_BUFFER_SIZE) match_dtls)) by (vm_compute; reflexivity).
  rewrite Hfind in H. destruct H as (q & b' & [= <-] & Hs & Hf).
  destruct (dispatch [Byte.x16] _) as [[l| | |] eps]; try discriminate Hok.
  exists ([] ++ [[Byte.x16]]), b'. cbn [snd fst] in *. split; [|split; [done|apply Hf]]. rewrite Hs. done.
Defined.

Lemma recv_error_redelivers_witness : exists l1 m1,
  mux_round (Some [Byte.x16]) ReadLoop_start example_mux = (Ok l1, m1) /\
  mux_round None l1 m1 = mux_round (Some [Byte.x16]) l1 m1.
Proof.
  assert (Hok : match fst (mux_round (Some [Byte.x16]) ReadLoop_start example_mux) with
                | Ok l => rl_running l | _ => false end = true) by (vm_compute; reflexivity).
  destruct (mux_round (Some [Byte.x16]) ReadLoop_start example_mux) as [[l1| | |] m1] eqn:Hr; try discriminate Hok.
  exists l1, m1. split; [done|]. refine (proj1 (recv_error_redelivers [Byte.x16] ReadLoop_start example_mux l1 m1 _ _ Hr Hok)).
  - vm_compute. repeat constructor.
  - apply length_replicate.
Defined.
End examples.
