(* ===== verification/DataChannel.v ===== *)
(** Data channels: the DCEP messages ([data_channel/internal/message]), the
    channel over an SCTP stream ([data_channel/internal/data_channel.rs]) and the
    state of [RTCDataChannel] ([data_channel/mod.rs], [data_channel_state.rs]). Before
    them the [Marshal] traits of [util/marshal/mod.rs], which the messages implement,
    with the writes of the [bytes] crate into a [&mut [u8]]: each write fills the front of
    the slice, moves the slice past it, and panics when the slice is too short. *)
From S2P Require Import Prelude Errors Chunk ReassemblyQueue Stream Assoc.

(** * The [Marshal] traits *)

(** A slice under construction: what has been written, what is left. *)
Record SliceMut := mkSliceMut { sm_done : bytes; sm_rest : bytes }.

Definition slice_of (buf : bytes) : SliceMut := mkSliceMut [] buf.
Definition slice_content (s : SliceMut) : bytes := sm_done s ++ sm_rest s.
Definition remaining_mut (s : SliceMut) : nat := length (sm_rest s).

Definition put_slice {E} (src : bytes) (s : SliceMut) : res E SliceMut :=
  if (length (sm_rest s) <? length src)%nat then Panic
  else Ok (mkSliceMut (sm_done s ++ src) (drop (length src) (sm_rest s))).

(** [Buf::copy_to_slice] into a vector of [n] bytes *)
Definition copy_to_vec {E} (n : nat) (r : bytes) : res E (bytes * bytes) :=
  if (length r <? n)%nat then Panic else Ok (take n r, drop n r).

(** [trait MarshalSize] and [trait Marshal]; [marshal_to] returns the number
    of bytes it claims to have written. *)
Class Marshal (T E : Type) := {
  marshal_size : T -> nat;
  marshal_to : T -> SliceMut -> res E (nat * SliceMut);
  size_mismatch : nat -> nat -> E
}.

Section marshal.
Context {T E : Type} `{Marshal T E}.

(** [Marshal::marshal]: a zeroed buffer of the announced size. *)
Definition marshal (x : T) : res E bytes :=
  let l := marshal_size x in
  '(n, s) ← marshal_to x (slice_of (replicate l Byte.x00));
  if negb (n =? l)%nat then Err (size_mismatch n l) else Ok (slice_content s).
End marshal.

(** * Errors *)
Inductive DcError : Type :=
  | UnexpectedEndOfBuffer (expected actual : nat)
  | InvalidMessageType (v : Z)
  | DcUtilOther (written expected : nat)
  | DcSctp (e : Error).

(** * Messages *)
Definition MESSAGE_TYPE_ACK : Z := 2.
Definition MESSAGE_TYPE_OPEN : Z := 3.
Definition MESSAGE_TYPE_LEN : nat := 1.
Definition CHANNEL_OPEN_HEADER_LEN : nat := 11.

Inductive MessageType : Type := DataChannelAckType | DataChannelOpenType.

Definition MessageType_marshal_to (t : MessageType) (buf : SliceMut) : res DcError (nat * SliceMut) :=
  let b := match t with
           | DataChannelAckType => MESSAGE_TYPE_ACK
           | DataChannelOpenType => MESSAGE_TYPE_OPEN
           end in
  buf ← put_slice (put_u8 b) buf;
  Ok (1%nat, buf).

Definition MessageType_unmarshal (buf : bytes) : res DcError (MessageType * bytes) :=
  if (length buf <? MESSAGE_TYPE_LEN)%nat then Err (UnexpectedEndOfBuffer MESSAGE_TYPE_LEN (length buf))
  else
    '(b, buf) ← get_u8 buf;
    if b =? MESSAGE_TYPE_ACK then Ok (DataChannelAckType, buf)
    else if b =? MESSAGE_TYPE_OPEN then Ok (DataChannelOpenType, buf)
    else Err (InvalidMessageType b).

Record DataChannelOpen := mkDataChannelOpen { dco_label : bytes; dco_protocol : bytes }.

Definition DataChannelOpen_marshal_size (m : DataChannelOpen) : nat :=
  (CHANNEL_OPEN_HEADER_LEN + length (dco_label m) + length (dco_protocol m))%nat.

Definition DataChannelOpen_marshal_to (m : DataChannelOpen) (buf : SliceMut) : res DcError (nat * SliceMut) :=
  let required_len := DataChannelOpen_marshal_size m in
  if (remaining_mut buf <? required_len)%nat then Err (UnexpectedEndOfBuffer required_len (remaining_mut buf))
  else
    buf ← put_slice (put_u16 (wrap 16 (Z.of_nat (length (dco_label m))))) buf;
    buf ← put_slice (put_u16 (wrap 16 (Z.of_nat (length (dco_protocol m))))) buf;
    buf ← put_slice (dco_label m) buf;
    buf ← put_slice (dco_protocol m) buf;
    Ok (DataChannelOpen_marshal_size m, buf).

Definition DataChannelOpen_unmarshal (buf : bytes) : res DcError (DataChannelOpen * bytes) :=
  let required_len := CHANNEL_OPEN_HEADER_LEN in
  if (length buf <? required_len)%nat then Err (UnexpectedEndOfBuffer required_len (length buf))
  else
    '(label_len, buf) ← get_u16 buf;
    '(protocol_len, buf) ← get_u16 buf;
    let label_len := Z.to_nat label_len in
    let protocol_len := Z.to_nat protocol_len in
    let required_len := (label_len + protocol_len)%nat in
    if (length buf <? required_len)%nat then Err (UnexpectedEndOfBuffer required_len (length buf))
    else
      '(label, buf) ← copy_to_vec label_len buf;
      '(protocol, buf) ← copy_to_vec protocol_len buf;
      Ok (mkDataChannelOpen label protocol, buf).

(** [DataChannelAck] has no content: size 0, nothing written or read. *)
Inductive Message : Type :=
  | DataChannelAckMessage
  | DataChannelOpenMessage (m : DataChannelOpen).

Definition message_type (m : Message) : MessageType :=
  match m with
  | DataChannelAckMessage => DataChannelAckType
  | DataChannelOpenMessage _ => DataChannelOpenType
  end.

Definition Message_marshal_size (m : Message) : nat :=
  match m with
  | DataChannelAckMessage => 0 + MESSAGE_TYPE_LEN
  | DataChannelOpenMessage m => DataChannelOpen_marshal_size m + MESSAGE_TYPE_LEN
  end.

Definition Message_marshal_to (m : Message) (buf : SliceMut) : res DcError (nat * SliceMut) :=
  '(n, buf) ← MessageType_marshal_to (message_type m) buf;
  '(written, buf) ← (match m with
    | DataChannelAckMessage => Ok (0%nat, buf)
    | DataChannelOpenMessage o => DataChannelOpen_marshal_to o buf
    end);
  Ok ((n + written)%nat, buf).

(** The last arm is the [panic!] of the source. *)
Definition Message_unmarshal (buf : bytes) : res DcError (Message * bytes) :=
  if (length buf <? MESSAGE_TYPE_LEN)%nat then Err (UnexpectedEndOfBuffer MESSAGE_TYPE_LEN (length buf))
  else
    '(t, buf) ← MessageType_unmarshal buf;
    match t with
    | DataChannelAckType => Ok (DataChannelAckMessage, buf)
    | DataChannelOpenType => Panic
    end.

#[export] Instance Message_marshal : Marshal Message DcError :=
  {| marshal_size := Message_marshal_size;
     marshal_to := Message_marshal_to;
     size_mismatch := DcUtilOther |}.

(** * A channel over a stream *)
Section channel.
Context {P : Profile}.

Definition lift_stream {A} (m : ST (Shared * Stream) Error A) : ST (Shared * Stream) DcError A := fun s =>
  match m s with
  | (Ok a, s') => (Ok a, s')
  | (Err e, s') => (Err (DcSctp e), s')
  | (Panic, s') => (Panic, s')
  | (OutOfFuel, s') => (OutOfFuel, s')
  end.

(** [DataChannel::client]: the OPEN message is the first on the stream. *)
Definition client (now : Z) (label protocol : bytes) : ST (Shared * Stream) DcError unit :=
  msg ← st_lift (marshal (DataChannelOpenMessage (mkDataChannelOpen label protocol)));
  _ ← lift_stream (write_sctp now msg Dcep);
  mret tt.

Definition message_ppi (is_string : bool) (data_len : nat) : PayloadProtocolIdentifier :=
  match is_string, data_len with
  | false, O => BinaryEmpty
  | false, _ => Binary
  | true, O => StringEmpty
  | true, _ => PpiString
  end.

Definition write_data_channel (now : Z) (data : bytes) (is_string : bool) : ST (Shared * Stream) DcError Z :=
  let ppi := message_ppi is_string (length data) in
  match data with
  | [] => _ ← lift_stream (write_sctp now [Byte.x00] ppi); mret 0
  | _ => lift_stream (write_sctp now data ppi)
  end.

(** [handle_dcep]: an error is logged by the caller. *)
Definition handle_dcep (data : bytes) : res DcError unit :=
  '(msg, _) ← Message_unmarshal data;
  match msg with
  | DataChannelAckMessage => Ok tt
  | DataChannelOpenMessage _ => Panic
  end.

(** What [read_data_channel] makes of a message of [n] bytes in [buf];
    [None]: it goes on reading. *)
Definition deliver (n : nat) (ppi : PayloadProtocolIdentifier) (buf : bytes) : res DcError (option (nat * bool)) :=
  match ppi with
  | Dcep =>
      match handle_dcep (take n buf) with
      | Ok _ | Err _ => Ok None
      | Panic => Panic
      | OutOfFuel => OutOfFuel
      end
  | PpiString => Ok (Some (n, true))
  | StringEmpty => Ok (Some (0%nat, true))
  | BinaryEmpty => Ok (Some (0%nat, false))
  | _ => Ok (Some (n, false))
  end.

(** One round of the loop of [read_data_channel], from a read that did not
    have to wait; a failed read closes the stream. *)
Definition read_data_channel_round (now : Z) : ST (Shared * Stream * bytes) DcError (option (nat * bool)) :=
  fun '(sh, s, buf) =>
    match read_attempt (s, buf) with
    | (Ok (Some (n, ppi)), (s, buf)) =>
        match deliver n ppi buf with
        | Ok r => (Ok r, (sh, s, buf))
        | Err e => (Err e, (sh, s, buf))
        | Panic => (Panic, (sh, s, buf))
        | OutOfFuel => (OutOfFuel, (sh, s, buf))
        end
    | (Ok None, (s, buf)) => (Ok None, (sh, s, buf))
    | (Err e, (s, buf)) =>
        match stream_close now (sh, s) with
        | (Ok _, (sh, s)) => (Err (DcSctp e), (sh, s, buf))
        | (Err e', (sh, s)) => (Err (DcSctp e'), (sh, s, buf))
        | (Panic, (sh, s)) => (Panic, (sh, s, buf))
        | (OutOfFuel, (sh, s)) => (OutOfFuel, (sh, s, buf))
        end
    | (Panic, (s, buf)) => (Panic, (sh, s, buf))
    | (OutOfFuel, (s, buf)) => (OutOfFuel, (sh, s, buf))
    end.
End channel.

(** * RTCDataChannel *)
Inductive RTCDataChannelState : Type :=
  | DcsUnspecified | DcsConnecting | DcsOpen | DcsClosing | DcsClosed.

#[export] Instance RTCDataChannelState_eq_dec : EqDecision RTCDataChannelState.
Proof. solve_decision. Defined.

Definition RTCDataChannelState_as_u8 (s : RTCDataChannelState) : Z :=
  match s with DcsUnspecified => 0 | DcsConnecting => 1 | DcsOpen => 2 | DcsClosing => 3 | DcsClosed => 4 end.

Definition RTCDataChannelState_from_u8 (v : Z) : RTCDataChannelState :=
  match v with 1 => DcsConnecting | 2 => DcsOpen | 3 => DcsClosing | 4 => DcsClosed | _ => DcsUnspecified end.

Inductive RtcError : Type :=
  | ErrSCTPNotEstablished
  | ErrDetachBeforeOpened
  | RtcDataChannel (e : DcError).

(** [dc_on_open] and [dc_on_low] tell whether a handler is installed; the
    channel itself is the reference of its stream. *)
Record RTCDataChannel := mkRTCDataChannel {
  dc_label : bytes;
  dc_protocol : bytes;
  dc_ready_state : Z;
  dc_low_threshold : Z;
  dc_detach_called : bool;
  dc_on_open : bool;
  dc_open_calls : nat;
  dc_on_low : bool;
  dc_sctp_transport : bool;
  dc_data_channel : option nat
}.

#[export] Instance RTCDataChannel_settable : Settable RTCDataChannel := fun d =>
  mkRTCDataChannel (dc_label d) (dc_protocol d) (dc_ready_state d) (dc_low_threshold d) (dc_detach_called d)
    (dc_on_open d) (dc_open_calls d) (dc_on_low d) (dc_sctp_transport d) (dc_data_channel d).

Definition RTCDataChannel_new (label protocol : bytes) : RTCDataChannel :=
  mkRTCDataChannel label protocol (RTCDataChannelState_as_u8 DcsConnecting) 0 false false 0 false false None.

Definition ready_state (d : RTCDataChannel) : RTCDataChannelState := RTCDataChannelState_from_u8 (dc_ready_state d).

(** The task of [do_open] takes the handler and runs it once. *)
Definition do_open (d : RTCDataChannel) : RTCDataChannel :=
  if dc_on_open d then d <| dc_on_open := false |> <| dc_open_calls ::= S |> else d.

Definition on_open (d : RTCDataChannel) : RTCDataChannel :=
  let d := d <| dc_on_open := true |> in
  if decide (ready_state d = DcsOpen) then do_open d else d.

Definition handle_open (r : nat) (d : RTCDataChannel) : RTCDataChannel :=
  do_open (d <| dc_data_channel := Some r |> <| dc_ready_state := RTCDataChannelState_as_u8 DcsOpen |>).

Definition detach (d : RTCDataChannel) : res RtcError nat * RTCDataChannel :=
  match dc_data_channel d with
  | Some r => (Ok r, d <| dc_detach_called := true |>)
  | None => (Err ErrDetachBeforeOpened, d)
  end.

Section open.
Context {P : Profile}.

(** [DataChannel::dial]: a stream, and the OPEN message on it. *)
Definition dial (now : Z) (identifier : Z) (label protocol : bytes) : ST Assoc DcError nat := fun a =>
  match open_stream identifier a with
  | (Ok r, a) =>
      match a_heap a !! r with
      | Some s =>
          let '(res, (sh, s)) := client now label protocol (a_shared a, s) in
          let a := a <| a_shared := sh |> <| a_heap ::= insert r s |> in
          match res with
          | Ok _ => (Ok r, a)
          | Err e => (Err e, a)
          | Panic => (Panic, a)
          | OutOfFuel => (OutOfFuel, a)
          end
      | None => (Ok r, a)
      end
  | (Err e, a) => (Err (DcSctp e), a)
  | (Panic, a) => (Panic, a)
  | (OutOfFuel, a) => (OutOfFuel, a)
  end.

(** [RTCDataChannel::open] on the association of the transport, if there is one. *)
Definition rtc_open (now : Z) : ST (RTCDataChannel * option Assoc) RtcError unit := fun '(d, association) =>
  match association with
  | None => (Err ErrSCTPNotEstablished, (d, association))
  | Some a =>
      if dc_sctp_transport d then (Ok tt, (d, association))
      else
        let d := d <| dc_sctp_transport := true |> in
        match dial now 0 (dc_label d) (dc_protocol d) a with
        | (Ok r, a) =>
            let a := a <| a_heap ::= alter (fun s => set_buffered_amount_low_threshold s (dc_low_threshold d)) r |> in
            let a := if dc_on_low d then a <| a_heap ::= alter on_buffered_amount_low r |> else a in
            let d := d <| dc_on_low := false |> in
            (Ok tt, (handle_open r d, Some a))
        | (Err e, a) => (Err (RtcDataChannel e), (d, Some a))
        | (Panic, a) => (Panic, (d, Some a))
        | (OutOfFuel, a) => (OutOfFuel, (d, Some a))
        end
  end.
End open.

(** * The theorems *)

Lemma put_slice_ok {E} src s : (length src <= length (sm_rest s))%nat ->
  put_slice (E := E) src s = Ok (mkSliceMut (sm_done s ++ src) (drop (length src) (sm_rest s))).
Proof. intros Hl. unfold put_slice. by rewrite ltb_false. Qed.

Lemma put_slice_zeros {E} src done n : (length src <= n)%nat ->
  put_slice (E := E) src (mkSliceMut done (replicate n Byte.x00))
  = Ok (mkSliceMut (done ++ src) (replicate (n - length src) Byte.x00)).
Proof. intros Hl. rewrite put_slice_ok; cbn; [by rewrite drop_replicate|by rewrite length_replicate]. Qed.

Lemma RTCDataChannelState_from_as_u8 s : RTCDataChannelState_from_u8 (RTCDataChannelState_as_u8 s) = s.
Proof. by destruct s. Qed.

Lemma open_marshal_to label protocol :
  marshal (DataChannelOpenMessage (mkDataChannelOpen label protocol)) =
  Ok (put_u8 MESSAGE_TYPE_OPEN ++ put_u16 (wrap 16 (Z.of_nat (length label)))
      ++ put_u16 (wrap 16 (Z.of_nat (length protocol))) ++ label ++ protocol ++ replicate 7 Byte.x00).
Proof.
  unfold marshal. cbn [marshal_size marshal_to Message_marshal Message_marshal_size].
  unfold Message_marshal_to, MessageType_marshal_to, DataChannelOpen_marshal_to, DataChannelOpen_marshal_size,
    remaining_mut, slice_of, CHANNEL_OPEN_HEADER_LEN, MESSAGE_TYPE_LEN.
  cbn [message_type dco_label dco_protocol].
  rewrite put_slice_zeros by (rewrite length_put_u8; lia). cbn [mbind res_bind sm_rest].
  rewrite length_replicate, length_put_u8, ltb_false by lia.
  rewrite put_slice_zeros by (rewrite length_put_u16; lia). cbn [mbind res_bind].
  rewrite put_slice_zeros by (rewrite !length_put_u16; lia). cbn [mbind res_bind].
  rewrite put_slice_zeros by (rewrite !length_put_u16; lia). cbn [mbind res_bind].
  rewrite put_slice_zeros by (rewrite !length_put_u16; lia). cbn [mbind res_bind].
  rewrite !length_put_u16. unfold slice_content. cbn [sm_done sm_rest].
  rewrite (proj2 (Nat.eqb_eq _ _)) by lia. cbn [negb]. f_equal. rewrite <- !app_assoc.
  cbn [app]. do 6 f_equal. lia.
Qed.

(** The OPEN message on the wire: the type byte, the two lengths, the label,
    the protocol, and seven bytes of zero - the channel type, the priority and
    the reliability parameter that the documented layout puts before the lengths
    are never written, yet the size accounts for them; for a label and a
    protocol below 64 KiB the message parses back to what was sent. *)
Theorem data_channel_open_roundtrip label protocol :
  exists body, marshal (DataChannelOpenMessage (mkDataChannelOpen label protocol))
    = Ok (put_u8 MESSAGE_TYPE_OPEN ++ body) /\
  body = put_u16 (wrap 16 (Z.of_nat (length label))) ++ put_u16 (wrap 16 (Z.of_nat (length protocol)))
         ++ label ++ protocol ++ replicate 7 Byte.x00 /\
  (Z.of_nat (length label) < 2 ^ 16 /\ Z.of_nat (length protocol) < 2 ^ 16 ->
   DataChannelOpen_unmarshal body = Ok (mkDataChannelOpen label protocol, replicate 7 Byte.x00)).
Proof.
  eexists. split; [apply open_marshal_to|]. split; [done|]. intros [Hl Hp].
  rewrite !wrap_small by (unfold in_range; lia). unfold DataChannelOpen_unmarshal.
  rewrite ltb_false by (rewrite !length_app, !length_put_u16, length_replicate; unfold CHANNEL_OPEN_HEADER_LEN; lia).
  rewrite get_put_u16 by (unfold in_range; lia). cbn [mbind res_bind].
  rewrite get_put_u16 by (unfold in_range; lia). cbn [mbind res_bind]. rewrite !Nat2Z.id.
  rewrite ltb_false by (rewrite !length_app; lia). unfold copy_to_vec.
  rewrite ltb_false by (rewrite !length_app; lia). cbn [mbind res_bind].
  rewrite take_app_length, drop_app_length, ltb_false by (rewrite !length_app; lia). cbn [mbind res_bind].
  by rewrite take_app_length, drop_app_length.
Qed.

(** A DCEP message from the peer whose type is OPEN panics the reader: only an
    ACK is expected there. *)
Theorem peer_open_panics rest :
  deliver (S (length rest)) Dcep (put_u8 MESSAGE_TYPE_OPEN ++ rest) = Panic.
Proof.
  unfold deliver, handle_dcep. rewrite take_ge by (rewrite length_app, length_put_u8; lia).
  reflexivity.
Qed.

(** A message survives the trip through the payload protocol identifiers: what
    [write_data_channel] hands to the stream - one zero byte for an empty
    message - is what [read_data_channel] turns back into the length and the kind
    of the message; an identifier it does not know is read as binary. *)
Theorem data_channel_kinds {P : Profile} now data is_string st :
  let sent := match data with [] => [Byte.x00] | _ => data end in
  let ppi := message_ppi is_string (length data) in
  deliver (length sent) ppi sent = Ok (Some (length data, is_string)) /\
  match write_data_channel now data is_string st, write_sctp now sent ppi st with
  | (Ok n, st'), (Ok m, st'') => n = Z.of_nat (length data) /\ m = Z.of_nat (length sent) /\ st' = st''
  | (Err e, st'), (Err e', st'') => e = DcSctp e' /\ st' = st''
  | (Panic, st'), (Panic, st'') | (OutOfFuel, st'), (OutOfFuel, st'') => st' = st''
  | _, _ => False
  end.
Proof.
  intros sent ppi. split; [by destruct data, is_string|]. unfold write_data_channel. fold ppi.
  assert (Hn : forall m st', write_sctp now sent ppi st = (Ok m, st') -> m = Z.of_nat (length sent)).
  { intros m st'. unfold write_sctp. st_run. destruct (_ >? _); [done|].
    destruct (get_state _); try done; destruct (packetize now sent ppi st) as [[]]; try done;
      destruct (send_payload_data _ _) as [[]]; try done; by intros [= <- _]. }
  destruct data as [|x data].
  - unfold sent in *. st_run. unfold lift_stream.
    destruct (write_sctp now [Byte.x00] ppi st) as [[m| | |] st'] eqn:Hw; try done.
    split; [done|]. split; [by eapply Hn|done].
  - unfold sent in *. unfold lift_stream. destruct (write_sctp now (x :: data) ppi st) as [[m| | |] st'] eqn:Hw; try done.
    split; [by eapply Hn|]. split; [by eapply Hn|done].
Qed.

(** [open] records the transport before it dials: when the dial fails, a
    second [open] reports success although the channel has no stream and is
    still connecting. *)
Theorem open_retry_silent {P : Profile} now d a e d' a' :
  rtc_open now (d, Some a) = (Err (RtcDataChannel e), (d', Some a')) ->
  ready_state d = DcsConnecting -> dc_data_channel d = None ->
  forall now', rtc_open now' (d', Some a') = (Ok tt, (d', Some a')) /\
    ready_state d' = DcsConnecting /\ dc_data_channel d' = None.
Proof.
  unfold rtc_open. destruct (dc_sctp_transport d); [done|].
  destruct (dial now 0 _ _ a) as [[| | |] a1]; try done. intros [= -> <- <-]. done.
Qed.

Section examples.
Local Existing Instance dev_profile.

Lemma data_channel_open_roundtrip_witness :
  DataChannelOpen_unmarshal (put_u16 2 ++ put_u16 0 ++ [Byte.x61; Byte.x62] ++ [] ++ replicate 7 Byte.x00)
  = Ok (mkDataChannelOpen [Byte.x61; Byte.x62] [], replicate 7 Byte.x00).
Proof.
  destruct (data_channel_open_roundtrip [Byte.x61; Byte.x62] []) as (body & _ & -> & H). apply H. done.
Defined.

(** The transport exists but its handshake is not over. *)
Definition example_early : Assoc := AssociationInternal_new (mkConfig 0 0) 7 42.

Lemma open_retry_silent_witness : exists e d' a',
  rtc_open 0 (RTCDataChannel_new [] [], Some example_early) = (Err (RtcDataChannel e), (d', Some a')) /\
  rtc_open 1 (d', Some a') = (Ok tt, (d', Some a')).
Proof.
  assert (H : match fst (rtc_open 0 (RTCDataChannel_new [] [], Some example_early)) with
              | Err (RtcDataChannel _) => true | _ => false end = true) by (vm_compute; reflexivity).
  pose proof (open_retry_silent 0 (RTCDataChannel_new [] []) example_early) as Hopen.
  destruct (rtc_open 0 (RTCDataChannel_new [] [], Some example_early)) as [[|[]| |] [d' [a'|]]] eqn:Hr;
    try discriminate H.
  - exists e, d', a'. split; [done|]. by apply (Hopen e d' a' eq_refl).
  - exfalso. revert Hr. clear. unfold rtc_open. destruct (dc_sctp_transport _); [done|].
    by destruct (dial _ _ _ _ _) as [[] ?].
Defined.
End examples.
