(* ===== verification/Utf8.v ===== *)
(** Rust strings: a [String] is the bytes of its UTF-8 encoding. *)
From Stdlib Require Import Strings.String.
From S2P Require Import Prelude.

Definition bytes_of_string (s : string) : bytes := list_byte_of_string s.

Definition byte_between (lo hi : Z) (b : byte) : bool := (lo <=? u8_of_byte b) && (u8_of_byte b <=? hi).

Definition utf8_tail : byte -> bool := byte_between 0x80 0xBF.

(** What [String::from_utf8] accepts: the well-formed sequences of the Unicode
    standard (table 3-7), which exclude surrogates and overlong forms. *)
Fixpoint utf8_valid (l : bytes) : bool :=
  match l with
  | [] => true
  | b0 :: l1 =>
      if byte_between 0 0x7F b0 then utf8_valid l1
      else if byte_between 0xC2 0xDF b0 then
        match l1 with b1 :: l2 => utf8_tail b1 && utf8_valid l2 | _ => false end
      else if byte_between 0xE0 0xEF b0 then
        match l1 with
        | b1 :: b2 :: l3 =>
            (if u8_of_byte b0 =? 0xE0 then byte_between 0xA0 0xBF b1
             else if u8_of_byte b0 =? 0xED then byte_between 0x80 0x9F b1
             else utf8_tail b1)
            && utf8_tail b2 && utf8_valid l3
        | _ => false
        end
      else if byte_between 0xF0 0xF4 b0 then
        match l1 with
        | b1 :: b2 :: b3 :: l4 =>
            (if u8_of_byte b0 =? 0xF0 then byte_between 0x90 0xBF b1
             else if u8_of_byte b0 =? 0xF4 then byte_between 0x80 0x8F b1
             else utf8_tail b1)
            && utf8_tail b2 && utf8_tail b3 && utf8_valid l4
        | _ => false
        end
      else false
  end.

Example utf8_accepts : utf8_valid (bytes_of_string "Grüße €") = true.
Proof. reflexivity. Qed.

Example utf8_rejects_surrogate : utf8_valid (map byte_of_u8 [0xED; 0xA0; 0x80]) = false.
Proof. reflexivity. Qed.
