(* ===== verification/Stun.v ===== *)
(** STUN messages: the header, the attribute list, building and decoding
    ([stun/message.rs], [stun/attributes.rs], [stun/agent.rs], [stun/error.rs]).

    A [Message] is its parsed fields together with the raw bytes they are
    written to; a setter is a call on that state.  [usize] quantities are
    [nat], the [u32] length field is a [Z]. *)
From S2P Require Import Prelude.

(** What the formatted [Error::Other] strings tell. *)
Inductive StunOther : Type :=
  | InvalidMagicCookie (cookie : Z)
  | BufferLengthLess (actual expected : nat)
  | BadValue (family : Z)
  | UnsupportedAttrType (t : Z).

Inductive StunError : Type :=
  | ErrAttributeNotFound
  | ErrNoDefaultReason
  | ErrUnexpectedEof
  | ErrAttributeSizeInvalid
  | ErrAttributeSizeOverflow
  | ErrUnexpectedHeaderEof
  | ErrIntegrityMismatch
  | ErrFingerprintBeforeIntegrity
  | ErrBadUnknownAttrsSize
  | ErrCollectorClosed
  | StunErrOther (s : StunOther)
  | StunErrUtf8.

Definition MAGIC_COOKIE : Z := 0x2112A442.
Definition ATTRIBUTE_HEADER_SIZE : nat := 4.
Definition MESSAGE_HEADER_SIZE : nat := 20.
Definition TRANSACTION_ID_SIZE : nat := 12.

(** * The message type *)

(** [struct Method(u16)], [struct MessageClass(u8)] and [struct AttrType(u16)] *)
Abbreviation Method := Z.
Abbreviation MessageClass := Z.
Abbreviation AttrType := Z.

Definition CLASS_REQUEST : MessageClass := 0.
Definition CLASS_INDICATION : MessageClass := 1.
Definition CLASS_SUCCESS_RESPONSE : MessageClass := 2.
Definition CLASS_ERROR_RESPONSE : MessageClass := 3.

Definition METHOD_BINDING : Method := 1.

Record MessageType := mkMessageType { mt_method : Method; mt_class : MessageClass }.

#[export] Instance MessageType_eq_dec : EqDecision MessageType.
Proof. solve_decision. Defined.

Definition BINDING_REQUEST : MessageType := mkMessageType METHOD_BINDING CLASS_REQUEST.
Definition BINDING_SUCCESS : MessageType := mkMessageType METHOD_BINDING CLASS_SUCCESS_RESPONSE.

Definition METHOD_ABITS : Z := 0xf.
Definition METHOD_BBITS : Z := 0x70.
Definition METHOD_DBITS : Z := 0xf80.
Definition METHOD_BSHIFT : Z := 1.
Definition METHOD_DSHIFT : Z := 2.
Definition FIRST_BIT : Z := 1.
Definition SECOND_BIT : Z := 2.
Definition C0BIT : Z := FIRST_BIT.
Definition C1BIT : Z := SECOND_BIT.
Definition CLASS_C0SHIFT : Z := 4.
Definition CLASS_C1SHIFT : Z := 7.

(** The masks keep the sums far below 2^16. *)
Definition MessageType_value (t : MessageType) : Z :=
  let method := mt_method t in
  let a := Z.land method METHOD_ABITS in
  let b := Z.land method METHOD_BBITS in
  let d := Z.land method METHOD_DBITS in
  let method := a + Z.shiftl b METHOD_BSHIFT + Z.shiftl d METHOD_DSHIFT in
  let c := mt_class t in
  let c0 := Z.shiftl (Z.land c C0BIT) CLASS_C0SHIFT in
  let c1 := Z.shiftl (Z.land c C1BIT) CLASS_C1SHIFT in
  let class := c0 + c1 in
  method + class.

Definition MessageType_read_value (value : Z) : MessageType :=
  let c0 := Z.land (Z.shiftr value CLASS_C0SHIFT) C0BIT in
  let c1 := Z.land (Z.shiftr value CLASS_C1SHIFT) C1BIT in
  let class := c0 + c1 in
  let a := Z.land value METHOD_ABITS in
  let b := Z.land (Z.shiftr value METHOD_BSHIFT) METHOD_BBITS in
  let d := Z.land (Z.shiftr value METHOD_DSHIFT) METHOD_DBITS in
  mkMessageType (a + b + d) class.

(** * Attributes *)
Definition ATTR_MAPPED_ADDRESS : AttrType := 0x0001.
Definition ATTR_USERNAME : AttrType := 0x0006.
Definition ATTR_MESSAGE_INTEGRITY : AttrType := 0x0008.
Definition ATTR_ERROR_CODE : AttrType := 0x0009.
Definition ATTR_UNKNOWN_ATTRIBUTES : AttrType := 0x000A.
Definition ATTR_REALM : AttrType := 0x0014.
Definition ATTR_NONCE : AttrType := 0x0015.
Definition ATTR_XORMAPPED_ADDRESS : AttrType := 0x0020.
Definition ATTR_SOFTWARE : AttrType := 0x8022.
Definition ATTR_FINGERPRINT : AttrType := 0x8028.
Definition ATTR_PRIORITY : AttrType := 0x0024.
Definition ATTR_USE_CANDIDATE : AttrType := 0x0025.
Definition ATTR_ICE_CONTROLLED : AttrType := 0x8029.
Definition ATTR_ICE_CONTROLLING : AttrType := 0x802A.

Record RawAttribute := mkRawAttribute { ra_typ : AttrType; ra_length : Z; ra_value : bytes }.

#[export] Instance RawAttribute_eq_dec : EqDecision RawAttribute.
Proof. solve_decision. Defined.

Definition PADDING : nat := 4.

Definition nearest_padded_value_length (l : nat) : nat :=
  let n := (PADDING * (l / PADDING))%nat in
  if (n <? l)%nat then (n + PADDING)%nat else n.

Definition compat_attr_type (val : Z) : AttrType :=
  if val =? 0x8020 then ATTR_XORMAPPED_ADDRESS else val.

(** [Attributes::get]: the first of the type. *)
Fixpoint Attributes_get (l : list RawAttribute) (t : AttrType) : option RawAttribute :=
  match l with
  | [] => None
  | candidate :: l' => if ra_typ candidate =? t then Some candidate else Attributes_get l' t
  end.

(** * Messages *)
Record Message := mkMessage {
  m_typ : MessageType;
  m_length : Z;
  m_transaction_id : bytes;
  m_attributes : list RawAttribute;
  m_raw : bytes
}.

#[export] Instance Message_settable : Settable Message := fun m =>
  mkMessage (m_typ m) (m_length m) (m_transaction_id m) (m_attributes m) (m_raw m).

Definition Message_new : Message :=
  mkMessage (mkMessageType 0 0) 0 (replicate TRANSACTION_ID_SIZE Byte.x00) []
    (replicate MESSAGE_HEADER_SIZE Byte.x00).

Definition reset (m : Message) : Message := m <| m_raw := [] |> <| m_length := 0 |> <| m_attributes := [] |>.

(** [raw[first..first + src.len()].copy_from_slice(src)] *)
Definition raw_copy {E} (first : nat) (src raw : bytes) : res E bytes :=
  if (first + length src <=? length raw)%nat
  then Ok (take first raw ++ src ++ drop (first + length src) raw) else Panic.

Definition grow_raw (n : nat) (resize : bool) (raw : bytes) : bytes :=
  if (n <=? length raw)%nat then if resize then take n raw else raw
  else raw ++ replicate (n - length raw) Byte.x00.

Abbreviation SM A := (ST Message StunError A).

Definition modify_raw (f : bytes -> res StunError bytes) : SM unit := fun m =>
  match f (m_raw m) with
  | Ok raw => (Ok tt, m <| m_raw := raw |>)
  | Err e => (Err e, m)
  | Panic => (Panic, m)
  | OutOfFuel => (OutOfFuel, m)
  end.

Definition grow (n : nat) (resize : bool) : SM unit := st_modify (fun m => m <| m_raw ::= grow_raw n resize |>).

Definition write_length : SM unit :=
  _ ← grow 4 false;
  length ← st_get m_length;
  modify_raw (raw_copy 2 (put_u16 (wrap 16 length))).

Definition write_type : SM unit :=
  _ ← grow 2 false;
  typ ← st_get m_typ;
  modify_raw (raw_copy 0 (put_u16 (MessageType_value typ))).

Definition write_transaction_id : SM unit :=
  id ← st_get m_transaction_id;
  modify_raw (raw_copy 8 id).

Definition write_header : SM unit :=
  _ ← grow MESSAGE_HEADER_SIZE false;
  _ ← write_type;
  _ ← write_length;
  _ ← modify_raw (raw_copy 4 (put_u32 MAGIC_COOKIE));
  write_transaction_id.

Definition set_type (t : MessageType) : SM unit :=
  _ ← st_modify (fun m => m <| m_typ := t |>);
  write_type.

Section ops.
Context {P : Profile}.

(** [Message::add] *)
Definition add (t : AttrType) (v : bytes) : SM unit :=
  let alloc_size := (ATTRIBUTE_HEADER_SIZE + length v)%nat in
  len ← st_get m_length;
  let first := (MESSAGE_HEADER_SIZE + Z.to_nat len)%nat in
  let last := (first + alloc_size)%nat in
  _ ← grow last true;
  len ← st_lift (add32 len (wrap 32 (Z.of_nat alloc_size)));
  _ ← st_modify (fun m => m <| m_length := len |>);
  let attr_length := wrap 16 (Z.of_nat (length v)) in
  _ ← modify_raw (raw_copy first (put_u16 t ++ put_u16 attr_length ++ v));
  let attr := mkRawAttribute t attr_length v in
  _ ← st_when (negb (Z.to_nat attr_length mod PADDING =? 0)%nat)
        (let bytes_to_add := (nearest_padded_value_length (length v) - length v)%nat in
         let last := (last + bytes_to_add)%nat in
         _ ← grow last true;
         _ ← modify_raw (raw_copy (last - bytes_to_add) (replicate bytes_to_add Byte.x00));
         len ← st_lift (add32 len (Z.of_nat bytes_to_add));
         st_modify (fun m => m <| m_length := len |>));
  _ ← st_modify (fun m => m <| m_attributes ::= fun l => l ++ [attr] |>);
  write_length.

(** [trait Setter] *)
Class Setter (T : Type) := add_to : T -> SM unit.

#[export] Instance MessageType_setter : Setter MessageType := set_type.

(** [TransactionId::add_to] *)
Definition TransactionId_add_to (id : bytes) : SM unit :=
  _ ← st_modify (fun m => m <| m_transaction_id := id |>);
  write_transaction_id.

(** [Message::add_to]: the transaction id of another message. *)
#[export] Instance Message_setter : Setter Message := fun m => TransactionId_add_to (m_transaction_id m).

#[export] Instance RawAttribute_setter : Setter RawAttribute := fun a => add (ra_typ a) (ra_value a).

(** [build]; a [Box<dyn Setter>] is its [add_to]. *)
Definition build (setters : list (SM unit)) : SM unit :=
  _ ← st_modify reset;
  _ ← write_header;
  st_for setters (fun s => s).

(** The attribute loop of [decode]. *)
Fixpoint decode_attributes (fuel size offset : nat) (b : bytes) : SM unit :=
  if (offset <? size)%nat then
    match fuel with
    | O => fun m => (OutOfFuel, m)
    | S fuel' =>
        if (length b <? ATTRIBUTE_HEADER_SIZE)%nat
        then st_raise (StunErrOther (BufferLengthLess (length b) ATTRIBUTE_HEADER_SIZE))
        else
          '(t, r) ← st_lift (get_u16 b);
          '(a_length, _) ← st_lift (get_u16 r);
          let typ := compat_attr_type t in
          let a_l := Z.to_nat a_length in
          let a_buff_l := nearest_padded_value_length a_l in
          let b := drop ATTRIBUTE_HEADER_SIZE b in
          let offset := (offset + ATTRIBUTE_HEADER_SIZE)%nat in
          if (length b <? a_buff_l)%nat
          then st_raise (StunErrOther (BufferLengthLess (length b) a_buff_l))
          else
            value ← st_lift (slice b 0 a_l);
            let offset := (offset + a_buff_l)%nat in
            let b := drop a_buff_l b in
            _ ← st_modify (fun m => m <| m_attributes ::= fun l => l ++ [mkRawAttribute typ a_length value] |>);
            decode_attributes fuel' size offset b
    end
  else mret tt.

Definition decode : SM unit :=
  buf ← st_get m_raw;
  if (length buf <? MESSAGE_HEADER_SIZE)%nat then st_raise ErrUnexpectedHeaderEof
  else
    '(t, r) ← st_lift (get_u16 buf);
    '(size, r) ← st_lift (get_u16 r);
    '(cookie, _) ← st_lift (get_u32 r);
    let size := Z.to_nat size in
    let full_size := (MESSAGE_HEADER_SIZE + size)%nat in
    if negb (cookie =? MAGIC_COOKIE) then st_raise (StunErrOther (InvalidMagicCookie cookie))
    else if (length buf <? full_size)%nat then st_raise (StunErrOther (BufferLengthLess (length buf) full_size))
    else
      id ← st_lift (slice buf 8 MESSAGE_HEADER_SIZE);
      _ ← st_modify (fun m => m <| m_typ := MessageType_read_value t |> <| m_length := Z.of_nat size |>
                                <| m_transaction_id := id |> <| m_attributes := [] |>);
      b ← st_lift (slice buf MESSAGE_HEADER_SIZE full_size);
      decode_attributes size size 0 b.
End ops.

Definition is_message (b : bytes) : bool :=
  (MESSAGE_HEADER_SIZE <=? length b)%nat &&
  match get_u32 (E := StunError) (drop 4 b) with Ok (cookie, _) => cookie =? MAGIC_COOKIE | _ => false end.

Definition contains (m : Message) (t : AttrType) : bool := existsb (fun a => ra_typ a =? t) (m_attributes m).

Definition get (m : Message) (t : AttrType) : res StunError bytes :=
  match Attributes_get (m_attributes m) t with
  | Some a => Ok (ra_value a)
  | None => Err ErrAttributeNotFound
  end.
