(* ===== verification/StunLaws.v ===== *)
(** STUN messages: what building writes, and that decoding reads it back. *)
From S2P Require Import Prelude Stun.

(** * The message type field *)
(** A mask of [w] ones above [k] zeros selects a field. *)
Lemma land_field v k w : 0 <= k -> 0 <= w -> Z.land v (Z.shiftl (Z.ones w) k) = (v / 2 ^ k) mod 2 ^ w * 2 ^ k.
Proof.
  intros Hk Hw. rewrite <- Z.land_ones, <- Z.shiftr_div_pow2, <- Z.shiftl_mul_pow2 by done.
  apply Z.bits_inj'. intros n Hn. rewrite Z.land_spec, !Z.shiftl_spec, Z.land_spec by done.
  destruct (Z.ltb_spec n k) as [Hnk|Hnk].
  - by rewrite !(Z.testbit_neg_r _ (n - k)), andb_false_r by lia.
  - rewrite Z.shiftr_spec by lia. do 2 f_equal. lia.
Qed.

Ltac field v m k w := change (Z.land v m) with (Z.land v (Z.shiftl (Z.ones w) k)); rewrite (land_field v k w) by done.

Ltac powers :=
  change (2 ^ METHOD_BSHIFT) with 2; change (2 ^ METHOD_DSHIFT) with 4; change (2 ^ CLASS_C0SHIFT) with 16;
  change (2 ^ CLASS_C1SHIFT) with 128; change (2 ^ 0) with 1; change (2 ^ 1) with 2; change (2 ^ 4) with 16;
  change (2 ^ 3) with 8; change (2 ^ 7) with 128; change (2 ^ 5) with 32.

Lemma message_type_value_read method class : 0 <= method < 4096 -> 0 <= class < 4 ->
  MessageType_read_value (MessageType_value (mkMessageType method class)) = mkMessageType method class /\
  0 <= MessageType_value (mkMessageType method class) < 16384.
Proof.
  intros Hm Hc. unfold MessageType_read_value, MessageType_value. cbn [mt_method mt_class].
  rewrite !Z.shiftl_mul_pow2, !Z.shiftr_div_pow2 by done.
  field method METHOD_ABITS 0 4. field method METHOD_BBITS 4 3. field method METHOD_DBITS 7 5.
  field class C0BIT 0 1. field class C1BIT 1 1.
  assert (Hparts : exists a b d c0 c1, 0 <= a < 16 /\ 0 <= b < 8 /\ 0 <= d < 32 /\ 0 <= c0 < 2 /\ 0 <= c1 < 2 /\
    method = a + 16 * b + 128 * d /\ class = c0 + 2 * c1).
  { exists (method mod 16), (method / 16 mod 8), (method / 128), (class mod 2), (class / 2).
    repeat split; Z.div_mod_to_equations; lia. }
  destruct Hparts as (a & b & d & c0 & c1 & Ha & Hb & Hd & Hc0 & Hc1 & -> & ->).
  set (v := _ + _ + _ + _).
  assert (Hv : v = a + 32 * b + 512 * d + 16 * c0 + 256 * c1).
  { subst v. powers. Z.div_mod_to_equations. lia. }
  clearbody v. subst v.
  match goal with |- context [Z.land (?v / 2 ^ CLASS_C0SHIFT) C0BIT] => set (w := v) end.
  field (w / 2 ^ CLASS_C0SHIFT) C0BIT 0 1. field (w / 2 ^ CLASS_C1SHIFT) C1BIT 1 1.
  field w METHOD_ABITS 0 4. field (w / 2 ^ METHOD_BSHIFT) METHOD_BBITS 4 3. field (w / 2 ^ METHOD_DSHIFT) METHOD_DBITS 7 5.
  powers. rewrite !Z.div_1_r, !Z.div_div by done. split; [|lia].
  assert (w mod 16 = a) as -> by (Z.div_mod_to_equations; lia).
  assert ((w / 16) mod 2 = c0) as -> by (Z.div_mod_to_equations; lia).
  assert ((w / (128 * 2)) mod 2 = c1) as -> by (Z.div_mod_to_equations; lia).
  assert ((w / (2 * 16)) mod 8 = b) as -> by (Z.div_mod_to_equations; lia).
  assert ((w / (4 * 128)) mod 32 = d) as -> by (Z.div_mod_to_equations; lia).
  f_equal; lia.
Qed.

(** * The layout of a message *)
Lemma nearest_padded_spec l : let n := nearest_padded_value_length l in
  (l <= n < l + 4)%nat /\ (n mod 4 = 0)%nat.
Proof.
  cbv zeta. unfold nearest_padded_value_length, PADDING.
  pose proof (Nat.div_mod l 4 ltac:(lia)) as Hd. pose proof (Nat.mod_upper_bound l 4 ltac:(lia)) as Hm.
  set (q := (l / 4)%nat) in *. clearbody q. destruct (Nat.ltb_spec (4 * q) l).
  - split; [lia|]. replace (4 * q + 4)%nat with ((q + 1) * 4)%nat by lia. apply Nat.Div0.mod_mul.
  - split; [lia|]. rewrite Nat.mul_comm. apply Nat.Div0.mod_mul.
Qed.

Lemma nearest_padded_exact l : (l mod 4 = 0)%nat -> nearest_padded_value_length l = l.
Proof.
  intros Hl. unfold nearest_padded_value_length, PADDING. pose proof (Nat.div_mod l 4 ltac:(lia)).
  destruct (Nat.ltb_spec (4 * (l / 4)) l); lia.
Qed.

Definition header (typ : MessageType) (length : Z) (id : bytes) : bytes :=
  put_u16 (MessageType_value typ) ++ put_u16 (wrap 16 length) ++ put_u32 MAGIC_COOKIE ++ id.

Definition tlv (t : AttrType) (v : bytes) : bytes :=
  (put_u16 t ++ put_u16 (wrap 16 (Z.of_nat (length v))) ++ v)
  ++ replicate (nearest_padded_value_length (length v) - length v) Byte.x00.

Definition tlvs (l : list (AttrType * bytes)) : bytes := flat_map (fun '(t, v) => tlv t v) l.

Definition raw_attribute '((t, v) : AttrType * bytes) : RawAttribute :=
  mkRawAttribute t (wrap 16 (Z.of_nat (length v))) v.

Lemma tlv_length t v : length (tlv t v) = (4 + nearest_padded_value_length (length v))%nat.
Proof.
  unfold tlv. rewrite !length_app, !length_put_u16, length_replicate.
  pose proof (nearest_padded_spec (length v)) as [H _]. lia.
Qed.

Lemma tlvs_app l t v : tlvs (l ++ [(t, v)]) = tlvs l ++ tlv t v.
Proof. unfold tlvs. rewrite flat_map_app. cbn [flat_map]. by rewrite app_nil_r. Qed.

Lemma header_length typ len id : length id = 12%nat -> length (header typ len id) = 20%nat.
Proof. intros Hi. unfold header. rewrite !length_app, !length_put_u16, length_put_u32. lia. Qed.

(** A message whose raw bytes are its header and its attributes. *)
Record built (m : Message) (l : list (AttrType * bytes)) : Prop := {
  bu_id : length (m_transaction_id m) = 12%nat;
  bu_length : m_length m = Z.of_nat (length (tlvs l));
  bu_attributes : m_attributes m = map raw_attribute l;
  bu_raw : m_raw m = header (m_typ m) (m_length m) (m_transaction_id m) ++ tlvs l
}.

Lemma raw_copy_mid {E} (raw p old s src : bytes) first : raw = p ++ old ++ s -> first = length p ->
  length src = length old -> raw_copy (E := E) first src raw = Ok (p ++ src ++ s).
Proof.
  intros -> -> Hl. unfold raw_copy. rewrite leb_true by (rewrite !length_app; lia).
  rewrite take_app_length, (app_assoc p old s), drop_app_length' by (rewrite length_app; lia). done.
Qed.

Lemma grow_keep n raw : (n <= length raw)%nat -> grow_raw n false raw = raw.
Proof. intros Hn. unfold grow_raw. by rewrite leb_true. Qed.

Lemma grow_extend n raw b : (length raw <= n)%nat ->
  grow_raw n b raw = raw ++ replicate (n - length raw) Byte.x00.
Proof.
  intros Hn. unfold grow_raw. destruct (Nat.leb_spec n (length raw)); [|done].
  replace n with (length raw) by lia. rewrite Nat.sub_diag, app_nil_r. destruct b; [|done].
  by rewrite take_ge.
Qed.

(** Growing the buffer for [src] and copying [src] there appends it. *)
Lemma raw_copy_grow {E} raw src n b : n = (length raw + length src)%nat ->
  raw_copy (E := E) (length raw) src (grow_raw n b raw) = Ok (raw ++ src).
Proof.
  intros ->. rewrite grow_extend by lia.
  rewrite (raw_copy_mid _ raw (replicate (length raw + length src - length raw) Byte.x00) []);
    [by rewrite app_nil_r|by rewrite app_nil_r|done|rewrite length_replicate; lia].
Qed.

Lemma write_length_raw typ len id attrs p old s : length p = 2%nat -> length old = 2%nat ->
  write_length (mkMessage typ len id attrs (p ++ old ++ s))
  = (Ok tt, mkMessage typ len id attrs (p ++ put_u16 (wrap 16 len) ++ s)).
Proof.
  intros Hp Ho. unfold write_length, grow, modify_raw, set. st_run. cbn [m_raw m_length].
  rewrite grow_keep by (rewrite !length_app; lia).
  by rewrite (raw_copy_mid (p ++ old ++ s) p old s _ 2) by done.
Qed.

Section add.
Context {P : Profile}.

(** The length in the header is written again, whatever it was. *)
Lemma add_raw m l t v x : built m l ->
  Z.of_nat (length (tlvs l)) + 4 + Z.of_nat (length v) + 3 < 2 ^ 32 ->
  exists m', add t v (m <| m_raw := header (m_typ m) x (m_transaction_id m) ++ tlvs l |>) = (Ok tt, m') /\
    built m' (l ++ [(t, v)]) /\ m_typ m' = m_typ m /\ m_transaction_id m' = m_transaction_id m.
Proof.
  intros [Hid Hlen Hattr _] Hsize. destruct m as [typ len id attrs raw0].
  cbn [m_typ m_length m_transaction_id m_attributes m_raw] in *. unfold set at 1.
  cbn [m_typ m_length m_transaction_id m_attributes m_raw].
  set (raw := header typ x id ++ tlvs l). assert (Hraw : raw = header typ x id ++ tlvs l) by done. clearbody raw.
  pose proof (header_length typ x id Hid) as Hh. pose proof (nearest_padded_spec (length v)) as [Hn1 Hn2].
  assert (Hrl : length raw = (20 + length (tlvs l))%nat) by (rewrite Hraw, length_app; lia).
  set (pad := (nearest_padded_value_length (length v) - length v)%nat) in *.
  set (body := put_u16 t ++ put_u16 (wrap 16 (Z.of_nat (length v))) ++ v).
  assert (Hbody : length body = (4 + length v)%nat) by (unfold body; rewrite !length_app, !length_put_u16; lia).
  assert (Hfirst : (MESSAGE_HEADER_SIZE + Z.to_nat len)%nat = length raw) by (unfold MESSAGE_HEADER_SIZE; lia).
  assert (Hpad : negb (Z.to_nat (wrap 16 (Z.of_nat (length v))) mod PADDING =? 0)%nat = negb (pad =? 0)%nat).
  { f_equal. assert (Hmod : (Z.to_nat (wrap 16 (Z.of_nat (length v))) mod 4 = length v mod 4)%nat).
    { unfold wrap. change (2 ^ 16) with 65536. apply Nat2Z.inj.
      rewrite !Nat2Z.inj_mod, Z2Nat.id by (apply Z.mod_pos_bound; lia).
      change (Z.of_nat 4) with 4. Z.div_mod_to_equations. lia. }
    unfold PADDING. rewrite Hmod. destruct (Nat.eqb_spec (length v mod 4) 0) as [H0|H0], (Nat.eqb_spec pad 0); try done.
    - unfold pad in *. rewrite nearest_padded_exact in * by done. lia.
    - exfalso. apply H0. unfold pad in *. replace (length v) with (nearest_padded_value_length (length v)) by lia. done. }
  assert (Hfinish : forall len' raw', len' = Z.of_nat (length (tlvs (l ++ [(t, v)]))) ->
    raw' = raw ++ body ++ replicate pad Byte.x00 ->
    exists m', write_length (mkMessage typ len' id (attrs ++ [raw_attribute (t, v)]) raw') = (Ok tt, m') /\
      built m' (l ++ [(t, v)]) /\ m_typ m' = typ /\ m_transaction_id m' = id).
  { intros len' raw' Hlen' Hraw'. eexists. split.
    - replace raw' with (put_u16 (MessageType_value typ) ++ put_u16 (wrap 16 x) ++
        (put_u32 MAGIC_COOKIE ++ id) ++ tlvs l ++ body ++ replicate pad Byte.x00)
        by (rewrite Hraw', Hraw; unfold header; by rewrite <- !app_assoc).
      by apply write_length_raw.
    - split; [|done]. split; cbn [m_typ m_length m_transaction_id m_attributes m_raw]; [done|done| |].
      + by rewrite Hattr, map_app.
      + rewrite tlvs_app. unfold header, tlv. fold pad body. by rewrite <- !app_assoc. }
  assert (Htl : length (tlvs (l ++ [(t, v)])) = (length (tlvs l) + (4 + nearest_padded_value_length (length v)))%nat).
  { by rewrite tlvs_app, length_app, tlv_length. }
  unfold add, grow, modify_raw, st_when, set. st_run. cbn [m_typ m_length m_transaction_id m_attributes m_raw].
  cbv zeta. rewrite Hfirst, Hpad. fold body. unfold ATTRIBUTE_HEADER_SIZE.
  rewrite wrap_small by (unfold in_range; lia). rewrite arith_ok by (unfold in_range; lia). cbv iota beta.
  rewrite (raw_copy_grow raw body (length raw + (4 + length v)) true) by lia. cbv iota beta.
  destruct (Nat.eqb_spec pad 0) as [Hp0|Hp0]; cbn [negb m_typ m_length m_transaction_id m_attributes m_raw].
  - apply Hfinish; [lia|]. by rewrite Hp0, app_nil_r.
  - fold pad.
    replace (length raw + (4 + length v) + pad - pad)%nat with (length (raw ++ body)) by (rewrite length_app; lia).
    rewrite (raw_copy_grow (raw ++ body)) by (rewrite length_app, length_replicate; lia). cbv iota beta.
    rewrite arith_ok by (unfold in_range; lia). cbn [m_typ m_length m_transaction_id m_attributes m_raw].
    apply Hfinish; [lia|]. by rewrite <- app_assoc.
Qed.

Lemma add_built m l t v : built m l ->
  Z.of_nat (length (tlvs l)) + 4 + Z.of_nat (length v) + 3 < 2 ^ 32 ->
  exists m', add t v m = (Ok tt, m') /\ built m' (l ++ [(t, v)]) /\
    m_typ m' = m_typ m /\ m_transaction_id m' = m_transaction_id m.
Proof.
  intros Hm Hs. destruct (add_raw m l t v (m_length m) Hm Hs) as (m' & Ha & H). exists m'. split; [|done].
  rewrite <- Ha. f_equal. destruct m as [typ len id attrs raw]. unfold set. f_equal. apply (bu_raw _ _ Hm).
Qed.
End add.

(** * Building *)
(** The fields of a message that fit their widths on the wire. *)
Record wire_type (t : MessageType) : Prop := {
  wt_method : 0 <= mt_method t < 4096;
  wt_class : 0 <= mt_class t < 4
}.

Definition wire_attr '((t, v) : AttrType * bytes) : Prop := in_range 16 t /\ t <> 0x8020.

Lemma wire_type_read t : wire_type t ->
  MessageType_read_value (MessageType_value t) = t /\ in_range 16 (MessageType_value t).
Proof.
  intros [Hm Hc]. destruct t as [method class]. cbn in Hm, Hc.
  destruct (message_type_value_read method class Hm Hc) as [H1 H2]. split; [done|].
  unfold in_range. change (2 ^ 16) with 65536. lia.
Qed.

Lemma write_type_raw typ len id attrs old s : length old = 2%nat ->
  write_type (mkMessage typ len id attrs (old ++ s))
  = (Ok tt, mkMessage typ len id attrs (put_u16 (MessageType_value typ) ++ s)).
Proof.
  intros Ho. unfold write_type, grow, modify_raw, set. st_run. cbn [m_raw m_typ].
  rewrite grow_keep by (rewrite length_app; lia).
  by rewrite (raw_copy_mid (old ++ s) [] old s _ 0) by done.
Qed.

Lemma write_transaction_id_raw typ len id attrs p old s : length p = 8%nat -> length id = length old ->
  write_transaction_id (mkMessage typ len id attrs (p ++ old ++ s))
  = (Ok tt, mkMessage typ len id attrs (p ++ id ++ s)).
Proof.
  intros Hp Ho. unfold write_transaction_id, modify_raw, set. st_run. cbn [m_raw m_transaction_id].
  by rewrite (raw_copy_mid (p ++ old ++ s) p old s _ 8).
Qed.

Lemma header_parts (p : bytes) : length p = 20%nat -> exists p0 p2 p4 p8,
  p = p0 ++ p2 ++ p4 ++ p8 /\ length p0 = 2%nat /\ length p2 = 2%nat /\ length p4 = 4%nat /\ length p8 = 12%nat.
Proof.
  intros Hl. exists (take 2 p), (take 2 (drop 2 p)), (take 4 (drop 4 p)), (drop 8 p).
  split; [|by rewrite !length_take, !length_drop, Hl].
  change (drop 8 p) with (drop (4 + 4) p). rewrite <- (drop_drop p 4 4), take_drop.
  change (drop 4 p) with (drop (2 + 2) p). by rewrite <- (drop_drop p 2 2), !take_drop.
Qed.

Lemma write_header_built m : m_raw m = [] -> m_length m = 0 -> m_attributes m = [] ->
  length (m_transaction_id m) = 12%nat ->
  exists m', write_header m = (Ok tt, m') /\ built m' [] /\ m_typ m' = m_typ m /\
    m_transaction_id m' = m_transaction_id m.
Proof.
  destruct m as [typ len id attrs raw]. cbn. intros -> -> -> Hid.
  destruct (header_parts (replicate 20 Byte.x00) eq_refl) as (p0 & p2 & p4 & p8 & Hp & H0 & H2 & H4 & H8).
  unfold write_header, grow at 1, modify_raw, set. st_run. cbn [m_raw m_typ m_length m_transaction_id m_attributes].
  change (grow_raw MESSAGE_HEADER_SIZE false []) with (replicate 20 Byte.x00). rewrite Hp.
  rewrite write_type_raw, write_length_raw by done.
  cbn [m_raw]. rewrite (app_assoc (put_u16 _) (put_u16 _)).
  rewrite (raw_copy_mid _ (put_u16 (MessageType_value typ) ++ put_u16 (wrap 16 0)) p4 p8 _ 4) by done.
  cbn [m_raw m_typ m_length m_transaction_id m_attributes].
  rewrite (app_assoc _ (put_u32 _)), <- (app_nil_r p8), write_transaction_id_raw by (done || lia).
  eexists. split; [done|]. split; [|done]. split; [done..|]. cbn [m_raw m_typ m_length m_transaction_id m_attributes].
  unfold header. by rewrite !app_nil_r, <- !app_assoc.
Qed.

(** * Decoding *)
Section decoding.
Context {P : Profile}.

Lemma compat_attr_other t : t <> 0x8020 -> compat_attr_type t = t.
Proof. intros Ht. unfold compat_attr_type. by destruct (Z.eqb_spec t 0x8020). Qed.

Lemma decode_attributes_tlvs l : forall fuel size offset typ len id attrs raw,
  Forall wire_attr l -> Z.of_nat (length (tlvs l)) < 65536 ->
  size = (offset + length (tlvs l))%nat -> (length l <= fuel)%nat ->
  decode_attributes fuel size offset (tlvs l) (mkMessage typ len id attrs raw)
  = (Ok tt, mkMessage typ len id (attrs ++ map raw_attribute l) raw).
Proof.
  induction l as [|[t v] l IH]; intros fuel size offset typ len id attrs raw Hl Hsize Hs Hf.
  - cbn [tlvs flat_map length] in *. destruct fuel; cbn [decode_attributes]; rewrite ltb_false by lia; cbn; by rewrite app_nil_r.
  - destruct fuel as [|fuel]; [cbn in Hf; lia|]. apply Forall_cons in Hl as [[Ht1 Ht2] Hl].
    change (tlvs ((t, v) :: l)) with (tlv t v ++ tlvs l) in *. rewrite length_app, tlv_length in Hsize, Hs.
    pose proof (nearest_padded_spec (length v)) as [Hn _]. cbn [decode_attributes].
    rewrite ltb_true by lia. rewrite ltb_false by (rewrite length_app, tlv_length; unfold ATTRIBUTE_HEADER_SIZE; lia).
    assert (Hv : wrap 16 (Z.of_nat (length v)) = Z.of_nat (length v))
      by (apply wrap_small; unfold in_range; change (2 ^ 16) with 65536; lia).
    assert (Htlv : tlv t v ++ tlvs l = put_u16 t ++ put_u16 (Z.of_nat (length v)) ++ v
      ++ replicate (nearest_padded_value_length (length v) - length v) Byte.x00 ++ tlvs l)
      by (unfold tlv; rewrite Hv, <- !app_assoc; done).
    rewrite Htlv. st_run. rewrite get_put_u16 by done. rewrite get_put_u16
      by (unfold in_range; change (2 ^ 16) with 65536; lia).
    rewrite Nat2Z.id, compat_attr_other by done.
    change (drop ATTRIBUTE_HEADER_SIZE (put_u16 t ++ put_u16 (Z.of_nat (length v)) ++ ?r)) with r.
    rewrite ltb_false by (rewrite !length_app, length_replicate; lia).
    match goal with |- context [slice (v ++ ?s) 0 (length v)] =>
      rewrite (slice_app (v ++ s) [] v s 0 (length v)) by done end.
    rewrite (app_assoc v), drop_app_length' by (rewrite length_app, length_replicate; lia).
    unfold set. cbn [m_raw m_typ m_length m_transaction_id m_attributes].
    rewrite IH; [|done|lia|unfold ATTRIBUTE_HEADER_SIZE; lia|cbn in Hf; lia].
    rewrite <- app_assoc. cbn [map app]. unfold raw_attribute at 2. by rewrite Hv.
Qed.

Lemma length_tlvs_ge l : (4 * length l <= length (tlvs l))%nat.
Proof.
  induction l as [|[t v] l IH]; [done|]. change (tlvs ((t, v) :: l)) with (tlv t v ++ tlvs l).
  rewrite length_app, tlv_length. cbn [length]. lia.
Qed.

Lemma decode_built m l rest m1 : built m l -> wire_type (m_typ m) -> Forall wire_attr l ->
  Z.of_nat (length (tlvs l)) < 65536 -> m_raw m1 = m_raw m ++ rest ->
  decode m1 = (Ok tt, m <| m_raw := m_raw m ++ rest |>).
Proof.
  intros [Hid Hlen Hattr Hraw] Hwt Hl Hsize Hm1. destruct m as [typ len id attrs raw].
  cbn [m_typ m_length m_transaction_id m_attributes m_raw] in *. destruct m1 as [typ1 len1 id1 attrs1 raw1].
  cbn [m_raw] in Hm1. subst attrs len raw raw1.
  pose proof (wire_type_read _ Hwt) as [Hread Hty]. pose proof (header_length typ (Z.of_nat (length (tlvs l))) id Hid) as Hh.
  set (raw := (header typ (Z.of_nat (length (tlvs l))) id ++ tlvs l) ++ rest).
  assert (Hrl : length raw = (20 + length (tlvs l) + length rest)%nat) by (unfold raw; rewrite !length_app; lia).
  assert (Hraw : raw = put_u16 (MessageType_value typ) ++ put_u16 (Z.of_nat (length (tlvs l))) ++
    put_u32 MAGIC_COOKIE ++ id ++ tlvs l ++ rest).
  { unfold raw, header. rewrite wrap_small by (unfold in_range; change (2 ^ 16) with 65536; lia).
    by rewrite <- !app_assoc. }
  unfold decode, set. st_run. cbn [m_raw]. unfold MESSAGE_HEADER_SIZE. rewrite ltb_false by lia.
  rewrite Hraw at 1. rewrite get_put_u16 by done. rewrite get_put_u16 by (unfold in_range; change (2 ^ 16) with 65536; lia).
  rewrite get_put_u32 by done. rewrite Z.eqb_refl, Nat2Z.id. cbn [negb]. rewrite ltb_false by lia.
  assert (Hs1 : slice (E := StunError) raw 8 20 = Ok id)
    by (eapply (slice_app raw (put_u16 (MessageType_value typ) ++ put_u16 (Z.of_nat (length (tlvs l))) ++
          put_u32 MAGIC_COOKIE) id (tlvs l ++ rest)); [rewrite Hraw, <- ?app_assoc; done|done|by rewrite Hid]).
  rewrite Hs1. cbn [m_typ m_length m_transaction_id m_attributes m_raw]. rewrite Hread.
  assert (Hs2 : slice (E := StunError) raw 20 (20 + length (tlvs l)) = Ok (tlvs l))
    by (eapply (slice_app raw (header typ (Z.of_nat (length (tlvs l))) id)); [unfold raw; by rewrite app_assoc|by rewrite Hh|done]).
  rewrite Hs2. pose proof (length_tlvs_ge l). rewrite decode_attributes_tlvs; [done|done|lia|lia|lia].
Qed.
End decoding.

(** * Building and decoding *)
Section build.
Context {P : Profile}.

(** The setters of a request: its type, its transaction id, its attributes. *)
Definition setters (typ : MessageType) (id : bytes) (l : list (AttrType * bytes)) : list (SM unit) :=
  add_to typ :: TransactionId_add_to id :: map (fun '(t, v) => add t v) l.

Lemma set_type_built m typ : built m [] -> exists m', set_type typ m = (Ok tt, m') /\ built m' [] /\
  m_typ m' = typ /\ m_transaction_id m' = m_transaction_id m.
Proof.
  destruct m as [typ0 len id attrs raw]. intros [Hid Hlen Hattr Hraw].
  cbn [m_typ m_length m_transaction_id m_attributes m_raw] in *. subst raw. unfold set_type, set. st_run.
  cbn [m_typ m_length m_transaction_id m_attributes m_raw]. unfold header. rewrite <- !app_assoc.
  rewrite write_type_raw by done. eexists. split; [done|]. split; [|done]. split; [done..|].
  cbn [m_typ m_length m_transaction_id m_attributes m_raw]. unfold header. by rewrite <- !app_assoc.
Qed.

Lemma set_id_built m id : built m [] -> length id = 12%nat -> exists m', TransactionId_add_to id m = (Ok tt, m') /\
  built m' [] /\ m_typ m' = m_typ m /\ m_transaction_id m' = id.
Proof.
  destruct m as [typ len id0 attrs raw]. intros [Hid Hlen Hattr Hraw] Hi.
  cbn [m_typ m_length m_transaction_id m_attributes m_raw] in *. subst raw. unfold TransactionId_add_to, set. st_run.
  cbn [m_typ m_length m_transaction_id m_attributes m_raw]. unfold header. rewrite <- !app_assoc.
  rewrite (app_assoc (put_u16 _) (put_u16 _)), (app_assoc _ (put_u32 _)).
  rewrite write_transaction_id_raw by (done || lia). eexists. split; [done|]. split; [|done]. split; [done..|].
  cbn [m_typ m_length m_transaction_id m_attributes m_raw]. unfold header. by rewrite <- !app_assoc.
Qed.

Lemma adds_built l : forall m l0, built m l0 -> Z.of_nat (length (tlvs (l0 ++ l))) + 8 < 2 ^ 32 ->
  exists m', st_for (map (fun '(t, v) => add t v) l) (fun s => s) m = (Ok tt, m') /\ built m' (l0 ++ l) /\
    m_typ m' = m_typ m /\ m_transaction_id m' = m_transaction_id m.
Proof.
  induction l as [|[t v] l IH]; intros m l0 Hm Hs.
  - rewrite app_nil_r. by exists m.
  - replace (l0 ++ (t, v) :: l) with ((l0 ++ [(t, v)]) ++ l) in * by (by rewrite <- app_assoc).
    assert (Htl : tlvs ((l0 ++ [(t, v)]) ++ l) = tlvs l0 ++ tlv t v ++ tlvs l)
      by (unfold tlvs; by rewrite !flat_map_app, <- app_assoc; cbn; rewrite app_nil_r).
    rewrite Htl, !length_app, tlv_length in Hs. pose proof (nearest_padded_spec (length v)) as [Hn _].
    destruct (add_built m l0 t v Hm) as (m1 & Ha & Hm1 & Ht1 & Hi1); [lia|].
    destruct (IH m1 (l0 ++ [(t, v)]) Hm1) as (m2 & Hf & Hm2 & Ht2 & Hi2);
      [rewrite Htl, !length_app, tlv_length; lia|].
    exists m2. cbn [map st_for]. unfold mbind, st_bind. rewrite Ha. split; [exact Hf|]. split; [done|]. split; congruence.
Qed.

Lemma build_built m0 typ id l : length (m_transaction_id m0) = 12%nat -> length id = 12%nat ->
  Z.of_nat (length (tlvs l)) + 8 < 2 ^ 32 ->
  exists m, build (setters typ id l) m0 = (Ok tt, m) /\ built m l /\ m_typ m = typ /\ m_transaction_id m = id.
Proof.
  intros H0 Hid Hs. destruct m0 as [typ0 len0 id0 attrs0 raw0]. cbn in H0. unfold build, reset, set. st_run.
  cbn [m_typ m_length m_transaction_id m_attributes m_raw].
  destruct (write_header_built (mkMessage typ0 0 id0 [] [])) as (m1 & H1 & Hb1 & _ & _); [done..|]. rewrite H1.
  destruct (set_type_built m1 typ Hb1) as (m2 & H2 & Hb2 & Ht2 & _).
  destruct (set_id_built m2 id Hb2 Hid) as (m3 & H3 & Hb3 & Ht3 & Hi3).
  destruct (adds_built l m3 [] Hb3 Hs) as (m4 & H4 & Hb4 & Ht4 & Hi4).
  exists m4. cbn [setters st_for]. unfold mbind, st_bind, add_to, MessageType_setter. rewrite H2, H3.
  split; [exact H4|]. split; [done|]. split; congruence.
Qed.


(** What decoding accepts: the attributes tile the announced length. *)
Definition tiles (attrs : list RawAttribute) : nat :=
  sum_list_with (fun a => (4 + nearest_padded_value_length (length (ra_value a)))%nat) attrs.

Definition attr_wf (a : RawAttribute) : Prop := ra_length a = Z.of_nat (length (ra_value a)) /\ ra_typ a <> 0x8020.

Lemma tiles_app l a : tiles (l ++ [a]) = (tiles l + (4 + nearest_padded_value_length (length (ra_value a))))%nat.
Proof. unfold tiles. rewrite sum_list_with_app. cbn. lia. Qed.

Lemma decode_attributes_spec b : forall fuel size offset m, (size - offset <= fuel)%nat ->
  size = (offset + length b)%nat -> tiles (m_attributes m) = offset -> Forall attr_wf (m_attributes m) ->
  exists r attrs, decode_attributes fuel size offset b m = (r, m <| m_attributes := attrs |>) /\ safe r /\
    Forall attr_wf attrs /\ (r = Ok tt -> tiles attrs = size).
Proof.
  intros fuel. revert b. induction fuel as [|fuel IH]; intros b size offset m Hf Hs Ht Hw; cbn [decode_attributes].
  - rewrite ltb_false by lia. exists (Ok tt), (m_attributes m). destruct m; cbn in *. split_and!; [done..|]. intros _. lia.
  - destruct (Nat.ltb_spec offset size) as [Hlt|]; cycle 1.
    { exists (Ok tt), (m_attributes m). destruct m; cbn in *. split_and!; [done..|]. intros _. lia. }
    destruct (Nat.ltb_spec (length b) ATTRIBUTE_HEADER_SIZE) as [|Hb].
    { eexists _, (m_attributes m). destruct m. by split_and!. }
    unfold ATTRIBUTE_HEADER_SIZE in *.
    destruct (get_u16_ok (E := StunError) b ltac:(lia)) as (t & r1 & Hg1 & Ht1 & Hr1).
    destruct (get_u16_ok (E := StunError) r1 ltac:(lia)) as (al & r2 & Hg2 & Hal & Hr2). st_run. rewrite Hg1, Hg2.
    set (a_l := Z.to_nat al). pose proof (nearest_padded_spec a_l) as [Hn _].
    destruct (Nat.ltb_spec (length (drop 4 b)) (nearest_padded_value_length a_l)) as [|Hd].
    { eexists _, (m_attributes m). destruct m. by split_and!. }
    rewrite slice_ok by lia. rewrite drop_0, Nat.sub_0_r.
    set (v := take a_l (drop 4 b)). assert (Hv : length v = a_l) by (unfold v; rewrite length_take; lia).
    destruct m as [typ len id attrs raw]. cbn [m_attributes] in Ht, Hw. unfold set at 1.
    cbn [m_typ m_length m_transaction_id m_attributes m_raw]. rewrite length_drop in Hd.
    edestruct (IH (drop (nearest_padded_value_length a_l) (drop 4 b)) size (offset + 4 + nearest_padded_value_length a_l)%nat
      (mkMessage typ len id (attrs ++ [mkRawAttribute (compat_attr_type t) al v]) raw)) as (r & attrs' & Hd' & Hsafe & Hw' & Ht');
      cbn [m_attributes]; [lia|rewrite !length_drop; lia|rewrite tiles_app; cbn [ra_value]; rewrite Hv; lia| |].
    + apply Forall_app. split; [done|]. constructor; [|constructor]. split; cbn.
      * rewrite Hv. unfold a_l. rewrite Z2Nat.id; [done|]. apply Hal.
      * unfold compat_attr_type, ATTR_XORMAPPED_ADDRESS. destruct (Z.eqb_spec t 0x8020); lia.
    + exists r, attrs'. split; [exact Hd'|done].
Qed.

(** Decoding any buffer ends, without a panic, and keeps the buffer; on
    success the attributes tile the announced length exactly, which fits in the
    buffer, and each holds as many bytes as its length field says. *)
Lemma stun_decode_total m : exists r m', decode m = (r, m') /\ safe r /\ m_raw m' = m_raw m /\
  (r = Ok tt -> m_length m' = Z.of_nat (tiles (m_attributes m')) /\ Forall attr_wf (m_attributes m') /\
     (20 + tiles (m_attributes m') <= length (m_raw m))%nat /\ length (m_transaction_id m') = 12%nat /\
     m_length m' < 65536).
Proof.
  unfold decode. st_run. set (buf := m_raw m). destruct (Nat.ltb_spec (length buf) MESSAGE_HEADER_SIZE) as [|Hb].
  { eexists _, _. split; [done|]. by split_and!. }
  unfold MESSAGE_HEADER_SIZE in *.
  destruct (get_u16_ok (E := StunError) buf ltac:(lia)) as (t & r1 & Hg1 & _ & Hr1).
  destruct (get_u16_ok (E := StunError) r1 ltac:(lia)) as (sz & r2 & Hg2 & Hsz & Hr2).
  destruct (get_u32_ok (E := StunError) r2 ltac:(lia)) as (ck & r3 & Hg3 & _ & Hr3).
  rewrite Hg1, Hg2, Hg3. destruct (negb (ck =? MAGIC_COOKIE)).
  { eexists _, _. split; [done|]. by split_and!. }
  set (size := Z.to_nat sz). destruct (Nat.ltb_spec (length buf) (20 + size)) as [|Hl].
  { eexists _, _. split; [done|]. by split_and!. }
  rewrite slice_ok by lia. rewrite slice_ok by lia. unfold set. cbn [m_typ m_length m_transaction_id m_attributes m_raw].
  edestruct (decode_attributes_spec (take (20 + size - 20) (drop 20 buf)) size size 0) as (r & attrs & Hd & Hs & Hw & Ht);
    [lia|rewrite length_take, length_drop; lia|..|]; cycle 2.
  - rewrite Hd. eexists r, _. split; [done|]. split; [done|]. split; [done|]. intros Hr.
    cbn [m_typ m_length m_transaction_id m_attributes m_raw set]. rewrite Ht by done. split_and!; [done|done|lia| |].
    + rewrite length_take, length_drop. lia.
    + unfold size. destruct Hsz as [? Hsz]. change (2 ^ 16) with 65536 in Hsz. lia.
  - done.
  - constructor.
Qed.
End build.

(** * Examples *)
Definition example_id : bytes := map byte_of_u8 [1; 2; 3; 4; 5; 6; 7; 8; 9; 10; 11; 12].
Definition example_attrs : list (AttrType * bytes) :=
  [(ATTR_USERNAME, map byte_of_u8 [117; 115; 101; 114; 58]); (ATTR_PRIORITY, put_u32 1845501695); (ATTR_USE_CANDIDATE, [])].

