(* ===== verification/StunAttrs.v ===== *)
(** The STUN attributes ([stun/addr.rs], [stun/xoraddr.rs], [stun/textattrs.rs],
    [stun/uattrs.rs], [stun/error_code.rs], [stun/fingerprint.rs],
    [stun/integrity.rs], [stun/checks.rs]).

    The [crc] crate's CRC-32 and the [ring] crate's HMAC-SHA1 are parameters. *)
From Stdlib Require Import Strings.String.
From S2P Require Import Prelude Utf8 Stun.

(** * Checks *)
Definition check_size (got expected : nat) : res StunError unit :=
  if (got =? expected)%nat then Ok tt else Err ErrAttributeSizeInvalid.

Definition check_hmac (got expected : bytes) : res StunError unit :=
  if bool_decide (got = expected) then Ok tt else Err ErrIntegrityMismatch.

Definition check_overflow (got max : nat) : res StunError unit :=
  if (got <=? max)%nat then Ok tt else Err ErrAttributeSizeOverflow.

(** * Addresses *)
Definition FAMILY_IPV4 : Z := 0x01.
Definition FAMILY_IPV6 : Z := 0x02.
Definition IPV4LEN : nat := 4.
Definition IPV6LEN : nat := 16.

(** [std::net::IpAddr], by its octets *)
Inductive IpAddr : Type := V4 (octets : bytes) | V6 (octets : bytes).

Definition octets (ip : IpAddr) : bytes := match ip with V4 o => o | V6 o => o end.
Definition family_of (ip : IpAddr) : Z := match ip with V4 _ => FAMILY_IPV4 | V6 _ => FAMILY_IPV6 end.
Definition ip_len (ip : IpAddr) : nat := match ip with V4 _ => IPV4LEN | V6 _ => IPV6LEN end.

Record MappedAddress := mkMappedAddress { ma_ip : IpAddr; ma_port : Z }.

Definition bad_family (family : Z) : bool := negb (family =? FAMILY_IPV6) && negb (family =? FAMILY_IPV4).

(** [[0; len]] with the front overwritten by the bytes there are. *)
Definition copy_padded (len : nat) (v : bytes) : bytes :=
  let l := Nat.min len (length v) in take l v ++ replicate (len - l) Byte.x00.

Definition MappedAddress_get_from_as (m : Message) (t : AttrType) : res StunError MappedAddress :=
  v ← get m t;
  if (length v <=? 4)%nat then Err ErrUnexpectedEof
  else
    '(family, r) ← get_u16 v;
    if bad_family family then Err (StunErrOther (BadValue family))
    else
      '(port, r) ← get_u16 r;
      Ok (mkMappedAddress
            (if family =? FAMILY_IPV6 then V6 (copy_padded IPV6LEN r) else V4 (copy_padded IPV4LEN r)) port).

Section setters.
Context {P : Profile}.

Definition MappedAddress_add_to_as (a : MappedAddress) (t : AttrType) : SM unit :=
  let value := put_u16 (family_of (ma_ip a)) ++ put_u16 (ma_port a) ++ octets (ma_ip a) in
  add t value.

#[export] Instance MappedAddress_setter : Setter MappedAddress := fun a => MappedAddress_add_to_as a ATTR_MAPPED_ADDRESS.
End setters.

Definition MappedAddress_get_from (m : Message) : res StunError MappedAddress :=
  MappedAddress_get_from_as m ATTR_MAPPED_ADDRESS.

(** * XOR-mapped addresses *)
Definition byte_xor (a b : byte) : byte := byte_of_u8 (Z.lxor (u8_of_byte a) (u8_of_byte b)).

(** The loop of [safe_xor_bytes] on the first [n] bytes. *)
Fixpoint xor_loop (n : nat) (dst a b : bytes) : bytes :=
  match n, dst, a, b with
  | S n', _ :: dst', x :: a', y :: b' => byte_xor x y :: xor_loop n' dst' a' b'
  | _, _, _, _ => dst
  end.

Definition safe_xor_bytes (dst a b : bytes) : nat * bytes :=
  let n := length a in
  let n := if (length b <? n)%nat then length b else n in
  let n := if (length dst <? n)%nat then length dst else n in
  (n, xor_loop n dst a b).

Definition xor_bytes (dst a b : bytes) : nat * bytes := safe_xor_bytes dst a b.

Record XorMappedAddress := mkXorMappedAddress { xa_ip : IpAddr; xa_port : Z }.

(** [xor_value]: the magic cookie and the transaction id *)
Definition xor_value (id : bytes) : bytes := put_u32 MAGIC_COOKIE ++ id.

Definition xor_port (port : Z) : Z := Z.lxor port (Z.shiftr MAGIC_COOKIE 16).

Section xor_setters.
Context {P : Profile}.

(** The value added is the part of the work buffer the fields fill. *)
Definition XorMappedAddress_add_to_as (a : XorMappedAddress) (t : AttrType) : SM unit :=
  id ← st_get m_transaction_id;
  let ip := octets (xa_ip a) in
  let '(_, xored) := xor_bytes (replicate (ip_len (xa_ip a)) Byte.x00) ip (xor_value id) in
  let value := put_u16 (family_of (xa_ip a)) ++ put_u16 (xor_port (xa_port a)) ++ xored in
  add t value.

#[export] Instance XorMappedAddress_setter : Setter XorMappedAddress := fun a =>
  XorMappedAddress_add_to_as a ATTR_XORMAPPED_ADDRESS.
End xor_setters.

Definition XorMappedAddress_get_from_as (m : Message) (t : AttrType) : res StunError XorMappedAddress :=
  v ← get m t;
  if (length v <=? 4)%nat then Err ErrUnexpectedEof
  else
    '(family, r) ← get_u16 v;
    if bad_family family then Err (StunErrOther (BadValue family))
    else
      _ ← check_overflow (length (drop 4 v)) (if family =? FAMILY_IPV4 then IPV4LEN else IPV6LEN);
      '(port, r) ← get_u16 r;
      let xv := xor_value (m_transaction_id m) in
      let ip :=
        if family =? FAMILY_IPV6 then V6 (snd (xor_bytes (replicate IPV6LEN Byte.x00) r xv))
        else V4 (snd (xor_bytes (replicate IPV4LEN Byte.x00) r xv)) in
      Ok (mkXorMappedAddress ip (xor_port port)).

Definition XorMappedAddress_get_from (m : Message) : res StunError XorMappedAddress :=
  XorMappedAddress_get_from_as m ATTR_XORMAPPED_ADDRESS.

(** * Text attributes *)
Definition MAX_USERNAME_B : nat := 513.
Definition MAX_REALM_B : nat := 763.
Definition MAX_SOFTWARE_B : nat := 763.
Definition MAX_NONCE_B : nat := 763.

Record TextAttribute := mkTextAttribute { ta_attr : AttrType; ta_text : bytes }.

Definition TextAttribute_new (attr : AttrType) (text : bytes) : TextAttribute := mkTextAttribute attr text.

Definition text_max_len (attr : AttrType) : res StunError nat :=
  if attr =? ATTR_USERNAME then Ok MAX_USERNAME_B
  else if attr =? ATTR_REALM then Ok MAX_REALM_B
  else if attr =? ATTR_SOFTWARE then Ok MAX_SOFTWARE_B
  else if attr =? ATTR_NONCE then Ok MAX_NONCE_B
  else Err (StunErrOther (UnsupportedAttrType attr)).

Definition text_attr_supported (attr : AttrType) : bool :=
  (attr =? ATTR_USERNAME) || (attr =? ATTR_REALM) || (attr =? ATTR_SOFTWARE) || (attr =? ATTR_NONCE).

Definition TextAttribute_get_from_as (m : Message) (attr : AttrType) : res StunError TextAttribute :=
  if negb (text_attr_supported attr) then Err (StunErrOther (UnsupportedAttrType attr))
  else
    a ← get m attr;
    if utf8_valid a then Ok (mkTextAttribute attr a) else Err StunErrUtf8.

Definition TextAttribute_get_from (self : TextAttribute) (m : Message) : res StunError TextAttribute :=
  TextAttribute_get_from_as m (ta_attr self).

(** * Unknown attributes *)
Definition ATTR_TYPE_SIZE : nat := 2.

Definition UnknownAttributes_value (types : list AttrType) : bytes := flat_map put_u16 types.

(** The loop of [get_from]; [v] is what is left from [first]. *)
Fixpoint read_types (v : bytes) : list AttrType :=
  match v with
  | b1 :: b0 :: v' => (u8_of_byte b1 * 2 ^ 8 + u8_of_byte b0) :: read_types v'
  | _ => []
  end.

Definition UnknownAttributes_get_from (m : Message) : res StunError (list AttrType) :=
  v ← get m ATTR_UNKNOWN_ATTRIBUTES;
  if negb (length v mod ATTR_TYPE_SIZE =? 0)%nat then Err ErrBadUnknownAttrsSize
  else Ok (read_types v).

(** * Error codes *)
Definition ERROR_CODE_REASON_START : nat := 4.
Definition ERROR_CODE_REASON_MAX_B : nat := 763.
Definition ERROR_CODE_MODULO : Z := 100.

(** [struct ErrorCode(u16)] *)
Abbreviation ErrorCode := Z.

Record ErrorCodeAttribute := mkErrorCodeAttribute { ec_code : ErrorCode; ec_reason : bytes }.

Definition ErrorCodeAttribute_value (a : ErrorCodeAttribute) : bytes :=
  let number := wrap 8 (ec_code a mod ERROR_CODE_MODULO) in
  let class := wrap 8 (ec_code a / ERROR_CODE_MODULO) in
  [Byte.x00; Byte.x00] ++ put_u8 class ++ put_u8 number ++ ec_reason a.

Definition ErrorCodeAttribute_get_from (m : Message) : res StunError ErrorCodeAttribute :=
  v ← get m ATTR_ERROR_CODE;
  if (length v <? ERROR_CODE_REASON_START)%nat then Err ErrUnexpectedEof
  else
    class ← index v 2;
    number ← index v 3;
    Ok (mkErrorCodeAttribute (u8_of_byte class * ERROR_CODE_MODULO + u8_of_byte number)
          (drop ERROR_CODE_REASON_START v)).

Definition CODE_TRY_ALTERNATE : ErrorCode := 300.
Definition CODE_BAD_REQUEST : ErrorCode := 400.
Definition CODE_UNAUTHORIZED : ErrorCode := 401.
Definition CODE_UNKNOWN_ATTRIBUTE : ErrorCode := 420.
Definition CODE_STALE_NONCE : ErrorCode := 438.
Definition CODE_ROLE_CONFLICT : ErrorCode := 487.
Definition CODE_SERVER_ERROR : ErrorCode := 500.
Definition CODE_FORBIDDEN : ErrorCode := 403.
Definition CODE_ALLOC_MISMATCH : ErrorCode := 437.
Definition CODE_WRONG_CREDENTIALS : ErrorCode := 441.
Definition CODE_UNSUPPORTED_TRANS_PROTO : ErrorCode := 442.
Definition CODE_ALLOC_QUOTA_REACHED : ErrorCode := 486.
Definition CODE_INSUFFICIENT_CAPACITY : ErrorCode := 508.
Definition CODE_CONN_ALREADY_EXISTS : ErrorCode := 446.
Definition CODE_CONN_TIMEOUT_OR_FAILURE : ErrorCode := 447.
Definition CODE_ADDR_FAMILY_NOT_SUPPORTED : ErrorCode := 440.
Definition CODE_PEER_ADDR_FAMILY_MISMATCH : ErrorCode := 443.

Definition ERROR_REASONS : gmap Z bytes := list_to_map
  [(CODE_TRY_ALTERNATE, bytes_of_string "Try Alternate");
   (CODE_BAD_REQUEST, bytes_of_string "Bad Request");
   (CODE_UNAUTHORIZED, bytes_of_string "Unauthorized");
   (CODE_UNKNOWN_ATTRIBUTE, bytes_of_string "Unknown Attribute");
   (CODE_STALE_NONCE, bytes_of_string "Stale Nonce");
   (CODE_SERVER_ERROR, bytes_of_string "Server Error");
   (CODE_ROLE_CONFLICT, bytes_of_string "Role Conflict");
   (CODE_FORBIDDEN, bytes_of_string "Forbidden");
   (CODE_ALLOC_MISMATCH, bytes_of_string "Allocation Mismatch");
   (CODE_WRONG_CREDENTIALS, bytes_of_string "Wrong Credentials");
   (CODE_UNSUPPORTED_TRANS_PROTO, bytes_of_string "Unsupported Transport Protocol");
   (CODE_ALLOC_QUOTA_REACHED, bytes_of_string "Allocation Quota Reached");
   (CODE_INSUFFICIENT_CAPACITY, bytes_of_string "Insufficient Capacity");
   (CODE_CONN_ALREADY_EXISTS, bytes_of_string "Connection Already Exists");
   (CODE_CONN_TIMEOUT_OR_FAILURE, bytes_of_string "Connection Timeout or Failure");
   (CODE_ADDR_FAMILY_NOT_SUPPORTED, bytes_of_string "Address Family not Supported");
   (CODE_PEER_ADDR_FAMILY_MISMATCH, bytes_of_string "Peer Address Family Mismatch")].

Section more_setters.
Context {P : Profile}.

#[export] Instance TextAttribute_setter : Setter TextAttribute := fun a =>
  max_len ← st_lift (text_max_len (ta_attr a));
  _ ← st_lift (check_overflow (length (ta_text a)) max_len);
  add (ta_attr a) (ta_text a).

Definition UnknownAttributes_add_to (types : list AttrType) : SM unit :=
  add ATTR_UNKNOWN_ATTRIBUTES (UnknownAttributes_value types).

#[export] Instance ErrorCodeAttribute_setter : Setter ErrorCodeAttribute := fun a =>
  _ ← st_lift (check_overflow (length (ec_reason a) + ERROR_CODE_REASON_START)
                 (ERROR_CODE_REASON_MAX_B + ERROR_CODE_REASON_START));
  add ATTR_ERROR_CODE (ErrorCodeAttribute_value a).

(** [impl Setter for ErrorCode] *)
Definition ErrorCode_add_to (code : ErrorCode) : SM unit :=
  match ERROR_REASONS !! code with
  | Some reason => add_to (mkErrorCodeAttribute code reason)
  | None => st_raise ErrNoDefaultReason
  end.

(** * Fingerprint *)
Definition FINGERPRINT_XOR_VALUE : Z := 0x5354554e.
Definition FINGERPRINT_SIZE : nat := 4.

Context (crc32 : bytes -> Z) (hmac_sha1 : bytes -> bytes -> bytes).

Definition fingerprint_value (b : bytes) : Z := Z.lxor (crc32 b) FINGERPRINT_XOR_VALUE.

Definition Fingerprint_add_to : SM unit :=
  l ← st_get m_length;
  len ← st_lift (add32 l (Z.of_nat (FINGERPRINT_SIZE + ATTRIBUTE_HEADER_SIZE)));
  _ ← st_modify (fun m => m <| m_length := len |>);
  _ ← write_length;
  raw ← st_get m_raw;
  let val := fingerprint_value raw in
  _ ← st_modify (fun m => m <| m_length := l |>);
  add ATTR_FINGERPRINT (put_u32 val).

(** * Message integrity *)
Definition MESSAGE_INTEGRITY_SIZE : nat := 20.

(** [struct MessageIntegrity(Vec<u8>)]: the key *)
Record MessageIntegrity := mkMessageIntegrity { mi_key : bytes }.

Definition new_short_term_integrity (password : bytes) : MessageIntegrity := mkMessageIntegrity password.

#[export] Instance MessageIntegrity_setter : Setter MessageIntegrity := fun k =>
  attrs ← st_get m_attributes;
  if existsb (fun a => ra_typ a =? ATTR_FINGERPRINT) attrs then st_raise ErrFingerprintBeforeIntegrity
  else
    length ← st_get m_length;
    len ← st_lift (add32 length (Z.of_nat (MESSAGE_INTEGRITY_SIZE + ATTRIBUTE_HEADER_SIZE)));
    _ ← st_modify (fun m => m <| m_length := len |>);
    _ ← write_length;
    raw ← st_get m_raw;
    let v := hmac_sha1 (mi_key k) raw in
    _ ← st_modify (fun m => m <| m_length := length |>);
    add ATTR_MESSAGE_INTEGRITY v.

(** The sizes of the attributes after the first MESSAGE-INTEGRITY. *)
Fixpoint size_after_integrity (after_integrity : bool) (size_reduced : nat) (l : list RawAttribute) : nat :=
  match l with
  | [] => size_reduced
  | a :: l' =>
      let size_reduced :=
        if after_integrity
        then (size_reduced + nearest_padded_value_length (Z.to_nat (ra_length a)) + ATTRIBUTE_HEADER_SIZE)%nat
        else size_reduced in
      size_after_integrity (after_integrity || (ra_typ a =? ATTR_MESSAGE_INTEGRITY)) size_reduced l'
  end.

(** [usize] subtraction that underflows panics, or wraps to an index the slice
    panics on. *)
Definition MessageIntegrity_check (k : MessageIntegrity) : SM unit := fun m =>
  (v ← st_lift (get m ATTR_MESSAGE_INTEGRITY);
   let length := m_length m in
   let size_reduced := size_after_integrity false 0 (m_attributes m) in
   len ← st_lift (sub32 length (wrap 32 (Z.of_nat size_reduced)));
   _ ← st_modify (fun m => m <| m_length := len |>);
   _ ← write_length;
   let hmac_end := (MESSAGE_HEADER_SIZE + Z.to_nat len)%nat in
   let attr_size := (ATTRIBUTE_HEADER_SIZE + MESSAGE_INTEGRITY_SIZE)%nat in
   raw ← st_get m_raw;
   b ← st_lift (if (hmac_end <? attr_size)%nat then Panic else slice raw 0 (hmac_end - attr_size));
   let expected := hmac_sha1 (mi_key k) b in
   _ ← st_modify (fun m => m <| m_length := length |>);
   _ ← write_length;
   st_lift (check_hmac v expected)) m.
End more_setters.
