(* ===== verification/StunAttrsLaws.v ===== *)
(** STUN attributes: what is added is what is read back, and exactly which
    messages an integrity check accepts. *)
From Stdlib Require Import Strings.String.
From S2P Require Import Prelude Utf8 Stun StunLaws StunAttrs.

(** * Reading an attribute of a built message *)
Lemma get_built l1 t v l2 m : m_attributes m = map raw_attribute (l1 ++ (t, v) :: l2) -> t ∉ l1.*1 ->
  get m t = Ok v.
Proof.
  intros Ha Ht. unfold get. rewrite Ha. clear Ha. induction l1 as [|[t1 v1] l1 IH]; cbn.
  - by rewrite Z.eqb_refl.
  - csimpl in Ht. apply not_elem_of_cons in Ht as [Hne Ht]. destruct (Z.eqb_spec t1 t); [congruence|by apply IH].
Qed.

Lemma get_added l t v m : m_attributes m = map raw_attribute (l ++ [(t, v)]) -> t ∉ l.*1 -> get m t = Ok v.
Proof. apply get_built. Qed.

(** * XOR *)
Lemma lxor_range w x y : 0 <= w -> in_range w x -> in_range w y -> in_range w (Z.lxor x y).
Proof.
  intros Hw [Hx1 Hx2] [Hy1 Hy2]. assert (H0 : 0 <= Z.lxor x y) by (apply Z.lxor_nonneg; lia).
  split; [done|]. destruct (Z.eq_dec (Z.lxor x y) 0) as [->|Hne]; [apply Z.pow_pos_nonneg; lia|].
  destruct (Z.eq_dec x 0) as [->|]; [rewrite Z.lxor_0_l; lia|]. destruct (Z.eq_dec y 0) as [->|]; [rewrite Z.lxor_0_r; lia|].
  apply Z.log2_lt_pow2; [lia|]. pose proof (Z.log2_lxor x y Hx1 Hy1).
  assert (Z.log2 x < w) by (apply Z.log2_lt_pow2; lia). assert (Z.log2 y < w) by (apply Z.log2_lt_pow2; lia). lia.
Qed.

Lemma lxor_involutive x y : Z.lxor (Z.lxor x y) y = x.
Proof. by rewrite Z.lxor_assoc, Z.lxor_nilpotent, Z.lxor_0_r. Qed.

Lemma byte_xor_involutive a b : byte_xor (byte_xor a b) b = a.
Proof.
  apply u8_of_byte_inj. unfold byte_xor. rewrite !u8_of_byte_of_u8.
  pose proof (u8_of_byte_range a) as Ha. pose proof (u8_of_byte_range b) as Hb.
  rewrite (wrap_small 8 (Z.lxor (u8_of_byte a) (u8_of_byte b))) by (apply lxor_range; [lia|done|done]). rewrite lxor_involutive.
  by apply wrap_small.
Qed.

Lemma xor_loop_length n : forall dst a b, length (xor_loop n dst a b) = length dst.
Proof. induction n as [|n IH]; intros [|d dst] [|x a] [|y b]; cbn; rewrite ?IH; done. Qed.

(** XOR-ing twice with the same bytes gives the address back. *)
Lemma xor_loop_twice n : forall dst dst' a b, length a = n -> length dst = n -> length dst' = n -> (n <= length b)%nat ->
  xor_loop n dst' (xor_loop n dst a b) b = a.
Proof.
  induction n as [|n IH]; intros dst dst' a b Ha Hd Hd' Hb; destruct dst, dst', a, b; cbn in *; try done; try lia.
  rewrite byte_xor_involutive. f_equal. apply IH; lia.
Qed.

Lemma xor_bytes_exact dst a b : length dst = length a -> (length a <= length b)%nat ->
  xor_bytes dst a b = (length a, xor_loop (length a) dst a b).
Proof. intros Hd Hb. unfold xor_bytes, safe_xor_bytes. cbv zeta. by rewrite (ltb_false (length b)), ltb_false by lia. Qed.

Definition ip_wf (ip : IpAddr) : Prop := length (octets ip) = ip_len ip.

Definition xored (ip : IpAddr) (id : bytes) : bytes :=
  xor_loop (ip_len ip) (replicate (ip_len ip) Byte.x00) (octets ip) (xor_value id).

Definition xor_attr (a : XorMappedAddress) (id : bytes) : bytes :=
  put_u16 (family_of (xa_ip a)) ++ put_u16 (xor_port (xa_port a)) ++ xored (xa_ip a) id.

Lemma xor_value_length id : length id = 12%nat -> length (xor_value id) = 16%nat.
Proof. intros Hi. unfold xor_value. rewrite length_app, length_put_u32. lia. Qed.

Lemma ip_len_le ip : (ip_len ip <= 16)%nat.
Proof. destruct ip; cbn; unfold IPV4LEN, IPV6LEN; lia. Qed.

Lemma xored_length ip id : length (xored ip id) = ip_len ip.
Proof. unfold xored. by rewrite xor_loop_length, length_replicate. Qed.

Lemma xor_attr_length a id : length (xor_attr a id) = (4 + ip_len (xa_ip a))%nat.
Proof. unfold xor_attr. rewrite !length_app, !length_put_u16, xored_length. done. Qed.

Section xor.
Context {P : Profile}.

Lemma XorMappedAddress_add a t m : ip_wf (xa_ip a) -> length (m_transaction_id m) = 12%nat ->
  XorMappedAddress_add_to_as a t m = add t (xor_attr a (m_transaction_id m)) m.
Proof.
  intros Ha Hi. unfold XorMappedAddress_add_to_as. st_run.
  pose proof (xor_value_length _ Hi). pose proof (ip_len_le (xa_ip a)).
  rewrite xor_bytes_exact by (rewrite ?length_replicate; unfold ip_wf in Ha; lia).
  unfold xor_attr, xored. by rewrite <- Ha.
Qed.
End xor.

Lemma xor_port_range port : in_range 16 port -> in_range 16 (xor_port port).
Proof. intros Hp. apply lxor_range; [lia|done|]. by split. Qed.

Lemma XorMappedAddress_get a t m : ip_wf (xa_ip a) -> in_range 16 (xa_port a) -> length (m_transaction_id m) = 12%nat ->
  get m t = Ok (xor_attr a (m_transaction_id m)) -> XorMappedAddress_get_from_as m t = Ok a.
Proof.
  intros Ha Hp Hi Hg. unfold XorMappedAddress_get_from_as. rewrite Hg. cbn [mbind res_bind].
  assert (Hl4 : (4 < length (xor_attr a (m_transaction_id m)))%nat)
    by (rewrite xor_attr_length; destruct (xa_ip a); cbn; unfold IPV4LEN, IPV6LEN; lia).
  rewrite leb_false by lia. change (drop 4 (xor_attr a ?i)) with (xored (xa_ip a) i).
  unfold xor_attr. rewrite get_put_u16 by (destruct (xa_ip a); by split). cbn [mbind res_bind]. rewrite xored_length.
  rewrite get_put_u16 by (by apply xor_port_range). pose proof (xor_value_length _ Hi) as Hx.
  destruct a as [ip port]. cbn [xa_ip xa_port] in *. unfold ip_wf in Ha.
  assert (Hport : xor_port (xor_port port) = port) by apply lxor_involutive.
  assert (Hip : snd (xor_bytes (replicate (ip_len ip) Byte.x00) (xored ip (m_transaction_id m)) (xor_value (m_transaction_id m))) = octets ip).
  { pose proof (ip_len_le ip). pose proof (xored_length ip (m_transaction_id m)) as Hxl.
    rewrite xor_bytes_exact by (rewrite ?length_replicate, ?Hxl; lia). cbn [snd]. rewrite Hxl.
    apply xor_loop_twice; rewrite ?length_replicate; lia. }
  destruct ip as [o|o]; cbn [family_of ip_len octets] in *.
  - change (bad_family FAMILY_IPV4) with false. change (FAMILY_IPV4 =? FAMILY_IPV4) with true.
    change (FAMILY_IPV4 =? FAMILY_IPV6) with false. cbn [check_overflow Nat.leb IPV4LEN]. cbn [mbind res_bind].
    by rewrite Hport, Hip.
  - change (bad_family FAMILY_IPV6) with false. change (FAMILY_IPV6 =? FAMILY_IPV4) with false.
    change (FAMILY_IPV6 =? FAMILY_IPV6) with true. cbn [check_overflow Nat.leb IPV6LEN]. cbn [mbind res_bind].
    by rewrite Hport, Hip.
Qed.

(** An address added as an XOR-mapped attribute is read back exactly, from
    the message it was added to and from any message with the same attributes
    and transaction id, such as its decoding, for IPv4 and IPv6. *)
Theorem xor_address_roundtrip {P : Profile} m l a t :
  built m l -> t ∉ l.*1 -> ip_wf (xa_ip a) -> in_range 16 (xa_port a) ->
  Z.of_nat (length (tlvs l)) < 65000 ->
  exists m', XorMappedAddress_add_to_as a t m = (Ok tt, m') /\ built m' (l ++ [(t, xor_attr a (m_transaction_id m))]) /\
    forall m2, m_attributes m2 = m_attributes m' -> m_transaction_id m2 = m_transaction_id m' ->
      XorMappedAddress_get_from_as m2 t = Ok a.
Proof.
  intros Hm Ht Ha Hp Hs. pose proof (bu_id _ _ Hm) as Hi.
  destruct (add_built m l t (xor_attr a (m_transaction_id m)) Hm) as (m' & Hadd & Hm' & _ & Hid).
  { rewrite xor_attr_length. pose proof (ip_len_le (xa_ip a)). change (2 ^ 32) with 4294967296. lia. }
  exists m'. rewrite XorMappedAddress_add by done. split; [exact Hadd|]. split; [exact Hm'|].
  intros m2 Ha2 Hi2. apply XorMappedAddress_get; [done|done|by rewrite Hi2, Hid|].
  rewrite Hi2, Hid. apply (get_added l); [|done]. by rewrite Ha2, (bu_attributes _ _ Hm').
Qed.

(** * The fields checked by the receiver of a request *)
Section integrity.
Context {P : Profile} (hmac_sha1 : bytes -> bytes -> bytes).

(** What MESSAGE-INTEGRITY signs: the message up to the attribute, with the
    length the message has once the attribute is in it. *)
Definition signed (typ : MessageType) (id : bytes) (l : list (AttrType * bytes)) : bytes :=
  header typ (Z.of_nat (length (tlvs l)) + 24) id ++ tlvs l.

Lemma write_length_header typ len len' id id' attrs s :
  write_length (mkMessage typ len' id attrs (header typ len id' ++ s))
  = (Ok tt, mkMessage typ len' id attrs (header typ len' id' ++ s)).
Proof.
  unfold header. rewrite <- !app_assoc. by rewrite write_length_raw.
Qed.

Lemma tlvs_cat l1 l2 : tlvs (l1 ++ l2) = tlvs l1 ++ tlvs l2.
Proof. apply flat_map_app. Qed.

Lemma size_after_none l acc : ATTR_MESSAGE_INTEGRITY ∉ l.*1 ->
  forall l', size_after_integrity false acc (map raw_attribute l ++ l') = size_after_integrity false acc l'.
Proof.
  induction l as [|[t v] l IH]; intros Ht l'; [done|]. csimpl in Ht. apply not_elem_of_cons in Ht as [Hne Ht].
  cbn. destruct (Z.eqb_spec t ATTR_MESSAGE_INTEGRITY); [congruence|]. by apply IH.
Qed.

Lemma size_after_all l : forall acc, Z.of_nat (length (tlvs l)) < 65536 ->
  size_after_integrity true acc (map raw_attribute l) = (acc + length (tlvs l))%nat.
Proof.
  induction l as [|[t v] l IH]; intros acc Hs; [cbn; lia|].
  change (tlvs ((t, v) :: l)) with (tlv t v ++ tlvs l) in *. rewrite length_app, tlv_length in *.
  pose proof (nearest_padded_spec (length v)) as [Hn _]. cbn [map size_after_integrity orb ra_length raw_attribute].
  rewrite IH by lia. rewrite wrap_small by (unfold in_range; change (2 ^ 16) with 65536; lia).
  rewrite Nat2Z.id. unfold ATTRIBUTE_HEADER_SIZE. lia.
Qed.

Lemma MessageIntegrity_check_spec k m l v post : built m (l ++ (ATTR_MESSAGE_INTEGRITY, v) :: post) ->
  ATTR_MESSAGE_INTEGRITY ∉ l.*1 -> length v = 20%nat ->
  Z.of_nat (length (tlvs (l ++ (ATTR_MESSAGE_INTEGRITY, v) :: post))) < 65536 ->
  MessageIntegrity_check hmac_sha1 k m
  = (check_hmac v (hmac_sha1 (mi_key k) (signed (m_typ m) (m_transaction_id m) l)), m).
Proof.
  intros [Hid Hlen Hattr Hraw] Hl Hv Hs. pose proof (get_built l _ v post m Hattr Hl) as Hg.
  destruct m as [typ len id attrs raw]. cbn [m_typ m_length m_transaction_id m_attributes m_raw] in *.
  change (2 ^ 16) with 65536 in *.
  assert (Htl : tlvs (l ++ (ATTR_MESSAGE_INTEGRITY, v) :: post) = tlvs l ++ tlv ATTR_MESSAGE_INTEGRITY v ++ tlvs post)
    by apply tlvs_cat.
  rewrite Htl in *. rewrite !length_app, tlv_length, Hv in *. change (nearest_padded_value_length 20) with 20%nat in *.
  assert (Hred : size_after_integrity false 0 attrs = length (tlvs post)).
  { rewrite Hattr, map_app, size_after_none by done. cbn [map size_after_integrity]. by rewrite size_after_all by lia. }
  set (len' := Z.of_nat (length (tlvs l)) + 24).
  assert (Hsub : arith (E := StunError) 32 (len - wrap 32 (Z.of_nat (length (tlvs post)))) = Ok len').
  { rewrite wrap_small by (unfold in_range; change (2 ^ 32) with 4294967296; lia).
    replace (len - Z.of_nat (length (tlvs post))) with len' by (unfold len'; lia).
    apply arith_ok. unfold in_range, len'. change (2 ^ 32) with 4294967296. lia. }
  unfold MessageIntegrity_check, set. st_run. rewrite Hg. cbn [m_typ m_length m_transaction_id m_attributes m_raw].
  rewrite Hred, Hsub. cbn [m_typ m_length m_transaction_id m_attributes m_raw].
  rewrite Hraw, write_length_header. cbn [m_typ m_length m_transaction_id m_attributes m_raw].
  change (ATTRIBUTE_HEADER_SIZE + MESSAGE_INTEGRITY_SIZE)%nat with 24%nat. unfold MESSAGE_HEADER_SIZE.
  replace (20 + Z.to_nat len')%nat with (20 + length (tlvs l) + 24)%nat by (unfold len'; lia).
  rewrite ltb_false by lia. pose proof (header_length typ len' id Hid) as Hh.
  rewrite (slice_app _ [] (signed typ id l) (tlv ATTR_MESSAGE_INTEGRITY v ++ tlvs post)); [|..]; cycle 1.
  { unfold signed. fold len'. by rewrite <- app_assoc. }
  { done. }
  { unfold signed. fold len'. rewrite length_app. lia. }
  by rewrite write_length_header.
Qed.

Lemma MessageIntegrity_add k m l : built m l -> ATTR_FINGERPRINT ∉ l.*1 -> Z.of_nat (length (tlvs l)) < 65000 ->
  MessageIntegrity_setter hmac_sha1 k m
  = add ATTR_MESSAGE_INTEGRITY (hmac_sha1 (mi_key k) (signed (m_typ m) (m_transaction_id m) l))
      (m <| m_raw := signed (m_typ m) (m_transaction_id m) l |>).
Proof.
  intros [Hid Hlen Hattr Hraw] Hl Hs. destruct m as [typ len id attrs raw].
  cbn [m_typ m_length m_transaction_id m_attributes m_raw] in *. unfold MessageIntegrity_setter, set. st_run.
  assert (Hex : existsb (fun a => ra_typ a =? ATTR_FINGERPRINT) attrs = false).
  { rewrite Hattr. clear -Hl. induction l as [|[t v] l IH]; [done|]. csimpl in Hl.
    apply not_elem_of_cons in Hl as [Hne Hl]. cbn. destruct (Z.eqb_spec t ATTR_FINGERPRINT); [congruence|by apply IH]. }
  cbn [m_typ m_length m_transaction_id m_attributes m_raw]. rewrite Hex. cbn [m_typ m_length m_transaction_id m_attributes m_raw].
  change (Z.of_nat (MESSAGE_INTEGRITY_SIZE + ATTRIBUTE_HEADER_SIZE)) with 24.
  rewrite arith_ok by (unfold in_range; change (2 ^ 32) with 4294967296; lia).
  cbn [m_typ m_length m_transaction_id m_attributes m_raw]. rewrite Hraw, write_length_header.
  cbn [m_typ m_length m_transaction_id m_attributes m_raw]. unfold signed. by rewrite <- Hlen.
Qed.

Lemma write_length_total m : (4 <= length (m_raw m))%nat -> exists raw,
  write_length m = (Ok tt, m <| m_raw := raw |>) /\ length raw = length (m_raw m).
Proof.
  intros Hr. destruct m as [typ len id attrs raw]. cbn [m_raw] in Hr. unfold write_length, grow, modify_raw, set. st_run.
  cbn [m_typ m_length m_transaction_id m_attributes m_raw].
  rewrite grow_keep by done. unfold raw_copy. rewrite length_put_u16. rewrite (leb_true (2 + 2)) by lia.
  eexists. split; [done|]. rewrite !length_app, length_take, length_drop, length_put_u16. lia.
Qed.

Lemma size_after_tiles l : Forall attr_wf l -> forall acc, size_after_integrity true acc l = (acc + tiles l)%nat.
Proof.
  induction 1 as [|a l [Ha _] Hl IH]; intros acc; [cbn; lia|]. cbn [size_after_integrity orb]. rewrite IH, Ha, Nat2Z.id.
  change (tiles (a :: l)) with (4 + nearest_padded_value_length (length (ra_value a)) + tiles l)%nat.
  unfold ATTRIBUTE_HEADER_SIZE. lia.
Qed.

Lemma size_after_below l v m : m_attributes m = l -> Forall attr_wf l -> get m ATTR_MESSAGE_INTEGRITY = Ok v ->
  (size_after_integrity false 0 l + 4 <= tiles l)%nat.
Proof.
  intros Hm Hl. unfold get. rewrite Hm. clear Hm. induction Hl as [|a l Ha Hl IH]; cbn [Attributes_get]; [done|].
  cbn [size_after_integrity orb]. change (tiles (a :: l)) with (4 + nearest_padded_value_length (length (ra_value a)) + tiles l)%nat.
  destruct (ra_typ a =? ATTR_MESSAGE_INTEGRITY); [|intros H; specialize (IH H); lia].
  intros _. rewrite size_after_tiles by done. lia.
Qed.

(** The check of a decoded message returns, and leaves all but the raw bytes. *)
Lemma MessageIntegrity_check_total k m : m_length m = Z.of_nat (tiles (m_attributes m)) -> Forall attr_wf (m_attributes m) ->
  (20 + tiles (m_attributes m) <= length (m_raw m))%nat -> m_length m < 65536 ->
  exists r raw, MessageIntegrity_check hmac_sha1 k m = (r, m <| m_raw := raw |>) /\ safe r.
Proof.
  intros Hlen Hwf Hraw Hs. unfold MessageIntegrity_check. st_run.
  destruct (get m ATTR_MESSAGE_INTEGRITY) as [v|e| |] eqn:Hg; cycle 1.
  { exists (Err e), (m_raw m). by destruct m. }
  { unfold get in Hg. by destruct (Attributes_get _ _). }
  { unfold get in Hg. by destruct (Attributes_get _ _). }
  pose proof (size_after_below _ v m eq_refl Hwf Hg) as Hb. set (after := size_after_integrity false 0 (m_attributes m)) in *.
  rewrite (wrap_small 32) by (unfold in_range; change (2 ^ 32) with 4294967296; lia).
  rewrite arith_ok by (unfold in_range; change (2 ^ 32) with 4294967296; lia).
  destruct m as [typ len id attrs raw]. unfold set. cbn [m_typ m_length m_transaction_id m_attributes m_raw] in *.
  destruct (write_length_total (mkMessage typ (len - Z.of_nat after) id attrs raw)) as (raw1 & -> & Hr1); [cbn; lia|].
  unfold set. cbn [m_typ m_length m_transaction_id m_attributes m_raw] in *. unfold MESSAGE_HEADER_SIZE.
  change (ATTRIBUTE_HEADER_SIZE + MESSAGE_INTEGRITY_SIZE)%nat with 24%nat. rewrite ltb_false by lia.
  rewrite slice_ok by lia.
  destruct (write_length_total (mkMessage typ len id attrs raw1)) as (raw2 & -> & Hr2); [cbn; lia|].
  unfold set. cbn [m_typ m_length m_transaction_id m_attributes m_raw]. eexists _, raw2. split; [reflexivity|].
  unfold check_hmac. by case_bool_decide.
Qed.

Context (crc32 : bytes -> Z).

Lemma Fingerprint_add m l : built m l -> Z.of_nat (length (tlvs l)) < 65400 ->
  let covered := header (m_typ m) (Z.of_nat (length (tlvs l)) + 8) (m_transaction_id m) ++ tlvs l in
  Fingerprint_add_to crc32 m
  = add ATTR_FINGERPRINT (put_u32 (fingerprint_value crc32 covered)) (m <| m_raw := covered |>).
Proof.
  intros [Hid Hlen Hattr Hraw] Hs. destruct m as [typ len id attrs raw].
  cbn [m_typ m_length m_transaction_id m_attributes m_raw] in *. unfold Fingerprint_add_to, set. st_run.
  cbn [m_typ m_length m_transaction_id m_attributes m_raw].
  change (Z.of_nat (FINGERPRINT_SIZE + ATTRIBUTE_HEADER_SIZE)) with 8.
  rewrite arith_ok by (unfold in_range; change (2 ^ 32) with 4294967296; lia).
  cbn [m_typ m_length m_transaction_id m_attributes m_raw]. rewrite Hraw, write_length_header.
  cbn [m_typ m_length m_transaction_id m_attributes m_raw]. by rewrite <- Hlen.
Qed.

Lemma check_hmac_eq got expected : check_hmac got expected = Ok tt <-> got = expected.
Proof. unfold check_hmac. destruct (decide (got = expected)) as [H|H]; [by rewrite bool_decide_true by done|].
  rewrite bool_decide_false by done. by split.
Qed.

Lemma tlvs_one t v : length (tlvs [(t, v)]) = (4 + nearest_padded_value_length (length v))%nat.
Proof. rewrite <- (app_nil_l [(t, v)]), tlvs_app. apply tlv_length. Qed.

End integrity.

(** * The other attributes *)
Section others.
Context {P : Profile}.

Lemma read_types_value types : Forall (in_range 16) types -> read_types (UnknownAttributes_value types) = types.
Proof.
  induction 1 as [|t types Ht Hl IH]; [done|]. unfold UnknownAttributes_value in *. cbn [flat_map put_u16 app read_types].
  rewrite IH. f_equal. byte_arith.
Qed.

Lemma error_code_value m a : 0 <= ec_code a < 25600 -> get m ATTR_ERROR_CODE = Ok (ErrorCodeAttribute_value a) ->
  ErrorCodeAttribute_get_from m = Ok a.
Proof.
  intros Hc Hg. unfold ErrorCodeAttribute_get_from. rewrite Hg. destruct a as [code reason]. cbn [ec_code] in Hc.
  unfold ErrorCodeAttribute_value, put_u8, ERROR_CODE_MODULO. cbn. rewrite !u8_of_byte_of_u8. do 2 f_equal.
  unfold wrap. change (2 ^ 8) with 256. Z.div_mod_to_equations. lia.
Qed.

(** The text, unknown-attribute and error-code attributes read back what
    was added; a text longer than the limit of its type is refused before the
    message is touched. *)
Theorem stun_attributes_roundtrip m l types code text attr :
  built m l -> Z.of_nat (length (tlvs l)) < 60000 ->
  (ATTR_UNKNOWN_ATTRIBUTES ∉ l.*1 -> Forall (in_range 16) types -> (length types < 1000)%nat ->
     exists m', UnknownAttributes_add_to types m = (Ok tt, m') /\ UnknownAttributes_get_from m' = Ok types) /\
   (ATTR_ERROR_CODE ∉ l.*1 -> 0 <= ec_code code < 25600 -> (length (ec_reason code) <= ERROR_CODE_REASON_MAX_B)%nat ->
     exists m', add_to code m = (Ok tt, m') /\ ErrorCodeAttribute_get_from m' = Ok code) /\
   (attr ∉ l.*1 -> utf8_valid text = true -> forall n, text_max_len attr = Ok n ->
     if (length text <=? n)%nat
     then exists m', add_to (mkTextAttribute attr text) m = (Ok tt, m') /\
             TextAttribute_get_from_as m' attr = Ok (mkTextAttribute attr text)
     else add_to (mkTextAttribute attr text) m = (Err ErrAttributeSizeOverflow, m)).
Proof.
  intros Hm Hs. assert (Hbig : 2 ^ 32 = 4294967296) by done. split_and!.
  - intros Ht Hr Hn. assert (Hl : length (UnknownAttributes_value types) = (2 * length types)%nat).
    { clear. induction types as [|t types IH]; [done|]. unfold UnknownAttributes_value in *. cbn [flat_map].
      rewrite length_app, IH, length_put_u16. cbn [length]. lia. }
    destruct (add_built m l ATTR_UNKNOWN_ATTRIBUTES (UnknownAttributes_value types) Hm) as (m' & Ha & Hm' & _); [lia|].
    exists m'. split; [exact Ha|]. unfold UnknownAttributes_get_from.
    rewrite (get_added l _ _ m' (bu_attributes _ _ Hm') Ht). cbn [mbind res_bind]. rewrite Hl.
    unfold ATTR_TYPE_SIZE. rewrite Nat.mul_comm, Nat.Div0.mod_mul. cbn. by rewrite read_types_value.
  - intros Ht Hc Hn. destruct (add_built m l ATTR_ERROR_CODE (ErrorCodeAttribute_value code) Hm) as (m' & Ha & Hm' & _).
    { unfold ErrorCodeAttribute_value, ERROR_CODE_REASON_MAX_B in *. rewrite !length_app, !length_put_u8. cbn [length]. lia. }
    exists m'. split.
    + unfold add_to, ErrorCodeAttribute_setter. st_run. unfold check_overflow. rewrite leb_true by lia. exact Ha.
    + apply error_code_value; [done|]. apply (get_added l _ _ m' (bu_attributes _ _ Hm') Ht).
  - intros Ht Hu n Hn. unfold add_to, TextAttribute_setter. st_run. cbn [ta_attr ta_text]. rewrite Hn.
    assert (Hn' : (n <= 763)%nat /\ text_attr_supported attr = true).
    { revert Hn. unfold text_max_len, text_attr_supported, MAX_USERNAME_B, MAX_REALM_B, MAX_SOFTWARE_B, MAX_NONCE_B.
      repeat case_match; intros; simplify_eq; split; rewrite ?orb_true_r; done || lia. }
    destruct Hn' as [Hn' Hsup]. unfold check_overflow. destruct (Nat.leb_spec (length text) n); [|done].
    destruct (add_built m l attr text Hm) as (m' & Ha & Hm' & _); [lia|]. exists m'. split; [exact Ha|].
    unfold TextAttribute_get_from_as. rewrite Hsup. cbn [negb].
    rewrite (get_added l _ _ m' (bu_attributes _ _ Hm') Ht). cbn [mbind res_bind]. by rewrite Hu.
Qed.
End others.

(** * Examples *)
Definition example_message : Message := snd (build (setters (P := dev_profile) BINDING_REQUEST example_id []) Message_new).

Lemma example_message_built : built example_message [].
Proof. split; vm_compute; reflexivity. Qed.

Definition example_address : XorMappedAddress := mkXorMappedAddress (V4 (map byte_of_u8 [192; 168; 1; 7])) 50000.

Lemma xor_address_roundtrip_witness : exists m',
  XorMappedAddress_setter (P := dev_profile) example_address example_message = (Ok tt, m') /\
  XorMappedAddress_get_from m' = Ok example_address.
Proof.
  destruct (xor_address_roundtrip (P := dev_profile) example_message [] example_address ATTR_XORMAPPED_ADDRESS
    example_message_built ltac:(apply not_elem_of_nil) eq_refl ltac:(by split) ltac:(done)) as (m' & Ha & _ & Hg).
  exists m'. split; [exact Ha|by apply Hg].
Defined.

(** A stand-in for HMAC-SHA1: twenty bytes that depend on key and message. *)
Definition toy_hmac (key b : bytes) : bytes := take 20 (key ++ b ++ replicate 20 Byte.x00).


Lemma stun_attributes_roundtrip_witness :
  (exists m', UnknownAttributes_add_to (P := dev_profile) [ATTR_PRIORITY; ATTR_NONCE] example_message = (Ok tt, m') /\
     UnknownAttributes_get_from m' = Ok [ATTR_PRIORITY; ATTR_NONCE]) /\
  add_to (Setter := TextAttribute_setter (P := dev_profile)) (mkTextAttribute ATTR_USERNAME (replicate 514 Byte.x61)) example_message
  = (Err ErrAttributeSizeOverflow, example_message).
Proof.
  destruct (stun_attributes_roundtrip (P := dev_profile) example_message [] [ATTR_PRIORITY; ATTR_NONCE]
    (mkErrorCodeAttribute CODE_BAD_REQUEST []) (replicate 514 Byte.x61) ATTR_USERNAME
    example_message_built ltac:(done)) as (H1 & _ & H3).
  split.
  - apply H1; [apply not_elem_of_nil|repeat constructor; by vm_compute|cbn; lia].
  - exact (H3 ltac:(apply not_elem_of_nil) eq_refl 513%nat eq_refl).
Defined.

(** The getters accept an address cut short and pad it with zeros. *)
Example truncated_address_accepted :
  MappedAddress_get_from (mkMessage BINDING_SUCCESS 12 example_id
    [mkRawAttribute ATTR_MAPPED_ADDRESS 5 (put_u16 FAMILY_IPV4 ++ put_u16 80 ++ [Byte.x0a])] [])
  = Ok (mkMappedAddress (V4 [Byte.x0a; Byte.x00; Byte.x00; Byte.x00]) 80).
Proof. reflexivity. Qed.
