(* ===== verification/DtlsTypes.v ===== *)
(** The vocabulary of the DTLS crate ([crates/dtls]): the errors, the readers
    and writers of [std::io] and byteorder that its codecs are made of, and the
    enumerations that travel as numbers. *)
From Stdlib Require Import Strings.String.
From S2P Require Import Prelude Utf8.

(** [dtls::Error].  The payloads that only carry a text for the log are left
    out; [Io] is the end of the input, the one I/O error an in-memory reader
    has. *)
Inductive DtlsError : Type :=
  | ErrConnClosed
  | ErrDeadlineExceeded
  | ErrBufferTooSmall
  | ErrHandshakeInProgress
  | ErrInvalidContentType
  | ErrInvalidPacketLength
  | ErrCertificateVerifyNoCertificate
  | ErrCipherSuiteNoIntersection
  | ErrClientCertificateNotVerified
  | ErrClientCertificateRequired
  | ErrClientNoMatchingSrtpProfile
  | ErrClientRequiredButNoServerEms
  | ErrCookieMismatch
  | ErrCookieTooLong
  | ErrIdentityNoPsk
  | ErrInvalidCertificate
  | ErrInvalidCipherSpec
  | ErrInvalidCipherSuite
  | ErrInvalidClientKeyExchange
  | ErrInvalidExtensionType
  | ErrInvalidNamedCurve
  | ErrInvalidPrivateKey
  | ErrNamedCurveAndPrivateKeyMismatch
  | ErrInvalidSniFormat
  | ErrNoAvailableCipherSuites
  | ErrNoAvailableSignatureSchemes
  | ErrNoCertificates
  | ErrNoSupportedEllipticCurves
  | ErrUnsupportedProtocolVersion
  | ErrPskAndCertificate
  | ErrPskAndIdentityMustBeSetForClient
  | ErrRequestedButNoSrtpExtension
  | ErrServerMustHaveCertificate
  | ErrServerNoMatchingSrtpProfile
  | ErrServerRequiredButNoClientEms
  | ErrVerifyDataMismatch
  | ErrKeySignatureVerifyUnimplemented
  | ErrLengthMismatch
  | ErrNotEnoughRoomForNonce
  | ErrNotImplemented
  | ErrSequenceNumberOverflow
  | ErrApplicationDataEpochZero
  | ErrUnhandledContextType
  | ErrEmptyFragment
  | ErrAlertFatalOrClose
  | ErrIo
  | ErrUtil
  | ErrUtf8
  | ErrP256
  | ErrRcGen
  | ErrMpscSend
  | ErrKeyingMaterial
  | ErrOther (text : string).

#[export] Instance DtlsError_eq_dec : EqDecision DtlsError.
Proof. solve_decision. Defined.

(** * Readers

    A reader of [std::io::Read] over bytes in memory: the value read and what
    is left.  The end of the input is an error, not a panic. *)
Definition Rd (A : Type) : Type := bytes -> res DtlsError (A * bytes).

#[export] Instance rd_ret : MRet Rd := fun A a r => Ok (a, r).
#[export] Instance rd_bind : MBind Rd := fun A B f m r =>
  match m r with
  | Ok (a, r') => f a r'
  | Err e => Err e
  | Panic => Panic
  | OutOfFuel => OutOfFuel
  end.

Definition rd_raise {A} (e : DtlsError) : Rd A := fun _ => Err e.
Definition rd_lift {A} (x : res DtlsError A) : Rd A := fun r => a ← x; Ok (a, r).

(** [Read::read_exact] into a buffer of [n] bytes *)
Definition read_exact (n : nat) : Rd bytes := fun r =>
  if (length r <? n)%nat then Err ErrIo else Ok (take n r, drop n r).

(** [Read::read_to_end] *)
Definition read_to_end : Rd bytes := fun r => Ok (r, []).

(** [u64::from_be_bytes] and its narrower forms *)
Definition from_be_bytes (l : bytes) : Z := fold_left (fun z b => z * 2 ^ 8 + u8_of_byte b) l 0.

Definition read_uint (n : nat) : Rd Z := l ← read_exact n; mret (from_be_bytes l).
Definition read_u8 : Rd Z := read_uint 1.
Definition read_u16 : Rd Z := read_uint 2.
Definition read_u24 : Rd Z := read_uint 3.
Definition read_u32 : Rd Z := read_uint 4.

(** [for _ in 0..n { v.push(p(reader)?) }] *)
Fixpoint read_n {A} (n : nat) (p : Rd A) : Rd (list A) :=
  match n with
  | O => mret []
  | S n' => x ← p; l ← read_n n' p; mret (x :: l)
  end.

(** * Writers

    Every [marshal] writes to a vector; it is modelled by the bytes it appends.
    The vector is dropped when it fails. *)
Fixpoint to_be_bytes (n : nat) (z : Z) : bytes :=
  match n with
  | O => []
  | S n' => to_be_bytes n' (z / 2 ^ 8) ++ [byte_of_u8 z]
  end.

Abbreviation write_u8 z := (to_be_bytes 1 z).
Abbreviation write_u16 z := (to_be_bytes 2 z).
Abbreviation write_u32 z := (to_be_bytes 4 z).

(** [write_u24] panics on a number of more than three bytes. *)
Definition write_u24 (z : Z) : res DtlsError bytes :=
  if in_rangeb 24 z then Ok (to_be_bytes 3 z) else Panic.

(** [v.len() as u16] and [v.len() as u8] *)
Definition len_as {A} (w : Z) (l : list A) : Z := wrap w (Z.of_nat (length l)).

(** [for x in l { x.marshal(writer)? }] *)
Fixpoint marshal_all {A} (f : A -> res DtlsError bytes) (l : list A) : res DtlsError bytes :=
  match l with
  | [] => Ok []
  | x :: l' => a ← f x; b ← marshal_all f l'; Ok (a ++ b)
  end.

(** * Enumerations

    The [as] cast of an enumeration and its [From] instance.  The last
    constructor, which stands for the unknown numbers, takes the number after
    the last explicit one. *)
Class Wire (A : Type) := {
  wire_width : nat;
  wire_as : A -> Z;
  wire_from : Z -> A
}.

Class WireLaws (A : Type) `{Wire A} := {
  wire_as_range : forall a : A, 0 <= wire_as a < 2 ^ (8 * Z.of_nat (wire_width (A := A)));
  wire_from_as : forall a : A, wire_from (wire_as a) = a
}.

Ltac solve_wire :=
  split; [intros []; cbv; (split; [discriminate|reflexivity])|intros []; reflexivity].

Section enumerated.
Context {A : Type} `{Wire A}.

Definition write_wire (a : A) : bytes := to_be_bytes (wire_width (A := A)) (wire_as a).
Definition read_wire : Rd A := z ← read_uint (wire_width (A := A)); mret (wire_from z).
End enumerated.

(** ** [content.rs] *)
Inductive ContentType : Type := CtChangeCipherSpec | CtAlert | CtHandshake | CtApplicationData | CtInvalid.

#[export] Instance ContentType_eq_dec : EqDecision ContentType.
Proof. solve_decision. Defined.

Definition ContentType_as (c : ContentType) : Z :=
  match c with
  | CtChangeCipherSpec => 20
  | CtAlert => 21
  | CtHandshake => 22
  | CtApplicationData => 23
  | CtInvalid => 24
  end.

Definition ContentType_from (val : Z) : ContentType :=
  match val with
  | 20 => CtChangeCipherSpec
  | 21 => CtAlert
  | 22 => CtHandshake
  | 23 => CtApplicationData
  | _ => CtInvalid
  end.

#[export] Instance ContentType_wire : Wire ContentType :=
  {| wire_width := 1; wire_as := ContentType_as; wire_from := ContentType_from |}.
#[export] Instance ContentType_laws : WireLaws ContentType.
Proof. solve_wire. Qed.

(** ** [handshake/mod.rs] *)
Inductive HandshakeType : Type :=
  | HtHelloRequest
  | HtClientHello
  | HtServerHello
  | HtHelloVerifyRequest
  | HtCertificate
  | HtServerKeyExchange
  | HtCertificateRequest
  | HtServerHelloDone
  | HtCertificateVerify
  | HtClientKeyExchange
  | HtFinished
  | HtInvalid.

#[export] Instance HandshakeType_eq_dec : EqDecision HandshakeType.
Proof. solve_decision. Defined.

Definition HandshakeType_as (t : HandshakeType) : Z :=
  match t with
  | HtHelloRequest => 0
  | HtClientHello => 1
  | HtServerHello => 2
  | HtHelloVerifyRequest => 3
  | HtCertificate => 11
  | HtServerKeyExchange => 12
  | HtCertificateRequest => 13
  | HtServerHelloDone => 14
  | HtCertificateVerify => 15
  | HtClientKeyExchange => 16
  | HtFinished => 20
  | HtInvalid => 21
  end.

Definition HandshakeType_from (val : Z) : HandshakeType :=
  match val with
  | 0 => HtHelloRequest
  | 1 => HtClientHello
  | 2 => HtServerHello
  | 3 => HtHelloVerifyRequest
  | 11 => HtCertificate
  | 12 => HtServerKeyExchange
  | 13 => HtCertificateRequest
  | 14 => HtServerHelloDone
  | 15 => HtCertificateVerify
  | 16 => HtClientKeyExchange
  | 20 => HtFinished
  | _ => HtInvalid
  end.

#[export] Instance HandshakeType_wire : Wire HandshakeType :=
  {| wire_width := 1; wire_as := HandshakeType_as; wire_from := HandshakeType_from |}.
#[export] Instance HandshakeType_laws : WireLaws HandshakeType.
Proof. solve_wire. Qed.

(** ** [alert/mod.rs] *)
Inductive AlertLevel : Type := AlWarning | AlFatal | AlInvalid.

#[export] Instance AlertLevel_eq_dec : EqDecision AlertLevel.
Proof. solve_decision. Defined.

Definition AlertLevel_as (l : AlertLevel) : Z :=
  match l with AlWarning => 1 | AlFatal => 2 | AlInvalid => 3 end.

Definition AlertLevel_from (val : Z) : AlertLevel :=
  match val with 1 => AlWarning | 2 => AlFatal | _ => AlInvalid end.

#[export] Instance AlertLevel_wire : Wire AlertLevel :=
  {| wire_width := 1; wire_as := AlertLevel_as; wire_from := AlertLevel_from |}.
#[export] Instance AlertLevel_laws : WireLaws AlertLevel.
Proof. solve_wire. Qed.

Inductive AlertDescription : Type :=
  | CloseNotify
  | UnexpectedMessage
  | BadRecordMac
  | DecryptionFailed
  | RecordOverflow
  | DecompressionFailure
  | HandshakeFailure
  | NoCertificate
  | BadCertificate
  | UnsupportedCertificate
  | CertificateRevoked
  | CertificateExpired
  | CertificateUnknown
  | IllegalParameter
  | UnknownCa
  | AccessDenied
  | DecodeError
  | DecryptError
  | ExportRestriction
  | AdProtocolVersion
  | InsufficientSecurity
  | InternalError
  | UserCanceled
  | NoRenegotiation
  | UnsupportedExtension
  | AdInvalid.

#[export] Instance AlertDescription_eq_dec : EqDecision AlertDescription.
Proof. solve_decision. Defined.

Definition AlertDescription_as (d : AlertDescription) : Z :=
  match d with
  | CloseNotify => 0
  | UnexpectedMessage => 10
  | BadRecordMac => 20
  | DecryptionFailed => 21
  | RecordOverflow => 22
  | DecompressionFailure => 30
  | HandshakeFailure => 40
  | NoCertificate => 41
  | BadCertificate => 42
  | UnsupportedCertificate => 43
  | CertificateRevoked => 44
  | CertificateExpired => 45
  | CertificateUnknown => 46
  | IllegalParameter => 47
  | UnknownCa => 48
  | AccessDenied => 49
  | DecodeError => 50
  | DecryptError => 51
  | ExportRestriction => 60
  | AdProtocolVersion => 70
  | InsufficientSecurity => 71
  | InternalError => 80
  | UserCanceled => 90
  | NoRenegotiation => 100
  | UnsupportedExtension => 110
  | AdInvalid => 111
  end.

Definition AlertDescription_from (val : Z) : AlertDescription :=
  match val with
  | 0 => CloseNotify
  | 10 => UnexpectedMessage
  | 20 => BadRecordMac
  | 21 => DecryptionFailed
  | 22 => RecordOverflow
  | 30 => DecompressionFailure
  | 40 => HandshakeFailure
  | 41 => NoCertificate
  | 42 => BadCertificate
  | 43 => UnsupportedCertificate
  | 44 => CertificateRevoked
  | 45 => CertificateExpired
  | 46 => CertificateUnknown
  | 47 => IllegalParameter
  | 48 => UnknownCa
  | 49 => AccessDenied
  | 50 => DecodeError
  | 51 => DecryptError
  | 60 => ExportRestriction
  | 70 => AdProtocolVersion
  | 71 => InsufficientSecurity
  | 80 => InternalError
  | 90 => UserCanceled
  | 100 => NoRenegotiation
  | 110 => UnsupportedExtension
  | _ => AdInvalid
  end.

#[export] Instance AlertDescription_wire : Wire AlertDescription :=
  {| wire_width := 1; wire_as := AlertDescription_as; wire_from := AlertDescription_from |}.
#[export] Instance AlertDescription_laws : WireLaws AlertDescription.
Proof. solve_wire. Qed.

(** ** [compression_methods.rs], [client_certificate_type.rs] *)
Inductive CompressionMethodId : Type := CompressionNull | CompressionUnsupported.

#[export] Instance CompressionMethodId_eq_dec : EqDecision CompressionMethodId.
Proof. solve_decision. Defined.

Definition CompressionMethodId_as (c : CompressionMethodId) : Z :=
  match c with CompressionNull => 0 | CompressionUnsupported => 1 end.

Definition CompressionMethodId_from (val : Z) : CompressionMethodId :=
  match val with 0 => CompressionNull | _ => CompressionUnsupported end.

#[export] Instance CompressionMethodId_wire : Wire CompressionMethodId :=
  {| wire_width := 1; wire_as := CompressionMethodId_as; wire_from := CompressionMethodId_from |}.
#[export] Instance CompressionMethodId_laws : WireLaws CompressionMethodId.
Proof. solve_wire. Qed.

Inductive ClientCertificateType : Type := RsaSign | EcdsaSign | CctUnsupported.

#[export] Instance ClientCertificateType_eq_dec : EqDecision ClientCertificateType.
Proof. solve_decision. Defined.

Definition ClientCertificateType_as (c : ClientCertificateType) : Z :=
  match c with RsaSign => 1 | EcdsaSign => 64 | CctUnsupported => 65 end.

Definition ClientCertificateType_from (val : Z) : ClientCertificateType :=
  match val with 1 => RsaSign | 64 => EcdsaSign | _ => CctUnsupported end.

#[export] Instance ClientCertificateType_wire : Wire ClientCertificateType :=
  {| wire_width := 1; wire_as := ClientCertificateType_as; wire_from := ClientCertificateType_from |}.
#[export] Instance ClientCertificateType_laws : WireLaws ClientCertificateType.
Proof. solve_wire. Qed.

(** ** [curve/mod.rs], [curve/named_curve.rs] *)
Inductive EllipticCurveType : Type := EctNamedCurve | EctUnsupported.

#[export] Instance EllipticCurveType_eq_dec : EqDecision EllipticCurveType.
Proof. solve_decision. Defined.

Definition EllipticCurveType_as (c : EllipticCurveType) : Z :=
  match c with EctNamedCurve => 3 | EctUnsupported => 4 end.

Definition EllipticCurveType_from (val : Z) : EllipticCurveType :=
  match val with 3 => EctNamedCurve | _ => EctUnsupported end.

#[export] Instance EllipticCurveType_wire : Wire EllipticCurveType :=
  {| wire_width := 1; wire_as := EllipticCurveType_as; wire_from := EllipticCurveType_from |}.
#[export] Instance EllipticCurveType_laws : WireLaws EllipticCurveType.
Proof. solve_wire. Qed.

Inductive NamedCurve : Type := P256 | P384 | X25519 | NcUnsupported.

#[export] Instance NamedCurve_eq_dec : EqDecision NamedCurve.
Proof. solve_decision. Defined.

Definition NamedCurve_as (c : NamedCurve) : Z :=
  match c with P256 => 0x17 | P384 => 0x18 | X25519 => 0x1d | NcUnsupported => 0x1e end.

Definition NamedCurve_from (val : Z) : NamedCurve :=
  match val with 0x17 => P256 | 0x18 => P384 | 0x1d => X25519 | _ => NcUnsupported end.

#[export] Instance NamedCurve_wire : Wire NamedCurve :=
  {| wire_width := 2; wire_as := NamedCurve_as; wire_from := NamedCurve_from |}.
#[export] Instance NamedCurve_laws : WireLaws NamedCurve.
Proof. solve_wire. Qed.

(** ** [signature_hash_algorithm/mod.rs] *)
Inductive HashAlgorithm : Type :=
  | Md2 | Md5 | Sha1 | Sha224 | Sha256 | Sha384 | Sha512 | HashEd25519 | HashUnsupported.

#[export] Instance HashAlgorithm_eq_dec : EqDecision HashAlgorithm.
Proof. solve_decision. Defined.

Definition HashAlgorithm_as (h : HashAlgorithm) : Z :=
  match h with
  | Md2 => 0
  | Md5 => 1
  | Sha1 => 2
  | Sha224 => 3
  | Sha256 => 4
  | Sha384 => 5
  | Sha512 => 6
  | HashEd25519 => 8
  | HashUnsupported => 9
  end.

Definition HashAlgorithm_from (val : Z) : HashAlgorithm :=
  match val with
  | 0 => Md2
  | 1 => Md5
  | 2 => Sha1
  | 3 => Sha224
  | 4 => Sha256
  | 5 => Sha384
  | 6 => Sha512
  | 8 => HashEd25519
  | _ => HashUnsupported
  end.

#[export] Instance HashAlgorithm_wire : Wire HashAlgorithm :=
  {| wire_width := 1; wire_as := HashAlgorithm_as; wire_from := HashAlgorithm_from |}.
#[export] Instance HashAlgorithm_laws : WireLaws HashAlgorithm.
Proof. solve_wire. Qed.

Inductive SignatureAlgorithm : Type := Rsa | Ecdsa | SigEd25519 | SigUnsupported.

#[export] Instance SignatureAlgorithm_eq_dec : EqDecision SignatureAlgorithm.
Proof. solve_decision. Defined.

Definition SignatureAlgorithm_as (s : SignatureAlgorithm) : Z :=
  match s with Rsa => 1 | Ecdsa => 3 | SigEd25519 => 7 | SigUnsupported => 8 end.

Definition SignatureAlgorithm_from (val : Z) : SignatureAlgorithm :=
  match val with 1 => Rsa | 3 => Ecdsa | 7 => SigEd25519 | _ => SigUnsupported end.

#[export] Instance SignatureAlgorithm_wire : Wire SignatureAlgorithm :=
  {| wire_width := 1; wire_as := SignatureAlgorithm_as; wire_from := SignatureAlgorithm_from |}.
#[export] Instance SignatureAlgorithm_laws : WireLaws SignatureAlgorithm.
Proof. solve_wire. Qed.

Record SignatureHashAlgorithm := mkSignatureHashAlgorithm {
  sha_hash : HashAlgorithm;
  sha_signature : SignatureAlgorithm
}.

#[export] Instance SignatureHashAlgorithm_eq_dec : EqDecision SignatureHashAlgorithm.
Proof. solve_decision. Defined.

Definition default_signature_schemes : list SignatureHashAlgorithm :=
  [mkSignatureHashAlgorithm Sha256 Ecdsa;
   mkSignatureHashAlgorithm Sha384 Ecdsa;
   mkSignatureHashAlgorithm Sha512 Ecdsa;
   mkSignatureHashAlgorithm Sha256 Rsa;
   mkSignatureHashAlgorithm Sha384 Rsa;
   mkSignatureHashAlgorithm Sha512 Rsa;
   mkSignatureHashAlgorithm HashEd25519 SigEd25519].

(** The kinds of [CryptoPrivateKeyKind], without the keys. *)
Inductive CryptoPrivateKeyKind : Type := KeyEd25519 | KeyEcdsa256 | KeyRsa256.

Definition is_compatible (ss : SignatureHashAlgorithm) (private_key : CryptoPrivateKeyKind) : bool :=
  match private_key with
  | KeyEd25519 => bool_decide (sha_signature ss = SigEd25519)
  | KeyEcdsa256 => bool_decide (sha_signature ss = Ecdsa)
  | KeyRsa256 => bool_decide (sha_signature ss = Rsa)
  end.

Fixpoint select_signature_scheme (sigs : list SignatureHashAlgorithm) (private_key : CryptoPrivateKeyKind)
    : res DtlsError SignatureHashAlgorithm :=
  match sigs with
  | [] => Err ErrNoAvailableSignatureSchemes
  | ss :: sigs' => if is_compatible ss private_key then Ok ss else select_signature_scheme sigs' private_key
  end.

(** ** [cipher_suite/mod.rs] *)
Inductive CipherSuiteId : Type :=
  | Tls_Ecdhe_Ecdsa_With_Aes_128_Ccm
  | Tls_Ecdhe_Ecdsa_With_Aes_128_Ccm_8
  | Tls_Ecdhe_Ecdsa_With_Aes_128_Gcm_Sha256
  | Tls_Ecdhe_Rsa_With_Aes_128_Gcm_Sha256
  | Tls_Ecdhe_Ecdsa_With_Aes_256_Cbc_Sha
  | Tls_Ecdhe_Rsa_With_Aes_256_Cbc_Sha
  | Tls_Psk_With_Aes_128_Ccm
  | Tls_Psk_With_Aes_128_Ccm_8
  | Tls_Psk_With_Aes_128_Gcm_Sha256
  | CsUnsupported.

#[export] Instance CipherSuiteId_eq_dec : EqDecision CipherSuiteId.
Proof. solve_decision. Defined.

Definition CipherSuiteId_as (c : CipherSuiteId) : Z :=
  match c with
  | Tls_Ecdhe_Ecdsa_With_Aes_128_Ccm => 0xc0ac
  | Tls_Ecdhe_Ecdsa_With_Aes_128_Ccm_8 => 0xc0ae
  | Tls_Ecdhe_Ecdsa_With_Aes_128_Gcm_Sha256 => 0xc02b
  | Tls_Ecdhe_Rsa_With_Aes_128_Gcm_Sha256 => 0xc02f
  | Tls_Ecdhe_Ecdsa_With_Aes_256_Cbc_Sha => 0xc00a
  | Tls_Ecdhe_Rsa_With_Aes_256_Cbc_Sha => 0xc014
  | Tls_Psk_With_Aes_128_Ccm => 0xc0a4
  | Tls_Psk_With_Aes_128_Ccm_8 => 0xc0a8
  | Tls_Psk_With_Aes_128_Gcm_Sha256 => 0x00a8
  | CsUnsupported => 0x00a9
  end.

Definition CipherSuiteId_from (val : Z) : CipherSuiteId :=
  match val with
  | 0xc0ac => Tls_Ecdhe_Ecdsa_With_Aes_128_Ccm
  | 0xc0ae => Tls_Ecdhe_Ecdsa_With_Aes_128_Ccm_8
  | 0xc02b => Tls_Ecdhe_Ecdsa_With_Aes_128_Gcm_Sha256
  | 0xc02f => Tls_Ecdhe_Rsa_With_Aes_128_Gcm_Sha256
  | 0xc00a => Tls_Ecdhe_Ecdsa_With_Aes_256_Cbc_Sha
  | 0xc014 => Tls_Ecdhe_Rsa_With_Aes_256_Cbc_Sha
  | 0xc0a4 => Tls_Psk_With_Aes_128_Ccm
  | 0xc0a8 => Tls_Psk_With_Aes_128_Ccm_8
  | 0x00a8 => Tls_Psk_With_Aes_128_Gcm_Sha256
  | _ => CsUnsupported
  end.

#[export] Instance CipherSuiteId_wire : Wire CipherSuiteId :=
  {| wire_width := 2; wire_as := CipherSuiteId_as; wire_from := CipherSuiteId_from |}.
#[export] Instance CipherSuiteId_laws : WireLaws CipherSuiteId.
Proof. solve_wire. Qed.

(** ** [extension/mod.rs], [extension/extension_use_srtp.rs] *)
Inductive ExtensionValue : Type :=
  | EvServerName
  | EvSupportedEllipticCurves
  | EvSupportedPointFormats
  | EvSupportedSignatureAlgorithms
  | EvUseSrtp
  | EvUseExtendedMasterSecret
  | EvRenegotiationInfo
  | EvUnsupported.

#[export] Instance ExtensionValue_eq_dec : EqDecision ExtensionValue.
Proof. solve_decision. Defined.

Definition ExtensionValue_as (v : ExtensionValue) : Z :=
  match v with
  | EvServerName => 0
  | EvSupportedEllipticCurves => 10
  | EvSupportedPointFormats => 11
  | EvSupportedSignatureAlgorithms => 13
  | EvUseSrtp => 14
  | EvUseExtendedMasterSecret => 23
  | EvRenegotiationInfo => 65281
  | EvUnsupported => 65282
  end.

Definition ExtensionValue_from (val : Z) : ExtensionValue :=
  match val with
  | 0 => EvServerName
  | 10 => EvSupportedEllipticCurves
  | 11 => EvSupportedPointFormats
  | 13 => EvSupportedSignatureAlgorithms
  | 14 => EvUseSrtp
  | 23 => EvUseExtendedMasterSecret
  | 65281 => EvRenegotiationInfo
  | _ => EvUnsupported
  end.

#[export] Instance ExtensionValue_wire : Wire ExtensionValue :=
  {| wire_width := 2; wire_as := ExtensionValue_as; wire_from := ExtensionValue_from |}.
#[export] Instance ExtensionValue_laws : WireLaws ExtensionValue.
Proof. solve_wire. Qed.

Inductive SrtpProtectionProfile : Type :=
  | Srtp_Aes128_Cm_Hmac_Sha1_80
  | Srtp_Aes128_Cm_Hmac_Sha1_32
  | Srtp_Aead_Aes_128_Gcm
  | Srtp_Aead_Aes_256_Gcm
  | SrtpUnsupported.

#[export] Instance SrtpProtectionProfile_eq_dec : EqDecision SrtpProtectionProfile.
Proof. solve_decision. Defined.

Definition SrtpProtectionProfile_as (p : SrtpProtectionProfile) : Z :=
  match p with
  | Srtp_Aes128_Cm_Hmac_Sha1_80 => 1
  | Srtp_Aes128_Cm_Hmac_Sha1_32 => 2
  | Srtp_Aead_Aes_128_Gcm => 7
  | Srtp_Aead_Aes_256_Gcm => 8
  | SrtpUnsupported => 9
  end.

Definition SrtpProtectionProfile_from (val : Z) : SrtpProtectionProfile :=
  match val with
  | 1 => Srtp_Aes128_Cm_Hmac_Sha1_80
  | 2 => Srtp_Aes128_Cm_Hmac_Sha1_32
  | 7 => Srtp_Aead_Aes_128_Gcm
  | 8 => Srtp_Aead_Aes_256_Gcm
  | _ => SrtpUnsupported
  end.

#[export] Instance SrtpProtectionProfile_wire : Wire SrtpProtectionProfile :=
  {| wire_width := 2; wire_as := SrtpProtectionProfile_as; wire_from := SrtpProtectionProfile_from |}.
#[export] Instance SrtpProtectionProfile_laws : WireLaws SrtpProtectionProfile.
Proof. solve_wire. Qed.

(** ** [record_layer/record_layer_header.rs] *)
Record ProtocolVersion := mkProtocolVersion { pv_major : Z; pv_minor : Z }.

#[export] Instance ProtocolVersion_eq_dec : EqDecision ProtocolVersion.
Proof. solve_decision. Defined.

Definition DTLS1_2MAJOR : Z := 0xfe.
Definition DTLS1_2MINOR : Z := 0xfd.
Definition DTLS1_0MAJOR : Z := 0xfe.
Definition DTLS1_0MINOR : Z := 0xff.
Definition PROTOCOL_VERSION1_0 : ProtocolVersion := mkProtocolVersion DTLS1_0MAJOR DTLS1_0MINOR.
Definition PROTOCOL_VERSION1_2 : ProtocolVersion := mkProtocolVersion DTLS1_2MAJOR DTLS1_2MINOR.
