(* ===== verification/DtlsExtension.v ===== *)
(** The hello extensions of [crates/dtls/extension]: one record, [size],
    [marshal] and [unmarshal] per kind, and the [Extension] that dispatches on
    them.  The lengths are computed in [u16] from truncated counts, so the
    arithmetic of a long list depends on the profile. *)
From S2P Require Import Prelude Utf8 DtlsTypes.

(** ** [extension_server_name.rs]; the name is the bytes of the Rust string. *)
Record ExtensionServerName := mkExtensionServerName { esn_server_name : bytes }.

(** ** [extension_supported_elliptic_curves.rs] *)
Record ExtensionSupportedEllipticCurves := mkExtensionSupportedEllipticCurves {
  eec_elliptic_curves : list NamedCurve
}.

(** ** [extension_supported_point_formats.rs] *)
Record ExtensionSupportedPointFormats := mkExtensionSupportedPointFormats {
  epf_point_formats : list Z
}.

(** ** [extension_supported_signature_algorithms.rs] *)
Record ExtensionSupportedSignatureAlgorithms := mkExtensionSupportedSignatureAlgorithms {
  esa_signature_hash_algorithms : list SignatureHashAlgorithm
}.

(** ** [extension_use_srtp.rs] *)
Record ExtensionUseSrtp := mkExtensionUseSrtp { eus_protection_profiles : list SrtpProtectionProfile }.

(** ** [extension_use_extended_master_secret.rs] *)
Record ExtensionUseExtendedMasterSecret := mkExtensionUseExtendedMasterSecret { ems_supported : bool }.

(** ** [renegotiation_info.rs] *)
Record ExtensionRenegotiationInfo := mkExtensionRenegotiationInfo { eri_renegotiated_connection : Z }.

Inductive Extension : Type :=
  | ExtServerName (e : ExtensionServerName)
  | ExtSupportedEllipticCurves (e : ExtensionSupportedEllipticCurves)
  | ExtSupportedPointFormats (e : ExtensionSupportedPointFormats)
  | ExtSupportedSignatureAlgorithms (e : ExtensionSupportedSignatureAlgorithms)
  | ExtUseSrtp (e : ExtensionUseSrtp)
  | ExtUseExtendedMasterSecret (e : ExtensionUseExtendedMasterSecret)
  | ExtRenegotiationInfo (e : ExtensionRenegotiationInfo).

(** * Sizes *)
Definition ExtensionServerName_size (e : ExtensionServerName) : nat := 2 + 2 + 1 + 2 + length (esn_server_name e).

Definition ExtensionSupportedEllipticCurves_size (e : ExtensionSupportedEllipticCurves) : nat :=
  2 + 2 + length (eec_elliptic_curves e) * 2.

Definition ExtensionSupportedPointFormats_size (e : ExtensionSupportedPointFormats) : nat :=
  2 + 1 + length (epf_point_formats e).

Definition ExtensionSupportedSignatureAlgorithms_size (e : ExtensionSupportedSignatureAlgorithms) : nat :=
  2 + 2 + length (esa_signature_hash_algorithms e) * 2.

Definition ExtensionUseSrtp_size (e : ExtensionUseSrtp) : nat := 2 + 2 + length (eus_protection_profiles e) * 2 + 1.

Definition ExtensionUseExtendedMasterSecret_size (_ : ExtensionUseExtendedMasterSecret) : nat := 2.

Definition ExtensionRenegotiationInfo_size (_ : ExtensionRenegotiationInfo) : nat := 3.

Definition Extension_size (e : Extension) : nat :=
  2 +
  match e with
  | ExtServerName e => ExtensionServerName_size e
  | ExtSupportedEllipticCurves e => ExtensionSupportedEllipticCurves_size e
  | ExtSupportedPointFormats e => ExtensionSupportedPointFormats_size e
  | ExtSupportedSignatureAlgorithms e => ExtensionSupportedSignatureAlgorithms_size e
  | ExtUseSrtp e => ExtensionUseSrtp_size e
  | ExtUseExtendedMasterSecret e => ExtensionUseExtendedMasterSecret_size e
  | ExtRenegotiationInfo e => ExtensionRenegotiationInfo_size e
  end.

Definition extension_value (e : Extension) : ExtensionValue :=
  match e with
  | ExtServerName _ => EvServerName
  | ExtSupportedEllipticCurves _ => EvSupportedEllipticCurves
  | ExtSupportedPointFormats _ => EvSupportedPointFormats
  | ExtSupportedSignatureAlgorithms _ => EvSupportedSignatureAlgorithms
  | ExtUseSrtp _ => EvUseSrtp
  | ExtUseExtendedMasterSecret _ => EvUseExtendedMasterSecret
  | ExtRenegotiationInfo _ => EvRenegotiationInfo
  end.

Definition EXTENSION_SERVER_NAME_TYPE_DNSHOST_NAME : Z := 0.

(** The pair of algorithms, a byte each *)
Definition write_signature_hash (v : SignatureHashAlgorithm) : bytes :=
  write_wire (sha_hash v) ++ write_wire (sha_signature v).

Definition read_signature_hash : Rd SignatureHashAlgorithm :=
  hash ← read_wire;
  signature ← read_wire;
  mret (mkSignatureHashAlgorithm hash signature).

(** * [marshal] *)
Section marshal.
Context {P : Profile}.

(** [2 * l.len() as u16], the cast before the product *)
Definition twice_len {A} (l : list A) : res DtlsError Z := arith 16 (2 * len_as 16 l).

Definition ExtensionServerName_marshal (e : ExtensionServerName) : res DtlsError bytes :=
  let name := esn_server_name e in
  l5 ← arith 16 (5 + len_as 16 name);
  l3 ← arith 16 (3 + len_as 16 name);
  Ok (write_u16 l5 ++ write_u16 l3 ++ write_u8 EXTENSION_SERVER_NAME_TYPE_DNSHOST_NAME
      ++ write_u16 (len_as 16 name) ++ name).

Definition ExtensionSupportedEllipticCurves_marshal (e : ExtensionSupportedEllipticCurves) : res DtlsError bytes :=
  let curves := eec_elliptic_curves e in
  n ← twice_len curves;
  l ← arith 16 (2 + n);
  Ok (write_u16 l ++ write_u16 n ++ flat_map write_wire curves).

Definition ExtensionSupportedPointFormats_marshal (e : ExtensionSupportedPointFormats) : res DtlsError bytes :=
  let formats := epf_point_formats e in
  l ← arith 16 (1 + len_as 16 formats);
  Ok (write_u16 l ++ write_u8 (len_as 8 formats) ++ flat_map (fun v => write_u8 v) formats).

Definition ExtensionSupportedSignatureAlgorithms_marshal (e : ExtensionSupportedSignatureAlgorithms)
    : res DtlsError bytes :=
  let algorithms := esa_signature_hash_algorithms e in
  n ← twice_len algorithms;
  l ← arith 16 (2 + n);
  Ok (write_u16 l ++ write_u16 n ++ flat_map write_signature_hash algorithms).

Definition ExtensionUseSrtp_marshal (e : ExtensionUseSrtp) : res DtlsError bytes :=
  let profiles := eus_protection_profiles e in
  n ← twice_len profiles;
  l ← arith 16 (2 + 1 + n);
  Ok (write_u16 l ++ write_u16 n ++ flat_map write_wire profiles ++ write_u8 0).

Definition ExtensionUseExtendedMasterSecret_marshal (_ : ExtensionUseExtendedMasterSecret) : res DtlsError bytes :=
  Ok (write_u16 0).

Definition ExtensionRenegotiationInfo_marshal (e : ExtensionRenegotiationInfo) : res DtlsError bytes :=
  Ok (write_u16 1 ++ write_u8 (eri_renegotiated_connection e)).

Definition Extension_marshal (e : Extension) : res DtlsError bytes :=
  body ←
    match e with
    | ExtServerName e => ExtensionServerName_marshal e
    | ExtSupportedEllipticCurves e => ExtensionSupportedEllipticCurves_marshal e
    | ExtSupportedPointFormats e => ExtensionSupportedPointFormats_marshal e
    | ExtSupportedSignatureAlgorithms e => ExtensionSupportedSignatureAlgorithms_marshal e
    | ExtUseSrtp e => ExtensionUseSrtp_marshal e
    | ExtUseExtendedMasterSecret e => ExtensionUseExtendedMasterSecret_marshal e
    | ExtRenegotiationInfo e => ExtensionRenegotiationInfo_marshal e
    end;
  Ok (write_wire (extension_value e) ++ body).
End marshal.

(** * [unmarshal]

    The length of the extension is read and not used, except by the
    renegotiation info. *)
Definition ExtensionServerName_unmarshal : Rd ExtensionServerName :=
  _ ← read_u16;
  _ ← read_u16;
  name_type ← read_u8;
  if negb (name_type =? EXTENSION_SERVER_NAME_TYPE_DNSHOST_NAME) then rd_raise ErrInvalidSniFormat
  else
    buf_len ← read_u16;
    buf ← read_exact (Z.to_nat buf_len);
    if utf8_valid buf then mret (mkExtensionServerName buf) else rd_raise ErrUtf8.

Definition ExtensionSupportedEllipticCurves_unmarshal : Rd ExtensionSupportedEllipticCurves :=
  _ ← read_u16;
  len ← read_u16;
  curves ← read_n (Z.to_nat (len / 2)) read_wire;
  mret (mkExtensionSupportedEllipticCurves curves).

Definition ExtensionSupportedPointFormats_unmarshal : Rd ExtensionSupportedPointFormats :=
  _ ← read_u16;
  count ← read_u8;
  formats ← read_n (Z.to_nat count) read_u8;
  mret (mkExtensionSupportedPointFormats formats).

Definition ExtensionSupportedSignatureAlgorithms_unmarshal : Rd ExtensionSupportedSignatureAlgorithms :=
  _ ← read_u16;
  len ← read_u16;
  algorithms ← read_n (Z.to_nat (len / 2)) read_signature_hash;
  mret (mkExtensionSupportedSignatureAlgorithms algorithms).

Definition ExtensionUseSrtp_unmarshal : Rd ExtensionUseSrtp :=
  _ ← read_u16;
  len ← read_u16;
  profiles ← read_n (Z.to_nat (len / 2)) read_wire;
  _ ← read_u8;
  mret (mkExtensionUseSrtp profiles).

Definition ExtensionUseExtendedMasterSecret_unmarshal : Rd ExtensionUseExtendedMasterSecret :=
  _ ← read_u16;
  mret (mkExtensionUseExtendedMasterSecret true).

Definition ExtensionRenegotiationInfo_unmarshal : Rd ExtensionRenegotiationInfo :=
  l ← read_u16;
  if negb (l =? 1) then rd_raise ErrInvalidPacketLength
  else
    c ← read_u8;
    mret (mkExtensionRenegotiationInfo c).

Definition Extension_unmarshal : Rd Extension :=
  extension_value ← read_wire;
  match extension_value with
  | EvServerName => e ← ExtensionServerName_unmarshal; mret (ExtServerName e)
  | EvSupportedEllipticCurves =>
      e ← ExtensionSupportedEllipticCurves_unmarshal; mret (ExtSupportedEllipticCurves e)
  | EvSupportedPointFormats => e ← ExtensionSupportedPointFormats_unmarshal; mret (ExtSupportedPointFormats e)
  | EvSupportedSignatureAlgorithms =>
      e ← ExtensionSupportedSignatureAlgorithms_unmarshal; mret (ExtSupportedSignatureAlgorithms e)
  | EvUseSrtp => e ← ExtensionUseSrtp_unmarshal; mret (ExtUseSrtp e)
  | EvUseExtendedMasterSecret =>
      e ← ExtensionUseExtendedMasterSecret_unmarshal; mret (ExtUseExtendedMasterSecret e)
  | EvRenegotiationInfo => e ← ExtensionRenegotiationInfo_unmarshal; mret (ExtRenegotiationInfo e)
  | EvUnsupported => rd_raise ErrInvalidExtensionType
  end.

(** * The extension lists of the hellos

    Each extension is read from what is left of the buffer, and one that does
    not parse is skipped; then the length in its header moves the offset.  The
    two length bytes are read without a check (and so is the second type byte,
    for the log, which changes nothing: it comes before them).  [fuel] is the length of the
    buffer, of which every round takes four bytes. *)
Fixpoint unmarshal_extensions (fuel offset : nat) (buf : bytes) : res DtlsError (list Extension) :=
  if (offset <? length buf)%nat then
    match fuel with
    | O => OutOfFuel
    | S fuel' =>
        let parsed :=
          match Extension_unmarshal (drop offset buf) with Ok (e, _) => [e] | _ => [] end in
        b2 ← index buf (offset + 2);
        b3 ← index buf (offset + 3);
        let extension_len := Z.to_nat (from_be_bytes [b2; b3]) in
        rest ← unmarshal_extensions fuel' (offset + (4 + extension_len)) buf;
        Ok (parsed ++ rest)
    end
  else Ok [].

Definition read_extensions : Rd (list Extension) :=
  len ← read_u16;
  buf ← read_exact (Z.to_nat len);
  rd_lift (unmarshal_extensions (length buf) 0 buf).

Definition write_extensions {P : Profile} (l : list Extension) : res DtlsError bytes :=
  buf ← marshal_all Extension_marshal l;
  Ok (write_u16 (len_as 16 buf) ++ buf).
