(* ===== verification/DtlsHandshake.v ===== *)
(** The handshake messages of [crates/dtls/handshake]: the header, the ten
    messages with their [size], [marshal] and [unmarshal], and [Handshake]. *)
From S2P Require Import Prelude DtlsTypes DtlsExtension.

(** * [handshake_header.rs] *)
Definition HANDSHAKE_HEADER_LENGTH : nat := 12.

Record HandshakeHeader := mkHandshakeHeader {
  hh_handshake_type : HandshakeType;
  hh_length : Z;
  hh_message_sequence : Z;
  hh_fragment_offset : Z;
  hh_fragment_length : Z
}.

#[export] Instance HandshakeHeader_eq_dec : EqDecision HandshakeHeader.
Proof. solve_decision. Defined.

#[export] Instance HandshakeHeader_settable : Settable HandshakeHeader := fun h =>
  mkHandshakeHeader (hh_handshake_type h) (hh_length h) (hh_message_sequence h) (hh_fragment_offset h)
    (hh_fragment_length h).

Definition HandshakeHeader_size (_ : HandshakeHeader) : nat := 1 + 3 + 2 + 3 + 3.

Definition HandshakeHeader_marshal (h : HandshakeHeader) : res DtlsError bytes :=
  len ← write_u24 (hh_length h);
  off ← write_u24 (hh_fragment_offset h);
  flen ← write_u24 (hh_fragment_length h);
  Ok (write_wire (hh_handshake_type h) ++ len ++ write_u16 (hh_message_sequence h) ++ off ++ flen).

Definition HandshakeHeader_unmarshal : Rd HandshakeHeader :=
  handshake_type ← read_wire;
  len ← read_u24;
  message_sequence ← read_u16;
  fragment_offset ← read_u24;
  fragment_length ← read_u24;
  mret (mkHandshakeHeader handshake_type len message_sequence fragment_offset fragment_length).

(** * [handshake_random.rs]

    The [SystemTime] is the nanoseconds since the Unix epoch. *)
Definition RANDOM_BYTES_LENGTH : nat := 28.
Definition HANDSHAKE_RANDOM_LENGTH : nat := RANDOM_BYTES_LENGTH + 4.
Definition nanos_per_sec : Z := 1000000000.

Record HandshakeRandom := mkHandshakeRandom { hr_gmt_unix_time : Z; hr_random_bytes : bytes }.

#[export] Instance HandshakeRandom_eq_dec : EqDecision HandshakeRandom.
Proof. solve_decision. Defined.

Definition HandshakeRandom_default : HandshakeRandom := mkHandshakeRandom 0 (replicate RANDOM_BYTES_LENGTH Byte.x00).

Definition HandshakeRandom_size (_ : HandshakeRandom) : nat := 4 + RANDOM_BYTES_LENGTH.

Definition HandshakeRandom_marshal (h : HandshakeRandom) : bytes :=
  let secs := if hr_gmt_unix_time h <? 0 then 0 else wrap 32 (hr_gmt_unix_time h / nanos_per_sec) in
  write_u32 secs ++ hr_random_bytes h.

(** A time of [u32] seconds is never out of the range of [SystemTime]. *)
Definition HandshakeRandom_unmarshal : Rd HandshakeRandom :=
  secs ← read_u32;
  random_bytes ← read_exact RANDOM_BYTES_LENGTH;
  mret (mkHandshakeRandom (secs * nanos_per_sec) random_bytes).

(** [populate], with the clock and the random generator as arguments *)
Definition HandshakeRandom_populate (now : Z) (random : bytes) : HandshakeRandom := mkHandshakeRandom now random.

(** * [compression_methods.rs] *)
Record CompressionMethods := mkCompressionMethods { cm_ids : list CompressionMethodId }.

Definition CompressionMethods_size (c : CompressionMethods) : nat := 1 + length (cm_ids c).

Definition CompressionMethods_marshal (c : CompressionMethods) : bytes :=
  write_u8 (len_as 8 (cm_ids c)) ++ flat_map write_wire (cm_ids c).

Definition CompressionMethods_unmarshal : Rd CompressionMethods :=
  count ← read_u8;
  ids ← read_n (Z.to_nat count) read_wire;
  mret (mkCompressionMethods (filter (fun id => id <> CompressionUnsupported) ids)).

Definition default_compression_methods : CompressionMethods := mkCompressionMethods [CompressionNull].

Definition read_version : Rd ProtocolVersion :=
  major ← read_u8;
  minor ← read_u8;
  mret (mkProtocolVersion major minor).

Definition write_version (v : ProtocolVersion) : bytes := write_u8 (pv_major v) ++ write_u8 (pv_minor v).

(** * [handshake_message_client_hello.rs] *)
Record ClientHello := mkClientHello {
  ch_version : ProtocolVersion;
  ch_random : HandshakeRandom;
  ch_cookie : bytes;
  ch_cipher_suites : list CipherSuiteId;
  ch_compression_methods : CompressionMethods;
  ch_extensions : list Extension
}.

Definition ClientHello_size (m : ClientHello) : nat :=
  2 + HandshakeRandom_size (ch_random m) + 1 + (1 + length (ch_cookie m))
  + (2 + 2 * length (ch_cipher_suites m)) + CompressionMethods_size (ch_compression_methods m)
  + 2 + sum_list_with Extension_size (ch_extensions m).

Definition ClientHello_marshal {P : Profile} (m : ClientHello) : res DtlsError bytes :=
  if (255 <? length (ch_cookie m))%nat then Err ErrCookieTooLong
  else
    suites_len ← twice_len (ch_cipher_suites m);
    extensions ← write_extensions (ch_extensions m);
    Ok (write_version (ch_version m) ++ HandshakeRandom_marshal (ch_random m) ++ write_u8 0
        ++ write_u8 (len_as 8 (ch_cookie m)) ++ ch_cookie m
        ++ write_u16 suites_len ++ flat_map write_wire (ch_cipher_suites m)
        ++ CompressionMethods_marshal (ch_compression_methods m) ++ extensions).

Definition ClientHello_unmarshal : Rd ClientHello :=
  version ← read_version;
  random ← HandshakeRandom_unmarshal;
  _ ← read_u8;
  cookie_len ← read_u8;
  cookie ← read_exact (Z.to_nat cookie_len);
  suites_len ← read_u16;
  cipher_suites ← read_n (Z.to_nat (suites_len / 2)) read_wire;
  compression_methods ← CompressionMethods_unmarshal;
  extensions ← read_extensions;
  mret (mkClientHello version random cookie cipher_suites compression_methods extensions).

(** * [handshake_message_server_hello.rs] *)
Record ServerHello := mkServerHello {
  sh_version : ProtocolVersion;
  sh_random : HandshakeRandom;
  sh_cipher_suite : CipherSuiteId;
  sh_compression_method : CompressionMethodId;
  sh_extensions : list Extension
}.

Definition ServerHello_size (m : ServerHello) : nat :=
  2 + HandshakeRandom_size (sh_random m) + 1 + 2 + 1 + 2 + sum_list_with Extension_size (sh_extensions m).

Definition ServerHello_marshal {P : Profile} (m : ServerHello) : res DtlsError bytes :=
  extensions ← write_extensions (sh_extensions m);
  Ok (write_version (sh_version m) ++ HandshakeRandom_marshal (sh_random m) ++ write_u8 0
      ++ write_wire (sh_cipher_suite m) ++ write_wire (sh_compression_method m) ++ extensions).

Definition ServerHello_unmarshal : Rd ServerHello :=
  version ← read_version;
  random ← HandshakeRandom_unmarshal;
  session_id_len ← read_u8;
  _ ← read_exact (Z.to_nat session_id_len);
  cipher_suite ← read_wire;
  compression_method ← read_wire;
  extensions ← read_extensions;
  mret (mkServerHello version random cipher_suite compression_method extensions).

(** * [handshake_message_hello_verify_request.rs] *)
Record HelloVerifyRequest := mkHelloVerifyRequest { hv_version : ProtocolVersion; hv_cookie : bytes }.

Definition HelloVerifyRequest_size (m : HelloVerifyRequest) : nat := 1 + 1 + 1 + length (hv_cookie m).

Definition HelloVerifyRequest_marshal (m : HelloVerifyRequest) : res DtlsError bytes :=
  if (255 <? length (hv_cookie m))%nat then Err ErrCookieTooLong
  else Ok (write_version (hv_version m) ++ write_u8 (len_as 8 (hv_cookie m)) ++ hv_cookie m).

Definition HelloVerifyRequest_unmarshal : Rd HelloVerifyRequest :=
  version ← read_version;
  cookie_length ← read_u8;
  cookie ← read_to_end;
  if Z.of_nat (length cookie) <? cookie_length then rd_raise ErrBufferTooSmall
  else mret (mkHelloVerifyRequest version cookie).

(** * [handshake_message_certificate.rs] *)
Definition HANDSHAKE_MESSAGE_CERTIFICATE_LENGTH_FIELD_SIZE : nat := 3.

Record MessageCertificate := mkMessageCertificate { mc_certificate : list bytes }.

Definition certificates_size (l : list bytes) : nat :=
  sum_list_with (fun r => HANDSHAKE_MESSAGE_CERTIFICATE_LENGTH_FIELD_SIZE + length r)%nat l.

Definition MessageCertificate_size (m : MessageCertificate) : nat := 3 + certificates_size (mc_certificate m).

Definition write_certificate (r : bytes) : res DtlsError bytes :=
  len ← write_u24 (len_as 32 r);
  Ok (len ++ r).

Definition MessageCertificate_marshal (m : MessageCertificate) : res DtlsError bytes :=
  payload_size ← write_u24 (wrap 32 (Z.of_nat (certificates_size (mc_certificate m))));
  certificates ← marshal_all write_certificate (mc_certificate m);
  Ok (payload_size ++ certificates).

(** A round moves the offset by three bytes or more, so that [fuel] is the
    announced payload size. *)
Fixpoint read_certificates (fuel payload_size offset : nat) : Rd (list bytes) :=
  if (offset <? payload_size)%nat then
    match fuel with
    | O => rd_lift OutOfFuel
    | S fuel' =>
        certificate_len ← read_u24;
        buf ← read_exact (Z.to_nat certificate_len);
        let offset :=
          (offset + HANDSHAKE_MESSAGE_CERTIFICATE_LENGTH_FIELD_SIZE + Z.to_nat certificate_len)%nat in
        certificates ← read_certificates fuel' payload_size offset;
        mret (buf :: certificates)
    end
  else mret [].

Definition MessageCertificate_unmarshal : Rd MessageCertificate :=
  payload_size ← read_u24;
  certificate ← read_certificates (Z.to_nat payload_size) (Z.to_nat payload_size) 0;
  mret (mkMessageCertificate certificate).

(** * [handshake_message_certificate_request.rs] *)
Record MessageCertificateRequest := mkMessageCertificateRequest {
  cr_certificate_types : list ClientCertificateType;
  cr_signature_hash_algorithms : list SignatureHashAlgorithm
}.

Definition MessageCertificateRequest_size (m : MessageCertificateRequest) : nat :=
  1 + length (cr_certificate_types m) + 2 + length (cr_signature_hash_algorithms m) * 2 + 2.

Definition MessageCertificateRequest_marshal {P : Profile} (m : MessageCertificateRequest) : res DtlsError bytes :=
  algorithms_len ← twice_len (cr_signature_hash_algorithms m);
  Ok (write_u8 (len_as 8 (cr_certificate_types m)) ++ flat_map write_wire (cr_certificate_types m)
      ++ write_u16 algorithms_len ++ flat_map write_signature_hash (cr_signature_hash_algorithms m)
      ++ [Byte.x00; Byte.x00]).

(** [(0..n).step_by(2)] has one round for an odd byte too; the distinguished
    names are not read. *)
Definition MessageCertificateRequest_unmarshal : Rd MessageCertificateRequest :=
  types_len ← read_u8;
  certificate_types ← read_n (Z.to_nat types_len) read_wire;
  algorithms_len ← read_u16;
  algorithms ← read_n (Z.to_nat ((algorithms_len + 1) / 2)) read_signature_hash;
  mret (mkMessageCertificateRequest certificate_types algorithms).

(** * [handshake_message_certificate_verify.rs] *)
Record MessageCertificateVerify := mkMessageCertificateVerify {
  cv_algorithm : SignatureHashAlgorithm;
  cv_signature : bytes
}.

Definition MessageCertificateVerify_size (m : MessageCertificateVerify) : nat := 1 + 1 + 2 + length (cv_signature m).

Definition MessageCertificateVerify_marshal (m : MessageCertificateVerify) : bytes :=
  write_signature_hash (cv_algorithm m) ++ write_u16 (len_as 16 (cv_signature m)) ++ cv_signature m.

Definition MessageCertificateVerify_unmarshal : Rd MessageCertificateVerify :=
  algorithm ← read_signature_hash;
  signature_length ← read_u16;
  signature ← read_exact (Z.to_nat signature_length);
  mret (mkMessageCertificateVerify algorithm signature).

(** * [handshake_message_client_key_exchange.rs] *)
Record ClientKeyExchange := mkClientKeyExchange { cke_identity_hint : bytes; cke_public_key : bytes }.

Definition is_empty {A} (l : list A) : bool := match l with [] => true | _ => false end.

Definition ClientKeyExchange_size (m : ClientKeyExchange) : nat :=
  if negb (is_empty (cke_public_key m)) then 1 + length (cke_public_key m)
  else 2 + length (cke_identity_hint m).

Definition ClientKeyExchange_marshal (m : ClientKeyExchange) : res DtlsError bytes :=
  let hint := cke_identity_hint m in
  let key := cke_public_key m in
  if (negb (is_empty hint) && negb (is_empty key)) || (is_empty hint && is_empty key)
  then Err ErrInvalidClientKeyExchange
  else if negb (is_empty key) then Ok (write_u8 (len_as 8 key) ++ key)
  else Ok (write_u16 (len_as 16 hint) ++ hint).

(** The bytes of a big-endian [u16] at an index *)
Definition index_u16 (data : bytes) (i : nat) : res DtlsError Z :=
  hi ← index data i;
  lo ← index data (i + 1);
  Ok (from_be_bytes [hi; lo]).

Definition ClientKeyExchange_parse (data : bytes) : res DtlsError ClientKeyExchange :=
  psk_length ← index_u16 data 0;
  if Z.of_nat (length data) =? psk_length + 2 then Ok (mkClientKeyExchange (drop 2 data) [])
  else
    public_key_length ← index data 0;
    if negb (Z.of_nat (length data) =? u8_of_byte public_key_length + 1) then Err ErrBufferTooSmall
    else Ok (mkClientKeyExchange [] (drop 1 data)).

Definition ClientKeyExchange_unmarshal : Rd ClientKeyExchange :=
  data ← read_to_end;
  rd_lift (ClientKeyExchange_parse data).

(** * [handshake_message_server_key_exchange.rs] *)
Record ServerKeyExchange := mkServerKeyExchange {
  ske_identity_hint : bytes;
  ske_elliptic_curve_type : EllipticCurveType;
  ske_named_curve : NamedCurve;
  ske_public_key : bytes;
  ske_algorithm : SignatureHashAlgorithm;
  ske_signature : bytes
}.

Definition ServerKeyExchange_size (m : ServerKeyExchange) : nat :=
  if negb (is_empty (ske_identity_hint m)) then 2 + length (ske_identity_hint m)
  else 1 + 2 + 1 + length (ske_public_key m) + 2 + 2 + length (ske_signature m).

Definition ServerKeyExchange_marshal (m : ServerKeyExchange) : bytes :=
  if negb (is_empty (ske_identity_hint m)) then
    write_u16 (len_as 16 (ske_identity_hint m)) ++ ske_identity_hint m
  else
    write_wire (ske_elliptic_curve_type m) ++ write_wire (ske_named_curve m)
    ++ write_u8 (len_as 8 (ske_public_key m)) ++ ske_public_key m
    ++ write_signature_hash (ske_algorithm m)
    ++ write_u16 (len_as 16 (ske_signature m)) ++ ske_signature m.

Definition ServerKeyExchange_parse (data : bytes) : res DtlsError ServerKeyExchange :=
  psk_length ← index_u16 data 0;
  if Z.of_nat (length data) =? psk_length + 2 then
    Ok (mkServerKeyExchange (drop 2 data) EctUnsupported NcUnsupported []
          (mkSignatureHashAlgorithm HashUnsupported SigUnsupported) [])
  else
    curve_type ← index data 0;
    if (length data <? 3)%nat then Err ErrBufferTooSmall
    else
      named_curve ← index_u16 data 1;
      if (length data <? 4)%nat then Err ErrBufferTooSmall
      else
        public_key_length ← index data 3;
        let offset := (4 + Z.to_nat (u8_of_byte public_key_length))%nat in
        if (length data <? offset)%nat then Err ErrBufferTooSmall
        else
          public_key ← slice data 4 offset;
          if (length data <=? offset)%nat then Err ErrBufferTooSmall
          else
            hash_algorithm ← index data offset;
            if (length data <=? offset + 1)%nat then Err ErrBufferTooSmall
            else
              signature_algorithm ← index data (offset + 1);
              if (length data <? offset + 2 + 2)%nat then Err ErrBufferTooSmall
              else
                signature_length ← index_u16 data (offset + 2);
                let start := (offset + 4)%nat in
                if (length data <? start + Z.to_nat signature_length)%nat then Err ErrBufferTooSmall
                else
                  signature ← slice data start (start + Z.to_nat signature_length);
                  Ok (mkServerKeyExchange [] (EllipticCurveType_from (u8_of_byte curve_type))
                        (NamedCurve_from named_curve) public_key
                        (mkSignatureHashAlgorithm (HashAlgorithm_from (u8_of_byte hash_algorithm))
                           (SignatureAlgorithm_from (u8_of_byte signature_algorithm)))
                        signature).

Definition ServerKeyExchange_unmarshal : Rd ServerKeyExchange :=
  data ← read_to_end;
  rd_lift (ServerKeyExchange_parse data).

(** * [handshake_message_finished.rs], [handshake_message_server_hello_done.rs] *)
Record Finished := mkFinished { fin_verify_data : bytes }.

Definition Finished_size (m : Finished) : nat := length (fin_verify_data m).
Definition Finished_marshal (m : Finished) : bytes := fin_verify_data m.
Definition Finished_unmarshal : Rd Finished := verify_data ← read_to_end; mret (mkFinished verify_data).

(** * [handshake/mod.rs] *)
Inductive HandshakeMessage : Type :=
  | HmClientHello (m : ClientHello)
  | HmServerHello (m : ServerHello)
  | HmHelloVerifyRequest (m : HelloVerifyRequest)
  | HmCertificate (m : MessageCertificate)
  | HmServerKeyExchange (m : ServerKeyExchange)
  | HmCertificateRequest (m : MessageCertificateRequest)
  | HmServerHelloDone
  | HmCertificateVerify (m : MessageCertificateVerify)
  | HmClientKeyExchange (m : ClientKeyExchange)
  | HmFinished (m : Finished).

Definition handshake_type (m : HandshakeMessage) : HandshakeType :=
  match m with
  | HmClientHello _ => HtClientHello
  | HmServerHello _ => HtServerHello
  | HmHelloVerifyRequest _ => HtHelloVerifyRequest
  | HmCertificate _ => HtCertificate
  | HmServerKeyExchange _ => HtServerKeyExchange
  | HmCertificateRequest _ => HtCertificateRequest
  | HmServerHelloDone => HtServerHelloDone
  | HmCertificateVerify _ => HtCertificateVerify
  | HmClientKeyExchange _ => HtClientKeyExchange
  | HmFinished _ => HtFinished
  end.

Definition HandshakeMessage_size (m : HandshakeMessage) : nat :=
  match m with
  | HmClientHello m => ClientHello_size m
  | HmServerHello m => ServerHello_size m
  | HmHelloVerifyRequest m => HelloVerifyRequest_size m
  | HmCertificate m => MessageCertificate_size m
  | HmServerKeyExchange m => ServerKeyExchange_size m
  | HmCertificateRequest m => MessageCertificateRequest_size m
  | HmServerHelloDone => 0
  | HmCertificateVerify m => MessageCertificateVerify_size m
  | HmClientKeyExchange m => ClientKeyExchange_size m
  | HmFinished m => Finished_size m
  end.

Definition HandshakeMessage_marshal {P : Profile} (m : HandshakeMessage) : res DtlsError bytes :=
  match m with
  | HmClientHello m => ClientHello_marshal m
  | HmServerHello m => ServerHello_marshal m
  | HmHelloVerifyRequest m => HelloVerifyRequest_marshal m
  | HmCertificate m => MessageCertificate_marshal m
  | HmServerKeyExchange m => Ok (ServerKeyExchange_marshal m)
  | HmCertificateRequest m => MessageCertificateRequest_marshal m
  | HmServerHelloDone => Ok []
  | HmCertificateVerify m => Ok (MessageCertificateVerify_marshal m)
  | HmClientKeyExchange m => ClientKeyExchange_marshal m
  | HmFinished m => Ok (Finished_marshal m)
  end.

(** The match of [Handshake::unmarshal] on the type *)
Definition HandshakeMessage_unmarshal (t : HandshakeType) : Rd HandshakeMessage :=
  match t with
  | HtClientHello => m ← ClientHello_unmarshal; mret (HmClientHello m)
  | HtServerHello => m ← ServerHello_unmarshal; mret (HmServerHello m)
  | HtHelloVerifyRequest => m ← HelloVerifyRequest_unmarshal; mret (HmHelloVerifyRequest m)
  | HtCertificate => m ← MessageCertificate_unmarshal; mret (HmCertificate m)
  | HtServerKeyExchange => m ← ServerKeyExchange_unmarshal; mret (HmServerKeyExchange m)
  | HtCertificateRequest => m ← MessageCertificateRequest_unmarshal; mret (HmCertificateRequest m)
  | HtServerHelloDone => mret HmServerHelloDone
  | HtCertificateVerify => m ← MessageCertificateVerify_unmarshal; mret (HmCertificateVerify m)
  | HtClientKeyExchange => m ← ClientKeyExchange_unmarshal; mret (HmClientKeyExchange m)
  | HtFinished => m ← Finished_unmarshal; mret (HmFinished m)
  | HtHelloRequest | HtInvalid => rd_raise ErrNotImplemented
  end.

Record Handshake := mkHandshake {
  hs_handshake_header : HandshakeHeader;
  hs_handshake_message : HandshakeMessage
}.

#[export] Instance Handshake_settable : Settable Handshake := fun h =>
  mkHandshake (hs_handshake_header h) (hs_handshake_message h).

Definition Handshake_new (m : HandshakeMessage) : Handshake :=
  let size := wrap 32 (Z.of_nat (HandshakeMessage_size m)) in
  mkHandshake (mkHandshakeHeader (handshake_type m) size 0 0 size) m.

Definition Handshake_size (h : Handshake) : nat :=
  HandshakeHeader_size (hs_handshake_header h) + HandshakeMessage_size (hs_handshake_message h).

Definition Handshake_marshal {P : Profile} (h : Handshake) : res DtlsError bytes :=
  header ← HandshakeHeader_marshal (hs_handshake_header h);
  message ← HandshakeMessage_marshal (hs_handshake_message h);
  Ok (header ++ message).

Definition Handshake_unmarshal : Rd Handshake :=
  handshake_header ← HandshakeHeader_unmarshal;
  handshake_message ← HandshakeMessage_unmarshal (hh_handshake_type handshake_header);
  mret (mkHandshake handshake_header handshake_message).
