(* ===== verification/DtlsRecord.v ===== *)
(** The record layer of [crates/dtls/record_layer] and the contents it carries:
    [alert/mod.rs], [application_data.rs], [change_cipher_spec/mod.rs] and
    [content.rs]; and [unpack_datagram]. *)
From Stdlib Require Import Strings.String.
From S2P Require Import Prelude DtlsTypes DtlsHandshake.

(** * Contents *)
Record Alert := mkAlert { al_alert_level : AlertLevel; al_alert_description : AlertDescription }.

#[export] Instance Alert_eq_dec : EqDecision Alert.
Proof. solve_decision. Defined.

Definition Alert_marshal (a : Alert) : bytes :=
  write_wire (al_alert_level a) ++ write_wire (al_alert_description a).

Definition Alert_unmarshal : Rd Alert :=
  alert_level ← read_wire;
  alert_description ← read_wire;
  mret (mkAlert alert_level alert_description).

Record ApplicationData := mkApplicationData { ad_data : bytes }.

Definition ApplicationData_marshal (a : ApplicationData) : bytes := ad_data a.
Definition ApplicationData_unmarshal : Rd ApplicationData := data ← read_to_end; mret (mkApplicationData data).

Definition ChangeCipherSpec_marshal : bytes := write_u8 1.

Definition ChangeCipherSpec_unmarshal : Rd unit :=
  data ← read_u8;
  if negb (data =? 1) then rd_raise ErrInvalidCipherSpec else mret tt.

Inductive Content : Type :=
  | CoChangeCipherSpec
  | CoAlert (a : Alert)
  | CoHandshake (h : Handshake)
  | CoApplicationData (a : ApplicationData).

Definition content_type (c : Content) : ContentType :=
  match c with
  | CoChangeCipherSpec => CtChangeCipherSpec
  | CoAlert _ => CtAlert
  | CoHandshake _ => CtHandshake
  | CoApplicationData _ => CtApplicationData
  end.

Definition Content_size (c : Content) : nat :=
  match c with
  | CoChangeCipherSpec => 1
  | CoAlert _ => 2
  | CoHandshake h => Handshake_size h
  | CoApplicationData a => length (ad_data a)
  end.

Definition Content_marshal {P : Profile} (c : Content) : res DtlsError bytes :=
  match c with
  | CoChangeCipherSpec => Ok ChangeCipherSpec_marshal
  | CoAlert a => Ok (Alert_marshal a)
  | CoHandshake h => Handshake_marshal h
  | CoApplicationData a => Ok (ApplicationData_marshal a)
  end.

(** * [record_layer_header.rs] *)
Definition RECORD_LAYER_HEADER_SIZE : nat := 13.
Definition MAX_SEQUENCE_NUMBER : Z := 0xFFFFFFFFFFFF.

Record RecordLayerHeader := mkRecordLayerHeader {
  rl_content_type : ContentType;
  rl_protocol_version : ProtocolVersion;
  rl_epoch : Z;
  rl_sequence_number : Z;
  rl_content_len : Z
}.

#[export] Instance RecordLayerHeader_eq_dec : EqDecision RecordLayerHeader.
Proof. solve_decision. Defined.

#[export] Instance RecordLayerHeader_settable : Settable RecordLayerHeader := fun h =>
  mkRecordLayerHeader (rl_content_type h) (rl_protocol_version h) (rl_epoch h) (rl_sequence_number h)
    (rl_content_len h).

(** The last six bytes of the eight of the [u64] are written. *)
Definition RecordLayerHeader_marshal (h : RecordLayerHeader) : res DtlsError bytes :=
  if MAX_SEQUENCE_NUMBER <? rl_sequence_number h then Err ErrSequenceNumberOverflow
  else
    Ok (write_wire (rl_content_type h) ++ write_version (rl_protocol_version h) ++ write_u16 (rl_epoch h)
        ++ drop 2 (to_be_bytes 8 (rl_sequence_number h)) ++ write_u16 (rl_content_len h)).

Definition RecordLayerHeader_unmarshal : Rd RecordLayerHeader :=
  content_type ← read_wire;
  protocol_version ← read_version;
  epoch ← read_u16;
  be ← read_exact 6;
  let sequence_number := from_be_bytes ([Byte.x00; Byte.x00] ++ be) in
  if bool_decide (protocol_version <> PROTOCOL_VERSION1_0)
     && bool_decide (protocol_version <> PROTOCOL_VERSION1_2)
  then rd_raise ErrUnsupportedProtocolVersion
  else
    content_len ← read_u16;
    mret (mkRecordLayerHeader content_type protocol_version epoch sequence_number content_len).

(** * [record_layer/mod.rs] *)
Record RecordLayer := mkRecordLayer { rl_header : RecordLayerHeader; rl_content : Content }.

#[export] Instance RecordLayer_settable : Settable RecordLayer := fun r =>
  mkRecordLayer (rl_header r) (rl_content r).

Definition RecordLayer_new (protocol_version : ProtocolVersion) (epoch : Z) (content : Content) : RecordLayer :=
  mkRecordLayer
    (mkRecordLayerHeader (content_type content) protocol_version epoch 0
       (wrap 16 (Z.of_nat (Content_size content))))
    content.

Definition RecordLayer_marshal {P : Profile} (r : RecordLayer) : res DtlsError bytes :=
  header ← RecordLayerHeader_marshal (rl_header r);
  content ← Content_marshal (rl_content r);
  Ok (header ++ content).

Definition Content_unmarshal (t : ContentType) : Rd Content :=
  match t with
  | CtAlert => a ← Alert_unmarshal; mret (CoAlert a)
  | CtApplicationData => a ← ApplicationData_unmarshal; mret (CoApplicationData a)
  | CtChangeCipherSpec => _ ← ChangeCipherSpec_unmarshal; mret CoChangeCipherSpec
  | CtHandshake => h ← Handshake_unmarshal; mret (CoHandshake h)
  | CtInvalid => rd_raise (ErrOther "Invalid Content Type")
  end.

Definition RecordLayer_unmarshal : Rd RecordLayer :=
  record_layer_header ← RecordLayerHeader_unmarshal;
  content ← Content_unmarshal (rl_content_type record_layer_header);
  mret (mkRecordLayer record_layer_header content).

(** [fuel] is the length of the datagram: a record takes thirteen bytes or more. *)
Fixpoint unpack_records (fuel offset : nat) (buf : bytes) : res DtlsError (list bytes) :=
  if (length buf =? offset)%nat then Ok []
  else
    match fuel with
    | O => OutOfFuel
    | S fuel' =>
        if (length buf - offset <=? RECORD_LAYER_HEADER_SIZE)%nat then Err ErrInvalidPacketLength
        else
          hi ← index buf (offset + RECORD_LAYER_HEADER_SIZE - 2);
          lo ← index buf (offset + RECORD_LAYER_HEADER_SIZE - 1);
          let pkt_len :=
            (RECORD_LAYER_HEADER_SIZE
             + Z.to_nat (Z.lor (Z.shiftl (u8_of_byte hi) 8) (u8_of_byte lo)))%nat in
          if (length buf <? offset + pkt_len)%nat then Err ErrInvalidPacketLength
          else
            pkt ← slice buf offset (offset + pkt_len);
            out ← unpack_records fuel' (offset + pkt_len) buf;
            Ok (pkt :: out)
    end.

Definition unpack_datagram (buf : bytes) : res DtlsError (list bytes) := unpack_records (length buf) 0 buf.
