(* ===== verification/DtlsCodec.v ===== *)
(** What a reader makes of bytes that were written: the laws of the readers of
    [DtlsTypes], composed along the binds of a parser, and the round trip of
    the hello extensions. *)
From S2P Require Import Prelude Utf8 DtlsTypes DtlsExtension.

(** [reads p bs x]: whatever follows, [p] takes [bs] and returns [x]. *)
Definition reads {A} (p : Rd A) (bs : bytes) (x : A) : Prop := forall r, p (bs ++ r) = Ok (x, r).

(** [codec m size p x]: [m] writes [size] bytes, from which [p] reads [x]. *)
Definition codec {A} (m : res DtlsError bytes) (size : nat) (p : Rd A) (x : A) : Prop :=
  exists bs, m = Ok bs /\ length bs = size /\ reads p bs x.

(** * Numbers *)
Lemma length_to_be_bytes n z : length (to_be_bytes n z) = n.
Proof. revert z. induction n as [|n IH]; intros z; [done|]. cbn [to_be_bytes]. rewrite length_app, IH. cbn. lia. Qed.

Lemma from_be_bytes_snoc l b : from_be_bytes (l ++ [b]) = from_be_bytes l * 2 ^ 8 + u8_of_byte b.
Proof. unfold from_be_bytes. by rewrite fold_left_app. Qed.

Lemma from_to_be_bytes n z : from_be_bytes (to_be_bytes n z) = z mod 2 ^ (8 * Z.of_nat n).
Proof.
  revert z. induction n as [|n IH]; intros z; [by rewrite Z.mod_1_r|].
  cbn [to_be_bytes]. rewrite from_be_bytes_snoc, IH, u8_of_byte_of_u8. unfold wrap.
  replace (8 * Z.of_nat (S n)) with (8 + 8 * Z.of_nat n) by lia.
  rewrite Z.pow_add_r by lia. pose proof (Z.pow_pos_nonneg 2 (8 * Z.of_nat n) ltac:(lia) ltac:(lia)).
  rewrite Z.rem_mul_r by lia. lia.
Qed.

Lemma from_be_bytes_app l1 l2 :
  from_be_bytes (l1 ++ l2) = from_be_bytes l1 * 2 ^ (8 * Z.of_nat (length l2)) + from_be_bytes l2.
Proof.
  induction l2 as [|b l2 IH] using rev_ind; [rewrite app_nil_r; cbn; lia|].
  rewrite app_assoc, !from_be_bytes_snoc, IH, length_app. cbn [length].
  replace (8 * Z.of_nat (length l2 + 1)) with (8 * Z.of_nat (length l2) + 8) by lia.
  rewrite Z.pow_add_r by lia. lia.
Qed.

Lemma from_be_bytes_range l : 0 <= from_be_bytes l < 2 ^ (8 * Z.of_nat (length l)).
Proof.
  induction l as [|b l IH] using rev_ind; [cbn; lia|]. rewrite from_be_bytes_snoc, length_app. cbn [length].
  pose proof (u8_of_byte_range b) as Hb. unfold in_range in Hb.
  replace (8 * Z.of_nat (length l + 1)) with (8 * Z.of_nat (length l) + 8) by lia.
  rewrite Z.pow_add_r by lia. change (2 ^ 8) with 256 in *. lia.
Qed.

Lemma len_as_small {A} w (l : list A) : Z.of_nat (length l) < 2 ^ w -> len_as w l = Z.of_nat (length l).
Proof. intros H. apply wrap_small. split; [lia|done]. Qed.

(** * Readers *)
Section reads.
Context {A B : Type}.

Lemma reads_ret (x : A) : reads (mret x) [] x.
Proof. done. Qed.

Lemma reads_bind (p : Rd A) (f : A -> Rd B) b1 b2 x y :
  reads p b1 x -> reads (f x) b2 y -> reads (p ≫= f) (b1 ++ b2) y.
Proof. intros Hp Hf r. unfold mbind, rd_bind. rewrite <- app_assoc, Hp. apply Hf. Qed.

(** The last read: nothing is taken after it. *)
Lemma reads_bind_last (p : Rd A) (f : A -> Rd B) b x y :
  reads p b x -> reads (f x) [] y -> reads (p ≫= f) b y.
Proof. intros Hp Hf. rewrite <- (app_nil_r b). by eapply reads_bind. Qed.

Lemma reads_bind_ret (p : Rd A) (f : A -> B) b x : reads p b x -> reads (p ≫= fun a => mret (f a)) b (f x).
Proof. intros Hp. by eapply reads_bind_last. Qed.

Lemma reads_end (p : Rd A) bs x : reads p bs x -> p bs = Ok (x, []).
Proof. intros H. specialize (H []). by rewrite app_nil_r in H. Qed.
End reads.

Lemma reads_exact n bs : length bs = n -> reads (read_exact n) bs bs.
Proof.
  intros <- r. unfold read_exact. rewrite ltb_false by (rewrite length_app; lia).
  by rewrite take_app_length, drop_app_length.
Qed.

Lemma reads_uint n z : 0 <= z < 2 ^ (8 * Z.of_nat n) -> reads (read_uint n) (to_be_bytes n z) z.
Proof.
  intros Hz. replace z with (from_be_bytes (to_be_bytes n z)) at 2 by (rewrite from_to_be_bytes; by apply Z.mod_small).
  apply reads_bind_ret, reads_exact, length_to_be_bytes.
Qed.

Lemma reads_u8 z : 0 <= z < 256 -> reads read_u8 (write_u8 z) z.
Proof. apply (reads_uint 1). Qed.
Lemma reads_u16 z : 0 <= z < 65536 -> reads read_u16 (write_u16 z) z.
Proof. apply (reads_uint 2). Qed.
Lemma reads_u32 z : 0 <= z < 4294967296 -> reads read_u32 (write_u32 z) z.
Proof. apply (reads_uint 4). Qed.

Lemma reads_u24 z : 0 <= z < 16777216 -> reads read_u24 (to_be_bytes 3 z) z.
Proof. apply (reads_uint 3). Qed.

Lemma reads_wire {A} `{WireLaws A} (a : A) : reads read_wire (write_wire a) a.
Proof.
  unfold read_wire, write_wire. rewrite <- (wire_from_as a) at 2. apply (reads_bind_ret _ wire_from), reads_uint.
  apply wire_as_range.
Qed.

Lemma reads_n {A} (p : Rd A) (w : A -> bytes) (l : list A) :
  (forall x, x ∈ l -> reads p (w x) x) -> reads (read_n (length l) p) (flat_map w l) l.
Proof.
  induction l as [|x l IH]; intros H; [by apply reads_ret|]. cbn [length read_n flat_map].
  eapply reads_bind; [apply H; by left|]. apply (reads_bind_ret _ (cons x)), IH. intros y Hy. apply H. by right.
Qed.

Lemma reads_n_wire {A} `{WireLaws A} (l : list A) : reads (read_n (length l) read_wire) (flat_map write_wire l) l.
Proof. apply reads_n. intros x _. apply reads_wire. Qed.

Lemma length_flat_map {A} k (w : A -> bytes) (l : list A) :
  (forall x, length (w x) = k) -> length (flat_map w l) = (length l * k)%nat.
Proof. intros H. induction l as [|x l IH]; [done|]. cbn. rewrite length_app, H, IH. done. Qed.

Lemma length_write_wire {A} `{Wire A} (a : A) : length (write_wire a) = wire_width (A := A).
Proof. apply length_to_be_bytes. Qed.

Lemma length_write_signature_hash v : length (write_signature_hash v) = 2%nat.
Proof. done. Qed.

Lemma reads_signature_hash v : reads read_signature_hash (write_signature_hash v) v.
Proof.
  destruct v as [h s]. unfold read_signature_hash, write_signature_hash. cbn [sha_hash sha_signature].
  eapply reads_bind; [apply reads_wire|]. apply (reads_bind_ret _ (mkSignatureHashAlgorithm h)), reads_wire.
Qed.

Create HintDb reads.
#[export] Hint Resolve reads_ret reads_u8 reads_u16 reads_u24 reads_u32 reads_signature_hash reads_exact : reads.
#[export] Hint Extern 2 (_ <= _ < _) => lia : reads.
#[export] Hint Extern 1 (reads read_wire _ _) => apply reads_wire : reads.
#[export] Hint Extern 1 (reads (read_n _ read_wire) _ _) => apply reads_n_wire : reads.

#[export] Hint Rewrite length_to_be_bytes @length_write_wire length_write_signature_hash : bytes_len.

(** One bind of a parser: the bytes read by its first part are the front of the
    message. *)
Ltac reads_step :=
  first [eapply reads_bind; [solve [eauto with reads]|] | apply reads_bind_ret; solve [eauto with reads]].

Lemma write_u24_ok z : 0 <= z < 16777216 -> write_u24 z = Ok (to_be_bytes 3 z).
Proof. intros H. unfold write_u24. by rewrite (proj2 (in_rangeb_spec 24 z) H). Qed.

Lemma marshal_all_ok {A} (f : A -> res DtlsError bytes) l bufs :
  Forall2 (fun x b => f x = Ok b) l bufs -> marshal_all f l = Ok (concat bufs).
Proof. induction 1 as [|x b l bufs Hx Hl IH]; [done|]. cbn. rewrite Hx. cbn. by rewrite IH. Qed.

(** * Extensions *)
Definition Extension_wf (e : Extension) : Prop :=
  match e with
  | ExtServerName e => utf8_valid (esn_server_name e) = true /\ Z.of_nat (length (esn_server_name e)) <= 65530
  | ExtSupportedEllipticCurves e => Z.of_nat (length (eec_elliptic_curves e)) <= 32766
  | ExtSupportedPointFormats e =>
      Forall (fun v => 0 <= v < 256) (epf_point_formats e) /\ Z.of_nat (length (epf_point_formats e)) <= 255
  | ExtSupportedSignatureAlgorithms e => Z.of_nat (length (esa_signature_hash_algorithms e)) <= 32766
  | ExtUseSrtp e => Z.of_nat (length (eus_protection_profiles e)) <= 32766
  | ExtUseExtendedMasterSecret e => ems_supported e = true
  | ExtRenegotiationInfo e => 0 <= eri_renegotiated_connection e < 256
  end.

Section extension.
Context {P : Profile}.

Lemma twice_len_ok {A} (l : list A) : 2 * Z.of_nat (length l) < 65536 ->
  twice_len l = Ok (2 * Z.of_nat (length l)).
Proof. intros H. unfold twice_len. rewrite len_as_small by lia. apply arith_ok. unfold in_range. lia. Qed.

Lemma arith_len {A} k (l : list A) : 0 <= k -> k + Z.of_nat (length l) < 65536 ->
  arith (E := DtlsError) 16 (k + len_as 16 l) = Ok (k + Z.of_nat (length l)).
Proof. intros Hk H. rewrite len_as_small by lia. apply arith_ok. unfold in_range. lia. Qed.

(** An extension is its number, the length of its body, and its body. *)
Definition framed (e : Extension) (bs : bytes) : Prop :=
  exists body, bs = write_wire (extension_value e) ++ write_u16 (Z.of_nat (length body)) ++ body
    /\ Z.of_nat (length body) < 65536.

Definition marshals (e : Extension) (bs : bytes) : Prop :=
  Extension_marshal e = Ok bs /\ framed e bs /\ length bs = Extension_size e /\ reads Extension_unmarshal bs e.

Lemma half_twice n : Z.to_nat (2 * Z.of_nat n / 2) = n.
Proof. rewrite Z.mul_comm, Z.div_mul by lia. lia. Qed.

(** The six cases share this form: the body is written after its length, and
    the reader of the kind takes both. *)
Lemma marshals_intro e body :
  Extension_marshal e = Ok (write_wire (extension_value e) ++ write_u16 (Z.of_nat (length body)) ++ body) ->
  Z.of_nat (length body) < 65536 -> Extension_size e = (4 + length body)%nat ->
  reads Extension_unmarshal (write_wire (extension_value e) ++ write_u16 (Z.of_nat (length body)) ++ body) e ->
  exists bs, marshals e bs.
Proof.
  intros Hm Hl Hs Hr. eexists. split_and!; [exact Hm|by exists body| |exact Hr].
  rewrite Hs, !length_app, length_write_wire, length_to_be_bytes. cbn. lia.
Qed.

Lemma server_name_marshals e : Extension_wf (ExtServerName e) -> exists bs, marshals (ExtServerName e) bs.
Proof.
  destruct e as [name]; cbn [Extension_wf esn_server_name]. intros [Hu Hl].
  apply marshals_intro with
    (body := write_u16 (3 + Z.of_nat (length name)) ++ write_u8 0 ++ write_u16 (Z.of_nat (length name)) ++ name).
  - unfold Extension_marshal, ExtensionServerName_marshal. cbv zeta. cbn [esn_server_name].
    rewrite !arith_len by lia. cbn [mbind res_bind extension_value]. rewrite len_as_small by lia.
    repeat f_equal. rewrite !length_app, !length_to_be_bytes. lia.
  - rewrite !length_app, !length_to_be_bytes. lia.
  - rewrite !length_app, !length_to_be_bytes. unfold Extension_size, ExtensionServerName_size. cbn [esn_server_name]. lia.
  - unfold Extension_unmarshal. reads_step. apply reads_bind_ret with (f := ExtServerName).
    rewrite !length_app, !length_to_be_bytes. unfold ExtensionServerName_unmarshal.
    eapply reads_bind; [apply reads_u16; lia|]. eapply reads_bind; [apply reads_u16; lia|]. reads_step.
    eapply reads_bind; [apply reads_u16; lia|]. rewrite Nat2Z.id.
    eapply reads_bind_last; [by apply reads_exact|]. rewrite Hu. apply reads_ret.
Qed.

(** A list of [k]-byte items after its length in bytes, [2 * k] of the two. *)
Lemma counted_list_reads {A} (w : A -> bytes) (p : Rd A) (l : list A) (rest : bytes) {B} (f : list A -> Rd B) y :
  2 * Z.of_nat (length l) < 65536 -> (forall x, x ∈ l -> reads p (w x) x) -> reads (f l) rest y ->
  reads (len ← read_u16; xs ← read_n (Z.to_nat (len / 2)) p; f xs)
    (write_u16 (2 * Z.of_nat (length l)) ++ flat_map w l ++ rest) y.
Proof.
  intros Hl Hp Hf. eapply reads_bind; [apply reads_u16; lia|]. rewrite half_twice.
  eapply reads_bind; [by apply reads_n|exact Hf].
Qed.

(** The three extensions that are a list of two-byte items, written by [w], with
    [tail] after it. *)
Ltac list_extension w l tail :=
  apply marshals_intro with (body := write_u16 (2 * Z.of_nat (length l)) ++ flat_map w l ++ tail);
  rewrite ?length_app, ?(length_flat_map 2) by done; rewrite ?length_to_be_bytes;
  cbv beta iota zeta delta [Extension_marshal ExtensionSupportedEllipticCurves_marshal
    ExtensionSupportedSignatureAlgorithms_marshal ExtensionUseSrtp_marshal
    Extension_size ExtensionSupportedEllipticCurves_size ExtensionSupportedSignatureAlgorithms_size
    ExtensionUseSrtp_size eec_elliptic_curves esa_signature_hash_algorithms eus_protection_profiles];
  [ rewrite twice_len_ok by lia; cbn [mbind res_bind];
    rewrite arith_ok by (unfold in_range; lia); cbn [mbind res_bind length]; rewrite ?app_nil_r;
    repeat f_equal; lia
  | cbn [length]; lia
  | cbn [length]; lia
  | unfold Extension_unmarshal; reads_step; apply reads_bind_ret;
    eapply reads_bind; [apply reads_u16; cbn [length]; lia|]; apply counted_list_reads; [lia| |] ].

Lemma elliptic_curves_marshals e : Extension_wf (ExtSupportedEllipticCurves e) ->
  exists bs, marshals (ExtSupportedEllipticCurves e) bs.
Proof.
  destruct e as [l]; cbn [Extension_wf eec_elliptic_curves]; intros Hl.
  list_extension (write_wire (A := NamedCurve)) l (@nil byte).
  - intros x _. apply reads_wire.
  - apply reads_ret.
Qed.

Lemma signature_algorithms_marshals e : Extension_wf (ExtSupportedSignatureAlgorithms e) ->
  exists bs, marshals (ExtSupportedSignatureAlgorithms e) bs.
Proof.
  destruct e as [l]; cbn [Extension_wf esa_signature_hash_algorithms]; intros Hl.
  list_extension write_signature_hash l (@nil byte).
  - intros x _. apply reads_signature_hash.
  - apply reads_ret.
Qed.

Lemma use_srtp_marshals e : Extension_wf (ExtUseSrtp e) -> exists bs, marshals (ExtUseSrtp e) bs.
Proof.
  destruct e as [l]; cbn [Extension_wf eus_protection_profiles]; intros Hl.
  list_extension (write_wire (A := SrtpProtectionProfile)) l (write_u8 0).
  - intros x _. apply reads_wire.
  - apply (reads_bind_ret _ (fun _ => mkExtensionUseSrtp l) _ 0), reads_u8. lia.
Qed.

Lemma point_formats_marshals e : Extension_wf (ExtSupportedPointFormats e) ->
  exists bs, marshals (ExtSupportedPointFormats e) bs.
Proof.
  destruct e as [l]; cbn [Extension_wf epf_point_formats]; intros [Hl Hn].
  apply marshals_intro with
    (body := write_u8 (Z.of_nat (length l)) ++ flat_map (fun v => write_u8 v) l);
    rewrite ?length_app, ?(length_flat_map 1) by done; rewrite ?length_to_be_bytes.
  - unfold Extension_marshal, ExtensionSupportedPointFormats_marshal. cbv zeta. cbn [epf_point_formats].
    rewrite arith_len by lia. cbn [mbind res_bind]. rewrite len_as_small by lia. repeat f_equal. lia.
  - lia.
  - unfold Extension_size, ExtensionSupportedPointFormats_size. cbn [epf_point_formats]. lia.
  - unfold Extension_unmarshal, ExtensionSupportedPointFormats_unmarshal. reads_step. apply reads_bind_ret.
    eapply reads_bind; [apply reads_u16; lia|]. eapply reads_bind; [apply reads_u8; lia|]. rewrite Nat2Z.id.
    apply reads_bind_ret, reads_n. intros x Hx. apply reads_u8. by apply (proj1 (Forall_forall _ _) Hl).
Qed.

Lemma Extension_marshals e : Extension_wf e -> exists bs, marshals e bs.
Proof.
  destruct e as [e|e|e|e|e|e|e]; intros Hwf.
  - by apply server_name_marshals.
  - by apply elliptic_curves_marshals.
  - by apply point_formats_marshals.
  - by apply signature_algorithms_marshals.
  - by apply use_srtp_marshals.
  - destruct e as [b]. cbn in Hwf. subst b. by apply marshals_intro with (body := []).
  - destruct e as [c]. cbn in Hwf. apply marshals_intro with (body := write_u8 c); [done|cbn; lia|done|].
    unfold Extension_unmarshal, ExtensionRenegotiationInfo_unmarshal. reads_step. apply reads_bind_ret.
    eapply reads_bind; [by apply reads_u16|]. by apply reads_bind_ret, reads_u8.
Qed.

(** * The list of extensions *)
Lemma index_app {A} (l1 l2 : list A) i x : l2 !! i = Some x -> index (E := DtlsError) (l1 ++ l2) (length l1 + i) = Ok x.
Proof. intros H. unfold index. rewrite lookup_app_r by lia. by replace (length l1 + i - length l1)%nat with i by lia; rewrite H. Qed.

Lemma unmarshal_extensions_app fuel pre l bufs :
  Forall2 marshals l bufs -> (length (concat bufs) <= fuel)%nat ->
  unmarshal_extensions fuel (length pre) (pre ++ concat bufs) = Ok l.
Proof.
  intros H. revert fuel pre. induction H as [|e b l bufs (Hm & (body & Hb & Hlt) & Hs & Hr) _ IH]; intros fuel pre Hf.
  { cbn [concat]. rewrite app_nil_r. destruct fuel; cbn [unmarshal_extensions]; by rewrite Nat.ltb_irrefl. }
  assert (length b = (4 + length body)%nat) as Hlen
    by (rewrite Hb, !length_app, length_write_wire, length_to_be_bytes; cbn; lia).
  cbn [concat] in *. rewrite length_app in Hf. destruct fuel as [|fuel]; [lia|]. cbn [unmarshal_extensions].
  rewrite ltb_true by (rewrite !length_app; lia). rewrite drop_app_length, Hr.
  assert (b !! 2%nat = Some (byte_of_u8 (Z.of_nat (length body) / 2 ^ 8))
          /\ b !! 3%nat = Some (byte_of_u8 (Z.of_nat (length body)))) as [H2 H3] by by rewrite Hb.
  rewrite (index_app _ _ 2 (byte_of_u8 (Z.of_nat (length body) / 2 ^ 8)))
    by (rewrite lookup_app_l by lia; exact H2).
  cbn [mbind res_bind]. rewrite (index_app _ _ 3 (byte_of_u8 (Z.of_nat (length body))))
    by (rewrite lookup_app_l by lia; exact H3).
  cbn [mbind res_bind].
  change [byte_of_u8 (Z.of_nat (length body) / 2 ^ 8); byte_of_u8 (Z.of_nat (length body))]
    with (to_be_bytes 2 (Z.of_nat (length body))).
  rewrite from_to_be_bytes, Z.mod_small by (cbn; lia). rewrite Nat2Z.id.
  replace (length pre + (4 + length body))%nat with (length (pre ++ b)) by (rewrite length_app; lia).
  rewrite app_assoc, IH by lia. done.
Qed.

Definition extensions_wf (l : list Extension) : Prop :=
  Forall Extension_wf l /\ Z.of_nat (sum_list_with Extension_size l) < 65536.

Lemma extensions_codec l : extensions_wf l ->
  codec (write_extensions l) (2 + sum_list_with Extension_size l) read_extensions l.
Proof.
  intros [Hwf Hlen].
  assert (exists bufs, Forall2 marshals l bufs) as [bufs Hb].
  { clear Hlen. induction Hwf as [|e l He _ (bufs & IH)]; [by exists []|].
    destruct (Extension_marshals e He) as [b Hb]. exists (b :: bufs). by constructor. }
  assert (length (concat bufs) = sum_list_with Extension_size l) as Hc.
  { clear Hwf Hlen. induction Hb as [|e b l bufs (_ & _ & Hs & _) _ IH]; [done|]. cbn. rewrite length_app, Hs, IH. done. }
  exists (write_u16 (Z.of_nat (length (concat bufs))) ++ concat bufs). split_and!.
  - unfold write_extensions. rewrite (marshal_all_ok _ _ bufs).
    + cbn [mbind res_bind]. by rewrite len_as_small by lia.
    + eapply Forall2_impl; [exact Hb|]. by intros e b [H _].
  - rewrite length_app, length_to_be_bytes, Hc. lia.
  - unfold read_extensions. eapply reads_bind; [apply reads_u16; lia|]. rewrite Nat2Z.id.
    eapply reads_bind_last; [by apply reads_exact|].
    intros r. unfold rd_lift. by rewrite (unmarshal_extensions_app _ [] l bufs Hb).
Qed.
End extension.
