(* ===== verification/DtlsLaws.v ===== *)
(** The round trips of the DTLS handshake messages and records, and the
    behaviour of the parsers on arbitrary input; and datagrams of records: what
    [unpack_datagram] makes of any input, and of the records the connection packs
    into one. *)
From S2P Require Import Prelude Utf8 DtlsTypes DtlsExtension DtlsHandshake DtlsRecord DtlsCodec.

(** * Parts of the messages *)
Definition version_wf (v : ProtocolVersion) : Prop := 0 <= pv_major v < 256 /\ 0 <= pv_minor v < 256.

(** The wire keeps the whole seconds of the time. *)
Definition random_wf (h : HandshakeRandom) : Prop :=
  (exists secs, 0 <= secs < 4294967296 /\ hr_gmt_unix_time h = secs * nanos_per_sec)
  /\ length (hr_random_bytes h) = RANDOM_BYTES_LENGTH.

Definition compression_wf (c : CompressionMethods) : Prop :=
  Forall (fun id => id = CompressionNull) (cm_ids c) /\ Z.of_nat (length (cm_ids c)) <= 255.

Lemma reads_version v : version_wf v -> reads read_version (write_version v) v.
Proof.
  destruct v as [a b]. intros [Ha Hb]. eapply reads_bind; [by apply reads_u8|].
  by apply (reads_bind_ret _ (mkProtocolVersion a)), reads_u8.
Qed.

Lemma reads_random h : random_wf h -> reads HandshakeRandom_unmarshal (HandshakeRandom_marshal h) h.
Proof.
  destruct h as [t l]. intros [(secs & Hs & Ht) Hl]. cbn in Ht, Hl. subst t.
  unfold HandshakeRandom_marshal. cbn [hr_gmt_unix_time hr_random_bytes].
  replace (secs * nanos_per_sec <? 0) with false by (symmetry; apply Z.ltb_ge; unfold nanos_per_sec; lia).
  rewrite Z.div_mul by done. rewrite wrap_small by exact Hs.
  eapply reads_bind; [by apply reads_u32|]. by apply (reads_bind_ret _ (mkHandshakeRandom _)), reads_exact.
Qed.

Lemma length_random h : random_wf h -> length (HandshakeRandom_marshal h) = HandshakeRandom_size h.
Proof. intros [_ Hl]. unfold HandshakeRandom_marshal. by rewrite length_app, length_to_be_bytes, Hl. Qed.

Lemma reads_compression c : compression_wf c -> reads CompressionMethods_unmarshal (CompressionMethods_marshal c) c.
Proof.
  destruct c as [ids]. intros [Hf Hl]. cbn [cm_ids] in *. unfold CompressionMethods_marshal. cbn [cm_ids].
  rewrite len_as_small by lia. eapply reads_bind; [apply reads_u8; lia|]. rewrite Nat2Z.id.
  eapply reads_bind_last; [apply reads_n_wire|]. rewrite list_filter_all; [apply reads_ret|].
  eapply Forall_impl; [exact Hf|]. by intros id ->.
Qed.

Lemma length_compression c : length (CompressionMethods_marshal c) = CompressionMethods_size c.
Proof.
  unfold CompressionMethods_marshal, CompressionMethods_size.
  rewrite length_app, length_to_be_bytes, (length_flat_map 1) by done. lia.
Qed.

Lemma length_version v : length (write_version v) = 2%nat.
Proof. done. Qed.

#[export] Hint Resolve reads_version reads_random reads_compression : reads.
#[export] Hint Rewrite length_version length_compression : bytes_len.

(** * Messages *)
Definition ClientHello_wf (m : ClientHello) : Prop :=
  version_wf (ch_version m) /\ random_wf (ch_random m) /\ Z.of_nat (length (ch_cookie m)) <= 255
  /\ Z.of_nat (length (ch_cipher_suites m)) <= 32767 /\ compression_wf (ch_compression_methods m)
  /\ extensions_wf (ch_extensions m).

Definition ServerHello_wf (m : ServerHello) : Prop :=
  version_wf (sh_version m) /\ random_wf (sh_random m) /\ extensions_wf (sh_extensions m).

Definition HelloVerifyRequest_wf (m : HelloVerifyRequest) : Prop :=
  version_wf (hv_version m) /\ Z.of_nat (length (hv_cookie m)) <= 255.

Definition MessageCertificate_wf (m : MessageCertificate) : Prop :=
  Z.of_nat (certificates_size (mc_certificate m)) < 16777216.

Definition MessageCertificateRequest_wf (m : MessageCertificateRequest) : Prop :=
  Z.of_nat (length (cr_certificate_types m)) <= 255
  /\ Z.of_nat (length (cr_signature_hash_algorithms m)) <= 32767.

Definition MessageCertificateVerify_wf (m : MessageCertificateVerify) : Prop :=
  Z.of_nat (length (cv_signature m)) <= 65535.

Definition ClientKeyExchange_wf (m : ClientKeyExchange) : Prop :=
  (cke_identity_hint m = [] /\ (0 < length (cke_public_key m))%nat /\ Z.of_nat (length (cke_public_key m)) <= 255)
  \/ (cke_public_key m = [] /\ (0 < length (cke_identity_hint m))%nat
      /\ Z.of_nat (length (cke_identity_hint m)) <= 65535).

(** The elliptic-curve form is told from the identity hint by its length: it
    must not be two more than the number its first two bytes make. *)
Definition ServerKeyExchange_wf (m : ServerKeyExchange) : Prop :=
  if is_empty (ske_identity_hint m) then
    Z.of_nat (length (ske_public_key m)) <= 255 /\ Z.of_nat (length (ske_signature m)) <= 65535
    /\ Z.of_nat (ServerKeyExchange_size m) <> EllipticCurveType_as (ske_elliptic_curve_type m) * 256 + 2
  else
    Z.of_nat (length (ske_identity_hint m)) <= 65535
    /\ m = mkServerKeyExchange (ske_identity_hint m) EctUnsupported NcUnsupported []
             (mkSignatureHashAlgorithm HashUnsupported SigUnsupported) [].

Definition HandshakeMessage_wf (m : HandshakeMessage) : Prop :=
  match m with
  | HmClientHello m => ClientHello_wf m
  | HmServerHello m => ServerHello_wf m
  | HmHelloVerifyRequest m => HelloVerifyRequest_wf m
  | HmCertificate m => MessageCertificate_wf m
  | HmServerKeyExchange m => ServerKeyExchange_wf m
  | HmCertificateRequest m => MessageCertificateRequest_wf m
  | HmServerHelloDone => True
  | HmCertificateVerify m => MessageCertificateVerify_wf m
  | HmClientKeyExchange m => ClientKeyExchange_wf m
  | HmFinished _ => True
  end.

(** A message that its parser reads to the end of the input: the length of a
    few of them is not on the wire. *)
Definition codec_end {A} (m : res DtlsError bytes) (size : nat) (p : Rd A) (x : A) : Prop :=
  exists bs, m = Ok bs /\ length bs = size /\ p bs = Ok (x, []).

Lemma codec_codec_end {A} m size (p : Rd A) x : codec m size p x -> codec_end m size p x.
Proof. intros (bs & Hm & Hl & Hr). exists bs. split_and!; [done|done|by apply reads_end]. Qed.

Section messages.
Context {P : Profile}.

Lemma ClientHello_codec m : ClientHello_wf m ->
  codec (ClientHello_marshal m) (ClientHello_size m) ClientHello_unmarshal m.
Proof.
  destruct m as [v r ck cs cm ex]; unfold ClientHello_wf; cbn [ch_version ch_random ch_cookie ch_cipher_suites
    ch_compression_methods ch_extensions]. intros (Hv & Hr & Hck & Hcs & Hcm & Hex).
  destruct (extensions_codec ex Hex) as (ebs & He & Hel & Her).
  eexists. split_and!.
  - unfold ClientHello_marshal. cbn [ch_version ch_random ch_cookie ch_cipher_suites ch_compression_methods ch_extensions].
    rewrite ltb_false by lia. rewrite twice_len_ok by lia. cbn [mbind res_bind]. rewrite He. reflexivity.
  - autorewrite with bytes_len. rewrite length_random by done. rewrite (length_flat_map 2) by done.
    rewrite Hel. unfold ClientHello_size. cbn. lia.
  - unfold ClientHello_unmarshal. reads_step. reads_step. reads_step.
    rewrite len_as_small by lia. eapply reads_bind; [apply reads_u8; lia|]. rewrite Nat2Z.id. reads_step.
    apply counted_list_reads; [lia|intros; apply reads_wire|]. reads_step.
    by apply (reads_bind_ret _ (mkClientHello v r ck cs cm)).
Qed.

Lemma ServerHello_codec m : ServerHello_wf m ->
  codec (ServerHello_marshal m) (ServerHello_size m) ServerHello_unmarshal m.
Proof.
  destruct m as [v r cs cm ex]; unfold ServerHello_wf; cbn [sh_version sh_random sh_extensions]. intros (Hv & Hr & Hex).
  destruct (extensions_codec ex Hex) as (ebs & He & Hel & Her).
  eexists. split_and!.
  - unfold ServerHello_marshal. cbn [sh_version sh_random sh_cipher_suite sh_compression_method sh_extensions].
    rewrite He. reflexivity.
  - autorewrite with bytes_len. rewrite length_random by done. rewrite Hel. unfold ServerHello_size. cbn. lia.
  - unfold ServerHello_unmarshal. reads_step. reads_step. reads_step.
    change (write_wire cs ++ ?t) with ([] ++ (write_wire cs ++ t)).
    eapply reads_bind; [by apply reads_exact|]. reads_step. reads_step.
    by apply (reads_bind_ret _ (mkServerHello v r cs cm)).
Qed.

(** The distinguished names are written and not read back: two zero bytes stay
    in the reader. *)
Lemma CertificateRequest_reads m : MessageCertificateRequest_wf m -> exists bs,
  MessageCertificateRequest_marshal m = Ok (bs ++ [Byte.x00; Byte.x00])
  /\ (length bs + 2)%nat = MessageCertificateRequest_size m
  /\ reads MessageCertificateRequest_unmarshal bs m.
Proof.
  destruct m as [ts l]; unfold MessageCertificateRequest_wf;
  cbn [cr_certificate_types cr_signature_hash_algorithms]. intros [Ht Hl].
  exists (write_u8 (Z.of_nat (length ts)) ++ flat_map write_wire ts ++ write_u16 (2 * Z.of_nat (length l))
          ++ flat_map write_signature_hash l). split_and!.
  - unfold MessageCertificateRequest_marshal. cbn [cr_certificate_types cr_signature_hash_algorithms].
    rewrite twice_len_ok by lia. cbn [mbind res_bind]. rewrite len_as_small by lia. by rewrite <- !app_assoc.
  - autorewrite with bytes_len. rewrite (length_flat_map 1), (length_flat_map 2) by done.
    unfold MessageCertificateRequest_size. cbn [cr_certificate_types cr_signature_hash_algorithms]. lia.
  - eapply reads_bind; [apply reads_u8; lia|]. rewrite Nat2Z.id. reads_step.
    eapply reads_bind; [apply reads_u16; lia|].
    replace (Z.to_nat ((2 * Z.of_nat (length l) + 1) / 2)) with (length l) by (Z.div_mod_to_equations; lia).
    apply (reads_bind_ret _ (mkMessageCertificateRequest ts)), reads_n. intros; apply reads_signature_hash.
Qed.

Lemma HelloVerifyRequest_codec m : HelloVerifyRequest_wf m ->
  codec_end (HelloVerifyRequest_marshal m) (HelloVerifyRequest_size m) HelloVerifyRequest_unmarshal m.
Proof.
  destruct m as [v ck]; unfold HelloVerifyRequest_wf; cbn [hv_version hv_cookie]. intros [Hv Hck].
  eexists. split_and!.
  - unfold HelloVerifyRequest_marshal. cbn [hv_version hv_cookie]. by rewrite ltb_false by lia.
  - autorewrite with bytes_len. unfold HelloVerifyRequest_size. cbn [hv_cookie]. lia.
  - unfold HelloVerifyRequest_unmarshal, mbind at 1, rd_bind at 1. rewrite reads_version by done.
    unfold mbind at 1, rd_bind at 1. rewrite len_as_small by lia. rewrite reads_u8 by lia.
    cbn [mbind rd_bind read_to_end]. unfold mbind, rd_bind, read_to_end.
    by replace (Z.of_nat (length ck) <? Z.of_nat (length ck)) with false by (symmetry; apply Z.ltb_irrefl).
Qed.

Lemma write_certificate_ok r : Z.of_nat (length r) < 16777216 ->
  write_certificate r = Ok (to_be_bytes 3 (Z.of_nat (length r)) ++ r).
Proof. intros H. unfold write_certificate. rewrite len_as_small by lia. by rewrite write_u24_ok by lia. Qed.

Lemma read_certificates_reads fuel total offset l :
  total = (offset + certificates_size l)%nat -> (certificates_size l <= fuel)%nat -> Z.of_nat total < 16777216 ->
  exists bs, marshal_all write_certificate l = Ok bs /\ length bs = certificates_size l
    /\ reads (read_certificates fuel total offset) bs l.
Proof.
  revert fuel offset. induction l as [|r l IH]; intros fuel offset Ht Hf Hb.
  { exists []. split_and!; [done|done|]. cbn in Ht. destruct fuel; cbn [read_certificates];
      rewrite ltb_false by lia; apply reads_ret. }
  unfold certificates_size in *. cbn [sum_list_with] in *.
  unfold HANDSHAKE_MESSAGE_CERTIFICATE_LENGTH_FIELD_SIZE in *. destruct fuel as [|fuel]; [lia|].
  destruct (IH fuel (offset + 3 + length r)%nat ltac:(lia) ltac:(lia) Hb) as (bs & Hm & Hl & Hr).
  exists (to_be_bytes 3 (Z.of_nat (length r)) ++ r ++ bs). split_and!.
  - cbn [marshal_all]. rewrite write_certificate_ok by lia.
    cbn [mbind res_bind]. by rewrite Hm.
  - rewrite !length_app, length_to_be_bytes, Hl. lia.
  - cbn [read_certificates]. rewrite ltb_true by lia. eapply reads_bind; [apply reads_u24; lia|].
    rewrite Nat2Z.id. reads_step. by apply (reads_bind_ret _ (cons r)).
Qed.

Lemma MessageCertificate_codec m : MessageCertificate_wf m ->
  codec (MessageCertificate_marshal m) (MessageCertificate_size m) MessageCertificate_unmarshal m.
Proof.
  destruct m as [l]; unfold MessageCertificate_wf; cbn [mc_certificate]. intros Hl.
  destruct (read_certificates_reads (certificates_size l) (certificates_size l) 0 l) as (bs & Hm & Hlen & Hr);
    [lia|lia|lia|].
  exists (to_be_bytes 3 (Z.of_nat (certificates_size l)) ++ bs). split_and!.
  - unfold MessageCertificate_marshal. cbn [mc_certificate]. rewrite wrap_small by (unfold in_range; lia).
    rewrite write_u24_ok by lia. cbn [mbind res_bind]. by rewrite Hm.
  - rewrite length_app, length_to_be_bytes, Hlen. unfold MessageCertificate_size. cbn [mc_certificate]. lia.
  - eapply reads_bind; [apply reads_u24; lia|]. rewrite Nat2Z.id. by apply (reads_bind_ret _ mkMessageCertificate).
Qed.

Lemma MessageCertificateVerify_codec m : MessageCertificateVerify_wf m ->
  codec (Ok (MessageCertificateVerify_marshal m)) (MessageCertificateVerify_size m) MessageCertificateVerify_unmarshal m.
Proof.
  destruct m as [a s]; unfold MessageCertificateVerify_wf; cbn [cv_signature]. intros Hs.
  eexists. split_and!; [done| |].
  - unfold MessageCertificateVerify_marshal. autorewrite with bytes_len.
    unfold MessageCertificateVerify_size. cbn [cv_algorithm cv_signature]. lia.
  - unfold MessageCertificateVerify_marshal. cbn [cv_algorithm cv_signature]. rewrite len_as_small by lia.
    unfold MessageCertificateVerify_unmarshal. reads_step. eapply reads_bind; [apply reads_u16; lia|].
    rewrite Nat2Z.id. by apply (reads_bind_ret _ (mkMessageCertificateVerify a)), reads_exact.
Qed.

(** ** The key exchanges *)
Lemma from_be_bytes_2 a b : from_be_bytes [a; b] = u8_of_byte a * 256 + u8_of_byte b.
Proof. cbn. lia. Qed.

Lemma from_be_bytes_u16 z : 0 <= z < 65536 -> from_be_bytes (write_u16 z) = z.
Proof. intros H. rewrite from_to_be_bytes. by apply Z.mod_small. Qed.

Lemma index_u16_app pre z rest : 0 <= z < 65536 ->
  index_u16 (pre ++ write_u16 z ++ rest) (length pre) = Ok z.
Proof.
  intros Hz. unfold index_u16. rewrite <- (Nat.add_0_r (length pre)) at 1.
  rewrite (index_app _ _ 0 (byte_of_u8 (z / 2 ^ 8))) by done. cbn [mbind res_bind].
  rewrite (index_app _ _ 1 (byte_of_u8 z)) by done. cbn [mbind res_bind].
  f_equal. by apply (from_be_bytes_u16 z).
Qed.

Lemma index_u16_head z rest : 0 <= z < 65536 -> index_u16 (write_u16 z ++ rest) 0 = Ok z.
Proof. apply (index_u16_app []). Qed.

Lemma identity_hint_length (hint : bytes) : Z.of_nat (length hint) <= 65535 ->
  Z.of_nat (length (write_u16 (len_as 16 hint) ++ hint)) = Z.of_nat (length hint) + 2.
Proof. intros H. rewrite length_app, length_to_be_bytes. lia. Qed.

Lemma ClientKeyExchange_codec m : ClientKeyExchange_wf m ->
  codec_end (ClientKeyExchange_marshal m) (ClientKeyExchange_size m) ClientKeyExchange_unmarshal m.
Proof.
  destruct m as [hint key]. unfold ClientKeyExchange_wf; cbn [cke_identity_hint cke_public_key].
  intros [(-> & Hk & Hkl)|(-> & Hh & Hhl)].
  - destruct key as [|k0 key]; [cbn in Hk; lia|]. cbn [length] in Hkl.
    exists (write_u8 (len_as 8 (k0 :: key)) ++ k0 :: key). split_and!; [done|done|].
    rewrite len_as_small by (cbn [length]; lia). unfold ClientKeyExchange_unmarshal, mbind, rd_bind, read_to_end, rd_lift.
    cbn [to_be_bytes app]. unfold ClientKeyExchange_parse, index_u16, index. cbn [lookup list_lookup Nat.add mbind res_bind].
    rewrite from_be_bytes_2, u8_of_byte_of_u8, wrap_small by (unfold in_range; cbn [length]; lia).
    pose proof (u8_of_byte_range k0) as Hr. unfold in_range in Hr. cbn [length].
    replace (_ =? _) with false by (symmetry; apply Z.eqb_neq; lia).
    replace (_ =? _) with true by (symmetry; apply Z.eqb_eq; lia). done.
  - exists (write_u16 (len_as 16 hint) ++ hint).
    assert (is_empty hint = false) as He by (destruct hint; [cbn in Hh; lia|done]).
    split_and!.
    + unfold ClientKeyExchange_marshal. cbn [cke_identity_hint cke_public_key]. by rewrite He.
    + rewrite length_app, length_to_be_bytes. done.
    + unfold ClientKeyExchange_unmarshal, mbind at 1, rd_bind, read_to_end, rd_lift, ClientKeyExchange_parse.
      pose proof (identity_hint_length hint Hhl) as Hl. rewrite len_as_small in * by lia.
      rewrite index_u16_head by lia. cbn [mbind res_bind]. rewrite Hl, Z.eqb_refl. done.
Qed.

Lemma index_at {A} (l pre : list A) x post i :
  l = pre ++ x :: post -> i = length pre -> index (E := DtlsError) l i = Ok x.
Proof. intros -> ->. rewrite <- (Nat.add_0_r (length pre)). by apply index_app. Qed.

Lemma index_u16_at l pre z post i :
  0 <= z < 65536 -> l = pre ++ write_u16 z ++ post -> i = length pre -> index_u16 l i = Ok z.
Proof. intros Hz -> ->. by apply index_u16_app. Qed.

Lemma ServerKeyExchange_parse_curve ct nc pk h sg sig : Z.of_nat (length pk) <= 255 -> Z.of_nat (length sig) <= 65535 ->
  Z.of_nat (8 + length pk + length sig) <> EllipticCurveType_as ct * 256 + 2 ->
  ServerKeyExchange_parse
    (write_wire ct ++ write_wire nc ++ write_u8 (Z.of_nat (length pk)) ++ pk
     ++ write_signature_hash (mkSignatureHashAlgorithm h sg) ++ write_u16 (Z.of_nat (length sig)) ++ sig)
  = Ok (mkServerKeyExchange [] ct nc pk (mkSignatureHashAlgorithm h sg) sig).
Proof.
  intros Hpk Hsig Hne. unfold ServerKeyExchange_parse. set (data := write_wire ct ++ _).
  assert (length data = 8 + length pk + length sig)%nat as Hlen
    by (unfold data; autorewrite with bytes_len; cbn; lia).
  assert (index_u16 data 0 = Ok (EllipticCurveType_as ct * 256)) as ->
    by (unfold data; destruct ct, nc; vm_compute; reflexivity).
  cbn [mbind res_bind]. rewrite Hlen. replace (_ =? _) with false by (symmetry; apply Z.eqb_neq; lia).
  assert (index data 0 = Ok (byte_of_u8 (EllipticCurveType_as ct))) as -> by done. cbn [mbind res_bind].
  rewrite ltb_false by lia.
  assert (index_u16 data 1 = Ok (NamedCurve_as nc)) as -> by (destruct nc; reflexivity). cbn [mbind res_bind].
  rewrite ltb_false by lia.
  assert (index data 3 = Ok (byte_of_u8 (Z.of_nat (length pk)))) as -> by done. cbn [mbind res_bind].
  rewrite u8_of_byte_of_u8, wrap_small, Nat2Z.id by (unfold in_range; lia).
  rewrite ltb_false by lia.
  set (pre := write_wire ct ++ write_wire nc ++ write_u8 (Z.of_nat (length pk))).
  assert (data = pre ++ pk ++ write_wire h ++ write_wire sg ++ write_u16 (Z.of_nat (length sig)) ++ sig) as Hd
    by (unfold data, pre, write_signature_hash; by rewrite <- !app_assoc).
  rewrite (slice_app _ pre pk (write_wire h ++ write_wire sg ++ write_u16 (Z.of_nat (length sig)) ++ sig))
    by first [exact Hd | reflexivity].
  cbn [mbind res_bind]. rewrite leb_false by lia.
  rewrite (index_at data (pre ++ pk) (byte_of_u8 (HashAlgorithm_as h))
             (write_wire sg ++ write_u16 (Z.of_nat (length sig)) ++ sig) (4 + length pk))
    by first [by rewrite Hd, <- app_assoc | by rewrite length_app].
  cbn [mbind res_bind]. rewrite leb_false by lia.
  rewrite (index_at data (pre ++ pk ++ write_wire h) (byte_of_u8 (SignatureAlgorithm_as sg))
             (write_u16 (Z.of_nat (length sig)) ++ sig) (4 + length pk + 1))
    by first [by rewrite Hd, <- !app_assoc | rewrite !length_app; cbn; lia].
  cbn [mbind res_bind]. rewrite ltb_false by lia.
  rewrite (index_u16_at data (pre ++ pk ++ write_wire h ++ write_wire sg) (Z.of_nat (length sig)) sig
             (4 + length pk + 2))
    by first [lia | by rewrite Hd, <- !app_assoc | rewrite !length_app; cbn; lia].
  cbn [mbind res_bind]. rewrite Nat2Z.id, ltb_false by lia.
  rewrite (slice_app _ (pre ++ pk ++ write_wire h ++ write_wire sg ++ write_u16 (Z.of_nat (length sig))) sig []).
  - cbn [mbind res_bind]. destruct ct, nc, h, sg; reflexivity.
  - rewrite Hd, app_nil_r. by rewrite <- !app_assoc.
  - rewrite !length_app. cbn. lia.
  - lia.
Qed.

Lemma ServerKeyExchange_codec m : ServerKeyExchange_wf m ->
  codec_end (Ok (ServerKeyExchange_marshal m)) (ServerKeyExchange_size m) ServerKeyExchange_unmarshal m.
Proof.
  unfold ServerKeyExchange_wf. intros Hwf. eexists. split_and!; [done| |].
  - unfold ServerKeyExchange_marshal, ServerKeyExchange_size. destruct (is_empty (ske_identity_hint m));
      cbn [negb]; autorewrite with bytes_len; cbn; lia.
  - unfold ServerKeyExchange_marshal. destruct (is_empty (ske_identity_hint m)) eqn:He; cbn [negb].
    + destruct m as [hint ct nc pk [h sg] sig]. destruct hint; [|done].
      unfold ServerKeyExchange_size in Hwf.
      cbn [ske_identity_hint ske_elliptic_curve_type ske_named_curve ske_public_key ske_algorithm ske_signature
           is_empty negb] in *. destruct Hwf as (Hpk & Hsig & Hne).
      rewrite !len_as_small by lia. unfold ServerKeyExchange_unmarshal, mbind, rd_bind, read_to_end, rd_lift.
      by rewrite ServerKeyExchange_parse_curve by lia.
    + destruct Hwf as [Hl ->]. cbn [ske_identity_hint] in *. set (hint := ske_identity_hint m) in *.
      unfold ServerKeyExchange_unmarshal, mbind at 1, rd_bind, read_to_end, rd_lift, ServerKeyExchange_parse.
      pose proof (identity_hint_length hint Hl) as Hlen. rewrite len_as_small in * by lia.
      rewrite index_u16_head by lia. cbn [mbind res_bind]. rewrite Hlen, Z.eqb_refl. done.
Qed.
End messages.

(** * Handshakes *)

(** What the parser leaves in the reader. *)
Definition message_rest (m : HandshakeMessage) : bytes :=
  match m with HmCertificateRequest _ => [Byte.x00; Byte.x00] | _ => [] end.

Definition HandshakeHeader_wf (h : HandshakeHeader) : Prop :=
  0 <= hh_length h < 16777216 /\ 0 <= hh_message_sequence h < 65536
  /\ 0 <= hh_fragment_offset h < 16777216 /\ 0 <= hh_fragment_length h < 16777216.

Definition Handshake_wf (h : Handshake) : Prop :=
  HandshakeHeader_wf (hs_handshake_header h) /\ HandshakeMessage_wf (hs_handshake_message h)
  /\ hh_handshake_type (hs_handshake_header h) = handshake_type (hs_handshake_message h).

Lemma HandshakeHeader_codec h : HandshakeHeader_wf h ->
  codec (HandshakeHeader_marshal h) HANDSHAKE_HEADER_LENGTH HandshakeHeader_unmarshal h.
Proof.
  destruct h as [t l s o f]; unfold HandshakeHeader_wf; cbn [hh_length hh_message_sequence hh_fragment_offset
    hh_fragment_length]. intros (Hl & Hs & Ho & Hf). eexists. split_and!.
  - unfold HandshakeHeader_marshal. cbn [hh_handshake_type hh_length hh_message_sequence hh_fragment_offset
      hh_fragment_length]. rewrite !write_u24_ok by done. reflexivity.
  - autorewrite with bytes_len. done.
  - unfold HandshakeHeader_unmarshal. reads_step. eapply reads_bind; [by apply reads_u24|].
    eapply reads_bind; [by apply reads_u16|]. eapply reads_bind; [by apply reads_u24|].
    by apply (reads_bind_ret _ (mkHandshakeHeader t l s o)), reads_u24.
Qed.

(** An enclosing parser: it reads the body and wraps it. *)
Lemma codec_end_wrap {A B} (f : A -> B) m size (p : Rd A) x :
  codec_end m size p x -> codec_end m size (a ← p; mret (f a)) (f x).
Proof. intros (bs & Hm & Hl & Hr). exists bs. split_and!; [done|done|]. unfold mbind, rd_bind. by rewrite Hr. Qed.

Section records.
Context {P : Profile}.

Lemma HandshakeMessage_codec m : HandshakeMessage_wf m -> exists bs,
  HandshakeMessage_marshal m = Ok bs /\ length bs = HandshakeMessage_size m
  /\ HandshakeMessage_unmarshal (handshake_type m) bs = Ok (m, message_rest m).
Proof.
  destruct m as [m|m|m|m|m|m| |m|m|m]; cbn [HandshakeMessage_wf]; intros Hwf.
  - apply (codec_end_wrap HmClientHello). by apply codec_codec_end, ClientHello_codec.
  - apply (codec_end_wrap HmServerHello). by apply codec_codec_end, ServerHello_codec.
  - apply (codec_end_wrap HmHelloVerifyRequest). by apply HelloVerifyRequest_codec.
  - apply (codec_end_wrap HmCertificate). by apply codec_codec_end, MessageCertificate_codec.
  - apply (codec_end_wrap HmServerKeyExchange). by apply ServerKeyExchange_codec.
  - destruct (CertificateRequest_reads m Hwf) as (bs & Hm & Hl & Hr). exists (bs ++ [Byte.x00; Byte.x00]).
    split_and!; [exact Hm|rewrite length_app; exact Hl|].
    cbn [HandshakeMessage_unmarshal handshake_type]. unfold mbind, rd_bind. by rewrite Hr.
  - by exists [].
  - apply (codec_end_wrap HmCertificateVerify). by apply codec_codec_end, MessageCertificateVerify_codec.
  - apply (codec_end_wrap HmClientKeyExchange). by apply ClientKeyExchange_codec.
  - destruct m as [d]. by exists d.
Qed.

Lemma Handshake_codec h : Handshake_wf h -> exists bs,
  Handshake_marshal h = Ok bs /\ length bs = Handshake_size h
  /\ Handshake_unmarshal bs = Ok (h, message_rest (hs_handshake_message h)).
Proof.
  destruct h as [h m]; unfold Handshake_wf; cbn [hs_handshake_header hs_handshake_message]. intros (Hh & Hm & Ht).
  destruct (HandshakeHeader_codec h Hh) as (hb & Hhm & Hhl & Hhr).
  destruct (HandshakeMessage_codec m Hm) as (mb & Hmm & Hml & Hmr).
  exists (hb ++ mb). split_and!.
  - unfold Handshake_marshal. cbn [hs_handshake_header hs_handshake_message]. rewrite Hhm. cbn [mbind res_bind].
    by rewrite Hmm.
  - rewrite length_app, Hhl, Hml. done.
  - unfold Handshake_unmarshal, mbind, rd_bind. rewrite Hhr, Ht, Hmr. done.
Qed.

(** * Records *)
Definition Content_wf (c : Content) : Prop :=
  match c with CoHandshake h => Handshake_wf h | _ => True end.

Definition content_rest (c : Content) : bytes :=
  match c with CoHandshake h => message_rest (hs_handshake_message h) | _ => [] end.

Lemma Content_codec c : Content_wf c -> exists bs,
  Content_marshal c = Ok bs /\ length bs = Content_size c
  /\ Content_unmarshal (content_type c) bs = Ok (c, content_rest c).
Proof.
  destruct c as [|[l d]|h|[d]]; cbn [Content_wf content_type content_rest]; intros Hwf.
  - by exists ChangeCipherSpec_marshal.
  - exists (Alert_marshal (mkAlert l d)). split_and!; [done|done|]. by destruct l, d.
  - destruct (Handshake_codec h Hwf) as (bs & Hm & Hl & Hr). exists bs. split_and!; [done|done|].
    cbn [Content_unmarshal]. unfold mbind, rd_bind. by rewrite Hr.
  - by exists d.
Qed.

Definition RecordLayerHeader_wf (h : RecordLayerHeader) : Prop :=
  (rl_protocol_version h = PROTOCOL_VERSION1_0 \/ rl_protocol_version h = PROTOCOL_VERSION1_2)
  /\ 0 <= rl_epoch h < 65536 /\ 0 <= rl_sequence_number h <= MAX_SEQUENCE_NUMBER /\ 0 <= rl_content_len h < 65536.

Lemma to_be_bytes_48 z : 0 <= z <= MAX_SEQUENCE_NUMBER ->
  to_be_bytes 8 z = [Byte.x00; Byte.x00] ++ drop 2 (to_be_bytes 8 z).
Proof.
  intros Hz. rewrite <- (take_drop 2 (to_be_bytes 8 z)) at 1. f_equal. cbn [to_be_bytes app take].
  rewrite !Z.div_div by lia. rewrite !Z.div_small; [done|..]; unfold MAX_SEQUENCE_NUMBER in Hz; lia.
Qed.

Lemma RecordLayerHeader_codec h : RecordLayerHeader_wf h ->
  codec (RecordLayerHeader_marshal h) RECORD_LAYER_HEADER_SIZE RecordLayerHeader_unmarshal h.
Proof.
  destruct h as [t v e s l]; unfold RecordLayerHeader_wf; cbn [rl_protocol_version rl_epoch rl_sequence_number
    rl_content_len]. intros (Hv & He & Hs & Hl). eexists. split_and!.
  - unfold RecordLayerHeader_marshal. cbn [rl_sequence_number].
    replace (MAX_SEQUENCE_NUMBER <? s) with false by (symmetry; apply Z.ltb_ge; lia). reflexivity.
  - done.
  - unfold RecordLayerHeader_unmarshal. cbn [rl_content_type rl_protocol_version rl_epoch rl_sequence_number
      rl_content_len]. reads_step.
    eapply reads_bind; [apply reads_version; by destruct Hv as [-> | ->]|].
    eapply reads_bind; [by apply reads_u16|]. eapply reads_bind; [by apply reads_exact|].
    rewrite <- to_be_bytes_48 by done. rewrite from_to_be_bytes, Z.mod_small
      by (unfold MAX_SEQUENCE_NUMBER in Hs; lia).
    replace (_ && _) with false by (symmetry; by destruct Hv as [-> | ->]).
    by apply (reads_bind_ret _ (mkRecordLayerHeader t v e s)), reads_u16.
Qed.

(** [r] is a record as the connection makes them: [RecordLayer_new], with a
    sequence number. *)
Definition RecordLayer_wf (r : RecordLayer) : Prop :=
  RecordLayerHeader_wf (rl_header r) /\ Content_wf (rl_content r)
  /\ rl_content_type (rl_header r) = content_type (rl_content r)
  /\ rl_content_len (rl_header r) = Z.of_nat (Content_size (rl_content r)).

Lemma RecordLayer_codec r : RecordLayer_wf r -> exists bs,
  RecordLayer_marshal r = Ok bs /\ length bs = (RECORD_LAYER_HEADER_SIZE + Content_size (rl_content r))%nat
  /\ take 2 (drop 11 bs) = write_u16 (rl_content_len (rl_header r))
  /\ RecordLayer_unmarshal bs = Ok (r, content_rest (rl_content r)).
Proof.
  destruct r as [h c]; unfold RecordLayer_wf; cbn [rl_header rl_content]. intros (Hh & Hc & Ht & Hl).
  destruct (RecordLayerHeader_codec h Hh) as (hb & Hhm & Hhl & Hhr).
  destruct (Content_codec c Hc) as (cb & Hcm & Hcl & Hcr).
  exists (hb ++ cb). split_and!.
  - unfold RecordLayer_marshal. cbn [rl_header rl_content]. rewrite Hhm. cbn [mbind res_bind]. by rewrite Hcm.
  - by rewrite length_app, Hhl, Hcl.
  - unfold RecordLayerHeader_marshal in Hhm. destruct (_ <? _); [done|]. injection Hhm as <-. reflexivity.
  - unfold RecordLayer_unmarshal, mbind, rd_bind. rewrite Hhr, Ht, Hcr. done.
Qed.
End records.

(** * Datagrams *)

(** [framed_record pkt]: the length field of the header is the length of the rest. *)
Definition framed_record (pkt : bytes) : Prop :=
  Z.of_nat (length pkt)
  = Z.of_nat RECORD_LAYER_HEADER_SIZE + from_be_bytes (take 2 (drop (RECORD_LAYER_HEADER_SIZE - 2) pkt)).

Lemma lor_bytes hi lo : Z.lor (Z.shiftl (u8_of_byte hi) 8) (u8_of_byte lo) = from_be_bytes [hi; lo].
Proof.
  rewrite from_be_bytes_2. pose proof (u8_of_byte_range hi) as Hh. pose proof (u8_of_byte_range lo) as Hl.
  unfold in_range in *. rewrite <- Z.add_nocarry_lor; [rewrite Z.shiftl_mul_pow2 by lia; lia|].
  apply Z.bits_inj'. intros n Hn. rewrite Z.land_spec, Z.bits_0.
  destruct (Z.lt_ge_cases n 8) as [H|H]; [by rewrite Z.shiftl_spec_low|].
  replace (u8_of_byte lo) with (u8_of_byte lo mod 2 ^ 8) by (by apply Z.mod_small).
  by rewrite Z.mod_pow2_bits_high, andb_false_r by lia.
Qed.

Lemma two_bytes (l : bytes) i : (i + 2 <= length l)%nat -> exists hi lo,
  l !! i = Some hi /\ l !! (i + 1)%nat = Some lo /\ take 2 (drop i l) = [hi; lo].
Proof.
  intros Hl. destruct (lookup_lt_is_Some_2 l i) as [hi Hhi]; [lia|].
  destruct (lookup_lt_is_Some_2 l (i + 1)) as [lo Hlo]; [lia|]. exists hi, lo. split_and!; [done|done|].
  rewrite (drop_S l hi) by done. rewrite (drop_S l lo) by (by rewrite <- Nat.add_1_r). done.
Qed.

Lemma unpack_records_partition fuel offset buf :
  (offset <= length buf)%nat -> (length buf - offset <= fuel)%nat ->
  match unpack_records fuel offset buf with
  | Ok l => concat l = drop offset buf /\ Forall framed_record l
  | Err e => e = ErrInvalidPacketLength
  | Panic | OutOfFuel => False
  end.
Proof.
  revert offset. induction fuel as [|fuel IH]; intros offset Ho Hf; cbn [unpack_records];
    destruct (Nat.eqb_spec (length buf) offset) as [He|He]; try lia.
  - split; [|constructor]. by rewrite drop_ge by lia.
  - split; [|constructor]. by rewrite drop_ge by lia.
  - unfold RECORD_LAYER_HEADER_SIZE. destruct (Nat.leb_spec (length buf - offset) 13); [done|].
    destruct (two_bytes buf (offset + 11)) as (hi & lo & Hhi & Hlo & H2); [lia|].
    unfold index. replace (offset + 13 - 2)%nat with (offset + 11)%nat by lia.
    replace (offset + 13 - 1)%nat with (offset + 11 + 1)%nat by lia. rewrite Hhi, Hlo. cbn [mbind res_bind].
    rewrite lor_bytes. set (n := Z.to_nat (from_be_bytes [hi; lo])).
    destruct (Nat.ltb_spec (length buf) (offset + (13 + n))); [done|].
    rewrite slice_ok by lia. cbn [mbind res_bind]. specialize (IH (offset + (13 + n))%nat ltac:(lia) ltac:(lia)).
    destruct (unpack_records fuel _ buf) as [l|e| |]; cbn [mbind res_bind]; try done.
    destruct IH as [Hc Hl]. replace (offset + (13 + n) - offset)%nat with (13 + n)%nat by lia. split.
    + cbn [concat]. rewrite Hc, <- drop_drop. apply take_drop.
    + constructor; [|done]. unfold framed_record, RECORD_LAYER_HEADER_SIZE.
      rewrite length_take, length_drop, Nat.min_l by lia. change (13 - 2)%nat with 11%nat.
      rewrite take_drop_commute, take_take, Nat.min_l by lia.
      rewrite <- take_drop_commute, drop_drop, H2. pose proof (from_be_bytes_range [hi; lo]). lia.
Qed.

(** Packets that frame themselves, with a body each, are found again. *)
Lemma unpack_records_concat fuel pre pkts :
  Forall (fun pkt => framed_record pkt /\ (RECORD_LAYER_HEADER_SIZE < length pkt)%nat) pkts ->
  (length (concat pkts) <= fuel)%nat ->
  unpack_records fuel (length pre) (pre ++ concat pkts) = Ok pkts.
Proof.
  intros H. revert fuel pre. induction H as [|pkt pkts [Hfr Hlt] _ IH]; intros fuel pre Hf.
  { cbn [concat]. rewrite app_nil_r. destruct fuel; cbn [unpack_records]; by rewrite Nat.eqb_refl. }
  cbn [concat] in *. rewrite length_app in Hf. unfold RECORD_LAYER_HEADER_SIZE in Hlt.
  destruct fuel as [|fuel]; [lia|]. cbn [unpack_records]. unfold RECORD_LAYER_HEADER_SIZE at 1.
  rewrite !length_app. replace (_ =? length pre)%nat with false by (symmetry; apply Nat.eqb_neq; lia).
  rewrite leb_false by lia.
  destruct (two_bytes pkt 11) as (hi & lo & Hhi & Hlo & H2); [lia|].
  replace (length pre + RECORD_LAYER_HEADER_SIZE - 2)%nat with (length pre + 11)%nat
    by (unfold RECORD_LAYER_HEADER_SIZE; lia).
  replace (length pre + RECORD_LAYER_HEADER_SIZE - 1)%nat with (length pre + (11 + 1))%nat
    by (unfold RECORD_LAYER_HEADER_SIZE; lia).
  rewrite (index_app _ _ 11 hi) by (by rewrite lookup_app_l by lia). cbn [mbind res_bind].
  rewrite (index_app _ _ (11 + 1) lo) by (by rewrite lookup_app_l by lia). cbn [mbind res_bind].
  rewrite lor_bytes. unfold framed_record, RECORD_LAYER_HEADER_SIZE in Hfr. change (13 - 2)%nat with 11%nat in Hfr.
  rewrite H2 in Hfr. replace (RECORD_LAYER_HEADER_SIZE + Z.to_nat (from_be_bytes [hi; lo]))%nat with (length pkt)
    by (unfold RECORD_LAYER_HEADER_SIZE; lia).
  rewrite ltb_false by lia. rewrite (slice_app _ pre pkt (concat pkts)) by done. cbn [mbind res_bind].
  replace (length pre + length pkt)%nat with (length (pre ++ pkt)) by (by rewrite length_app).
  rewrite app_assoc, IH by lia. done.
Qed.

(** [unpack_datagram] is total: on any datagram it returns, with records
    or with an error.  The records it returns partition the datagram, and the
    length of each is thirteen more than the length in its header. *)
Theorem unpack_datagram_partition buf :
  match unpack_datagram buf with
  | Ok l => concat l = buf /\ Forall framed_record l
  | Err e => e = ErrInvalidPacketLength
  | Panic | OutOfFuel => False
  end.
Proof. apply (unpack_records_partition (length buf) 0 buf); lia. Qed.


Definition sample_random : HandshakeRandom := mkHandshakeRandom (1700000000 * nanos_per_sec) (replicate 28 Byte.x2a).

Definition sample_hello : HandshakeMessage :=
  HmClientHello
    (mkClientHello PROTOCOL_VERSION1_2 sample_random (replicate 20 Byte.x01)
       [Tls_Ecdhe_Ecdsa_With_Aes_128_Gcm_Sha256; Tls_Ecdhe_Rsa_With_Aes_256_Cbc_Sha]
       default_compression_methods
       [ExtSupportedSignatureAlgorithms (mkExtensionSupportedSignatureAlgorithms default_signature_schemes);
        ExtRenegotiationInfo (mkExtensionRenegotiationInfo 0);
        ExtSupportedEllipticCurves (mkExtensionSupportedEllipticCurves [P256; X25519; P384]);
        ExtSupportedPointFormats (mkExtensionSupportedPointFormats [0]);
        ExtUseExtendedMasterSecret (mkExtensionUseExtendedMasterSecret true)]).

Definition sample_records : list RecordLayer :=
  [RecordLayer_new PROTOCOL_VERSION1_2 0 (CoHandshake (Handshake_new sample_hello));
   RecordLayer_new PROTOCOL_VERSION1_2 0 CoChangeCipherSpec;
   RecordLayer_new PROTOCOL_VERSION1_2 1 (CoAlert (mkAlert AlWarning CloseNotify))].

Lemma sample_random_wf : random_wf sample_random.
Proof. split; [|reflexivity]. exists 1700000000. split; [lia|reflexivity]. Qed.

Lemma sample_hello_wf : HandshakeMessage_wf sample_hello.
Proof.
  unfold sample_hello, HandshakeMessage_wf, ClientHello_wf. cbn [ch_version ch_random ch_cookie ch_cipher_suites
    ch_compression_methods ch_extensions]. split_and!; try (cbn; lia).
  - by split; split; vm_compute.
  - apply sample_random_wf.
  - split; [|cbn; lia]. by repeat constructor.
  - split; [|cbn; lia]. repeat constructor; cbn; lia.
Qed.

