(* ===== verification/DtlsTotal.v ===== *)
(** The DTLS parsers on arbitrary input: they all return; where they panic. *)
From S2P Require Import Prelude Utf8 DtlsTypes DtlsExtension DtlsHandshake DtlsRecord DtlsCodec DtlsLaws.

(** [rd_safe p]: on any input, [p] returns a value or an error.
    [rd_total p]: on any input, [p] comes to an end, possibly by a panic. *)
Definition rd_safe {A} (p : Rd A) : Prop := forall r, safe (p r).
Definition rd_total {A} (p : Rd A) : Prop := forall r, terminates (p r).

Section rd.
Context {A B : Type}.

Lemma rd_safe_ret (x : A) : rd_safe (mret x).
Proof. done. Qed.

Lemma rd_safe_raise e : rd_safe (A := A) (rd_raise e).
Proof. done. Qed.

Lemma rd_safe_bind (p : Rd A) (f : A -> Rd B) : rd_safe p -> (forall x, rd_safe (f x)) -> rd_safe (p ≫= f).
Proof. intros Hp Hf r. unfold mbind, rd_bind. specialize (Hp r). destruct (p r) as [[x r']| | |]; try done. apply Hf. Qed.

Lemma rd_safe_n n (p : Rd A) : rd_safe p -> rd_safe (read_n n p).
Proof.
  intros Hp. induction n as [|n IH]; [done|]. intros r. cbn [read_n]. unfold mbind, rd_bind.
  specialize (Hp r). destruct (p r) as [[x r']| | |]; try done. specialize (IH r'). by destruct (read_n n p r') as [[]| | |].
Qed.

Lemma rd_total_bind (p : Rd A) (f : A -> Rd B) : rd_total p -> (forall x, rd_total (f x)) -> rd_total (p ≫= f).
Proof. intros Hp Hf r. unfold mbind, rd_bind. specialize (Hp r). destruct (p r) as [[x r']| | |]; try done. apply Hf. Qed.

Lemma rd_safe_total (p : Rd A) : rd_safe p -> rd_total p.
Proof. intros H r. specialize (H r). by destruct (p r). Qed.

Lemma rd_total_lift (x : res DtlsError A) : terminates x -> rd_total (rd_lift x).
Proof. intros H r. by destruct x. Qed.
End rd.

Lemma rd_safe_exact n : rd_safe (read_exact n).
Proof. intros r. unfold read_exact. by destruct (_ <? _)%nat. Qed.

Lemma rd_safe_to_end : rd_safe read_to_end.
Proof. done. Qed.

Lemma rd_safe_uint n : rd_safe (read_uint n).
Proof. apply rd_safe_bind; [apply rd_safe_exact|]. intros. apply rd_safe_ret. Qed.

Lemma rd_safe_wire {A} `{Wire A} : rd_safe (read_wire (A := A)).
Proof. apply rd_safe_bind; [apply rd_safe_uint|]. intros. apply rd_safe_ret. Qed.

Lemma rd_safe_signature_hash : rd_safe read_signature_hash.
Proof. apply rd_safe_bind; [apply rd_safe_wire|]. intros. apply rd_safe_bind; [apply rd_safe_wire|]. done. Qed.

Create HintDb rd.
#[export] Hint Resolve rd_safe_ret rd_safe_raise rd_safe_exact rd_safe_to_end rd_safe_uint rd_safe_wire
  rd_safe_signature_hash : rd.

(** Follows the binds and the branches of a parser that has no index. *)
Ltac rd_safe_tac :=
  repeat first
    [ solve [auto with rd nocore]
    | apply rd_safe_uint
    | apply rd_safe_n
    | apply rd_safe_bind; [|intros]
    | case_match ].

(** The extension parsers never panic, so that "does not parse" is an error. *)
Lemma Extension_unmarshal_safe : rd_safe Extension_unmarshal.
Proof.
  unfold Extension_unmarshal, ExtensionServerName_unmarshal, ExtensionSupportedEllipticCurves_unmarshal,
    ExtensionSupportedPointFormats_unmarshal, ExtensionSupportedSignatureAlgorithms_unmarshal,
    ExtensionUseSrtp_unmarshal, ExtensionUseExtendedMasterSecret_unmarshal, ExtensionRenegotiationInfo_unmarshal.
  rd_safe_tac.
Qed.

Lemma HandshakeHeader_unmarshal_safe : rd_safe HandshakeHeader_unmarshal.
Proof. unfold HandshakeHeader_unmarshal. rd_safe_tac. Qed.

Lemma HandshakeRandom_unmarshal_safe : rd_safe HandshakeRandom_unmarshal.
Proof. unfold HandshakeRandom_unmarshal. rd_safe_tac. Qed.

Lemma read_version_safe : rd_safe read_version.
Proof. unfold read_version. rd_safe_tac. Qed.

Lemma CompressionMethods_unmarshal_safe : rd_safe CompressionMethods_unmarshal.
Proof. unfold CompressionMethods_unmarshal. rd_safe_tac. Qed.

#[export] Hint Resolve HandshakeHeader_unmarshal_safe HandshakeRandom_unmarshal_safe read_version_safe
  CompressionMethods_unmarshal_safe : rd.

(** * The loops *)
Lemma unmarshal_extensions_total fuel offset buf : (length buf <= fuel + offset)%nat ->
  match unmarshal_extensions fuel offset buf with Ok _ | Panic => True | _ => False end.
Proof.
  revert offset. induction fuel as [|fuel IH]; intros offset Hf; cbn [unmarshal_extensions];
    destruct (Nat.ltb_spec offset (length buf)); try done; [lia|].
  unfold index. destruct (buf !! (offset + 2)%nat) as [b2|]; [|done]. cbn [mbind res_bind].
  destruct (buf !! (offset + 3)%nat) as [b3|]; [|done]. cbn [mbind res_bind].
  specialize (IH (offset + (4 + Z.to_nat (from_be_bytes [b2; b3])))%nat ltac:(lia)).
  destruct (unmarshal_extensions fuel _ buf); done.
Qed.

Lemma read_extensions_total : rd_total read_extensions.
Proof.
  unfold read_extensions. apply rd_total_bind; [apply rd_safe_total, rd_safe_uint|]. intros len.
  apply rd_total_bind; [apply rd_safe_total, rd_safe_exact|]. intros buf. apply rd_total_lift.
  pose proof (unmarshal_extensions_total (length buf) 0 buf ltac:(lia)). by destruct (unmarshal_extensions _ _ _).
Qed.

Lemma read_certificates_safe fuel total offset : (total <= fuel + offset)%nat ->
  rd_safe (read_certificates fuel total offset).
Proof.
  revert offset. induction fuel as [|fuel IH]; intros offset Hf; cbn [read_certificates];
    destruct (Nat.ltb_spec offset total); try done; [lia|].
  apply rd_safe_bind; [apply rd_safe_uint|]. intros n. apply rd_safe_bind; [apply rd_safe_exact|]. intros buf.
  apply rd_safe_bind; [|done]. apply IH. unfold HANDSHAKE_MESSAGE_CERTIFICATE_LENGTH_FIELD_SIZE. lia.
Qed.

Lemma MessageCertificate_unmarshal_safe : rd_safe MessageCertificate_unmarshal.
Proof.
  apply rd_safe_bind; [apply rd_safe_uint|]. intros n. apply rd_safe_bind; [|done].
  apply read_certificates_safe. lia.
Qed.

#[export] Hint Resolve MessageCertificate_unmarshal_safe : rd.

(** * The key exchanges *)
Lemma index_u16_short data : (length data < 2)%nat -> index_u16 data 0 = Panic.
Proof. destruct data as [|a [|b data]]; cbn [length]; intros; [done|done|lia]. Qed.

Lemma ClientKeyExchange_parse_panics data : ClientKeyExchange_parse data = Panic <-> (length data < 2)%nat.
Proof.
  split; [|intros H; unfold ClientKeyExchange_parse; by rewrite index_u16_short].
  intros H. destruct data as [|a [|b data]]; cbn [length]; [lia|lia|]. exfalso. revert H.
  unfold ClientKeyExchange_parse, index_u16, index. cbn [lookup list_lookup mbind res_bind Nat.add].
  by repeat case_match.
Qed.

Lemma ServerKeyExchange_parse_safe data : (2 <= length data)%nat -> safe (ServerKeyExchange_parse data).
Proof.
  intros Hl. unfold ServerKeyExchange_parse.
  assert (forall i, (i + 1 < length data)%nat -> exists z, index_u16 data i = Ok z) as Hu.
  { intros i Hi. unfold index_u16. destruct (index_ok (E := DtlsError) data i) as (x & -> & _); [lia|].
    destruct (index_ok (E := DtlsError) data (i + 1)) as (y & -> & _); [lia|]. by eexists. }
  destruct (Hu 0%nat) as [psk ->]; [lia|]. cbn [mbind res_bind]. case_match; [done|].
  destruct (index_ok (E := DtlsError) data 0) as (ct & -> & _); [lia|]. cbn [mbind res_bind].
  destruct (Nat.ltb_spec (length data) 3); [done|].
  destruct (Hu 1%nat) as [nc ->]; [lia|]. cbn [mbind res_bind].
  destruct (Nat.ltb_spec (length data) 4); [done|].
  destruct (index_ok (E := DtlsError) data 3) as (n & -> & _); [lia|]. cbn [mbind res_bind].
  set (offset := (4 + Z.to_nat (u8_of_byte n))%nat). destruct (Nat.ltb_spec (length data) offset); [done|].
  rewrite slice_ok by lia. cbn [mbind res_bind]. destruct (Nat.leb_spec (length data) offset); [done|].
  destruct (index_ok (E := DtlsError) data offset) as (h & -> & _); [lia|]. cbn [mbind res_bind].
  destruct (Nat.leb_spec (length data) (offset + 1)); [done|].
  destruct (index_ok (E := DtlsError) data (offset + 1)) as (s & -> & _); [lia|]. cbn [mbind res_bind].
  destruct (Nat.ltb_spec (length data) (offset + 2 + 2)); [done|].
  destruct (Hu (offset + 2)%nat) as [sl ->]; [lia|]. cbn [mbind res_bind].
  destruct (Nat.ltb_spec (length data) (offset + 4 + Z.to_nat sl)); [done|].
  by rewrite slice_ok by lia.
Qed.

Lemma ServerKeyExchange_parse_panics data : ServerKeyExchange_parse data = Panic <-> (length data < 2)%nat.
Proof.
  split; [|intros H; unfold ServerKeyExchange_parse; by rewrite index_u16_short].
  intros H. destruct (Nat.lt_ge_cases (length data) 2) as [|Hl]; [done|].
  pose proof (ServerKeyExchange_parse_safe data Hl) as Hs. by rewrite H in Hs.
Qed.

Lemma index_u16_terminates data i : terminates (index_u16 data i).
Proof. unfold index_u16. solve_terminates. Qed.
#[export] Hint Resolve index_u16_terminates : fuel.

Lemma ServerKeyExchange_unmarshal_total : rd_total ServerKeyExchange_unmarshal.
Proof.
  apply rd_total_bind; [done|]. intros data. apply rd_total_lift. unfold ServerKeyExchange_parse. solve_terminates.
Qed.

Lemma ClientKeyExchange_unmarshal_total : rd_total ClientKeyExchange_unmarshal.
Proof.
  apply rd_total_bind; [done|]. intros data. apply rd_total_lift. unfold ClientKeyExchange_parse. solve_terminates.
Qed.

(** The same for a parser that may panic, but ends. *)
Ltac rd_total_tac :=
  repeat first
    [ apply read_extensions_total
    | apply ServerKeyExchange_unmarshal_total
    | apply ClientKeyExchange_unmarshal_total
    | solve [apply rd_safe_total; rd_safe_tac]
    | apply rd_total_bind; [|intros] ].

(** * The handshake parser *)

(** The panics of a message parser, by the type it is chosen for *)
Definition panic_condition (t : HandshakeType) (body : bytes) : Prop :=
  match t with
  | HtServerKeyExchange | HtClientKeyExchange => (length body < 2)%nat
  | HtClientHello => ClientHello_unmarshal body = Panic
  | HtServerHello => ServerHello_unmarshal body = Panic
  | _ => False
  end.

Lemma wrap_panics {A B} (f : A -> B) (p : Rd A) body : (x ← p; mret (f x)) body = Panic <-> p body = Panic.
Proof. unfold mbind, rd_bind. by destruct (p body) as [[]| | |]. Qed.

Lemma safe_panics {A B} (f : A -> B) (p : Rd A) body : rd_safe p -> (x ← p; mret (f x)) body = Panic <-> False.
Proof. intros H. rewrite wrap_panics. specialize (H body). split; [|done]. intros Hp. by rewrite Hp in H. Qed.

Lemma to_end_panics {A} (parse : bytes -> res DtlsError A) body :
  (data ← read_to_end; rd_lift (parse data)) body = Panic <-> parse body = Panic.
Proof. unfold mbind, rd_bind, read_to_end, rd_lift. by destruct (parse body). Qed.

Lemma HandshakeMessage_unmarshal_panics t body :
  HandshakeMessage_unmarshal t body = Panic <-> panic_condition t body.
Proof.
  destruct t; cbn [HandshakeMessage_unmarshal panic_condition]; try done;
    rewrite ?(wrap_panics HmClientHello), ?(wrap_panics HmServerHello); try done.
  - apply safe_panics. unfold HelloVerifyRequest_unmarshal. rd_safe_tac.
  - apply safe_panics, MessageCertificate_unmarshal_safe.
  - unfold ServerKeyExchange_unmarshal. by rewrite wrap_panics, to_end_panics, ServerKeyExchange_parse_panics.
  - apply safe_panics. unfold MessageCertificateRequest_unmarshal. rd_safe_tac.
  - apply safe_panics. unfold MessageCertificateVerify_unmarshal. rd_safe_tac.
  - unfold ClientKeyExchange_unmarshal. by rewrite wrap_panics, to_end_panics, ClientKeyExchange_parse_panics.
Qed.

Lemma HandshakeMessage_unmarshal_total t : rd_total (HandshakeMessage_unmarshal t).
Proof.
  destruct t; cbn [HandshakeMessage_unmarshal]; rd_total_tac.
Qed.

(** The handshake parser returns on every input.  It panics only on a
    message whose header parses: on a key exchange of less than two bytes
    always, on any other type never, except the two hellos, whose extension
    list is indexed without a check. *)
Theorem handshake_unmarshal_total bs :
  match Handshake_unmarshal bs with
  | Ok _ | Err _ => True
  | Panic => exists h body, HandshakeHeader_unmarshal bs = Ok (h, body) /\
      match hh_handshake_type h with
      | HtServerKeyExchange | HtClientKeyExchange => (length body < 2)%nat
      | HtClientHello | HtServerHello => True
      | _ => False
      end
  | OutOfFuel => False
  end
  /\ forall h body, HandshakeHeader_unmarshal bs = Ok (h, body) ->
     hh_handshake_type h = HtServerKeyExchange \/ hh_handshake_type h = HtClientKeyExchange ->
     (length body < 2)%nat -> Handshake_unmarshal bs = Panic.
Proof.
  unfold Handshake_unmarshal, mbind, rd_bind. split.
  - pose proof (HandshakeHeader_unmarshal_safe bs) as Hs.
    destruct (HandshakeHeader_unmarshal bs) as [[h body]|e| |] eqn:Hh; try done.
    pose proof (HandshakeMessage_unmarshal_total (hh_handshake_type h) body) as Ht.
    destruct (HandshakeMessage_unmarshal (hh_handshake_type h) body) as [[m r]|e| |] eqn:Hm; try done.
    exists h, body. split; [done|]. apply HandshakeMessage_unmarshal_panics in Hm. by destruct (hh_handshake_type h).
  - intros h body -> Ht Hl. by rewrite (proj2 (HandshakeMessage_unmarshal_panics (hh_handshake_type h) body))
      by (by destruct Ht as [-> | ->]).
Qed.

Theorem handshake_unmarshal_total_witness :
  Handshake_unmarshal (map byte_of_u8 [16; 0; 0; 1; 0; 0; 0; 0; 0; 0; 0; 1; 0]) = Panic.
Proof.
  apply (proj2 (handshake_unmarshal_total _)) with
    (h := mkHandshakeHeader HtClientKeyExchange 1 0 0 1) (body := [Byte.x00]).
  - reflexivity.
  - right. reflexivity.
  - cbn. lia.
Defined.

Example truncated_extension_panics :
  (** a buffer of three bytes: an extension number and half a length *)
  read_extensions (map byte_of_u8 [0; 3; 0; 23; 0]) = Panic.
Proof. reflexivity. Qed.
