(* ===== verification/DtlsFragment.v ===== *)
(** [fragment_buffer/mod.rs]: the handshake fragments waiting to be put
    together, by message sequence number. *)
From S2P Require Import Prelude DtlsTypes DtlsHandshake DtlsRecord.

Record Fragment := mkFragment {
  fr_record_layer_header : RecordLayerHeader;
  fr_handshake_header : HandshakeHeader;
  fr_data : bytes
}.

Record FragmentBuffer := mkFragmentBuffer {
  fb_cache : gmap Z (list Fragment);
  fb_current_message_sequence_number : Z
}.

#[export] Instance FragmentBuffer_settable : Settable FragmentBuffer := fun b =>
  mkFragmentBuffer (fb_cache b) (fb_current_message_sequence_number b).

Definition FragmentBuffer_new : FragmentBuffer := mkFragmentBuffer ∅ 0.

Abbreviation FM A := (ST FragmentBuffer DtlsError A).

(** [self.cache.entry(seq).or_insert_with(Vec::new)], then the push *)
Definition add_fragment (f : Fragment) (cache : gmap Z (list Fragment)) : gmap Z (list Fragment) :=
  let seq := hh_message_sequence (fr_handshake_header f) in
  <[seq := default [] (cache !! seq) ++ [f]]> cache.

(** The loop of [push]: the headers are cut off, and the data of the last
    handshake is what is left when its announced length is more.  [fuel] is the
    length of the buffer, of which a round takes twelve bytes or more. *)
Fixpoint push_handshakes (fuel : nat) (record_layer_header : RecordLayerHeader) (buf : bytes) : FM unit :=
  match buf with
  | [] => mret tt
  | _ =>
      match fuel with
      | O => st_lift OutOfFuel
      | S fuel' =>
          '(handshake_header, _) ← st_lift (HandshakeHeader_unmarshal buf);
          let end_ :=
            Nat.min (HANDSHAKE_HEADER_LENGTH + Z.to_nat (hh_length handshake_header)) (length buf) in
          data ← st_lift (slice buf HANDSHAKE_HEADER_LENGTH end_);
          _ ← st_modify (fun b => b <| fb_cache ::= add_fragment
                 (mkFragment record_layer_header handshake_header data) |>);
          rest ← st_lift (slice_from buf end_);
          push_handshakes fuel' record_layer_header rest
      end
  end.

Definition FragmentBuffer_push (buf : bytes) : FM bool :=
  '(record_layer_header, _) ← st_lift (RecordLayerHeader_unmarshal buf);
  if negb (bool_decide (rl_content_type record_layer_header = CtHandshake)) then mret false
  else
    buf ← st_lift (slice_from buf RECORD_LAYER_HEADER_SIZE);
    _ ← push_handshakes (length buf) record_layer_header buf;
    mret true.

Definition at_offset (target_offset : Z) (f : Fragment) : bool :=
  hh_fragment_offset (fr_handshake_header f) =? target_offset.

Definition fragment_end (f : Fragment) : Z :=
  hh_fragment_offset (fr_handshake_header f) + hh_fragment_length (fr_handshake_header f).

(** [append_message] from an offset: [None] when it returns false, the bytes it
    puts in front of the raw message otherwise.  The recursion of the code has
    no bound, and neither has [fuel] here: see [zero_length_fragment_recurses].
    The sum of two 24-bit numbers does not overflow a [u32]. *)
Fixpoint append_message (fuel : nat) (target_offset : Z) (frags : list Fragment) : res DtlsError (option bytes) :=
  match List.find (at_offset target_offset) frags with
  | None => Ok None
  | Some f =>
      if fragment_end f =? hh_length (fr_handshake_header f) then Ok (Some (fr_data f))
      else
        match fuel with
        | O => OutOfFuel
        | S fuel' =>
            rest ← append_message fuel' (fragment_end f) frags;
            Ok (match rest with None => None | Some raw_message => Some (fr_data f ++ raw_message) end)
        end
  end.

Section pop.
Context {P : Profile}.

(** [fuel] bounds the depth of the recursion of [append_message]. *)
Definition FragmentBuffer_pop (fuel : nat) : FM (bytes * Z) :=
  seq_num ← st_get fb_current_message_sequence_number;
  cache ← st_get fb_cache;
  match cache !! seq_num with
  | None => st_raise ErrEmptyFragment
  | Some frags =>
      message ← st_lift (append_message fuel 0 frags);
      match message with
      | None => st_raise ErrEmptyFragment
      | Some raw_message =>
          first ← st_lift (index frags 0);
          let first_header := fr_handshake_header first in
          let first_header := first_header <| hh_fragment_offset := 0 |>
                                <| hh_fragment_length := hh_length first_header |> in
          match HandshakeHeader_marshal first_header with
          | Err _ => st_raise ErrEmptyFragment
          | Panic => st_lift Panic
          | OutOfFuel => st_lift OutOfFuel
          | Ok raw_header =>
              let message_epoch := rl_epoch (fr_record_layer_header first) in
              _ ← st_modify (fun b => b <| fb_cache ::= delete seq_num |>);
              next ← st_lift (add16 seq_num 1);
              _ ← st_modify (fun b => b <| fb_current_message_sequence_number := next |>);
              mret (raw_header ++ raw_message, message_epoch)
          end
      end
  end.
End pop.

(** * Putting a message together *)

(** The pieces of a message with their offsets *)
Fixpoint offsets (off : Z) (pieces : list bytes) : list (Z * bytes) :=
  match pieces with
  | [] => []
  | p :: pieces' => (off, p) :: offsets (off + Z.of_nat (length p)) pieces'
  end.

(** [fragment_of total (o, p) f]: [f] carries the piece [p] at offset [o] of a
    message of length [total]. *)
Definition fragment_of (total : Z) (op : Z * bytes) (f : Fragment) : Prop :=
  hh_length (fr_handshake_header f) = total /\ hh_fragment_offset (fr_handshake_header f) = fst op
  /\ hh_fragment_length (fr_handshake_header f) = Z.of_nat (length (snd op)) /\ fr_data f = snd op.

Lemma offsets_app off p q : offsets off (p ++ q) = offsets off p ++ offsets (off + Z.of_nat (length (concat p))) q.
Proof.
  revert off. induction p as [|x p IH]; intros off; cbn [app offsets concat length]; [by rewrite Z.add_0_r|].
  rewrite IH, length_app. do 3 f_equal. lia.
Qed.

Lemma offsets_ge off pieces op : op ∈ offsets off pieces -> off <= fst op.
Proof.
  revert off. induction pieces as [|p pieces IH]; intros off H; cbn in H; [by apply elem_of_nil in H|].
  apply elem_of_cons in H as [->|H]; [cbn; lia|]. apply IH in H. lia.
Qed.

(** Pieces that are not empty have different offsets. *)
Lemma offsets_inj off pieces o p q : Forall (fun p => p <> []) pieces ->
  (o, p) ∈ offsets off pieces -> (o, q) ∈ offsets off pieces -> p = q.
Proof.
  intros Hne. revert off. induction Hne as [|x pieces Hx _ IH]; intros off; cbn [offsets]; intros H1 H2;
    [by apply elem_of_nil in H1|].
  assert (0 < length x)%nat by (destruct x; [done|cbn; lia]).
  apply elem_of_cons in H1 as [[= -> ->]|H1]; apply elem_of_cons in H2 as [E|H2].
  - by injection E as ->.
  - apply offsets_ge in H2. cbn in H2. lia.
  - injection E as -> ->. apply offsets_ge in H1. cbn in H1. lia.
  - eapply IH; eassumption.
Qed.

Lemma find_offset frags o : (exists f, f ∈ frags /\ hh_fragment_offset (fr_handshake_header f) = o) ->
  exists f, List.find (at_offset o) frags = Some f /\ f ∈ frags /\ hh_fragment_offset (fr_handshake_header f) = o.
Proof.
  intros (f & Hf & Ho). destruct (List.find (at_offset o) frags) as [g|] eqn:Hg.
  - apply List.find_some in Hg as [Hin Hat]. exists g. split_and!; [done|by apply list_elem_of_In|].
    by apply Z.eqb_eq.
  - apply list_elem_of_In in Hf. pose proof (List.find_none _ _ Hg f Hf) as H. unfold at_offset in H.
    by apply Z.eqb_neq in H.
Qed.

Section reassembly.
Context (pieces : list bytes) (frags : list Fragment).
Let total := Z.of_nat (length (concat pieces)).
Hypothesis Hne : Forall (fun p => p <> []) pieces.
Hypothesis Hfrom : forall f, f ∈ frags -> exists op, op ∈ offsets 0 pieces /\ fragment_of total op f.

(** The fragment found at the offset of a piece carries that piece. *)
Lemma find_piece o p : (o, p) ∈ offsets 0 pieces -> (exists f, f ∈ frags /\ fragment_of total (o, p) f) ->
  exists f, List.find (at_offset o) frags = Some f /\ fragment_of total (o, p) f.
Proof.
  intros Hop (f & Hf & Hof). destruct (find_offset frags o) as (g & Hg & Hin & Ho); [exists f; by destruct Hof as (_ & ? & _)|].
  exists g. split; [done|]. destruct (Hfrom g Hin) as ([o' q] & Hq & Hog).
  assert (o' = o) as -> by (destruct Hog as (_ & H & _); cbn in H; congruence).
  by rewrite (offsets_inj 0 pieces o p q Hne Hop Hq).
Qed.

Lemma append_message_complete fuel pre suf : pieces = pre ++ suf -> suf <> [] ->
  (forall op, op ∈ offsets (Z.of_nat (length (concat pre))) suf -> exists f, f ∈ frags /\ fragment_of total op f) ->
  (length suf <= S fuel)%nat ->
  append_message fuel (Z.of_nat (length (concat pre))) frags = Ok (Some (concat suf)).
Proof.
  revert pre suf. induction fuel as [|fuel IH]; intros pre suf Hp Hsuf Hall Hfuel;
    destruct suf as [|p suf]; try done; cbn [append_message];
    (destruct (find_piece (Z.of_nat (length (concat pre))) p) as (f & -> & Hlen & Ho & Hl & Hd);
     [rewrite Hp, offsets_app; apply elem_of_app; right; by left|apply Hall; by left|]);
    unfold fragment_end; rewrite Ho, Hl, Hlen, Hd; cbn [fst snd concat];
    assert (total = Z.of_nat (length (concat pre)) + Z.of_nat (length p) + Z.of_nat (length (concat suf))) as Ht
      by (unfold total; rewrite Hp, concat_app, length_app; cbn [concat]; rewrite length_app; lia).
  - destruct suf; [|cbn in Hfuel; lia]. cbn [concat length] in *. rewrite app_nil_r.
    replace (_ =? total) with true by (symmetry; apply Z.eqb_eq; lia). done.
  - destruct suf as [|q suf].
    { cbn [concat length] in *. rewrite app_nil_r. by replace (_ =? total) with true by (symmetry; apply Z.eqb_eq; lia). }
    assert (0 < length q)%nat.
    { rewrite Hp in Hne. apply Forall_app in Hne as [_ H]. apply Forall_cons in H as [_ H].
      apply Forall_cons in H as [H _]. destruct q; [done|cbn; lia]. }
    replace (_ =? total) with false
      by (symmetry; apply Z.eqb_neq; cbn [concat] in Ht; rewrite length_app in Ht; lia).
    replace (Z.of_nat (length (concat pre)) + Z.of_nat (length p)) with (Z.of_nat (length (concat (pre ++ [p]))))
      by (rewrite concat_app, length_app; cbn; rewrite app_nil_r; lia).
    rewrite (IH (pre ++ [p]) (q :: suf)); [done|by rewrite <- app_assoc|done| |cbn in *; lia].
    intros op Hop. apply Hall. cbn [offsets] in *. right.
    replace (Z.of_nat (length (concat pre)) + Z.of_nat (length p)) with (Z.of_nat (length (concat (pre ++ [p]))))
      by (rewrite concat_app, length_app; cbn; rewrite app_nil_r; lia). exact Hop.
Qed.

(** With a piece missing, the message is not put together. *)
Lemma append_message_incomplete fuel pre suf op : pieces = pre ++ suf ->
  op ∈ offsets (Z.of_nat (length (concat pre))) suf -> (forall f, f ∈ frags -> ~ fragment_of total op f) ->
  (length suf <= fuel)%nat ->
  append_message fuel (Z.of_nat (length (concat pre))) frags = Ok None.
Proof.
  intros Hp Hop Hmiss Hfuel. revert pre suf Hp Hop Hfuel.
  induction fuel as [|fuel IH]; intros pre suf Hp Hop Hfuel; destruct suf as [|p suf];
    try (by apply elem_of_nil in Hop); [cbn in Hfuel; lia|].
  cbn [append_message]. destruct (List.find _ frags) as [f|] eqn:Hfind; [|done].
  apply List.find_some in Hfind as [Hin Hat]. apply list_elem_of_In in Hin. apply Z.eqb_eq in Hat.
  destruct (Hfrom f Hin) as ([o q] & Hq & Hfo).
  assert (o = Z.of_nat (length (concat pre))) as -> by (destruct Hfo as (_ & H & _); cbn in H; congruence).
  assert (q = p) as ->.
  { eapply (offsets_inj 0 pieces); [exact Hne|exact Hq|]. rewrite Hp, offsets_app. apply elem_of_app. right. by left. }
  cbn [offsets] in Hop. apply elem_of_cons in Hop as [->|Hop]; [by destruct (Hmiss f Hin)|].
  destruct Hfo as (Hlen & Ho & Hl & Hd). cbn [fst snd] in *. unfold fragment_end. rewrite Ho, Hl, Hlen, Hd.
  destruct suf as [|q suf]; [by apply elem_of_nil in Hop|].
  assert (0 < length q)%nat.
  { rewrite Hp in Hne. apply Forall_app in Hne as [_ H]. apply Forall_cons in H as [_ H].
    apply Forall_cons in H as [H _]. destruct q; [done|cbn; lia]. }
  replace (_ =? total) with false
    by (symmetry; apply Z.eqb_neq; unfold total; rewrite Hp, concat_app, length_app; cbn [concat];
        rewrite !length_app; lia).
  replace (Z.of_nat (length (concat pre)) + Z.of_nat (length p)) with (Z.of_nat (length (concat (pre ++ [p]))))
    in Hop |- * by (rewrite concat_app, length_app; cbn; rewrite app_nil_r; lia).
  rewrite (IH (pre ++ [p]) (q :: suf)); [done|by rewrite <- app_assoc|exact Hop|cbn in *; lia].
Qed.
End reassembly.

(** What a message is cut into: pieces that are not empty, or one that is. *)
Definition pieces_ok (pieces : list bytes) : Prop := (pieces <> [] /\ Forall (fun p => p <> []) pieces) \/ pieces = [[]].

(** From the first offset: the message, if and only if all its pieces are there. *)
Lemma append_message_pieces pieces frags fuel : pieces_ok pieces ->
  (forall f, f ∈ frags -> exists op, op ∈ offsets 0 pieces
     /\ fragment_of (Z.of_nat (length (concat pieces))) op f) ->
  (length pieces <= fuel)%nat ->
  ((forall op, op ∈ offsets 0 pieces -> exists f, f ∈ frags
      /\ fragment_of (Z.of_nat (length (concat pieces))) op f) ->
   append_message fuel 0 frags = Ok (Some (concat pieces)))
  /\ (forall op, op ∈ offsets 0 pieces ->
      (forall f, f ∈ frags -> ~ fragment_of (Z.of_nat (length (concat pieces))) op f) ->
      append_message fuel 0 frags = Ok None).
Proof.
  intros [[Hnil Hne]| ->] Hfrom Hfuel.
  - split.
    + intros Hall. apply (append_message_complete pieces frags Hne Hfrom fuel [] pieces); [done|done|done|lia].
    + intros op Hop Hmiss. by apply (append_message_incomplete pieces frags Hne Hfrom fuel [] pieces op).
  - assert (forall f, f ∈ frags -> fragment_of 0 (0, []) f) as Hf.
    { intros f Hf. destruct (Hfrom f Hf) as (op & Hop & Hof). by apply list_elem_of_singleton in Hop as ->. }
    clear Hfrom. split.
    + intros Hall. destruct (Hall (0, [])) as (f & Hin & _); [by left|]. destruct frags as [|g frags]; [by apply elem_of_nil in Hin|].
      destruct (Hf g) as (Hlen & Ho & Hl & Hd); [by left|]. cbn in *.
      destruct fuel; cbn [append_message List.find]; unfold at_offset, fragment_end; rewrite Ho; cbn [Z.eqb];
        rewrite ?Ho, Hl, Hlen, Hd; done.
    + intros op Hop Hmiss. apply list_elem_of_singleton in Hop as ->. destruct frags as [|g frags]; [by destruct fuel|].
      destruct (Hmiss g); [by left|]. apply Hf. by left.
Qed.

(** * Termination *)

Definition above (o : Z) (f : Fragment) : bool := o <=? hh_fragment_offset (fr_handshake_header f).

Lemma filter_above_le o n frags : 0 <= n ->
  (length (List.filter (above (o + n)) frags) <= length (List.filter (above o) frags))%nat.
Proof.
  intros Hn. induction frags as [|g l IH]; [done|]. cbn [List.filter].
  destruct (above (o + n) g) eqn:E1, (above o g) eqn:E2; unfold above in E1, E2; cbn [length]; lia.
Qed.

Lemma filter_above_lt o n frags f : 0 < n -> In f frags -> hh_fragment_offset (fr_handshake_header f) = o ->
  (length (List.filter (above (o + n)) frags) < length (List.filter (above o) frags))%nat.
Proof.
  intros Hn Hin Ho. induction frags as [|g l IH]; [by destruct Hin|]. cbn [List.filter].
  pose proof (filter_above_le o n l ltac:(lia)).
  destruct Hin as [->|Hin]; [|specialize (IH Hin)];
    (destruct (above (o + n) _) eqn:E1, (above o _) eqn:E2); unfold above in E1, E2; cbn [length]; lia.
Qed.

(** [append_message] ends when the fragments have a length: every call
    moves to a higher offset, so that the number of fragments bounds the depth
    of the recursion. *)
Theorem append_message_terminates o frags :
  Forall (fun f => 0 < hh_fragment_length (fr_handshake_header f)) frags ->
  exists r, append_message (length frags) o frags = Ok r.
Proof.
  intros Hpos.
  assert (forall fuel o, (length (List.filter (above o) frags) <= fuel)%nat ->
          exists r, append_message fuel o frags = Ok r) as H.
  { clear o. intros fuel. induction fuel as [|fuel IH]; intros o Hf; cbn [append_message];
      destruct (List.find (at_offset o) frags) as [f|] eqn:Hfind; try (by eexists);
      apply List.find_some in Hfind as [Hin Hat]; apply Z.eqb_eq in Hat.
    - pose proof (filter_above_lt o 1 frags f ltac:(lia) Hin Hat). lia.
    - case_match; [by eexists|]. destruct (IH (fragment_end f)) as [r ->]; [|by eexists].
      rewrite Forall_forall in Hpos. pose proof (Hpos f ltac:(by apply list_elem_of_In)) as Hl. cbn in Hl.
      unfold fragment_end. rewrite Hat. pose proof (filter_above_lt o _ frags f Hl Hin Hat). lia. }
  apply H. apply List.filter_length_le.
Qed.

(** A fragment of a ten byte message *)
Definition sample_fragment (offset len : Z) : Fragment :=
  mkFragment (mkRecordLayerHeader CtHandshake PROTOCOL_VERSION1_2 0 0 0)
    (mkHandshakeHeader HtFinished 10 0 offset len) (replicate (Z.to_nat len) Byte.x41).

Lemma append_message_terminates_witness :
  Forall (fun f => 0 < hh_fragment_length (fr_handshake_header f)) [sample_fragment 4 6; sample_fragment 0 4]
  /\ exists r, append_message 2 0 [sample_fragment 4 6; sample_fragment 0 4] = Ok r.
Proof.
  assert (Forall (fun f => 0 < hh_fragment_length (fr_handshake_header f)) [sample_fragment 4 6; sample_fragment 0 4]) as H
    by (repeat constructor).
  split; [exact H|]. exact (append_message_terminates 0 [sample_fragment 4 6; sample_fragment 0 4] H).
Defined.

(** A fragment at offset zero without a length, of a message that has one,
    makes [append_message] call itself with the same arguments: no depth of
    the recursion is enough.  One such packet, in the clear, is enough to
    exhaust the stack of the receiver. *)
Theorem zero_length_fragment_recurses frags f :
  List.find (at_offset 0) frags = Some f ->
  hh_fragment_length (fr_handshake_header f) = 0 -> hh_length (fr_handshake_header f) <> 0 ->
  forall fuel, append_message fuel 0 frags = OutOfFuel.
Proof.
  intros Hfind Hl Ht fuel. pose proof (List.find_some _ _ Hfind) as [_ Hat]. apply Z.eqb_eq in Hat.
  assert (fragment_end f = 0) as He by (unfold fragment_end; lia).
  induction fuel as [|fuel IH]; cbn [append_message]; rewrite Hfind, He;
    (replace (0 =? _) with false by (symmetry; apply Z.eqb_neq; lia)); [done|]. by rewrite IH.
Qed.

Lemma zero_length_fragment_recurses_witness :
  append_message 100 0 [sample_fragment 0 0; sample_fragment 0 10] = OutOfFuel.
Proof.
  apply (zero_length_fragment_recurses [sample_fragment 0 0; sample_fragment 0 10] (sample_fragment 0 0)).
  - reflexivity.
  - reflexivity.
  - discriminate.
Defined.
