(* ===== verification/DtlsCache.v ===== *)
(** [handshake/handshake_cache.rs]: the handshake messages sent and received,
    kept for the flights and for the transcript hash. *)
From Stdlib Require Import Strings.String.
From S2P Require Import Prelude DtlsTypes DtlsHandshake.

#[export] Instance HandshakeType_countable : Countable HandshakeType.
Proof.
  apply (inj_countable' HandshakeType_as HandshakeType_from). by intros [].
Defined.

Record HandshakeCacheItem := mkHandshakeCacheItem {
  ci_typ : HandshakeType;
  ci_is_client : bool;
  ci_epoch : Z;
  ci_message_sequence : Z;
  ci_data : bytes
}.

Record HandshakeCachePullRule := mkHandshakeCachePullRule {
  pr_typ : HandshakeType;
  pr_epoch : Z;
  pr_is_client : bool;
  pr_optional : bool
}.

Abbreviation HandshakeCache := (list HandshakeCacheItem).

Definition same_slot (message_sequence : Z) (is_client : bool) (i : HandshakeCacheItem) : bool :=
  (ci_message_sequence i =? message_sequence) && Bool.eqb (ci_is_client i) is_client.

Definition HandshakeCache_push (data : bytes) (epoch message_sequence : Z) (typ : HandshakeType)
    (is_client : bool) (cache : HandshakeCache) : bool * HandshakeCache :=
  if existsb (same_slot message_sequence is_client) cache then (false, cache)
  else (true, cache ++ [mkHandshakeCacheItem typ is_client epoch message_sequence data]).

Definition rule_matches (r : HandshakeCachePullRule) (c : HandshakeCacheItem) : bool :=
  bool_decide (ci_typ c = pr_typ r) && Bool.eqb (ci_is_client c) (pr_is_client r) && (ci_epoch c =? pr_epoch r).

(** The inner loop of [pull] and of [full_pull_map] *)
Definition pull_step (r : HandshakeCachePullRule) (item : option HandshakeCacheItem) (c : HandshakeCacheItem)
    : option HandshakeCacheItem :=
  if rule_matches r c then
    match item with
    | Some x => if ci_message_sequence x <? ci_message_sequence c then Some c else item
    | None => Some c
    end
  else item.

Definition pull_one (r : HandshakeCachePullRule) (cache : HandshakeCache) : option HandshakeCacheItem :=
  fold_left (pull_step r) cache None.

Definition pull (rules : list HandshakeCachePullRule) (cache : HandshakeCache) : list HandshakeCacheItem :=
  omap (fun r => pull_one r cache) rules.

Definition pull_and_merge (rules : list HandshakeCachePullRule) (cache : HandshakeCache) : bytes :=
  flat_map ci_data (pull rules cache).

(** The first loop of [full_pull_map] *)
Fixpoint pull_items (rules : list HandshakeCachePullRule) (cache : HandshakeCache)
    (ci : gmap HandshakeType HandshakeCacheItem) : res DtlsError (gmap HandshakeType HandshakeCacheItem) :=
  match rules with
  | [] => Ok ci
  | r :: rules' =>
      match pull_one r cache with
      | None =>
          if negb (pr_optional r) then Err (ErrOther "Missing mandatory message")
          else pull_items rules' cache ci
      | Some c => pull_items rules' cache (<[pr_typ r := c]> ci)
      end
  end.

(** The second loop; [seq] is an [isize] that the comparison truncates. *)
Fixpoint parse_items (rules : list HandshakeCachePullRule) (ci : gmap HandshakeType HandshakeCacheItem)
    (seq : Z) (out : gmap HandshakeType HandshakeMessage) : res DtlsError (Z * gmap HandshakeType HandshakeMessage) :=
  match rules with
  | [] => Ok (seq, out)
  | r :: rules' =>
      match ci !! pr_typ r with
      | None => parse_items rules' ci seq out
      | Some i =>
          '(raw_handshake, _) ← Handshake_unmarshal (ci_data i);
          if negb (wrap 16 seq =? hh_message_sequence (hs_handshake_header raw_handshake)) then
            Err (ErrOther "There is a gap. Some messages are not arrived.")
          else
            parse_items rules' ci (seq + 1) (<[pr_typ r := hs_handshake_message raw_handshake]> out)
      end
  end.

Definition full_pull_map (start_seq : Z) (rules : list HandshakeCachePullRule) (cache : HandshakeCache)
    : res DtlsError (Z * gmap HandshakeType HandshakeMessage) :=
  ci ← pull_items rules cache ∅;
  parse_items rules ci start_seq ∅.

Section session_hash.
(** SHA-256 of the sha2 crate; it is the only [CipherSuiteHash]. *)
Variable sha256 : bytes -> bytes.

Definition session_hash_rules (epoch : Z) : list HandshakeCachePullRule :=
  [mkHandshakeCachePullRule HtClientHello epoch true false;
   mkHandshakeCachePullRule HtServerHello epoch false false;
   mkHandshakeCachePullRule HtCertificate epoch false false;
   mkHandshakeCachePullRule HtServerKeyExchange epoch false false;
   mkHandshakeCachePullRule HtCertificateRequest epoch false false;
   mkHandshakeCachePullRule HtServerHelloDone epoch false false;
   mkHandshakeCachePullRule HtCertificate epoch true false;
   mkHandshakeCachePullRule HtClientKeyExchange epoch true false].

Definition session_hash (epoch : Z) (additional : bytes) (cache : HandshakeCache) : bytes :=
  sha256 (pull_and_merge (session_hash_rules epoch) cache ++ additional).
End session_hash.

(** * Properties *)

(** [cache_wf]: no two items of one side have the same sequence number. *)
Definition cache_wf (cache : HandshakeCache) : Prop :=
  NoDup (map (fun i => (ci_message_sequence i, ci_is_client i)) cache).

Lemma same_slot_spec seq client i :
  same_slot seq client i = true <-> (ci_message_sequence i, ci_is_client i) = (seq, client).
Proof.
  unfold same_slot. rewrite andb_true_iff, Z.eqb_eq, Bool.eqb_true_iff. split; [intros [-> ->]; done|].
  by intros [= -> ->].
Qed.

Lemma push_wf data epoch seq typ client cache : cache_wf cache ->
  cache_wf (snd (HandshakeCache_push data epoch seq typ client cache)).
Proof.
  unfold HandshakeCache_push, cache_wf. intros H. destruct (existsb _ _) eqn:He; [done|]. cbn [snd].
  rewrite map_app. apply NoDup_app. split_and!; [done| |cbn; apply NoDup_singleton].
  intros x Hx1 Hx2. cbn in Hx2. apply elem_of_cons in Hx2 as [->|Hx2]; [|by apply elem_of_nil in Hx2].
  apply list_elem_of_fmap in Hx1 as (i & Hi & Hin). apply not_true_iff_false in He. apply He.
  apply existsb_exists. exists i. split; [by apply list_elem_of_In|]. by apply same_slot_spec.
Qed.

(** The item [pull] takes for a rule: one that matches, with the highest
    sequence number of those. *)
Lemma pull_one_spec r cache :
  match pull_one r cache with
  | Some c => c ∈ cache /\ rule_matches r c = true
      /\ (forall d, d ∈ cache -> rule_matches r d = true -> ci_message_sequence d <= ci_message_sequence c)
  | None => forall d, d ∈ cache -> rule_matches r d = false
  end.
Proof.
  unfold pull_one. induction cache as [|x cache IH] using rev_ind.
  { intros d Hd. by apply elem_of_nil in Hd. }
  rewrite fold_left_app. cbn [fold_left]. unfold pull_step at 1. destruct (rule_matches r x) eqn:Hx.
  - destruct (fold_left (pull_step r) cache None) as [c|].
    + destruct IH as (Hin & Hm & Hmax). destruct (Z.ltb_spec (ci_message_sequence c) (ci_message_sequence x)).
      * split_and!; [by apply elem_of_app; right; left|done|]. intros d Hd Hdm.
        apply elem_of_app in Hd as [Hd|Hd]; [specialize (Hmax d Hd Hdm); lia|].
        apply list_elem_of_singleton in Hd as ->. lia.
      * split_and!; [by apply elem_of_app; left|done|]. intros d Hd Hdm.
        apply elem_of_app in Hd as [Hd|Hd]; [by apply Hmax|]. apply list_elem_of_singleton in Hd as ->. lia.
    + split_and!; [by apply elem_of_app; right; left|done|]. intros d Hd Hdm.
      apply elem_of_app in Hd as [Hd|Hd]; [by rewrite IH in Hdm|]. apply list_elem_of_singleton in Hd as ->. lia.
  - destruct (fold_left (pull_step r) cache None) as [c|].
    + destruct IH as (Hin & Hm & Hmax). split_and!; [by apply elem_of_app; left|done|]. intros d Hd Hdm.
      apply elem_of_app in Hd as [Hd|Hd]; [by apply Hmax|]. apply list_elem_of_singleton in Hd as ->. congruence.
    + intros d Hd. apply elem_of_app in Hd as [Hd|Hd]; [by apply IH|]. by apply list_elem_of_singleton in Hd as ->.
Qed.

(** [runs_from seq items]: the handshakes of the items have the sequence
    numbers [seq], [seq + 1], ... in this order, truncated to [u16]. *)
Fixpoint runs_from (seq : Z) (items : list HandshakeCacheItem) : Prop :=
  match items with
  | [] => True
  | i :: items' =>
      (exists h r, Handshake_unmarshal (ci_data i) = Ok (h, r)
        /\ hh_message_sequence (hs_handshake_header h) = wrap 16 seq)
      /\ runs_from (seq + 1) items'
  end.

Lemma pull_items_lookup rules cache ci0 ci t :
  NoDup (map pr_typ rules) -> pull_items rules cache ci0 = Ok ci ->
  ci !! t = match List.find (fun r => bool_decide (pr_typ r = t)) rules with
            | Some r => match pull_one r cache with Some c => Some c | None => ci0 !! t end
            | None => ci0 !! t
            end.
Proof.
  revert ci0. induction rules as [|r rules IH]; intros ci0 Hnd; cbn [pull_items List.find].
  { by intros [= ->]. }
  apply NoDup_cons in Hnd as [Hr Hnd].
  assert (pr_typ r = t -> List.find (fun r => bool_decide (pr_typ r = t)) rules = None) as Hnone.
  { intros <-. destruct (List.find _ rules) as [r'|] eqn:Hf; [|done].
    apply List.find_some in Hf as [Hin Heq]. apply bool_decide_eq_true in Heq. destruct Hr. rewrite <- Heq.
    apply list_elem_of_fmap. exists r'. split; [done|by apply list_elem_of_In]. }
  destruct (pull_one r cache) as [c|] eqn:Hc; [|destruct (pr_optional r); [|done]]; cbn [negb]; intros H;
    apply IH in H; try done; rewrite H; case_bool_decide as Ht.
  - rewrite (Hnone Ht), Hc. by rewrite <- Ht, lookup_insert_eq.
  - by rewrite lookup_insert_ne by done.
  - by rewrite (Hnone Ht), Hc.
  - done.
Qed.

Lemma parse_items_runs rules ci seq out seq' out' :
  parse_items rules ci seq out = Ok (seq', out') ->
  let items := omap (fun r => ci !! pr_typ r) rules in
  runs_from seq items /\ seq' = seq + Z.of_nat (length items).
Proof.
  revert seq out. induction rules as [|r rules IH]; intros seq out; cbn [parse_items omap list_omap].
  { intros [= -> ->]. split; [done|cbn; lia]. }
  destruct (ci !! pr_typ r) as [i|]; [|apply IH].
  intros H. apply bind_Ok in H as ([h rest] & Hh & H).
  destruct (Z.eqb_spec (wrap 16 seq) (hh_message_sequence (hs_handshake_header h))) as [He|]; [|done].
  cbn [negb] in H. apply IH in H as [Hr Hs]. cbn [runs_from length]. split; [split; [by exists h, rest|done]|lia].
Qed.

(** [full_pull_map] answers only when the flight is complete and in order:
    for rules of different types, the messages it pulls are those of [pull],
    one for every rule that is not optional, and their sequence numbers run
    from [start_seq] without a gap, to the number it returns. *)
Theorem full_pull_map_in_order start_seq rules cache seq' out :
  NoDup (map pr_typ rules) -> full_pull_map start_seq rules cache = Ok (seq', out) ->
  runs_from start_seq (pull rules cache) /\ seq' = start_seq + Z.of_nat (length (pull rules cache))
  /\ Forall (fun r => pr_optional r = false -> exists c, pull_one r cache = Some c) rules.
Proof.
  intros Hnd H. unfold full_pull_map in H. apply bind_Ok in H as (ci & Hci & H).
  apply parse_items_runs in H as [Hr Hs].
  assert (omap (fun r => ci !! pr_typ r) rules = pull rules cache) as Heq.
  { unfold pull. assert (forall rs : list HandshakeCachePullRule, (forall r, r ∈ rs -> r ∈ rules) ->
      omap (fun r => ci !! pr_typ r) rs = omap (fun r => pull_one r cache) rs) as Hgen; [|by apply Hgen].
    induction rs as [|r rs IH]; intros Hsub; [done|]. cbn [omap list_omap].
    rewrite IH by (intros x Hx; apply Hsub; by right). rewrite (pull_items_lookup _ _ _ _ _ Hnd Hci).
    assert (List.find (fun r0 => bool_decide (pr_typ r0 = pr_typ r)) rules = Some r) as ->.
    { specialize (Hsub r ltac:(by left)). clear -Hsub Hnd. induction rules as [|x rules IH]; [by apply elem_of_nil in Hsub|].
      apply NoDup_cons in Hnd as [Hx Hnd]. cbn [List.find]. case_bool_decide as He.
      - apply elem_of_cons in Hsub as [->|Hsub]; [done|]. destruct Hx. rewrite He. apply list_elem_of_fmap. by exists r.
      - apply elem_of_cons in Hsub as [->|Hsub]; [done|]. by apply IH. }
    by destruct (pull_one r cache). }
  rewrite Heq in Hr, Hs. split_and!; [done|done|].
  clear -Hci. revert Hci. generalize (∅ : gmap HandshakeType HandshakeCacheItem) as ci0.
  induction rules as [|r rules IH]; intros ci0; cbn [pull_items]; [constructor|].
  destruct (pull_one r cache) as [c|] eqn:Hc; [|destruct (pr_optional r) eqn:Ho; [|done]]; cbn [negb]; intros H;
    apply IH in H; constructor; first [exact H|intros; by eauto|intros; congruence].
Qed.

(** A Finished with the sequence number [seq], as it is cached *)
Definition sample_item (seq : Z) (typ : HandshakeType) (body : bytes) : HandshakeCacheItem :=
  mkHandshakeCacheItem typ false 0 seq
    (write_wire typ ++ drop 1 (write_u32 (Z.of_nat (length body))) ++ write_u16 seq ++ drop 1 (write_u32 0)
     ++ drop 1 (write_u32 (Z.of_nat (length body))) ++ body).

Definition sample_cache : HandshakeCache :=
  [sample_item 4 HtServerHelloDone []; sample_item 5 HtFinished (replicate 12 Byte.x41)].

Definition sample_rules : list HandshakeCachePullRule :=
  [mkHandshakeCachePullRule HtCertificate 0 false true; mkHandshakeCachePullRule HtServerHelloDone 0 false false;
   mkHandshakeCachePullRule HtFinished 0 false false].

Lemma full_pull_map_in_order_witness :
  NoDup (map pr_typ sample_rules)
  /\ exists seq' out, full_pull_map 4 sample_rules sample_cache = Ok (seq', out) /\ seq' = 6
     /\ runs_from 4 (pull sample_rules sample_cache).
Proof.
  assert (NoDup (map pr_typ sample_rules)) as Hnd
    by (apply (bool_decide_unpack _); vm_compute; exact I).
  split; [exact Hnd|].
  destruct (full_pull_map 4 sample_rules sample_cache) as [[seq' out]| | |] eqn:H; [|vm_compute in H; discriminate H..].
  exists seq', out. destruct (full_pull_map_in_order 4 sample_rules sample_cache seq' out Hnd H) as (Hr & Hs & _).
  split; [reflexivity|]. split; [rewrite Hs; reflexivity|exact Hr].
Defined.
