(* ===== verification/DtlsConn.v ===== *)
(** The packet path of [dtls/conn/mod.rs]: [handle_outgoing_packets] and what it
    calls, [handle_incoming_packet] and its two callers.

    The tasks share the handshake cache, the epochs and the cipher suite with
    the handshake; each function is given them as the lock or the atomic gives
    them, and the channels are lists of what was sent. *)
From Stdlib Require Import Strings.String.
From S2P Require Import Prelude DtlsTypes DtlsHandshake DtlsRecord DtlsFragment DtlsCache ReplayDetector.

(** [trait CipherSuite], as far as the packets go *)
Record CipherSuite := mkCipherSuite {
  cs_is_initialized : bool;
  cs_encrypt : RecordLayerHeader -> bytes -> res DtlsError bytes;
  cs_decrypt : bytes -> res DtlsError bytes
}.

(** [flight::Packet] *)
Record Packet := mkPacket { pk_record : RecordLayer; pk_should_encrypt : bool }.

(** * Outgoing *)
Record Outgoing := mkOutgoing {
  og_local_sequence_number : list Z;
  og_cache : HandshakeCache
}.

#[export] Instance Outgoing_settable : Settable Outgoing := fun o =>
  mkOutgoing (og_local_sequence_number o) (og_cache o).

Abbreviation OM A := (ST Outgoing DtlsError A).

(** [(0..n).step_by(split_len)] panics on a step of zero. *)
Fixpoint split_from (fuel i : nat) (b : bytes) (split_len : nat) : list bytes :=
  match fuel with
  | O => []
  | S fuel' =>
      if (i <? length b)%nat then
        take (Nat.min (i + split_len) (length b) - i) (drop i b) :: split_from fuel' (i + split_len) b split_len
      else []
  end.

Definition split_bytes (b : bytes) (split_len : nat) : res DtlsError (list bytes) :=
  if (split_len =? 0)%nat then Panic else Ok (split_from (length b) 0 b split_len).

(** The loop of [compact_raw_packets] over the packets that are left *)
Fixpoint compact_from (mtu : nat) (raw_packets : list bytes) (current : bytes) : list bytes :=
  match raw_packets with
  | [] => [current]
  | raw_packet :: raw_packets' =>
      if negb (is_empty current) && (mtu <=? length current + length raw_packet)%nat
      then current :: compact_from mtu raw_packets' raw_packet
      else compact_from mtu raw_packets' (current ++ raw_packet)
  end.

Definition compact_raw_packets (raw_packets : list bytes) (mtu : nat) : list bytes := compact_from mtu raw_packets [].

(** The loop of [fragment_handshake], from an offset *)
Fixpoint fragments_from (h : HandshakeHeader) (offset : nat) (pieces : list bytes) : res DtlsError (list bytes) :=
  match pieces with
  | [] => Ok []
  | piece :: pieces' =>
      let header := mkHandshakeHeader (hh_handshake_type h) (hh_length h) (hh_message_sequence h)
                      (wrap 32 (Z.of_nat offset)) (len_as 32 piece) in
      raw ← HandshakeHeader_marshal header;
      rest ← fragments_from h (offset + length piece) pieces';
      Ok ((raw ++ piece) :: rest)
  end.

Section outgoing.
Context {P : Profile}.

Definition fragment_handshake (mtu : nat) (h : Handshake) : res DtlsError (list bytes) :=
  content ← HandshakeMessage_marshal (hs_handshake_message h);
  content_fragments ← split_bytes content mtu;
  fragments_from (hs_handshake_header h) 0 (if is_empty content_fragments then [[]] else content_fragments).

Variable cipher_suite : option CipherSuite.

Definition extend_sequence_numbers (epoch : nat) (lsn : list Z) : list Z :=
  lsn ++ replicate (S epoch - length lsn) 0.

(** [lsn[epoch] += 1; lsn[epoch] - 1] *)
Definition take_sequence_number (epoch : nat) : OM Z :=
  lsn ← st_get og_local_sequence_number;
  n ← st_lift (index lsn epoch);
  next ← st_lift (add64 n 1);
  _ ← st_modify (fun o => o <| og_local_sequence_number := <[epoch := next]> lsn |>);
  st_lift (sub64 next 1).

Definition encrypt_packet (should_encrypt : bool) (h : RecordLayerHeader) (raw : bytes) : res DtlsError bytes :=
  if should_encrypt then
    match cipher_suite with Some cs => cs_encrypt cs h raw | None => Ok raw end
  else Ok raw.

Definition process_packet (p : Packet) : OM bytes :=
  let epoch := Z.to_nat (rl_epoch (rl_header (pk_record p))) in
  _ ← st_modify (fun o => o <| og_local_sequence_number ::= extend_sequence_numbers epoch |>);
  seq ← take_sequence_number epoch;
  if MAX_SEQUENCE_NUMBER <? seq then st_raise ErrSequenceNumberOverflow
  else
    let record := (pk_record p) <| rl_header ::= fun h => h <| rl_sequence_number := seq |> |> in
    raw_packet ← st_lift (RecordLayer_marshal record);
    st_lift (encrypt_packet (pk_should_encrypt p) (rl_header record) raw_packet).

(** One fragment of the loop of [process_handshake_packet] *)
Definition process_fragment (p : Packet) (raw_packets : list bytes) (handshake_fragment : bytes) : OM (list bytes) :=
  let h := rl_header (pk_record p) in
  seq ← take_sequence_number (Z.to_nat (rl_epoch h));
  if MAX_SEQUENCE_NUMBER <? seq then st_raise ErrSequenceNumberOverflow
  else
    let record_layer_header :=
      mkRecordLayerHeader (rl_content_type h) (rl_protocol_version h) (rl_epoch h) seq
        (len_as 16 handshake_fragment) in
    header ← st_lift (RecordLayerHeader_marshal record_layer_header);
    raw_packet ← st_lift (encrypt_packet (pk_should_encrypt p) record_layer_header (header ++ handshake_fragment));
    mret (raw_packets ++ [raw_packet]).

Definition process_handshake_packet (mtu : nat) (p : Packet) (h : Handshake) : OM (list bytes) :=
  handshake_fragments ← st_lift (fragment_handshake mtu h);
  let epoch := Z.to_nat (rl_epoch (rl_header (pk_record p))) in
  _ ← st_modify (fun o => o <| og_local_sequence_number ::= extend_sequence_numbers epoch |>);
  st_fold handshake_fragments (process_fragment p) [].

(** One packet of the loop of [handle_outgoing_packets] *)
Definition outgoing_packet (is_client : bool) (mtu : nat) (raw_packets : list bytes) (p : Packet) : OM (list bytes) :=
  match rl_content (pk_record p) with
  | CoHandshake h =>
      handshake_raw ← st_lift (RecordLayer_marshal (pk_record p));
      data ← st_lift (slice_from handshake_raw RECORD_LAYER_HEADER_SIZE);
      let hh := hs_handshake_header h in
      _ ← st_modify (fun o => o <| og_cache ::= fun cache =>
             snd (HandshakeCache_push data (rl_epoch (rl_header (pk_record p))) (hh_message_sequence hh)
                    (hh_handshake_type hh) is_client cache) |>);
      raw ← process_handshake_packet mtu p h;
      mret (raw_packets ++ raw)
  | _ =>
      raw ← process_packet p;
      mret (raw_packets ++ [raw])
  end.

(** The datagrams given to [next_conn.send]. *)
Definition handle_outgoing_packets (is_client : bool) (mtu : nat) (pkts : list Packet) : OM (list bytes) :=
  raw_packets ← st_fold pkts (outgoing_packet is_client mtu) [];
  mret (if is_empty raw_packets then [] else compact_raw_packets raw_packets mtu).
End outgoing.

(** * Incoming *)
Record ConnReaderContext := mkConnReaderContext {
  rc_is_client : bool;
  rc_replay_protection_window : Z;
  rc_replay_detector : list SlidingWindowDetector;
  rc_decrypted : list bytes;  (** the application data sent to [decrypted_tx] *)
  rc_encrypted_packets : list bytes;
  rc_fragment_buffer : FragmentBuffer;
  rc_cache : HandshakeCache;
  rc_cipher_suite : option CipherSuite;
  rc_remote_epoch : Z;
  rc_alerts : list Packet  (** sent to [packet_tx] *)
}.

#[export] Instance ConnReaderContext_settable : Settable ConnReaderContext := fun c =>
  mkConnReaderContext (rc_is_client c) (rc_replay_protection_window c) (rc_replay_detector c) (rc_decrypted c)
    (rc_encrypted_packets c) (rc_fragment_buffer c) (rc_cache c) (rc_cipher_suite c) (rc_remote_epoch c) (rc_alerts c).

Abbreviation RM A := (ST ConnReaderContext DtlsError A).

Definition DEFAULT_REPLAY_PROTECTION_WINDOW : Z := 64.
Definition INBOUND_BUFFER_SIZE : Z := 8192.

(** The context as [DTLSConn::new] makes it *)
Definition ConnReaderContext_new (is_client : bool) (window : Z) : ConnReaderContext :=
  mkConnReaderContext is_client window [] [] [] FragmentBuffer_new [] None 0 [].

(** A call of the replay detector, which has no errors *)
Definition lift_detector {A} (r : res Empty_set A) : res DtlsError A :=
  match r with Ok a => Ok a | Err e => match e with end | Panic => Panic | OutOfFuel => OutOfFuel end.

(** A call on the fragment buffer of the context, with its result as a value *)
Definition on_fragments {A} (m : FM A) : RM (option A) := fun c =>
  let '(r, fb) := m (rc_fragment_buffer c) in
  let c := c <| rc_fragment_buffer := fb |> in
  match r with
  | Ok a => (Ok (Some a), c)
  | Err _ => (Ok None, c)
  | Panic => (Panic, c)
  | OutOfFuel => (OutOfFuel, c)
  end.

Section incoming.
Context {P : Profile}.

(** What [handle_incoming_packet] returns *)
Abbreviation Outcome := (bool * option Alert * option DtlsError)%type.
Definition nothing : Outcome := (false, None, None).

Definition fatal (d : AlertDescription) (e : DtlsError) : Outcome := (false, Some (mkAlert AlFatal d), Some e).

(** [while ctx.replay_detector.len() <= epoch { push }] *)
Definition extend_detectors (epoch : nat) (c : ConnReaderContext) : ConnReaderContext :=
  c <| rc_replay_detector ::= fun l =>
    l ++ replicate (S epoch - length l) (SlidingWindowDetector_new (rc_replay_protection_window c) MAX_SEQUENCE_NUMBER) |>.

Definition detector_check (epoch : nat) (seq : Z) : RM bool :=
  detectors ← st_get rc_replay_detector;
  d ← st_lift (index detectors epoch);
  '(ok, d) ← st_lift (lift_detector (sw_check d seq));
  _ ← st_modify (fun c => c <| rc_replay_detector := <[epoch := d]> detectors |>);
  mret ok.

Definition detector_accept (epoch : nat) : RM unit :=
  detectors ← st_get rc_replay_detector;
  d ← st_lift (index detectors epoch);
  d ← st_lift (lift_detector (sw_accept d));
  st_modify (fun c => c <| rc_replay_detector := <[epoch := d]> detectors |>).

Definition invalid_cipher_suite (c : ConnReaderContext) : bool :=
  match rc_cipher_suite c with None => true | Some cs => negb (cs_is_initialized cs) end.

Definition enqueue_packet (enqueue : bool) (pkt : bytes) : RM unit :=
  st_when enqueue (st_modify (fun c => c <| rc_encrypted_packets ::= fun l => l ++ [pkt] |>)).

(** [while let Ok((out, epoch)) = ctx.fragment_buffer.pop()]: a message that
    does not parse is dropped, and the next one is taken.  [fuel] bounds the
    rounds, and the depth of [pop]. *)
Fixpoint pop_messages (fuel : nat) : RM unit :=
  popped ← on_fragments (FragmentBuffer_pop fuel);
  match popped with
  | None => mret tt
  | Some (out, epoch) =>
      match fuel with
      | O => st_lift OutOfFuel
      | S fuel' =>
          _ ← match Handshake_unmarshal out with
              | Ok (raw_handshake, _) =>
                  let hh := hs_handshake_header raw_handshake in
                  st_modify (fun c => c <| rc_cache ::= fun cache =>
                    snd (HandshakeCache_push out epoch (hh_message_sequence hh) (hh_handshake_type hh)
                           (negb (rc_is_client c)) cache) |>)
              | Err _ => mret tt
              | Panic => st_lift Panic
              | OutOfFuel => st_lift OutOfFuel
              end;
          pop_messages fuel'
      end
  end.

(** The end of [handle_incoming_packet]: a record that is not a handshake *)
Definition handle_record (epoch : Z) (h : RecordLayerHeader) (pkt : bytes) (enqueue : bool) : RM Outcome :=
  match RecordLayer_unmarshal pkt with
  | Err err => mret (fatal DecodeError err)
  | Panic => st_lift Panic
  | OutOfFuel => st_lift OutOfFuel
  | Ok (r, _) =>
      match rl_content r with
      | CoAlert a =>
          let a := if bool_decide (al_alert_description a = CloseNotify)
                   then mkAlert AlWarning CloseNotify else a in
          _ ← detector_accept (Z.to_nat (rl_epoch h));
          mret (false, Some a, Some (ErrOther "Error of Alert"))
      | CoChangeCipherSpec =>
          invalid ← st_get invalid_cipher_suite;
          if invalid : bool then
            _ ← enqueue_packet enqueue pkt;
            mret nothing
          else
            new_remote_epoch ← st_lift (add16 (rl_epoch h) 1);
            next_epoch ← st_lift (add16 epoch 1);
            if next_epoch =? new_remote_epoch then
              _ ← st_modify (fun c => c <| rc_remote_epoch := new_remote_epoch |>);
              _ ← detector_accept (Z.to_nat (rl_epoch h));
              mret nothing
            else mret nothing
      | CoApplicationData a =>
          if rl_epoch h =? 0 then mret (fatal UnexpectedMessage ErrApplicationDataEpochZero)
          else
            _ ← detector_accept (Z.to_nat (rl_epoch h));
            _ ← st_modify (fun c => c <| rc_decrypted ::= fun l => l ++ [ad_data a] |>);
            mret nothing
      | CoHandshake _ => mret (fatal UnexpectedMessage ErrUnhandledContextType)
      end
  end.

(** [handle_incoming_packet], from the point where the packet is in the clear *)
Definition handle_plain (fuel : nat) (epoch : Z) (h : RecordLayerHeader) (pkt : bytes) (enqueue : bool) : RM Outcome :=
  pushed ← on_fragments (FragmentBuffer_push pkt);
  match pushed with
  | None => mret nothing
  | Some true =>
      _ ← detector_accept (Z.to_nat (rl_epoch h));
      _ ← pop_messages fuel;
      mret (true, None, None)
  | Some false => handle_record epoch h pkt enqueue
  end.

Definition handle_incoming_packet (fuel : nat) (pkt : bytes) (enqueue : bool) : RM Outcome :=
  match RecordLayerHeader_unmarshal pkt with
  | Err _ => mret nothing
  | Panic => st_lift Panic
  | OutOfFuel => st_lift OutOfFuel
  | Ok (h, _) =>
      epoch ← st_get rc_remote_epoch;
      if epoch <? rl_epoch h then
        next_epoch ← st_lift (add16 epoch 1);
        if next_epoch <? rl_epoch h then mret nothing
        else
          _ ← enqueue_packet enqueue pkt;
          mret nothing
      else
        _ ← st_modify (extend_detectors (Z.to_nat (rl_epoch h)));
        ok ← detector_check (Z.to_nat (rl_epoch h)) (rl_sequence_number h);
        if negb ok then mret nothing
        else if negb (rl_epoch h =? 0) then
          invalid ← st_get invalid_cipher_suite;
          cipher_suite ← st_get rc_cipher_suite;
          match cipher_suite with
          | Some cs =>
              if negb invalid then
                match cs_decrypt cs pkt with
                | Ok pkt => handle_plain fuel epoch h pkt enqueue
                | Err _ => mret nothing
                | Panic => st_lift Panic
                | OutOfFuel => st_lift OutOfFuel
                end
              else
                _ ← enqueue_packet enqueue pkt;
                mret nothing
          | None =>
              _ ← enqueue_packet enqueue pkt;
              mret nothing
          end
        else handle_plain fuel epoch h pkt enqueue
  end.

(** The answer of both callers to an outcome.  The send of the alert only fails
    when its receiver is gone, which lives as long as the context. *)
Definition answer (local_epoch : Z) (handshake_completed : bool) (outcome : Outcome) : RM bool :=
  let '(hs, alert, err) := outcome in
  _ ← match alert with
      | None => mret tt
      | Some alert =>
          _ ← st_modify (fun c => c <| rc_alerts ::= fun l => l ++
                 [mkPacket (RecordLayer_new PROTOCOL_VERSION1_2 local_epoch (CoAlert alert)) handshake_completed] |>);
          if bool_decide (al_alert_level alert = AlFatal) || bool_decide (al_alert_description alert = CloseNotify)
          then st_raise ErrAlertFatalOrClose else mret tt
      end;
  match err with
  | Some err => st_raise err
  | None => mret hs
  end.

Variable local_epoch : Z.
Variable handshake_completed_successfully : bool.

(** The loop of [read_and_buffer] over the records of a datagram: whether one
    of them was a handshake. *)
Definition handle_datagram (fuel : nat) (datagram : bytes) : RM bool :=
  pkts ← st_lift (unpack_datagram datagram);
  st_fold pkts (fun has_handshake pkt =>
    outcome ← handle_incoming_packet fuel pkt true;
    hs ← answer local_epoch handshake_completed_successfully outcome;
    mret (hs || has_handshake)) false.

Definition handle_queued_packets (fuel : nat) (pkts : list bytes) : RM unit :=
  st_for pkts (fun pkt =>
    outcome ← handle_incoming_packet fuel pkt false;
    _ ← answer local_epoch handshake_completed_successfully outcome;
    mret tt).

(** A request of [handle_queue_rx], served while the handshake is at work *)
Definition handle_queue (fuel : nat) : RM unit :=
  pkts ← st_get rc_encrypted_packets;
  _ ← st_modify (fun c => c <| rc_encrypted_packets := [] |>);
  handle_queued_packets fuel pkts.

(** [read_and_buffer]: what the socket gave, and how many requests the handshake makes
    before it lets the reader go on *)
Definition read_and_buffer (fuel : nat) (received : res DtlsError bytes) (requests : nat) : RM unit :=
  datagram ← st_lift received;
  has_handshake ← handle_datagram fuel datagram;
  st_when has_handshake (st_for (seq 0 requests) (fun _ => handle_queue fuel)).

(** The task of the reader: [close], or a round; whether the task still runs after them *)
Inductive ReaderRound : Type := ReaderClose | ReaderReads (received : res DtlsError bytes) (requests : nat).

Fixpoint reader_task (fuel : nat) (rounds : list ReaderRound) : RM bool := fun c =>
  match rounds with
  | [] => (Ok true, c)
  | ReaderClose :: _ => (Ok false, c)
  | ReaderReads received requests :: rounds =>
      match read_and_buffer fuel received requests c with
      | (Err ErrAlertFatalOrClose, c) => (Ok false, c)
      | (Ok _, c) | (Err _, c) => reader_task fuel rounds c
      | (Panic, c) => (Panic, c)
      | (OutOfFuel, c) => (OutOfFuel, c)
      end
  end.

(** A socket that fails for good does not end the task: it reads again at once. *)
Lemma reader_task_spins fuel n e c : e <> ErrAlertFatalOrClose ->
  reader_task fuel (replicate n (ReaderReads (Err e) 0)) c = (Ok true, c).
Proof. intros He. induction n as [|n IH]; [done|]. cbn. by destruct e. Qed.
End incoming.

(** * [read] *)

(** [DTLSConn::read], once a value was received from [decrypted_rx] ([None]
    when the channel is closed): the bytes stored in front of a buffer of
    [capacity] bytes. *)
Definition DTLSConn_read (handshake_completed : bool) (capacity : nat) (rx : option (res DtlsError bytes))
    : res DtlsError bytes :=
  if negb handshake_completed then Err ErrHandshakeInProgress
  else
    match rx with
    | Some (Ok val) => if (capacity <? length val)%nat then Err ErrBufferTooSmall else Ok val
    | Some r => r
    | None => Err ErrAlertFatalOrClose
    end.

(** [DTLSConn::write]: the packet it hands to [write_packets] *)
Definition DTLSConn_write (closed handshake_completed : bool) (local_epoch : Z) (p : bytes) : res DtlsError Packet :=
  if closed then Err ErrConnClosed
  else if negb handshake_completed then Err ErrHandshakeInProgress
  else Ok (mkPacket (RecordLayer_new PROTOCOL_VERSION1_2 local_epoch (CoApplicationData (mkApplicationData p))) true).
