(* ===== verification/DtlsConnLaws.v ===== *)
(** The packet path end to end: a handshake cut into fragments by one side is
    put together by the other whatever the order of arrival, and the datagrams
    respect the MTU. *)
From S2P Require Import Prelude Utf8 DtlsTypes DtlsExtension DtlsHandshake DtlsRecord DtlsCodec DtlsLaws DtlsFragment DtlsCache DtlsConn.

(** * Splitting *)
Lemma split_from_spec fuel i b n : (0 < n)%nat -> (length b - i <= fuel)%nat ->
  concat (split_from fuel i b n) = drop i b
  /\ Forall (fun p => p <> [] /\ (length p <= n)%nat) (split_from fuel i b n).
Proof.
  intros Hn. revert i. induction fuel as [|fuel IH]; intros i Hf; cbn [split_from].
  { split; [|constructor]. by rewrite drop_ge by lia. }
  destruct (Nat.ltb_spec i (length b)); [|split; [|constructor]; by rewrite drop_ge by lia].
  destruct (IH (i + n)%nat ltac:(lia)) as [Hc Hall]. split.
  - cbn [concat]. rewrite Hc. transitivity (take (Nat.min (i + n) (length b) - i) (drop i b)
      ++ drop (Nat.min (i + n) (length b) - i) (drop i b)); [|apply take_drop]. f_equal.
    rewrite drop_drop. destruct (Nat.le_ge_cases (i + n) (length b)); [f_equal; lia|].
    by rewrite !drop_ge by lia.
  - constructor; [|done]. pose proof (length_take (drop i b) (Nat.min (i + n) (length b) - i)) as Hl.
    rewrite length_drop in Hl. split; [|lia]. intros He. rewrite He in Hl. cbn in Hl. lia.
Qed.

Lemma split_bytes_spec b n : (0 < n)%nat -> exists pieces, split_bytes b n = Ok pieces
  /\ concat pieces = b /\ Forall (fun p => p <> [] /\ (length p <= n)%nat) pieces.
Proof.
  intros Hn. unfold split_bytes. destruct (Nat.eqb_spec n 0); [lia|]. eexists. split; [done|].
  apply (split_from_spec (length b) 0); lia.
Qed.

(** * The fragments of a handshake *)
Section fragments.
Context (h : HandshakeHeader).

Definition piece_header (op : Z * bytes) : HandshakeHeader :=
  mkHandshakeHeader (hh_handshake_type h) (hh_length h) (hh_message_sequence h) (fst op) (Z.of_nat (length (snd op))).

(** [carries op f]: [f] is the fragment of the piece [op]. *)
Definition carries (op : Z * bytes) (f : bytes) : Prop :=
  exists hb, HandshakeHeader_marshal (piece_header op) = Ok hb /\ f = hb ++ snd op.

Lemma fragments_from_carries off pieces :
  HandshakeHeader_wf h -> Z.of_nat off + Z.of_nat (length (concat pieces)) < 16777216 ->
  exists frags, fragments_from h off pieces = Ok frags /\ Forall2 carries (offsets (Z.of_nat off) pieces) frags.
Proof.
  intros Hwf. revert off. induction pieces as [|p pieces IH]; intros off Hlen; [by exists []|].
  cbn [concat] in Hlen. rewrite length_app in Hlen.
  destruct (IH (off + length p)%nat ltac:(lia)) as (frags & Hf & Hall).
  destruct Hwf as (Hl & Hs & _). cbn [fragments_from offsets].
  rewrite wrap_small by (unfold in_range; lia). rewrite len_as_small by lia.
  destruct (HandshakeHeader_codec (piece_header (Z.of_nat off, p))) as (hb & Hm & _ & _);
    [split_and!; cbn; try done; lia|].
  unfold piece_header in Hm; cbn [fst snd] in Hm. rewrite Hm. cbn [mbind res_bind]. rewrite Hf.
  eexists. split; [done|]. constructor; [by exists hb|]. by rewrite Nat2Z.inj_add in Hall.
Qed.

Lemma piece_header_wf op : HandshakeHeader_wf h -> 0 <= fst op -> fst op + Z.of_nat (length (snd op)) < 16777216 ->
  HandshakeHeader_wf (piece_header op).
Proof. intros (Hl & Hs & _) H0 H1. split_and!; cbn; try apply Hl; try apply Hs; lia. Qed.

Lemma carries_parse op f : HandshakeHeader_wf (piece_header op) -> carries op f ->
  HandshakeHeader_unmarshal f = Ok (piece_header op, snd op)
  /\ length f = (HANDSHAKE_HEADER_LENGTH + length (snd op))%nat /\ drop HANDSHAKE_HEADER_LENGTH f = snd op.
Proof.
  intros Hwf (hb & Hm & ->). destruct (HandshakeHeader_codec _ Hwf) as (hb' & Hm' & Hl & Hr).
  assert (hb' = hb) as -> by congruence.
  split_and!; [apply Hr|by rewrite length_app, Hl|by rewrite <- Hl, drop_app_length].
Qed.

(** Bytes carry one piece. *)
Lemma carries_inj op op' f : HandshakeHeader_wf (piece_header op) -> HandshakeHeader_wf (piece_header op') ->
  carries op f -> carries op' f -> op = op'.
Proof.
  intros Hwf Hwf' Hc Hc'. apply carries_parse in Hc as (H & _ & _), Hc' as (H' & _ & _); try done.
  rewrite H in H'. injection H' as Ho _ Hd. destruct op, op'; cbn in *; congruence.
Qed.
End fragments.

(** * Arrivals *)

(** A datagram record of a fragment: a header of the record layer, the fragment. *)
Definition record_bytes (a : RecordLayerHeader * bytes) : res DtlsError bytes :=
  hb ← RecordLayerHeader_marshal (fst a);
  Ok (hb ++ snd a).

(** The packets are pushed one after the other. *)
Definition push_all (arrivals : list (RecordLayerHeader * bytes)) : FM unit :=
  st_for arrivals (fun a =>
    pkt ← st_lift (record_bytes a);
    _ ← FragmentBuffer_push pkt;
    mret tt).

Lemma buffer_push_fragment h op rl f fb : HandshakeHeader_wf (piece_header h op) -> carries h op f ->
  0 <= fst op -> fst op + Z.of_nat (length (snd op)) <= hh_length h ->
  RecordLayerHeader_wf rl -> rl_content_type rl = CtHandshake ->
  exists pkt, record_bytes (rl, f) = Ok pkt /\
    FragmentBuffer_push pkt fb
    = (Ok true, fb <| fb_cache ::= add_fragment (mkFragment rl (piece_header h op) (snd op)) |>).
Proof.
  intros Hwf Hc H0 Hle Hrl Ht. destruct (RecordLayerHeader_codec rl Hrl) as (hb & Hm & Hl & Hr).
  destruct (carries_parse h op f Hwf Hc) as (Hp & Hfl & Hd).
  exists (hb ++ f). split; [unfold record_bytes; cbn [fst snd]; by rewrite Hm|].
  unfold FragmentBuffer_push, st_lift. unfold mbind at 1, st_bind at 1. rewrite Hr. cbn [negb].
  rewrite bool_decide_true by done. cbn [negb]. unfold mbind at 1, st_bind at 1. unfold slice_from.
  rewrite (slice_app _ hb f []) by (rewrite ?app_nil_r, ?length_app; lia || done).
  destruct f as [|b f']; [rewrite length_nil in Hfl; unfold HANDSHAKE_HEADER_LENGTH in Hfl; lia|].
  set (f := b :: f') in *. change (length f) with (S (length f')). cbn [push_handshakes].
  unfold st_lift, st_modify, mret, st_ret, mbind, st_bind. unfold f at 1. cbv iota.
  rewrite Hp. cbn [hh_length piece_header].
  replace (Nat.min _ _) with (length f) by (rewrite Hfl; lia).
  rewrite (slice_app f (take HANDSHAKE_HEADER_LENGTH f) (snd op) []).
  - unfold slice_from. rewrite slice_ok by lia. rewrite drop_ge by lia. rewrite take_nil.
    destruct (length f'); reflexivity.
  - rewrite app_nil_r, <- Hd. symmetry. apply take_drop.
  - rewrite length_take, Hfl. lia.
  - exact Hfl.
Qed.

Lemma add_fragments cache frs s : Forall (fun f => hh_message_sequence (fr_handshake_header f) = s) frs -> frs <> [] ->
  cache !! s = None -> fold_left (fun c f => add_fragment f c) frs cache = <[s := frs]> cache.
Proof.
  intros Hs Hne Hnone.
  assert (forall frs l c, Forall (fun f => hh_message_sequence (fr_handshake_header f) = s) frs ->
    fold_left (fun c f => add_fragment f c) frs (<[s := l]> c) = <[s := l ++ frs]> c) as Hgen.
  { clear. induction frs as [|f frs IH]; intros l c Hs; [cbn; by rewrite app_nil_r|].
    apply Forall_cons in Hs as [Hf Hs]. cbn [fold_left]. unfold add_fragment at 2. rewrite Hf, lookup_insert_eq.
    cbn [default]. rewrite insert_insert_eq. rewrite IH by done. by rewrite <- app_assoc. }
  destruct frs as [|f frs]; [done|]. apply Forall_cons in Hs as [Hf Hs]. cbn [fold_left].
  unfold add_fragment at 2. rewrite Hf, Hnone. cbn [default app]. by rewrite Hgen.
Qed.

Lemma offsets_bound op off ps : op ∈ offsets off ps ->
  off <= fst op /\ fst op + Z.of_nat (length (snd op)) <= off + Z.of_nat (length (concat ps)).
Proof.
  revert off. induction ps as [|p ps IH]; intros off; cbn [offsets]; intros H; [by apply elem_of_nil in H|].
  cbn [concat]. rewrite length_app. apply elem_of_cons in H as [->|H]; [cbn; lia|]. apply IH in H. lia.
Qed.

Section reassembled.
Context (h : HandshakeHeader) (pieces : list bytes) (frags : list bytes) (epoch : Z).
Hypothesis Hwf : HandshakeHeader_wf h.
Hypothesis Htotal : hh_length h = Z.of_nat (length (concat pieces)).
Hypothesis Hcarry : Forall2 (carries h) (offsets 0 pieces) frags.

(** A record that carries a fragment, and what is stored of it. *)
Definition arrival (a : RecordLayerHeader * bytes) : Prop :=
  RecordLayerHeader_wf (fst a) /\ rl_content_type (fst a) = CtHandshake /\ rl_epoch (fst a) = epoch /\ snd a ∈ frags.

Definition stored (a : RecordLayerHeader * bytes) (f : Fragment) : Prop :=
  exists op, op ∈ offsets 0 pieces /\ carries h op (snd a) /\ f = mkFragment (fst a) (piece_header h op) (snd op).

Lemma piece_wf op : op ∈ offsets 0 pieces ->
  HandshakeHeader_wf (piece_header h op) /\ 0 <= fst op /\ fst op + Z.of_nat (length (snd op)) <= hh_length h.
Proof using Hwf Htotal.
  intros H. apply offsets_bound in H as [H0 H1]. split; [|lia].
  apply piece_header_wf; [done|lia|]. destruct Hwf as ([? ?] & _). lia.
Qed.

Lemma push_all_stored arrivals fb : Forall arrival arrivals -> exists frs,
  push_all arrivals fb = (Ok tt, fb <| fb_cache ::= fold_left (fun c f => add_fragment f c) frs |>)
  /\ Forall2 stored arrivals frs.
Proof using Hwf Htotal Hcarry.
  intros H. revert fb. induction H as [|[rl f] arrivals (Hrl & Ht & _ & Hf) _ IH]; intros fb;
    [exists []; split; [by destruct fb|constructor]|].
  cbn [fst snd] in *. apply list_elem_of_lookup in Hf as [i Hi].
  destruct (Forall2_lookup_r _ _ _ _ _ Hcarry Hi) as (op & Hop & Hc).
  assert (op ∈ offsets 0 pieces) as Hin by (by eapply list_elem_of_lookup_2).
  destruct (piece_wf op Hin) as (Hw & H0 & H1).
  destruct (buffer_push_fragment h op rl f fb Hw Hc H0 H1 Hrl Ht) as (pkt & Hpkt & Hpush).
  set (g := mkFragment rl (piece_header h op) (snd op)) in *.
  destruct (IH (fb <| fb_cache ::= add_fragment g |>)) as (frs & Hall & Hst).
  exists (g :: frs). split; [|constructor; [by exists op|done]].
  unfold push_all. cbn [st_for]. unfold mbind at 1, st_bind at 1, mbind at 1, st_bind at 1, st_lift.
  rewrite Hpkt. unfold mbind at 1, st_bind at 1. rewrite Hpush. unfold mret, st_ret.
  change (st_for arrivals _ ?s) with (push_all arrivals s). rewrite Hall. done.
Qed.

Lemma stored_fragment_of a f : stored a f -> exists op, op ∈ offsets 0 pieces
  /\ fragment_of (Z.of_nat (length (concat pieces))) op f.
Proof using Htotal. intros (op & Hop & _ & ->). exists op. split; [done|]. by split_and!; [exact Htotal|..]. Qed.

(** The fragments are there if and only if their bytes arrived. *)
Lemma arrived_iff arrivals frs op f : Forall2 stored arrivals frs -> op ∈ offsets 0 pieces -> carries h op f ->
  (f ∈ map snd arrivals <-> exists g, g ∈ frs /\ fragment_of (Z.of_nat (length (concat pieces))) op g).
Proof using Hwf Htotal.
  intros Hst Hop Hc. split.
  - intros Hin. apply list_elem_of_fmap in Hin as (a & -> & Ha). apply list_elem_of_lookup in Ha as [i Hi].
    destruct (Forall2_lookup_l _ _ _ _ _ Hst Hi) as (g & Hg & op' & Hop' & Hc' & ->).
    eexists. split; [by eapply list_elem_of_lookup_2|].
    rewrite (carries_inj h op op' (snd a)); [|by apply piece_wf|by apply piece_wf|done|done].
    by split_and!; [exact Htotal|..].
  - intros (g & Hg & Hof). apply list_elem_of_lookup in Hg as [i Hi].
    destruct (Forall2_lookup_r _ _ _ _ _ Hst Hi) as (a & Ha & op' & Hop' & Hc' & ->).
    apply list_elem_of_fmap. exists a. split; [|by eapply list_elem_of_lookup_2].
    destruct Hof as (_ & Ho & _ & Hd). cbn in Ho, Hd.
    assert (op' = op) as -> by (destruct op, op'; cbn in *; congruence).
    destruct Hc as (hb & Hm & ->), Hc' as (hb' & Hm' & ->). congruence.
Qed.
End reassembled.

(** The header of a whole handshake: [Handshake_new] with a sequence number. *)
Definition whole_handshake (h : Handshake) : Prop :=
  Handshake_wf h
  /\ hh_length (hs_handshake_header h) = Z.of_nat (HandshakeMessage_size (hs_handshake_message h))
  /\ hh_fragment_offset (hs_handshake_header h) = 0
  /\ hh_fragment_length (hs_handshake_header h) = hh_length (hs_handshake_header h).

Section end_to_end.
Context {P : Profile}.

Lemma fragment_handshake_spec mtu h : (0 < mtu)%nat -> whole_handshake h ->
  exists content pieces frags, HandshakeMessage_marshal (hs_handshake_message h) = Ok content
  /\ concat pieces = content /\ pieces_ok pieces
  /\ hh_length (hs_handshake_header h) = Z.of_nat (length (concat pieces))
  /\ fragment_handshake mtu h = Ok frags
  /\ Forall2 (carries (hs_handshake_header h)) (offsets 0 pieces) frags.
Proof.
  intros Hmtu ((Hh & Hm & Ht) & Hl & _ & _).
  destruct (HandshakeMessage_codec _ Hm) as (content & Hc & Hcl & _).
  destruct (split_bytes_spec content mtu Hmtu) as (pieces & Hs & Hcat & Hne).
  set (ps := if is_empty pieces then [[]] else pieces).
  assert (concat ps = content) as Hps by (unfold ps; destruct pieces; [by rewrite <- Hcat|done]).
  destruct (fragments_from_carries (hs_handshake_header h) 0 ps Hh) as (frags & Hf & Hcar).
  { rewrite Hps, Hcl, <- Hl. destruct Hh as ([? ?] & _). lia. }
  exists content, ps, frags. split_and!; [done|done| |by rewrite Hps, Hcl| |done].
  - unfold ps. destruct pieces as [|p pieces]; [by right|]. left. split; [done|].
    eapply Forall_impl; [exact Hne|]. by intros q [? _].
  - unfold fragment_handshake. rewrite Hc. cbn [mbind res_bind]. rewrite Hs. cbn [mbind res_bind]. exact Hf.
Qed.

(** The header [pop] writes, from the first fragment that arrived *)
Definition rebuilt_header (f : Fragment) : HandshakeHeader :=
  (fr_handshake_header f) <| hh_fragment_offset := 0 |>
    <| hh_fragment_length := hh_length (fr_handshake_header f) |>.

Lemma pop_complete fuel cache s f frs hb raw :
  in_range 16 (s + 1) -> cache !! s = Some (f :: frs) -> append_message fuel 0 (f :: frs) = Ok (Some raw) ->
  HandshakeHeader_marshal (rebuilt_header f) = Ok hb ->
  FragmentBuffer_pop fuel (mkFragmentBuffer cache s)
  = (Ok (hb ++ raw, rl_epoch (fr_record_layer_header f)), mkFragmentBuffer (delete s cache) (s + 1)).
Proof.
  intros Hs Hc Hm Hh. unfold FragmentBuffer_pop. st_run. cbn [fb_current_message_sequence_number fb_cache].
  rewrite Hc, Hm. cbn [index lookup list_lookup]. unfold rebuilt_header in Hh. unfold index. cbn [lookup list_lookup].
  rewrite Hh. unfold st_modify, st_lift. rewrite arith_ok by done. reflexivity.
Qed.

Lemma pop_incomplete fuel cache s :
  match cache !! s with None => True | Some frs => append_message fuel 0 frs = Ok None end ->
  FragmentBuffer_pop fuel (mkFragmentBuffer cache s) = (Err ErrEmptyFragment, mkFragmentBuffer cache s).
Proof.
  intros H. unfold FragmentBuffer_pop. st_run. cbn [fb_current_message_sequence_number fb_cache].
  destruct (cache !! s) as [frs|]; [by rewrite H|done].
Qed.

Lemma length_offsets o pieces : length (offsets o pieces) = length pieces.
Proof. revert o. induction pieces as [|p ps IH]; intros o; [done|]. cbn. by rewrite IH. Qed.

(** C7. A handshake cut into fragments by [fragment_handshake], for any MTU, is
    put together by the [FragmentBuffer] of the peer.  The fragments arrive in
    records of their own, in any order, any number of times: [pop] gives the
    bytes of the whole handshake and the epoch of its records, and moves on to
    the next sequence number, if and only if every fragment has arrived;
    otherwise it reports an empty fragment and keeps what it has. *)
Theorem fragments_reassembled mtu h : (0 < mtu)%nat -> whole_handshake h ->
  hh_message_sequence (hs_handshake_header h) < 65535 ->
  exists frags raw, fragment_handshake mtu h = Ok frags /\ Handshake_marshal h = Ok raw
  /\ forall arrivals epoch fb fuel, Forall (arrival frags epoch) arrivals -> (length frags <= fuel)%nat ->
     fb_current_message_sequence_number fb = hh_message_sequence (hs_handshake_header h) ->
     fb_cache fb !! fb_current_message_sequence_number fb = None ->
     exists fb', push_all arrivals fb = (Ok tt, fb')
     /\ FragmentBuffer_pop fuel fb'
        = if decide (Forall (fun f => f ∈ map snd arrivals) frags)
          then (Ok (raw, epoch), fb <| fb_current_message_sequence_number ::= fun n => n + 1 |>)
          else (Err ErrEmptyFragment, fb').
Proof.
  intros Hmtu Hh Hseq.
  destruct (fragment_handshake_spec mtu h Hmtu Hh) as (content & pieces & frags & Hc & Hcat & Hok & Htotal & Hf & Hcar).
  destruct Hh as ((Hwf & Hm & Ht) & Hl & Ho & Hfl).
  destruct (HandshakeHeader_codec _ Hwf) as (hb & Hhm & _ & _).
  exists frags, (hb ++ content). split_and!; [done|unfold Handshake_marshal; rewrite Hhm; cbn [mbind res_bind]; by rewrite Hc|].
  intros arrivals epoch [cache s] fuel Harr Hfuel. cbn [fb_current_message_sequence_number fb_cache]. intros -> Hnone.
  set (h0 := hs_handshake_header h) in *.
  destruct (push_all_stored h0 pieces frags epoch Hwf Htotal Hcar arrivals
    (mkFragmentBuffer cache (hh_message_sequence h0)) Harr) as (frs & Hpush & Hst).
  eexists. split; [exact Hpush|]. clear Hpush. unfold set. cbn [fb_cache fb_current_message_sequence_number].
  assert (length pieces <= fuel)%nat as Hfuel'
    by (by rewrite <- (length_offsets 0), (Forall2_length _ _ _ Hcar)).
  assert (forall g, g ∈ frs -> exists a op, a ∈ arrivals /\ op ∈ offsets 0 pieces /\
    g = mkFragment (fst a) (piece_header h0 op) (snd op)) as Hfrom.
  { intros g Hg. apply list_elem_of_lookup in Hg as [i Hi].
    destruct (Forall2_lookup_r _ _ _ _ _ Hst Hi) as (a & Ha & op & Hop & _ & ->).
    exists a, op. by split_and!; [eapply list_elem_of_lookup_2|..]. }
  destruct (append_message_pieces pieces frs fuel Hok) as [Hcomplete Hincomplete]; [|done|].
  { intros g Hg. destruct (Hfrom g Hg) as (a & op & _ & Hop & ->). exists op. by split_and!. }
  assert (frs <> [] -> fold_left (fun c f => add_fragment f c) frs cache = <[hh_message_sequence h0 := frs]> cache) as Hadd.
  { intros Hne. apply add_fragments; [|done|done]. apply Forall_forall. intros g Hg.
    by destruct (Hfrom g Hg) as (a & op & _ & _ & ->). }
  destruct (decide (Forall (fun f => f ∈ map snd arrivals) frags)) as [Hall|Hmiss].
  - assert (append_message fuel 0 frs = Ok (Some (concat pieces))) as Happ.
    { apply Hcomplete. intros op Hop. apply list_elem_of_lookup in Hop as [i Hi].
      destruct (Forall2_lookup_l _ _ _ _ _ Hcar Hi) as (f & Hfi & Hcf). apply list_elem_of_lookup_2 in Hi, Hfi.
      eapply arrived_iff; try done. by apply (proj1 (Forall_forall _ _) Hall). }
    destruct frs as [|g frs']; [by destruct fuel|]. rewrite Hadd by done.
    destruct (Hfrom g) as (a & op & Ha & Hop & Hg); [by left|].
    rewrite (pop_complete fuel _ _ g frs' hb (concat pieces)).
    + rewrite Hcat, delete_insert_id by done. rewrite Hg. cbn [fr_record_layer_header].
      apply (proj1 (Forall_forall _ _) Harr) in Ha as (_ & _ & -> & _). done.
    + destruct Hwf as (_ & [? ?] & _). unfold in_range. lia.
    + apply lookup_insert_eq.
    + exact Happ.
    + rewrite <- Hhm. f_equal. rewrite Hg. unfold rebuilt_header, piece_header, set. cbn. destruct h0. cbn in *. congruence.
  - apply pop_incomplete. destruct (decide (frs = [])) as [->|Hne]; [cbn [fold_left]; by rewrite Hnone|].
    rewrite Hadd, lookup_insert_eq by done.
    apply not_Forall_Exists, Exists_exists in Hmiss as (f & Hfin & Hnot); [|intros x; apply _].
    apply list_elem_of_lookup in Hfin as [i Hi]. destruct (Forall2_lookup_r _ _ _ _ _ Hcar Hi) as (op & Hop & Hcf).
    apply list_elem_of_lookup_2 in Hop. apply (Hincomplete op Hop).
    intros g Hg Hof. apply Hnot. apply (arrived_iff h0 pieces Hwf Htotal arrivals frs op f Hst Hop Hcf). by exists g.
Qed.
End end_to_end.

Section sample.
Local Existing Instance dev_profile.

Definition sample_finished : Handshake := Handshake_new (HmFinished (mkFinished (map byte_of_u8 [1; 2; 3; 4; 5; 6; 7; 8; 9; 10; 11; 12]))).

(** The three fragments for an MTU of five, the last one first and twice *)
Definition sample_arrivals : list (RecordLayerHeader * bytes) :=
  let rl n := mkRecordLayerHeader CtHandshake PROTOCOL_VERSION1_2 1 n 17 in
  let f off bs := map byte_of_u8 ([20; 0; 0; 12; 0; 0; 0; 0; off; 0; 0; Z.of_nat (length bs)] ++ bs) in
  [(rl 2, f 10 [11; 12]); (rl 0, f 0 [1; 2; 3; 4; 5]); (rl 3, f 10 [11; 12]); (rl 1, f 5 [6; 7; 8; 9; 10])].

Lemma fragments_reassembled_witness : exists fb',
  push_all sample_arrivals FragmentBuffer_new = (Ok tt, fb')
  /\ FragmentBuffer_pop 3 fb'
     = (Ok (map byte_of_u8 [20; 0; 0; 12; 0; 0; 0; 0; 0; 0; 0; 12; 1; 2; 3; 4; 5; 6; 7; 8; 9; 10; 11; 12], 1),
        mkFragmentBuffer ∅ 1).
Proof.
  destruct (fragments_reassembled 5 sample_finished) as (frags & raw & Hf & Hr & H);
    [lia|split_and!; try done; cbn; lia|reflexivity|].
  vm_compute in Hf, Hr. injection Hf as <-. injection Hr as <-.
  destruct (H sample_arrivals 1 FragmentBuffer_new 3%nat) as (fb' & Hpush & Hpop); [|cbn; lia|done|done|].
  - apply Forall_forall. intros a Ha.
    repeat (apply elem_of_cons in Ha as [->|Ha]; [split_and!; try done; try (by right); try (cbn; lia); vm_compute; set_solver|]).
    by apply elem_of_nil in Ha.
  - exists fb'. split; [exact Hpush|]. rewrite Hpop. destruct (decide _) as [_|Hn]; [reflexivity|].
    destruct Hn. apply (bool_decide_unpack _). vm_compute. exact I.
Defined.
End sample.
