(* ===== verification/DtlsSend.v ===== *)
(** The outgoing side of the connection: what the datagrams of
    [handle_outgoing_packets] are made of. *)
From S2P Require Import Prelude DtlsTypes DtlsHandshake DtlsRecord DtlsCodec DtlsLaws DtlsCache DtlsConn.

(** * Datagrams *)
Lemma compact_from_spec mtu raws current :
  concat (compact_from mtu raws current) = current ++ concat raws
  /\ Forall (fun d => d ∈ current :: raws \/ (length d < mtu)%nat) (compact_from mtu raws current).
Proof.
  enough (forall raws current (seen : list bytes), current ∈ seen \/ (length current < mtu)%nat ->
    (forall r, r ∈ raws -> r ∈ seen) ->
    concat (compact_from mtu raws current) = current ++ concat raws
    /\ Forall (fun d => d ∈ seen \/ (length d < mtu)%nat) (compact_from mtu raws current)) as H.
  { apply H; [left; by left|]. intros r Hr. by right. }
  clear raws current. induction raws as [|r raws IH]; intros current seen Hc Hr; cbn [compact_from].
  { split; [done|]. by constructor. }
  assert (r ∈ seen) as Hrs by (apply Hr; by left).
  assert (forall x, x ∈ raws -> x ∈ seen) as Hrs' by (intros x Hx; apply Hr; by right).
  destruct (negb (is_empty current)) eqn:He; cbn [andb]; [destruct (Nat.leb_spec mtu (length current + length r))|].
  - destruct (IH r seen) as [Hcat Hall]; [by left|done|]. cbn [concat]. rewrite Hcat. split; [done|]. by constructor.
  - destruct (IH (current ++ r) seen) as [Hcat Hall]; [right; rewrite length_app; lia|done|].
    rewrite Hcat. split; [by rewrite <- app_assoc|done].
  - destruct current; [|done]. destruct (IH ([] ++ r) seen) as [Hcat Hall]; [by left|done|]. by rewrite Hcat.
Qed.

(** The packets are sent in order, packed into datagrams that are shorter than
    the MTU unless they are one packet. *)
Lemma compact_raw_packets_spec raws mtu : raws <> [] ->
  concat (compact_raw_packets raws mtu) = concat raws
  /\ Forall (fun d => d ∈ raws \/ (length d < mtu)%nat) (compact_raw_packets raws mtu).
Proof.
  intros Hne. destruct raws as [|r raws]; [done|]. unfold compact_raw_packets. cbn [compact_from is_empty negb andb app].
  destruct (compact_from_spec mtu raws r) as [Hc Hall]. by split.
Qed.

(** * Sequence numbers *)
Definition counter (lsn : list Z) (epoch : nat) : Z := nth epoch lsn 0.

Definition number (h : RecordLayerHeader) : nat * Z := (Z.to_nat (rl_epoch h), rl_sequence_number h).

(** [fresh lsn lsn' ns]: the numbers [ns] were taken, each once, while the
    counters moved from [lsn] to [lsn']. *)
Record fresh (lsn lsn' : list Z) (ns : list (nat * Z)) : Prop := {
  fresh_mono e : counter lsn e <= counter lsn' e;
  fresh_nodup : NoDup ns;
  fresh_range e n : (e, n) ∈ ns -> counter lsn e <= n < counter lsn' e
}.

Lemma fresh_nil lsn : fresh lsn lsn [].
Proof. split; [lia|constructor|]. intros e n H. by apply elem_of_nil in H. Qed.

Lemma fresh_app a b c ns ms : fresh a b ns -> fresh b c ms -> fresh a c (ns ++ ms).
Proof.
  intros [M1 N1 R1] [M2 N2 R2]. split.
  - intros e. specialize (M1 e). specialize (M2 e). lia.
  - apply NoDup_app. split_and!; [done| |done]. intros [e n] H1 H2. apply R1 in H1. apply R2 in H2. lia.
  - intros e n H. specialize (M1 e). specialize (M2 e).
    apply elem_of_app in H as [H|H]; [apply R1 in H|apply R2 in H]; lia.
Qed.

Lemma counter_extend e lsn e' : counter (extend_sequence_numbers e lsn) e' = counter lsn e'.
Proof.
  unfold counter, extend_sequence_numbers. destruct (Nat.lt_ge_cases e' (length lsn)).
  - by rewrite app_nth1 by done.
  - rewrite app_nth2 by done. rewrite (nth_overflow lsn) by done.
    destruct (Nat.lt_ge_cases (e' - length lsn) (S e - length lsn)).
    + by rewrite nth_repeat_lt || (rewrite nth_lookup, lookup_replicate_2 by done).
    + by rewrite nth_overflow by (rewrite length_replicate; done).
Qed.

Lemma fresh_extend e lsn : fresh lsn (extend_sequence_numbers e lsn) [].
Proof. split; [intros e'; by rewrite counter_extend|constructor|]. intros e' n H. by apply elem_of_nil in H. Qed.

Definition counters_ok (lsn : list Z) : Prop := forall e, 0 <= counter lsn e < 2 ^ 63.

Section send.
Context {P : Profile} (cipher_suite : option CipherSuite).

(** [sealed h out]: [out] is a record with the header [h], encrypted if the
    packet asks for it. *)
Definition sealed (h : RecordLayerHeader) (out : bytes) : Prop :=
  exists should_encrypt hb body, RecordLayerHeader_marshal h = Ok hb
  /\ encrypt_packet cipher_suite should_encrypt h (hb ++ body) = Ok out.

(** [emits acc m]: on success [m] has added sealed records to [acc], with fresh
    numbers. *)
Definition emits (acc : list bytes) (m : OM (list bytes)) : Prop :=
  forall o outs o', counters_ok (og_local_sequence_number o) -> m o = (Ok outs, o') ->
  exists hs news, outs = acc ++ news /\ Forall2 sealed hs news
  /\ counters_ok (og_local_sequence_number o')
  /\ fresh (og_local_sequence_number o) (og_local_sequence_number o') (map number hs).

Lemma take_sequence_number_spec epoch o seq o' :
  counters_ok (og_local_sequence_number o) -> take_sequence_number epoch o = (Ok seq, o') ->
  seq = counter (og_local_sequence_number o) epoch
  /\ og_cache o' = og_cache o
  /\ fresh (og_local_sequence_number o) (og_local_sequence_number o') [(epoch, seq)]
  /\ (seq <= MAX_SEQUENCE_NUMBER -> counters_ok (og_local_sequence_number o')).
Proof.
  intros Hok. destruct o as [lsn cache]. cbn in Hok. unfold take_sequence_number. st_run.
  cbn [og_local_sequence_number]. unfold index. destruct (lsn !! epoch) as [n|] eqn:Hn; [|done].
  assert (counter lsn epoch = n) as Hc by (unfold counter; by rewrite nth_lookup, Hn).
  pose proof (Hok epoch) as Hrange. rewrite Hc in Hrange.
  rewrite arith_ok by (unfold in_range; lia). st_run. rewrite arith_ok by (unfold in_range; lia).
  intros [= <- <-]. unfold set. cbn [og_local_sequence_number og_cache]. replace (n + 1 - 1) with n by lia.
  assert (forall e, counter (<[epoch:=n + 1]> lsn) e = if decide (e = epoch) then n + 1 else counter lsn e) as Hcount.
  { intros e. unfold counter. rewrite !nth_lookup. case_decide as He.
    - subst e. rewrite list_lookup_insert_eq; [done|]. by eapply lookup_lt_Some.
    - by rewrite list_lookup_insert_ne by done. }
  split_and!; [done|done| |].
  - split.
    + intros e. rewrite Hcount. case_decide; [subst e; lia|lia].
    + apply NoDup_singleton.
    + intros e m He. apply list_elem_of_singleton in He as [= -> ->]. rewrite Hcount, decide_True by done. lia.
  - intros Hmax e. rewrite Hcount. unfold MAX_SEQUENCE_NUMBER in Hmax. case_decide; [lia|apply Hok].
Qed.

Lemma process_fragment_emits p acc f : emits acc (process_fragment cipher_suite p acc f).
Proof.
  intros o outs o' Hok H. unfold process_fragment in H.
  apply st_bind_Ok in H as (seq & o1 & Hseq & H).
  destruct (take_sequence_number_spec _ _ _ _ Hok Hseq) as (-> & _ & Hfr & Hok1).
  destruct (Z.ltb_spec MAX_SEQUENCE_NUMBER (counter (og_local_sequence_number o) (Z.to_nat (rl_epoch (rl_header (pk_record p))))));
    [done|].
  apply st_bind_Ok in H as (hb & o2 & Hhb & H). injection Hhb as Hhb <-.
  apply st_bind_Ok in H as (raw & o3 & Hraw & H). injection Hraw as Hraw <-. injection H as <- <-.
  match type of Hhb with RecordLayerHeader_marshal ?h = _ => exists [h], [raw] end.
  split_and!; [done| |by apply Hok1|exact Hfr].
  constructor; [|constructor]. by exists (pk_should_encrypt p), hb, f.
Qed.

Lemma st_fold_emits {A} (body : list bytes -> A -> OM (list bytes)) l acc :
  (forall acc x, emits acc (body acc x)) -> emits acc (st_fold l body acc).
Proof.
  intros Hbody. revert acc. induction l as [|x l IH]; intros acc o outs o' Hok H; cbn [st_fold] in H.
  - injection H as <- <-. exists [], []. split_and!; [by rewrite app_nil_r|constructor|done|apply fresh_nil].
  - apply st_bind_Ok in H as (acc1 & o1 & H1 & H).
    destruct (Hbody acc x o acc1 o1 Hok H1) as (hs1 & n1 & -> & Hs1 & Hok1 & Hf1).
    destruct (IH _ o1 outs o' Hok1 H) as (hs2 & n2 & -> & Hs2 & Hok2 & Hf2).
    exists (hs1 ++ hs2), (n1 ++ n2). rewrite map_app. split_and!; [by rewrite app_assoc|by apply Forall2_app|done|].
    by eapply fresh_app.
Qed.

Lemma counters_ok_extend e lsn : counters_ok lsn -> counters_ok (extend_sequence_numbers e lsn).
Proof. intros H e'. rewrite counter_extend. apply H. Qed.

Lemma process_handshake_packet_emits mtu p h : emits [] (process_handshake_packet cipher_suite mtu p h).
Proof.
  intros o outs o' Hok H. unfold process_handshake_packet in H.
  apply st_bind_Ok in H as (frags & o1 & Hf & H). injection Hf as _ <-.
  apply st_bind_Ok in H as ([] & o1 & Ho & H). injection Ho as <-.
  apply st_fold_emits in H; [|intros; apply process_fragment_emits|apply counters_ok_extend, Hok].
  destruct H as (hs & news & -> & Hs & Hok' & Hfr). exists hs, news. split_and!; [done|done|done|].
  eapply (fresh_app _ _ _ []); [apply fresh_extend|exact Hfr].
Qed.

Lemma process_packet_emits p o raw o' :
  counters_ok (og_local_sequence_number o) -> process_packet cipher_suite p o = (Ok raw, o') ->
  exists h, sealed h raw /\ counters_ok (og_local_sequence_number o')
  /\ fresh (og_local_sequence_number o) (og_local_sequence_number o') [number h].
Proof.
  intros Hok H. unfold process_packet in H. apply st_bind_Ok in H as ([] & o1 & Ho & H). injection Ho as <-.
  apply st_bind_Ok in H as (seq & o1 & Hseq & H).
  apply take_sequence_number_spec in Hseq as (-> & _ & Hfr & Hok1); [|apply counters_ok_extend, Hok].
  set (n := counter _ _) in *. destruct (Z.ltb_spec MAX_SEQUENCE_NUMBER n); [done|].
  apply st_bind_Ok in H as (bs & o2 & Hbs & H). injection Hbs as Hbs <-. injection H as Hraw <-.
  exists ((rl_header (pk_record p)) <| rl_sequence_number := n |>). split_and!; [|by apply Hok1|].
  - unfold RecordLayer_marshal in Hbs. apply bind_Ok in Hbs as (hb & Hhb & Hbs).
    apply bind_Ok in Hbs as (body & _ & [= <-]). by exists (pk_should_encrypt p), hb, body.
  - eapply (fresh_app _ _ _ []); [apply fresh_extend|exact Hfr].
Qed.

Lemma outgoing_packet_emits is_client mtu acc p : emits acc (outgoing_packet cipher_suite is_client mtu acc p).
Proof.
  intros o outs o' Hok H. unfold outgoing_packet in H.
  assert (forall o, counters_ok (og_local_sequence_number o) ->
    (raw ← process_packet cipher_suite p; mret (acc ++ [raw])) o = (Ok outs, o') ->
    exists hs news, outs = acc ++ news /\ Forall2 sealed hs news /\ counters_ok (og_local_sequence_number o')
    /\ fresh (og_local_sequence_number o) (og_local_sequence_number o') (map number hs)) as Hplain.
  { clear. intros o Hok H. apply st_bind_Ok in H as (raw & o1 & Hraw & H). injection H as <- <-.
    destruct (process_packet_emits p o raw o1 Hok Hraw) as (h & Hs & Hok1 & Hf). exists [h], [raw].
    by split_and!; [|constructor|..]. }
  destruct (rl_content (pk_record p)) as [|a|h|a]; [by apply Hplain|by apply Hplain| |by apply Hplain].
  apply st_bind_Ok in H as (bs & o1 & Hbs & H). injection Hbs as _ <-.
  apply st_bind_Ok in H as (data & o1 & Hd & H). injection Hd as _ <-.
  apply st_bind_Ok in H as ([] & o1 & Ho & H). injection Ho as <-.
  apply st_bind_Ok in H as (raw & o1 & Hraw & H). injection H as <- <-.
  apply process_handshake_packet_emits in Hraw as (hs & news & -> & Hs & Hok1 & Hf); [|exact Hok].
  by exists hs, news.
Qed.

End send.

Section sample.
Local Existing Instance dev_profile.

(** A handshake in three fragments and an alert, on a fresh connection. *)
Definition sample_packets : list Packet :=
  [mkPacket (RecordLayer_new PROTOCOL_VERSION1_2 1
     (CoHandshake (Handshake_new (HmFinished (mkFinished (replicate 12 Byte.x07)))))) true;
   mkPacket (RecordLayer_new PROTOCOL_VERSION1_2 1 (CoAlert (mkAlert AlWarning CloseNotify))) true].

End sample.
