(* ===== verification/DtlsReceive.v ===== *)
(** The incoming side of the connection: the application data it delivers was
    decrypted, and is delivered once; what a packet in the clear can do. *)
From Stdlib Require Import Strings.String.
From S2P Require Import Prelude Utf8 DtlsTypes DtlsExtension DtlsHandshake DtlsRecord DtlsCodec DtlsLaws DtlsTotal DtlsFragment DtlsCache ReplayDetector DtlsConn.

(** * What a step of the reader changes

    The calls of [handle_incoming_packet] other than the replay detectors and
    the delivery leave these two fields alone. *)
Definition tracked (c : ConnReaderContext) : list SlidingWindowDetector * Z * list bytes :=
  (rc_replay_detector c, rc_replay_protection_window c, rc_decrypted c).

Lemma on_fragments_stable {A} (m : FM A) : stable tracked (on_fragments m).
Proof. intros c. unfold on_fragments. destruct (m (rc_fragment_buffer c)) as [[a|e| |] fb]; done. Qed.

Lemma enqueue_packet_stable b pkt : stable tracked (enqueue_packet b pkt).
Proof. unfold enqueue_packet. stab. Qed.

#[export] Hint Resolve on_fragments_stable enqueue_packet_stable : stable.

Section stable.
Context {P : Profile}.

Lemma pop_messages_stable fuel : stable tracked (pop_messages fuel).
Proof.
  induction fuel as [|fuel IH]; cbn [pop_messages]; apply stable_bind; [auto with stable| |auto with stable|];
    intros [[out epoch]|]; [auto with stable|auto with stable| |auto with stable].
  apply stable_bind; [|done].
  destruct (Handshake_unmarshal out) as [[h r]|e| |]; stab.
Qed.
End stable.

#[export] Hint Resolve pop_messages_stable : stable.

(** [after Pre m Post]: however the call [m] ends, from a state with [Pre] it
    ends in one with [Post]; both are about the tracked fields. *)
Definition after {A} (Pre : _ -> Prop) (m : RM A) (Post : _ -> Prop) : Prop :=
  forall c, Pre (tracked c) -> Post (tracked (snd (m c))).

Lemma after_stable {A} (Pre Post : _ -> Prop) (m : RM A) :
  (forall t, Pre t -> Post t) -> stable tracked m -> after Pre m Post.
Proof. intros H Hs c Hc. rewrite (Hs c). by apply H. Qed.

Lemma after_bind {A B} (Pre Post : _ -> Prop) (m : RM A) (f : A -> RM B) :
  (forall t, Pre t -> Post t) -> stable tracked m -> (forall a, after Pre (f a) Post) -> after Pre (m ≫= f) Post.
Proof.
  intros H Hs Hf c Hc. unfold mbind, st_bind. specialize (Hs c). destruct (m c) as [[a|e| |] c']; cbn [snd] in *;
    try (rewrite Hs; by apply H). apply Hf. by rewrite Hs.
Qed.

(** Follows a program whose calls leave the tracked fields alone. *)
Ltac after_tac Himp :=
  repeat first
    [ apply after_stable; [exact Himp|solve [auto with stable nocore | stab]]
    | apply after_bind; [exact Himp|solve [auto with stable nocore | stab]|intros]
    | case_match ].

(** * The windows *)
Definition accept_seq (ws : list Window) (e : nat) (seq : Z) : list Window := alter (fun w => window_add w seq) e ws.

(** A window only ever gains numbers. *)
Definition grows (ws ws' : list Window) : Prop :=
  forall e w, ws !! e = Some w -> exists w', ws' !! e = Some w' /\ w_seen w ⊆ w_seen w'.

Lemma grows_refl ws : grows ws ws.
Proof. intros e w H. by exists w. Qed.

Lemma grows_trans a b c : grows a b -> grows b c -> grows a c.
Proof.
  intros H1 H2 e w H. destruct (H1 e w H) as (w1 & Hw1 & S1). destruct (H2 e w1 Hw1) as (w2 & Hw2 & S2).
  exists w2. split; [done|]. by transitivity (w_seen w1).
Qed.

Lemma grows_accept ws e seq : grows ws (accept_seq ws e seq).
Proof.
  intros e' w H. unfold accept_seq. destruct (decide (e = e')) as [->|Hne].
  - exists (window_add w seq). split; [by rewrite list_lookup_alter_eq, H|]. cbn. set_solver.
  - exists w. by rewrite list_lookup_alter_ne by done.
Qed.

Section windows.
Context {P : Profile} (size : Z) (Hfits : window_fits size MAX_SEQUENCE_NUMBER).

(** The detectors stand for the windows [ws], and [decrypted] was delivered. *)
Definition windows (ws : list Window) (decrypted : list bytes) (t : list SlidingWindowDetector * Z * list bytes) : Prop :=
  Forall2 (window_of size MAX_SEQUENCE_NUMBER) (fst (fst t)) ws /\ snd (fst t) = size /\ snd t = decrypted.

(** The detector of the epoch has just found the number to be fresh. *)
Definition checked (ws : list Window) (decrypted : list bytes) (e : nat) (seq : Z)
    (t : list SlidingWindowDetector * Z * list bytes) : Prop :=
  windows ws decrypted t
  /\ exists d w, fst (fst t) !! e = Some d /\ ws !! e = Some w /\ sw_accepted d = true /\ sw_seq d = seq
     /\ 0 <= seq /\ window_fresh size MAX_SEQUENCE_NUMBER w seq.

Lemma detector_accept_after {B} ws decrypted e seq (k : unit -> RM B) Post :
  (forall u, after (windows (accept_seq ws e seq) decrypted) (k u) Post) ->
  after (checked ws decrypted e seq) (detector_accept e ≫= k) Post.
Proof using Hfits.
  intros Hk c ((Hws & Hsize & Hdec) & d & w & Hd & Hw & Hacc & Hseq & Hpos & Hfresh).
  assert (window_of size MAX_SEQUENCE_NUMBER d w) as Hof by (by eapply Forall2_lookup_lr).
  destruct (accept_window size MAX_SEQUENCE_NUMBER Hfits d w Hof Hacc) as (d' & Hacc' & Hof');
    [by rewrite Hseq|by rewrite Hseq|]. rewrite Hseq in Hof'.
  unfold mbind, st_bind, detector_accept. st_run. unfold tracked in Hd. cbn [fst snd] in Hd.
  unfold index. rewrite Hd, Hacc'. cbn [lift_detector]. apply Hk. unfold tracked, set.
  cbn [rc_replay_detector rc_replay_protection_window rc_decrypted]. split_and!; [|done|done].
  cbn [fst snd]. unfold accept_seq. rewrite list_insert_alter. apply Forall2_alter; [done|].
  intros x y _ Hy _. unfold windows in *. by replace y with w by congruence.
Qed.

(** [delivered Q ws ws' ..]: nothing was delivered, or one message with [Q],
    whose number is then in the window of its epoch. *)
Definition post (ws : list Window) (decrypted : list bytes) (e : nat) (seq : Z) (Q : bytes -> Prop)
    (t : list SlidingWindowDetector * Z * list bytes) : Prop :=
  exists ws', grows ws ws' /\
  (windows ws' decrypted t
   \/ exists a w, Q a /\ windows ws' (decrypted ++ [a]) t /\ ws' !! e = Some w /\ seq ∈ w_seen w).

(** The payload of a plain record, if it is application data *)
Definition carries_data (pkt a : bytes) : Prop :=
  exists r rest, RecordLayer_unmarshal pkt = Ok (r, rest) /\ rl_content r = CoApplicationData (mkApplicationData a).

Lemma checked_post ws decrypted e seq Q t : checked ws decrypted e seq t -> post ws decrypted e seq Q t.
Proof. intros [H _]. exists ws. split; [apply grows_refl|by left]. Qed.

Lemma windows_post ws ws' decrypted e seq Q t : grows ws ws' -> windows ws' decrypted t -> post ws decrypted e seq Q t.
Proof. intros Hg H. exists ws'. split; [done|by left]. Qed.

Lemma handle_record_post ws decrypted epoch h pkt enqueue seq :
  after (checked ws decrypted (Z.to_nat (rl_epoch h)) seq) (handle_record epoch h pkt enqueue)
    (post ws decrypted (Z.to_nat (rl_epoch h)) seq (fun a => rl_epoch h <> 0 /\ carries_data pkt a)).
Proof using Hfits.
  set (e := Z.to_nat (rl_epoch h)). set (Q := fun a => _).
  pose proof (fun t => checked_post ws decrypted e seq Q t) as Himp.
  assert (forall t, windows (accept_seq ws e seq) decrypted t -> post ws decrypted e seq Q t) as Himp2
    by (intros t; apply windows_post, grows_accept).
  unfold handle_record. destruct (RecordLayer_unmarshal pkt) as [[r rest]|err| |] eqn:Hr; [|after_tac Himp..].
  destruct (rl_content r) as [|a|hs|[a]] eqn:Hc.
  - apply after_bind; [exact Himp|stab|]. intros [|]; [after_tac Himp|].
    apply after_bind; [exact Himp|stab|intros n]. apply after_bind; [exact Himp|stab|intros n'].
    case_match; [|after_tac Himp]. apply after_bind; [exact Himp|stab|intros []].
    apply detector_accept_after. intros []. after_tac Himp2.
  - apply detector_accept_after. intros []. after_tac Himp2.
  - after_tac Himp.
  - destruct (Z.eqb_spec (rl_epoch h) 0) as [|He]; [after_tac Himp|].
    intros c Hcheck. pose proof Hcheck as (_ & d & w & _ & Hw & _).
    revert c Hcheck. apply detector_accept_after. intros [] c (Hws & Hsize & Hdec).
    st_run. unfold tracked, set. cbn [rc_replay_detector rc_replay_protection_window rc_decrypted snd].
    exists (accept_seq ws e seq). split; [apply grows_accept|]. right. exists a, (window_add w seq). split_and!.
    + split; [done|]. by exists r, rest.
    + split_and!; [exact Hws|exact Hsize|]. cbn [snd]. unfold tracked in Hdec. cbn [snd] in Hdec. by rewrite Hdec.
    + unfold accept_seq. by rewrite list_lookup_alter_eq, Hw.
    + cbn. set_solver.
Qed.

Lemma handle_plain_post fuel ws decrypted epoch h pkt enqueue seq :
  after (checked ws decrypted (Z.to_nat (rl_epoch h)) seq) (handle_plain fuel epoch h pkt enqueue)
    (post ws decrypted (Z.to_nat (rl_epoch h)) seq (fun a => rl_epoch h <> 0 /\ carries_data pkt a)).
Proof using Hfits.
  unfold handle_plain. apply after_bind; [apply checked_post|auto with stable|].
  intros [[|]|]; [|apply handle_record_post|apply after_stable; [apply checked_post|stab]].
  apply detector_accept_after. intros [].
  assert (forall t, windows (accept_seq ws (Z.to_nat (rl_epoch h)) seq) decrypted t ->
    post ws decrypted (Z.to_nat (rl_epoch h)) seq (fun a => rl_epoch h <> 0 /\ carries_data pkt a) t) as Himp2
    by (intros t; apply windows_post, grows_accept).
  after_tac Himp2.
Qed.

Lemma detector_check_spec c ws decrypted e seq w : windows ws decrypted (tracked c) -> ws !! e = Some w -> 0 <= seq ->
  exists c', detector_check e seq c = (Ok (bool_decide (window_fresh size MAX_SEQUENCE_NUMBER w seq)), c')
  /\ rc_cipher_suite c' = rc_cipher_suite c /\ rc_remote_epoch c' = rc_remote_epoch c
  /\ windows ws decrypted (tracked c')
  /\ (window_fresh size MAX_SEQUENCE_NUMBER w seq -> checked ws decrypted e seq (tracked c')).
Proof using Hfits.
  intros (Hws & Hsize & Hdec) Hw Hpos. destruct (Forall2_lookup_r _ _ _ _ _ Hws Hw) as (d & Hd & Hof).
  destruct (check_window size MAX_SEQUENCE_NUMBER Hfits d w seq Hof Hpos) as (d' & Hcheck & Hof' & Hacc & Hseq).
  unfold tracked in Hd. cbn [fst snd] in Hd.
  unfold detector_check. st_run. unfold index. rewrite Hd. st_run. rewrite Hcheck. cbn [lift_detector]. st_run.
  eexists. split; [reflexivity|]. unfold tracked, set.
  cbn [rc_replay_detector rc_replay_protection_window rc_decrypted rc_cipher_suite rc_remote_epoch].
  assert (windows ws decrypted (<[e:=d']> (rc_replay_detector c), rc_replay_protection_window c, rc_decrypted c)) as Hwin.
  { split_and!; [|exact Hsize|exact Hdec]. cbn [fst snd]. rewrite <- (list_insert_id ws e w) by done.
    by apply Forall2_insert. }
  split_and!; [done|done|exact Hwin|]. intros Hf. rewrite bool_decide_true in Hacc by done. split; [exact Hwin|].
  exists d', w. cbn [fst snd]. split_and!; try done; [|by apply Hseq].
  apply list_lookup_insert_eq. by eapply lookup_lt_Some.
Qed.

(** [extend_detectors] adds empty windows. *)
Definition extend_windows (e : nat) (ws : list Window) : list Window :=
  ws ++ replicate (S e - length ws) (mkWindow 0 ∅).

Lemma extend_windows_spec e c ws decrypted : windows ws decrypted (tracked c) ->
  windows (extend_windows e ws) decrypted (tracked (extend_detectors e c)).
Proof using Hfits.
  intros (Hws & Hsize & Hdec). unfold extend_detectors, tracked, set, windows.
  cbn [rc_replay_detector rc_replay_protection_window rc_decrypted fst snd].
  unfold tracked in Hws, Hsize, Hdec. cbn [fst snd] in *. split_and!; [|done|done]. unfold extend_windows.
  rewrite (Forall2_length _ _ _ Hws), Hsize. apply Forall2_app; [done|].
  apply Forall2_replicate. apply new_window, Hfits.
Qed.
End windows.

Lemma grows_extend e ws : grows ws (extend_windows e ws).
Proof.
  intros e' w H. exists w. split; [|done]. unfold extend_windows. rewrite lookup_app_l; [done|]. by eapply lookup_lt_Some.
Qed.

Lemma extend_windows_lookup e ws : exists w, extend_windows e ws !! e = Some w
  /\ (forall w0, ws !! e = Some w0 -> w0 = w).
Proof.
  unfold extend_windows. destruct (ws !! e) as [w|] eqn:He.
  - exists w. split; [|by intros w0 [= ->]]. rewrite lookup_app_l; [done|]. by eapply lookup_lt_Some.
  - exists (mkWindow 0 ∅). split; [|done]. apply lookup_ge_None in He. rewrite lookup_app_r by done.
    apply lookup_replicate_2. lia.
Qed.

Lemma rd_bind_Ok {A B} (p : Rd A) (f : A -> Rd B) r b r' :
  (p ≫= f) r = Ok (b, r') -> exists a r1, p r = Ok (a, r1) /\ f a r1 = Ok (b, r').
Proof. unfold mbind, rd_bind. destruct (p r) as [[a r1]| | |]; try done. eauto. Qed.

Lemma read_exact_Ok n r l r' : read_exact n r = Ok (l, r') -> length l = n.
Proof.
  unfold read_exact. destruct (Nat.ltb_spec (length r) n); [done|]. intros [= <- <-]. rewrite length_take. lia.
Qed.

Lemma read_uint_Ok n r z r' : read_uint n r = Ok (z, r') -> 0 <= z < 2 ^ (8 * Z.of_nat n).
Proof.
  intros H. apply rd_bind_Ok in H as (l & r1 & Hl & H). injection H as <- <-.
  apply read_exact_Ok in Hl. rewrite <- Hl. apply from_be_bytes_range.
Qed.

(** What the parser of the record header guarantees *)
Lemma header_ranges pkt h rest : RecordLayerHeader_unmarshal pkt = Ok (h, rest) ->
  0 <= rl_epoch h < 65536 /\ 0 <= rl_sequence_number h <= MAX_SEQUENCE_NUMBER.
Proof.
  intros H. apply rd_bind_Ok in H as (t & r1 & _ & H). apply rd_bind_Ok in H as (v & r2 & _ & H).
  apply rd_bind_Ok in H as (e & r3 & He & H). apply rd_bind_Ok in H as (be & r4 & Hbe & H).
  apply read_uint_Ok in He. apply read_exact_Ok in Hbe.
  destruct (_ && _); [done|]. apply rd_bind_Ok in H as (n & r5 & _ & H). injection H as <- <-. cbn [rl_epoch rl_sequence_number].
  split; [exact He|]. change (Byte.x00 :: Byte.x00 :: be) with ([Byte.x00; Byte.x00] ++ be).
  rewrite from_be_bytes_app, Hbe. pose proof (from_be_bytes_range be) as Hr. rewrite Hbe in Hr.
  change (from_be_bytes [Byte.x00; Byte.x00]) with 0. unfold MAX_SEQUENCE_NUMBER.
  change (2 ^ (8 * Z.of_nat 6)) with 281474976710656 in *. lia.
Qed.

(** * The reader as a state machine *)

(** A message handed to [decrypted_tx]: the packet it came in, under which
    cipher suite, the number of its record, and the data. *)
Record Delivery := mkDelivery {
  dl_packet : bytes;
  dl_cipher_suite : option CipherSuite;
  dl_epoch : Z;
  dl_sequence_number : Z;
  dl_data : bytes
}.

(** The deliveries of a call, read off the states before and after *)
Definition deliveries (pkt : bytes) (c c' : ConnReaderContext) : list Delivery :=
  match RecordLayerHeader_unmarshal pkt with
  | Ok (h, _) =>
      map (mkDelivery pkt (rc_cipher_suite c) (rl_epoch h) (rl_sequence_number h))
        (drop (length (rc_decrypted c)) (rc_decrypted c'))
  | _ => []
  end.

(** A step: a packet from the network or from the queue is handled, or the
    handshake, which runs beside the reader, sets a cipher suite, the epoch or
    the cache, or takes the queued packets. *)
Inductive reader_step {P : Profile} : ConnReaderContext -> list Delivery -> ConnReaderContext -> Prop :=
  | step_packet c fuel pkt enqueue :
      let c' := snd (handle_incoming_packet fuel pkt enqueue c) in
      reader_step c (deliveries pkt c c') c'
  | step_handshake c cipher_suite remote_epoch cache encrypted_packets alerts :
      reader_step c []
        (c <| rc_cipher_suite := cipher_suite |> <| rc_remote_epoch := remote_epoch |>
           <| rc_cache := cache |> <| rc_encrypted_packets := encrypted_packets |> <| rc_alerts := alerts |>).

Inductive reader_run {P : Profile} : ConnReaderContext -> list Delivery -> ConnReaderContext -> Prop :=
  | run_nil c : reader_run c [] c
  | run_step c ds c' ds' c'' : reader_run c ds c' -> reader_step c' ds' c'' -> reader_run c (ds ++ ds') c''.

(** [authentic d]: the packet of the delivery decrypts, under an initialised
    cipher suite, to a record of application data with the delivered data. *)
Definition authentic (d : Delivery) : Prop :=
  dl_epoch d <> 0 /\ exists h rest cs plain,
  RecordLayerHeader_unmarshal (dl_packet d) = Ok (h, rest)
  /\ rl_epoch h = dl_epoch d /\ rl_sequence_number h = dl_sequence_number d
  /\ dl_cipher_suite d = Some cs /\ cs_is_initialized cs = true
  /\ cs_decrypt cs (dl_packet d) = Ok plain /\ carries_data plain (dl_data d).

(** The first call of a program, when it cannot fail *)
Lemma st_get_bind {S E A B} (f : S -> A) (k : A -> ST S E B) s : (st_get f ≫= k) s = k (f s) s.
Proof. done. Qed.

Lemma st_modify_bind {S E B} (f : S -> S) (k : unit -> ST S E B) s : (st_modify f ≫= k) s = k tt (f s).
Proof. done. Qed.

Lemma st_bind_ok {S E A B} (m : ST S E A) (k : A -> ST S E B) s a s' : m s = (Ok a, s') -> (m ≫= k) s = k a s'.
Proof. intros H. unfold mbind, st_bind. by rewrite H. Qed.

Section reader.
Context {P : Profile} (size : Z) (Hfits : window_fits size MAX_SEQUENCE_NUMBER).

(** What a packet does: the windows grow; at most one message is delivered,
    authentic and with a number that was not in the window before. *)
Definition incoming_post (pkt : bytes) (c : ConnReaderContext) (ws : list Window) (decrypted : list bytes)
    (t : list SlidingWindowDetector * Z * list bytes) : Prop :=
  exists ws', grows ws ws' /\ (windows size ws' decrypted t
  \/ exists h rest a w, RecordLayerHeader_unmarshal pkt = Ok (h, rest)
     /\ authentic (mkDelivery pkt (rc_cipher_suite c) (rl_epoch h) (rl_sequence_number h) a)
     /\ windows size ws' (decrypted ++ [a]) t
     /\ ws' !! Z.to_nat (rl_epoch h) = Some w /\ rl_sequence_number h ∈ w_seen w
     /\ (forall w0, ws !! Z.to_nat (rl_epoch h) = Some w0 -> rl_sequence_number h ∉ w_seen w0)).

(** From the check of the detector on: the number is fresh. *)
Lemma fresh_not_seen d w seq : window_of size MAX_SEQUENCE_NUMBER d w ->
  window_fresh size MAX_SEQUENCE_NUMBER w seq -> seq ∉ w_seen w.
Proof. intros Hof [_ [Hlt|[_ Hn]]] Hin; [|done]. apply (wo_seen _ _ _ _ Hof) in Hin. lia. Qed.

Lemma handle_incoming_post fuel pkt enqueue c ws decrypted : windows size ws decrypted (tracked c) ->
  incoming_post pkt c ws decrypted (tracked (snd (handle_incoming_packet fuel pkt enqueue c))).
Proof using Hfits.
  intros Hwin. set (Post := incoming_post pkt c ws decrypted).
  assert (forall t, windows size ws decrypted t -> Post t) as Himp
    by (intros t Ht; exists ws; split; [apply grows_refl|by left]).
  unfold handle_incoming_packet.
  destruct (RecordLayerHeader_unmarshal pkt) as [[h rest]|err| |] eqn:Hh; try by apply Himp.
  pose proof (header_ranges _ _ _ Hh) as [_ [Hpos _]].
  set (e := Z.to_nat (rl_epoch h)) in *. set (seq := rl_sequence_number h) in *.
  rewrite st_get_bind. destruct (rc_remote_epoch c <? rl_epoch h).
  { revert Hwin. apply (fun H : after _ _ Post => H c). after_tac Himp. }
  rewrite st_modify_bind.
  destruct (extend_windows_lookup e ws) as (w & Hw & Hold). apply (extend_windows_spec size Hfits e) in Hwin.
  destruct (detector_check_spec size Hfits (extend_detectors e c) (extend_windows e ws) decrypted e seq w Hwin Hw Hpos)
    as (c2 & Hcheck & Hcs & _ & Hwin2 & Hfresh).
  rewrite (st_bind_ok _ _ _ _ _ Hcheck). change (rc_cipher_suite (extend_detectors e c)) with (rc_cipher_suite c) in Hcs.
  assert (forall t, windows size (extend_windows e ws) decrypted t -> Post t) as Himp2
    by (intros t Ht; exists (extend_windows e ws); split; [apply grows_extend|by left]).
  case_bool_decide as Hf; cbn [negb]; [|by apply Himp2]. specialize (Hfresh Hf).
  assert (forall plain, post size (extend_windows e ws) decrypted e seq (fun a => rl_epoch h <> 0 /\ carries_data plain a)
            (tracked (snd (handle_plain fuel (rc_remote_epoch c) h plain enqueue c2)))) as Hplain
    by (intros plain; by apply (handle_plain_post size Hfits)).
  destruct (Z.eqb_spec (rl_epoch h) 0) as [He|He]; cbn [negb].
  - destruct (Hplain pkt) as (ws' & Hg & [Hq|(a & w' & [? _] & _)]); [|done]. exists ws'. split; [|by left].
    eapply grows_trans; [apply grows_extend|exact Hg].
  - rewrite !st_get_bind. unfold invalid_cipher_suite. rewrite Hcs.
    assert (Post (tracked (snd ((_ ← enqueue_packet enqueue pkt; mret nothing) c2)))) as Henq
      by (revert Hwin2; apply (fun H : after _ _ Post => H c2); after_tac Himp2).
    destruct (rc_cipher_suite c) as [cs|] eqn:Hcs0; [|exact Henq].
    destruct (cs_is_initialized cs) eqn:Hi; cbn [negb]; [|exact Henq].
    destruct (cs_decrypt cs pkt) as [plain|err| |] eqn:Hd; try by apply Himp2.
    destruct (Hplain plain) as (ws' & Hg & Hcase). exists ws'.
    split; [eapply grows_trans; [apply grows_extend|exact Hg]|].
    destruct Hcase as [Hq|(a & w' & [_ Hcar] & Hwin' & Hw' & Hin)]; [by left|]. right.
    exists h, rest, a, w'. rewrite Hcs0. split_and!; try done.
    + split; [exact He|]. by exists h, rest, cs, plain.
    + intros w0 Hw0. rewrite (Hold w0 Hw0). destruct Hwin as (Hws & _).
      destruct (Forall2_lookup_r _ _ _ _ _ Hws Hw) as (d & _ & Hof). by eapply fresh_not_seen.
Qed.

(** The invariant of the runs: the deliveries so far are authentic, all
    different, and in the windows. *)
Definition reader_inv (ds : list Delivery) (c : ConnReaderContext) : Prop :=
  exists ws, windows size ws (map dl_data ds) (tracked c)
  /\ NoDup (map (fun d => (dl_epoch d, dl_sequence_number d)) ds) /\ Forall authentic ds
  /\ Forall (fun d => exists w, ws !! Z.to_nat (dl_epoch d) = Some w /\ dl_sequence_number d ∈ w_seen w
                      /\ 0 <= dl_epoch d) ds.

Lemma reader_step_inv ds c ds' c' : reader_inv ds c -> reader_step c ds' c' -> reader_inv (ds ++ ds') c'.
Proof using Hfits.
  intros (ws & Hwin & Hnd & Hauth & Hin) Hstep. destruct Hstep as [c fuel pkt enqueue c'|c cs re cache q al].
  - destruct (handle_incoming_post fuel pkt enqueue c ws (map dl_data ds) Hwin) as (ws' & Hg & Hcase).
    fold c' in Hcase. assert (rc_decrypted c = map dl_data ds) as Hdec by (by destruct Hwin as (_ & _ & ?)).
    assert (Forall (fun d => exists w, ws' !! Z.to_nat (dl_epoch d) = Some w /\ dl_sequence_number d ∈ w_seen w
                      /\ 0 <= dl_epoch d) ds) as Hin'.
    { eapply Forall_impl; [exact Hin|]. intros d (w & Hw & Hs & Hp). destruct (Hg _ _ Hw) as (w' & Hw' & Hsub).
      exists w'. split_and!; [done|by apply Hsub|done]. }
    destruct Hcase as [Hq|(h & rest & a & w & Hh & Ha & Hq & Hw & Hseen & Hold)].
    + assert (deliveries pkt c c' = []) as ->.
      { unfold deliveries. destruct (RecordLayerHeader_unmarshal pkt) as [[h r]| | |]; try done.
        destruct Hq as (_ & _ & Hd). unfold tracked in Hd. cbn in Hd. rewrite Hd, Hdec, drop_ge by lia. done. }
      rewrite app_nil_r. by exists ws'.
    + set (d := mkDelivery pkt (rc_cipher_suite c) (rl_epoch h) (rl_sequence_number h) a) in *.
      assert (deliveries pkt c c' = [d]) as ->.
      { unfold deliveries. rewrite Hh. destruct Hq as (_ & _ & Hd). unfold tracked in Hd. cbn in Hd.
        rewrite Hd, Hdec, drop_app_length. done. }
      pose proof (header_ranges _ _ _ Hh) as [[Hep _] _].
      exists ws'. rewrite !map_app. split_and!; [exact Hq| |by apply Forall_app; split; [|constructor]|].
      * apply NoDup_app. split_and!; [done| |apply NoDup_singleton]. intros x Hx1 Hx2.
        apply list_elem_of_singleton in Hx2 as ->. apply list_elem_of_fmap in Hx1 as (d0 & Heq & Hd0).
        injection Heq as He Hs. apply (proj1 (Forall_forall _ _) Hin) in Hd0 as (w0 & Hw0 & Hs0 & _).
        cbn in He, Hs. apply (Hold w0); [by rewrite He|by rewrite Hs].
      * apply Forall_app. split; [done|]. constructor; [|constructor]. by exists w.
  - exists ws. rewrite app_nil_r. by split_and!.
Qed.

Lemma reader_run_inv c ds c' : reader_run c ds c' -> reader_inv [] c -> reader_inv ds c'.
Proof using Hfits.
  induction 1 as [c|c ds c' ds' c'' Hrun IH Hstep]; intros Hinv; [done|]. eapply reader_step_inv; [by apply IH|done].
Qed.
End reader.

(** C4. Application data is authentic and delivered once.  On any run of a new
    reader, with any packets from the network, whatever the handshake does to
    the cipher suite and the epoch between them: each message it hands over
    came in a packet of an epoch other than zero, that decrypts under the
    cipher suite then set to that message; and no two messages have the same
    epoch and sequence number.  (A window as of [replay_detector_refines]; the
    default is one.) *)
Theorem application_data_authentic_once {P : Profile} is_client size ds c :
  window_fits size MAX_SEQUENCE_NUMBER ->
  reader_run (ConnReaderContext_new is_client size) ds c ->
  rc_decrypted c = map dl_data ds /\ Forall authentic ds
  /\ NoDup (map (fun d => (dl_epoch d, dl_sequence_number d)) ds).
Proof.
  intros Hfits Hrun. apply (reader_run_inv size Hfits) in Hrun as (ws & Hwin & Hnd & Hauth & _).
  - by destruct Hwin as (_ & _ & ?).
  - exists []. split_and!; [|constructor..]. by split_and!; [constructor|..].
Qed.

(** * A packet in the clear *)
Section clear.
Context {P : Profile} (size : Z) (Hfits : window_fits size MAX_SEQUENCE_NUMBER).

(** The record of an alert as anyone can write it: epoch zero, no encryption. *)
Definition clear_alert (seq : Z) (a : Alert) : RecordLayer :=
  (RecordLayer_new PROTOCOL_VERSION1_2 0 (CoAlert a)) <| rl_header ::= fun h => h <| rl_sequence_number := seq |> |>.

Lemma clear_alert_wf seq a : 0 <= seq <= MAX_SEQUENCE_NUMBER -> RecordLayer_wf (clear_alert seq a).
Proof.
  intros H. repeat split; try done; try (by right); try (cbn; lia); apply H.
Qed.

(** What the caller is given: [handle_incoming_packet] answers a close notify
    with one of its own. *)
Definition alert_answer (a : Alert) : Alert :=
  if bool_decide (al_alert_description a = CloseNotify) then mkAlert AlWarning CloseNotify else a.

Lemma clear_alert_incoming fuel enqueue seq a pkt c ws decrypted w :
  RecordLayer_marshal (clear_alert seq a) = Ok pkt -> 0 <= seq <= MAX_SEQUENCE_NUMBER ->
  windows size ws decrypted (tracked c) -> extend_windows 0 ws !! 0%nat = Some w ->
  window_fresh size MAX_SEQUENCE_NUMBER w seq -> 0 <= rc_remote_epoch c ->
  fst (handle_incoming_packet fuel pkt enqueue c)
  = Ok (false, Some (alert_answer a), Some (ErrOther "Error of Alert")).
Proof using Hfits.
  intros Hm Hseq Hwin Hw Hf Hepoch. pose proof (clear_alert_wf seq a Hseq) as Hwf.
  destruct (RecordLayer_codec _ Hwf) as (pkt' & Hm' & _ & _ & Hu). assert (pkt' = pkt) as -> by congruence.
  destruct (RecordLayerHeader_codec _ (proj1 Hwf)) as (hb & Hhb & _ & Hr).
  assert (RecordLayerHeader_unmarshal pkt = Ok (rl_header (clear_alert seq a), Alert_marshal a)) as Hh.
  { unfold RecordLayer_marshal in Hm. rewrite Hhb in Hm. cbn in Hm. injection Hm as <-. apply Hr. }
  unfold handle_incoming_packet. rewrite Hh. cbn [rl_header clear_alert RecordLayer_new set rl_epoch rl_sequence_number].
  rewrite st_get_bind. replace (rc_remote_epoch c <? 0) with false by (symmetry; apply Z.ltb_ge; lia).
  rewrite st_modify_bind. apply (extend_windows_spec size Hfits 0) in Hwin. change (Z.to_nat 0) with 0%nat.
  destruct (detector_check_spec size Hfits (extend_detectors 0 c) _ decrypted 0 seq w Hwin Hw (proj1 Hseq))
    as (c2 & Hcheck & _ & _ & _ & Hchecked). specialize (Hchecked Hf).
  rewrite (st_bind_ok _ _ _ _ _ Hcheck), bool_decide_true by done. cbn [negb Z.eqb].
  unfold handle_plain.
  assert (on_fragments (FragmentBuffer_push pkt) c2 = (Ok (Some false), c2)) as Hpush.
  { unfold on_fragments, FragmentBuffer_push. st_run. rewrite Hh. cbn. by destruct c2. }
  rewrite (st_bind_ok _ _ _ _ _ Hpush). unfold handle_record. rewrite Hu. cbn [rl_content clear_alert RecordLayer_new set].
  assert (exists c3, detector_accept 0 c2 = (Ok tt, c3)) as [c3 Hacc].
  { destruct Hchecked as ((Hws & _) & d & w' & Hd & Hw' & Ha & Hs & Hp & Hfr).
    assert (window_of size MAX_SEQUENCE_NUMBER d w') as Hof by (by eapply Forall2_lookup_lr).
    destruct (accept_window size MAX_SEQUENCE_NUMBER Hfits d w' Hof Ha) as (d' & Hacc & _);
      [by rewrite Hs|by rewrite Hs|]. unfold detector_accept. st_run. unfold tracked in Hd. cbn in Hd.
    unfold index. rewrite Hd, Hacc. by eexists. }
  cbn [rl_header rl_epoch]. change (Z.to_nat 0) with 0%nat. by rewrite (st_bind_ok _ _ _ _ _ Hacc).
Qed.

(** Before and after the handshake, whatever the cipher suite: a datagram
    with a fatal alert or a close notify in the clear, which anyone can send,
    ends the connection.  Its epoch is zero, so nothing is decrypted, and the
    reader leaves with [ErrAlertFatalOrClose]. *)
Theorem clear_alert_closes fuel local_epoch handshake_completed seq a c ws decrypted :
  windows size ws decrypted (tracked c) -> 0 <= rc_remote_epoch c ->
  (forall w, extend_windows 0 ws !! 0%nat = Some w -> window_fresh size MAX_SEQUENCE_NUMBER w seq) ->
  0 <= seq <= MAX_SEQUENCE_NUMBER -> al_alert_level a = AlFatal \/ al_alert_description a = CloseNotify ->
  exists pkt, RecordLayer_marshal (clear_alert seq a) = Ok pkt
  /\ fst (handle_datagram local_epoch handshake_completed fuel pkt c) = Err ErrAlertFatalOrClose.
Proof using Hfits.
  intros Hwin Hepoch Hf Hseq Ha. pose proof (clear_alert_wf seq a Hseq) as Hwf.
  destruct (RecordLayer_codec _ Hwf) as (pkt & Hm & Hlen & H2 & _). exists pkt. split; [exact Hm|].
  destruct (extend_windows_lookup 0 ws) as (w & Hw & _).
  pose proof (clear_alert_incoming fuel true seq a pkt c ws decrypted w Hm Hseq Hwin Hw (Hf w Hw) Hepoch) as Hin.
  assert (unpack_datagram pkt = Ok [pkt]) as Hunpack.
  { pose proof (unpack_records_concat (length pkt) [] [pkt]) as H. cbn [concat app length] in H.
    rewrite app_nil_r in H. apply H; [|done]. constructor; [|constructor]. split; [|rewrite Hlen; unfold RECORD_LAYER_HEADER_SIZE; cbn; lia].
    unfold framed_record. change (RECORD_LAYER_HEADER_SIZE - 2)%nat with 11%nat.
    rewrite H2, from_be_bytes_u16 by (vm_compute; done). rewrite Hlen. done. }
  unfold handle_datagram. st_run. rewrite Hunpack. cbn [st_fold]. st_run.
  destruct (handle_incoming_packet fuel pkt true c) as [[o|e| |] c1]; cbn in Hin; try done. injection Hin as ->.
  unfold answer. st_run. unfold alert_answer.
  destruct (decide (al_alert_description a = CloseNotify)) as [Hd|Hd].
  - by rewrite (bool_decide_true _ Hd).
  - rewrite (bool_decide_false _ Hd). destruct Ha as [Ha|Ha]; [|done]. by rewrite (bool_decide_true _ Ha).
Qed.
End clear.

Section sample.
Local Existing Instance dev_profile.

Lemma default_window_fits : window_fits DEFAULT_REPLAY_PROTECTION_WINDOW MAX_SEQUENCE_NUMBER.
Proof. by split; vm_compute. Qed.

(** A null cipher: it leaves the packets as they are. *)
Definition null_cipher : CipherSuite := mkCipherSuite true (fun _ raw => Ok raw) (fun p => Ok p).

Definition data_packet (epoch seq : Z) (data : list Z) : bytes :=
  map byte_of_u8 ([23; 0xfe; 0xfd; 0; epoch; 0; 0; 0; 0; 0; seq; 0; Z.of_nat (length data)] ++ data).

Definition sample_reader : ConnReaderContext :=
  (ConnReaderContext_new true DEFAULT_REPLAY_PROTECTION_WINDOW) <| rc_cipher_suite := Some null_cipher |>
    <| rc_remote_epoch := 1 |> <| rc_cache := [] |> <| rc_encrypted_packets := [] |> <| rc_alerts := [] |>.

(** The handshake installs the cipher, and a packet arrives twice. *)
Lemma application_data_authentic_once_witness : exists ds c,
  reader_run (ConnReaderContext_new true DEFAULT_REPLAY_PROTECTION_WINDOW) ds c
  /\ map dl_data ds = [map byte_of_u8 [104; 105]]
  /\ rc_decrypted c = map dl_data ds /\ Forall authentic ds
  /\ NoDup (map (fun d => (dl_epoch d, dl_sequence_number d)) ds).
Proof.
  set (pkt := data_packet 1 5 [104; 105]).
  pose (step := fun c => snd (handle_incoming_packet 5 pkt true c)).
  assert (reader_run (ConnReaderContext_new true DEFAULT_REPLAY_PROTECTION_WINDOW)
    ((([] ++ []) ++ deliveries pkt sample_reader (step sample_reader))
     ++ deliveries pkt (step sample_reader) (step (step sample_reader))) (step (step sample_reader))) as Hrun.
  { eapply run_step; [eapply run_step; [eapply run_step; [apply run_nil|]|]|].
    - apply step_handshake.
    - apply (step_packet sample_reader 5 pkt true).
    - apply (step_packet (step sample_reader) 5 pkt true). }
  eexists _, _. split; [exact Hrun|]. split; [vm_compute; reflexivity|].
  exact (application_data_authentic_once true _ _ _ default_window_fits Hrun).
Defined.

(** A connection with a cipher, in epoch one, and nothing received yet. *)
Lemma clear_alert_closes_witness : exists pkt,
  RecordLayer_marshal (clear_alert 7 (mkAlert AlFatal InternalError)) = Ok pkt
  /\ fst (handle_datagram 1 true 5 pkt sample_reader) = Err ErrAlertFatalOrClose.
Proof.
  apply (clear_alert_closes DEFAULT_REPLAY_PROTECTION_WINDOW default_window_fits 5 1 true 7
           (mkAlert AlFatal InternalError) sample_reader [] []).
  - by split_and!; [constructor|..].
  - cbn. lia.
  - intros w [= <-]. split; [vm_compute; discriminate|left; cbn; lia].
  - unfold MAX_SEQUENCE_NUMBER. lia.
  - by left.
Defined.
End sample.
