(* ===== verification/DtlsCrypto.v ===== *)
(** The cryptography of the DTLS crate: [prf/mod.rs], [crypto/], [curve/named_curve.rs]
    and the cipher suites of [cipher_suite/].

    The primitives (ring, RustCrypto, x25519-dalek, x509-parser, webpki) are the
    class [Primitives]; everything the crate does around them is written out:
    key derivation, additional data, record layout, padding, choice of the
    verification algorithm.  Secret keys and nonces are drawn from random bytes
    that the caller gives. *)
From Stdlib Require Import Strings.String.
From S2P Require Import Prelude Utf8 DtlsTypes DtlsHandshake DtlsRecord DtlsCache DtlsConn.

Inductive AeadAlgorithm : Type := Aes128Gcm | AesCcm | AesCcm8.

Inductive VerificationAlgorithm : Type :=
  | ED25519
  | ECDSA_P256_SHA256_ASN1
  | ECDSA_P384_SHA384_ASN1
  | RSA_PKCS1_1024_8192_SHA1_FOR_LEGACY_USE_ONLY
  | RSA_PKCS1_2048_8192_SHA256
  | RSA_PKCS1_2048_8192_SHA384
  | RSA_PKCS1_2048_8192_SHA512.

(** The calls into other crates; a [string] is the text of their error. *)
Class Primitives := {
  sha256 : bytes -> bytes;
  hmac_sha256 : bytes -> bytes -> res string bytes;
  hmac_sha1 : bytes -> bytes -> res string bytes;
  (** [encrypt_in_place] and [decrypt_in_place]: key, nonce, additional data, text *)
  aead_seal : AeadAlgorithm -> bytes -> bytes -> bytes -> bytes -> res string bytes;
  aead_open : AeadAlgorithm -> bytes -> bytes -> bytes -> bytes -> res string bytes;
  (** AES-256 in CBC mode on whole blocks: key, initialisation vector, text *)
  cbc_encrypt_blocks : bytes -> bytes -> bytes -> bytes;
  cbc_decrypt_blocks : bytes -> bytes -> bytes -> bytes;
  (** the public key of a secret; the point a public key encodes, if it does; the shared secret *)
  p256_public : bytes -> bytes;
  p256_point : bytes -> option bytes;
  p256_diffie_hellman : bytes -> bytes -> bytes;
  x25519_public : bytes -> bytes;
  x25519_diffie_hellman : bytes -> bytes -> bytes;
  (** [parse_x509_certificate], as far as the subject's public key *)
  x509_public_key : bytes -> res string bytes;
  (** [UnparsedPublicKey::verify]: key, message, signature *)
  verify_with : VerificationAlgorithm -> bytes -> bytes -> bytes -> res string unit;
  (** the signature of a message under a private key, with random bytes *)
  sign_with : CryptoPrivateKeyKind -> bytes -> bytes -> bytes -> res string bytes;
  (** [DNSNameRef::try_from_ascii_str] *)
  dns_name : bytes -> res string unit;
  (** [str::to_lowercase], for its Unicode tables *)
  to_lowercase : bytes -> bytes
}.

(** [map_err(|e| Error::Other(e.to_string()))] *)
Definition map_other {A} (r : res string A) : res DtlsError A :=
  match r with Ok a => Ok a | Err e => Err (ErrOther e) | Panic => Panic | OutOfFuel => OutOfFuel end.

Definition CipherSuiteHash_size : nat := 32.

Definition EncryptionKeys_len (mac key iv : nat) : nat := 2 * mac + 2 * key + 2 * iv.

(** * [prf/mod.rs] *)
Definition PRF_MASTER_SECRET_LABEL : string := "master secret".
Definition PRF_EXTENDED_MASTER_SECRET_LABEL : string := "extended master secret".
Definition PRF_KEY_EXPANSION_LABEL : string := "key expansion".
Definition PRF_VERIFY_DATA_CLIENT_LABEL : string := "client finished".
Definition PRF_VERIFY_DATA_SERVER_LABEL : string := "server finished".

Record EncryptionKeys := mkEncryptionKeys {
  ek_master_secret : bytes;
  ek_client_mac_key : bytes;
  ek_server_mac_key : bytes;
  ek_client_write_key : bytes;
  ek_server_write_key : bytes;
  ek_client_write_iv : bytes;
  ek_server_write_iv : bytes
}.

Inductive NamedCurvePrivateKey : Type := EphemeralSecretP256 (secret : bytes) | StaticSecretX25519 (secret : bytes).

Record NamedCurveKeypair := mkNamedCurveKeypair {
  kp_curve : NamedCurve;
  kp_public_key : bytes;
  kp_private_key : NamedCurvePrivateKey
}.

Record CryptoPrivateKey := mkCryptoPrivateKey { pk_kind : CryptoPrivateKeyKind; pk_serialized_der : bytes }.

Record Certificate := mkCertificate { ct_certificate : list bytes; ct_private_key : CryptoPrivateKey }.

Definition prf_psk_pre_master_secret (psk : bytes) : bytes :=
  let be := write_u16 (len_as 16 psk) in
  be ++ replicate (length psk) Byte.x00 ++ be ++ psk.

Section crypto.
Context {C : Primitives}.

Definition elliptic_curve_keypair (random : bytes) (curve : NamedCurve) : res DtlsError NamedCurveKeypair :=
  match curve with
  | P256 => Ok (mkNamedCurveKeypair curve (p256_public random) (EphemeralSecretP256 random))
  | X25519 => Ok (mkNamedCurveKeypair curve (x25519_public random) (StaticSecretX25519 random))
  | _ => Err ErrInvalidNamedCurve
  end.

Definition generate_keypair (random : bytes) (curve : NamedCurve) : res DtlsError NamedCurveKeypair :=
  match curve with
  | X25519 => elliptic_curve_keypair random X25519
  | P256 => elliptic_curve_keypair random P256
  | _ => Err ErrInvalidNamedCurve
  end.

Definition elliptic_curve_pre_master_secret (public_key : bytes) (private_key : NamedCurvePrivateKey)
    (curve : NamedCurve) : res DtlsError bytes :=
  match curve with
  | P256 =>
      match p256_point public_key with
      | None => Err ErrP256
      | Some public =>
          match private_key with
          | EphemeralSecretP256 secret => Ok (p256_diffie_hellman secret public)
          | _ => Err ErrNamedCurveAndPrivateKeyMismatch
          end
      end
  | X25519 =>
      if negb (length public_key =? 32)%nat then Err (ErrOther "Public key is not 32 len")
      else
        match private_key with
        | StaticSecretX25519 secret => Ok (x25519_diffie_hellman secret public_key)
        | _ => Err ErrNamedCurveAndPrivateKeyMismatch
        end
  | _ => Err ErrInvalidNamedCurve
  end.

Definition prf_pre_master_secret (public_key : bytes) (private_key : NamedCurvePrivateKey) (curve : NamedCurve)
    : res DtlsError bytes :=
  match curve with
  | P256 => elliptic_curve_pre_master_secret public_key private_key curve
  | X25519 => elliptic_curve_pre_master_secret public_key private_key curve
  | _ => Err ErrInvalidNamedCurve
  end.

Definition hmac_sha (key data : bytes) : res DtlsError bytes := map_other (hmac_sha256 key data).

(** The loop of [prf_p_hash] *)
Fixpoint p_hash_rounds (iterations : nat) (secret seed last_round out : bytes) : res DtlsError bytes :=
  match iterations with
  | O => Ok out
  | S n =>
      last_round ← hmac_sha secret last_round;
      with_secret ← hmac_sha secret (last_round ++ seed);
      p_hash_rounds n secret seed last_round (out ++ with_secret)
  end.

(** The number of rounds is computed in [f64], where a division by 32 and its
    ceiling are exact. *)
Definition prf_p_hash (secret seed : bytes) (requested_length : nat) : res DtlsError bytes :=
  let iterations := ((requested_length + CipherSuiteHash_size - 1) / CipherSuiteHash_size)%nat in
  out ← p_hash_rounds iterations secret seed seed [];
  slice out 0 requested_length.

Definition prf_extended_master_secret (pre_master_secret session_hash : bytes) : res DtlsError bytes :=
  prf_p_hash pre_master_secret (bytes_of_string PRF_EXTENDED_MASTER_SECRET_LABEL ++ session_hash) 48.

Definition prf_master_secret (pre_master_secret client_random server_random : bytes) : res DtlsError bytes :=
  prf_p_hash pre_master_secret
    (bytes_of_string PRF_MASTER_SECRET_LABEL ++ client_random ++ server_random) 48.

(** [split_off]: the first [n] bytes and the others *)
Definition split_key (key_material : bytes) (n : nat) : res DtlsError (bytes * bytes) :=
  key ← slice key_material 0 n;
  rest ← slice_from key_material n;
  Ok (key, rest).

Definition prf_encryption_keys (master_secret client_random server_random : bytes)
    (prf_mac_len prf_key_len prf_iv_len : nat) : res DtlsError EncryptionKeys :=
  material ← prf_p_hash master_secret
    (bytes_of_string PRF_KEY_EXPANSION_LABEL ++ server_random ++ client_random)
    (EncryptionKeys_len prf_mac_len prf_key_len prf_iv_len);
  '(client_mac_key, key_material) ← split_key material prf_mac_len;
  '(server_mac_key, key_material) ← split_key key_material prf_mac_len;
  '(client_write_key, key_material) ← split_key key_material prf_key_len;
  '(server_write_key, key_material) ← split_key key_material prf_key_len;
  '(client_write_iv, key_material) ← split_key key_material prf_iv_len;
  server_write_iv ← slice key_material 0 prf_iv_len;
  Ok (mkEncryptionKeys master_secret client_mac_key server_mac_key client_write_key server_write_key
        client_write_iv server_write_iv).

Definition prf_verify_data (master_secret handshake_bodies : bytes) (label : string) : res DtlsError bytes :=
  prf_p_hash master_secret (bytes_of_string label ++ sha256 handshake_bodies) 12.

Definition prf_verify_data_client (master_secret handshake_bodies : bytes) : res DtlsError bytes :=
  prf_verify_data master_secret handshake_bodies PRF_VERIFY_DATA_CLIENT_LABEL.

Definition prf_verify_data_server (master_secret handshake_bodies : bytes) : res DtlsError bytes :=
  prf_verify_data master_secret handshake_bodies PRF_VERIFY_DATA_SERVER_LABEL.

Definition prf_mac (epoch sequence_number : Z) (content_type : ContentType) (v : ProtocolVersion)
    (payload key : bytes) : res DtlsError bytes :=
  let msg := write_u16 epoch ++ drop 2 (to_be_bytes 8 sequence_number) ++ write_wire content_type
             ++ write_version v ++ write_u16 (len_as 16 payload) in
  map_other (hmac_sha1 key (msg ++ payload)).

(** * [crypto/mod.rs] *)
Definition value_key_message (client_random server_random public_key : bytes) (named_curve : NamedCurve) : bytes :=
  client_random ++ server_random
  ++ (write_u8 3 ++ write_wire named_curve ++ write_u8 (len_as 8 public_key)) ++ public_key.

Definition generate_key_signature (random client_random server_random public_key : bytes)
    (named_curve : NamedCurve) (private_key : CryptoPrivateKey) : res DtlsError bytes :=
  map_other (sign_with (pk_kind private_key) (pk_serialized_der private_key) random
               (value_key_message client_random server_random public_key named_curve)).

Definition verification_algorithm (a : SignatureHashAlgorithm) : option VerificationAlgorithm :=
  match sha_signature a, sha_hash a with
  | SigEd25519, _ => Some ED25519
  | Ecdsa, Sha256 => Some ECDSA_P256_SHA256_ASN1
  | Ecdsa, Sha384 => Some ECDSA_P384_SHA384_ASN1
  | Rsa, Sha1 => Some RSA_PKCS1_1024_8192_SHA1_FOR_LEGACY_USE_ONLY
  | Rsa, Sha256 => Some RSA_PKCS1_2048_8192_SHA256
  | Rsa, Sha384 => Some RSA_PKCS1_2048_8192_SHA384
  | Rsa, Sha512 => Some RSA_PKCS1_2048_8192_SHA512
  | _, _ => None
  end.

Definition verify_signature (message : bytes) (hash_algorithm : SignatureHashAlgorithm)
    (remote_key_signature : bytes) (raw_certificates : list bytes) : res DtlsError unit :=
  match raw_certificates with
  | [] => Err ErrLengthMismatch
  | certificate :: _ =>
      subject_public_key ← map_other (x509_public_key certificate);
      match verification_algorithm hash_algorithm with
      | None => Err ErrKeySignatureVerifyUnimplemented
      | Some verify_alg => map_other (verify_with verify_alg subject_public_key message remote_key_signature)
      end
  end.

Definition verify_key_signature := verify_signature.
Definition verify_certificate_verify := verify_signature.

Definition generate_certificate_verify (random handshake_bodies : bytes) (private_key : CryptoPrivateKey)
    : res DtlsError bytes :=
  map_other (sign_with (pk_kind private_key) (pk_serialized_der private_key) random handshake_bodies).

Definition load_certs (raw_certificates : list bytes) : res DtlsError (list bytes) :=
  match raw_certificates with [] => Err ErrLengthMismatch | _ => Ok raw_certificates end.

(** The verifiers are objects of rustls that the configuration carries. *)
Definition verify_client_cert (raw_certificates : list bytes) (cert_verifier : list bytes -> res string unit)
    : res DtlsError (list bytes) :=
  chains ← load_certs raw_certificates;
  _ ← map_other (cert_verifier chains);
  Ok chains.

Definition verify_server_cert (raw_certificates : list bytes)
    (cert_verifier : list bytes -> bytes -> res string unit) (server_name : bytes) : res DtlsError (list bytes) :=
  chains ← load_certs raw_certificates;
  _ ← map_other (dns_name server_name);
  _ ← map_other (cert_verifier chains server_name);
  Ok chains.

Definition generate_aead_additional_data (h : RecordLayerHeader) (payload_len : Z) : bytes :=
  write_u16 (rl_epoch h) ++ drop 2 (to_be_bytes 8 (rl_sequence_number h))
  ++ write_wire (rl_content_type h) ++ write_version (rl_protocol_version h)
  ++ write_u16 (wrap 16 payload_len).
End crypto.
