(* ===== verification/DtlsCipher.v ===== *)
(** The record ciphers ([crypto/crypto_gcm.rs], [crypto/crypto_ccm.rs],
    [crypto/crypto_cbc.rs], [crypto/padding.rs]) and the cipher suites over them
    ([cipher_suite/]).

    A suite is given to the connection as the trait object [CipherSuite] of
    [DtlsConn] ([as_CipherSuite]); the nonces it draws are then a function of
    the header, which is different for every record that is sent. *)
From Stdlib Require Import Strings.String.
From S2P Require Import Prelude Utf8 DtlsTypes DtlsHandshake DtlsRecord DtlsCache DtlsConn DtlsCrypto.

Definition CRYPTO_GCM_TAG_LENGTH : nat := 16.
Definition CRYPTO_GCM_NONCE_LENGTH : nat := 12.
Definition CRYPTO_CCM_8_TAG_LENGTH : nat := 8.
Definition CRYPTO_CCM_TAG_LENGTH : nat := 16.
Definition CRYPTO_CCM_NONCE_LENGTH : nat := 12.
Definition CBC_BLOCK_SIZE : nat := 16.
Definition CBC_MAC_SIZE : nat := 20.

Record CryptoGcm := mkCryptoGcm {
  gcm_local_gcm : bytes;
  gcm_remote_gcm : bytes;
  gcm_local_write_iv : bytes;
  gcm_remote_write_iv : bytes
}.

Inductive CryptoCcmTagLen : Type := CryptoCcm8TagLength | CryptoCcmTagLength.

(** The clone of the source rebuilds the ciphers from the keys it keeps. *)
Record CryptoCcm := mkCryptoCcm {
  ccm_tag_len : CryptoCcmTagLen;
  ccm_local_write_key : bytes;
  ccm_local_write_iv : bytes;
  ccm_remote_write_key : bytes;
  ccm_remote_write_iv : bytes
}.

Record CryptoCbc := mkCryptoCbc {
  cbc_local_key : bytes;
  cbc_remote_key : bytes;
  cbc_write_mac : bytes;
  cbc_read_mac : bytes
}.

(** [GenericArray::from_slice] for a key of AES-128 *)
Definition aes128_key (key : bytes) : res DtlsError bytes := if (length key =? 16)%nat then Ok key else Panic.

Definition CryptoGcm_new (local_key local_write_iv remote_key remote_write_iv : bytes) : res DtlsError CryptoGcm :=
  local_gcm ← aes128_key local_key;
  remote_gcm ← aes128_key remote_key;
  Ok (mkCryptoGcm local_gcm remote_gcm local_write_iv remote_write_iv).

Definition CryptoCcm_new (tag_len : CryptoCcmTagLen) (local_key local_write_iv remote_key remote_write_iv : bytes)
    : res DtlsError CryptoCcm :=
  local_ccm ← aes128_key local_key;
  remote_ccm ← aes128_key remote_key;
  Ok (mkCryptoCcm tag_len local_ccm local_write_iv remote_ccm remote_write_iv).

Definition CryptoCbc_new (local_key local_mac remote_key remote_mac : bytes) : res DtlsError CryptoCbc :=
  Ok (mkCryptoCbc local_key remote_key local_mac remote_mac).

(** The record length is overwritten with the length of what follows the header. *)
Definition set_record_len (r : bytes) : res DtlsError bytes :=
  if (length r <? RECORD_LAYER_HEADER_SIZE)%nat then Panic
  else
    Ok (take (RECORD_LAYER_HEADER_SIZE - 2) r
        ++ write_u16 (wrap 16 (Z.of_nat (length r - RECORD_LAYER_HEADER_SIZE)))
        ++ drop RECORD_LAYER_HEADER_SIZE r).

(** * [crypto/padding.rs] *)

(** A block filled up to [pos], the rest of it zero *)
Definition pad_block (block : bytes) (pos : nat) : option bytes :=
  if (pos =? length block)%nat then None
  else
    let padding_length := (length block - pos - 1)%nat in
    if (255 <? padding_length)%nat then None
    else Some (take pos block ++ replicate (length block - pos) (byte_of_u8 (Z.of_nat padding_length))).

Definition unpad (data : bytes) : option bytes :=
  let padding_length := Z.to_nat (u8_of_byte (List.last data Byte.x01)) in
  if (length data <? padding_length + 1)%nat then None
  else
    let padding_begin := (length data - padding_length - 1)%nat in
    if existsb (fun b => negb (u8_of_byte b =? Z.of_nat padding_length))
         (take (length data - 1 - padding_begin) (drop padding_begin data))
    then None
    else Some (take padding_begin data).

Section ciphers.
Context {P : Profile} {C : Primitives}.

(** [encrypt] of [CryptoGcm] and of [CryptoCcm], which differ in the algorithm *)
Definition aead_encrypt (alg : AeadAlgorithm) (key write_iv random : bytes) (pkt_rlh : RecordLayerHeader)
    (raw : bytes) : res DtlsError bytes :=
  payload ← slice_from raw RECORD_LAYER_HEADER_SIZE;
  raw ← slice raw 0 RECORD_LAYER_HEADER_SIZE;
  iv ← slice write_iv 0 4;
  let additional_data := generate_aead_additional_data pkt_rlh (Z.of_nat (length payload)) in
  buffer ← map_other (aead_seal alg key (iv ++ random) additional_data payload);
  set_record_len (raw ++ random ++ buffer).

Definition aead_decrypt (alg : AeadAlgorithm) (tag_len : nat) (key write_iv : bytes) (r : bytes)
    : res DtlsError bytes :=
  '(h, _) ← RecordLayerHeader_unmarshal r;
  if bool_decide (rl_content_type h = CtChangeCipherSpec) then Ok r
  else if (length r <=? RECORD_LAYER_HEADER_SIZE + 8)%nat then Err ErrNotEnoughRoomForNonce
  else
    iv ← slice write_iv 0 4;
    explicit ← slice r RECORD_LAYER_HEADER_SIZE (RECORD_LAYER_HEADER_SIZE + 8);
    out ← slice_from r (RECORD_LAYER_HEADER_SIZE + 8);
    payload_len ← sub64 (Z.of_nat (length out)) (Z.of_nat tag_len);
    let additional_data := generate_aead_additional_data h payload_len in
    buffer ← map_other (aead_open alg key (iv ++ explicit) additional_data out);
    header ← slice r 0 RECORD_LAYER_HEADER_SIZE;
    Ok (header ++ buffer).

Definition CryptoGcm_encrypt (c : CryptoGcm) (random : bytes) : RecordLayerHeader -> bytes -> res DtlsError bytes :=
  aead_encrypt Aes128Gcm (gcm_local_gcm c) (gcm_local_write_iv c) random.

Definition CryptoGcm_decrypt (c : CryptoGcm) : bytes -> res DtlsError bytes :=
  aead_decrypt Aes128Gcm CRYPTO_GCM_TAG_LENGTH (gcm_remote_gcm c) (gcm_remote_write_iv c).

Definition ccm_algorithm (t : CryptoCcmTagLen) : AeadAlgorithm :=
  match t with CryptoCcmTagLength => AesCcm | CryptoCcm8TagLength => AesCcm8 end.

Definition CryptoCcm_encrypt (c : CryptoCcm) (random : bytes) : RecordLayerHeader -> bytes -> res DtlsError bytes :=
  aead_encrypt (ccm_algorithm (ccm_tag_len c)) (ccm_local_write_key c) (ccm_local_write_iv c) random.

Definition CryptoCcm_decrypt (c : CryptoCcm) : bytes -> res DtlsError bytes :=
  aead_decrypt (ccm_algorithm (ccm_tag_len c))
    (match ccm_tag_len c with
     | CryptoCcmTagLength => CRYPTO_CCM_TAG_LENGTH
     | CryptoCcm8TagLength => CRYPTO_CCM_8_TAG_LENGTH
     end) (ccm_remote_write_key c) (ccm_remote_write_iv c).

(** [Aes256Cbc::new_var] checks the lengths of the key and of the vector. *)
Definition cbc_new_var (key iv : bytes) : res DtlsError unit :=
  if (length key =? 32)%nat && (length iv =? CBC_BLOCK_SIZE)%nat then Ok tt
  else Err (ErrOther "InvalidKeyIvLength").

(** [encrypt_vec] of block-modes: the text is extended by a block of zeros, and
    its last block is padded; [decrypt_vec]: whole blocks, then the padding. *)
Definition cbc_encrypt_vec (key iv plaintext : bytes) : res DtlsError bytes :=
  let bs := (CBC_BLOCK_SIZE * (length plaintext / CBC_BLOCK_SIZE))%nat in
  let tail := drop bs plaintext in
  match pad_block (tail ++ replicate (CBC_BLOCK_SIZE - length tail) Byte.x00) (length tail) with
  | None => Panic
  | Some block => Ok (cbc_encrypt_blocks key iv (take bs plaintext ++ block))
  end.

Definition cbc_decrypt_vec (key iv ciphertext : bytes) : res DtlsError bytes :=
  if negb (length ciphertext mod CBC_BLOCK_SIZE =? 0)%nat then Err (ErrOther "BlockModeError")
  else
    match unpad (cbc_decrypt_blocks key iv ciphertext) with
    | None => Err (ErrOther "BlockModeError")
    | Some data => Ok data
    end.

Definition CryptoCbc_encrypt (c : CryptoCbc) (random : bytes) (pkt_rlh : RecordLayerHeader) (raw : bytes)
    : res DtlsError bytes :=
  payload ← slice_from raw RECORD_LAYER_HEADER_SIZE;
  raw ← slice raw 0 RECORD_LAYER_HEADER_SIZE;
  mac ← prf_mac (rl_epoch pkt_rlh) (rl_sequence_number pkt_rlh) (rl_content_type pkt_rlh)
          (rl_protocol_version pkt_rlh) payload (cbc_write_mac c);
  _ ← cbc_new_var (cbc_local_key c) random;
  encrypted ← cbc_encrypt_vec (cbc_local_key c) random (payload ++ mac);
  set_record_len (raw ++ random ++ encrypted).

(** [decrypted.len() - MAC_SIZE] underflows on a short text; whether it panics
    or wraps, the slice that follows panics. *)
Definition CryptoCbc_decrypt (c : CryptoCbc) (r : bytes) : res DtlsError bytes :=
  '(h, _) ← RecordLayerHeader_unmarshal r;
  if bool_decide (rl_content_type h = CtChangeCipherSpec) then Ok r
  else
    body ← slice_from r RECORD_LAYER_HEADER_SIZE;
    iv ← slice body 0 CBC_BLOCK_SIZE;
    body ← slice_from body CBC_BLOCK_SIZE;
    _ ← cbc_new_var (cbc_remote_key c) iv;
    decrypted ← cbc_decrypt_vec (cbc_remote_key c) iv body;
    if (length decrypted <? CBC_MAC_SIZE)%nat then Panic
    else
      recv_mac ← slice_from decrypted (length decrypted - CBC_MAC_SIZE);
      decrypted ← slice decrypted 0 (length decrypted - CBC_MAC_SIZE);
      mac ← prf_mac (rl_epoch h) (rl_sequence_number h) (rl_content_type h) (rl_protocol_version h)
              decrypted (cbc_read_mac c);
      if negb (bool_decide (recv_mac = mac)) then Err (ErrOther "BlockModeError")
      else
        header ← slice r 0 RECORD_LAYER_HEADER_SIZE;
        Ok (header ++ decrypted).

(** * The cipher suites *)
Inductive Suite : Type :=
  | CipherSuiteAes128GcmSha256 (gcm : option CryptoGcm) (rsa : bool)
  | CipherSuiteAes256CbcSha (cbc : option CryptoCbc) (rsa : bool)
  | CipherSuiteAes128Ccm (ccm : option CryptoCcm) (client_certificate_type : ClientCertificateType)
      (id : CipherSuiteId) (psk : bool) (crypto_ccm_tag_len : CryptoCcmTagLen)
  | CipherSuiteTlsPskWithAes128GcmSha256 (gcm : option CryptoGcm).

Definition suite_id (s : Suite) : CipherSuiteId :=
  match s with
  | CipherSuiteAes128GcmSha256 _ rsa =>
      if rsa then Tls_Ecdhe_Rsa_With_Aes_128_Gcm_Sha256 else Tls_Ecdhe_Ecdsa_With_Aes_128_Gcm_Sha256
  | CipherSuiteAes256CbcSha _ rsa =>
      if rsa then Tls_Ecdhe_Rsa_With_Aes_256_Cbc_Sha else Tls_Ecdhe_Ecdsa_With_Aes_256_Cbc_Sha
  | CipherSuiteAes128Ccm _ _ id _ _ => id
  | CipherSuiteTlsPskWithAes128GcmSha256 _ => Tls_Psk_With_Aes_128_Gcm_Sha256
  end.

Definition suite_certificate_type (s : Suite) : ClientCertificateType :=
  match s with
  | CipherSuiteAes128GcmSha256 _ rsa => if rsa then RsaSign else EcdsaSign
  | CipherSuiteAes256CbcSha _ rsa => if rsa then RsaSign else EcdsaSign
  | CipherSuiteAes128Ccm _ t _ _ _ => t
  | CipherSuiteTlsPskWithAes128GcmSha256 _ => CctUnsupported
  end.

Definition suite_is_psk (s : Suite) : bool :=
  match s with
  | CipherSuiteAes128GcmSha256 _ _ => false
  | CipherSuiteAes256CbcSha _ _ => false
  | CipherSuiteAes128Ccm _ _ _ psk _ => psk
  | CipherSuiteTlsPskWithAes128GcmSha256 _ => true
  end.

Definition suite_is_initialized (s : Suite) : bool :=
  match s with
  | CipherSuiteAes128GcmSha256 gcm _ => bool_decide (is_Some gcm)
  | CipherSuiteAes256CbcSha cbc _ => bool_decide (is_Some cbc)
  | CipherSuiteAes128Ccm ccm _ _ _ _ => bool_decide (is_Some ccm)
  | CipherSuiteTlsPskWithAes128GcmSha256 gcm => bool_decide (is_Some gcm)
  end.

Definition init_gcm (keys : EncryptionKeys) (is_client : bool) : res DtlsError CryptoGcm :=
  if is_client
  then CryptoGcm_new (ek_client_write_key keys) (ek_client_write_iv keys)
         (ek_server_write_key keys) (ek_server_write_iv keys)
  else CryptoGcm_new (ek_server_write_key keys) (ek_server_write_iv keys)
         (ek_client_write_key keys) (ek_client_write_iv keys).

Definition init_ccm (l : CryptoCcmTagLen) (keys : EncryptionKeys) (is_client : bool) : res DtlsError CryptoCcm :=
  if is_client
  then CryptoCcm_new l (ek_client_write_key keys) (ek_client_write_iv keys)
         (ek_server_write_key keys) (ek_server_write_iv keys)
  else CryptoCcm_new l (ek_server_write_key keys) (ek_server_write_iv keys)
         (ek_client_write_key keys) (ek_client_write_iv keys).

Definition init_cbc (keys : EncryptionKeys) (is_client : bool) : res DtlsError CryptoCbc :=
  if is_client
  then CryptoCbc_new (ek_client_write_key keys) (ek_client_mac_key keys)
         (ek_server_write_key keys) (ek_server_mac_key keys)
  else CryptoCbc_new (ek_server_write_key keys) (ek_server_mac_key keys)
         (ek_client_write_key keys) (ek_client_mac_key keys).

(** The lengths [PRF_MAC_LEN], [PRF_KEY_LEN] and [PRF_IV_LEN] of a suite *)
Definition suite_lengths (s : Suite) : nat * nat * nat :=
  match s with
  | CipherSuiteAes256CbcSha _ _ => (20, 32, 16)%nat
  | _ => (0, 16, 4)%nat
  end.

Definition suite_init (master_secret client_random server_random : bytes) (is_client : bool) (s : Suite)
    : res DtlsError Suite :=
  let '(mac_len, key_len, iv_len) := suite_lengths s in
  keys ← prf_encryption_keys master_secret client_random server_random mac_len key_len iv_len;
  match s with
  | CipherSuiteAes128GcmSha256 _ rsa =>
      gcm ← init_gcm keys is_client; Ok (CipherSuiteAes128GcmSha256 (Some gcm) rsa)
  | CipherSuiteAes256CbcSha _ rsa =>
      cbc ← init_cbc keys is_client; Ok (CipherSuiteAes256CbcSha (Some cbc) rsa)
  | CipherSuiteAes128Ccm _ t id psk l =>
      ccm ← init_ccm l keys is_client; Ok (CipherSuiteAes128Ccm (Some ccm) t id psk l)
  | CipherSuiteTlsPskWithAes128GcmSha256 _ =>
      gcm ← init_gcm keys is_client; Ok (CipherSuiteTlsPskWithAes128GcmSha256 (Some gcm))
  end.

Definition not_initialized (what : string) : res DtlsError bytes :=
  Err (ErrOther ("CipherSuite has not been initialized, unable to " ++ what)).

(** The random bytes: eight of a nonce, or the sixteen of an initialisation vector *)
Definition suite_encrypt (s : Suite) (random : nat -> bytes) (pkt_rlh : RecordLayerHeader) (raw : bytes)
    : res DtlsError bytes :=
  match s with
  | CipherSuiteAes128GcmSha256 (Some c) _ => CryptoGcm_encrypt c (random 8%nat) pkt_rlh raw
  | CipherSuiteAes256CbcSha (Some c) _ => CryptoCbc_encrypt c (random 16%nat) pkt_rlh raw
  | CipherSuiteAes128Ccm (Some c) _ _ _ _ => CryptoCcm_encrypt c (random 8%nat) pkt_rlh raw
  | CipherSuiteTlsPskWithAes128GcmSha256 (Some c) => CryptoGcm_encrypt c (random 8%nat) pkt_rlh raw
  | _ => not_initialized "encrypt"
  end.

Definition suite_decrypt (s : Suite) (input : bytes) : res DtlsError bytes :=
  match s with
  | CipherSuiteAes128GcmSha256 (Some c) _ => CryptoGcm_decrypt c input
  | CipherSuiteAes256CbcSha (Some c) _ => CryptoCbc_decrypt c input
  | CipherSuiteAes128Ccm (Some c) _ _ _ _ => CryptoCcm_decrypt c input
  | CipherSuiteTlsPskWithAes128GcmSha256 (Some c) => CryptoGcm_decrypt c input
  | _ => not_initialized "decrypt"
  end.

(** [Box<dyn CipherSuite>], with the random bytes of each [encrypt] *)
Definition as_CipherSuite (rng : RecordLayerHeader -> nat -> bytes) (s : Suite) : CipherSuite :=
  mkCipherSuite (suite_is_initialized s) (fun h raw => suite_encrypt s (rng h) h raw) (suite_decrypt s).
End ciphers.

Definition new_cipher_suite_tls_ecdhe_ecdsa_with_aes_128_ccm : Suite :=
  CipherSuiteAes128Ccm None EcdsaSign Tls_Ecdhe_Ecdsa_With_Aes_128_Ccm false CryptoCcmTagLength.
Definition new_cipher_suite_tls_ecdhe_ecdsa_with_aes_128_ccm8 : Suite :=
  CipherSuiteAes128Ccm None EcdsaSign Tls_Ecdhe_Ecdsa_With_Aes_128_Ccm_8 false CryptoCcm8TagLength.
Definition new_cipher_suite_tls_psk_with_aes_128_ccm : Suite :=
  CipherSuiteAes128Ccm None CctUnsupported Tls_Psk_With_Aes_128_Ccm true CryptoCcmTagLength.
Definition new_cipher_suite_tls_psk_with_aes_128_ccm8 : Suite :=
  CipherSuiteAes128Ccm None CctUnsupported Tls_Psk_With_Aes_128_Ccm_8 true CryptoCcm8TagLength.

Definition cipher_suite_for_id (id : CipherSuiteId) : res DtlsError Suite :=
  match id with
  | Tls_Ecdhe_Ecdsa_With_Aes_128_Ccm => Ok new_cipher_suite_tls_ecdhe_ecdsa_with_aes_128_ccm
  | Tls_Ecdhe_Ecdsa_With_Aes_128_Ccm_8 => Ok new_cipher_suite_tls_ecdhe_ecdsa_with_aes_128_ccm8
  | Tls_Ecdhe_Ecdsa_With_Aes_128_Gcm_Sha256 => Ok (CipherSuiteAes128GcmSha256 None false)
  | Tls_Ecdhe_Rsa_With_Aes_128_Gcm_Sha256 => Ok (CipherSuiteAes128GcmSha256 None true)
  | Tls_Ecdhe_Rsa_With_Aes_256_Cbc_Sha => Ok (CipherSuiteAes256CbcSha None true)
  | Tls_Ecdhe_Ecdsa_With_Aes_256_Cbc_Sha => Ok (CipherSuiteAes256CbcSha None false)
  | Tls_Psk_With_Aes_128_Ccm => Ok new_cipher_suite_tls_psk_with_aes_128_ccm
  | Tls_Psk_With_Aes_128_Ccm_8 => Ok new_cipher_suite_tls_psk_with_aes_128_ccm8
  | Tls_Psk_With_Aes_128_Gcm_Sha256 => Ok (CipherSuiteTlsPskWithAes128GcmSha256 None)
  | _ => Err ErrInvalidCipherSuite
  end.

Definition default_cipher_suites : list Suite :=
  [CipherSuiteAes128GcmSha256 None false; CipherSuiteAes256CbcSha None false;
   CipherSuiteAes128GcmSha256 None true; CipherSuiteAes256CbcSha None true].

Fixpoint cipher_suites_for_ids (ids : list CipherSuiteId) : res DtlsError (list Suite) :=
  match ids with
  | [] => Ok []
  | id :: ids' =>
      s ← cipher_suite_for_id id;
      l ← cipher_suites_for_ids ids';
      Ok (s :: l)
  end.

Definition parse_cipher_suites (user_selected_suites : list CipherSuiteId) (exclude_psk exclude_non_psk : bool)
    : res DtlsError (list Suite) :=
  cipher_suites ← (if negb (is_empty user_selected_suites) then cipher_suites_for_ids user_selected_suites
                   else Ok default_cipher_suites);
  let filtered_cipher_suites :=
    List.filter (fun c => negb ((exclude_psk && suite_is_psk c) || (exclude_non_psk && negb (suite_is_psk c))))
      cipher_suites in
  if is_empty filtered_cipher_suites then Err ErrNoAvailableCipherSuites else Ok filtered_cipher_suites.
