(* ===== verification/DtlsSuite.v ===== *)
(** The record ciphers open what they seal: for every cipher suite, the two sides
    of a session with one master secret read each other's records, under the
    laws that the primitives of the cryptographic crates document. *)
From Stdlib Require Import Strings.String.
From S2P Require Import Prelude Utf8 DtlsTypes DtlsHandshake DtlsRecord DtlsCodec DtlsLaws DtlsCrypto DtlsCipher.

Definition aead_tag_length (alg : AeadAlgorithm) : nat :=
  match alg with Aes128Gcm => 16 | AesCcm => 16 | AesCcm8 => 8 end.

(** What the crates document of the primitives: authenticated encryption opens
    what it seals and adds its tag, block decryption inverts encryption, and
    HMAC-SHA1 takes every key and gives twenty bytes. *)
Class PrimitiveLaws (C : Primitives) : Prop := {
  aead_seal_total alg k n a t : Z.of_nat (length t) <= 65535 ->
    exists c, aead_seal alg k n a t = Ok c /\ length c = (length t + aead_tag_length alg)%nat /\ aead_open alg k n a c = Ok t;
  cbc_encrypt_length k iv t : length (cbc_encrypt_blocks k iv t) = length t;
  cbc_decrypt_encrypt k iv t : length k = 32%nat -> length iv = 16%nat -> (length t mod 16 = 0)%nat ->
    cbc_decrypt_blocks k iv (cbc_encrypt_blocks k iv t) = t;
  hmac_sha1_total k m : exists d, hmac_sha1 k m = Ok d /\ length d = 20%nat
}.

Lemma slice_all {E} (raw : bytes) n : n = length raw -> slice (E := E) raw 0 n = Ok raw.
Proof. intros ->. rewrite slice_ok by lia. rewrite drop_0, take_ge by lia. done. Qed.

Lemma slice_left {E} (a b : bytes) n : n = length a -> slice (E := E) (a ++ b) 0 n = Ok a.
Proof. intros ->. by apply (slice_app _ [] a b). Qed.

Lemma slice_from_right {E} (a b : bytes) n : n = length a -> slice_from (E := E) (a ++ b) n = Ok b.
Proof. intros ->. apply (slice_app _ a b []); [by rewrite app_nil_r|done|by rewrite length_app]. Qed.

(** * The header of a sealed record *)
Definition sealed_header (h : RecordLayerHeader) (body : nat) : RecordLayerHeader :=
  h <| rl_content_len := wrap 16 (Z.of_nat body) |>.

Lemma sealed_header_wf h n : RecordLayerHeader_wf h -> RecordLayerHeader_wf (sealed_header h n).
Proof.
  intros (Hv & He & Hs & Hl). split; [exact Hv|]. split; [exact He|]. split; [exact Hs|].
  cbn. unfold wrap. by apply Z.mod_pos_bound.
Qed.

Definition header_front (h : RecordLayerHeader) : bytes :=
  write_wire (rl_content_type h) ++ write_version (rl_protocol_version h) ++ write_u16 (rl_epoch h)
  ++ drop 2 (to_be_bytes 8 (rl_sequence_number h)).

Lemma header_bytes h : RecordLayerHeader_wf h ->
  RecordLayerHeader_marshal h = Ok (header_front h ++ write_u16 (rl_content_len h)).
Proof.
  intros (_ & _ & Hs & _). unfold RecordLayerHeader_marshal.
  replace (MAX_SEQUENCE_NUMBER <? _) with false by (symmetry; apply Z.ltb_ge; lia).
  unfold header_front. by rewrite <- !app_assoc.
Qed.

Lemma length_header_front h : length (header_front h) = 11%nat.
Proof. done. Qed.

Lemma set_record_len_spec h header body :
  RecordLayerHeader_wf h -> RecordLayerHeader_marshal h = Ok header ->
  exists header', RecordLayerHeader_marshal (sealed_header h (length body)) = Ok header'
    /\ length header' = RECORD_LAYER_HEADER_SIZE
    /\ set_record_len (header ++ body) = Ok (header' ++ body).
Proof.
  intros Hwf. rewrite header_bytes by done. intros Hm.
  assert (header = header_front h ++ write_u16 (rl_content_len h)) as -> by congruence. clear Hm.
  exists (header_front h ++ write_u16 (wrap 16 (Z.of_nat (length body)))). split_and!; [|done|].
  - rewrite header_bytes by (by apply sealed_header_wf). done.
  - unfold set_record_len.
    replace (length ((header_front h ++ write_u16 (rl_content_len h)) ++ body)) with (RECORD_LAYER_HEADER_SIZE + length body)%nat
      by (by rewrite !length_app).
    rewrite (proj2 (Nat.ltb_ge _ _)) by apply Nat.le_add_r.
    replace (RECORD_LAYER_HEADER_SIZE + length body - _)%nat with (length body) by lia.
    rewrite (drop_app_length' (header_front h ++ _)) by done. rewrite <- (app_assoc (header_front h)).
    rewrite (take_app_length' (header_front h)) by done. by rewrite <- !app_assoc.
Qed.

Lemma read_sealed_header h n header body : RecordLayerHeader_wf h ->
  RecordLayerHeader_marshal (sealed_header h n) = Ok header ->
  RecordLayerHeader_unmarshal (header ++ body) = Ok (sealed_header h n, body).
Proof.
  intros Hwf Hm. destruct (RecordLayerHeader_codec _ (sealed_header_wf h n Hwf)) as (bs & Hm' & _ & Hr).
  rewrite Hm in Hm'. injection Hm' as <-. apply Hr.
Qed.

(** * Opening what was sealed *)
Section pairs.
Context {P : Profile} {C : Primitives} {L : PrimitiveLaws C}.
Variables (h : RecordLayerHeader) (header payload : bytes).
Hypotheses (Hwf : RecordLayerHeader_wf h) (Hccs : rl_content_type h <> CtChangeCipherSpec)
  (Hheader : RecordLayerHeader_marshal h = Ok header) (Hpayload : Z.of_nat (length payload) <= 16384).

(** [seal] gives a record that [open] reads: its header and the payload. *)
Definition opens (seal : RecordLayerHeader -> bytes -> res DtlsError bytes) (open : bytes -> res DtlsError bytes) : Prop :=
  exists sealed header', seal h (header ++ payload) = Ok sealed
    /\ RecordLayerHeader_marshal (sealed_header h (length sealed - RECORD_LAYER_HEADER_SIZE)) = Ok header'
    /\ open sealed = Ok (header' ++ payload).

Lemma length_header : length header = RECORD_LAYER_HEADER_SIZE.
Proof. rewrite header_bytes in Hheader by done. injection Hheader as <-. done. Qed.

Lemma aead_opens alg key iv random :
  (4 <= length iv)%nat -> length random = 8%nat ->
  opens (aead_encrypt alg key iv random) (aead_decrypt alg (aead_tag_length alg) key iv).
Proof.
  intros Hiv Hrandom. unfold opens, aead_encrypt.
  rewrite slice_from_right by (by rewrite length_header). cbn [mbind res_bind].
  rewrite slice_left by (by rewrite length_header). cbn [mbind res_bind].
  rewrite (slice_ok iv) by lia. cbn [mbind res_bind Nat.sub]. rewrite drop_0. set (iv4 := take 4 iv).
  set (aad := generate_aead_additional_data h (Z.of_nat (length payload))).
  destruct (aead_seal_total alg key (iv4 ++ random) aad payload) as (c & Hc & Hlen & Hopen); [lia|].
  rewrite Hc. cbn [map_other mbind res_bind].
  destruct (set_record_len_spec h header (random ++ c) Hwf Hheader) as (header' & Hh' & Hlh & ->).
  do 2 eexists. split; [reflexivity|]. rewrite length_app, Hlh.
  replace (RECORD_LAYER_HEADER_SIZE + _ - RECORD_LAYER_HEADER_SIZE)%nat with (length (random ++ c)) by lia.
  split; [exact Hh'|]. unfold aead_decrypt. rewrite (read_sealed_header h _ header' _ Hwf Hh'). cbn [mbind res_bind].
  rewrite bool_decide_false by exact Hccs.
  rewrite !length_app, Hlh, Hrandom, Hlen. rewrite (proj2 (Nat.leb_gt _ _)) by (destruct alg; cbn; lia).
  rewrite (slice_ok iv) by lia. cbn [mbind res_bind Nat.sub]. rewrite drop_0. fold iv4.
  rewrite (slice_app _ header' random c (RECORD_LAYER_HEADER_SIZE) (RECORD_LAYER_HEADER_SIZE + 8)) by (by rewrite ?Hlh, ?Hrandom). cbn [mbind res_bind].
  rewrite app_assoc, slice_from_right by (rewrite length_app, Hlh, Hrandom; done). cbn [mbind res_bind].
  rewrite Hlen. rewrite arith_ok by (unfold in_range; destruct alg; cbn; lia). cbn [mbind res_bind].
  replace (Z.of_nat _ - Z.of_nat _) with (Z.of_nat (length payload)) by lia.
  change (generate_aead_additional_data (sealed_header h _) _) with aad.
  rewrite Hopen. cbn [map_other mbind res_bind]. rewrite <- app_assoc, slice_left by (by rewrite Hlh). done.
Qed.

(** Padding a last block, and taking it off *)
Lemma unpad_pad whole tail block : (length tail < 16)%nat ->
  pad_block (tail ++ replicate (16 - length tail) Byte.x00) (length tail) = Some block ->
  length block = 16%nat /\ unpad (whole ++ block) = Some (whole ++ tail).
Proof.
  intros Ht. unfold pad_block. rewrite length_app, length_replicate.
  replace (length tail + (16 - length tail))%nat with 16%nat by lia.
  rewrite (proj2 (Nat.eqb_neq _ _)) by lia. rewrite (proj2 (Nat.ltb_ge _ _)) by lia. rewrite take_app_length.
  set (p := (16 - length tail - 1)%nat). intros [= <-]. rewrite length_app, length_replicate. split; [lia|].
  assert (u8_of_byte (byte_of_u8 (Z.of_nat p)) = Z.of_nat p) as Hp by (rewrite u8_of_byte_of_u8; apply Z.mod_small; lia).
  replace (16 - length tail)%nat with (S p) by lia. unfold unpad.
  assert (List.last (whole ++ tail ++ replicate (S p) (byte_of_u8 (Z.of_nat p))) Byte.x01
          = byte_of_u8 (Z.of_nat p)) as ->.
  { rewrite app_assoc. replace (S p) with (p + 1)%nat by lia. rewrite replicate_add, app_assoc. apply last_last. }
  rewrite Hp, Nat2Z.id, !length_app, length_replicate. rewrite (proj2 (Nat.ltb_ge _ _)) by lia.
  replace (length whole + (length tail + S p) - p - 1)%nat with (length (whole ++ tail)) by (rewrite length_app; lia).
  rewrite app_assoc, drop_app_length, take_app_length.
  assert (forall n, existsb (fun b => negb (u8_of_byte b =? Z.of_nat p))
    (take n (replicate (S p) (byte_of_u8 (Z.of_nat p)))) = false) as Hex; [|by rewrite Hex].
  intros n. apply not_true_iff_false. intros (b & Hb & Hneq)%existsb_exists. rewrite take_replicate in Hb.
  apply list_elem_of_In, elem_of_replicate in Hb as [-> _]. rewrite Hp, Z.eqb_refl in Hneq. done.
Qed.

Lemma cbc_vec_opens key iv text : length key = 32%nat -> length iv = 16%nat ->
  exists c, cbc_encrypt_vec key iv text = Ok c /\ cbc_decrypt_vec key iv c = Ok text.
Proof.
  intros Hkey Hiv. unfold cbc_encrypt_vec, CBC_BLOCK_SIZE. set (bs := (16 * (length text / 16))%nat).
  pose proof (Nat.div_mod_eq (length text) 16) as Hdiv. pose proof (Nat.mod_upper_bound (length text) 16 ltac:(done)) as Hmod.
  fold bs in Hdiv. set (tail := drop bs text).
  assert (length tail = (length text mod 16)%nat) as Htail by (unfold tail; rewrite length_drop; lia).
  destruct (pad_block _ (length tail)) as [block|] eqn:Hpad.
  2:{ exfalso. unfold pad_block in Hpad. rewrite length_app, length_replicate in Hpad.
      rewrite (proj2 (Nat.eqb_neq _ _)) in Hpad by lia. rewrite (proj2 (Nat.ltb_ge _ _)) in Hpad by lia. done. }
  destruct (unpad_pad (take bs text) tail block ltac:(lia) Hpad) as [Hb Hun].
  eexists. split; [reflexivity|]. unfold cbc_decrypt_vec. rewrite cbc_encrypt_length.
  assert (length (take bs text ++ block) mod 16 = 0)%nat as Hwhole.
  { rewrite length_app, length_take, Hb, Nat.min_l by lia. unfold bs.
    replace (16 * _ + 16)%nat with ((length text / 16 + 1) * 16)%nat by lia. apply Nat.Div0.mod_mul. }
  unfold CBC_BLOCK_SIZE. rewrite Hwhole. cbn [Nat.eqb negb]. rewrite cbc_decrypt_encrypt by done.
  rewrite Hun. unfold tail. by rewrite take_drop.
Qed.

Lemma cbc_opens local_key mac random (c1 c2 : CryptoCbc) :
  cbc_local_key c1 = local_key -> cbc_remote_key c2 = local_key -> cbc_write_mac c1 = mac -> cbc_read_mac c2 = mac ->
  length local_key = 32%nat -> length random = 16%nat ->
  opens (CryptoCbc_encrypt c1 random) (CryptoCbc_decrypt c2).
Proof.
  intros Hk1 Hk2 Hm1 Hm2 Hkey Hrandom. unfold opens, CryptoCbc_encrypt. rewrite Hk1, Hm1.
  rewrite slice_from_right by (by rewrite length_header). cbn [mbind res_bind].
  rewrite slice_left by (by rewrite length_header). cbn [mbind res_bind].
  assert (exists m, prf_mac (rl_epoch h) (rl_sequence_number h) (rl_content_type h) (rl_protocol_version h) payload mac
    = Ok m /\ length m = 20%nat) as (m & Hm & Hml).
  { unfold prf_mac. destruct (hmac_sha1_total mac ((write_u16 (rl_epoch h) ++ drop 2 (to_be_bytes 8 (rl_sequence_number h))
      ++ write_wire (rl_content_type h) ++ write_version (rl_protocol_version h) ++ write_u16 (len_as 16 payload)) ++ payload))
      as (d & Hd & Hl). exists d. by rewrite Hd. }
  assert (cbc_new_var local_key random = Ok tt) as Hnew by (unfold cbc_new_var; by rewrite Hkey, Hrandom).
  rewrite Hm. cbn [mbind res_bind]. rewrite Hnew. cbn [mbind res_bind].
  destruct (cbc_vec_opens local_key random (payload ++ m) Hkey Hrandom) as (c & Hc & Hopen).
  rewrite Hc. cbn [mbind res_bind].
  destruct (set_record_len_spec h header (random ++ c) Hwf Hheader) as (header' & Hh' & Hlh & ->).
  do 2 eexists. split; [reflexivity|]. rewrite length_app, Hlh.
  replace (RECORD_LAYER_HEADER_SIZE + _ - RECORD_LAYER_HEADER_SIZE)%nat with (length (random ++ c)) by lia.
  split; [exact Hh'|]. unfold CryptoCbc_decrypt. rewrite Hk2, Hm2, (read_sealed_header h _ header' _ Hwf Hh').
  cbn [mbind res_bind]. rewrite bool_decide_false by exact Hccs.
  rewrite slice_from_right by (by rewrite Hlh). cbn [mbind res_bind].
  rewrite (slice_left random c) by done. cbn [mbind res_bind].
  rewrite (slice_from_right random c) by done. cbn [mbind res_bind].
  rewrite Hnew. cbn [mbind res_bind]. rewrite Hopen. cbn [mbind res_bind].
  rewrite length_app, Hml. unfold CBC_MAC_SIZE. rewrite (proj2 (Nat.ltb_ge _ _)) by lia.
  replace (length payload + 20 - 20)%nat with (length payload) by lia.
  rewrite (slice_from_right payload m) by done. cbn [mbind res_bind].
  rewrite (slice_left payload m) by done. cbn [mbind res_bind].
  change (prf_mac _ _ _ _ payload mac)
    with (prf_mac (rl_epoch h) (rl_sequence_number h) (rl_content_type h) (rl_protocol_version h) payload mac).
  rewrite Hm. cbn [mbind res_bind]. rewrite bool_decide_true by done. cbn [negb].
  rewrite slice_left by (by rewrite Hlh). done.
Qed.
End pairs.

(** * The keys of both sides *)
Section keys.
Context {P : Profile} {C : Primitives} {L : PrimitiveLaws C}.

Lemma split_key_length material n k rest : split_key material n = Ok (k, rest) -> length k = n.
Proof.
  unfold split_key. destruct (slice material 0 n) as [key| | |] eqn:H; try done. cbn [mbind res_bind].
  destruct (slice_from material n); try done. intros [= <- _]. apply slice_Ok_length in H. lia.
Qed.

Lemma encryption_keys_lengths ms cr sr mac key iv keys : prf_encryption_keys ms cr sr mac key iv = Ok keys ->
  length (ek_client_write_key keys) = key /\ length (ek_server_write_key keys) = key
  /\ length (ek_client_write_iv keys) = iv /\ length (ek_server_write_iv keys) = iv.
Proof.
  unfold prf_encryption_keys. destruct (prf_p_hash _ _ _) as [m| | |]; try done. cbn [mbind res_bind].
  destruct (split_key m mac) as [[k1 m1]| | |]; try done. cbn [mbind res_bind].
  destruct (split_key m1 mac) as [[k2 m2]| | |]; try done. cbn [mbind res_bind].
  destruct (split_key m2 key) as [[k3 m3]| | |] eqn:H3; try done. cbn [mbind res_bind].
  destruct (split_key m3 key) as [[k4 m4]| | |] eqn:H4; try done. cbn [mbind res_bind].
  destruct (split_key m4 iv) as [[k5 m5]| | |] eqn:H5; try done. cbn [mbind res_bind].
  destruct (slice m5 0 iv) as [k6| | |] eqn:H6; try done. cbn [mbind res_bind]. intros [= <-].
  apply split_key_length in H3, H4, H5. apply slice_Ok_length in H6. cbn. lia.
Qed.
End keys.

(** What [suite_init] puts in the suites of the two sides: each writes with the keys that the other reads with. *)
Definition suites_paired (c s : Suite) : Prop :=
  match c, s with
  | CipherSuiteAes128GcmSha256 (Some c) _, CipherSuiteAes128GcmSha256 (Some s) _
  | CipherSuiteTlsPskWithAes128GcmSha256 (Some c), CipherSuiteTlsPskWithAes128GcmSha256 (Some s) =>
      gcm_local_gcm c = gcm_remote_gcm s /\ gcm_local_write_iv c = gcm_remote_write_iv s
      /\ length (gcm_local_write_iv c) = 4%nat
  | CipherSuiteAes128Ccm (Some c) _ _ _ _, CipherSuiteAes128Ccm (Some s) _ _ _ _ =>
      ccm_tag_len c = ccm_tag_len s /\ ccm_local_write_key c = ccm_remote_write_key s
      /\ ccm_local_write_iv c = ccm_remote_write_iv s /\ length (ccm_local_write_iv c) = 4%nat
  | CipherSuiteAes256CbcSha (Some c) _, CipherSuiteAes256CbcSha (Some s) _ =>
      cbc_local_key c = cbc_remote_key s /\ cbc_write_mac c = cbc_read_mac s /\ length (cbc_local_key c) = 32%nat
  | _, _ => False
  end.

Lemma aes128_key_Ok key k : aes128_key key = Ok k -> k = key.
Proof. unfold aes128_key. destruct (_ =? _)%nat; congruence. Qed.

Lemma suite_init_paired {P : Profile} {C : Primitives} ms cr sr is_client s0 s1 s2 :
  suite_init ms cr sr is_client s0 = Ok s1 -> suite_init ms cr sr (negb is_client) s0 = Ok s2 -> suites_paired s1 s2.
Proof.
  unfold suite_init. destruct (suite_lengths s0) as [[mac key] iv] eqn:Hl.
  destruct (prf_encryption_keys ms cr sr mac key iv) as [keys| | |] eqn:Hk; try done. cbn [mbind res_bind].
  apply encryption_keys_lengths in Hk as (Hck & Hsk & Hci & Hsi).
  destruct s0; injection Hl as <- <- <-;
    unfold init_gcm, init_ccm, init_cbc, CryptoGcm_new, CryptoCcm_new, CryptoCbc_new; destruct is_client; cbn [negb];
    repeat match goal with
      | |- context [aes128_key ?k] => destruct (aes128_key k) eqn:?; try done; cbn [mbind res_bind]
      end;
    repeat match goal with H : aes128_key _ = Ok _ |- _ => apply aes128_key_Ok in H end;
    cbn [mbind res_bind]; intros [= <-] [= <-]; cbn; subst; auto.
Qed.

(** C6. For every cipher suite: when the two sides of a session derive their keys from the same master secret and
    randoms, a record that one side seals is opened by the other, with the payload that went in and the header that
    went in except for the record length, which is the one of the sealed body. *)
Theorem sealed_records_opened {P : Profile} {C : Primitives} {L : PrimitiveLaws C}
    master_secret client_random server_random is_client suite s1 s2 (rng : nat -> bytes) h header payload :
  suite_init master_secret client_random server_random is_client suite = Ok s1 ->
  suite_init master_secret client_random server_random (negb is_client) suite = Ok s2 ->
  RecordLayerHeader_wf h -> rl_content_type h <> CtChangeCipherSpec ->
  RecordLayerHeader_marshal h = Ok header -> Z.of_nat (length payload) <= 16384 ->
  (forall n, length (rng n) = n) ->
  exists sealed header',
    suite_encrypt s1 rng h (header ++ payload) = Ok sealed
    /\ RecordLayerHeader_marshal (sealed_header h (length sealed - RECORD_LAYER_HEADER_SIZE)) = Ok header'
    /\ suite_decrypt s2 sealed = Ok (header' ++ payload).
Proof.
  intros H1 H2 Hwf Hccs Hheader Hpayload Hrng. pose proof (suite_init_paired _ _ _ _ _ _ _ H1 H2) as Hp.
  clear H1 H2. pose proof (fun alg key iv => aead_opens h header payload Hwf Hccs Hheader Hpayload alg key iv (rng 8%nat)) as Ha.
  destruct s1 as [[c|] r|[c|] r|[c|] t i p l|[c|]], s2 as [[s|] r'|[s|] r'|[s|] t' i' p' l'|[s|]]; try done;
    cbn [suites_paired suite_encrypt suite_decrypt] in *.
  - destruct Hp as (Hk & Hiv & Hlen). unfold CryptoGcm_encrypt, CryptoGcm_decrypt. rewrite <- Hk, <- Hiv.
    apply (Ha Aes128Gcm); [lia|apply Hrng].
  - destruct Hp as (Hk & Hm & Hlen).
    by apply (cbc_opens h header payload Hwf Hccs Hheader (cbc_local_key c) (cbc_write_mac c)).
  - destruct Hp as (Ht & Hk & Hiv & Hlen). unfold CryptoCcm_encrypt, CryptoCcm_decrypt. rewrite <- Ht, <- Hk, <- Hiv.
    pose proof (Ha (ccm_algorithm (ccm_tag_len c)) (ccm_local_write_key c) (ccm_local_write_iv c) ltac:(lia) (Hrng _)) as Hc.
    by destruct (ccm_tag_len c).
  - destruct Hp as (Hk & Hiv & Hlen). unfold CryptoGcm_encrypt, CryptoGcm_decrypt. rewrite <- Hk, <- Hiv.
    apply (Ha Aes128Gcm); [lia|apply Hrng].
Qed.

(** A protected record that is too short for its suite panics the task that reads it, without any key being needed
    to make one: with a CBC suite, which is in the default list, every body of less than sixteen bytes; with a GCM
    or CCM suite and overflow checks, a body longer than the nonce and shorter than nonce and tag. *)
Theorem short_protected_record_panics {P : Profile} {C : Primitives} h header body :
  RecordLayerHeader_wf h -> rl_content_type h <> CtChangeCipherSpec -> RecordLayerHeader_marshal h = Ok header ->
  (forall c rsa, (length body < 16)%nat -> suite_decrypt (CipherSuiteAes256CbcSha (Some c) rsa) (header ++ body) = Panic)
  /\ (forall c rsa, (4 <= length (gcm_remote_write_iv c))%nat -> overflow_checks = true -> (8 < length body < 24)%nat ->
      suite_decrypt (CipherSuiteAes128GcmSha256 (Some c) rsa) (header ++ body) = Panic)
  /\ (forall c t i p l, (4 <= length (ccm_remote_write_iv c))%nat -> overflow_checks = true -> (8 < length body < 16)%nat ->
      suite_decrypt (CipherSuiteAes128Ccm (Some c) t i p l) (header ++ body) = Panic).
Proof.
  intros Hwf Hccs Hm. pose proof (header_bytes h Hwf) as Hb. rewrite Hm in Hb.
  assert (RecordLayerHeader_unmarshal (header ++ body) = Ok (h, body)) as Hread.
  { destruct (RecordLayerHeader_codec h Hwf) as (bs & Hm' & _ & Hr). rewrite Hm in Hm'. injection Hm' as <-. apply Hr. }
  assert (length header = RECORD_LAYER_HEADER_SIZE) as Hl by (by injection Hb as ->). clear Hb Hm.
  assert (forall alg tag key iv, (4 <= length iv)%nat -> overflow_checks = true -> (8 < length body < 8 + tag)%nat ->
    aead_decrypt alg tag key iv (header ++ body) = Panic) as Haead.
  { intros alg tag key iv Hiv Hov Hlen. unfold aead_decrypt. rewrite Hread. cbn [mbind res_bind].
    rewrite bool_decide_false by exact Hccs. rewrite length_app, Hl. rewrite (proj2 (Nat.leb_gt _ _)) by lia.
    rewrite (slice_ok iv) by lia. cbn [mbind res_bind].
    rewrite (slice_ok (header ++ body) RECORD_LAYER_HEADER_SIZE (RECORD_LAYER_HEADER_SIZE + 8)) by (rewrite ?length_app; lia). cbn [mbind res_bind].
    unfold slice_from. rewrite (slice_ok (header ++ body) (RECORD_LAYER_HEADER_SIZE + 8) (length (header ++ body))) by (rewrite ?length_app; lia). cbn [mbind res_bind].
    unfold arith, in_rangeb. rewrite Hov.
    rewrite (proj2 (Z.leb_gt 0 _)) by (rewrite length_take, length_drop, length_app; lia). reflexivity. }
  split; [|split].
  - intros c rsa Hlen. cbn [suite_decrypt]. unfold CryptoCbc_decrypt. rewrite Hread. cbn [mbind res_bind].
    rewrite bool_decide_false by exact Hccs. rewrite slice_from_right by done. cbn [mbind res_bind].
    assert (slice (E := DtlsError) body 0 CBC_BLOCK_SIZE = Panic) as ->; [|done].
    unfold slice. rewrite (proj2 (Nat.leb_gt CBC_BLOCK_SIZE (length body))) by (unfold CBC_BLOCK_SIZE; lia).
    by rewrite andb_false_r.
  - intros c rsa Hiv Hov Hlen. cbn [suite_decrypt]. apply Haead; [done..|]. unfold CRYPTO_GCM_TAG_LENGTH. lia.
  - intros c t i p l Hiv Hov Hlen. cbn [suite_decrypt]. apply Haead; [done..|].
    unfold CRYPTO_CCM_TAG_LENGTH, CRYPTO_CCM_8_TAG_LENGTH. destruct (ccm_tag_len c); lia.
Qed.

(** * Primitives made up to satisfy the laws *)
(** A checksum in the place of a hash *)
Definition sample_hash (m : bytes) : bytes :=
  let z := fold_left (fun z b => wrap 8 (z * 5 + u8_of_byte b + 1)) m 7 in replicate 32 (byte_of_u8 z).

Definition sample_xor (a b : byte) : byte := byte_of_u8 (Z.lxor (u8_of_byte a) (u8_of_byte b)).

Definition sample_tag (alg : AeadAlgorithm) (key nonce aad text : bytes) : bytes :=
  take (aead_tag_length alg) (sample_hash (key ++ nonce ++ aad ++ text)).

Definition sample_primitives : Primitives := {|
  sha256 := sample_hash;
  hmac_sha256 := fun k d => Ok (sample_hash (k ++ [Byte.x5c] ++ d));
  hmac_sha1 := fun k d => Ok (take 20 (sample_hash (k ++ [Byte.x36] ++ d)));
  aead_seal := fun alg k n a t => Ok (t ++ sample_tag alg k n a t);
  aead_open := fun alg k n a t =>
    let m := take (length t - aead_tag_length alg) t in
    if bool_decide (t = m ++ sample_tag alg k n a m) then Ok m else Err "aead::Error"%string;
  cbc_encrypt_blocks := fun _ _ t => t;
  cbc_decrypt_blocks := fun _ _ t => t;
  p256_public := id;
  p256_point := Some;
  p256_diffie_hellman := zip_with sample_xor;
  x25519_public := id;
  x25519_diffie_hellman := zip_with sample_xor;
  x509_public_key := Ok;
  verify_with := fun _ k m s => if bool_decide (s = k ++ sample_hash m) then Ok tt else Err "Unspecified"%string;
  sign_with := fun _ der _ m => Ok (der ++ sample_hash m);
  dns_name := fun _ => Ok tt;
  to_lowercase := id
|}.
#[export] Instance sample_laws : PrimitiveLaws sample_primitives.
Proof.
  split.
  - intros alg k n a t _. exists (t ++ sample_tag alg k n a t). cbn. split; [done|].
    assert (length (sample_tag alg k n a t) = aead_tag_length alg) as Hl
      by (unfold sample_tag, sample_hash; rewrite length_take, length_replicate; by destruct alg).
    rewrite length_app, Hl. split; [done|].
    replace (length t + aead_tag_length alg - aead_tag_length alg)%nat with (length t) by lia.
    rewrite take_app_length. by rewrite bool_decide_true.
  - done.
  - done.
  - intros k m. eexists. split; [reflexivity|]. done.
Qed.

Lemma sealed_records_opened_witness :
  let h := mkRecordLayerHeader CtApplicationData PROTOCOL_VERSION1_2 1 7 3 in
  let rng := fun n => replicate n Byte.x2a in
  exists s1 s2 header sealed header',
    @suite_init sample_primitives [Byte.x01] [Byte.x02] [Byte.x03] true (CipherSuiteAes256CbcSha None true) = Ok s1
    /\ @suite_init sample_primitives [Byte.x01] [Byte.x02] [Byte.x03] false (CipherSuiteAes256CbcSha None true) = Ok s2
    /\ RecordLayerHeader_marshal h = Ok header
    /\ @suite_encrypt sample_primitives s1 rng h (header ++ [Byte.x61; Byte.x62; Byte.x63]) = Ok sealed
    /\ RecordLayerHeader_marshal (sealed_header h (length sealed - RECORD_LAYER_HEADER_SIZE)) = Ok header'
    /\ @suite_decrypt dev_profile sample_primitives s2 sealed = Ok (header' ++ [Byte.x61; Byte.x62; Byte.x63]).
Proof.
  intros h rng.
  destruct (@suite_init sample_primitives [Byte.x01] [Byte.x02] [Byte.x03] true (CipherSuiteAes256CbcSha None true))
    as [s1| | |] eqn:H1; try (vm_compute in H1; discriminate H1).
  destruct (@suite_init sample_primitives [Byte.x01] [Byte.x02] [Byte.x03] false (CipherSuiteAes256CbcSha None true))
    as [s2| | |] eqn:H2; try (vm_compute in H2; discriminate H2).
  destruct (RecordLayerHeader_marshal h) as [header| | |] eqn:Hh; try (vm_compute in Hh; discriminate Hh).
  destruct (@sealed_records_opened dev_profile sample_primitives sample_laws [Byte.x01] [Byte.x02] [Byte.x03] true
    (CipherSuiteAes256CbcSha None true) s1 s2 rng h header [Byte.x61; Byte.x62; Byte.x63] H1 H2) as (sealed & header' & H).
  - repeat split; [by right|vm_compute; congruence..].
  - discriminate.
  - exact Hh.
  - vm_compute; discriminate.
  - intros n. apply length_replicate.
  - exists s1, s2, header, sealed, header'. auto.
Defined.

Lemma short_protected_record_panics_witness :
  let h := mkRecordLayerHeader CtApplicationData PROTOCOL_VERSION1_2 1 7 3 in
  exists header, RecordLayerHeader_marshal h = Ok header
    /\ @suite_decrypt dev_profile sample_primitives (CipherSuiteAes256CbcSha (Some (mkCryptoCbc [] [] [] [])) false)
         (header ++ [Byte.x61; Byte.x62; Byte.x63]) = Panic.
Proof.
  intros h. destruct (RecordLayerHeader_marshal h) as [header| | |] eqn:Hh; try (vm_compute in Hh; discriminate Hh).
  exists header. split; [reflexivity|].
  apply (@short_protected_record_panics dev_profile sample_primitives h header [Byte.x61; Byte.x62; Byte.x63]).
  - repeat split; [by right|vm_compute; congruence..].
  - discriminate.
  - exact Hh.
  - cbn. lia.
Defined.
