(* ===== verification/DtlsState.v ===== *)
(** What the flights of a DTLS handshake work on: [state.rs], [config.rs], the
    [HandshakeConfig] of [handshaker.rs] with its choice of a certificate, and
    the negotiation of [mod.rs]. *)
From Stdlib Require Import Strings.String.
From S2P Require Import Prelude Utf8 DtlsTypes DtlsExtension DtlsHandshake DtlsRecord DtlsCache DtlsConn DtlsCrypto DtlsCipher.

Definition COOKIE_LENGTH : nat := 20.
Definition DEFAULT_NAMED_CURVE : NamedCurve := X25519.
Definition DEFAULT_MTU : nat := 1200.
Definition INITIAL_TICKER_INTERVAL : Z := 1000000000.
Definition ELLIPTIC_CURVE_POINT_FORMAT_UNCOMPRESSED : Z := 0.

(** * [mod.rs] *)

(** The two nested loops: the first element of [a] that is in [b] *)
Definition find_matching {A} `{EqDecision A} (a b : list A) : option A :=
  List.find (fun x => existsb (fun y => bool_decide (x = y)) b) a.

Definition find_matching_srtp_profile : list SrtpProtectionProfile -> list SrtpProtectionProfile
  -> option SrtpProtectionProfile := find_matching.

Definition find_matching_cipher_suite : list CipherSuiteId -> list CipherSuiteId -> option CipherSuiteId :=
  find_matching.

(** * [config.rs] *)
Inductive ClientAuthType : Type := NoClientCert | RequireAnyClientCert | VerifyClientCertIfGiven.

Definition ClientAuthType_as (t : ClientAuthType) : Z :=
  match t with NoClientCert => 0 | RequireAnyClientCert => 2 | VerifyClientCertIfGiven => 3 end.

Inductive ExtendedMasterSecretType : Type := EmsRequest | EmsRequire | EmsDisable.

#[export] Instance ExtendedMasterSecretType_eq_dec : EqDecision ExtendedMasterSecretType.
Proof. solve_decision. Defined.

Abbreviation PskCallback := (bytes -> res DtlsError bytes).

(** The peer's certificates and the verified chains *)
Abbreviation VerifyPeerCertificateFn := (list bytes -> list bytes -> res DtlsError unit).

(** The root stores are behind the verifiers. *)
Record Config := mkConfig {
  co_certificates : list Certificate;
  co_cipher_suites : list CipherSuiteId;
  co_srtp_protection_profiles : list SrtpProtectionProfile;
  co_client_auth : ClientAuthType;
  co_extended_master_secret : ExtendedMasterSecretType;
  co_flight_interval : Z;  (** nanoseconds *)
  co_psk : option PskCallback;
  co_psk_identity_hint : option bytes;
  co_insecure_skip_verify : bool;
  co_verify_peer_certificate : option VerifyPeerCertificateFn;
  co_server_name : bytes;
  co_mtu : nat;
  co_replay_protection_window : Z
}.

Definition is_some {A} (o : option A) : bool := match o with Some _ => true | None => false end.

Fixpoint check_private_keys (certs : list Certificate) : res DtlsError unit :=
  match certs with
  | [] => Ok tt
  | cert :: certs' =>
      match pk_kind (ct_private_key cert) with
      | KeyEd25519 => check_private_keys certs'
      | KeyEcdsa256 => check_private_keys certs'
      | _ => Err ErrInvalidPrivateKey
      end
  end.

Definition validate_config (is_client : bool) (config : Config) : res DtlsError unit :=
  if is_client && is_some (co_psk config) && negb (is_some (co_psk_identity_hint config))
  then Err ErrPskAndIdentityMustBeSetForClient
  else if negb is_client && negb (is_some (co_psk config)) && is_empty (co_certificates config)
  then Err ErrServerMustHaveCertificate
  else if negb (is_empty (co_certificates config)) && is_some (co_psk config)
  then Err ErrPskAndCertificate
  else if is_some (co_psk_identity_hint config) && negb (is_some (co_psk config))
  then Err ErrIdentityNoPsk
  else
    _ ← check_private_keys (co_certificates config);
    _ ← parse_cipher_suites (co_cipher_suites config) (negb (is_some (co_psk config))) (is_some (co_psk config));
    Ok tt.

(** * [handshaker.rs] *)
Record HandshakeConfig := mkHandshakeConfig {
  hc_local_psk_callback : option PskCallback;
  hc_local_psk_identity_hint : option bytes;
  hc_local_cipher_suites : list CipherSuiteId;
  hc_local_signature_schemes : list SignatureHashAlgorithm;
  hc_extended_master_secret : ExtendedMasterSecretType;
  hc_local_srtp_protection_profiles : list SrtpProtectionProfile;
  hc_server_name : bytes;
  hc_client_auth : ClientAuthType;
  hc_local_certificates : list Certificate;
  hc_name_to_certificate : bytes -> option Certificate;
  hc_insecure_skip_verify : bool;
  hc_verify_peer_certificate : option VerifyPeerCertificateFn;
  hc_server_cert_verifier : list bytes -> bytes -> res string unit;
  hc_client_cert_verifier : option (list bytes -> res string unit);
  hc_retransmit_interval : Z;
  hc_initial_epoch : Z
}.

Definition dot : byte := Byte.x2e.
Definition star : bytes := [Byte.x2a].

(** [trim_end_matches('.')] *)
Fixpoint trim_front (s : bytes) : bytes :=
  match s with b :: s' => if bool_decide (b = dot) then trim_front s' else s | [] => [] end.
Definition trim_end_dots (s : bytes) : bytes := rev (trim_front (rev s)).

(** [split('.')], with the part read so far *)
Fixpoint split_dots (s current : bytes) : list bytes :=
  match s with
  | [] => [current]
  | b :: s' => if bool_decide (b = dot) then current :: split_dots s' [] else split_dots s' (current ++ [b])
  end.

(** [split_terminator('.')]: an empty last part is dropped. *)
Definition split_terminator (s : bytes) : list bytes :=
  let parts := split_dots s [] in
  match List.last parts [Byte.x00] with [] => removelast parts | _ => parts end.

Fixpoint join_dots (labels : list bytes) : bytes :=
  match labels with
  | [] => []
  | [l] => l
  | l :: labels' => l ++ dot :: join_dots labels'
  end.

(** The loop over the wildcards: the first [i] labels are stars. *)
Fixpoint wildcard_certificate (lookup : bytes -> option Certificate) (stars labels : list bytes)
    : option Certificate :=
  match labels with
  | [] => None
  | _ :: labels' =>
      let stars := stars ++ [star] in
      match lookup (join_dots (stars ++ labels')) with
      | Some cert => Some cert
      | None => wildcard_certificate lookup stars labels'
      end
  end.

Definition get_certificate {C : Primitives} (cfg : HandshakeConfig) (server_name : bytes) : res DtlsError Certificate :=
  match hc_local_certificates cfg with
  | [] => Err ErrNoCertificates
  | [cert] => Ok cert
  | first :: _ =>
      if is_empty server_name then Ok first
      else
        let name := trim_end_dots (to_lowercase server_name) in
        match hc_name_to_certificate cfg name with
        | Some cert => Ok cert
        | None =>
            match wildcard_certificate (hc_name_to_certificate cfg) [] (split_terminator name) with
            | Some cert => Ok cert
            | None => Ok first
            end
        end
  end.

(** * [state.rs] *)

(** What the handshake changes; the epochs and the cipher suite are shared with
    the tasks of the connection. *)
Record State := mkState {
  ds_local_epoch : Z;
  ds_remote_epoch : Z;
  ds_local_random : HandshakeRandom;
  ds_remote_random : HandshakeRandom;
  ds_master_secret : bytes;
  ds_cipher_suite : option Suite;
  ds_srtp_protection_profile : SrtpProtectionProfile;
  ds_peer_certificates : list bytes;
  ds_identity_hint : bytes;
  ds_is_client : bool;
  ds_pre_master_secret : bytes;
  ds_extended_master_secret : bool;
  ds_named_curve : NamedCurve;
  ds_local_keypair : option NamedCurveKeypair;
  ds_cookie : bytes;
  ds_handshake_send_sequence : Z;
  ds_handshake_recv_sequence : Z;
  ds_server_name : bytes;
  ds_remote_requested_certificate : bool;
  ds_local_certificates_verify : bytes;
  ds_local_verify_data : bytes;
  ds_local_key_signature : bytes;
  ds_peer_certificates_verified : bool
}.

#[export] Instance State_settable : Settable State := fun s =>
  mkState (ds_local_epoch s) (ds_remote_epoch s) (ds_local_random s) (ds_remote_random s) (ds_master_secret s)
    (ds_cipher_suite s) (ds_srtp_protection_profile s) (ds_peer_certificates s) (ds_identity_hint s)
    (ds_is_client s) (ds_pre_master_secret s) (ds_extended_master_secret s) (ds_named_curve s)
    (ds_local_keypair s) (ds_cookie s) (ds_handshake_send_sequence s) (ds_handshake_recv_sequence s)
    (ds_server_name s) (ds_remote_requested_certificate s) (ds_local_certificates_verify s)
    (ds_local_verify_data s) (ds_local_key_signature s) (ds_peer_certificates_verified s).

Definition State_default : State :=
  mkState 0 0 HandshakeRandom_default HandshakeRandom_default [] None SrtpUnsupported [] [] false [] false
    NcUnsupported None [] 0 0 [] false [] [] [] false.

(** The configuration that [DTLSConn::new] hands to the handshake; the
    verifiers are made from the root stores, and [remote_ip] is the text of the
    address of the peer. *)
Definition handshake_config (is_client : bool) (config : Config) (remote_ip : option bytes)
    (server_cert_verifier : list bytes -> bytes -> res string unit)
    (client_cert_verifier : list bytes -> res string unit) : res DtlsError HandshakeConfig :=
  _ ← validate_config is_client config;
  suites ← parse_cipher_suites (co_cipher_suites config) (negb (is_some (co_psk config))) (is_some (co_psk config));
  let retransmit_interval :=
    if negb (co_flight_interval config =? 0) then co_flight_interval config else INITIAL_TICKER_INTERVAL in
  let server_name :=
    if is_client && is_empty (co_server_name config) then
      match remote_ip with Some ip => ip | None => bytes_of_string "localhost" end
    else co_server_name config in
  Ok (mkHandshakeConfig (co_psk config) (co_psk_identity_hint config) (map suite_id suites)
        default_signature_schemes (co_extended_master_secret config) (co_srtp_protection_profiles config)
        server_name (co_client_auth config) (co_certificates config) (fun _ => None)
        (co_insecure_skip_verify config) (co_verify_peer_certificate config) server_cert_verifier
        (if ClientAuthType_as VerifyClientCertIfGiven <=? ClientAuthType_as (co_client_auth config)
         then Some client_cert_verifier else None) retransmit_interval 0).

(** [KeyingMaterialExporterError]; [Hash] carries the text of the error. *)
Inductive KeyingMaterialExporterError : Type :=
  | HandshakeInProgress
  | ContextUnsupported
  | ReservedExportKeyingMaterial
  | CipherSuiteUnset
  | Hash (e : DtlsError).

Definition INVALID_KEYING_LABELS : list string :=
  ["client finished"; "server finished"; "master secret"; "key expansion"]%string.

Definition export_keying_material {C : Primitives} (s : State) (label : string) (context : bytes) (length : nat)
    : res KeyingMaterialExporterError bytes :=
  if ds_local_epoch s =? 0 then Err HandshakeInProgress
  else if negb (is_empty context) then Err ContextUnsupported
  else if existsb (String.eqb label) INVALID_KEYING_LABELS then Err ReservedExportKeyingMaterial
  else
    let local_random := HandshakeRandom_marshal (ds_local_random s) in
    let remote_random := HandshakeRandom_marshal (ds_remote_random s) in
    let seed := bytes_of_string label
                ++ (if ds_is_client s then local_random ++ remote_random else remote_random ++ local_random) in
    match ds_cipher_suite s with
    | None => Err CipherSuiteUnset
    | Some _ =>
        match prf_p_hash (ds_master_secret s) seed length with
        | Ok v => Ok v
        | Err err => Err (Hash err)
        | Panic => Panic
        | OutOfFuel => OutOfFuel
        end
    end.
