(* ===== verification/DtlsFlight.v ===== *)
(** The flights of the client and what all flights share ([flight/mod.rs],
    [flight1.rs], [flight3.rs], [flight5.rs]).

    [parse] and [generate] work on the [State]; an error is the alert to send, if
    any, and the error to return, if any.  The handshake cache is the one the lock
    gives, the clock and the random bytes are an [Entropy]. *)
From Stdlib Require Import Strings.String.
From S2P Require Import Prelude Utf8 DtlsTypes DtlsExtension DtlsHandshake DtlsRecord DtlsCache DtlsConn DtlsCrypto DtlsCipher DtlsState.

Inductive Flight : Type := Flight0 | Flight1 | Flight2 | Flight3 | Flight4 | Flight5 | Flight6.

#[export] Instance Flight_eq_dec : EqDecision Flight.
Proof. solve_decision. Defined.

Definition is_last_send_flight (f : Flight) : bool := match f with Flight6 => true | _ => false end.
Definition is_last_recv_flight (f : Flight) : bool := match f with Flight5 => true | _ => false end.
Definition has_retransmit (f : Flight) : bool := match f with Flight2 => false | _ => true end.

Abbreviation FlightError := (option Alert * option DtlsError)%type.
Abbreviation FL A := (ST State FlightError A).

(** The clock and the random bytes of one call *)
Record Entropy := mkEntropy {
  en_now : Z;
  en_random_bytes : bytes;
  en_cookie : bytes;
  en_keypair : bytes;
  en_signature : bytes
}.

(** [Err((Some(Alert { Fatal, description }), err))] *)
Definition flight_error {A} (description : AlertDescription) (err : option DtlsError) : FL A :=
  st_raise (Some (mkAlert AlFatal description), err).

Definition flight_try {A} (description : AlertDescription) (r : res DtlsError A) : FL A :=
  match r with
  | Ok a => mret a
  | Err err => flight_error description (Some err)
  | Panic => st_lift Panic
  | OutOfFuel => st_lift OutOfFuel
  end.

(** No valid message received: keep reading. *)
Definition keep_reading {A} : FL A := st_raise (None, None).

Definition pull_flight (start_seq : Z) (rules : list HandshakeCachePullRule) (cache : HandshakeCache)
    : FL (Z * gmap HandshakeType HandshakeMessage) :=
  match full_pull_map start_seq rules cache with
  | Ok r => mret r
  | Err _ => keep_reading
  | Panic => st_lift Panic
  | OutOfFuel => st_lift OutOfFuel
  end.

Definition handshake_packet (m : HandshakeMessage) : Packet :=
  mkPacket (RecordLayer_new PROTOCOL_VERSION1_2 0 (CoHandshake (Handshake_new m))) false.

Definition change_cipher_spec_packet : Packet :=
  mkPacket (RecordLayer_new PROTOCOL_VERSION1_2 0 CoChangeCipherSpec) false.

Definition finished_packet (verify_data : bytes) : Packet :=
  mkPacket (RecordLayer_new PROTOCOL_VERSION1_2 1 (CoHandshake (Handshake_new (HmFinished (mkFinished verify_data)))))
    true.

(** The whole transcript: the rules of [session_hash], the CertificateVerify and
    the Finished of the client *)
Definition transcript_rules (epoch next_epoch : Z) : list HandshakeCachePullRule :=
  session_hash_rules epoch
  ++ [mkHandshakeCachePullRule HtCertificateVerify epoch true false;
      mkHandshakeCachePullRule HtFinished next_epoch true false].

Definition signature_scheme_listed (cfg : HandshakeConfig) (a : SignatureHashAlgorithm) : bool :=
  existsb (fun ss => bool_decide (sha_hash ss = sha_hash a) && bool_decide (sha_signature ss = sha_signature a))
    (hc_local_signature_schemes cfg).

Definition wants_ems (cfg : HandshakeConfig) : bool :=
  bool_decide (hc_extended_master_secret cfg = EmsRequest)
  || bool_decide (hc_extended_master_secret cfg = EmsRequire).

Section client.
Context {P : Profile} {C : Primitives}.
Variable cfg : HandshakeConfig.

(** The extensions of a ClientHello, the same in flights 1 and 3 *)
Definition client_extensions : list Extension :=
  [ExtSupportedSignatureAlgorithms (mkExtensionSupportedSignatureAlgorithms (hc_local_signature_schemes cfg));
   ExtRenegotiationInfo (mkExtensionRenegotiationInfo 0)]
  ++ (if negb (is_some (hc_local_psk_callback cfg)) then
        [ExtSupportedEllipticCurves (mkExtensionSupportedEllipticCurves [P256; X25519; P384]);
         ExtSupportedPointFormats (mkExtensionSupportedPointFormats [ELLIPTIC_CURVE_POINT_FORMAT_UNCOMPRESSED])]
      else [])
  ++ (if negb (is_empty (hc_local_srtp_protection_profiles cfg)) then
        [ExtUseSrtp (mkExtensionUseSrtp (hc_local_srtp_protection_profiles cfg))] else [])
  ++ (if wants_ems cfg then [ExtUseExtendedMasterSecret (mkExtensionUseExtendedMasterSecret true)] else [])
  ++ (if negb (is_empty (hc_server_name cfg)) then
        [ExtServerName (mkExtensionServerName (hc_server_name cfg))] else []).

Definition client_hello_packet (s : State) : Packet :=
  handshake_packet (HmClientHello (mkClientHello PROTOCOL_VERSION1_2 (ds_local_random s) (ds_cookie s)
    (hc_local_cipher_suites cfg) default_compression_methods client_extensions)).

(** * [flight3.rs] *)
Definition Flight3_generate : FL (list Packet) := st_get (fun s => [client_hello_packet s]).

Definition handle_server_key_exchange (en : Entropy) (h : ServerKeyExchange) : FL unit :=
  match hc_local_psk_callback cfg with
  | Some local_psk_callback =>
      psk ← flight_try InternalError (local_psk_callback (ske_identity_hint h));
      st_modify (fun s => s <| ds_identity_hint := ske_identity_hint h |>
                            <| ds_pre_master_secret := prf_psk_pre_master_secret psk |>)
  | None =>
      local_keypair ← flight_try InternalError (generate_keypair (en_keypair en) (ske_named_curve h));
      pre_master_secret ← flight_try InternalError
        (prf_pre_master_secret (ske_public_key h) (kp_private_key local_keypair) (kp_curve local_keypair));
      st_modify (fun s => s <| ds_pre_master_secret := pre_master_secret |>
                            <| ds_local_keypair := Some local_keypair |>)
  end.

(** A HelloVerifyRequest, in flights 1 and 3 *)
Definition handle_hello_verify_request (seq : Z) (m : HandshakeMessage) : FL Flight :=
  match m with
  | HmHelloVerifyRequest h =>
      if bool_decide (hv_version h <> PROTOCOL_VERSION1_0) && bool_decide (hv_version h <> PROTOCOL_VERSION1_2)
      then flight_error AdProtocolVersion (Some ErrUnsupportedProtocolVersion)
      else
        _ ← st_modify (fun s => s <| ds_cookie := hv_cookie h |> <| ds_handshake_recv_sequence := seq |>);
        mret Flight3
  | _ => flight_error InternalError None
  end.

Definition server_hello_extension (e : Extension) : FL unit :=
  match e with
  | ExtUseSrtp e =>
      match find_matching_srtp_profile (eus_protection_profiles e) (hc_local_srtp_protection_profiles cfg) with
      | Some profile => st_modify (fun s => s <| ds_srtp_protection_profile := profile |>)
      | None => flight_error IllegalParameter (Some ErrClientNoMatchingSrtpProfile)
      end
  | ExtUseExtendedMasterSecret _ =>
      st_when (negb (bool_decide (hc_extended_master_secret cfg = EmsDisable)))
        (st_modify (fun s => s <| ds_extended_master_secret := true |>))
  | _ => mret tt
  end.

Definition handle_server_hello (h : ServerHello) : FL unit :=
  if bool_decide (sh_version h <> PROTOCOL_VERSION1_2)
  then flight_error AdProtocolVersion (Some ErrUnsupportedProtocolVersion)
  else
    _ ← st_for (sh_extensions h) server_hello_extension;
    ems ← st_get ds_extended_master_secret;
    if bool_decide (hc_extended_master_secret cfg = EmsRequire) && negb ems
    then flight_error InsufficientSecurity (Some ErrClientRequiredButNoServerEms)
    else
      profile ← st_get ds_srtp_protection_profile;
      if negb (is_empty (hc_local_srtp_protection_profiles cfg)) && bool_decide (profile = SrtpUnsupported)
      then flight_error InsufficientSecurity (Some ErrRequestedButNoSrtpExtension)
      else
        match find_matching_cipher_suite [sh_cipher_suite h] (hc_local_cipher_suites cfg) with
        | None => flight_error InsufficientSecurity (Some ErrCipherSuiteNoIntersection)
        | Some _ =>
            match cipher_suite_for_id (sh_cipher_suite h) with
            | Ok cipher_suite =>
                st_modify (fun s => s <| ds_cipher_suite := Some cipher_suite |>
                                      <| ds_remote_random := sh_random h |>)
            | _ => flight_error InsufficientSecurity (Some ErrInvalidCipherSuite)
            end
        end.

Definition flight3_rules : list HandshakeCachePullRule :=
  let epoch := hc_initial_epoch cfg in
  if is_some (hc_local_psk_callback cfg) then
    [mkHandshakeCachePullRule HtServerHello epoch false false;
     mkHandshakeCachePullRule HtServerKeyExchange epoch false true;
     mkHandshakeCachePullRule HtServerHelloDone epoch false false]
  else
    [mkHandshakeCachePullRule HtServerHello epoch false false;
     mkHandshakeCachePullRule HtCertificate epoch false true;
     mkHandshakeCachePullRule HtServerKeyExchange epoch false false;
     mkHandshakeCachePullRule HtCertificateRequest epoch false true;
     mkHandshakeCachePullRule HtServerHelloDone epoch false false].

(** What follows the pull of the server's flight *)
Definition handle_server_flight (en : Entropy) (msgs : gmap HandshakeType HandshakeMessage) : FL Flight :=
  _ ← match msgs !! HtServerHello with
      | Some (HmServerHello h) => handle_server_hello h
      | Some _ => flight_error InternalError None
      | None => mret tt
      end;
  _ ← match msgs !! HtCertificate with
      | Some (HmCertificate h) => st_modify (fun s => s <| ds_peer_certificates := mc_certificate h |>)
      | Some _ => flight_error InternalError None
      | None => mret tt
      end;
  _ ← match msgs !! HtServerKeyExchange with
      | Some (HmServerKeyExchange h) => handle_server_key_exchange en h
      | Some _ => flight_error InternalError None
      | None => mret tt
      end;
  _ ← match msgs !! HtCertificateRequest with
      | Some (HmCertificateRequest _) => st_modify (fun s => s <| ds_remote_requested_certificate := true |>)
      | Some _ => flight_error InternalError None
      | None => mret tt
      end;
  mret Flight5.

Definition Flight3_server_flight (en : Entropy) (cache : HandshakeCache) : FL Flight :=
  recv ← st_get ds_handshake_recv_sequence;
  '(seq, msgs) ← pull_flight recv flight3_rules cache;
  _ ← st_modify (fun s => s <| ds_handshake_recv_sequence := seq |>);
  handle_server_flight en msgs.

Definition Flight3_parse (en : Entropy) (cache : HandshakeCache) : FL Flight :=
  recv ← st_get ds_handshake_recv_sequence;
  match full_pull_map recv [mkHandshakeCachePullRule HtHelloVerifyRequest (hc_initial_epoch cfg) false true] cache with
  | Ok (seq, msgs) =>
      match msgs !! HtHelloVerifyRequest with
      | Some m => handle_hello_verify_request seq m
      | None => Flight3_server_flight en cache
      end
  | Err _ => Flight3_server_flight en cache
  | Panic => st_lift Panic
  | OutOfFuel => st_lift OutOfFuel
  end.

(** * [flight1.rs] *)
Definition Flight1_parse (en : Entropy) (cache : HandshakeCache) : FL Flight :=
  recv ← st_get ds_handshake_recv_sequence;
  '(seq, msgs) ← pull_flight recv
    [mkHandshakeCachePullRule HtHelloVerifyRequest (hc_initial_epoch cfg) false true;
     mkHandshakeCachePullRule HtServerHello (hc_initial_epoch cfg) false true] cache;
  if is_some (msgs !! HtServerHello) then Flight3_parse en cache
  else
    match msgs !! HtHelloVerifyRequest with
    | Some m => handle_hello_verify_request seq m
    | None => flight_error InternalError None
    end.

Definition Flight1_generate (en : Entropy) : FL (list Packet) :=
  _ ← st_modify (fun s => s <| ds_local_epoch := 0 |> <| ds_remote_epoch := 0 |>
                            <| ds_named_curve := DEFAULT_NAMED_CURVE |> <| ds_cookie := [] |>
                            <| ds_local_random := HandshakeRandom_populate (en_now en) (en_random_bytes en) |>);
  st_get (fun s => [client_hello_packet s]).
End client.

(** * Flight 5: key agreement, authentication of the server, and the two Finished
    messages ([flight/flight5.rs]) *)
Section client.
Context {P : Profile} {C : Primitives}.
Variable cfg : HandshakeConfig.

Definition Flight5_parse (cache : HandshakeCache) : FL Flight :=
  next_epoch ← st_lift (add16 (hc_initial_epoch cfg) 1);
  recv ← st_get ds_handshake_recv_sequence;
  '(_, msgs) ← pull_flight recv [mkHandshakeCachePullRule HtFinished next_epoch false false] cache;
  match msgs !! HtFinished with
  | Some (HmFinished finished) =>
      let plain_text := pull_and_merge (transcript_rules (hc_initial_epoch cfg) next_epoch) cache in
      s ← st_get id;
      match ds_cipher_suite s with
      | Some _ =>
          expected_verify_data ← flight_try InsufficientSecurity (prf_verify_data_server (ds_master_secret s) plain_text);
          if negb (bool_decide (expected_verify_data = fin_verify_data finished))
          then flight_error HandshakeFailure (Some ErrVerifyDataMismatch)
          else mret Flight5
      | None => mret Flight5
      end
  | _ => flight_error InternalError None
  end.

(** * [initalize_cipher_suite] *)

(** The master secret of the session, for the suite that was chosen *)
Definition derive_master_secret (client_random server_random : bytes) (cache : HandshakeCache)
    (sending_plain_text : bytes) : FL unit :=
  s ← st_get id;
  match ds_cipher_suite s with
  | None => mret tt
  | Some _ =>
      if ds_extended_master_secret s then
        let session_hash := session_hash sha256 (hc_initial_epoch cfg) sending_plain_text cache in
        m ← flight_try IllegalParameter (prf_extended_master_secret (ds_pre_master_secret s) session_hash);
        st_modify (fun s => s <| ds_master_secret := m |>)
      else
        m ← flight_try InternalError (prf_master_secret (ds_pre_master_secret s) client_random server_random);
        st_modify (fun s => s <| ds_master_secret := m |>)
  end.

(** The signature of the key exchange, the certificate chain, and the callback *)
Definition authenticate_server (client_random server_random : bytes) (h : ServerKeyExchange) : FL unit :=
  if negb (signature_scheme_listed cfg (ske_algorithm h))
  then flight_error InsufficientSecurity (Some ErrNoAvailableSignatureSchemes)
  else
    let expected_msg := value_key_message client_random server_random (ske_public_key h) (ske_named_curve h) in
    peer_certificates ← st_get ds_peer_certificates;
    _ ← flight_try BadCertificate
          (verify_key_signature expected_msg (ske_algorithm h) (ske_signature h) peer_certificates);
    chains ← (if negb (hc_insecure_skip_verify cfg) then
                flight_try BadCertificate
                  (verify_server_cert peer_certificates (hc_server_cert_verifier cfg) (hc_server_name cfg))
              else mret []);
    match hc_verify_peer_certificate cfg with
    | Some verify_peer_certificate => flight_try BadCertificate (verify_peer_certificate peer_certificates chains)
    | None => mret tt
    end.

Definition initalize_cipher_suite (cache : HandshakeCache) (h : ServerKeyExchange) (sending_plain_text : bytes)
    : FL unit :=
  s ← st_get id;
  if match ds_cipher_suite s with Some cs => suite_is_initialized cs | None => false end then mret tt
  else
    let client_random := HandshakeRandom_marshal (ds_local_random s) in
    let server_random := HandshakeRandom_marshal (ds_remote_random s) in
    _ ← derive_master_secret client_random server_random cache sending_plain_text;
    _ ← (if negb (is_some (hc_local_psk_callback cfg)) then authenticate_server client_random server_random h
         else mret tt);
    match ds_cipher_suite s with
    | None => mret tt
    | Some cs =>
        master_secret ← st_get ds_master_secret;
        cs ← flight_try InternalError (suite_init master_secret client_random server_random true cs);
        st_modify (fun s => s <| ds_cipher_suite := Some cs |>)
    end.

(** * [generate] *)

(** [h.handshake_header.message_sequence = seq]; the packets of this flight
    that are numbered here are handshakes. *)
Definition set_message_sequence (seq : Z) (p : Packet) : FL (Packet * Handshake) :=
  match rl_content (pk_record p) with
  | CoHandshake h =>
      let h := h <| hs_handshake_header ::= fun hh => hh <| hh_message_sequence := seq |> |> in
      mret (mkPacket ((pk_record p) <| rl_content := CoHandshake h |>) (pk_should_encrypt p), h)
  | _ => flight_error InternalError (Some ErrInvalidContentType)
  end.

(** The loop over the packets that were not sent yet *)
Fixpoint append_unsent (seq_pred : Z) (pkts : list Packet) : FL (list Packet * bytes * Z) :=
  match pkts with
  | [] => mret ([], [], seq_pred)
  | p :: pkts' =>
      '(p, h) ← set_message_sequence seq_pred p;
      seq_pred ← st_lift (add16 seq_pred 1);
      raw ← flight_try InternalError (Handshake_marshal h);
      '(pkts', merged, seq_pred) ← append_unsent seq_pred pkts';
      mret (p :: pkts', raw ++ merged, seq_pred)
  end.

Definition empty_server_key_exchange : ServerKeyExchange :=
  mkServerKeyExchange [] EctUnsupported NcUnsupported [] (mkSignatureHashAlgorithm HashUnsupported SigUnsupported) [].

(** The ServerKeyExchange of the cache; it is optional for PSK. *)
Definition cached_server_key_exchange (en : Entropy) (cache : HandshakeCache) : FL ServerKeyExchange :=
  let server_key_exchange_data :=
    pull_and_merge [mkHandshakeCachePullRule HtServerKeyExchange (hc_initial_epoch cfg) false false] cache in
  if is_empty server_key_exchange_data then
    _ ← handle_server_key_exchange cfg en empty_server_key_exchange;
    mret empty_server_key_exchange
  else
    '(raw_handshake, _) ← flight_try UnexpectedMessage (Handshake_unmarshal server_key_exchange_data);
    match hs_handshake_message raw_handshake with
    | HmServerKeyExchange h => mret h
    | _ => flight_error UnexpectedMessage (Some ErrInvalidContentType)
    end.

(** The Certificate and the ClientKeyExchange *)
Definition client_key_packets (certificate : option Certificate) : FL (list Packet) :=
  s ← st_get id;
  let client_key_exchange :=
    if negb (is_some (hc_local_psk_callback cfg)) then
      mkClientKeyExchange [] (match ds_local_keypair s with Some kp => kp_public_key kp | None => [] end)
    else mkClientKeyExchange (default [] (hc_local_psk_identity_hint cfg)) [] in
  mret ((if ds_remote_requested_certificate s then
           [handshake_packet (HmCertificate (mkMessageCertificate
              (match certificate with Some cert => ct_certificate cert | None => [] end)))]
         else [])
        ++ [handshake_packet (HmClientKeyExchange client_key_exchange)]).

(** The CertificateVerify, if the server asked for a certificate and there is one *)
Definition certificate_verify_packets (en : Entropy) (cache : HandshakeCache) (certificate : option Certificate)
    (merged : bytes) (seq_pred : Z) : FL (list Packet * bytes) :=
  requested ← st_get ds_remote_requested_certificate;
  if requested && negb (is_empty (hc_local_certificates cfg)) then
    let plain_text := pull_and_merge (session_hash_rules (hc_initial_epoch cfg)) cache ++ merged in
    match certificate with
    | None => st_lift Panic
    | Some certificate =>
        signature_hash_algo ← flight_try InsufficientSecurity
          (select_signature_scheme (hc_local_signature_schemes cfg) (pk_kind (ct_private_key certificate)));
        cert_verify ← flight_try InternalError
          (generate_certificate_verify (en_signature en) plain_text (ct_private_key certificate));
        _ ← st_modify (fun s => s <| ds_local_certificates_verify := cert_verify |>);
        '(p, h) ← set_message_sequence seq_pred
           (handshake_packet (HmCertificateVerify (mkMessageCertificateVerify signature_hash_algo cert_verify)));
        raw ← flight_try InternalError (Handshake_marshal h);
        mret ([p], merged ++ raw)
    end
  else mret ([], merged).

(** The client's Finished is computed once; a retransmission sends it again. *)
Definition client_verify_data (cache : HandshakeCache) (merged : bytes) : FL unit :=
  s ← st_get id;
  if is_empty (ds_local_verify_data s) then
    next_epoch ← st_lift (add16 (hc_initial_epoch cfg) 1);
    let plain_text := pull_and_merge (transcript_rules (hc_initial_epoch cfg) next_epoch) cache ++ merged in
    match ds_cipher_suite s with
    | Some _ =>
        data ← flight_try InternalError (prf_verify_data_client (ds_master_secret s) plain_text);
        st_modify (fun s => s <| ds_local_verify_data := data |>)
    | None => mret tt
    end
  else mret tt.

Definition Flight5_generate (en : Entropy) (cache : HandshakeCache) : FL (list Packet) :=
  certificate ← (if negb (is_empty (hc_local_certificates cfg)) then
                   cert ← flight_try HandshakeFailure (get_certificate cfg (hc_server_name cfg)); mret (Some cert)
                 else mret None);
  pkts ← client_key_packets certificate;
  server_key_exchange ← cached_server_key_exchange en cache;
  send ← st_get ds_handshake_send_sequence;
  '(pkts, merged, seq_pred) ← append_unsent (wrap 16 send) pkts;
  _ ← initalize_cipher_suite cache server_key_exchange merged;
  '(verify, merged) ← certificate_verify_packets en cache certificate merged seq_pred;
  _ ← client_verify_data cache merged;
  verify_data ← st_get ds_local_verify_data;
  mret (pkts ++ verify ++ [change_cipher_spec_packet; finished_packet verify_data]).
End client.
