(* ===== verification/DtlsServerFlight.v ===== *)
(** The flights of the server ([flight/flight0.rs], [flight2.rs], [flight4.rs],
    [flight6.rs]). *)
From Stdlib Require Import Strings.String.
From S2P Require Import Prelude Utf8 DtlsTypes DtlsExtension DtlsHandshake DtlsRecord DtlsCache DtlsConn DtlsCrypto DtlsCipher DtlsState DtlsFlight.

Section server.
Context {P : Profile} {C : Primitives}.
Variable cfg : HandshakeConfig.

(** * [flight0.rs] *)
Definition client_hello_rule : HandshakeCachePullRule :=
  mkHandshakeCachePullRule HtClientHello (hc_initial_epoch cfg) true false.

Definition client_hello_extension (e : Extension) : FL unit :=
  match e with
  | ExtSupportedEllipticCurves e =>
      match eec_elliptic_curves e with
      | [] => flight_error InsufficientSecurity (Some ErrNoSupportedEllipticCurves)
      | curve :: _ => st_modify (fun s => s <| ds_named_curve := curve |>)
      end
  | ExtUseSrtp e =>
      match find_matching_srtp_profile (eus_protection_profiles e) (hc_local_srtp_protection_profiles cfg) with
      | Some profile => st_modify (fun s => s <| ds_srtp_protection_profile := profile |>)
      | None => flight_error InsufficientSecurity (Some ErrServerNoMatchingSrtpProfile)
      end
  | ExtUseExtendedMasterSecret _ =>
      st_when (negb (bool_decide (hc_extended_master_secret cfg = EmsDisable)))
        (st_modify (fun s => s <| ds_extended_master_secret := true |>))
  | ExtServerName e => st_modify (fun s => s <| ds_server_name := esn_server_name e |>)
  | _ => mret tt
  end.

Definition handle_client_hello (en : Entropy) (client_hello : ClientHello) : FL Flight :=
  if bool_decide (ch_version client_hello <> PROTOCOL_VERSION1_2)
  then flight_error AdProtocolVersion (Some ErrUnsupportedProtocolVersion)
  else
    _ ← st_modify (fun s => s <| ds_remote_random := ch_random client_hello |>);
    _ ← match find_matching_cipher_suite (ch_cipher_suites client_hello) (hc_local_cipher_suites cfg) with
        | Some id =>
            match cipher_suite_for_id id with
            | Ok cipher_suite => st_modify (fun s => s <| ds_cipher_suite := Some cipher_suite |>)
            | _ => mret tt
            end
        | None => flight_error InsufficientSecurity (Some ErrCipherSuiteNoIntersection)
        end;
    _ ← st_for (ch_extensions client_hello) client_hello_extension;
    ems ← st_get ds_extended_master_secret;
    if bool_decide (hc_extended_master_secret cfg = EmsRequire) && negb ems
    then flight_error InsufficientSecurity (Some ErrServerRequiredButNoClientEms)
    else
      s ← st_get id;
      _ ← match ds_local_keypair s with
          | Some _ => mret tt
          | None =>
              local_keypair ← flight_try IllegalParameter (generate_keypair (en_keypair en) (ds_named_curve s));
              st_modify (fun s => s <| ds_local_keypair := Some local_keypair |>)
          end;
      mret Flight2.

Definition Flight0_parse (en : Entropy) (cache : HandshakeCache) : FL Flight :=
  '(seq, msgs) ← pull_flight 0 [client_hello_rule] cache;
  _ ← st_modify (fun s => s <| ds_handshake_recv_sequence := seq |>);
  match msgs !! HtClientHello with
  | Some (HmClientHello client_hello) => handle_client_hello en client_hello
  | _ => flight_error InternalError None
  end.

Definition Flight0_generate (en : Entropy) : FL (list Packet) :=
  _ ← st_modify (fun s => s <| ds_cookie := en_cookie en |>
                            <| ds_local_epoch := 0 |> <| ds_remote_epoch := 0 |>
                            <| ds_named_curve := DEFAULT_NAMED_CURVE |>
                            <| ds_local_random := HandshakeRandom_populate (en_now en) (en_random_bytes en) |>);
  mret [].

(** * [flight2.rs] *)
Definition Flight2_parse (en : Entropy) (cache : HandshakeCache) : FL Flight :=
  recv ← st_get ds_handshake_recv_sequence;
  match full_pull_map recv [client_hello_rule] cache with
  | Err _ => Flight0_parse en cache
  | Panic => st_lift Panic
  | OutOfFuel => st_lift OutOfFuel
  | Ok (seq, msgs) =>
      _ ← st_modify (fun s => s <| ds_handshake_recv_sequence := seq |>);
      match msgs !! HtClientHello with
      | Some (HmClientHello client_hello) =>
          if bool_decide (ch_version client_hello <> PROTOCOL_VERSION1_2)
          then flight_error AdProtocolVersion (Some ErrUnsupportedProtocolVersion)
          else if is_empty (ch_cookie client_hello) then keep_reading
          else
            cookie ← st_get ds_cookie;
            if negb (bool_decide (cookie = ch_cookie client_hello))
            then flight_error AccessDenied (Some ErrCookieMismatch)
            else mret Flight4
      | _ => flight_error InternalError None
      end
  end.

Definition Flight2_generate : FL (list Packet) :=
  _ ← st_modify (fun s => s <| ds_handshake_send_sequence := 0 |>);
  st_get (fun s => [handshake_packet (HmHelloVerifyRequest (mkHelloVerifyRequest PROTOCOL_VERSION1_2 (ds_cookie s)))]).

(** * [flight4.rs] *)

(** The CertificateVerify of the client *)
Definition check_certificate_verify (cache : HandshakeCache) (h : MessageCertificateVerify) : FL unit :=
  peer_certificates ← st_get ds_peer_certificates;
  if is_empty peer_certificates then flight_error NoCertificate (Some ErrCertificateVerifyNoCertificate)
  else
    let plain_text := pull_and_merge (session_hash_rules (hc_initial_epoch cfg)) cache in
    if negb (signature_scheme_listed cfg (cv_algorithm h))
    then flight_error InsufficientSecurity (Some ErrNoAvailableSignatureSchemes)
    else
      _ ← flight_try BadCertificate
            (verify_certificate_verify plain_text (cv_algorithm h) (cv_signature h) peer_certificates);
      '(chains, verified) ←
        (if ClientAuthType_as VerifyClientCertIfGiven <=? ClientAuthType_as (hc_client_auth cfg) then
           match hc_client_cert_verifier cfg with
           | Some client_cert_verifier =>
               chains ← flight_try BadCertificate (verify_client_cert peer_certificates client_cert_verifier);
               mret (chains, true)
           | None => flight_error BadCertificate (Some ErrInvalidCertificate)
           end
         else mret ([], false));
      _ ← match hc_verify_peer_certificate cfg with
          | Some verify_peer_certificate => flight_try BadCertificate (verify_peer_certificate peer_certificates chains)
          | None => mret tt
          end;
      st_modify (fun s => s <| ds_peer_certificates_verified := verified |>).

Definition server_pre_master_secret (h : ClientKeyExchange) : FL bytes :=
  match hc_local_psk_callback cfg with
  | Some local_psk_callback =>
      psk ← flight_try InternalError (local_psk_callback (cke_identity_hint h));
      _ ← st_modify (fun s => s <| ds_identity_hint := cke_identity_hint h |>);
      mret (prf_psk_pre_master_secret psk)
  | None =>
      keypair ← st_get ds_local_keypair;
      match keypair with
      | Some local_keypair =>
          flight_try IllegalParameter
            (prf_pre_master_secret (cke_public_key h) (kp_private_key local_keypair) (kp_curve local_keypair))
      | None => mret []
      end
  end.

(** The keys of the server, if the suite has none yet *)
Definition initialize_server_suite (cache : HandshakeCache) (h : ClientKeyExchange) : FL unit :=
  s ← st_get id;
  match ds_cipher_suite s with
  | None => mret tt
  | Some cs =>
      if suite_is_initialized cs then mret tt
      else
        let server_random := HandshakeRandom_marshal (ds_local_random s) in
        let client_random := HandshakeRandom_marshal (ds_remote_random s) in
        pre_master_secret ← server_pre_master_secret h;
        m ← flight_try InternalError
              (if ds_extended_master_secret s
               then prf_extended_master_secret pre_master_secret (session_hash sha256 (hc_initial_epoch cfg) [] cache)
               else prf_master_secret pre_master_secret client_random server_random);
        _ ← st_modify (fun s => s <| ds_master_secret := m |>);
        cs ← flight_try InternalError (suite_init m client_random server_random false cs);
        st_modify (fun s => s <| ds_cipher_suite := Some cs |>)
  end.

Definition check_client_auth : FL Flight :=
  s ← st_get id;
  match hc_client_auth cfg with
  | RequireAnyClientCert =>
      if is_empty (ds_peer_certificates s) then flight_error NoCertificate (Some ErrClientCertificateRequired)
      else mret Flight6
  | VerifyClientCertIfGiven =>
      if negb (is_empty (ds_peer_certificates s)) && negb (ds_peer_certificates_verified s)
      then flight_error BadCertificate (Some ErrClientCertificateNotVerified)
      else mret Flight6
  | NoClientCert => mret Flight6
  end.

(** [queue] is the cache once the reader has handled the packets it had queued,
    which it does between the two pulls; [None] if the reader is gone. *)
Definition Flight4_parse (cache : HandshakeCache) (queue : option HandshakeCache) : FL Flight :=
  recv ← st_get ds_handshake_recv_sequence;
  let epoch := hc_initial_epoch cfg in
  '(seq, msgs) ← pull_flight recv
     [mkHandshakeCachePullRule HtCertificate epoch true true;
      mkHandshakeCachePullRule HtClientKeyExchange epoch true false;
      mkHandshakeCachePullRule HtCertificateVerify epoch true true] cache;
  match msgs !! HtClientKeyExchange with
  | Some (HmClientKeyExchange client_key_exchange) =>
      _ ← match msgs !! HtCertificate with
          | Some (HmCertificate h) => st_modify (fun s => s <| ds_peer_certificates := mc_certificate h |>)
          | Some _ => flight_error InternalError None
          | None => mret tt
          end;
      _ ← match msgs !! HtCertificateVerify with
          | Some (HmCertificateVerify h) => check_certificate_verify cache h
          | Some _ => flight_error InternalError None
          | None => mret tt
          end;
      _ ← initialize_server_suite cache client_key_exchange;
      match queue with
      | None => flight_error InternalError (Some (ErrOther "channel closed"))
      | Some cache =>
          next_epoch ← st_lift (add16 epoch 1);
          '(seq, msgs) ← pull_flight seq [mkHandshakeCachePullRule HtFinished next_epoch true false] cache;
          _ ← st_modify (fun s => s <| ds_handshake_recv_sequence := seq |>);
          match msgs !! HtFinished with
          | Some (HmFinished _) => check_client_auth
          | _ => flight_error InternalError None
          end
      end
  | _ => flight_error InternalError None
  end.

Definition server_extensions (s : State) : list Extension :=
  [ExtRenegotiationInfo (mkExtensionRenegotiationInfo 0)]
  ++ (if wants_ems cfg && ds_extended_master_secret s then
        [ExtUseExtendedMasterSecret (mkExtensionUseExtendedMasterSecret true)] else [])
  ++ (if negb (bool_decide (ds_srtp_protection_profile s = SrtpUnsupported)) then
        [ExtUseSrtp (mkExtensionUseSrtp [ds_srtp_protection_profile s])] else [])
  ++ (if negb (is_some (hc_local_psk_callback cfg)) then
        [ExtSupportedEllipticCurves (mkExtensionSupportedEllipticCurves [P256; X25519; P384]);
         ExtSupportedPointFormats (mkExtensionSupportedPointFormats [ELLIPTIC_CURVE_POINT_FORMAT_UNCOMPRESSED])]
      else []).

Definition server_hello_packet (s : State) : Packet :=
  handshake_packet (HmServerHello (mkServerHello PROTOCOL_VERSION1_2 (ds_local_random s)
    (match ds_cipher_suite s with Some cs => suite_id cs | None => CsUnsupported end)
    CompressionNull (server_extensions s))).

(** The signed key exchange, if there is a key *)
Definition key_exchange_packets (en : Entropy) (certificate : Certificate) (a : SignatureHashAlgorithm)
    : FL (list Packet) :=
  s ← st_get id;
  match ds_local_keypair s with
  | None => mret []
  | Some local_keypair =>
      signature ← flight_try InternalError
        (generate_key_signature (en_signature en) (HandshakeRandom_marshal (ds_remote_random s))
           (HandshakeRandom_marshal (ds_local_random s)) (kp_public_key local_keypair) (ds_named_curve s)
           (ct_private_key certificate));
      _ ← st_modify (fun s => s <| ds_local_key_signature := signature |>);
      mret [handshake_packet (HmServerKeyExchange (mkServerKeyExchange [] EctNamedCurve (ds_named_curve s)
              (kp_public_key local_keypair) a signature))]
  end.

Definition certificate_flight_packets (en : Entropy) : FL (list Packet) :=
  certificate ← flight_try HandshakeFailure (get_certificate cfg (hc_server_name cfg));
  signature_hash_algo ← flight_try InsufficientSecurity
    (select_signature_scheme (hc_local_signature_schemes cfg) (pk_kind (ct_private_key certificate)));
  key_exchange ← key_exchange_packets en certificate signature_hash_algo;
  mret ([handshake_packet (HmCertificate (mkMessageCertificate (ct_certificate certificate)))]
        ++ key_exchange
        ++ (if ClientAuthType_as NoClientCert <? ClientAuthType_as (hc_client_auth cfg) then
              [handshake_packet (HmCertificateRequest (mkMessageCertificateRequest [RsaSign; EcdsaSign]
                 (hc_local_signature_schemes cfg)))]
            else [])).

Definition psk_flight_packets : list Packet :=
  match hc_local_psk_identity_hint cfg with
  | Some hint =>
      [handshake_packet (HmServerKeyExchange (mkServerKeyExchange hint EctUnsupported NcUnsupported []
         (mkSignatureHashAlgorithm HashUnsupported SigUnsupported) []))]
  | None => []
  end.

Definition Flight4_generate (en : Entropy) : FL (list Packet) :=
  s ← st_get id;
  pkts ← (if negb (is_some (hc_local_psk_callback cfg)) then certificate_flight_packets en
          else mret psk_flight_packets);
  mret ([server_hello_packet s] ++ pkts ++ [handshake_packet HmServerHelloDone]).

(** * [flight6.rs] *)
Definition Flight6_parse (cache : HandshakeCache) : FL Flight :=
  recv ← st_get ds_handshake_recv_sequence;
  next_epoch ← st_lift (add16 (hc_initial_epoch cfg) 1);
  '(_, msgs) ← pull_flight (recv - 1) [mkHandshakeCachePullRule HtFinished next_epoch true false] cache;
  match msgs !! HtFinished with
  | Some (HmFinished _) => mret Flight6
  | Some _ => flight_error InternalError None
  | None => mret Flight6
  end.

Definition server_verify_data (cache : HandshakeCache) : FL unit :=
  s ← st_get id;
  if is_empty (ds_local_verify_data s) then
    next_epoch ← st_lift (add16 (hc_initial_epoch cfg) 1);
    let plain_text := pull_and_merge (transcript_rules (hc_initial_epoch cfg) next_epoch) cache in
    match ds_cipher_suite s with
    | Some _ =>
        data ← flight_try InternalError (prf_verify_data_server (ds_master_secret s) plain_text);
        st_modify (fun s => s <| ds_local_verify_data := data |>)
    | None => mret tt
    end
  else mret tt.

Definition Flight6_generate (cache : HandshakeCache) : FL (list Packet) :=
  _ ← server_verify_data cache;
  verify_data ← st_get ds_local_verify_data;
  mret [change_cipher_spec_packet; finished_packet verify_data].

(** * The trait [Flight] *)
Definition flight_parse (f : Flight) (en : Entropy) (cache : HandshakeCache) (queue : option HandshakeCache)
    : FL Flight :=
  match f with
  | Flight0 => Flight0_parse en cache
  | Flight1 => Flight1_parse cfg en cache
  | Flight2 => Flight2_parse en cache
  | Flight3 => Flight3_parse cfg en cache
  | Flight4 => Flight4_parse cache queue
  | Flight5 => Flight5_parse cfg cache
  | Flight6 => Flight6_parse cache
  end.

Definition flight_generate (f : Flight) (en : Entropy) (cache : HandshakeCache) : FL (list Packet) :=
  match f with
  | Flight0 => Flight0_generate en
  | Flight1 => Flight1_generate cfg en
  | Flight2 => Flight2_generate
  | Flight3 => Flight3_generate cfg
  | Flight4 => Flight4_generate en
  | Flight5 => Flight5_generate cfg en cache
  | Flight6 => Flight6_generate cache
  end.
End server.
