(* ===== verification/DtlsHandshaker.v ===== *)
(** The state machine of the handshake ([handshaker.rs]): preparing, sending and
    waiting for flights until the handshake is finished. *)
From Stdlib Require Import Strings.String.
From S2P Require Import Prelude Utf8 DtlsTypes DtlsExtension DtlsHandshake DtlsRecord DtlsCache DtlsConn DtlsCrypto DtlsCipher DtlsState DtlsFlight DtlsServerFlight.

Inductive HandshakeState : Type := Preparing | Sending | Waiting | HsFinished.

(** The fields of [DTLSConn] the handshake uses; [hk_written] is what it gave to
    [write_packets], in order. *)
Record Handshaker := mkHandshaker {
  hk_state : State;
  hk_current_flight : Flight;
  hk_flights : option (list Packet);
  hk_retransmit : bool;
  hk_completed : bool;
  hk_written : list (list Packet)
}.

#[export] Instance Handshaker_settable : Settable Handshaker := fun k =>
  mkHandshaker (hk_state k) (hk_current_flight k) (hk_flights k) (hk_retransmit k) (hk_completed k) (hk_written k).

Abbreviation HM A := (ST Handshaker DtlsError A).

(** What the environment gives to one step: why it wakes up, the clock and the
    random bytes, the handshake cache, the cache after the reader has handled its
    queue (if it still runs), and what [write_packets] answers. *)
Inductive Wakeup : Type := Received | TimerExpired | ReaderGone.

Record Event := mkEvent {
  ev_wakeup : Wakeup;
  ev_entropy : Entropy;
  ev_cache : HandshakeCache;
  ev_queue : option HandshakeCache;
  ev_answer : res DtlsError unit
}.

(** The handshake of [DTLSConn::new] *)
Definition Handshaker_new (is_client : bool) : Handshaker :=
  mkHandshaker (State_default <| ds_is_client := is_client |>) (if is_client then Flight1 else Flight0) None false
    false [].

(** A flight works on the state; its error is a value here. *)
Definition on_state {A} (m : FL A) : HM (A + FlightError) := fun k =>
  let '(r, s) := m (hk_state k) in
  let k := k <| hk_state := s |> in
  match r with
  | Ok a => (Ok (inl a), k)
  | Err e => (Ok (inr e), k)
  | Panic => (Panic, k)
  | OutOfFuel => (OutOfFuel, k)
  end.

Section handshaker.
Context {P : Profile} {C : Primitives}.
Variable cfg : HandshakeConfig.

Definition write_packets (ev : Event) (pkts : list Packet) : HM unit :=
  _ ← st_modify (fun k => k <| hk_written ::= fun l => l ++ [pkts] |>);
  st_lift (ev_answer ev).

Definition notify (ev : Event) (level : AlertLevel) (desc : AlertDescription) : HM unit :=
  epoch ← st_get (fun k => ds_local_epoch (hk_state k));
  completed ← st_get hk_completed;
  write_packets ev [mkPacket (RecordLayer_new PROTOCOL_VERSION1_2 epoch (CoAlert (mkAlert level desc))) completed].

(** The error of a call, as a value *)
Definition attempt (m : HM unit) : HM (option DtlsError) := fun k =>
  match m k with
  | (Ok _, k) => (Ok None, k)
  | (Err e, k) => (Ok (Some e), k)
  | (Panic, k) => (Panic, k)
  | (OutOfFuel, k) => (OutOfFuel, k)
  end.

(** A flight failed: its alert is sent, its error returned; an error of the
    alert replaces that of the flight, if there is one. *)
Definition report_error (ev : Event) (e : FlightError) : HM unit :=
  let '(alert, err) := e in
  err ← match alert with
        | None => mret err
        | Some a =>
            alert_err ← attempt (notify ev (al_alert_level a) (al_alert_description a));
            mret (match alert_err, err with Some x, Some _ => Some x | _, _ => err end)
        end;
  match err with Some err => st_raise err | None => mret tt end.

(** The loop of [prepare] over the packets of the flight *)
Fixpoint number_packets (epoch next_epoch : Z) (pkts : list Packet) : HM (list Packet * Z) :=
  match pkts with
  | [] => mret ([], next_epoch)
  | p :: pkts' =>
      e ← st_lift (add16 (rl_epoch (rl_header (pk_record p))) epoch);
      let next_epoch := if next_epoch <? e then e else next_epoch in
      let record := (pk_record p) <| rl_header ::= fun h => h <| rl_epoch := e |> |> in
      record ← match rl_content record with
               | CoHandshake h =>
                   seq ← st_get (fun k => ds_handshake_send_sequence (hk_state k));
                   _ ← st_modify (fun k => k <| hk_state ::= fun s => s <| ds_handshake_send_sequence := seq + 1 |> |>);
                   mret (record <| rl_content := CoHandshake (h <| hs_handshake_header ::= fun hh =>
                           hh <| hh_message_sequence := wrap 16 seq |> |>) |>)
               | _ => mret record
               end;
      '(pkts', next_epoch) ← number_packets epoch next_epoch pkts';
      mret (mkPacket record (pk_should_encrypt p) :: pkts', next_epoch)
  end.

Definition prepare (ev : Event) : HM HandshakeState :=
  flight ← st_get hk_current_flight;
  _ ← st_modify (fun k => k <| hk_flights := None |> <| hk_retransmit := has_retransmit flight |>);
  result ← on_state (flight_generate cfg flight (ev_entropy ev) (ev_cache ev));
  _ ← match result with
      | inr e => report_error ev e
      | inl pkts => st_modify (fun k => k <| hk_flights := Some pkts |>)
      end;
  let epoch := hc_initial_epoch cfg in
  flights ← st_get hk_flights;
  next_epoch ← match flights with
               | None => mret epoch
               | Some pkts =>
                   '(pkts, next_epoch) ← number_packets epoch epoch pkts;
                   _ ← st_modify (fun k => k <| hk_flights := Some pkts |>);
                   mret next_epoch
               end;
  _ ← st_when (negb (epoch =? next_epoch))
        (st_modify (fun k => k <| hk_state ::= fun s => s <| ds_local_epoch := next_epoch |> |>));
  mret Sending.

Definition send (ev : Event) : HM HandshakeState :=
  flights ← st_get hk_flights;
  _ ← match flights with Some pkts => write_packets ev pkts | None => mret tt end;
  flight ← st_get hk_current_flight;
  mret (if is_last_send_flight flight then HsFinished else Waiting).

(** One round of the loop of [wait] *)
Definition wait (ev : Event) : HM HandshakeState :=
  match ev_wakeup ev with
  | ReaderGone => st_raise ErrAlertFatalOrClose
  | TimerExpired =>
      retransmit ← st_get hk_retransmit;
      mret (if retransmit : bool then Sending else Waiting)
  | Received =>
      flight ← st_get hk_current_flight;
      result ← on_state (flight_parse cfg flight (ev_entropy ev) (ev_cache ev) (ev_queue ev));
      match result with
      | inr e => _ ← report_error ev e; mret Waiting
      | inl next_flight =>
          if is_last_recv_flight next_flight && bool_decide (flight = next_flight) then mret HsFinished
          else
            _ ← st_modify (fun k => k <| hk_current_flight := next_flight |>);
            mret Preparing
      end
  end.

(** [finish] has no timer to wait for but the one it starts with. *)
Definition finish (ev : Event) : HM HandshakeState :=
  match ev_wakeup ev with
  | ReaderGone => st_raise ErrAlertFatalOrClose
  | TimerExpired => mret HsFinished
  | Received =>
      flight ← st_get hk_current_flight;
      result ← on_state (flight_parse cfg flight (ev_entropy ev) (ev_cache ev) (ev_queue ev));
      match result with
      | inr e => _ ← report_error ev e; mret HsFinished
      | inl _ => mret Sending
      end
  end.

(** One round of the loop of [handshake]: the next state, or [None] when the
    handshake returns. *)
Definition handshake_step (st : HandshakeState) (ev : Event) : HM (option HandshakeState) :=
  match st with
  | Preparing => next ← prepare ev; mret (Some next)
  | Sending => next ← send ev; mret (Some next)
  | Waiting => next ← wait ev; mret (Some next)
  | HsFinished =>
      completed ← st_get hk_completed;
      if negb completed then
        _ ← st_modify (fun k => k <| hk_completed := true |>);
        mret None
      else next ← finish ev; mret (Some next)
  end.
End handshaker.

Fixpoint handshake {P : Profile} {C : Primitives} (cfg : HandshakeConfig) (st : HandshakeState) (evs : list Event)
    : HM (option HandshakeState) :=
  match evs with
  | [] => mret (Some st)
  | ev :: evs' =>
      next ← handshake_step cfg st ev;
      match next with
      | None => mret None
      | Some st => handshake cfg st evs'
      end
  end.

(** * The connection *)

(** [DTLSConn::new] when it starts the handshake, with a state to resume from or without *)
Definition handshake_start (is_client : bool) (initial_state : option State) : Handshaker * HandshakeState :=
  match initial_state with
  | Some state => (mkHandshaker state (if is_client then Flight5 else Flight6) None false false [], HsFinished)
  | None => (Handshaker_new is_client, Preparing)
  end.

(** What [close] changes, with the handshaker for what it writes: whether the reader
    runs, and the socket is open *)
Record DTLSConn := mkDTLSConn { dt_handshaker : Handshaker; dt_closed : bool; dt_reader_runs : bool; dt_socket_open : bool }.

#[export] Instance DTLSConn_settable : Settable DTLSConn := fun c =>
  mkDTLSConn (dt_handshaker c) (dt_closed c) (dt_reader_runs c) (dt_socket_open c).

Definition on_handshaker {A} (m : HM A) : ST DTLSConn DtlsError A := fun c =>
  let '(r, k) := m (dt_handshaker c) in (r, c <| dt_handshaker := k |>).

(** [conn_closed] is what closing the socket returns. *)
Definition DTLSConn_close (ev : Event) (conn_closed : res DtlsError unit) : ST DTLSConn DtlsError unit :=
  closed ← st_get dt_closed;
  if closed : bool then mret tt
  else
    _ ← st_modify (fun c => c <| dt_closed := true |>);
    _ ← on_handshaker (notify ev AlWarning CloseNotify);
    _ ← st_modify (fun c => c <| dt_reader_runs := false |>);
    _ ← st_modify (fun c => c <| dt_socket_open := false |>);
    st_lift conn_closed.

(** [close] says goodbye in the epoch of the state and stops everything. *)
Lemma close_closes ev conn_closed c : dt_closed c = false -> ev_answer ev = Ok tt ->
  exists c', DTLSConn_close ev conn_closed c = (conn_closed, c') /\
    (dt_closed c', dt_reader_runs c', dt_socket_open c') = (true, false, false) /\
    hk_written (dt_handshaker c') = hk_written (dt_handshaker c) ++
      [[mkPacket (RecordLayer_new PROTOCOL_VERSION1_2 (ds_local_epoch (hk_state (dt_handshaker c))) (CoAlert (mkAlert AlWarning CloseNotify)))
          (hk_completed (dt_handshaker c))]].
Proof.
  intros Hc Ha. unfold DTLSConn_close, on_handshaker, notify, write_packets. st_run. rewrite Hc, Ha. by eexists.
Qed.

(** When the alert cannot be written, [close] leaves the reader running and the socket
    open; and every later [close] returns at once. *)
Lemma close_gives_up ev conn_closed c e : dt_closed c = false -> ev_answer ev = Err e ->
  exists c', DTLSConn_close ev conn_closed c = (Err e, c') /\
    dt_reader_runs c' = dt_reader_runs c /\ dt_socket_open c' = dt_socket_open c /\
    forall ev' conn_closed', DTLSConn_close ev' conn_closed' c' = (Ok tt, c').
Proof.
  intros Hc Ha. unfold DTLSConn_close, on_handshaker, notify, write_packets. st_run. rewrite Hc, Ha. by eexists.
Qed.
