(* ===== verification/DtlsSample.v ===== *)
(** A handshake between the two sides of the model over a network that loses
    nothing, with primitives made up for the purpose: the parties agree on the
    master secret.  It is the input of the witnesses of [DtlsAuth]. *)
From Stdlib Require Import Strings.String.
From S2P Require Import Prelude Utf8 DtlsTypes DtlsExtension DtlsHandshake DtlsRecord DtlsCache DtlsConn DtlsCrypto DtlsCipher DtlsSuite DtlsState DtlsFlight DtlsServerFlight DtlsHandshaker.

#[local] Existing Instance sample_primitives.
#[local] Existing Instance dev_profile.

Definition sample_key : bytes := replicate 4 Byte.x11.
Definition sample_certificate : Certificate :=
  mkCertificate [sample_key] (mkCryptoPrivateKey KeyEcdsa256 sample_key).

Definition sample_config (certificates : list Certificate) : HandshakeConfig :=
  mkHandshakeConfig None None [Tls_Ecdhe_Ecdsa_With_Aes_128_Gcm_Sha256] default_signature_schemes EmsRequest []
    [] NoClientCert certificates (fun _ => None) false None (fun _ _ => Ok tt) None 1000000000 0.

Definition client_config : HandshakeConfig := sample_config [].
Definition server_config : HandshakeConfig := sample_config [sample_certificate].

Definition sample_event (b : byte) (cache : HandshakeCache) : Event :=
  mkEvent Received (mkEntropy 0 (replicate 28 b) (replicate 20 b) (replicate 32 b) []) cache (Some cache) (Ok tt).

(** Both caches get the handshakes that are written. *)
Definition deliver_packet (is_client : bool) (cache : HandshakeCache) (p : Packet) : HandshakeCache :=
  match rl_content (pk_record p) with
  | CoHandshake h =>
      match Handshake_marshal h with
      | Ok data =>
          snd (HandshakeCache_push data (rl_epoch (rl_header (pk_record p)))
                 (hh_message_sequence (hs_handshake_header h)) (hh_handshake_type (hs_handshake_header h))
                 is_client cache)
      | _ => cache
      end
  | _ => cache
  end.

(** One side, until it waits or returns: its state, the cache, and its events *)
Fixpoint run_side (fuel : nat) (cfg : HandshakeConfig) (b : byte) (st : HandshakeState) (k : Handshaker)
    (cache : HandshakeCache) : res DtlsError (option HandshakeState * Handshaker * HandshakeCache * list Event) :=
  match fuel with
  | O => OutOfFuel
  | S fuel' =>
      let ev := sample_event b cache in
      match handshake_step cfg st ev k with
      | (Ok None, k) => Ok (None, k, cache, [ev])
      | (Ok (Some st'), k') =>
          let written := concat (drop (length (hk_written k)) (hk_written k')) in
          let cache := fold_left (deliver_packet (ds_is_client (hk_state k))) written cache in
          match st' with
          | Waiting => Ok (Some Waiting, k', cache, [ev])
          | _ =>
              '(r, k, cache, evs) ← run_side fuel' cfg b st' k' cache;
              Ok (r, k, cache, ev :: evs)
          end
      | (Err e, _) => Err e
      | (Panic, _) => Panic
      | (OutOfFuel, _) => OutOfFuel
      end
  end.

Definition run_client := run_side 8 client_config Byte.x01.
Definition run_server := run_side 8 server_config Byte.x02.

(** The four flights of each side; the events of the client, and both states *)
Definition sample_run : res DtlsError (list Event * option HandshakeState * Handshaker * option HandshakeState * Handshaker) :=
  '(_, k, cache, e1) ← run_client Preparing (Handshaker_new true) [];
  '(_, q, cache, _) ← run_server Preparing (Handshaker_new false) cache;
  '(_, q, cache, _) ← run_server Waiting q cache;
  '(_, k, cache, e2) ← run_client Waiting k cache;
  '(_, q, cache, _) ← run_server Waiting q cache;
  '(_, k, cache, e3) ← run_client Waiting k cache;
  '(server, q, cache, _) ← run_server Waiting q cache;
  '(client, k, cache, e4) ← run_client Waiting k cache;
  Ok (e1 ++ e2 ++ e3 ++ e4, client, k, server, q).

(** Both sides return, with the same master secret, and keys. *)
Example sample_run_completes :
  match sample_run with
  | Ok (_, None, k, None, q) =>
      ds_master_secret (hk_state k) = ds_master_secret (hk_state q) /\ ds_master_secret (hk_state k) <> []
      /\ option_map suite_is_initialized (ds_cipher_suite (hk_state k)) = Some true
  | _ => False
  end.
Proof. vm_compute. split_and!; done. Qed.

Definition sample_events : list Event :=
  match sample_run with Ok (evs, _, _, _, _) => evs | _ => [] end.

(** The server before the last step of its handshake, with the cache it reads *)
Definition sample_before_finished : Handshaker * HandshakeCache :=
  match
    ('(_, k, cache, _) ← run_client Preparing (Handshaker_new true) [];
     '(_, q, cache, _) ← run_server Preparing (Handshaker_new false) cache;
     '(_, q, cache, _) ← run_server Waiting q cache;
     '(_, k, cache, _) ← run_client Waiting k cache;
     '(_, q, cache, _) ← run_server Waiting q cache;
     '(_, _, cache, _) ← run_client Waiting k cache;
     Ok (q, cache))
  with
  | Ok r => r
  | _ => (Handshaker_new false, [])
  end.

(** The client's Finished with other verify data *)
Definition forge_finished (data : bytes) (i : HandshakeCacheItem) : HandshakeCacheItem :=
  if bool_decide (ci_typ i = HtFinished) && ci_is_client i then
    match Handshake_unmarshal (ci_data i) with
    | Ok (h, _) =>
        match Handshake_marshal (mkHandshake (hs_handshake_header h) (HmFinished (mkFinished data))) with
        | Ok raw => mkHandshakeCacheItem HtFinished true (ci_epoch i) (ci_message_sequence i) raw
        | _ => i
        end
    | _ => i
    end
  else i.
