(* ===== verification/DtlsAuth.v ===== *)
(** The handshake of a client authenticates its server: what holds when it
    completes, whatever the network does; and what the server does not check. *)
From Stdlib Require Import Strings.String.
From S2P Require Import Prelude Utf8 DtlsTypes DtlsExtension DtlsHandshake DtlsRecord DtlsCache DtlsConn DtlsCrypto DtlsCipher DtlsState DtlsFlight DtlsServerFlight DtlsHandshaker DtlsSuite DtlsSample.

Create HintDb raises.

(** * Mandatory messages *)

Lemma pull_items_mono rules cache ci0 ci t :
  pull_items rules cache ci0 = Ok ci -> is_Some (ci0 !! t) -> is_Some (ci !! t).
Proof.
  revert ci0. induction rules as [|r rules IH]; intros ci0; cbn [pull_items]; [by intros [= ->]|].
  destruct (pull_one r cache) as [c|]; [|destruct (pr_optional r); [apply IH|done]].
  intros H Ht. eapply IH; [exact H|]. destruct (decide (pr_typ r = t)) as [->|Hne];
    [by rewrite lookup_insert_eq|by rewrite lookup_insert_ne].
Qed.

Lemma pull_items_mandatory rules cache ci0 ci r :
  pull_items rules cache ci0 = Ok ci -> r ∈ rules -> pr_optional r = false -> is_Some (ci !! pr_typ r).
Proof.
  revert ci0. induction rules as [|x rules IH]; intros ci0 H Hr Ho; [by apply elem_of_nil in Hr|].
  cbn [pull_items] in H. apply elem_of_cons in Hr as [->|Hr].
  - destruct (pull_one x cache) as [c|]; [|by rewrite Ho in H].
    eapply pull_items_mono; [exact H|]. by rewrite lookup_insert_eq.
  - destruct (pull_one x cache) as [c|]; [|destruct (pr_optional x); [|done]]; cbn [negb] in H; exact (IH _ H Hr Ho).
Qed.

Lemma parse_items_mono rules ci seq out seq' out' t :
  parse_items rules ci seq out = Ok (seq', out') -> is_Some (out !! t) -> is_Some (out' !! t).
Proof.
  revert seq out. induction rules as [|r rules IH]; intros seq out; cbn [parse_items]; [by intros [= -> ->]|].
  destruct (ci !! pr_typ r) as [i|]; [|apply IH]. intros H Ht.
  apply bind_Ok in H as ([h rest] & _ & H). destruct (negb _); [done|]. eapply IH; [exact H|].
  destruct (decide (pr_typ r = t)) as [->|Hne]; [by rewrite lookup_insert_eq|by rewrite lookup_insert_ne].
Qed.

Lemma parse_items_some rules ci seq out seq' out' r :
  parse_items rules ci seq out = Ok (seq', out') -> r ∈ rules -> is_Some (ci !! pr_typ r) -> is_Some (out' !! pr_typ r).
Proof.
  revert seq out. induction rules as [|x rules IH]; intros seq out H Hr Hs; [by apply elem_of_nil in Hr|].
  cbn [parse_items] in H. apply elem_of_cons in Hr as [->|Hr].
  - destruct Hs as [i Hi]. rewrite Hi in H. apply bind_Ok in H as ([h rest] & _ & H).
    destruct (negb _); [done|]. eapply parse_items_mono; [exact H|]. by rewrite lookup_insert_eq.
  - destruct (ci !! pr_typ x) as [i|]; [|exact (IH _ _ H Hr Hs)]. apply bind_Ok in H as ([h rest] & _ & H).
    destruct (negb _); [done|]. exact (IH _ _ H Hr Hs).
Qed.

(** A pull that succeeds has a message for every rule that is not optional. *)
Lemma full_pull_map_mandatory seq rules cache seq' msgs r :
  full_pull_map seq rules cache = Ok (seq', msgs) -> r ∈ rules -> pr_optional r = false -> is_Some (msgs !! pr_typ r).
Proof.
  intros H Hr Ho. unfold full_pull_map in H. apply bind_Ok in H as (ci & Hci & H).
  eapply parse_items_some; [exact H|exact Hr|]. by eapply pull_items_mandatory.
Qed.

(** * What a completed handshake has established *)
Section auth.
Context {P : Profile} {C : Primitives}.
Variable cfg : HandshakeConfig.

(** The server proved that it holds the key of the first certificate, by its
    signature of both randoms and of its key-exchange key; the chain and the
    callback accepted its certificates. *)
Definition server_authenticated (s : State) : Prop :=
  let certs := ds_peer_certificates s in
  let chains := if hc_insecure_skip_verify cfg then [] else certs in
  exists h : ServerKeyExchange,
    signature_scheme_listed cfg (ske_algorithm h) = true
    /\ verify_key_signature
         (value_key_message (HandshakeRandom_marshal (ds_local_random s)) (HandshakeRandom_marshal (ds_remote_random s))
            (ske_public_key h) (ske_named_curve h)) (ske_algorithm h) (ske_signature h) certs = Ok tt
    /\ (hc_insecure_skip_verify cfg = false ->
        verify_server_cert certs (hc_server_cert_verifier cfg) (hc_server_name cfg) = Ok certs)
    /\ (forall f, hc_verify_peer_certificate cfg = Some f -> f certs chains = Ok tt).

(** The record keys come from the master secret. *)
Definition client_keyed (s : State) : Prop :=
  exists cs0 cs, suite_init (ds_master_secret s) (HandshakeRandom_marshal (ds_local_random s))
                   (HandshakeRandom_marshal (ds_remote_random s)) true cs0 = Ok cs
  /\ ds_cipher_suite s = Some cs.

(** The server's Finished is the one of its transcript under the master secret. *)
Definition server_finished (s : State) : Prop :=
  exists cache recv seq msgs finished next_epoch,
    full_pull_map recv [mkHandshakeCachePullRule HtFinished next_epoch false false] cache = Ok (seq, msgs)
    /\ msgs !! HtFinished = Some (HmFinished finished)
    /\ prf_verify_data_server (ds_master_secret s)
         (pull_and_merge (transcript_rules (hc_initial_epoch cfg) next_epoch) cache) = Ok (fin_verify_data finished).

(** What these are about *)
Definition secrets (s : State) :=
  (ds_local_random s, ds_remote_random s, ds_master_secret s, ds_cipher_suite s, ds_peer_certificates s).

Definition established (s : State) : Prop := server_authenticated s /\ client_keyed s.

Lemma established_secrets s s' : secrets s = secrets s' -> established s -> established s'.
Proof. unfold secrets, established, server_authenticated, client_keyed. by intros [= -> -> -> -> ->]. Qed.

Lemma finished_secrets s s' : secrets s = secrets s' -> server_finished s -> server_finished s'.
Proof. unfold secrets, server_finished. by intros [= _ _ -> _ _]. Qed.

(** The suite of the session: not there yet or without keys; there without keys *)
Definition suite_unkeyed (cs : option Suite) : Prop :=
  match cs with Some cs => suite_is_initialized cs = false | None => True end.

Definition suite_chosen (cs : option Suite) : Prop := exists cs0, cs = Some cs0 /\ suite_is_initialized cs0 = false.

Lemma chosen_unkeyed cs : suite_chosen cs -> suite_unkeyed cs.
Proof. by intros (cs0 & -> & H). Qed.

Lemma cipher_suite_for_id_unkeyed id cs : cipher_suite_for_id id = Ok cs -> suite_is_initialized cs = false.
Proof. by destruct id; intros [= <-]. Qed.

Lemma flight_try_stable {A T} (f : State -> T) d (r : res DtlsError A) : stable f (flight_try d r).
Proof. by destruct r. Qed.

Lemma flight_error_stable {A T} (f : State -> T) d e : stable f (flight_error (A := A) d e).
Proof. done. Qed.

#[local] Hint Resolve flight_try_stable flight_error_stable : stable.

(** After the parse of flight 1 or 3 *)
Definition hello_post (f : Flight) (s : State) : Prop :=
  (f = Flight3 /\ suite_unkeyed (ds_cipher_suite s)) \/ (f = Flight5 /\ suite_chosen (ds_cipher_suite s)).

Definition unkeyed_state (s : State) : Prop := suite_unkeyed (ds_cipher_suite s).
Definition chosen_state (s : State) : Prop := suite_chosen (ds_cipher_suite s).

Lemma hello_verify_partial seq m :
  partial unkeyed_state (handle_hello_verify_request seq m) hello_post (fun _ => unkeyed_state).
Proof.
  destruct m; try (apply partial_raise; done). cbn [handle_hello_verify_request].
  destruct (_ && _); [by apply partial_raise|].
  eapply (partial_modify _ unkeyed_state); [done|]. apply partial_ret. intros s Hs. by left.
Qed.

Lemma server_hello_extension_stable e : stable ds_cipher_suite (server_hello_extension cfg e).
Proof. destruct e; cbn [server_hello_extension]; stab. Qed.

Lemma server_hello_partial h :
  partial unkeyed_state (handle_server_hello cfg h) (fun _ => chosen_state) (fun _ => unkeyed_state).
Proof.
  unfold handle_server_hello. destruct (bool_decide _); [by apply partial_raise|].
  eapply partial_bind.
  { apply (partial_stable ds_cipher_suite suite_unkeyed). apply stable_for. apply server_hello_extension_stable. }
  intros ?. apply partial_get. intros ems. destruct (_ && _); [apply partial_raise; by intros s []|].
  apply partial_get. intros profile. destruct (_ && _); [apply partial_raise; by intros s [[] _]|].
  destruct (find_matching_cipher_suite _ _); [|apply partial_raise; by intros s [[] _]].
  destruct (cipher_suite_for_id _) as [cs|e| |] eqn:Hcs; try (apply partial_raise; by intros s [[] _]).
  apply partial_modify_last. intros s _. exists cs. split; [done|]. by eapply cipher_suite_for_id_unkeyed.
Qed.

Lemma server_key_exchange_stable en h : stable ds_cipher_suite (handle_server_key_exchange cfg en h).
Proof. unfold handle_server_key_exchange. stab. Qed.

(** A call that leaves the suite alone leaves it without keys. *)
Lemma chosen_stable {A} (m : FL A) :
  stable ds_cipher_suite m -> partial chosen_state m (fun _ => chosen_state) (fun _ => unkeyed_state).
Proof.
  intros Hm. eapply partial_conseq; [| | |apply (partial_stable ds_cipher_suite suite_chosen m Hm)]; try done.
  intros e s. apply chosen_unkeyed.
Qed.

Lemma server_flight_partial en msgs : is_Some (msgs !! HtServerHello) ->
  partial unkeyed_state (handle_server_flight cfg en msgs) hello_post (fun _ => unkeyed_state).
Proof.
  intros [m Hm]. unfold handle_server_flight. rewrite Hm.
  eapply (partial_bind _ _ _ (fun _ => chosen_state)).
  { destruct m; try (by apply partial_raise). apply server_hello_partial. }
  intros ?. eapply partial_bind; [apply chosen_stable; stab|]. intros ?.
  eapply partial_bind.
  { apply chosen_stable. pose proof server_key_exchange_stable. stab. }
  intros ?. eapply partial_bind; [apply chosen_stable; stab|]. intros ?.
  apply partial_ret. intros s Hs. by right.
Qed.

Lemma pull_flight_partial (Pre : State -> Prop) seq rules cache :
  partial Pre (pull_flight seq rules cache)
    (fun r s => Pre s /\ full_pull_map seq rules cache = Ok r) (fun e s => Pre s /\ e = (None, None)).
Proof. unfold pull_flight. intros s Hs. by destruct (full_pull_map seq rules cache). Qed.

Lemma flight3_server_partial en cache :
  partial unkeyed_state (Flight3_server_flight cfg en cache) hello_post (fun _ => unkeyed_state).
Proof.
  unfold Flight3_server_flight. apply partial_get. intros recv.
  eapply partial_bind; [eapply partial_conseq; [intros s Hs; exact Hs| | |apply pull_flight_partial]; [done|]|].
  { by intros e s [[? ?] ->]. }
  intros [seq msgs]. cbn beta iota.
  eapply (partial_modify _ (fun s => unkeyed_state s /\ is_Some (msgs !! HtServerHello))).
  { intros s [[Hs _] Hpull]. split; [done|].
    eapply (full_pull_map_mandatory _ _ _ _ _ (mkHandshakeCachePullRule HtServerHello (hc_initial_epoch cfg) false false));
      [exact Hpull| |done]. unfold flight3_rules. destruct (is_some _); by left. }
  intros s [Hs Hm]. by apply server_flight_partial.
Qed.

Lemma flight3_parse_partial en cache :
  partial unkeyed_state (Flight3_parse cfg en cache) hello_post (fun _ => unkeyed_state).
Proof.
  unfold Flight3_parse. apply partial_get. intros recv.
  apply (partial_pre _ unkeyed_state); [by intros s []|].
  destruct (full_pull_map recv _ cache) as [[seq msgs]|e| |]; [|apply flight3_server_partial|by intros s ?|by intros s ?].
  destruct (msgs !! HtHelloVerifyRequest); [apply hello_verify_partial|apply flight3_server_partial].
Qed.

Lemma flight1_parse_partial en cache :
  partial unkeyed_state (Flight1_parse cfg en cache) hello_post (fun _ => unkeyed_state).
Proof.
  unfold Flight1_parse. apply partial_get. intros recv.
  eapply partial_bind.
  { eapply partial_conseq; [| | |apply (pull_flight_partial unkeyed_state)]; [by intros s []|done|by intros e s []]. }
  intros [seq msgs]. apply (partial_pre _ unkeyed_state); [by intros s []|].
  destruct (is_some _); [apply flight3_parse_partial|].
  destruct (msgs !! HtHelloVerifyRequest); [apply hello_verify_partial|by apply partial_raise].
Qed.

(** * Flight 5 *)

(** [raises m]: every error of the call is returned to the caller; none lets the
    handshake go on. *)
Definition raises {A} (m : FL A) : Prop :=
  partial (fun _ => True) m (fun _ _ => True) (fun e _ => is_Some (snd e)).

Lemma raises_ret {A} (a : A) : raises (mret a). Proof. done. Qed.
Lemma raises_get {A} (f : State -> A) : raises (st_get f). Proof. done. Qed.
Lemma raises_modify (f : State -> State) : raises (st_modify f). Proof. done. Qed.
Lemma raises_panic {A} : raises (A := A) (st_lift Panic). Proof. done. Qed.
Lemma raises_error {A} d e : raises (A := A) (flight_error d (Some e)). Proof. intros s _. by eexists. Qed.

Lemma raises_arith w z : raises (st_lift (arith w z)).
Proof. intros s _. cbn. destruct (arith w z) eqn:H; try done. by apply arith_not_Err in H. Qed.

Lemma raises_try {A} d (r : res DtlsError A) : raises (flight_try d r).
Proof. intros s _. destruct r; try done. by eexists. Qed.

Lemma raises_bind {A B} (m : FL A) (f : A -> FL B) : raises m -> (forall a, raises (f a)) -> raises (m ≫= f).
Proof. intros Hm Hf. eapply partial_bind; [exact Hm|]. intros a. apply Hf. Qed.

#[local] Hint Resolve raises_ret raises_get raises_modify raises_panic raises_error raises_arith raises_try : raises.

Ltac solve_raises :=
  repeat first [ solve [auto with raises nocore] | apply raises_bind; [|intros] | case_match ].

Lemma set_message_sequence_raises seq p : raises (set_message_sequence seq p).
Proof. unfold set_message_sequence. solve_raises. Qed.
#[local] Hint Resolve set_message_sequence_raises : raises.

Lemma append_unsent_raises seq pkts : raises (append_unsent seq pkts).
Proof.
  revert seq. induction pkts as [|p pkts IH]; intros seq; cbn [append_unsent]; [solve_raises|].
  solve_raises.
Qed.

Lemma handle_server_key_exchange_raises en h : raises (handle_server_key_exchange cfg en h).
Proof. unfold handle_server_key_exchange. solve_raises. Qed.
#[local] Hint Resolve append_unsent_raises handle_server_key_exchange_raises : raises.

Lemma Flight5_generate_raises en cache : raises (Flight5_generate cfg en cache).
Proof.
  unfold Flight5_generate, client_key_packets, cached_server_key_exchange, initalize_cipher_suite,
    derive_master_secret, authenticate_server, certificate_verify_packets, client_verify_data.
  solve_raises.
Qed.

(** What [initalize_cipher_suite] leaves alone before it sets the keys *)
Definition hello_part (s : State) :=
  (ds_local_random s, ds_remote_random s, ds_peer_certificates s, ds_cipher_suite s).

Lemma verify_server_cert_chains certs verifier name chains :
  verify_server_cert certs verifier name = Ok chains -> chains = certs.
Proof.
  unfold verify_server_cert, load_certs. intros H. apply bind_Ok in H as (c & Hc & H).
  apply bind_Ok in H as (? & _ & H). apply bind_Ok in H as (? & _ & [= <-]). by destruct certs; inversion Hc.
Qed.

Lemma flight_try_partial {A} (Pre : State -> Prop) d (r : res DtlsError A) :
  partial Pre (flight_try d r) (fun a s => Pre s /\ r = Ok a) (fun _ _ => True).
Proof. intros s Hs. by destruct r. Qed.

Lemma authenticate_server_partial x h :
  partial (fun s => hello_part s = hello_part x)
    (authenticate_server cfg (HandshakeRandom_marshal (ds_local_random x)) (HandshakeRandom_marshal (ds_remote_random x)) h)
    (fun _ s => hello_part s = hello_part x /\ server_authenticated s) (fun _ _ => True).
Proof.
  unfold authenticate_server. destruct (signature_scheme_listed _ _) eqn:Hlisted; [|by apply partial_raise].
  cbn [negb]. apply partial_get. intros certs.
  eapply partial_bind; [apply flight_try_partial|]. intros [].
  set (chains := if hc_insecure_skip_verify cfg then [] else certs).
  eapply (partial_bind _ _ _ (fun c s => (hello_part s = hello_part x /\ ds_peer_certificates s = certs)
    /\ verify_key_signature (value_key_message (HandshakeRandom_marshal (ds_local_random x))
          (HandshakeRandom_marshal (ds_remote_random x)) (ske_public_key h) (ske_named_curve h))
          (ske_algorithm h) (ske_signature h) certs = Ok tt
    /\ c = chains /\ (hc_insecure_skip_verify cfg = false ->
        verify_server_cert certs (hc_server_cert_verifier cfg) (hc_server_name cfg) = Ok certs))).
  { unfold chains. destruct (hc_insecure_skip_verify cfg); cbn [negb].
    - apply partial_ret. by intros s [[? ?] ?].
    - intros s ([? ?] & ?). unfold flight_try. destruct (verify_server_cert _ _ _) eqn:Hv; try done.
      apply verify_server_cert_chains in Hv as Hc. by subst. }
  intros c. apply partial_pure. intros s0 (([= Hl Hr Hp Hcs] & Hcerts) & Hsig & -> & Hchain).
  assert (forall s, s = s0 -> (forall f, hc_verify_peer_certificate cfg = Some f -> f certs chains = Ok tt) ->
          hello_part s = hello_part x /\ server_authenticated s) as Hdone.
  { intros s -> Hf. split; [unfold hello_part; congruence|]. exists h. rewrite Hcerts, Hl, Hr. by fold chains. }
  destruct (hc_verify_peer_certificate cfg) as [f|] eqn:Hf; [|by apply partial_ret; intros; apply Hdone].
  eapply partial_post; [|apply flight_try_partial].
  intros [] s [Hs Hok]. apply Hdone; [done|]. by intros f' [= <-].
Qed.

Lemma derive_master_secret_stable cr sr cache merged : stable hello_part (derive_master_secret cfg cr sr cache merged).
Proof. unfold derive_master_secret. stab. Qed.

Lemma initalize_partial cache h merged : hc_local_psk_callback cfg = None ->
  partial chosen_state (initalize_cipher_suite cfg cache h merged) (fun _ => established) (fun _ _ => True).
Proof.
  intros Hpsk. unfold initalize_cipher_suite. apply partial_get. intros x.
  apply (partial_pre _ (fun s => s = x /\ chosen_state x)); [by intros s [? <-]|].
  apply partial_pure. intros ? (-> & cs0 & Hcs & Hun). rewrite Hcs, Hun, Hpsk. cbn [is_some negb].
  eapply partial_bind.
  { apply (partial_pre _ (fun s => hello_part s = hello_part x)); [by intros ? ->|].
    eapply partial_err; [|apply (partial_stable hello_part (fun t => t = hello_part x)), derive_master_secret_stable].
    done. }
  intros ?. eapply partial_bind; [apply authenticate_server_partial|]. intros ?.
  apply partial_get. intros m. eapply partial_bind; [apply flight_try_partial|]. intros cs.
  apply partial_modify_last. intros s (([Hpart Hauth] & Hm) & Hinit). unfold hello_part in Hpart.
  injection Hpart as Hl Hr Hp Hc. split; [exact Hauth|]. exists cs0, cs. split; [|done].
  change (ds_master_secret (s <| ds_cipher_suite := Some cs |>)) with (ds_master_secret s).
  change (ds_local_random (s <| ds_cipher_suite := Some cs |>)) with (ds_local_random s).
  change (ds_remote_random (s <| ds_cipher_suite := Some cs |>)) with (ds_remote_random s).
  by rewrite Hm, Hl, Hr.
Qed.

Lemma established_stable {A} (m : FL A) :
  stable secrets m -> partial established m (fun _ => established) (fun _ _ => True).
Proof.
  intros Hm s Hs. specialize (Hm s). destruct (m s) as [[a|e| |] s']; cbn in *; try done.
  by eapply established_secrets.
Qed.

Lemma set_message_sequence_stable {T} (f : State -> T) seq p : stable f (set_message_sequence seq p).
Proof. unfold set_message_sequence. stab. Qed.
#[local] Hint Resolve @set_message_sequence_stable : stable.

Lemma append_unsent_stable {T} (f : State -> T) seq pkts : stable f (append_unsent seq pkts).
Proof.
  revert seq. induction pkts as [|p pkts IH]; intros seq; cbn [append_unsent]; [stab|].
  apply stable_bind; [auto with stable|]. intros [p' h]. stab.
Qed.

(** The calls before the suite has its keys *)
Lemma chosen_any {A} (m : FL A) :
  stable ds_cipher_suite m -> partial chosen_state m (fun _ => chosen_state) (fun _ _ => True).
Proof. intros Hm. eapply partial_err; [|by apply chosen_stable]. done. Qed.

Lemma flight5_generate_established en cache : hc_local_psk_callback cfg = None ->
  partial chosen_state (Flight5_generate cfg en cache) (fun _ => established) (fun _ _ => True).
Proof.
  intros Hpsk. unfold Flight5_generate.
  eapply partial_bind; [apply chosen_any; stab|]. intros certificate.
  eapply partial_bind; [apply chosen_any; unfold client_key_packets; stab|]. intros pkts.
  eapply partial_bind.
  { apply chosen_any. unfold cached_server_key_exchange. pose proof server_key_exchange_stable. stab. }
  intros h. apply partial_get. intros seq. apply (partial_pre _ chosen_state); [by intros s []|].
  eapply partial_bind; [apply chosen_any, append_unsent_stable|]. intros [[pkts' merged] seq_pred].
  eapply partial_bind; [by apply initalize_partial|]. intros [].
  eapply partial_bind; [apply established_stable; unfold certificate_verify_packets; stab|].
  intros [verify merged']. eapply partial_bind; [apply established_stable; unfold client_verify_data; stab|].
  intros []. apply partial_get. intros d. apply partial_ret. by intros s [Hs _].
Qed.

Lemma flight5_generate_partial en cache : hc_local_psk_callback cfg = None ->
  partial chosen_state (Flight5_generate cfg en cache) (fun _ => established) (fun e _ => is_Some (snd e)).
Proof.
  intros Hpsk s Hs. pose proof (flight5_generate_established en cache Hpsk s Hs) as H.
  pose proof (Flight5_generate_raises en cache s I) as He. by destruct (Flight5_generate cfg en cache s) as [[a|e| |] s'].
Qed.

(** The parse of flight 5 changes nothing, and accepts only a Finished that verifies. *)
Lemma flight5_parse_partial cache s0 : is_Some (ds_cipher_suite s0) ->
  partial (fun s => s = s0) (Flight5_parse cfg cache) (fun f s => s = s0 /\ f = Flight5 /\ server_finished s0)
    (fun _ s => s = s0).
Proof.
  intros [cs Hcs]. unfold Flight5_parse.
  eapply (partial_bind _ _ _ (fun _ s => s = s0)); [by apply partial_lift|]. intros next_epoch.
  apply partial_get. intros recv.
  eapply partial_bind.
  { eapply partial_err; [|eapply partial_pre; [|apply (pull_flight_partial (fun s => s = s0))]].
    - by intros e s [-> _].
    - by intros s [-> _]. }
  intros [seq msgs]. apply partial_pure. intros ? [-> Hpull].
  destruct (msgs !! HtFinished) as [m|] eqn:Hm; [|by apply partial_raise].
  destruct m; try (by apply partial_raise).
  apply partial_get. intros x. apply partial_pure. intros ? [-> <-]. cbn [id]. rewrite Hcs.
  eapply (partial_bind _ _ _ (fun d s => s = s0 /\ prf_verify_data_server (ds_master_secret s0)
    (pull_and_merge (transcript_rules (hc_initial_epoch cfg) next_epoch) cache) = Ok d)).
  { intros s ->. by destruct (prf_verify_data_server _ _). }
  intros d. destruct (negb _) eqn:Hd; [apply partial_raise; by intros s []|].
  apply partial_ret. intros s [-> Hprf]. split_and!; [done|done|].
  exists cache, recv, seq, msgs, m, next_epoch. split_and!; [done|done|].
  apply negb_false_iff, bool_decide_eq_true in Hd. by rewrite <- Hd.
Qed.

(** * The state machine *)

(** In flights 1 and 3 the suite has no keys; in flight 5 the server is
    authenticated once the flight is prepared, and its Finished is verified once
    the handshake is finished. *)
Definition client_inv (st : HandshakeState) (k : Handshaker) : Prop :=
  hk_completed k = false /\
  match hk_current_flight k with
  | Flight1 | Flight3 => st <> HsFinished /\ unkeyed_state (hk_state k)
  | Flight5 =>
      match st with
      | Preparing => chosen_state (hk_state k)
      | Sending | Waiting => established (hk_state k)
      | HsFinished => established (hk_state k) /\ server_finished (hk_state k)
      end
  | _ => False
  end.

Definition view (k : Handshaker) := (secrets (hk_state k), hk_current_flight k, hk_completed k).

Lemma client_inv_view st k k' : view k = view k' -> client_inv st k -> client_inv st k'.
Proof.
  unfold view, client_inv. intros H. assert (secrets (hk_state k) = secrets (hk_state k')) as Hs by congruence.
  replace (hk_current_flight k') with (hk_current_flight k) by congruence.
  replace (hk_completed k') with (hk_completed k) by congruence.
  assert (ds_cipher_suite (hk_state k') = ds_cipher_suite (hk_state k)) as Hcs by (unfold secrets in Hs; congruence).
  unfold unkeyed_state, chosen_state. rewrite Hcs. intros [Hc Hf]. split; [exact Hc|].
  destruct (hk_current_flight k); try exact Hf.
  destruct st; try exact Hf; [by eapply established_secrets..|].
  destruct Hf. split; [by eapply established_secrets|by eapply finished_secrets].
Qed.

(** A flight on the state: the other fields are as before. *)
Definition others (k : Handshaker) := (hk_current_flight k, hk_flights k, hk_retransmit k, hk_completed k, hk_written k).

Lemma on_state_partial {A} k0 (Pre : State -> Prop) (m : FL A) Q R :
  partial Pre m Q R ->
  partial (fun k => Pre (hk_state k) /\ others k = others k0) (on_state m)
    (fun r k => others k = others k0 /\ match r with inl a => Q a (hk_state k) | inr e => R e (hk_state k) end)
    (fun _ _ => False).
Proof.
  intros Hm k [Hk Ho]. specialize (Hm _ Hk). unfold on_state.
  destruct (m (hk_state k)) as [[a|e| |] s]; cbn; split; by try exact Ho.
Qed.

Lemma report_error_stable ev e : stable view (report_error ev e).
Proof.
  unfold report_error. destruct e as [alert err]. apply stable_bind.
  - destruct alert as [a|]; [|stab]. apply stable_bind; [|stab].
    intros k. unfold attempt.
    assert (stable view (notify ev (al_alert_level a) (al_alert_description a))) as Hn
      by (unfold notify, write_packets; stab).
    specialize (Hn k). by destruct (notify _ _ _ k) as [[?|?| |] ?].
  - intros err'. stab.
Qed.

Lemma attempt_not_Err m k e k' : attempt m k <> (Err e, k').
Proof. unfold attempt. by destruct (m k) as [[?|?| |] ?]. Qed.

(** An error that carries one for the caller ends the handshake. *)
Lemma report_error_raises ev e k u k' : is_Some (snd e) -> report_error ev e k <> (Ok u, k').
Proof.
  destruct e as [alert err]. intros [x Hx]. cbn [snd] in Hx. subst err. unfold report_error.
  destruct alert as [a|]; [|done]. unfold mbind at 2. unfold st_bind at 2. unfold mbind, st_bind.
  destruct (attempt _ k) as [[[y|]|?| |] ?]; done.
Qed.

Lemma number_packets_stable epoch next pkts : stable view (number_packets epoch next pkts).
Proof.
  revert next. induction pkts as [|p pkts IH]; intros next; cbn [number_packets]; [stab|].
  apply stable_bind; [auto with stable|]. intros e. apply stable_bind.
  - stab.
  - intros record. apply stable_bind; [apply IH|]. intros []. auto with stable.
Qed.

(** [generate] in the three flights of the client *)
Lemma generate_partial f en cache : hc_local_psk_callback cfg = None ->
  match f with
  | Flight1 | Flight3 => partial unkeyed_state (flight_generate cfg f en cache) (fun _ => unkeyed_state) (fun _ => unkeyed_state)
  | Flight5 => partial chosen_state (flight_generate cfg f en cache) (fun _ => established) (fun e _ => is_Some (snd e))
  | _ => True
  end.
Proof.
  intros Hpsk. destruct f; try done; cbn [flight_generate].
  - apply (partial_stable ds_cipher_suite suite_unkeyed). unfold Flight1_generate. stab.
  - apply (partial_stable ds_cipher_suite suite_unkeyed). unfold Flight3_generate. stab.
  - by apply flight5_generate_partial.
Qed.

(** Before the packets of a prepared flight are numbered *)
Definition prepared (k : Handshaker) : Prop :=
  hk_completed k = false /\
  match hk_current_flight k with
  | Flight1 | Flight3 => unkeyed_state (hk_state k)
  | Flight5 => established (hk_state k)
  | _ => False
  end.

Lemma prepared_sending k : prepared k -> client_inv Sending k.
Proof. intros [Hc Hf]. split; [exact Hc|]. by destruct (hk_current_flight k). Qed.

Lemma prepare_partial ev : hc_local_psk_callback cfg = None ->
  partial (client_inv Preparing) (prepare cfg ev) (fun st k => client_inv st k) (fun _ _ => True).
Proof.
  intros Hpsk. unfold prepare. apply partial_get. intros f.
  eapply (partial_modify _ (fun k => client_inv Preparing k /\ hk_current_flight k = f)).
  { intros k [Hk Hf]. split; [|exact Hf]. by eapply client_inv_view. }
  apply partial_pure. intros k0 [[Hcompl Hinv] Hf].
  eapply (partial_bind _ _ _ (fun r k => others k = others k0 /\ match r with
    | inl _ => prepared k | inr e => is_Some (snd e) \/ prepared k end)).
  { unfold prepared. pose proof (generate_partial f (ev_entropy ev) (ev_cache ev) Hpsk) as Hg. rewrite Hf in Hinv.
    destruct f; try done;
      (eapply partial_err; [|eapply partial_post; [|eapply partial_pre; [|apply (on_state_partial k0 _ _ _ _ Hg)]]];
       [done| |intros k ->; split; [try exact Hinv; by destruct Hinv|done]]);
      intros [a|e] k [Ho Hq]; (split; [exact Ho|]); unfold others in Ho;
      replace (hk_completed k) with (hk_completed k0) by congruence;
      replace (hk_current_flight k) with (hk_current_flight k0) by congruence; rewrite Hf; auto. }
  intros r. eapply (partial_bind _ _ _ (fun _ => client_inv Sending)).
  { destruct r as [pkts|e].
    - apply partial_modify_last. intros k [_ Hk]. by apply prepared_sending.
    - intros k [_ Hk]. destruct (report_error ev e k) as [[u|x| |] k'] eqn:Hr; try done.
      destruct Hk as [Hsome|Hk]; [by apply report_error_raises in Hr|].
      apply (client_inv_view Sending k); [|by apply prepared_sending].
      pose proof (report_error_stable ev e k) as Hs. by rewrite Hr in Hs. }
  intros []. apply partial_get. intros flights. apply (partial_pre _ (client_inv Sending)); [by intros k []|].
  assert (forall {A} (m : HM A), stable view m -> partial (client_inv Sending) m (fun _ => client_inv Sending) (fun _ _ => True)) as Hkeep.
  { intros A m Hm. eapply partial_err; [|apply (partial_keep view); [apply client_inv_view|exact Hm]]. done. }
  eapply partial_bind.
  { apply Hkeep. destruct flights as [pkts|]; [|stab]. apply stable_bind; [apply number_packets_stable|]. intros []. stab. }
  intros next_epoch. eapply partial_bind; [apply Hkeep; stab|]. intros []. by apply partial_ret.
Qed.

Lemma send_partial ev : partial (client_inv Sending) (send ev) (fun st k => client_inv st k) (fun _ _ => True).
Proof.
  unfold send. apply partial_get. intros flights. apply (partial_pre _ (client_inv Sending)); [by intros k []|].
  eapply partial_bind.
  { eapply partial_err; [|apply (partial_keep view); [apply client_inv_view|]]; [done|].
    destruct flights; [unfold write_packets|]; stab. }
  intros []. apply partial_get. intros f. apply partial_ret. intros k [[Hc Hinv] <-]. split; [exact Hc|].
  destruct (hk_current_flight k); try done; cbn [is_last_send_flight]; by try (split; [done|apply Hinv]).
Qed.

(** [parse] in the flights of the client; flight 5 is the last. *)
Lemma parse_partial f en cache queue s0 :
  match f with
  | Flight1 | Flight3 => unkeyed_state s0
  | Flight5 => is_Some (ds_cipher_suite s0)
  | _ => False
  end ->
  partial (fun s => s = s0) (flight_parse cfg f en cache queue)
    (fun g s => match f with Flight5 => s = s0 /\ g = Flight5 /\ server_finished s0 | _ => hello_post g s end)
    (fun _ s => match f with Flight5 => s = s0 | _ => unkeyed_state s end).
Proof.
  destruct f; try done; cbn [flight_parse]; intros H.
  - eapply partial_pre; [|apply flight1_parse_partial]. by intros ? ->.
  - eapply partial_pre; [|apply flight3_parse_partial]. by intros ? ->.
  - by apply flight5_parse_partial.
Qed.

Lemma wait_partial ev : partial (client_inv Waiting) (wait cfg ev) (fun st k => client_inv st k) (fun _ _ => True).
Proof.
  unfold wait. destruct (ev_wakeup ev); [| |by apply partial_raise].
  2: { apply partial_get. intros b. apply partial_ret. intros k [[Hc Hk] _]. split; [exact Hc|].
       destruct (hk_current_flight k); try done; destruct b; by try (split; [done|apply Hk]). }
  apply partial_get. intros f. apply partial_pure. intros k0 [[Hcompl Hinv] Hf].
  eapply (partial_bind _ _ _ (fun r k => others k = others k0 /\ match r with
    | inl g => match f with
               | Flight5 => hk_state k = hk_state k0 /\ g = Flight5 /\ server_finished (hk_state k0)
               | _ => hello_post g (hk_state k)
               end
    | inr e => match f with Flight5 => hk_state k = hk_state k0 | _ => unkeyed_state (hk_state k) end end)).
  { assert (match f with
            | Flight1 | Flight3 => unkeyed_state (hk_state k0)
            | Flight5 => is_Some (ds_cipher_suite (hk_state k0))
            | _ => False
            end) as Hpre.
    { rewrite Hf in Hinv. destruct f; try done; try (by destruct Hinv).
      destruct Hinv as [_ (cs0 & cs & _ & ->)]. by eexists. }
    pose proof (on_state_partial k0 _ _ _ _
      (parse_partial f (ev_entropy ev) (ev_cache ev) (ev_queue ev) (hk_state k0) Hpre)) as Hp.
    eapply partial_err; [|eapply partial_post; [|eapply partial_pre; [|exact Hp]]]; [done| |by intros k ->].
    intros [g|e] k H; exact H. }
  intros [g|e].
  - apply partial_pure. intros k1 [Ho Hq]. rewrite Hf in Hinv. unfold others in Ho.
    assert (hk_completed k1 = false) as Hc1 by congruence.
    destruct (is_last_recv_flight g && bool_decide (f = g)) eqn:Hlast.
    + apply andb_true_iff in Hlast as [Hg ->%bool_decide_eq_true]. apply partial_ret. intros k ->.
      split; [exact Hc1|]. replace (hk_current_flight k1) with g by congruence.
      destruct g; try done. destruct Hq as (-> & _ & Hfin). by split.
    + eapply (partial_modify _ (fun k => client_inv Preparing k)); [|by apply partial_ret].
      intros k ->. split; [exact Hc1|]. cbn [hk_current_flight set].
      destruct f; try done; try (destruct Hq as [[-> Hs]|[-> Hs]]; [split; [done|exact Hs]|exact Hs]).
      by destruct Hq as (_ & -> & _).
  - eapply (partial_bind _ _ _ (fun _ => client_inv Waiting)); [|intros []; by apply partial_ret].
    eapply partial_err; [|eapply partial_pre; [|apply (partial_keep view); [apply client_inv_view|apply report_error_stable]]];
      [done|].
    intros k [Ho Hq]. rewrite Hf in Hinv. unfold others in Ho. split; [congruence|].
    replace (hk_current_flight k) with f by congruence.
    destruct f; try done; [by split..|]. by rewrite Hq.
Qed.

(** A step keeps the invariant, and ends the handshake only when the server is
    authenticated and its Finished verified. *)
Lemma step_partial st ev : hc_local_psk_callback cfg = None ->
  partial (client_inv st) (handshake_step cfg st ev)
    (fun next k => match next with
       | Some st => client_inv st k
       | None => established (hk_state k) /\ server_finished (hk_state k)
       end) (fun _ _ => True).
Proof.
  intros Hpsk. destruct st; cbn [handshake_step].
  - eapply partial_bind; [by apply prepare_partial|]. intros st. by apply partial_ret.
  - eapply partial_bind; [apply send_partial|]. intros st. by apply partial_ret.
  - eapply partial_bind; [apply wait_partial|]. intros st. by apply partial_ret.
  - intros k [Hc Hk]. unfold mbind, st_bind, st_get. rewrite Hc. cbn [negb].
    destruct (hk_current_flight k); try done; by destruct Hk.
Qed.

Lemma handshake_partial evs st : hc_local_psk_callback cfg = None ->
  partial (client_inv st) (handshake cfg st evs)
    (fun next k => match next with
       | Some st => client_inv st k
       | None => established (hk_state k) /\ server_finished (hk_state k)
       end) (fun _ _ => True).
Proof.
  intros Hpsk. revert st. induction evs as [|ev evs IH]; intros st; cbn [handshake]; [by apply partial_ret|].
  eapply partial_bind; [by apply step_partial|]. intros [st'|]; [apply IH|by apply partial_ret].
Qed.
End auth.

(** * The properties *)


Definition sample_client : Handshaker :=
  match sample_run with Ok (_, _, k, _, _) => k | _ => Handshaker_new true end.


Lemma st_bind_ext {T E A B} (m : ST T E A) (k1 k2 : A -> ST T E B) s :
  (forall a s', k1 a s' = k2 a s') -> mbind k1 m s = mbind k2 m s.
Proof. intros H. unfold mbind, st_bind. destruct (m s) as [[a|e| |] s']; [apply H|done..]. Qed.

(** The same item up to the verify data of a Finished *)
Definition same_but_verify_data (i1 i2 : HandshakeCacheItem) : Prop :=
  (ci_typ i1, ci_is_client i1, ci_epoch i1, ci_message_sequence i1)
  = (ci_typ i2, ci_is_client i2, ci_epoch i2, ci_message_sequence i2) /\
  match Handshake_unmarshal (ci_data i1), Handshake_unmarshal (ci_data i2) with
  | Ok (h1, _), Ok (h2, _) =>
      hh_message_sequence (hs_handshake_header h1) = hh_message_sequence (hs_handshake_header h2) /\
      match hs_handshake_message h1, hs_handshake_message h2 with
      | HmFinished _, HmFinished _ => True
      | m1, m2 => m1 = m2
      end
  | Ok _, _ => False
  | r1, r2 => r1 = r2
  end.

Lemma same_items_pull r q1 q2 o1 o2 :
  Forall2 same_but_verify_data q1 q2 -> option_Forall2 same_but_verify_data o1 o2 ->
  option_Forall2 same_but_verify_data (fold_left (pull_step r) q1 o1) (fold_left (pull_step r) q2 o2).
Proof.
  intros Hq. revert o1 o2. induction Hq as [|c1 c2 q1 q2 Hc _ IH]; intros o1 o2 Ho; [exact Ho|].
  cbn [fold_left]. apply IH. unfold pull_step, rule_matches. pose proof Hc as [[= -> -> -> Hs] _].
  destruct (_ && _); [|exact Ho]. destruct Ho as [x1 x2 Hx|]; [|by constructor].
  pose proof Hx as [[= _ _ _ ->] _]. rewrite Hs. case_match; by constructor.
Qed.

(** C39. The server never looks at the verify data of the client's Finished: if two queues differ only in the verify data
    of Finished messages, the last step of the server's handshake ends in the same way, with the same state, so that a
    client whose transcript differs from the server's is not found out. *)
Theorem server_ignores_finished {P : Profile} {C : Primitives} cfg cache q1 q2 s :
  Forall2 same_but_verify_data q1 q2 ->
  Flight4_parse cfg cache (Some q1) s = Flight4_parse cfg cache (Some q2) s.
Proof.
  intros Hq. unfold Flight4_parse.
  assert (forall seq epoch (k : FL Flight) s,
    ('(n, msgs) ← pull_flight seq [mkHandshakeCachePullRule HtFinished epoch true false] q1;
     _ ← st_modify (fun s => s <| ds_handshake_recv_sequence := n |>);
     match msgs !! HtFinished with Some (HmFinished _) => k | _ => flight_error InternalError None end) s =
    ('(n, msgs) ← pull_flight seq [mkHandshakeCachePullRule HtFinished epoch true false] q2;
     _ ← st_modify (fun s => s <| ds_handshake_recv_sequence := n |>);
     match msgs !! HtFinished with Some (HmFinished _) => k | _ => flight_error InternalError None end) s) as Hpull.
  { intros seq epoch k s'. unfold pull_flight, full_pull_map. cbn [pull_items pr_optional negb pr_typ].
    pose proof (same_items_pull (mkHandshakeCachePullRule HtFinished epoch true false) q1 q2 None None Hq
      (None_Forall2 _)) as Hone. fold (pull_one (mkHandshakeCachePullRule HtFinished epoch true false) q1) in Hone.
    fold (pull_one (mkHandshakeCachePullRule HtFinished epoch true false) q2) in Hone.
    destruct Hone as [i1 i2 [_ Hi]|]; [|done]. cbn [mbind res_bind parse_items pr_typ]. rewrite !lookup_insert_eq.
    destruct (Handshake_unmarshal (ci_data i1)) as [[h1 r1]|e1| |],
      (Handshake_unmarshal (ci_data i2)) as [[h2 r2]|e2| |]; try done; try (by injection Hi as ->).
    destruct Hi as [Hs Hm]. cbn [mbind res_bind]. rewrite Hs. destruct (negb _); [done|].
    unfold mbind, st_bind. cbn. rewrite !lookup_insert_eq.
    destruct (hs_handshake_message h1), (hs_handshake_message h2); try done; by injection Hm as ->. }
  apply st_bind_ext; intros recv s1. cbv zeta. apply st_bind_ext; intros [seq msgs] s2.
  destruct (msgs !! HtClientKeyExchange) as [[]|]; try done.
  do 3 (apply st_bind_ext; intros [] ?). apply st_bind_ext; intros next_epoch s3. apply Hpull.
Qed.

(** The server accepts the client's handshake with the verify data forged. *)
Definition sample_server : State := Eval vm_compute in hk_state (fst sample_before_finished).
Definition sample_cache : HandshakeCache := Eval vm_compute in snd sample_before_finished.
Definition forged_cache : HandshakeCache :=
  Eval vm_compute in map (forge_finished (replicate 12 Byte.xff)) sample_cache.

Lemma server_ignores_finished_witness :
  forged_cache <> sample_cache /\
  fst (@Flight4_parse dev_profile sample_primitives server_config sample_cache (Some sample_cache) sample_server)
    = Ok Flight6 /\
  @Flight4_parse dev_profile sample_primitives server_config sample_cache (Some sample_cache) sample_server
  = @Flight4_parse dev_profile sample_primitives server_config sample_cache (Some forged_cache) sample_server.
Proof.
  assert (Forall2 same_but_verify_data sample_cache forged_cache) as Hq.
  { unfold sample_cache, forged_cache.
    repeat (apply Forall2_cons; split; [split; [reflexivity|vm_compute; auto]|]). constructor. }
  split; [vm_compute; discriminate|]. split; [vm_compute; reflexivity|].
  exact (@server_ignores_finished dev_profile sample_primitives server_config sample_cache sample_cache forged_cache
    sample_server Hq).
Defined.
