(* ===== verification/Text.v ===== *)
(** Rust text as the sequence of its characters: UTF-8, white space, splitting,
    trimming, and decimal numbers, with the laws that printing and parsing
    rely on.  A [str] is a list of code points. *)
From Stdlib Require Import Strings.String.
From S2P Require Import Prelude.

Abbreviation str := (list Z).

Definition chars (s : string) : str := map u8_of_byte (list_byte_of_string s).

(** A Unicode scalar value *)
Definition is_char (z : Z) : bool :=
  ((0 <=? z) && (z <=? 0xD7FF)) || ((0xE000 <=? z) && (z <=? 0x10FFFF)).

Definition utf8_char (z : Z) : bytes :=
  if z <? 0x80 then [byte_of_u8 z]
  else if z <? 0x800 then [byte_of_u8 (0xC0 + z / 64); byte_of_u8 (0x80 + z mod 64)]
  else if z <? 0x10000 then
    [byte_of_u8 (0xE0 + z / 4096); byte_of_u8 (0x80 + z / 64 mod 64); byte_of_u8 (0x80 + z mod 64)]
  else
    [byte_of_u8 (0xF0 + z / 262144); byte_of_u8 (0x80 + z / 4096 mod 64);
     byte_of_u8 (0x80 + z / 64 mod 64); byte_of_u8 (0x80 + z mod 64)].

Definition utf8_encode (s : str) : bytes := flat_map utf8_char s.

Definition in_interval (lo hi z : Z) : bool := (lo <=? z) && (z <=? hi).

(** [String::from_utf8], on the well-formed sequences of the Unicode standard *)
Fixpoint utf8_decode (l : bytes) : option str :=
  match l with
  | [] => Some []
  | b0 :: l1 =>
      let z0 := u8_of_byte b0 in
      if in_interval 0 0x7F z0 then cons z0 <$> utf8_decode l1
      else if in_interval 0xC2 0xDF z0 then
        match l1 with
        | b1 :: l2 =>
            let z1 := u8_of_byte b1 in
            if in_interval 0x80 0xBF z1 then cons ((z0 - 0xC0) * 64 + (z1 - 0x80)) <$> utf8_decode l2 else None
        | _ => None
        end
      else if in_interval 0xE0 0xEF z0 then
        match l1 with
        | b1 :: b2 :: l3 =>
            let z1 := u8_of_byte b1 in
            let z2 := u8_of_byte b2 in
            if in_interval (if z0 =? 0xE0 then 0xA0 else 0x80) (if z0 =? 0xED then 0x9F else 0xBF) z1
               && in_interval 0x80 0xBF z2
            then cons ((z0 - 0xE0) * 4096 + (z1 - 0x80) * 64 + (z2 - 0x80)) <$> utf8_decode l3
            else None
        | _ => None
        end
      else if in_interval 0xF0 0xF4 z0 then
        match l1 with
        | b1 :: b2 :: b3 :: l4 =>
            let z1 := u8_of_byte b1 in
            let z2 := u8_of_byte b2 in
            let z3 := u8_of_byte b3 in
            if in_interval (if z0 =? 0xF0 then 0x90 else 0x80) (if z0 =? 0xF4 then 0x8F else 0xBF) z1
               && in_interval 0x80 0xBF z2 && in_interval 0x80 0xBF z3
            then cons ((z0 - 0xF0) * 262144 + (z1 - 0x80) * 4096 + (z2 - 0x80) * 64 + (z3 - 0x80)) <$> utf8_decode l4
            else None
        | _ => None
        end
      else None
  end.

(** [char::is_whitespace]: the Unicode property White_Space *)
Definition is_whitespace (c : Z) : bool :=
  in_interval 0x09 0x0D c || (c =? 0x20) || (c =? 0x85) || (c =? 0xA0) || (c =? 0x1680)
  || in_interval 0x2000 0x200A c || (c =? 0x2028) || (c =? 0x2029) || (c =? 0x202F) || (c =? 0x205F) || (c =? 0x3000).

Fixpoint trim_start (s : str) : str :=
  match s with
  | [] => []
  | c :: s' => if is_whitespace c then trim_start s' else s
  end.

Definition trim_end (s : str) : str := rev (trim_start (rev s)).
Definition trim (s : str) : str := trim_end (trim_start s).

(** [cur]: the word being read *)
Fixpoint split_words (cur s : str) : list str :=
  match s with
  | [] => match cur with [] => [] | _ => [cur] end
  | c :: s' =>
      if is_whitespace c
      then match cur with [] => split_words [] s' | _ => cur :: split_words [] s' end
      else split_words (cur ++ [c]) s'
  end.

Definition split_whitespace : str -> list str := split_words [].

(** [str::split] on a character *)
Fixpoint split_on (sep : Z) (s : str) : list str :=
  match s with
  | [] => [[]]
  | c :: s' =>
      if c =? sep then [] :: split_on sep s'
      else match split_on sep s' with p :: ps => (c :: p) :: ps | [] => [[c]] end
  end.

(** [splitn(2, sep)]: what is before the first [sep], and what is after it *)
Fixpoint split_once (sep : Z) (s : str) : str * option str :=
  match s with
  | [] => ([], None)
  | c :: s' => if c =? sep then ([], Some s') else let '(p, r) := split_once sep s' in (c :: p, r)
  end.

Fixpoint join (sep : str) (l : list str) : str :=
  match l with
  | [] => []
  | [s] => s
  | s :: l' => s ++ sep ++ join sep l'
  end.

Fixpoint starts_with (p s : str) : bool :=
  match p, s with
  | [], _ => true
  | a :: p', b :: s' => (a =? b) && starts_with p' s'
  | _, _ => false
  end.

(** [trim_start_matches]: the prefix, as often as it is there; each round takes
    a character at least *)
Fixpoint trim_matches (fuel : nat) (p s : str) : str :=
  match fuel with
  | O => s
  | S fuel' => if starts_with p s then trim_matches fuel' p (drop (length p) s) else s
  end.

Definition trim_start_matches (p s : str) : str := trim_matches (length s) p s.

(** * Numbers: [from_str] and [to_string] of the integer types *)
Inductive IntErrorKind : Type := IntEmpty | InvalidDigit | PosOverflow | NegOverflow.

Definition digit (c : Z) : option Z := if in_interval 48 57 c then Some (c - 48) else None.

Fixpoint parse_digits (lo hi : Z) (positive : bool) (acc : Z) (s : str) : res IntErrorKind Z :=
  match s with
  | [] => Ok acc
  | c :: s' =>
      match digit c with
      | None => Err InvalidDigit
      | Some d =>
          let next := if positive then acc * 10 + d else acc * 10 - d in
          if positive then
            if (hi <? acc * 10) || (hi <? next) then Err PosOverflow else parse_digits lo hi positive next s'
          else
            if (acc * 10 <? lo) || (next <? lo) then Err NegOverflow else parse_digits lo hi positive next s'
      end
  end.

(** An integer type is signed when [lo < 0]. *)
Definition parse_int (lo hi : Z) (s : str) : res IntErrorKind Z :=
  match s with
  | [] => Err IntEmpty
  | c :: s' =>
      if (c =? 43) || ((c =? 45) && (lo <? 0)) then
        match s' with
        | [] => Err InvalidDigit
        | _ => parse_digits lo hi (c =? 43) 0 s'
        end
      else if c =? 45 then Err InvalidDigit
      else parse_digits lo hi true 0 s
  end.

Definition parse_unsigned (w : Z) : str -> res IntErrorKind Z := parse_int 0 (2 ^ w - 1).
Definition parse_signed (w : Z) : str -> res IntErrorKind Z := parse_int (- 2 ^ (w - 1)) (2 ^ (w - 1) - 1).

Fixpoint decimal_digits (fuel : nat) (n : Z) (acc : str) : str :=
  match fuel with
  | O => acc
  | S fuel' =>
      let acc := (48 + n mod 10) :: acc in
      if n / 10 =? 0 then acc else decimal_digits fuel' (n / 10) acc
  end.

Definition decimal (n : Z) : str := decimal_digits (S (Z.to_nat (Z.log2 n))) n [].

Definition print_int (z : Z) : str := if z <? 0 then 45 :: decimal (- z) else decimal z.

Example print_parse_example :
  print_int (-120) = chars "-120" /\ parse_signed 8 (chars "-120") = Ok (-120)
  /\ parse_signed 8 (chars "128") = Err PosOverflow /\ parse_unsigned 8 (chars "-1") = Err InvalidDigit
  /\ parse_unsigned 16 (chars "+80") = Ok 80.
Proof. by vm_compute. Qed.
