(* ===== verification/TextLaws.v ===== *)
(** The laws of [Text]: decoding inverts encoding, splitting inverts joining,
    and parsing a number inverts printing it. *)
From Stdlib Require Import Strings.String.
From S2P Require Import Prelude Text.

Lemma in_interval_true lo hi z : in_interval lo hi z = true <-> lo <= z <= hi.
Proof. unfold in_interval. rewrite andb_true_iff, !Z.leb_le. done. Qed.

Lemma in_interval_false lo hi z : in_interval lo hi z = false <-> z < lo \/ hi < z.
Proof. unfold in_interval. rewrite andb_false_iff, !Z.leb_gt. lia. Qed.

Lemma is_char_true z : is_char z = true <-> 0 <= z <= 0xD7FF \/ 0xE000 <= z <= 0x10FFFF.
Proof. unfold is_char. rewrite orb_true_iff, !andb_true_iff, !Z.leb_le. lia. Qed.

(** * UTF-8 *)
Lemma u8_small z : 0 <= z < 256 -> u8_of_byte (byte_of_u8 z) = z.
Proof. intros. rewrite u8_of_byte_of_u8. by apply Z.mod_small. Qed.

Ltac interval :=
  repeat first [rewrite (proj2 (in_interval_true _ _ _)) by lia | rewrite (proj2 (in_interval_false _ _ _)) by lia].

Ltac same_char z := match goal with |- cons ?x <$> _ = _ => replace x with z by lia; reflexivity end.

Lemma utf8_decode_char z r : is_char z = true -> utf8_decode (utf8_char z ++ r) = cons z <$> utf8_decode r.
Proof.
  intros Hz. apply is_char_true in Hz. unfold utf8_char.
  pose proof (Z.mod_pos_bound z 64 ltac:(lia)) as H64.
  pose proof (Z.mod_pos_bound (z / 64) 64 ltac:(lia)) as H64'.
  pose proof (Z.mod_pos_bound (z / 4096) 64 ltac:(lia)) as H64''.
  pose proof (Z.div_mod z 64 ltac:(lia)) as Hd1. pose proof (Z.div_mod (z / 64) 64 ltac:(lia)) as Hd2.
  pose proof (Z.div_mod (z / 4096) 64 ltac:(lia)) as Hd3.
  assert (z / 64 / 64 = z / 4096) as He1 by (by rewrite Z.div_div).
  assert (z / 4096 / 64 = z / 262144) as He2 by (by rewrite Z.div_div).
  rewrite He1 in Hd2. rewrite He2 in Hd3.
  destruct (Z.ltb_spec z 0x80).
  { cbn [app utf8_decode]. rewrite u8_small by lia. by interval. }
  destruct (Z.ltb_spec z 0x800).
  { cbn [app utf8_decode]. rewrite !u8_small by lia. interval. same_char z. }
  destruct (Z.ltb_spec z 0x10000).
  { cbn [app utf8_decode]. rewrite !u8_small by lia. interval.
    assert (in_interval (if 0xE0 + z / 4096 =? 0xE0 then 0xA0 else 0x80) (if 0xE0 + z / 4096 =? 0xED then 0x9F else 0xBF)
      (0x80 + z / 64 mod 64) = true) as ->
      by (apply in_interval_true; destruct (Z.eqb_spec (0xE0 + z / 4096) 0xE0), (Z.eqb_spec (0xE0 + z / 4096) 0xED); lia).
    cbn [andb]. interval. cbn [andb]. same_char z. }
  cbn [app utf8_decode]. rewrite !u8_small by lia. interval.
  assert (in_interval (if 0xF0 + z / 262144 =? 0xF0 then 0x90 else 0x80) (if 0xF0 + z / 262144 =? 0xF4 then 0x8F else 0xBF)
    (0x80 + z / 4096 mod 64) = true) as ->
    by (apply in_interval_true; destruct (Z.eqb_spec (0xF0 + z / 262144) 0xF0), (Z.eqb_spec (0xF0 + z / 262144) 0xF4); lia).
  cbn [andb]. interval. cbn [andb]. same_char z.
Qed.

Definition all_chars (s : str) : Prop := Forall (fun z => is_char z = true) s.

Lemma utf8_decode_encode s : all_chars s -> utf8_decode (utf8_encode s) = Some s.
Proof.
  unfold all_chars. induction 1 as [|z s Hz Hs IH]; [done|].
  unfold utf8_encode. cbn [flat_map]. rewrite utf8_decode_char by done. fold (utf8_encode s). by rewrite IH.
Qed.

Lemma utf8_encode_app a b : utf8_encode (a ++ b) = utf8_encode a ++ utf8_encode b.
Proof. unfold utf8_encode. apply flat_map_app. Qed.

(** What is decoded are characters. *)
Lemma utf8_decode_chars l s : utf8_decode l = Some s -> all_chars s.
Proof.
  unfold all_chars. assert (exists n, length l <= n)%nat as [n Hn] by eauto. revert l s Hn.
  induction n as [|n IH]; intros l s Hn.
  { destruct l; [|cbn in Hn; lia]. intros [= <-]. constructor. }
  assert (forall z l' s, (length l' < length l)%nat -> is_char z = true ->
    cons z <$> utf8_decode l' = Some s -> Forall (fun z => is_char z = true) s) as Hcons.
  { intros z l' s' Hl Hz. destruct (utf8_decode l') as [s1|] eqn:H; [|done]. intros [= <-].
    constructor; [done|]. apply (IH l'); [lia|done]. }
  destruct l as [|b0 l1]; [intros [= <-]; constructor|]. cbn [utf8_decode].
  repeat case_match; try done; intros Hs;
    repeat match goal with
    | H : _ && _ = true |- _ => apply andb_true_iff in H as [? ?]
    | H : in_interval _ _ _ = true |- _ => apply in_interval_true in H
    end;
    (eapply Hcons; [|apply is_char_true|exact Hs]; [cbn; lia|]); try lia.
  all: repeat match goal with
    | H : _ <= _ <= (if ?b then _ else _) |- _ => destruct b eqn:?
    | H : (if ?b then _ else _) <= _ <= _ |- _ => destruct b eqn:?
    end; try lia.
Qed.

(** What is decoded is encoded to the same bytes. *)
Lemma div_mod_unique_64 a b : 0 <= b < 64 -> (a * 64 + b) / 64 = a /\ (a * 64 + b) mod 64 = b.
Proof. intros Hb. rewrite Z.div_add_l, Z.div_small, Z.add_0_r by lia. rewrite Z.add_comm, Z.mod_add, Z.mod_small by lia. done. Qed.

Lemma utf8_encode_decode l s : utf8_decode l = Some s -> utf8_encode s = l.
Proof.
  assert (exists n, length l <= n)%nat as [n Hn] by eauto. revert l s Hn.
  induction n as [|n IH]; intros l s Hn; [destruct l; [by intros [= <-]|cbn in Hn; lia]|].
  assert (forall z pre l' s, l = pre ++ l' -> (0 < length pre)%nat -> utf8_char z = pre ->
    cons z <$> utf8_decode l' = Some s -> utf8_encode s = l) as Hcons.
  { intros z pre l' s' -> Hl Hz. destruct (utf8_decode l') as [s1|] eqn:H; [|done]. intros [= <-].
    unfold utf8_encode. cbn [flat_map]. rewrite Hz. f_equal. apply IH; [rewrite length_app in Hn; lia|done]. }
  destruct l as [|b0 l1]; [by intros [= <-]|]. cbn [utf8_decode].
  destruct (in_interval 0 0x7F (u8_of_byte b0)) eqn:H0.
  { intros Hs. eapply (Hcons _ [b0] l1 s); [done|cbn; lia| |exact Hs]. apply in_interval_true in H0. unfold utf8_char.
    rewrite (proj2 (Z.ltb_lt _ _)) by lia. by rewrite byte_of_u8_of_byte. }
  destruct (in_interval 0xC2 0xDF (u8_of_byte b0)) eqn:H1.
  { destruct l1 as [|b1 l2]; [done|]. destruct (in_interval 0x80 0xBF (u8_of_byte b1)) eqn:H1'; [|done]. intros Hs.
    apply in_interval_true in H1, H1'. eapply (Hcons _ [b0; b1] l2 s); [done|cbn; lia| |exact Hs]. unfold utf8_char.
    destruct (div_mod_unique_64 (u8_of_byte b0 - 0xC0) (u8_of_byte b1 - 0x80)) as [Hd Hm]; [lia|].
    rewrite (proj2 (Z.ltb_ge _ _)), (proj2 (Z.ltb_lt _ _)) by lia. rewrite Hd, Hm.
    replace (0xC0 + _) with (u8_of_byte b0) by lia. replace (0x80 + _) with (u8_of_byte b1) by lia.
    by rewrite !byte_of_u8_of_byte. }
  destruct (in_interval 0xE0 0xEF (u8_of_byte b0)) eqn:H2.
  { destruct l1 as [|b1 [|b2 l3]]; [done..|]. destruct (in_interval _ _ (u8_of_byte b1) && _) eqn:H2'; [|done]. intros Hs.
    apply andb_true_iff in H2' as [Hb1 Hb2]. apply in_interval_true in H2, Hb1, Hb2.
    eapply (Hcons _ [b0; b1; b2] l3 s); [done|cbn; lia| |exact Hs]. unfold utf8_char.
    assert (0x80 <= u8_of_byte b1 <= 0xBF) as Hb1' by (destruct (_ =? 0xE0), (_ =? 0xED); lia).
    assert (0x800 <= (u8_of_byte b0 - 0xE0) * 4096 + (u8_of_byte b1 - 0x80) * 64 + (u8_of_byte b2 - 0x80)) as Hge
      by (destruct (Z.eqb_spec (u8_of_byte b0) 0xE0); lia).
    replace ((u8_of_byte b0 - 0xE0) * 4096 + (u8_of_byte b1 - 0x80) * 64 + (u8_of_byte b2 - 0x80))
      with (((u8_of_byte b0 - 0xE0) * 64 + (u8_of_byte b1 - 0x80)) * 64 + (u8_of_byte b2 - 0x80)) in * by lia.
    destruct (div_mod_unique_64 ((u8_of_byte b0 - 0xE0) * 64 + (u8_of_byte b1 - 0x80)) (u8_of_byte b2 - 0x80)) as [Hd Hm]; [lia|].
    destruct (div_mod_unique_64 (u8_of_byte b0 - 0xE0) (u8_of_byte b1 - 0x80)) as [Hd1 Hm1]; [lia|].
    rewrite (proj2 (Z.ltb_ge _ _)), (proj2 (Z.ltb_ge _ _)), (proj2 (Z.ltb_lt _ _)) by lia.
    change 4096 with (64 * 64). rewrite <- Z.div_div by lia. rewrite Hd, Hm, Hd1, Hm1.
    replace (0xE0 + _) with (u8_of_byte b0) by lia. rewrite !Zplus_minus. by rewrite !byte_of_u8_of_byte. }
  destruct (in_interval 0xF0 0xF4 (u8_of_byte b0)) eqn:H3; [|done].
  destruct l1 as [|b1 [|b2 [|b3 l4]]]; [done..|]. destruct (in_interval _ _ (u8_of_byte b1) && _ && _) eqn:H3'; [|done]. intros Hs.
  apply andb_true_iff in H3' as [H3' Hb3]. apply andb_true_iff in H3' as [Hb1 Hb2]. apply in_interval_true in H3, Hb1, Hb2, Hb3.
  eapply (Hcons _ [b0; b1; b2; b3] l4 s); [done|cbn; lia| |exact Hs]. unfold utf8_char.
  assert (0x80 <= u8_of_byte b1 <= 0xBF) as Hb1' by (destruct (_ =? 0xF0), (_ =? 0xF4); lia).
  assert (0x10000 <= (u8_of_byte b0 - 0xF0) * 262144 + (u8_of_byte b1 - 0x80) * 4096 + (u8_of_byte b2 - 0x80) * 64
    + (u8_of_byte b3 - 0x80)) as Hge by (destruct (Z.eqb_spec (u8_of_byte b0) 0xF0); lia).
  set (q := (u8_of_byte b0 - 0xF0) * 64 + (u8_of_byte b1 - 0x80)).
  replace ((u8_of_byte b0 - 0xF0) * 262144 + (u8_of_byte b1 - 0x80) * 4096 + (u8_of_byte b2 - 0x80) * 64 + (u8_of_byte b3 - 0x80))
    with ((q * 64 + (u8_of_byte b2 - 0x80)) * 64 + (u8_of_byte b3 - 0x80)) in * by lia.
  destruct (div_mod_unique_64 (q * 64 + (u8_of_byte b2 - 0x80)) (u8_of_byte b3 - 0x80)) as [Hd Hm]; [lia|].
  destruct (div_mod_unique_64 q (u8_of_byte b2 - 0x80)) as [Hd1 Hm1]; [lia|].
  destruct (div_mod_unique_64 (u8_of_byte b0 - 0xF0) (u8_of_byte b1 - 0x80)) as [Hd2 Hm2]; [lia|]. fold q in Hd2, Hm2.
  rewrite (proj2 (Z.ltb_ge _ _)), (proj2 (Z.ltb_ge _ _)), (proj2 (Z.ltb_ge _ _)) by lia.
  change 262144 with (64 * 64 * 64). change 4096 with (64 * 64). rewrite <- !Z.div_div by lia.
  rewrite Hd, Hm, Hd1, Hm1, Hd2, Hm2.
  replace (0xF0 + _) with (u8_of_byte b0) by lia. rewrite !Zplus_minus. by rewrite !byte_of_u8_of_byte.
Qed.

(** A byte below 0x80 in an encoded text is that character. *)
Lemma utf8_encode_ascii s b : all_chars s -> b ∈ utf8_encode s -> u8_of_byte b < 0x80 -> u8_of_byte b ∈ s.
Proof.
  intros Hs Hb Hlt. unfold utf8_encode in Hb. apply list_elem_of_In, in_flat_map in Hb as (z & Hz & Hb).
  apply list_elem_of_In in Hz, Hb. pose proof (proj1 (Forall_forall _ _) Hs z Hz) as Hc. apply is_char_true in Hc.
  enough (u8_of_byte b = z) as -> by done. revert Hb. unfold utf8_char.
  pose proof (Z.mod_pos_bound z 64 ltac:(lia)). pose proof (Z.mod_pos_bound (z / 64) 64 ltac:(lia)).
  pose proof (Z.mod_pos_bound (z / 4096) 64 ltac:(lia)).
  assert (0 <= z / 64 < 17408) by (split; [apply Z.div_pos; lia|apply Z.div_lt_upper_bound; lia]).
  assert (0 <= z / 4096 < 272) by (split; [apply Z.div_pos; lia|apply Z.div_lt_upper_bound; lia]).
  assert (0 <= z / 262144 < 5) by (split; [apply Z.div_pos; lia|apply Z.div_lt_upper_bound; lia]).
  destruct (Z.ltb_spec z 0x80).
  { intros ->%list_elem_of_singleton. by rewrite u8_small by lia. }
  destruct (Z.ltb_spec z 0x800).
  { assert (z / 64 < 32) by (apply Z.div_lt_upper_bound; lia).
    intros Hb. repeat (apply elem_of_cons in Hb as [->|Hb]; [rewrite u8_small in Hlt by lia; lia|]). by apply elem_of_nil in Hb. }
  destruct (Z.ltb_spec z 0x10000).
  { assert (z / 4096 < 16) by (apply Z.div_lt_upper_bound; lia).
    intros Hb. repeat (apply elem_of_cons in Hb as [->|Hb]; [rewrite u8_small in Hlt by lia; lia|]). by apply elem_of_nil in Hb. }
  intros Hb. repeat (apply elem_of_cons in Hb as [->|Hb]; [rewrite u8_small in Hlt by lia; lia|]). by apply elem_of_nil in Hb.
Qed.

(** * White space *)
Definition no_space (s : str) : Prop := Forall (fun c => is_whitespace c = false) s.
Definition all_space (s : str) : Prop := Forall (fun c => is_whitespace c = true) s.

Lemma trim_start_space w s : all_space w -> trim_start (w ++ s) = trim_start s.
Proof. unfold all_space. induction 1 as [|c w Hc _ IH]; [done|]. cbn [app trim_start]. by rewrite Hc. Qed.

Lemma trim_start_suffix s : exists w, all_space w /\ s = w ++ trim_start s.
Proof.
  induction s as [|c s (w & Hw & IH)]; [exists []; split; [constructor|done]|]. cbn [trim_start].
  destruct (is_whitespace c) eqn:Hc.
  - exists (c :: w). split; [by constructor|]. cbn [app]. by rewrite <- IH.
  - exists []. split; [constructor|done].
Qed.

Lemma trim_start_head c s s' : trim_start s = c :: s' -> is_whitespace c = false.
Proof.
  induction s as [|d s IH]; [done|]. cbn [trim_start]. destruct (is_whitespace d) eqn:Hd; [exact IH|].
  by intros [= -> _].
Qed.

Lemma trim_start_id s : (forall c s', s = c :: s' -> is_whitespace c = false) -> trim_start s = s.
Proof. destruct s as [|c s]; [done|]. intros H. cbn [trim_start]. by rewrite (H c s). Qed.

Lemma all_space_rev s : all_space s -> all_space (rev s).
Proof. unfold all_space. intros H. by apply Forall_rev. Qed.

Lemma trim_end_space w s : all_space w -> trim_end (s ++ w) = trim_end s.
Proof. intros Hw. unfold trim_end. by rewrite rev_app_distr, trim_start_space by (by apply all_space_rev). Qed.

Lemma trim_end_prefix s : exists w, all_space w /\ s = trim_end s ++ w.
Proof.
  destruct (trim_start_suffix (rev s)) as (w & Hw & H). exists (rev w). split; [by apply all_space_rev|].
  unfold trim_end. rewrite <- rev_app_distr, <- H. by rewrite rev_involutive.
Qed.

(** [trimmed s]: no white space at either end *)
Definition trimmed (s : str) : Prop :=
  (forall c s', s = c :: s' -> is_whitespace c = false) /\ (forall c s', s = s' ++ [c] -> is_whitespace c = false).

Lemma trimmed_trim s : trimmed s -> trim s = s.
Proof.
  intros [Hh Hl]. unfold trim. rewrite trim_start_id by done. unfold trim_end. rewrite trim_start_id; [apply rev_involutive|].
  intros c s' H. apply (Hl c (rev s')). rewrite <- (rev_involutive s), H. done.
Qed.

Lemma trim_trimmed s : trimmed (trim s).
Proof.
  unfold trim. set (t := trim_start s). destruct (trim_end_prefix t) as (w & Hw & Ht). split.
  - intros c s' Hc. rewrite Hc in Ht. apply (trim_start_head c s (s' ++ w)). fold t. by rewrite Ht.
  - intros c s' Hc. apply (trim_start_head c (rev t) (rev s')). unfold trim_end in Hc.
    rewrite <- (rev_involutive (trim_start _)), Hc, rev_app_distr. done.
Qed.

Lemma trim_line s w : trimmed s -> all_space w -> trim (s ++ w) = s.
Proof.
  intros Hs Hw. destruct s as [|c s].
  - cbn [app]. unfold trim. assert (trim_start w = []) as ->; [|done].
    pose proof (trim_start_space w [] Hw) as H. by rewrite app_nil_r in H.
  - unfold trim. rewrite trim_start_id by (intros ? ? [= <- <-]; by apply (proj1 Hs c s)).
    rewrite trim_end_space by done. pose proof (trimmed_trim _ Hs) as Ht. unfold trim in Ht.
    by rewrite trim_start_id in Ht by apply Hs.
Qed.

Lemma trim_app_space s w : all_space w -> trim (s ++ w) = trim s.
Proof.
  intros Hw. unfold trim. induction s as [|c s IH].
  - cbn [app]. assert (trim_start w = []) as ->; [|done].
    pose proof (trim_start_space w [] Hw) as H. by rewrite app_nil_r in H.
  - cbn [app trim_start]. destruct (is_whitespace c); [exact IH|]. by apply (trim_end_space w (c :: s)).
Qed.

(** Trimming takes characters away and adds none. *)
Lemma trim_subset s c : c ∈ trim s -> c ∈ s.
Proof.
  unfold trim. intros Hc. destruct (trim_start_suffix s) as (w & _ & ->). apply elem_of_app. right.
  destruct (trim_end_prefix (trim_start s)) as (w' & _ & ->). apply elem_of_app. by left.
Qed.

(** * Words *)
Definition is_word (s : str) : Prop := s <> [] /\ no_space s.

Lemma split_words_word cur w s : no_space w -> split_words cur (w ++ s) = split_words (cur ++ w) s.
Proof.
  intros Hw. revert cur. induction Hw as [|c w Hc _ IH]; intros cur; [by rewrite app_nil_r|].
  cbn [app split_words]. rewrite Hc, IH, <- app_assoc. done.
Qed.

Lemma split_join_words l : Forall is_word l -> split_whitespace (join [32] l) = l.
Proof.
  unfold split_whitespace. induction 1 as [|w l [Hne Hw] Hl IH]; [done|].
  destruct l as [|w' l].
  - cbn [join]. rewrite <- (app_nil_r w) at 1. rewrite split_words_word by done. cbn [app split_words].
    by destruct w.
  - change (join [32] (w :: w' :: l)) with (w ++ [32] ++ join [32] (w' :: l)). rewrite split_words_word by done.
    cbn [app split_words]. change (is_whitespace 32) with true.
    destruct w as [|c w]; [done|]. by rewrite IH.
Qed.

Lemma split_words_are_words cur s : no_space cur -> Forall is_word (split_words cur s).
Proof.
  revert cur. induction s as [|c s IH]; intros cur Hcur; cbn [split_words].
  - destruct cur; constructor; [done|constructor].
  - destruct (is_whitespace c) eqn:Hc.
    + destruct cur; [apply IH; constructor|]. constructor; [done|]. apply IH. constructor.
    + apply IH. apply Forall_app. split; [done|]. by constructor.
Qed.

Lemma split_whitespace_words s : Forall is_word (split_whitespace s).
Proof. apply split_words_are_words. constructor. Qed.

Lemma split_words_elem cur s w c : w ∈ split_words cur s -> c ∈ w -> c ∈ cur \/ c ∈ s.
Proof.
  revert cur. induction s as [|d s IH]; intros cur Hw Hc; cbn [split_words] in Hw.
  - destruct cur as [|e cur]; [by apply elem_of_nil in Hw|]. apply list_elem_of_singleton in Hw as ->. by left.
  - destruct (is_whitespace d).
    + destruct cur as [|e cur].
      * destruct (IH _ Hw Hc) as [H|H]; [by apply elem_of_nil in H|]. right. by apply elem_of_cons; right.
      * apply elem_of_cons in Hw as [->|Hw]; [by left|].
        destruct (IH _ Hw Hc) as [H|H]; [by apply elem_of_nil in H|]. right. by apply elem_of_cons; right.
    + destruct (IH _ Hw Hc) as [H|H].
      * apply elem_of_app in H as [H|H]; [by left|]. apply list_elem_of_singleton in H as ->. right. by apply elem_of_cons; left.
      * right. by apply elem_of_cons; right.
Qed.

(** Words in a row are trimmed. *)
Lemma word_head w c s : is_word w -> w = c :: s -> is_whitespace c = false.
Proof. intros [_ Hw] ->. by inversion Hw. Qed.

Lemma word_last w c s : is_word w -> w = s ++ [c] -> is_whitespace c = false.
Proof. intros [_ Hw] ->. apply Forall_app in Hw as [_ Hw]. by inversion Hw. Qed.

Lemma trimmed_app a b c : a <> [] -> c <> [] -> trimmed a -> trimmed c -> trimmed (a ++ b ++ c).
Proof.
  intros Ha Hc [Hah _] [_ Hcl]. split.
  - intros x s H. destruct a as [|y a]; [done|]. injection H as <- _. by apply (Hah y a).
  - intros x s H. destruct (exists_last Hc) as (c' & y & ->). rewrite !app_assoc in H.
    apply app_inj_tail in H as [_ <-]. by apply (Hcl y c').
Qed.

Lemma trimmed_word w : is_word w -> trimmed w.
Proof. intros Hw. split; intros c s H; [by eapply word_head|by eapply word_last]. Qed.

Lemma join_words_ne w l : is_word w -> join [32] (w :: l) <> [].
Proof. intros [Hw _]. destruct l; cbn [join]; [done|]. by destruct w. Qed.

Lemma trimmed_words l : Forall is_word l -> trimmed (join [32] l).
Proof.
  induction 1 as [|w l Hw Hl IH]; [split; intros c s H; [done|by destruct s]|].
  destruct l as [|w' l]; [by apply trimmed_word|].
  change (join [32] (w :: w' :: l)) with (w ++ [32] ++ join [32] (w' :: l)). apply (trimmed_app w [32]); [apply Hw| |by apply trimmed_word|exact IH].
  apply join_words_ne. by inversion Hl.
Qed.

Lemma join_cons sep p q l : join sep (p :: q :: l) = p ++ sep ++ join sep (q :: l).
Proof. done. Qed.

(** * Splitting at a character *)
Lemma split_once_app sep k v : sep ∉ k -> split_once sep (k ++ sep :: v) = (k, Some v).
Proof.
  induction k as [|c k IH]; intros Hk; cbn [app split_once]; [by rewrite Z.eqb_refl|].
  apply not_elem_of_cons in Hk as [Hc Hk]. rewrite (proj2 (Z.eqb_neq _ _)) by congruence. by rewrite IH.
Qed.

Lemma split_once_none sep k : sep ∉ k -> split_once sep k = (k, None).
Proof.
  induction k as [|c k IH]; intros Hk; cbn [split_once]; [done|].
  apply not_elem_of_cons in Hk as [Hc Hk]. rewrite (proj2 (Z.eqb_neq _ _)) by congruence. by rewrite IH.
Qed.

Lemma split_once_spec sep s :
  match split_once sep s with
  | (k, Some v) => s = k ++ sep :: v /\ sep ∉ k
  | (k, None) => s = k /\ sep ∉ k
  end.
Proof.
  induction s as [|c s IH]; cbn [split_once]; [split; [done|apply not_elem_of_nil]|].
  destruct (Z.eqb_spec c sep) as [->|Hc]; [split; [done|apply not_elem_of_nil]|].
  destruct (split_once sep s) as [k [v|]]; destruct IH as [-> Hk]; (split; [done|]); by apply not_elem_of_cons.
Qed.

Lemma split_on_app sep p s : sep ∉ p -> split_on sep (p ++ sep :: s) = p :: split_on sep s.
Proof.
  induction p as [|c p IH]; intros Hp; cbn [app split_on]; [by rewrite Z.eqb_refl|].
  apply not_elem_of_cons in Hp as [Hc Hp]. rewrite (proj2 (Z.eqb_neq _ _)) by congruence. by rewrite IH.
Qed.

Lemma split_on_one sep p : sep ∉ p -> split_on sep p = [p].
Proof.
  induction p as [|c p IH]; intros Hp; cbn [split_on]; [done|].
  apply not_elem_of_cons in Hp as [Hc Hp]. rewrite (proj2 (Z.eqb_neq _ _)) by congruence. by rewrite IH.
Qed.

Lemma split_on_join sep l : l <> [] -> Forall (fun p => sep ∉ p) l -> split_on sep (join [sep] l) = l.
Proof.
  induction 2 as [|p l Hp Hl IH]; [done|]. destruct l as [|q l]; [by apply split_on_one|].
  change (join [sep] (p :: q :: l)) with (p ++ sep :: join [sep] (q :: l)). rewrite split_on_app by done.
  by rewrite IH.
Qed.

Lemma split_on_ne sep s : split_on sep s <> [].
Proof. destruct s as [|c s]; cbn [split_on]; [done|]. destruct (c =? sep); [done|]. by destruct (split_on sep s). Qed.

Lemma split_on_pieces sep s : Forall (fun p => sep ∉ p) (split_on sep s).
Proof.
  induction s as [|c s IH]; cbn [split_on]; [by repeat constructor; apply not_elem_of_nil|].
  destruct (Z.eqb_spec c sep) as [->|Hc]; [constructor; [apply not_elem_of_nil|done]|].
  destruct IH as [|p l Hp Hl]; constructor; try done; apply not_elem_of_cons; split; try congruence; try done. apply not_elem_of_nil.
Qed.

Lemma join_split_on sep s : join [sep] (split_on sep s) = s.
Proof.
  induction s as [|c s IH]; cbn [split_on]; [done|].
  destruct (Z.eqb_spec c sep) as [->|Hc].
  - pose proof (split_on_ne sep s). destruct (split_on sep s) as [|p l] eqn:H1; [done|].
    change (join [sep] ([] :: p :: l)) with (sep :: join [sep] (p :: l)). by rewrite IH.
  - pose proof (split_on_ne sep s). destruct (split_on sep s) as [|p l] eqn:H1; [done|].
    destruct l as [|q l]; [cbn [join] in IH |- *; by rewrite IH|]. rewrite join_cons in IH |- *. rewrite <- IH. done.
Qed.

Lemma starts_with_app p s : starts_with p (p ++ s) = true.
Proof. induction p as [|c p IH]; [done|]. cbn [app starts_with]. by rewrite Z.eqb_refl. Qed.

Lemma starts_with_true p s : starts_with p s = true -> s = p ++ drop (length p) s.
Proof.
  revert s. induction p as [|c p IH]; intros [|d s] H; try done.
  cbn [starts_with] in H. apply andb_true_iff in H as [->%Z.eqb_eq H]. cbn [app length drop]. by rewrite <- IH.
Qed.

(** What is left does not start with the prefix, and is a suffix. *)
Lemma trim_matches_spec fuel p s : p <> [] -> (length s <= fuel)%nat ->
  starts_with p (trim_matches fuel p s) = false \/ trim_matches fuel p s = [].
Proof.
  intros Hp. revert s. induction fuel as [|fuel IH]; intros s Hs; cbn [trim_matches].
  - right. by apply nil_length_inv; lia.
  - destruct (starts_with p s) eqn:H; [|by left]. apply IH. apply starts_with_true in H.
    destruct p as [|c p]; [done|]. destruct s as [|d s]; [done|]. cbn [length drop] in *. rewrite length_drop. lia.
Qed.

Lemma trim_matches_suffix fuel p s : exists k, s = k ++ trim_matches fuel p s.
Proof.
  revert s. induction fuel as [|fuel IH]; intros s; cbn [trim_matches]; [by exists []|].
  destruct (starts_with p s) eqn:H; [|by exists []]. destruct (IH (drop (length p) s)) as [k Hk].
  exists (p ++ k). rewrite <- app_assoc, <- Hk. by apply starts_with_true.
Qed.

(** * Numbers *)
Definition is_digit (c : Z) : Prop := 48 <= c <= 57.

Definition digits_value (s : str) (acc : Z) : Z := fold_left (fun a c => a * 10 + (c - 48)) s acc.

Lemma decimal_digits_spec fuel n acc : 0 <= n -> Z.log2 n < Z.of_nat fuel \/ n < 10 ^ Z.of_nat fuel -> (0 < fuel)%nat ->
  Forall is_digit acc ->
  Forall is_digit (decimal_digits fuel n acc) /\
  digits_value (decimal_digits fuel n acc) 0 = digits_value acc n /\ decimal_digits fuel n acc <> [].
Proof.
  intros Hn Hf. assert (n < 10 ^ Z.of_nat fuel) as Hlt.
  { destruct Hf as [Hf|Hf]; [|done]. destruct (Z.eq_dec n 0) as [->|]; [apply Z.pow_pos_nonneg; lia|].
    pose proof (Z.log2_spec n ltac:(lia)) as [_ H]. eapply Z.lt_le_trans; [exact H|].
    etransitivity; [apply (Z.pow_le_mono_r 2 _ (Z.of_nat fuel)); lia|]. apply Z.pow_le_mono_l. lia. }
  clear Hf. revert n acc Hn Hlt. induction fuel as [|fuel IH]; intros n acc Hn Hlt Hf Hacc; [lia|].
  cbn [decimal_digits]. pose proof (Z.mod_pos_bound n 10 ltac:(lia)) as Hm. pose proof (Z.div_mod n 10 ltac:(lia)) as Hd.
  assert (Forall is_digit ((48 + n mod 10) :: acc)) as Hacc' by (constructor; [unfold is_digit; lia|done]).
  destruct (Z.eqb_spec (n / 10) 0) as [H0|H0].
  - split_and!; [done| |done]. unfold digits_value. cbn [fold_left]. f_equal. lia.
  - assert (0 <= n / 10) by (apply Z.div_pos; lia).
    assert (n / 10 < 10 ^ Z.of_nat fuel) as Hlt'.
    { apply Z.div_lt_upper_bound; [lia|]. rewrite <- Z.pow_succ_r by lia. by rewrite <- Nat2Z.inj_succ. }
    destruct fuel as [|fuel']; [cbn in Hlt'; lia|].
    destruct (IH (n / 10) ((48 + n mod 10) :: acc)) as (H1 & H2 & H3); [lia|exact Hlt'|lia|done|].
    split_and!; [done| |done]. rewrite H2. unfold digits_value. cbn [fold_left]. f_equal. lia.
Qed.

Lemma decimal_spec n : 0 <= n ->
  Forall is_digit (decimal n) /\ digits_value (decimal n) 0 = n /\ decimal n <> [].
Proof.
  intros Hn. pose proof (Z.log2_nonneg n). apply (decimal_digits_spec _ n []); [done|left; lia|lia|constructor].
Qed.

Lemma digit_is c : is_digit c -> digit c = Some (c - 48).
Proof. intros H. unfold digit. by rewrite (proj2 (in_interval_true _ _ _)). Qed.

Lemma digits_value_ge s acc : 0 <= acc -> Forall is_digit s -> acc <= digits_value s acc.
Proof.
  intros Hacc Hs. revert acc Hacc. induction Hs as [|c s Hc Hs IH]; intros acc Hacc; [done|].
  unfold digits_value, is_digit in *. cbn [fold_left]. etransitivity; [|apply IH; lia]. lia.
Qed.

Lemma parse_digits_positive lo hi s acc : Forall is_digit s -> 0 <= acc -> digits_value s acc <= hi ->
  parse_digits lo hi true acc s = Ok (digits_value s acc).
Proof.
  intros Hs. revert acc. induction Hs as [|c s Hc Hs IH]; intros acc Hacc Hv; [done|]. cbn [parse_digits].
  rewrite digit_is by done. unfold digits_value in Hv. cbn [fold_left] in Hv. fold (digits_value s (acc * 10 + (c - 48))) in Hv.
  pose proof (digits_value_ge s (acc * 10 + (c - 48))) as Hge. unfold is_digit in *.
  rewrite (proj2 (Z.ltb_ge _ _)) by (specialize (Hge ltac:(lia) Hs); lia).
  rewrite (proj2 (Z.ltb_ge _ _)) by (specialize (Hge ltac:(lia) Hs); lia). cbn [orb]. apply IH; [lia|done].
Qed.

Lemma parse_digits_negative lo hi s acc : Forall is_digit s -> 0 <= acc -> lo <= - digits_value s acc ->
  parse_digits lo hi false (- acc) s = Ok (- digits_value s acc).
Proof.
  intros Hs. revert acc. induction Hs as [|c s Hc Hs IH]; intros acc Hacc Hv; [done|]. cbn [parse_digits].
  rewrite digit_is by done. unfold digits_value in Hv. cbn [fold_left] in Hv. fold (digits_value s (acc * 10 + (c - 48))) in Hv.
  pose proof (digits_value_ge s (acc * 10 + (c - 48))) as Hge. unfold is_digit in *.
  rewrite (proj2 (Z.ltb_ge _ _)) by (specialize (Hge ltac:(lia) Hs); lia).
  rewrite (proj2 (Z.ltb_ge _ _)) by (specialize (Hge ltac:(lia) Hs); lia). cbn [orb].
  replace (- acc * 10 - (c - 48)) with (- (acc * 10 + (c - 48))) by lia. apply IH; [lia|done].
Qed.

Lemma parse_print_int lo hi z : lo <= z <= hi -> lo <= 0 -> parse_int lo hi (print_int z) = Ok z.
Proof.
  intros Hz Hlo. unfold print_int. destruct (Z.ltb_spec z 0).
  - destruct (decimal_spec (- z) ltac:(lia)) as (Hd & Hv & Hne). unfold parse_int.
    rewrite (proj2 (Z.ltb_lt lo 0)) by lia. cbn [Z.eqb orb andb Pos.eqb].
    pose proof (parse_digits_negative lo hi (decimal (- z)) 0 Hd ltac:(lia) ltac:(lia)) as Hp.
    destruct (decimal (- z)) as [|c s] eqn:He; [done|]. change (- 0) with 0 in Hp. rewrite Hp. f_equal. lia.
  - destruct (decimal_spec z ltac:(lia)) as (Hd & Hv & Hne). unfold parse_int.
    destruct (decimal z) as [|c s] eqn:He; [done|]. assert (is_digit c) as Hc by (by inversion Hd). unfold is_digit in Hc.
    rewrite (proj2 (Z.eqb_neq c 43)) by lia. rewrite (proj2 (Z.eqb_neq c 45)) by lia. cbn [orb andb].
    rewrite parse_digits_positive; [by rewrite Hv|done|lia|lia].
Qed.

(** The characters of a number *)
Lemma print_int_chars z : Forall (fun c => is_digit c \/ c = 45) (print_int z) /\ print_int z <> [].
Proof.
  unfold print_int. destruct (Z.ltb_spec z 0).
  - destruct (decimal_spec (- z) ltac:(lia)) as (Hd & _ & Hne). split; [|done]. constructor; [by right|].
    eapply Forall_impl; [exact Hd|]. by left.
  - destruct (decimal_spec z ltac:(lia)) as (Hd & _ & Hne). split; [|done].
    eapply Forall_impl; [exact Hd|]. by left.
Qed.

Lemma print_int_word z : is_word (print_int z).
Proof.
  destruct (print_int_chars z) as [H Hne]. split; [done|]. eapply Forall_impl; [exact H|].
  intros c Hc. cbn beta in Hc. unfold is_digit in Hc. unfold is_whitespace, in_interval.
  repeat (rewrite orb_false_iff || rewrite andb_false_iff || rewrite Z.eqb_neq || rewrite Z.leb_gt). lia.
Qed.

Lemma print_int_all_chars z : all_chars (print_int z).
Proof.
  destruct (print_int_chars z) as [H _]. eapply Forall_impl; [exact H|]. intros c Hc. cbn beta in Hc.
  unfold is_digit in Hc. apply is_char_true. lia.
Qed.

Lemma print_int_not_in z c : ~ is_digit c -> c <> 45 -> c ∉ print_int z.
Proof.
  intros H1 H2 Hc. destruct (print_int_chars z) as [H _]. apply (proj1 (Forall_forall _ _) H) in Hc. tauto.
Qed.

(** The last character is a digit. *)
Lemma print_int_last z s c : print_int z = s ++ [c] -> is_digit c.
Proof.
  unfold print_int. destruct (Z.ltb_spec z 0).
  - destruct (decimal_spec (- z) ltac:(lia)) as (Hd & _ & Hne). destruct (exists_last Hne) as (s' & d & Hs). rewrite Hs in *.
    intros He. change (45 :: s' ++ [d]) with ((45 :: s') ++ [d]) in He. apply app_inj_tail in He as [_ <-].
    apply Forall_app in Hd as [_ Hd]. by inversion Hd.
  - destruct (decimal_spec z ltac:(lia)) as (Hd & _ & Hne). intros He. rewrite He in Hd.
    apply Forall_app in Hd as [_ Hd]. by inversion Hd.
Qed.

(** A number that was parsed is one of the type. *)
Lemma parse_digits_range lo hi positive acc s z : lo <= 0 <= hi -> lo <= acc <= hi ->
  (positive = true -> 0 <= acc) -> (positive = false -> acc <= 0) ->
  parse_digits lo hi positive acc s = Ok z -> lo <= z <= hi.
Proof.
  intros Hr. revert acc. induction s as [|c s IH]; intros acc Hacc Hp Hn; cbn [parse_digits]; [by intros [= <-]|].
  unfold digit. destruct (in_interval 48 57 c) eqn:Hc; [|done]. apply in_interval_true in Hc. destruct positive.
  - destruct (Z.ltb_spec hi (acc * 10)); [done|]. destruct (Z.ltb_spec hi (acc * 10 + (c - 48))); [done|]. cbn [orb].
    apply IH; [specialize (Hp eq_refl); lia|specialize (Hp eq_refl); lia|done].
  - destruct (Z.ltb_spec (acc * 10) lo); [done|]. destruct (Z.ltb_spec (acc * 10 - (c - 48)) lo); [done|]. cbn [orb].
    apply IH; [specialize (Hn eq_refl); lia|done|specialize (Hn eq_refl); lia].
Qed.

Lemma parse_int_range lo hi s z : lo <= 0 <= hi -> parse_int lo hi s = Ok z -> lo <= z <= hi.
Proof.
  intros Hr. unfold parse_int. repeat case_match; try done; intros H';
    (eapply parse_digits_range; [exact Hr| | | |exact H']); try done; lia.
Qed.

Lemma parse_int_safe lo hi s : safe (parse_int lo hi s).
Proof.
  assert (forall p acc s, safe (parse_digits lo hi p acc s)) as Hd.
  { intros p acc s'. revert acc. induction s' as [|c s' IH]; intros acc; cbn [parse_digits]; [done|].
    repeat case_match; try done; apply IH. }
  unfold parse_int. repeat case_match; try done; apply Hd.
Qed.
