(* ===== verification/Sdp.v ===== *)
(** Session descriptions ([crates/sdp]): the data of [description/], the text of
    a description ([SessionDescription::marshal]), the lexer, and the parser
    with its states [s1] to [s16] ([SessionDescription::unmarshal]).

    A [String] is a [str]; the reader is the bytes of a cursor, which does no
    I/O.  URLs are those of the url crate, the class [Urls]. *)
From Stdlib Require Import Strings.String.
From S2P Require Import Prelude Text.

Class Urls := {
  Url : Type;
  url_parse : str -> option Url;
  url_to_string : Url -> str
}.

Inductive SdpError : Type :=
  | SdpIo
  | SdpUtf8
  | SdpInvalidSyntax (s : str)
  | SdpInvalidValue (s : str)
  | SdpEmptyTimeDescription
  | SdpParseInt (k : IntErrorKind)
  | SdpParseUrl.

(** * [description/common.rs] *)
Record Address := mkAddress { ad_address : str; ad_ttl : option Z; ad_range : option Z }.

Definition opt_list {A} (o : option A) : list A := match o with Some a => [a] | None => [] end.

Definition Address_to_string (a : Address) : str :=
  join [47] (ad_address a :: opt_list (print_int <$> ad_ttl a) ++ opt_list (print_int <$> ad_range a)).

Record ConnectionInformation := mkConnectionInformation {
  ci_network_type : str;
  ci_address_type : str;
  ci_address : option Address
}.

Definition ConnectionInformation_to_string (c : ConnectionInformation) : str :=
  match ci_address c with
  | Some address => join [32] [ci_network_type c; ci_address_type c; Address_to_string address]
  | None => join [32] [ci_network_type c; ci_address_type c]
  end.

Record Bandwidth := mkBandwidth { bw_experimental : bool; bw_bandwidth_type : str; bw_bandwidth : Z }.

Definition Bandwidth_to_string (b : Bandwidth) : str :=
  (if bw_experimental b then chars "X-" else []) ++ bw_bandwidth_type b ++ [58] ++ print_int (bw_bandwidth b).

Record Attribute := mkAttribute { at_key : str; at_value : option str }.

Definition Attribute_to_string (a : Attribute) : str :=
  match at_value a with Some value => at_key a ++ [58] ++ value | None => at_key a end.

Definition is_ice_candidate (a : Attribute) : bool := bool_decide (at_key a = chars "candidate").

(** * [description/media.rs] *)
Record RangedPort := mkRangedPort { rp_value : Z; rp_range : option Z }.

Definition RangedPort_to_string (p : RangedPort) : str :=
  match rp_range p with
  | Some range => print_int (rp_value p) ++ [47] ++ print_int range
  | None => print_int (rp_value p)
  end.

Record MediaName := mkMediaName {
  mn_media : str;
  mn_port : RangedPort;
  mn_protos : list str;
  mn_formats : list str
}.

Definition MediaName_to_string (m : MediaName) : str :=
  join [32] [mn_media m; RangedPort_to_string (mn_port m); join [47] (mn_protos m); join [32] (mn_formats m)].

Record MediaDescription := mkMediaDescription {
  md_media_name : MediaName;
  md_media_title : option str;
  md_connection_information : option ConnectionInformation;
  md_bandwidth : list Bandwidth;
  md_encryption_key : option str;
  md_attributes : list Attribute
}.

#[export] Instance MediaDescription_settable : Settable MediaDescription := fun m =>
  mkMediaDescription (md_media_name m) (md_media_title m) (md_connection_information m) (md_bandwidth m)
    (md_encryption_key m) (md_attributes m).

Definition find_attribute (key : str) (l : list Attribute) : option Attribute :=
  List.find (fun a => bool_decide (at_key a = key)) l.

(** The value of the first attribute with the key *)
Definition MediaDescription_attribute (key : str) (m : MediaDescription) : option (option str) :=
  at_value <$> find_attribute key (md_attributes m).

Definition md_with_property_attribute (key : str) (m : MediaDescription) : MediaDescription :=
  m <| md_attributes := md_attributes m ++ [mkAttribute key None] |>.

Definition md_with_value_attribute (key value : str) (m : MediaDescription) : MediaDescription :=
  m <| md_attributes := md_attributes m ++ [mkAttribute key (Some value)] |>.

Definition md_with_fingerprint (algorithm value : str) (m : MediaDescription) : MediaDescription :=
  md_with_value_attribute (chars "fingerprint") (algorithm ++ chars " " ++ value) m.

Definition md_with_ice_credentials (username password : str) (m : MediaDescription) : MediaDescription :=
  md_with_value_attribute (chars "ice-pwd") password (md_with_value_attribute (chars "ice-ufrag") username m).

(** * [description/session.rs] *)
Record Origin := mkOrigin {
  or_username : str;
  or_session_id : Z;
  or_session_version : Z;
  or_network_type : str;
  or_address_type : str;
  or_unicast_address : str
}.

Definition Origin_to_string (o : Origin) : str :=
  join [32] [or_username o; print_int (or_session_id o); print_int (or_session_version o); or_network_type o;
             or_address_type o; or_unicast_address o].

Definition Origin_new : Origin := mkOrigin [] 0 0 [] [] [].

Record TimeZone := mkTimeZone { tz_adjustment_time : Z; tz_offset : Z }.
Definition TimeZone_to_string (t : TimeZone) : str :=
  join [32] [print_int (tz_adjustment_time t); print_int (tz_offset t)].

Record Timing := mkTiming { tm_start_time : Z; tm_stop_time : Z }.
Definition Timing_to_string (t : Timing) : str := join [32] [print_int (tm_start_time t); print_int (tm_stop_time t)].

Record RepeatTime := mkRepeatTime { rt_interval : Z; rt_duration : Z; rt_offsets : list Z }.
Definition RepeatTime_to_string (r : RepeatTime) : str :=
  join [32] (print_int (rt_interval r) :: print_int (rt_duration r) :: map print_int (rt_offsets r)).

Record TimeDescription := mkTimeDescription { td_timing : Timing; td_repeat_times : list RepeatTime }.

Section session.
Context {U : Urls}.

Record SessionDescription := mkSessionDescription {
  sd_version : Z;
  sd_origin : Origin;
  sd_session_name : str;
  sd_session_information : option str;
  sd_uri : option Url;
  sd_email_address : option str;
  sd_phone_number : option str;
  sd_connection_information : option ConnectionInformation;
  sd_bandwidth : list Bandwidth;
  sd_time_descriptions : list TimeDescription;
  sd_time_zones : list TimeZone;
  sd_encryption_key : option str;
  sd_attributes : list Attribute;
  sd_media_descriptions : list MediaDescription
}.

#[export] Instance SessionDescription_settable : Settable SessionDescription := fun d =>
  mkSessionDescription (sd_version d) (sd_origin d) (sd_session_name d) (sd_session_information d) (sd_uri d)
    (sd_email_address d) (sd_phone_number d) (sd_connection_information d) (sd_bandwidth d) (sd_time_descriptions d)
    (sd_time_zones d) (sd_encryption_key d) (sd_attributes d) (sd_media_descriptions d).

Definition sd_with_property_attribute (key : str) (d : SessionDescription) : SessionDescription :=
  d <| sd_attributes := sd_attributes d ++ [mkAttribute key None] |>.

Definition sd_with_value_attribute (key value : str) (d : SessionDescription) : SessionDescription :=
  d <| sd_attributes := sd_attributes d ++ [mkAttribute key (Some value)] |>.

Definition sd_with_fingerprint (algorithm value : str) (d : SessionDescription) : SessionDescription :=
  sd_with_value_attribute (chars "fingerprint") (algorithm ++ chars " " ++ value) d.

Definition sd_with_media (m : MediaDescription) (d : SessionDescription) : SessionDescription :=
  d <| sd_media_descriptions := sd_media_descriptions d ++ [m] |>.

Definition SessionDescription_attribute (key : str) (d : SessionDescription) : option str :=
  match find_attribute key (sd_attributes d) with Some a => at_value a | None => None end.

(** The random bits and the clock are arguments. *)
Definition new_session_id (random : Z) : Z := Z.land random (Z.lxor (2 ^ 64 - 1) (Z.shiftl 1 63)).

Definition new_jsep_session_description (random subsec_nanos : Z) (identity : bool) : SessionDescription :=
  let d := mkSessionDescription 0
    (mkOrigin (chars "-") (new_session_id random) subsec_nanos (chars "IN") (chars "IP4") (chars "0.0.0.0"))
    (chars "-") None None None None None [] [mkTimeDescription (mkTiming 0 0) []] [] None [] [] in
  if identity then sd_with_property_attribute (chars "identity") d else d.

(** * Printing *)
Definition END_LINE : str := [13; 10].

Definition key_value_build (key : string) (value : option str) : str :=
  match value with Some val => chars key ++ val ++ END_LINE | None => [] end.

Definition marshal_media (m : MediaDescription) : str :=
  key_value_build "m=" (Some (MediaName_to_string (md_media_name m)))
  ++ key_value_build "i=" (md_media_title m)
  ++ key_value_build "c=" (ConnectionInformation_to_string <$> md_connection_information m)
  ++ flat_map (fun b => key_value_build "b=" (Some (Bandwidth_to_string b))) (md_bandwidth m)
  ++ key_value_build "k=" (md_encryption_key m)
  ++ flat_map (fun a => key_value_build "a=" (Some (Attribute_to_string a))) (md_attributes m).

Definition marshal_time (t : TimeDescription) : str :=
  key_value_build "t=" (Some (Timing_to_string (td_timing t)))
  ++ flat_map (fun r => key_value_build "r=" (Some (RepeatTime_to_string r))) (td_repeat_times t).

Definition SessionDescription_marshal (d : SessionDescription) : str :=
  key_value_build "v=" (Some (print_int (sd_version d)))
  ++ key_value_build "o=" (Some (Origin_to_string (sd_origin d)))
  ++ key_value_build "s=" (Some (sd_session_name d))
  ++ key_value_build "i=" (sd_session_information d)
  ++ key_value_build "u=" (url_to_string <$> sd_uri d)
  ++ key_value_build "e=" (sd_email_address d)
  ++ key_value_build "p=" (sd_phone_number d)
  ++ key_value_build "c=" (ConnectionInformation_to_string <$> sd_connection_information d)
  ++ flat_map (fun b => key_value_build "b=" (Some (Bandwidth_to_string b))) (sd_bandwidth d)
  ++ flat_map marshal_time (sd_time_descriptions d)
  ++ match sd_time_zones d with
     | [] => []
     | time_zones => key_value_build "z=" (Some (join [32] (map TimeZone_to_string time_zones)))
     end
  ++ key_value_build "k=" (sd_encryption_key d)
  ++ flat_map (fun a => key_value_build "a=" (Some (Attribute_to_string a))) (sd_attributes d)
  ++ flat_map marshal_media (sd_media_descriptions d).

(** * [lexer/mod.rs] *)
Record Lexer := mkLexer { lx_desc : SessionDescription; lx_reader : bytes }.

#[export] Instance Lexer_settable : Settable Lexer := fun l => mkLexer (lx_desc l) (lx_reader l).

Abbreviation LX A := (ST Lexer SdpError A).

(** The bytes up to the delimiter, with it, and the bytes after it *)
Fixpoint read_until (d : Z) (l : bytes) : bytes * bytes :=
  match l with
  | [] => ([], [])
  | b :: l' => if u8_of_byte b =? d then ([b], l') else let '(t, r) := read_until d l' in (b :: t, r)
  end.

(** The loop of [read_type] passes over line ends. *)
Fixpoint skip_line_ends (l : bytes) : bytes :=
  match l with
  | b :: l' => if (u8_of_byte b =? 10) || (u8_of_byte b =? 13) then skip_line_ends l' else l
  | [] => []
  end.

Definition from_utf8 (l : bytes) : res SdpError str :=
  match utf8_decode l with Some s => Ok s | None => Err SdpUtf8 end.

Definition invalid_syntax {A} (key : bytes) : LX A :=
  s ← st_lift (from_utf8 key);
  st_raise (SdpInvalidSyntax s).

Definition read_type : LX (bytes * nat) :=
  reader ← st_get lx_reader;
  match skip_line_ends reader with
  | [] =>
      _ ← st_modify (fun l => l <| lx_reader := [] |>);
      mret ([], 0%nat)
  | reader =>
      let '(buf, rest) := read_until 61 reader in
      _ ← st_modify (fun l => l <| lx_reader := rest |>);
      if (length buf =? 2)%nat then mret (buf, 2%nat) else invalid_syntax buf
  end.

(** [read_line] takes text only. *)
Definition read_value : LX str :=
  reader ← st_get lx_reader;
  let '(line, rest) := read_until 10 reader in
  _ ← st_modify (fun l => l <| lx_reader := rest |>);
  match utf8_decode line with
  | Some value => mret (trim value)
  | None => st_raise SdpIo
  end.

Definition index_of (element : str) (data : list string) : bool := existsb (fun v => bool_decide (element = chars v)) data.

(** * The parser *)

(** The functions a [StateFn] can hold *)
Inductive StateFn : Type :=
  | s1 | s2 | s3 | s4 | s5 | s6 | s7 | s8 | s9 | s10 | s11 | s12 | s13 | s14 | s15 | s16
  | unmarshal_protocol_version | unmarshal_origin | unmarshal_session_name | unmarshal_session_information
  | unmarshal_uri | unmarshal_email | unmarshal_phone | unmarshal_session_connection_information
  | unmarshal_session_bandwidth | unmarshal_timing | unmarshal_repeat_times | unmarshal_time_zones
  | unmarshal_session_encryption_key | unmarshal_session_attribute | unmarshal_media_description
  | unmarshal_media_title | unmarshal_media_connection_information | unmarshal_media_bandwidth
  | unmarshal_media_encryption_key | unmarshal_media_attribute.

(** The [match] on the key of a line *)
Definition dispatch_key (key : bytes) (table : list (string * StateFn)) : LX (option StateFn) :=
  match List.find (fun e => bool_decide (key = list_byte_of_string (fst e))) table with
  | Some (_, f) => mret (Some f)
  | None => invalid_syntax key
  end.

Definition required_key (table : list (string * StateFn)) : LX (option StateFn) :=
  '(key, _) ← read_type;
  dispatch_key key table.

(** In these states the text may end. *)
Definition optional_key (table : list (string * StateFn)) : LX (option StateFn) :=
  '(key, num_bytes) ← read_type;
  if bool_decide (key = []) && (num_bytes =? 0)%nat then mret None
  else dispatch_key key table.

(** The transitions out of [s1] to [s16] *)
Definition s1_step := required_key [("v=", unmarshal_protocol_version)]%string.
Definition s2_step := required_key [("o=", unmarshal_origin)]%string.
Definition s3_step := required_key [("s=", unmarshal_session_name)]%string.
Definition s4_step := required_key
  [("i=", unmarshal_session_information); ("u=", unmarshal_uri); ("e=", unmarshal_email); ("p=", unmarshal_phone);
   ("c=", unmarshal_session_connection_information); ("b=", unmarshal_session_bandwidth); ("t=", unmarshal_timing)]%string.
Definition s5_step := required_key [("b=", unmarshal_session_bandwidth); ("t=", unmarshal_timing)]%string.
Definition s6_step := required_key
  [("p=", unmarshal_phone); ("c=", unmarshal_session_connection_information); ("b=", unmarshal_session_bandwidth);
   ("t=", unmarshal_timing)]%string.
Definition s7_step := required_key
  [("u=", unmarshal_uri); ("e=", unmarshal_email); ("p=", unmarshal_phone);
   ("c=", unmarshal_session_connection_information); ("b=", unmarshal_session_bandwidth); ("t=", unmarshal_timing)]%string.
Definition s8_step := required_key
  [("c=", unmarshal_session_connection_information); ("b=", unmarshal_session_bandwidth); ("t=", unmarshal_timing)]%string.
Definition s9_step := optional_key
  [("z=", unmarshal_time_zones); ("k=", unmarshal_session_encryption_key); ("a=", unmarshal_session_attribute);
   ("r=", unmarshal_repeat_times); ("t=", unmarshal_timing); ("m=", unmarshal_media_description)]%string.
Definition s10_step := required_key
  [("e=", unmarshal_email); ("p=", unmarshal_phone); ("c=", unmarshal_session_connection_information);
   ("b=", unmarshal_session_bandwidth); ("t=", unmarshal_timing)]%string.
Definition s11_step := optional_key [("a=", unmarshal_session_attribute); ("m=", unmarshal_media_description)]%string.

(** [s12], [s14], [s15] and [s16] take the lines of a media description in any order. *)
Definition media_lines : list (string * StateFn) :=
  [("a=", unmarshal_media_attribute); ("k=", unmarshal_media_encryption_key); ("b=", unmarshal_media_bandwidth);
   ("c=", unmarshal_media_connection_information); ("i=", unmarshal_media_title); ("m=", unmarshal_media_description)]%string.
Definition s12_step := optional_key media_lines.
Definition s13_step := optional_key
  [("a=", unmarshal_session_attribute); ("k=", unmarshal_session_encryption_key); ("m=", unmarshal_media_description)]%string.
Definition s14_step := optional_key media_lines.
Definition s15_step := optional_key media_lines.
Definition s16_step := optional_key media_lines.

Definition parse_number {A} (r : res IntErrorKind A) : res SdpError A :=
  match r with Ok a => Ok a | Err k => Err (SdpParseInt k) | Panic => Panic | OutOfFuel => OutOfFuel end.

Definition line_error (key : string) (value : str) : SdpError :=
  SdpInvalidSyntax (chars "`" ++ chars key ++ value ++ chars "`").

Definition parse_version (value : str) : res SdpError unit :=
  version ← parse_number (parse_unsigned 32 value);
  if negb (version =? 0) then Err (SdpInvalidSyntax value) else Ok tt.

Definition parse_origin (value : str) : res SdpError Origin :=
  match split_whitespace value with
  | [username; id; version; network_type; address_type; unicast_address] =>
      session_id ← parse_number (parse_unsigned 64 id);
      session_version ← parse_number (parse_unsigned 64 version);
      if negb (index_of network_type ["IN"%string]) then Err (SdpInvalidValue network_type)
      else if negb (index_of address_type ["IP4"; "IP6"]%string) then Err (SdpInvalidValue address_type)
      else Ok (mkOrigin username session_id session_version network_type address_type unicast_address)
  | _ => Err (line_error "o=" value)
  end.

Definition unmarshal_connection_information (value : str) : res SdpError (option ConnectionInformation) :=
  match split_whitespace value with
  | network_type :: address_type :: fields =>
      if negb (index_of network_type ["IN"%string]) then Err (SdpInvalidValue network_type)
      else if negb (index_of address_type ["IP4"; "IP6"]%string) then Err (SdpInvalidValue address_type)
      else
        let address := match fields with [] => None | a :: _ => Some (mkAddress a None None) end in
        Ok (Some (mkConnectionInformation network_type address_type address))
  | _ => Err (line_error "c=" value)
  end.

Definition unmarshal_bandwidth (value : str) : res SdpError Bandwidth :=
  match split_on 58 value with
  | [typ; number] =>
      let experimental := starts_with (chars "X-") typ in
      let typ' := if experimental then trim_start_matches (chars "X-") typ else typ in
      if negb experimental && negb (index_of typ ["CT"; "AS"]%string) then Err (SdpInvalidValue typ)
      else
        bandwidth ← parse_number (parse_unsigned 64 number);
        Ok (mkBandwidth experimental typ' bandwidth)
  | _ => Err (line_error "b=" value)
  end.

Definition parse_timing (value : str) : res SdpError Timing :=
  match split_whitespace value with
  | start :: stop :: _ =>
      start_time ← parse_number (parse_unsigned 64 start);
      stop_time ← parse_number (parse_unsigned 64 stop);
      Ok (mkTiming start_time stop_time)
  | _ => Err (line_error "t=" value)
  end.

(** The last byte of the text is an ASCII letter just if its last character is. *)
Definition parse_time_units (value : str) : res SdpError Z :=
  let '(num, factor) :=
    match last value with
    | Some c =>
        let num := take (length value - 1) value in
        if c =? 100 then (num, 86400) else if c =? 104 then (num, 3600) else if c =? 109 then (num, 60)
        else if c =? 115 then (num, 1) else (value, 1)
    | None => (value, 1)
    end in
  n ← parse_number (parse_signed 64 num);
  let z := n * factor in
  if (- 2 ^ 63 <=? z) && (z <=? 2 ^ 63 - 1) then Ok z else Err (SdpInvalidValue value).

Fixpoint parse_each {A B} (f : A -> res SdpError B) (l : list A) : res SdpError (list B) :=
  match l with
  | [] => Ok []
  | a :: l' => b ← f a; bs ← parse_each f l'; Ok (b :: bs)
  end.

Definition parse_repeat_time (value : str) : res SdpError RepeatTime :=
  match split_whitespace value with
  | interval :: duration :: ((_ :: _) as offsets) =>
      interval ← parse_time_units interval;
      duration ← parse_time_units duration;
      offsets ← parse_each parse_time_units offsets;
      Ok (mkRepeatTime interval duration offsets)
  | _ => Err (line_error "r=" value)
  end.

(** The pairs that come before an error are in the description when it is
    returned; the description is then dropped. *)
Fixpoint parse_time_zones (value : str) (fields : list str) : res SdpError (list TimeZone) :=
  match fields with
  | [] => Ok []
  | adjustment :: offset :: fields' =>
      adjustment_time ← parse_number (parse_unsigned 64 adjustment);
      offset ← parse_time_units offset;
      zones ← parse_time_zones value fields';
      Ok (mkTimeZone adjustment_time offset :: zones)
  | _ => Err (line_error "t=" value)
  end.

Definition parse_attribute (value : str) : Attribute :=
  let '(key, value) := split_once 58 value in mkAttribute key value.

Definition MEDIA : list string := ["audio"; "video"; "text"; "application"; "message"]%string.
Definition PROTOS : list string := ["UDP"; "RTP"; "AVP"; "SAVP"; "SAVPF"; "TLS"; "DTLS"; "SCTP"; "AVPF"]%string.

Definition parse_ranged_port (field : str) : res SdpError RangedPort :=
  let parts := split_on 47 field in
  match parts with
  | [] => Panic
  | port :: rest =>
      port_value ← parse_number (parse_unsigned 16 port);
      match rest with
      | [] => Ok (mkRangedPort port_value None)
      | range :: _ =>
          port_range ← parse_number (parse_signed 32 range);
          Ok (mkRangedPort port_value (Some port_range))
      end
  end.

Definition parse_protos (field : str) : res SdpError (list str) :=
  let protos := split_on 47 field in
  if forallb (fun proto => index_of proto PROTOS) protos then Ok protos else Err (SdpInvalidValue field).

Definition parse_media_name (value : str) : res SdpError MediaName :=
  match split_whitespace value with
  | media :: port :: protos :: ((_ :: _) as formats) =>
      if negb (index_of media MEDIA) then Err (SdpInvalidValue media)
      else
        port ← parse_ranged_port port;
        protos ← parse_protos protos;
        Ok (mkMediaName media port protos formats)
  | _ => Err (line_error "m=" value)
  end.

(** A line of the session: its value, what it does to the description, the next state *)
Definition session_line (f : str -> SessionDescription -> res SdpError SessionDescription) (next : StateFn)
    : LX (option StateFn) :=
  value ← read_value;
  desc ← st_get lx_desc;
  desc ← st_lift (f value desc);
  _ ← st_modify (fun l => l <| lx_desc := desc |>);
  mret (Some next).

(** [last_mut] *)
Definition with_last {A} (f : A -> res SdpError A) (l : list A) : res SdpError (list A) :=
  match last l with
  | Some a => a ← f a; Ok (removelast l ++ [a])
  | None => Err SdpEmptyTimeDescription
  end.

Definition media_line (f : str -> MediaDescription -> res SdpError MediaDescription) : StateFn -> LX (option StateFn) :=
  session_line (fun value d =>
    media ← with_last (f value) (sd_media_descriptions d);
    Ok (d <| sd_media_descriptions := media |>)).

Definition unmarshal_protocol_version_step := session_line (fun value d => _ ← parse_version value; Ok d) s2.
Definition unmarshal_origin_step :=
  session_line (fun value d => origin ← parse_origin value; Ok (d <| sd_origin := origin |>)) s3.
Definition unmarshal_session_name_step := session_line (fun value d => Ok (d <| sd_session_name := value |>)) s4.
Definition unmarshal_session_information_step :=
  session_line (fun value d => Ok (d <| sd_session_information := Some value |>)) s7.
Definition unmarshal_uri_step :=
  session_line (fun value d =>
    match url_parse value with Some uri => Ok (d <| sd_uri := Some uri |>) | None => Err SdpParseUrl end) s10.
Definition unmarshal_email_step := session_line (fun value d => Ok (d <| sd_email_address := Some value |>)) s6.
Definition unmarshal_phone_step := session_line (fun value d => Ok (d <| sd_phone_number := Some value |>)) s8.
Definition unmarshal_session_connection_information_step :=
  session_line (fun value d =>
    c ← unmarshal_connection_information value; Ok (d <| sd_connection_information := c |>)) s5.
Definition unmarshal_session_bandwidth_step :=
  session_line (fun value d => b ← unmarshal_bandwidth value; Ok (d <| sd_bandwidth := sd_bandwidth d ++ [b] |>)) s5.
Definition unmarshal_timing_step :=
  session_line (fun value d =>
    t ← parse_timing value;
    Ok (d <| sd_time_descriptions := sd_time_descriptions d ++ [mkTimeDescription t []] |>)) s9.

(** The fields are counted before the last time description is looked for. *)
Definition unmarshal_repeat_times_step :=
  session_line (fun value d =>
    if (length (split_whitespace value) <? 3)%nat then Err (line_error "r=" value)
    else
      times ← with_last (fun t =>
        r ← parse_repeat_time value; Ok (mkTimeDescription (td_timing t) (td_repeat_times t ++ [r])))
        (sd_time_descriptions d);
      Ok (d <| sd_time_descriptions := times |>)) s9.
Definition unmarshal_time_zones_step :=
  session_line (fun value d =>
    let fields := split_whitespace value in
    if negb (length fields mod 2 =? 0)%nat then Err (line_error "t=" value)
    else zones ← parse_time_zones value fields; Ok (d <| sd_time_zones := sd_time_zones d ++ zones |>)) s13.
Definition unmarshal_session_encryption_key_step :=
  session_line (fun value d => Ok (d <| sd_encryption_key := Some value |>)) s11.
Definition unmarshal_session_attribute_step :=
  session_line (fun value d => Ok (d <| sd_attributes := sd_attributes d ++ [parse_attribute value] |>)) s11.
Definition unmarshal_media_description_step :=
  session_line (fun value d =>
    name ← parse_media_name value;
    Ok (d <| sd_media_descriptions := sd_media_descriptions d ++ [mkMediaDescription name None None [] None []] |>)) s12.
Definition unmarshal_media_title_step := media_line (fun value m => Ok (m <| md_media_title := Some value |>)) s16.
Definition unmarshal_media_connection_information_step :=
  media_line (fun value m =>
    c ← unmarshal_connection_information value; Ok (m <| md_connection_information := c |>)) s15.
Definition unmarshal_media_bandwidth_step :=
  media_line (fun value m => b ← unmarshal_bandwidth value; Ok (m <| md_bandwidth := md_bandwidth m ++ [b] |>)) s15.
Definition unmarshal_media_encryption_key_step :=
  media_line (fun value m => Ok (m <| md_encryption_key := Some value |>)) s14.
Definition unmarshal_media_attribute_step :=
  media_line (fun value m => Ok (m <| md_attributes := md_attributes m ++ [parse_attribute value] |>)) s14.

Definition run_state (f : StateFn) : LX (option StateFn) :=
  match f with
  | s1 => s1_step | s2 => s2_step | s3 => s3_step | s4 => s4_step | s5 => s5_step | s6 => s6_step
  | s7 => s7_step | s8 => s8_step | s9 => s9_step | s10 => s10_step | s11 => s11_step | s12 => s12_step
  | s13 => s13_step | s14 => s14_step | s15 => s15_step | s16 => s16_step
  | unmarshal_protocol_version => unmarshal_protocol_version_step
  | unmarshal_origin => unmarshal_origin_step
  | unmarshal_session_name => unmarshal_session_name_step
  | unmarshal_session_information => unmarshal_session_information_step
  | unmarshal_uri => unmarshal_uri_step
  | unmarshal_email => unmarshal_email_step
  | unmarshal_phone => unmarshal_phone_step
  | unmarshal_session_connection_information => unmarshal_session_connection_information_step
  | unmarshal_session_bandwidth => unmarshal_session_bandwidth_step
  | unmarshal_timing => unmarshal_timing_step
  | unmarshal_repeat_times => unmarshal_repeat_times_step
  | unmarshal_time_zones => unmarshal_time_zones_step
  | unmarshal_session_encryption_key => unmarshal_session_encryption_key_step
  | unmarshal_session_attribute => unmarshal_session_attribute_step
  | unmarshal_media_description => unmarshal_media_description_step
  | unmarshal_media_title => unmarshal_media_title_step
  | unmarshal_media_connection_information => unmarshal_media_connection_information_step
  | unmarshal_media_bandwidth => unmarshal_media_bandwidth_step
  | unmarshal_media_encryption_key => unmarshal_media_encryption_key_step
  | unmarshal_media_attribute => unmarshal_media_attribute_step
  end.

(** [while let Some(s) = state]; a state of two takes a byte at least. *)
Fixpoint run_states (fuel : nat) (f : StateFn) : LX unit :=
  match fuel with
  | O => st_lift OutOfFuel
  | S fuel' =>
      next ← run_state f;
      match next with
      | Some f => run_states fuel' f
      | None => mret tt
      end
  end.

Definition empty_description : SessionDescription :=
  mkSessionDescription 0 Origin_new [] None None None None None [] [] [] None [] [].

Definition SessionDescription_unmarshal (reader : bytes) : res SdpError SessionDescription :=
  match run_states (2 * length reader + 2) s1 (mkLexer empty_description reader) with
  | (Ok _, l) => Ok (lx_desc l)
  | (Err e, _) => Err e
  | (Panic, _) => Panic
  | (OutOfFuel, _) => OutOfFuel
  end.
End session.
