(* ===== verification/SdpText.v ===== *)
(** The lines of a session description: every value that the parser gives is
    printed to a line that it reads back ([parse_x (X_to_string x) = Ok x]). *)
From Stdlib Require Import Strings.String.
From S2P Require Import Prelude Text TextLaws Sdp.

(** [line_text s]: what [read_value] can give: characters, on one line, trimmed *)
Definition line_text (s : str) : Prop := all_chars s /\ (10 ∉ s) /\ trimmed s.

Definition token (s : str) : Prop := is_word s /\ all_chars s.

Lemma no_space_no_newline s : no_space s -> 10 ∉ s.
Proof. intros H Hin. by apply (proj1 (Forall_forall _ _) H) in Hin. Qed.

Lemma token_line s : token s -> line_text s.
Proof.
  intros [Hw Hc]. split; [exact Hc|]. split; [apply no_space_no_newline, Hw|by apply trimmed_word].
Qed.

Lemma all_chars_app a b : all_chars (a ++ b) <-> all_chars a /\ all_chars b.
Proof. apply Forall_app. Qed.

Lemma join_elem sep l c : c ∈ join sep l -> c ∈ sep \/ exists w, w ∈ l /\ c ∈ w.
Proof.
  induction l as [|w l IH]; [by intros ?%elem_of_nil|]. destruct l as [|w' l].
  - cbn [join]. intros H. right. exists w. split; [by apply elem_of_cons; left|done].
  - rewrite join_cons, !elem_of_app. intros [H|[H|H]]; [|by left|].
    + right. exists w. split; [by apply elem_of_cons; left|done].
    + destruct (IH H) as [?|(v & ? & ?)]; [by left|]. right. exists v. split; [by apply elem_of_cons; right|done].
Qed.

Lemma all_chars_join sep l : all_chars sep -> Forall all_chars l -> all_chars (join sep l).
Proof.
  intros Hs Hl. apply Forall_forall. intros c Hc. apply join_elem in Hc as [Hc|(w & Hw & Hc)].
  - by apply (proj1 (Forall_forall _ _) Hs).
  - apply (proj1 (Forall_forall _ _) Hl) in Hw. by apply (proj1 (Forall_forall _ _) Hw).
Qed.

Lemma tokens_words l : Forall token l -> Forall is_word l.
Proof. intros H. eapply Forall_impl; [exact H|]. by intros ? []. Qed.

Lemma tokens_line l : Forall token l -> line_text (join [32] l).
Proof.
  intros H. split; [|split].
  - apply all_chars_join; [by repeat constructor|]. eapply Forall_impl; [exact H|]. by intros ? [].
  - intros Hin. apply join_elem in Hin as [Hin|(w & Hw & Hin)].
    + by apply list_elem_of_singleton in Hin.
    + apply (proj1 (Forall_forall _ _) H) in Hw as [[_ Hw] _]. by apply no_space_no_newline in Hin.
  - by apply trimmed_words, tokens_words.
Qed.

Lemma print_int_token z : token (print_int z).
Proof. split; [apply print_int_word|apply print_int_all_chars]. Qed.

Lemma index_of_spec s l : index_of s l = true <-> exists v, v ∈ l /\ s = chars v.
Proof.
  unfold index_of. rewrite existsb_exists. split; intros (v & Hv & H); exists v.
  - apply bool_decide_eq_true in H. by apply list_elem_of_In in Hv.
  - split; [by apply list_elem_of_In|by apply bool_decide_eq_true].
Qed.

(** A test on every name of a list of constants *)
Lemma index_of_all (P : str -> Prop) s l : index_of s l = true -> Forall (fun v => P (chars v)) l -> P s.
Proof. intros (v & Hv & ->)%index_of_spec H. by apply (proj1 (Forall_forall _ _) H). Qed.

Lemma constant_token s : s <> [] -> forallb (fun c => negb (is_whitespace c) && is_char c) s = true -> token s.
Proof.
  intros Hne H. assert (forall c, c ∈ s -> is_whitespace c = false /\ is_char c = true) as Hall.
  { intros c Hc. rewrite forallb_forall in H. apply list_elem_of_In, H, andb_true_iff in Hc as [Hw Hc].
    by apply negb_true_iff in Hw. }
  split; [split; [exact Hne|]|]; apply Forall_forall; intros c Hc; by apply Hall.
Qed.

Ltac forall_tokens := repeat (apply Forall_cons; split; [first [assumption | apply print_int_token]|]); apply Forall_nil; exact I.

Ltac constants := repeat (constructor; [first [apply constant_token; [done|reflexivity] | by repeat (apply not_elem_of_cons; split; [done|]); apply not_elem_of_nil]|]); constructor.

(** * Time units *)
Lemma parse_time_units_print z : - 2 ^ 63 <= z <= 2 ^ 63 - 1 -> parse_time_units (print_int z) = Ok z.
Proof.
  intros Hz. unfold parse_time_units. destruct (print_int_chars z) as [_ Hne].
  destruct (exists_last Hne) as (s & c & Hs). pose proof (print_int_last z s c Hs) as Hd. unfold is_digit in Hd.
  rewrite Hs, last_snoc. repeat (rewrite (proj2 (Z.eqb_neq c _)) by lia). rewrite <- Hs. unfold parse_signed.
  rewrite parse_print_int by lia. cbn [parse_number mbind res_bind]. rewrite Z.mul_1_r.
  by rewrite (proj2 (Z.leb_le _ _)), (proj2 (Z.leb_le _ _)) by lia.
Qed.

Lemma parse_number_Ok {A} (r : res IntErrorKind A) a : parse_number r = Ok a -> r = Ok a.
Proof. by destruct r; try done; intros [= ->]. Qed.

Lemma parse_unsigned_print w z : 0 <= z < 2 ^ w -> parse_number (parse_unsigned w (print_int z)) = Ok z.
Proof. intros Hz. unfold parse_unsigned. by rewrite parse_print_int by lia. Qed.

Lemma parse_unsigned_range w s z : 0 <= w -> parse_number (parse_unsigned w s) = Ok z -> 0 <= z < 2 ^ w.
Proof.
  intros Hw H%parse_number_Ok. apply parse_int_range in H; [lia|]. pose proof (Z.pow_pos_nonneg 2 w). lia.
Qed.

Lemma parse_time_units_range s z : parse_time_units s = Ok z -> - 2 ^ 63 <= z <= 2 ^ 63 - 1.
Proof.
  unfold parse_time_units. case_match. intros H'. apply bind_Ok in H' as (n & _ & H').
  destruct ((_ <=? _) && _) eqn:Hr; [|done]. apply andb_true_iff in Hr as [H1%Z.leb_le H2%Z.leb_le]. injection H' as <-. lia.
Qed.

(** * The values *)
Definition Origin_wf (o : Origin) : Prop :=
  token (or_username o) /\ 0 <= or_session_id o < 2 ^ 64 /\ 0 <= or_session_version o < 2 ^ 64
  /\ index_of (or_network_type o) ["IN"%string] = true /\ index_of (or_address_type o) ["IP4"; "IP6"]%string = true
  /\ token (or_unicast_address o).

Definition ConnectionInformation_wf (c : ConnectionInformation) : Prop :=
  index_of (ci_network_type c) ["IN"%string] = true /\ index_of (ci_address_type c) ["IP4"; "IP6"]%string = true
  /\ match ci_address c with
     | Some a => token (ad_address a) /\ ad_ttl a = None /\ ad_range a = None
     | None => True
     end.

Definition Bandwidth_wf (b : Bandwidth) : Prop :=
  0 <= bw_bandwidth b < 2 ^ 64
  /\ (if bw_experimental b
      then all_chars (bw_bandwidth_type b) /\ (10 ∉ bw_bandwidth_type b) /\ (58 ∉ bw_bandwidth_type b)
           /\ starts_with (chars "X-") (bw_bandwidth_type b) = false
      else index_of (bw_bandwidth_type b) ["CT"; "AS"]%string = true).

Definition Attribute_wf (a : Attribute) : Prop := (58 ∉ at_key a) /\ line_text (Attribute_to_string a).

Definition Timing_wf (t : Timing) : Prop := 0 <= tm_start_time t < 2 ^ 64 /\ 0 <= tm_stop_time t < 2 ^ 64.

Definition in_i64 (z : Z) : Prop := - 2 ^ 63 <= z <= 2 ^ 63 - 1.

Definition RepeatTime_wf (r : RepeatTime) : Prop :=
  in_i64 (rt_interval r) /\ in_i64 (rt_duration r) /\ rt_offsets r <> [] /\ Forall in_i64 (rt_offsets r).

Definition TimeZone_wf (t : TimeZone) : Prop := 0 <= tz_adjustment_time t < 2 ^ 64 /\ in_i64 (tz_offset t).

Definition RangedPort_wf (p : RangedPort) : Prop :=
  0 <= rp_value p < 2 ^ 16 /\ match rp_range p with Some r => - 2 ^ 31 <= r <= 2 ^ 31 - 1 | None => True end.

Definition MediaName_wf (m : MediaName) : Prop :=
  index_of (mn_media m) MEDIA = true /\ RangedPort_wf (mn_port m)
  /\ mn_protos m <> [] /\ Forall (fun p => index_of p PROTOS = true) (mn_protos m)
  /\ mn_formats m <> [] /\ Forall token (mn_formats m).

Lemma network_token s : index_of s ["IN"%string] = true -> token s.
Proof. intros H. apply (index_of_all token s _ H). constants. Qed.

Lemma address_type_token s : index_of s ["IP4"; "IP6"]%string = true -> token s.
Proof. intros H. apply (index_of_all token s _ H). constants. Qed.

Lemma parse_origin_print o : Origin_wf o ->
  parse_origin (Origin_to_string o) = Ok o /\ line_text (Origin_to_string o).
Proof.
  destruct o as [u i v n a ad]. intros (Hu & Hi & Hv & Hn & Ha & Had).
  cbn [or_username or_session_id or_session_version or_network_type or_address_type or_unicast_address] in *.
  assert (Forall token [u; print_int i; print_int v; n; a; ad]) as Hl.
  { pose proof (network_token n Hn). pose proof (address_type_token a Ha). forall_tokens. }
  split; [|exact (tokens_line _ Hl)]. unfold parse_origin, Origin_to_string.
  rewrite split_join_words by (by apply tokens_words). cbn [or_username or_session_id or_session_version or_network_type or_address_type or_unicast_address].
  rewrite !parse_unsigned_print by done. cbn [mbind res_bind]. by rewrite Hn, Ha.
Qed.

Lemma parse_connection_print c : ConnectionInformation_wf c ->
  unmarshal_connection_information (ConnectionInformation_to_string c) = Ok (Some c)
  /\ line_text (ConnectionInformation_to_string c).
Proof.
  destruct c as [n a ad]. intros (Hn & Ha & Had).
  cbn [ci_network_type ci_address_type ci_address] in *. pose proof (network_token n Hn) as Hn'.
  pose proof (address_type_token a Ha) as Ha'. unfold ConnectionInformation_to_string, unmarshal_connection_information.
  cbn [ci_address ci_network_type ci_address_type].
  destruct ad as [[ad ttl range]|]; [destruct Had as (Had & Ht & Hr); cbn in Had, Ht, Hr; subst|].
  - change (Address_to_string (mkAddress ad None None)) with ad.
    assert (Forall token [n; a; ad]) as Hl by forall_tokens. split; [|exact (tokens_line _ Hl)].
    rewrite split_join_words by (by apply tokens_words). by rewrite Hn, Ha.
  - assert (Forall token [n; a]) as Hl by forall_tokens. split; [|exact (tokens_line _ Hl)].
    rewrite split_join_words by (by apply tokens_words). by rewrite Hn, Ha.
Qed.

Lemma parse_timing_print t : Timing_wf t ->
  parse_timing (Timing_to_string t) = Ok t /\ line_text (Timing_to_string t).
Proof.
  destruct t as [a b]. intros [Ha Hb]. unfold Timing_to_string, parse_timing. cbn [tm_start_time tm_stop_time] in *.
  assert (Forall token [print_int a; print_int b]) as Hl by forall_tokens.
  split; [|exact (tokens_line _ Hl)]. rewrite split_join_words by (by apply tokens_words).
  by rewrite !parse_unsigned_print by done.
Qed.

Lemma print_int_tokens l : Forall token (map print_int l).
Proof. apply Forall_forall. intros s Hs. apply list_elem_of_fmap in Hs as (z & -> & _). apply print_int_token. Qed.

Lemma parse_each_print l : Forall in_i64 l -> parse_each parse_time_units (map print_int l) = Ok l.
Proof.
  induction 1 as [|z l Hz _ IH]; [done|]. cbn [map parse_each]. rewrite parse_time_units_print by exact Hz.
  cbn [mbind res_bind]. by rewrite IH.
Qed.

Lemma parse_repeat_print r : RepeatTime_wf r ->
  parse_repeat_time (RepeatTime_to_string r) = Ok r /\ line_text (RepeatTime_to_string r)
  /\ (3 <= length (split_whitespace (RepeatTime_to_string r)))%nat.
Proof.
  destruct r as [i d o]. intros (Hi & Hd & Hne & Ho). unfold RepeatTime_to_string, parse_repeat_time.
  cbn [rt_interval rt_duration rt_offsets] in *. pose proof (print_int_tokens (i :: d :: o)) as Hl. cbn [map] in Hl.
  split; [|split; [exact (tokens_line _ Hl)|]]; rewrite split_join_words by (by apply tokens_words).
  - pose proof (parse_each_print o Ho) as Hp. destruct o as [|z o]; [done|]. cbn [map] in Hp |- *.
    rewrite !parse_time_units_print by done. cbn [mbind res_bind]. by rewrite Hp.
  - destruct o; [done|]. cbn [map length]. lia.
Qed.

Definition zone_fields (l : list TimeZone) : list str :=
  flat_map (fun t => [print_int (tz_adjustment_time t); print_int (tz_offset t)]) l.

Lemma time_zones_join l : join [32] (map TimeZone_to_string l) = join [32] (zone_fields l).
Proof.
  induction l as [|t l IH]; [done|]. destruct l as [|t' l]; [done|].
  cbn [map] in IH |- *. rewrite join_cons. unfold zone_fields in IH |- *. cbn [flat_map app] in IH |- *.
  rewrite !join_cons, IH, join_cons. unfold TimeZone_to_string at 1. rewrite join_cons. by rewrite <- !app_assoc.
Qed.

Lemma parse_time_zones_print l : Forall TimeZone_wf l ->
  let value := join [32] (map TimeZone_to_string l) in
  split_whitespace value = zone_fields l /\ line_text value /\ (length (zone_fields l) mod 2 = 0)%nat
  /\ forall v, parse_time_zones v (zone_fields l) = Ok l.
Proof.
  intros Hl value. unfold value. rewrite time_zones_join.
  assert (Forall token (zone_fields l)) as Ht.
  { unfold zone_fields. apply Forall_forall. intros s Hs. apply list_elem_of_In, in_flat_map in Hs as (t & _ & Hs).
    cbn in Hs. destruct Hs as [<-|[<-|[]]]; apply print_int_token. }
  split_and!; [by apply split_join_words, tokens_words|by apply tokens_line|..].
  - assert (length (zone_fields l) = length l * 2)%nat as ->; [|by apply Nat.Div0.mod_mul].
    clear. induction l as [|t l IH]; [done|]. unfold zone_fields in *. cbn [flat_map]. rewrite length_app, IH. cbn. lia.
  - intros v. induction Hl as [|t l [Ha Ho] Hl IH]; [done|]. unfold zone_fields in *. cbn [flat_map app parse_time_zones].
    rewrite parse_unsigned_print by done. cbn [mbind res_bind]. rewrite parse_time_units_print by exact Ho.
    cbn [mbind res_bind]. rewrite IH by (by inversion Ht as [|? ? _ Ht']; inversion Ht'). by destruct t.
Qed.

Lemma trim_X_type t : starts_with (chars "X-") t = false ->
  trim_start_matches (chars "X-") (chars "X-" ++ t) = t.
Proof.
  intros H. unfold trim_start_matches. change (length (chars "X-" ++ t)) with (S (S (length t))).
  cbn [trim_matches]. rewrite starts_with_app. change (drop (length (chars "X-")) (chars "X-" ++ t)) with t. by rewrite H.
Qed.

Lemma parse_bandwidth_print b : Bandwidth_wf b ->
  unmarshal_bandwidth (Bandwidth_to_string b) = Ok b /\ line_text (Bandwidth_to_string b).
Proof.
  destruct b as [x t n]. intros [Hn Ht]. unfold Bandwidth_to_string, unmarshal_bandwidth.
  cbn [bw_experimental bw_bandwidth_type bw_bandwidth] in *.
  set (p := (if x then chars "X-" else []) ++ t).
  assert (all_chars p /\ (10 ∉ p) /\ (58 ∉ p) /\ p <> [] /\ (forall c s, p = c :: s -> is_whitespace c = false)) as (Hc & H10 & H58 & Hne & Hh).
  { unfold p. destruct x.
    - destruct Ht as (Hc & H10 & H58 & _). split_and!; [by apply all_chars_app; split; [by repeat constructor|]|..].
      + cbn. repeat (apply not_elem_of_cons; split; [done|]). done.
      + cbn. repeat (apply not_elem_of_cons; split; [done|]). done.
      + done.
      + by intros c s [= <- _].
    - assert (token t /\ (58 ∉ t)) as [[Hw Hc] H58].
      { apply (index_of_all (fun t => token t /\ (58 ∉ t)) t _ Ht).
        repeat (constructor; [split; [by apply constant_token|by vm_compute; repeat (apply not_elem_of_cons; split; [done|]); apply not_elem_of_nil]|]).
        constructor. }
      cbn [app]. split_and!; [done|by apply no_space_no_newline, Hw|done|apply Hw|]. intros c s. by apply word_head. }
  replace ((if x then chars "X-" else []) ++ t ++ [58] ++ print_int n) with (p ++ 58 :: print_int n)
    by (unfold p; by rewrite <- app_assoc).
  split.
  - rewrite split_on_app by done. rewrite split_on_one by (apply print_int_not_in; [unfold is_digit; lia|done]).
    unfold p. destruct x.
    + rewrite starts_with_app, trim_X_type by apply Ht. cbn [negb andb]. by rewrite parse_unsigned_print.
    + cbn [app]. rewrite Ht. assert (starts_with (chars "X-") t = false) as ->.
      { apply (index_of_all (fun t => starts_with (chars "X-") t = false) t _ Ht). by repeat constructor. }
      cbn [negb andb]. by rewrite parse_unsigned_print.
  - split; [apply all_chars_app; split; [done|]; constructor; [done|apply print_int_all_chars]|]. split.
    + rewrite not_elem_of_app, not_elem_of_cons. split; [done|]. split; [done|].
      apply print_int_not_in; [unfold is_digit; lia|done].
    + split; [intros c s H; destruct p as [|c' p']; [done|]; injection H as <- _; by apply (Hh c' p')|].
      intros c s H. destruct (print_int_chars n) as [_ Hpn]. destruct (exists_last Hpn) as (q & d & Hq). rewrite Hq in H.
      change (58 :: q ++ [d]) with ((58 :: q) ++ [d]) in H. rewrite app_assoc in H. apply app_inj_tail in H as [_ <-].
      eapply word_last; [apply print_int_word|exact Hq].
Qed.

Lemma parse_attribute_print a : Attribute_wf a -> parse_attribute (Attribute_to_string a) = a.
Proof.
  destruct a as [k [v|]]; intros [Hk _]; unfold parse_attribute, Attribute_to_string; cbn [at_key at_value] in *.
  - change (k ++ [58] ++ v) with (k ++ 58 :: v). by rewrite split_once_app.
  - by rewrite split_once_none.
Qed.

Lemma parse_port_print p : RangedPort_wf p ->
  parse_ranged_port (RangedPort_to_string p) = Ok p /\ token (RangedPort_to_string p).
Proof.
  destruct p as [v [r|]]; intros [Hv Hr]; unfold RangedPort_to_string, parse_ranged_port; cbn [rp_value rp_range] in *.
  - assert (forall z, 47 ∉ print_int z) as H47 by (intros z; apply print_int_not_in; [unfold is_digit; lia|done]).
    change (print_int v ++ [47] ++ print_int r) with (print_int v ++ 47 :: print_int r).
    rewrite split_on_app by done. rewrite split_on_one by done. rewrite parse_unsigned_print by done. cbn [mbind res_bind].
    unfold parse_signed. rewrite parse_print_int by lia. split; [done|]. split.
    + split; [by destruct (print_int v)|]. apply Forall_app. split; [apply print_int_word|]. constructor; [done|apply print_int_word].
    + apply all_chars_app. split; [apply print_int_all_chars|]. constructor; [done|apply print_int_all_chars].
  - rewrite split_on_one by (apply print_int_not_in; [unfold is_digit; lia|done]).
    rewrite parse_unsigned_print by done. split; [done|apply print_int_token].
Qed.

Lemma proto_token p : index_of p PROTOS = true -> token p /\ (47 ∉ p).
Proof.
  intros H. apply (index_of_all (fun p => token p /\ (47 ∉ p)) p _ H). unfold PROTOS.
  repeat (constructor; [split; [by apply constant_token|by vm_compute; repeat (apply not_elem_of_cons; split; [done|]); apply not_elem_of_nil]|]).
  constructor.
Qed.

Lemma parse_protos_print l : l <> [] -> Forall (fun p => index_of p PROTOS = true) l ->
  parse_protos (join [47] l) = Ok l /\ token (join [47] l).
Proof.
  intros Hne Hl. assert (Forall token l) as Ht by (eapply Forall_impl; [exact Hl|]; intros p Hp; by apply proto_token).
  split.
  - unfold parse_protos. rewrite split_on_join; [|done|].
    + assert (forallb (fun proto => index_of proto PROTOS) l = true) as ->; [|done].
      apply forallb_forall. intros p Hp%list_elem_of_In. by apply (proj1 (Forall_forall _ _) Hl).
    + eapply Forall_impl; [exact Hl|]. intros p Hp. by apply proto_token.
  - split; [split|].
    + destruct l as [|p [|q l]]; [done|..]; inversion Ht as [|? ? [[Hp _] _] _]; subst; [done|]. rewrite join_cons. by destruct p.
    + apply Forall_forall. intros c Hc. apply join_elem in Hc as [Hc|(w & Hw & Hc)].
      * by apply list_elem_of_singleton in Hc as ->.
      * apply (proj1 (Forall_forall _ _) Ht) in Hw as [[_ Hw] _]. by apply (proj1 (Forall_forall _ _) Hw).
    + apply all_chars_join; [by repeat constructor|]. eapply Forall_impl; [exact Ht|]. by intros ? [].
Qed.

Lemma parse_media_print m : MediaName_wf m ->
  parse_media_name (MediaName_to_string m) = Ok m /\ line_text (MediaName_to_string m).
Proof.
  destruct m as [media port protos formats]. intros (Hm & Hp & Hpn & Hps & Hfn & Hf).
  cbn [mn_media mn_port mn_protos mn_formats] in *. destruct (parse_port_print port Hp) as [Hport Hpt].
  destruct (parse_protos_print protos Hpn Hps) as [Hprotos Hprt].
  assert (token media) as Hmt by (apply (index_of_all token media _ Hm); unfold MEDIA; constants).
  assert (MediaName_to_string (mkMediaName media port protos formats)
    = join [32] (media :: RangedPort_to_string port :: join [47] protos :: formats)) as ->.
  { unfold MediaName_to_string. cbn [mn_media mn_port mn_protos mn_formats]. rewrite !join_cons. by destruct formats. }
  assert (Forall token (media :: RangedPort_to_string port :: join [47] protos :: formats)) as Ht
    by (repeat (apply Forall_cons; split; [assumption|]); exact Hf).
  split; [|exact (tokens_line _ Ht)]. unfold parse_media_name. rewrite split_join_words by (by apply tokens_words).
  destruct formats as [|f formats]; [done|]. rewrite Hm. cbn [negb]. rewrite Hport. cbn [mbind res_bind].
  by rewrite Hprotos.
Qed.

(** * What is parsed is well formed *)
Lemma split_tokens v : all_chars v -> Forall token (split_whitespace v).
Proof.
  intros Hv. apply Forall_forall. intros w Hw. split.
  - by apply (proj1 (Forall_forall _ _) (split_whitespace_words v)).
  - apply Forall_forall. intros c Hc. destruct (split_words_elem [] v w c Hw Hc) as [H|H]; [by apply elem_of_nil in H|].
    by apply (proj1 (Forall_forall _ _) Hv).
Qed.

Ltac split_fields v Hv :=
  pose proof (split_tokens v Hv) as Htokens;
  destruct (split_whitespace v) as [|? [|? ?]]; try done;
  repeat match goal with H : Forall token (_ :: _) |- _ => apply Forall_cons in H as [? H] end.

Lemma parse_origin_wf v o : all_chars v -> parse_origin v = Ok o -> Origin_wf o.
Proof.
  intros Hv. unfold parse_origin. pose proof (split_tokens v Hv) as Ht.
  destruct (split_whitespace v) as [|u [|i [|ver [|n [|a [|ad [|? ?]]]]]]]; try done.
  repeat (apply Forall_cons in Ht as [? Ht]). intros H'.
  apply bind_Ok in H' as (si & Hsi & H'). apply bind_Ok in H' as (sv & Hsv & H').
  destruct (index_of n _) eqn:Hn; [|done]. cbn [negb] in H'. destruct (index_of a _) eqn:Ha; [|done]. cbn [negb] in H'.
  injection H' as <-. split; [done|]. split; [by eapply parse_unsigned_range|]. split; [by eapply parse_unsigned_range|]. done.
Qed.

Lemma parse_connection_wf v c : all_chars v -> unmarshal_connection_information v = Ok c ->
  exists c', c = Some c' /\ ConnectionInformation_wf c'.
Proof.
  intros Hv. unfold unmarshal_connection_information. pose proof (split_tokens v Hv) as Ht.
  destruct (split_whitespace v) as [|n [|a fields]]; try done. repeat (apply Forall_cons in Ht as [? Ht]).
  destruct (index_of n _) eqn:Hn; [|done]. destruct (index_of a _) eqn:Ha; [|done]. cbn [negb]. intros [= <-].
  eexists. split; [done|]. split; [done|]. split; [done|]. destruct fields as [|ad fields]; [done|].
  apply Forall_cons in Ht as [? _]. done.
Qed.

Lemma piece_chars sep v p c : p ∈ split_on sep v -> c ∈ p -> c ∈ v.
Proof.
  intros Hp Hc. rewrite <- (join_split_on sep v). revert Hp. generalize (split_on sep v). intros l.
  induction l as [|q l IH]; intros Hp; [by apply elem_of_nil in Hp|].
  apply elem_of_cons in Hp as [->|Hp].
  - destruct l; [done|]. rewrite join_cons. apply elem_of_app. by left.
  - destruct l; [by apply elem_of_nil in Hp|]. rewrite join_cons, !elem_of_app. right. right. by apply IH.
Qed.

Lemma parse_bandwidth_wf v b : line_text v -> unmarshal_bandwidth v = Ok b -> Bandwidth_wf b.
Proof.
  intros (Hv & H10 & _). unfold unmarshal_bandwidth.
  assert (forall p c, p ∈ split_on 58 v -> c ∈ p -> c ∈ v) as Hin by (intros p c; apply piece_chars).
  pose proof (split_on_pieces 58 v) as Hpc.
  destruct (split_on 58 v) as [|t [|n [|? ?]]]; try done.
  apply Forall_cons in Hpc as [H58 _]. specialize (Hin t). assert (forall c, c ∈ t -> c ∈ v) as Hint by (intros c; apply Hin, elem_of_cons; by left).
  destruct (starts_with (chars "X-") t) eqn:Hx; cbn [negb andb].
  - intros H. apply bind_Ok in H as (z & Hz & H). injection H as <-. split; [by eapply parse_unsigned_range|].
    cbn [bw_experimental bw_bandwidth_type]. unfold trim_start_matches.
    destruct (trim_matches_suffix (length t) (chars "X-") t) as [k Hk]. set (t' := trim_matches _ _ t) in *.
    assert (forall c, c ∈ t' -> c ∈ t) as Hsub by (intros c Hc; rewrite Hk; apply elem_of_app; by right).
    split; [|split; [|split]].
    + apply Forall_forall. intros c Hc. apply (proj1 (Forall_forall _ _) Hv). auto.
    + intros Hc. apply H10. auto.
    + intros Hc. apply H58. auto.
    + destruct (trim_matches_spec (length t) (chars "X-") t) as [H|H]; [done|done|exact H|]. fold t' in H. by rewrite H.
  - destruct (index_of t _) eqn:Hi; [|done]. cbn [negb]. intros H. apply bind_Ok in H as (z & Hz & H). injection H as <-.
    split; [by eapply parse_unsigned_range|]. done.
Qed.

Lemma parse_attribute_wf v : line_text v -> Attribute_wf (parse_attribute v).
Proof.
  intros Hv. unfold parse_attribute, Attribute_wf, Attribute_to_string. pose proof (split_once_spec 58 v) as H.
  destruct (split_once 58 v) as [k [r|]]; destruct H as [-> Hk]; cbn [at_key at_value]; done.
Qed.

Lemma parse_timing_wf v t : parse_timing v = Ok t -> Timing_wf t.
Proof.
  unfold parse_timing. destruct (split_whitespace v) as [|a [|b ?]]; try done. intros H.
  apply bind_Ok in H as (x & Hx & H). apply bind_Ok in H as (y & Hy & H). injection H as <-.
  split; by eapply parse_unsigned_range.
Qed.

Lemma parse_each_wf l zs : parse_each parse_time_units l = Ok zs -> Forall in_i64 zs /\ length zs = length l.
Proof.
  revert zs. induction l as [|s l IH]; intros zs; cbn [parse_each]; [intros [= <-]; split; [constructor|done]|].
  intros H. apply bind_Ok in H as (z & Hz & H). apply bind_Ok in H as (zs' & Hzs & H). injection H as <-.
  destruct (IH _ Hzs) as [Hf Hl]. split; [|cbn; lia]. constructor; [by eapply parse_time_units_range|done].
Qed.

Lemma parse_repeat_wf v r : parse_repeat_time v = Ok r -> RepeatTime_wf r.
Proof.
  unfold parse_repeat_time. destruct (split_whitespace v) as [|a [|b [|c l]]]; try done. intros H.
  apply bind_Ok in H as (x & Hx & H). apply bind_Ok in H as (y & Hy & H). apply bind_Ok in H as (zs & Hzs & H).
  injection H as <-. apply parse_each_wf in Hzs as [Hf Hl]. split_and!; try by eapply parse_time_units_range.
  - cbn. by destruct zs.
  - done.
Qed.

Lemma parse_time_zones_wf v l zs : parse_time_zones v l = Ok zs -> Forall TimeZone_wf zs.
Proof.
  assert (exists n, length l <= n)%nat as [n Hn] by eauto. revert l zs Hn. induction n as [|n IH]; intros l zs Hn.
  { destruct l; [|cbn in Hn; lia]. intros [= <-]. constructor. }
  destruct l as [|a [|b l]]; cbn [parse_time_zones]; [intros [= <-]; constructor|done|]. intros H.
  apply bind_Ok in H as (x & Hx & H). apply bind_Ok in H as (y & Hy & H). apply bind_Ok in H as (zs' & Hzs & H).
  injection H as <-. constructor.
  - split; [by eapply parse_unsigned_range|by eapply parse_time_units_range].
  - apply (IH l); [cbn in Hn; lia|done].
Qed.

Lemma parse_port_wf s p : parse_ranged_port s = Ok p -> RangedPort_wf p.
Proof.
  unfold parse_ranged_port. destruct (split_on 47 s) as [|a [|b l]]; [done|..]; intros H; apply bind_Ok in H as (x & Hx & H).
  - injection H as <-. split; [by eapply parse_unsigned_range|done].
  - apply bind_Ok in H as (y & Hy & H). injection H as <-. split; [by eapply parse_unsigned_range|]. cbn.
    apply parse_number_Ok, parse_int_range in Hy; [|lia]. lia.
Qed.

Lemma parse_media_wf v m : all_chars v -> parse_media_name v = Ok m -> MediaName_wf m.
Proof.
  intros Hv. unfold parse_media_name. pose proof (split_tokens v Hv) as Ht.
  destruct (split_whitespace v) as [|media [|port [|protos [|f formats]]]]; try done.
  do 3 apply Forall_cons in Ht as [_ Ht]. destruct (index_of media _) eqn:Hm; [|done]. cbn [negb]. intros H.
  apply bind_Ok in H as (p & Hp & H). apply bind_Ok in H as (ps & Hps & H). injection H as <-.
  unfold parse_protos in Hps. destruct (forallb _ _) eqn:Hall; [|done]. injection Hps as <-.
  split; [exact Hm|]. split; [by eapply parse_port_wf|]. split; [apply split_on_ne|]. split.
  - apply Forall_forall. intros q Hq. apply list_elem_of_In in Hq. cbn in Hq. by apply (proj1 (forallb_forall _ _) Hall).
  - split; [done|]. exact Ht.
Qed.
