(* ===== verification/SdpLaws.v ===== *)
(** Session descriptions are printed to texts that the parser reads back: for
    every well-formed description, and for every one that the parser gives;
    and the parser returns on every input. *)
From Stdlib Require Import Strings.String.
From S2P Require Import Prelude Text TextLaws Sdp SdpText.

(** What the url crate documents: the serialization of a URL is a line of
    text, and parses to the URL. *)
Class UrlLaws (U : Urls) : Prop := {
  url_parse_print u : url_parse (url_to_string u) = Some u;
  url_line u : line_text (url_to_string u)
}.

(** * Well-formed descriptions *)
Definition on_option {A} (P : A -> Prop) (o : option A) : Prop := match o with Some a => P a | None => True end.

Definition MediaDescription_wf (m : MediaDescription) : Prop :=
  MediaName_wf (md_media_name m) /\ on_option line_text (md_media_title m)
  /\ on_option ConnectionInformation_wf (md_connection_information m)
  /\ Forall Bandwidth_wf (md_bandwidth m) /\ on_option line_text (md_encryption_key m)
  /\ Forall Attribute_wf (md_attributes m).

Definition TimeDescription_wf (t : TimeDescription) : Prop :=
  Timing_wf (td_timing t) /\ Forall RepeatTime_wf (td_repeat_times t).

Section laws.
Context {U : Urls} {L : UrlLaws U}.

(** All but the origin and that there is a time *)
Definition fields_wf (d : SessionDescription) : Prop :=
  sd_version d = 0 /\ line_text (sd_session_name d) /\ on_option line_text (sd_session_information d)
  /\ on_option line_text (sd_email_address d) /\ on_option line_text (sd_phone_number d)
  /\ on_option ConnectionInformation_wf (sd_connection_information d)
  /\ Forall Bandwidth_wf (sd_bandwidth d) /\ Forall TimeDescription_wf (sd_time_descriptions d)
  /\ Forall TimeZone_wf (sd_time_zones d) /\ on_option line_text (sd_encryption_key d)
  /\ Forall Attribute_wf (sd_attributes d) /\ Forall MediaDescription_wf (sd_media_descriptions d).

Definition SessionDescription_wf (d : SessionDescription) : Prop :=
  fields_wf d /\ Origin_wf (sd_origin d) /\ sd_time_descriptions d <> [].

(** * Reading a line *)
Lemma utf8_encode_no_newline s : all_chars s -> 10 ∉ s -> forall b, b ∈ utf8_encode s -> u8_of_byte b <> 10.
Proof. intros Hs H10 b Hb He. apply H10. rewrite <- He. apply utf8_encode_ascii; [done|done|lia]. Qed.

Lemma read_until_app d l b r : (forall c, c ∈ l -> u8_of_byte c <> d) -> u8_of_byte b = d ->
  read_until d (l ++ b :: r) = (l ++ [b], r).
Proof.
  intros Hl Hb. induction l as [|c l IH]; cbn [app read_until]; [by rewrite Hb, Z.eqb_refl|].
  rewrite (proj2 (Z.eqb_neq _ _)) by (apply Hl, elem_of_cons; by left).
  rewrite IH by (intros x Hx; apply Hl, elem_of_cons; by right). done.
Qed.

Lemma read_value_line v d rest : line_text v ->
  read_value (mkLexer d (utf8_encode (v ++ END_LINE) ++ rest)) = (Ok v, mkLexer d rest).
Proof.
  intros (Hc & H10 & Ht). unfold read_value, mbind, st_bind, st_get. cbn [lx_reader].
  assert (read_until 10 (utf8_encode (v ++ END_LINE) ++ rest) = (utf8_encode (v ++ END_LINE), rest)) as ->.
  { rewrite utf8_encode_app. change (utf8_encode END_LINE) with ([Byte.x0d] ++ [Byte.x0a]).
    rewrite (app_assoc (utf8_encode v)), <- (app_assoc _ [Byte.x0a]). apply read_until_app; [|done].
    intros c [Hb| ->%list_elem_of_singleton]%elem_of_app; [by eapply utf8_encode_no_newline|done]. }
  rewrite utf8_decode_encode by (apply all_chars_app; split; [done|by repeat constructor]).
  cbn [st_modify]. rewrite trim_line; [done|done|by repeat constructor].
Qed.

(** In [st] the key of a line leads to the function [f]. *)
Definition takes (st : StateFn) (key : string) (f : StateFn) : Prop :=
  forall d r, run_state st (mkLexer d (utf8_encode (chars key) ++ r)) = (Ok (Some f), mkLexer d r).

(** The parser goes over the text. *)
Definition goes (st : StateFn) (d : SessionDescription) (text : str) (st' : StateFn) (d' : SessionDescription) : Prop :=
  forall rest, exists k, forall n,
    run_states (k + n) st (mkLexer d (utf8_encode text ++ rest)) = run_states n st' (mkLexer d' rest).

Definition goes_any (S : list StateFn) (d : SessionDescription) (text : str) (S' : list StateFn) (d' : SessionDescription) : Prop :=
  forall st, st ∈ S -> exists st', st' ∈ S' /\ goes st d text st' d'.

Lemma goes_any_refl S S' d : S ⊆ S' -> goes_any S d [] S' d.
Proof. intros H st Hst. exists st. split; [by apply H|]. intros rest. by exists 0%nat. Qed.

Lemma goes_any_trans S1 S2 S3 d1 d2 d3 t1 t2 :
  goes_any S1 d1 t1 S2 d2 -> goes_any S2 d2 t2 S3 d3 -> goes_any S1 d1 (t1 ++ t2) S3 d3.
Proof.
  intros H1 H2 st Hst. destruct (H1 st Hst) as (st2 & Hst2 & G1). destruct (H2 st2 Hst2) as (st3 & Hst3 & G2).
  exists st3. split; [done|]. intros rest. destruct (G2 rest) as [k2 Hk2].
  destruct (G1 (utf8_encode t2 ++ rest)) as [k1 Hk1]. exists (k1 + k2)%nat. intros n.
  rewrite utf8_encode_app, <- app_assoc, <- Nat.add_assoc, Hk1. apply Hk2.
Qed.

Lemma goes_any_weaken S1 S1' S2 S2' d d' t : S1' ⊆ S1 -> S2 ⊆ S2' -> goes_any S1 d t S2 d' -> goes_any S1' d t S2' d'.
Proof. intros H1 H2 H st Hst. destruct (H st (H1 _ Hst)) as (st' & Hst' & G). exists st'. split; [by apply H2|done]. Qed.

Lemma goes_line S key f g next v d d' :
  Forall (fun st => takes st key f) S -> run_state f = session_line g next -> line_text v -> g v d = Ok d' ->
  goes_any S d (key_value_build key (Some v)) [next] d'.
Proof.
  intros HS Hf Hv Hg st Hst. exists next. split; [by apply list_elem_of_singleton|]. intros rest. exists 2%nat. intros n.
  apply (proj1 (Forall_forall _ _) HS) in Hst. unfold key_value_build.
  rewrite utf8_encode_app, <- app_assoc. cbn [run_states Nat.add]. unfold mbind at 1, st_bind at 1. rewrite (Hst d _).
  unfold mbind at 1, st_bind at 1. rewrite Hf. unfold session_line.
  unfold mbind at 1, st_bind at 1. rewrite read_value_line by done.
  unfold mbind, st_bind, st_get, st_lift, st_modify. cbn [lx_desc]. by rewrite Hg.
Qed.

Lemma goes_option S key f g next o d d' :
  Forall (fun st => takes st key f) S -> run_state f = session_line g next ->
  match o with Some v => line_text v /\ g v d = Ok d' | None => d' = d end ->
  goes_any S d (key_value_build key o) (next :: S) d'.
Proof.
  intros HS Hf Ho. destruct o as [v|].
  - destruct Ho as [Hv Hg]. eapply goes_any_weaken; [| |by eapply goes_line]; [done|].
    intros st ->%list_elem_of_singleton. apply elem_of_cons. by left.
  - subst. apply goes_any_refl. intros st Hst. apply elem_of_cons. by right.
Qed.

(** Lines that each add something: [build] says where in the description. *)
Lemma goes_lines {A B} S key f g next (print : A -> str) (build : B -> SessionDescription) (add : B -> A -> B) (l : list A) b :
  Forall (fun st => takes st key f) S -> next ∈ S -> run_state f = session_line g next ->
  (forall a b, a ∈ l -> line_text (print a) /\ g (print a) (build b) = Ok (build (add b a))) ->
  goes_any S (build b) (flat_map (fun a => key_value_build key (Some (print a))) l) S (build (fold_left add l b)).
Proof.
  intros HS Hnext Hf. revert b. induction l as [|a l IH]; intros b Hl; [by apply goes_any_refl|].
  cbn [flat_map fold_left]. destruct (Hl a b) as [Ht Hg]; [apply elem_of_cons; by left|].
  eapply goes_any_trans; [by eapply goes_line|]. eapply goes_any_weaken; [|done|apply IH].
  - by intros st ->%list_elem_of_singleton.
  - intros c d' Hc. apply Hl, elem_of_cons. by right.
Qed.

(** An optional line that leads back into [S] *)
Lemma goes_option_in S key f g next o d d' :
  Forall (fun st => takes st key f) S -> next ∈ S -> run_state f = session_line g next ->
  match o with Some v => line_text v /\ g v d = Ok d' | None => d' = d end ->
  goes_any S d (key_value_build key o) S d'.
Proof.
  intros HS Hnext Hf Ho. eapply goes_any_weaken; [done| |by eapply goes_option].
  intros st [->|Hst]%elem_of_cons; done.
Qed.

Lemma goes_blocks {A} S (block : A -> str) add (l : list A) d :
  (forall a d, a ∈ l -> goes_any S d (block a) S (add d a)) ->
  goes_any S d (flat_map block l) S (fold_left add l d).
Proof.
  revert d. induction l as [|a l IH]; intros d Hl; [by apply goes_any_refl|]. cbn [flat_map fold_left].
  eapply goes_any_trans; [apply Hl, elem_of_cons; by left|]. apply IH. intros b d' Hb. apply Hl, elem_of_cons. by right.
Qed.

(** Adding the elements of a list one by one *)
Lemma fold_append {A B} (get : B -> list A) (put : list A -> B -> B) l b :
  (forall b, put (get b) b = b) -> (forall x y b, put x (put y b) = put x b) -> (forall x b, get (put x b) = x) ->
  fold_left (fun b a => put (get b ++ [a]) b) l b = put (get b ++ l) b.
Proof.
  intros H1 H2 H3. revert b. induction l as [|a l IH]; intros b; cbn [fold_left]; [by rewrite app_nil_r, H1|].
  by rewrite IH, H2, H3, <- app_assoc.
Qed.

Ltac takes_all := repeat (apply Forall_cons; split; [intros ? ?; reflexivity|]); apply Forall_nil; exact I.
Ltac in_list := repeat first [apply elem_of_cons; left; reflexivity | apply elem_of_cons; right].

(** * Media descriptions *)
Definition media_states : list StateFn := [s12; s16; s15; s14].

Definition put_media (d : SessionDescription) (ms : list MediaDescription) (m : MediaDescription) : SessionDescription :=
  d <| sd_media_descriptions := ms ++ [m] |>.

Lemma with_last_snoc {A} (f : A -> res SdpError A) l a b : f a = Ok b -> with_last f (l ++ [a]) = Ok (l ++ [b]).
Proof. intros H. unfold with_last. rewrite last_snoc, H. cbn [mbind res_bind]. by rewrite removelast_last. Qed.

(** A line of the media description that is being read *)
Lemma media_line_put (h : MediaDescription -> res SdpError MediaDescription) d ms m m' : h m = Ok m' ->
  (media ← with_last h (sd_media_descriptions (put_media d ms m));
   Ok ((put_media d ms m) <| sd_media_descriptions := media |>)) = Ok (put_media d ms m').
Proof.
  intros H. unfold put_media. cbn [sd_media_descriptions set]. cbn. erewrite with_last_snoc by exact H. by destruct d.
Qed.

Lemma goes_media S m d : Forall (fun st => takes st "m=" unmarshal_media_description) S -> MediaDescription_wf m ->
  goes_any S d (marshal_media m) media_states (d <| sd_media_descriptions := sd_media_descriptions d ++ [m] |>).
Proof.
  intros HS (Hn & Ht & Hc & Hb & Hk & Ha). destruct m as [name title conn bw key attrs].
  cbn [md_media_name md_media_title md_connection_information md_bandwidth md_encryption_key md_attributes] in *.
  unfold marshal_media. cbn [md_media_name md_media_title md_connection_information md_bandwidth md_encryption_key md_attributes].
  destruct (parse_media_print name Hn) as [Hp Hl].
  set (put := put_media d (sd_media_descriptions d)).
  eapply goes_any_trans.
  { eapply (goes_any_weaken S _ [s12] media_states); [done|intros st ->%list_elem_of_singleton; in_list|].
    eapply (goes_line _ _ _ _ _ _ _ (put (mkMediaDescription name None None [] None []))); [exact HS|reflexivity|exact Hl|].
    cbn beta. rewrite Hp. by destruct d. }
  eapply goes_any_trans.
  { eapply (goes_option_in _ _ _ _ _ _ _ (put (mkMediaDescription name title None [] None []))); [takes_all| |reflexivity|].
    - in_list.
    - destruct title as [v|]; [|done]. split; [exact Ht|]. by apply media_line_put. }
  eapply goes_any_trans.
  { eapply (goes_option_in _ _ _ _ _ _ _ (put (mkMediaDescription name title conn [] None []))); [takes_all| |reflexivity|].
    - in_list.
    - destruct conn as [c|]; [|done]. cbn [fmap option_fmap option_map]. destruct (parse_connection_print c Hc) as [Hpc Hlc].
      split; [exact Hlc|]. apply media_line_put. by rewrite Hpc. }
  eapply goes_any_trans.
  { eapply (goes_lines _ _ _ _ _ Bandwidth_to_string put (fun m b => m <| md_bandwidth := md_bandwidth m ++ [b] |>));
      [takes_all| |reflexivity|].
    - in_list.
    - intros b m Hin. apply (proj1 (Forall_forall _ _) Hb) in Hin. destruct (parse_bandwidth_print b Hin) as [Hpb Hlb].
      split; [exact Hlb|]. apply media_line_put. by rewrite Hpb. }
  rewrite (fold_append md_bandwidth (fun l m => m <| md_bandwidth := l |>)) by (by intros []).
  eapply goes_any_trans.
  { eapply (goes_option_in _ _ _ _ _ _ _ (put (mkMediaDescription name title conn bw key []))); [takes_all| |reflexivity|].
    - in_list.
    - destruct key as [v|]; [|done]. split; [exact Hk|]. by apply media_line_put. }
  assert (d <| sd_media_descriptions := sd_media_descriptions d ++ [mkMediaDescription name title conn bw key attrs] |>
    = put (fold_left (fun m a => m <| md_attributes := md_attributes m ++ [a] |>) attrs (mkMediaDescription name title conn bw key []))) as ->.
  { rewrite (fold_append md_attributes (fun l m => m <| md_attributes := l |>)); [done|by intros []..]. }
  eapply (goes_lines _ _ _ _ _ Attribute_to_string put (fun m a => m <| md_attributes := md_attributes m ++ [a] |>));
    [takes_all| |reflexivity|].
  - in_list.
  - intros a m Hin. apply (proj1 (Forall_forall _ _) Ha) in Hin. split; [apply Hin|]. apply media_line_put.
    by rewrite parse_attribute_print.
Qed.

(** * Time descriptions *)
Definition put_time (d : SessionDescription) (ts : list TimeDescription) (t : TimeDescription) : SessionDescription :=
  d <| sd_time_descriptions := ts ++ [t] |>.

Lemma goes_time S t d : Forall (fun st => takes st "t=" unmarshal_timing) S -> TimeDescription_wf t ->
  goes_any S d (marshal_time t) [s9] (d <| sd_time_descriptions := sd_time_descriptions d ++ [t] |>).
Proof.
  intros HS [Ht Hr]. destruct t as [tm rs]. cbn [td_timing td_repeat_times] in *. unfold marshal_time.
  cbn [td_timing td_repeat_times]. destruct (parse_timing_print tm Ht) as [Hp Hl].
  set (put := put_time d (sd_time_descriptions d)).
  eapply goes_any_trans.
  { eapply (goes_line _ _ _ _ _ _ _ (put (mkTimeDescription tm []))); [exact HS|reflexivity|exact Hl|].
    cbn beta. rewrite Hp. by destruct d. }
  assert (d <| sd_time_descriptions := sd_time_descriptions d ++ [mkTimeDescription tm rs] |>
    = put (fold_left (fun t r => mkTimeDescription (td_timing t) (td_repeat_times t ++ [r])) rs (mkTimeDescription tm []))) as ->.
  { rewrite (fold_append td_repeat_times (fun l t => mkTimeDescription (td_timing t) l)); [done|by intros []..]. }
  eapply (goes_lines _ _ _ _ _ RepeatTime_to_string put); [takes_all| |reflexivity|].
  - in_list.
  - intros r t Hin. apply (proj1 (Forall_forall _ _) Hr) in Hin. destruct (parse_repeat_print r Hin) as (Hpr & Hlr & Hlen).
    split; [exact Hlr|]. cbn beta. rewrite (proj2 (Nat.ltb_ge _ _)) by done. unfold put, put_time at 1.
    change (sd_time_descriptions (put_time d (sd_time_descriptions d) t)) with (sd_time_descriptions d ++ [t]).
    erewrite with_last_snoc by (by rewrite Hpr). by destruct d.
Qed.

Lemma goes_times S ts d : Forall (fun st => takes st "t=" unmarshal_timing) S -> ts <> [] -> Forall TimeDescription_wf ts ->
  goes_any S d (flat_map marshal_time ts) [s9] (d <| sd_time_descriptions := sd_time_descriptions d ++ ts |>).
Proof.
  intros HS Hne Hts. destruct Hts as [|t ts Ht Hts]; [done|]. cbn [flat_map].
  eapply goes_any_trans; [by apply goes_time|].
  assert (d <| sd_time_descriptions := sd_time_descriptions d ++ t :: ts |>
    = fold_left (fun d t => d <| sd_time_descriptions := sd_time_descriptions d ++ [t] |>) ts
        (d <| sd_time_descriptions := sd_time_descriptions d ++ [t] |>)) as ->.
  { rewrite (fold_append sd_time_descriptions (fun l d => d <| sd_time_descriptions := l |>)); [|by intros []..].
    destruct d. cbn. by rewrite <- app_assoc. }
  apply goes_blocks. intros a d' Ha. apply goes_time; [takes_all|]. by apply (proj1 (Forall_forall _ _) Hts).
Qed.

(** * The session *)

Definition head_states : list StateFn := [s5; s8; s6; s10; s7; s4].

Definition head_description o n i u e p c b : SessionDescription :=
  mkSessionDescription 0 o n i u e p c b [] [] None [] [].

Lemma goes_required o n : Origin_wf o -> line_text n ->
  goes_any [s1] empty_description
    (key_value_build "v=" (Some (print_int 0)) ++ key_value_build "o=" (Some (Origin_to_string o))
     ++ key_value_build "s=" (Some n)) [s4] (head_description o n None None None None None []).
Proof.
  intros Ho Hn. destruct (parse_origin_print o Ho) as [Hp Hl].
  eapply goes_any_trans.
  { eapply (goes_line _ _ _ _ _ _ _ empty_description); [takes_all|reflexivity|apply token_line, print_int_token|reflexivity]. }
  eapply goes_any_trans.
  { eapply (goes_line _ _ _ _ _ _ _ (head_description o [] None None None None None [])); [takes_all|reflexivity|exact Hl|].
    cbn beta. by rewrite Hp. }
  eapply (goes_line _ _ _ _ _ _ _ (head_description o n None None None None None [])); [takes_all|reflexivity|done|done].
Qed.

Lemma goes_head o n i u e p c b :
  on_option line_text i -> on_option line_text e -> on_option line_text p ->
  on_option ConnectionInformation_wf c -> Forall Bandwidth_wf b ->
  goes_any [s4] (head_description o n None None None None None [])
    (key_value_build "i=" i ++ key_value_build "u=" (url_to_string <$> u) ++ key_value_build "e=" e
     ++ key_value_build "p=" p ++ key_value_build "c=" (ConnectionInformation_to_string <$> c)
     ++ flat_map (fun b => key_value_build "b=" (Some (Bandwidth_to_string b))) b) head_states
    (head_description o n i u e p c b).
Proof.
  intros Hi He Hp Hc Hb.
  eapply goes_any_trans.
  { eapply (goes_option _ _ _ _ _ _ _ (head_description o n i None None None None [])); [takes_all|reflexivity|].
    destruct i; [by split|reflexivity]. }
  eapply goes_any_trans.
  { eapply (goes_option _ _ _ _ _ _ _ (head_description o n i u None None None [])); [takes_all|reflexivity|].
    destruct u; cbn [fmap option_fmap option_map]; [split; [apply url_line|by rewrite url_parse_print]|reflexivity]. }
  eapply goes_any_trans.
  { eapply (goes_option _ _ _ _ _ _ _ (head_description o n i u e None None [])); [takes_all|reflexivity|].
    destruct e; [by split|reflexivity]. }
  eapply goes_any_trans.
  { eapply (goes_option _ _ _ _ _ _ _ (head_description o n i u e p None [])); [takes_all|reflexivity|].
    destruct p; [by split|reflexivity]. }
  eapply goes_any_trans.
  { eapply (goes_option _ _ _ _ _ _ _ (head_description o n i u e p c [])); [takes_all|reflexivity|].
    destruct c as [c|]; cbn [fmap option_fmap option_map]; [|reflexivity].
    destruct (parse_connection_print c Hc) as [Hpc Hlc]. split; [exact Hlc|]. cbn beta. by rewrite Hpc. }
  assert (head_description o n i u e p c b = fold_left (fun d b => d <| sd_bandwidth := sd_bandwidth d ++ [b] |>) b
    (head_description o n i u e p c [])) as ->.
  { rewrite (fold_append sd_bandwidth (fun l d => d <| sd_bandwidth := l |>)); [done|by intros []..]. }
  eapply (goes_lines _ _ _ _ _ Bandwidth_to_string id); [takes_all| |reflexivity|].
  - in_list.
  - intros x d Hin. apply (proj1 (Forall_forall _ _) Hb) in Hin. destruct (parse_bandwidth_print x Hin) as [Hpb Hlb].
    split; [exact Hlb|]. unfold id. by rewrite Hpb.
Qed.

(** The states in which a description may be complete *)
Definition last_states : list StateFn := [s11; s13; s9].

Definition zone_line (z : list TimeZone) : option str :=
  match z with [] => None | _ => Some (join [32] (map TimeZone_to_string z)) end.

Lemma goes_tail d0 t z k a m : sd_time_descriptions d0 = [] -> sd_time_zones d0 = [] -> sd_encryption_key d0 = None ->
  sd_attributes d0 = [] -> sd_media_descriptions d0 = [] ->
  t <> [] -> Forall TimeDescription_wf t -> Forall TimeZone_wf z -> on_option line_text k -> Forall Attribute_wf a ->
  Forall MediaDescription_wf m ->
  goes_any head_states d0
    (flat_map marshal_time t
     ++ key_value_build "z=" (zone_line z)
     ++ key_value_build "k=" k ++ flat_map (fun a => key_value_build "a=" (Some (Attribute_to_string a))) a
     ++ flat_map marshal_media m) (last_states ++ media_states)
    (mkSessionDescription (sd_version d0) (sd_origin d0) (sd_session_name d0) (sd_session_information d0) (sd_uri d0)
       (sd_email_address d0) (sd_phone_number d0) (sd_connection_information d0) (sd_bandwidth d0) t z k a m).
Proof.
  destruct d0 as [v o n i u e p c b t0 z0 k0 a0 m0]. cbn. intros -> -> -> -> -> Hne Ht Hz Hk Ha Hm.
  set (build := mkSessionDescription v o n i u e p c b).
  eapply goes_any_trans; [apply (goes_times head_states t (build [] [] None [] [])); [takes_all|exact Hne|exact Ht]|].
  eapply goes_any_trans.
  { eapply (goes_option _ _ _ _ _ _ _ (build t z None [] [])); [takes_all|reflexivity|].
    destruct (parse_time_zones_print z Hz) as (Hs & Hl & Hmod & Hp). destruct z as [|z1 z]; [done|].
    split; [exact Hl|]. cbn beta zeta. rewrite Hs, Hmod. cbn [Nat.eqb negb]. rewrite Hp. done. }
  eapply goes_any_trans.
  { eapply (goes_option _ _ _ _ _ _ _ (build t z k [] [])); [takes_all|reflexivity|]. destruct k; [by split|reflexivity]. }
  eapply goes_any_trans.
  { eapply (goes_lines last_states "a=" unmarshal_session_attribute _ s11 Attribute_to_string id
      (fun d a => d <| sd_attributes := sd_attributes d ++ [a] |>) a (build t z k [] [])); [takes_all| |reflexivity|].
    - in_list.
    - intros x d Hin. apply (proj1 (Forall_forall _ _) Ha) in Hin. split; [apply Hin|]. unfold id.
      by rewrite parse_attribute_print. }
  unfold id. rewrite (fold_append sd_attributes (fun l d => d <| sd_attributes := l |>)) by (by intros []).
  assert (build t z k a m
    = fold_left (fun d m => d <| sd_media_descriptions := sd_media_descriptions d ++ [m] |>) m (build t z k a [])) as ->.
  { rewrite (fold_append sd_media_descriptions (fun l d => d <| sd_media_descriptions := l |>)); [done|by intros []..]. }
  eapply goes_any_weaken; [intros st Hst; apply elem_of_app; left; exact Hst|done|].
  apply goes_blocks. intros md d Hin. apply (proj1 (Forall_forall _ _) Hm) in Hin.
  eapply goes_any_weaken; [done| |apply goes_media; [takes_all|exact Hin]]. intros st Hst. do 3 (apply elem_of_cons; right). exact Hst.
Qed.

(** * Fuel *)
Lemma run_states_more n m f l : fst (run_states n f l) <> OutOfFuel -> run_states (n + m) f l = run_states n f l.
Proof.
  revert f l. induction n as [|n IH]; intros f l H; [done|]. cbn [Nat.add run_states] in *.
  unfold mbind, st_bind in *. destruct (run_state f l) as [[[f'|]|e| |] l']; try done. by apply IH.
Qed.

(** A run that ends, whatever the fuel it was given, ends so with enough of it. *)
Lemma run_states_unique n m f l : fst (run_states n f l) <> OutOfFuel -> fst (run_states m f l) <> OutOfFuel ->
  run_states n f l = run_states m f l.
Proof.
  intros Hn Hm. rewrite <- (run_states_more n m) by done. rewrite <- (run_states_more m n) by done. by rewrite Nat.add_comm.
Qed.

(** * Every state returns *)
Definition keyed (st : StateFn) : bool :=
  match st with
  | s1 | s2 | s3 | s4 | s5 | s6 | s7 | s8 | s9 | s10 | s11 | s12 | s13 | s14 | s15 | s16 => true
  | _ => false
  end.

(** A parse of values neither panics nor runs out of fuel. *)
Definition returns {E A} (r : res E A) : Prop := r <> OutOfFuel /\ r <> Panic.

Lemma parse_returns_bind {E A B} (r : res E A) (f : A -> res E B) : returns r -> (forall a, returns (f a)) -> returns (mbind f r).
Proof. intros [H1 H2] Hf. destruct r; try done. apply Hf. Qed.

Lemma returns_number {A} (r : res IntErrorKind A) : safe r -> returns (parse_number r).
Proof. by destruct r. Qed.

Lemma returns_unsigned w v : returns (parse_number (parse_unsigned w v)).
Proof. apply returns_number, parse_int_safe. Qed.

Lemma returns_signed w v : returns (parse_number (parse_signed w v)).
Proof. apply returns_number, parse_int_safe. Qed.

Lemma returns_time_units v : returns (parse_time_units v).
Proof. unfold parse_time_units. case_match. apply parse_returns_bind; [apply returns_signed|]. intros n. by destruct ((_ <=? _) && _). Qed.

Lemma returns_each l : returns (parse_each parse_time_units l).
Proof.
  induction l as [|v l IH]; [done|]. cbn [parse_each]. apply parse_returns_bind; [apply returns_time_units|].
  intros z. by apply parse_returns_bind.
Qed.

Lemma returns_zones v l : returns (parse_time_zones v l).
Proof.
  assert (exists n, length l <= n)%nat as [n Hn] by eauto. revert l Hn. induction n as [|n IH]; intros l Hn.
  { by destruct l; [|cbn in Hn; lia]. }
  destruct l as [|a [|b l]]; try done. cbn [parse_time_zones]. apply parse_returns_bind; [apply returns_unsigned|]. intros x.
  apply parse_returns_bind; [apply returns_time_units|]. intros y. apply parse_returns_bind; [apply IH; cbn in Hn; lia|done].
Qed.

Lemma returns_ranged_port v : returns (parse_ranged_port v).
Proof.
  unfold parse_ranged_port. pose proof (split_on_ne 47 v). destruct (split_on 47 v) as [|p [|q l]]; [done|..];
    (apply parse_returns_bind; [apply returns_unsigned|]; intros x); [done|].
  apply parse_returns_bind; [apply returns_signed|done].
Qed.

Lemma returns_with_last {A} (h : A -> res SdpError A) l : (forall a, returns (h a)) -> returns (with_last h l).
Proof. intros Hh. unfold with_last. destruct (last l); [|done]. by apply parse_returns_bind. Qed.

Create HintDb returns.
#[local] Hint Resolve returns_unsigned returns_signed returns_time_units returns_each returns_zones returns_ranged_port : returns.

Ltac solve_returns :=
  repeat first
    [ progress intros
    | solve [eauto with returns nocore]
    | solve [done]
    | apply parse_returns_bind
    | apply returns_with_last
    | case_match ].

(** The functions of the lines *)
Lemma line_function st : keyed st = false ->
  exists g next, run_state st = session_line g next /\ keyed next = true /\ forall v d, returns (g v d).
Proof.
  intros Hk. destruct st; try done; (eexists; eexists; split; [reflexivity|]; split; [reflexivity|]); intros v d; cbn beta;
    unfold parse_version, parse_origin, unmarshal_connection_information, unmarshal_bandwidth, parse_timing, parse_repeat_time,
      parse_media_name, parse_protos; try solve [solve_returns].
Qed.

Lemma read_until_length d l t r : read_until d l = (t, r) -> length l = (length t + length r)%nat.
Proof.
  revert t r. induction l as [|b l IH]; intros t r; cbn [read_until]; [by intros [= <- <-]|].
  destruct (_ =? _); [by intros [= <- <-]|]. destruct (read_until d l) as [t' r'] eqn:H. intros [= <- <-].
  cbn [length]. by rewrite (IH t' r').
Qed.

Lemma skip_line_ends_length l : (length (skip_line_ends l) <= length l)%nat.
Proof. induction l as [|b l IH]; [done|]. cbn [skip_line_ends]. case_match; cbn [length]; lia. Qed.

(** A key takes two bytes. *)
Lemma read_type_spec l :
  match read_type l with
  | (Ok (key, n), l') =>
      lx_desc l' = lx_desc l /\
      ((key = [] /\ n = 0%nat) \/ (length key = 2%nat /\ n = 2%nat /\ (length (lx_reader l') + 2 <= length (lx_reader l))%nat))
  | (Err _, _) => True
  | _ => False
  end.
Proof.
  unfold read_type, mbind, st_bind, st_get, st_modify, mret, st_ret.
  pose proof (skip_line_ends_length (lx_reader l)) as Hs.
  destruct (skip_line_ends (lx_reader l)) as [|b r]; [split; [done|by left]|].
  destruct (read_until 61 (b :: r)) as [buf rest] eqn:Hu. apply read_until_length in Hu.
  destruct (length buf =? 2)%nat eqn:Hb.
  - apply Nat.eqb_eq in Hb. split; [done|]. right. cbn [lx_reader set]. cbn. lia.
  - unfold invalid_syntax, from_utf8, mbind, st_bind, st_lift. by destruct (utf8_decode buf).
Qed.

Lemma dispatch_key_spec key table l :
  match dispatch_key key table l with
  | (Ok (Some f), l') => l' = l /\ exists k, (k, f) ∈ table
  | (Err _, _) => True
  | _ => False
  end.
Proof.
  unfold dispatch_key. destruct (List.find _ table) as [[k f]|] eqn:Hf.
  - split; [done|]. exists k. by apply find_some in Hf as [Hf%list_elem_of_In _].
  - unfold invalid_syntax, from_utf8, mbind, st_bind, st_lift. by destruct (utf8_decode key).
Qed.

Lemma dispatch_key_empty table l : Forall (fun e => list_byte_of_string (fst e) <> []) table ->
  exists e, fst (dispatch_key [] table l) = Err e.
Proof.
  intros Ht. unfold dispatch_key. destruct (List.find _ table) as [[k f]|] eqn:Hf.
  - apply find_some in Hf as [Hf%list_elem_of_In Hk]. apply bool_decide_eq_true in Hk. cbn [fst] in Hk.
    apply (proj1 (Forall_forall _ _) Ht) in Hf. by rewrite Hk in Hf.
  - unfold invalid_syntax, from_utf8, mbind, st_bind, st_lift. cbn. by eexists.
Qed.

(** The table of a state, and whether the description may end there *)
Definition state_table (st : StateFn) : list (string * StateFn) :=
  match st with
  | s1 => [("v=", unmarshal_protocol_version)] | s2 => [("o=", unmarshal_origin)] | s3 => [("s=", unmarshal_session_name)]
  | s4 => [("i=", unmarshal_session_information); ("u=", unmarshal_uri); ("e=", unmarshal_email); ("p=", unmarshal_phone);
           ("c=", unmarshal_session_connection_information); ("b=", unmarshal_session_bandwidth); ("t=", unmarshal_timing)]
  | s5 => [("b=", unmarshal_session_bandwidth); ("t=", unmarshal_timing)]
  | s6 => [("p=", unmarshal_phone); ("c=", unmarshal_session_connection_information); ("b=", unmarshal_session_bandwidth);
           ("t=", unmarshal_timing)]
  | s7 => [("u=", unmarshal_uri); ("e=", unmarshal_email); ("p=", unmarshal_phone);
           ("c=", unmarshal_session_connection_information); ("b=", unmarshal_session_bandwidth); ("t=", unmarshal_timing)]
  | s8 => [("c=", unmarshal_session_connection_information); ("b=", unmarshal_session_bandwidth); ("t=", unmarshal_timing)]
  | s9 => [("z=", unmarshal_time_zones); ("k=", unmarshal_session_encryption_key); ("a=", unmarshal_session_attribute);
           ("r=", unmarshal_repeat_times); ("t=", unmarshal_timing); ("m=", unmarshal_media_description)]
  | s10 => [("e=", unmarshal_email); ("p=", unmarshal_phone); ("c=", unmarshal_session_connection_information);
            ("b=", unmarshal_session_bandwidth); ("t=", unmarshal_timing)]
  | s11 => [("a=", unmarshal_session_attribute); ("m=", unmarshal_media_description)]
  | s13 => [("a=", unmarshal_session_attribute); ("k=", unmarshal_session_encryption_key); ("m=", unmarshal_media_description)]
  | s12 | s14 | s15 | s16 => media_lines
  | _ => []
  end%string.

Definition may_end (st : StateFn) : bool :=
  match st with s9 | s11 | s12 | s13 | s14 | s15 | s16 => true | _ => false end.

Lemma run_keyed st : keyed st = true ->
  run_state st = if may_end st then optional_key (state_table st) else required_key (state_table st).
Proof. by destruct st. Qed.

Lemma state_table_keys st : Forall (fun e => list_byte_of_string (fst e) <> []) (state_table st).
Proof. destruct st; cbn; repeat (apply Forall_cons; split; [done|]); apply Forall_nil; exact I. Qed.

Lemma state_table_functions st k f : (k, f) ∈ state_table st -> keyed f = false.
Proof.
  assert (Forall (fun e => keyed (snd e) = false) (state_table st)) as H
    by (destruct st; cbn; repeat (apply Forall_cons; split; [done|]); apply Forall_nil; exact I).
  intros Hin. by apply (proj1 (Forall_forall _ _) H) in Hin.
Qed.

(** A state reads a key of its table, or the text is over, or there is an error. *)
Lemma run_keyed_spec st l : keyed st = true ->
  match run_state st l with
  | (Ok (Some f), l') =>
      lx_desc l' = lx_desc l /\ (length (lx_reader l') + 2 <= length (lx_reader l))%nat /\ exists k, (k, f) ∈ state_table st
  | (Ok None, l') => lx_desc l' = lx_desc l /\ may_end st = true
  | (Err _, _) => True
  | _ => False
  end.
Proof.
  intros Hk. rewrite (run_keyed st Hk). pose proof (read_type_spec l) as Hr.
  assert (forall key n l', read_type l = (Ok (key, n), l') ->
    match dispatch_key key (state_table st) l' with
    | (Ok (Some f), l'') => lx_desc l'' = lx_desc l /\ (length (lx_reader l'') + 2 <= length (lx_reader l))%nat
        /\ exists k, (k, f) ∈ state_table st
    | (Ok None, _) => False
    | (Err _, _) => True
    | _ => False
    end) as Hdispatch.
  { intros key n l' He. rewrite He in Hr. destruct Hr as [Hd [[-> _]|(_ & _ & Hlen)]].
    - destruct (dispatch_key_empty (state_table st) l' (state_table_keys st)) as [e Hee].
      destruct (dispatch_key [] _ l') as [r l'']. cbn [fst] in Hee. by subst.
    - pose proof (dispatch_key_spec key (state_table st) l') as Hs.
      destruct (dispatch_key key _ l') as [[[f|]|e| |] l'']; try done. destruct Hs as [-> Hin]. done. }
  destruct (may_end st); unfold optional_key, required_key, mbind, st_bind;
    (destruct (read_type l) as [[[key n]|e| |] l'] eqn:He; try done; specialize (Hdispatch key n l' eq_refl)).
  - destruct (bool_decide (key = []) && (n =? 0)%nat); [cbn; by destruct Hr as [Hd _]|].
    by destruct (dispatch_key key _ l') as [[[f|]|e| |] l''].
  - by destruct (dispatch_key key _ l') as [[[f|]|e| |] l''].
Qed.

(** A line, as far as it is text, has its end at most once, and that at the end. *)
Lemma read_until_line d l t r : read_until d l = (t, r) ->
  exists pre, (forall c, c ∈ pre -> u8_of_byte c <> d) /\ (t = pre \/ exists b, u8_of_byte b = d /\ t = pre ++ [b]).
Proof.
  revert t r. induction l as [|b l IH]; intros t r; cbn [read_until].
  - intros [= <- <-]. exists []. split; [by intros c ?%elem_of_nil|by left].
  - destruct (Z.eqb_spec (u8_of_byte b) d) as [Hb|Hb].
    + intros [= <- <-]. exists []. split; [by intros c ?%elem_of_nil|]. right. by exists b.
    + destruct (read_until d l) as [t' r'] eqn:H. intros [= <- <-]. destruct (IH t' r' eq_refl) as (pre & Hpre & Ht).
      exists (b :: pre). split; [intros c [->|Hc]%elem_of_cons; [done|by apply Hpre]|].
      destruct Ht as [->|(b' & Hb' & ->)]; [by left|]. right. by exists b'.
Qed.

Lemma newline_last pre v : utf8_encode v = pre -> (forall c, c ∈ pre -> u8_of_byte c <> 10) -> 10 ∉ v.
Proof.
  intros Hv Hpre Hin. apply list_elem_of_split in Hin as (a & b & ->).
  rewrite utf8_encode_app in Hv. apply (Hpre Byte.x0a); [|done]. rewrite <- Hv. apply elem_of_app. right.
  change (utf8_encode (10 :: b)) with (Byte.x0a :: utf8_encode b). apply elem_of_cons. by left.
Qed.

Lemma app_newline_last x y pre (n b : byte) : x ++ [n] ++ y = pre ++ [b] -> (n ∉ pre) -> x = pre /\ y = [].
Proof.
  intros H Hn. destruct (decide (y = [])) as [->|Hy].
  - rewrite app_nil_r in H. by apply app_inj_tail in H as [-> _].
  - destruct (exists_last Hy) as (y' & c & ->). rewrite !app_assoc in H. apply app_inj_tail in H as [<- _].
    exfalso. apply Hn. rewrite <- app_assoc, !elem_of_app. right. left. by apply list_elem_of_singleton.
Qed.

Lemma utf8_encode_nil s : utf8_encode s = [] -> s = [].
Proof.
  destruct s as [|z s]; [done|]. unfold utf8_encode. cbn [flat_map]. intros [H _]%app_eq_nil. exfalso. revert H.
  unfold utf8_char. by repeat case_match.
Qed.

Lemma line_trimmed line v : utf8_decode line = Some v ->
  (exists pre, (forall c, c ∈ pre -> u8_of_byte c <> 10) /\ (line = pre \/ exists b, u8_of_byte b = 10 /\ line = pre ++ [b])) ->
  line_text (trim v).
Proof.
  intros Hd (pre & Hpre & Hline). pose proof (utf8_decode_chars _ _ Hd) as Hc. apply utf8_encode_decode in Hd as He.
  split; [|split; [|apply trim_trimmed]].
  - apply Forall_forall. intros c Hin. apply (proj1 (Forall_forall _ _) Hc). by apply trim_subset.
  - destruct Hline as [->|(b & Hb & ->)].
    + intros Hin. apply (newline_last pre v He Hpre). by apply trim_subset.
    + destruct (decide (10 ∈ v)) as [Hin|Hnin]; [|intros Hin; by apply trim_subset in Hin].
      apply list_elem_of_split in Hin as (v1 & v2 & Hv). subst v.
      rewrite utf8_encode_app in He. change (utf8_encode (10 :: v2)) with ([Byte.x0a] ++ utf8_encode v2) in He.
      apply app_newline_last in He as [H1 H2]; [|intros Hin; by apply Hpre in Hin]. apply utf8_encode_nil in H2 as ->.
      rewrite trim_app_space by (by repeat constructor). intros Hin.
      apply (newline_last pre v1 H1 Hpre). by apply trim_subset.
Qed.

Lemma read_value_spec l :
  match read_value l with
  | (Ok v, l') => line_text v /\ lx_desc l' = lx_desc l /\ (length (lx_reader l') <= length (lx_reader l))%nat
  | (Err _, _) => True
  | _ => False
  end.
Proof.
  unfold read_value, mbind, st_bind, st_get, st_modify. destruct (read_until 10 (lx_reader l)) as [line rest] eqn:Hu.
  pose proof (read_until_length _ _ _ _ Hu) as Hlen. destruct (utf8_decode line) as [v|] eqn:Hd; [|done].
  split; [by eapply line_trimmed, read_until_line|split; [done|cbn; lia]].
Qed.

Lemma run_line_spec st l : keyed st = false ->
  exists g next, keyed next = true /\ run_state st = session_line g next /\
  match run_state st l with
  | (Ok (Some f), l') => f = next /\ (length (lx_reader l') <= length (lx_reader l))%nat
      /\ exists v, line_text v /\ g v (lx_desc l) = Ok (lx_desc l')
  | (Err _, _) => True
  | _ => False
  end.
Proof.
  intros Hk. destruct (line_function st Hk) as (g & next & Hrun & Hn & Hg). exists g, next. split; [done|]. split; [done|].
  rewrite Hrun. unfold session_line, mbind, st_bind, st_get, st_lift, st_modify. pose proof (read_value_spec l) as Hv.
  destruct (read_value l) as [[v|e| |] l']; try done. destruct Hv as (Ht & Hd & Hlen).
  destruct (Hg v (lx_desc l')) as [H1 H2]. destruct (g v (lx_desc l')) as [d|e| |] eqn:Hgv; try done.
  split; [done|]. split; [exact Hlen|]. exists v. rewrite <- Hd. done.
Qed.

(** * Enough fuel *)
Definition measure (st : StateFn) (l : Lexer) : nat := 2 * length (lx_reader l) + (if keyed st then 1 else 2).

Lemma run_states_total n st l : (measure st l < n)%nat -> returns (fst (run_states n st l)).
Proof.
  revert st l. induction n as [|n IH]; intros st l Hn; [lia|]. cbn [run_states]. unfold mbind, st_bind.
  unfold measure in *. destruct (keyed st) eqn:Hk.
  - pose proof (run_keyed_spec st l Hk) as H. destruct (run_state st l) as [[[f|]|e| |] l']; try done.
    destruct H as (_ & Hlen & _). apply IH. destruct (keyed f); lia.
  - destruct (run_line_spec st l Hk) as (g & next & Hnext & _ & H).
    destruct (run_state st l) as [[[f|]|e| |] l']; try done. destruct H as (-> & Hlen & _). apply IH. rewrite Hnext. lia.
Qed.

Lemma sdp_unmarshal_returns reader : returns (SessionDescription_unmarshal reader).
Proof.
  unfold SessionDescription_unmarshal.
  assert (measure s1 (mkLexer empty_description reader) < 2 * length reader + 2)%nat as Hm
    by (unfold measure; cbn [lx_reader keyed]; lia).
  pose proof (run_states_total _ _ _ Hm) as H. destruct (run_states _ s1 _) as [[a|e| |] l]; cbn [fst] in H;
    destruct H; by split.
Qed.

(** The parser of session descriptions returns a description or an error on every sequence of bytes: it neither
    panics nor loops, whatever the lines, the numbers and the text encoding are. *)
Theorem sdp_unmarshal_total reader : safe (SessionDescription_unmarshal reader).
Proof. pose proof (sdp_unmarshal_returns reader) as [H1 H2]. by destruct (SessionDescription_unmarshal reader). Qed.

(** The states where the text may end *)
Lemma complete_step st d : st ∈ last_states ++ media_states -> run_state st (mkLexer d []) = (Ok None, mkLexer d []).
Proof.
  assert (Forall (fun st => run_state st (mkLexer d []) = (Ok None, mkLexer d [])) (last_states ++ media_states)) as H
    by (repeat (apply Forall_cons; split; [reflexivity|]); apply Forall_nil; exact I).
  intros Hst. by apply (proj1 (Forall_forall _ _) H).
Qed.

Lemma run_complete text st d : goes s1 empty_description text st d -> st ∈ last_states ++ media_states ->
  SessionDescription_unmarshal (utf8_encode text) = Ok d.
Proof.
  intros G Hst. destruct (G []) as [k Hk]. specialize (Hk 1%nat). rewrite app_nil_r in Hk.
  assert (run_states (k + 1) s1 (mkLexer empty_description (utf8_encode text)) = (Ok tt, mkLexer d [])) as Hrun.
  { rewrite Hk. cbn [run_states]. unfold mbind, st_bind. by rewrite (complete_step st d Hst). }
  pose proof (sdp_unmarshal_returns (utf8_encode text)) as [Ht _]. unfold SessionDescription_unmarshal in *.
  rewrite (run_states_unique _ (k + 1)); [by rewrite Hrun| |by rewrite Hrun].
  clear Hk Hrun. destruct (run_states _ s1 _) as [[a|e| |] l]; cbn [fst]; done.
Qed.

Lemma sdp_print_parse d : SessionDescription_wf d ->
  SessionDescription_unmarshal (utf8_encode (SessionDescription_marshal d)) = Ok d.
Proof.
  intros (Hf & Ho & Hne). destruct Hf as (Hv & Hn & Hi & He & Hp & Hc & Hb & Ht & Hz & Hk & Ha & Hm).
  destruct d as [v o n i u e p c b t z k a m]. cbn in *. subst v.
  pose proof (goes_required o n Ho Hn) as G1. pose proof (goes_head o n i u e p c b Hi He Hp Hc Hb) as G2.
  pose proof (goes_tail (head_description o n i u e p c b) t z k a m eq_refl eq_refl eq_refl eq_refl eq_refl Hne Ht Hz Hk Ha Hm) as G3.
  pose proof (goes_any_trans _ _ _ _ _ _ _ _ (goes_any_trans _ _ _ _ _ _ _ _ G1 G2) G3 s1) as G.
  destruct G as (st & Hst & G); [by apply list_elem_of_singleton|].
  match type of G with goes _ _ ?t _ ?d' =>
    assert (SessionDescription_marshal d' = t) as He' end.
  { unfold SessionDescription_marshal, zone_line. rewrite <- !app_assoc. by destruct z. }
  rewrite <- He' in G. exact (run_complete _ st _ G Hst).
Qed.

(** * What is parsed is well formed *)
Definition past_origin (st : StateFn) : bool :=
  match st with s1 | unmarshal_protocol_version | s2 | unmarshal_origin => false | _ => true end.

Definition past_times (st : StateFn) : bool :=
  match st with
  | s9 | s11 | s12 | s13 | s14 | s15 | s16 | unmarshal_repeat_times | unmarshal_time_zones
  | unmarshal_session_encryption_key | unmarshal_session_attribute | unmarshal_media_description
  | unmarshal_media_title | unmarshal_media_connection_information | unmarshal_media_bandwidth
  | unmarshal_media_encryption_key | unmarshal_media_attribute => true
  | _ => false
  end.

Definition parsing (st : StateFn) (d : SessionDescription) : Prop :=
  fields_wf d /\ (past_origin st = true -> Origin_wf (sd_origin d)) /\ (past_times st = true -> sd_time_descriptions d <> []).

Lemma table_parsing st k f d : (k, f) ∈ state_table st -> parsing st d -> parsing f d.
Proof.
  assert (Forall (fun e => implb (past_origin (snd e)) (past_origin st) && implb (past_times (snd e)) (past_times st) = true)
    (state_table st)) as H by (destruct st; cbn; repeat (apply Forall_cons; split; [done|]); apply Forall_nil; exact I).
  intros Hin (Hf & Ho & Ht). apply (proj1 (Forall_forall _ _) H) in Hin. cbn [snd] in Hin.
  apply andb_true_iff in Hin as [H1 H2]. split; [exact Hf|]. split; intros Hp.
  - apply Ho. rewrite Hp in H1. exact H1.
  - apply Ht. rewrite Hp in H2. exact H2.
Qed.

Lemma with_last_Ok {A} (h : A -> res SdpError A) l l' : with_last h l = Ok l' ->
  exists l0 a b, l = l0 ++ [a] /\ l' = l0 ++ [b] /\ h a = Ok b.
Proof.
  unfold with_last. destruct (last l) as [a|] eqn:Hl; [|done]. intros H. apply bind_Ok in H as (b & Hb & H).
  injection H as <-. apply last_Some in Hl as [l0 ->]. exists l0, a, b. rewrite removelast_last. done.
Qed.

Lemma with_last_Forall {A} (P : A -> Prop) (h : A -> res SdpError A) l l' :
  with_last h l = Ok l' -> Forall P l -> (forall a b, P a -> h a = Ok b -> P b) -> Forall P l' /\ l' <> [].
Proof.
  intros (l0 & a & b & -> & -> & Hb)%with_last_Ok Hl Hh. apply Forall_app in Hl as [Hl0 Ha]. split; [|by destruct l0].
  apply Forall_app. split; [done|]. apply Forall_cons in Ha as [Ha _]. apply Forall_cons. split; [by eapply Hh|constructor].
Qed.

Lemma Forall_snoc' {A} (P : A -> Prop) l a : Forall P l -> P a -> Forall P (l ++ [a]).
Proof. intros Hl Ha. apply Forall_app. split; [done|]. by constructor. Qed.

(** A media line keeps the media description well formed. *)
Lemma media_line_parsing (h : MediaDescription -> res SdpError MediaDescription) d d' st next :
  (media ← with_last h (sd_media_descriptions d); Ok (d <| sd_media_descriptions := media |>)) = Ok d' ->
  (forall m m', MediaDescription_wf m -> h m = Ok m' -> MediaDescription_wf m') ->
  past_origin st = true -> past_times st = true -> parsing st d -> parsing next d'.
Proof.
  intros H Hh Ho Ht (Hf & Ho' & Ht'). apply bind_Ok in H as (ms & Hms & H). injection H as <-.
  destruct Hf as (Hv & Hn & Hi & He & Hp & Hc & Hb & Htd & Hz & Hk & Ha & Hm).
  destruct (with_last_Forall MediaDescription_wf h _ _ Hms Hm Hh) as [Hm' _].
  destruct d. cbn in *. split; [|split; intros _; cbn; [by apply Ho'|by apply Ht']]. repeat (split; [assumption|]). exact Hm'.
Qed.

Lemma fields_wf_update d d' : fields_wf d -> sd_version d' = 0 ->
  (line_text (sd_session_name d) -> line_text (sd_session_name d')) ->
  (on_option line_text (sd_session_information d) -> on_option line_text (sd_session_information d')) ->
  (on_option line_text (sd_email_address d) -> on_option line_text (sd_email_address d')) ->
  (on_option line_text (sd_phone_number d) -> on_option line_text (sd_phone_number d')) ->
  (on_option ConnectionInformation_wf (sd_connection_information d) ->
   on_option ConnectionInformation_wf (sd_connection_information d')) ->
  (Forall Bandwidth_wf (sd_bandwidth d) -> Forall Bandwidth_wf (sd_bandwidth d')) ->
  (Forall TimeDescription_wf (sd_time_descriptions d) -> Forall TimeDescription_wf (sd_time_descriptions d')) ->
  (Forall TimeZone_wf (sd_time_zones d) -> Forall TimeZone_wf (sd_time_zones d')) ->
  (on_option line_text (sd_encryption_key d) -> on_option line_text (sd_encryption_key d')) ->
  (Forall Attribute_wf (sd_attributes d) -> Forall Attribute_wf (sd_attributes d')) ->
  (Forall MediaDescription_wf (sd_media_descriptions d) -> Forall MediaDescription_wf (sd_media_descriptions d')) ->
  fields_wf d'.
Proof. unfold fields_wf. intuition. Qed.

(** The invariant after a change of some fields, which are left as goals *)
Ltac fields_step Hf Ho Ht :=
  split; [eapply fields_wf_update; [exact Hf|exact (proj1 Hf)|..]; try (cbn; exact (fun x => x))
         |split; intros Hpast; try discriminate Hpast; try (by apply Ho); try (by apply Ht)].

(** What [line_parsing] says of one function *)
Definition keeps_parsing (st next : StateFn) (g : str -> SessionDescription -> res SdpError SessionDescription) : Prop :=
  forall v d d', g v d = Ok d' -> line_text v -> parsing st d -> parsing next d'.

Lemma session_lines_parsing :
  keeps_parsing unmarshal_protocol_version s2 (fun value d => _ ← parse_version value; Ok d)
  /\ keeps_parsing unmarshal_origin s3 (fun value d => origin ← parse_origin value; Ok (d <| sd_origin := origin |>))
  /\ keeps_parsing unmarshal_uri s10 (fun value d =>
       match url_parse value with Some uri => Ok (d <| sd_uri := Some uri |>) | None => Err SdpParseUrl end)
  /\ keeps_parsing unmarshal_session_connection_information s5 (fun value d =>
       c ← unmarshal_connection_information value; Ok (d <| sd_connection_information := c |>))
  /\ keeps_parsing unmarshal_session_bandwidth s5 (fun value d =>
       b ← unmarshal_bandwidth value; Ok (d <| sd_bandwidth := sd_bandwidth d ++ [b] |>))
  /\ keeps_parsing unmarshal_timing s9 (fun value d =>
       t ← parse_timing value; Ok (d <| sd_time_descriptions := sd_time_descriptions d ++ [mkTimeDescription t []] |>)).
Proof.
  split_and!; intros v d d' H Hv (Hf & Ho & Ht); cbn beta in H.
  - apply bind_Ok in H as (x & _ & H). injection H as <-. fields_step Hf Ho Ht.
  - apply bind_Ok in H as (o & Hx & H). injection H as <-. fields_step Hf Ho Ht. eapply parse_origin_wf; [apply Hv|exact Hx].
  - destruct (url_parse v); [|done]. injection H as <-. fields_step Hf Ho Ht.
  - apply bind_Ok in H as (c & Hx & H). injection H as <-. fields_step Hf Ho Ht.
    intros _. by apply parse_connection_wf in Hx as (c' & -> & Hc); [|apply Hv].
  - apply bind_Ok in H as (b & Hx & H). injection H as <-. fields_step Hf Ho Ht.
    intros Hb. apply Forall_snoc'; [exact Hb|by eapply parse_bandwidth_wf].
  - apply bind_Ok in H as (t & Hx & H). injection H as <-. fields_step Hf Ho Ht.
    + intros Hb. apply Forall_snoc'; [exact Hb|]. split; [by eapply parse_timing_wf|constructor].
    + cbn. by destruct (sd_time_descriptions d).
Qed.

Lemma repeat_zones_parsing :
  keeps_parsing unmarshal_repeat_times s9 (fun value d =>
    if (length (split_whitespace value) <? 3)%nat then Err (line_error "r=" value)
    else
      times ← with_last (fun t =>
        r ← parse_repeat_time value; Ok (mkTimeDescription (td_timing t) (td_repeat_times t ++ [r])))
        (sd_time_descriptions d);
      Ok (d <| sd_time_descriptions := times |>))
  /\ keeps_parsing unmarshal_time_zones s13 (fun value d =>
    let fields := split_whitespace value in
    if negb (length fields mod 2 =? 0)%nat then Err (line_error "t=" value)
    else zones ← parse_time_zones value fields; Ok (d <| sd_time_zones := sd_time_zones d ++ zones |>))
  /\ keeps_parsing unmarshal_media_description s12 (fun value d =>
    name ← parse_media_name value;
    Ok (d <| sd_media_descriptions := sd_media_descriptions d ++ [mkMediaDescription name None None [] None []] |>)).
Proof.
  split_and!; intros v d d' H Hv (Hf & Ho & Ht); cbn beta zeta in H.
  - destruct (_ <? _)%nat; [done|]. apply bind_Ok in H as (ts & Hx & H). injection H as <-.
    pose proof Hf as (_ & _ & _ & _ & _ & _ & _ & Htd & _).
    destruct (with_last_Forall TimeDescription_wf _ _ _ Hx Htd) as [Hts Hne].
    { intros t t' [Ht1 Ht2] Hr. apply bind_Ok in Hr as (r & Hr & He). injection He as <-. split; [exact Ht1|].
      apply Forall_snoc'; [exact Ht2|by eapply parse_repeat_wf]. }
    fields_step Hf Ho Ht; [by intros _|exact Hne].
  - destruct (negb _); [done|]. apply bind_Ok in H as (zs & Hx & H). injection H as <-. fields_step Hf Ho Ht.
    intros Hz. apply Forall_app. split; [exact Hz|by eapply parse_time_zones_wf].
  - apply bind_Ok in H as (m & Hx & H). injection H as <-. fields_step Hf Ho Ht.
    intros Hm. apply Forall_snoc'; [exact Hm|]. split; [eapply parse_media_wf; [apply Hv|exact Hx]|].
    by repeat (split; [done || constructor|]).
Qed.

Lemma media_lines_parsing h st next : past_origin st = true -> past_times st = true ->
  (forall v m m', line_text v -> MediaDescription_wf m -> h v m = Ok m' -> MediaDescription_wf m') ->
  keeps_parsing st next (fun value d =>
    media ← with_last (h value) (sd_media_descriptions d); Ok (d <| sd_media_descriptions := media |>)).
Proof. intros Ho Ht Hh v d d' H Hv Hpar. eapply media_line_parsing; [exact H| |exact Ho|exact Ht|exact Hpar]. intros m m'. by apply Hh. Qed.

(** The line functions keep the invariant. *)
Lemma line_parsing st : keyed st = false ->
  exists g next, run_state st = session_line g next /\ keeps_parsing st next g.
Proof.
  intros Hk. pose proof session_lines_parsing as (P1 & P2 & P3 & P4 & P5 & P6). pose proof repeat_zones_parsing as (P7 & P8 & P9).
  destruct st; try done; (eexists; eexists; split; [reflexivity|]);
    first [exact P1 | exact P2 | exact P3 | exact P4 | exact P5 | exact P6 | exact P7 | exact P8 | exact P9
          | apply media_lines_parsing; [reflexivity|reflexivity|]; intros v [n t c b k a] m' Hv (Hn & Ht & Hc & Hb & Hkey & Ha) H;
            cbn in Hn, Ht, Hc, Hb, Hkey, Ha
          | intros v d d' H Hv (Hf & Ho & Ht); injection H as <-; fields_step Hf Ho Ht; try by intros _].
  - intros Ha. apply Forall_snoc'; [exact Ha|by apply parse_attribute_wf].
  - injection H as <-. by repeat (split; [assumption|]).
  - apply bind_Ok in H as (x & Hx & H). injection H as <-. apply parse_connection_wf in Hx as (c' & -> & Hc'); [|apply Hv].
    by repeat (split; [assumption|]).
  - apply bind_Ok in H as (x & Hx & H). injection H as <-. repeat (split; [assumption|]).
    split; [apply Forall_snoc'; [exact Hb|by eapply parse_bandwidth_wf]|]. by split.
  - injection H as <-. by repeat (split; [assumption|]).
  - injection H as <-. repeat (split; [assumption|]). apply Forall_snoc'; [exact Ha|by apply parse_attribute_wf].
Qed.

Lemma run_states_parsing n st l l' : parsing st (lx_desc l) -> run_states n st l = (Ok tt, l') -> SessionDescription_wf (lx_desc l').
Proof.
  revert st l. induction n as [|n IH]; intros st l Hpar; cbn [run_states]; [done|]. unfold mbind, st_bind.
  destruct (keyed st) eqn:Hk.
  - pose proof (run_keyed_spec st l Hk) as H. destruct (run_state st l) as [[[f|]|e| |] l1]; try done.
    + destruct H as (Hd & _ & k & Hin). apply IH. rewrite Hd. by eapply table_parsing.
    + destruct H as [Hd Hend]. intros [= <-]. destruct Hpar as (Hf & Ho & Ht). rewrite Hd.
      split; [exact Hf|]. split; [apply Ho|apply Ht]; by destruct st.
  - destruct (line_parsing st Hk) as (g & next & Hrun & Hkeep). rewrite Hrun. unfold session_line, mbind, st_bind, st_get, st_lift, st_modify.
    pose proof (read_value_spec l) as Hv. destruct (read_value l) as [[v|e| |] l1]; try done. destruct Hv as (Hv & Hd & _).
    destruct (g v (lx_desc l1)) as [d|e| |] eqn:Hg; try done. apply IH. cbn. eapply Hkeep; [exact Hg|exact Hv|by rewrite Hd].
Qed.

Lemma empty_parsing : parsing s1 empty_description.
Proof.
  assert (line_text []) as Hn by (split; [constructor|]; split; [by apply not_elem_of_nil|]; split; [done|]; intros c s H; by destruct s).
  split; [|split; discriminate]. unfold fields_wf. cbn. by repeat (split; [first [done | exact Hn | constructor]|]).
Qed.

Lemma sdp_parsed_wf reader d : SessionDescription_unmarshal reader = Ok d -> SessionDescription_wf d.
Proof.
  intros H. unfold SessionDescription_unmarshal in H. destruct (run_states _ s1 _) as [[[]|e| |] l] eqn:Hrun; try done.
  injection H as <-. exact (run_states_parsing _ s1 (mkLexer empty_description reader) _ empty_parsing Hrun).
Qed.

(** Every description that the parser gives is well formed, so that printing it and parsing the text again gives
    the same description: parsing is a normalisation. *)
Theorem sdp_reparse reader d : SessionDescription_unmarshal reader = Ok d ->
  SessionDescription_wf d /\ SessionDescription_unmarshal (utf8_encode (SessionDescription_marshal d)) = Ok d.
Proof. intros Hwf%sdp_parsed_wf. split; [exact Hwf|by apply sdp_print_parse]. Qed.

(** C22. A well-formed session description is read back from its text: parsing inverts printing. *)
Theorem sdp_roundtrip d : SessionDescription_wf d ->
  SessionDescription_unmarshal (utf8_encode (SessionDescription_marshal d)) = Ok d.
Proof. apply sdp_print_parse. Qed.
End laws.

(** * An example: URLs that are kept as they are written *)
Definition sample_urls : Urls := {|
  Url := unit;
  url_parse := fun s => if bool_decide (s = chars "http://a") then Some tt else None;
  url_to_string := fun _ => chars "http://a"
|}.

#[export] Instance sample_url_laws : UrlLaws sample_urls.
Proof.
  split; [by intros []|]. intros []. apply token_line, constant_token; [done|reflexivity].
Qed.

Definition quote_lines (l : list string) : bytes := flat_map (fun s => list_byte_of_string s ++ [Byte.x0d; Byte.x0a]) l.

(** An offer for a data channel *)
Definition sample_offer : bytes := quote_lines
  ["v=0"; "o=- 4596489990601351948 2 IN IP4 127.0.0.1"; "s=-"; "u=http://a"; "t=0 0"; "r=7d 1h 0 25h";
   "z=2882844526 -1h"; "a=fingerprint:sha-256 0F:74:31"; "a=group:BUNDLE 0";
   "m=application 9 UDP/DTLS/SCTP webrtc-datachannel"; "c=IN IP4 0.0.0.0"; "b=X-YZ:128"; "a=setup:active"; "a=mid:0";
   "a=sctp-port:5000"]%string.

Definition sample_description : @SessionDescription sample_urls :=
  match @SessionDescription_unmarshal sample_urls sample_offer with Ok d => d | _ => @empty_description sample_urls end.

Lemma sdp_reparse_witness :
  @SessionDescription_unmarshal sample_urls sample_offer = Ok sample_description
  /\ utf8_encode (@SessionDescription_marshal sample_urls sample_description) <> sample_offer
  /\ @SessionDescription_unmarshal sample_urls (utf8_encode (@SessionDescription_marshal sample_urls sample_description))
     = Ok sample_description.
Proof.
  assert (@SessionDescription_unmarshal sample_urls sample_offer = Ok sample_description) as H by (vm_compute; reflexivity).
  split; [exact H|]. split; [vm_compute; discriminate|].
  exact (proj2 (@sdp_reparse sample_urls sample_url_laws sample_offer sample_description H)).
Defined.

Definition jsep_description : @SessionDescription sample_urls :=
  @sd_with_media sample_urls
    (md_with_ice_credentials (chars "ufrag") (chars "pwd")
      (mkMediaDescription (mkMediaName (chars "application") (mkRangedPort 9 None)
        [chars "UDP"; chars "DTLS"; chars "SCTP"] [chars "webrtc-datachannel"]) None
        (Some (mkConnectionInformation (chars "IN") (chars "IP4") (Some (mkAddress (chars "0.0.0.0") None None)))) [] None []))
    (@new_jsep_session_description sample_urls 1234567890123456789 42 false).

Lemma sdp_roundtrip_witness :
  @SessionDescription_wf sample_urls jsep_description /\
  @SessionDescription_unmarshal sample_urls (utf8_encode (@SessionDescription_marshal sample_urls jsep_description))
  = Ok jsep_description.
Proof.
  assert (@SessionDescription_wf sample_urls jsep_description) as H.
  { apply (@sdp_parsed_wf sample_urls (utf8_encode (@SessionDescription_marshal sample_urls jsep_description))).
    vm_compute; reflexivity. }
  split; [exact H|]. exact (@sdp_roundtrip sample_urls sample_url_laws jsep_description H).
Defined.
