(* ===== verification/IpText.v ===== *)
(** The text of IP addresses, as [std::net] prints and reads it: what the ICE
    agent uses to compare the address of a candidate with the source of a
    datagram.  The standard library's printer compresses the longest run of zero
    groups and writes an IPv4-mapped address with its dotted part. *)
From Stdlib Require Import Strings.String.
From S2P Require Import Prelude Stun StunAttrs Text.

#[export] Instance IpAddr_eq_dec : EqDecision IpAddr.
Proof. solve_decision. Defined.

(** [SocketAddr::new]; the flow information and the scope of an IPv6 address are zero. *)
Record SocketAddr := mkSocketAddr { sa_ip : IpAddr; sa_port : Z }.

#[export] Instance SocketAddr_eq_dec : EqDecision SocketAddr.
Proof. solve_decision. Defined.

Definition is_ipv4 (ip : IpAddr) : bool := match ip with V4 _ => true | V6 _ => false end.

(** * Printing *)
Definition ipv4_to_string (o : bytes) : str := join (chars ".") (map (fun b => print_int (u8_of_byte b)) o).

Fixpoint segments (o : bytes) : list Z :=
  match o with
  | a :: b :: o' => (u8_of_byte a * 256 + u8_of_byte b) :: segments o'
  | _ => []
  end.

Definition hex_digit (d : Z) : Z := if d <? 10 then 48 + d else 87 + d.

Fixpoint hex_digits (fuel : nat) (n : Z) (acc : str) : str :=
  match fuel with
  | O => acc
  | S f => let acc := hex_digit (n mod 16) :: acc in if n <? 16 then acc else hex_digits f (n / 16) acc
  end.

(** [{:x}] of a [u16] *)
Definition print_hex (n : Z) : str := hex_digits 4 n [].

(** The longest run of zero groups, the first one of that length: its start and its length. *)
Fixpoint longest_zeroes (l : list Z) (i : nat) (cur longest : nat * nat) : nat * nat :=
  match l with
  | [] => longest
  | x :: l' =>
      if x =? 0 then
        let cur := (if (cur.2 =? 0)%nat then i else cur.1, S cur.2) in
        longest_zeroes l' (S i) cur (if (longest.2 <? cur.2)%nat then cur else longest)
      else longest_zeroes l' (S i) (O, O) longest
  end.

Definition groups_to_string (l : list Z) : str := join (chars ":") (map print_hex l).

Definition ipv6_to_string (o : bytes) : str :=
  let s := segments o in
  if bool_decide (take 6 s = [0; 0; 0; 0; 0; 65535]) then chars "::ffff:" ++ ipv4_to_string (drop 12 o)
  else
    let '(start, len) := longest_zeroes s 0 (O, O) (O, O) in
    if (1 <? len)%nat
    then groups_to_string (take start s) ++ chars "::" ++ groups_to_string (drop (start + len) s)
    else groups_to_string s.

Definition ip_to_string (ip : IpAddr) : str :=
  match ip with V4 o => ipv4_to_string o | V6 o => ipv6_to_string o end.

(** * Reading: a reader takes a prefix of the text and gives what is left. *)
Definition char_digit (radix c : Z) : option Z :=
  let d := if in_interval 48 57 c then Some (c - 48)
           else if in_interval 97 122 c then Some (c - 87)
           else if in_interval 65 90 c then Some (c - 55) else None in
  match d with Some d => if d <? radix then Some d else None | None => None end.

(** The digits at the front of the text: their number, their value, the rest. *)
Fixpoint read_digits (radix : Z) (s : str) (count : nat) (acc : Z) : nat * Z * str :=
  match s with
  | c :: s' =>
      match char_digit radix c with
      | Some d => read_digits radix s' (S count) (acc * radix + d)
      | None => (count, acc, s)
      end
  | [] => (count, acc, s)
  end.

(** [read_number(radix, Some(max_digits), allow_zero_prefix)] *)
Definition read_number (radix max : Z) (max_digits : nat) (allow_zero_prefix : bool) (s : str) : option (Z * str) :=
  let '(count, value, rest) := read_digits radix s 0 0 in
  let zero_prefix := match s with c :: _ => c =? 48 | [] => false end in
  if (count =? 0)%nat || (max_digits <? count)%nat || (max <? value)
     || (negb allow_zero_prefix && zero_prefix && (1 <? count)%nat)
  then None else Some (value, rest).

Definition read_char (c : Z) (s : str) : option str :=
  match s with x :: s' => if x =? c then Some s' else None | [] => None end.

(** [read_separator(sep, i, inner)]: no separator before the first. *)
Definition read_separator {A} (sep : Z) (i : nat) (inner : str -> option (A * str)) (s : str) : option (A * str) :=
  match i with
  | O => inner s
  | S _ => match read_char sep s with Some s' => inner s' | None => None end
  end.

Fixpoint read_octets (n i : nat) (s : str) : option (bytes * str) :=
  match n with
  | O => Some ([], s)
  | S n' =>
      match read_separator 46 i (read_number 10 255 3 false) s with
      | Some (v, s') =>
          match read_octets n' (S i) s' with
          | Some (o, s'') => Some (byte_of_u8 v :: o, s'')
          | None => None
          end
      | None => None
      end
  end.

Definition read_ipv4 (s : str) : option (bytes * str) := read_octets 4 0 s.

(** [read_groups]: at most [limit] groups, an embedded IPv4 address counting for
    two; [i] groups were read. *)
Fixpoint read_groups (limit i : nat) (s : str) : list Z * bool * str :=
  match limit with
  | O => ([], false, s)
  | S limit' =>
      let embedded := if (0 <? limit')%nat then read_separator 58 i read_ipv4 s else None in
      match embedded with
      | Some (o, s') => (segments o, true, s')
      | None =>
          match read_separator 58 i (read_number 16 65535 4 true) s with
          | Some (g, s') => let '(gs, v4, s'') := read_groups limit' (S i) s' in (g :: gs, v4, s'')
          | None => ([], false, s)
          end
      end
  end.

Definition group_bytes (g : Z) : bytes := put_u16 g.

Definition read_ipv6 (s : str) : option (bytes * str) :=
  let '(head, head_ipv4, s1) := read_groups 8 0 s in
  if (length head =? 8)%nat then Some (flat_map group_bytes head, s1)
  else if head_ipv4 then None
  else
    match read_char 58 s1 with
    | Some s2 =>
        match read_char 58 s2 with
        | Some s3 =>
            let '(tail, _, s4) := read_groups (7 - length head) 0 s3 in
            Some (flat_map group_bytes (head ++ replicate (8 - length head - length tail) 0 ++ tail), s4)
        | None => None
        end
    | None => None
    end.

(** [str::parse::<IpAddr>] *)
Definition parse_ip (s : str) : option IpAddr :=
  match read_ipv4 s with
  | Some (o, []) => Some (V4 o)
  | Some _ => None
  | None => match read_ipv6 s with Some (o, []) => Some (V6 o) | _ => None end
  end.

(** * An IPv4 address is read back from its text *)

(** What follows a number in a text does not continue it. *)
Definition ends_number (rest : str) : Prop := match rest with c :: _ => char_digit 10 c = None | [] => True end.

Lemma read_digits_app l : forall rest n acc m v, ends_number rest -> read_digits 10 l n acc = (m, v, []) ->
  read_digits 10 (l ++ rest) n acc = (m, v, rest).
Proof.
  induction l as [|c l IH]; intros rest n acc m v Hr H; cbn [read_digits app] in *.
  - injection H as -> ->. destruct rest as [|c rest]; [done|]. cbn [ends_number] in Hr. cbn [read_digits]. by rewrite Hr.
  - destruct (char_digit 10 c) eqn:Hc; [by apply IH|done].
Qed.

Lemma octet_text (b : byte) : exists c l m, print_int (u8_of_byte b) = c :: l /\
  read_digits 10 (c :: l) 0 0 = (m, u8_of_byte b, []) /\
  orb (orb (orb (Nat.eqb m 0) (Nat.ltb 3 m)) (Z.ltb 255 (u8_of_byte b))) (andb (Z.eqb c 48) (Nat.ltb 1 m)) = false.
Proof. destruct b; do 3 eexists; (split; [vm_compute; reflexivity|]); split; vm_compute; reflexivity. Qed.

Lemma read_octet_text (b : byte) rest : ends_number rest ->
  read_number 10 255 3 false (print_int (u8_of_byte b) ++ rest) = Some (u8_of_byte b, rest).
Proof.
  intros H. destruct (octet_text b) as (c & l & m & -> & Hr & Hok). unfold read_number.
  rewrite (read_digits_app _ rest _ _ _ _ H Hr). cbn [app negb]. rewrite andb_true_l. by rewrite Hok.
Qed.

Lemma ipv4_text_read o rest : length o = 4%nat -> ends_number rest ->
  read_ipv4 (ipv4_to_string o ++ rest) = Some (o, rest).
Proof.
  intros Hlen H. destruct o as [|a [|b [|c [|d [|]]]]]; try done. unfold ipv4_to_string, read_ipv4.
  cbn [map join]. rewrite <- !(assoc_L (++)).
  change (chars ".") with [46]. cbn [app read_octets read_separator].
  rewrite read_octet_text by done. cbn [read_char]. rewrite Z.eqb_refl.
  rewrite read_octet_text by done. cbn [read_char]. rewrite Z.eqb_refl.
  rewrite read_octet_text by done. cbn [read_char]. rewrite Z.eqb_refl.
  rewrite read_octet_text by done. by rewrite !byte_of_u8_of_byte.
Qed.

Lemma parse_ipv4_text o : length o = 4%nat -> parse_ip (ipv4_to_string o) = Some (V4 o).
Proof.
  intros H. unfold parse_ip. pose proof (ipv4_text_read o [] H I) as E. rewrite (right_id_L [] (++)) in E. by rewrite E.
Qed.

Definition ipv6_of_groups (l : list Z) : bytes := flat_map group_bytes l.

Example ipv6_texts :
  map ip_to_string [V6 (ipv6_of_groups [0x2001; 0xdb8; 0; 0; 1; 0; 0; 1]); V6 (ipv6_of_groups (replicate 8 0));
                    V6 (ipv6_of_groups [0; 0; 0; 0; 0; 65535; 0x7f00; 1]); V6 (ipv6_of_groups [1; 0; 2; 3; 4; 5; 6; 0])]
  = map chars ["2001:db8::1:0:0:1"; "::"; "::ffff:127.0.0.1"; "1:0:2:3:4:5:6:0"]%string.
Proof. vm_compute. reflexivity. Qed.

Example ip_texts_read :
  map (fun s => parse_ip (chars s))
    ["10.0.0.1"; "2001:DB8::1"; "::ffff:1.2.3.4"; "::"; "fe80::"; "01.2.3.4"; "1.2.3"; "1:2:3:4:5:6:7:8:9"; "1::2::3"; "::1.2.3.4.5"]%string
  = [Some (V4 (map byte_of_u8 [10; 0; 0; 1])); Some (V6 (ipv6_of_groups [0x2001; 0xdb8; 0; 0; 0; 0; 0; 1]));
     Some (V6 (ipv6_of_groups [0; 0; 0; 0; 0; 65535; 0x102; 0x304])); Some (V6 (ipv6_of_groups (replicate 8 0)));
     Some (V6 (ipv6_of_groups [0xfe80; 0; 0; 0; 0; 0; 0; 0])); None; None; None; None; None].
Proof. vm_compute. reflexivity. Qed.
