(* ===== verification/IceCandidate.v ===== *)
(** ICE candidates and pairs of candidates ([ice/candidate], [ice/network_type],
    [ice/priority], [ice/use_candidate], [ice/control], [ice/error.rs]).

    A candidate is shared behind an [Arc]; the cells that change after its
    construction (the last times, the close channel) are fields of a record that
    lives in the store of the agent.  The socket of a candidate is the runtime's:
    only whether there is one is kept. *)
From Stdlib Require Import Strings.String.
From S2P Require Import Prelude Stun StunAttrs Text IpText.

Inductive IceError : Type :=
  | ErrLocalUfragInsufficientBits
  | ErrLocalPwdInsufficientBits
  | ErrClosed
  | ErrCanceledByCaller
  | ErrMultipleStart
  | ErrRemoteUfragEmpty
  | ErrRemotePwdEmpty
  | ErrNoOnCandidateHandler
  | ErrMultipleGatherAttempted
  | ErrAddressParseFailed
  | ErrLiteUsingNonHostCandidates
  | ErrUselessUrlsProvided
  | ErrUnsupportedNat1to1IpCandidateType
  | ErrInvalidNat1to1IpMapping
  | ErrExternalMappedIpNotFound
  | ErrMulticastDnsWithNat1to1IpMapping
  | ErrIneffectiveNat1to1IpMappingHost
  | ErrInvalidMulticastDnshostName
  | ErrRestartWhenGathering
  | ErrAttributeTooShortIceCandidate
  | ErrParseRelatedAddr
  | ErrUnknownCandidateType
  | ErrDetermineNetworkType
  | ErrMismatchUsername
  | IceParseInt (k : IntErrorKind)
  | IceParseIp
  | IceStun (e : StunError)
  | IceOther (s : str).

(** * Network types *)
Inductive NetworkType : Type := NetworkUnspecified | Udp4 | Udp6.

#[export] Instance NetworkType_eq_dec : EqDecision NetworkType.
Proof. solve_decision. Defined.

#[export] Instance NetworkType_countable : Countable NetworkType.
Proof.
  refine (inj_countable' (fun t => match t with NetworkUnspecified => 0 | Udp4 => 1 | Udp6 => 2 end)
            (fun z => if z =? 0 then NetworkUnspecified else if z =? 1 then Udp4 else Udp6) _).
  by intros [].
Defined.

Definition UDP : str := chars "udp".

Definition NetworkType_from (v : Z) : NetworkType :=
  if v =? 1 then Udp4 else if v =? 2 then Udp6 else NetworkUnspecified.

Definition NetworkType_to_string (t : NetworkType) : str :=
  match t with Udp4 => chars "udp4" | Udp6 => chars "udp6" | NetworkUnspecified => chars "unspecified" end.

Definition network_short (t : NetworkType) : str :=
  match t with Udp4 | Udp6 => UDP | NetworkUnspecified => chars "Unspecified" end.

Definition NetworkType_is_ipv4 (t : NetworkType) : bool := match t with Udp4 => true | _ => false end.
Definition NetworkType_is_ipv6 (t : NetworkType) : bool := match t with Udp6 => true | _ => false end.

Definition supported_network_types : list NetworkType := [Udp4; Udp6].

(** [to_lowercase], on the characters a prefix of which is compared with ASCII
    letters: no other character has one of [u], [d], [p] as its lower case. *)
Definition ascii_lowercase (c : Z) : Z := if in_interval 65 90 c then c + 32 else c.

Definition determine_network_type (network : str) (ip : IpAddr) : res IceError NetworkType :=
  if starts_with UDP (map ascii_lowercase network)
  then Ok (if is_ipv4 ip then Udp4 else Udp6)
  else Err ErrDetermineNetworkType.

(** * Candidates *)
Definition RECEIVE_MTU : Z := 8192.
Definition DEFAULT_LOCAL_PREFERENCE : Z := 65535.
Definition COMPONENT_RTP : Z := 1.

Inductive CandidateType : Type := CandidateUnspecified | Host.

#[export] Instance CandidateType_eq_dec : EqDecision CandidateType.
Proof. solve_decision. Defined.

Definition CandidateType_to_string (t : CandidateType) : str :=
  match t with Host => chars "host" | CandidateUnspecified => chars "Unknown candidate type" end.

Definition preference (t : CandidateType) : Z := match t with Host => 126 | CandidateUnspecified => 0 end.

Record CandidateRelatedAddress := mkRelated { ra_address : str; ra_port : Z }.

#[export] Instance CandidateRelatedAddress_eq_dec : EqDecision CandidateRelatedAddress.
Proof. solve_decision. Defined.

Definition CandidateRelatedAddress_to_string (r : CandidateRelatedAddress) : str :=
  chars " related " ++ ra_address r ++ chars ":" ++ print_int (ra_port r).

Record CandidateBase := mkCandidateBase {
  ca_id : str;
  ca_network_type : NetworkType;
  ca_candidate_type : CandidateType;
  ca_component : Z;
  ca_address : str;
  ca_port : Z;
  ca_related_address : option CandidateRelatedAddress;
  ca_resolved_addr : SocketAddr;
  ca_last_sent : Z;
  ca_last_received : Z;
  ca_conn : bool;
  ca_open : bool;
  ca_foundation_override : str;
  ca_priority_override : Z;
  ca_network : str
}.

#[export] Instance CandidateBase_settable : Settable CandidateBase := fun c =>
  mkCandidateBase (ca_id c) (ca_network_type c) (ca_candidate_type c) (ca_component c) (ca_address c) (ca_port c)
    (ca_related_address c) (ca_resolved_addr c) (ca_last_sent c) (ca_last_received c) (ca_conn c) (ca_open c)
    (ca_foundation_override c) (ca_priority_override c) (ca_network c).

Definition unspecified_addr : SocketAddr := mkSocketAddr (V4 (replicate 4 Byte.x00)) 0.

Definition CandidateBase_default : CandidateBase :=
  mkCandidateBase [] NetworkUnspecified CandidateUnspecified 0 [] 0 None unspecified_addr 0 0 false false [] 0 [].

#[export] Instance CandidateBase_inhabited : Inhabited CandidateBase := populate CandidateBase_default.

Definition CandidateBase_to_string (c : CandidateBase) : str :=
  NetworkType_to_string (ca_network_type c) ++ chars " " ++ CandidateType_to_string (ca_candidate_type c)
  ++ chars " " ++ ca_address c ++ chars ":" ++ print_int (ca_port c)
  ++ match ca_related_address c with Some r => CandidateRelatedAddress_to_string r | None => [] end.

Definition local_preference (c : CandidateBase) : Z := DEFAULT_LOCAL_PREFERENCE.

Section candidate.
Context {P : Profile}.

(** [Candidate::priority], in [u32] arithmetic *)
Definition candidate_priority {E} (c : CandidateBase) : res E Z :=
  if negb (ca_priority_override c =? 0) then Ok (ca_priority_override c)
  else
    t ← arith 32 (Z.shiftl 1 24 * preference (ca_candidate_type c));
    l ← arith 32 (Z.shiftl 1 8 * local_preference c);
    tl ← add32 t l;
    r ← sub32 256 (ca_component c);
    add32 tl r.

(** The [crc] crate's CRC-32/ISCSI is a parameter. *)
Context (crc32_iscsi : bytes -> Z).

Definition foundation (c : CandidateBase) : str :=
  match ca_foundation_override c with
  | [] =>
      let buf := CandidateType_to_string (ca_candidate_type c) ++ ca_address c
                 ++ NetworkType_to_string (ca_network_type c) in
      print_int (crc32_iscsi (utf8_encode buf))
  | f => f
  end.

(** [Candidate::marshal] *)
Definition candidate_marshal (c : CandidateBase) : res IceError str :=
  priority ← candidate_priority c;
  let val := foundation c ++ chars " " ++ print_int (ca_component c) ++ chars " "
    ++ network_short (ca_network_type c) ++ chars " " ++ print_int priority ++ chars " "
    ++ ca_address c ++ chars " " ++ print_int (ca_port c) ++ chars " typ "
    ++ CandidateType_to_string (ca_candidate_type c) in
  Ok (match ca_related_address c with
      | Some r => val ++ chars " raddr " ++ ra_address r ++ chars " rport " ++ print_int (ra_port r)
      | None => val
      end).
End candidate.

Definition candidate_equal (c other : CandidateBase) : bool :=
  bool_decide (ca_network_type c = ca_network_type other)
  && bool_decide (ca_candidate_type c = ca_candidate_type other)
  && bool_decide (ca_address c = ca_address other)
  && (ca_port c =? ca_port other)
  && bool_decide (ca_related_address c = ca_related_address other).

(** [seen], at the time [now] *)
Definition candidate_seen (outbound : bool) (now : Z) (c : CandidateBase) : CandidateBase :=
  if outbound then c <| ca_last_sent := wrap 64 now |> else c <| ca_last_received := wrap 64 now |>.

Definition create_addr (ip : IpAddr) (port : Z) : SocketAddr := mkSocketAddr ip port.

Definition set_ip (ip : IpAddr) (c : CandidateBase) : res IceError CandidateBase :=
  network_type ← determine_network_type (ca_network c) ip;
  Ok (c <| ca_network_type := network_type |> <| ca_resolved_addr := create_addr ip (ca_port c) |>).

(** [ends_with] *)
Definition ends_with (p s : str) : bool := starts_with (rev p) (rev s).

Record CandidateBaseConfig := mkCandidateBaseConfig {
  cc_candidate_id : str;
  cc_network : str;
  cc_address : str;
  cc_port : Z;
  cc_component : Z;
  cc_priority : Z;
  cc_foundation : str;
  cc_conn : bool
}.

(** [CandidateHostConfig::new_candidate_host]; [random_id] is what
    [generate_cand_id] gives. *)
Definition new_candidate_host (config : CandidateBaseConfig) (random_id : str) : res IceError CandidateBase :=
  let candidate_id := match cc_candidate_id config with [] => random_id | id => id end in
  let c := mkCandidateBase candidate_id Udp4 Host (cc_component config) (cc_address config) (cc_port config)
    None unspecified_addr 0 0 (cc_conn config) false (cc_foundation config) (cc_priority config)
    (cc_network config) in
  if negb (ends_with (chars ".local") (cc_address config)) then
    match parse_ip (cc_address config) with
    | Some ip => set_ip ip c
    | None => Err IceParseIp
    end
  else Ok c.

Definition parse_field {A} (r : res IntErrorKind A) : res IceError A :=
  match r with Ok a => Ok a | Err k => Err (IceParseInt k) | Panic => Panic | OutOfFuel => OutOfFuel end.

(** [unmarshal_candidate] *)
Definition unmarshal_candidate (raw random_id : str) : res IceError CandidateBase :=
  let split := split_whitespace raw in
  if (length split <? 8)%nat
  then Err (IceOther (chars "ErrAttributeTooShortIceCandidate (" ++ print_int (Z.of_nat (length split)) ++ chars ")"))
  else
    foundation ← index split 0;
    component ← index split 1;
    component ← parse_field (parse_unsigned 16 component);
    network ← index split 2;
    priority ← index split 3;
    priority ← parse_field (parse_unsigned 32 priority);
    address ← index split 4;
    port ← index split 5;
    port ← parse_field (parse_unsigned 16 port);
    typ ← index split 7;
    _ ← (if (8 <? length split)%nat then
           let split2 := drop 8 split in
           first ← index split2 0;
           if bool_decide (first = chars "raddr") && (length split2 <? 4)%nat
           then Err (IceOther (chars "ErrParseRelatedAddr: incorrect length")) else Ok tt
         else Ok tt);
    if bool_decide (typ = chars "host")
    then new_candidate_host (mkCandidateBaseConfig [] network address port component priority foundation false) random_id
    else Err (IceOther (chars "ErrUnknownCandidateType (" ++ typ ++ chars ")")).

(** * Pairs *)
Inductive CandidatePairState : Type := PairUnspecified | Waiting | InProgress | Failed | Succeeded.

#[export] Instance CandidatePairState_eq_dec : EqDecision CandidatePairState.
Proof. solve_decision. Defined.

Definition CandidatePairState_from (v : Z) : CandidatePairState :=
  if v =? 1 then Waiting else if v =? 2 then InProgress else if v =? 3 then Failed
  else if v =? 4 then Succeeded else PairUnspecified.

Definition CandidatePairState_to_u8 (s : CandidatePairState) : Z :=
  match s with PairUnspecified => 0 | Waiting => 1 | InProgress => 2 | Failed => 3 | Succeeded => 4 end.

Definition CandidatePairState_to_string (s : CandidatePairState) : str :=
  match s with
  | Waiting => chars "waiting" | InProgress => chars "in-progress" | Failed => chars "failed"
  | Succeeded => chars "succeeded" | PairUnspecified => chars "unspecified"
  end.

(** The candidates of a pair are references to the store of the agent. *)
Record CandidatePair := mkCandidatePair {
  cp_ice_role_controlling : bool;
  cp_remote : nat;
  cp_local : nat;
  cp_binding_request_count : Z;
  cp_state : CandidatePairState;
  cp_nominated : bool
}.

#[export] Instance CandidatePair_settable : Settable CandidatePair := fun p =>
  mkCandidatePair (cp_ice_role_controlling p) (cp_remote p) (cp_local p) (cp_binding_request_count p)
    (cp_state p) (cp_nominated p).

Definition CandidatePair_new (local remote : nat) (controlling : bool) : CandidatePair :=
  mkCandidatePair controlling remote local 0 Waiting false.

#[export] Instance CandidatePair_inhabited : Inhabited CandidatePair := populate (CandidatePair_new 0 0 false).

(** [CandidatePair::priority], from the priorities of its two candidates *)
Definition pair_priority {P : Profile} {E} (controlling : bool) (local remote : Z) : res E Z :=
  let '(g, d) := if controlling then (local, remote) else (remote, local) in
  m ← arith 64 ((Z.shiftl 1 32 - 1) * Z.min g d);
  t ← arith 64 (2 * Z.max g d);
  s ← arith 64 (m + t);
  arith 64 (s + (if g >? d then 1 else 0)).

(** * The attributes of ICE *)
Definition TIE_BREAKER_SIZE : nat := 8.
Definition PRIORITY_SIZE : nat := 4.

Definition put_u64 (z : Z) : bytes := put_u32 (z / 2 ^ 32) ++ put_u32 z.

Section attributes.
Context {P : Profile}.

Definition TieBreaker_add_to_as (tie_breaker : Z) (t : AttrType) : SM unit := add t (put_u64 tie_breaker).

Definition TieBreaker_get_from_as (m : Message) (t : AttrType) : res StunError Z :=
  v ← get m t;
  _ ← check_size (length v) TIE_BREAKER_SIZE;
  '(hi, r) ← get_u32 v;
  '(lo, _) ← get_u32 r;
  Ok (hi * 2 ^ 32 + lo).

Definition AttrControlled_add_to (tie_breaker : Z) : SM unit := TieBreaker_add_to_as tie_breaker ATTR_ICE_CONTROLLED.
Definition AttrControlled_get_from (m : Message) : res StunError Z := TieBreaker_get_from_as m ATTR_ICE_CONTROLLED.
Definition AttrControlling_add_to (tie_breaker : Z) : SM unit := TieBreaker_add_to_as tie_breaker ATTR_ICE_CONTROLLING.
Definition AttrControlling_get_from (m : Message) : res StunError Z := TieBreaker_get_from_as m ATTR_ICE_CONTROLLING.

Inductive Role : Type := Controlling | Controlled | RoleUnspecified.

Definition Role_to_string (r : Role) : str :=
  match r with
  | Controlling => chars "controlling" | Controlled => chars "controlled" | RoleUnspecified => chars "unspecified"
  end.

Definition Role_from (raw : str) : Role :=
  if bool_decide (raw = chars "controlling") then Controlling
  else if bool_decide (raw = chars "controlled") then Controlled else RoleUnspecified.

Record AttrControl := mkAttrControl { ac_role : Role; ac_tie_breaker : Z }.

Definition AttrControl_add_to (a : AttrControl) : SM unit :=
  match ac_role a with
  | Controlling => TieBreaker_add_to_as (ac_tie_breaker a) ATTR_ICE_CONTROLLING
  | _ => TieBreaker_add_to_as (ac_tie_breaker a) ATTR_ICE_CONTROLLED
  end.

Definition AttrControl_get_from (m : Message) : res StunError AttrControl :=
  if contains m ATTR_ICE_CONTROLLING then mkAttrControl Controlling <$> TieBreaker_get_from_as m ATTR_ICE_CONTROLLING
  else if contains m ATTR_ICE_CONTROLLED then mkAttrControl Controlled <$> TieBreaker_get_from_as m ATTR_ICE_CONTROLLED
  else Err ErrAttributeNotFound.

Definition PriorityAttr_add_to (priority : Z) : SM unit := add ATTR_PRIORITY (put_u32 priority).

Definition UseCandidateAttr_add_to : SM unit := add ATTR_USE_CANDIDATE [].
End attributes.
