(* ===== verification/IceAgent.v ===== *)
(** The ICE agent: its state and the operations on it ([ice/agent/mod.rs],
    [ice/agent/agent_internal.rs], [ice/agent/agent_transport.rs],
    [ice/util/mod.rs], [ice/state/mod.rs]); the selectors are in [IceSelector].

    The candidates and the pairs are shared behind [Arc]s: they live in two stores
    of the state, and the lists of candidates, the checklist, the selected and the
    nominated pair hold references to them.  Every operation runs as one step; the
    clocks are set before it. *)
From Stdlib Require Import Strings.String.
From S2P Require Import Prelude Stun StunAttrs Text IpText Buffer IceCandidate.

(** * Connection and gathering states *)
Inductive ConnectionState : Type :=
  | ConnUnspecified | ConnNew | Checking | Connected | Completed | ConnFailed | Disconnected | ConnClosed.

#[export] Instance ConnectionState_eq_dec : EqDecision ConnectionState.
Proof. solve_decision. Defined.

Definition ConnectionState_from (v : Z) : ConnectionState :=
  if v =? 1 then ConnNew else if v =? 2 then Checking else if v =? 3 then Connected else if v =? 4 then Completed
  else if v =? 5 then ConnFailed else if v =? 6 then Disconnected else if v =? 7 then ConnClosed else ConnUnspecified.

Definition ConnectionState_to_string (s : ConnectionState) : str :=
  chars match s with
        | ConnUnspecified => "Unspecified" | ConnNew => "New" | Checking => "Checking" | Connected => "Connected"
        | Completed => "Completed" | ConnFailed => "Failed" | Disconnected => "Disconnected" | ConnClosed => "Closed"
        end%string.

Inductive GatheringState : Type := GatheringUnspecified | GatheringNew | Gathering | GatheringComplete.

#[export] Instance GatheringState_eq_dec : EqDecision GatheringState.
Proof. solve_decision. Defined.

Definition GatheringState_from (v : Z) : GatheringState :=
  if v =? 1 then GatheringNew else if v =? 2 then Gathering else if v =? 3 then GatheringComplete else GatheringUnspecified.

Definition GatheringState_to_string (s : GatheringState) : str :=
  chars match s with
        | GatheringNew => "new" | Gathering => "gathering" | GatheringComplete => "complete"
        | GatheringUnspecified => "unspecified"
        end%string.

(** * What the code calls: the [crc] and [ring] crates, the random source (its
    [n]-th transaction id), and the sockets (whether the socket of a candidate
    takes a datagram). *)
Class IceEnv := {
  ice_crc32 : bytes -> Z;
  ice_crc32_iscsi : bytes -> Z;
  ice_hmac_sha1 : bytes -> bytes -> bytes;
  ice_transaction_id : nat -> bytes;
  ice_send_to : nat -> bytes -> SocketAddr -> bool
}.

(** * The state *)

(** Times and durations are nanoseconds. *)
Definition millis (n : Z) : Z := n * 1000000.
Definition secs (n : Z) : Z := n * 1000000000.

Definition DURATION_MAX : Z := (2 ^ 64 - 1) * 1000000000 + 999999999.

(** [Duration + Duration] *)
Definition duration_add {E} (a b : Z) : res E Z := if a + b <=? DURATION_MAX then Ok (a + b) else Panic.

(** [checked_duration_since(t).unwrap_or(0)] and [duration_since(t).unwrap_or(0)] *)
Definition since (now t : Z) : Z := Z.max 0 (now - t).

Definition MAX_BINDING_REQUEST_TIMEOUT : Z := millis 4000.
Definition MAX_BUFFER_SIZE : Z := 1000 * 1000.
Definition DEFAULT_CHECK_INTERVAL : Z := millis 200.

Record BindingRequest := mkBindingRequest {
  br_timestamp : Z;
  br_transaction_id : bytes;
  br_destination : SocketAddr;
  br_is_use_candidate : bool
}.

Record UfragPwd := mkUfragPwd {
  up_local_ufrag : bytes;
  up_local_pwd : bytes;
  up_remote_ufrag : bytes;
  up_remote_pwd : bytes
}.

#[export] Instance UfragPwd_settable : Settable UfragPwd := fun u =>
  mkUfragPwd (up_local_ufrag u) (up_local_pwd u) (up_remote_ufrag u) (up_remote_pwd u).

Record AgentConn := mkAgentConn {
  ac_selected_pair : option nat;
  ac_checklist : list nat;
  ac_buffer : BufferInternal;
  ac_bytes_received : Z;
  ac_bytes_sent : Z;
  ac_done : bool
}.

#[export] Instance AgentConn_settable : Settable AgentConn := fun c =>
  mkAgentConn (ac_selected_pair c) (ac_checklist c) (ac_buffer c) (ac_bytes_received c) (ac_bytes_sent c) (ac_done c).

Definition AgentConn_new : AgentConn := mkAgentConn None [] (Buffer_new 0 MAX_BUFFER_SIZE) 0 0 false.

(** The fields that do not change after [init_with_defaults] *)
Record AgentLimits := mkAgentLimits {
  al_max_binding_requests : Z;
  al_host_acceptance_min_wait : Z;
  al_srflx_acceptance_min_wait : Z;
  al_prflx_acceptance_min_wait : Z;
  al_relay_acceptance_min_wait : Z;
  al_disconnected_timeout : Z;
  al_failed_timeout : Z;
  al_keepalive_interval : Z;
  al_check_interval : Z
}.

(** What the agent does to the outside: datagrams, and what it tells the handlers. *)
Inductive IceOutput : Type :=
  | Sent (local : nat) (raw : bytes) (dst : SocketAddr)
  | StateChanged (s : ConnectionState)
  | PairChanged
  | CandidateFound (c : option nat)
  | SocketClosed (c : nat).

(** A sender that was taken is [false]; [ai_force_contact]: the slot of the
    channel of forced contacts is filled. *)
Record AgentInternal := mkAgentInternal {
  ai_candidates : list CandidateBase;
  ai_pairs : list CandidatePair;
  ai_instant : Z;
  ai_system : Z;
  ai_ids : nat;
  ai_out : list IceOutput;
  ai_on_connected_tx : bool;
  ai_done_tx : bool;
  ai_force_contact : bool;
  ai_chan_candidate_tx : bool;
  ai_chan_candidate_pair_tx : bool;
  ai_chan_state_tx : bool;
  ai_tie_breaker : Z;
  ai_is_controlling : bool;
  ai_lite : bool;
  ai_start_time : Z;
  ai_nominated_pair : option nat;
  ai_connection_state : ConnectionState;
  ai_started_ch_tx : bool;
  ai_ufrag_pwd : UfragPwd;
  ai_local_candidates : gmap NetworkType (list nat);
  ai_remote_candidates : gmap NetworkType (list nat);
  ai_pending_binding_requests : list BindingRequest;
  ai_agent_conn : AgentConn;
  ai_limits : AgentLimits
}.

#[export] Instance AgentInternal_settable : Settable AgentInternal := fun a =>
  mkAgentInternal (ai_candidates a) (ai_pairs a) (ai_instant a) (ai_system a) (ai_ids a) (ai_out a)
    (ai_on_connected_tx a) (ai_done_tx a) (ai_force_contact a) (ai_chan_candidate_tx a) (ai_chan_candidate_pair_tx a)
    (ai_chan_state_tx a) (ai_tie_breaker a) (ai_is_controlling a) (ai_lite a) (ai_start_time a) (ai_nominated_pair a)
    (ai_connection_state a) (ai_started_ch_tx a) (ai_ufrag_pwd a) (ai_local_candidates a) (ai_remote_candidates a)
    (ai_pending_binding_requests a) (ai_agent_conn a) (ai_limits a).

Abbreviation AM A := (ST AgentInternal IceError A).

(** * Access to the stores *)
Definition cand_of (a : AgentInternal) (c : nat) : CandidateBase := ai_candidates a !!! c.
Definition pair_of (a : AgentInternal) (p : nat) : CandidatePair := ai_pairs a !!! p.

Definition on_candidate (c : nat) (f : CandidateBase -> CandidateBase) : AM unit :=
  st_modify (fun a => a <| ai_candidates ::= alter f c |>).
Definition on_pair (p : nat) (f : CandidatePair -> CandidatePair) : AM unit :=
  st_modify (fun a => a <| ai_pairs ::= alter f p |>).
Definition on_conn (f : AgentConn -> AgentConn) : AM unit := st_modify (fun a => a <| ai_agent_conn ::= f |>).
Definition emit (o : IceOutput) : AM unit := st_modify (fun a => a <| ai_out ::= fun l => l ++ [o] |>).

Definition get_selected_pair (a : AgentInternal) : option nat := ac_selected_pair (ai_agent_conn a).
Definition checklist (a : AgentInternal) : list nat := ac_checklist (ai_agent_conn a).

(** A fallible reading of the state *)
Definition st_lift_get {A} (f : AgentInternal -> res IceError A) : AM A := fun a => (f a, a).

Section agent.
Context {P : Profile} {env : IceEnv}.

(** [CandidatePair::priority] *)
Definition CandidatePair_priority {E} (a : AgentInternal) (p : nat) : res E Z :=
  let pr := pair_of a p in
  l ← candidate_priority (cand_of a (cp_local pr));
  r ← candidate_priority (cand_of a (cp_remote pr));
  pair_priority (cp_ice_role_controlling pr) l r.

(** The loops of [get_best_available_candidate_pair] and
    [get_best_valid_candidate_pair]: the first pair of the highest priority among
    those of the right state. *)
Fixpoint best_pair {E} (a : AgentInternal) (ok : CandidatePairState -> bool) (best : option nat) (l : list nat) :
    res E (option nat) :=
  match l with
  | [] => Ok best
  | p :: l' =>
      if negb (ok (cp_state (pair_of a p))) then best_pair a ok best l'
      else
        match best with
        | None => best_pair a ok (Some p) l'
        | Some b =>
            bp ← CandidatePair_priority a b;
            pp ← CandidatePair_priority a p;
            best_pair a ok (if bp <? pp then Some p else Some b) l'
        end
  end.

Definition get_best_available_candidate_pair : AM (option nat) := fun a =>
  (best_pair a (fun s => negb (bool_decide (s = Failed))) None (checklist a), a).

Definition get_best_valid_candidate_pair : AM (option nat) := fun a =>
  (best_pair a (fun s => bool_decide (s = Succeeded)) None (checklist a), a).

(** * Candidates *)

(** [seen] at the system's time *)
Definition seen (c : nat) (outbound : bool) : AM unit :=
  now ← st_get ai_system;
  on_candidate c (candidate_seen outbound now).

(** [write_to]: whether the datagram was taken *)
Definition write_to (local : nat) (raw : bytes) (dst : nat) : AM bool :=
  c ← st_get (fun a => cand_of a local);
  addr ← st_get (fun a => ca_resolved_addr (cand_of a dst));
  if ca_conn c then
    if ice_send_to local raw addr then
      _ ← emit (Sent local raw addr);
      _ ← seen local true;
      mret true
    else mret false
  else
    _ ← seen local true;
    mret true.

(** [Candidate::close]: whether it was open *)
Definition candidate_close (c : nat) : AM bool :=
  cand ← st_get (fun a => cand_of a c);
  if negb (ca_open cand) then mret false
  else
    _ ← on_candidate c (fun x => x <| ca_open := false |>);
    _ ← st_when (ca_conn cand) (emit (SocketClosed c));
    mret true.

Definition close_all (cs : list nat) : AM unit :=
  st_for cs (fun c => _ ← candidate_close c; mret tt).

Definition delete_all_candidates : AM unit :=
  local ← st_get ai_local_candidates;
  _ ← close_all (concat (map_to_list local).*2);
  _ ← st_modify (fun a => a <| ai_local_candidates := ∅ |>);
  remote ← st_get ai_remote_candidates;
  _ ← close_all (concat (map_to_list remote).*2);
  st_modify (fun a => a <| ai_remote_candidates := ∅ |>).

(** * Connection state and selected pair *)
Definition update_connection_state (new_state : ConnectionState) : AM unit :=
  state ← st_get ai_connection_state;
  if bool_decide (state = new_state) then mret tt
  else
    _ ← st_when (bool_decide (new_state = ConnFailed)) delete_all_candidates;
    _ ← st_modify (fun a => a <| ai_connection_state := new_state |>);
    tx ← st_get ai_chan_state_tx;
    st_when (tx : bool) (emit (StateChanged new_state)).

Definition set_selected_pair (p : option nat) : AM unit :=
  match p with
  | Some p =>
      _ ← on_pair p (fun x => x <| cp_nominated := true |>);
      _ ← on_conn (fun c => c <| ac_selected_pair := Some p |>);
      _ ← update_connection_state Connected;
      tx ← st_get ai_chan_candidate_pair_tx;
      _ ← st_when (tx : bool) (emit PairChanged);
      st_modify (fun a => a <| ai_on_connected_tx := false |>)
  | None => on_conn (fun c => c <| ac_selected_pair := None |>)
  end.

(** * Pairs *)
Definition add_pair (local remote : nat) : AM unit :=
  st_modify (fun a =>
    a <| ai_pairs ::= fun ps => ps ++ [CandidatePair_new local remote (ai_is_controlling a)] |>
      <| ai_agent_conn ::= fun c => c <| ac_checklist ::= fun l => l ++ [length (ai_pairs a)] |> |>).

Definition pair_matches (a : AgentInternal) (local remote p : nat) : bool :=
  candidate_equal (cand_of a (cp_local (pair_of a p))) (cand_of a local)
  && candidate_equal (cand_of a (cp_remote (pair_of a p))) (cand_of a remote).

Definition find_pair (local remote : nat) (a : AgentInternal) : option nat :=
  snd <$> list_find (fun p => pair_matches a local remote p = true) (checklist a).

(** [impl PartialEq for CandidatePair] *)
Definition CandidatePair_eq (a : AgentInternal) (p q : nat) : bool :=
  pair_matches a (cp_local (pair_of a q)) (cp_remote (pair_of a q)) p.

(** The channel holds one message: a second [try_send] does nothing. *)
Definition request_connectivity_check : AM unit := st_modify (fun a => a <| ai_force_contact := true |>).

Definition candidates_of (m : gmap NetworkType (list nat)) (t : NetworkType) : list nat := default [] (m !! t).

(** A new [Arc<dyn Candidate>] *)
Definition new_arc (c : CandidateBase) : AM nat := fun a =>
  (Ok (length (ai_candidates a)), a <| ai_candidates ::= fun l => l ++ [c] |>).

Definition add_remote_candidate (c : nat) : AM unit :=
  network_type ← st_get (fun a => ca_network_type (cand_of a c));
  dup ← st_get (fun a => existsb (fun x => candidate_equal (cand_of a x) (cand_of a c))
                           (candidates_of (ai_remote_candidates a) network_type));
  if (dup : bool) then mret tt
  else
    _ ← st_modify (fun a => a <| ai_remote_candidates ::= fun m => <[network_type := candidates_of m network_type ++ [c]]> m |>);
    local_cands ← st_get (fun a => candidates_of (ai_local_candidates a) network_type);
    _ ← st_for local_cands (fun cand => add_pair cand c);
    request_connectivity_check.

(** [start_candidate]; the task that reads from the socket is [receiving]. *)
Definition start_candidate (c : nat) : AM unit := on_candidate c (fun x => x <| ca_open := true |>).

Definition add_candidate (c : nat) : AM unit :=
  _ ← start_candidate c;
  network_type ← st_get (fun a => ca_network_type (cand_of a c));
  dup ← st_get (fun a => existsb (fun x => candidate_equal (cand_of a x) (cand_of a c))
                           (candidates_of (ai_local_candidates a) network_type));
  if (dup : bool) then (_ ← candidate_close c; mret tt)
  else
    _ ← st_modify (fun a => a <| ai_local_candidates ::= fun m => <[network_type := candidates_of m network_type ++ [c]]> m |>);
    remote_cands ← st_get (fun a => candidates_of (ai_remote_candidates a) network_type);
    _ ← st_for remote_cands (fun cand => add_pair c cand);
    _ ← request_connectivity_check;
    tx ← st_get ai_chan_candidate_tx;
    st_when (tx : bool) (emit (CandidateFound (Some c))).

Definition find_remote_candidate (network_type : NetworkType) (addr : SocketAddr) (a : AgentInternal) : option nat :=
  snd <$> list_find (fun c => ca_address (cand_of a c) = ip_to_string (sa_ip addr) /\ ca_port (cand_of a c) = sa_port addr)
            (candidates_of (ai_remote_candidates a) network_type).

(** * Requests and replies *)
Definition send_stun (msg : Message) (local remote : nat) : AM unit :=
  _ ← write_to local (m_raw msg) remote; mret tt.

Definition fresh_request (filter_time : Z) (b : BindingRequest) : bool :=
  filter_time - br_timestamp b <? MAX_BINDING_REQUEST_TIMEOUT.

Definition invalidate_pending_binding_requests (filter_time : Z) : AM unit :=
  st_modify (fun a => a <| ai_pending_binding_requests ::= filter (fun b => fresh_request filter_time b = true) |>).

Definition send_binding_request (m : Message) (local remote : nat) : AM unit :=
  now ← st_get ai_instant;
  _ ← invalidate_pending_binding_requests now;
  _ ← st_modify (fun a => a <| ai_pending_binding_requests ::= fun l =>
        l ++ [mkBindingRequest now (m_transaction_id m) (ca_resolved_addr (cand_of a remote))
                (contains m ATTR_USE_CANDIDATE)] |>);
  send_stun m local remote.

(** [Message::new] and [build] *)
Definition build_message (setters : list (SM unit)) : AM (option Message) := fun a =>
  match build setters Message_new with
  | (Ok _, m) => (Ok (Some m), a)
  | (Err _, _) => (Ok None, a)
  | (Panic, _) => (Panic, a)
  | (OutOfFuel, _) => (OutOfFuel, a)
  end.

Definition short_term_integrity (password : bytes) : SM unit :=
  add_to (Setter := MessageIntegrity_setter ice_hmac_sha1) (new_short_term_integrity password).

Definition FINGERPRINT : SM unit := Fingerprint_add_to ice_crc32.

Definition send_binding_success (m : Message) (local remote : nat) : AM unit :=
  addr ← st_get (fun a => ca_resolved_addr (cand_of a remote));
  local_pwd ← st_get (fun a => up_local_pwd (ai_ufrag_pwd a));
  out ← build_message
    [add_to m; add_to BINDING_SUCCESS; add_to (mkXorMappedAddress (sa_ip addr) (sa_port addr));
     short_term_integrity local_pwd; FINGERPRINT];
  match out with
  | None => mret tt
  | Some out => send_stun out local remote
  end.

(** The removal of the first pending request of the transaction *)
Fixpoint remove_request (id : bytes) (l : list BindingRequest) : option (BindingRequest * list BindingRequest) :=
  match l with
  | [] => None
  | b :: l' =>
      if bool_decide (br_transaction_id b = id) then Some (b, l')
      else match remove_request id l' with Some (b', rest) => Some (b', b :: rest) | None => None end
  end.

Definition handle_inbound_binding_success (id : bytes) : AM (option BindingRequest) :=
  now ← st_get ai_instant;
  _ ← invalidate_pending_binding_requests now;
  pending ← st_get ai_pending_binding_requests;
  match remove_request id pending with
  | Some (b, rest) => _ ← st_modify (fun a => a <| ai_pending_binding_requests := rest |>); mret (Some b)
  | None => mret None
  end.

(** [ice/util/mod.rs] *)
Definition assert_inbound_username (m : Message) (expected_username : bytes) : res StunError bool :=
  username ← TextAttribute_get_from_as m ATTR_USERNAME;
  Ok (bool_decide (ta_text username = expected_username)).

Definition assert_inbound_message_integrity (m : Message) (key : bytes) : res StunError unit * Message :=
  MessageIntegrity_check ice_hmac_sha1 (mkMessageIntegrity key) m.

Definition set_remote_credentials (remote_ufrag remote_pwd : bytes) : AM unit :=
  match remote_ufrag, remote_pwd with
  | [], _ => st_raise ErrRemoteUfragEmpty
  | _, [] => st_raise ErrRemotePwdEmpty
  | _, _ => st_modify (fun a => a <| ai_ufrag_pwd ::= fun u => u <| up_remote_ufrag := remote_ufrag |>
                                                              <| up_remote_pwd := remote_pwd |> |>)
  end.

Definition validate_non_stun_traffic (local : nat) (remote : SocketAddr) : AM bool :=
  rc ← st_get (fun a => find_remote_candidate (ca_network_type (cand_of a local)) remote a);
  match rc with
  | Some c => _ ← seen c false; mret true
  | None => mret false
  end.

(** [AgentInternal::close] *)
Definition AgentInternal_close : AM unit :=
  done_tx ← st_get ai_done_tx;
  if negb done_tx then st_raise ErrClosed
  else
    _ ← st_modify (fun a => a <| ai_done_tx := false |>);
    _ ← delete_all_candidates;
    _ ← st_modify (fun a => a <| ai_started_ch_tx := false |>);
    _ ← on_conn (fun c => c <| ac_buffer ::= fun b => snd (buffer_close b) |>);
    _ ← update_connection_state ConnClosed;
    _ ← st_modify (fun a => a <| ai_chan_candidate_tx := false |> <| ai_chan_candidate_pair_tx := false |>
                              <| ai_chan_state_tx := false |>);
    on_conn (fun c => c <| ac_done := true |>).

(** Whether the selected pair is still valid; the connection state follows the
    time since its remote candidate was heard. *)
Definition validate_selected_pair : AM bool :=
  selected ← st_get get_selected_pair;
  match selected with
  | None => mret false
  | Some p =>
      disconnected_time ← st_get (fun a => since (ai_system a) (ca_last_received (cand_of a (cp_remote (pair_of a p)))));
      limits ← st_get ai_limits;
      total_time_to_failure ← st_lift (
        if negb (al_failed_timeout limits =? 0)
        then duration_add (al_failed_timeout limits) (al_disconnected_timeout limits) else Ok (al_failed_timeout limits));
      _ ← update_connection_state
        (if negb (total_time_to_failure =? 0) && (disconnected_time >? total_time_to_failure) then ConnFailed
         else if negb (al_disconnected_timeout limits =? 0) && (disconnected_time >? al_disconnected_timeout limits)
         then Disconnected else Connected);
      mret true
  end.
End agent.

(** * The transport ([impl Conn for AgentConn]) *)
Inductive ConnError : Type := ConnIsClosed | IceWriteStunMessage | SendFailed | ReadFailed (e : UtilError).

Section transport.
Context {P : Profile} {env : IceEnv}.

Definition CandidatePair_write (p : nat) (b : bytes) : AM bool :=
  local ← st_get (fun a => cp_local (pair_of a p));
  remote ← st_get (fun a => cp_remote (pair_of a p));
  write_to local b remote.

(** [send]: the bytes taken, or why there are none. *)
Definition AgentConn_send (buf : bytes) : AM (ConnError + Z) :=
  closed ← st_get (fun a => ac_done (ai_agent_conn a));
  if (closed : bool) then mret (inl ConnIsClosed)
  else if is_message buf then mret (inl IceWriteStunMessage)
  else
    selected ← st_get get_selected_pair;
    pair ← match selected with Some p => mret (Some p) | None => get_best_available_candidate_pair end;
    match pair with
    | None =>
        _ ← on_conn (fun c => c <| ac_bytes_sent ::= fun n => wrap 64 (n + Z.of_nat (length buf)) |>);
        mret (inr 0)
    | Some p =>
        conn ← st_get (fun a => ca_conn (cand_of a (cp_local (pair_of a p))));
        ok ← CandidatePair_write p buf;
        if (ok : bool) then
          _ ← on_conn (fun c => c <| ac_bytes_sent ::= fun n => wrap 64 (n + Z.of_nat (length buf)) |>);
          mret (inr (if (conn : bool) then Z.of_nat (length buf) else 0))
        else mret (inl SendFailed)
    end.

(** [recv]: one attempt of the read of the buffer; [None] waits. *)
Definition AgentConn_recv (buf : bytes) : AM (option ((ConnError + Z) * bytes)) := fun a =>
  if ac_done (ai_agent_conn a) then (Ok (Some (inl ConnIsClosed, buf)), a)
  else
    let '(r, b) := read_attempt buf (ac_buffer (ai_agent_conn a)) in
    let a := a <| ai_agent_conn ::= fun c => c <| ac_buffer := b |> |> in
    match r with
    | Ok None => (Ok None, a)
    | Ok (Some (Ok n, buf')) =>
        (Ok (Some (inr n, buf')), a <| ai_agent_conn ::= fun c => c <| ac_bytes_received ::= fun m => wrap 64 (m + n) |> |>)
    | Ok (Some (Err e, buf')) => (Ok (Some (inl (ReadFailed e), buf')), a)
    | Ok (Some (Panic, _)) | Panic => (Panic, a)
    | Ok (Some (OutOfFuel, _)) | OutOfFuel => (OutOfFuel, a)
    | Err e => (Ok (Some (inl (ReadFailed e), buf)), a)
    end.

Definition AgentConn_remote_addr (a : AgentInternal) : option SocketAddr :=
  (fun p => ca_resolved_addr (cand_of a (cp_remote (pair_of a p)))) <$> get_selected_pair a.

Definition AgentConn_local_addr (a : AgentInternal) : option SocketAddr :=
  (fun p => ca_resolved_addr (cand_of a (cp_local (pair_of a p)))) <$> get_selected_pair a.
End transport.
