(* ===== verification/IceSelector.v ===== *)
(** The selectors of the ICE agent, what it does with a datagram and with a tick
    of its task, and the agent as a system of events ([ice/agent/agent_selector.rs],
    [ice/agent/agent_internal.rs]). *)
From Stdlib Require Import Strings.String.
From S2P Require Import Prelude Utf8 Stun StunAttrs Text IpText Buffer IceCandidate IceAgent.

Section selector.
Context {P : Profile} {env : IceEnv}.

(** [TransactionId::new] *)
Definition new_transaction_id : AM bytes :=
  n ← st_get ai_ids;
  _ ← st_modify (fun a => a <| ai_ids := S n |>);
  mret (ice_transaction_id n).

(** [remote_ufrag + ":" + local_ufrag] *)
Definition outbound_username (u : UfragPwd) : bytes := up_remote_ufrag u ++ bytes_of_string ":" ++ up_local_ufrag u.
Definition inbound_username (u : UfragPwd) : bytes := up_local_ufrag u ++ bytes_of_string ":" ++ up_remote_ufrag u.

Definition is_nominatable (c : nat) (a : AgentInternal) : bool :=
  match ca_candidate_type (cand_of a c) with
  | Host => since (ai_instant a) (ai_start_time a) >? al_host_acceptance_min_wait (ai_limits a)
  | _ => false
  end.

(** * Binding requests *)
Definition controlling_ping_candidate (local remote : nat) : AM unit :=
  u ← st_get ai_ufrag_pwd;
  id ← new_transaction_id;
  tie_breaker ← st_get ai_tie_breaker;
  priority ← st_lift_get (fun a => candidate_priority (cand_of a local));
  msg ← build_message
    [add_to BINDING_REQUEST; TransactionId_add_to id; add_to (TextAttribute_new ATTR_USERNAME (outbound_username u));
     AttrControlling_add_to tie_breaker; PriorityAttr_add_to priority;
     short_term_integrity (up_remote_pwd u); FINGERPRINT];
  match msg with
  | None => mret tt
  | Some msg => send_binding_request msg local remote
  end.

Definition controlled_ping_candidate (local remote : nat) : AM unit :=
  u ← st_get ai_ufrag_pwd;
  id ← new_transaction_id;
  tie_breaker ← st_get ai_tie_breaker;
  priority ← st_lift_get (fun a => candidate_priority (cand_of a local));
  msg ← build_message
    [add_to BINDING_REQUEST; TransactionId_add_to id; add_to (TextAttribute_new ATTR_USERNAME (outbound_username u));
     AttrControlled_add_to tie_breaker; PriorityAttr_add_to priority;
     short_term_integrity (up_remote_pwd u); FINGERPRINT];
  match msg with
  | None => mret tt
  | Some msg => send_binding_request msg local remote
  end.

Definition ping_candidate (local remote : nat) : AM unit :=
  controlling ← st_get ai_is_controlling;
  if (controlling : bool) then controlling_ping_candidate local remote else controlled_ping_candidate local remote.

Definition nominate_pair : AM unit :=
  nominated ← st_get ai_nominated_pair;
  match nominated with
  | None => mret tt
  | Some p =>
      u ← st_get ai_ufrag_pwd;
      id ← new_transaction_id;
      tie_breaker ← st_get ai_tie_breaker;
      local ← st_get (fun a => cp_local (pair_of a p));
      remote ← st_get (fun a => cp_remote (pair_of a p));
      priority ← st_lift_get (fun a => candidate_priority (cand_of a local));
      msg ← build_message
        [add_to BINDING_REQUEST; TransactionId_add_to id; add_to (TextAttribute_new ATTR_USERNAME (outbound_username u));
         UseCandidateAttr_add_to; AttrControlling_add_to tie_breaker; PriorityAttr_add_to priority;
         short_term_integrity (up_remote_pwd u); FINGERPRINT];
      match msg with
      | None => mret tt
      | Some msg => send_binding_request msg local remote
      end
  end.

(** The first loop of [ping_all_candidates]: the states and the counters; the
    pairs to check. *)
Definition ping_pair (pairs : list (nat * nat)) (p : nat) : AM (list (nat * nat)) :=
  state ← st_get (fun a => cp_state (pair_of a p));
  if bool_decide (state = Waiting) || bool_decide (state = InProgress) then
    _ ← st_when (bool_decide (state = Waiting)) (on_pair p (fun x => x <| cp_state := InProgress |>));
    count ← st_get (fun a => cp_binding_request_count (pair_of a p));
    max ← st_get (fun a => al_max_binding_requests (ai_limits a));
    if (count >? max : bool) then
      _ ← on_pair p (fun x => x <| cp_state := Failed |>);
      mret pairs
    else
      _ ← on_pair p (fun x => x <| cp_binding_request_count ::= fun n => wrap 16 (n + 1) |>);
      local ← st_get (fun a => cp_local (pair_of a p));
      remote ← st_get (fun a => cp_remote (pair_of a p));
      mret (pairs ++ [(local, remote)])
  else mret pairs.

Definition ping_all_candidates : AM unit :=
  l ← st_get checklist;
  pairs ← st_fold l ping_pair [];
  st_for pairs (fun '(local, remote) => ping_candidate local remote).

Definition check_keepalive : AM unit :=
  selected ← st_get get_selected_pair;
  match selected with
  | None => mret tt
  | Some p =>
      local ← st_get (fun a => cp_local (pair_of a p));
      remote ← st_get (fun a => cp_remote (pair_of a p));
      last_sent ← st_get (fun a => since (ai_system a) (ca_last_sent (cand_of a local)));
      last_received ← st_get (fun a => since (ai_system a) (ca_last_received (cand_of a remote)));
      keepalive_interval ← st_get (fun a => al_keepalive_interval (ai_limits a));
      st_when (negb (keepalive_interval =? 0)
               && ((last_sent >? keepalive_interval) || (last_received >? keepalive_interval)))
        (ping_candidate local remote)
  end.

(** * The controlling selector *)
Definition controlling_start : AM unit :=
  st_modify (fun a => a <| ai_nominated_pair := None |> <| ai_start_time := ai_instant a |>).

Definition controlling_contact_candidates : AM unit :=
  nominated ← st_get ai_nominated_pair;
  selected ← st_get get_selected_pair;
  match selected with
  | Some _ =>
      valid ← validate_selected_pair;
      st_when valid check_keepalive
  | None =>
      match nominated with
      | Some _ => nominate_pair
      | None =>
          best ← get_best_valid_candidate_pair;
          has_nominated_pair ← st_get (fun a =>
            match best with
            | Some p => is_nominatable (cp_local (pair_of a p)) a && is_nominatable (cp_remote (pair_of a p)) a
            | None => false
            end);
          if (has_nominated_pair : bool) then
            best ← get_best_valid_candidate_pair;
            _ ← match best with
                | Some p =>
                    _ ← on_pair p (fun x => x <| cp_nominated := true |>);
                    st_modify (fun a => a <| ai_nominated_pair := Some p |>)
                | None => mret tt
                end;
            nominate_pair
          else ping_all_candidates
      end
  end.

Definition controlling_handle_success_response (m : Message) (local remote : nat) (remote_addr : SocketAddr) : AM unit :=
  pending ← handle_inbound_binding_success (m_transaction_id m);
  match pending with
  | None => mret tt
  | Some pending_request =>
      if negb (bool_decide (br_destination pending_request = remote_addr)) then mret tt
      else
        selected ← st_get get_selected_pair;
        found ← st_get (find_pair local remote);
        match found with
        | None => mret tt
        | Some p =>
            _ ← on_pair p (fun x => x <| cp_state := Succeeded |>);
            st_when (br_is_use_candidate pending_request && bool_decide (selected = None)) (set_selected_pair (Some p))
        end
  end.

Definition controlling_handle_binding_request (m : Message) (local remote : nat) : AM unit :=
  _ ← send_binding_success m local remote;
  found ← st_get (find_pair local remote);
  match found with
  | None => add_pair local remote
  | Some p =>
      state ← st_get (fun a => cp_state (pair_of a p));
      nominated ← st_get ai_nominated_pair;
      selected ← st_get get_selected_pair;
      st_when (bool_decide (state = Succeeded) && bool_decide (nominated = None) && bool_decide (selected = None))
        (best ← get_best_available_candidate_pair;
         match best with
         | None => mret tt
         | Some best_pair =>
             ok ← st_get (fun a => CandidatePair_eq a best_pair p && is_nominatable (cp_local (pair_of a p)) a
                                   && is_nominatable (cp_remote (pair_of a p)) a);
             st_when ok
               (_ ← st_modify (fun a => a <| ai_nominated_pair := Some p |>);
                nominate_pair)
         end)
  end.

(** * The controlled selector *)
Definition controlled_start : AM unit := mret tt.

Definition controlled_contact_candidates : AM unit :=
  lite ← st_get ai_lite;
  if (lite : bool) then (_ ← validate_selected_pair; mret tt)
  else
    selected ← st_get get_selected_pair;
    match selected with
    | Some _ =>
        valid ← validate_selected_pair;
        st_when valid check_keepalive
    | None => ping_all_candidates
    end.

Definition controlled_handle_success_response (m : Message) (local remote : nat) (remote_addr : SocketAddr) : AM unit :=
  pending ← handle_inbound_binding_success (m_transaction_id m);
  match pending with
  | None => mret tt
  | Some pending_request =>
      if negb (bool_decide (br_destination pending_request = remote_addr)) then mret tt
      else
        found ← st_get (find_pair local remote);
        match found with
        | None => mret tt
        | Some p => on_pair p (fun x => x <| cp_state := Succeeded |>)
        end
  end.

Definition controlled_handle_binding_request (m : Message) (local remote : nat) : AM unit :=
  found ← st_get (find_pair local remote);
  _ ← st_when (bool_decide (found = None)) (add_pair local remote);
  found ← st_get (find_pair local remote);
  match found with
  | None => mret tt
  | Some p =>
      if contains m ATTR_USE_CANDIDATE then
        state ← st_get (fun a => cp_state (pair_of a p));
        if bool_decide (state = Succeeded) then
          selected ← st_get get_selected_pair;
          _ ← st_when (bool_decide (selected = None)) (set_selected_pair (Some p));
          send_binding_success m local remote
        else ping_candidate local remote
      else
        _ ← send_binding_success m local remote;
        ping_candidate local remote
  end.

(** * The dispatch on the role *)
Definition start : AM unit :=
  controlling ← st_get ai_is_controlling;
  if (controlling : bool) then controlling_start else controlled_start.

Definition contact_candidates : AM unit :=
  controlling ← st_get ai_is_controlling;
  if (controlling : bool) then controlling_contact_candidates else controlled_contact_candidates.

Definition handle_success_response (m : Message) (local remote : nat) (remote_addr : SocketAddr) : AM unit :=
  controlling ← st_get ai_is_controlling;
  if (controlling : bool) then controlling_handle_success_response m local remote remote_addr
  else controlled_handle_success_response m local remote remote_addr.

Definition handle_binding_request (m : Message) (local remote : nat) : AM unit :=
  controlling ← st_get ai_is_controlling;
  if (controlling : bool) then controlling_handle_binding_request m local remote
  else controlled_handle_binding_request m local remote.

(** * Inbound messages *)
Definition handled_class (c : MessageClass) : bool :=
  (c =? CLASS_SUCCESS_RESPONSE) || (c =? CLASS_REQUEST) || (c =? CLASS_INDICATION).

(** A message of the wrong role *)
Definition wrong_role (controlling : bool) (m : Message) : bool :=
  if controlling then contains m ATTR_ICE_CONTROLLING || contains m ATTR_USE_CANDIDATE
  else contains m ATTR_ICE_CONTROLLED.

(** [rc.seen(false)] on the candidate that was found *)
Definition mark_seen (rc : option nat) : AM unit :=
  match rc with Some c => seen c false | None => mret tt end.

(** An integrity check may panic, or refuse the message, or leave it as it was. *)
Definition with_integrity (m : Message) (key : bytes) (k : Message -> AM unit) : AM unit :=
  match assert_inbound_message_integrity m key with
  | (Ok _, m) => k m
  | (Err _, _) => mret tt
  | (Panic, _) => st_lift Panic
  | (OutOfFuel, _) => st_lift OutOfFuel
  end.

Definition handle_inbound (m : Message) (local : nat) (remote : SocketAddr) : AM unit :=
  let class := mt_class (m_typ m) in
  if negb (mt_method (m_typ m) =? METHOD_BINDING) || negb (handled_class class) then mret tt
  else
    controlling ← st_get ai_is_controlling;
    if wrong_role controlling m then mret tt
    else
      remote_candidate ← st_get (fun a => find_remote_candidate (ca_network_type (cand_of a local)) remote a);
      if class =? CLASS_SUCCESS_RESPONSE then
        u ← st_get ai_ufrag_pwd;
        with_integrity m (up_remote_pwd u) (fun m =>
          match remote_candidate with
          | None => mret tt
          | Some rc => _ ← handle_success_response m local rc remote; mark_seen remote_candidate
          end)
      else if class =? CLASS_REQUEST then
        u ← st_get ai_ufrag_pwd;
        match assert_inbound_username m (inbound_username u) with
        | Ok true =>
            with_integrity m (up_local_pwd u) (fun m =>
              match remote_candidate with
              | None => mret tt
              | Some rc => _ ← handle_binding_request m local rc; mark_seen remote_candidate
              end)
        | Panic => st_lift Panic
        | OutOfFuel => st_lift OutOfFuel
        | _ => mret tt
        end
      else mark_seen remote_candidate.

Definition decoded (buf : bytes) : res StunError unit * Message :=
  decode (Message_new <| m_raw := buf |>).

(** [agent_conn.buffer.write], its error logged *)
Definition buffer_packet (buf : bytes) : AM unit := fun a =>
  match buffer_write buf (ac_buffer (ai_agent_conn a)) with
  | (Panic, _) => (Panic, a)
  | (OutOfFuel, _) => (OutOfFuel, a)
  | (_, b) => (Ok tt, a <| ai_agent_conn ::= fun c => c <| ac_buffer := b |> |>)
  end.

Definition handle_inbound_candidate_msg (c : nat) (buf : bytes) (src_addr : SocketAddr) : AM unit :=
  if is_message buf then
    match decoded buf with
    | (Ok _, m) => handle_inbound m c src_addr
    | (Err _, _) => mret tt
    | (Panic, _) => st_lift Panic
    | (OutOfFuel, _) => st_lift OutOfFuel
    end
  else
    valid ← validate_non_stun_traffic c src_addr;
    st_when (valid : bool) (buffer_packet buf).

(** The task of a candidate reads from its socket: it waits for the start of the
    checks and ends when the candidate is closed. *)
Definition receiving (c : nat) (a : AgentInternal) : bool :=
  ca_conn (cand_of a c) && ca_open (cand_of a c) && negb (ai_started_ch_tx a).

(** One round of [recv_loop]: at most [RECEIVE_MTU] bytes are read. *)
Definition recv_round (c : nat) (buf : bytes) (src_addr : SocketAddr) : AM unit :=
  ready ← st_get (receiving c);
  st_when ready (handle_inbound_candidate_msg c (take (Z.to_nat RECEIVE_MTU) buf) src_addr).

(** * The task of connectivity checks *)
Record Checks := mkChecks { ck_last_connection_state : ConnectionState; ck_checking_duration : Z }.

Definition contact (k : Checks) : AM Checks :=
  state ← st_get ai_connection_state;
  now ← st_get ai_instant;
  if bool_decide (state = ConnFailed) then mret (mkChecks state (ck_checking_duration k))
  else
    let checking_duration :=
      if bool_decide (state = Checking) && negb (bool_decide (ck_last_connection_state k = state))
      then now else ck_checking_duration k in
    limits ← st_get ai_limits;
    expired ← (if bool_decide (state = Checking) then
                 timeout ← st_lift (duration_add (al_disconnected_timeout limits) (al_failed_timeout limits));
                 mret (since now checking_duration >? timeout)
               else mret false);
    _ ← (if (expired : bool) then update_connection_state ConnFailed else contact_candidates);
    state ← st_get ai_connection_state;
    mret (mkChecks state checking_duration).

(** [update_interval]: zero stands for no bound. *)
Definition update_interval (interval x : Z) : Z :=
  if negb (x =? 0) && ((interval =? 0) || (x <? interval)) then x else interval.

(** How long the task sleeps. *)
Definition contact_interval (limits : AgentLimits) (last : ConnectionState) : Z :=
  let interval := DEFAULT_CHECK_INTERVAL in
  let interval :=
    match last with
    | ConnNew | Checking => update_interval interval (al_check_interval limits)
    | Connected | Disconnected => update_interval interval (al_keepalive_interval limits)
    | _ => interval
    end in
  update_interval (update_interval interval (al_disconnected_timeout limits)) (al_failed_timeout limits).

Definition start_connectivity_checks (is_controlling : bool) (remote_ufrag remote_pwd : bytes) : AM unit :=
  started_ch_tx ← st_get ai_started_ch_tx;
  if negb started_ch_tx then st_raise ErrMultipleStart
  else
    _ ← set_remote_credentials remote_ufrag remote_pwd;
    _ ← st_modify (fun a => a <| ai_is_controlling := is_controlling |>);
    _ ← start;
    _ ← st_modify (fun a => a <| ai_started_ch_tx := false |>);
    _ ← update_connection_state Checking;
    request_connectivity_check.
End selector.
