(* ===== verification/IceApi.v ===== *)
(** The configuration and the interface of the ICE agent: construction, restart,
    gathering of candidates, address mappings, URLs ([ice/agent/mod.rs],
    [ice/agent/agent_config.rs], [ice/agent/agent_gather.rs],
    [ice/agent/agent_transport.rs], [ice/external_ip_mapper], [ice/url],
    [ice/rand], [ice/mdns], [ice/util]). *)
From Stdlib Require Import Strings.String.
From S2P Require Import Prelude Utf8 Stun StunAttrs Text IpText Buffer IceCandidate IceAgent IceSelector.

(** * URLs *)
Inductive SchemeType : Type := SchemeStun | SchemeStuns | SchemeTurn | SchemeTurns | SchemeUnknown.

#[export] Instance SchemeType_eq_dec : EqDecision SchemeType.
Proof. solve_decision. Defined.

Definition SchemeType_to_string (s : SchemeType) : str :=
  chars match s with
        | SchemeStun => "stun" | SchemeStuns => "stuns" | SchemeTurn => "turn" | SchemeTurns => "turns"
        | SchemeUnknown => "unknown"
        end%string.

Definition SchemeType_from (raw : str) : SchemeType :=
  if bool_decide (raw = chars "stun") then SchemeStun
  else if bool_decide (raw = chars "stuns") then SchemeStuns
  else if bool_decide (raw = chars "turn") then SchemeTurn
  else if bool_decide (raw = chars "turns") then SchemeTurns else SchemeUnknown.

Inductive ProtoType : Type := ProtoUdp | ProtoTcp | ProtoUnknown.

Definition ProtoType_to_string (p : ProtoType) : str :=
  chars match p with ProtoUdp => "udp" | ProtoTcp => "tcp" | ProtoUnknown => "unknown" end%string.

Definition ProtoType_from (raw : str) : ProtoType :=
  if bool_decide (raw = chars "udp") then ProtoUdp
  else if bool_decide (raw = chars "tcp") then ProtoTcp else ProtoUnknown.

Record Url := mkUrl { ur_scheme : SchemeType; ur_host : str; ur_port : Z; ur_proto : ProtoType }.

(** [contains("::")] *)
Fixpoint contains_text (p s : str) : bool :=
  starts_with p s || match s with _ :: s' => contains_text p s' | [] => false end.

Definition Url_to_string (u : Url) : str :=
  let host := if contains_text (chars "::") (ur_host u) then chars "[" ++ ur_host u ++ chars "]" else ur_host u in
  let base := SchemeType_to_string (ur_scheme u) ++ chars ":" ++ host ++ chars ":" ++ print_int (ur_port u) in
  if bool_decide (ur_scheme u = SchemeTurn) || bool_decide (ur_scheme u = SchemeTurns)
  then base ++ chars "?transport=" ++ ProtoType_to_string (ur_proto u) else base.

(** * Random strings *)
Definition RUNES_ALPHA : str := chars "abcdefghijklmnopqrstuvwxyzABCDEFGHIJKLMNOPQRSTUVWXYZ".
Definition RUNES_CANDIDATE_ID_FOUNDATION : str :=
  chars "abcdefghijklmnopqrstuvwxyzABCDEFGHIJKLMNOPQRSTUVWXYZ0123456789/+".
Definition LEN_UFRAG : nat := 16.
Definition LEN_PWD : nat := 32.

(** [rng i] is the [i]-th draw of [gen_range]. *)
Definition generate_crypto_random_string (rng : nat -> nat) (n : nat) (runes : str) : str :=
  map (fun i => runes !!! (rng i mod length runes)%nat) (seq 0 n).

Definition generate_cand_id (rng : nat -> nat) : str :=
  chars "candidate:" ++ generate_crypto_random_string rng 32 RUNES_CANDIDATE_ID_FOUNDATION.
Definition generate_pwd (rng : nat -> nat) : str := generate_crypto_random_string rng LEN_PWD RUNES_ALPHA.
Definition generate_ufrag (rng : nat -> nat) : str := generate_crypto_random_string rng LEN_UFRAG RUNES_ALPHA.

(** * Mapping of external addresses *)
Inductive MulticastDnsMode : Type := MdnsUnspecified | MdnsDisabled | QueryOnly | QueryAndGather.

#[export] Instance MulticastDnsMode_eq_dec : EqDecision MulticastDnsMode.
Proof. solve_decision. Defined.

Definition validate_ip_string (ip_str : str) : res IceError IpAddr :=
  match parse_ip ip_str with Some ip => Ok ip | None => Err ErrInvalidNat1to1IpMapping end.

Record IpMapping := mkIpMapping { im_sole : option IpAddr; im_map : gmap str IpAddr }.

#[export] Instance IpMapping_settable : Settable IpMapping := fun m => mkIpMapping (im_sole m) (im_map m).

Definition set_sole_ip (ip : IpAddr) (m : IpMapping) : res IceError IpMapping :=
  if bool_decide (im_sole m <> None) || bool_decide (im_map m <> ∅) then Err ErrInvalidNat1to1IpMapping
  else Ok (m <| im_sole := Some ip |>).

Definition add_ip_mapping (loc_ip ext_ip : IpAddr) (m : IpMapping) : res IceError IpMapping :=
  if bool_decide (im_sole m <> None) then Err ErrInvalidNat1to1IpMapping
  else if bool_decide (im_map m !! ip_to_string loc_ip <> None) then Err ErrInvalidNat1to1IpMapping
  else Ok (m <| im_map ::= <[ip_to_string loc_ip := ext_ip]> |>).

Definition IpMapping_find_external_ip (m : IpMapping) (loc_ip : IpAddr) : res IceError IpAddr :=
  match im_sole m with
  | Some ip => Ok ip
  | None =>
      match im_map m !! ip_to_string loc_ip with
      | Some ip => Ok ip
      | None => Err ErrExternalMappedIpNotFound
      end
  end.

Record ExternalIpMapper := mkExternalIpMapper {
  em_ipv4_mapping : IpMapping;
  em_ipv6_mapping : IpMapping;
  em_candidate_type : CandidateType
}.

#[export] Instance ExternalIpMapper_settable : Settable ExternalIpMapper := fun m =>
  mkExternalIpMapper (em_ipv4_mapping m) (em_ipv6_mapping m) (em_candidate_type m).

Definition on_mapping (ipv4 : bool) (f : IpMapping -> res IceError IpMapping) (m : ExternalIpMapper) :
    res IceError ExternalIpMapper :=
  if ipv4 then (fun x => m <| em_ipv4_mapping := x |>) <$> f (em_ipv4_mapping m)
  else (fun x => m <| em_ipv6_mapping := x |>) <$> f (em_ipv6_mapping m).

(** One entry of the list: a sole address, or [external/local]. *)
Definition add_mapping (m : ExternalIpMapper) (ext_ip_str : str) : res IceError ExternalIpMapper :=
  match split_on 47 ext_ip_str with
  | [ext] =>
      ext_ip ← validate_ip_string ext;
      on_mapping (is_ipv4 ext_ip) (set_sole_ip ext_ip) m
  | [ext; loc] =>
      ext_ip ← validate_ip_string ext;
      loc_ip ← validate_ip_string loc;
      if negb (Bool.eqb (is_ipv4 ext_ip) (is_ipv4 loc_ip)) then Err ErrInvalidNat1to1IpMapping
      else on_mapping (is_ipv4 ext_ip) (add_ip_mapping loc_ip ext_ip) m
  | _ => Err ErrInvalidNat1to1IpMapping
  end.

Fixpoint add_mappings (m : ExternalIpMapper) (ips : list str) : res IceError ExternalIpMapper :=
  match ips with
  | [] => Ok m
  | ip :: ips' => m ← add_mapping m ip; add_mappings m ips'
  end.

Definition ExternalIpMapper_new (candidate_type : CandidateType) (ips : list str) :
    res IceError (option ExternalIpMapper) :=
  match ips with
  | [] => Ok None
  | _ =>
      let candidate_type := match candidate_type with CandidateUnspecified => Host | t => t end in
      Some <$> add_mappings (mkExternalIpMapper (mkIpMapping None ∅) (mkIpMapping None ∅) candidate_type) ips
  end.

Definition find_external_ip (m : ExternalIpMapper) (local_ip_str : str) : res IceError IpAddr :=
  loc_ip ← validate_ip_string local_ip_str;
  IpMapping_find_external_ip (if is_ipv4 loc_ip then em_ipv4_mapping m else em_ipv6_mapping m) loc_ip.

(** * Configuration *)
Definition DEFAULT_KEEPALIVE_INTERVAL : Z := secs 2.
Definition DEFAULT_DISCONNECTED_TIMEOUT : Z := secs 5.
Definition DEFAULT_FAILED_TIMEOUT : Z := secs 25.
Definition DEFAULT_HOST_ACCEPTANCE_MIN_WAIT : Z := secs 0.
Definition DEFAULT_SRFLX_ACCEPTANCE_MIN_WAIT : Z := millis 500.
Definition DEFAULT_PRFLX_ACCEPTANCE_MIN_WAIT : Z := millis 1000.
Definition DEFAULT_RELAY_ACCEPTANCE_MIN_WAIT : Z := millis 2000.
Definition DEFAULT_MAX_BINDING_REQUESTS : Z := 7.

Definition default_candidate_types : list CandidateType := [Host].

Record AgentConfig := mkAgentConfig {
  cf_urls : list Url;
  cf_local_ufrag : bytes;
  cf_local_pwd : bytes;
  cf_multicast_dns_mode : MulticastDnsMode;
  cf_multicast_dns_host_name : str;
  cf_disconnected_timeout : option Z;
  cf_failed_timeout : option Z;
  cf_keepalive_interval : option Z;
  cf_network_types : list NetworkType;
  cf_candidate_types : list CandidateType;
  cf_check_interval : Z;
  cf_max_binding_requests : option Z;
  cf_is_controlling : bool;
  cf_lite : bool;
  cf_nat_1to1_ip_candidate_type : CandidateType;
  cf_nat_1to1_ips : list str;
  cf_host_acceptance_min_wait : option Z;
  cf_srflx_acceptance_min_wait : option Z;
  cf_prflx_acceptance_min_wait : option Z;
  cf_relay_acceptance_min_wait : option Z
}.

Definition AgentConfig_default : AgentConfig :=
  mkAgentConfig [] [] [] MdnsUnspecified [] None None None [] [] 0 None false false CandidateUnspecified []
    None None None None.

Definition init_with_defaults (c : AgentConfig) : AgentLimits :=
  mkAgentLimits
    (default DEFAULT_MAX_BINDING_REQUESTS (cf_max_binding_requests c))
    (default DEFAULT_HOST_ACCEPTANCE_MIN_WAIT (cf_host_acceptance_min_wait c))
    (default DEFAULT_SRFLX_ACCEPTANCE_MIN_WAIT (cf_srflx_acceptance_min_wait c))
    (default DEFAULT_PRFLX_ACCEPTANCE_MIN_WAIT (cf_prflx_acceptance_min_wait c))
    (default DEFAULT_RELAY_ACCEPTANCE_MIN_WAIT (cf_relay_acceptance_min_wait c))
    (default DEFAULT_DISCONNECTED_TIMEOUT (cf_disconnected_timeout c))
    (default DEFAULT_FAILED_TIMEOUT (cf_failed_timeout c))
    (default DEFAULT_KEEPALIVE_INTERVAL (cf_keepalive_interval c))
    (if cf_check_interval c =? 0 then DEFAULT_CHECK_INTERVAL else cf_check_interval c).

Definition init_ext_ip_mapping (c : AgentConfig) (mdns_mode : MulticastDnsMode) (candidate_types : list CandidateType) :
    res IceError (option ExternalIpMapper) :=
  m ← ExternalIpMapper_new (cf_nat_1to1_ip_candidate_type c) (cf_nat_1to1_ips c);
  match m with
  | None => Ok None
  | Some m =>
      if bool_decide (em_candidate_type m = Host) then
        if bool_decide (mdns_mode = QueryAndGather) then Err ErrMulticastDnsWithNat1to1IpMapping
        else if negb (existsb (fun t => bool_decide (t = Host)) candidate_types) then Err ErrIneffectiveNat1to1IpMappingHost
        else Ok (Some m)
      else Ok (Some m)
  end.

(** [AgentInternal::new], then [init_with_defaults]; the clocks and the random
    tie breaker are arguments. *)
Definition AgentInternal_new (config : AgentConfig) (tie_breaker instant system : Z) : AgentInternal :=
  mkAgentInternal [] [] instant system 0 [] true true false true true true tie_breaker (cf_is_controlling config)
    (cf_lite config) instant None ConnNew true (mkUfragPwd [] [] [] []) ∅ ∅ [] AgentConn_new (init_with_defaults config).

(** * The agent *)
Record Agent := mkAgent {
  ag_internal : AgentInternal;
  ag_mdns_mode : MulticastDnsMode;
  ag_mdns_name : str;
  ag_ext_ip_mapper : option ExternalIpMapper;
  ag_gathering_state : GatheringState;
  ag_candidate_types : list CandidateType;
  ag_network_types : list NetworkType
}.

#[export] Instance Agent_settable : Settable Agent := fun a =>
  mkAgent (ag_internal a) (ag_mdns_mode a) (ag_mdns_name a) (ag_ext_ip_mapper a) (ag_gathering_state a)
    (ag_candidate_types a) (ag_network_types a).

Abbreviation GM A := (ST Agent IceError A).

(** A call on [self.internal] *)
Definition internal {A} (m : AM A) : GM A := fun g =>
  let '(r, a) := m (ag_internal g) in (r, g <| ag_internal := a |>).

Section api.
Context {P : Profile} {env : IceEnv}.

(** [Agent::restart]; [rng] draws the fragment and the password that are not given. *)
Definition restart (rng : nat -> nat) (ufrag pwd : bytes) : GM unit :=
  let ufrag := match ufrag with [] => utf8_encode (generate_ufrag rng) | u => u end in
  let pwd := match pwd with [] => utf8_encode (generate_pwd (fun i => rng (LEN_UFRAG + i)%nat)) | p => p end in
  if (length ufrag * 8 <? 24)%nat then st_raise ErrLocalUfragInsufficientBits
  else if (length pwd * 8 <? 128)%nat then st_raise ErrLocalPwdInsufficientBits
  else
    gathering_state ← st_get ag_gathering_state;
    if bool_decide (gathering_state = Gathering) then st_raise ErrRestartWhenGathering
    else
      _ ← st_modify (fun g => g <| ag_gathering_state := GatheringNew |>);
      internal (
        done_tx ← st_get ai_done_tx;
        if negb done_tx then st_raise ErrClosed
        else
          _ ← st_modify (fun a => a <| ai_ufrag_pwd := mkUfragPwd ufrag pwd [] [] |>
                                    <| ai_pending_binding_requests := [] |>);
          _ ← on_conn (fun c => c <| ac_checklist := [] |>);
          _ ← set_selected_pair None;
          _ ← delete_all_candidates;
          _ ← start;
          state ← st_get ai_connection_state;
          st_when (negb (bool_decide (state = ConnNew))) (update_connection_state Checking)).

Definition Agent_close : GM unit := internal AgentInternal_close.

(** [Agent::new] *)
Definition Agent_new (config : AgentConfig) (mdns_random : str) (tie_breaker instant system : Z) (rng : nat -> nat) :
    res IceError Agent :=
  let mdns_name := match cf_multicast_dns_host_name config with [] => mdns_random | n => n end in
  if negb (ends_with (chars ".local") mdns_name) || negb (length (split_on 46 mdns_name) =? 2)%nat
  then Err ErrInvalidMulticastDnshostName
  else
    let mdns_mode := match cf_multicast_dns_mode config with MdnsUnspecified => QueryOnly | m => m end in
    let ai := AgentInternal_new config tie_breaker instant system in
    let candidate_types := match cf_candidate_types config with [] => default_candidate_types | l => l end in
    if ai_lite ai && negb (bool_decide (candidate_types = [Host])) then Err ErrLiteUsingNonHostCandidates
    else if negb (length (cf_urls config) =? 0)%nat then Err ErrUselessUrlsProvided
    else
      ext_ip_mapper ← init_ext_ip_mapping config mdns_mode candidate_types;
      let agent := mkAgent ai mdns_mode mdns_name ext_ip_mapper GatheringUnspecified candidate_types
                     (cf_network_types config) in
      match restart rng (cf_local_ufrag config) (cf_local_pwd config) agent with
      | (Ok _, agent) => Ok agent
      | (Err e, _) => Err e
      | (Panic, _) => Panic
      | (OutOfFuel, _) => OutOfFuel
      end.

(** [Agent::add_remote_candidate]: what is spawned runs at once. *)
Definition Agent_add_remote_candidate (c : nat) : GM unit :=
  cand ← st_get (fun g => cand_of (ag_internal g) c);
  if bool_decide (ca_candidate_type cand = Host) && ends_with (chars ".local") (ca_address cand) then mret tt
  else internal (add_remote_candidate c).

Definition get_local_candidates (g : Agent) : list nat :=
  concat (map_to_list (ai_local_candidates (ag_internal g))).*2.

Definition get_local_user_credentials (g : Agent) : bytes * bytes :=
  let u := ai_ufrag_pwd (ag_internal g) in (up_local_ufrag u, up_local_pwd u).

(** [dial] and [accept] up to the wait for [on_connected] *)
Definition dial (remote_ufrag remote_pwd : bytes) : GM unit :=
  internal (start_connectivity_checks true remote_ufrag remote_pwd).
Definition accept (remote_ufrag remote_pwd : bytes) : GM unit :=
  internal (start_connectivity_checks false remote_ufrag remote_pwd).

(** * Gathering *)
Definition set_gathering_state (new_state : GatheringState) : GM unit :=
  state ← st_get ag_gathering_state;
  tx ← st_get (fun g => ai_chan_candidate_tx (ag_internal g));
  _ ← st_when (negb (bool_decide (state = new_state)) && bool_decide (new_state = GatheringComplete) && tx)
        (internal (emit (CandidateFound None)));
  st_modify (fun g => g <| ag_gathering_state := new_state |>).

Definition is_loopback (ip : IpAddr) : bool :=
  match ip with
  | V4 (a :: _) => bool_decide (a = byte_of_u8 127)
  | V4 [] => false
  | V6 o => bool_decide (o = replicate 15 Byte.x00 ++ [Byte.x01])
  end.

(** [local_interfaces]: the interfaces of the machine are an argument, by name
    with their addresses; the set has no order. *)
Definition local_interfaces (interfaces : list (str * list IpAddr)) (interface_filter : option (str -> bool))
    (network_types : list NetworkType) : list IpAddr :=
  let ipv4requested := existsb NetworkType_is_ipv4 network_types in
  let ipv6requested := existsb NetworkType_is_ipv6 network_types in
  let chosen := List.filter (fun i => match interface_filter with Some f => f (fst i) | None => true end) interfaces in
  remove_dups (List.filter (fun ip => negb (is_loopback ip)
                       && ((ipv4requested && is_ipv4 ip) || (ipv6requested && negb (is_ipv4 ip))))
                 (concat (map snd chosen))).

(** The address of the candidate of one interface *)
Definition candidate_address (mdns_mode : MulticastDnsMode) (mdns_name : str) (ext : option ExternalIpMapper)
    (ip : IpAddr) : str :=
  if bool_decide (mdns_mode = QueryAndGather) then mdns_name
  else
    match ext with
    | Some m =>
        if bool_decide (em_candidate_type m = Host) then
          match find_external_ip m (ip_to_string ip) with Ok mi => ip_to_string mi | _ => ip_to_string ip end
        else ip_to_string ip
    | None => ip_to_string ip
    end.

(** One round of [gather_candidates_local]: [listen] is the port the runtime
    bound, if it could; [random_id] names the candidate. *)
Definition gather_one (listen : IpAddr -> option Z) (random_id : str) (mdns_mode : MulticastDnsMode) (mdns_name : str)
    (ext : option ExternalIpMapper) (ip : IpAddr) : AM unit :=
  match listen ip with
  | None => mret tt
  | Some port =>
      let address := candidate_address mdns_mode mdns_name ext ip in
      let config := mkCandidateBaseConfig [] UDP address port COMPONENT_RTP 0 [] true in
      match (c ← new_candidate_host config random_id;
             if bool_decide (mdns_mode = QueryAndGather) then set_ip ip c else Ok c) with
      | Ok candidate => c ← new_arc candidate; add_candidate c
      | Err _ => mret tt
      | Panic => st_lift Panic
      | OutOfFuel => st_lift OutOfFuel
      end
  end.

(** [gather_candidates_local] over the addresses in the order the set gives them *)
Definition gather_candidates_local (listen : IpAddr -> option Z) (random_id : IpAddr -> str) (ips : list IpAddr) : GM unit :=
  mdns_mode ← st_get ag_mdns_mode;
  mdns_name ← st_get ag_mdns_name;
  ext ← st_get ag_ext_ip_mapper;
  internal (st_for ips (fun ip => gather_one listen (random_id ip) mdns_mode mdns_name ext ip)).

Definition gather_candidates_internal (listen : IpAddr -> option Z) (random_id : IpAddr -> str) (ips : list IpAddr) : GM unit :=
  _ ← set_gathering_state Gathering;
  types ← st_get ag_candidate_types;
  _ ← st_for types (fun t =>
        match t with Host => gather_candidates_local listen random_id ips | _ => mret tt end);
  set_gathering_state GatheringComplete.

(** [gather_candidates]; [handler]: a handler of candidates was set. *)
Definition gather_candidates (handler : bool) (listen : IpAddr -> option Z) (random_id : IpAddr -> str) (ips : list IpAddr) :
    GM unit :=
  state ← st_get ag_gathering_state;
  if negb (bool_decide (state = GatheringNew)) then st_raise ErrMultipleGatherAttempted
  else if negb handler then st_raise ErrNoOnCandidateHandler
  else gather_candidates_internal listen random_id ips.
End api.
