(* ===== verification/IceMessage.v ===== *)
(** The STUN messages of the ICE agent: what its binding requests and its replies
    hold, how they decode, and that the integrity check of the peer accepts them. *)
From Stdlib Require Import Strings.String.
From S2P Require Import Prelude Utf8 Stun StunLaws StunAttrs StunAttrsLaws Text IpText Buffer IceCandidate IceAgent IceSelector.

(** What the theorems assume of the parameters: transaction ids of twelve bytes
    and hashes of twenty. *)
Class IceEnvLaws (env : IceEnv) := {
  ice_transaction_id_length n : length (ice_transaction_id n) = 12%nat;
  ice_hmac_length k b : length (ice_hmac_sha1 k b) = 20%nat
}.

Section messages.
Context {P : Profile} {env : IceEnv} {laws : IceEnvLaws env}.

(** The attributes a message carries once it is signed and fingerprinted. *)
Definition sealing (k : bytes) (typ : MessageType) (id : bytes) (l : list (AttrType * bytes)) : list (AttrType * bytes) :=
  let l1 := l ++ [(ATTR_MESSAGE_INTEGRITY, ice_hmac_sha1 k (signed typ id l))] in
  l1 ++ [(ATTR_FINGERPRINT, put_u32 (fingerprint_value ice_crc32
    (header typ (Z.of_nat (length (tlvs l1)) + 8) id ++ tlvs l1)))].

(** A message of that shape. *)
Record sealed_as (m : Message) (k : bytes) (typ : MessageType) (id : bytes) (l : list (AttrType * bytes)) : Prop := {
  se_typ : m_typ m = typ;
  se_id : m_transaction_id m = id;
  se_built : built m (sealing k typ id l)
}.

Lemma sealing_length k typ id l : length (tlvs (sealing k typ id l)) = (length (tlvs l) + 32)%nat.
Proof.
  unfold sealing. rewrite !tlvs_app, !length_app, !tlv_length, length_put_u32, ice_hmac_length.
  change (nearest_padded_value_length 20) with 20%nat. change (nearest_padded_value_length 4) with 4%nat. lia.
Qed.

Lemma seal_built m l k : built m l -> ATTR_FINGERPRINT ∉ l.*1 -> Z.of_nat (length (tlvs l)) < 65000 ->
  exists m2, st_for [short_term_integrity k; FINGERPRINT] (fun s => s) m = (Ok tt, m2) /\
    sealed_as m2 k (m_typ m) (m_transaction_id m) l.
Proof.
  intros Hm Hfp Hs. cbn [st_for]. unfold short_term_integrity, add_to, new_short_term_integrity, FINGERPRINT.
  set (v := ice_hmac_sha1 k (signed (m_typ m) (m_transaction_id m) l)).
  destruct (add_raw m l ATTR_MESSAGE_INTEGRITY v (Z.of_nat (length (tlvs l)) + 24) Hm) as (m1 & H1 & Hm1 & Ht1 & Hi1);
    [unfold v; rewrite ice_hmac_length; change (2 ^ 32) with 4294967296; lia|].
  set (l1 := l ++ [(ATTR_MESSAGE_INTEGRITY, v)]) in *.
  assert (Hs1 : length (tlvs l1) = (length (tlvs l) + 24)%nat)
    by (unfold l1, v; rewrite tlvs_app, length_app, tlv_length, ice_hmac_length; done).
  set (covered := header (m_typ m1) (Z.of_nat (length (tlvs l1)) + 8) (m_transaction_id m1) ++ tlvs l1).
  destruct (add_raw m1 l1 ATTR_FINGERPRINT (put_u32 (fingerprint_value ice_crc32 covered))
    (Z.of_nat (length (tlvs l1)) + 8) Hm1) as (m2 & H2 & Hm2 & Ht2 & Hi2);
    [change (2 ^ 32) with 4294967296; rewrite Hs1, length_put_u32; lia|].
  assert (HMI : MessageIntegrity_setter ice_hmac_sha1 (mkMessageIntegrity k) m = (Ok tt, m1))
    by (rewrite (MessageIntegrity_add ice_hmac_sha1 _ m l) by done; exact H1).
  assert (HFP : Fingerprint_add_to ice_crc32 m1 = (Ok tt, m2))
    by (rewrite (Fingerprint_add ice_crc32 m1 l1) by (done || (rewrite Hs1; lia)); exact H2).
  exists m2. unfold mbind, st_bind. rewrite HMI, HFP.
  split; [done|]. split; [congruence|congruence|]. unfold sealing. fold v l1. unfold covered in Hm2.
  rewrite Ht1, Hi1 in Hm2. exact Hm2.
Qed.

Lemma sealed_check m k typ id l : sealed_as m k typ id l -> ATTR_MESSAGE_INTEGRITY ∉ l.*1 ->
  Z.of_nat (length (tlvs l)) < 65000 -> assert_inbound_message_integrity m k = (Ok tt, m).
Proof.
  intros [Ht Hi Hb] Hmi Hs. pose proof (sealing_length k typ id l) as Hlen. unfold sealing in *. rewrite <- app_assoc in *. cbn [app] in *.
  unfold assert_inbound_message_integrity.
  rewrite (MessageIntegrity_check_spec ice_hmac_sha1 (mkMessageIntegrity k) m l _ _ Hb) by (first [done|apply ice_hmac_length|lia]).
  rewrite Ht, Hi. f_equal. by apply check_hmac_eq.
Qed.

Lemma built_is_message m l : built m l -> is_message (m_raw m) = true.
Proof.
  intros Hb. unfold is_message. rewrite (bu_raw _ _ Hb).
  rewrite length_app, header_length by apply Hb. cbn [Nat.leb MESSAGE_HEADER_SIZE Nat.add andb].
  unfold header. rewrite <- !app_assoc.
  match goal with |- context [drop 4 (put_u16 ?a ++ put_u16 ?b ++ ?r)] =>
    change (drop 4 (put_u16 a ++ put_u16 b ++ r)) with r end.
  by rewrite get_put_u32; [|by vm_compute].
Qed.

Lemma built_contains m l t : built m l -> contains m t = bool_decide (t ∈ l.*1).
Proof.
  intros Hb. unfold contains. rewrite (bu_attributes _ _ Hb). clear Hb.
  induction l as [|[t' v] l IH]; [done|]. cbn [map existsb raw_attribute ra_typ fmap list_fmap fst].
  rewrite IH. destruct (Z.eqb_spec t' t) as [->|Hne]; cbn [orb].
  - symmetry. apply bool_decide_true. by left.
  - apply bool_decide_ext. rewrite elem_of_cons. split; [by right|]. intros [?|?]; [by subst|done].
Qed.

(** What the peer decodes. *)
Lemma sealed_decoded m k typ id l : sealed_as m k typ id l -> wire_type typ -> Forall wire_attr l ->
  Z.of_nat (length (tlvs l)) < 65000 -> is_message (m_raw m) = true /\ decoded (m_raw m) = (Ok tt, m).
Proof.
  intros [Ht Hi Hb] Hwt Hl Hs. pose proof (sealing_length k typ id l) as Hlen. split.
  - by eapply built_is_message.
  - unfold decoded. rewrite (decode_built m _ [] _ Hb).
    + rewrite app_nil_r. by destruct m.
    + by rewrite Ht.
    + unfold sealing. repeat (apply Forall_app; split); [done|..]; repeat constructor; done.
    + lia.
    + cbn. by rewrite app_nil_r.
Qed.

Lemma sealed_attributes m k typ id l t v l1 l2 : sealed_as m k typ id l -> l = l1 ++ (t, v) :: l2 -> t ∉ l1.*1 ->
  get m t = Ok v.
Proof.
  intros [_ _ Hb] -> Ht. pose proof (bu_attributes _ _ Hb) as Ha. unfold sealing in Ha.
  rewrite <- !app_assoc in Ha. cbn [app] in Ha. eapply get_built; [exact Ha|done].
Qed.

Lemma sealed_contains m k typ id l t : sealed_as m k typ id l ->
  contains m t = bool_decide (t ∈ l.*1) || (t =? ATTR_MESSAGE_INTEGRITY) || (t =? ATTR_FINGERPRINT).
Proof.
  intros [_ _ Hb]. rewrite (built_contains _ _ _ Hb). unfold sealing. rewrite <- app_assoc, fmap_app. cbn.
  apply eq_true_iff_eq. rewrite bool_decide_eq_true, !orb_true_iff, bool_decide_eq_true, !Z.eqb_eq, elem_of_app, !elem_of_cons, elem_of_nil.
  split; [intros [?|[?|[?|[]]]]; auto|intros [[?|?]|?]; auto].
Qed.

(** * Requests *)
Lemma st_for_app {S E A} (l1 l2 : list A) (body : A -> ST S E unit) s :
  st_for (l1 ++ l2) body s = (_ ← st_for l1 body; st_for l2 body) s.
Proof.
  revert s. induction l1 as [|x l1 IH]; intros s; [done|]. cbn [app st_for]. unfold mbind, st_bind in *.
  destruct (body x s) as [[[]|e| |] s']; [apply IH|done..].
Qed.

Lemma text_add text m l : built m l ->
  add_to (TextAttribute_new ATTR_USERNAME text) m
  = if (length text <=? MAX_USERNAME_B)%nat then add ATTR_USERNAME text m else (Err ErrAttributeSizeOverflow, m).
Proof.
  intros _. unfold add_to, TextAttribute_setter, TextAttribute_new. st_run. cbn [ta_attr ta_text text_max_len].
  change (text_max_len ATTR_USERNAME) with (Ok (E := StunError) MAX_USERNAME_B). cbn iota beta. unfold check_overflow.
  by destruct (length text <=? MAX_USERNAME_B)%nat.
Qed.

Definition request_attrs (username : bytes) (l : list (AttrType * bytes)) : list (AttrType * bytes) :=
  (ATTR_USERNAME, username) :: l.

Definition request_setters (typ : MessageType) (id username : bytes) (l : list (AttrType * bytes)) (k : bytes) : list (SM unit) :=
  [add_to typ; TransactionId_add_to id; add_to (TextAttribute_new ATTR_USERNAME username)]
  ++ map (fun '(t, v) => add t v) l ++ [short_term_integrity k; FINGERPRINT].

Lemma request_built typ id username l k : length id = 12%nat -> ATTR_FINGERPRINT ∉ l.*1 -> Z.of_nat (length (tlvs l)) < 60000 ->
  if (length username <=? MAX_USERNAME_B)%nat
  then exists m, build (request_setters typ id username l k) Message_new = (Ok tt, m) /\
         sealed_as m k typ id (request_attrs username l)
  else exists m, build (request_setters typ id username l k) Message_new = (Err ErrAttributeSizeOverflow, m).
Proof.
  intros Hid Hfp Hs. unfold build, reset, set. st_run.
  destruct (write_header_built (mkMessage (m_typ Message_new) 0 (m_transaction_id Message_new) [] []))
    as (m1 & H1 & Hb1 & _ & _); [done..|]. cbn [m_typ m_length m_transaction_id m_attributes m_raw] in *. rewrite H1.
  destruct (set_type_built m1 typ Hb1) as (m2 & H2 & Hb2 & Ht2 & _).
  destruct (set_id_built m2 id Hb2 Hid) as (m3 & H3 & Hb3 & Ht3 & Hi3).
  unfold request_setters. cbn [app st_for]. unfold mbind, st_bind.
  change (add_to typ) with (set_type typ). rewrite H2, H3.
  rewrite (text_add username m3 [] Hb3). destruct (Nat.leb_spec (length username) MAX_USERNAME_B) as [Hu|Hu]; [|by eexists].
  unfold MAX_USERNAME_B in Hu.
  destruct (add_built m3 [] ATTR_USERNAME username Hb3) as (m4 & H4 & Hb4 & Ht4 & Hi4);
    [change (2 ^ 32) with 4294967296; cbn; lia|]. rewrite H4. cbn [app] in Hb4.
  pose proof (nearest_padded_spec (length username)) as [Hn _].
  assert (Hlen : length (tlvs ([(ATTR_USERNAME, username)] ++ l)) = (4 + nearest_padded_value_length (length username) + length (tlvs l))%nat)
    by (rewrite tlvs_cat, length_app, tlvs_one; done).
  destruct (adds_built l m4 [(ATTR_USERNAME, username)] Hb4) as (m5 & H5 & Hb5 & Ht5 & Hi5);
    [change (2 ^ 32) with 4294967296; lia|].
  rewrite st_for_app. unfold mbind, st_bind. rewrite H5.
  destruct (seal_built m5 _ k Hb5) as (m6 & H6 & Hb6); [|lia|].
  { cbn. rewrite elem_of_cons. intros [?|?]; done. }
  rewrite H6. exists m6. split; [done|]. by rewrite Ht5, Ht4, Ht3, Ht2, Hi5, Hi4, Hi3 in Hb6.
Qed.

(** The attributes of the three requests of the agent *)
Definition controlling_attrs (tie_breaker priority : Z) : list (AttrType * bytes) :=
  [(ATTR_ICE_CONTROLLING, put_u64 tie_breaker); (ATTR_PRIORITY, put_u32 priority)].
Definition controlled_attrs (tie_breaker priority : Z) : list (AttrType * bytes) :=
  [(ATTR_ICE_CONTROLLED, put_u64 tie_breaker); (ATTR_PRIORITY, put_u32 priority)].
Definition nominating_attrs (tie_breaker priority : Z) : list (AttrType * bytes) :=
  (ATTR_USE_CANDIDATE, []) :: controlling_attrs tie_breaker priority.

(** Short lists of attributes other than the two of the seal *)
Record plain_attrs (l : list (AttrType * bytes)) : Prop := {
  pa_fingerprint : ATTR_FINGERPRINT ∉ l.*1;
  pa_integrity : ATTR_MESSAGE_INTEGRITY ∉ l.*1;
  pa_length : Z.of_nat (length (tlvs l)) < 60000;
  pa_wire : Forall wire_attr l
}.

Lemma plain_cons t v l : plain_attrs l -> in_range 16 t -> t <> 0x8020 -> t <> ATTR_FINGERPRINT -> t <> ATTR_MESSAGE_INTEGRITY ->
  Z.of_nat (length (tlvs ((t, v) :: l))) < 60000 -> plain_attrs ((t, v) :: l).
Proof.
  intros [] H1 H2 H3 H4 H5. split; [| |done|by constructor]; cbn; rewrite elem_of_cons; intros [?|?]; done.
Qed.

Lemma plain_nil : plain_attrs [].
Proof. split; [apply not_elem_of_nil..|cbn; lia|constructor]. Qed.

Lemma controlling_attrs_ok tie_breaker priority : plain_attrs (controlling_attrs tie_breaker priority).
Proof. by repeat (apply plain_cons; [|done..]); apply plain_nil. Qed.
Lemma controlled_attrs_ok tie_breaker priority : plain_attrs (controlled_attrs tie_breaker priority).
Proof. by repeat (apply plain_cons; [|done..]); apply plain_nil. Qed.
Lemma nominating_attrs_ok tie_breaker priority : plain_attrs (nominating_attrs tie_breaker priority).
Proof. by repeat (apply plain_cons; [|done..]); apply plain_nil. Qed.

(** * Replies *)
Definition success_setters (m : Message) (addr : SocketAddr) (k : bytes) : list (SM unit) :=
  [add_to m; add_to BINDING_SUCCESS; add_to (mkXorMappedAddress (sa_ip addr) (sa_port addr)); short_term_integrity k; FINGERPRINT].

Definition success_attrs (id : bytes) (addr : SocketAddr) : list (AttrType * bytes) :=
  [(ATTR_XORMAPPED_ADDRESS, xor_attr (mkXorMappedAddress (sa_ip addr) (sa_port addr)) id)].

Lemma success_attrs_length id addr : (length (tlvs (success_attrs id addr)) < 64)%nat.
Proof.
  unfold success_attrs. rewrite tlvs_one, xor_attr_length. cbn [xa_ip].
  destruct (sa_ip addr); vm_compute; lia.
Qed.

Lemma success_built m addr k : length (m_transaction_id m) = 12%nat -> ip_wf (sa_ip addr) ->
  exists m', build (success_setters m addr k) Message_new = (Ok tt, m') /\
    sealed_as m' k BINDING_SUCCESS (m_transaction_id m) (success_attrs (m_transaction_id m) addr).
Proof.
  intros Hid Hip. unfold build, reset, set. st_run.
  destruct (write_header_built (mkMessage (m_typ Message_new) 0 (m_transaction_id Message_new) [] []))
    as (m1 & H1 & Hb1 & _ & _); [done..|]. cbn [m_typ m_length m_transaction_id m_attributes m_raw] in *. rewrite H1.
  destruct (set_id_built m1 _ Hb1 Hid) as (m2 & H2 & Hb2 & _ & Hi2).
  destruct (set_type_built m2 BINDING_SUCCESS Hb2) as (m3 & H3 & Hb3 & Ht3 & Hi3).
  unfold success_setters. cbn [st_for]. unfold mbind, st_bind.
  change (add_to m) with (TransactionId_add_to (m_transaction_id m)). change (add_to BINDING_SUCCESS) with (set_type BINDING_SUCCESS).
  rewrite H2, H3. unfold add_to at 1, XorMappedAddress_setter. rewrite XorMappedAddress_add by (first [done|by rewrite Hi3, Hi2]). rewrite Hi3, Hi2.
  set (v := xor_attr _ _). assert (Hv : (length v <= 20)%nat)
    by (unfold v; rewrite xor_attr_length; pose proof (ip_len_le (sa_ip addr)); cbn [xa_ip]; lia).
  destruct (add_built m3 [] ATTR_XORMAPPED_ADDRESS v Hb3) as (m4 & H4 & Hb4 & Ht4 & Hi4);
    [change (2 ^ 32) with 4294967296; cbn [tlvs flat_map length]; lia|]. rewrite H4. cbn [app] in Hb4.
  destruct (seal_built m4 _ k Hb4) as (m5 & H5 & Hb5).
  { cbn. by rewrite list_elem_of_singleton. }
  { pose proof (success_attrs_length (m_transaction_id m) addr) as Hl. unfold success_attrs in Hl. fold v in Hl. lia. }
  cbn [st_for] in H5. unfold mbind, st_bind in H5. rewrite H5. exists m5. split; [done|].
  rewrite Ht4, Ht3, Hi4, Hi3, Hi2 in Hb5. exact Hb5.
Qed.
End messages.
