(* ===== verification/IceSample.v ===== *)
(** Two agents on one network, for the examples and the witnesses: an environment
    whose hashes are sums, and the exchange of checks that connects them. *)
From Stdlib Require Import Strings.String.
From S2P Require Import Prelude Utf8 Stun StunAttrs Text IpText Buffer IceCandidate IceAgent IceSelector IceApi IceMessage.

Definition byte_sum (b : bytes) : Z := wrap 32 (foldr (fun x n => u8_of_byte x + n) 0 b).

Definition sample_env : IceEnv := {|
  ice_crc32 := byte_sum;
  ice_crc32_iscsi := byte_sum;
  ice_hmac_sha1 k b := put_u32 (byte_sum (k ++ b)) ++ replicate 16 Byte.x00;
  ice_transaction_id n := put_u32 (Z.of_nat n) ++ replicate 8 Byte.x01;
  ice_send_to _ _ _ := true
|}.

Lemma sample_laws : IceEnvLaws sample_env.
Proof. by split. Qed.

#[local] Existing Instance sample_env.
#[local] Existing Instance dev_profile.

Definition ice_sample_config : AgentConfig := AgentConfig_default.
Definition sample_new : res IceError Agent := Agent_new ice_sample_config (chars "abc.local") 7 1000 1000 (fun i => i).
Definition sample_fresh : Agent :=
  match sample_new with
  | Ok g => g
  | _ => mkAgent (AgentInternal_new ice_sample_config 0 0 0) MdnsDisabled [] None Gathering [] []
  end.
Definition sample_agent : Agent := sample_fresh <| ag_network_types := [Udp4] |>.

Lemma sample_fresh_new : sample_new = Ok sample_fresh.
Proof.
  assert (H : match sample_new with Ok _ => True | _ => False end) by by vm_compute.
  unfold sample_fresh. by destruct sample_new.
Qed.

Definition sample_ip (n : Z) : IpAddr := V4 (map byte_of_u8 [10; 0; 0; n]).
Definition sample_ufrag (n : Z) : bytes := utf8_encode (chars "ufrag" ++ replicate 4 (64 + n)).
Definition sample_pwd (n : Z) : bytes := utf8_encode (chars "passwordpassword" ++ replicate 4 (64 + n)).

Definition sample_remote (n : Z) : CandidateBaseConfig :=
  mkCandidateBaseConfig [] UDP (ip_to_string (sample_ip n)) 5000 COMPONENT_RTP 12345678 (chars "1") false.

(** The agent of the machine [n], once its candidate is gathered *)
Definition gathered (n : Z) : Agent :=
  snd ((_ ← restart (fun i => i) (sample_ufrag n) (sample_pwd n);
        gather_candidates true (fun _ => Some 5000) (fun _ => chars "id") [sample_ip n]) sample_agent).

(** The checks of the agent on the machine [n] with the machine [m] begin. *)
Definition introduced (controlling : bool) (n m : Z) : AgentInternal :=
  ag_internal (snd ((_ ← (if controlling then dial else accept) (sample_ufrag m) (sample_pwd m);
                     c ← internal (new_arc (default CandidateBase_default
                           match new_candidate_host (sample_remote m) (chars "r") with Ok c => Some c | _ => None end));
                     Agent_add_remote_candidate c) (gathered n))).

Definition at_time (t : Z) (a : AgentInternal) : AgentInternal := a <| ai_instant := t |> <| ai_system := t |> <| ai_out := [] |>.
Definition sent (a : AgentInternal) : list bytes := omap (fun o => match o with Sent _ raw _ => Some raw | _ => None end) (ai_out a).
Definition sample_addr (n : Z) : SocketAddr := mkSocketAddr (sample_ip n) 5000.

(** What [b] is after it got all that [a], on the machine [n], sent *)
Definition hand_over (n : Z) (a b : AgentInternal) : AgentInternal :=
  fold_left (fun b raw => snd (recv_round 0 raw (sample_addr n) b)) (sent a) b.

(** The controlling agent checks, is answered, nominates and is answered. *)
Definition A0 := introduced true 1 2.
Definition B0 := introduced false 2 1.
Definition A1 := snd (contact (mkChecks ConnUnspecified 0) (at_time 2000 A0)).
Definition B1 := hand_over 1 A1 (at_time 3000 B0).
Definition A2 := hand_over 2 B1 (at_time 3500 A1).
Definition B2 := hand_over 1 A2 (at_time 4000 B1).
Definition A3 := snd (contact (mkChecks Checking 2000) (at_time 5000 A2)).
Definition B3 := hand_over 1 A3 (at_time 6000 B2).
Definition A4 := hand_over 2 B3 (at_time 6500 A3).

(** Both agents end connected, over the pair each of them has. *)
Example two_agents_connect :
  (ai_connection_state A0, ai_connection_state B0) = (Checking, Checking) /\
  map cp_state (ai_pairs A2) = [Succeeded] /\ get_selected_pair A2 = None /\
  get_selected_pair A4 = Some 0%nat /\ get_selected_pair B3 = Some 0%nat /\
  (ai_connection_state A4, ai_connection_state B3) = (Connected, Connected).
Proof. by vm_compute. Qed.

(** The datagrams of the run: a request of the controlling agent, and its answer to
    the check of the other, which has a valid pair with it and selects none yet. *)
Definition request_datagram : bytes := hd [] (sent A1).
Definition answer_datagram : bytes := hd [] (sent A2).
Definition B_answered : AgentInternal := at_time 4000 B1.
Definition B_valid : AgentInternal := snd (recv_round 0 answer_datagram (sample_addr 1) B_answered).
