(* ===== verification/IceInvariant.v ===== *)
(** The invariant of the ICE agent: references point into the stores, the counters
    are bounded, the selected pair succeeded and was nominated, and a connected
    agent has a selected pair.  Every operation keeps it. *)
From Stdlib Require Import Strings.String.
From S2P Require Import Prelude Utf8 Stun StunLaws StunAttrs StunAttrsLaws Text IpText Buffer IceCandidate IceAgent IceSelector IceMessage.

(** The addresses of a candidate have the length of their family. *)
Definition cand_wf (c : CandidateBase) : Prop := ip_wf (sa_ip (ca_resolved_addr c)).

(** The bound on the binding requests of a pair: the counter is compared before
    it is incremented, so one more than the maximum, within [u16]. *)
Definition request_bound (a : AgentInternal) : Z := Z.min (al_max_binding_requests (ai_limits a) + 1) 65535.

Record pair_wf (a : AgentInternal) (p : CandidatePair) : Prop := {
  pw_local : (cp_local p < length (ai_candidates a))%nat;
  pw_remote : (cp_remote p < length (ai_candidates a))%nat;
  pw_count : 0 <= cp_binding_request_count p <= request_bound a
}.

Record limits_wf (l : AgentLimits) : Prop := {
  lw_max : 0 <= al_max_binding_requests l <= 65535;
  lw_timeouts : al_disconnected_timeout l + al_failed_timeout l <= DURATION_MAX
}.

Definition refs_below (n : nat) (l : list nat) : Prop := Forall (fun c => (c < n)%nat) l.

(** [strict] is off between the two halves of a restart, which takes the selected
    pair away before it changes the connection state. *)
Record agent_wf_at (strict : bool) (a : AgentInternal) : Prop := {
  aw_candidates : Forall cand_wf (ai_candidates a);
  aw_pairs : Forall (pair_wf a) (ai_pairs a);
  aw_checklist : refs_below (length (ai_pairs a)) (checklist a);
  aw_local : map_Forall (fun _ l => refs_below (length (ai_candidates a)) l) (ai_local_candidates a);
  aw_remote : map_Forall (fun _ l => refs_below (length (ai_candidates a)) l) (ai_remote_candidates a);
  aw_selected p : get_selected_pair a = Some p ->
    (p < length (ai_pairs a))%nat /\ cp_state (pair_of a p) = Succeeded /\ cp_nominated (pair_of a p) = true;
  aw_nominated p : ai_nominated_pair a = Some p -> (p < length (ai_pairs a))%nat;
  aw_limits : limits_wf (ai_limits a);
  aw_buffer : exists q, holds (ac_buffer (ai_agent_conn a)) q;
  aw_connected : strict = true -> ai_connection_state a = Connected \/ ai_connection_state a = Disconnected ->
    get_selected_pair a <> None
}.

Abbreviation agent_wf := (agent_wf_at true).

(** The invariant, with stores of at least the given sizes. *)
Record agent_inv (strict : bool) (nc np : nat) (a : AgentInternal) : Prop := {
  ai_wf : agent_wf_at strict a;
  ai_nc : (nc <= length (ai_candidates a))%nat;
  ai_np : (np <= length (ai_pairs a))%nat
}.

Lemma pair_wf_same a a' p : (length (ai_candidates a) <= length (ai_candidates a'))%nat -> ai_limits a = ai_limits a' ->
  pair_wf a p -> pair_wf a' p.
Proof. intros Hc Hl []. split; unfold request_bound; [lia..|]. by rewrite <- Hl. Qed.

Create HintDb ice_inv.

(** The invariant of a changed state, field by field; what the change does not
    touch is closed. *)
Ltac wf_split :=
  split; [split|..]; try done;
  try (eapply Forall_impl; [eassumption|]; intros ?; apply pair_wf_same; done).

Section invariant.
Context {P : Profile} {env : IceEnv} {laws : IceEnvLaws env} (strict : bool).

Abbreviation preserves nc np m := (keeps (agent_inv strict nc np) (fun (_ : IceError) => agent_inv strict nc np) m).

(** * Rules *)
Lemma inv_get {A B} nc np (f : AgentInternal -> A) (k : A -> AM B) :
  (forall a, agent_wf_at strict a -> (nc <= length (ai_candidates a))%nat -> (np <= length (ai_pairs a))%nat ->
     preserves (length (ai_candidates a)) (length (ai_pairs a)) (k (f a))) ->
  preserves nc np (st_get f ≫= k).
Proof.
  intros H a [Hwf Hc Hp]. specialize (H a Hwf Hc Hp a). unfold mbind, st_bind, st_get.
  destruct (k (f a) a) as [[x|e| |] a'].
  - destruct H as [? ? ?]; [by constructor|]. constructor; [done|lia..].
  - destruct H as [? ? ?]; [by constructor|]. constructor; [done|lia..].
  - apply H. by constructor.
  - apply H. by constructor.
Qed.

(** A change of the state that the invariant does not see *)
Definition unseen (f : AgentInternal -> AgentInternal) : Prop := forall a,
  ai_candidates (f a) = ai_candidates a /\ ai_pairs (f a) = ai_pairs a /\ ai_agent_conn (f a) = ai_agent_conn a /\
  ai_local_candidates (f a) = ai_local_candidates a /\ ai_remote_candidates (f a) = ai_remote_candidates a /\
  ai_nominated_pair (f a) = ai_nominated_pair a /\ ai_limits (f a) = ai_limits a /\
  ai_connection_state (f a) = ai_connection_state a.

Lemma inv_unseen nc np f : unseen f -> preserves nc np (st_modify f).
Proof.
  intros H. apply keeps_modify. intros a [[] Hc Hp]. destruct (H a) as (E1 & E2 & E3 & E4 & E5 & E6 & E7 & E8).
  split; [|by rewrite E1|by rewrite E2].
  unfold get_selected_pair, checklist, pair_of in *.
  split; unfold get_selected_pair, checklist, pair_of; rewrite ?E1, ?E2, ?E3, ?E4, ?E5, ?E6, ?E7, ?E8; try done.
  eapply Forall_impl; [done|]. intros p. by apply pair_wf_same; rewrite ?E1.
Qed.

Lemma emit_inv nc np o : preserves nc np (emit o).
Proof. by apply inv_unseen. Qed.

Lemma inv_candidate nc np c f : (forall x, ca_resolved_addr (f x) = ca_resolved_addr x) ->
  preserves nc np (on_candidate c f).
Proof.
  intros Hf. apply keeps_modify. intros a [[] Hc Hp].
  assert (Hl : length (alter f c (ai_candidates a)) = length (ai_candidates a)) by apply length_alter.
  split; cbn; rewrite ?Hl; try done. split; cbn; rewrite ?Hl; try done.
  - apply Forall_alter; [done|]. intros x Hx Hw. unfold cand_wf. rewrite Hf. exact Hw.
  - eapply Forall_impl; [done|]. intros p. apply pair_wf_same; cbn; by rewrite ?Hl.
Qed.

Lemma pair_of_alter a f p q : (p < length (ai_pairs a))%nat ->
  pair_of (a <| ai_pairs ::= alter f p |>) q = if decide (p = q) then f (pair_of a q) else pair_of a q.
Proof.
  intros Hp. unfold pair_of. cbn. rewrite !list_lookup_total_alt, list_lookup_alter.
  destruct (decide (p = q)) as [->|Hne]; [|done]. by destruct (lookup_lt_is_Some_2 _ _ Hp) as [x ->].
Qed.

(** A change of a pair that keeps its candidates, its bound and what a selected
    pair must have *)
Lemma pair_change nc np a p f : (p < np)%nat -> agent_inv strict nc np a ->
  (forall x, pair_wf a x -> x = pair_of a p -> pair_wf a (f x)) ->
  (cp_state (pair_of a p) = Succeeded -> cp_state (f (pair_of a p)) = Succeeded) ->
  (cp_nominated (pair_of a p) = true -> cp_nominated (f (pair_of a p)) = true) ->
  agent_inv strict nc np (a <| ai_pairs ::= alter f p |>).
Proof.
  intros Hp [[] Hc Hnp] Hw Hs Hn.
  assert (Hl : length (alter f p (ai_pairs a)) = length (ai_pairs a)) by apply length_alter.
  split; cbn; rewrite ?Hl; try done. split; cbn; rewrite ?Hl; try done.
  - assert (Hsame : forall x, pair_wf a x -> pair_wf (a <| ai_pairs ::= alter f p |>) x) by (intros x; by apply pair_wf_same).
    apply Forall_alter; [by eapply Forall_impl|]. intros x Hx _. apply Hsame, Hw.
    + by eapply Forall_lookup_1.
    + unfold pair_of. symmetry. by apply list_lookup_total_correct.
  - intros q Hq. destruct (aw_selected0 q Hq) as (Hlt & Hst & Hno). split; [done|].
    rewrite (pair_of_alter a f p q) by lia. destruct (decide (p = q)) as [->|]; [|done]. split; auto.
Qed.

Lemma inv_pair nc np p f : (p < np)%nat ->
  (forall a x, pair_wf a x -> pair_wf a (f x)) ->
  (forall x, cp_state x = Succeeded -> cp_state (f x) = Succeeded) ->
  (forall x, cp_nominated x = true -> cp_nominated (f x) = true) ->
  preserves nc np (on_pair p f).
Proof. intros Hp Hw Hs Hn. apply keeps_modify. intros a Ha. apply pair_change; auto. Qed.

Lemma lift_inv {A} nc np (r : res IceError A) : tame r -> preserves nc np (st_lift r).
Proof. intros H. by apply keeps_lift. Qed.

Lemma raise_inv {A} nc np (e : IceError) : preserves nc np (st_raise (A := A) e).
Proof. by apply keeps_raise. Qed.

Lemma lift_get_inv {A} nc np (f : AgentInternal -> res IceError A) : (forall a, tame (f a)) -> preserves nc np (st_lift_get f).
Proof. intros H a Ha. specialize (H a). unfold st_lift_get. by destruct (f a). Qed.

(** * The operations *)
Ltac inv_step :=
  lazymatch goal with
  | |- keeps _ _ (st_get _ ≫= _) => apply inv_get; intros
  | |- keeps _ _ (_ ≫= _) => apply keeps_bind; [|intros]
  | |- keeps _ _ (mret _) => apply keeps_ret
  | |- keeps _ _ (st_get _) => apply keeps_get
  | |- keeps _ _ (st_when _ _) => apply keeps_when; intros
  | |- keeps _ _ (st_for _ _) => apply keeps_for; intros
  | |- keeps _ _ (st_fold _ _ _) => apply keeps_fold; intros
  | |- keeps _ _ (st_raise _) => apply raise_inv
  | |- keeps _ _ (st_lift _) => apply lift_inv; solve [solve_tame]
  | |- keeps _ _ (match _ with _ => _ end) => case_match
  | |- keeps _ _ (st_modify _) => first [solve [eauto with ice_inv nocore] | apply inv_unseen; done]
  | |- keeps _ _ _ => solve [eauto with ice_inv nocore]
  end.

Ltac follow := repeat inv_step.

Lemma seen_inv nc np c outbound : preserves nc np (seen c outbound).
Proof. unfold seen. apply inv_get. intros. apply inv_candidate. intros x. by destruct outbound. Qed.
#[local] Hint Resolve seen_inv emit_inv : ice_inv.

Lemma write_to_inv nc np local raw dst : preserves nc np (write_to local raw dst).
Proof. unfold write_to. follow. Qed.

Lemma candidate_close_inv nc np c : preserves nc np (candidate_close c).
Proof.
  assert (H : forall nc np, preserves nc np (on_candidate c (fun x => x <| ca_open := false |>)))
    by (intros; by apply inv_candidate).
  unfold candidate_close. follow.
Qed.
#[local] Hint Resolve write_to_inv candidate_close_inv : ice_inv.

Lemma close_all_inv nc np cs : preserves nc np (close_all cs).
Proof. unfold close_all. follow. Qed.

Lemma inv_clear_local nc np : preserves nc np (st_modify (fun a => a <| ai_local_candidates := ∅ |>)).
Proof. apply keeps_modify. intros a [[] ? ?]. by wf_split. Qed.

Lemma inv_clear_remote nc np : preserves nc np (st_modify (fun a => a <| ai_remote_candidates := ∅ |>)).
Proof. apply keeps_modify. intros a [[] ? ?]. by wf_split. Qed.
#[local] Hint Resolve close_all_inv inv_clear_local inv_clear_remote : ice_inv.

Lemma delete_all_candidates_inv nc np : preserves nc np delete_all_candidates.
Proof. unfold delete_all_candidates. follow. Qed.
#[local] Hint Resolve delete_all_candidates_inv : ice_inv.

(** A new connection state, which is not one that needs a selected pair *)
Definition unconnected (s : ConnectionState) : Prop := s <> Connected /\ s <> Disconnected.

Lemma inv_state nc np s : unconnected s -> preserves nc np (st_modify (fun a => a <| ai_connection_state := s |>)).
Proof.
  intros [H1 H2]. apply keeps_modify. intros a [[] ? ?]. wf_split. cbn. by intros _ [?|?].
Qed.
#[local] Hint Resolve inv_state : ice_inv.

Lemma update_connection_state_inv nc np s : unconnected s -> preserves nc np (update_connection_state s).
Proof. intros H. unfold update_connection_state. follow. Qed.

(** With a pair selected, every state will do. *)
Abbreviation selected_inv nc np := (fun a => agent_inv strict nc np a /\ get_selected_pair a <> None).

Lemma delete_all_candidates_selected : stable get_selected_pair delete_all_candidates.
Proof.
  unfold delete_all_candidates, close_all, candidate_close, on_candidate, emit. stab.
Qed.

Lemma update_selected_inv nc np s :
  keeps (selected_inv nc np) (fun (_ : IceError) => agent_inv strict nc np) (update_connection_state s).
Proof.
  unfold update_connection_state. apply keeps_bind; [apply keeps_get|]. intros state. case_bool_decide; [apply keeps_ret|].
  assert (Hsame : forall m : AM unit, preserves nc np m -> stable get_selected_pair m ->
    keeps (selected_inv nc np) (fun (_ : IceError) => agent_inv strict nc np) m).
  { intros m Hm Hs a [Ha Hsel]. specialize (Hm a Ha). specialize (Hs a). destruct (m a) as [[] a']; cbn in *; try done.
    split; congruence. }
  apply keeps_bind; [|intros []; apply keeps_bind; [|intros []; apply keeps_bind; [apply keeps_get|intros tx]]].
  - apply keeps_when. intros _. apply Hsame; [apply delete_all_candidates_inv|apply delete_all_candidates_selected].
  - apply keeps_modify. intros a [[[] ? ?] Hsel]. split; [|done]. by wf_split.
  - apply keeps_when. intros _. apply Hsame; [apply emit_inv|done].
Qed.

Lemma set_selected_pair_inv nc np p : (p < np)%nat ->
  triple (fun a => agent_inv strict nc np a /\ cp_state (pair_of a p) = Succeeded) (set_selected_pair (Some p))
    (fun _ => agent_inv strict nc np) (fun _ => agent_inv strict nc np).
Proof.
  intros Hp. unfold set_selected_pair.
  eapply triple_bind with (Q0 := fun _ a => agent_inv strict nc np a /\ cp_state (pair_of a p) = Succeeded /\ cp_nominated (pair_of a p) = true).
  { intros a [Ha Hs]. pose proof (inv_pair nc np p (fun x => x <| cp_nominated := true |>) Hp
      ltac:(intros ? x []; by split) ltac:(done) ltac:(done) a Ha) as H. cbn in H |- *. split; [exact H|].
    pose proof (ai_np _ _ _ _ Ha). rewrite !(pair_of_alter a _ p p) by lia. by rewrite decide_True by done. }
  intros _. eapply triple_bind with (Q0 := fun _ => selected_inv nc np).
  { apply triple_modify. intros a ([[] ? ?] & Hs & Hn). split; [|done]. wf_split. cbn. intros q [= <-].
    split; [lia|]. done. }
  intros _. eapply triple_bind with (Q0 := fun _ => agent_inv strict nc np).
  { eapply triple_conseq; [apply update_selected_inv|intros ? H; exact H|by intros _ s [? _]|by intros]. }
  intros _. match goal with |- triple _ ?m _ _ => change (preserves nc np m) end. follow.
Qed.


(** * Pairs *)
Lemma add_pair_inv nc np local remote : (local < nc)%nat -> (remote < nc)%nat -> preserves nc np (add_pair local remote).
Proof.
  intros Hl Hr. apply keeps_modify. intros a [[] Hc Hp].
  assert (Hlen : length (ai_pairs a ++ [CandidatePair_new local remote (ai_is_controlling a)]) = S (length (ai_pairs a)))
    by (rewrite length_app; cbn; lia).
  assert (Hold : forall q, (q < length (ai_pairs a))%nat ->
    (ai_pairs a ++ [CandidatePair_new local remote (ai_is_controlling a)]) !!! q = ai_pairs a !!! q)
    by (intros q Hq; by rewrite lookup_total_app_l by done).
  split; cbn; [|done|rewrite Hlen; lia].
  split; cbn; try done.
  - apply Forall_app. split; [eapply Forall_impl; [done|]; intros ?; by apply pair_wf_same|].
    constructor; [|constructor]. destruct aw_limits0. split; cbn; unfold request_bound; cbn; lia.
  - rewrite Hlen. apply Forall_app. split; [|constructor; [lia|constructor]].
    eapply Forall_impl; [exact aw_checklist0|]. cbn. intros. lia.
  - rewrite Hlen. intros q Hq. unfold pair_of. cbn. destruct (aw_selected0 q Hq) as (H1 & H2 & H3). rewrite Hold by done.
    split; [lia|done].
  - rewrite Hlen. intros q Hq. specialize (aw_nominated0 q Hq). lia.
Qed.

Lemma refs_default nc (m : gmap NetworkType (list nat)) t : map_Forall (fun _ l => refs_below nc l) m -> refs_below nc (candidates_of m t).
Proof. intros H. unfold candidates_of. destruct (m !! t) eqn:Hm; [by apply (H t)|constructor]. Qed.

Lemma refs_insert nc (m : gmap NetworkType (list nat)) t c : map_Forall (fun _ l => refs_below nc l) m -> (c < nc)%nat ->
  map_Forall (fun _ l => refs_below nc l) (<[t := candidates_of m t ++ [c]]> m).
Proof.
  intros H Hc. apply map_Forall_insert_2; [|done]. apply Forall_app. split; [by apply refs_default|]. by repeat constructor.
Qed.

Lemma request_connectivity_check_inv nc np : preserves nc np request_connectivity_check.
Proof. by apply inv_unseen. Qed.
#[local] Hint Resolve request_connectivity_check_inv : ice_inv.

Lemma add_remote_candidate_inv nc np c : (c < nc)%nat -> preserves nc np (add_remote_candidate c).
Proof.
  intros Hc. unfold add_remote_candidate. inv_step. inv_step. inv_step; [apply keeps_ret|]. inv_step.
  { apply keeps_modify. intros ? [[] ? ?]. wf_split. cbn. apply refs_insert; [done|lia]. }
  inv_step. inv_step; [|follow]. inv_step. apply add_pair_inv; [|lia].
  match goal with Hw : agent_wf_at _ ?a, Hx : ?x ∈ candidates_of (ai_local_candidates ?a) _ |- _ =>
    exact (proj1 (Forall_forall _ _) (refs_default _ _ _ (aw_local _ _ Hw)) _ Hx) end.
Qed.

Lemma add_candidate_inv nc np c : (c < nc)%nat -> preserves nc np (add_candidate c).
Proof.
  intros Hc. unfold add_candidate. inv_step; [by apply inv_candidate|]. inv_step. inv_step. inv_step; [follow|]. inv_step.
  { apply keeps_modify. intros ? [[] ? ?]. wf_split. cbn. apply refs_insert; [done|lia]. }
  inv_step. inv_step; [|follow]. inv_step. apply add_pair_inv; [lia|].
  match goal with Hw : agent_wf_at _ ?a, Hx : ?x ∈ candidates_of (ai_remote_candidates ?a) _ |- _ =>
    exact (proj1 (Forall_forall _ _) (refs_default _ _ _ (aw_remote _ _ Hw)) _ Hx) end.
Qed.

Lemma find_pair_below a local remote p : agent_wf_at strict a -> find_pair local remote a = Some p -> (p < length (ai_pairs a))%nat.
Proof.
  intros Hwf. unfold find_pair. destruct (list_find _ _) as [[i q]|] eqn:Hf; [|done]. intros [= <-].
  apply list_find_Some in Hf as (Hi & _ & _). pose proof (aw_checklist _ _ Hwf) as Hc.
  eapply Forall_lookup_1 in Hi; [|exact Hc]. exact Hi.
Qed.

Lemma find_remote_below a t addr c : agent_wf_at strict a -> find_remote_candidate t addr a = Some c -> (c < length (ai_candidates a))%nat.
Proof.
  intros Hwf. unfold find_remote_candidate. destruct (list_find _ _) as [[i q]|] eqn:Hf; [|done]. intros [= <-].
  apply list_find_Some in Hf as (Hi & _ & _). pose proof (refs_default _ _ t (aw_remote _ _ Hwf)) as Hc.
  eapply Forall_lookup_1 in Hi; [|exact Hc]. exact Hi.
Qed.

(** * Requests and replies *)
Lemma tame_pair_priority controlling l r : tame (pair_priority (E := IceError) controlling l r).
Proof. unfold pair_priority. destruct controlling; solve_tame. Qed.

Lemma tame_candidate_priority c : tame (candidate_priority (E := IceError) c).
Proof. unfold candidate_priority. solve_tame. Qed.

Lemma tame_best_pair a ok l : forall best, tame (best_pair (E := IceError) a ok best l).
Proof.
  induction l as [|p l IH]; intros best; [done|]. cbn [best_pair]. destruct (negb _); [apply IH|]. destruct best; [|apply IH].
  unfold CandidatePair_priority.
  repeat first [apply IH | apply tame_candidate_priority | apply tame_pair_priority | apply tame_bind; [|intros]].
Qed.

Lemma best_inv nc np ok : keeps (agent_inv strict nc np) (fun (_ : IceError) => agent_inv strict nc np)
  (fun a => (best_pair a ok None (checklist a), a)).
Proof.
  intros a Ha. pose proof (tame_best_pair a ok (checklist a) None). by destruct (best_pair a ok None (checklist a)).
Qed.

Lemma best_available_inv nc np : preserves nc np get_best_available_candidate_pair.
Proof. apply best_inv. Qed.
Lemma best_valid_inv nc np : preserves nc np get_best_valid_candidate_pair.
Proof. apply best_inv. Qed.

Lemma priority_inv nc np local : preserves nc np (st_lift_get (fun a => candidate_priority (cand_of a local))).
Proof. apply lift_get_inv. intros a. apply tame_candidate_priority. Qed.
#[local] Hint Resolve best_available_inv best_valid_inv priority_inv : ice_inv.

Lemma send_stun_inv nc np m local remote : preserves nc np (send_stun m local remote).
Proof. unfold send_stun. follow. Qed.

Lemma invalidate_inv nc np t : preserves nc np (invalidate_pending_binding_requests t).
Proof. by apply inv_unseen. Qed.
#[local] Hint Resolve send_stun_inv invalidate_inv : ice_inv.

Lemma send_binding_request_inv nc np m local remote : preserves nc np (send_binding_request m local remote).
Proof. unfold send_binding_request. follow. Qed.

Lemma handle_inbound_binding_success_inv nc np id : preserves nc np (handle_inbound_binding_success id).
Proof. unfold handle_inbound_binding_success. follow. Qed.

Lemma new_transaction_id_inv nc np : preserves nc np new_transaction_id.
Proof. unfold new_transaction_id. follow. Qed.
#[local] Hint Resolve send_binding_request_inv handle_inbound_binding_success_inv : ice_inv.

(** A draw gives an id of twelve bytes. *)
Lemma draw_inv {B} nc np (k : bytes -> AM B) : (forall id, length id = 12%nat -> preserves nc np (k id)) ->
  preserves nc np (new_transaction_id ≫= k).
Proof.
  intros H. unfold new_transaction_id. intros a Ha. unfold mbind, st_bind, st_get, st_modify, mret, st_ret. cbn.
  apply (H _ (ice_transaction_id_length (ai_ids a))). by apply (inv_unseen nc np (fun a' => a' <| ai_ids := S (ai_ids a) |>)).
Qed.

(** Building a request returns a message or refuses the name. *)
Lemma build_request_inv nc np typ id username l k : length id = 12%nat -> ATTR_FINGERPRINT ∉ l.*1 ->
  Z.of_nat (length (tlvs l)) < 60000 ->
  preserves nc np (build_message (request_setters typ id username l k)).
Proof.
  intros Hid Hfp Hs a Ha. pose proof (request_built typ id username l k Hid Hfp Hs) as H.
  unfold build_message. destruct (length username <=? MAX_USERNAME_B)%nat; destruct H as (m & H).
  - by destruct H as [-> _].
  - by rewrite H.
Qed.

Lemma build_success_inv nc np m addr k : length (m_transaction_id m) = 12%nat -> ip_wf (sa_ip addr) ->
  preserves nc np (build_message (success_setters m addr k)).
Proof.
  intros Hid Hip a Ha. destruct (success_built m addr k Hid Hip) as (m' & H & _). unfold build_message. by rewrite H.
Qed.

Lemma ping_candidate_inv nc np local remote : preserves nc np (ping_candidate local remote).
Proof.
  unfold ping_candidate. inv_step. inv_step.
  - unfold controlling_ping_candidate. inv_step. apply draw_inv. intros id Hid. follow.
    eapply (build_request_inv _ _ BINDING_REQUEST id _ (controlling_attrs _ _)); [exact Hid|apply controlling_attrs_ok..].
  - unfold controlled_ping_candidate. inv_step. apply draw_inv. intros id Hid. follow.
    eapply (build_request_inv _ _ BINDING_REQUEST id _ (controlled_attrs _ _)); [exact Hid|apply controlled_attrs_ok..].
Qed.

Lemma nominate_pair_inv nc np : preserves nc np nominate_pair.
Proof.
  unfold nominate_pair. inv_step. inv_step; [|follow]. inv_step. apply draw_inv. intros id Hid. follow.
  eapply (build_request_inv _ _ BINDING_REQUEST id _ (nominating_attrs _ _)); [exact Hid|apply nominating_attrs_ok..].
Qed.

Lemma cand_of_wf a c : agent_wf_at strict a -> (c < length (ai_candidates a))%nat -> cand_wf (cand_of a c).
Proof.
  intros Hw Hc. unfold cand_of. destruct (lookup_lt_is_Some_2 _ _ Hc) as [x Hx].
  rewrite (list_lookup_total_correct _ _ _ Hx). by eapply Forall_lookup_1; [apply (aw_candidates _ _ Hw)|].
Qed.

Lemma pair_of_wf a p : agent_wf_at strict a -> (p < length (ai_pairs a))%nat -> pair_wf a (pair_of a p).
Proof.
  intros Hw Hc. unfold pair_of. destruct (lookup_lt_is_Some_2 _ _ Hc) as [x Hx].
  rewrite (list_lookup_total_correct _ _ _ Hx). by eapply Forall_lookup_1; [apply (aw_pairs _ _ Hw)|].
Qed.

Lemma send_binding_success_inv nc np m local remote : length (m_transaction_id m) = 12%nat -> (remote < nc)%nat ->
  preserves nc np (send_binding_success m local remote).
Proof.
  intros Hid Hr. unfold send_binding_success. apply inv_get. intros a Hw Hc _.
  assert (Hip : ip_wf (sa_ip (ca_resolved_addr (cand_of a remote)))) by (apply (cand_of_wf a remote Hw); lia).
  follow. by apply (build_success_inv _ _ m).
Qed.
#[local] Hint Resolve ping_candidate_inv nominate_pair_inv : ice_inv.

(** A pair whose state is not that of a valid one *)
Lemma mark_pair nc np a p st : (p < np)%nat -> agent_inv strict nc np a -> cp_state (pair_of a p) <> Succeeded ->
  agent_inv strict nc np (a <| ai_pairs ::= alter (fun x => x <| cp_state := st |>) p |>).
Proof. intros Hp Ha Hs. apply pair_change; [done|done| |done|done]. intros x [] _. by split. Qed.

Lemma count_pair nc np a p : (p < np)%nat -> agent_inv strict nc np a ->
  cp_binding_request_count (pair_of a p) <= al_max_binding_requests (ai_limits a) ->
  agent_inv strict nc np (a <| ai_pairs ::= alter (fun x => x <| cp_binding_request_count ::= fun n => wrap 16 (n + 1) |>) p |>).
Proof.
  intros Hp Ha Hc. apply pair_change; [done|done| |done|done]. intros x [Hl Hr Hb] ->. split; [done|done|]. cbn.
  destruct (aw_limits _ _ (ai_wf _ _ _ _ Ha)) as [Hm _]. unfold request_bound in *.
  destruct (Z.eq_dec (cp_binding_request_count (pair_of a p)) 65535) as [->|Hne].
  - change (wrap 16 (65535 + 1)) with 0. lia.
  - rewrite wrap_small by (unfold in_range; change (2 ^ 16) with 65536; lia). lia.
Qed.

Lemma ping_pair_inv nc np pairs p : (p < np)%nat -> preserves nc np (ping_pair pairs p).
Proof.
  intros Hp a Ha. unfold ping_pair. unfold mbind at 1, st_bind at 1, st_get at 1.
  destruct (_ || _) eqn:Hst; [|done].
  assert (Hns : cp_state (pair_of a p) <> Succeeded)
    by (intros E; rewrite E in Hst; discriminate).
  set (wait := st_when _ _).
  assert (exists a1, wait a = (Ok tt, a1) /\ agent_inv strict nc np a1 /\ cp_state (pair_of a1 p) <> Succeeded)
    as (a1 & Hw & Ha1 & Hs1).
  { unfold wait. destruct (bool_decide (cp_state (pair_of a p) = Waiting)); [|by exists a].
    eexists. split; [reflexivity|]. split; [by apply mark_pair|].
    rewrite (pair_of_alter a _ p p) by (destruct Ha; lia). by rewrite decide_True. }
  unfold mbind, st_bind. rewrite Hw. unfold st_get. destruct (_ >? _) eqn:Hgt.
  - by apply (mark_pair nc np a1 p Failed).
  - apply (count_pair nc np a1 p Hp Ha1). rewrite Z.gtb_ltb, Z.ltb_ge in Hgt. exact Hgt.
Qed.

Lemma ping_all_candidates_inv nc np : preserves nc np ping_all_candidates.
Proof.
  unfold ping_all_candidates. apply inv_get. intros a Hw Hc Hp. inv_step; [|follow].
  inv_step. apply ping_pair_inv. pose proof (aw_checklist _ _ Hw) as Hl. by eapply Forall_forall in Hl.
Qed.
#[local] Hint Resolve ping_all_candidates_inv : ice_inv.

Lemma check_keepalive_inv nc np : preserves nc np check_keepalive.
Proof. unfold check_keepalive. follow. Qed.

Lemma duration_tame a b : a + b <= DURATION_MAX -> tame (duration_add (E := IceError) a b).
Proof. intros H. unfold duration_add. by rewrite (proj2 (Z.leb_le _ _) H). Qed.

Lemma validate_selected_pair_inv nc np : preserves nc np validate_selected_pair.
Proof.
  unfold validate_selected_pair. intros a Ha. unfold mbind at 1, st_bind at 1, st_get at 1.
  destruct (get_selected_pair a) as [p|] eqn:Hsel; [|done].
  pose proof (aw_limits _ _ (ai_wf _ _ _ _ Ha)) as [_ Ht].
  unfold mbind at 1 2 3, st_bind at 1 2 3, st_get at 1 2, st_lift.
  set (total := if negb (al_failed_timeout (ai_limits a) =? 0) then _ else _).
  assert (exists t, total = Ok t) as [t ->].
  { unfold total. destruct (negb _); [|by eexists]. unfold duration_add. rewrite Z.add_comm, (proj2 (Z.leb_le _ _) Ht). by eexists. }
  unfold mbind, st_bind. set (st := if _ && _ then _ else _).
  pose proof (update_selected_inv nc np st a) as H. cbn beta in H.
  destruct (update_connection_state st a) as [[[]|e| |] a'].
  - apply H. split; [done|]. by rewrite Hsel.
  - apply H. split; [done|]. by rewrite Hsel.
  - apply H. split; [done|]. by rewrite Hsel.
  - apply H. split; [done|]. by rewrite Hsel.
Qed.
#[local] Hint Resolve check_keepalive_inv validate_selected_pair_inv : ice_inv.

(** * The selectors *)
Lemma nominate_inv nc np p : (p < np)%nat -> preserves nc np (st_modify (fun a => a <| ai_nominated_pair := Some p |>)).
Proof. intros Hp. apply keeps_modify. intros a [[] ? ?]. wf_split. cbn. intros q [= <-]. lia. Qed.

Lemma best_pair_below a ok l p : refs_below (length (ai_pairs a)) l -> forall best,
  (forall b, best = Some b -> (b < length (ai_pairs a))%nat) ->
  best_pair (E := IceError) a ok best l = Ok (Some p) -> (p < length (ai_pairs a))%nat.
Proof.
  induction 1 as [|q l Hq Hl IH]; intros best Hb; cbn [best_pair]; [intros [= ->]; by apply Hb|].
  destruct (negb _); [by apply IH|]. destruct best as [b|]; [|apply IH; by intros ? [= <-]].
  intros H. invert_Ok. eapply IH; [|exact H]. intros ?. case_match; intros [= <-]; [done|by apply Hb].
Qed.

(** A reading of the best pair gives a pair of the store. *)
Lemma inv_best {B} nc np ok (k : option nat -> AM B) :
  (forall a best, agent_wf_at strict a -> (nc <= length (ai_candidates a))%nat -> (np <= length (ai_pairs a))%nat ->
     (forall p, best = Some p -> (p < length (ai_pairs a))%nat) ->
     preserves (length (ai_candidates a)) (length (ai_pairs a)) (k best)) ->
  preserves nc np ((fun a => (best_pair a ok None (checklist a), a)) ≫= k).
Proof.
  intros H a [Hwf Hc Hp]. unfold mbind, st_bind. pose proof (tame_best_pair a ok (checklist a) None) as Ht.
  destruct (best_pair a ok None (checklist a)) as [best|e| |] eqn:Hb; try done.
  assert (Hlt : forall p, best = Some p -> (p < length (ai_pairs a))%nat).
  { intros p ->. eapply best_pair_below; [apply (aw_checklist _ _ Hwf)| |exact Hb]. done. }
  specialize (H a best Hwf Hc Hp Hlt a ltac:(by constructor)).
  destruct (k best a) as [[]]; try done; destruct H; split; lia || done.
Qed.

Lemma controlling_start_inv nc np : preserves nc np controlling_start.
Proof. apply keeps_modify. intros a [[] ? ?]. by wf_split. Qed.

Lemma start_inv nc np : preserves nc np start.
Proof. unfold start, controlled_start. pose proof controlling_start_inv. follow. Qed.

#[local] Hint Resolve start_inv : ice_inv.

Lemma mark_nominated_inv nc np p : (p < np)%nat -> preserves nc np (on_pair p (fun x => x <| cp_nominated := true |>)).
Proof. intros Hp. apply inv_pair; [done|intros ? x []; by split|done|done]. Qed.

Lemma controlling_contact_candidates_inv nc np : preserves nc np controlling_contact_candidates.
Proof.
  unfold controlling_contact_candidates. inv_step. inv_step. inv_step; [follow|]. inv_step; [follow|].
  apply inv_best. intros b1 best1 _ _ _ _. inv_step.
  lazymatch goal with |- keeps _ _ (if ?b then _ else _) => destruct b; [|follow] end.
  apply inv_best. intros b2 best2 _ _ _ Hb.
  inv_step; [|follow]. inv_step; [|follow]. inv_step; [apply mark_nominated_inv|apply nominate_inv]; by apply Hb.
Qed.

Lemma controlled_contact_candidates_inv nc np : preserves nc np controlled_contact_candidates.
Proof. unfold controlled_contact_candidates. follow. Qed.
#[local] Hint Resolve controlling_contact_candidates_inv controlled_contact_candidates_inv : ice_inv.

Lemma contact_candidates_inv nc np : preserves nc np contact_candidates.
Proof. unfold contact_candidates. follow. Qed.

Lemma succeed_inv nc np p : (p < np)%nat -> preserves nc np (on_pair p (fun x => x <| cp_state := Succeeded |>)).
Proof. intros Hp. apply inv_pair; [done|intros ? x []; by split|done|done]. Qed.

(** The pair that succeeds may be selected at once. *)
Lemma succeed_select_inv nc np p b : (p < np)%nat ->
  preserves nc np (_ ← on_pair p (fun x => x <| cp_state := Succeeded |>); st_when b (set_selected_pair (Some p))).
Proof.
  intros Hp. eapply triple_bind with (Q0 := fun _ a => agent_inv strict nc np a /\ cp_state (pair_of a p) = Succeeded).
  - intros a Ha. pose proof (succeed_inv nc np p Hp a Ha) as H. split; [exact H|].
    rewrite (pair_of_alter a _ p p) by (destruct Ha; lia). by rewrite decide_True.
  - intros _. destruct b; [by apply set_selected_pair_inv|]. apply triple_ret. by intros ? [? _].
Qed.

Lemma controlling_success_inv nc np m local remote addr : preserves nc np (controlling_handle_success_response m local remote addr).
Proof.
  unfold controlling_handle_success_response. inv_step; [follow|]. inv_step; [|follow]. inv_step; [follow|].
  inv_step. apply inv_get. intros b1 Hb _ _. destruct (find_pair local remote b1) as [p|] eqn:Hf; [|follow].
  apply succeed_select_inv. by eapply find_pair_below.
Qed.

Lemma controlled_success_inv nc np m local remote addr : preserves nc np (controlled_handle_success_response m local remote addr).
Proof.
  unfold controlled_handle_success_response. inv_step; [follow|]. inv_step; [|follow]. inv_step; [follow|].
  apply inv_get. intros b1 Hb _ _. destruct (find_pair local remote b1) as [p|] eqn:Hf; [|follow].
  apply succeed_inv. by eapply find_pair_below.
Qed.

Lemma controlling_request_inv nc np m local remote : length (m_transaction_id m) = 12%nat ->
  (local < nc)%nat -> (remote < nc)%nat -> preserves nc np (controlling_handle_binding_request m local remote).
Proof.
  intros Hid Hl Hr. unfold controlling_handle_binding_request. inv_step; [by apply send_binding_success_inv|].
  apply inv_get. intros b1 Hb1 Hc1 _. destruct (find_pair local remote b1) as [p|] eqn:Hf; [|apply add_pair_inv; lia].
  pose proof (find_pair_below _ _ _ _ Hb1 Hf) as Hp. inv_step. inv_step. inv_step. inv_step. apply inv_best.
  intros b2 best _ _ Hp2 _. inv_step; [|follow]. inv_step. inv_step. inv_step; [|follow]. apply nominate_inv. lia.
Qed.

(** A pair that is seen to have succeeded may be selected. *)
Lemma select_succeeded_inv nc np p : (p < np)%nat ->
  triple (fun a => agent_inv strict nc np a /\ cp_state (pair_of a p) = Succeeded)
    (selected ← st_get get_selected_pair; st_when (bool_decide (selected = None)) (set_selected_pair (Some p)))
    (fun _ => agent_inv strict nc np) (fun _ => agent_inv strict nc np).
Proof.
  intros Hp a Ha. unfold mbind, st_bind, st_get. destruct (bool_decide _); [by apply set_selected_pair_inv|apply Ha].
Qed.

Lemma controlled_request_inv nc np m local remote : length (m_transaction_id m) = 12%nat ->
  (local < nc)%nat -> (remote < nc)%nat -> preserves nc np (controlled_handle_binding_request m local remote).
Proof.
  intros Hid Hl Hr. unfold controlled_handle_binding_request. inv_step. inv_step.
  { inv_step. apply add_pair_inv; lia. }
  apply inv_get. intros b1 Hb1 Hc1 _. destruct (find_pair local remote b1) as [p|] eqn:Hf; [|follow].
  pose proof (find_pair_below _ _ _ _ Hb1 Hf) as Hp. destruct (contains m ATTR_USE_CANDIDATE); cycle 1.
  { inv_step; [apply send_binding_success_inv; [done|lia]|follow]. }
  intros b2 Hb2. unfold mbind at 1, st_bind at 1, st_get at 1. case_bool_decide as Hst; [|by apply ping_candidate_inv].
  pose proof (select_succeeded_inv (length (ai_candidates b1)) (length (ai_pairs b1)) p Hp b2 (conj Hb2 Hst)) as Hsel.
  unfold mbind, st_bind, st_get in *. destruct (st_when _ _ b2) as [[[]|e| |] b3]; try done.
  apply send_binding_success_inv; [done|lia|exact Hsel].
Qed.
#[local] Hint Resolve controlling_success_inv controlled_success_inv contact_candidates_inv : ice_inv.

Lemma handle_success_response_inv nc np m local remote addr : preserves nc np (handle_success_response m local remote addr).
Proof. unfold handle_success_response. follow. Qed.

Lemma handle_binding_request_inv nc np m local remote : length (m_transaction_id m) = 12%nat ->
  (local < nc)%nat -> (remote < nc)%nat -> preserves nc np (handle_binding_request m local remote).
Proof.
  intros. unfold handle_binding_request. inv_step. inv_step; [apply controlling_request_inv|apply controlled_request_inv]; lia || done.
Qed.

(** * Inbound messages *)

(** What decoding gives. *)
Record decoded_ok (m : Message) : Prop := {
  de_length : m_length m = Z.of_nat (tiles (m_attributes m));
  de_attributes : Forall attr_wf (m_attributes m);
  de_raw : (20 + tiles (m_attributes m) <= length (m_raw m))%nat;
  de_id : length (m_transaction_id m) = 12%nat;
  de_small : m_length m < 65536
}.

Lemma decoded_cases buf : match decoded buf with
  | (Ok _, m) => decoded_ok m
  | (Err _, _) => True
  | _ => False
  end.
Proof.
  unfold decoded. destruct (stun_decode_total (Message_new <| m_raw := buf |>)) as (r & m & -> & Hs & Hr & Hok).
  destruct r as [[]|e| |]; try done. destruct (Hok eq_refl) as (? & ? & ? & ? & ?). split; try done. by rewrite Hr.
Qed.

Lemma with_integrity_inv nc np m key k : decoded_ok m -> (forall raw, preserves nc np (k (m <| m_raw := raw |>))) ->
  preserves nc np (with_integrity m key k).
Proof.
  intros [] Hk. unfold with_integrity, assert_inbound_message_integrity.
  destruct (MessageIntegrity_check_total ice_hmac_sha1 (mkMessageIntegrity key) m) as (r & raw & -> & Hs); [done..|].
  destruct r as [[]|e| |]; [apply Hk|apply keeps_ret|done..].
Qed.

Lemma mark_seen_inv nc np rc : preserves nc np (mark_seen rc).
Proof. unfold mark_seen. follow. Qed.
#[local] Hint Resolve mark_seen_inv handle_success_response_inv : ice_inv.

Lemma username_returns m u : safe (assert_inbound_username m u).
Proof.
  unfold assert_inbound_username, TextAttribute_get_from_as, get. cbn -[Attributes_get].
  destruct (Attributes_get _ _); cbn; [|done]. by destruct (utf8_valid _).
Qed.

Lemma handle_inbound_keeps nc np m local addr : decoded_ok m -> (local < nc)%nat -> preserves nc np (handle_inbound m local addr).
Proof.
  intros Hm Hl. unfold handle_inbound. inv_step; [follow|]. inv_step. inv_step; [follow|].
  apply inv_get. intros b1 Hb1 Hc1 _. set (rc := find_remote_candidate _ _ _).
  assert (Hrc : forall c, rc = Some c -> (c < length (ai_candidates b1))%nat) by (intros c; by apply find_remote_below).
  clearbody rc. destruct (_ =? CLASS_SUCCESS_RESPONSE).
  - inv_step. apply with_integrity_inv; [done|]. intros raw. follow.
  - destruct (_ =? CLASS_REQUEST); [|follow]. apply inv_get. intros b2 _ Hc2 _.
    pose proof (username_returns m (inbound_username (ai_ufrag_pwd b2))) as Hs.
    destruct (assert_inbound_username _ _) as [[|]|e| |]; [|apply keeps_ret..|done|done]. apply with_integrity_inv; [done|]. intros raw.
    destruct rc as [c|]; [|follow]. inv_step; [|follow]. specialize (Hrc c eq_refl).
    apply handle_binding_request_inv; [by destruct Hm|lia|lia].
Qed.

Lemma buffer_packet_inv nc np buf : preserves nc np (buffer_packet buf).
Proof.
  intros a Ha. unfold buffer_packet. destruct (aw_buffer _ _ (ai_wf _ _ _ _ Ha)) as [q Hq].
  pose proof (buffer_write_cases _ q buf Hq) as H. destruct (buffer_write _ _) as [[n|e| |] b]; try done.
  - destruct H as (_ & _ & _ & _ & Hh). destruct Ha as [[] ? ?]. wf_split. by exists (q ++ [buf]).
  - destruct H as [Hh _]. destruct Ha as [[] ? ?]. wf_split. by exists q.
Qed.

Lemma validate_non_stun_traffic_inv nc np local addr : preserves nc np (validate_non_stun_traffic local addr).
Proof. unfold validate_non_stun_traffic. follow. Qed.
#[local] Hint Resolve buffer_packet_inv validate_non_stun_traffic_inv : ice_inv.

Lemma handle_inbound_candidate_msg_inv nc np c buf addr : (c < nc)%nat -> preserves nc np (handle_inbound_candidate_msg c buf addr).
Proof.
  intros Hc. unfold handle_inbound_candidate_msg. destruct (is_message buf); [|follow].
  pose proof (decoded_cases buf) as H. destruct (decoded buf) as [[[]|e| |] m]; [|follow|done..]. by apply handle_inbound_keeps.
Qed.

Lemma recv_round_inv nc np c buf addr : (c < nc)%nat -> preserves nc np (recv_round c buf addr).
Proof.
  intros Hc. unfold recv_round. inv_step. inv_step. apply handle_inbound_candidate_msg_inv. lia.
Qed.

(** * The task and the interface *)
Lemma contact_inv nc np k : preserves nc np (contact k).
Proof.
  unfold contact. inv_step. inv_step. inv_step; [follow|]. apply inv_get. intros b1 Hb1 _ _.
  destruct (aw_limits _ _ Hb1) as [_ Ht]. inv_step.
  { inv_step; [|follow]. apply keeps_bind; [|intros; apply keeps_ret]. apply lift_inv. by apply duration_tame. }
  inv_step; [|follow]. inv_step; [|follow]. by apply update_connection_state_inv.
Qed.

Lemma set_remote_credentials_inv nc np u p : preserves nc np (set_remote_credentials u p).
Proof. unfold set_remote_credentials. follow. Qed.

Lemma start_connectivity_checks_inv nc np c u p : preserves nc np (start_connectivity_checks c u p).
Proof.
  assert (H : forall nc np, preserves nc np (update_connection_state Checking)) by (intros; by apply update_connection_state_inv).
  pose proof set_remote_credentials_inv. unfold start_connectivity_checks. follow.
Qed.

Lemma inv_conn nc np f : (forall c, ac_selected_pair (f c) = ac_selected_pair c) ->
  (forall c, ac_checklist (f c) = ac_checklist c) -> (forall c q, holds (ac_buffer c) q -> exists q', holds (ac_buffer (f c)) q') ->
  preserves nc np (on_conn f).
Proof.
  intros Hs Hc Hb. apply keeps_modify. intros a [[] ? ?]. unfold get_selected_pair, checklist in *. wf_split.
  - unfold checklist. cbn. by rewrite Hc.
  - intros p. unfold get_selected_pair. cbn. rewrite Hs. apply aw_selected0.
  - cbn. destruct aw_buffer0 as [q Hq]. by eapply Hb.
  - unfold get_selected_pair. cbn. by rewrite Hs.
Qed.

Lemma AgentInternal_close_inv nc np : preserves nc np AgentInternal_close.
Proof.
  assert (H : forall nc np, preserves nc np (update_connection_state ConnClosed)) by (intros; by apply update_connection_state_inv).
  assert (H1 : forall nc np, preserves nc np (on_conn (fun c => c <| ac_buffer ::= fun b => snd (buffer_close b) |>))).
  { intros. apply inv_conn; [done..|]. intros c q Hq. exists q. cbn. destruct (b_closed (ac_buffer c)); [exact Hq|]. destruct Hq as [[]]. by split; [split|..]. }
  assert (H2 : forall nc np, preserves nc np (on_conn (fun c => c <| ac_done := true |>))).
  { intros. apply inv_conn; [done..|]. intros c q Hq. by exists q. }
  unfold AgentInternal_close. follow.
Qed.

Lemma AgentConn_send_inv nc np buf : preserves nc np (AgentConn_send buf).
Proof.
  assert (H1 : forall nc np n, preserves nc np (on_conn (fun c => c <| ac_bytes_sent ::= fun m => wrap 64 (m + n) |>))).
  { intros. apply inv_conn; [done..|]. intros c q Hq. by exists q. }
  unfold AgentConn_send, CandidatePair_write. follow.
Qed.

Lemma read_err_holds b q buf e b' : holds b q -> read_attempt buf b = (Err e, b') -> holds b' q.
Proof.
  intros Hb. unfold read_attempt. destruct (negb _).
  - destruct (take_packet buf b) as [[[? ?] ?]|e'| |]; try done. by intros [= _ <-].
  - destruct (b_closed _); [|done]. intros [= _ <-]. destruct Hb as [[]]. by split; [split|..].
Qed.

Lemma AgentConn_recv_inv nc np buf : preserves nc np (AgentConn_recv buf).
Proof.
  intros a Ha. unfold AgentConn_recv. destruct (ac_done _); [done|].
  destruct (aw_buffer _ _ (ai_wf _ _ _ _ Ha)) as [q Hq]. pose proof (read_attempt_cases _ q buf Hq) as H.
  assert (Hset : forall b q', holds b q' ->
    agent_inv strict nc np (a <| ai_agent_conn ::= fun c => c <| ac_buffer := b |> |>)).
  { intros b q' Hb. destruct Ha as [[] ? ?]. wf_split. by exists q'. }
  pose proof (fun e b => read_err_holds _ q buf e b Hq) as Herr.
  destruct (read_attempt buf _) as [[[[[n|e| |] buf']|]|e| |] b]; try done.
  - destruct H as (p & q' & -> & Hh & _ & _). destruct (Hset b q' Hh) as [[] ? ?]. wf_split.
  - destruct H as (p & q' & -> & Hh & _ & _). by apply (Hset b q').
  - destruct H as (p & q' & _ & _ & _ & Hr). by destruct (_ <? _)%nat.
  - destruct H as (p & q' & _ & _ & _ & Hr). by destruct (_ <? _)%nat.
  - destruct H as (-> & Hh & _). by apply (Hset b []).
  - apply (Hset b q). by eapply Herr.
Qed.
End invariant.
