(* ===== verification/IceSystem.v ===== *)
(** The ICE agent as a system of events: ticks of its task, datagrams, candidates,
    calls of its user.  The invariant holds in every reachable state, and no
    datagram and no call panics it but by an overflow that a build checks for. *)
From Stdlib Require Import Strings.String.
From S2P Require Import Prelude Utf8 Stun StunLaws StunAttrs StunAttrsLaws Text IpText Buffer IceCandidate IceAgent IceSelector IceApi IceMessage IceSample IceInvariant.

(** The clocks only move by [ClockTo].  A remote candidate is built as
    [RTCIceCandidate::to_ice] builds it. *)
Inductive IceEvent : Type :=
  | ClockTo (instant system : Z)
  | Contact
  | Datagram (c : nat) (buf : bytes) (src : SocketAddr)
  | RemoteCandidate (config : CandidateBaseConfig) (id : str)
  | Gather (handler : bool) (listen : IpAddr -> option Z) (random_id : IpAddr -> str) (ips : list IpAddr)
  | Dial (remote_ufrag remote_pwd : bytes)
  | Accept (remote_ufrag remote_pwd : bytes)
  | Restart (rng : nat -> nat) (ufrag pwd : bytes)
  | CloseAgent
  | SendData (buf : bytes)
  | RecvData (buf : bytes).

Section system.
Context {P : Profile} {env : IceEnv}.

(** The task of the connectivity checks runs from the start until the close. *)
Definition task_running (a : AgentInternal) : bool := negb (ai_started_ch_tx a) && ai_done_tx a.

Definition ice_contact (k : Checks) : AM Checks :=
  running ← st_get task_running;
  if (running : bool) then contact k else mret k.

Definition add_remote (config : CandidateBaseConfig) (id : str) : GM unit :=
  match new_candidate_host config id with
  | Ok c => c ← internal (new_arc c); Agent_add_remote_candidate c
  | Err e => st_raise e
  | Panic => st_lift Panic
  | OutOfFuel => st_lift OutOfFuel
  end.

Definition ice_event (e : IceEvent) (k : Checks) : GM Checks :=
  match e with
  | ClockTo instant system => _ ← internal (st_modify (fun a => a <| ai_instant := instant |> <| ai_system := system |>)); mret k
  | Contact => internal (ice_contact k)
  | Datagram c buf src => _ ← internal (recv_round c buf src); mret k
  | RemoteCandidate config id => _ ← add_remote config id; mret k
  | Gather handler listen random_id ips => _ ← gather_candidates handler listen random_id ips; mret k
  | Dial u p => _ ← dial u p; mret k
  | Accept u p => _ ← accept u p; mret k
  | Restart rng u p => _ ← restart rng u p; mret k
  | CloseAgent => _ ← Agent_close; mret k
  | SendData buf => _ ← internal (AgentConn_send buf); mret k
  | RecvData buf => _ ← internal (AgentConn_recv buf); mret k
  end.

(** The addresses of the machine have the length of their family. *)
Definition event_wf (e : IceEvent) : Prop :=
  match e with Gather _ _ _ ips => Forall ip_wf ips | _ => True end.

Record config_wf (c : AgentConfig) : Prop := {
  cw_max : 0 <= default DEFAULT_MAX_BINDING_REQUESTS (cf_max_binding_requests c) <= 65535;
  cw_timeouts : default DEFAULT_DISCONNECTED_TIMEOUT (cf_disconnected_timeout c)
                + default DEFAULT_FAILED_TIMEOUT (cf_failed_timeout c) <= DURATION_MAX
}.

(** A step is an event that does not panic; a failed call leaves the task as it was. *)
Inductive ice_step : Checks * Agent -> Checks * Agent -> Prop :=
  | step_ok e k g k' g' : event_wf e -> ice_event e k g = (Ok k', g') -> ice_step (k, g) (k', g')
  | step_err e k g err g' : event_wf e -> ice_event e k g = (Err err, g') -> ice_step (k, g) (k, g').

(** A new agent, with the clocks it reads *)
Inductive ice_init : Checks * Agent -> Prop :=
  | init_new config mdns_random tie_breaker instant system rng g : config_wf config ->
      Agent_new config mdns_random tie_breaker instant system rng = Ok g ->
      ice_init (mkChecks ConnUnspecified instant, g).

Definition reachable (s : Checks * Agent) : Prop := exists s0, ice_init s0 /\ rtc ice_step s0 s.
End system.

(** * Addresses that are read from text *)
Lemma read_octets_length n i s o r : read_octets n i s = Some (o, r) -> length o = n.
Proof.
  revert i s o r. induction n as [|n IH]; intros i s o r; cbn [read_octets]; [by intros [= <- _]|].
  destruct (read_separator _ _ _ _) as [[v s']|]; [|done]. destruct (read_octets n (S i) s') as [[o' s'']|] eqn:Ho; [|done].
  intros [= <- _]. cbn. f_equal. by eapply IH.
Qed.

Lemma segments_length o : (length (segments o) * 2 <= length o)%nat.
Proof.
  assert (H : forall n o, (length o <= n)%nat -> (length (segments o) * 2 <= length o)%nat); [|by apply (H (length o))].
  induction n as [|n IH]; intros [|a [|b o']] Hn; cbn in *; try lia. specialize (IH o'). lia.
Qed.

Lemma read_groups_length limit : forall i s gs v4 r, read_groups limit i s = (gs, v4, r) -> (length gs <= limit)%nat.
Proof.
  induction limit as [|limit IH]; intros i s gs v4 r; cbn [read_groups]; [by intros [= <- _ _]|].
  destruct (if (0 <? limit)%nat then _ else None) as [[o s']|] eqn:He.
  - intros [= <- _ _]. destruct (Nat.ltb_spec 0 limit); [|done].
    assert (length o = 4%nat) as Ho.
    { destruct i; cbn [read_separator] in He; [by eapply read_octets_length|]. destruct (read_char _ _); [|done].
      by eapply read_octets_length. }
    pose proof (segments_length o). lia.
  - clear He. destruct (read_separator _ _ _ _) as [[g s0]|]; [|intros [= <- _ _]; cbn; lia].
    destruct (read_groups limit (S i) s0) as [[gs' v4'] s''] eqn:Hg. intros [= <- _ _]. cbn. apply IH in Hg. lia.
Qed.

Lemma group_bytes_length l : length (flat_map group_bytes l) = (2 * length l)%nat.
Proof. induction l as [|g l IH]; [done|]. cbn [flat_map length]. rewrite length_app, IH. cbn. lia. Qed.

Lemma parse_ip_wf s ip : parse_ip s = Some ip -> ip_wf ip.
Proof.
  unfold parse_ip. destruct (read_ipv4 s) as [[o [|c r]]|] eqn:H4.
  - intros [= <-]. unfold ip_wf. cbn. by eapply read_octets_length.
  - done.
  - destruct (read_ipv6 s) as [[o [|c r]]|] eqn:H6; [|done..]. intros [= <-]. unfold ip_wf. cbn. unfold read_ipv6 in H6.
    destruct (read_groups 8 0 s) as [[head v4] s1] eqn:Hh. destruct (Nat.eqb_spec (length head) 8) as [He|Hne].
    + injection H6 as <- _. rewrite group_bytes_length, He. done.
    + destruct v4; [done|]. destruct (read_char 58 s1) as [s2|]; [|done]. destruct (read_char 58 s2) as [s3|]; [|done].
      destruct (read_groups (7 - length head) 0 s3) as [[tail v4'] s4] eqn:Ht. injection H6 as <- _.
      apply read_groups_length in Hh, Ht. rewrite group_bytes_length, !length_app, length_replicate. unfold IPV6LEN. lia.
Qed.

Lemma set_ip_wf ip c c' : ip_wf ip -> set_ip ip c = Ok c' -> cand_wf c'.
Proof. intros Hip. unfold set_ip. destruct (determine_network_type _ _); try done. by intros [= <-]. Qed.

Lemma new_candidate_host_wf config id c : new_candidate_host config id = Ok c -> cand_wf c.
Proof.
  unfold new_candidate_host. destruct (negb _); [|by intros [= <-]].
  destruct (parse_ip (cc_address config)) as [ip|] eqn:Hip; [|done]. apply set_ip_wf. by eapply parse_ip_wf.
Qed.

Lemma new_candidate_host_safe config id : safe (new_candidate_host config id).
Proof.
  unfold new_candidate_host. destruct (negb _); [|done]. destruct (parse_ip _); [|done].
  unfold set_ip, determine_network_type. by destruct (starts_with _ _).
Qed.

(** * The invariant of the agent *)
Section agent.
Context {P : Profile} {env : IceEnv} {laws : IceEnvLaws env}.

Abbreviation agent_ok := (fun g => agent_wf (ag_internal g)).
Abbreviation preserved m := (keeps agent_ok (fun (_ : IceError) => agent_ok) m).

Lemma internal_keeps {A} (m : AM A) : (forall nc np, keeps (agent_inv true nc np) (fun (_ : IceError) => agent_inv true nc np) m) ->
  preserved (internal m).
Proof.
  intros H g Hg. specialize (H 0%nat 0%nat (ag_internal g) ltac:(split; [done|lia..])). unfold internal.
  destruct (m (ag_internal g)) as [[x|e| |] a]; cbn; [apply H|apply H|done..].
Qed.

Lemma agent_field (f : Agent -> Agent) : (forall g, ag_internal (f g) = ag_internal g) -> preserved (st_modify f).
Proof. intros H. apply keeps_modify. intros g. by rewrite H. Qed.

(** Allocation *)
Lemma alloc_inv a c : agent_wf a -> cand_wf c -> agent_wf (a <| ai_candidates ::= fun l => l ++ [c] |>) /\
  (length (ai_candidates a) < length (ai_candidates a ++ [c]))%nat.
Proof.
  intros [] Hc. assert (Hl : length (ai_candidates a ++ [c]) = S (length (ai_candidates a))) by (rewrite length_app; cbn; lia).
  assert (Hr : forall l, refs_below (length (ai_candidates a)) l -> refs_below (S (length (ai_candidates a))) l)
    by (intros l H; eapply Forall_impl; [exact H|]; cbn; lia).
  split; [|lia]. split; cbn; rewrite ?Hl; try done.
  - apply Forall_app. by repeat constructor.
  - eapply Forall_impl; [done|]. intros p. apply pair_wf_same; cbn; rewrite ?Hl; [lia|done].
  - intros t l Ht. apply Hr. by apply (aw_local t).
  - intros t l Ht. apply Hr. by apply (aw_remote t).
Qed.

Lemma new_arc_keeps {B} c (k : nat -> AM B) : cand_wf c ->
  (forall i nc np, (i < nc)%nat -> keeps (agent_inv true nc np) (fun (_ : IceError) => agent_inv true nc np) (k i)) ->
  forall nc np, keeps (agent_inv true nc np) (fun (_ : IceError) => agent_inv true nc np) (new_arc c ≫= k).
Proof.
  intros Hc Hk nc np a [Hw Hnc Hnp]. unfold mbind, st_bind, new_arc. destruct (alloc_inv a c Hw Hc) as [Hw' Hlt].
  specialize (Hk (length (ai_candidates a)) (length (ai_candidates a ++ [c])) np Hlt
    (a <| ai_candidates ::= fun l => l ++ [c] |>) ltac:(split; [done|cbn; lia|done])).
  destruct (k _ _) as [[]]; try done; destruct Hk; split; lia || done.
Qed.

(** Gathering *)
Lemma gather_one_keeps listen id mode name ext ip : ip_wf ip ->
  forall nc np, keeps (agent_inv true nc np) (fun (_ : IceError) => agent_inv true nc np) (gather_one listen id mode name ext ip).
Proof.
  intros Hip nc np. unfold gather_one. destruct (listen ip) as [port|]; [|apply keeps_ret].
  set (config := mkCandidateBaseConfig _ _ _ _ _ _ _ _).
  pose proof (new_candidate_host_safe config id) as Hs. pose proof (new_candidate_host_wf config id) as Hw.
  destruct (new_candidate_host config id) as [c|e| |]; [|apply keeps_ret|done|done]. cbn [mbind res_bind].
  specialize (Hw c eq_refl). destruct (bool_decide _); cycle 1.
  { apply (new_arc_keeps c); [done|]. intros. by apply add_candidate_inv. }
  pose proof (set_ip_wf ip c) as Hset. unfold set_ip, determine_network_type in *.
  destruct (starts_with _ _); cbn [mbind res_bind] in *; [|apply keeps_ret].
  apply new_arc_keeps; [by apply Hset|]. intros. by apply add_candidate_inv.
Qed.

Lemma set_gathering_state_keeps s : preserved (set_gathering_state s).
Proof.
  unfold set_gathering_state. apply keeps_bind; [apply keeps_get|]. intros st. apply keeps_bind; [apply keeps_get|].
  intros tx. apply keeps_bind; [apply keeps_when; intros _; apply internal_keeps; intros; apply emit_inv|]. intros _. by apply agent_field.
Qed.

Lemma gather_candidates_keeps handler listen id ips : Forall ip_wf ips -> preserved (gather_candidates handler listen id ips).
Proof.
  intros Hips. unfold gather_candidates. apply keeps_bind; [apply keeps_get|]. intros st.
  destruct (negb _); [by apply keeps_raise|]. destruct (negb _); [by apply keeps_raise|].
  unfold gather_candidates_internal. apply keeps_bind; [apply set_gathering_state_keeps|]. intros _.
  apply keeps_bind; [apply keeps_get|]. intros types. apply keeps_bind; [|intros _; apply set_gathering_state_keeps].
  apply keeps_for. intros [] _; [apply keeps_ret|]. unfold gather_candidates_local.
  do 3 (apply keeps_bind; [apply keeps_get|]; intros ?). apply internal_keeps. intros nc np. apply keeps_for. intros ip Hip.
  apply gather_one_keeps. by eapply Forall_forall in Hips.
Qed.

Lemma add_remote_keeps config id : preserved (add_remote config id).
Proof.
  unfold add_remote. pose proof (new_candidate_host_safe config id) as Hs. pose proof (new_candidate_host_wf config id) as Hw.
  destruct (new_candidate_host config id) as [c|e| |]; [|by apply keeps_raise|done|done]. specialize (Hw c eq_refl).
  intros g Hg. unfold mbind, st_bind, internal, new_arc. cbn [set].
  destruct (alloc_inv (ag_internal g) c Hg Hw) as [Hw' Hlt].
  set (g1 := g <| ag_internal := _ |>). unfold Agent_add_remote_candidate. unfold mbind, st_bind, st_get.
  destruct (_ && _); [exact Hw'|].
  pose proof (add_remote_candidate_inv true (length (ai_candidates (ag_internal g) ++ [c])) 0 (length (ai_candidates (ag_internal g))) Hlt
    (ag_internal g1) ltac:(split; [exact Hw'|cbn; lia|lia])) as H.
  unfold internal. destruct (add_remote_candidate _ (ag_internal g1)) as [[x|e| |] a]; cbn; [apply H|apply H|done..].
Qed.

(** * Restart *)
Lemma wf_relax a nc np : agent_inv true nc np a -> agent_inv false nc np a.
Proof. intros [[] ? ?]. by split; [split|..]. Qed.

Lemma wf_strict a nc np : agent_inv false nc np a -> unconnected (ai_connection_state a) -> agent_inv true nc np a.
Proof. intros [[] ? ?] [H1 H2]. split; [split|..]; try done. intros _ [?|?]; done. Qed.

(** [restart] on the internal state, once its arguments and its state are accepted *)
Definition restart_internal (ufrag pwd : bytes) : AM unit :=
  _ ← st_modify (fun a => a <| ai_ufrag_pwd := mkUfragPwd ufrag pwd [] [] |> <| ai_pending_binding_requests := [] |>);
  _ ← on_conn (fun c => c <| ac_checklist := [] |>);
  _ ← set_selected_pair None;
  _ ← delete_all_candidates;
  _ ← start;
  state ← st_get ai_connection_state;
  st_when (negb (bool_decide (state = ConnNew))) (update_connection_state Checking).

Lemma close_all_ok l a : exists a', close_all l a = (Ok tt, a').
Proof.
  revert a. induction l as [|c l IH]; intros a; [by exists a|]. unfold close_all in *. cbn [st_for]. unfold mbind, st_bind in *.
  unfold candidate_close, st_when, emit, on_candidate, st_modify, st_get, mret, st_ret, mbind, st_bind.
  destruct (negb _); [apply IH|]. destruct (ca_conn _); apply IH.
Qed.

Lemma delete_all_candidates_ok a : exists a', delete_all_candidates a = (Ok tt, a').
Proof.
  unfold delete_all_candidates. unfold mbind, st_bind, st_get, st_modify.
  destruct (close_all_ok (concat (map_to_list (ai_local_candidates a)).*2) a) as [a1 ->].
  edestruct close_all_ok as [a2 ->]. by eexists.
Qed.

Lemma update_connection_state_ok s a : exists a', update_connection_state s a = (Ok tt, a') /\ ai_connection_state a' = s.
Proof.
  unfold update_connection_state, mbind, st_bind, st_get. case_bool_decide as He; [by exists a|].
  unfold st_when, emit, st_modify, mret, st_ret. case_bool_decide.
  - destruct (delete_all_candidates_ok a) as [a' ->]. destruct (ai_chan_state_tx _); by eexists.
  - destruct (ai_chan_state_tx _); by eexists.
Qed.

Lemma restart_internal_ok ufrag pwd a : exists a', restart_internal ufrag pwd a = (Ok tt, a').
Proof.
  unfold restart_internal, set_selected_pair, on_conn, st_when, st_modify, st_get, mbind, st_bind.
  edestruct delete_all_candidates_ok as [a1 ->]. unfold start, controlling_start, controlled_start, st_modify, st_get, mret, st_ret, mbind, st_bind.
  destruct (ai_is_controlling a1); (destruct (negb _); [|by eexists]); edestruct update_connection_state_ok as (a2 & -> & _); by eexists.
Qed.

Lemma restart_internal_keeps ufrag pwd nc np :
  triple (agent_inv false nc np) (restart_internal ufrag pwd)
    (fun _ => agent_inv true nc np) (fun (_ : IceError) => agent_inv false nc np).
Proof.
  assert (Hconn : forall nc np, keeps (agent_inv false nc np) (fun (_ : IceError) => agent_inv false nc np)
    (on_conn (fun c => c <| ac_checklist := [] |>))).
  { intros. apply keeps_modify. intros a [[] ? ?]. wf_split. constructor. }
  assert (Hsel : forall nc np, keeps (agent_inv false nc np) (fun (_ : IceError) => agent_inv false nc np) (set_selected_pair None)).
  { intros. apply keeps_modify. intros a [[] ? ?]. wf_split. }
  unfold restart_internal.
  eapply triple_bind with (Q0 := fun _ => agent_inv false nc np); [by apply inv_unseen|intros []].
  eapply triple_bind with (Q0 := fun _ => agent_inv false nc np); [apply Hconn|intros []].
  eapply triple_bind with (Q0 := fun _ => agent_inv false nc np); [apply Hsel|intros []].
  eapply triple_bind with (Q0 := fun _ => agent_inv false nc np); [apply delete_all_candidates_inv|intros []].
  eapply triple_bind with (Q0 := fun _ => agent_inv false nc np); [apply start_inv|intros []].
  intros a Ha. unfold mbind, st_bind, st_get. case_bool_decide as Hs; cbn [negb st_when].
  - apply wf_strict; [done|]. by rewrite Hs.
  - pose proof (update_connection_state_inv false nc np Checking ltac:(done) a Ha) as H.
    destruct (update_connection_state_ok Checking a) as (a' & E & Hs'). rewrite E in *. apply wf_strict; [exact H|]. by rewrite Hs'.
Qed.

Lemma restart_keeps rng ufrag pwd : preserved (restart rng ufrag pwd).
Proof.
  unfold restart. destruct (_ <? 24)%nat; [by apply keeps_raise|]. destruct (_ <? 128)%nat; [by apply keeps_raise|].
  apply keeps_bind; [apply keeps_get|]. intros st. case_bool_decide; [by apply keeps_raise|].
  apply keeps_bind; [by apply agent_field|]. intros _ g Hg. unfold internal, mbind at 1, st_bind at 1, st_get at 1.
  destruct (ai_done_tx (ag_internal g)); [|exact Hg]. cbn [negb].
  set (u := match ufrag with [] => _ | _ => _ end). set (p := match pwd with [] => _ | _ => _ end).
  fold (restart_internal u p). destruct (restart_internal_ok u p (ag_internal g)) as [a' E]. rewrite E. cbn.
  pose proof (restart_internal_keeps u p 0 0 (ag_internal g)) as Hk. rewrite E in Hk. apply Hk. split; [|lia..].
  destruct Hg. by split.
Qed.

Lemma agent_new_wf config mdns tie instant system rng g : config_wf config ->
  Agent_new config mdns tie instant system rng = Ok g -> agent_wf (ag_internal g).
Proof.
  intros [Hm Ht]. unfold Agent_new. destruct (_ || _); [done|]. destruct (_ && _); [done|]. destruct (negb _); [done|].
  destruct (init_ext_ip_mapping _ _ _) as [ext|e| |]; cbn [mbind res_bind]; try done.
  set (g0 := mkAgent _ _ _ _ _ _ _). pose proof (restart_keeps rng (cf_local_ufrag config) (cf_local_pwd config) g0) as H.
  destruct (restart _ _ _ g0) as [[[]|e| |] g']; try done. intros [= <-]. apply H.
  split; cbn; try done; try apply Forall_nil_2; try (by split); [|by intros _ [?|?]].
  exists []. by apply new_holds.
Qed.

(** Only a candidate of the store receives. *)
Lemma receiving_below c a : receiving c a = true -> (c < length (ai_candidates a))%nat.
Proof.
  unfold receiving, cand_of. intros H. destruct (Nat.lt_ge_cases c (length (ai_candidates a))) as [Hc|Hc]; [done|].
  by rewrite list_lookup_total_alt, lookup_ge_None_2 in H.
Qed.

Lemma recv_round_keeps c buf src nc np :
  keeps (agent_inv true nc np) (fun (_ : IceError) => agent_inv true nc np) (recv_round c buf src).
Proof.
  intros a [Hw Hc Hp]. unfold recv_round, mbind, st_bind, st_get. destruct (receiving c a) eqn:Hr; [|by split].
  pose proof (handle_inbound_candidate_msg_inv true (length (ai_candidates a)) np c (take (Z.to_nat RECEIVE_MTU) buf) src
    (receiving_below c a Hr) a ltac:(by split)) as H. cbn [st_when].
  destruct (handle_inbound_candidate_msg _ _ _ a) as [[]]; try done; destruct H; split; lia || done.
Qed.

Lemma ice_event_keeps e k : event_wf e -> preserved (ice_event e k).
Proof.
  intros He. destruct e; cbn [ice_event event_wf] in *;
    try (apply keeps_bind; [|intros; apply keeps_ret]).
  - apply internal_keeps. intros nc np. by apply inv_unseen.
  - apply internal_keeps. intros nc np. unfold ice_contact. apply keeps_bind; [apply keeps_get|]. intros [].
    + apply contact_inv.
    + apply keeps_ret.
  - apply internal_keeps. intros nc np. apply recv_round_keeps.
  - apply add_remote_keeps.
  - by apply gather_candidates_keeps.
  - apply internal_keeps. intros nc np. apply start_connectivity_checks_inv.
  - apply internal_keeps. intros nc np. apply start_connectivity_checks_inv.
  - apply restart_keeps.
  - apply internal_keeps. intros nc np. apply AgentInternal_close_inv.
  - apply internal_keeps. intros nc np. apply AgentConn_send_inv.
  - apply internal_keeps. intros nc np. apply AgentConn_recv_inv.
Qed.

Lemma reachable_wf k g : reachable (k, g) -> agent_wf (ag_internal g).
Proof.
  intros (s0 & Hinit & Hsteps). assert (H0 : agent_wf (ag_internal (snd s0))) by (destruct Hinit; by eapply agent_new_wf).
  change g with (snd (k, g)). clear Hinit. revert H0. induction Hsteps as [s|s1 s2 s3 Hstep _ IH]; intros H0; [done|]. apply IH.
  destruct Hstep as [e k1 g1 k2 g2 He H|e k1 g1 err g2 He H]; pose proof (ice_event_keeps e k1 He g1 H0) as Hk; rewrite H in Hk; exact Hk.
Qed.

(** C12. The invariant of the ICE agent, in every state that it reaches from its
    construction by events in any order - ticks of its task, datagrams with any
    content, candidates, calls: its lists point to candidates and pairs there are,
    no pair has been checked more often than one time more than the maximum, the
    selected pair has succeeded and was nominated, and an agent that says it is
    connected or disconnected has a selected pair. From such a state every event
    ends, and it panics at most by an arithmetic overflow that a debug build checks for. *)
Theorem ice_agent_invariant k g : reachable (k, g) ->
  agent_wf (ag_internal g) /\
  forall e, event_wf e -> fst (ice_event e k g) <> OutOfFuel /\
    (fst (ice_event e k g) = Panic -> overflow_checks = true).
Proof.
  intros Hr%reachable_wf. split; [exact Hr|]. intros e He. pose proof (ice_event_keeps e k He g Hr) as H.
  by destruct (ice_event e k g) as [[]].
Qed.
End agent.

(** A new agent, and a start of the checks that it takes *)
Lemma ice_sample_config_wf : config_wf ice_sample_config.
Proof. split; vm_compute; by split || done. Qed.

Lemma sample_fresh_reachable {P : Profile} {env : IceEnv} : reachable (mkChecks ConnUnspecified 1000, sample_fresh).
Proof.
  eexists. split; [|apply rtc_refl].
  apply (init_new ice_sample_config (chars "abc.local") 7 1000 1000 (fun i => i)); [exact ice_sample_config_wf|exact sample_fresh_new].
Qed.

Lemma ice_agent_invariant_witness : agent_wf (ag_internal sample_fresh) /\
  fst (@ice_event dev_profile sample_env (Dial (sample_ufrag 2) (sample_pwd 2)) (mkChecks ConnUnspecified 1000) sample_fresh) <> OutOfFuel.
Proof.
  destruct (@ice_agent_invariant dev_profile sample_env sample_laws _ _ sample_fresh_reachable) as [Hwf H].
  split; [exact Hwf|]. by apply H.
Defined.
