(* ===== verification/IceSafety.v ===== *)
(** What it takes for a pair of the ICE agent to become valid or selected: the
    only event that does it is a datagram that decodes to an authentic message of
    the right role, from a remote candidate, that answers a pending request or, at
    the controlled agent, nominates a pair that is valid already. *)
From Stdlib Require Import Strings.String.
From S2P Require Import Prelude Utf8 Stun StunAttrs Text IpText Buffer IceCandidate IceAgent IceSelector IceApi IceMessage IceSample IceInvariant IceSystem.

Definition valid_pair (a : AgentInternal) (p : nat) : Prop := cp_state (pair_of a p) = Succeeded.

(** Nothing becomes valid and nothing becomes selected. *)
Record no_new (a a' : AgentInternal) : Prop := {
  nn_valid p : valid_pair a' p -> valid_pair a p;
  nn_selected p : get_selected_pair a' = Some p -> get_selected_pair a = Some p
}.

#[export] Instance no_new_preorder : PreOrder no_new.
Proof. split; [by split|]. intros a b c [H1 H2] [H3 H4]. split; auto. Qed.

Definition quiet {A} (m : AM A) : Prop := forall a, no_new a (snd (m a)).

(** A change that touches neither the pairs nor the selection *)
Definition pairs_view (a : AgentInternal) : list CandidatePair * option nat := (ai_pairs a, get_selected_pair a).

Lemma no_new_view a a' : pairs_view a' = pairs_view a -> no_new a a'.
Proof. unfold pairs_view. intros [= H1 H2]. split; unfold valid_pair, pair_of; intros p; by rewrite ?H1, ?H2. Qed.

Lemma quiet_stable {A} (m : AM A) : stable pairs_view m -> quiet m.
Proof. intros H a. apply no_new_view, H. Qed.

Lemma quiet_ret {A} (x : A) : quiet (mret x).
Proof. intros a. reflexivity. Qed.
Lemma quiet_get {A} (f : AgentInternal -> A) : quiet (st_get f).
Proof. intros a. reflexivity. Qed.
Lemma quiet_lift {A} (r : res IceError A) : quiet (st_lift r).
Proof. intros a. reflexivity. Qed.
Lemma quiet_raise {A} (e : IceError) : quiet (st_raise (A := A) e).
Proof. intros a. reflexivity. Qed.
Lemma quiet_modify f : (forall a, no_new a (f a)) -> quiet (st_modify f).
Proof. done. Qed.
Lemma quiet_bind {A B} (m : AM A) (k : A -> AM B) : quiet m -> (forall x, quiet (k x)) -> quiet (m ≫= k).
Proof.
  intros Hm Hk a. unfold mbind, st_bind. specialize (Hm a). destruct (m a) as [[x|e| |] a']; cbn in *; try done.
  etrans; [exact Hm|apply Hk].
Qed.
Lemma quiet_when b (m : AM unit) : quiet m -> quiet (st_when b m).
Proof. intros H. destruct b; [done|apply quiet_ret]. Qed.
Lemma quiet_for {A} (l : list A) (body : A -> AM unit) : (forall x, quiet (body x)) -> quiet (st_for l body).
Proof. intros H. induction l as [|x l IH]; [apply quiet_ret|]. by apply quiet_bind. Qed.
Lemma quiet_fold {A B} (l : list A) (body : B -> A -> AM B) b : (forall b x, quiet (body b x)) -> quiet (st_fold l body b).
Proof. intros H. revert b. induction l as [|x l IH]; intros b; [apply quiet_ret|]. by apply quiet_bind. Qed.

Create HintDb quiet.

Ltac quiet_step :=
  lazymatch goal with
  | |- quiet (_ ≫= _) => apply quiet_bind; [|intros]
  | |- quiet (mret _) => apply quiet_ret
  | |- quiet (st_get _) => apply quiet_get
  | |- quiet (st_lift _) => apply quiet_lift
  | |- quiet (st_raise _) => apply quiet_raise
  | |- quiet (st_when _ _) => apply quiet_when
  | |- quiet (st_for _ _) => apply quiet_for; intros
  | |- quiet (st_fold _ _ _) => apply quiet_fold; intros
  | |- quiet (match _ with _ => _ end) => case_match
  | |- quiet (st_modify _) => apply quiet_stable; intros ?; reflexivity
  | |- quiet _ => solve [auto with quiet nocore]
  end.

Section safety.
Context {P : Profile} {env : IceEnv}.

(** * Operations that leave the pairs alone *)
Lemma emit_quiet o : quiet (emit o). Proof. by apply quiet_stable. Qed.
Lemma on_candidate_quiet c f : quiet (on_candidate c f). Proof. by apply quiet_stable. Qed.
Lemma st_lift_get_quiet {A} (f : AgentInternal -> res IceError A) : quiet (st_lift_get f).
Proof. by apply quiet_stable. Qed.
Lemma build_message_quiet l : quiet (build_message l).
Proof. apply quiet_stable. intros a. unfold build_message. by destruct (build l Message_new) as [[]]. Qed.
Lemma best_quiet ok : quiet (fun a => (best_pair a ok None (checklist a), a)). Proof. by apply quiet_stable. Qed.
Lemma available_quiet : quiet get_best_available_candidate_pair. Proof. by apply quiet_stable. Qed.
Lemma valid_quiet : quiet get_best_valid_candidate_pair. Proof. by apply quiet_stable. Qed.
#[local] Hint Resolve emit_quiet on_candidate_quiet st_lift_get_quiet build_message_quiet available_quiet valid_quiet : quiet.

Ltac follow_quiet := repeat quiet_step.

Lemma write_to_quiet local raw dst : quiet (write_to local raw dst).
Proof. unfold write_to, seen. follow_quiet. Qed.
Lemma candidate_close_quiet c : quiet (candidate_close c).
Proof. unfold candidate_close. follow_quiet. Qed.
#[local] Hint Resolve write_to_quiet candidate_close_quiet : quiet.

Lemma delete_all_quiet : quiet delete_all_candidates.
Proof. unfold delete_all_candidates, close_all. follow_quiet. Qed.
#[local] Hint Resolve delete_all_quiet : quiet.

Lemma update_connection_state_quiet s : quiet (update_connection_state s).
Proof. unfold update_connection_state. follow_quiet. Qed.
#[local] Hint Resolve update_connection_state_quiet : quiet.

Lemma send_binding_request_quiet m local remote : quiet (send_binding_request m local remote).
Proof. unfold send_binding_request, invalidate_pending_binding_requests, send_stun. follow_quiet. Qed.
Lemma send_binding_success_quiet m local remote : quiet (send_binding_success m local remote).
Proof. unfold send_binding_success, send_stun. follow_quiet. Qed.
#[local] Hint Resolve send_binding_request_quiet send_binding_success_quiet : quiet.

Lemma ping_candidate_quiet local remote : quiet (ping_candidate local remote).
Proof. unfold ping_candidate, controlling_ping_candidate, controlled_ping_candidate, new_transaction_id. follow_quiet. Qed.
Lemma nominate_pair_quiet : quiet nominate_pair.
Proof. unfold nominate_pair, new_transaction_id. follow_quiet. Qed.
Lemma validate_selected_pair_quiet : quiet validate_selected_pair.
Proof. unfold validate_selected_pair. follow_quiet. Qed.
#[local] Hint Resolve ping_candidate_quiet nominate_pair_quiet validate_selected_pair_quiet : quiet.

Lemma check_keepalive_quiet : quiet check_keepalive.
Proof. unfold check_keepalive. follow_quiet. Qed.
Lemma mark_seen_quiet rc : quiet (mark_seen rc).
Proof. unfold mark_seen, seen. follow_quiet. Qed.
Lemma request_check_quiet : quiet request_connectivity_check. Proof. by apply quiet_stable. Qed.
#[local] Hint Resolve check_keepalive_quiet mark_seen_quiet request_check_quiet : quiet.

(** * Changes of the pairs that are quiet *)
Lemma pair_quiet p f : (forall x, cp_state (f x) = Succeeded -> cp_state x = Succeeded) -> quiet (on_pair p f).
Proof.
  intros H. apply quiet_modify. intros a. split; [|done]. intros q. unfold valid_pair, pair_of. cbn.
  rewrite list_lookup_total_alter. case_decide as Hd; [|done]. destruct Hd as [-> _]. apply H.
Qed.

Lemma new_pair_state a c p : cp_state ((ai_pairs a ++ [CandidatePair_new c.1 c.2 (ai_is_controlling a)]) !!! p) = Succeeded ->
  valid_pair a p.
Proof.
  unfold valid_pair, pair_of. rewrite !list_lookup_total_alt.
  destruct (decide (p < length (ai_pairs a))%nat) as [Hlt|Hge]; [by rewrite lookup_app_l by done|].
  rewrite lookup_app_r by lia. by destruct (p - length (ai_pairs a))%nat.
Qed.

Lemma add_pair_quiet local remote : quiet (add_pair local remote).
Proof. apply quiet_modify. intros a. split; [|done]. intros p. apply (new_pair_state a (local, remote)). Qed.
#[local] Hint Resolve add_pair_quiet : quiet.

Lemma nominated_quiet p : quiet (on_pair p (fun x => x <| cp_nominated := true |>)).
Proof. by apply pair_quiet. Qed.
Lemma in_progress_quiet p : quiet (on_pair p (fun x => x <| cp_state := InProgress |>)).
Proof. by apply pair_quiet. Qed.
Lemma failed_quiet p : quiet (on_pair p (fun x => x <| cp_state := Failed |>)).
Proof. by apply pair_quiet. Qed.
Lemma count_quiet p : quiet (on_pair p (fun x => x <| cp_binding_request_count ::= fun n => wrap 16 (n + 1) |>)).
Proof. by apply pair_quiet. Qed.
#[local] Hint Resolve nominated_quiet in_progress_quiet failed_quiet count_quiet : quiet.

Lemma ping_all_candidates_quiet : quiet ping_all_candidates.
Proof. unfold ping_all_candidates, ping_pair. follow_quiet. Qed.
#[local] Hint Resolve ping_all_candidates_quiet : quiet.

Lemma contact_quiet k : quiet (contact k).
Proof.
  unfold contact, contact_candidates, controlling_contact_candidates, controlled_contact_candidates. follow_quiet.
Qed.

Lemma add_remote_candidate_quiet c : quiet (add_remote_candidate c).
Proof. unfold add_remote_candidate. follow_quiet. Qed.
Lemma add_candidate_quiet c : quiet (add_candidate c).
Proof. unfold add_candidate, start_candidate. follow_quiet. Qed.
#[local] Hint Resolve add_remote_candidate_quiet add_candidate_quiet : quiet.

Lemma controlling_request_quiet m local remote : quiet (controlling_handle_binding_request m local remote).
Proof. unfold controlling_handle_binding_request. follow_quiet. Qed.

Lemma start_connectivity_checks_quiet c u p : quiet (start_connectivity_checks c u p).
Proof. unfold start_connectivity_checks, set_remote_credentials, start, controlling_start, controlled_start. follow_quiet. Qed.

Lemma on_conn_quiet f : (forall c, ac_selected_pair (f c) = ac_selected_pair c) -> quiet (on_conn f).
Proof. intros H. apply quiet_stable. intros a. unfold pairs_view, get_selected_pair. cbn. by rewrite H. Qed.

#[local] Hint Resolve start_connectivity_checks_quiet : quiet.

Lemma AgentInternal_close_quiet : quiet AgentInternal_close.
Proof.
  assert (H1 : quiet (on_conn (fun c => c <| ac_buffer ::= fun b => snd (buffer_close b) |>))) by by apply on_conn_quiet.
  assert (H2 : quiet (on_conn (fun c => c <| ac_done := true |>))) by by apply on_conn_quiet.
  unfold AgentInternal_close. follow_quiet.
Qed.

Lemma AgentConn_send_quiet buf : quiet (AgentConn_send buf).
Proof.
  assert (H1 : forall n, quiet (on_conn (fun c => c <| ac_bytes_sent ::= fun m => wrap 64 (m + n) |>)))
    by (intros; by apply on_conn_quiet).
  unfold AgentConn_send, CandidatePair_write. follow_quiet.
Qed.

Lemma AgentConn_recv_quiet buf : quiet (AgentConn_recv buf).
Proof.
  apply quiet_stable. intros a. unfold AgentConn_recv. destruct (ac_done _); [done|].
  by destruct (read_attempt buf _) as [[[[[n|e| |] b]|]|e| |] b'].
Qed.

Lemma restart_quiet ufrag pwd : quiet (restart_internal ufrag pwd).
Proof.
  assert (H1 : quiet (on_conn (fun c => c <| ac_checklist := [] |>))) by by apply on_conn_quiet.
  assert (H2 : quiet (set_selected_pair None)) by (apply quiet_modify; intros a; by split).
  unfold restart_internal, start, controlling_start, controlled_start. follow_quiet.
Qed.

(** * What an inbound message may do *)

(** A success response that is authentic, comes from a remote candidate, and
    answers a request that is still pending and was sent to where it comes from:
    the pair is the one of the two candidates. *)
Record success_from (a : AgentInternal) (c : nat) (src : SocketAddr) (m : Message) (b : BindingRequest) (rc p : nat) : Prop := {
  sf_class : mt_class (m_typ m) = CLASS_SUCCESS_RESPONSE;
  sf_method : mt_method (m_typ m) = METHOD_BINDING;
  sf_integrity : fst (assert_inbound_message_integrity m (up_remote_pwd (ai_ufrag_pwd a))) = Ok tt;
  sf_remote : find_remote_candidate (ca_network_type (cand_of a c)) src a = Some rc;
  sf_pair : find_pair c rc a = Some p;
  sf_pending : b ∈ ai_pending_binding_requests a;
  sf_id : br_transaction_id b = m_transaction_id m;
  sf_fresh : fresh_request (ai_instant a) b = true;
  sf_destination : br_destination b = src
}.

(** An authentic binding request that nominates the pair of the two candidates *)
Record nomination_from (a : AgentInternal) (c : nat) (src : SocketAddr) (m : Message) (rc p : nat) : Prop := {
  nf_class : mt_class (m_typ m) = CLASS_REQUEST;
  nf_method : mt_method (m_typ m) = METHOD_BINDING;
  nf_username : assert_inbound_username m (inbound_username (ai_ufrag_pwd a)) = Ok true;
  nf_integrity : fst (assert_inbound_message_integrity m (up_local_pwd (ai_ufrag_pwd a))) = Ok tt;
  nf_remote : find_remote_candidate (ca_network_type (cand_of a c)) src a = Some rc;
  nf_pair : find_pair c rc a = Some p;
  nf_use_candidate : contains m ATTR_USE_CANDIDATE = true;
  nf_valid : valid_pair a p
}.

(** The pair [p] becomes valid, or selected. *)
Definition validated (a : AgentInternal) c src m p : Prop := exists b rc, success_from a c src m b rc p.
Definition elected (a : AgentInternal) c src m p : Prop :=
  get_selected_pair a = None /\
  if ai_is_controlling a
  then exists b rc, success_from a c src m b rc p /\ br_is_use_candidate b = true
  else exists rc, nomination_from a c src m rc p.

Record progress (a a' : AgentInternal) (c : nat) (src : SocketAddr) (m : Message) : Prop := {
  pr_valid p : valid_pair a' p -> valid_pair a p \/ validated a c src m p;
  pr_selected p : get_selected_pair a' = Some p -> get_selected_pair a = Some p \/ elected a c src m p
}.

Lemma quiet_progress a a' c src m : no_new a a' -> progress a a' c src m.
Proof. intros [H1 H2]. split; intros p H; left; auto. Qed.

Lemma quiet_run {A} (k : AM A) a c src m : quiet k -> progress a (snd (k a)) c src m.
Proof. intros H. apply quiet_progress, H. Qed.

Lemma progress_quiet {A} a a1 c src m (k : AM A) : progress a a1 c src m -> quiet k -> progress a (snd (k a1)) c src m.
Proof. intros [H1 H2] Hk. destruct (Hk a1) as [H3 H4]. split; intros p H; auto. Qed.

Lemma remove_request_elem id l b rest : remove_request id l = Some (b, rest) -> b ∈ l /\ br_transaction_id b = id.
Proof.
  revert rest. induction l as [|x l IH]; intros rest; cbn [remove_request]; [done|]. case_bool_decide as Hx.
  - intros [= <- _]. split; [by left|done].
  - destruct (remove_request id l) as [[b' rest']|]; [|done]. intros [= <- _]. destruct (IH rest' eq_refl). split; [by right|done].
Qed.

(** The removal of the pending request, and what it tells of it *)
Lemma inbound_binding_success_spec id a : exists r pending,
  handle_inbound_binding_success id a = (Ok r, a <| ai_pending_binding_requests := pending |>) /\
  forall b, r = Some b -> b ∈ ai_pending_binding_requests a /\ br_transaction_id b = id /\ fresh_request (ai_instant a) b = true.
Proof.
  unfold handle_inbound_binding_success, invalidate_pending_binding_requests, mbind, st_bind, st_get, st_modify. cbn.
  set (l := filter _ _). destruct (remove_request id l) as [[b rest]|] eqn:Hr.
  - eexists _, rest. split; [reflexivity|]. intros b' [= <-]. apply remove_request_elem in Hr as [Hb Hid].
    apply list_elem_of_filter in Hb as [Hf Hb]. done.
  - eexists _, l. split; [reflexivity|]. done.
Qed.

Lemma mark_valid a p q : valid_pair (a <| ai_pairs ::= alter (fun x => x <| cp_state := Succeeded |>) p |>) q ->
  valid_pair a q \/ q = p.
Proof.
  unfold valid_pair, pair_of. cbn. rewrite list_lookup_total_alter. case_decide as H; [|by left]. right. by destruct H.
Qed.

(** What follows the selection in [set_selected_pair] *)
Definition announce_connected : AM unit :=
  _ ← update_connection_state Connected;
  tx ← st_get ai_chan_candidate_pair_tx;
  _ ← st_when (tx : bool) (emit PairChanged);
  st_modify (fun a => a <| ai_on_connected_tx := false |>).

Lemma announce_connected_view : stable pairs_view announce_connected.
Proof.
  unfold announce_connected, update_connection_state, delete_all_candidates, close_all, candidate_close, on_candidate, emit. stab.
Qed.

Lemma set_selected_is p a : get_selected_pair (snd (set_selected_pair (Some p) a)) = Some p /\
  forall q, valid_pair (snd (set_selected_pair (Some p) a)) q -> valid_pair a q.
Proof.
  set (a1 := a <| ai_pairs ::= alter (fun x => x <| cp_nominated := true |>) p |>
               <| ai_agent_conn ::= fun c => c <| ac_selected_pair := Some p |> |>).
  assert (E : set_selected_pair (Some p) a = announce_connected a1) by reflexivity.
  assert (V : pairs_view (snd (set_selected_pair (Some p) a)) = pairs_view a1) by (rewrite E; apply announce_connected_view).
  pose proof (f_equal fst V) as V1. pose proof (f_equal snd V) as V2. split; [exact V2|]. intros q. unfold valid_pair, pair_of. unfold pairs_view, fst in V1. rewrite V1. cbn.
  rewrite list_lookup_total_alter. case_decide as Hd; [|done]. by destruct Hd as [-> _].
Qed.

Lemma set_selected_pair_ok p a : exists a', set_selected_pair p a = (Ok tt, a').
Proof.
  destruct p as [p|]; cbn [set_selected_pair]; unfold on_pair, on_conn, mbind, st_bind, st_modify, st_get, st_when, emit; [|by eexists].
  edestruct update_connection_state_ok as (a1 & -> & _). destruct (ai_chan_candidate_pair_tx _); by eexists.
Qed.

(** A pair that was just added is not valid: it waits. *)
Lemma added_pair_waits local remote p a : find_pair local remote a = None ->
  find_pair local remote (snd (add_pair local remote a)) = Some p -> ~ valid_pair (snd (add_pair local remote a)) p.
Proof.
  intros Hnone Hp Hv. apply (new_pair_state a (local, remote)) in Hv as Hold.
  assert (Hlt : (p < length (ai_pairs a))%nat).
  { unfold valid_pair, pair_of in Hold. rewrite list_lookup_total_alt in Hold.
    destruct (ai_pairs a !! p) eqn:E; [by eapply lookup_lt_Some|done]. }
  unfold find_pair in *. apply fmap_None in Hnone. apply fmap_Some in Hp as ([i q] & Hf & ->).
  apply list_find_Some in Hf as (Hi & Hm & _). apply list_elem_of_lookup_2 in Hi.
  cbn [snd] in *. unfold checklist in Hi. cbn in Hi. apply elem_of_app in Hi as [Hi|Hi]; [|apply list_elem_of_singleton in Hi; lia].
  apply list_find_None in Hnone. eapply Forall_forall in Hnone; [|exact Hi]. apply Hnone. rewrite <- Hm.
  unfold pair_matches, pair_of, cand_of. cbn. by rewrite !list_lookup_total_alt, lookup_app_l.
Qed.

Lemma new_pair_request_quiet m local remote a : find_pair local remote a = None ->
  no_new a (snd (controlled_handle_binding_request m local remote a)).
Proof.
  intros Hnone. unfold controlled_handle_binding_request. unfold mbind at 1, st_bind at 1, st_get at 1. rewrite Hnone.
  case_bool_decide; [|done]. cbn [st_when]. unfold mbind at 1, st_bind at 1.
  pose proof (add_pair_quiet local remote a) as Hq. pose proof (added_pair_waits local remote) as Hw.
  destruct (add_pair local remote a) as [r a1] eqn:Ea. assert (r = Ok tt) as -> by (unfold add_pair, st_modify in Ea; congruence).
  etrans; [exact Hq|]. unfold mbind at 1, st_bind at 1, st_get at 1. destruct (find_pair local remote a1) as [p|] eqn:Hp; [|reflexivity].
  specialize (Hw p a Hnone). rewrite Ea in Hw. specialize (Hw Hp). unfold valid_pair in Hw. cbn [snd] in Hw.
  unfold contains. destruct (existsb _ _); [|apply quiet_bind; intros; follow_quiet].
  unfold mbind, st_bind, st_get. case_bool_decide; [done|]. apply ping_candidate_quiet.
Qed.

(** The pending requests do not matter to the search of a pair. *)
Lemma pending_progress a pending a' c src m : progress (a <| ai_pending_binding_requests := pending |>) a' c src m ->
  (forall b, b ∈ pending -> b ∈ ai_pending_binding_requests a) -> progress a a' c src m.
Proof.
  intros [H1 H2] Hsub. split; intros p H.
  - destruct (H1 p H) as [?|(b & rc & [])]; [by left|]. right. exists b, rc. split; auto.
  - destruct (H2 p H) as [?|[Hs He]]; [by left|]. right. split; [exact Hs|]. cbn in He. destruct (ai_is_controlling a).
    + destruct He as (b & rc & [] & Hu). exists b, rc. split; [|done]. split; auto.
    + destruct He as (rc & []). exists rc. split; auto.
Qed.

Section message.
Variables (a : AgentInternal) (c : nat) (src : SocketAddr) (m : Message) (rc : nat).
Hypothesis Hmethod : mt_method (m_typ m) = METHOD_BINDING.
Hypothesis Hrc : find_remote_candidate (ca_network_type (cand_of a c)) src a = Some rc.

Section success.
Hypothesis Hclass : mt_class (m_typ m) = CLASS_SUCCESS_RESPONSE.
Hypothesis Hmi : fst (assert_inbound_message_integrity m (up_remote_pwd (ai_ufrag_pwd a))) = Ok tt.

(** The message handed on has the raw bytes the check left. *)
Variable m' : Message.
Hypothesis Hid : m_transaction_id m' = m_transaction_id m.

Lemma handle_success_progress : progress a (snd (handle_success_response m' c rc src a)) c src m.
Proof.
  destruct (inbound_binding_success_spec (m_transaction_id m') a) as (r & pending & Hr & Hspec).
  set (a1 := a <| ai_pending_binding_requests := pending |>) in *.
  assert (H1 : progress a a1 c src m) by (apply quiet_progress, no_new_view; reflexivity).
  assert (Hview : forall p, valid_pair a1 p <-> valid_pair a p) by done.
  unfold handle_success_response, controlling_handle_success_response, controlled_handle_success_response.
  unfold mbind at 1, st_bind at 1, st_get at 1. destruct (ai_is_controlling a) eqn:Hctl.
  - unfold mbind at 1, st_bind at 1. rewrite Hr. destruct r as [b|]; [|exact H1]. destruct (Hspec b eq_refl) as (Hb & Hbid & Hfresh).
    case_bool_decide as Hdst; cbn [negb]; [|exact H1]. unfold mbind at 1 2, st_bind at 1 2, st_get at 1 2.
    change (find_pair c rc a1) with (find_pair c rc a). destruct (find_pair c rc a) as [p|] eqn:Hp; [|exact H1].
    assert (Hs : success_from a c src m b rc p) by (split; [done..|congruence|done|done]).
    unfold mbind, st_bind. unfold on_pair, st_modify. set (a2 := a1 <| ai_pairs ::= _ |>).
    assert (Hv2 : forall q, valid_pair a2 q -> valid_pair a q \/ q = p) by (intros q H; by destruct (mark_valid a1 p q H); auto).
    destruct (br_is_use_candidate b && _) eqn:Huse; cbn [st_when]; cycle 1.
    { split; intros q H; [|by left]. destruct (Hv2 q H) as [?| ->]; [by left|]. right. by exists b, rc. }
    apply andb_true_iff in Huse as [Hu Hsel%bool_decide_eq_true]. destruct (set_selected_is p a2) as [S1 S2]. split; intros q H.
    + destruct (Hv2 q (S2 q H)) as [?| ->]; [by left|]. right. by exists b, rc.
    + rewrite S1 in H. injection H as <-. right. split; [exact Hsel|]. rewrite Hctl. by exists b, rc.
  - unfold mbind at 1, st_bind at 1. rewrite Hr. destruct r as [b|]; [|exact H1]. destruct (Hspec b eq_refl) as (Hb & Hbid & Hfresh).
    case_bool_decide as Hdst; cbn [negb]; [|exact H1]. unfold mbind, st_bind, st_get.
    change (find_pair c rc a1) with (find_pair c rc a). destruct (find_pair c rc a) as [p|] eqn:Hp; [|exact H1].
    assert (Hs : success_from a c src m b rc p) by (split; [done..|congruence|done|done]).
    split; intros q H; [|by left]. destruct (mark_valid a1 p q H) as [?| ->]; [by left|]. right. by exists b, rc.
Qed.
End success.

Section request.
Hypothesis Hclass : mt_class (m_typ m) = CLASS_REQUEST.
Hypothesis Hname : assert_inbound_username m (inbound_username (ai_ufrag_pwd a)) = Ok true.
Hypothesis Hmi : fst (assert_inbound_message_integrity m (up_local_pwd (ai_ufrag_pwd a))) = Ok tt.
Variable m' : Message.
Hypothesis Hattr : m_attributes m' = m_attributes m.

Lemma handle_request_progress : progress a (snd (handle_binding_request m' c rc a)) c src m.
Proof.
  unfold handle_binding_request. unfold mbind at 1, st_bind at 1, st_get at 1. destruct (ai_is_controlling a) eqn:Hctl.
  { apply quiet_progress, controlling_request_quiet. }
  destruct (find_pair c rc a) as [p|] eqn:Hp; [|by apply quiet_progress, new_pair_request_quiet].
  unfold controlled_handle_binding_request. unfold mbind at 1, st_bind at 1, st_get at 1. rewrite Hp. case_bool_decide; [done|]. cbn [st_when]. unfold mbind at 1 2, st_bind at 1 2, mret, st_ret, st_get at 1.
  rewrite Hp. unfold contains at 1. rewrite Hattr. change (existsb _ (m_attributes m)) with (contains m ATTR_USE_CANDIDATE).
  destruct (contains m ATTR_USE_CANDIDATE) eqn:Huse; [|apply quiet_run; follow_quiet].
  unfold mbind at 1, st_bind at 1, st_get at 1. case_bool_decide as Hs; [|apply quiet_run; follow_quiet].
  unfold mbind at 1, st_bind at 1, st_get at 1. unfold mbind, st_bind. case_bool_decide as Hsel; cbn [st_when]; cycle 1.
  { exact (quiet_run _ a c src m (send_binding_success_quiet m' c rc)). }
  destruct (set_selected_pair_ok (Some p) a) as [a1 E]. rewrite E. apply progress_quiet; [|apply send_binding_success_quiet].
  destruct (set_selected_is p a) as [S1 S2]. rewrite E in S1, S2. cbn [snd] in *. split; intros q Hq; [left; auto|].
  rewrite S1 in Hq. injection Hq as <-. right. split; [exact Hsel|]. rewrite Hctl. by exists rc.
Qed.
End request.
End message.

(** * The check of a message changes only its raw bytes. *)
Definition known (m : Message) : bytes * list RawAttribute := (m_transaction_id m, m_attributes m).

Lemma modify_raw_known f : stable known (modify_raw f).
Proof. intros m. unfold modify_raw. by destruct (f (m_raw m)). Qed.
#[local] Hint Resolve modify_raw_known : stable.
Lemma write_length_known : stable known write_length.
Proof. unfold write_length, grow. stab. Qed.
#[local] Hint Resolve write_length_known : stable.

Lemma MessageIntegrity_check_known k : stable known (MessageIntegrity_check ice_hmac_sha1 k).
Proof.
  intros m. unfold MessageIntegrity_check. generalize (get m ATTR_MESSAGE_INTEGRITY), (m_length m), (m_attributes m). revert m.
  intros m r len l. revert m. match goal with |- forall m, known (snd (?f m)) = known m => change (stable known f) end. stab.
Qed.

Lemma with_integrity_progress a c src m key k : (forall m', known m' = known m ->
    fst (assert_inbound_message_integrity m key) = Ok tt -> progress a (snd (k m' a)) c src m) ->
  progress a (snd (with_integrity m key k a)) c src m.
Proof.
  intros Hk. unfold with_integrity. pose proof (MessageIntegrity_check_known (mkMessageIntegrity key) m) as Hm.
  unfold assert_inbound_message_integrity in *. destruct (MessageIntegrity_check _ _ m) as [[[]|e| |] m'];
    [by apply Hk|apply quiet_progress; reflexivity..].
Qed.

Lemma handle_inbound_progress m c src a : progress a (snd (handle_inbound m c src a)) c src m.
Proof.
  assert (Hid : progress a a c src m) by (apply quiet_progress; reflexivity).
  unfold handle_inbound. destruct (Z.eqb_spec (mt_method (m_typ m)) METHOD_BINDING) as [Hmethod|]; [|exact Hid]. cbn [negb orb].
  destruct (handled_class _); [|exact Hid]. cbn [negb]. unfold mbind at 1, st_bind at 1, st_get at 1.
  destruct (wrong_role _ m); [exact Hid|]. unfold mbind at 1, st_bind at 1, st_get at 1.
  set (found := find_remote_candidate _ src a). destruct (Z.eqb_spec (mt_class (m_typ m)) CLASS_SUCCESS_RESPONSE) as [Hclass|_].
  - unfold mbind at 1, st_bind at 1, st_get at 1. apply with_integrity_progress. intros m' [= Hi Ha] Hmi.
    destruct found as [rc|] eqn:Hrc; [|exact Hid]. unfold mbind, st_bind.
    pose proof (handle_success_progress a c src m rc Hmethod Hrc Hclass Hmi m' Hi) as Hp.
    destruct (handle_success_response m' c rc src a) as [[[]|e| |] a1]; [|done..].
    apply (progress_quiet a a1); [done|apply mark_seen_quiet].
  - destruct (Z.eqb_spec (mt_class (m_typ m)) CLASS_REQUEST) as [Hclass|_]; [|apply quiet_progress, mark_seen_quiet].
    unfold mbind at 1, st_bind at 1, st_get at 1.
    destruct (assert_inbound_username m _) as [[]|e| |] eqn:Hname; [|exact Hid..].
    apply with_integrity_progress. intros m' [= Hi Ha] Hmi.
    destruct found as [rc|] eqn:Hrc; [|exact Hid]. unfold mbind, st_bind.
    pose proof (handle_request_progress a c src m rc Hmethod Hrc Hclass Hname Hmi m' Ha) as Hp.
    destruct (handle_binding_request m' c rc a) as [[[]|e| |] a1]; [|done..].
    apply (progress_quiet a a1); [done|apply mark_seen_quiet].
Qed.

(** * Events of the agent *)
Definition calm {A} (m : GM A) : Prop := forall g, no_new (ag_internal g) (ag_internal (snd (m g))).

Lemma calm_internal {A} (m : AM A) : quiet m -> calm (internal m).
Proof. intros H g. unfold internal. specialize (H (ag_internal g)). by destruct (m (ag_internal g)). Qed.
Lemma calm_ret {A} (x : A) : calm (mret x).
Proof. intros g. reflexivity. Qed.
Lemma calm_get {A} (f : Agent -> A) : calm (st_get f).
Proof. intros g. reflexivity. Qed.
Lemma calm_raise {A} (e : IceError) : calm (st_raise (A := A) e).
Proof. intros g. reflexivity. Qed.
Lemma calm_lift {A} (r : res IceError A) : calm (st_lift r).
Proof. intros g. reflexivity. Qed.
Lemma calm_bind {A B} (m : GM A) (k : A -> GM B) : calm m -> (forall x, calm (k x)) -> calm (m ≫= k).
Proof.
  intros Hm Hk g. unfold mbind, st_bind. specialize (Hm g). destruct (m g) as [[x|e| |] g']; cbn in *; try done.
  etrans; [exact Hm|apply Hk].
Qed.
Lemma calm_when b (m : GM unit) : calm m -> calm (st_when b m).
Proof. intros H. destruct b; [done|apply calm_ret]. Qed.
Lemma calm_for {A} (l : list A) (body : A -> GM unit) : (forall x, calm (body x)) -> calm (st_for l body).
Proof. intros H. induction l as [|x l IH]; [apply calm_ret|]. by apply calm_bind. Qed.

Ltac calm_step :=
  lazymatch goal with
  | |- calm (_ ≫= _) => apply calm_bind; [|intros]
  | |- calm (mret _) => apply calm_ret
  | |- calm (st_get _) => apply calm_get
  | |- calm (st_raise _) => apply calm_raise
  | |- calm (st_lift _) => apply calm_lift
  | |- calm (st_when _ _) => apply calm_when
  | |- calm (st_for _ _) => apply calm_for; intros
  | |- calm (match _ with _ => _ end) => case_match
  | |- calm (internal _) => apply calm_internal
  | |- calm (st_modify _) => intros ?; reflexivity
  | |- calm _ => solve [auto with quiet nocore]
  end.

Lemma new_arc_quiet c : quiet (new_arc c).
Proof. by apply quiet_stable. Qed.

Lemma gather_one_quiet listen id mode name ext ip : quiet (gather_one listen id mode name ext ip).
Proof.
  unfold gather_one. destruct (listen ip); [|apply quiet_ret]. case_match; follow_quiet. apply new_arc_quiet.
Qed.

Lemma gather_calm handler listen id ips : calm (gather_candidates handler listen id ips).
Proof.
  unfold gather_candidates, gather_candidates_internal, set_gathering_state, gather_candidates_local.
  repeat calm_step; try apply emit_quiet. apply quiet_for. intros. apply gather_one_quiet.
Qed.

Lemma add_remote_calm config id : calm (add_remote config id).
Proof.
  unfold add_remote, Agent_add_remote_candidate. destruct (new_candidate_host config id); repeat calm_step;
    [apply new_arc_quiet|apply add_remote_candidate_quiet].
Qed.

Lemma restart_calm rng u p : calm (restart rng u p).
Proof.
  unfold restart. set (u' := match u with [] => _ | _ => _ end). set (p' := match p with [] => _ | _ => _ end).
  fold (restart_internal u' p'). pose proof (restart_quiet u' p'). clearbody u' p'. repeat calm_step. by follow_quiet.
Qed.

(** The datagrams a candidate takes for a message, and the message they decode to *)
Definition message_of (a : AgentInternal) (e : IceEvent) (c : nat) (src : SocketAddr) (m : Message) : Prop :=
  exists buf, e = Datagram c buf src /\ receiving c a = true /\
    is_message (take (Z.to_nat RECEIVE_MTU) buf) = true /\
    decoded (take (Z.to_nat RECEIVE_MTU) buf) = (Ok tt, m).

Lemma datagram_progress c buf src a :
  no_new a (snd (recv_round c buf src a)) \/
  exists m, message_of a (Datagram c buf src) c src m /\ progress a (snd (recv_round c buf src a)) c src m.
Proof.
  unfold recv_round. unfold mbind, st_bind, st_get. destruct (receiving c a) eqn:Hr; cbn [st_when]; [|by left].
  unfold handle_inbound_candidate_msg. set (b := take _ buf). destruct (is_message b) eqn:Hm.
  - destruct (decoded b) as [[[]|e| |] m] eqn:Hd; [|by left..]. right. exists m. split; [by exists buf|apply handle_inbound_progress].
  - left. apply quiet_bind.
    + unfold validate_non_stun_traffic, seen. follow_quiet.
    + intros valid. apply quiet_when. intros a1. unfold buffer_packet. destruct (buffer_write _ _) as [[] ?]; by split.
Qed.

Lemma event_progress e k g :
  let a := ag_internal g in
  let a' := ag_internal (snd (ice_event e k g)) in
  no_new a a' \/ exists c src m, message_of a e c src m /\ progress a a' c src m.
Proof.
  assert (Hcalm : (calm (ice_event e k)) -> no_new (ag_internal g) (ag_internal (snd (ice_event e k g)))) by (intros H; apply H).
  destruct e as [i s| |c buf src|config id|h l r ips|u p|u p|rng u p| |buf|buf]; cbn [ice_event] in *;
    unfold dial, accept, Agent_close in *; lazymatch goal with
    | |- context [recv_round] => idtac
    | |- _ => left; apply Hcalm; repeat calm_step
    end.
  - apply quiet_stable. intros a. reflexivity.
  - unfold ice_contact. follow_quiet. apply contact_quiet.
  - clear Hcalm. unfold mbind, st_bind, internal. pose proof (datagram_progress c buf src (ag_internal g)) as H.
    destruct (recv_round c buf src (ag_internal g)) as [[[]|e| |] a']; cbn in *;
      (destruct H as [H|(m & Hm & H)]; [by left|right; by exists c, src, m]).
  - apply add_remote_calm.
  - apply gather_calm.
  - apply start_connectivity_checks_quiet.
  - apply start_connectivity_checks_quiet.
  - apply restart_calm.
  - apply AgentInternal_close_quiet.
  - apply AgentConn_send_quiet.
  - apply AgentConn_recv_quiet.
Qed.

(** C11. A pair of candidates becomes valid only by an authentic answer. Whatever
    event the agent takes, in whatever state: a pair that is valid after it and was
    not before is validated by the datagram of this event - a success response
    whose MESSAGE-INTEGRITY is that of the remote password, that came from a known
    remote candidate, that names the transaction of a request that is pending, not
    older than the maximum, and was sent to the address the answer came from. A
    pair that becomes the selected one was elected by the datagram while there was
    no selected pair: at the controlling agent by the answer to a request that
    nominates, at the controlled agent by a request with USE-CANDIDATE whose user
    name and MESSAGE-INTEGRITY are those of the agent, for a pair already valid. *)
Theorem pair_verified e k g p :
  let a := ag_internal g in
  let a' := ag_internal (snd (ice_event e k g)) in
  (valid_pair a' p -> valid_pair a p \/ exists c src m, message_of a e c src m /\ validated a c src m p) /\
  (get_selected_pair a' = Some p ->
   get_selected_pair a = Some p \/ exists c src m, message_of a e c src m /\ elected a c src m p).
Proof.
  cbn zeta. destruct (event_progress e k g) as [[H1 H2]|(c & src & m & Hm & [H1 H2])].
  - split; intros H; left; auto.
  - split; intros H; [destruct (H1 p H)|destruct (H2 p H)]; first [by left|right; by exists c, src, m].
Qed.
End safety.

(** The answer to the check of the controlled agent makes its pair valid. *)
Lemma pair_verified_witness :
  let g := (gathered 2) <| ag_internal := B_answered |> in
  let e := Datagram 0 answer_datagram (sample_addr 1) in
  exists c src m, @message_of B_answered e c src m /\ @validated dev_profile sample_env B_answered c src m 0.
Proof.
  cbn zeta. pose proof (@pair_verified dev_profile sample_env (Datagram 0 answer_datagram (sample_addr 1)) (mkChecks Checking 2000)
    ((gathered 2) <| ag_internal := B_answered |>) 0) as [H _].
  destruct H as [H|H]; [by vm_compute| |exact H]. exfalso. revert H. by vm_compute.
Defined.
