(* ===== verification/IceLaws.v ===== *)
(** The order of the pairs of candidates, what the checks of a datagram do not
    cover, the end of checks that no answer comes to, and the text of a candidate. *)
From Stdlib Require Import Strings.String.
From S2P Require Import Prelude Utf8 Stun StunLaws StunAttrs StunAttrsLaws Text TextLaws IpText Buffer IceCandidate IceAgent IceSelector IceApi IceMessage IceSample IceInvariant IceSystem IceSafety.

(** * Priorities of pairs *)
Section priority.
Context {P : Profile}.

(** The formula the code computes, over the integers *)
Definition pair_value (g d : Z) : Z := (2 ^ 32 - 1) * Z.min g d + 2 * Z.max g d + (if g >? d then 1 else 0).

Lemma pair_value_range g d : in_range 32 g -> in_range 32 d -> in_range 64 (pair_value g d).
Proof.
  unfold in_range, pair_value. change (2 ^ 32) with 4294967296. change (2 ^ 64) with 18446744073709551616.
  intros Hg Hd. destruct (Z.gtb_spec g d); lia.
Qed.

Lemma pair_priority_value {E} controlling l r : in_range 32 l -> in_range 32 r ->
  pair_priority (E := E) controlling l r = Ok (if controlling then pair_value l r else pair_value r l).
Proof.
  assert (H : forall g d, in_range 32 g -> in_range 32 d ->
    (m ← arith 64 ((Z.shiftl 1 32 - 1) * Z.min g d); t ← arith 64 (2 * Z.max g d); s ← arith 64 (m + t);
     arith (E := E) 64 (s + (if g >? d then 1 else 0))) = Ok (pair_value g d)).
  { intros g d Hg Hd. pose proof (pair_value_range g d Hg Hd) as Hv. unfold in_range, pair_value in *.
    change (2 ^ 32) with 4294967296 in *. change (Z.shiftl 1 32 - 1) with 4294967295. change (2 ^ 64) with 18446744073709551616 in *.
    rewrite arith_ok by (unfold in_range; change (2 ^ 64) with 18446744073709551616; lia). cbn [mbind res_bind].
    rewrite arith_ok by (unfold in_range; change (2 ^ 64) with 18446744073709551616; lia). cbn [mbind res_bind].
    rewrite arith_ok by (unfold in_range; change (2 ^ 64) with 18446744073709551616; destruct (g >? d); lia). cbn [mbind res_bind].
    by rewrite arith_ok. }
  intros Hl Hr. destruct controlling; by apply H.
Qed.

(** C21. The priority of a pair, for any two priorities of candidates: the product
    and the sums do not leave [u64] - the factor of the lesser one is 2^32 - 1 and
    not the 2^32 of the formula in the comment, for which the greatest priorities
    would - both agents give a pair the same priority whichever role they have, and
    a pair with a better candidate, the other one no worse, has the higher priority. *)
Theorem pair_priority_order {E} controlling l r : in_range 32 l -> in_range 32 r -> exists v,
  pair_priority (E := E) controlling l r = Ok v /\
  pair_priority (E := E) (negb controlling) r l = Ok v /\
  in_range 64 v /\
  v = 2 ^ 32 * Z.min l r + 2 * Z.max l r + (if (if controlling then l >? r else r >? l) then 1 else 0) - Z.min l r /\
  forall l' r', l <= l' < 2 ^ 32 -> r <= r' < 2 ^ 32 -> l < l' \/ r < r' ->
    exists v', pair_priority (E := E) controlling l' r' = Ok v' /\ v < v'.
Proof.
  intros Hl Hr. rewrite !pair_priority_value by done. exists (if controlling then pair_value l r else pair_value r l).
  split; [done|]. split; [by destruct controlling|]. split; [destruct controlling; by apply pair_value_range|].
  split; [unfold pair_value; destruct controlling; rewrite ?(Z.min_comm r), ?(Z.max_comm r); lia|].
  intros l' r' Hl' Hr' Hlt. unfold in_range in *. rewrite pair_priority_value by (unfold in_range; lia). eexists. split; [done|].
  unfold pair_value. change (2 ^ 32) with 4294967296 in *. destruct controlling.
  - destruct (Z.gtb_spec l r), (Z.gtb_spec l' r'); lia.
  - destruct (Z.gtb_spec r l), (Z.gtb_spec r' l'); lia.
Qed.

End priority.

Lemma pair_priority_order_witness : exists v,
  @pair_priority dev_profile IceError true (2 ^ 32 - 1) (2 ^ 32 - 2) = Ok v /\ v = 18446744069414584321.
Proof.
  destruct (@pair_priority_order dev_profile IceError true (2 ^ 32 - 1) (2 ^ 32 - 2) ltac:(split; by vm_compute) ltac:(split; by vm_compute))
    as (v & H & _ & _ & Hv & _). exists v. split; [exact H|]. rewrite Hv. by vm_compute.
Defined.

(** * A nomination that is not signed *)

(** One more attribute behind a message: four bytes, and the length of the header *)
Definition append_use_candidate (raw : bytes) : bytes :=
  take 2 raw ++ put_u16 (Z.of_nat (length raw - 20) + 4) ++ drop 4 raw ++ tlv ATTR_USE_CANDIDATE [].

Definition with_use_candidate (m : Message) : Message :=
  mkMessage (m_typ m) (m_length m + 4) (m_transaction_id m)
    (m_attributes m ++ [raw_attribute (ATTR_USE_CANDIDATE, [])]) (append_use_candidate (m_raw m)).

Lemma with_use_candidate_built m l : built m l -> Z.of_nat (length (tlvs l)) + 4 < 65536 ->
  built (with_use_candidate m) (l ++ [(ATTR_USE_CANDIDATE, [])]).
Proof.
  intros [Hid Hlen Hattr Hraw] Hs. assert (Hl : length (tlvs (l ++ [(ATTR_USE_CANDIDATE, [])])) = (length (tlvs l) + 4)%nat)
    by (rewrite tlvs_app, length_app, tlv_length; done).
  split; cbn [with_use_candidate m_typ m_length m_transaction_id m_attributes m_raw]; [done|lia|by rewrite Hattr, map_app|].
  unfold append_use_candidate. rewrite Hraw, tlvs_app, length_app, header_length by done. unfold header.
  rewrite !wrap_small by (unfold in_range; change (2 ^ 16) with 65536; lia).
  replace (20 + length (tlvs l) - 20)%nat with (length (tlvs l)) by lia. rewrite Hlen.
  repeat match goal with
  | |- context [take 2 (?x ++ ?y ++ ?r)] => change (take 2 (x ++ y ++ r)) with x
  | |- context [drop 4 ((put_u16 ?a ++ put_u16 ?b ++ ?r) ++ ?q)] => change (drop 4 ((put_u16 a ++ put_u16 b ++ r) ++ q)) with (r ++ q)
  end.
  rewrite <- !app_assoc. reflexivity.
Qed.

Section nomination.
Context {P : Profile} {env : IceEnv} {laws : IceEnvLaws env}.

Lemma recv_message a c raw src m : receiving c a = true -> Z.of_nat (length raw) <= RECEIVE_MTU ->
  is_message raw = true -> decoded raw = (Ok tt, m) -> recv_round c raw src a = handle_inbound m c src a.
Proof.
  intros Hr Hl Hm Hd. unfold recv_round, mbind, st_bind, st_get. rewrite Hr. cbn [st_when]. unfold handle_inbound_candidate_msg.
  rewrite take_ge by (unfold RECEIVE_MTU in *; lia). by rewrite Hm, Hd.
Qed.

(** A signed request of the peer, as the agent gets it on the candidate [c] *)
Record signed_request (a : AgentInternal) (c : nat) (src : SocketAddr) (m : Message) (rc p : nat) (l : list (AttrType * bytes)) : Prop := {
  sr_sealed : exists id, sealed_as m (up_local_pwd (ai_ufrag_pwd a)) BINDING_REQUEST id
                (request_attrs (inbound_username (ai_ufrag_pwd a)) l);
  sr_plain : plain_attrs (request_attrs (inbound_username (ai_ufrag_pwd a)) l);
  sr_length : Z.of_nat (length (tlvs (request_attrs (inbound_username (ai_ufrag_pwd a)) l))) < 8000;
  sr_username : utf8_valid (inbound_username (ai_ufrag_pwd a)) = true;
  sr_role : ATTR_ICE_CONTROLLED ∉ l.*1;
  sr_controlled : ai_is_controlling a = false;
  sr_receiving : receiving c a = true;
  sr_remote : find_remote_candidate (ca_network_type (cand_of a c)) src a = Some rc;
  sr_pair : find_pair c rc a = Some p
}.

Lemma send_binding_success_view m local remote : stable pairs_view (send_binding_success m local remote).
Proof. unfold send_binding_success, build_message, send_stun, write_to, seen, on_candidate, emit. stab. Qed.

Lemma mark_seen_view rc : stable pairs_view (mark_seen rc).
Proof. unfold mark_seen, seen, on_candidate. stab. Qed.

Lemma then_view {S E T A B} (f : S -> T) (m : ST S E A) (k : A -> ST S E B) s : (forall x, stable f (k x)) ->
  f (snd ((m ≫= k) s)) = f (snd (m s)).
Proof. intros H. unfold mbind, st_bind. destruct (m s) as [[x|e| |] s']; [apply H|done..]. Qed.

Lemma controlled_nominates m c rc a p : find_pair c rc a = Some p -> contains m ATTR_USE_CANDIDATE = true ->
  valid_pair a p -> get_selected_pair a = None -> get_selected_pair (snd (controlled_handle_binding_request m c rc a)) = Some p.
Proof.
  intros Hp Huc Hv Hsel. unfold controlled_handle_binding_request. unfold mbind at 1, st_bind at 1, st_get at 1. rewrite Hp.
  rewrite bool_decide_false by done. cbn [st_when]. unfold mbind at 1 2, st_bind at 1 2, mret, st_ret, st_get at 1. rewrite Hp, Huc.
  unfold mbind at 1, st_bind at 1, st_get at 1. rewrite bool_decide_true by exact Hv.
  unfold mbind at 1, st_bind at 1, st_get at 1. rewrite bool_decide_true by exact Hsel. cbn [st_when].
  pose proof (then_view pairs_view (set_selected_pair (Some p)) (fun _ => send_binding_success m c rc) a
    (fun _ => send_binding_success_view m c rc)) as V.
  apply (f_equal snd) in V. etrans; [exact V|]. apply set_selected_is.
Qed.

Definition sealed_attrs (a : AgentInternal) (id : bytes) (l : list (AttrType * bytes)) : list (AttrType * bytes) :=
  sealing (up_local_pwd (ai_ufrag_pwd a)) BINDING_REQUEST id (request_attrs (inbound_username (ai_ufrag_pwd a)) l).

Lemma signed_request_built a c src m rc p l : signed_request a c src m rc p l -> exists id,
  m_typ m = BINDING_REQUEST /\ built m (sealed_attrs a id l) /\ Forall wire_attr (sealed_attrs a id l) /\
  Z.of_nat (length (tlvs (sealed_attrs a id l))) < 8032.
Proof.
  intros [(id & [Ht Hi Hb]) [] ? ? ? ? ? ? ?]. exists id. unfold sealed_attrs. split; [done|]. split; [done|]. split.
  - unfold sealing. repeat (apply Forall_app; split); [done|..]; repeat constructor; done.
  - rewrite sealing_length. lia.
Qed.

Lemma wire_request : wire_type BINDING_REQUEST.
Proof. split; by vm_compute. Qed.

Lemma use_candidate_received a c src m rc p l : signed_request a c src m rc p l ->
  recv_round c (append_use_candidate (m_raw m)) src a = handle_inbound (with_use_candidate m) c src a.
Proof.
  intros Hs. pose proof Hs as [_ _ _ _ _ _ Hrecv _ _]. destruct (signed_request_built _ _ _ _ _ _ _ Hs) as (id & Ht & Hb & Hw & Hlen).
  pose proof (with_use_candidate_built m _ Hb ltac:(lia)) as Hb'. apply recv_message; [done|..].
  - change (append_use_candidate (m_raw m)) with (m_raw (with_use_candidate m)).
    rewrite (bu_raw _ _ Hb'), length_app, header_length, tlvs_app, length_app, tlv_length by apply Hb. cbn [length].
    unfold RECEIVE_MTU. change (nearest_padded_value_length 0) with 0%nat. lia.
  - exact (built_is_message (with_use_candidate m) _ Hb').
  - unfold decoded. change (append_use_candidate (m_raw m)) with (m_raw (with_use_candidate m)). rewrite (decode_built (with_use_candidate m) _ [] _ Hb').
    + by rewrite app_nil_r.
    + cbn. rewrite Ht. apply wire_request.
    + apply Forall_app. split; [done|]. by repeat constructor.
    + rewrite tlvs_app, length_app, tlv_length. cbn [length]. change (nearest_padded_value_length 0) with 0%nat. lia.
    + cbn. by rewrite app_nil_r.
Qed.

Lemma request_received a c src m rc p l : signed_request a c src m rc p l ->
  recv_round c (m_raw m) src a = handle_inbound m c src a.
Proof.
  intros Hs. pose proof Hs as [_ _ _ _ _ _ Hrecv _ _]. destruct (signed_request_built _ _ _ _ _ _ _ Hs) as (id & Ht & Hb & Hw & Hlen).
  apply recv_message; [done|..].
  - rewrite (bu_raw _ _ Hb), length_app, header_length by apply Hb. unfold RECEIVE_MTU. lia.
  - by eapply built_is_message.
  - unfold decoded. rewrite (decode_built m _ [] _ Hb); [rewrite app_nil_r; by destruct m|by rewrite Ht|done|lia|].
    cbn. by rewrite app_nil_r.
Qed.

(** The checks that the agent makes of the lengthened message *)
Lemma use_candidate_checks a c src m rc p l : signed_request a c src m rc p l ->
  let m' := with_use_candidate m in
  m_typ m' = BINDING_REQUEST /\ wrong_role false m' = false /\ contains m' ATTR_USE_CANDIDATE = true /\
  assert_inbound_username m' (inbound_username (ai_ufrag_pwd a)) = Ok true /\
  assert_inbound_message_integrity m' (up_local_pwd (ai_ufrag_pwd a)) = (Ok tt, m').
Proof.
  intros Hs. cbn zeta. pose proof Hs as [(id0 & [Ht0 Hi0 Hb0]) [] Hshort Hutf Hrole _ _ _ _].
  set (u := ai_ufrag_pwd a) in *. set (attrs := request_attrs (inbound_username u) l) in *.
  pose proof (sealing_length (up_local_pwd u) BINDING_REQUEST id0 attrs) as Hlen.
  pose proof (with_use_candidate_built m _ Hb0 ltac:(lia)) as Hb.
  set (m' := with_use_candidate m) in *. assert (Ht : m_typ m' = BINDING_REQUEST) by (cbn; congruence).
  assert (Hi : m_transaction_id m' = id0) by (cbn; congruence). clearbody m'.
  assert (Htotal : Z.of_nat (length (tlvs (sealing (up_local_pwd u) BINDING_REQUEST id0 attrs ++ [(ATTR_USE_CANDIDATE, [])]))) < 65536)
    by (rewrite tlvs_app, length_app, tlv_length; cbn [length]; change (nearest_padded_value_length 0) with 0%nat; lia).
  unfold sealing in Hb, Htotal. rewrite <- !app_assoc in Hb, Htotal. cbn [app] in Hb, Htotal.
  split; [done|]. split; [|split; [|split]].
  - cbn [wrong_role]. rewrite (built_contains _ _ _ Hb). apply bool_decide_false. rewrite fmap_app, elem_of_app.
    unfold attrs, request_attrs. cbn. rewrite !elem_of_cons, elem_of_nil. intros [[?|?]|[?|[?|[?|?]]]]; done.
  - rewrite (built_contains _ _ _ Hb). apply bool_decide_true. rewrite fmap_app, elem_of_app. right. cbn. rewrite !elem_of_cons. auto.
  - unfold assert_inbound_username, TextAttribute_get_from_as. cbn [negb].
    rewrite (get_built [] ATTR_USERNAME (inbound_username u) _ m' (bu_attributes _ _ Hb)) by apply not_elem_of_nil.
    change (text_attr_supported ATTR_USERNAME) with true. cbn [negb mbind res_bind]. rewrite Hutf. cbn. by rewrite bool_decide_true.
  - unfold assert_inbound_message_integrity.
    rewrite (MessageIntegrity_check_spec ice_hmac_sha1 (mkMessageIntegrity (up_local_pwd u)) m' attrs _ _ Hb).
    + rewrite Ht, Hi. f_equal. by apply check_hmac_eq.
    + done.
    + apply ice_hmac_length.
    + exact Htotal.
Qed.

(** C36. What comes behind the MESSAGE-INTEGRITY attribute of a message is not
    signed, and the agent heeds it all the same. Let [m] be a request as the peer
    signs it, without USE-CANDIDATE, that reaches a controlled agent with a valid
    pair and nothing selected. The agent does not select a pair by it. But whoever
    appends four bytes to the datagram and adds four to its length, without any
    key, makes the agent take the pair for nominated: it becomes the selected one. *)
Theorem unsigned_nomination a c src m rc p l : signed_request a c src m rc p l -> ATTR_USE_CANDIDATE ∉ l.*1 ->
  valid_pair a p -> get_selected_pair a = None ->
  get_selected_pair (snd (recv_round c (m_raw m) src a)) = None /\
  get_selected_pair (snd (recv_round c (append_use_candidate (m_raw m)) src a)) = Some p.
Proof.
  intros Hs Huse Hv Hsel. rewrite (request_received _ _ _ _ _ _ _ Hs), (use_candidate_received _ _ _ _ _ _ _ Hs).
  pose proof (use_candidate_checks _ _ _ _ _ _ _ Hs) as (Ht & Hrole & Huc & Hname & Hmi).
  destruct Hs as [(id & Hsealed) _ _ _ _ Hctl _ Hrc Hp]. split.
  - destruct (handle_inbound_progress m c src a) as [_ H]. destruct (get_selected_pair (snd _)) as [q|]; [|done]. exfalso.
    destruct (H q eq_refl) as [?|[_ He]]; [congruence|]. rewrite Hctl in He. destruct He as (rc' & [_ _ _ _ _ _ Hu _]).
    rewrite (sealed_contains _ _ _ _ _ _ Hsealed), bool_decide_false in Hu; [done|].
    cbn. rewrite elem_of_cons. by intros [?|?].
  - set (m' := with_use_candidate m) in *. clearbody m'. unfold handle_inbound. rewrite Ht. cbn [negb orb].
    change (negb (mt_method BINDING_REQUEST =? METHOD_BINDING) || negb (handled_class (mt_class BINDING_REQUEST))) with false.
    unfold mbind at 1, st_bind at 1, st_get at 1. rewrite Hctl, Hrole. unfold mbind at 1, st_bind at 1, st_get at 1. rewrite Hrc.
    change (mt_class BINDING_REQUEST =? CLASS_SUCCESS_RESPONSE) with false. change (mt_class BINDING_REQUEST =? CLASS_REQUEST) with true.
    cbn iota. unfold mbind at 1, st_bind at 1, st_get at 1. rewrite Hname. unfold with_integrity. rewrite Hmi.
    pose proof (then_view pairs_view (handle_binding_request m' c rc) (fun _ => mark_seen (Some rc)) a (fun _ => mark_seen_view _)) as V.
    apply (f_equal snd) in V. unfold pairs_view in V. cbn [snd] in V. etrans; [exact V|].
    unfold handle_binding_request. unfold mbind, st_bind, st_get. rewrite Hctl. by apply controlled_nominates.
Qed.
End nomination.

Lemma unsigned_nomination_witness :
  let l := controlling_attrs 7 0x7effffff in
  let m := snd (decoded request_datagram) in
  signed_request (env := sample_env) B_valid 0 (sample_addr 1) m 1 0 l /\
  get_selected_pair (snd (@recv_round dev_profile sample_env 0 (m_raw m) (sample_addr 1) B_valid)) = None /\
  get_selected_pair (snd (@recv_round dev_profile sample_env 0 (append_use_candidate (m_raw m)) (sample_addr 1) B_valid)) = Some 0%nat.
Proof.
  cbn zeta. assert (Hs : signed_request (env := sample_env) B_valid 0 (sample_addr 1) (snd (decoded request_datagram)) 1 0
    (controlling_attrs 7 0x7effffff)).
  { split; [| | | | |vm_compute; reflexivity..].
    - exists (ice_transaction_id (IceEnv := sample_env) 0). split; [vm_compute; reflexivity..|]. split; vm_compute; reflexivity.
    - apply plain_cons; [apply controlling_attrs_ok|by vm_compute..].
    - by vm_compute.
    - by vm_compute.
    - apply (bool_decide_unpack (ATTR_ICE_CONTROLLED ∉ (controlling_attrs 7 0x7effffff).*1)). by vm_compute. }
  split; [exact Hs|]. apply (@unsigned_nomination dev_profile sample_env sample_laws _ _ _ _ _ _ _ Hs).
  - apply (bool_decide_unpack (ATTR_USE_CANDIDATE ∉ (controlling_attrs 7 0x7effffff).*1)). by vm_compute.
  - by vm_compute.
  - by vm_compute.
Defined.

(** * The text of a candidate, as it is signalled to the peer, and what is read back *)
Section text.
Context {P : Profile} (crc32_iscsi : bytes -> Z).

(** What a candidate is built of, as words of its text *)
Record config_words (c : CandidateBaseConfig) : Prop := {
  cw_address : is_word (cc_address c);
  cw_foundation : cc_foundation c = [] \/ is_word (cc_foundation c);
  cw_port : 0 <= cc_port c < 2 ^ 16;
  cw_component : 0 <= cc_component c < 2 ^ 16;
  cw_priority : 0 <= cc_priority c < 2 ^ 32;
  cw_computed : cc_priority c = 0 -> cc_component c <= 256
}.

Lemma foundation_word c : ca_foundation_override c = [] \/ is_word (ca_foundation_override c) -> is_word (foundation crc32_iscsi c).
Proof. unfold foundation. intros [->|Hw]; [apply print_int_word|]. destruct (ca_foundation_override c); [apply print_int_word|done]. Qed.

(** The fields of a candidate that come from its configuration, and its address *)
Record built_from (config : CandidateBaseConfig) (c : CandidateBase) : Prop := {
  bf_type : ca_candidate_type c = Host;
  bf_component : ca_component c = cc_component config;
  bf_address : ca_address c = cc_address config;
  bf_port : ca_port c = cc_port config;
  bf_related : ca_related_address c = None;
  bf_foundation : ca_foundation_override c = cc_foundation config;
  bf_priority : ca_priority_override c = cc_priority config;
  bf_network : match (if ends_with (chars ".local") (cc_address config) then Some None else Some <$> parse_ip (cc_address config)) with
    | None => False
    | Some None => ca_network_type c = Udp4 /\ ca_resolved_addr c = unspecified_addr
    | Some (Some ip) => ca_network_type c = (if is_ipv4 ip then Udp4 else Udp6) /\ ca_resolved_addr c = mkSocketAddr ip (cc_port config)
    end
}.

Lemma new_candidate_built config id c : new_candidate_host config id = Ok c -> built_from config c.
Proof.
  unfold new_candidate_host. destruct (ends_with _ _) eqn:He; cbn [negb].
  - intros [= <-]. split; [done..|]. by rewrite He.
  - destruct (parse_ip _) as [ip|] eqn:Hip; [|done]. unfold set_ip, determine_network_type. destruct (starts_with _ _); [|done].
    cbn [mbind res_bind]. intros [= <-]. split; [done..|]. by rewrite He, Hip.
Qed.

Lemma new_candidate_id config id c : new_candidate_host config id = Ok c ->
  ca_id c = match cc_candidate_id config with [] => id | _ => cc_candidate_id config end.
Proof.
  unfold new_candidate_host. destruct (ends_with _ _); cbn [negb]; [by intros [= <-]; destruct (cc_candidate_id config)|].
  destruct (parse_ip _); [|done]. unfold set_ip. destruct (determine_network_type _ _); try done.
  cbn [mbind res_bind]. intros [= <-]. by destruct (cc_candidate_id config).
Qed.

(** A host candidate of UDP can be built of an address that has been read once. *)
Lemma new_candidate_again config c config' id : built_from config c ->
  cc_address config' = cc_address config -> cc_network config' = UDP -> exists c', new_candidate_host config' id = Ok c'.
Proof.
  intros [_ _ _ _ _ _ _ Hn] Ha Hu. unfold new_candidate_host. rewrite Ha. destruct (ends_with _ _); cbn [negb]; [by eexists|].
  destruct (parse_ip _) as [ip|]; [|done]. unfold set_ip, determine_network_type. cbn [ca_network]. rewrite Hu.
  change (starts_with UDP (map ascii_lowercase UDP)) with true. by eexists.
Qed.

Lemma host_priority config c : built_from config c -> config_words config ->
  exists p, candidate_priority (E := IceError) c = Ok p /\ 0 < p < 2 ^ 32.
Proof.
  intros [Ht Hc _ _ _ _ Hp _] [_ _ _ Hcr Hpr Hcomp]. unfold candidate_priority. rewrite Hp, Ht, Hc.
  change (2 ^ 32) with 4294967296 in *. destruct (Z.eqb_spec (cc_priority config) 0) as [H0|Hne]; cbn [negb]; [|eexists; split; [done|lia]].
  specialize (Hcomp H0). change (2 ^ 16) with 65536 in *. unfold local_preference.
  assert (Hr : forall z, 0 <= z < 4294967296 -> in_range 32 z) by (intros z Hz; exact Hz).
  change (Z.shiftl 1 24 * preference Host) with 2113929216. change (Z.shiftl 1 8 * DEFAULT_LOCAL_PREFERENCE) with 16776960.
  do 5 (rewrite arith_ok by (apply Hr; lia); cbn [mbind res_bind]). eexists. split; [done|]. lia.
Qed.

Lemma marshal_words config c p : built_from config c -> candidate_priority (E := IceError) c = Ok p ->
  candidate_marshal crc32_iscsi c = Ok (join [32] [foundation crc32_iscsi c; print_int (ca_component c);
    network_short (ca_network_type c); print_int p; ca_address c; print_int (ca_port c); chars "typ"; chars "host"]).
Proof.
  intros [Ht _ _ _ Hrel _ _ _] Hp. unfold candidate_marshal. rewrite Hp, Hrel, Ht. cbn [mbind res_bind]. reflexivity.
Qed.

Lemma built_network config c : built_from config c -> network_short (ca_network_type c) = UDP.
Proof.
  intros [_ _ _ _ _ _ _ Hn]. destruct (if ends_with _ _ then _ else _) as [[ip|]|]; [|by destruct Hn as [-> _]|done].
  destruct Hn as [-> _]. by destruct (is_ipv4 ip).
Qed.

Lemma parse_print_unsigned w z : 0 <= z < 2 ^ w -> parse_field (parse_unsigned w (print_int z)) = Ok z.
Proof. intros H. unfold parse_unsigned. rewrite parse_print_int by lia. done. Qed.

(** The text of a host candidate, and the candidate it is read as *)
Definition candidate_text (foundation : str) (component priority : Z) (address : str) (port : Z) : str :=
  join [32] [foundation; print_int component; UDP; print_int priority; address; print_int port; chars "typ"; chars "host"].

Lemma unmarshal_candidate_text f n p a port id : is_word f -> is_word a -> 0 <= n < 2 ^ 16 -> 0 <= p < 2 ^ 32 -> 0 <= port < 2 ^ 16 ->
  unmarshal_candidate (candidate_text f n p a port) id = new_candidate_host (mkCandidateBaseConfig [] UDP a port n p f false) id.
Proof.
  intros Hf Ha Hn Hp Hpo. unfold unmarshal_candidate, candidate_text. rewrite split_join_words.
  - cbn [length Nat.ltb Nat.leb index lookup list_lookup mbind res_bind].
    rewrite (parse_print_unsigned 16 n) by done. cbn [mbind res_bind]. rewrite (parse_print_unsigned 32 p) by done. cbn [mbind res_bind].
    rewrite (parse_print_unsigned 16 port) by done. reflexivity.
  - repeat constructor; try apply Hf; try apply Ha; try apply print_int_word; done.
Qed.


(** C20. The text of a host candidate, read back by the peer. Whatever configuration
    a host candidate was built of - an address of either family or an mDNS name; a
    foundation that is given or computed; a priority that is given, or computed for a
    component that the formula allows - its text can be computed and is parsed, and
    what comes back equals the candidate for the comparison that finds pairs, has
    its component, its resolved address, its foundation and its priority, and the same text again. *)
Theorem candidate_text_roundtrip config id id' c : new_candidate_host config id = Ok c -> config_words config ->
  exists s c', candidate_marshal crc32_iscsi c = Ok s /\ unmarshal_candidate s id' = Ok c' /\
    candidate_equal c' c = true /\ ca_component c' = ca_component c /\ ca_resolved_addr c' = ca_resolved_addr c /\
    foundation crc32_iscsi c' = foundation crc32_iscsi c /\
    candidate_priority (E := IceError) c' = candidate_priority (E := IceError) c /\
    candidate_marshal crc32_iscsi c' = Ok s.
Proof.
  intros Hc%new_candidate_built Hw. destruct (host_priority config c Hc Hw) as (p & Hp & Hpr).
  pose proof (marshal_words config c p Hc Hp) as Hm. destruct Hw as [Ha Hf Hport Hcomp _ _].
  pose proof Hc as [Ht Hco Had Hpo Hrel Hfo _ Hn].
  set (config' := mkCandidateBaseConfig [] UDP (ca_address c) (ca_port c) (ca_component c) p (foundation crc32_iscsi c) false).
  destruct (new_candidate_again config c config' id' Hc Had eq_refl) as [c' Hc'].
  pose proof (built_network config c Hc) as Hshort.
  rewrite Hshort in Hm. assert (Hfw : is_word (foundation crc32_iscsi c)) by (apply foundation_word; by rewrite Hfo).
  eexists _, c'. split; [exact Hm|]. assert (Hun : unmarshal_candidate (join [32] [foundation crc32_iscsi c; print_int (ca_component c); UDP;
    print_int p; ca_address c; print_int (ca_port c); chars "typ"; chars "host"]) id' = Ok c').
  { etrans; [apply unmarshal_candidate_text|exact Hc']; [exact Hfw|by rewrite Had|by rewrite Hco|lia|by rewrite Hpo]. }
  split; [exact Hun|]. apply new_candidate_built in Hc'. pose proof Hc' as [Ht' Hco' Had' Hpo' Hrel' Hfo' Hpri' Hn'].
  cbn [config' cc_address cc_port cc_component cc_priority cc_foundation] in *. rewrite Had in Hn'.
  assert (Hnet : ca_network_type c' = ca_network_type c /\ ca_resolved_addr c' = ca_resolved_addr c).
  { destruct (if ends_with _ _ then _ else _) as [[ip|]|]; [| |done]; destruct Hn as [-> ->], Hn' as [-> ->]; by rewrite ?Hpo. }
  destruct Hnet as [Hnet Hres]. assert (Hfn : foundation crc32_iscsi c' = foundation crc32_iscsi c).
  { unfold foundation at 1. rewrite Hfo'. by destruct (foundation crc32_iscsi c) eqn:E; [destruct Hfw|]. }
  assert (Hprio : candidate_priority (E := IceError) c' = Ok p).
  { unfold candidate_priority. rewrite Hpri'. by rewrite (proj2 (Z.eqb_neq p 0)) by lia. }
  split; [|split; [done|split; [done|split; [done|split; [congruence|]]]]].
  - unfold candidate_equal. rewrite Hnet, Ht', Ht, Had', Hpo', Hrel', Hrel, Z.eqb_refl. by rewrite !bool_decide_true.
  - rewrite (marshal_words config' c' p Hc' Hprio), Hfn, Hco', Hnet, Hshort, Had', Hpo'. done.
Qed.
End text.

Lemma candidate_text_roundtrip_witness :
  let config := mkCandidateBaseConfig [] UDP (chars "2001:db8::1") 5000 COMPONENT_RTP 0 [] true in
  exists c s c', new_candidate_host config (chars "id") = Ok c /\
    @candidate_marshal dev_profile (fun _ => 99) c = Ok s /\ unmarshal_candidate s (chars "r") = Ok c' /\ candidate_equal c' c = true.
Proof.
  cbn zeta. eexists. match goal with |- context [new_candidate_host ?c ?i] => set (config := c) end.
  destruct (@candidate_text_roundtrip dev_profile (fun _ => 99) config (chars "id") (chars "r")
    (match new_candidate_host config (chars "id") with Ok c => c | _ => CandidateBase_default end)) as (s & c' & H1 & H2 & H3 & _).
  - by vm_compute.
  - split; [|by left|by vm_compute..]. split; [done|]. repeat constructor.
  - exists s, c'. split; [|done]. by vm_compute.
Defined.
