(* ===== verification/IceTimeout.v ===== *)
(** Checks that no answer comes to end: an agent that is checking and has selected
    nothing fails once the time of its limits is over, whatever its other ticks did,
    and it closes its candidates. *)
From Stdlib Require Import Strings.String.
From S2P Require Import Prelude Utf8 Stun StunAttrs Text IpText Buffer IceCandidate IceAgent IceSelector IceApi IceMessage IceSample IceInvariant IceSystem.

(** What a tick leaves alone while there is no selected pair, in a program that does
    not fail *)
Definition idle_view (a : AgentInternal) : ConnectionState * option nat * bool * bool * AgentLimits :=
  (ai_connection_state a, get_selected_pair a, ai_started_ch_tx a, ai_done_tx a, ai_limits a).

Definition no_err {E A} (r : res E A) : Prop := forall e, r <> Err e.
Definition idle {A} (m : AM A) : Prop := forall a, no_err (fst (m a)) /\ idle_view (snd (m a)) = idle_view a.

Lemma no_err_bind {E A B} (r : res E A) (k : A -> res E B) : no_err r -> (forall x, no_err (k x)) -> no_err (r ≫= k).
Proof. intros Hr Hk e. destruct r as [x|e'| |]; cbn; [apply Hk| |done..]. by destruct (Hr e'). Qed.
Lemma no_err_arith {P : Profile} {E} w z : no_err (arith (E := E) w z).
Proof. intros e. unfold arith. by repeat case_match. Qed.

Lemma idle_ret {A} (x : A) : idle (mret x).
Proof. by split. Qed.
Lemma idle_get {A} (f : AgentInternal -> A) : idle (st_get f).
Proof. by split. Qed.
Lemma idle_lift {A} (f : AgentInternal -> res IceError A) : (forall a, no_err (f a)) -> idle (st_lift_get f).
Proof. intros H a. split; [apply H|done]. Qed.
Lemma idle_modify f : (forall a, idle_view (f a) = idle_view a) -> idle (st_modify f).
Proof. intros H a. split; [done|apply H]. Qed.
Lemma idle_bind {A B} (m : AM A) (k : A -> AM B) : idle m -> (forall x, idle (k x)) -> idle (m ≫= k).
Proof.
  intros Hm Hk a. destruct (Hm a) as [He Hv]. unfold mbind, st_bind. destruct (m a) as [[x|e| |] a']; cbn in *; try done.
  - destruct (Hk x a') as [He' Hv']. split; [done|congruence].
  - by destruct (He e).
Qed.
Lemma idle_when b (m : AM unit) : idle m -> idle (st_when b m).
Proof. intros H. destruct b; [done|apply idle_ret]. Qed.
Lemma idle_for {A} (l : list A) (body : A -> AM unit) : (forall x, idle (body x)) -> idle (st_for l body).
Proof. intros H. induction l as [|x l IH]; [apply idle_ret|]. by apply idle_bind. Qed.
Lemma idle_fold {A B} (l : list A) (body : B -> A -> AM B) b : (forall b x, idle (body b x)) -> idle (st_fold l body b).
Proof. intros H. revert b. induction l as [|x l IH]; intros b; [apply idle_ret|]. by apply idle_bind. Qed.

Create HintDb idle.

Ltac idle_step :=
  lazymatch goal with
  | |- idle (_ ≫= _) => apply idle_bind; [|intros]
  | |- idle (mret _) => apply idle_ret
  | |- idle (st_get _) => apply idle_get
  | |- idle (st_when _ _) => apply idle_when
  | |- idle (st_for _ _) => apply idle_for; intros
  | |- idle (st_fold _ _ _) => apply idle_fold; intros
  | |- idle (match _ with _ => _ end) => case_match
  | |- idle (st_modify _) => apply idle_modify; intros ?; reflexivity
  | |- idle _ => solve [auto with idle nocore]
  end.

Ltac follow_idle := repeat idle_step.

Section timeout.
Context {P : Profile} {env : IceEnv}.

Lemma candidate_priority_no_err c : no_err (candidate_priority (E := IceError) c).
Proof.
  unfold candidate_priority. destruct (negb _); [done|]. repeat (apply no_err_bind; [apply no_err_arith|intros ?]). apply no_err_arith.
Qed.

Lemma pair_priority_no_err (c : bool) (l r : Z) : no_err (pair_priority (E := IceError) c l r).
Proof.
  unfold pair_priority. destruct c; repeat (apply no_err_bind; [apply no_err_arith|intros ?]); apply no_err_arith.
Qed.

Lemma CandidatePair_priority_no_err a p : no_err (CandidatePair_priority (E := IceError) a p).
Proof.
  unfold CandidatePair_priority. repeat (apply no_err_bind; [apply candidate_priority_no_err|intros ?]). apply pair_priority_no_err.
Qed.

Lemma best_pair_no_err a ok best l : no_err (best_pair (E := IceError) a ok best l).
Proof.
  revert best. induction l as [|p l IH]; intros best; cbn [best_pair]; [done|]. destruct (negb _); [done|].
  destruct best as [b|]; [|done]. repeat (apply no_err_bind; [apply CandidatePair_priority_no_err|intros ?]). done.
Qed.

Lemma emit_idle o : idle (emit o). Proof. by split. Qed.
Lemma on_candidate_idle c f : idle (on_candidate c f). Proof. by split. Qed.
Lemma on_pair_idle p f : idle (on_pair p f). Proof. by split. Qed.
Lemma priority_idle (f : AgentInternal -> nat) : idle (st_lift_get (fun a => candidate_priority (cand_of a (f a)))).
Proof. apply idle_lift. intros a. apply candidate_priority_no_err. Qed.
Lemma build_message_idle l : idle (build_message l).
Proof. intros a. unfold build_message. by destruct (build l Message_new) as [[]]. Qed.
Lemma valid_idle : idle get_best_valid_candidate_pair.
Proof. intros a. split; [apply best_pair_no_err|done]. Qed.
#[local] Hint Resolve emit_idle on_candidate_idle on_pair_idle build_message_idle valid_idle : idle.
#[local] Hint Extern 1 (idle (st_lift_get _)) => apply priority_idle : idle.

Lemma send_binding_request_idle m local remote : idle (send_binding_request m local remote).
Proof. unfold send_binding_request, invalidate_pending_binding_requests, send_stun, write_to, seen. follow_idle. Qed.
#[local] Hint Resolve send_binding_request_idle : idle.

Lemma ping_candidate_idle local remote : idle (ping_candidate local remote).
Proof. unfold ping_candidate, controlling_ping_candidate, controlled_ping_candidate, new_transaction_id. follow_idle. Qed.
Lemma nominate_pair_idle : idle nominate_pair.
Proof. unfold nominate_pair, new_transaction_id. follow_idle. Qed.
#[local] Hint Resolve ping_candidate_idle nominate_pair_idle : idle.

Lemma ping_all_candidates_idle : idle ping_all_candidates.
Proof. unfold ping_all_candidates, ping_pair. follow_idle. Qed.
#[local] Hint Resolve ping_all_candidates_idle : idle.

(** The selectors, when nothing is selected *)
Lemma contact_candidates_idle a : get_selected_pair a = None ->
  no_err (fst (contact_candidates a)) /\ idle_view (snd (contact_candidates a)) = idle_view a.
Proof.
  intros Hsel. generalize (eq_refl (contact_candidates a)). generalize (contact_candidates a) at 1 3 4. intros r.
  unfold contact_candidates. unfold mbind at 1, st_bind at 1, st_get at 1. destruct (ai_is_controlling a).
  - unfold controlling_contact_candidates. unfold mbind at 1 2, st_bind at 1 2, st_get at 1 2. rewrite Hsel. intros ->.
    match goal with |- no_err (fst (?m a)) /\ _ => assert (H : idle m); [follow_idle|exact (H a)] end.
  - unfold controlled_contact_candidates. unfold mbind at 1, st_bind at 1, st_get at 1. destruct (ai_lite a).
    + unfold validate_selected_pair. unfold mbind, st_bind, st_get. rewrite Hsel. by intros ->.
    + unfold mbind at 1, st_bind at 1, st_get at 1. rewrite Hsel. intros ->. apply ping_all_candidates_idle.
Qed.

(** What the checks of a whole tick amount to *)
Definition expired_after (a : AgentInternal) (d : Z) : bool :=
  since (ai_instant a) d >? al_disconnected_timeout (ai_limits a) + al_failed_timeout (ai_limits a).

Lemma delete_all_gone a : ai_local_candidates (snd (delete_all_candidates a)) = ∅ /\ ai_remote_candidates (snd (delete_all_candidates a)) = ∅.
Proof.
  unfold delete_all_candidates, mbind, st_bind, st_get, st_modify.
  destruct (close_all_ok (concat (map_to_list (ai_local_candidates a)).*2) a) as [a1 ->].
  set (a2 := a1 <| ai_local_candidates := ∅ |>).
  assert (Hlocal : forall l b, ai_local_candidates (snd (close_all l b)) = ai_local_candidates b).
  { intros l. unfold close_all, candidate_close, on_candidate, emit.
    match goal with |- forall b, ?f (snd (?m b)) = _ => change (stable f m) end. stab. }
  destruct (close_all_ok (concat (map_to_list (ai_remote_candidates a2)).*2) a2) as [a3 E]. rewrite E. cbn. split; [|done].
  specialize (Hlocal (concat (map_to_list (ai_remote_candidates a2)).*2) a2). by rewrite E in Hlocal.
Qed.

Definition no_candidates (a : AgentInternal) : Prop := ai_local_candidates a = ∅ /\ ai_remote_candidates a = ∅.

Lemma fails a : ai_connection_state a <> ConnFailed -> exists a', update_connection_state ConnFailed a = (Ok tt, a') /\
  ai_connection_state a' = ConnFailed /\ no_candidates a'.
Proof.
  intros Hs. unfold update_connection_state, mbind, st_bind, st_get. rewrite !bool_decide_false by done.
  rewrite bool_decide_true by done. cbn [st_when]. pose proof (delete_all_gone a) as Hgone.
  destruct (delete_all_candidates_ok a) as [a1 E]. rewrite E in *. cbn [snd] in Hgone.
  unfold st_modify, emit. cbn. destruct (ai_chan_state_tx a1); by eexists.
Qed.

(** The time at which the task thinks that the checks began *)
Definition began (k : Checks) (a : AgentInternal) : Z :=
  if bool_decide (ck_last_connection_state k = Checking) then ck_checking_duration k else ai_instant a.

(** Waiting for an answer: the task has seen that the agent checks since [t0]. *)
Record waiting (t0 : Z) (k : Checks) (a : AgentInternal) : Prop := {
  wa_state : ai_connection_state a = Checking;
  wa_selected : get_selected_pair a = None;
  wa_running : task_running a = true;
  wa_checks : k = mkChecks Checking t0
}.

Record gave_up (a : AgentInternal) : Prop := {
  gu_state : ai_connection_state a = ConnFailed;
  gu_candidates : no_candidates a
}.

Lemma tame_no_panic {A} (m : AM A) a : overflow_checks = false ->
  keeps (agent_inv true 0 0) (fun (_ : IceError) => agent_inv true 0 0) m -> agent_wf a -> no_err (fst (m a)) ->
  exists x a', m a = (Ok x, a') /\ agent_wf a'.
Proof.
  intros Hrel Hm Hwf Hne. specialize (Hm a ltac:(split; [exact Hwf|lia..])). destruct (m a) as [[x|e| |] a']; cbn in *.
  - exists x, a'. split; [done|]. by destruct Hm.
  - by destruct (Hne e).
  - congruence.
  - done.
Qed.

Context {laws : IceEnvLaws env}.

(** One run of the task *)
Lemma contact_checking k a : overflow_checks = false -> agent_wf a -> ai_connection_state a = Checking ->
  get_selected_pair a = None -> exists k' a', contact k a = (Ok k', a') /\ agent_wf a' /\
    if expired_after a (began k a) then gave_up a' else k' = mkChecks Checking (began k a) /\ idle_view a' = idle_view a.
Proof.
  intros Hrel Hwf Hst Hsel. pose proof (contact_inv true 0 0 k) as Hinv.
  assert (Hb : (if bool_decide (Checking = Checking) && negb (bool_decide (ck_last_connection_state k = Checking))
                then ai_instant a else ck_checking_duration k) = began k a).
  { unfold began. rewrite (bool_decide_true (Checking = Checking)) by done. by destruct (bool_decide _). }
  destruct (aw_limits _ _ Hwf) as [_ Ht].
  assert (E : contact k a = (_ ← (if expired_after a (began k a) then update_connection_state ConnFailed else contact_candidates);
                             state ← st_get ai_connection_state; mret (mkChecks state (began k a))) a).
  { unfold contact. do 2 (unfold mbind at 1, st_bind at 1, st_get at 1). rewrite Hst.
    rewrite (bool_decide_false (Checking = ConnFailed)) by done. rewrite Hb. unfold mbind at 1, st_bind at 1, st_get at 1.
    rewrite (bool_decide_true (Checking = Checking)) by done. unfold duration_add.
    rewrite (proj2 (Z.leb_le _ _) Ht). reflexivity. }
  destruct (expired_after a (began k a)).
  - destruct (fails a) as (a' & Hf & Hs & Hgone); [congruence|]. unfold mbind, st_bind in E. rewrite Hf in E.
    unfold st_get, mret, st_ret in E. eexists _, a'. split; [exact E|]. split; [|by split].
    specialize (Hinv a ltac:(split; [exact Hwf|lia..])). rewrite E in Hinv. apply Hinv.
  - destruct (contact_candidates_idle a Hsel) as [Hne Hv].
    assert (Hne' : no_err (fst (contact k a))).
    { rewrite E. unfold mbind, st_bind, st_get, mret, st_ret. intros e. specialize (Hne e).
      destruct (contact_candidates a) as [[[]|e'| |] a']; cbn in *; try done. intros [= ->]. done. }
    destruct (tame_no_panic _ a Hrel Hinv Hwf Hne') as (k' & a' & E' & Hwf'). exists k', a'. split; [exact E'|]. split; [exact Hwf'|].
    rewrite E' in E. unfold mbind, st_bind, st_get, mret, st_ret in E.
    destruct (contact_candidates a) as [[[]|e'| |] a1]; try done. injection E as -> ->. cbn [snd] in Hv. split; [|exact Hv].
    pose proof Hv as [= Hv1 _ _ _ _]. by rewrite Hv1, Hst.
Qed.

(** A tick: the clocks move, and the task runs once. *)
Definition tick (t s : Z) (k : Checks) : GM Checks :=
  k ← ice_event (ClockTo t s) k; ice_event Contact k.

Fixpoint ticks (ts : list (Z * Z)) (k : Checks) : GM Checks :=
  match ts with
  | [] => mret k
  | (t, s) :: ts => k ← tick t s k; ticks ts k
  end.

Definition time_to_fail (a : AgentInternal) : Z := al_disconnected_timeout (ai_limits a) + al_failed_timeout (ai_limits a).

(** What holds between the ticks, from the first one on *)
Record still_waiting (t0 limit : Z) (k : Checks) (g : Agent) : Prop := {
  sw_wf : agent_wf (ag_internal g);
  sw_phase : waiting t0 k (ag_internal g) /\ time_to_fail (ag_internal g) = limit \/ gave_up (ag_internal g)
}.

Lemma tick_run t s k g : let a := (ag_internal g) <| ai_instant := t |> <| ai_system := s |> in
  tick t s k g = (let '(r, a') := ice_contact k a in (r, (g <| ag_internal := a |>) <| ag_internal := a' |>)).
Proof. reflexivity. Qed.

Lemma clocks_wf a t s : agent_wf a -> agent_wf (a <| ai_instant := t |> <| ai_system := s |>).
Proof.
  intros Hwf. pose proof (inv_unseen true 0 0 (fun a => a <| ai_instant := t |> <| ai_system := s |>) ltac:(done) a
    ltac:(split; [exact Hwf|lia..])) as H. apply H.
Qed.

Lemma gave_up_tick t s k g : agent_wf (ag_internal g) -> gave_up (ag_internal g) -> exists k' g',
  tick t s k g = (Ok k', g') /\ agent_wf (ag_internal g') /\ gave_up (ag_internal g').
Proof.
  intros Hwf [Hs Hgone]. rewrite tick_run. set (a := (ag_internal g) <| ai_instant := t |> <| ai_system := s |>).
  assert (Ha : agent_wf a) by by apply clocks_wf. assert (Hg : gave_up a) by by split.
  unfold ice_contact. unfold mbind, st_bind, st_get. destruct (task_running a); [|by eexists _, _].
  unfold contact. unfold mbind, st_bind, st_get. rewrite bool_decide_true by exact Hs. by eexists _, _.
Qed.

Lemma waiting_tick t s k g (Hrel : overflow_checks = false) : agent_wf (ag_internal g) ->
  ai_connection_state (ag_internal g) = Checking -> get_selected_pair (ag_internal g) = None -> task_running (ag_internal g) = true ->
  let t0 := if bool_decide (ck_last_connection_state k = Checking) then ck_checking_duration k else t in
  exists k' g', tick t s k g = (Ok k', g') /\ still_waiting t0 (time_to_fail (ag_internal g)) k' g' /\
    (time_to_fail (ag_internal g) < t - t0 -> gave_up (ag_internal g')).
Proof.
  intros Hwf Hs Hsel Hrun t0. rewrite tick_run. set (a := (ag_internal g) <| ai_instant := t |> <| ai_system := s |>).
  destruct (contact_checking k a Hrel (clocks_wf _ t s Hwf) Hs Hsel) as (k' & a' & E & Hwf' & H).
  change (began k a) with t0 in H. unfold ice_contact. unfold mbind, st_bind, st_get. change (task_running a) with (task_running (ag_internal g)).
  rewrite Hrun, E. eexists k', _. split; [reflexivity|]. cbn [ag_internal]. unfold expired_after in H.
  change (al_disconnected_timeout (ai_limits a) + al_failed_timeout (ai_limits a)) with (time_to_fail (ag_internal g)) in H.
  change (ai_instant a) with t in H. unfold since in H. destruct (Z.gtb_spec (Z.max 0 (t - t0)) (time_to_fail (ag_internal g))).
  - split; [|done]. split; [done|by right].
  - destruct H as [-> Hv]. split; [|lia]. split; [done|]. left. injection Hv as H1 H2 H3 H4 H5. split.
    + split; cbn; [by rewrite H1|by rewrite H2| |done]. unfold task_running in *. cbn. rewrite H3, H4. exact Hrun.
    + unfold time_to_fail. cbn. by rewrite H5.
Qed.

Lemma waits_on t0 limit ts : overflow_checks = false -> forall k g, still_waiting t0 limit k g ->
  exists k' g', ticks ts k g = (Ok k', g') /\ still_waiting t0 limit k' g'.
Proof.
  intros Hrel. induction ts as [|[t s] ts IH]; intros k g Hg; [by exists k, g|]. cbn [ticks]. unfold mbind, st_bind.
  destruct Hg as [Hwf [[[Hs Hsel Hrun ->] Hl]|Hg]].
  - destruct (waiting_tick t s (mkChecks Checking t0) g Hrel Hwf Hs Hsel Hrun) as (k' & g' & E & Hw & _). rewrite E.
    rewrite Hl in Hw. by apply IH.
  - destruct (gave_up_tick t s k g Hwf Hg) as (k' & g' & E & Hwf' & Hg'). rewrite E. apply IH. split; [done|by right].
Qed.

(** C13. An agent that begins to check and whose checks nobody answers gives up. It
    is in a state it can reach, it runs, it is checking and has selected no pair;
    its task did not see it checking before. Then any number of ticks, at any
    times, ends without a panic in a release build, and once a tick comes later than the two timeouts
    after the first one, the agent has failed, and it has removed all its candidates. *)
Theorem checks_expire k g t0 s0 ts t s : overflow_checks = false -> reachable (k, g) ->
  task_running (ag_internal g) = true -> ai_connection_state (ag_internal g) = Checking ->
  get_selected_pair (ag_internal g) = None -> ck_last_connection_state k <> Checking ->
  t - t0 > al_disconnected_timeout (ai_limits (ag_internal g)) + al_failed_timeout (ai_limits (ag_internal g)) ->
  exists k' g', ticks ((t0, s0) :: ts ++ [(t, s)]) k g = (Ok k', g') /\
    ai_connection_state (ag_internal g') = ConnFailed /\
    ai_local_candidates (ag_internal g') = ∅ /\ ai_remote_candidates (ag_internal g') = ∅.
Proof.
  intros Hrel Hreach%reachable_wf Hrun Hs Hsel Hlast Ht. cbn [ticks]. unfold mbind at 1, st_bind at 1.
  destruct (waiting_tick t0 s0 k g Hrel Hreach Hs Hsel Hrun) as (k1 & g1 & -> & H1 & _). rewrite bool_decide_false in H1 by done.
  destruct (waits_on t0 _ ts Hrel k1 g1 H1) as (k2 & g2 & E2 & [Hwf2 H2]).
  assert (Happ : ticks (ts ++ [(t, s)]) k1 g1 = tick t s k2 g2).
  { clear - E2. revert k1 g1 E2. induction ts as [|[t' s'] ts IH]; intros k1 g1 E2; cbn [app ticks] in *.
    - injection E2 as -> ->. unfold mbind, st_bind. destruct (tick t s k2 g2) as [[]]; done.
    - unfold mbind, st_bind in *. destruct (tick t' s' k1 g1) as [[k'|e| |] g']; [by apply IH|done..]. }
  rewrite Happ. destruct H2 as [[[Hs2 Hsel2 Hrun2 ->] Hl2]|Hg2].
  - destruct (waiting_tick t s (mkChecks Checking t0) g2 Hrel Hwf2 Hs2 Hsel2 Hrun2) as (k3 & g3 & -> & _ & H3). rewrite bool_decide_true in H3 by done.
    cbn [ck_checking_duration] in H3. destruct H3 as [Hst Hgone]; [rewrite Hl2; unfold time_to_fail; lia|]. by exists k3, g3.
  - destruct (gave_up_tick t s k2 g2 Hwf2 Hg2) as (k3 & g3 & -> & _ & [Hst Hgone]). by exists k3, g3.
Qed.

End timeout.

(** A new agent that dials, and three ticks *)
Lemma checks_expire_witness :
  let k0 := mkChecks ConnUnspecified 1000 in
  let g1 := snd (@ice_event release_profile sample_env (Dial (sample_ufrag 2) (sample_pwd 2)) k0 sample_fresh) in
  exists k' g', @ticks release_profile sample_env ((2000, 2000) :: [(10 ^ 6, 10 ^ 6)] ++ [(10 ^ 12, 10 ^ 12)]) k0 g1 = (Ok k', g') /\
    ai_connection_state (ag_internal g') = ConnFailed.
Proof.
  cbn zeta. set (k0 := mkChecks ConnUnspecified 1000). set (e := Dial _ _). set (g1 := snd (ice_event e k0 sample_fresh)).
  assert (E : @ice_event release_profile sample_env e k0 sample_fresh = (Ok k0, g1)).
  { assert (H : match fst (@ice_event release_profile sample_env e k0 sample_fresh) with Ok k => k = k0 | _ => False end) by by vm_compute.
    unfold g1. by destruct (ice_event e k0 sample_fresh) as [[k| | |] ?]; [rewrite <- H|..]. }
  assert (Hreach : @reachable release_profile sample_env (k0, g1)).
  { destruct (@sample_fresh_reachable release_profile sample_env) as (s0 & Hinit & Hsteps). exists s0. split; [exact Hinit|].
    eapply rtc_r; [exact Hsteps|]. by apply step_ok with (e := e). }
  destruct (@checks_expire release_profile sample_env sample_laws k0 g1 2000 2000 [(10 ^ 6, 10 ^ 6)] (10 ^ 12) (10 ^ 12)
    eq_refl Hreach) as (k' & g' & E' & Hf & _); [by vm_compute..|]. exists k', g'. split; [exact E'|exact Hf].
Defined.
