(* ===== verification/RtcTypes.v ===== *)
(** The errors and the enumerations of the peer connection and of its transports
    ([error.rs], [peer_connection/], [ice_transport/], [dtls_transport/],
    [sctp_transport/], [sdp/util]): their names, numbers and conversions.  A variant
    is prefixed with its type. *)
From Stdlib Require Import Strings.String.
From S2P Require Import Prelude Errors Text Sdp IceCandidate IceAgent DtlsTypes Assoc DataChannel.

(** [error.rs]; the errors the data channel raises are those of [RtcError]. *)
Inductive WebrtcError : Type :=
  | ErrConnectionClosed
  | ErrNonCertificate
  | ErrNoRemoteDescription
  | ErrSessionDescriptionNoFingerprint
  | ErrSessionDescriptionInvalidFingerprint
  | ErrSessionDescriptionConflictingFingerprints
  | ErrSessionDescriptionMissingIceUfrag
  | ErrSessionDescriptionMissingIcePwd
  | ErrSessionDescriptionConflictingIceUfrag
  | ErrSessionDescriptionConflictingIcePwd
  | ErrInvalidDTLSStart
  | ErrIdentityProviderNotImplemented
  | ErrICEConnectionNotStarted
  | ErrICECandidateTypeUnknown
  | ErrICEAgentNotExist
  | ErrICERoleUnknown
  | ErrSDPDoesNotMatchOffer
  | ErrSDPDoesNotMatchAnswer
  | ErrPeerConnSDPTypeInvalidValue
  | ErrPeerConnStateChangeInvalid
  | ErrPeerConnSDPTypeInvalidValueSetLocalDescription
  | ErrSCTPTransportDTLS
  | ErrSignalingStateCannotRollback
  | ErrSignalingStateProposedTransitionInvalid
  | ErrICETransportNotInNew
  | WebrtcData (e : RtcError)
  | WebrtcIce (e : IceError)
  | WebrtcDtls (e : DtlsError)
  | WebrtcSctp (e : Errors.Error)
  | WebrtcSdp (e : SdpError)
  | WebrtcNew (s : str).

Definition UNSPECIFIED_STR : str := chars "Unspecified".

(** [peer_connection/sdp/sdp_type.rs] *)
Inductive RTCSdpType : Type := RTCSdpType_Unspecified | RTCSdpType_Offer | RTCSdpType_Pranswer
    | RTCSdpType_Answer | RTCSdpType_Rollback.
#[export] Instance RTCSdpType_eq_dec : EqDecision RTCSdpType.
Proof. solve_decision. Defined.
Definition RTCSdpType_to_string (x : RTCSdpType) : str :=
  match x with
  | RTCSdpType_Unspecified => chars "Unspecified"
  | RTCSdpType_Offer => chars "offer"
  | RTCSdpType_Pranswer => chars "pranswer"
  | RTCSdpType_Answer => chars "answer"
  | RTCSdpType_Rollback => chars "rollback"
  end.
Definition RTCSdpType_from_str (raw : str) : RTCSdpType :=
  if bool_decide (raw = chars "offer") then RTCSdpType_Offer
  else if bool_decide (raw = chars "pranswer") then RTCSdpType_Pranswer
  else if bool_decide (raw = chars "answer") then RTCSdpType_Answer
  else if bool_decide (raw = chars "rollback") then RTCSdpType_Rollback
  else RTCSdpType_Unspecified.
Definition RTCSdpType_default : RTCSdpType := RTCSdpType_Unspecified.

(** [peer_connection/signaling_state.rs] *)
Inductive StateChangeOp : Type := StateChangeOp_SetLocal | StateChangeOp_SetRemote.
#[export] Instance StateChangeOp_eq_dec : EqDecision StateChangeOp.
Proof. solve_decision. Defined.
Definition StateChangeOp_to_string (x : StateChangeOp) : str :=
  match x with
  | StateChangeOp_SetLocal => chars "SetLocal"
  | StateChangeOp_SetRemote => chars "SetRemote"
  end.
Definition StateChangeOp_default : StateChangeOp := StateChangeOp_SetLocal.

(** [peer_connection/signaling_state.rs] *)
Inductive RTCSignalingState : Type := RTCSignalingState_Unspecified | RTCSignalingState_Stable
    | RTCSignalingState_HaveLocalOffer | RTCSignalingState_HaveRemoteOffer | RTCSignalingState_HaveLocalPranswer
    | RTCSignalingState_HaveRemotePranswer | RTCSignalingState_Closed.
#[export] Instance RTCSignalingState_eq_dec : EqDecision RTCSignalingState.
Proof. solve_decision. Defined.
Definition RTCSignalingState_to_string (x : RTCSignalingState) : str :=
  match x with
  | RTCSignalingState_Unspecified => chars "Unspecified"
  | RTCSignalingState_Stable => chars "stable"
  | RTCSignalingState_HaveLocalOffer => chars "have-local-offer"
  | RTCSignalingState_HaveRemoteOffer => chars "have-remote-offer"
  | RTCSignalingState_HaveLocalPranswer => chars "have-local-pranswer"
  | RTCSignalingState_HaveRemotePranswer => chars "have-remote-pranswer"
  | RTCSignalingState_Closed => chars "closed"
  end.
Definition RTCSignalingState_from_str (raw : str) : RTCSignalingState :=
  if bool_decide (raw = chars "stable") then RTCSignalingState_Stable
  else if bool_decide (raw = chars "have-local-offer") then RTCSignalingState_HaveLocalOffer
  else if bool_decide (raw = chars "have-remote-offer") then RTCSignalingState_HaveRemoteOffer
  else if bool_decide (raw = chars "have-local-pranswer") then RTCSignalingState_HaveLocalPranswer
  else if bool_decide (raw = chars "have-remote-pranswer") then RTCSignalingState_HaveRemotePranswer
  else if bool_decide (raw = chars "closed") then RTCSignalingState_Closed
  else RTCSignalingState_Unspecified.
Definition RTCSignalingState_from_u8 (v : Z) : RTCSignalingState :=
  match v with
  | 1 => RTCSignalingState_Stable
  | 2 => RTCSignalingState_HaveLocalOffer
  | 3 => RTCSignalingState_HaveRemoteOffer
  | 4 => RTCSignalingState_HaveLocalPranswer
  | 5 => RTCSignalingState_HaveRemotePranswer
  | 6 => RTCSignalingState_Closed
  | _ => RTCSignalingState_Unspecified
  end.
Definition RTCSignalingState_as_u8 (x : RTCSignalingState) : Z :=
  match x with RTCSignalingState_Unspecified => 0 | RTCSignalingState_Stable => 1
    | RTCSignalingState_HaveLocalOffer => 2 | RTCSignalingState_HaveRemoteOffer => 3
    | RTCSignalingState_HaveLocalPranswer => 4 | RTCSignalingState_HaveRemotePranswer => 5
    | RTCSignalingState_Closed => 6 end.
Definition RTCSignalingState_default : RTCSignalingState := RTCSignalingState_Unspecified.

(** [peer_connection/peer_connection_state.rs] *)
Inductive RTCPeerConnectionState : Type := RTCPeerConnectionState_Unspecified | RTCPeerConnectionState_New
    | RTCPeerConnectionState_Connecting | RTCPeerConnectionState_Connected | RTCPeerConnectionState_Disconnected
    | RTCPeerConnectionState_Failed | RTCPeerConnectionState_Closed.
#[export] Instance RTCPeerConnectionState_eq_dec : EqDecision RTCPeerConnectionState.
Proof. solve_decision. Defined.
Definition RTCPeerConnectionState_to_string (x : RTCPeerConnectionState) : str :=
  match x with
  | RTCPeerConnectionState_Unspecified => chars "Unspecified"
  | RTCPeerConnectionState_New => chars "new"
  | RTCPeerConnectionState_Connecting => chars "connecting"
  | RTCPeerConnectionState_Connected => chars "connected"
  | RTCPeerConnectionState_Disconnected => chars "disconnected"
  | RTCPeerConnectionState_Failed => chars "failed"
  | RTCPeerConnectionState_Closed => chars "closed"
  end.
Definition RTCPeerConnectionState_from_str (raw : str) : RTCPeerConnectionState :=
  if bool_decide (raw = chars "new") then RTCPeerConnectionState_New
  else if bool_decide (raw = chars "connecting") then RTCPeerConnectionState_Connecting
  else if bool_decide (raw = chars "connected") then RTCPeerConnectionState_Connected
  else if bool_decide (raw = chars "disconnected") then RTCPeerConnectionState_Disconnected
  else if bool_decide (raw = chars "failed") then RTCPeerConnectionState_Failed
  else if bool_decide (raw = chars "closed") then RTCPeerConnectionState_Closed
  else RTCPeerConnectionState_Unspecified.
Definition RTCPeerConnectionState_from_u8 (v : Z) : RTCPeerConnectionState :=
  match v with
  | 1 => RTCPeerConnectionState_New
  | 2 => RTCPeerConnectionState_Connecting
  | 3 => RTCPeerConnectionState_Connected
  | 4 => RTCPeerConnectionState_Disconnected
  | 5 => RTCPeerConnectionState_Failed
  | 6 => RTCPeerConnectionState_Closed
  | _ => RTCPeerConnectionState_Unspecified
  end.
Definition RTCPeerConnectionState_as_u8 (x : RTCPeerConnectionState) : Z :=
  match x with RTCPeerConnectionState_Unspecified => 0 | RTCPeerConnectionState_New => 1
    | RTCPeerConnectionState_Connecting => 2 | RTCPeerConnectionState_Connected => 3
    | RTCPeerConnectionState_Disconnected => 4 | RTCPeerConnectionState_Failed => 5
    | RTCPeerConnectionState_Closed => 6 end.
Definition RTCPeerConnectionState_default : RTCPeerConnectionState := RTCPeerConnectionState_Unspecified.

(** [ice_transport/ice_candidate_type.rs] *)
Inductive RTCIceCandidateType : Type := RTCIceCandidateType_Unspecified | RTCIceCandidateType_Host.
#[export] Instance RTCIceCandidateType_eq_dec : EqDecision RTCIceCandidateType.
Proof. solve_decision. Defined.
Definition RTCIceCandidateType_to_string (x : RTCIceCandidateType) : str :=
  match x with
  | RTCIceCandidateType_Unspecified => chars "Unspecified"
  | RTCIceCandidateType_Host => chars "host"
  end.
Definition RTCIceCandidateType_from_str (raw : str) : RTCIceCandidateType :=
  if bool_decide (raw = chars "host") then RTCIceCandidateType_Host
  else RTCIceCandidateType_Unspecified.
Definition RTCIceCandidateType_default : RTCIceCandidateType := RTCIceCandidateType_Unspecified.

(** [ice_transport/ice_connection_state.rs] *)
Inductive RTCIceConnectionState : Type := RTCIceConnectionState_Unspecified | RTCIceConnectionState_New
    | RTCIceConnectionState_Checking | RTCIceConnectionState_Connected | RTCIceConnectionState_Completed
    | RTCIceConnectionState_Disconnected | RTCIceConnectionState_Failed | RTCIceConnectionState_Closed.
#[export] Instance RTCIceConnectionState_eq_dec : EqDecision RTCIceConnectionState.
Proof. solve_decision. Defined.
Definition RTCIceConnectionState_to_string (x : RTCIceConnectionState) : str :=
  match x with
  | RTCIceConnectionState_Unspecified => chars "Unspecified"
  | RTCIceConnectionState_New => chars "new"
  | RTCIceConnectionState_Checking => chars "checking"
  | RTCIceConnectionState_Connected => chars "connected"
  | RTCIceConnectionState_Completed => chars "completed"
  | RTCIceConnectionState_Disconnected => chars "disconnected"
  | RTCIceConnectionState_Failed => chars "failed"
  | RTCIceConnectionState_Closed => chars "closed"
  end.
Definition RTCIceConnectionState_from_str (raw : str) : RTCIceConnectionState :=
  if bool_decide (raw = chars "new") then RTCIceConnectionState_New
  else if bool_decide (raw = chars "checking") then RTCIceConnectionState_Checking
  else if bool_decide (raw = chars "connected") then RTCIceConnectionState_Connected
  else if bool_decide (raw = chars "completed") then RTCIceConnectionState_Completed
  else if bool_decide (raw = chars "disconnected") then RTCIceConnectionState_Disconnected
  else if bool_decide (raw = chars "failed") then RTCIceConnectionState_Failed
  else if bool_decide (raw = chars "closed") then RTCIceConnectionState_Closed
  else RTCIceConnectionState_Unspecified.
Definition RTCIceConnectionState_from_u8 (v : Z) : RTCIceConnectionState :=
  match v with
  | 1 => RTCIceConnectionState_New
  | 2 => RTCIceConnectionState_Checking
  | 3 => RTCIceConnectionState_Connected
  | 4 => RTCIceConnectionState_Completed
  | 5 => RTCIceConnectionState_Disconnected
  | 6 => RTCIceConnectionState_Failed
  | 7 => RTCIceConnectionState_Closed
  | _ => RTCIceConnectionState_Unspecified
  end.
Definition RTCIceConnectionState_as_u8 (x : RTCIceConnectionState) : Z :=
  match x with RTCIceConnectionState_Unspecified => 0 | RTCIceConnectionState_New => 1
    | RTCIceConnectionState_Checking => 2 | RTCIceConnectionState_Connected => 3
    | RTCIceConnectionState_Completed => 4 | RTCIceConnectionState_Disconnected => 5
    | RTCIceConnectionState_Failed => 6 | RTCIceConnectionState_Closed => 7 end.
Definition RTCIceConnectionState_default : RTCIceConnectionState := RTCIceConnectionState_Unspecified.

(** [ice_transport/ice_credential_type.rs] *)
Inductive RTCIceCredentialType : Type := RTCIceCredentialType_Unspecified | RTCIceCredentialType_Password
    | RTCIceCredentialType_Oauth.
#[export] Instance RTCIceCredentialType_eq_dec : EqDecision RTCIceCredentialType.
Proof. solve_decision. Defined.
Definition RTCIceCredentialType_to_string (x : RTCIceCredentialType) : str :=
  match x with
  | RTCIceCredentialType_Unspecified => chars "Unspecified"
  | RTCIceCredentialType_Password => chars "password"
  | RTCIceCredentialType_Oauth => chars "oauth"
  end.
Definition RTCIceCredentialType_from_str (raw : str) : RTCIceCredentialType :=
  if bool_decide (raw = chars "password") then RTCIceCredentialType_Password
  else if bool_decide (raw = chars "oauth") then RTCIceCredentialType_Oauth
  else RTCIceCredentialType_Unspecified.
Definition RTCIceCredentialType_default : RTCIceCredentialType := RTCIceCredentialType_Password.

(** [ice_transport/ice_gatherer_state.rs] *)
Inductive RTCIceGathererState : Type := RTCIceGathererState_Unspecified | RTCIceGathererState_New
    | RTCIceGathererState_Gathering | RTCIceGathererState_Complete | RTCIceGathererState_Closed.
#[export] Instance RTCIceGathererState_eq_dec : EqDecision RTCIceGathererState.
Proof. solve_decision. Defined.
Definition RTCIceGathererState_to_string (x : RTCIceGathererState) : str :=
  match x with
  | RTCIceGathererState_Unspecified => chars "Unspecified"
  | RTCIceGathererState_New => chars "new"
  | RTCIceGathererState_Gathering => chars "gathering"
  | RTCIceGathererState_Complete => chars "complete"
  | RTCIceGathererState_Closed => chars "closed"
  end.
Definition RTCIceGathererState_from_str (raw : str) : RTCIceGathererState :=
  if bool_decide (raw = chars "new") then RTCIceGathererState_New
  else if bool_decide (raw = chars "gathering") then RTCIceGathererState_Gathering
  else if bool_decide (raw = chars "complete") then RTCIceGathererState_Complete
  else if bool_decide (raw = chars "closed") then RTCIceGathererState_Closed
  else RTCIceGathererState_Unspecified.
Definition RTCIceGathererState_from_u8 (v : Z) : RTCIceGathererState :=
  match v with
  | 1 => RTCIceGathererState_New
  | 2 => RTCIceGathererState_Gathering
  | 3 => RTCIceGathererState_Complete
  | 4 => RTCIceGathererState_Closed
  | _ => RTCIceGathererState_Unspecified
  end.
Definition RTCIceGathererState_as_u8 (x : RTCIceGathererState) : Z :=
  match x with RTCIceGathererState_Unspecified => 0 | RTCIceGathererState_New => 1
    | RTCIceGathererState_Gathering => 2 | RTCIceGathererState_Complete => 3 | RTCIceGathererState_Closed => 4 end.
Definition RTCIceGathererState_default : RTCIceGathererState := RTCIceGathererState_Unspecified.

(** [ice_transport/ice_gathering_state.rs] *)
Inductive RTCIceGatheringState : Type := RTCIceGatheringState_Unspecified | RTCIceGatheringState_New
    | RTCIceGatheringState_Gathering | RTCIceGatheringState_Complete.
#[export] Instance RTCIceGatheringState_eq_dec : EqDecision RTCIceGatheringState.
Proof. solve_decision. Defined.
Definition RTCIceGatheringState_to_string (x : RTCIceGatheringState) : str :=
  match x with
  | RTCIceGatheringState_Unspecified => chars "Unspecified"
  | RTCIceGatheringState_New => chars "new"
  | RTCIceGatheringState_Gathering => chars "gathering"
  | RTCIceGatheringState_Complete => chars "complete"
  end.
Definition RTCIceGatheringState_from_str (raw : str) : RTCIceGatheringState :=
  if bool_decide (raw = chars "new") then RTCIceGatheringState_New
  else if bool_decide (raw = chars "gathering") then RTCIceGatheringState_Gathering
  else if bool_decide (raw = chars "complete") then RTCIceGatheringState_Complete
  else RTCIceGatheringState_Unspecified.
Definition RTCIceGatheringState_default : RTCIceGatheringState := RTCIceGatheringState_Unspecified.

(** [ice_transport/ice_protocol.rs] *)
Inductive RTCIceProtocol : Type := RTCIceProtocol_Unspecified | RTCIceProtocol_Udp | RTCIceProtocol_Tcp.
#[export] Instance RTCIceProtocol_eq_dec : EqDecision RTCIceProtocol.
Proof. solve_decision. Defined.
Definition RTCIceProtocol_to_string (x : RTCIceProtocol) : str :=
  match x with
  | RTCIceProtocol_Unspecified => chars "Unspecified"
  | RTCIceProtocol_Udp => chars "udp"
  | RTCIceProtocol_Tcp => chars "tcp"
  end.
Definition RTCIceProtocol_default : RTCIceProtocol := RTCIceProtocol_Unspecified.

(** [ice_transport/ice_role.rs] *)
Inductive RTCIceRole : Type := RTCIceRole_Unspecified | RTCIceRole_Controlling | RTCIceRole_Controlled.
#[export] Instance RTCIceRole_eq_dec : EqDecision RTCIceRole.
Proof. solve_decision. Defined.
Definition RTCIceRole_to_string (x : RTCIceRole) : str :=
  match x with
  | RTCIceRole_Unspecified => chars "Unspecified"
  | RTCIceRole_Controlling => chars "controlling"
  | RTCIceRole_Controlled => chars "controlled"
  end.
Definition RTCIceRole_from_str (raw : str) : RTCIceRole :=
  if bool_decide (raw = chars "controlling") then RTCIceRole_Controlling
  else if bool_decide (raw = chars "controlled") then RTCIceRole_Controlled
  else RTCIceRole_Unspecified.
Definition RTCIceRole_default : RTCIceRole := RTCIceRole_Unspecified.

(** [ice_transport/ice_transport_state.rs] *)
Inductive RTCIceTransportState : Type := RTCIceTransportState_Unspecified | RTCIceTransportState_New
    | RTCIceTransportState_Checking | RTCIceTransportState_Connected | RTCIceTransportState_Completed
    | RTCIceTransportState_Failed | RTCIceTransportState_Disconnected | RTCIceTransportState_Closed.
#[export] Instance RTCIceTransportState_eq_dec : EqDecision RTCIceTransportState.
Proof. solve_decision. Defined.
Definition RTCIceTransportState_to_string (x : RTCIceTransportState) : str :=
  match x with
  | RTCIceTransportState_Unspecified => chars "Unspecified"
  | RTCIceTransportState_New => chars "new"
  | RTCIceTransportState_Checking => chars "checking"
  | RTCIceTransportState_Connected => chars "connected"
  | RTCIceTransportState_Completed => chars "completed"
  | RTCIceTransportState_Failed => chars "failed"
  | RTCIceTransportState_Disconnected => chars "disconnected"
  | RTCIceTransportState_Closed => chars "closed"
  end.
Definition RTCIceTransportState_from_str (raw : str) : RTCIceTransportState :=
  if bool_decide (raw = chars "new") then RTCIceTransportState_New
  else if bool_decide (raw = chars "checking") then RTCIceTransportState_Checking
  else if bool_decide (raw = chars "connected") then RTCIceTransportState_Connected
  else if bool_decide (raw = chars "completed") then RTCIceTransportState_Completed
  else if bool_decide (raw = chars "failed") then RTCIceTransportState_Failed
  else if bool_decide (raw = chars "disconnected") then RTCIceTransportState_Disconnected
  else if bool_decide (raw = chars "closed") then RTCIceTransportState_Closed
  else RTCIceTransportState_Unspecified.
Definition RTCIceTransportState_from_u8 (v : Z) : RTCIceTransportState :=
  match v with
  | 1 => RTCIceTransportState_New
  | 2 => RTCIceTransportState_Checking
  | 3 => RTCIceTransportState_Connected
  | 4 => RTCIceTransportState_Completed
  | 5 => RTCIceTransportState_Failed
  | 6 => RTCIceTransportState_Disconnected
  | 7 => RTCIceTransportState_Closed
  | _ => RTCIceTransportState_Unspecified
  end.
Definition RTCIceTransportState_as_u8 (x : RTCIceTransportState) : Z :=
  match x with RTCIceTransportState_Unspecified => 0 | RTCIceTransportState_New => 1
    | RTCIceTransportState_Checking => 2 | RTCIceTransportState_Connected => 3
    | RTCIceTransportState_Completed => 4 | RTCIceTransportState_Failed => 5
    | RTCIceTransportState_Disconnected => 6 | RTCIceTransportState_Closed => 7 end.
Definition RTCIceTransportState_default : RTCIceTransportState := RTCIceTransportState_Unspecified.

(** [dtls_transport/dtls_role.rs] *)
Inductive DTLSRole : Type := DTLSRole_Unspecified | DTLSRole_Auto | DTLSRole_Client | DTLSRole_Server.
#[export] Instance DTLSRole_eq_dec : EqDecision DTLSRole.
Proof. solve_decision. Defined.
Definition DTLSRole_to_string (x : DTLSRole) : str :=
  match x with
  | DTLSRole_Unspecified => chars "Unspecified"
  | DTLSRole_Auto => chars "auto"
  | DTLSRole_Client => chars "client"
  | DTLSRole_Server => chars "server"
  end.
Definition DTLSRole_default : DTLSRole := DTLSRole_Unspecified.

(** [dtls_transport/dtls_transport_state.rs] *)
Inductive RTCDtlsTransportState : Type := RTCDtlsTransportState_Unspecified | RTCDtlsTransportState_New
    | RTCDtlsTransportState_Connecting | RTCDtlsTransportState_Connected | RTCDtlsTransportState_Closed
    | RTCDtlsTransportState_Failed.
#[export] Instance RTCDtlsTransportState_eq_dec : EqDecision RTCDtlsTransportState.
Proof. solve_decision. Defined.
Definition RTCDtlsTransportState_to_string (x : RTCDtlsTransportState) : str :=
  match x with
  | RTCDtlsTransportState_Unspecified => chars "Unspecified"
  | RTCDtlsTransportState_New => chars "new"
  | RTCDtlsTransportState_Connecting => chars "connecting"
  | RTCDtlsTransportState_Connected => chars "connected"
  | RTCDtlsTransportState_Closed => chars "closed"
  | RTCDtlsTransportState_Failed => chars "failed"
  end.
Definition RTCDtlsTransportState_from_str (raw : str) : RTCDtlsTransportState :=
  if bool_decide (raw = chars "new") then RTCDtlsTransportState_New
  else if bool_decide (raw = chars "connecting") then RTCDtlsTransportState_Connecting
  else if bool_decide (raw = chars "connected") then RTCDtlsTransportState_Connected
  else if bool_decide (raw = chars "closed") then RTCDtlsTransportState_Closed
  else if bool_decide (raw = chars "failed") then RTCDtlsTransportState_Failed
  else RTCDtlsTransportState_Unspecified.
Definition RTCDtlsTransportState_from_u8 (v : Z) : RTCDtlsTransportState :=
  match v with
  | 1 => RTCDtlsTransportState_New
  | 2 => RTCDtlsTransportState_Connecting
  | 3 => RTCDtlsTransportState_Connected
  | 4 => RTCDtlsTransportState_Closed
  | 5 => RTCDtlsTransportState_Failed
  | _ => RTCDtlsTransportState_Unspecified
  end.
Definition RTCDtlsTransportState_as_u8 (x : RTCDtlsTransportState) : Z :=
  match x with RTCDtlsTransportState_Unspecified => 0 | RTCDtlsTransportState_New => 1
    | RTCDtlsTransportState_Connecting => 2 | RTCDtlsTransportState_Connected => 3
    | RTCDtlsTransportState_Closed => 4 | RTCDtlsTransportState_Failed => 5 end.
Definition RTCDtlsTransportState_default : RTCDtlsTransportState := RTCDtlsTransportState_Unspecified.

(** [sctp_transport/sctp_transport_state.rs] *)
Inductive RTCSctpTransportState : Type := RTCSctpTransportState_Unspecified | RTCSctpTransportState_Connecting
    | RTCSctpTransportState_Connected | RTCSctpTransportState_Closed.
#[export] Instance RTCSctpTransportState_eq_dec : EqDecision RTCSctpTransportState.
Proof. solve_decision. Defined.
Definition RTCSctpTransportState_to_string (x : RTCSctpTransportState) : str :=
  match x with
  | RTCSctpTransportState_Unspecified => chars "Unspecified"
  | RTCSctpTransportState_Connecting => chars "connecting"
  | RTCSctpTransportState_Connected => chars "connected"
  | RTCSctpTransportState_Closed => chars "closed"
  end.
Definition RTCSctpTransportState_from_str (raw : str) : RTCSctpTransportState :=
  if bool_decide (raw = chars "connecting") then RTCSctpTransportState_Connecting
  else if bool_decide (raw = chars "connected") then RTCSctpTransportState_Connected
  else if bool_decide (raw = chars "closed") then RTCSctpTransportState_Closed
  else RTCSctpTransportState_Unspecified.
Definition RTCSctpTransportState_from_u8 (v : Z) : RTCSctpTransportState :=
  match v with
  | 1 => RTCSctpTransportState_Connecting
  | 2 => RTCSctpTransportState_Connected
  | 3 => RTCSctpTransportState_Closed
  | _ => RTCSctpTransportState_Unspecified
  end.
Definition RTCSctpTransportState_as_u8 (x : RTCSctpTransportState) : Z :=
  match x with RTCSctpTransportState_Unspecified => 0 | RTCSctpTransportState_Connecting => 1
    | RTCSctpTransportState_Connected => 2 | RTCSctpTransportState_Closed => 3 end.
Definition RTCSctpTransportState_default : RTCSctpTransportState := RTCSctpTransportState_Unspecified.

(** [peer_connection/policy/bundle_policy.rs] *)
Inductive RTCBundlePolicy : Type := RTCBundlePolicy_Unspecified | RTCBundlePolicy_Balanced
    | RTCBundlePolicy_MaxCompat | RTCBundlePolicy_MaxBundle.
#[export] Instance RTCBundlePolicy_eq_dec : EqDecision RTCBundlePolicy.
Proof. solve_decision. Defined.
Definition RTCBundlePolicy_to_string (x : RTCBundlePolicy) : str :=
  match x with
  | RTCBundlePolicy_Unspecified => chars "Unspecified"
  | RTCBundlePolicy_Balanced => chars "balanced"
  | RTCBundlePolicy_MaxCompat => chars "max-compat"
  | RTCBundlePolicy_MaxBundle => chars "max-bundle"
  end.
Definition RTCBundlePolicy_from_str (raw : str) : RTCBundlePolicy :=
  if bool_decide (raw = chars "balanced") then RTCBundlePolicy_Balanced
  else if bool_decide (raw = chars "max-compat") then RTCBundlePolicy_MaxCompat
  else if bool_decide (raw = chars "max-bundle") then RTCBundlePolicy_MaxBundle
  else RTCBundlePolicy_Unspecified.
Definition RTCBundlePolicy_default : RTCBundlePolicy := RTCBundlePolicy_Unspecified.

(** [peer_connection/policy/ice_transport_policy.rs] *)
Inductive RTCIceTransportPolicy : Type := RTCIceTransportPolicy_Unspecified | RTCIceTransportPolicy_All.
#[export] Instance RTCIceTransportPolicy_eq_dec : EqDecision RTCIceTransportPolicy.
Proof. solve_decision. Defined.
Definition RTCIceTransportPolicy_to_string (x : RTCIceTransportPolicy) : str :=
  match x with
  | RTCIceTransportPolicy_Unspecified => chars "Unspecified"
  | RTCIceTransportPolicy_All => chars "all"
  end.
Definition RTCIceTransportPolicy_from_str (raw : str) : RTCIceTransportPolicy :=
  if bool_decide (raw = chars "all") then RTCIceTransportPolicy_All
  else RTCIceTransportPolicy_Unspecified.
Definition RTCIceTransportPolicy_default : RTCIceTransportPolicy := RTCIceTransportPolicy_Unspecified.

(** [peer_connection/policy/rtcp_mux_policy.rs] *)
Inductive RTCRtcpMuxPolicy : Type := RTCRtcpMuxPolicy_Unspecified | RTCRtcpMuxPolicy_Negotiate
    | RTCRtcpMuxPolicy_Require.
#[export] Instance RTCRtcpMuxPolicy_eq_dec : EqDecision RTCRtcpMuxPolicy.
Proof. solve_decision. Defined.
Definition RTCRtcpMuxPolicy_to_string (x : RTCRtcpMuxPolicy) : str :=
  match x with
  | RTCRtcpMuxPolicy_Unspecified => chars "Unspecified"
  | RTCRtcpMuxPolicy_Negotiate => chars "negotiate"
  | RTCRtcpMuxPolicy_Require => chars "require"
  end.
Definition RTCRtcpMuxPolicy_from_str (raw : str) : RTCRtcpMuxPolicy :=
  if bool_decide (raw = chars "negotiate") then RTCRtcpMuxPolicy_Negotiate
  else if bool_decide (raw = chars "require") then RTCRtcpMuxPolicy_Require
  else RTCRtcpMuxPolicy_Unspecified.
Definition RTCRtcpMuxPolicy_default : RTCRtcpMuxPolicy := RTCRtcpMuxPolicy_Negotiate.

(** [peer_connection/policy/sdp_semantics.rs] *)
Inductive RTCSdpSemantics : Type := RTCSdpSemantics_Unspecified | RTCSdpSemantics_UnifiedPlan.
#[export] Instance RTCSdpSemantics_eq_dec : EqDecision RTCSdpSemantics.
Proof. solve_decision. Defined.
Definition RTCSdpSemantics_to_string (x : RTCSdpSemantics) : str :=
  match x with
  | RTCSdpSemantics_Unspecified => chars "Unspecified"
  | RTCSdpSemantics_UnifiedPlan => chars "unified-plan"
  end.
Definition RTCSdpSemantics_from_str (raw : str) : RTCSdpSemantics :=
  if bool_decide (raw = chars "unified-plan") then RTCSdpSemantics_UnifiedPlan
  else RTCSdpSemantics_Unspecified.
Definition RTCSdpSemantics_default : RTCSdpSemantics := RTCSdpSemantics_UnifiedPlan.

(** [crates/sdp/util/mod.rs] *)
Inductive ConnectionRole : Type := ConnectionRole_Unspecified | ConnectionRole_Active | ConnectionRole_Passive
    | ConnectionRole_Actpass | ConnectionRole_Holdconn.
#[export] Instance ConnectionRole_eq_dec : EqDecision ConnectionRole.
Proof. solve_decision. Defined.
Definition ConnectionRole_to_string (x : ConnectionRole) : str :=
  match x with
  | ConnectionRole_Unspecified => chars "Unspecified"
  | ConnectionRole_Active => chars "active"
  | ConnectionRole_Passive => chars "passive"
  | ConnectionRole_Actpass => chars "actpass"
  | ConnectionRole_Holdconn => chars "holdconn"
  end.
Definition ConnectionRole_from_str (raw : str) : ConnectionRole :=
  if bool_decide (raw = chars "active") then ConnectionRole_Active
  else if bool_decide (raw = chars "passive") then ConnectionRole_Passive
  else if bool_decide (raw = chars "actpass") then ConnectionRole_Actpass
  else if bool_decide (raw = chars "holdconn") then ConnectionRole_Holdconn
  else ConnectionRole_Unspecified.
Definition ConnectionRole_from_u8 (v : Z) : ConnectionRole :=
  match v with
  | 1 => ConnectionRole_Active
  | 2 => ConnectionRole_Passive
  | 3 => ConnectionRole_Actpass
  | 4 => ConnectionRole_Holdconn
  | _ => ConnectionRole_Unspecified
  end.
Definition ConnectionRole_as_u8 (x : ConnectionRole) : Z :=
  match x with ConnectionRole_Unspecified => 0 | ConnectionRole_Active => 1 | ConnectionRole_Passive => 2
    | ConnectionRole_Actpass => 3 | ConnectionRole_Holdconn => 4 end.
Definition ConnectionRole_default : ConnectionRole := ConnectionRole_Unspecified.

(** * Conversions between them *)

(** [to_uppercase]: no character but the ASCII letters has one of the letters of
    [UDP] and [TCP] as its upper case. *)
Definition ascii_uppercase (c : Z) : Z := if in_interval 97 122 c then c - 32 else c.

Definition RTCIceProtocol_from_str (raw : str) : RTCIceProtocol :=
  if bool_decide (map ascii_uppercase raw = chars "UDP") then RTCIceProtocol_Udp
  else if bool_decide (map ascii_uppercase raw = chars "TCP") then RTCIceProtocol_Tcp
  else RTCIceProtocol_Unspecified.

Definition RTCIceCandidateType_from (t : CandidateType) : RTCIceCandidateType :=
  match t with Host => RTCIceCandidateType_Host | CandidateUnspecified => RTCIceCandidateType_Unspecified end.

Definition RTCIceTransportState_from (s : ConnectionState) : RTCIceTransportState :=
  match s with
  | ConnNew => RTCIceTransportState_New
  | Checking => RTCIceTransportState_Checking
  | Connected => RTCIceTransportState_Connected
  | Completed => RTCIceTransportState_Completed
  | ConnFailed => RTCIceTransportState_Failed
  | Disconnected => RTCIceTransportState_Disconnected
  | ConnClosed => RTCIceTransportState_Closed
  | ConnUnspecified => RTCIceTransportState_Unspecified
  end.

Definition DEFAULT_DTLS_ROLE_OFFER : DTLSRole := DTLSRole_Auto.

Definition to_connection_role (r : DTLSRole) : ConnectionRole :=
  match r with
  | DTLSRole_Client => ConnectionRole_Active
  | DTLSRole_Server => ConnectionRole_Passive
  | DTLSRole_Auto => ConnectionRole_Actpass
  | DTLSRole_Unspecified => ConnectionRole_Unspecified
  end.

(** [impl From<&SessionDescription> for DTLSRole]: the first [setup] attribute of a
    media section decides. *)
Definition setup_role (value : option str) : DTLSRole :=
  match value with
  | Some v =>
      if bool_decide (v = chars "active") then DTLSRole_Client
      else if bool_decide (v = chars "passive") then DTLSRole_Server else DTLSRole_Auto
  | None => DTLSRole_Auto
  end.

Definition DTLSRole_from `{Urls} (d : SessionDescription) : DTLSRole :=
  match find_attribute (chars "setup") (concat (map md_attributes (sd_media_descriptions d))) with
  | Some a => setup_role (at_value a)
  | None => DTLSRole_Auto
  end.
