(* ===== verification/RtcSdp.v ===== *)
(** Descriptions of the peer connection: candidates as the interface has them
    ([ice_transport/ice_candidate.rs]), fingerprints of certificates
    ([peer_connection/certificate.rs], [dtls_transport/dtls_fingerprint.rs]), and what
    is put in and taken out of a session description ([peer_connection/sdp]). *)
From Stdlib Require Import Strings.String.
From S2P Require Import Prelude Utf8 Text IpText Sdp IceCandidate IceAgent DtlsCrypto RtcTypes.

(** * [RTCIceCandidate] *)
Record RTCIceCandidate := mkRTCIceCandidate {
  rc_stats_id : str;
  rc_foundation : str;
  rc_priority : Z;
  rc_address : str;
  rc_protocol : RTCIceProtocol;
  rc_port : Z;
  rc_typ : RTCIceCandidateType;
  rc_component : Z;
  rc_related_address : str;
  rc_related_port : Z
}.

Definition RTCIceCandidate_to_string (c : RTCIceCandidate) : str :=
  RTCIceProtocol_to_string (rc_protocol c) ++ chars " " ++ RTCIceCandidateType_to_string (rc_typ c) ++ chars " "
  ++ rc_address c ++ chars ":" ++ print_int (rc_port c) ++ rc_related_address c.

(** An error of a lower layer, as [?] turns it into one of this layer *)
Definition map_ice {A} (r : res IceError A) : res WebrtcError A :=
  match r with Ok a => Ok a | Err e => Err (WebrtcIce e) | Panic => Panic | OutOfFuel => OutOfFuel end.
Definition map_sdp {A} (r : res SdpError A) : res WebrtcError A :=
  match r with Ok a => Ok a | Err e => Err (WebrtcSdp e) | Panic => Panic | OutOfFuel => OutOfFuel end.

(** [AtomicU16::store] *)
Definition set_component (n : Z) (c : CandidateBase) : CandidateBase := c <| ca_component := n |>.

Section candidates.
Context {P : Profile} {env : IceEnv}.

Definition RTCIceCandidate_from (c : CandidateBase) : res WebrtcError RTCIceCandidate :=
  priority ← candidate_priority c;
  let '(related_address, related_port) :=
    match ca_related_address c with Some ra => (ra_address ra, ra_port ra) | None => ([], 0) end in
  Ok (mkRTCIceCandidate (ca_id c) (foundation ice_crc32_iscsi c) priority (ca_address c)
        (RTCIceProtocol_from_str (network_short (ca_network_type c))) (ca_port c)
        (RTCIceCandidateType_from (ca_candidate_type c)) (ca_component c) related_address related_port).

Fixpoint rtc_ice_candidates_from_ice_candidates (l : list CandidateBase) : res WebrtcError (list RTCIceCandidate) :=
  match l with
  | [] => Ok []
  | c :: l => r ← RTCIceCandidate_from c; rs ← rtc_ice_candidates_from_ice_candidates l; Ok (r :: rs)
  end.

(** [to_ice]; [random_id] is the id that is drawn for a candidate that has none.  A
    function that converts many draws them from [random_id : nat -> str]. *)
Definition to_ice_config (c : RTCIceCandidate) : CandidateBaseConfig :=
  mkCandidateBaseConfig (rc_stats_id c) (RTCIceProtocol_to_string (rc_protocol c)) (rc_address c) (rc_port c)
    (rc_component c) (rc_priority c) (rc_foundation c) false.

Definition to_ice (random_id : str) (c : RTCIceCandidate) : res WebrtcError CandidateBase :=
  match rc_typ c with
  | RTCIceCandidateType_Host => map_ice (new_candidate_host (to_ice_config c) random_id)
  | RTCIceCandidateType_Unspecified => Err ErrICECandidateTypeUnknown
  end.

(** * Candidates of a media section *)
Definition append_candidate_if_new (c : CandidateBase) (m : MediaDescription) : res WebrtcError MediaDescription :=
  marshaled ← map_ice (candidate_marshal ice_crc32_iscsi c);
  Ok (if existsb (fun a => bool_decide (at_value a = Some marshaled)) (md_attributes m) then m
      else md_with_value_attribute (chars "candidate") marshaled m).

(** The draws of the candidates that follow *)
Definition later_ids (random_id : nat -> str) : nat -> str := fun i => random_id (S i).

Fixpoint append_candidates (random_id : nat -> str) (candidates : list RTCIceCandidate) (m : MediaDescription) :
    res WebrtcError MediaDescription :=
  match candidates with
  | [] => Ok m
  | c :: candidates =>
      candidate ← to_ice (random_id 0%nat) c;
      m ← append_candidate_if_new (set_component 1 candidate) m;
      m ← append_candidate_if_new (set_component 2 candidate) m;
      append_candidates (later_ids random_id) candidates m
  end.

Definition add_candidates_to_media_descriptions (random_id : nat -> str) (candidates : list RTCIceCandidate) (m : MediaDescription)
    (ice_gathering_state : RTCIceGatheringState) : res WebrtcError MediaDescription :=
  m ← append_candidates random_id candidates m;
  Ok (if negb (bool_decide (ice_gathering_state = RTCIceGatheringState_Complete)) then m
      else if existsb (fun a => bool_decide (at_key a = chars "end-of-candidates")) (md_attributes m) then m
      else md_with_property_attribute (chars "end-of-candidates") m).
End candidates.

(** * Fingerprints *)
Record RTCDtlsFingerprint := mkFingerprint { fp_algorithm : str; fp_value : str }.

Definition hex_digit (n : Z) : Z := if n <? 10 then 48 + n else 87 + n.
Definition hex_byte (b : byte) : str := [hex_digit (u8_of_byte b / 16); hex_digit (u8_of_byte b mod 16)].

(** What the peer connection relies on outside the sources, besides the digest of
    [Primitives]: the expression that finds a plan-B description ([regex]), as
    whether it captures a media id. *)
Class PeerEnv := { plan_b_mid : str -> bool }.

Record RTCCertificate := mkRTCCertificate { ce_certificate : Certificate }.

(** One fingerprint for every certificate of the chain *)
Definition get_fingerprints `{Primitives} (c : RTCCertificate) : list RTCDtlsFingerprint :=
  map (fun der => mkFingerprint (chars "sha-256") (join (chars ":") (map hex_byte (sha256 der)))) (ct_certificate (ce_certificate c)).

(** * Session descriptions *)
Record RTCIceParameters := mkRTCIceParameters { ip_username_fragment : str; ip_password : str }.

Definition MEDIA_SECTION_APPLICATION : str := chars "application".
Definition ATTR_KEY_CONNECTION_SETUP : str := chars "setup".
Definition ATTR_KEY_MID : str := chars "mid".
Definition ATTR_KEY_ICELITE : str := chars "ice-lite".
Definition ATTR_KEY_GROUP : str := chars "group".

Record MediaSection := mkMediaSection { ms_id : str; ms_data : bool }.

Record PopulateSdpParams := mkPopulateSdpParams {
  pp_is_icelite : bool;
  pp_connection_role : ConnectionRole;
  pp_ice_gathering_state : RTCIceGatheringState
}.

Record AddDataMediaSectionParams := mkAddDataMediaSectionParams {
  am_should_add_candidates : bool;
  am_mid_value : str;
  am_ice_params : RTCIceParameters;
  am_dtls_role : ConnectionRole;
  am_ice_gathering_state : RTCIceGatheringState
}.

Section sdp.
Context {P : Profile} {env : IceEnv} {urls : Urls} {penv : PeerEnv}.

Record RTCSessionDescription := mkRTCSessionDescription {
  rs_sdp_type : RTCSdpType;
  rs_sdp : str;
  rs_parsed : option SessionDescription
}.

Definition unmarshal_description (sdp : str) : res WebrtcError SessionDescription :=
  map_sdp (SessionDescription_unmarshal (utf8_encode sdp)).

Definition RTCSessionDescription_unmarshal (d : RTCSessionDescription) : res WebrtcError SessionDescription :=
  unmarshal_description (rs_sdp d).

(** [RTCSessionDescription::answer] *)
Definition RTCSessionDescription_answer (sdp : str) : res WebrtcError RTCSessionDescription :=
  parsed ← unmarshal_description sdp;
  Ok (mkRTCSessionDescription RTCSdpType_Answer sdp (Some parsed)).

(** The data section before its fingerprints and candidates *)
Definition data_media (params : AddDataMediaSectionParams) : MediaDescription :=
  md_with_ice_credentials (ip_username_fragment (am_ice_params params)) (ip_password (am_ice_params params))
    (md_with_property_attribute (chars "sctp-port:5000")
       (md_with_property_attribute (chars "sendrecv")
          (md_with_value_attribute ATTR_KEY_MID (am_mid_value params)
             (md_with_value_attribute ATTR_KEY_CONNECTION_SETUP (ConnectionRole_to_string (am_dtls_role params))
                (mkMediaDescription
                   (mkMediaName MEDIA_SECTION_APPLICATION (mkRangedPort 9 None) (map chars ["UDP"; "DTLS"; "SCTP"]%string)
                      [chars "webrtc-datachannel"])
                   None (Some (mkConnectionInformation (chars "IN") (chars "IP4") (Some (mkAddress (chars "0.0.0.0") None None))))
                   [] None []))))).

(** [to_uppercase] of a fingerprint, which is hexadecimal *)
Definition add_data_media_section (random_id : nat -> str) (d : SessionDescription) (dtls_fingerprints : list RTCDtlsFingerprint)
    (candidates : list RTCIceCandidate) (params : AddDataMediaSectionParams) : res WebrtcError SessionDescription :=
  let media := fold_left (fun media f => md_with_fingerprint (fp_algorithm f) (map ascii_uppercase (fp_value f)) media)
                 dtls_fingerprints (data_media params) in
  media ← (if am_should_add_candidates params
           then add_candidates_to_media_descriptions random_id candidates media (am_ice_gathering_state params)
           else Ok media);
  Ok (sd_with_media media d).

(** The loop of [populate_sdp] over the media sections, numbered from [i] *)
Fixpoint populate_sections (random_id : nat -> str) (candidates : list RTCIceCandidate) (ice_params : RTCIceParameters)
    (params : PopulateSdpParams) (i : nat) (sections : list MediaSection) (d : SessionDescription) (bundle_value : str) :
    res WebrtcError (SessionDescription * str) :=
  match sections with
  | [] => Ok (d, bundle_value)
  | m :: sections =>
      if ms_data m then
        d ← add_data_media_section random_id d [] candidates
              (mkAddDataMediaSectionParams (i =? 0)%nat (ms_id m) ice_params (pp_connection_role params)
                 (pp_ice_gathering_state params));
        populate_sections random_id candidates ice_params params (S i) sections d (bundle_value ++ chars " " ++ ms_id m)
      else populate_sections random_id candidates ice_params params (S i) sections d bundle_value
  end.

Definition populate_sdp (random_id : nat -> str) (d : SessionDescription) (dtls_fingerprints : list RTCDtlsFingerprint)
    (candidates : list RTCIceCandidate) (ice_params : RTCIceParameters) (media_sections : list MediaSection)
    (params : PopulateSdpParams) : res WebrtcError SessionDescription :=
  '(d, bundle_value) ← populate_sections random_id candidates ice_params params 0 media_sections d (chars "BUNDLE");
  let d := fold_left (fun d f => sd_with_fingerprint (fp_algorithm f) (map ascii_uppercase (fp_value f)) d) dtls_fingerprints d in
  let d := if pp_is_icelite params then sd_with_value_attribute ATTR_KEY_ICELITE ATTR_KEY_ICELITE d else d in
  Ok (sd_with_value_attribute ATTR_KEY_GROUP bundle_value d).

(** * What is read *)
Definition get_mid_value (m : MediaDescription) : option str :=
  match find_attribute (chars "mid") (md_attributes m) with Some a => at_value a | None => None end.

Definition description_is_plan_b (desc : option RTCSessionDescription) : bool :=
  match desc with
  | Some d =>
      match rs_parsed d with
      | Some parsed =>
          existsb (fun m => match get_mid_value m with Some s => plan_b_mid s | None => false end) (sd_media_descriptions parsed)
      | None => false
      end
  | None => false
  end.

(** The value of an attribute of the description, then those of its sections *)
Definition attribute_values (key : str) (d : SessionDescription) : list str :=
  opt_list (SessionDescription_attribute key d)
  ++ concat (map (fun m => opt_list (mjoin (MediaDescription_attribute key m))) (sd_media_descriptions d)).

Definition conflicting (l : list str) : bool :=
  match l with x :: l => existsb (fun y => negb (bool_decide (y = x))) l | [] => false end.

(** The value and the algorithm *)
Definition extract_fingerprint (d : SessionDescription) : res WebrtcError (str * str) :=
  let fingerprints := attribute_values (chars "fingerprint") d in
  match fingerprints with
  | [] => Err ErrSessionDescriptionNoFingerprint
  | f :: _ =>
      if conflicting fingerprints then Err ErrSessionDescriptionConflictingFingerprints
      else match split_on 32 f with
           | [algorithm; value] => Ok (value, algorithm)
           | _ => Err ErrSessionDescriptionInvalidFingerprint
           end
  end.

(** The candidates of the attributes, in their order *)
Fixpoint extract_candidates (random_id : nat -> str) (l : list Attribute) : res WebrtcError (list RTCIceCandidate) :=
  match l with
  | [] => Ok []
  | a :: l =>
      match (if is_ice_candidate a then at_value a else None) with
      | Some value =>
          c ← map_ice (unmarshal_candidate value (random_id 0%nat));
          candidate ← RTCIceCandidate_from c;
          rest ← extract_candidates (later_ids random_id) l;
          Ok (candidate :: rest)
      | None => extract_candidates random_id l
      end
  end.

Definition extract_ice_details (random_id : nat -> str) (d : SessionDescription) :
    res WebrtcError (str * str * list RTCIceCandidate) :=
  candidates ← extract_candidates random_id (concat (map md_attributes (sd_media_descriptions d)));
  let remote_ufrags := attribute_values (chars "ice-ufrag") d in
  let remote_pwds := attribute_values (chars "ice-pwd") d in
  match remote_ufrags, remote_pwds with
  | [], _ => Err ErrSessionDescriptionMissingIceUfrag
  | _, [] => Err ErrSessionDescriptionMissingIcePwd
  | ufrag :: _, pwd :: _ =>
      if conflicting remote_ufrags then Err ErrSessionDescriptionConflictingIceUfrag
      else if conflicting remote_pwds then Err ErrSessionDescriptionConflictingIcePwd
      else Ok (ufrag, pwd, candidates)
  end.

Definition have_application_media_section (d : SessionDescription) : bool :=
  existsb (fun m => bool_decide (mn_media (md_media_name m) = MEDIA_SECTION_APPLICATION)) (sd_media_descriptions d).

#[export] Instance Origin_settable : Settable Origin := fun o =>
  mkOrigin (or_username o) (or_session_id o) (or_session_version o) (or_network_type o) (or_address_type o) (or_unicast_address o).

(** The origin that is kept, and the description *)
Definition update_sdp_origin (origin : Origin) (d : SessionDescription) : res WebrtcError (Origin * SessionDescription) :=
  if or_session_version origin =? 0 then
    Ok (origin <| or_session_version := or_session_version (sd_origin d) |> <| or_session_id := or_session_id (sd_origin d) |>, d)
  else
    saved ← arith 64 (or_session_version origin + 1);
    version ← arith 64 (or_session_version (sd_origin d) + 1);
    Ok (origin <| or_session_version := saved |>,
        d <| sd_origin ::= fun o => o <| or_session_id := or_session_id origin |> <| or_session_version := version |> |>).

(** [populate_local_candidates], with the candidates the gatherer gave, if it did *)
Definition populate_local_candidates (random_id : nat -> str) (description : option RTCSessionDescription)
    (gathered : res WebrtcError (list RTCIceCandidate)) (ice_gathering_state : RTCIceGatheringState) :
    res WebrtcError (option RTCSessionDescription) :=
  match description with
  | None => Ok None
  | Some sd =>
      match gathered with
      | Panic => Panic | OutOfFuel => OutOfFuel
      | Err _ => Ok (Some sd)
      | Ok candidates =>
          match RTCSessionDescription_unmarshal sd with
          | Panic => Panic | OutOfFuel => OutOfFuel
          | Err _ => Ok (Some sd)
          | Ok parsed =>
              match sd_media_descriptions parsed with
              | [] => Ok (Some (mkRTCSessionDescription (rs_sdp_type sd) (SessionDescription_marshal parsed) (Some parsed)))
              | m :: rest =>
                  match add_candidates_to_media_descriptions random_id candidates m ice_gathering_state with
                  | Panic => Panic | OutOfFuel => OutOfFuel
                  | Err _ => Ok (Some sd)
                  | Ok m =>
                      let parsed := parsed <| sd_media_descriptions := m :: rest |> in
                      Ok (Some (mkRTCSessionDescription (rs_sdp_type sd) (SessionDescription_marshal parsed) (Some parsed)))
                  end
              end
          end
      end
  end.
End sdp.
