(* ===== verification/RtcPeer.v ===== *)
(** The peer connection ([peer_connection/mod.rs], [peer_connection_internal.rs],
    [operation.rs]) and the transports it drives ([ice_transport], [dtls_transport],
    [sctp_transport]).

    A method runs up to its waits: the wait of the ICE transport for the connection,
    the DTLS handshake and the SCTP handshake are stages of the operation that is
    being run, and what ends them is an event with its outcome.  The agent runs by the
    events of [IceSystem.v]; what it tells its handlers is handled at once.  The
    handlers of the user are not modelled, the ones the peer connection installs are. *)
From Stdlib Require Import Strings.String.
From S2P Require Import Prelude Errors Utf8 Stun StunAttrs StunAttrsLaws Text IpText Sdp Assoc Mux DataChannel DtlsTypes DtlsCrypto DtlsState IceCandidate IceAgent IceSelector IceApi IceMessage IceInvariant IceSystem RtcTypes RtcSdp.

(** [check_next_signaling_state] *)
Definition check_next_signaling_state (cur next : RTCSignalingState) (op : StateChangeOp) (sdp_type : RTCSdpType) :
    res WebrtcError RTCSignalingState :=
  if bool_decide (sdp_type = RTCSdpType_Rollback) && bool_decide (cur = RTCSignalingState_Stable)
  then Err ErrSignalingStateCannotRollback
  else
    let allowed :=
      match cur, op, sdp_type with
      | RTCSignalingState_Stable, StateChangeOp_SetLocal, RTCSdpType_Offer => bool_decide (next = RTCSignalingState_HaveLocalOffer)
      | RTCSignalingState_Stable, StateChangeOp_SetRemote, RTCSdpType_Offer => bool_decide (next = RTCSignalingState_HaveRemoteOffer)
      | RTCSignalingState_HaveLocalOffer, StateChangeOp_SetRemote, RTCSdpType_Answer => bool_decide (next = RTCSignalingState_Stable)
      | RTCSignalingState_HaveLocalOffer, StateChangeOp_SetRemote, RTCSdpType_Pranswer =>
          bool_decide (next = RTCSignalingState_HaveRemotePranswer)
      | RTCSignalingState_HaveRemotePranswer, StateChangeOp_SetRemote, RTCSdpType_Answer =>
          bool_decide (next = RTCSignalingState_Stable)
      | RTCSignalingState_HaveRemoteOffer, StateChangeOp_SetLocal, RTCSdpType_Answer => bool_decide (next = RTCSignalingState_Stable)
      | RTCSignalingState_HaveRemoteOffer, StateChangeOp_SetLocal, RTCSdpType_Pranswer =>
          bool_decide (next = RTCSignalingState_HaveLocalPranswer)
      | RTCSignalingState_HaveLocalPranswer, StateChangeOp_SetLocal, RTCSdpType_Answer =>
          bool_decide (next = RTCSignalingState_Stable)
      | _, _, _ => false
      end in
    if allowed then Ok next else Err ErrSignalingStateProposedTransitionInvalid.

(** * State *)

(** The agent is shared by the gatherer and the transport.  [ig_checks]: the state of
    the agent's task of checks; [ig_on_connected_rx]: nobody took the receiver that
    tells of the connection; [ig_gathering]: a task of gathering was spawned. *)
Record RTCIceGatherer := mkGatherer {
  ig_state : Z;
  ig_agent : option Agent;
  ig_checks : Checks;
  ig_on_connected_rx : bool;
  ig_gathering : bool
}.

(** [it_handler]: the agent reports its connection state to the transport. *)
Record RTCIceTransport := mkIceTransport {
  it_state : Z;
  it_handler : bool;
  it_role : RTCIceRole;
  it_mux : option Mux
}.

Record DTLSParameters := mkDTLSParameters { dp_role : DTLSRole; dp_fingerprints : list RTCDtlsFingerprint }.

Record RTCDtlsTransport := mkDtlsTransport {
  dt_certificates : list RTCCertificate;
  dt_remote_parameters : DTLSParameters;
  dt_state : Z;
  dt_conn : bool
}.

Record RTCSctpTransport := mkSctpTransport {
  st_state : Z;
  st_is_started : bool;
  st_association : option Assoc;
  st_data_channels : list RTCDataChannel;
  st_data_channels_opened : Z;
  st_data_channels_requested : Z
}.

#[export] Instance RTCIceGatherer_settable : Settable RTCIceGatherer := fun g =>
  mkGatherer (ig_state g) (ig_agent g) (ig_checks g) (ig_on_connected_rx g) (ig_gathering g).
#[export] Instance RTCIceTransport_settable : Settable RTCIceTransport := fun t =>
  mkIceTransport (it_state t) (it_handler t) (it_role t) (it_mux t).
#[export] Instance RTCDtlsTransport_settable : Settable RTCDtlsTransport := fun t =>
  mkDtlsTransport (dt_certificates t) (dt_remote_parameters t) (dt_state t) (dt_conn t).
#[export] Instance RTCSctpTransport_settable : Settable RTCSctpTransport := fun t =>
  mkSctpTransport (st_state t) (st_is_started t) (st_association t) (st_data_channels t) (st_data_channels_opened t)
    (st_data_channels_requested t).

Section peer.
Context {P : Profile} {env : IceEnv} {prim : Primitives} {urls : Urls} {penv : PeerEnv}.

(** The one operation there is: [start_transports], then [maybe_start_sctp] *)
Record Operation := mkOperation {
  op_ice_role : RTCIceRole;
  op_dtls_role : DTLSRole;
  op_remote_ufrag : str;
  op_remote_pwd : str;
  op_fingerprint : str;
  op_fingerprint_hash : str;
  op_remote_desc : RTCSessionDescription
}.

(** Where the task of the operations is *)
Inductive OpStage : Type :=
  | OpIdle
  | OpIce (op : Operation)
  | OpDtls (op : Operation) (config : DtlsState.Config)
  | OpSctp (op : Operation).

Record Peer := mkPeer {
  pc_idp_login_url : option str;
  pc_greater_mid : Z;
  pc_sdp_origin : Origin;
  pc_last_offer : str;
  pc_last_answer : str;
  pc_is_closed : bool;
  pc_ops : list Operation;
  pc_stage : OpStage;
  pc_signaling_state : Z;
  pc_peer_connection_state : Z;
  pc_ice_connection_state : Z;
  pc_ice_gatherer : RTCIceGatherer;
  pc_ice_transport : RTCIceTransport;
  pc_dtls_transport : RTCDtlsTransport;
  pc_handler_dtls_state : Z;
  pc_sctp_transport : RTCSctpTransport;
  pc_current_local_description : option RTCSessionDescription;
  pc_current_remote_description : option RTCSessionDescription;
  pc_pending_local_description : option RTCSessionDescription;
  pc_pending_remote_description : option RTCSessionDescription
}.

#[export] Instance Peer_settable : Settable Peer := fun p =>
  mkPeer (pc_idp_login_url p) (pc_greater_mid p) (pc_sdp_origin p) (pc_last_offer p) (pc_last_answer p) (pc_is_closed p)
    (pc_ops p) (pc_stage p) (pc_signaling_state p) (pc_peer_connection_state p) (pc_ice_connection_state p)
    (pc_ice_gatherer p) (pc_ice_transport p) (pc_dtls_transport p) (pc_handler_dtls_state p) (pc_sctp_transport p)
    (pc_current_local_description p) (pc_current_remote_description p) (pc_pending_local_description p)
    (pc_pending_remote_description p).

Abbreviation PM A := (ST Peer WebrtcError A).

(** [PeerConnectionInternal::new]; [cert] is what [from_key_pair] made of a new key.
    The handler that [create_ice_transport] installs captures the DTLS transport of
    the moment, a default one, which is replaced right after. *)
Definition default_checks : Checks := mkChecks ConnUnspecified 0.
Definition RTCIceGatherer_new : RTCIceGatherer :=
  mkGatherer (RTCIceGathererState_as_u8 RTCIceGathererState_New) None default_checks true false.
Definition RTCIceTransport_new : RTCIceTransport :=
  mkIceTransport (RTCIceTransportState_as_u8 RTCIceTransportState_New) false RTCIceRole_default None.
Definition RTCDtlsTransport_new (certificates : list RTCCertificate) : RTCDtlsTransport :=
  mkDtlsTransport certificates (mkDTLSParameters DTLSRole_default []) (RTCDtlsTransportState_as_u8 RTCDtlsTransportState_New) false.
Definition RTCDtlsTransport_default : RTCDtlsTransport :=
  mkDtlsTransport [] (mkDTLSParameters DTLSRole_default []) 0 false.
Definition RTCSctpTransport_new : RTCSctpTransport :=
  mkSctpTransport (RTCSctpTransportState_as_u8 RTCSctpTransportState_Connecting) false None [] 0 0.

Definition Peer_new (cert : RTCCertificate) : Peer :=
  mkPeer None (-1) Origin_new [] [] false [] OpIdle
    (RTCSignalingState_as_u8 RTCSignalingState_Stable) (RTCPeerConnectionState_as_u8 RTCPeerConnectionState_New)
    (RTCIceConnectionState_as_u8 RTCIceConnectionState_New)
    RTCIceGatherer_new RTCIceTransport_new (RTCDtlsTransport_new [cert]) (dt_state RTCDtlsTransport_default)
    RTCSctpTransport_new None None None None.

(** * States *)
Definition signaling_state (p : Peer) : RTCSignalingState := RTCSignalingState_from_u8 (pc_signaling_state p).
Definition gatherer_state (g : RTCIceGatherer) : RTCIceGathererState := RTCIceGathererState_from_u8 (ig_state g).
Definition ice_transport_state (p : Peer) : RTCIceTransportState := RTCIceTransportState_from_u8 (it_state (pc_ice_transport p)).
Definition dtls_transport_state (p : Peer) : RTCDtlsTransportState := RTCDtlsTransportState_from_u8 (dt_state (pc_dtls_transport p)).
Definition sctp_transport_state (p : Peer) : RTCSctpTransportState := RTCSctpTransportState_from_u8 (st_state (pc_sctp_transport p)).

Definition ice_gathering_state (g : RTCIceGatherer) : RTCIceGatheringState :=
  match gatherer_state g with
  | RTCIceGathererState_New => RTCIceGatheringState_New
  | RTCIceGathererState_Gathering => RTCIceGatheringState_Gathering
  | _ => RTCIceGatheringState_Complete
  end.

(** The state that [update_connection_state] computes *)
Definition connection_state_of (is_closed : bool) (ice : RTCIceConnectionState) (dtls : RTCDtlsTransportState) :
    RTCPeerConnectionState :=
  if is_closed then RTCPeerConnectionState_Closed
  else if bool_decide (ice = RTCIceConnectionState_Failed) || bool_decide (dtls = RTCDtlsTransportState_Failed)
  then RTCPeerConnectionState_Failed
  else if bool_decide (ice = RTCIceConnectionState_Disconnected) then RTCPeerConnectionState_Disconnected
  else if bool_decide (ice = RTCIceConnectionState_Connected) && bool_decide (dtls = RTCDtlsTransportState_Connected)
  then RTCPeerConnectionState_Connected
  else if bool_decide (ice = RTCIceConnectionState_Checking) && bool_decide (dtls = RTCDtlsTransportState_Connecting)
  then RTCPeerConnectionState_Connecting
  else RTCPeerConnectionState_New.

Definition update_connection_state (ice : RTCIceConnectionState) (dtls : RTCDtlsTransportState) (p : Peer) : Peer :=
  let connection_state := RTCPeerConnectionState_as_u8 (connection_state_of (pc_is_closed p) ice dtls) in
  if pc_peer_connection_state p =? connection_state then p else p <| pc_peer_connection_state := connection_state |>.

Definition do_ice_connection_state_change (cs : RTCIceConnectionState) (p : Peer) : Peer :=
  p <| pc_ice_connection_state := RTCIceConnectionState_as_u8 cs |>.

(** The state a state of the transport is shown as *)
Definition ice_connection_state_of (state : RTCIceTransportState) : option RTCIceConnectionState :=
  match state with
  | RTCIceTransportState_New => Some RTCIceConnectionState_New
  | RTCIceTransportState_Checking => Some RTCIceConnectionState_Checking
  | RTCIceTransportState_Connected => Some RTCIceConnectionState_Connected
  | RTCIceTransportState_Completed => Some RTCIceConnectionState_Completed
  | RTCIceTransportState_Failed => Some RTCIceConnectionState_Failed
  | RTCIceTransportState_Disconnected => Some RTCIceConnectionState_Disconnected
  | RTCIceTransportState_Closed => Some RTCIceConnectionState_Closed
  | RTCIceTransportState_Unspecified => None
  end.

(** The handler that [create_ice_transport] installs *)
Definition ice_state_change (state : RTCIceTransportState) (p : Peer) : Peer :=
  match ice_connection_state_of state with
  | None => p
  | Some cs =>
      update_connection_state cs (RTCDtlsTransportState_from_u8 (pc_handler_dtls_state p))
        (do_ice_connection_state_change cs p)
  end.

(** * The agent *)

(** What the handlers the transport and the gatherer gave to the agent do *)
Definition on_output (o : IceOutput) (p : Peer) : Peer :=
  match o with
  | StateChanged s =>
      if it_handler (pc_ice_transport p) then
        let s := RTCIceTransportState_from s in
        ice_state_change s (p <| pc_ice_transport ::= fun t => t <| it_state := RTCIceTransportState_as_u8 s |> |>)
      else p
  | CandidateFound None =>
      p <| pc_ice_gatherer ::= fun g => g <| ig_state := RTCIceGathererState_as_u8 RTCIceGathererState_Complete |> |>
  | _ => p
  end.

Definition agent_event (e : IceEvent) : PM unit := fun p =>
  let g := pc_ice_gatherer p in
  match ig_agent g with
  | None => (Err ErrICEAgentNotExist, p)
  | Some agent =>
      let '(r, agent') := ice_event e (ig_checks g) agent in
      let p := p <| pc_ice_gatherer := g <| ig_agent := Some agent' |>
                   <| ig_checks := match r with Ok k => k | _ => ig_checks g end |> |> in
      let p := fold_left (fun p o => on_output o p) (drop (length (ai_out (ag_internal agent))) (ai_out (ag_internal agent'))) p in
      (match r with Ok _ => Ok tt | Err e => Err (WebrtcIce e) | Panic => Panic | OutOfFuel => OutOfFuel end, p)
  end.

(** What a new agent draws, and the clocks it reads *)
Record AgentSeed := mkAgentSeed {
  as_mdns_name : str;
  as_tie_breaker : Z;
  as_instant : Z;
  as_system : Z;
  as_rng : nat -> nat
}.

Definition gatherer_config : AgentConfig :=
  mkAgentConfig [] [] [] QueryOnly [] None None None supported_network_types [] 0 None false false CandidateUnspecified []
    None None None None.

Definition create_agent (seed : AgentSeed) : PM unit :=
  g ← st_get pc_ice_gatherer;
  if bool_decide (is_Some (ig_agent g)) || negb (bool_decide (gatherer_state g = RTCIceGathererState_New)) then mret tt
  else
    agent ← st_lift (map_ice (Agent_new gatherer_config (as_mdns_name seed) (as_tie_breaker seed) (as_instant seed)
                                (as_system seed) (as_rng seed)));
    st_modify (fun p => p <| pc_ice_gatherer ::= fun g => g <| ig_agent := Some agent |>
                             <| ig_checks := mkChecks ConnUnspecified (as_instant seed) |> |>).

(** [RTCIceGatherer::gather], up to the task that it spawns *)
Definition gather (seed : AgentSeed) : PM unit :=
  _ ← create_agent seed;
  _ ← st_modify (fun p => p <| pc_ice_gatherer ::= fun g =>
         g <| ig_state := RTCIceGathererState_as_u8 RTCIceGathererState_Gathering |> |>);
  g ← st_get pc_ice_gatherer;
  match ig_agent g with
  | None => mret tt
  | Some agent =>
      if negb (bool_decide (ag_gathering_state agent = GatheringNew)) then st_raise (WebrtcIce ErrMultipleGatherAttempted)
      else st_modify (fun p => p <| pc_ice_gatherer ::= fun g => g <| ig_gathering := true |> |>)
  end.

(** The task: the machine's addresses in the order of their set, the ports that are
    bound, and the names of the candidates *)
Definition run_gathering (listen : IpAddr -> option Z) (random_id : IpAddr -> str) (ips : list IpAddr) : PM unit :=
  g ← st_get pc_ice_gatherer;
  if negb (ig_gathering g) then mret tt
  else
    _ ← st_modify (fun p => p <| pc_ice_gatherer ::= fun g => g <| ig_gathering := false |> |>);
    agent_event (Gather true listen random_id ips).

(** A [String] of the agent, which it keeps as bytes *)
Definition string_of_bytes (b : bytes) : str := default [] (utf8_decode b).

Definition get_local_parameters (seed : AgentSeed) : PM RTCIceParameters :=
  _ ← create_agent seed;
  agent ← st_get (fun p => ig_agent (pc_ice_gatherer p));
  match agent with
  | None => st_raise ErrICEAgentNotExist
  | Some agent =>
      let '(frag, pwd) := get_local_user_credentials agent in
      mret (mkRTCIceParameters (string_of_bytes frag) (string_of_bytes pwd))
  end.

Definition agent_candidates (agent : Agent) : list CandidateBase :=
  map (cand_of (ag_internal agent)) (IceApi.get_local_candidates agent).

Definition get_local_candidates (seed : AgentSeed) : PM (list RTCIceCandidate) :=
  _ ← create_agent seed;
  agent ← st_get (fun p => ig_agent (pc_ice_gatherer p));
  match agent with
  | None => st_raise ErrICEAgentNotExist
  | Some agent => st_lift (rtc_ice_candidates_from_ice_candidates (agent_candidates agent))
  end.

(** * Offers *)

(** The media sections: one for the data channels, if any was requested *)
Definition media_sections (plan_b : bool) (p : Peer) : list MediaSection :=
  if st_data_channels_requested (pc_sctp_transport p) =? 0 then []
  else [mkMediaSection (if plan_b then chars "data" else print_int 0) true].

Definition remote_description (p : Peer) : option RTCSessionDescription :=
  match pc_pending_remote_description p with Some d => Some d | None => pc_current_remote_description p end.

(** What [generate_unmatched_sdp] and [generate_matched_sdp] both do with the
    sections; [random] and [subsec_nanos] make the origin of the description. *)
Definition generate_sdp (seed : AgentSeed) (random subsec_nanos : Z) (random_id : nat -> str) (use_identity : bool)
    (sections : Peer -> list MediaSection) (connection_role : ConnectionRole) : PM SessionDescription :=
  let d := new_jsep_session_description random subsec_nanos use_identity in
  ice_params ← get_local_parameters seed;
  candidates ← get_local_candidates seed;
  media_sections ← st_get sections;
  certificates ← st_get (fun p => dt_certificates (pc_dtls_transport p));
  match certificates with
  | [] => st_raise ErrNonCertificate
  | cert :: _ =>
      gathering ← st_get (fun p => ice_gathering_state (pc_ice_gatherer p));
      st_lift (populate_sdp random_id d (get_fingerprints cert) candidates ice_params media_sections
                 (mkPopulateSdpParams false connection_role gathering))
  end.

Definition generate_unmatched_sdp (seed : AgentSeed) (random subsec_nanos : Z) (random_id : nat -> str) (use_identity : bool) :
    PM SessionDescription :=
  generate_sdp seed random subsec_nanos random_id use_identity (media_sections false)
    (to_connection_role DEFAULT_DTLS_ROLE_OFFER).

Definition generate_matched_sdp (seed : AgentSeed) (random subsec_nanos : Z) (random_id : nat -> str)
    (use_identity include_unmatched : bool) (connection_role : ConnectionRole) : PM SessionDescription :=
  generate_sdp seed random subsec_nanos random_id use_identity
    (fun p => if include_unmatched then media_sections (description_is_plan_b (remote_description p)) p else [])
    connection_role.

(** The greatest number that is the media id of a section *)
Definition update_greater_mid (parsed : SessionDescription) (greater_mid : Z) : Z :=
  fold_left (fun g m =>
    match get_mid_value m with
    | Some (_ :: _ as mid) => match parse_signed 64 mid with Ok n => if n >? g then n else g | _ => g end
    | _ => g
    end) (sd_media_descriptions parsed) greater_mid.

Definition create_offer (seed : AgentSeed) (random subsec_nanos : Z) (random_id : nat -> str) : PM RTCSessionDescription :=
  idp ← st_get pc_idp_login_url;
  closed ← st_get pc_is_closed;
  let use_identity := bool_decide (is_Some idp) in
  if use_identity then st_raise ErrIdentityProviderNotImplemented
  else if (closed : bool) then st_raise ErrConnectionClosed
  else
    current ← st_get pc_current_remote_description;
    _ ← match current with
        | Some desc =>
            match rs_parsed desc with
            | Some parsed =>
                st_when (negb (description_is_plan_b current))
                  (st_modify (fun p => p <| pc_greater_mid ::= update_greater_mid parsed |>))
            | None => mret tt
            end
        | None => mret tt
        end;
    d ← match current with
        | None => generate_unmatched_sdp seed random subsec_nanos random_id use_identity
        | Some _ => generate_matched_sdp seed random subsec_nanos random_id use_identity true
                      (to_connection_role DEFAULT_DTLS_ROLE_OFFER)
        end;
    origin ← st_get pc_sdp_origin;
    '(origin, d) ← st_lift (update_sdp_origin origin d);
    _ ← st_modify (fun p => p <| pc_sdp_origin := origin |>);
    let sdp := SessionDescription_marshal d in
    _ ← st_modify (fun p => p <| pc_last_offer := sdp |>);
    mret (mkRTCSessionDescription RTCSdpType_Offer sdp (Some d)).

(** * Descriptions *)

(** The check of the new state, and what is done when it is allowed *)
Definition transition (cur next : RTCSignalingState) (op : StateChangeOp) (sdp_type : RTCSdpType) (f : Peer -> Peer) :
    PM RTCSignalingState :=
  next_state ← st_lift (check_next_signaling_state cur next op sdp_type);
  _ ← st_modify f;
  mret next_state.

Definition set_local (sd : RTCSessionDescription) (cur : RTCSignalingState) : PM RTCSignalingState :=
  last_offer ← st_get pc_last_offer;
  last_answer ← st_get pc_last_answer;
  match rs_sdp_type sd with
  | RTCSdpType_Offer =>
      if negb (bool_decide (rs_sdp sd = last_offer)) then st_raise ErrSDPDoesNotMatchOffer
      else transition cur RTCSignalingState_HaveLocalOffer StateChangeOp_SetLocal (rs_sdp_type sd)
             (fun p => p <| pc_pending_local_description := Some sd |>)
  | RTCSdpType_Answer =>
      if negb (bool_decide (rs_sdp sd = last_answer)) then st_raise ErrSDPDoesNotMatchAnswer
      else transition cur RTCSignalingState_Stable StateChangeOp_SetLocal (rs_sdp_type sd)
             (fun p => p <| pc_pending_remote_description := None |> <| pc_pending_local_description := None |>
                         <| pc_current_local_description := Some sd |>
                         <| pc_current_remote_description := pc_pending_remote_description p |>)
  | RTCSdpType_Rollback =>
      transition cur RTCSignalingState_Stable StateChangeOp_SetLocal (rs_sdp_type sd)
        (fun p => p <| pc_pending_local_description := None |>)
  | RTCSdpType_Pranswer =>
      if negb (bool_decide (rs_sdp sd = last_answer)) then st_raise ErrSDPDoesNotMatchAnswer
      else transition cur RTCSignalingState_HaveLocalPranswer StateChangeOp_SetLocal (rs_sdp_type sd)
             (fun p => p <| pc_pending_local_description := Some sd |>)
  | RTCSdpType_Unspecified => st_raise ErrPeerConnStateChangeInvalid
  end.

Definition set_remote (sd : RTCSessionDescription) (cur : RTCSignalingState) : PM RTCSignalingState :=
  match rs_sdp_type sd with
  | RTCSdpType_Offer =>
      transition cur RTCSignalingState_HaveRemoteOffer StateChangeOp_SetRemote (rs_sdp_type sd)
        (fun p => p <| pc_pending_remote_description := Some sd |>)
  | RTCSdpType_Answer =>
      transition cur RTCSignalingState_Stable StateChangeOp_SetRemote (rs_sdp_type sd)
        (fun p => p <| pc_pending_local_description := None |> <| pc_pending_remote_description := None |>
                    <| pc_current_remote_description := Some sd |>
                    <| pc_current_local_description := pc_pending_local_description p |>)
  | RTCSdpType_Rollback =>
      transition cur RTCSignalingState_Stable StateChangeOp_SetRemote (rs_sdp_type sd)
        (fun p => p <| pc_pending_remote_description := None |>)
  | RTCSdpType_Pranswer =>
      transition cur RTCSignalingState_HaveRemotePranswer StateChangeOp_SetRemote (rs_sdp_type sd)
        (fun p => p <| pc_pending_remote_description := Some sd |>)
  | RTCSdpType_Unspecified => st_raise ErrPeerConnStateChangeInvalid
  end.

Definition set_description (sd : RTCSessionDescription) (op : StateChangeOp) : PM unit :=
  closed ← st_get pc_is_closed;
  if (closed : bool) then st_raise ErrConnectionClosed
  else if bool_decide (rs_sdp_type sd = RTCSdpType_Unspecified) then st_raise ErrPeerConnSDPTypeInvalidValue
  else
    cur ← st_get signaling_state;
    next_state ← match op with StateChangeOp_SetLocal => set_local sd cur | StateChangeOp_SetRemote => set_remote sd cur end;
    st_modify (fun p => p <| pc_signaling_state := RTCSignalingState_as_u8 next_state |>).

Definition set_local_description (seed : AgentSeed) (desc : RTCSessionDescription) : PM unit :=
  closed ← st_get pc_is_closed;
  if (closed : bool) then st_raise ErrConnectionClosed
  else
    last_offer ← st_get pc_last_offer;
    sdp ← match rs_sdp desc with
          | [] => if bool_decide (rs_sdp_type desc = RTCSdpType_Offer) then mret last_offer
                  else st_raise ErrPeerConnSDPTypeInvalidValueSetLocalDescription
          | sdp => mret sdp
          end;
    parsed ← st_lift (unmarshal_description sdp);
    _ ← set_description (mkRTCSessionDescription (rs_sdp_type desc) sdp (Some parsed)) StateChangeOp_SetLocal;
    g ← st_get pc_ice_gatherer;
    if bool_decide (gatherer_state g = RTCIceGathererState_New) then gather seed else mret tt.

(** * Candidates of the peer *)
Definition ensure_gatherer (seed : AgentSeed) : PM unit :=
  agent ← st_get (fun p => ig_agent (pc_ice_gatherer p));
  if bool_decide (is_Some agent) then mret tt else create_agent seed.

(** [RTCIceTransport::add_remote_candidate]: the candidate is built, as in [to_ice],
    and given to the agent. *)
Definition transport_add_remote_candidate (seed : AgentSeed) (random_id : str) (remote_candidate : option RTCIceCandidate) :
    PM unit :=
  _ ← ensure_gatherer seed;
  agent ← st_get (fun p => ig_agent (pc_ice_gatherer p));
  match agent, remote_candidate with
  | None, _ => st_raise ErrICEAgentNotExist
  | Some _, None => mret tt
  | Some _, Some r =>
      match rc_typ r with
      | RTCIceCandidateType_Host => agent_event (RemoteCandidate (to_ice_config r) random_id)
      | RTCIceCandidateType_Unspecified => st_raise ErrICECandidateTypeUnknown
      end
  end.

Definition add_ice_candidate (seed : AgentSeed) (random_id : str) (candidate_str : str) : PM unit :=
  remote ← st_get remote_description;
  match remote with
  | None => st_raise ErrNoRemoteDescription
  | Some _ =>
      let candidate_value := if starts_with (chars "candidate:") candidate_str
                             then drop (length (chars "candidate:")) candidate_str else candidate_str in
      match candidate_value with
      | [] => transport_add_remote_candidate seed random_id None
      | _ =>
          candidate ← st_lift (map_ice (unmarshal_candidate candidate_value random_id));
          ice_candidate ← st_lift (RTCIceCandidate_from candidate);
          transport_add_remote_candidate seed random_id (Some ice_candidate)
      end
  end.

Definition set_remote_description (seed : AgentSeed) (random_id : nat -> str) (desc : RTCSessionDescription) : PM unit :=
  closed ← st_get pc_is_closed;
  if (closed : bool) then st_raise ErrConnectionClosed
  else
    parsed ← st_lift (RTCSessionDescription_unmarshal desc);
    let desc := mkRTCSessionDescription (rs_sdp_type desc) (rs_sdp desc) (Some parsed) in
    _ ← set_description desc StateChangeOp_SetRemote;
    '(remote_ufrag, remote_pwd, candidates) ← st_lift (extract_ice_details random_id parsed);
    _ ← st_for candidates (fun candidate => transport_add_remote_candidate seed [] (Some candidate));
    '(fingerprint, fingerprint_hash) ← st_lift (extract_fingerprint parsed);
    st_modify (fun p => p <| pc_ops ::= fun ops =>
      ops ++ [mkOperation RTCIceRole_Controlling (DTLSRole_from parsed) remote_ufrag remote_pwd fingerprint fingerprint_hash desc] |>).

(** * Transports *)

(** [RTCIceTransport::start] up to the wait; whether it waits *)
Definition ice_transport_start (seed : AgentSeed) (params : RTCIceParameters) (role : option RTCIceRole) : PM bool :=
  state ← st_get ice_transport_state;
  if negb (bool_decide (state = RTCIceTransportState_New)) then st_raise ErrICETransportNotInNew
  else
    _ ← ensure_gatherer seed;
    agent ← st_get (fun p => ig_agent (pc_ice_gatherer p));
    match agent with
    | None => st_raise ErrICEAgentNotExist
    | Some _ =>
        let role := default RTCIceRole_Controlled role in
        _ ← st_modify (fun p => p <| pc_ice_transport ::= fun t => t <| it_handler := true |> <| it_role := role |> |>);
        let ufrag := utf8_encode (ip_username_fragment params) in
        let pwd := utf8_encode (ip_password params) in
        _ ← match role with
            | RTCIceRole_Controlling => agent_event (Dial ufrag pwd)
            | RTCIceRole_Controlled => agent_event (Accept ufrag pwd)
            | RTCIceRole_Unspecified => st_raise ErrICERoleUnknown
            end;
        waits ← st_get (fun p => ig_on_connected_rx (pc_ice_gatherer p));
        _ ← st_modify (fun p => p <| pc_ice_gatherer ::= fun g => g <| ig_on_connected_rx := false |> |>);
        mret waits
    end.

(** The rest of it, when the agent is connected *)
Definition ice_transport_connected : PM unit :=
  st_modify (fun p => p <| pc_ice_transport ::= fun t => t <| it_mux := Some Mux_new |> |>).

(** The wait ends when the agent drops the sender it keeps. *)
Definition agent_connected (p : Peer) : bool :=
  match ig_agent (pc_ice_gatherer p) with
  | Some agent => negb (ai_on_connected_tx (ag_internal agent))
  | None => false
  end.

Definition dtls_state_change (state : RTCDtlsTransportState) : PM unit :=
  st_modify (fun p => p <| pc_dtls_transport ::= fun t => t <| dt_state := RTCDtlsTransportState_as_u8 state |> |>).

(** [Config] of the DTLS connection: [Config::default] but for what is given *)
Definition dtls_config (certificate : Certificate) : DtlsState.Config :=
  DtlsState.mkConfig [certificate] [] [] RequireAnyClientCert EmsRequest 0 None None true None [] 0 0.

Definition prepare_transport (remote_parameters : DTLSParameters) : PM (DTLSRole * DtlsState.Config) :=
  ice ← st_get ice_transport_state;
  if bool_decide (ice = RTCIceTransportState_New) then st_raise ErrICEConnectionNotStarted
  else
    state ← st_get dtls_transport_state;
    if negb (bool_decide (state = RTCDtlsTransportState_New)) then st_raise ErrInvalidDTLSStart
    else
      _ ← st_modify (fun p => p <| pc_dtls_transport ::= fun t => t <| dt_remote_parameters := remote_parameters |> |>);
      certificates ← st_get (fun p => dt_certificates (pc_dtls_transport p));
      match certificates with
      | [] => st_raise ErrNonCertificate
      | cert :: _ =>
          _ ← dtls_state_change RTCDtlsTransportState_Connecting;
          mret (DTLSRole_Client, dtls_config (ce_certificate cert))
      end.

(** The end of [RTCDtlsTransport::start], with the outcome of [DTLSConn::new] *)
Definition dtls_transport_connected (r : DtlsError + unit) : PM unit :=
  match r with
  | inl e => _ ← dtls_state_change RTCDtlsTransportState_Failed; st_raise (WebrtcDtls e)
  | inr _ =>
      _ ← st_modify (fun p => p <| pc_dtls_transport ::= fun t => t <| dt_conn := true |> |>);
      dtls_state_change RTCDtlsTransportState_Connected
  end.

(** [RTCDtlsTransport::start] up to the handshake: the configuration of it *)
Definition dtls_transport_start (remote_parameters : DTLSParameters) : PM DtlsState.Config :=
  mux ← st_get (fun p => it_mux (pc_ice_transport p));
  match mux with
  | None =>
      _ ← dtls_state_change RTCDtlsTransportState_Failed;
      st_raise (WebrtcDtls (ErrOther "ice_transport.new_endpoint failed"))
  | Some mux =>
      _ ← st_modify (fun p => p <| pc_ice_transport ::= fun t => t <| it_mux := Some (snd (new_endpoint match_dtls 0 mux)) |> |>);
      '(_, config) ← prepare_transport remote_parameters;
      mret config
  end.

(** [RTCSctpTransport::start] up to the handshake of the association; whether there
    is one to wait for *)
Definition sctp_transport_start : PM bool :=
  started ← st_get (fun p => st_is_started (pc_sctp_transport p));
  if (started : bool) then mret false
  else
    _ ← st_modify (fun p => p <| pc_sctp_transport ::= fun t => t <| st_is_started := true |> |>);
    conn ← st_get (fun p => dt_conn (pc_dtls_transport p));
    if (conn : bool) then mret true else st_raise ErrSCTPTransportDTLS.

Definition sctp_transport_connected (a : Assoc) : PM unit :=
  st_modify (fun p => p <| pc_sctp_transport ::= fun t =>
    t <| st_association := Some a |> <| st_state := RTCSctpTransportState_as_u8 RTCSctpTransportState_Connected |> |>).

Definition sctp_transport_stop : PM unit :=
  association ← st_get (fun p => st_association (pc_sctp_transport p));
  _ ← st_modify (fun p => p <| pc_sctp_transport ::= fun t => t <| st_association := None |> |>);
  _ ← match association with
      | Some a =>
          match fst (a_close a) with
          | Ok _ => mret tt
          | Err e => st_raise (WebrtcSctp e)
          | Panic => st_lift Panic
          | OutOfFuel => st_lift OutOfFuel
          end
      | None => mret tt
      end;
  st_modify (fun p => p <| pc_sctp_transport ::= fun t =>
    t <| st_state := RTCSctpTransportState_as_u8 RTCSctpTransportState_Closed |> |>).

(** * Data channels *)

(** [RTCDataChannel::open] of the channel [i] over the SCTP transport *)
Definition channel_open (now : Z) (i : nat) : PM unit := fun p =>
  let t := pc_sctp_transport p in
  match st_data_channels t !! i with
  | None => (Ok tt, p)
  | Some d =>
      let '(r, (d, association)) := rtc_open now (d, st_association t) in
      let p := p <| pc_sctp_transport := t <| st_data_channels ::= <[i := d]> |> <| st_association := association |> |> in
      (match r with Ok _ => Ok tt | Err e => Err (WebrtcData e) | Panic => Panic | OutOfFuel => OutOfFuel end, p)
  end.

(** The channel is returned as its place among the channels. *)
Definition create_data_channel (now : Z) (label protocol : bytes) : PM nat :=
  closed ← st_get pc_is_closed;
  if (closed : bool) then st_raise ErrConnectionClosed
  else
    i ← st_get (fun p => length (st_data_channels (pc_sctp_transport p)));
    _ ← st_modify (fun p => p <| pc_sctp_transport ::= fun t =>
          t <| st_data_channels ::= (.++ [RTCDataChannel_new label protocol]) |>
            <| st_data_channels_requested ::= fun n => wrap 32 (n + 1) |> |>);
    state ← st_get sctp_transport_state;
    _ ← st_when (bool_decide (state = RTCSctpTransportState_Connected)) (channel_open now i);
    mret i.

Definition on_channel {A} (i : nat) (f : RTCDataChannel -> A * RTCDataChannel) (none : A) (p : Peer) : A * Peer :=
  match st_data_channels (pc_sctp_transport p) !! i with
  | None => (none, p)
  | Some d => let '(a, d) := f d in (a, p <| pc_sctp_transport ::= fun t => t <| st_data_channels ::= <[i := d]> |> |>)
  end.

(** * Operations *)

(** A call whose error is logged *)
Definition st_try {S E F A} (m : ST S E A) : ST S F (E + A) := fun s =>
  match m s with
  | (Ok a, s) => (Ok (inr a), s)
  | (Err e, s) => (Ok (inl e), s)
  | (Panic, s) => (Panic, s)
  | (OutOfFuel, s) => (OutOfFuel, s)
  end.

Definition set_stage (stage : OpStage) : PM unit := st_modify (fun p => p <| pc_stage := stage |>).

(** The channels that were connecting when the association came up *)
Definition open_data_channels (now : Z) : PM Z :=
  channels ← st_get (fun p => length (st_data_channels (pc_sctp_transport p)));
  st_fold (seq 0 channels) (fun opened i =>
    d ← st_get (fun p => st_data_channels (pc_sctp_transport p) !! i);
    match d with
    | Some d =>
        if decide (ready_state d = DcsConnecting) then
          r ← st_try (channel_open now i);
          match r with inl _ => mret opened | inr _ => st_lift (add32 opened 1) end
        else mret opened
    | None => mret opened
    end) 0.

(** The end of [start_sctp], with the outcome of [sctp_transport.start] *)
Definition sctp_started (now : Z) (r : WebrtcError + unit) : PM unit :=
  match r with
  | inl _ => _ ← st_try (E := WebrtcError) sctp_transport_stop; set_stage OpIdle
  | inr _ =>
      opened ← open_data_channels now;
      _ ← st_modify (fun p => p <| pc_sctp_transport ::= fun t => t <| st_data_channels_opened ::= fun n => wrap 32 (n + opened) |> |>);
      set_stage OpIdle
  end.

Definition start_sctp (now : Z) (op : Operation) : PM unit :=
  r ← st_try sctp_transport_start;
  match r with
  | inl e => sctp_started now (inl e)
  | inr true => set_stage (OpSctp op)
  | inr false => sctp_started now (inr tt)
  end.

Definition maybe_start_sctp (now : Z) (op : Operation) : PM unit :=
  match rs_parsed (op_remote_desc op) with
  | Some parsed => if have_application_media_section parsed then start_sctp now op else set_stage OpIdle
  | None => set_stage OpIdle
  end.

(** [start_transports] when the DTLS transport has started, or not *)
Definition dtls_started (now : Z) (op : Operation) : PM unit :=
  _ ← st_modify (fun p => update_connection_state (RTCIceConnectionState_from_u8 (pc_ice_connection_state p))
                            (dtls_transport_state p) p);
  maybe_start_sctp now op.

(** [DTLSConn::new] validates the configuration before anything is sent. *)
Definition start_dtls (now : Z) (op : Operation) : PM unit :=
  r ← st_try (dtls_transport_start (mkDTLSParameters (op_dtls_role op) [mkFingerprint (op_fingerprint_hash op) (op_fingerprint op)]));
  match r with
  | inl _ => dtls_started now op
  | inr config =>
      match validate_config true config with
      | Err e => _ ← st_try (E := WebrtcError) (dtls_transport_connected (inl e)); dtls_started now op
      | _ => set_stage (OpDtls op config)
      end
  end.

Definition ice_connected (now : Z) (op : Operation) : PM unit :=
  _ ← ice_transport_connected;
  start_dtls now op.

Definition run_operation (seed : AgentSeed) (now : Z) (op : Operation) : PM unit :=
  r ← st_try (ice_transport_start seed (mkRTCIceParameters (op_remote_ufrag op) (op_remote_pwd op)) (Some (op_ice_role op)));
  match r with
  | inl _ => maybe_start_sctp now op
  | inr true => set_stage (OpIce op)
  | inr false => ice_connected now op
  end.

(** [Operations::start]: the next operation, when none is running *)
Definition next_operation (seed : AgentSeed) (now : Z) : PM unit :=
  stage ← st_get pc_stage;
  ops ← st_get pc_ops;
  match stage, ops with
  | OpIdle, op :: ops => _ ← st_modify (fun p => p <| pc_ops := ops |>); run_operation seed now op
  | _, _ => mret tt
  end.

(** What ends the wait of an operation *)
Definition operation_ice (now : Z) : PM unit :=
  stage ← st_get pc_stage;
  connected ← st_get agent_connected;
  match stage with
  | OpIce op => if (connected : bool) then ice_connected now op else mret tt
  | _ => mret tt
  end.

Definition operation_dtls (now : Z) (r : DtlsError + unit) : PM unit :=
  stage ← st_get pc_stage;
  match stage with
  | OpDtls op _ => _ ← st_try (E := WebrtcError) (dtls_transport_connected r); dtls_started now op
  | _ => mret tt
  end.

Definition operation_sctp (now : Z) (r : Errors.Error + Assoc) : PM unit :=
  stage ← st_get pc_stage;
  match stage with
  | OpSctp op =>
      match r with
      | inl e => sctp_started now (inl (WebrtcSctp e))
      | inr a => _ ← sctp_transport_connected a; sctp_started now (inr tt)
      end
  | _ => mret tt
  end.

(** * The local description *)
Definition with_local_candidates (seed : AgentSeed) (random_id : nat -> str) (description : option RTCSessionDescription) :
    PM (option RTCSessionDescription) := fun p =>
  match description with
  | None => (Ok None, p)
  | Some _ =>
      let '(gathered, p') := get_local_candidates seed p in
      (populate_local_candidates random_id description gathered (ice_gathering_state (pc_ice_gatherer p)), p')
  end.

Definition current_local_description (seed : AgentSeed) (random_id : nat -> str) : PM (option RTCSessionDescription) :=
  d ← st_get pc_current_local_description; with_local_candidates seed random_id d.
Definition pending_local_description (seed : AgentSeed) (random_id : nat -> str) : PM (option RTCSessionDescription) :=
  d ← st_get pc_pending_local_description; with_local_candidates seed random_id d.

Definition local_description (seed : AgentSeed) (random_id : nat -> str) : PM (option RTCSessionDescription) :=
  pending ← pending_local_description seed random_id;
  match pending with
  | Some d => mret (Some d)
  | None => current_local_description seed random_id
  end.

(** * The peer as a system *)

(** What may happen: a call of the interface, an event of the agent, the task of
    gathering, and the operations.  [AssociationRuns]: what the tasks of the
    association, which are those of [System.v], make of it. *)
Inductive PeerEvent : Type :=
  | CreateOffer (seed : AgentSeed) (random subsec_nanos : Z) (random_id : nat -> str)
  | SetLocalDescription (seed : AgentSeed) (desc : RTCSessionDescription)
  | SetRemoteDescription (seed : AgentSeed) (random_id : nat -> str) (desc : RTCSessionDescription)
  | AddIceCandidate (seed : AgentSeed) (random_id : str) (candidate : str)
  | LocalDescription (seed : AgentSeed) (random_id : nat -> str)
  | CreateDataChannel (now : Z) (label protocol : bytes)
  | OnOpen (i : nat)
  | Detach (i : nat)
  | GatheringRuns (listen : IpAddr -> option Z) (random_id : IpAddr -> str) (ips : list IpAddr)
  | AgentRuns (e : IceEvent)
  | AssociationRuns (f : Assoc -> Assoc)
  | NextOperation (seed : AgentSeed) (now : Z)
  | OperationIce (now : Z)
  | OperationDtls (now : Z) (r : DtlsError + unit)
  | OperationSctp (now : Z) (r : Errors.Error + Assoc).

(** The events of an agent that are not calls of its interface *)
Definition agent_task (e : IceEvent) : bool :=
  match e with ClockTo _ _ | Contact | Datagram _ _ _ | SendData _ | RecvData _ => true | _ => false end.

Definition peer_event (e : PeerEvent) : PM unit :=
  match e with
  | CreateOffer seed random subsec_nanos random_id => _ ← create_offer seed random subsec_nanos random_id; mret tt
  | SetLocalDescription seed desc => set_local_description seed desc
  | SetRemoteDescription seed random_id desc => set_remote_description seed random_id desc
  | AddIceCandidate seed random_id candidate => add_ice_candidate seed random_id candidate
  | LocalDescription seed random_id => _ ← local_description seed random_id; mret tt
  | CreateDataChannel now label protocol => _ ← create_data_channel now label protocol; mret tt
  | OnOpen i => fun p => let '(_, p) := on_channel i (fun d => (tt, on_open d)) tt p in (Ok tt, p)
  | Detach i => fun p => let '(_, p) := on_channel i (fun d => let '(_, d) := detach d in (tt, d)) tt p in (Ok tt, p)
  | GatheringRuns listen random_id ips => run_gathering listen random_id ips
  | AgentRuns e => if agent_task e then agent_event e else mret tt
  | AssociationRuns f => st_modify (fun p => p <| pc_sctp_transport ::= fun t => t <| st_association ::= fmap f |> |>)
  | NextOperation seed now => next_operation seed now
  | OperationIce now => operation_ice now
  | OperationDtls now r => operation_dtls now r
  | OperationSctp now r => operation_sctp now r
  end.

(** A step is an event that does not panic. *)
Definition peer_event_wf (e : PeerEvent) : Prop :=
  match e with GatheringRuns _ _ ips => Forall ip_wf ips | _ => True end.

Inductive peer_step : Peer -> Peer -> Prop :=
  | peer_step_ok e p p' : peer_event_wf e -> peer_event e p = (Ok tt, p') -> peer_step p p'
  | peer_step_err e p err p' : peer_event_wf e -> peer_event e p = (Err err, p') -> peer_step p p'.

Definition peer_reachable (p : Peer) : Prop := exists cert, rtc peer_step (Peer_new cert) p.
End peer.
