(* ===== verification/RtcSample.v ===== *)
(** A run of the peer connection, for the examples and the witnesses: an offer, the
    answer of a peer on the same network, the checks of ICE, and the transports up to a
    data channel. *)
From Stdlib Require Import Strings.String.
From S2P Require Import Prelude Errors Utf8 Stun StunAttrs Text IpText Sdp SdpLaws Stream Assoc DataChannel DtlsTypes DtlsCrypto DtlsSuite DtlsSample IceCandidate IceAgent IceSelector IceApi IceMessage IceSample IceSystem RtcTypes RtcSdp RtcPeer.

#[export] Instance sample_peer_env : PeerEnv := {| plan_b_mid := fun _ => false |}.
#[local] Existing Instance sample_env.
#[local] Existing Instance sample_primitives.
#[local] Existing Instance sample_urls.
#[local] Existing Instance dev_profile.

Definition sample_seed (n : nat) : AgentSeed := mkAgentSeed (chars "abc.local") 7 1000 1000 (fun i => n + i)%nat.
Definition sample_ids : nat -> str := fun i => chars "candidate" ++ print_int (Z.of_nat i).
Definition sample_rtc_certificate : RTCCertificate := mkRTCCertificate sample_certificate.

Definition run (e : PeerEvent) (p : Peer) : Peer := snd (peer_event e p).
Definition runs_ok (e : PeerEvent) (p : Peer) : bool := match fst (peer_event e p) with Ok _ => true | _ => false end.

Definition last_offer_description (p : Peer) : RTCSessionDescription :=
  mkRTCSessionDescription RTCSdpType_Offer (pc_last_offer p) None.

(** The machine [n] up to the gathering of its candidates *)
Definition channel_requested : Peer := run (CreateDataChannel 0 (bytes_of_string "data") []) (Peer_new sample_rtc_certificate).
Definition offered (n : nat) : Peer := run (CreateOffer (sample_seed n) 1234567 89 sample_ids) channel_requested.
Definition have_local (n : nat) : Peer := run (SetLocalDescription (sample_seed n) (last_offer_description (offered n))) (offered n).
Definition gathered_peer (n : nat) : Peer :=
  run (GatheringRuns (fun _ => Some 5000) (fun _ => chars "id") [sample_ip (Z.of_nat n)]) (have_local n).

(** What it tells the other one, as an answer *)
Definition local_text (n : nat) : str :=
  match fst (local_description (sample_seed n) sample_ids (gathered_peer n)) with
  | Ok (Some d) => rs_sdp d
  | _ => []
  end.

Definition answer_text : str := local_text 2.
Definition sample_answer : RTCSessionDescription := mkRTCSessionDescription RTCSdpType_Answer answer_text None.
Definition answered : Peer := run (SetRemoteDescription (sample_seed 1) sample_ids sample_answer) (gathered_peer 1).
Definition checking : Peer := run (NextOperation (sample_seed 1) 0) answered.

(** The other side of the checks: the agent of the machine 2, with the parameters and the
    candidate of the machine 1 *)
Definition agent_internal (p : Peer) : AgentInternal :=
  match ig_agent (pc_ice_gatherer p) with Some g => ag_internal g | None => ag_internal sample_fresh end.

Definition other_agent : AgentInternal :=
  match ig_agent (pc_ice_gatherer (gathered_peer 1)), ig_agent (pc_ice_gatherer (gathered_peer 2)) with
  | Some g1, Some g2 =>
      let '(ufrag, pwd) := get_local_user_credentials g1 in
      ag_internal (snd ((_ ← accept ufrag pwd; add_remote (sample_remote 1) (chars "r")) g2))
  | _, _ => ag_internal sample_fresh
  end.

(** What [p'] sent since it was [p] *)
Definition sent_since (p p' : Peer) : list bytes :=
  omap (fun o => match o with Sent _ raw _ => Some raw | _ => None end)
    (drop (length (ai_out (agent_internal p))) (ai_out (agent_internal p'))).

Definition tick (t : Z) (p : Peer) : Peer := run (AgentRuns (ClockTo t t)) p.
Definition receive (raws : list bytes) (p : Peer) : Peer :=
  fold_left (fun p raw => run (AgentRuns (Datagram 0 raw (sample_addr 2))) p) raws p.
Definition other_receives (t : Z) (raws : list bytes) (b : AgentInternal) : AgentInternal :=
  fold_left (fun b raw => snd (recv_round 0 raw (sample_addr 1) b)) raws (at_time t b).

Definition P1 := run (AgentRuns Contact) (tick 2000 checking).
Definition O1 := other_receives 3000 (sent_since checking P1) other_agent.
Definition P2 := receive (sent O1) (tick 3500 P1).
Definition O2 := other_receives 4000 (sent_since P1 P2) O1.
Definition P3 := run (AgentRuns Contact) (tick 5000 P2).
Definition O3 := other_receives 6000 (sent_since P2 P3) O2.
Definition P4 := receive (sent O3) (tick 6500 P3).

(** The machine 1 when the ICE transport has its multiplexer *)
Definition P4_connected : Peer := snd (ice_transport_connected P4).

(** A machine that was offered something *)
Definition asked : Peer :=
  run (SetRemoteDescription (sample_seed 1) sample_ids (mkRTCSessionDescription RTCSdpType_Offer answer_text None)) channel_requested.

(** The transports: the DTLS handshake, then an association, as they turn out *)
Definition P5 := run (OperationIce 7000) P4.
Definition P6 := run (OperationDtls 8000 (inr tt)) P5.
Definition sample_association : Assoc := snd (Assoc.set_state Established (AssociationInternal_new (Assoc.mkConfig 0 0) 7 42)).
Definition P7 := run (OperationSctp 9000 (inr sample_association)) P6.

(** The run ends with the channel of the client open. *)
Example sample_run_connects :
  (signaling_state checking, ice_transport_state checking) = (RTCSignalingState_Stable, RTCIceTransportState_Checking) /\
  (agent_connected checking, agent_connected P4, ice_transport_state P4) = (false, true, RTCIceTransportState_Connected) /\
  (dtls_transport_state P5, dtls_transport_state P6) = (RTCDtlsTransportState_Connecting, RTCDtlsTransportState_Connected) /\
  map ready_state (st_data_channels (pc_sctp_transport P6)) = [DcsConnecting] /\
  map ready_state (st_data_channels (pc_sctp_transport P7)) = [DcsOpen] /\
  st_data_channels_opened (pc_sctp_transport P7) = 1.
Proof. by vm_compute. Qed.

(** * The run is one the system has *)
Lemma run_step e p : peer_event_wf e -> runs_ok e p = true -> peer_step p (run e p).
Proof.
  unfold runs_ok, run. intros He H. destruct (peer_event e p) as [[[]| | |] p'] eqn:E; try discriminate H. cbn.
  by eapply peer_step_ok.
Qed.

Lemma run_reachable e p : peer_event_wf e -> runs_ok e p = true -> peer_reachable p -> peer_reachable (run e p).
Proof. intros He Hr [cert H]. exists cert. eapply rtc_r; [exact H|by apply run_step]. Qed.

Fixpoint receives_ok (raws : list bytes) (p : Peer) : bool :=
  match raws with
  | [] => true
  | raw :: raws => let e := AgentRuns (Datagram 0 raw (sample_addr 2)) in runs_ok e p && receives_ok raws (run e p)
  end.

Lemma receive_reachable raws p : receives_ok raws p = true -> peer_reachable p -> peer_reachable (receive raws p).
Proof.
  revert p. induction raws as [|raw raws IH]; intros p; [done|]. cbn [receives_ok]. intros [H1 H2]%andb_true_iff Hp.
  apply (IH (run _ p)); [exact H2|]. by apply run_reachable.
Qed.

Lemma sample_gathered_reachable n : (n = 1 \/ n = 2)%nat -> peer_reachable (gathered_peer n).
Proof.
  intros Hn. repeat (apply run_reachable; [|by destruct Hn as [->| ->]; vm_compute|]).
  all: try done. { by repeat constructor. } by exists sample_rtc_certificate.
Qed.

Lemma sample_answered_reachable : peer_reachable answered.
Proof. apply run_reachable; [done|by vm_compute|]. apply sample_gathered_reachable. by left. Qed.

Lemma sample_P4_reachable : peer_reachable P4.
Proof.
  apply receive_reachable; [by vm_compute|]. apply run_reachable; [done|by vm_compute|].
  apply run_reachable; [done|by vm_compute|]. apply run_reachable; [done|by vm_compute|].
  apply receive_reachable; [by vm_compute|]. apply run_reachable; [done|by vm_compute|].
  apply run_reachable; [done|by vm_compute|]. apply run_reachable; [done|by vm_compute|].
  apply run_reachable; [done|by vm_compute|]. exact sample_answered_reachable.
Qed.

Lemma sample_P7_reachable : peer_reachable P7.
Proof.
  do 3 (apply run_reachable; [done|by vm_compute|]). exact sample_P4_reachable.
Qed.

Lemma sample_asked_reachable : peer_reachable asked.
Proof. do 2 (apply run_reachable; [done|by vm_compute|]). by exists sample_rtc_certificate. Qed.
