(* ===== verification/RtcLaws.v ===== *)
(** What the peer connection guarantees: its descriptions follow the state machine of
    JSEP, its agent is an agent of [IceSystem.v], and what its states tell. *)
From Stdlib Require Import Strings.String.
From S2P Require Import Prelude Serial Errors Utf8 Stun StunAttrs StunAttrsLaws Text IpText Sdp Assoc Mux DataChannel DtlsTypes DtlsHandshake DtlsCrypto DtlsCipher DtlsState DtlsFlight IceCandidate IceAgent IceSelector IceApi IceMessage IceInvariant IceSystem IceSample SdpLaws DtlsSuite DtlsSample RtcTypes RtcSdp RtcPeer RtcSample.

Section laws.
Context {P : Profile} {env : IceEnv} {prim : Primitives} {urls : Urls} {penv : PeerEnv}.

Abbreviation PM A := (ST Peer WebrtcError A).

(** * What a call leaves as it was *)
Lemma stable_try {S E F A T} (f : S -> T) (m : ST S E A) : stable f m -> stable f (st_try (F := F) m).
Proof. intros Hm s. unfold st_try. specialize (Hm s). by destruct (m s) as [[] s']. Qed.

(** What the negotiation is in *)
Definition signaling (p : Peer) :=
  (pc_signaling_state p, pc_is_closed p, pc_last_answer p,
   (pc_current_local_description p, pc_current_remote_description p),
   (pc_pending_local_description p, pc_pending_remote_description p)).

Section frame.
Context {T : Type} (f : Peer -> T).

(** The fields that calls other than those of the negotiation change *)
Class Framed := {
  framed_connection x p : f (p <| pc_peer_connection_state := x |>) = f p;
  framed_ice_connection x p : f (p <| pc_ice_connection_state := x |>) = f p;
  framed_ice g p : (forall t, it_mux (g t) = it_mux t) -> f (p <| pc_ice_transport ::= g |>) = f p;
  framed_gatherer g p : f (p <| pc_ice_gatherer ::= g |>) = f p
}.
Context `{!Framed}.

Lemma update_connection_state_framed i d p : f (update_connection_state i d p) = f p.
Proof. unfold update_connection_state. case_match; [done|]. by rewrite framed_connection. Qed.

Lemma ice_state_change_framed s p : f (ice_state_change s p) = f p.
Proof.
  unfold ice_state_change, do_ice_connection_state_change. case_match; [|done].
  by rewrite update_connection_state_framed, framed_ice_connection.
Qed.

Lemma on_output_framed o p : f (on_output o p) = f p.
Proof.
  unfold on_output. repeat case_match; try done; [by rewrite ice_state_change_framed, framed_ice by done|by rewrite framed_gatherer].
Qed.

Lemma on_outputs_framed l p : f (fold_left (fun p o => on_output o p) l p) = f p.
Proof. revert p. induction l as [|o l IH]; intros p; [done|]. cbn. by rewrite IH, on_output_framed. Qed.

Lemma agent_event_framed e : stable f (agent_event e).
Proof.
  intros p. unfold agent_event. case_match; [|done]. destruct (ice_event _ _ _) as [r a'] eqn:He.
  cbn [snd]. rewrite on_outputs_framed. apply framed_gatherer.
Qed.
#[local] Hint Resolve agent_event_framed stable_try : stable.

Ltac framed := stab; try (apply stable_modify; intros; first [apply framed_gatherer | by apply framed_ice]); stab.

Lemma create_agent_framed seed : stable f (create_agent seed).
Proof. unfold create_agent. framed. Qed.
#[local] Hint Resolve create_agent_framed : stable.

Lemma gather_framed seed : stable f (gather seed).
Proof. unfold gather. framed. Qed.

Lemma run_gathering_framed l r i : stable f (run_gathering l r i).
Proof. unfold run_gathering. framed. Qed.

Lemma get_local_parameters_framed seed : stable f (get_local_parameters seed).
Proof. unfold get_local_parameters. framed. Qed.

Lemma get_local_candidates_framed seed : stable f (get_local_candidates seed).
Proof. unfold get_local_candidates. framed. Qed.

Lemma ensure_gatherer_framed seed : stable f (ensure_gatherer seed).
Proof. unfold ensure_gatherer. framed. Qed.
#[local] Hint Resolve ensure_gatherer_framed get_local_parameters_framed get_local_candidates_framed : stable.

Lemma transport_add_remote_candidate_framed seed id c : stable f (transport_add_remote_candidate seed id c).
Proof. unfold transport_add_remote_candidate. framed. Qed.
#[local] Hint Resolve transport_add_remote_candidate_framed : stable.

Lemma add_ice_candidate_framed seed id c : stable f (add_ice_candidate seed id c).
Proof. unfold add_ice_candidate. framed. Qed.

Lemma generate_sdp_framed seed random ns id use sections role : stable f (generate_sdp seed random ns id use sections role).
Proof. unfold generate_sdp. framed. Qed.

Lemma ice_transport_start_framed seed params role : stable f (ice_transport_start seed params role).
Proof. unfold ice_transport_start. framed. Qed.

Lemma with_local_candidates_framed seed id d : stable f (with_local_candidates seed id d).
Proof.
  intros p. unfold with_local_candidates. case_match; [|done].
  pose proof (get_local_candidates_framed seed p). by destruct (get_local_candidates seed p).
Qed.
#[local] Hint Resolve with_local_candidates_framed : stable.

Lemma local_description_framed seed id : stable f (local_description seed id).
Proof. unfold local_description, pending_local_description, current_local_description. framed. Qed.
End frame.

#[local] Hint Resolve agent_event_framed stable_try create_agent_framed gather_framed run_gathering_framed
  get_local_parameters_framed get_local_candidates_framed ensure_gatherer_framed transport_add_remote_candidate_framed
  add_ice_candidate_framed generate_sdp_framed ice_transport_start_framed with_local_candidates_framed
  local_description_framed : stable.

Section framed_operations.
Context {T : Type} (f : Peer -> T).

(** The fields that the operations and the data channels change *)
Class FramedOps := {
  framed_ops_connection x p : f (p <| pc_peer_connection_state := x |>) = f p;
  framed_mux g p : f (p <| pc_ice_transport ::= g |>) = f p;
  framed_dtls g p : f (p <| pc_dtls_transport ::= g |>) = f p;
  framed_sctp g p : f (p <| pc_sctp_transport ::= g |>) = f p;
  framed_stage g p : f (p <| pc_stage ::= g |>) = f p
}.
Context `{!FramedOps}.

Ltac framed := stab; try (apply stable_modify; intros;
  first [apply framed_mux | apply framed_dtls | apply framed_sctp | apply framed_stage]); stab.

Lemma dtls_state_change_framed s : stable f (dtls_state_change s).
Proof. unfold dtls_state_change. framed. Qed.
#[local] Hint Resolve dtls_state_change_framed : stable.

Lemma dtls_transport_connected_framed r : stable f (dtls_transport_connected r).
Proof. unfold dtls_transport_connected. framed. Qed.

Lemma prepare_transport_framed params : stable f (prepare_transport params).
Proof. unfold prepare_transport. framed. Qed.
#[local] Hint Resolve dtls_transport_connected_framed prepare_transport_framed : stable.

Lemma dtls_transport_start_framed params : stable f (dtls_transport_start params).
Proof. unfold dtls_transport_start. framed. Qed.

Lemma sctp_transport_start_framed : stable f sctp_transport_start.
Proof. unfold sctp_transport_start. framed. Qed.

Lemma sctp_transport_stop_framed : stable f sctp_transport_stop.
Proof. unfold sctp_transport_stop. framed. Qed.

Lemma sctp_transport_connected_framed a : stable f (sctp_transport_connected a).
Proof. unfold sctp_transport_connected. framed. Qed.

Lemma ice_transport_connected_framed : stable f ice_transport_connected.
Proof. unfold ice_transport_connected. framed. Qed.

Lemma channel_open_framed now i : stable f (channel_open now i).
Proof.
  intros p. unfold channel_open. case_match; [|done]. destruct (rtc_open now _) as [? [? ?]]. apply framed_sctp.
Qed.
#[local] Hint Resolve dtls_transport_start_framed sctp_transport_start_framed sctp_transport_stop_framed
  sctp_transport_connected_framed ice_transport_connected_framed channel_open_framed stable_try : stable.

Lemma create_data_channel_framed now l pr : stable f (create_data_channel now l pr).
Proof. unfold create_data_channel. framed. Qed.

Lemma on_channel_framed {A} i (g : RTCDataChannel -> A * RTCDataChannel) none p : f (snd (on_channel i g none p)) = f p.
Proof. unfold on_channel. case_match; [|done]. destruct (g _) as [? ?]. apply framed_sctp. Qed.

Lemma set_stage_framed s : stable f (set_stage s).
Proof. unfold set_stage. framed. Qed.
#[local] Hint Resolve set_stage_framed : stable.

Lemma open_data_channels_framed now : stable f (open_data_channels now).
Proof. unfold open_data_channels. framed. Qed.
#[local] Hint Resolve open_data_channels_framed : stable.

Lemma sctp_started_framed now r : stable f (sctp_started now r).
Proof. unfold sctp_started. framed. Qed.
#[local] Hint Resolve sctp_started_framed : stable.

Lemma start_sctp_framed now op : stable f (start_sctp now op).
Proof. unfold start_sctp. framed. Qed.
#[local] Hint Resolve start_sctp_framed : stable.

Lemma maybe_start_sctp_framed now op : stable f (maybe_start_sctp now op).
Proof. unfold maybe_start_sctp. framed. Qed.
#[local] Hint Resolve maybe_start_sctp_framed : stable.

Lemma dtls_started_framed now op : stable f (dtls_started now op).
Proof.
  unfold dtls_started. apply stable_bind; [|intros; framed]. apply stable_modify. intros p.
  unfold update_connection_state. case_match; [done|]. apply framed_ops_connection.
Qed.
#[local] Hint Resolve dtls_started_framed : stable.

Lemma start_dtls_framed now op : stable f (start_dtls now op).
Proof. unfold start_dtls. framed. Qed.
#[local] Hint Resolve start_dtls_framed : stable.

Lemma ice_connected_framed now op : stable f (ice_connected now op).
Proof. unfold ice_connected. framed. Qed.
#[local] Hint Resolve ice_connected_framed : stable.

Lemma operation_ice_framed now : stable f (operation_ice now).
Proof. unfold operation_ice. framed. Qed.

Lemma operation_dtls_framed now r : stable f (operation_dtls now r).
Proof. unfold operation_dtls. framed. Qed.

Lemma operation_sctp_framed now r : stable f (operation_sctp now r).
Proof. unfold operation_sctp. framed. Qed.
End framed_operations.

#[local] Hint Resolve create_data_channel_framed set_stage_framed maybe_start_sctp_framed ice_connected_framed
  operation_ice_framed operation_dtls_framed operation_sctp_framed : stable.

#[local] Hint Extern 0 (Framed _) => typeclasses eauto : stable.
#[local] Hint Extern 0 (FramedOps _) => typeclasses eauto : stable.

#[local] Instance signaling_framed : Framed signaling.
Proof. by split. Qed.
#[local] Instance signaling_framed_ops : FramedOps signaling.
Proof. by split. Qed.

Lemma create_offer_signaling seed random ns id : stable signaling (create_offer seed random ns id).
Proof.
  unfold create_offer, generate_unmatched_sdp, generate_matched_sdp. stab.
Qed.

Lemma next_operation_signaling seed now : stable signaling (next_operation seed now).
Proof. unfold next_operation, run_operation. stab. Qed.

(** An event that is not a call of the negotiation *)
Definition negotiates (e : PeerEvent) : bool :=
  match e with SetLocalDescription _ _ | SetRemoteDescription _ _ _ => true | _ => false end.

Lemma peer_event_signaling e : negotiates e = false -> stable signaling (peer_event e).
Proof.
  destruct e; cbn [negotiates peer_event]; intros Hn; try discriminate Hn; try solve [stab].
  - apply stable_bind; [apply create_offer_signaling|stab].
  - intros p. pose proof (on_channel_framed signaling i (fun d => (tt, on_open d)) tt p) as H. by destruct on_channel.
  - intros p. pose proof (on_channel_framed signaling i (fun d => let '(_, d) := detach d in (tt, d)) tt p) as H.
    by destruct on_channel.
Qed.

(** * JSEP

    The abstract machine: what was negotiated last, an offer with its answer, and
    where the negotiation stands. *)
Inductive JsepPhase : Type :=
  | JStable
  | JLocalOffer (offer : RTCSessionDescription)
  | JRemoteOffer (offer : RTCSessionDescription)
  | JRemotePranswer (offer pranswer : RTCSessionDescription).

Record Jsep := mkJsep { j_current : option (RTCSessionDescription * RTCSessionDescription); j_phase : JsepPhase }.

Definition jsep_start : Jsep := mkJsep None JStable.

(** A description of the type, with what its text parses to *)
Definition described (t : RTCSdpType) (sd : RTCSessionDescription) : Prop :=
  rs_sdp_type sd = t /\ exists d, rs_parsed sd = Some d /\ unmarshal_description (rs_sdp sd) = Ok d.

Inductive jsep_step : Jsep -> Jsep -> Prop :=
  | jsep_offer c o : described RTCSdpType_Offer o -> jsep_step (mkJsep c JStable) (mkJsep c (JLocalOffer o))
  | jsep_remote_offer c o : described RTCSdpType_Offer o -> jsep_step (mkJsep c JStable) (mkJsep c (JRemoteOffer o))
  | jsep_pranswer c o a : described RTCSdpType_Pranswer a ->
      jsep_step (mkJsep c (JLocalOffer o)) (mkJsep c (JRemotePranswer o a))
  | jsep_answer c o a : described RTCSdpType_Answer a -> jsep_step (mkJsep c (JLocalOffer o)) (mkJsep (Some (o, a)) JStable)
  | jsep_final_answer c o b a : described RTCSdpType_Answer a ->
      jsep_step (mkJsep c (JRemotePranswer o b)) (mkJsep (Some (o, a)) JStable).

(** The fields of a peer in a state of the machine *)
Definition jsep_fields (j : Jsep) :=
  let state := match j_phase j with
               | JStable => RTCSignalingState_Stable
               | JLocalOffer _ => RTCSignalingState_HaveLocalOffer
               | JRemoteOffer _ => RTCSignalingState_HaveRemoteOffer
               | JRemotePranswer _ _ => RTCSignalingState_HaveRemotePranswer
               end in
  let pending := match j_phase j with
                 | JStable => (None, None)
                 | JLocalOffer o => (Some o, None)
                 | JRemoteOffer o => (None, Some o)
                 | JRemotePranswer o a => (Some o, Some a)
                 end in
  (RTCSignalingState_as_u8 state, false, [] : str, (fst <$> j_current j, snd <$> j_current j), pending).

Definition shows (p : Peer) (j : Jsep) : Prop := signaling p = jsep_fields j.

(** At most a step of the machine *)
Definition jsep_move (j j' : Jsep) : Prop := j' = j \/ jsep_step j j'.

Definition simulates {A} (m : PM A) : Prop :=
  forall p j, shows p j -> exists j', jsep_move j j' /\ shows (snd (m p)) j'.

Lemma simulates_stable {A} (m : PM A) : stable signaling m -> simulates m.
Proof. intros Hm p j Hs. exists j. split; [by left|]. unfold shows. by rewrite Hm. Qed.

Lemma simulates_before {A B} (m : PM A) (k : A -> PM B) :
  stable signaling m -> (forall x p p', m p = (Ok x, p') -> simulates (k x)) -> simulates (m ≫= k).
Proof.
  intros Hm Hk p j Hs. unfold mbind, st_bind. specialize (Hm p). destruct (m p) as [r p'] eqn:Hp. cbn in Hm.
  assert (Hs' : shows p' j) by (unfold shows; by rewrite Hm).
  destruct r as [x|e| |]; cbn; [by eapply Hk|..]; exists j; by split; [left|].
Qed.

Lemma simulates_after {A B} (m : PM A) (k : A -> PM B) :
  simulates m -> (forall x, stable signaling (k x)) -> simulates (m ≫= k).
Proof.
  intros Hm Hk p j Hs. destruct (Hm p j Hs) as (j' & Hj & Hs'). exists j'. split; [done|]. unfold mbind, st_bind.
  destruct (m p) as [[x|e| |] p']; cbn in *; try done. unfold shows. by rewrite (Hk x p').
Qed.

(** Evaluates the check of a transition. *)
Ltac eval_check :=
  match goal with |- context[check_next_signaling_state ?a ?b ?c ?d] =>
    let r := eval vm_compute in (check_next_signaling_state a b c d) in
    change (check_next_signaling_state a b c d) with r
  end.

(** The state that is asked for, where JSEP has a step *)
Lemma set_description_simulates sd d op : rs_parsed sd = Some d -> unmarshal_description (rs_sdp sd) = Ok d ->
  (op = StateChangeOp_SetLocal -> rs_sdp_type sd = RTCSdpType_Offer \/ rs_sdp sd <> []) ->
  simulates (set_description sd op).
Proof.
  intros Hd Hu Hne p j Hs. pose proof Hs as Hs0. unfold shows, signaling, jsep_fields in Hs0.
  injection Hs0 as Hstate Hclosed Hanswer Hcl Hcr Hpend.
  assert (Hdesc : forall t, rs_sdp_type sd = t -> described t sd) by (intros t Ht; split; [done|by exists d]).
  unfold set_description, signaling_state. st_run. rewrite Hclosed. case_bool_decide as Ht0; [by exists j; split; [left|]|].
  rewrite Hstate. destruct j as [c ph]. cbn [j_phase j_current] in *.
  destruct op; [specialize (Hne eq_refl)|clear Hne]; unfold set_local, set_remote, transition; st_run; rewrite ?Hanswer;
    destruct (rs_sdp_type sd) eqn:Ht; try done; specialize (Hdesc _ eq_refl);
    repeat (case_bool_decide; cbn [negb]; try (by exists (mkJsep c ph); split; [left|]));
    try (by destruct Hne); destruct ph; cbn; eval_check; cbn; try (by eexists; split; [left|exact Hs]);
    injection Hpend as Hpl Hpr;
    let go C := (eexists; split; [right; eapply C, Hdesc|unfold shows, signaling, jsep_fields; cbn; congruence]) in
    first [go jsep_offer|go jsep_remote_offer|go jsep_pranswer|go jsep_answer|go jsep_final_answer].
Qed.

Lemma simulates_raise {A} e : simulates (A := A) (st_raise e).
Proof. by apply simulates_stable. Qed.
#[local] Hint Resolve simulates_raise : stable.

Lemma set_local_description_simulates seed desc : simulates (set_local_description seed desc).
Proof.
  unfold set_local_description. apply simulates_before; [stab|]. intros closed _ _ _.
  destruct closed; [auto with stable|]. apply simulates_before; [stab|]. intros last_offer _ _ _.
  apply simulates_before; [stab|]. intros sdp p p' Hsdp. apply simulates_before; [stab|]. intros parsed q q' [= Hparsed _].
  apply simulates_after; [|intros; stab]. eapply set_description_simulates; [done..|]. intros _. cbn.
  destruct (rs_sdp desc); [|by right; injection Hsdp as <-]. case_bool_decide; [by left|discriminate Hsdp].
Qed.

Lemma set_remote_description_simulates seed id desc : simulates (set_remote_description seed id desc).
Proof.
  unfold set_remote_description. apply simulates_before; [stab|]. intros closed _ _ _.
  destruct closed; [auto with stable|]. apply simulates_before; [stab|]. intros parsed q q' [= Hparsed _].
  apply simulates_after; [|intros; stab]. by eapply set_description_simulates.
Qed.

Lemma peer_event_simulates e : simulates (peer_event e).
Proof.
  destruct (negotiates e) eqn:He; [|by apply simulates_stable, peer_event_signaling].
  destruct e; try discriminate He; [apply set_local_description_simulates|apply set_remote_description_simulates].
Qed.

Lemma peer_step_simulates p j p' : shows p j -> peer_step p p' -> exists j', jsep_move j j' /\ shows p' j'.
Proof.
  intros Hs Hp. revert Hs. destruct Hp as [e p p' _ He|e p err p' _ He]; intros Hs;
    pose proof (peer_event_simulates e p j Hs) as H; by rewrite He in H.
Qed.

Lemma steps_show p p' j : shows p j -> rtc peer_step p p' -> exists j', rtc jsep_step j j' /\ shows p' j'.
Proof.
  intros Hs Hr. revert j Hs. induction Hr as [p|p p1 p2 Hp _ IH]; intros j Hs; [by exists j|].
  destruct (peer_step_simulates _ _ _ Hs Hp) as (j' & Hj & Hs'). destruct (IH _ Hs') as (k & Hk & Hsk).
  exists k. split; [|done]. destruct Hj as [->|Hj]; [done|by eapply rtc_l].
Qed.

Lemma reachable_shows p : peer_reachable p -> exists j, rtc jsep_step jsep_start j /\ shows p j.
Proof. intros [cert Hr]. by apply (steps_show _ _ jsep_start) in Hr. Qed.

(** C14. The negotiation of a peer connection refines the state machine of JSEP: the
    signalling state of every peer that can be reached, and its current and pending
    descriptions, are those of a state the machine can reach; each step of the peer (a
    call, a datagram, a timer, an operation, whether it succeeds or fails) is one step of the
    machine or none.  So the pending descriptions are those the signalling state
    announces, a current pair is an offer with an answer that was set after it, and
    every description that is kept comes with what its text parses to. *)
Theorem peer_refines_jsep p p' : peer_reachable p -> peer_step p p' ->
  exists j j', rtc jsep_step jsep_start j /\ shows p j /\ jsep_move j j' /\ shows p' j'.
Proof.
  intros Hr Hp. destruct (reachable_shows p Hr) as (j & Hj & Hs).
  destruct (peer_step_simulates p j p' Hs Hp) as (j' & Hm & Hs'). eauto 6.
Qed.

(** C38. A description that offers, when it comes from the peer, ends the
    negotiation: no answer can be made, none of the descriptions that
    could follow is accepted, a rollback neither, and the connection stays in
    [HaveRemoteOffer] whatever happens. *)
Theorem remote_offer_is_final p p' : peer_reachable p -> signaling_state p = RTCSignalingState_HaveRemoteOffer ->
  rtc peer_step p p' -> signaling p' = signaling p.
Proof.
  intros Hr Hst Hp. destruct (reachable_shows p Hr) as (j & _ & Hs).
  assert (Hj : exists c o, j = mkJsep c (JRemoteOffer o)).
  { destruct j as [c ph]. pose proof Hs as Hs'. unfold shows, signaling, jsep_fields in Hs'. injection Hs' as Hz _ _ _ _ _.
    unfold signaling_state in Hst. rewrite Hz in Hst. destruct ph; try discriminate Hst. by eexists _, _. }
  destruct Hj as (c & o & ->). clear Hr Hst. rewrite Hs.
  induction Hp as [p|p p1 p2 H1 _ IH]; [done|]. apply IH.
  destruct (peer_step_simulates _ _ _ Hs H1) as (j' & [->|Hm] & Hs'); [done|inversion Hm].
Qed.

(** * The agent of the peer *)
Definition agent_of (p : Peer) := (ig_agent (pc_ice_gatherer p), ig_checks (pc_ice_gatherer p)).

(** The agent, if there is one, is in a state an agent of [IceSystem.v] can reach. *)
Definition agent_known (p : Peer) : Prop :=
  match ig_agent (pc_ice_gatherer p) with
  | Some agent => reachable (ig_checks (pc_ice_gatherer p), agent)
  | None => True
  end.

#[local] Instance agent_of_framed_ops : FramedOps agent_of.
Proof. by split. Qed.

Lemma agent_known_of p p' : agent_of p = agent_of p' -> agent_known p -> agent_known p'.
Proof. unfold agent_of, agent_known. by intros [= <- <-]. Qed.

Abbreviation knows m := (partial agent_known m (fun _ => agent_known) (fun _ => agent_known)).

Lemma knows_stable {A} (m : PM A) : stable agent_of m -> knows m.
Proof. intros Hm. eapply partial_keep; [|exact Hm]. exact agent_known_of. Qed.

Lemma knows_bind {A B} (m : PM A) (k : A -> PM B) : knows m -> (forall x, knows (k x)) -> knows (m ≫= k).
Proof. intros Hm Hk. by eapply partial_bind. Qed.

Lemma knows_try {A F} (m : PM A) : knows m -> knows (st_try (F := F) m).
Proof. intros Hm p Hp. specialize (Hm p Hp). unfold st_try. by destruct (m p) as [[] p']. Qed.

Lemma on_outputs_agent_of l p : agent_of (fold_left (fun p o => on_output o p) l p) = agent_of p.
Proof.
  revert p. induction l as [|o l IH]; intros p; [done|]. cbn. rewrite IH.
  unfold on_output, ice_state_change, update_connection_state. repeat case_match; reflexivity.
Qed.

Lemma agent_event_knows e : event_wf e -> knows (agent_event e).
Proof.
  intros He p Hp. unfold agent_event. unfold agent_known in Hp.
  destruct (ig_agent (pc_ice_gatherer p)) as [agent|] eqn:Ha; [|unfold agent_known; by rewrite Ha].
  destruct Hp as (s0 & Hi & Hr). destruct (ice_event e _ agent) as [r agent'] eqn:E.
  destruct r as [k'|err| |]; try done;
    (eapply agent_known_of; [symmetry; apply on_outputs_agent_of|]); exists s0; (split; [exact Hi|]);
    (eapply rtc_r; [exact Hr|]); [by eapply step_ok|by eapply step_err].
Qed.

Lemma gatherer_config_wf : config_wf gatherer_config.
Proof. split; vm_compute; by split || done. Qed.

Lemma create_agent_knows seed : knows (create_agent seed).
Proof.
  unfold create_agent. apply partial_get. intros g. case_match; [by apply partial_ret; intros p []|].
  eapply partial_bind with (Q0 := fun agent p => agent_known p /\ reachable (mkChecks ConnUnspecified (as_instant seed), agent)).
  - apply partial_lift; [|by intros ? ? ? []]. intros agent p Hn [Hp _]. split; [done|].
    destruct (Agent_new _ _ _ _ _ _) as [a|?| |] eqn:Ha; try discriminate Hn. injection Hn as ->.
    eexists. split; [|apply rtc_refl]. by eapply init_new; [exact gatherer_config_wf|].
  - intros agent. apply partial_modify_last. by intros p [_ Hr].
Qed.

Lemma knows_when b (m : PM unit) : knows m -> knows (st_when b m).
Proof. intros Hm. apply partial_when; [done|]. done. Qed.

Lemma knows_for {A} (l : list A) (body : A -> PM unit) : (forall a, knows (body a)) -> knows (st_for l body).
Proof. apply partial_for. Qed.

Create HintDb knows.
#[local] Hint Resolve create_agent_knows knows_try knows_when knows_for : knows.

(** Follows a program to the calls that change the agent. *)
Ltac know :=
  repeat first
    [ solve [auto with knows nocore]
    | solve [apply knows_stable; first [apply stable_get | apply stable_lift | apply stable_raise | apply stable_ret
                                       | apply stable_modify; reflexivity]]
    | apply knows_bind; [|intros]
    | apply knows_try | apply knows_when | apply knows_for; intros
    | case_match
    | progress cbv zeta ].

Lemma gather_knows seed : knows (gather seed).
Proof. unfold gather. know. Qed.

Lemma run_gathering_knows listen id ips : Forall ip_wf ips -> knows (run_gathering listen id ips).
Proof. intros Hips. unfold run_gathering. know. by apply agent_event_knows. Qed.

Lemma get_local_parameters_knows seed : knows (get_local_parameters seed).
Proof. unfold get_local_parameters. know. Qed.

Lemma get_local_candidates_knows seed : knows (get_local_candidates seed).
Proof. unfold get_local_candidates. know. Qed.

Lemma ensure_gatherer_knows seed : knows (ensure_gatherer seed).
Proof. unfold ensure_gatherer. know. Qed.
#[local] Hint Resolve gather_knows get_local_parameters_knows get_local_candidates_knows ensure_gatherer_knows : knows.

Lemma transport_add_remote_candidate_knows seed id c : knows (transport_add_remote_candidate seed id c).
Proof. unfold transport_add_remote_candidate. know. by apply agent_event_knows. Qed.
#[local] Hint Resolve transport_add_remote_candidate_knows : knows.

Lemma create_offer_knows seed random ns id : knows (create_offer seed random ns id).
Proof. unfold create_offer, generate_unmatched_sdp, generate_matched_sdp, generate_sdp. know. Qed.

Lemma with_local_candidates_knows seed id d : knows (with_local_candidates seed id d).
Proof.
  intros p Hp. unfold with_local_candidates. destruct d as [d|]; [|done].
  pose proof (get_local_candidates_knows seed p Hp) as H.
  assert (Hn : fst (get_local_candidates seed p) <> Panic -> fst (get_local_candidates seed p) <> OutOfFuel ->
               agent_known (snd (get_local_candidates seed p))) by by destruct (get_local_candidates seed p) as [[] p'].
  clear H. destruct (get_local_candidates seed p) as [gathered p']. cbn [fst snd] in *.
  destruct gathered; [| |done|done]; specialize (Hn ltac:(done) ltac:(done)); by destruct (populate_local_candidates _ _ _ _).
Qed.
#[local] Hint Resolve create_offer_knows with_local_candidates_knows : knows.

Lemma local_description_knows seed id : knows (local_description seed id).
Proof. unfold local_description, pending_local_description, current_local_description. know. Qed.

Lemma set_description_knows sd op : knows (set_description sd op).
Proof. unfold set_description, set_local, set_remote, transition. know. Qed.
#[local] Hint Resolve local_description_knows set_description_knows : knows.

Lemma ice_transport_start_knows seed params role : knows (ice_transport_start seed params role).
Proof. unfold ice_transport_start. know; by apply agent_event_knows. Qed.
#[local] Hint Resolve ice_transport_start_knows : knows.

Lemma framed_knows {A} (m : PM A) : stable agent_of m -> knows m.
Proof. apply knows_stable. Qed.
#[local] Hint Extern 1 (partial agent_known _ _ _) => simple apply framed_knows; auto with stable nocore : knows.

Lemma next_operation_knows seed now : knows (next_operation seed now).
Proof. unfold next_operation, run_operation. know. Qed.

Lemma peer_event_knows e : peer_event_wf e -> knows (peer_event e).
Proof.
  destruct e; cbn [peer_event peer_event_wf]; intros Hwf; try solve [know].
  - apply framed_knows. intros p. pose proof (on_channel_framed agent_of i (fun d => (tt, on_open d)) tt p) as H. by destruct on_channel.
  - apply framed_knows. intros p.
    pose proof (on_channel_framed agent_of i (fun d => let '(_, d) := detach d in (tt, d)) tt p) as H. by destruct on_channel.
  - by apply run_gathering_knows.
  - case_match; [|know]. apply agent_event_knows. by destruct e.
Qed.

Lemma reachable_knows p : peer_reachable p -> agent_known p.
Proof.
  intros [cert Hr]. assert (H0 : agent_known (Peer_new cert)) by done. revert H0.
  induction Hr as [p|p p1 p2 Hp _ IH]; [done|]. intros H0. apply IH.
  revert H0. destruct Hp as [e p p' Hwf He|e p err p' Hwf He]; intros H0;
    pose proof (peer_event_knows e Hwf p H0) as H; by rewrite He in H.
Qed.

(** C16. The ICE agent of a peer connection stays within [IceSystem.v]. The agent that
    the gatherer makes and all that the peer connection calls on it, in whatever
    order with what the network does, is a run of the system of ICE events: in every
    state a peer can reach, the agent is one its system can reach and its stores are
    well formed, and whatever event comes next - any datagram, from anywhere - the
    handlers included, is handled: there is no panic but for an overflow in a build that checks for it. *)
Theorem peer_agent_sound {laws : IceEnvLaws env} p agent e : peer_reachable p -> ig_agent (pc_ice_gatherer p) = Some agent -> event_wf e ->
  reachable (ig_checks (pc_ice_gatherer p), agent) /\ agent_wf (ag_internal agent) /\ tame (fst (agent_event e p)).
Proof.
  intros Hr%reachable_knows Ha He. unfold agent_known in Hr. rewrite Ha in Hr. pose proof (reachable_wf _ _ Hr) as Hw.
  split_and!; [done..|]. unfold agent_event. rewrite Ha.
  pose proof (ice_event_keeps e (ig_checks (pc_ice_gatherer p)) He agent Hw) as H.
  by destruct (ice_event e _ agent) as [[] agent'].
Qed.

(** * The transports *)

(** What the handlers of the agent and the calls of the negotiation leave alone *)
Definition transports (p : Peer) :=
  (pc_dtls_transport p, it_mux (pc_ice_transport p), pc_sctp_transport p, pc_handler_dtls_state p, pc_is_closed p, pc_stage p).

#[local] Instance transports_framed : Framed transports.
Proof. split; try done. intros g p Hg. unfold transports. cbn. by rewrite Hg. Qed.

Definition channel_up (d : RTCDataChannel) : Prop := is_Some (dc_data_channel d) \/ ready_state d = DcsOpen.

(** A connection is made on the one below it, each only once. *)
Record layered (p : Peer) : Prop := {
  ly_handler : pc_handler_dtls_state p = 0;
  ly_open : pc_is_closed p = false;
  ly_dtls : dt_conn (pc_dtls_transport p) = true ->
    dtls_transport_state p = RTCDtlsTransportState_Connected /\ is_Some (it_mux (pc_ice_transport p));
  ly_sctp : is_Some (st_association (pc_sctp_transport p)) ->
    dt_conn (pc_dtls_transport p) = true /\ st_is_started (pc_sctp_transport p) = true;
  ly_channels i d : st_data_channels (pc_sctp_transport p) !! i = Some d -> channel_up d ->
    is_Some (st_association (pc_sctp_transport p))
}.

Definition no_association (p : Peer) : Prop := st_association (pc_sctp_transport p) = None.
Definition dtls_free (p : Peer) : Prop := dtls_transport_state p <> RTCDtlsTransportState_Connecting.

(** ... and what is under way is above what is there. *)
Definition staged (p : Peer) : Prop :=
  layered p /\
  match pc_stage p with
  | OpIdle | OpIce _ => dtls_free p
  | OpDtls _ _ => dtls_transport_state p = RTCDtlsTransportState_Connecting /\ is_Some (it_mux (pc_ice_transport p))
  | OpSctp _ => dtls_free p /\ dt_conn (pc_dtls_transport p) = true /\ st_is_started (pc_sctp_transport p) = true
                /\ no_association p
  end.

Lemma staged_of p p' : transports p = transports p' -> staged p -> staged p'.
Proof.
  unfold transports, staged, dtls_free, no_association, dtls_transport_state. intros [= H1 H2 H3 H4 H5 H6] [[L1 L2 L3 L4 L5] Hs].
  unfold dtls_transport_state in *. split; [split|]; unfold dtls_transport_state;
    rewrite <- ?H1, <- ?H2, <- ?H3, <- ?H4, <- ?H5, <- ?H6; by auto.
Qed.

(** No handshake of DTLS is running. *)
Definition settled (p : Peer) : Prop := layered p /\ dtls_free p.

Lemma settled_of p p' : transports p = transports p' -> settled p -> settled p'.
Proof.
  intros Ht [Hl Hf]. destruct (staged_of (p <| pc_stage := OpIdle |>) (p' <| pc_stage := OpIdle |>)) as [Hl' Hf'].
  - unfold transports in *. cbn. congruence.
  - split; [|exact Hf]. by destruct Hl.
  - split; [|exact Hf']. by destruct Hl'.
Qed.

Lemma rtc_open_up now d o r d' o' : rtc_open now (d, o) = (r, (d', o')) ->
  (is_Some o <-> is_Some o') /\ (channel_up d' -> channel_up d \/ is_Some o').
Proof.
  unfold rtc_open. destruct o as [a|]; [|by intros [= <- <- <-]; auto].
  case_match; [by intros [= <- <- <-]; auto|].
  destruct (DataChannel.dial _ _ _ _ _) as [[] a']; intros [= <- <- <-]; (split; [by split; eauto|by right; eexists]).
Qed.

Lemma settled_channels p t : settled p -> (is_Some (st_association t) <-> is_Some (st_association (pc_sctp_transport p))) ->
  st_is_started t = st_is_started (pc_sctp_transport p) ->
  (forall i d, st_data_channels t !! i = Some d -> channel_up d -> is_Some (st_association (pc_sctp_transport p))) ->
  settled (p <| pc_sctp_transport := t |>).
Proof.
  intros [[L1 L2 L3 L4 L5] Hf] Ha Hst Hd. split; [split|exact Hf]; try done; cbn.
  - intros H%Ha. rewrite Hst. by apply L4.
  - intros i d Hi Hup. apply Ha. by eapply Hd.
Qed.

Lemma channel_open_settled now i : partial settled (channel_open now i) (fun _ => settled) (fun _ => settled).
Proof.
  intros p Hp. unfold channel_open. destruct (st_data_channels _ !! i) as [d|] eqn:Hi; [|done].
  destruct (rtc_open now _) as [r [d' o']] eqn:E. apply rtc_open_up in E as [Ho Hup].
  assert (settled (p <| pc_sctp_transport := (pc_sctp_transport p) <| st_data_channels ::= <[i := d']> |> <| st_association := o' |> |>)).
  { apply settled_channels; [done|done|done|]. cbn. intros j x. destruct Hp as [[_ _ _ _ L5] _].
    destruct (decide (j = i)) as [->|Hj].
    - rewrite list_lookup_insert_eq by (by eapply lookup_lt_Some). intros [= <-] Hx. destruct (Hup Hx) as [Hd|Hd]; [by eapply L5|by apply Ho].
    - rewrite list_lookup_insert_ne by done. apply L5. }
  by destruct r.
Qed.

Lemma partial_fold {S E A B} (I : S -> Prop) (l : list A) (body : B -> A -> ST S E B) b R :
  (forall b a, partial I (body b a) (fun _ => I) R) -> partial I (st_fold l body b) (fun _ => I) R.
Proof.
  intros H. revert b. induction l as [|a l IH]; intros b; cbn [st_fold]; [by apply partial_ret|].
  eapply partial_bind; [apply H|]. intros b'. apply IH.
Qed.

Lemma partial_try {S E F A} Pre (m : ST S E A) (Q : A -> S -> Prop) R (R' : F -> S -> Prop) :
  partial Pre m Q R -> partial Pre (st_try m) (fun r => match r with inl e => R e | inr a => Q a end) R'.
Proof. intros Hm p Hp. specialize (Hm p Hp). unfold st_try. by destruct (m p) as [[] p']. Qed.

Abbreviation never := (fun (_ : WebrtcError) (_ : Peer) => False).

Lemma open_data_channels_settled now : partial settled (open_data_channels now) (fun _ => settled) never.
Proof.
  unfold open_data_channels. apply partial_get. intros n. eapply partial_pre; [by intros p [H _]; exact H|].
  apply partial_fold. intros b i. apply partial_get. intros [d|]; [|by apply partial_ret; intros p []].
  case_decide; [|by apply partial_ret; intros p []].
  eapply partial_bind; [eapply partial_pre; [by intros p [H' _]; exact H'|apply partial_try, channel_open_settled]|].
  intros []; [by apply partial_ret|]. apply partial_lift; [done|]. intros e p He. by apply arith_not_Err in He.
Qed.

(** The stage that follows *)
Lemma staged_settled p stage : settled p -> match stage with OpIdle | OpIce _ => True | _ => False end ->
  staged (p <| pc_stage := stage |>).
Proof. intros [[L1 L2 L3 L4 L5] Hf] Hs. split; [by split|]. by destruct stage. Qed.

Lemma set_idle : partial settled (set_stage OpIdle) (fun _ => staged) never.
Proof. intros p Hp. by apply (staged_settled p OpIdle). Qed.

Lemma settled_no_association p : settled p -> no_association p ->
  settled (p <| pc_sctp_transport ::= fun t => t <| st_association := None |> |>).
Proof.
  unfold no_association. intros [[L1 L2 L3 L4 L5] Hf] Hn. split; [split|]; try done; cbn; [by intros []|].
  intros i d Hi Hd. specialize (L5 i d Hi Hd). by rewrite Hn in L5.
Qed.

Lemma sctp_started_staged now r :
  partial (fun p => settled p /\ (forall e, r = inl e -> no_association p)) (sctp_started now r) (fun _ => staged) never.
Proof.
  unfold sctp_started. destruct r as [e|[]].
  - intros p [Hp Hn]. specialize (Hn e eq_refl). pose proof (settled_no_association p Hp Hn) as Hp'. unfold no_association in Hn.
    unfold st_try, sctp_transport_stop. st_run. rewrite Hn. cbn.
    apply (staged_settled (p <| pc_sctp_transport ::= fun t => t <| st_association := None |> |>
                             <| pc_sctp_transport ::= fun t => t <| st_state := _ |> |>) OpIdle); [|done].
    destruct Hp' as [[L1 L2 L3 L4 L5] Hf]. by split; [split|].
  - eapply partial_bind; [eapply partial_pre; [by intros p [H _]; exact H|apply open_data_channels_settled]|].
    intros opened. eapply partial_modify; [|exact set_idle]. intros p [[L1 L2 L3 L4 L5] Hf]. by split; [split|].
Qed.

Lemma start_sctp_staged now op : partial settled (start_sctp now op) (fun _ => staged) never.
Proof.
  unfold start_sctp. eapply partial_bind with (Q0 := fun r p => settled p /\
    match r with inl _ => no_association p | inr true => dt_conn (pc_dtls_transport p) = true /\ st_is_started (pc_sctp_transport p) = true /\ no_association p
    | _ => True end).
  - intros p Hp. unfold st_try, sctp_transport_start. st_run.
    destruct (st_is_started (pc_sctp_transport p)) eqn:Hst; [done|].
    assert (Hn : no_association p).
    { unfold no_association. destruct Hp as [[_ _ _ L4 _] _]. destruct (st_association _) eqn:Ha; [|done].
      destruct L4 as [_ L4]; [by eexists|congruence]. }
    assert (settled (p <| pc_sctp_transport ::= fun t => t <| st_is_started := true |> |>)).
    { destruct Hp as [[L1 L2 L3 L4 L5] Hf]. split; [split|]; try done. cbn. unfold no_association in Hn. rewrite Hn. by intros []. }
    cbn. by destruct (dt_conn (pc_dtls_transport p)) eqn:Hc.
  - intros [e|[]].
    + eapply partial_pre; [|apply sctp_started_staged]. by intros p [Hp Hn].
    + intros p [[Hl Hf] Hn]. split; [by destruct Hl|done].
    + eapply partial_pre; [|apply sctp_started_staged]. by intros p [Hp _].
Qed.

Lemma maybe_start_sctp_staged now op : partial settled (maybe_start_sctp now op) (fun _ => staged) never.
Proof. unfold maybe_start_sctp. repeat case_match; [apply start_sctp_staged|apply set_idle..]. Qed.

Lemma dtls_started_staged now op : partial settled (dtls_started now op) (fun _ => staged) never.
Proof.
  unfold dtls_started. eapply partial_modify; [|apply maybe_start_sctp_staged]. intros p Hp. eapply settled_of; [|exact Hp].
  unfold update_connection_state. by case_match.
Qed.

(** The DTLS handshake may run. *)
Definition connecting (p : Peer) : Prop :=
  layered p /\ dtls_transport_state p = RTCDtlsTransportState_Connecting /\ is_Some (it_mux (pc_ice_transport p)).

Lemma dtls_transport_connected_settled r :
  partial connecting (dtls_transport_connected r) (fun _ => settled) (fun _ => settled).
Proof.
  intros p ([L1 L2 L3 L4 L5] & Hc & Hm).
  assert (Hn : dt_conn (pc_dtls_transport p) <> true) by (intros Hd; destruct (L3 Hd); congruence).
  assert (Ha : forall A : Prop, is_Some (st_association (pc_sctp_transport p)) -> A) by (intros A H; by destruct (L4 H)).
  destruct r as [e|[]]; cbn; (split; [split|]); cbn; try done; intros H; try done; by apply Ha.
Qed.

Lemma dtls_outcome_settled r :
  partial connecting (st_try (dtls_transport_connected r)) (fun _ => settled) never.
Proof.
  eapply partial_post; [|eapply partial_try, dtls_transport_connected_settled]. by intros [].
Qed.

Definition on_mux (p : Peer) : Prop := settled p /\ is_Some (it_mux (pc_ice_transport p)).

Lemma prepare_transport_connecting params : partial on_mux (prepare_transport params) (fun _ => connecting) (fun _ => settled).
Proof.
  unfold prepare_transport. apply partial_get. intros ice. case_bool_decide; [by apply partial_raise; intros p [[Hp _] _]|].
  apply partial_get. intros state. case_bool_decide as Hst; cbn [negb]; [|by apply partial_raise; intros p [[[Hp _] _] _]].
  apply partial_modify with (Pre' := fun p => on_mux p /\ dtls_transport_state p = RTCDtlsTransportState_New).
  - intros p [[[[[L1 L2 L3 L4 L5] Hf] Hm] _] Hs]. split; [|unfold dtls_transport_state in *; cbn; congruence].
    split; [|done]. by split; [split|].
  - apply partial_get. intros [|cert certs]; [by apply partial_raise; intros p [[[Hp _] _] _]|].
    unfold dtls_state_change. eapply partial_modify with (Pre' := connecting); [|by apply partial_ret].
    intros p [[[[[L1 L2 L3 L4 L5] Hf] Hm] Hn] _]. split_and!; [split|..]; try done.
    intros Hd. destruct (L3 Hd). unfold dtls_transport_state in *. congruence.
Qed.

Lemma start_dtls_staged now op : partial on_mux (start_dtls now op) (fun _ => staged) never.
Proof.
  unfold start_dtls. eapply partial_bind with (Q0 := fun r p => match r with inl _ => settled p | inr _ => connecting p end).
  - eapply partial_post; [|apply partial_try with (Q := fun _ => connecting) (R := fun _ => settled)]; [by intros []|].
    unfold dtls_transport_start. apply partial_get. intros [mux|].
    + eapply partial_modify with (Pre' := on_mux).
      * intros p [[[[L1 L2 L3 L4 L5] Hf] Hm] _]. split; [|by eexists]. split; [split|]; try done.
        intros H. split; [by apply L3|by eexists].
      * eapply partial_bind; [apply prepare_transport_connecting|]. intros [role config]. by apply partial_ret.
    + intros p [[_ [mux Hm]] Hn]. congruence.
  - intros [e|config]; [apply dtls_started_staged|].
    destruct (validate_config true config) as [[]|e| |];
      [|eapply partial_bind; [apply dtls_outcome_settled|]; intros r; apply dtls_started_staged|..];
      intros p ([L1 L2 L3 L4 L5] & Hc & Hm); by split; [split|].
Qed.

Lemma ice_connected_staged now op : partial settled (ice_connected now op) (fun _ => staged) never.
Proof.
  unfold ice_connected, ice_transport_connected. eapply partial_modify; [|apply start_dtls_staged].
  intros p [[L1 L2 L3 L4 L5] Hf]. split; [split; [split|]|]; try done. intros H. split; [by apply L3|by eexists].
Qed.

Lemma run_operation_staged seed now op : partial settled (run_operation seed now op) (fun _ => staged) never.
Proof.
  unfold run_operation. eapply partial_bind with (Q0 := fun _ => settled).
  - eapply partial_post; [|apply partial_try; eapply partial_keep; [exact settled_of|auto with stable]]. by intros [].
  - intros [e|[]]; [apply maybe_start_sctp_staged| |apply ice_connected_staged].
    intros p Hp. by apply (staged_settled p (OpIce op)).
Qed.

Lemma next_operation_staged seed now : partial staged (next_operation seed now) (fun _ => staged) (fun _ => staged).
Proof.
  unfold next_operation. apply partial_get. intros stage. apply partial_get. intros ops.
  destruct stage; try (by apply partial_ret; intros p [[H _] _]). destruct ops as [|op ops]; [by apply partial_ret; intros p [[H _] _]|].
  eapply partial_err; [|eapply partial_modify; [|apply run_operation_staged]]; [done|].
  intros p [[[Hl Hs] Hst] _]. rewrite Hst in Hs. split; [|done]. by destruct Hl.
Qed.

Lemma operation_ice_staged now : partial staged (operation_ice now) (fun _ => staged) (fun _ => staged).
Proof.
  unfold operation_ice. apply partial_get. intros stage. apply partial_get. intros connected.
  destruct stage; try (by apply partial_ret; intros p [[H _] _]). destruct connected; [|by apply partial_ret; intros p [[H _] _]].
  eapply partial_err; [|eapply partial_pre; [|apply ice_connected_staged]]; [done|].
  intros p [[[Hl Hs] Hst] _]. rewrite Hst in Hs. done.
Qed.

Lemma operation_dtls_staged now r : partial staged (operation_dtls now r) (fun _ => staged) (fun _ => staged).
Proof.
  unfold operation_dtls. apply partial_get. intros stage. destruct stage; try (by apply partial_ret; intros p [H _]).
  eapply partial_err with (R' := never); [done|].
  eapply partial_bind; [|intros ?; apply dtls_started_staged].
  eapply partial_pre; [|apply dtls_outcome_settled]. intros p [[Hl Hs] Hst]. by rewrite Hst in Hs.
Qed.

Lemma operation_sctp_staged now r : partial staged (operation_sctp now r) (fun _ => staged) (fun _ => staged).
Proof.
  unfold operation_sctp. apply partial_get. intros stage. destruct stage; try (by apply partial_ret; intros p [H _]).
  eapply partial_err with (R' := never); [done|]. destruct r as [e|a].
  - eapply partial_pre; [|apply sctp_started_staged]. intros p [[[L1 L2 L3 L4 L5] Hs] Hst]. rewrite Hst in Hs.
    destruct Hs as (? & ? & ? & ?). by split; [split; [split|]|].
  - unfold sctp_transport_connected. eapply partial_modify; [|apply sctp_started_staged].
    intros p [[[L1 L2 L3 L4 L5] Hs] Hst]. rewrite Hst in Hs. destruct Hs as (Hf & Hc & Hi & Hn). split; [|done].
    by split; [split|].
Qed.

(** A call that leaves the stage alone *)
Lemma staged_kept {A} (m : PM A) : stable transports m -> partial staged m (fun _ => staged) (fun _ => staged).
Proof. intros Hm. eapply partial_keep; [exact staged_of|exact Hm]. Qed.

Lemma staged_channels p t : staged p -> (is_Some (st_association t) <-> is_Some (st_association (pc_sctp_transport p))) ->
  st_is_started t = st_is_started (pc_sctp_transport p) ->
  (forall i d, st_data_channels t !! i = Some d -> channel_up d -> is_Some (st_association (pc_sctp_transport p))) ->
  staged (p <| pc_sctp_transport := t |>).
Proof.
  intros [[L1 L2 L3 L4 L5] Hs] Ha Hst Hd. split.
  - split; try done; cbn; [intros H%Ha; rewrite Hst; by apply L4|]. intros i d Hi Hup. apply Ha. by eapply Hd.
  - cbn. rewrite Hst. destruct (pc_stage p); try done. destruct Hs as (? & ? & ? & Hn). split_and!; try done.
    unfold no_association in *. cbn. rewrite Hn in Ha. destruct (st_association t); [|done]. destruct Ha as [Ha _]. by destruct Ha.
Qed.

Lemma up_replaced (l : list RTCDataChannel) (Q : Prop) i d d' : l !! i = Some d -> (channel_up d' -> channel_up d \/ Q) ->
  (forall j x, l !! j = Some x -> channel_up x -> Q) -> forall j x, <[i := d']> l !! j = Some x -> channel_up x -> Q.
Proof.
  intros Hi Hup Hl j x. destruct (decide (j = i)) as [->|Hj].
  - rewrite list_lookup_insert_eq by (by eapply lookup_lt_Some). intros [= <-] Hx.
    destruct (Hup Hx) as [H|H]; [by eapply Hl|done].
  - rewrite list_lookup_insert_ne by done. apply Hl.
Qed.

Lemma channel_open_staged now i : partial staged (channel_open now i) (fun _ => staged) (fun _ => staged).
Proof.
  intros p Hp. unfold channel_open. destruct (st_data_channels _ !! i) as [d|] eqn:Hi; [|done].
  destruct (rtc_open now _) as [r [d' o']] eqn:E. apply rtc_open_up in E as [Ho Hup].
  assert (staged (p <| pc_sctp_transport := (pc_sctp_transport p) <| st_data_channels ::= <[i := d']> |> <| st_association := o' |> |>)).
  { apply staged_channels; [done|done|done|]. cbn. destruct Hp as [[_ _ _ _ L5] _]. eapply up_replaced; [done| |exact L5].
    by rewrite Ho. }
  by destruct r.
Qed.

Lemma on_channel_staged {A} i (g : RTCDataChannel -> A * RTCDataChannel) none p :
  (forall d, channel_up (snd (g d)) -> channel_up d) -> staged p -> staged (snd (on_channel i g none p)).
Proof.
  intros Hg Hp. unfold on_channel. destruct (st_data_channels _ !! i) as [d|] eqn:Hi; [|done].
  specialize (Hg d). destruct (g d) as [a d']. apply (staged_channels p _ Hp); [done|done|].
  destruct Hp as [[_ _ _ _ L5] _]. eapply up_replaced; [done| |exact L5]. auto.
Qed.

Lemma create_data_channel_staged now label protocol :
  partial staged (create_data_channel now label protocol) (fun _ => staged) (fun _ => staged).
Proof.
  unfold create_data_channel. apply partial_get. intros []; [by apply partial_raise; intros p []|].
  apply partial_get. intros i. eapply partial_modify with (Pre' := staged).
  - intros p [[Hp _] _]. apply (staged_channels p _ Hp); [done|done|]. cbn. intros j d. destruct Hp as [[_ _ _ _ L5] _].
    rewrite lookup_app. destruct (_ !! j) as [x|] eqn:Hj; [intros [= <-]; by eapply L5|].
    intros [_ [= <-]]%list_lookup_singleton_Some [Hu|Hu]; [by destruct Hu|done].
  - apply partial_get. intros state. eapply partial_bind with (Q0 := fun _ => staged); [|intros _; by apply partial_ret].
    apply partial_when; [intros _; eapply partial_pre; [|apply channel_open_staged]; by intros p []|by intros _ p []].
Qed.

Lemma peer_event_staged e : partial staged (peer_event e) (fun _ => staged) (fun _ => staged).
Proof.
  destruct e; cbn [peer_event].
  - apply staged_kept. unfold create_offer, generate_unmatched_sdp, generate_matched_sdp. stab.
  - apply staged_kept. unfold set_local_description, set_description, set_local, set_remote, transition. stab.
  - apply staged_kept. unfold set_remote_description, set_description, set_local, set_remote, transition. stab.
  - apply staged_kept. stab.
  - apply staged_kept. stab.
  - eapply partial_bind; [apply create_data_channel_staged|]. intros. by apply partial_ret.
  - intros p Hp. pose proof (on_channel_staged i (fun d => (tt, on_open d)) tt p) as H. destruct on_channel.
    apply H; [|done]. intros d. cbn. unfold on_open, do_open. repeat case_match; exact id.
  - intros p Hp. pose proof (on_channel_staged i (fun d => let '(_, d) := detach d in (tt, d)) tt p) as H.
    destruct on_channel. apply H; [|done]. intros d. unfold detach. destruct (dc_data_channel d); exact id.
  - apply staged_kept. stab.
  - apply staged_kept. stab.
  - apply partial_modify_last. intros p Hp. apply (staged_channels p _ Hp); [cbn; by rewrite fmap_is_Some|done|].
    destruct Hp as [[_ _ _ _ L5] _]. exact L5.
  - apply next_operation_staged.
  - apply operation_ice_staged.
  - apply operation_dtls_staged.
  - apply operation_sctp_staged.
Qed.

Lemma steps_staged p p' : staged p -> rtc peer_step p p' -> staged p'.
Proof.
  intros H0 Hr. revert H0. induction Hr as [p|p p1 p2 Hp _ IH]; [done|]. intros H0. apply IH. revert H0.
  destruct Hp as [e p p' _ He|e p err p' _ He]; intros H0; pose proof (peer_event_staged e p H0) as H; by rewrite He in H.
Qed.

Lemma reachable_staged p : peer_reachable p -> staged p.
Proof.
  intros [cert Hr]. eapply steps_staged; [|exact Hr]. split; [split|]; try done. by intros [].
Qed.


(** A change of the state of ICE never shows the peer connection as connected or
    connecting, whatever its DTLS transport is doing: it is failed when ICE failed,
    disconnected when ICE is, and new otherwise - also when ICE comes back while the
    handshake of DTLS is long over. *)
Theorem ice_change_forgets_dtls p s cs : peer_reachable p -> ice_connection_state_of s = Some cs ->
  pc_peer_connection_state (ice_state_change s p) =
    RTCPeerConnectionState_as_u8
      match cs with
      | RTCIceConnectionState_Failed => RTCPeerConnectionState_Failed
      | RTCIceConnectionState_Disconnected => RTCPeerConnectionState_Disconnected
      | _ => RTCPeerConnectionState_New
      end.
Proof.
  intros [[L1 L2 _ _ _] _]%reachable_staged Hs. unfold ice_state_change, update_connection_state. rewrite Hs.
  unfold do_ice_connection_state_change. cbn [pc_is_closed pc_handler_dtls_state].
  assert (H : connection_state_of (pc_is_closed p) cs (RTCDtlsTransportState_from_u8 (pc_handler_dtls_state p)) =
              match cs with
              | RTCIceConnectionState_Failed => RTCPeerConnectionState_Failed
              | RTCIceConnectionState_Disconnected => RTCPeerConnectionState_Disconnected
              | _ => RTCPeerConnectionState_New
              end) by (rewrite L1, L2; destruct cs; reflexivity).
  rewrite <- H. destruct (_ =? _) eqn:E; [|done]. apply Z.eqb_eq in E. exact E.
Qed.

(** C37. The fingerprints of the remote description do not matter. The DTLS transport
    keeps them and makes the same configuration for any of them; and a handshake with that
    configuration accepts every server that signed the key exchange with the key of
    the certificate it sent, whatever certificate that is. *)
Theorem any_certificate_accepted p params config p' remote_ip server_verifier client_verifier cfg client_random server_random h s :
  dtls_transport_start params p = (Ok config, p') ->
  handshake_config true config remote_ip server_verifier client_verifier = Ok cfg ->
  signature_scheme_listed cfg (ske_algorithm h) = true ->
  verify_key_signature (value_key_message client_random server_random (ske_public_key h) (ske_named_curve h))
    (ske_algorithm h) (ske_signature h) (ds_peer_certificates s) = Ok tt ->
  dp_fingerprints (dt_remote_parameters (pc_dtls_transport p')) = dp_fingerprints params /\
  (forall params', fst (dtls_transport_start params' p) = Ok config) /\
  authenticate_server cfg client_random server_random h s = (Ok tt, s).
Proof.
  unfold dtls_transport_start, prepare_transport, dtls_state_change. st_run.
  destruct (it_mux (pc_ice_transport p)) as [mux|]; [|done]. cbn.
  case_bool_decide; [done|]. case_bool_decide; [|done]. cbn. destruct (dt_certificates (pc_dtls_transport p)) as [|cert certs]; [done|].
  cbn. intros [= <- <-] Hcfg Hs Hv. split_and!; [done..|].
  unfold handshake_config in Hcfg. invert_Ok. unfold authenticate_server. rewrite Hs. cbn [negb].
  unfold flight_try. st_run. rewrite Hv. cbn. done.
Qed.

Lemma open_stream_registers n a r a' : open_stream n a = (Ok r, a') -> a_streams a' !! n = Some r.
Proof.
  unfold open_stream, create_stream. st_run. destruct (a_streams a !! n); [done|]. cbn. intros [= <- <-]. cbn.
  by rewrite lookup_insert_eq.
Qed.

Lemma rtc_open_registers now d o d' o' : dc_sctp_transport d = false -> rtc_open now (d, o) = (Ok tt, (d', o')) ->
  exists a r, o' = Some a /\ a_streams a !! 0 = Some r.
Proof.
  unfold rtc_open. intros Hd. destruct o as [a|]; [|done]. rewrite Hd. unfold DataChannel.dial. cbn [dc_label dc_protocol].
  destruct (open_stream 0 a) as [[r| | |] a1] eqn:Ho; try done. apply open_stream_registers in Ho.
  destruct (a_heap a1 !! r) as [st|].
  - destruct (client _ _ _ _) as [[] [sh st']]; try done. intros [= _ <-]. eexists _, r. split; [reflexivity|].
    by destruct (dc_on_low d).
  - intros [= _ <-]. eexists _, r. split; [reflexivity|]. by destruct (dc_on_low d).
Qed.

(** At most one data channel of an association opens: every channel is opened on the
    stream 0. Once a channel is opened, the opening of a second one on the same association
    fails since the stream exists, and that channel is not up. *)
Theorem second_channel_fails now now' i j p p' d d' : i <> j ->
  st_data_channels (pc_sctp_transport p) !! i = Some d -> dc_sctp_transport d = false ->
  st_data_channels (pc_sctp_transport p) !! j = Some d' -> dc_sctp_transport d' = false -> ~ channel_up d' ->
  channel_open now i p = (Ok tt, p') ->
  exists p'' d'', channel_open now' j p' = (Err (WebrtcData (RtcDataChannel (DcSctp ErrStreamAlreadyExist))), p'') /\
    st_data_channels (pc_sctp_transport p'') !! j = Some d'' /\ ~ channel_up d''.
Proof.
  intros Hij Hi Hd Hj Hd' Hup. unfold channel_open at 1. rewrite Hi.
  destruct (rtc_open now _) as [[[]| | |] [x o]] eqn:E; try done. cbn. intros [= <-].
  apply rtc_open_registers in E as (a & r & -> & Ha); [|done].
  unfold channel_open. cbn. rewrite list_lookup_insert_ne by done. rewrite Hj.
  unfold rtc_open. rewrite Hd'. unfold DataChannel.dial, open_stream. st_run. rewrite Ha. cbn.
  eexists _, (d' <| dc_sctp_transport := true |>). split; [reflexivity|]. cbn.
  rewrite list_lookup_insert_eq; [done|]. rewrite length_insert. by eapply lookup_lt_Some.
Qed.
End laws.

(** * Witnesses, on the run of [RtcSample.v] *)
#[local] Existing Instance sample_env.
#[local] Existing Instance sample_primitives.
#[local] Existing Instance sample_urls.
#[local] Existing Instance dev_profile.

Lemma peer_refines_jsep_witness :
  peer_step (gathered_peer 1) answered /\
  exists j j', rtc jsep_step jsep_start j /\ shows (gathered_peer 1) j /\ jsep_move j j' /\ shows answered j'.
Proof.
  assert (Hs : peer_step (gathered_peer 1) answered) by (apply run_step; [done|by vm_compute]).
  split; [exact Hs|]. apply (peer_refines_jsep (gathered_peer 1) answered); [|exact Hs].
  apply sample_gathered_reachable. by left.
Defined.

Lemma remote_offer_is_final_witness :
  signaling_state asked = RTCSignalingState_HaveRemoteOffer /\
  signaling (run (CreateOffer (sample_seed 3) 5 6 sample_ids) asked) = signaling asked.
Proof.
  assert (Hs : signaling_state asked = RTCSignalingState_HaveRemoteOffer) by by vm_compute.
  split; [exact Hs|]. apply (remote_offer_is_final asked); [exact sample_asked_reachable|exact Hs|].
  apply rtc_once, run_step; [done|by vm_compute].
Defined.

Lemma peer_agent_sound_witness : exists agent,
  ig_agent (pc_ice_gatherer P4) = Some agent /\ agent_wf (ag_internal agent) /\
  tame (fst (agent_event (Datagram 0 [Byte.x00] (sample_addr 9)) P4)).
Proof.
  destruct (ig_agent (pc_ice_gatherer P4)) as [agent|] eqn:Ha; [|exfalso; by vm_compute in Ha].
  exists agent. split; [reflexivity|].
  apply (@peer_agent_sound dev_profile sample_env sample_primitives sample_urls sample_peer_env IceSample.sample_laws P4 agent
    (Datagram 0 [Byte.x00] (sample_addr 9)) sample_P4_reachable Ha). done.
Defined.


Lemma ice_change_forgets_dtls_witness :
  dtls_transport_state P7 = RTCDtlsTransportState_Connected /\
  pc_peer_connection_state (ice_state_change RTCIceTransportState_Connected P7) = RTCPeerConnectionState_as_u8 RTCPeerConnectionState_New.
Proof.
  split; [by vm_compute|].
  apply (ice_change_forgets_dtls P7 RTCIceTransportState_Connected RTCIceConnectionState_Connected sample_P7_reachable). reflexivity.
Defined.

(** A server with a certificate of its own, and its key exchange *)
Definition other_key : bytes := replicate 4 Byte.x55.
Definition other_exchange (client_random server_random : bytes) : ServerKeyExchange :=
  let algorithm := mkSignatureHashAlgorithm Sha256 Ecdsa in
  mkServerKeyExchange [] EctNamedCurve P256 [Byte.x04] algorithm
    (other_key ++ sample_hash (value_key_message client_random server_random [Byte.x04] P256)).

Lemma any_certificate_accepted_witness : exists config p' cfg,
  dtls_transport_start (mkDTLSParameters DTLSRole_Server []) P4_connected = (Ok config, p') /\
  handshake_config true config None (fun _ _ => Err "UnknownIssuer"%string) (fun _ => Ok tt) = Ok cfg /\
  fst (authenticate_server cfg [Byte.x01] [Byte.x02] (other_exchange [Byte.x01] [Byte.x02])
         (State_default <| ds_peer_certificates := [other_key] |>)) = Ok tt.
Proof.
  destruct (dtls_transport_start (mkDTLSParameters DTLSRole_Server []) P4_connected) as [r p'] eqn:Hs.
  destruct r as [config| | |]; try (exfalso; by vm_compute in Hs).
  destruct (handshake_config true config None (fun _ _ => Err "UnknownIssuer"%string) (fun _ => Ok tt)) as [cfg| | |] eqn:Hc.
  2-4: exfalso; assert (H : match fst (dtls_transport_start (mkDTLSParameters DTLSRole_Server []) P4_connected) with
       | Ok config => match handshake_config true config None (fun _ _ => Err "UnknownIssuer"%string) (fun _ => Ok tt) with
                      Ok _ => True | _ => False end | _ => False end) by (by vm_compute); rewrite Hs in H; cbn in H; by rewrite Hc in H.
  exists config, p', cfg. split_and!; [reflexivity|exact Hc|].
  destruct (any_certificate_accepted P4_connected (mkDTLSParameters DTLSRole_Server []) config p' None (fun _ _ => Err "UnknownIssuer"%string)
    (fun _ => Ok tt) cfg [Byte.x01] [Byte.x02] (other_exchange [Byte.x01] [Byte.x02])
    (State_default <| ds_peer_certificates := [other_key] |>) Hs Hc) as (_ & _ & H).
  - unfold handshake_config in Hc. invert_Ok. by vm_compute.
  - by vm_compute.
  - by rewrite H.
Defined.

(** A peer with an association, and two channels to open *)
Definition two_channels : Peer :=
  (Peer_new sample_rtc_certificate) <| pc_sctp_transport ::= fun t => t <| st_association := Some sample_association |>
    <| st_data_channels := [RTCDataChannel_new [Byte.x61] []; RTCDataChannel_new [Byte.x62] []] |> |>.

Lemma second_channel_fails_witness : exists p' p'' d'',
  channel_open 5 0 two_channels = (Ok tt, p') /\
  channel_open 6 1 p' = (Err (WebrtcData (RtcDataChannel (DcSctp ErrStreamAlreadyExist))), p'') /\
  st_data_channels (pc_sctp_transport p'') !! 1%nat = Some d'' /\ ~ channel_up d''.
Proof.
  destruct (channel_open 5 0 two_channels) as [r p'] eqn:Ho. destruct r as [[]| | |]; try (exfalso; by vm_compute in Ho).
  destruct (second_channel_fails 5 6 0 1 two_channels p' (RTCDataChannel_new [Byte.x61] []) (RTCDataChannel_new [Byte.x62] []))
    as (p'' & d'' & H1 & H2 & H3); try done; [by intros [[? [=]]|[=]]|].
  by exists p', p'', d''.
Defined.
