(* ===== verification/RtcOffer.v ===== *)
(** What the other peer understands of an offer: the text that is signalled, with the
    candidates that were gathered meanwhile, is parsed, and yields the credentials, the
    candidates and the fingerprint of the peer that made it. *)
From Stdlib Require Import Strings.String.
From S2P Require Import Prelude Utf8 Stun StunAttrs Text TextLaws IpText Sdp SdpText SdpLaws DtlsCrypto DtlsSuite DtlsSample IceCandidate IceAgent IceApi IceSample IceLaws RtcTypes RtcSdp RtcPeer RtcLaws RtcSample.

(** * Candidates as lines of text *)
Section candidates.
Context {P : Profile} {env : IceEnv}.

(** What a host candidate of the gatherer is as the interface has it *)
Record signallable (r : RTCIceCandidate) : Prop := {
  sg_typ : rc_typ r = RTCIceCandidateType_Host;
  sg_protocol : rc_protocol r = RTCIceProtocol_Udp;
  sg_foundation : token (rc_foundation r);
  sg_address : token (rc_address r);
  sg_host : ends_with (chars ".local") (rc_address r) = true \/ is_Some (parse_ip (rc_address r));
  sg_port : 0 <= rc_port r < 2 ^ 16;
  sg_priority : 0 < rc_priority r < 2 ^ 32;
  sg_related : rc_related_address r = [] /\ rc_related_port r = 0
}.

Definition config_of (r : RTCIceCandidate) (component : Z) (id : str) : CandidateBaseConfig :=
  mkCandidateBaseConfig id UDP (rc_address r) (rc_port r) component (rc_priority r) (rc_foundation r) false.

Definition candidate_line (r : RTCIceCandidate) (component : Z) : str :=
  candidate_text (rc_foundation r) component (rc_priority r) (rc_address r) (rc_port r).

(** The candidate on the other side *)
Definition signalled (r : RTCIceCandidate) (component : Z) (id : str) : RTCIceCandidate :=
  mkRTCIceCandidate id (rc_foundation r) (rc_priority r) (rc_address r) (rc_protocol r) (rc_port r) (rc_typ r) component [] 0.

Lemma host_built r n id id' : signallable r -> exists c, new_candidate_host (config_of r n id) id' = Ok c /\
  built_from (config_of r n id) c /\ ca_id c = match id with [] => id' | _ => id end.
Proof.
  intros [_ _ _ _ Hh _ _ _]. assert (Hx : exists c, new_candidate_host (config_of r n id) id' = Ok c).
  { unfold new_candidate_host. cbn [config_of cc_address cc_network].
    destruct (ends_with _ _); cbn [negb]; [by eexists|]. destruct Hh as [?|[ip ->]]; [done|].
    unfold set_ip, determine_network_type. cbn [ca_network]. change (starts_with UDP (map ascii_lowercase UDP)) with true. by eexists. }
  destruct Hx as [c Hc]. exists c. split; [exact Hc|]. split; [exact (new_candidate_built _ _ _ Hc)|exact (new_candidate_id _ _ _ Hc)].
Qed.

Lemma to_ice_built r id : signallable r -> exists c, to_ice id r = Ok c /\ built_from (config_of r (rc_component r) (rc_stats_id r)) c.
Proof.
  intros Hs. destruct (host_built r (rc_component r) (rc_stats_id r) id Hs) as (c & Hc & Hb & _). exists c. split; [|exact Hb].
  unfold to_ice, to_ice_config. rewrite (sg_typ r Hs), (sg_protocol r Hs). fold (config_of r (rc_component r) (rc_stats_id r)).
  change (RTCIceProtocol_to_string RTCIceProtocol_Udp) with UDP. fold (config_of r (rc_component r) (rc_stats_id r)). by rewrite Hc.
Qed.

Lemma set_component_built r m n id c : built_from (config_of r m id) c -> built_from (config_of r n id) (set_component n c).
Proof. intros [H1 H2 H3 H4 H5 H6 H7 H8]. by split. Qed.

Lemma built_line r n id c : signallable r -> built_from (config_of r n id) c ->
  (forall E, candidate_priority (E := E) c = Ok (rc_priority r)) /\ foundation ice_crc32_iscsi c = rc_foundation r /\
  candidate_marshal ice_crc32_iscsi c = Ok (candidate_line r n).
Proof.
  intros [_ _ [[Hfn _] _] _ _ _ Hp _] Hb. pose proof Hb as [Ht Hc Ha Hpo _ Hf Hpr _]. cbn [config_of cc_component cc_address cc_port cc_foundation cc_priority] in *.
  assert (H1 : forall E, candidate_priority (E := E) c = Ok (rc_priority r)).
  { intros E. unfold candidate_priority. rewrite Hpr. by rewrite (proj2 (Z.eqb_neq (rc_priority r) 0)) by lia. }
  assert (H2 : foundation ice_crc32_iscsi c = rc_foundation r) by (unfold foundation; rewrite Hf; by destruct (rc_foundation r)).
  split_and!; [exact H1|exact H2|]. rewrite (marshal_words _ _ _ _ Hb (H1 IceError)), H2, Hc, (built_network _ _ Hb), Ha, Hpo. reflexivity.
Qed.

Lemma unmarshal_line r n id : signallable r -> 0 <= n < 2 ^ 16 ->
  unmarshal_candidate (candidate_line r n) id = new_candidate_host (config_of r n []) id.
Proof.
  intros [_ _ [Hf _] [Ha _] _ Hpo Hp _] Hn. by apply unmarshal_candidate_text; try lia.
Qed.

Lemma line_read r n id : signallable r -> 0 <= n < 2 ^ 16 ->
  exists c, unmarshal_candidate (candidate_line r n) id = Ok c /\ RTCIceCandidate_from c = Ok (signalled r n id).
Proof.
  intros Hs Hn. rewrite unmarshal_line by done. destruct (host_built r n [] id Hs) as (c & Hc & Hb & Hid). exists c. split; [exact Hc|].
  destruct (built_line r n [] c Hs Hb) as (H1 & H2 & _). pose proof Hb as [Ht Hco Ha Hpo Hrel _ _ _].
  unfold RTCIceCandidate_from, signalled. rewrite H1. cbn [mbind res_bind]. rewrite Hrel, H2, Hid, (built_network _ _ Hb), Ht, Hco, Ha, Hpo.
  cbn [config_of cc_component cc_address cc_port]. rewrite (sg_typ r Hs), (sg_protocol r Hs). reflexivity.
Qed.

Lemma line_injective r n r' n' id : signallable r -> signallable r' -> 0 <= n < 2 ^ 16 -> 0 <= n' < 2 ^ 16 ->
  candidate_line r n = candidate_line r' n' -> signalled r n id = signalled r' n' id.
Proof.
  intros Hr Hr' Hn Hn' He. destruct (line_read r n id Hr Hn) as (c & H1 & H2), (line_read r' n' id Hr' Hn') as (c' & H1' & H2').
  rewrite He, H1' in H1. injection H1 as ->. congruence.
Qed.

(** * What is added to a media section *)
Definition candidate_attribute (r : RTCIceCandidate) (n : Z) : Attribute := mkAttribute (chars "candidate") (Some (candidate_line r n)).
Definition end_attribute : Attribute := mkAttribute (chars "end-of-candidates") None.
Definition component (n : Z) : Prop := n = 1 \/ n = 2.

(** An attribute that tells of one of the candidates, or of none *)
Definition tells (cs : list RTCIceCandidate) (a : Attribute) : Prop := exists r n, r ∈ cs /\ component n /\ a = candidate_attribute r n.
Definition added (cs : list RTCIceCandidate) (a : Attribute) : Prop := a = end_attribute \/ tells cs a.
Definition has_line (l : list Attribute) (r : RTCIceCandidate) (n : Z) : Prop := exists a, a ∈ l /\ at_value a = Some (candidate_line r n).

Lemma component_u16 n : component n -> 0 <= n < 2 ^ 16.
Proof. unfold component. change (2 ^ 16) with 65536. lia. Qed.

Lemma has_line_app l l' r n : has_line l r n -> has_line (l ++ l') r n.
Proof. intros (a & Ha & Hv). exists a. split; [apply elem_of_app; by left|exact Hv]. Qed.

Lemma added_more cs cs' a : (forall r, r ∈ cs -> r ∈ cs') -> added cs a -> added cs' a.
Proof. intros H [->|(r & n & Hr & Hn & ->)]; [by left|]. right. exists r, n. split; [by apply H|done]. Qed.

Definition with_attributes (l : list Attribute) (m : MediaDescription) : MediaDescription := m <| md_attributes := md_attributes m ++ l |>.

Lemma with_attributes_nil m : with_attributes [] m = m.
Proof. destruct m. unfold with_attributes. cbn. by rewrite app_nil_r. Qed.

Lemma with_attributes_app l l' m : with_attributes l' (with_attributes l m) = with_attributes (l ++ l') m.
Proof. destruct m. unfold with_attributes. cbn. by rewrite app_assoc. Qed.

Lemma append_one r n m c id : signallable r -> component n -> built_from (config_of r n id) c ->
  exists l, append_candidate_if_new c m = Ok (with_attributes l m) /\ Forall (added [r]) l /\ has_line (md_attributes m ++ l) r n.
Proof.
  intros Hs Hn Hb. unfold append_candidate_if_new. destruct (built_line r n id c Hs Hb) as (_ & _ & ->). cbn [map_ice mbind res_bind].
  destruct (existsb _ _) eqn:He.
  - exists []. rewrite with_attributes_nil, app_nil_r. split; [done|]. split; [constructor|].
    apply existsb_exists in He as (a & Ha & He%bool_decide_eq_true). exists a. split; [by apply list_elem_of_In|exact He].
  - exists [candidate_attribute r n]. split; [done|]. split.
    + apply Forall_singleton. right. exists r, n. split; [apply elem_of_cons; by left|done].
    + exists (candidate_attribute r n). split; [apply elem_of_app; right; apply elem_of_cons; by left|done].
Qed.

Lemma append_candidates_shape ids cs m : Forall signallable cs -> exists l,
  append_candidates ids cs m = Ok (with_attributes l m) /\ Forall (added cs) l /\
  forall r n, r ∈ cs -> component n -> has_line (md_attributes m ++ l) r n.
Proof.
  intros Hcs. revert ids m. induction Hcs as [|r cs Hr Hcs IH]; intros ids m.
  - exists []. rewrite with_attributes_nil. split; [done|]. split; [constructor|]. by intros r n Hr%elem_of_nil.
  - cbn [append_candidates]. destruct (to_ice_built r (ids 0%nat) Hr) as (c & -> & Hb). cbn [mbind res_bind].
    destruct (append_one r 1 m (set_component 1 c) _ Hr ltac:(by left) (set_component_built _ _ 1 _ _ Hb)) as (l1 & -> & H1 & L1).
    cbn [mbind res_bind].
    destruct (append_one r 2 (with_attributes l1 m) (set_component 2 c) _ Hr ltac:(by right) (set_component_built _ _ 2 _ _ Hb))
      as (l2 & -> & H2 & L2). cbn [mbind res_bind].
    destruct (IH (later_ids ids) (with_attributes l2 (with_attributes l1 m))) as (l & -> & Hl & L).
    exists (l1 ++ l2 ++ l). rewrite !with_attributes_app. split; [done|].
    assert (Hsub : forall x, x ∈ [r] -> x ∈ r :: cs) by (intros x ->%list_elem_of_singleton; apply elem_of_cons; by left).
    split; [rewrite !Forall_app; split_and!|].
    + eapply Forall_impl; [exact H1|]. intros a. by apply added_more.
    + eapply Forall_impl; [exact H2|]. intros a. by apply added_more.
    + eapply Forall_impl; [exact Hl|]. intros a. apply added_more. intros x Hx. apply elem_of_cons. by right.
    + intros x n [->|Hx]%elem_of_cons Hn.
      * destruct Hn as [->| ->]; rewrite !app_assoc; apply has_line_app; [by apply has_line_app|].
        unfold with_attributes in L2. exact L2.
      * specialize (L x n Hx Hn). unfold with_attributes in L. cbn in L. by rewrite <- !app_assoc in L.
Qed.

Lemma add_candidates_shape ids cs m state : Forall signallable cs -> exists l,
  add_candidates_to_media_descriptions ids cs m state = Ok (with_attributes l m) /\ Forall (added cs) l /\
  forall r n, r ∈ cs -> component n -> has_line (md_attributes m ++ l) r n.
Proof.
  intros Hcs. unfold add_candidates_to_media_descriptions. destruct (append_candidates_shape ids cs m Hcs) as (l & -> & Hl & L).
  cbn [mbind res_bind]. destruct (negb _); [by exists l|]. destruct (existsb _ _); [by exists l|].
  exists (l ++ [end_attribute]). split_and!.
  - by rewrite <- with_attributes_app.
  - apply Forall_app. split; [exact Hl|]. apply Forall_singleton. by left.
  - intros r n Hr Hn. rewrite app_assoc. by apply has_line_app, L.
Qed.

(** * What is read of it *)
Definition entry (cs : list RTCIceCandidate) (a : Attribute) : Prop := is_ice_candidate a = false \/ tells cs a.

Lemma extract_entries cs l ids : Forall signallable cs -> Forall (entry cs) l -> exists found,
  extract_candidates ids l = Ok found /\
  (forall c, c ∈ found -> exists r n id, r ∈ cs /\ component n /\ c = signalled r n id) /\
  (forall r n, r ∈ cs -> component n -> candidate_attribute r n ∈ l -> exists id, signalled r n id ∈ found).
Proof.
  intros Hcs Hl. revert ids. induction Hl as [|a l Ha Hl IH]; intros ids.
  - exists []. split; [done|]. split; [by intros c ?%elem_of_nil|by intros r n _ _ ?%elem_of_nil].
  - destruct Ha as [Ha|(r0 & n0 & Hr0 & Hn0 & ->)]; cbn [extract_candidates].
    + rewrite Ha. destruct (IH ids) as (found & -> & H1 & H2). exists found. split; [done|]. split; [exact H1|].
      intros r n Hr Hn [<-|Hin]%elem_of_cons; [discriminate Ha|by apply H2].
    + change (is_ice_candidate (candidate_attribute r0 n0)) with true. cbn [candidate_attribute at_value].
      assert (Hs0 : signallable r0) by by apply (proj1 (Forall_forall _ _) Hcs).
      destruct (line_read r0 n0 (ids 0%nat) Hs0 (component_u16 _ Hn0)) as (c & -> & Hc). cbn [map_ice mbind res_bind].
      rewrite Hc. cbn [mbind res_bind]. destruct (IH (later_ids ids)) as (found & -> & H1 & H2). cbn [mbind res_bind].
      exists (signalled r0 n0 (ids 0%nat) :: found). split; [done|]. split.
      * intros x [->|Hx]%elem_of_cons; [by eexists r0, n0, _|by apply H1].
      * intros r n Hr Hn [Heq|Hin]%elem_of_cons.
        -- injection Heq as Heq. exists (ids 0%nat). apply elem_of_cons. left.
           apply line_injective; [by apply (proj1 (Forall_forall _ _) Hcs)|done|by apply component_u16..|exact Heq].
        -- destruct (H2 r n Hr Hn Hin) as [id Hid]. exists id. apply elem_of_cons. by right.
Qed.

(** Values of the other attributes have no space, so a line that is there is a candidate's. *)
Definition plain (a : Attribute) : Prop := is_ice_candidate a = false /\ on_option (fun v => 32 ∉ v) (at_value a).

Lemma candidate_line_space r n : 32 ∈ candidate_line r n.
Proof. unfold candidate_line, candidate_text. rewrite join_cons. apply elem_of_app. right. apply elem_of_app. left. apply elem_of_cons. by left. Qed.

Lemma line_told cs base tail r n : Forall plain base -> Forall (added cs) tail -> has_line (base ++ tail) r n ->
  exists r' n', r' ∈ cs /\ component n' /\ candidate_attribute r' n' ∈ base ++ tail /\ candidate_line r' n' = candidate_line r n.
Proof.
  intros Hb Ht (a & [Ha|Ha]%elem_of_app & Hv).
  - apply (proj1 (Forall_forall _ _) Hb) in Ha as [_ Ha]. rewrite Hv in Ha. destruct Ha. apply candidate_line_space.
  - pose proof (proj1 (Forall_forall _ _) Ht a Ha) as [->|(r' & n' & Hr' & Hn' & ->)]; [discriminate Hv|].
    injection Hv as Hv. exists r', n'. split_and!; [done..|apply elem_of_app; by right|done].
Qed.

Lemma line_kept cs base base' tail r n : Forall plain base -> Forall (added cs) tail -> has_line (base ++ tail) r n ->
  has_line (base' ++ tail) r n.
Proof.
  intros Hb Ht (a & [Ha|Ha]%elem_of_app & Hv); [|by exists a; split; [apply elem_of_app; right|]].
  apply (proj1 (Forall_forall _ _) Hb) in Ha as [_ Ha]. rewrite Hv in Ha. destruct Ha. apply candidate_line_space.
Qed.

Lemma extract_told cs base tail ids : Forall signallable cs -> Forall plain base -> Forall (added cs) tail ->
  (forall r n, r ∈ cs -> component n -> has_line (base ++ tail) r n) ->
  exists found, extract_candidates ids (base ++ tail) = Ok found /\
    (forall c, c ∈ found -> exists r n id, r ∈ cs /\ component n /\ c = signalled r n id) /\
    (forall r n, r ∈ cs -> component n -> exists id, signalled r n id ∈ found).
Proof.
  intros Hcs Hb Ht L. destruct (extract_entries cs (base ++ tail) ids Hcs) as (found & He & H1 & H2).
  - apply Forall_app. split.
    + eapply Forall_impl; [exact Hb|]. intros a [Ha _]. by left.
    + eapply Forall_impl; [exact Ht|]. intros a [->|Ha]; [by left|by right].
  - exists found. split; [exact He|]. split; [exact H1|]. intros r n Hr Hn.
    destruct (line_told cs base tail r n Hb Ht (L r n Hr Hn)) as (r' & n' & Hr' & Hn' & Hin & Hl).
    destruct (H2 r' n' Hr' Hn' Hin) as [id Hid]. exists id.
    rewrite (line_injective r n r' n' id); try done; try (by apply component_u16); by apply (proj1 (Forall_forall _ _) Hcs).
Qed.
End candidates.

(** * The text of a description *)
Ltac concrete := split; [split; [done|repeat constructor]|repeat constructor].
Ltac no_colon := apply (bool_decide_unpack _); by vm_compute.

Lemma token_app a b : token a -> no_space b -> all_chars b -> token (a ++ b).
Proof. intros [[Hn Ha] Hc] Hb Hcb. split; [split|]; [by destruct a|by apply Forall_app|by apply Forall_app]. Qed.

Lemma attribute_words k w ws : token k -> 58 ∉ k -> Forall token (w :: ws) -> Attribute_wf (mkAttribute k (Some (join [32] (w :: ws)))).
Proof.
  intros Hk H58 [Hw Hws]%Forall_cons. split; [exact H58|]. unfold Attribute_to_string. cbn [at_value at_key].
  assert (E : k ++ [58] ++ join [32] (w :: ws) = join [32] ((k ++ [58] ++ w) :: ws)).
  { destruct ws as [|w' ws]; [done|]. by rewrite !join_cons, <- !app_assoc. }
  rewrite E. apply tokens_line. constructor; [|exact Hws]. destruct Hw as [[_ Hw] Hcw].
  apply token_app; [exact Hk|by constructor|by constructor].
Qed.

Section shape.
Context {P : Profile} {env : IceEnv} {urls : Urls} {laws : UrlLaws urls}.

Lemma candidate_attribute_wf r n : signallable r -> Attribute_wf (candidate_attribute r n).
Proof.
  intros [_ _ Hf Ha _ _ _ _]. apply attribute_words; [concrete|no_colon|].
  repeat (constructor; [first [done|apply print_int_token|concrete]|]). constructor.
Qed.

Lemma end_attribute_wf : Attribute_wf end_attribute.
Proof. split; [no_colon|]. apply token_line. concrete. Qed.

Lemma added_wf cs a : Forall signallable cs -> added cs a -> Attribute_wf a.
Proof.
  intros Hcs [->|(r & n & Hr & _ & ->)]; [apply end_attribute_wf|]. by apply candidate_attribute_wf, (proj1 (Forall_forall _ _) Hcs).
Qed.

(** One data section, with its attributes and those of the session *)
Definition data_section (attributes : list Attribute) : MediaDescription :=
  mkMediaDescription
    (mkMediaName MEDIA_SECTION_APPLICATION (mkRangedPort 9 None) (map chars ["UDP"; "DTLS"; "SCTP"]%string) [chars "webrtc-datachannel"])
    None (Some (mkConnectionInformation (chars "IN") (chars "IP4") (Some (mkAddress (chars "0.0.0.0") None None)))) [] None attributes.

Definition data_session (o : Origin) (session_attributes attributes : list Attribute) : SessionDescription :=
  mkSessionDescription 0 o (chars "-") None None None None None [] [mkTimeDescription (mkTiming 0 0) []] [] None
    session_attributes [data_section attributes].

(** The attributes as they are read back: a key never has a colon. *)
Definition read_attribute (a : Attribute) : Attribute := parse_attribute (Attribute_to_string a).

Lemma read_attribute_text a : Attribute_to_string (read_attribute a) = Attribute_to_string a.
Proof.
  unfold read_attribute, parse_attribute. generalize (Attribute_to_string a). intros s. pose proof (split_once_spec 58 s) as H.
  destruct (split_once 58 s) as [k [v|]]; by destruct H as [-> _].
Qed.

Lemma read_attribute_same a : Attribute_wf a -> read_attribute a = a.
Proof.
  destruct a as [k [v|]]; intros [H _]; unfold read_attribute, parse_attribute, Attribute_to_string; cbn [at_value at_key] in *.
  - change ([58] ++ v) with (58 :: v). by rewrite split_once_app.
  - by rewrite split_once_none.
Qed.

Lemma read_attributes_same l : Forall Attribute_wf l -> map read_attribute l = l.
Proof. induction 1 as [|a l Ha _ IH]; [done|]. cbn [map]. by rewrite read_attribute_same, IH. Qed.

Lemma read_attributes_text l :
  flat_map (fun a => key_value_build "a=" (Some (Attribute_to_string a))) (map read_attribute l) =
  flat_map (fun a => key_value_build "a=" (Some (Attribute_to_string a))) l.
Proof. induction l as [|a l IH]; [done|]. cbn [map flat_map]. by rewrite read_attribute_text, IH. Qed.

Lemma data_session_text o sa a :
  SessionDescription_marshal (data_session o sa (map read_attribute a)) = SessionDescription_marshal (data_session o sa a).
Proof.
  unfold data_session, data_section, SessionDescription_marshal, marshal_media.
  cbn [sd_attributes sd_media_descriptions flat_map md_attributes]. by rewrite read_attributes_text.
Qed.

Lemma data_section_wf a : Forall Attribute_wf a -> MediaDescription_wf (data_section a).
Proof.
  intros Ha. unfold MediaDescription_wf, data_section. cbn [md_media_name md_media_title md_connection_information md_bandwidth md_encryption_key md_attributes].
  split; [|split; [done|split; [|by repeat split]]].
  - repeat split; try done; cbn [mn_media mn_port mn_protos mn_formats map].
    + by repeat constructor.
    + apply Forall_singleton. concrete.
  - split; [done|]. split; [done|]. cbn. split; [concrete|done].
Qed.

Lemma data_session_wf o sa a : Origin_wf o -> Forall Attribute_wf sa -> Forall Attribute_wf a ->
  SessionDescription_wf (data_session o sa a).
Proof.
  intros Ho Hsa Ha. split; [|by split]. unfold fields_wf, data_session.
  cbn [sd_version sd_session_name sd_session_information sd_email_address sd_phone_number sd_connection_information sd_bandwidth
    sd_time_descriptions sd_time_zones sd_encryption_key sd_attributes sd_media_descriptions].
  split; [done|]. split; [apply token_line; concrete|]. do 4 (split; [done|]). split; [constructor|].
  split; [apply Forall_singleton; split; [by repeat split|constructor]|]. split; [constructor|]. split; [done|].
  split; [exact Hsa|]. apply Forall_singleton. by apply data_section_wf.
Qed.

Lemma data_session_read o sa a : Origin_wf o -> Forall Attribute_wf sa -> Forall Attribute_wf (map read_attribute a) ->
  unmarshal_description (SessionDescription_marshal (data_session o sa a)) = Ok (data_session o sa (map read_attribute a)).
Proof.
  intros Ho Hsa Ha. unfold unmarshal_description. rewrite <- data_session_text.
  by rewrite sdp_print_parse by by apply data_session_wf.
Qed.
End shape.

(** * The offer *)
Section offer.
Context {P : Profile} {env : IceEnv} {prim : Primitives} {urls : Urls} {laws : UrlLaws urls} {penv : PeerEnv}.

(** The attributes of the data section that come before the candidates, and those of the session *)
Definition base_attributes (u p mid : str) : list Attribute :=
  [mkAttribute ATTR_KEY_CONNECTION_SETUP (Some (chars "actpass")); mkAttribute ATTR_KEY_MID (Some mid);
   mkAttribute (chars "sendrecv") None; mkAttribute (chars "sctp-port:5000") None;
   mkAttribute (chars "ice-ufrag") (Some u); mkAttribute (chars "ice-pwd") (Some p)].

Definition read_base_attributes (u p mid : str) : list Attribute :=
  [mkAttribute ATTR_KEY_CONNECTION_SETUP (Some (chars "actpass")); mkAttribute ATTR_KEY_MID (Some mid);
   mkAttribute (chars "sendrecv") None; mkAttribute (chars "sctp-port") (Some (chars "5000"));
   mkAttribute (chars "ice-ufrag") (Some u); mkAttribute (chars "ice-pwd") (Some p)].

Definition fingerprint_attribute (f : RTCDtlsFingerprint) : Attribute :=
  mkAttribute (chars "fingerprint") (Some (fp_algorithm f ++ chars " " ++ map ascii_uppercase (fp_value f))).

Definition session_attributes (fps : list RTCDtlsFingerprint) (mid : str) : list Attribute :=
  map fingerprint_attribute fps ++ [mkAttribute ATTR_KEY_GROUP (Some (chars "BUNDLE" ++ chars " " ++ mid))].

Lemma with_fingerprints fps o sa a :
  fold_left (fun d f => sd_with_fingerprint (fp_algorithm f) (map ascii_uppercase (fp_value f)) d) fps (data_session o sa a) =
  data_session o (sa ++ map fingerprint_attribute fps) a.
Proof.
  revert sa. induction fps as [|f fps IH]; intros sa; [by rewrite app_nil_r|]. cbn [fold_left map].
  change (sd_with_fingerprint (fp_algorithm f) (map ascii_uppercase (fp_value f)) (data_session o sa a))
    with (data_session o (sa ++ [fingerprint_attribute f]) a). by rewrite IH, <- app_assoc.
Qed.

Lemma populate_one ids random nanos fps early u p mid state : Forall signallable early -> exists tail,
  populate_sdp ids (new_jsep_session_description random nanos false) fps early (mkRTCIceParameters u p) [mkMediaSection mid true]
    (mkPopulateSdpParams false ConnectionRole_Actpass state) =
    Ok (data_session (sd_origin (new_jsep_session_description random nanos false)) (session_attributes fps mid)
          (base_attributes u p mid ++ tail)) /\
  Forall (added early) tail /\ forall r n, r ∈ early -> component n -> has_line (base_attributes u p mid ++ tail) r n.
Proof.
  intros He. unfold populate_sdp. cbn [populate_sections ms_data]. unfold add_data_media_section. cbn [fold_left am_should_add_candidates Nat.eqb].
  match goal with |- context [add_candidates_to_media_descriptions ids early ?m ?st] =>
    destruct (add_candidates_shape ids early m st He) as (tail & Heq & Ht & L) end.
  cbn [am_ice_gathering_state]. exists tail. split; [|by split].
  cbn [am_ice_gathering_state] in Heq. rewrite Heq. cbn [mbind res_bind]. cbn [pp_is_icelite].
  match goal with |- context [fold_left _ fps ?d] =>
    change d with (data_session (sd_origin (new_jsep_session_description random nanos false)) [] (base_attributes u p mid ++ tail)) end.
  rewrite with_fingerprints. reflexivity.
Qed.

Lemma read_base u p mid : map read_attribute (base_attributes u p mid) = read_base_attributes u p mid.
Proof. reflexivity. Qed.

Lemma read_base_wf u p mid : token u -> token p -> token mid -> Forall Attribute_wf (read_base_attributes u p mid).
Proof.
  intros Hu Hp Hm. repeat (apply Forall_cons; split).
  1: apply (attribute_words (chars "setup") (chars "actpass") []); [concrete|no_colon|apply Forall_singleton; concrete].
  1: apply (attribute_words (chars "mid") mid []); [concrete|no_colon|by apply Forall_singleton].
  1: { split; [no_colon|]. apply token_line. concrete. }
  1: apply (attribute_words (chars "sctp-port") (chars "5000") []); [concrete|no_colon|apply Forall_singleton; concrete].
  1: apply (attribute_words (chars "ice-ufrag") u []); [concrete|no_colon|by apply Forall_singleton].
  1: apply (attribute_words (chars "ice-pwd") p []); [concrete|no_colon|by apply Forall_singleton].
  constructor.
Qed.

Lemma token_no_space s : token s -> 32 ∉ s.
Proof. intros [[_ H] _] Hin. by apply (proj1 (Forall_forall _ _) H) in Hin. Qed.

Lemma base_plain u p mid : token u -> token p -> token mid -> Forall plain (base_attributes u p mid) /\ Forall plain (read_base_attributes u p mid).
Proof.
  intros Hu%token_no_space Hp%token_no_space Hm%token_no_space.
  split; repeat (apply Forall_cons; split); try constructor; try done; cbn; try done; no_colon.
Qed.

Lemma find_attribute_none key l : Forall (fun a => at_key a <> key) l -> find_attribute key l = None.
Proof. induction 1 as [|a l Ha _ IH]; [done|]. unfold find_attribute. cbn [List.find]. by rewrite bool_decide_false. Qed.

Lemma find_attribute_app key l l' : Forall (fun a => at_key a <> key) l -> find_attribute key (l ++ l') = find_attribute key l'.
Proof. induction 1 as [|a l Ha _ IH]; [done|]. unfold find_attribute in *. cbn [List.find app]. by rewrite bool_decide_false. Qed.

Lemma added_key cs l key : Forall (added cs) l -> key <> chars "candidate" -> key <> chars "end-of-candidates" ->
  Forall (fun a => at_key a <> key) l.
Proof. intros Hl H1 H2. eapply Forall_impl; [exact Hl|]. intros a [->|(r & n & _ & _ & ->)]; by apply not_eq_sym. Qed.

Definition fingerprint_wf (f : RTCDtlsFingerprint) : Prop := token (fp_algorithm f) /\ token (map ascii_uppercase (fp_value f)).

Lemma session_attributes_wf fps mid : Forall fingerprint_wf fps -> token mid -> Forall Attribute_wf (session_attributes fps mid).
Proof.
  intros Hf Hm. apply Forall_app. split.
  - apply Forall_map. eapply Forall_impl; [exact Hf|]. intros f [Ha Hv].
    apply (attribute_words (chars "fingerprint") (fp_algorithm f) [map ascii_uppercase (fp_value f)]); [concrete|no_colon|].
    apply Forall_cons. split; [exact Ha|by apply Forall_singleton].
  - apply Forall_singleton. apply (attribute_words (chars "group") (chars "BUNDLE") [mid]); [concrete|no_colon|].
    constructor; [concrete|by apply Forall_singleton].
Qed.

(** What a session with one data section tells *)
Lemma session_told o f fps u p mid cs tail ids : Forall fingerprint_wf (f :: fps) -> token u -> token p -> token mid ->
  Forall signallable cs -> Forall (added cs) tail ->
  (forall r n, r ∈ cs -> component n -> has_line (read_base_attributes u p mid ++ tail) r n) ->
  let d := data_session o (session_attributes (f :: fps) mid) (read_base_attributes u p mid ++ tail) in
  have_application_media_section d = true /\ DTLSRole_from d = DTLSRole_Auto /\
  extract_fingerprint d = Ok (map ascii_uppercase (fp_value f), fp_algorithm f) /\
  exists found, extract_ice_details ids d = Ok (u, p, found) /\
    (forall c, c ∈ found -> exists r n id, r ∈ cs /\ component n /\ c = signalled r n id) /\
    (forall r n, r ∈ cs -> component n -> exists id, signalled r n id ∈ found).
Proof.
  intros [[Ha Hv] Hfps]%Forall_cons Hu Hp Hm Hcs Ht L d. split; [reflexivity|]. split; [reflexivity|]. split.
  - assert (Hn : find_attribute (chars "fingerprint") (read_base_attributes u p mid ++ tail) = None).
    { apply find_attribute_none, Forall_app. split; [by apply (bool_decide_unpack _)|by eapply added_key]. }
    unfold extract_fingerprint, attribute_values, SessionDescription_attribute, MediaDescription_attribute, d, data_session, data_section.
    cbn [sd_attributes sd_media_descriptions map md_attributes concat]. rewrite Hn. cbn [fmap option_fmap option_map].
    change (find_attribute (chars "fingerprint") (session_attributes (f :: fps) mid)) with (Some (fingerprint_attribute f)).
    cbn [fingerprint_attribute at_value opt_list app mjoin option_join concat conflicting existsb].
    change (chars " ") with [32]. cbn [app]. rewrite split_on_app by by apply token_no_space. by rewrite split_on_one by by apply token_no_space.
  - destruct (extract_told cs (read_base_attributes u p mid) tail ids Hcs) as (found & Hx & H1 & H2); [by apply base_plain|exact Ht|exact L|].
    exists found. split; [|by split]. unfold extract_ice_details, d, data_session, data_section.
    cbn [sd_media_descriptions map md_attributes concat]. rewrite app_nil_r, Hx. cbn [mbind res_bind].
    assert (Hs : forall key, key <> chars "fingerprint" -> key <> chars "group" ->
      find_attribute key (session_attributes (f :: fps) mid) = None).
    { intros key H3 H4. apply find_attribute_none, Forall_app. split; [apply Forall_map, Forall_true; intros x; by apply not_eq_sym|].
      apply Forall_singleton. by apply not_eq_sym. }
    unfold attribute_values, SessionDescription_attribute, MediaDescription_attribute. cbn [sd_attributes sd_media_descriptions map md_attributes].
    rewrite !Hs by discriminate. reflexivity.
Qed.

Lemma read_tail cs tail : Forall signallable cs -> Forall (added cs) tail -> map read_attribute tail = tail.
Proof. intros Hcs Ht. apply read_attributes_same. eapply Forall_impl; [exact Ht|]. intros a. by apply added_wf. Qed.

(** The local description: the candidates that came later are added to the text. *)
Lemma local_text o sa u p mid early tail later ids state t : Origin_wf o -> Forall Attribute_wf sa ->
  token u -> token p -> token mid -> Forall signallable early -> Forall (added early) tail -> Forall signallable later ->
  exists tail' sd, (forall d, populate_local_candidates ids
      (Some (mkRTCSessionDescription t (SessionDescription_marshal (data_session o sa (base_attributes u p mid ++ tail))) d)) (Ok later) state =
      Ok (Some sd)) /\ rs_sdp_type sd = t /\
    unmarshal_description (rs_sdp sd) = Ok (data_session o sa (read_base_attributes u p mid ++ tail ++ tail')) /\
    Forall (added later) tail' /\
    forall r n, r ∈ later -> component n -> has_line (read_base_attributes u p mid ++ tail ++ tail') r n.
Proof.
  intros Ho Hsa Hu Hp Hm Hearly Ht Hlater. unfold populate_local_candidates, RTCSessionDescription_unmarshal. cbn [rs_sdp rs_sdp_type].
  assert (Hw : Forall Attribute_wf (read_base_attributes u p mid ++ tail)).
  { apply Forall_app. split; [by apply read_base_wf|]. eapply Forall_impl; [exact Ht|]. intros a. by apply added_wf. }
  assert (Hr : map read_attribute (base_attributes u p mid ++ tail) = read_base_attributes u p mid ++ tail).
  { by rewrite map_app, read_base, (read_tail early). }
  rewrite data_session_read by (try done; by rewrite Hr). rewrite Hr. cbn [data_session sd_media_descriptions].
  destruct (add_candidates_shape ids later (data_section (read_base_attributes u p mid ++ tail)) state Hlater) as (tail' & -> & Ht' & L).
  eexists tail', _. split; [reflexivity|]. split; [done|]. cbn [rs_sdp]. cbn [data_section md_attributes] in L.
  match goal with |- unmarshal_description (SessionDescription_marshal ?d) = _ /\ _ =>
    change d with (data_session o sa ((read_base_attributes u p mid ++ tail) ++ tail')) end.
  assert (Hw' : Forall Attribute_wf ((read_base_attributes u p mid ++ tail) ++ tail')).
  { apply Forall_app. split; [exact Hw|]. eapply Forall_impl; [exact Ht'|]. intros a. by apply added_wf. }
  rewrite <- app_assoc in *. rewrite data_session_read by (try done; by rewrite read_attributes_same).
  rewrite read_attributes_same by done. split; [done|]. split; [exact Ht'|]. intros r n Hr' Hn. rewrite app_assoc in *. by apply L.
Qed.

(** * Fingerprints and origins *)
Definition hexadecimal (c : Z) : Prop := 48 <= c <= 58 \/ 65 <= c <= 70.

Lemma hex_digit_upper n : 0 <= n < 16 -> hexadecimal (ascii_uppercase (hex_digit n)).
Proof.
  intros H. unfold hex_digit, ascii_uppercase, hexadecimal, in_interval.
  destruct (n <? 10) eqn:E; [destruct (_ && _) eqn:E'|destruct (_ && _) eqn:E']; lia.
Qed.

Lemma hexadecimal_token s : s <> [] -> Forall hexadecimal s -> token s.
Proof.
  intros Hs H. split; [split; [exact Hs|]|]; (eapply Forall_impl; [exact H|]); intros c Hc; unfold hexadecimal in Hc.
  - unfold is_whitespace, in_interval. lia.
  - unfold is_char. lia.
Qed.

Lemma fingerprint_value_token (digest : bytes) : digest <> [] -> token (map ascii_uppercase (join (chars ":") (map hex_byte digest))).
Proof.
  intros Hd. apply hexadecimal_token.
  - destruct digest as [|b digest]; [done|]. cbn [map]. destruct (map hex_byte digest); [done|]. rewrite join_cons. done.
  - apply Forall_map, Forall_forall. intros c [Hc|(w & Hw & Hc)]%join_elem.
    + apply list_elem_of_singleton in Hc as ->. left. by vm_compute.
    + apply list_elem_of_fmap in Hw as (b & -> & _). pose proof (u8_of_byte_range b : 0 <= u8_of_byte b < 256) as Hr.
      apply elem_of_cons in Hc as [->|[->|[]%elem_of_nil]%elem_of_cons]; apply hex_digit_upper.
      * split; [apply Z.div_pos; lia|apply Z.div_lt_upper_bound; lia].
      * apply Z.mod_pos_bound. lia.
Qed.

Lemma fingerprints_wf cert : (forall m, length (sha256 m) = 32%nat) -> Forall fingerprint_wf (get_fingerprints cert).
Proof.
  intros H. apply Forall_map, Forall_true. intros der. split; cbn [fp_algorithm fp_value]; [concrete|].
  apply fingerprint_value_token. intros E. specialize (H der). by rewrite E in H.
Qed.

Lemma jsep_origin_wf random nanos : 0 <= nanos < 2 ^ 64 -> Origin_wf (sd_origin (new_jsep_session_description random nanos false)).
Proof.
  intros Hn. unfold new_jsep_session_description. cbn [sd_origin].
  split_and!; cbn [or_username or_session_id or_session_version or_network_type or_address_type or_unicast_address]; try done; try lia; try concrete.
  all: unfold new_session_id; change (Z.lxor (2 ^ 64 - 1) (Z.shiftl 1 63)) with (Z.ones 63); rewrite Z.land_ones by lia;
    pose proof (Z.mod_pos_bound random (2 ^ 63) ltac:(lia)); lia.
Qed.

Lemma update_origin_wf saved o sa a origin d : Origin_wf o -> 0 <= or_session_id saved < 2 ^ 64 ->
  update_sdp_origin saved (data_session o sa a) = Ok (origin, d) -> exists o', d = data_session o' sa a /\ Origin_wf o'.
Proof.
  intros Ho Hs. unfold update_sdp_origin. destruct (_ =? 0).
  - intros [= _ <-]. by exists o.
  - cbn [data_session sd_origin]. intros H. apply bind_Ok in H as (x & _ & H). apply bind_Ok in H as (v & Hv & H). injection H as _ <-.
    destruct Ho as (H1 & H2 & H3 & H4 & H5 & H6). eexists. split; [reflexivity|]. unfold Origin_wf. cbn. split; [done|]. split; [exact Hs|]. split; [|done].
    exact (arith_Ok_range 64 _ _ ltac:(lia) Hv).
Qed.

(** * What [create_offer] puts together *)
Definition own_parameters (agent : Agent) : RTCIceParameters :=
  mkRTCIceParameters (string_of_bytes (get_local_user_credentials agent).1) (string_of_bytes (get_local_user_credentials agent).2).

Definition agent_of_peer (p : Peer) : option Agent := ig_agent (pc_ice_gatherer p).

(** What an offer is made of besides the agent *)
Definition offered_by (p : Peer) := (pc_sdp_origin p, pc_sctp_transport p, pc_dtls_transport p).

#[local] Instance offered_by_framed : Framed offered_by.
Proof. by split. Qed.

Lemma create_agent_again seed p agent : agent_of_peer p = Some agent -> create_agent seed p = (Ok tt, p).
Proof. unfold agent_of_peer, create_agent. intros H. st_run. by rewrite H, bool_decide_true. Qed.

Lemma get_local_parameters_Ok seed p mine p' : get_local_parameters seed p = (Ok mine, p') ->
  exists agent, agent_of_peer p' = Some agent /\ mine = own_parameters agent.
Proof.
  unfold get_local_parameters. intros H. apply st_bind_Ok in H as ([] & p1 & _ & H). apply st_bind_Ok in H as (o & p2 & Ho & H).
  injection Ho as <- <-. destruct (ig_agent (pc_ice_gatherer p1)) as [agent|] eqn:Ha; [|done]. exists agent.
  unfold own_parameters. destruct (get_local_user_credentials agent). by injection H as <- <-.
Qed.

Lemma get_local_candidates_Ok seed p agent early p' : agent_of_peer p = Some agent -> get_local_candidates seed p = (Ok early, p') ->
  p' = p /\ rtc_ice_candidates_from_ice_candidates (agent_candidates agent) = Ok early.
Proof.
  intros Ha H. unfold get_local_candidates in H. apply st_bind_Ok in H as ([] & p1 & Hc & H).
  rewrite (create_agent_again _ _ _ Ha) in Hc. injection Hc as <-. apply st_bind_Ok in H as (o & p2 & Ho & H).
  injection Ho as <- <-. unfold agent_of_peer in Ha. rewrite Ha in H. by injection H as -> <-.
Qed.

Lemma generate_sdp_Ok seed random nanos ids sections role p d p' :
  generate_sdp seed random nanos ids false sections role p = (Ok d, p') ->
  exists agent early cert certs, agent_of_peer p' = Some agent /\
    rtc_ice_candidates_from_ice_candidates (agent_candidates agent) = Ok early /\
    dt_certificates (pc_dtls_transport p') = cert :: certs /\
    populate_sdp ids (new_jsep_session_description random nanos false) (get_fingerprints cert) early (own_parameters agent) (sections p')
      (mkPopulateSdpParams false role (ice_gathering_state (pc_ice_gatherer p'))) = Ok d.
Proof.
  unfold generate_sdp. intros H. apply st_bind_Ok in H as (mine & p1 & Hm & H).
  apply get_local_parameters_Ok in Hm as (agent & Ha & ->). apply st_bind_Ok in H as (early & p2 & He & H).
  apply (get_local_candidates_Ok _ _ _ _ _ Ha) in He as (-> & He). revert H. st_run.
  destruct (dt_certificates (pc_dtls_transport p1)) as [|cert certs] eqn:Hc; [done|]. cbn [fst snd]. intros [= H <-].
  by exists agent, early, cert, certs.
Qed.

(** The section for the data channels *)
Lemma media_sections_one b p : st_data_channels_requested (pc_sctp_transport p) <> 0 ->
  exists mid, media_sections b p = [mkMediaSection mid true] /\ token mid.
Proof.
  intros H. unfold media_sections. rewrite (proj2 (Z.eqb_neq _ _) H). destruct b; (eexists; split; [reflexivity|]); concrete.
Qed.

Lemma create_offer_Ok seed random nanos ids p o p' : create_offer seed random nanos ids p = (Ok o, p') ->
  st_data_channels_requested (pc_sctp_transport p) <> 0 ->
  exists agent early cert certs mid origin d0 d, agent_of_peer p' = Some agent /\ token mid /\
    rtc_ice_candidates_from_ice_candidates (agent_candidates agent) = Ok early /\
    dt_certificates (pc_dtls_transport p) = cert :: certs /\
    populate_sdp ids (new_jsep_session_description random nanos false) (get_fingerprints cert) early (own_parameters agent)
      [mkMediaSection mid true] (mkPopulateSdpParams false ConnectionRole_Actpass (ice_gathering_state (pc_ice_gatherer p'))) = Ok d0 /\
    update_sdp_origin (pc_sdp_origin p) d0 = Ok (origin, d) /\
    o = mkRTCSessionDescription RTCSdpType_Offer (SessionDescription_marshal d) (Some d).
Proof.
  unfold create_offer. intros H Hreq. apply st_bind_Ok in H as (idp & p1 & E & H). injection E as <- <-.
  apply st_bind_Ok in H as (closed & p1 & E & H). injection E as <- <-. cbv zeta in H.
  destruct (bool_decide _); [done|]. destruct (pc_is_closed p); [done|].
  apply st_bind_Ok in H as (current & p1 & E & H). injection E as <- <-.
  apply st_bind_Ok in H as ([] & p1 & Hmid & H). apply st_bind_Ok in H as (d0 & p2 & Hgen & H).
  apply st_bind_Ok in H as (saved & p3 & E & H). injection E as <- <-.
  apply st_bind_Ok in H as ([origin d] & p3 & Horigin & H).
  assert (H1 : offered_by p1 = offered_by p).
  { revert Hmid. clear. unfold st_when. destruct (pc_current_remote_description p) as [r|]; [destruct (rs_parsed r); [destruct (negb _)|]|];
      st_run; by intros [= <-]. }
  assert (Hsec : exists b, generate_sdp seed random nanos ids false (fun p => media_sections (b p) p) ConnectionRole_Actpass p1 = (Ok d0, p2)).
  { destruct (pc_current_remote_description p); [|by exists (fun _ => false)]. by exists (fun p => description_is_plan_b (remote_description p)). }
  destruct Hsec as [b Hsec].
  assert (H2 : offered_by p2 = offered_by p).
  { rewrite <- H1. pose proof (generate_sdp_framed offered_by seed random nanos ids false (fun p => media_sections (b p) p) ConnectionRole_Actpass p1) as Hf.
    by rewrite Hsec in Hf. }
  apply generate_sdp_Ok in Hsec as (agent & early & cert & certs & Ha & He & Hc & Hd).
  unfold offered_by in H2. injection H2 as Ho Hs Ht. rewrite <- Hs in Hreq. destruct (media_sections_one (b p2) p2 Hreq) as (mid & Hm & Htok).
  rewrite Hm in Hd. injection Horigin as Horigin <-. revert H. st_run. intros [= <- <-].
  exists agent, early, cert, certs, mid, origin, d0, d. rewrite <- Ht, <- Ho. by split_and!.
Qed.

End offer.


(** * The offer of the run of [RtcSample.v] *)
#[local] Existing Instance sample_env.
#[local] Existing Instance sample_primitives.
#[local] Existing Instance sample_urls.
#[local] Existing Instance dev_profile.

Definition sample_offer_made : RTCSessionDescription :=
  match fst (create_offer (sample_seed 1) 1234567 89 sample_ids channel_requested) with
  | Ok o => o
  | _ => mkRTCSessionDescription RTCSdpType_Offer [] None
  end.

(** A candidate of the machine *)
Definition sample_candidate : RTCIceCandidate :=
  mkRTCIceCandidate [] (chars "12345") 2130706431 (chars "10.0.0.1") RTCIceProtocol_Udp 5000 RTCIceCandidateType_Host 1 [] 0.

Lemma sample_candidate_signallable : signallable sample_candidate.
Proof. split; try done; try concrete. by right; eexists. Qed.

