(* ===== verification/Client.v ===== *)
(** The client ([src/client/src/socket.rs], [addr_cell.rs]): the signalling of
    [Socket::connect] over the peer connection, the address of the server, and the
    loops between the data channel and the channels of the caller. *)
From Stdlib Require Import Strings.String.
From S2P Require Import Prelude Serial Errors Utf8 Stun StunAttrs Text TextLaws IpText Sdp SdpLaws Chunk ReassemblyQueue Stream Assoc DataChannel DtlsTypes DtlsCrypto DtlsSuite IceCandidate IceAgent IceSelector IceApi IceMessage IceSample IceSystem RtcTypes RtcSdp RtcPeer RtcSample RtcLaws.

Definition MESSAGE_SIZE : nat := 1500.

(** What the client relies on outside the sources: the values of [tinyjson], with
    their index, which has no value where the crate panics; and the captures
    [ip_addr] and [port] of the expression of [candidate_to_addr] ([regex]). *)
Class ClientEnv := {
  Json : Type;
  json_parse : str -> option Json;
  json_index : Json -> str -> option Json;
  json_string : Json -> option str;
  addr_captures : str -> option (str * str)
}.

(** * [AddrCell] *)
Inductive ServerAddr : Type := AddrFound (a : SocketAddr) | AddrFinding.

Definition AddrCell_default : ServerAddr := AddrFinding.

(** [AddrCell::get]: the lock may be taken by another task. *)
Definition AddrCell_get (locked : bool) (cell : ServerAddr) : ServerAddr := if locked then AddrFinding else cell.

(** [str::parse::<Ipv4Addr>] *)
Definition parse_ipv4 (s : str) : option bytes := match read_ipv4 s with Some (o, []) => Some o | _ => None end.

Section client.
Context {cenv : ClientEnv}.

Definition candidate_to_addr {E} (candidate_str : str) : res E ServerAddr :=
  match addr_captures candidate_str with
  | None => Panic
  | Some (ip_addr, port) =>
      match parse_ipv4 ip_addr, parse_unsigned 16 port with
      | Some ip, Ok port => Ok (AddrFound (mkSocketAddr (V4 ip) port))
      | _, _ => Panic
      end
  end.

(** * The response of the server *)
Record JsSessionResponse := mkJsSessionResponse { js_answer : str; js_candidate : str }.

Definition json_text (json_obj : Json) (key key' : string) : option str :=
  inner ← json_index json_obj (chars key);
  value ← json_index inner (chars key');
  json_string value.

Definition get_session_response {E} (input : str) : res E JsSessionResponse :=
  match json_parse input with
  | None => Panic
  | Some json_obj =>
      match json_text json_obj "answer" "sdp" with
      | None => Panic
      | Some sdp =>
          match json_text json_obj "candidate" "candidate" with
          | None => Panic
          | Some candidate => Ok (mkJsSessionResponse sdp candidate)
          end
      end
  end.

(** * [Socket::connect] *)
Context {P : Profile} {env : IceEnv} {prim : Primitives} {urls : Urls} {penv : PeerEnv}.

Record Request := mkRequest { hr_url : str; hr_content_length : nat; hr_body : str }.

Record Client := mkClient { cl_peer : Peer; cl_addr : ServerAddr; cl_requests : list Request }.

#[export] Instance Client_settable : Settable Client := fun c => mkClient (cl_peer c) (cl_addr c) (cl_requests c).

Abbreviation CM A := (ST Client Empty_set A).

(** [expect] and [unwrap] *)
Definition expect {A} (m : ST Peer WebrtcError A) : CM A := fun c =>
  let '(r, p) := m (cl_peer c) in
  (match r with Ok a => Ok a | OutOfFuel => OutOfFuel | _ => Panic end, c <| cl_peer := p |>).

Definition unwrap {E A} (r : res E A) : CM A :=
  st_lift (match r with Ok a => Ok a | OutOfFuel => OutOfFuel | _ => Panic end).

(** What the spawned tasks do: gathering, the agent, the operations, the association,
    and the handler of [on_open], which detaches the channel *)
Definition is_task (e : PeerEvent) : bool :=
  match e with
  | GatheringRuns _ _ _ | AgentRuns _ | AssociationRuns _ | Detach _ | NextOperation _ _ | OperationIce _ | OperationDtls _ _
  | OperationSctp _ _ => true
  | _ => false
  end.

(** The tasks that run while [connect] waits.  Their errors are theirs; a run with a
    task that panics is not followed further. *)
Definition background (events : list PeerEvent) : CM unit :=
  st_for events (fun e c =>
    if is_task e then
      let '(r, p) := peer_event e (cl_peer c) in
      (match r with Panic => Panic | OutOfFuel => OutOfFuel | _ => Ok tt end, c <| cl_peer := p |>)
    else (Ok tt, c)).

(** A request, and what came of it: no response, or one whose text may fail to arrive *)
Inductive Attempt : Type := AttemptFailed | AttemptResponded (text : option str).

(** The loop of the requests: what comes of each of them, and what runs meanwhile *)
Fixpoint post_loop (server_url sdp : str) (attempts : list (Attempt * list PeerEvent)) : CM str :=
  match attempts with
  | [] => st_lift OutOfFuel
  | (attempt, events) :: attempts =>
      _ ← st_modify (fun c => c <| cl_requests ::= (.++ [mkRequest server_url (length (utf8_encode sdp)) sdp]) |>);
      _ ← background events;
      match attempt with
      | AttemptFailed => post_loop server_url sdp attempts
      | AttemptResponded (Some text) => mret text
      | AttemptResponded None => st_lift Panic
      end
  end.

(** What [connect] draws, and what happens while it runs: the tasks at each of its
    waits, and the server *)
Record ConnectRun := mkConnectRun {
  cr_certificate : RTCCertificate;
  cr_seed : AgentSeed;
  cr_random : Z;
  cr_subsec_nanos : Z;
  cr_random_id : nat -> str;
  cr_now : Z;
  cr_background : nat -> list PeerEvent;
  cr_attempts : list (Attempt * list PeerEvent)
}.

Definition connect_start (run : ConnectRun) : Client := mkClient (Peer_new (cr_certificate run)) AddrCell_default [].

(** The part up to the request *)
Definition connect_offer (run : ConnectRun) : CM str :=
  data_channel ← expect (create_data_channel (cr_now run) (bytes_of_string "data") []);
  _ ← st_modify (fun c => c <| cl_peer ::= fun p => snd (on_channel data_channel (fun d => (tt, on_open d)) tt p) |>);
  _ ← background (cr_background run 0%nat);
  offer ← expect (create_offer (cr_seed run) (cr_random run) (cr_subsec_nanos run) (cr_random_id run));
  _ ← background (cr_background run 1%nat);
  _ ← expect (set_local_description (cr_seed run) offer);
  _ ← background (cr_background run 2%nat);
  local ← expect (local_description (cr_seed run) (cr_random_id run));
  match local with Some d => mret (rs_sdp d) | None => st_lift Panic end.

(** The part after the response *)
Definition connect_answer (run : ConnectRun) (response_string : str) : CM unit :=
  session_response ← st_lift (get_session_response response_string);
  session_description ← unwrap (RTCSessionDescription_answer (js_answer session_response));
  _ ← expect (set_remote_description (cr_seed run) (cr_random_id run) session_description);
  _ ← background (cr_background run 3%nat);
  addr ← st_lift (candidate_to_addr (js_candidate session_response));
  _ ← st_modify (fun c => c <| cl_addr := addr |>);
  expect (add_ice_candidate (cr_seed run) (cr_random_id run 0%nat) (js_candidate session_response)).

Definition connect (server_url : str) (run : ConnectRun) : CM unit :=
  sdp ← connect_offer run;
  response_string ← post_loop server_url sdp (cr_attempts run);
  connect_answer run response_string.

(** * The loops *)

(** [read_loop]: the stream of the channel, the buffer, what was sent to the caller
    and whether the caller still receives *)
Record Reading := mkReading {
  rd_shared : Shared;
  rd_stream : Stream;
  rd_buffer : bytes;
  rd_to_client : list bytes;
  rd_receiver : bool
}.

Definition Reading_new (sh : Shared) (s : Stream) : Reading := mkReading sh s (replicate MESSAGE_SIZE Byte.x00) [] true.

(** One round, up to a wait; whether the loop goes on *)
Definition read_loop_round (now : Z) : ST Reading Empty_set bool := fun l =>
  let '(r, (sh, s, buf)) := read_data_channel_round now (rd_shared l, rd_stream l, rd_buffer l) in
  let l := mkReading sh s buf (rd_to_client l) (rd_receiver l) in
  match r with
  | Ok None => (Ok true, l)
  | Ok (Some (message_length, _)) =>
      if (length buf <? message_length)%nat then (Panic, l)
      else if rd_receiver l
      then (Ok true, mkReading sh s buf (rd_to_client l ++ [take message_length buf]) (rd_receiver l))
      else (Ok false, l)
  | Err _ => (Ok false, l)
  | Panic => (Panic, l)
  | OutOfFuel => (OutOfFuel, l)
  end.

(** [write_loop]: a message of the caller, or that there will be none *)
Definition write_loop_round (now : Z) (write_message : option bytes) : ST (Shared * Stream) Empty_set bool := fun st =>
  match write_message with
  | None => (Ok false, st)
  | Some data =>
      let '(r, st) := write_data_channel now data false st in
      (match r with Ok _ => Ok true | Err _ => Ok false | Panic => Panic | OutOfFuel => OutOfFuel end, st)
  end.
End client.

Section loop.
Context {P : Profile}.

(** The loop over so many rounds, each of which finds a message *)
Fixpoint read_loop (now : Z) (rounds : nat) : ST Reading Empty_set bool :=
  match rounds with
  | O => mret true
  | S rounds => goes_on ← read_loop_round now; if (goes_on : bool) then read_loop now rounds else mret false
  end.

(** A complete message of binary data *)
Definition binary_message (cset : ChunkSet) : Prop :=
  cs_ppi cset = Binary.

Definition message (cset : ChunkSet) : bytes := chunks_data (cs_chunks cset).

(** The messages up to the first one that does not fit *)
Fixpoint fitting (csets : list ChunkSet) : list bytes :=
  match csets with
  | cset :: csets => if (length (message cset) <=? MESSAGE_SIZE)%nat then message cset :: fitting csets else []
  | [] => []
  end.

Record reads (l : Reading) (csets : list ChunkSet) : Prop := {
  re_open : st_closed (rd_stream l) = false;
  re_queue : rq_unordered (st_reassembly_queue (rd_stream l)) = csets;
  re_bytes : 0 <= rq_n_bytes (st_reassembly_queue (rd_stream l));
  re_buffer : length (rd_buffer l) = MESSAGE_SIZE;
  re_receiver : rd_receiver l = true
}.

Lemma stream_close_returns now st : exists st', stream_close now st = (Ok tt, st') \/ exists e, stream_close now st = (Err e, st').
Proof.
  unfold stream_close, send_reset_request, st_when, modify_shared, modify_stream. st_run.
  destruct (st_closed (snd st)); cbn; [eexists; by left|].
  destruct (decide _); cbn; eexists; [right; by eexists|by left].
Qed.

Lemma read_loop_round_fits now l cset csets : reads l (cset :: csets) -> binary_message cset -> (length (message cset) <= MESSAGE_SIZE)%nat ->
  exists l', read_loop_round now l = (Ok true, l') /\ reads l' csets /\ rd_to_client l' = rd_to_client l ++ [message cset].
Proof.
  intros [Ho Hq Hb Hl Hr] Hbin Hlen. destruct l as [sh s buf out rcv]. cbn in *. subst rcv.
  unfold read_loop_round, read_data_channel_round, read_attempt. cbn [rd_shared rd_stream rd_buffer rd_to_client rd_receiver].
  rewrite Ho. destruct (rq_read_unordered (st_reassembly_queue s) buf cset csets Hq Hb) as (buf' & Hread & Hl' & Ht).
  rewrite Hread. unfold message in *. rewrite leb_true by lia. cbn [deliver]. rewrite Hbin. cbn [deliver].
  rewrite ltb_false by lia. eexists. split; [reflexivity|]. split; [split; cbn; try done; lia|]. cbn. by rewrite Ht, take_ge by lia.
Qed.

Lemma read_loop_round_short now l cset csets : reads l (cset :: csets) -> (MESSAGE_SIZE < length (message cset))%nat ->
  exists l', read_loop_round now l = (Ok false, l') /\ rd_to_client l' = rd_to_client l.
Proof.
  intros [Ho Hq Hb Hl Hr] Hlen. destruct l as [sh s buf out rcv]. cbn in *. subst rcv.
  unfold read_loop_round, read_data_channel_round, read_attempt. cbn [rd_shared rd_stream rd_buffer rd_to_client rd_receiver].
  rewrite Ho. destruct (rq_read_unordered (st_reassembly_queue s) buf cset csets Hq Hb) as (buf' & Hread & Hl' & Ht).
  rewrite Hread. unfold message in *. rewrite leb_false by lia.
  match goal with |- context [stream_close now ?st] => destruct (stream_close_returns now st) as ([sh' s'] & [->|[e ->]]) end; by eexists.
Qed.

End loop.

(** * The negotiation of [connect] *)
Section negotiation.
Context {cenv : ClientEnv} {P : Profile} {env : IceEnv} {prim : Primitives} {urls : Urls} {penv : PeerEnv}.

Abbreviation CM A := (ST Client Empty_set A).

#[local] Instance negotiation_framed : Framed signaling.
Proof. by split. Qed.
#[local] Hint Resolve gather_framed transport_add_remote_candidate_framed : stable.
#[local] Hint Extern 0 (Framed _) => typeclasses eauto : stable.

(** [c'] is what the peer of [c] can come to; with the same negotiation *)
Definition follows (c c' : Client) : Prop := rtc peer_step (cl_peer c) (cl_peer c').
Definition tasks_only (c c' : Client) : Prop := follows c c' /\ signaling (cl_peer c') = signaling (cl_peer c).

Lemma peer_step_of e p r p' : peer_event_wf e -> peer_event e p = (r, p') -> r <> Panic -> r <> OutOfFuel -> peer_step p p'.
Proof. intros Hwf He H1 H2. destruct r as [[]|e'| |]; try done; [by eapply peer_step_ok|by eapply peer_step_err]. Qed.

Lemma is_task_quiet e : is_task e = true -> negotiates e = false.
Proof. by destruct e. Qed.

Lemma background_tasks events c c' : Forall peer_event_wf events -> background events c = (Ok tt, c') ->
  tasks_only c c' /\ cl_addr c' = cl_addr c /\ cl_requests c' = cl_requests c.
Proof.
  intros Hwf. revert c. induction Hwf as [|e events He Hwf IH]; intros c H; [by injection H as <-; repeat split; constructor|].
  unfold background in *. cbn [st_for] in H. apply st_bind_Ok in H as ([] & c1 & H1 & H).
  assert (Hc1 : tasks_only c c1 /\ cl_addr c1 = cl_addr c /\ cl_requests c1 = cl_requests c).
  { destruct (is_task e) eqn:Ht; [|by injection H1 as <-; repeat split; constructor].
    destruct (peer_event e (cl_peer c)) as [r p] eqn:Hp. injection H1 as Hr <-. repeat split; cbn.
    - apply rtc_once. eapply peer_step_of; [exact He|exact Hp|by intros ->..].
    - pose proof (peer_event_signaling e (is_task_quiet e Ht) (cl_peer c)) as Hs. by rewrite Hp in Hs. }
  destruct Hc1 as ((F1 & S1) & A1 & R1). destruct (IH c1 H) as ((F2 & S2) & A2 & R2).
  repeat split; [by unfold follows in *; etrans|congruence..].
Qed.

(** A call that is one of the events *)
Lemma expect_step {A} (m : ST Peer WebrtcError A) e c a c' : peer_event_wf e ->
  (forall p x p', m p = (Ok x, p') -> peer_event e p = (Ok tt, p')) -> expect m c = (Ok a, c') ->
  m (cl_peer c) = (Ok a, cl_peer c') /\ follows c c' /\ cl_addr c' = cl_addr c /\ cl_requests c' = cl_requests c /\
  (negotiates e = false -> signaling (cl_peer c') = signaling (cl_peer c)).
Proof.
  intros Hwf Hev H. unfold expect in H. destruct (m (cl_peer c)) as [r p] eqn:Hm. destruct r; try done. injection H as -> <-.
  apply Hev in Hm as Hp. split; [done|]. split; [apply rtc_once; by eapply peer_step_ok|]. split; [done|]. split; [done|].
  intros Hn. pose proof (peer_event_signaling e Hn (cl_peer c)) as Hs. by rewrite Hp in Hs.
Qed.

(** ... wrapped as the event is *)
Lemma wrapped {A} (m : ST Peer WebrtcError A) p x p' : m p = (Ok x, p') -> (m ≫= fun _ => mret tt) p = (Ok tt, p').
Proof. intros H. unfold mbind, st_bind. by rewrite H. Qed.

Lemma post_loop_posts url sdp attempts c text c' : Forall (fun a => Forall peer_event_wf a.2) attempts ->
  post_loop url sdp attempts c = (Ok text, c') ->
  tasks_only c c' /\ cl_addr c' = cl_addr c /\
  exists n events, attempts !! n = Some (AttemptResponded (Some text), events) /\
    cl_requests c' = cl_requests c ++ replicate (S n) (mkRequest url (length (utf8_encode sdp)) sdp).
Proof.
  intros Hwf. revert c. induction Hwf as [|[attempt events] attempts He Hwf IH]; intros c H; [done|]. cbn [post_loop] in H.
  apply st_bind_Ok in H as ([] & c1 & E & H). injection E as <-. apply st_bind_Ok in H as ([] & c2 & Hb & H).
  apply background_tasks in Hb as ((F & S) & A & R); [|exact He]. cbn in F, S, A, R.
  destruct attempt as [|[t|]]; [| |done].
  - destruct (IH c2 H) as ((F2 & S2) & A2 & n & evs & Hn & R2). split; [split; [by unfold follows in *; etrans|congruence]|]. split; [congruence|].
    exists (Datatypes.S n), evs. split; [exact Hn|]. rewrite R2, R, <- app_assoc. reflexivity.
  - injection H as -> <-. split; [by split|]. split; [done|]. exists 0%nat, events. by rewrite R.
Qed.

(** The loop ends with the first response of the server, after a request for it and one for each that failed before. *)
Lemma post_loop_answered url sdp n text rest c :
  post_loop url sdp (replicate n (AttemptFailed, []) ++ (AttemptResponded (Some text), []) :: rest) c =
  (Ok text, c <| cl_requests ::= (.++ replicate (S n) (mkRequest url (length (utf8_encode sdp)) sdp)) |>).
Proof.
  revert c. induction n as [|n IH]; intros c; [reflexivity|].
  cbn [replicate app post_loop]. unfold background. cbn [st_for]. st_run. rewrite IH. unfold set. cbn. by rewrite <- app_assoc.
Qed.

(** What a description that is accepted leaves *)
Lemma transition_Ok cur next op t f p n p' : transition cur next op t f p = (Ok n, p') -> n = next /\ p' = f p.
Proof.
  unfold transition, check_next_signaling_state. st_run. destruct (_ && _); [done|].
  match goal with |- context [if ?b then Ok next else _] => destruct b end; [|done]. by intros [= <- <-].
Qed.

Lemma set_description_Ok sd op p p' : set_description sd op p = (Ok tt, p') -> exists next p1,
  match op with StateChangeOp_SetLocal => set_local sd (signaling_state p) | StateChangeOp_SetRemote => set_remote sd (signaling_state p) end p
    = (Ok next, p1) /\ p' = p1 <| pc_signaling_state := RTCSignalingState_as_u8 next |>.
Proof.
  unfold set_description. intros H. apply st_bind_Ok in H as (closed & p1 & E & H). injection E as <- <-.
  destruct (pc_is_closed p); [done|]. destruct (bool_decide _); [done|]. apply st_bind_Ok in H as (cur & p1 & E & H). injection E as <- <-.
  apply st_bind_Ok in H as (next & p1 & Hn & H). injection H as <-. exists next, p1. split; [|done]. by destruct op.
Qed.

Lemma set_local_offer sd p p' : set_description sd StateChangeOp_SetLocal p = (Ok tt, p') -> rs_sdp_type sd = RTCSdpType_Offer ->
  signaling_state p' = RTCSignalingState_HaveLocalOffer.
Proof.
  intros H Ht. apply set_description_Ok in H as (next & p1 & H & ->). unfold set_local in H. rewrite Ht in H. revert H. st_run.
  destruct (negb _); [done|]. intros [-> _]%transition_Ok. reflexivity.
Qed.

Lemma set_remote_answer sd p p' : set_description sd StateChangeOp_SetRemote p = (Ok tt, p') -> rs_sdp_type sd = RTCSdpType_Answer ->
  signaling_state p' = RTCSignalingState_Stable /\ pc_current_remote_description p' = Some sd.
Proof.
  intros H Ht. apply set_description_Ok in H as (next & p1 & H & ->). unfold set_remote in H. rewrite Ht in H.
  apply transition_Ok in H as [-> ->]. split; reflexivity.
Qed.

(** What [shows] tells of the phase *)
Lemma shows_state p j : shows p j -> signaling_state p =
  match j_phase j with
  | JStable => RTCSignalingState_Stable
  | JLocalOffer _ => RTCSignalingState_HaveLocalOffer
  | JRemoteOffer _ => RTCSignalingState_HaveRemoteOffer
  | JRemotePranswer _ _ => RTCSignalingState_HaveRemotePranswer
  end.
Proof.
  unfold shows, signaling, jsep_fields, signaling_state. intros H. injection H as -> _. by destruct (j_phase j).
Qed.

Lemma shows_of p p' j : signaling p' = signaling p -> shows p j -> shows p' j.
Proof. unfold shows. by intros ->. Qed.

Lemma set_local_shows seed o p p' : set_local_description seed o p = (Ok tt, p') -> rs_sdp_type o = RTCSdpType_Offer ->
  shows p jsep_start -> exists offer, described RTCSdpType_Offer offer /\ shows p' (mkJsep None (JLocalOffer offer)).
Proof.
  intros H Ht Hs. assert (Hst : signaling_state p' = RTCSignalingState_HaveLocalOffer).
  { unfold set_local_description in H. apply st_bind_Ok in H as (closed & p1 & E & H). injection E as <- <-.
    destruct (pc_is_closed p); [done|]. apply st_bind_Ok in H as (last_offer & p1 & E & H). injection E as <- <-.
    apply st_bind_Ok in H as (sdp & p1 & E & H). assert (p1 = p) as -> by (revert E; repeat case_match; by intros [=]).
    apply st_bind_Ok in H as (parsed & p1 & E' & H). injection E' as _ <-. apply st_bind_Ok in H as ([] & p2 & Hd & H).
    apply set_local_offer in Hd; [|done]. apply st_bind_Ok in H as (gs & p3 & E' & H). injection E' as <- <-.
    assert (Hq : signaling p' = signaling p2); [|unfold signaling_state in *; unfold signaling in Hq; congruence].
    destruct (bool_decide _) in H; [|by injection H as <-]. pose proof (gather_framed signaling seed p2) as Hf. by rewrite H in Hf. }
  destruct (set_local_description_simulates seed o p _ Hs) as (j' & Hj & Hs'). rewrite H in Hs'. cbn in Hs'.
  apply shows_state in Hs' as Hp. rewrite Hst in Hp. destruct Hj as [->|Hj]; [discriminate Hp|].
  inversion Hj; subst; try discriminate Hp. by eexists.
Qed.

Lemma set_remote_shows seed ids desc p p' c offer : set_remote_description seed ids desc p = (Ok tt, p') ->
  rs_sdp_type desc = RTCSdpType_Answer -> shows p (mkJsep c (JLocalOffer offer)) ->
  exists answer, described RTCSdpType_Answer answer /\ rs_sdp answer = rs_sdp desc /\ shows p' (mkJsep (Some (offer, answer)) JStable).
Proof.
  intros H Ht Hs.
  assert (Hst : signaling_state p' = RTCSignalingState_Stable /\ rs_sdp <$> pc_current_remote_description p' = Some (rs_sdp desc)).
  { unfold set_remote_description in H. apply st_bind_Ok in H as (closed & p1 & E & H). injection E as <- <-.
    destruct (pc_is_closed p); [done|]. apply st_bind_Ok in H as (parsed & p1 & E & H). injection E as _ <-.
    apply st_bind_Ok in H as ([] & p2 & Hd & H). apply set_remote_answer in Hd as [H1 H2]; [|done].
    assert (Hq : signaling p' = signaling p2).
    { match type of H with ?m p2 = _ => assert (Hf : stable signaling m) by (clear; stab) end. specialize (Hf p2). by rewrite H in Hf. }
    unfold signaling_state in *. unfold signaling in Hq. injection Hq as Hq1 _ _ _ Hq2 _ _. rewrite Hq1, Hq2, H2. done. }
  destruct Hst as [Hst Hr]. destruct (set_remote_description_simulates seed ids desc p _ Hs) as (j' & Hj & Hs'). rewrite H in Hs'. cbn in Hs'.
  apply shows_state in Hs' as Hp. rewrite Hst in Hp. destruct Hj as [->|Hj]; [discriminate Hp|].
  inversion Hj; subst; try discriminate Hp. eexists. split; [eassumption|]. split; [|exact Hs'].
  unfold shows, signaling, jsep_fields in Hs'. cbn in Hs'. injection Hs' as _ _ _ _ Hc _ _. rewrite Hc in Hr. by injection Hr.
Qed.

Lemma create_offer_type seed random nanos ids p o p' : create_offer seed random nanos ids p = (Ok o, p') -> rs_sdp_type o = RTCSdpType_Offer.
Proof.
  unfold create_offer. intros H. do 2 (apply st_bind_Ok in H as (? & ? & _ & H)). cbv zeta in H.
  repeat (case_match; [done|]). do 3 (apply st_bind_Ok in H as (? & ? & _ & H)). apply st_bind_Ok in H as (? & ? & _ & H).
  apply st_bind_Ok in H as ([origin d] & ? & _ & H). do 2 (apply st_bind_Ok in H as (? & ? & _ & H)). by injection H as <- _.
Qed.

Lemma answer_type sdp d : RTCSessionDescription_answer sdp = Ok d -> rs_sdp_type d = RTCSdpType_Answer /\ rs_sdp d = sdp.
Proof. unfold RTCSessionDescription_answer. intros H. apply bind_Ok in H as (parsed & _ & H). by injection H as <-. Qed.

Lemma reachable_follows c c' : follows c c' -> peer_reachable (cl_peer c) -> peer_reachable (cl_peer c').
Proof. intros F [cert H]. exists cert. unfold follows in F. by etrans. Qed.

Lemma on_open_event i p : peer_event (OnOpen i) p = (Ok tt, snd (on_channel i (fun d => (tt, on_open d)) tt p)).
Proof. cbn [peer_event]. by destruct (on_channel _ _ _ _). Qed.

Lemma connect_offer_shows run sdp c : (forall k, Forall peer_event_wf (cr_background run k)) ->
  connect_offer run (connect_start run) = (Ok sdp, c) ->
  peer_reachable (cl_peer c) /\ cl_addr c = AddrCell_default /\ cl_requests c = [] /\
  exists o, described RTCSdpType_Offer o /\ shows (cl_peer c) (mkJsep None (JLocalOffer o)).
Proof.
  intros Hwf H. unfold connect_offer in H.
  apply st_bind_Ok in H as (i & c1 & H1 & H).
  apply (expect_step _ (CreateDataChannel (cr_now run) (bytes_of_string "data") [])) in H1 as (_ & F1 & A1 & R1 & S1); [|done|intros ???; apply wrapped].
  apply st_bind_Ok in H as ([] & c2 & H2 & H). injection H2 as H2.
  assert (H2' : tasks_only c1 c2 /\ cl_addr c2 = cl_addr c1 /\ cl_requests c2 = cl_requests c1).
  { rewrite <- H2. repeat split; cbn.
    - apply rtc_once, (peer_step_ok (OnOpen i)); [done|]. apply on_open_event.
    - pose proof (peer_event_signaling (OnOpen i) eq_refl (cl_peer c1)) as Hs. by rewrite on_open_event in Hs. }
  clear H2. destruct H2' as ((F2 & S2) & A2 & R2).
  apply st_bind_Ok in H as ([] & c3 & H3 & H). apply background_tasks in H3 as ((F3 & S3) & A3 & R3); [|apply Hwf].
  apply st_bind_Ok in H as (o & c4 & H4 & H).
  apply (expect_step _ (CreateOffer (cr_seed run) (cr_random run) (cr_subsec_nanos run) (cr_random_id run))) in H4 as (E4 & F4 & A4 & R4 & S4);
    [|done|intros ???; apply wrapped].
  apply create_offer_type in E4. apply st_bind_Ok in H as ([] & c5 & H5 & H). apply background_tasks in H5 as ((F5 & S5) & A5 & R5); [|apply Hwf].
  apply st_bind_Ok in H as ([] & c6 & H6 & H).
  apply (expect_step _ (SetLocalDescription (cr_seed run) o)) in H6 as (E6 & F6 & A6 & R6 & _); [|done|by intros ? [] ?].
  apply st_bind_Ok in H as ([] & c7 & H7 & H). apply background_tasks in H7 as ((F7 & S7) & A7 & R7); [|apply Hwf].
  apply st_bind_Ok in H as (local & c8 & H8 & H).
  apply (expect_step _ (LocalDescription (cr_seed run) (cr_random_id run))) in H8 as (_ & F8 & A8 & R8 & S8); [|done|intros ???; apply wrapped].
  destruct local as [d|]; [|done]. injection H as _ <-.
  apply set_local_shows in E6 as (offer & Ho & Hs); [| |].
  - split; [|split; [|split]].
    + do 7 (eapply reachable_follows; [eassumption|]). by exists (cr_certificate run).
    + cbn in A1. congruence.
    + cbn in R1. congruence.
    + exists offer. split; [exact Ho|]. eapply shows_of; [|exact Hs]. rewrite S8 by done. exact S7.
  - exact E4.
  - assert (shows (cl_peer (connect_start run)) jsep_start) as H0 by done. eapply shows_of; [|exact H0].
    rewrite S5, S4, S3, S2 by done. by apply S1.
Qed.

End negotiation.

(** * A run of the client, with that of [RtcSample.v] *)

(** Values of text and objects; a response is the answer and the candidate, with a bar between them. *)
Inductive SampleJson : Type := JText (s : str) | JEmpty | JField (key : string) (value rest : SampleJson).

Fixpoint field (json : SampleJson) (key : str) : option SampleJson :=
  match json with
  | JField k v rest => if bool_decide (chars k = key) then Some v else field rest key
  | _ => None
  end.

Definition sample_json (input : str) : option SampleJson :=
  match split_on 124 input with
  | [answer; candidate] =>
      Some (JField "answer" (JField "sdp" (JText answer) JEmpty) (JField "candidate" (JField "candidate" (JText candidate) JEmpty) JEmpty))
  | _ => None
  end.

(** The address is the fifth word of a candidate, and its port the sixth. *)
Definition sample_captures (s : str) : option (str * str) :=
  match split_whitespace s with
  | _ :: _ :: _ :: _ :: ip :: port :: _ => if bool_decide (is_Some (parse_ipv4 ip)) then Some (ip, port) else None
  | _ => None
  end.

#[local] Instance sample_client_env : ClientEnv := {|
  Json := SampleJson;
  json_parse := sample_json;
  json_index := field;
  json_string j := match j with JText s => Some s | _ => None end;
  addr_captures := sample_captures
|}.
#[local] Existing Instance sample_env.
#[local] Existing Instance sample_primitives.
#[local] Existing Instance sample_urls.
#[local] Existing Instance dev_profile.

Definition sample_candidate_text : str := chars "candidate:1 1 UDP 2130706431 10.0.0.2 5000 typ host".

Definition sample_response : str := answer_text ++ chars "|" ++ sample_candidate_text.

(** The gathering ends after the text of the offer is taken; the first request fails. *)
Definition sample_connect : ConnectRun := {|
  cr_certificate := sample_rtc_certificate;
  cr_seed := sample_seed 1;
  cr_random := 1234567;
  cr_subsec_nanos := 89;
  cr_random_id := sample_ids;
  cr_now := 0;
  cr_background k := match k with 3%nat => [NextOperation (sample_seed 1) 0] | _ => [] end;
  cr_attempts := [(AttemptFailed, [GatheringRuns (fun _ => Some 5000) (fun _ => chars "id") [sample_ip 1]]);
                  (AttemptResponded (Some sample_response), [])]
|}.

Lemma second_attempt (evs evs' events : list PeerEvent) r n text :
  [(AttemptFailed, evs); (AttemptResponded (Some r), evs')] !! n = Some (AttemptResponded (Some text), events) -> n = 1%nat /\ text = r.
Proof. destruct n as [|[|n]]; [done|by intros [= -> _]|]. intros H. by rewrite lookup_ge_None_2 in H by (cbn; lia). Qed.

Definition sample_connected : Client := snd (connect (chars "http://10.0.0.2:80/session") sample_connect (connect_start sample_connect)).


(** A channel that received two messages that fit, one that does not, and another one *)
Definition sample_message (n : nat) : ChunkSet :=
  mkChunkSet 0 Binary [(ChunkPayloadData_default (mkFresh 0 0)) <| pd_user_data := replicate n Byte.x2a |>].

Definition sample_messages : list ChunkSet := map sample_message [3; 1500; 1501; 4]%nat.

Definition sample_reading : Reading :=
  Reading_new (a_shared sample_association)
    ((Stream_new 0 1200) <| st_reassembly_queue := (ReassemblyQueue_new 0) <| rq_unordered := sample_messages |> <| rq_n_bytes := 3008 |> |>).

