(* ===== verification/Vnet.v ===== *)
(** The virtual network ([util/vnet]): the connections of a host and the map that finds
    them by their port ([conn.rs], [conn_map.rs]), the host with its interfaces
    ([net.rs], [interface.rs]), what travels between them ([chunk.rs],
    [chunk_queue.rs]), and the inbound side of a router and its NAT ([router.rs], [nat.rs]). *)
From Stdlib Require Import Strings.String.
From S2P Require Import Prelude StunAttrs Text TextLaws IpText IceApi.

(** * Errors, those of the network in [util/error.rs] *)
Inductive VnetError : Type :=
  | ErrLocAddr | ErrAlreadyClosed | ErrNoRemAddr | ErrAddressAlreadyInUse | ErrNoSuchUdpConn | ErrCannotRemoveUnspecifiedIp
  | ErrNoAddressAssigned | ErrNatRequriesMapping | ErrMismatchLengthIp | ErrNonUdpTranslationNotSupported
  | ErrNoAssociatedLocalAddress | ErrNoNatBindingFound | ErrHasNoPermission | ErrHostnameEmpty | ErrFailedToParseIpaddr
  | ErrNoInterface | ErrNotFound | ErrUnexpectedNetwork | ErrCantAssignRequestedAddr | ErrUnknownNetwork | ErrNoRouterLinked
  | ErrInvalidPortNumber | ErrUnexpectedTypeSwitchFailure | ErrBindFailed | ErrEndPortLessThanStart | ErrPortSpaceExhausted
  | ErrVnetDisabled | ErrInvalidLocalIpInStaticIps | ErrLocalIpBeyondStaticIpsSubset | ErrLocalIpNoStaticsIpsAssociated
  | ErrRouterAlreadyStarted | ErrRouterAlreadyStopped | ErrStaticIpIsBeyondSubnet | ErrAddressSpaceExhausted | ErrNoIpaddrEth0
  | ErrInvalidMask | ParseIpnet | ParseIp | ParseInt | IoConnectionAborted | DropChunk (chunk : str) (reason : VnetError).

(** What the network relies on outside the sources: the type of [ipnet], its address
    and its reading from text *)
Class IpNets := {
  IpNet : Type;
  net_addr : IpNet -> IpAddr;
  net_of_text : str -> option IpNet
}.

(** * Addresses *)
Definition is_unspecified (ip : IpAddr) : bool := forallb (fun b => u8_of_byte b =? 0) (octets ip).

(** [SocketAddr]: its text and its reading *)
Definition socket_addr_to_string (a : SocketAddr) : str :=
  match sa_ip a with
  | V4 _ => ip_to_string (sa_ip a)
  | V6 _ => chars "[" ++ ip_to_string (sa_ip a) ++ chars "]"
  end ++ chars ":" ++ print_int (sa_port a).

Definition read_port (s : str) : option Z :=
  match read_char 58 s with
  | Some s => match read_number 10 65535 (length s) true s with Some (port, []) => Some port | _ => None end
  | None => None
  end.

(** [%] and the scope, which the model does not keep *)
Definition skip_scope (s : str) : str :=
  match read_char 37 s with
  | Some s' => match read_number 10 (2 ^ 32 - 1) (length s') true s' with Some (_, s'') => s'' | None => s end
  | None => s
  end.

Definition read_bracketed_ipv6 (s : str) : option (bytes * str) :=
  match read_char 91 s with
  | Some s => match read_ipv6 s with
              | Some (o, s) => match read_char 93 (skip_scope s) with Some s => Some (o, s) | None => None end
              | None => None
              end
  | None => None
  end.

Definition parse_socket_addr (s : str) : option SocketAddr :=
  match read_ipv4 s with
  | Some (o, s) => mkSocketAddr (V4 o) <$> read_port s
  | None => match read_bracketed_ipv6 s with
            | Some (o, s) => mkSocketAddr (V6 o) <$> read_port s
            | None => None
            end
  end.

(** * What travels: [chunk.rs] *)
Fixpoint base36_digits (fuel : nat) (value : Z) (digits : str) : str :=
  match fuel with
  | O => digits
  | S fuel =>
      if value =? 0 then digits
      else base36_digits fuel (value / 36)
             ((let digit := value mod 36 in if digit <? 10 then 48 + digit else 87 + digit) :: digits)
  end.

(** A [u64] has thirteen digits at most. *)
Definition base36 (value : Z) : str :=
  let digits := base36_digits 13 value [] in replicate (8 - length digits) 48 ++ digits.

Definition TcpFlag : Type := Z.
Definition TCP_FLAG_ZERO : TcpFlag := 0.
Definition TCP_FLAG_FIN : TcpFlag := 1.
Definition TCP_FLAG_SYN : TcpFlag := 2.
Definition TCP_FLAG_RST : TcpFlag := 4.
Definition TCP_FLAG_PSH : TcpFlag := 8.
Definition TCP_FLAG_ACK : TcpFlag := 16.

Definition tcp_flag_to_string (flags : TcpFlag) : str :=
  join (chars "-") (List.map snd (List.filter (fun '(f, _) => negb (Z.land flags f =? TCP_FLAG_ZERO))
    [(TCP_FLAG_FIN, chars "FIN"); (TCP_FLAG_SYN, chars "SYN"); (TCP_FLAG_RST, chars "RST"); (TCP_FLAG_PSH, chars "PSH"); (TCP_FLAG_ACK, chars "ACK")])).

Record ChunkIp := mkChunkIp { ci_timestamp : Z; ci_source_ip : IpAddr; ci_destination_ip : IpAddr; ci_tag : str }.

#[export] Instance ChunkIp_settable : Settable ChunkIp := fun c =>
  mkChunkIp (ci_timestamp c) (ci_source_ip c) (ci_destination_ip c) (ci_tag c).

(** [ChunkUdp] and, with flags, [ChunkTcp] *)
Record Chunk := mkChunk {
  ck_ip : ChunkIp;
  ck_source_port : Z;
  ck_destination_port : Z;
  ck_flags : option TcpFlag;
  ck_user_data : bytes
}.

#[export] Instance Chunk_settable : Settable Chunk := fun c =>
  mkChunk (ck_ip c) (ck_source_port c) (ck_destination_port c) (ck_flags c) (ck_user_data c).

Definition UDP_STR : str := chars "udp".

Definition network (c : Chunk) : str := match ck_flags c with None => UDP_STR | Some _ => chars "tcp" end.
Definition source_addr (c : Chunk) : SocketAddr := mkSocketAddr (ci_source_ip (ck_ip c)) (ck_source_port c).
Definition destination_addr (c : Chunk) : SocketAddr := mkSocketAddr (ci_destination_ip (ck_ip c)) (ck_destination_port c).

Definition chunk_to_string (c : Chunk) : str :=
  network c ++ (match ck_flags c with None => [] | Some flags => chars " " ++ tcp_flag_to_string flags end) ++ chars " chunk "
  ++ ci_tag (ck_ip c) ++ chars " " ++ socket_addr_to_string (source_addr c) ++ chars " => " ++ socket_addr_to_string (destination_addr c).

Definition set_timestamp (now : Z) (c : Chunk) : Chunk := c <| ck_ip ::= fun i => i <| ci_timestamp := now |> |>.

Definition set_source_addr (address : str) (c : Chunk) : res VnetError Chunk :=
  match parse_socket_addr address with
  | Some addr => Ok (c <| ck_ip ::= fun i => i <| ci_source_ip := sa_ip addr |> |> <| ck_source_port := sa_port addr |>)
  | None => Err ParseIp
  end.

Definition set_destination_addr (address : str) (c : Chunk) : res VnetError Chunk :=
  match parse_socket_addr address with
  | Some addr => Ok (c <| ck_ip ::= fun i => i <| ci_destination_ip := sa_ip addr |> |> <| ck_destination_port := sa_port addr |>)
  | None => Err ParseIp
  end.

Definition ChunkUdp_new (now : Z) (tag : Z) (src_addr dst_addr : SocketAddr) : Chunk :=
  mkChunk (mkChunkIp now (sa_ip src_addr) (sa_ip dst_addr) (base36 tag)) (sa_port src_addr) (sa_port dst_addr) None [].

(** * Queues *)
Record ChunkQueue := mkChunkQueue { cq_chunks : list Chunk; cq_max_size : nat }.

Definition ChunkQueue_push (c : Chunk) (q : ChunkQueue) : bool * ChunkQueue :=
  if (0 <? cq_max_size q)%nat && (cq_max_size q <=? length (cq_chunks q))%nat then (false, q)
  else (true, mkChunkQueue (cq_chunks q ++ [c]) (cq_max_size q)).

(** * NAT: [nat.rs] *)
Inductive NatMode : Type := NatNormal | Nat1To1.

#[export] Instance NatMode_eq_dec : EqDecision NatMode.
Proof. solve_decision. Defined.

(** [EndpointDependencyType] has one constructor, and so no field here. *)
Record Mapping := mkMapping { mp_proto : str; mp_local : str; mp_mapped : str; mp_bound : str; mp_filters : list str; mp_expires : Z }.

Record NetworkAddressTranslator := mkNat {
  nt_mode : NatMode;
  nt_mapped_ips : list IpAddr;
  nt_local_ips : list IpAddr;
  nt_outbound_map : gmap str Mapping;
  nt_inbound_map : gmap str Mapping
}.

#[export] Instance Nat_settable : Settable NetworkAddressTranslator := fun n =>
  mkNat (nt_mode n) (nt_mapped_ips n) (nt_local_ips n) (nt_outbound_map n) (nt_inbound_map n).

(** The loop over the mapped addresses from [i] *)
Fixpoint paired_local_ip (mapped_ip : IpAddr) (local_ips : list IpAddr) (i : nat) (mapped_ips : list IpAddr) : option IpAddr :=
  match mapped_ips with
  | [] => None
  | ip :: mapped_ips => if bool_decide (ip = mapped_ip) then local_ips !! i else paired_local_ip mapped_ip local_ips (S i) mapped_ips
  end.

Definition get_paired_local_ip (n : NetworkAddressTranslator) (mapped_ip : IpAddr) : option IpAddr :=
  paired_local_ip mapped_ip (nt_local_ips n) 0 (nt_mapped_ips n).

Definition get_outbound_map_key (m : Mapping) : str := mp_proto m ++ chars ":" ++ mp_local m ++ chars ":" ++ mp_bound m.
Definition get_inbound_map_key (m : Mapping) : str := mp_proto m ++ chars ":" ++ mp_mapped m.

Definition find_inbound_mapping (now : Z) (i_key : str) (n : NetworkAddressTranslator) : option Mapping * NetworkAddressTranslator :=
  let n := match nt_inbound_map n !! i_key with
           | Some m => if mp_expires m <=? now
                       then n <| nt_inbound_map ::= delete (get_inbound_map_key m) |> <| nt_outbound_map ::= delete (get_outbound_map_key m) |>
                       else n
           | None => n
           end in
  (nt_inbound_map n !! i_key, n).

Definition translate_inbound (now : Z) (from : Chunk) : ST NetworkAddressTranslator VnetError (option Chunk) := fun n =>
  if bool_decide (network from = UDP_STR) then
    if bool_decide (nt_mode n = Nat1To1) then
      match get_paired_local_ip n (sa_ip (destination_addr from)) with
      | Some dst_ip =>
          (to ← set_destination_addr (ip_to_string dst_ip ++ chars ":" ++ print_int (sa_port (destination_addr from))) from; Ok (Some to), n)
      | None => (Err (DropChunk (chunk_to_string from) ErrNoAssociatedLocalAddress), n)
      end
    else
      let filter_key : str := [] in
      let i_key := chars "udp:" ++ socket_addr_to_string (destination_addr from) in
      let '(found, n) := find_inbound_mapping now i_key n in
      match found with
      | Some m =>
          if bool_decide (filter_key ∈ mp_filters m) then (to ← set_destination_addr (mp_local m) from; Ok (Some to), n)
          else (Err (DropChunk (chunk_to_string from) ErrHasNoPermission), n)
      | None => (Err (DropChunk (chunk_to_string from) ErrNoNatBindingFound), n)
      end
  else (Err ErrNonUdpTranslationNotSupported, n).

(** * The router of the host: the queue, whether it runs, and its NAT *)
Record Router := mkRouter { ro_queue : ChunkQueue; ro_done : bool; ro_nat : NetworkAddressTranslator }.

Definition Router_push (now : Z) (c : Chunk) (r : Router) : Router :=
  if ro_done r then mkRouter (snd (ChunkQueue_push (set_timestamp now c) (ro_queue r))) (ro_done r) (ro_nat r) else r.

Definition Router_on_inbound_chunk (now : Z) (c : Chunk) (r : Router) : Router :=
  let '(result, nat) := translate_inbound now c (ro_nat r) in
  let r := mkRouter (ro_queue r) (ro_done r) nat in
  match result with Ok (Some from) => Router_push now from r | _ => r end.

Section vnet.
Context {ipnets : IpNets} {P : Profile}.

(** * Interfaces *)
Record Interface := mkInterface { if_name : str; if_addrs : list IpNet }.

Definition add_addr (addr : IpNet) (i : Interface) : Interface := mkInterface (if_name i) (if_addrs i ++ [addr]).

(** The bits of a mask *)
Definition mask_prefix (mask : bytes) : Z :=
  foldl (fun prefix octet => foldl (fun prefix i => prefix + Z.land (Z.shiftr (u8_of_byte octet) (7 - Z.of_nat i)) 1) prefix (seq 0 8)) 0 mask.

Definition convert (addr : SocketAddr) (mask : option SocketAddr) : res VnetError IpNet :=
  prefix ← match mask with
           | Some mask =>
               match sa_ip addr, sa_ip mask with
               | V4 _, V4 octets | V6 _, V6 octets => Ok (mask_prefix octets)
               | _, _ => Err ErrInvalidMask
               end
           | None => Ok 32
           end;
  match net_of_text (ip_to_string (sa_ip addr) ++ chars "/" ++ print_int prefix) with
  | Some net => Ok net
  | None => Err ParseIpnet
  end.

Definition get_interface (ifc_name : str) (interfaces : list Interface) : option Interface :=
  List.find (fun ifc => bool_decide (if_name ifc = ifc_name)) interfaces.

(** * Connections *)

(** What of a [UdpConn] never changes, as an [Arc] of it shows: which one it is, and
    its address. *)
Record UdpConn := mkUdpConn { uc_id : nat; uc_loc_addr : SocketAddr }.

#[export] Instance UdpConn_eq_dec : EqDecision UdpConn.
Proof. solve_decision. Defined.

(** The whole of it.  [uc_read_ch] is the channel of its chunks, which has a sender or
    not; its capacity is left out. *)
Record UdpConnState := mkUdpConnState {
  uc_arc : UdpConn;
  uc_rem_addr : option SocketAddr;
  uc_read_ch : list Chunk;
  uc_sender : bool;
  uc_closed : bool
}.

#[export] Instance UdpConnState_settable : Settable UdpConnState := fun c =>
  mkUdpConnState (uc_arc c) (uc_rem_addr c) (uc_read_ch c) (uc_sender c) (uc_closed c).

Definition UdpConn_new (arc : UdpConn) (rem_addr : option SocketAddr) : UdpConnState := mkUdpConnState arc rem_addr [] true false.

(** ** [UdpConnMap] *)
Abbreviation UdpConnMap := (gmap Z (list UdpConn)).

(** The test of both loops *)
Definition answers (ip : IpAddr) (c : UdpConn) : bool :=
  is_unspecified (sa_ip (uc_loc_addr c)) || bool_decide (sa_ip (uc_loc_addr c) = ip).

Definition UdpConnMap_insert (conn : UdpConn) (port_map : UdpConnMap) : res VnetError UdpConnMap :=
  let addr := uc_loc_addr conn in
  match port_map !! sa_port addr with
  | Some conns =>
      if is_unspecified (sa_ip addr) then Err ErrAddressAlreadyInUse
      else if existsb (answers (sa_ip addr)) conns then Err ErrAddressAlreadyInUse
      else Ok (<[sa_port addr := conns ++ [conn]]> port_map)
  | None => Ok (<[sa_port addr := [conn]]> port_map)
  end.

Definition UdpConnMap_find (addr : SocketAddr) (port_map : UdpConnMap) : option UdpConn :=
  match port_map !! sa_port addr with
  | Some conns => if is_unspecified (sa_ip addr) then head conns else List.find (answers (sa_ip addr)) conns
  | None => None
  end.

(** The loop of [delete]: the connections that stay *)
Fixpoint other_conns (ip : IpAddr) (conns : list UdpConn) : res VnetError (list UdpConn) :=
  match conns with
  | [] => Ok []
  | c :: conns =>
      if is_unspecified (sa_ip (uc_loc_addr c)) then Err ErrCannotRemoveUnspecifiedIp
      else
        new_conns ← other_conns ip conns;
        Ok (if bool_decide (sa_ip (uc_loc_addr c) = ip) then new_conns else c :: new_conns)
  end.

Definition UdpConnMap_delete (addr : SocketAddr) (port_map : UdpConnMap) : res VnetError UdpConnMap :=
  match port_map !! sa_port addr with
  | Some conns =>
      new_conns ← if is_unspecified (sa_ip addr) then Ok [] else other_conns (sa_ip addr) conns;
      Ok (match new_conns with [] => delete (sa_port addr) port_map | _ => <[sa_port addr := new_conns]> port_map end)
  | None => Err ErrNoSuchUdpConn
  end.

(** * The host: [VNet], [VNetInternal] and the store of its connections *)
Record VNet := mkVNet {
  vn_interfaces : list Interface;
  vn_static_ips : list IpAddr;
  vi_interfaces : list Interface;
  vi_router : option Router;
  vi_udp_conns : UdpConnMap;
  vn_conns : list UdpConnState
}.

#[export] Instance VNet_settable : Settable VNet := fun v =>
  mkVNet (vn_interfaces v) (vn_static_ips v) (vi_interfaces v) (vi_router v) (vi_udp_conns v) (vn_conns v).

Abbreviation VM A := (ST VNet VnetError A).

(** [Net::new] with a configuration: what its texts read as *)
Definition Net_new (static_ips : list str) (static_ip : str) : VNet :=
  let lo0 := mkInterface (chars "lo0") [] in
  let lo0 := match convert (mkSocketAddr (V4 (map byte_of_u8 [127; 0; 0; 1])) 0) (Some (mkSocketAddr (V4 (map byte_of_u8 [255; 0; 0; 0])) 0)) with
             | Ok ipnet => add_addr ipnet lo0
             | _ => lo0
             end in
  let eth0 := mkInterface (chars "eth0") [] in
  let ips := omap parse_ip static_ips ++ (match static_ip with [] => [] | _ => match parse_ip static_ip with Some ip => [ip] | None => [] end end) in
  mkVNet [lo0; eth0] ips [lo0; eth0] None ∅ [].

Definition on_conn (i : nat) (f : UdpConnState -> UdpConnState) (v : VNet) : VNet := v <| vn_conns ::= alter f i |>.

(** A chunk for a connection that still has its sender *)
Definition deliver (c : Chunk) (conn : UdpConn) (v : VNet) : VNet :=
  on_conn (uc_id conn) (fun u => if uc_sender u then u <| uc_read_ch ::= (.++ [c]) |> else u) v.

Definition deliver_to (addr : SocketAddr) (c : Chunk) (v : VNet) : VNet :=
  match UdpConnMap_find addr (vi_udp_conns v) with Some conn => deliver c conn v | None => v end.

(** ** [ConnObserver] *)
Definition observer_write (now : Z) (c : Chunk) : VM unit := fun v =>
  if bool_decide (network c = UDP_STR) && is_loopback (sa_ip (destination_addr c)) then (Ok tt, deliver_to (destination_addr c) c v)
  else
    match vi_router v with
    | Some r => (Ok tt, v <| vi_router := Some (Router_push now c r) |>)
    | None => (Err ErrNoRouterLinked, v)
    end.

Definition on_closed (addr : SocketAddr) (v : VNet) : VNet :=
  match UdpConnMap_delete addr (vi_udp_conns v) with Ok m => v <| vi_udp_conns := m |> | _ => v end.

Definition determine_source_ip (v : VNet) (loc_ip dst_ip : IpAddr) : option IpAddr :=
  if negb (is_unspecified loc_ip) then Some loc_ip
  else if is_loopback dst_ip then parse_ip (chars "127.0.0.1")
  else
    match get_interface (chars "eth0") (vi_interfaces v) with
    | Some ifc => List.find (fun ip => eqb (is_ipv4 ip) (is_ipv4 loc_ip)) (List.map net_addr (if_addrs ifc))
    | None => None
    end.

(** ** [Nic] *)
Fixpoint add_to_interface (ifc_name : str) (addrs : list IpNet) (interfaces : list Interface) : option (list Interface) :=
  match interfaces with
  | [] => None
  | ifc :: interfaces =>
      if bool_decide (if_name ifc = ifc_name) then Some (foldl (fun i a => add_addr a i) ifc addrs :: interfaces)
      else cons ifc <$> add_to_interface ifc_name addrs interfaces
  end.

Definition add_addrs_to_interface (ifc_name : str) (addrs : list IpNet) : VM unit := fun v =>
  let v := match add_to_interface ifc_name addrs (vi_interfaces v) with Some l => v <| vi_interfaces := l |> | None => v end in
  match add_to_interface ifc_name addrs (vn_interfaces v) with
  | Some l => (Ok tt, v <| vn_interfaces := l |>)
  | None => (Err ErrNotFound, v)
  end.

Definition on_inbound_chunk (c : Chunk) (v : VNet) : VNet :=
  if bool_decide (network c = UDP_STR) then deliver_to (destination_addr c) c v else v.

(** ** Binding *)
Definition all_addrs (v : VNet) : list IpAddr := List.map net_addr (flat_map if_addrs (vn_interfaces v)).

Definition get_all_ipaddrs (ipv6 : bool) (v : VNet) : list IpAddr :=
  List.filter (fun ip => (ipv6 && negb (is_ipv4 ip)) || (negb ipv6 && is_ipv4 ip)) (all_addrs v).

Definition has_ipaddr (ip : IpAddr) (v : VNet) : bool :=
  existsb (fun loc_ip =>
    if bool_decide (ip_to_string ip = chars "0.0.0.0") then is_ipv4 loc_ip
    else if bool_decide (ip_to_string ip = chars "::") then negb (is_ipv4 loc_ip)
    else bool_decide (loc_ip = ip)) (all_addrs v).

Definition in_use (addr : SocketAddr) (v : VNet) : bool := match UdpConnMap_find addr (vi_udp_conns v) with Some _ => true | None => false end.

Definition allocate_local_addr (ip : IpAddr) (port : Z) (v : VNet) : res VnetError unit :=
  let ips := if is_unspecified ip then get_all_ipaddrs (negb (is_ipv4 ip)) v else if has_ipaddr ip v then [ip] else [] in
  match ips with
  | [] => Err ErrBindFailed
  | _ => if existsb (fun ip2 => in_use (mkSocketAddr ip2 port) v) ips then Err ErrAddressAlreadyInUse else Ok tt
  end.

(** The loop over the ports, [count] of them from [i] *)
Fixpoint try_ports (v : VNet) (ip : IpAddr) (start space offset : Z) (count : nat) (i : Z) : res VnetError Z :=
  match count with
  | O => Err ErrPortSpaceExhausted
  | S count =>
      n ← add16 offset i;
      port ← add16 (n mod space) start;
      match allocate_local_addr ip port v with
      | Ok _ => Ok port
      | _ => try_ports v ip start space offset count (i + 1)
      end
  end.

(** [random] is the [u16] that is drawn. *)
Definition assign_port (random : Z) (ip : IpAddr) (start end_ : Z) (v : VNet) : res VnetError Z :=
  if end_ <? start then Err ErrEndPortLessThanStart
  else
    after ← add16 end_ 1;
    space ← arith 16 (after - start);
    if space =? 0 then Panic
    else try_ports v ip start space (random mod space) (Z.to_nat space) 0.

(** The address that [bind] gives to the connection *)
Definition address_to_bind (random : Z) (local_addr : SocketAddr) (v : VNet) : res VnetError SocketAddr :=
  if negb (has_ipaddr (sa_ip local_addr) v) then Err ErrCantAssignRequestedAddr
  else if sa_port local_addr =? 0
  then port ← assign_port random (sa_ip local_addr) 5000 5999 v; Ok (mkSocketAddr (sa_ip local_addr) port)
  else if in_use local_addr v then Err ErrAddressAlreadyInUse else Ok local_addr.

Definition bind (random : Z) (local_addr : SocketAddr) : VM UdpConn :=
  v ← st_get (fun v => v);
  local_addr ← st_lift (address_to_bind random local_addr v);
  let conn := mkUdpConn (length (vn_conns v)) local_addr in
  port_map ← st_lift (UdpConnMap_insert conn (vi_udp_conns v));
  _ ← st_modify (fun v => v <| vi_udp_conns := port_map |> <| vn_conns ::= (.++ [UdpConn_new conn None]) |>);
  mret conn.

(** ** [Conn], for a connection of the host *)
Definition conn_connect (conn : UdpConn) (addr : SocketAddr) (v : VNet) : VNet :=
  on_conn (uc_id conn) (fun u => u <| uc_rem_addr := Some addr |>) v.

(** The loop of [recv_from] over the chunks that are there: what was read into a buffer of
    [capacity] bytes, or [None] when it has to wait, and the chunks that are left *)
Fixpoint take_chunk (capacity : nat) (rem_addr : option SocketAddr) (chunks : list Chunk) : option (bytes * SocketAddr) * list Chunk :=
  match chunks with
  | [] => (None, [])
  | c :: chunks =>
      let addr := source_addr c in
      if match rem_addr with Some rem_addr => negb (bool_decide (addr = rem_addr)) | None => false end
      then take_chunk capacity rem_addr chunks
      else (Some (take (Nat.min capacity (length (ck_user_data c))) (ck_user_data c), addr), chunks)
  end.

Definition recv_from (conn : UdpConn) (capacity : nat) : VM (option (bytes * SocketAddr)) := fun v =>
  match vn_conns v !! uc_id conn with
  | None => (Ok None, v)
  | Some u =>
      let '(r, chunks) := take_chunk capacity (uc_rem_addr u) (uc_read_ch u) in
      let v := on_conn (uc_id conn) (fun u => u <| uc_read_ch := chunks |>) v in
      match r with
      | Some x => (Ok (Some x), v)
      | None => if uc_sender u then (Ok None, v) else (Err IoConnectionAborted, v)
      end
  end.

Definition send_to (now tag : Z) (conn : UdpConn) (buf : bytes) (target : SocketAddr) : VM nat := fun v =>
  match determine_source_ip v (sa_ip (uc_loc_addr conn)) (sa_ip target) with
  | None => (Err ErrLocAddr, v)
  | Some src_ip =>
      let chunk := (ChunkUdp_new now tag (mkSocketAddr src_ip (sa_port (uc_loc_addr conn))) target) <| ck_user_data := buf |> in
      (_ ← observer_write now chunk; mret (length buf)) v
  end.

Definition conn_send (now tag : Z) (conn : UdpConn) (buf : bytes) : VM nat := fun v =>
  match vn_conns v !! uc_id conn ≫= uc_rem_addr with
  | Some rem_addr => send_to now tag conn buf rem_addr v
  | None => (Err ErrNoRemAddr, v)
  end.

Definition conn_close (conn : UdpConn) : VM unit := fun v =>
  match vn_conns v !! uc_id conn with
  | None => (Ok tt, v)
  | Some u =>
      if uc_closed u then (Err ErrAlreadyClosed, v)
      else (Ok tt, on_closed (uc_loc_addr conn) (on_conn (uc_id conn) (fun u => u <| uc_closed := true |> <| uc_sender := false |>) v))
  end.

(** ** The host as a system *)
Inductive VnetEvent : Type :=
  | Bind (random : Z) (local_addr : SocketAddr)
  | Connect (i : nat) (addr : SocketAddr)
  | SendTo (now tag : Z) (i : nat) (buf : bytes) (target : SocketAddr)
  | RecvFrom (i capacity : nat)
  | Close (i : nat)
  | Inbound (c : Chunk)
  | AddAddrs (ifc_name : str) (addrs : list IpNet).

Definition with_conn (i : nat) (f : UdpConn -> VM unit) : VM unit := fun v =>
  match vn_conns v !! i with Some u => f (uc_arc u) v | None => (Ok tt, v) end.

Definition vnet_event (e : VnetEvent) : VM unit :=
  match e with
  | Bind random local_addr => _ ← bind random local_addr; mret tt
  | Connect i addr => with_conn i (fun conn => st_modify (conn_connect conn addr))
  | SendTo now tag i buf target => with_conn i (fun conn => _ ← send_to now tag conn buf target; mret tt)
  | RecvFrom i capacity => with_conn i (fun conn => _ ← recv_from conn capacity; mret tt)
  | Close i => with_conn i conn_close
  | Inbound c => st_modify (on_inbound_chunk c)
  | AddAddrs ifc_name addrs => add_addrs_to_interface ifc_name addrs
  end.

Definition vnet_step (v v' : VNet) : Prop := exists e, snd (vnet_event e v) = v'.
Definition vnet_reachable (v : VNet) : Prop := exists static_ips static_ip, rtc vnet_step (Net_new static_ips static_ip) v.

(** * The map and the open connections *)
Definition conn_ip (c : UdpConn) : IpAddr := sa_ip (uc_loc_addr c).
Definition conn_port (c : UdpConn) : Z := sa_port (uc_loc_addr c).

Definition is_open (v : VNet) (c : UdpConn) : Prop := exists u, vn_conns v !! uc_id c = Some u /\ uc_arc u = c /\ uc_closed u = false.

Definition conns_at (port : Z) (m : UdpConnMap) : list UdpConn := default [] (m !! port).

(** Two connections of a port: both at an address of the host, and at different ones *)
Definition apart (c d : UdpConn) : Prop :=
  is_unspecified (conn_ip c) = false /\ is_unspecified (conn_ip d) = false /\ conn_ip c <> conn_ip d.

Definition separate (l : list UdpConn) : Prop := NoDup l /\ forall c d, c ∈ l -> d ∈ l -> c <> d -> apart c d.

Record vnet_inv (v : VNet) : Prop := {
  vi_sound port c : c ∈ conns_at port (vi_udp_conns v) -> conn_port c = port /\ is_open v c;
  vi_complete c : is_open v c -> c ∈ conns_at (conn_port c) (vi_udp_conns v);
  vi_separate port : separate (conns_at port (vi_udp_conns v));
  vi_nonempty port : vi_udp_conns v !! port <> Some [];
  vi_ids i u : vn_conns v !! i = Some u -> uc_id (uc_arc u) = i /\ uc_sender u = negb (uc_closed u)
}.

(** What the invariant depends on *)
Definition shape (v : VNet) : UdpConnMap * list (UdpConn * bool * bool) :=
  (vi_udp_conns v, map (fun u => (uc_arc u, uc_sender u, uc_closed u)) (vn_conns v)).

Lemma shape_lookup v v' i u : shape v = shape v' -> vn_conns v !! i = Some u ->
  exists u', vn_conns v' !! i = Some u' /\ uc_arc u' = uc_arc u /\ uc_sender u' = uc_sender u /\ uc_closed u' = uc_closed u.
Proof.
  intros H Hu. injection H as _ H. apply (f_equal (.!! i)) in H. rewrite !list_lookup_fmap, Hu in H. cbn in H.
  destruct (vn_conns v' !! i) as [u'|]; [|done]. injection H as -> -> ->. by eexists.
Qed.

Lemma is_open_shape v v' c : shape v = shape v' -> is_open v c -> is_open v' c.
Proof.
  intros H (u & Hu & Ha & Hc). destruct (shape_lookup v v' _ u H Hu) as (u' & Hu' & Ha' & _ & Hc').
  exists u'. split; [done|]. by rewrite Ha', Hc'.
Qed.

Lemma vnet_inv_shape v v' : shape v = shape v' -> vnet_inv v -> vnet_inv v'.
Proof.
  intros H [H1 H2 H3 H4 H5]. assert (Hm : vi_udp_conns v = vi_udp_conns v') by (by injection H).
  split; rewrite <- ?Hm; try assumption.
  - intros port c Hc. destruct (H1 port c Hc). split; [done|by eapply is_open_shape].
  - intros c Hc. by apply H2, (is_open_shape v').
  - intros i u Hu. destruct (shape_lookup v' v i u (eq_sym H) Hu) as (u' & Hu' & <- & <- & <-). by apply H5.
Qed.

Lemma on_conn_shape i f v : (forall u, uc_arc (f u) = uc_arc u /\ uc_sender (f u) = uc_sender u /\ uc_closed (f u) = uc_closed u) ->
  shape (on_conn i f v) = shape v.
Proof.
  intros Hf. unfold shape, on_conn. cbn. f_equal. apply list_eq. intros j. rewrite !list_lookup_fmap.
  destruct (decide (j = i)) as [->|Hne]; [|by rewrite list_lookup_alter_ne].
  rewrite list_lookup_alter_eq. destruct (vn_conns v !! i) as [u|]; [|done]. cbn. by destruct (Hf u) as (-> & -> & ->).
Qed.

Lemma deliver_to_shape addr c v : shape (deliver_to addr c v) = shape v.
Proof. unfold deliver_to, deliver. destruct (UdpConnMap_find _ _); [|done]. apply on_conn_shape. intros [? ? ? [] ?]; done. Qed.

(** ** The operations of the map *)
Lemma conns_at_insert port l m port' : conns_at port' (<[port := l]> m) = if decide (port' = port) then l else conns_at port' m.
Proof. unfold conns_at. destruct (decide (port' = port)) as [->|]; [by rewrite lookup_insert_eq|by rewrite lookup_insert_ne]. Qed.

Lemma conns_at_delete port m port' : conns_at port' (delete port m) = if decide (port' = port) then [] else conns_at port' m.
Proof. unfold conns_at. destruct (decide (port' = port)) as [->|]; [by rewrite lookup_delete_eq|by rewrite lookup_delete_ne]. Qed.

Lemma answers_spec ip c : answers ip c = true <-> is_unspecified (conn_ip c) = true \/ conn_ip c = ip.
Proof. unfold answers. by rewrite orb_true_iff, bool_decide_eq_true. Qed.

(** [insert] takes a connection that is apart from all of its port, and no other one. *)
Lemma insert_spec conn m : (forall port, m !! port <> Some []) ->
  (Forall (fun c => apart c conn) (conns_at (conn_port conn) m) ->
   UdpConnMap_insert conn m = Ok (<[conn_port conn := conns_at (conn_port conn) m ++ [conn]]> m)) /\
  (~ Forall (fun c => apart c conn) (conns_at (conn_port conn) m) -> UdpConnMap_insert conn m = Err ErrAddressAlreadyInUse).
Proof.
  intros Hne. unfold UdpConnMap_insert, conns_at. fold (conn_port conn) (conn_ip conn). specialize (Hne (conn_port conn)).
  destruct (m !! conn_port conn) as [l|]; [|split; [done|intros H; by destruct H]]. cbn.
  destruct (existsb (answers (conn_ip conn)) l) eqn:He.
  - split; [|by destruct (is_unspecified _)]. intros Ha. apply existsb_exists in He as (c & Hc & He).
    apply list_elem_of_In in Hc. rewrite Forall_forall in Ha. specialize (Ha c Hc) as (A1 & A2 & A3). apply answers_spec in He as [|]; congruence.
  - destruct (is_unspecified (conn_ip conn)) eqn:Hu; (split; [intros Ha|intros Hn]); try done.
    + destruct l as [|c l]; [done|]. apply Forall_cons in Ha as [(_ & Ha & _) _]. congruence.
    + exfalso. apply Hn, Forall_forall. intros c Hc. split; [|split; [done|]].
      * apply not_true_iff_false. intros Hcu. apply not_true_iff_false in He. apply He, existsb_exists. exists c.
        split; [by apply list_elem_of_In|]. apply answers_spec. by left.
      * intros Hip. apply not_true_iff_false in He. apply He, existsb_exists. exists c.
        split; [by apply list_elem_of_In|]. apply answers_spec. by right.
Qed.

Lemma find_first {A} (f : A -> bool) l x : (forall y z, y ∈ l -> z ∈ l -> f y = true -> f z = true -> y = z) ->
  List.find f l = Some x <-> x ∈ l /\ f x = true.
Proof.
  intros Hu. split; [intros [H1 H2]%List.find_some; by rewrite list_elem_of_In|]. intros [Hx Hf].
  destruct (List.find f l) as [y|] eqn:E; [|by rewrite (List.find_none _ _ E x (proj1 (list_elem_of_In _ _) Hx)) in Hf].
  apply List.find_some in E as [Hy Hfy]. f_equal. apply Hu; try done. by apply list_elem_of_In.
Qed.

(** At an address of the host, [find] gives the connection that answers there. *)
Lemma find_spec addr m c : is_unspecified (sa_ip addr) = false -> separate (conns_at (sa_port addr) m) ->
  UdpConnMap_find addr m = Some c <->
  c ∈ conns_at (sa_port addr) m /\ (is_unspecified (conn_ip c) = true \/ conn_ip c = sa_ip addr).
Proof.
  intros Hu [_ Hs]. unfold UdpConnMap_find, conns_at in *. rewrite Hu. destruct (m !! sa_port addr) as [l|]; cbn in *; [|by split; [|intros [?%elem_of_nil _]]].
  rewrite find_first; [by rewrite answers_spec|]. intros d e Hd He Hda Hea. destruct (decide (d = e)) as [|Hne]; [done|].
  destruct (Hs d e Hd He Hne) as (A1 & A2 & A3). apply answers_spec in Hda as [|]; apply answers_spec in Hea as [|]; congruence.
Qed.

Lemma separate_filter (f : UdpConn -> bool) l : separate l -> separate (List.filter f l).
Proof.
  intros [Hn Hs]. assert (Hsub : forall c, c ∈ List.filter f l -> c ∈ l) by (intros c; rewrite !list_elem_of_In; by intros [H _]%List.filter_In).
  split; [|auto]. apply NoDup_ListNoDup, List.NoDup_filter, NoDup_ListNoDup, Hn.
Qed.

(** [delete] at the address of a connection that is there leaves all the others. *)
Lemma other_conns_spec c l : separate l -> c ∈ l -> is_unspecified (conn_ip c) = false ->
  other_conns (conn_ip c) l = Ok (List.filter (fun d => negb (bool_decide (d = c))) l).
Proof.
  intros [_ Hs] Hc Hu. assert (H : forall l', (forall d, d ∈ l' -> d ∈ l) ->
    other_conns (conn_ip c) l' = Ok (List.filter (fun d => negb (bool_decide (d = c))) l')).
  { induction l' as [|d l' IH]; intros Hsub; [done|]. cbn [other_conns List.filter]. fold (conn_ip d).
    assert (Hd : is_unspecified (conn_ip d) = false /\ (conn_ip d = conn_ip c <-> d = c)).
    { destruct (decide (d = c)) as [->|Hne]; [done|]. destruct (Hs d c) as (A1 & A2 & A3); [apply Hsub; by left|done|done|]. tauto. }
    destruct Hd as [-> Hd]. rewrite IH by (intros e He; apply Hsub; by right). cbn.
    destruct (decide (d = c)) as [->|Hne]; [by rewrite !bool_decide_eq_true_2|]. by rewrite !bool_decide_eq_false_2 by tauto. }
  by apply H.
Qed.

Lemma delete_spec c m : separate (conns_at (conn_port c) m) -> c ∈ conns_at (conn_port c) m ->
  exists m', UdpConnMap_delete (uc_loc_addr c) m = Ok m' /\
    (forall port, conns_at port m' = if decide (port = conn_port c) then List.filter (fun d => negb (bool_decide (d = c))) (conns_at port m)
                                     else conns_at port m) /\
    ((forall port, m !! port <> Some []) -> forall port, m' !! port <> Some []).
Proof.
  intros Hs Hc. unfold UdpConnMap_delete. fold (conn_port c) (conn_ip c).
  assert (Hl : exists l, m !! conn_port c = Some l /\ conns_at (conn_port c) m = l).
  { unfold conns_at in *. destruct (m !! conn_port c) as [l|]; [by exists l|by apply elem_of_nil in Hc]. }
  destruct Hl as (l & Hm & Hl). rewrite Hm, Hl in *.
  assert (Hother : (if is_unspecified (conn_ip c) then Ok [] else other_conns (conn_ip c) l)
    = Ok (E := VnetError) (List.filter (fun d => negb (bool_decide (d = c))) l)).
  { destruct (is_unspecified (conn_ip c)) eqn:Hu; [|by apply other_conns_spec].
    f_equal. symmetry. destruct (List.filter _ l) as [|d l'] eqn:E; [done|]. exfalso.
    assert (Hd : In d (List.filter (fun d => negb (bool_decide (d = c))) l)) by (rewrite E; by left).
    apply List.filter_In in Hd as [Hd Hne]. apply negb_true_iff, bool_decide_eq_false in Hne.
    destruct Hs as [_ Hs]. destruct (Hs d c) as (_ & A2 & _); [by apply list_elem_of_In|done|done|congruence]. }
  rewrite Hother. cbn. eexists. split; [reflexivity|]. split.
  - intros port. destruct (List.filter _ l) as [|d l'] eqn:E; [rewrite conns_at_delete|rewrite conns_at_insert];
      (destruct (decide (port = conn_port c)) as [->|]; [by rewrite Hl, E|done]).
  - intros Hne port. destruct (List.filter _ l) as [|d l'] eqn:E; destruct (decide (port = conn_port c)) as [->|];
      [by rewrite lookup_delete_eq|by rewrite lookup_delete_ne|by rewrite lookup_insert_eq|by rewrite lookup_insert_ne].
Qed.

(** ** The steps of the host *)
Definition bound (conn : UdpConn) (m : UdpConnMap) (v : VNet) : VNet :=
  v <| vi_udp_conns := m |> <| vn_conns ::= (.++ [UdpConn_new conn None]) |>.

Lemma bind_cases random addr v :
  (exists r, bind random addr v = (r, v) /\ forall c, r <> Ok c) \/
  exists a m, let conn := mkUdpConn (length (vn_conns v)) a in
    address_to_bind random addr v = Ok a /\ UdpConnMap_insert conn (vi_udp_conns v) = Ok m /\ bind random addr v = (Ok conn, bound conn m v).
Proof.
  unfold bind. st_run. destruct (address_to_bind random addr v) as [a|e| |]; [|left; by eexists..].
  cbn. destruct (UdpConnMap_insert _ _) as [m|e| |] eqn:E; [|left; by eexists..]. right. by exists a, m.
Qed.

Lemma is_open_fresh v c : vnet_inv v -> is_open v c -> (uc_id c < length (vn_conns v))%nat.
Proof. intros _ (u & Hu & _). by eapply lookup_lt_Some. Qed.

Lemma is_open_bound conn m v c : uc_id conn = length (vn_conns v) -> is_open (bound conn m v) c <-> is_open v c \/ c = conn.
Proof.
  intros Hid. unfold is_open, bound. cbn. split.
  - intros (u & Hu & <- & Hc). apply lookup_app_Some in Hu as [Hu|[Hge Hu]]; [left; by exists u|right].
    apply list_lookup_singleton_Some in Hu as [_ <-]. done.
  - intros [(u & Hu & Ha & Hc)| ->].
    + exists u. split; [|done]. apply lookup_app_Some. by left.
    + exists (UdpConn_new conn None). split; [|done]. rewrite Hid, lookup_app_r, Nat.sub_diag by lia. done.
Qed.

Lemma separate_snoc l c : separate l -> c ∉ l -> Forall (fun d => apart d c) l -> separate (l ++ [c]).
Proof.
  intros [Hn Hs] Hc Ha. rewrite Forall_forall in Ha. split.
  - apply NoDup_app. split; [done|]. split; [|by apply NoDup_singleton]. intros d Hd ->%list_elem_of_singleton. done.
  - intros d e [Hd| ->%list_elem_of_singleton]%elem_of_app [He| ->%list_elem_of_singleton]%elem_of_app Hne; [by apply Hs|by apply Ha| |done].
    destruct (Ha e He) as (A1 & A2 & A3). by split_and!.
Qed.

Lemma bound_inv conn m v : vnet_inv v -> uc_id conn = length (vn_conns v) -> UdpConnMap_insert conn (vi_udp_conns v) = Ok m ->
  vnet_inv (bound conn m v).
Proof.
  intros Hi Hid Hm. pose proof Hi as [H1 H2 H3 H4 H5]. destruct (insert_spec conn (vi_udp_conns v) H4) as [S1 S2].
  destruct (decide (Forall (fun c => apart c conn) (conns_at (conn_port conn) (vi_udp_conns v)))) as [Ha|Ha]; [|by rewrite S2 in Hm].
  rewrite S1 in Hm by done. injection Hm as <-.
  assert (Hfresh : forall port, conn ∉ conns_at port (vi_udp_conns v)).
  { intros port Hc. destruct (H1 port conn Hc) as [_ Ho]. apply is_open_fresh in Ho; [lia|done]. }
  split; cbn [bound vi_udp_conns vn_conns set].
  - intros port c. rewrite conns_at_insert, is_open_bound by done. destruct (decide _) as [->|]; [|intros Hc; destruct (H1 _ _ Hc); auto].
    intros [Hc| ->%list_elem_of_singleton]%elem_of_app; [destruct (H1 _ _ Hc); auto|auto].
  - intros c [Hc| ->]%is_open_bound; [|rewrite conns_at_insert, decide_True by done; apply elem_of_app; right; by apply list_elem_of_singleton|done].
    apply H2 in Hc. rewrite conns_at_insert. destruct (decide _) as [<-|]; [apply elem_of_app; by left|done].
  - intros port. rewrite conns_at_insert. destruct (decide _) as [->|]; [|apply H3]. by apply separate_snoc.
  - intros port. destruct (decide (port = conn_port conn)) as [->|]; [rewrite lookup_insert_eq; by destruct (conns_at _ _)|by rewrite lookup_insert_ne].
  - intros i u [Hu|[Hge Hu]]%lookup_app_Some; [by apply H5|]. apply list_lookup_singleton_Some in Hu as [Hz <-]. cbn. split; [lia|done].
Qed.

Definition closed (c : UdpConn) (v : VNet) : VNet := on_conn (uc_id c) (fun u => u <| uc_closed := true |> <| uc_sender := false |>) v.

Lemma closed_lookup c v i u : vn_conns (closed c v) !! i = Some u -> exists u0, vn_conns v !! i = Some u0 /\ uc_arc u = uc_arc u0 /\
  (i = uc_id c -> uc_closed u = true /\ uc_sender u = false) /\ (i <> uc_id c -> u = u0).
Proof.
  unfold closed, on_conn. cbn. intros Hu. destruct (decide (i = uc_id c)) as [->|Hne].
  - rewrite list_lookup_alter_eq in Hu. apply fmap_Some in Hu as (u0 & Hu0 & ->). by exists u0.
  - rewrite list_lookup_alter_ne in Hu by done. by exists u.
Qed.

Lemma is_open_closed c v d : vnet_inv v -> is_open v c -> is_open (closed c v) d <-> is_open v d /\ d <> c.
Proof.
  intros Hi (uc & Huc & Hac & _). split.
  - intros (u & Hu & Ha & Hc). destruct (closed_lookup c v _ u Hu) as (u0 & Hu0 & Ha0 & E1 & E2).
    destruct (decide (uc_id d = uc_id c)) as [E|E]; [destruct (E1 E); congruence|]. rewrite (E2 E) in *. split; [by exists u0|congruence].
  - intros [(u & Hu & Ha & Hc) Hne]. exists u. split; [|done]. unfold closed, on_conn. cbn. rewrite list_lookup_alter_ne; [done|].
    intros E. rewrite <- E, Huc in Hu. congruence.
Qed.

(** Closing an open connection takes it, and no other, out of the map. *)
Lemma close_open c v : vnet_inv v -> is_open v c -> exists v', conn_close c v = (Ok tt, v') /\ vnet_inv v' /\
  (forall d, is_open v' d <-> is_open v d /\ d <> c).
Proof.
  intros Hi Ho. pose proof Hi as [H1 H2 H3 H4 H5]. pose proof Ho as (u & Hu & _ & Hc). unfold conn_close. rewrite Hu, Hc. fold (closed c v).
  unfold on_closed. destruct (delete_spec c (vi_udp_conns v) (H3 _) (H2 _ Ho)) as (m & Hd & Hat & Hne).
  change (vi_udp_conns (closed c v)) with (vi_udp_conns v). rewrite Hd. eexists. split; [reflexivity|].
  assert (Hopen : forall d, is_open ((closed c v) <| vi_udp_conns := m |>) d <-> is_open v d /\ d <> c) by (intros d; by apply is_open_closed).
  split; [|exact Hopen]. split; cbn [vi_udp_conns set].
  - intros port d. rewrite Hat, Hopen. destruct (decide _) as [->|Hp].
    + rewrite list_elem_of_In. intros [Hd1 Hd2]%List.filter_In. apply negb_true_iff, bool_decide_eq_false in Hd2.
      apply list_elem_of_In in Hd1. destruct (H1 _ _ Hd1). auto.
    + intros Hd'. destruct (H1 _ _ Hd') as [E Hod]. split; [done|]. split; [done|]. intros ->. done.
  - intros d [Hd' Hne']%Hopen. apply H2 in Hd'. rewrite Hat. destruct (decide _) as [E|]; [|done].
    rewrite list_elem_of_In in *. apply List.filter_In. split; [done|]. by apply negb_true_iff, bool_decide_eq_false.
  - intros port. rewrite Hat. destruct (decide _); [by apply separate_filter|done].
  - by apply Hne.
  - intros i w Hw. destruct (closed_lookup c v i w Hw) as (u0 & Hu0 & -> & E1 & E2). destruct (H5 i u0 Hu0) as [Hid Hsd].
    split; [done|]. destruct (decide (i = uc_id c)) as [->|E]; [by destruct (E1 eq_refl) as [-> ->]|by rewrite (E2 E)].
Qed.

Lemma vnet_event_shape e v : match e with Bind _ _ | Close _ => True | _ => shape (snd (vnet_event e v)) = shape v end.
Proof.
  destruct e as [| |now tag i buf target|i capacity| |c|]; cbn [vnet_event]; try done; unfold with_conn.
  - destruct (vn_conns v !! i); [|done]. by apply on_conn_shape.
  - destruct (vn_conns v !! i); [|done]. unfold send_to, observer_write. st_run. destruct (determine_source_ip _ _ _); [|done].
    destruct (_ && _); [cbn; apply deliver_to_shape|]. by destruct (vi_router v).
  - destruct (vn_conns v !! i); [|done]. unfold recv_from. st_run. destruct (vn_conns v !! _) as [w|]; [|done].
    destruct (take_chunk _ _ _) as [[x|] chunks]; [by apply on_conn_shape|]. destruct (uc_sender w); by apply on_conn_shape.
  - cbn. unfold on_inbound_chunk. destruct (bool_decide _); [apply deliver_to_shape|done].
  - unfold add_addrs_to_interface. destruct (add_to_interface _ _ (vi_interfaces v)); cbn; by destruct (add_to_interface _ _ _).
Qed.

Lemma vnet_step_inv v v' : vnet_step v v' -> vnet_inv v -> vnet_inv v'.
Proof.
  intros [e <-] Hi. pose proof (vnet_event_shape e v) as Hs. destruct e as [random addr| | | |i| |];
    try (eapply vnet_inv_shape; [symmetry; exact Hs|done]).
  - cbn [vnet_event]. destruct (bind_cases random addr v) as [(r & E & Hr)|(a & m & Ha & Hm & E)]; unfold mbind, st_bind; rewrite E.
    + destruct r; [by destruct (Hr a)|done..].
    + by apply bound_inv.
  - cbn [vnet_event]. unfold with_conn. destruct (vn_conns v !! i) as [u|] eqn:Hu; [|done]. pose proof (vi_ids v Hi i u Hu) as [Hid _].
    destruct (uc_closed u) eqn:Hc.
    + unfold conn_close. by rewrite Hid, Hu, Hc.
    + destruct (close_open (uc_arc u) v Hi) as (v' & -> & Hi' & _); [|done]. exists u. by rewrite Hid.
Qed.

Lemma vnet_reachable_inv v : vnet_reachable v -> vnet_inv v.
Proof.
  intros (static_ips & static_ip & H). assert (Hi : vnet_inv (Net_new static_ips static_ip)).
  { split; cbn; try done; [by intros ? ? ?%elem_of_nil|by intros ? (? & ? & _)|]. intros port. split; [constructor|by intros ? ? ?%elem_of_nil]. }
  revert Hi. induction H as [|v v1 v2 Hstep _ IH]; [done|]. intros Hi. by eapply IH, vnet_step_inv.
Qed.


(** * Binding *)

(** No open connection has a part of the address. *)
Definition free (addr : SocketAddr) (v : VNet) : Prop :=
  forall c, is_open v c -> conn_port c = sa_port addr -> apart c (mkUdpConn 0 addr).

Lemma free_conns addr n v : vnet_inv v ->
  free addr v <-> Forall (fun c => apart c (mkUdpConn n addr)) (conns_at (sa_port addr) (vi_udp_conns v)).
Proof.
  intros [H1 H2 _ _ _]. rewrite Forall_forall. split; intros Hf c.
  - intros [Hp Ho]%H1. by apply Hf.
  - intros Ho Hp. apply Hf. rewrite <- Hp. by apply H2.
Qed.

Lemma insert_free n addr v : vnet_inv v ->
  (free addr v -> exists m, UdpConnMap_insert (mkUdpConn n addr) (vi_udp_conns v) = Ok m) /\
  (~ free addr v -> UdpConnMap_insert (mkUdpConn n addr) (vi_udp_conns v) = Err ErrAddressAlreadyInUse).
Proof.
  intros Hi. destruct (insert_spec (mkUdpConn n addr) (vi_udp_conns v) (vi_nonempty v Hi)) as [S1 S2].
  rewrite (free_conns addr n v Hi). split; [|exact S2]. intros Hf. eexists. by apply S1.
Qed.

Lemma in_use_spec addr v : vnet_inv v -> in_use addr v = false <-> free addr v.
Proof.
  intros Hi. rewrite (free_conns addr 0%nat v Hi). unfold in_use. destruct (is_unspecified (sa_ip addr)) eqn:Hu.
  - unfold UdpConnMap_find, conns_at. rewrite Hu. pose proof (vi_nonempty v Hi (sa_port addr)) as Hne.
    destruct (vi_udp_conns v !! sa_port addr) as [[|c l]|]; [done| |done]. cbn. split; [done|].
    intros [(_ & Ha & _) _]%Forall_cons. unfold conn_ip in Ha. cbn in Ha. congruence.
  - pose proof (fun c => find_spec addr (vi_udp_conns v) c Hu (vi_separate v Hi _)) as Hfind. rewrite Forall_forall.
    destruct (UdpConnMap_find addr (vi_udp_conns v)) as [c|].
    + split; [done|]. intros Hall. destruct (proj1 (Hfind c) eq_refl) as [Hc Ha]. destruct (Hall c Hc) as (A1 & A2 & A3).
      unfold conn_ip in A3 at 2. cbn in A3. destruct Ha; congruence.
    + split; [|done]. intros _ c Hc. split; [|split; [exact Hu|]].
      * apply not_true_iff_false. intros Ha. assert (None = Some c) by (apply Hfind; auto). done.
      * intros Ha. assert (None = Some c) by (apply Hfind; auto). done.
Qed.

(** The ports that are tried are all of them. *)
Lemma try_ports_spec v ip offset count : 0 <= offset < 1000 -> forall i, 0 <= i -> i + Z.of_nat count = 1000 ->
  let port j := (offset + j) mod 1000 + 5000 in
  (exists j, i <= j < 1000 /\ allocate_local_addr ip (port j) v = Ok tt /\ try_ports v ip 5000 1000 offset count i = Ok (port j)) \/
  ((forall j, i <= j < 1000 -> allocate_local_addr ip (port j) v <> Ok tt) /\ try_ports v ip 5000 1000 offset count i = Err ErrPortSpaceExhausted).
Proof.
  intros Ho. induction count as [|count IH]; intros i Hi Hc port.
  - right. split; [intros j Hj; lia|done].
  - cbn [try_ports]. pose proof (Z.mod_pos_bound (offset + i) 1000 ltac:(lia)) as Hm.
    rewrite arith_ok by (unfold in_range; lia). cbn [mbind res_bind]. rewrite arith_ok by (unfold in_range; lia). cbn [mbind res_bind].
    destruct (allocate_local_addr ip ((offset + i) mod 1000 + 5000) v) as [[]|e| |] eqn:E.
    + left. exists i. split; [lia|]. by split.
    + destruct (IH (i + 1)) as [(j & Hj & H1 & H2)|[H1 H2]]; [lia|lia|left; exists j; split; [lia|done]|right].
      split; [|done]. intros j Hj. destruct (decide (j = i)) as [->|]; [unfold port; congruence|apply H1; lia].
    + unfold allocate_local_addr in E. repeat case_match; done.
    + unfold allocate_local_addr in E. repeat case_match; done.
Qed.

Lemma allocate_specified ip port v : vnet_inv v -> is_unspecified ip = false -> has_ipaddr ip v = true ->
  allocate_local_addr ip port v = Ok tt <-> free (mkSocketAddr ip port) v.
Proof.
  intros Hi Hu Hh. unfold allocate_local_addr. rewrite Hu, Hh. cbn. rewrite orb_false_r.
  destruct (in_use (mkSocketAddr ip port) v) eqn:E; [|split; [intros _; by apply in_use_spec|done]].
  split; [done|]. intros Hf. apply in_use_spec in Hf; [congruence|done].
Qed.

(** [assign_port] finds a port if there is one, whatever number is drawn. *)
Lemma assign_port_spec random ip v : vnet_inv v -> 0 <= random -> is_unspecified ip = false -> has_ipaddr ip v = true ->
  (exists port, 5000 <= port <= 5999 /\ free (mkSocketAddr ip port) v /\ assign_port random ip 5000 5999 v = Ok port) \/
  ((forall port, 5000 <= port <= 5999 -> ~ free (mkSocketAddr ip port) v) /\ assign_port random ip 5000 5999 v = Err ErrPortSpaceExhausted).
Proof.
  intros Hi Hr Hu Hh. unfold assign_port. change (5999 <? 5000) with false. cbv iota.
  rewrite arith_ok by (unfold in_range; lia). cbn [mbind res_bind]. rewrite arith_ok by (unfold in_range; lia). cbn [mbind res_bind].
  change (5999 + 1 - 5000 =? 0) with false. cbv iota. change (5999 + 1 - 5000) with 1000.
  assert (Ho : 0 <= random mod 1000 < 1000) by (apply Z.mod_pos_bound; lia). set (offset := random mod 1000) in *.
  destruct (try_ports_spec v ip offset (Z.to_nat 1000) Ho 0) as [(j & Hj & Ha & Ht)|[Hn Ht]]; [lia|lia|left|right].
  - exists ((offset + j) mod 1000 + 5000). split; [pose proof (Z.mod_pos_bound (offset + j) 1000 ltac:(lia)); lia|].
    split; [by apply allocate_specified|exact Ht].
  - split; [|exact Ht]. intros port Hp Hf. apply (Hn ((port - 5000 - offset) mod 1000)); [apply Z.mod_pos_bound; lia|].
    rewrite Zplus_mod_idemp_r. replace (offset + (port - 5000 - offset)) with (port - 5000) by lia.
    rewrite Z.mod_small by lia. replace (port - 5000 + 5000) with port by lia. by apply allocate_specified.
Qed.

(** C35. [bind] gives an address exactly when it is there to give. For an address with a
    port: a new connection there, if the host has the address and no open connection is in the way;
    else the error that says which. For an address of the host without a port: a new connection at some port from 5000 to 5999
    that is free, if there is one, whatever number is drawn; else the error that the ports are exhausted. *)
Theorem bind_exact random addr v : vnet_reachable v -> 0 <= random ->
  let conn port := mkUdpConn (length (vn_conns v)) (mkSocketAddr (sa_ip addr) port) in
  let result := fst (bind random addr v) in
  (has_ipaddr (sa_ip addr) v = false -> result = Err ErrCantAssignRequestedAddr) /\
  (has_ipaddr (sa_ip addr) v = true -> sa_port addr <> 0 ->
     (free addr v -> result = Ok (conn (sa_port addr))) /\ (~ free addr v -> result = Err ErrAddressAlreadyInUse)) /\
  (has_ipaddr (sa_ip addr) v = true -> sa_port addr = 0 -> is_unspecified (sa_ip addr) = false ->
     (exists port, 5000 <= port <= 5999 /\ free (mkSocketAddr (sa_ip addr) port) v /\ result = Ok (conn port)) \/
     ((forall port, 5000 <= port <= 5999 -> ~ free (mkSocketAddr (sa_ip addr) port) v) /\ result = Err ErrPortSpaceExhausted)).
Proof.
  intros Hreach Hrand conn. apply vnet_reachable_inv in Hreach as Hi. unfold bind, address_to_bind. st_run.
  split; [|split]; intros Hh; rewrite Hh; cbn [negb]; [done| |].
  - intros Hp. rewrite (proj2 (Z.eqb_neq _ _) Hp). destruct (insert_free (length (vn_conns v)) addr v Hi) as [I1 I2].
    assert (Hconn : conn (sa_port addr) = mkUdpConn (length (vn_conns v)) addr) by (by destruct addr).
    destruct (in_use addr v) eqn:Eu.
    + split; [|done]. intros Hf. apply in_use_spec in Hf; [congruence|done].
    + apply in_use_spec in Eu; [|done]. split; [|done]. intros _. destruct (I1 Eu) as [m ->]. by rewrite Hconn.
  - intros Hp Hu. rewrite Hp. cbn [Z.eqb].
    destruct (assign_port_spec random (sa_ip addr) v Hi Hrand Hu Hh) as [(port & Hport & Hf & ->)|[Hn ->]]; [left|right; done].
    exists port. split; [done|]. split; [done|]. cbn.
    destruct (insert_free (length (vn_conns v)) (mkSocketAddr (sa_ip addr) port) v Hi) as [I1 _]. by destruct (I1 Hf) as [m ->].
Qed.

(** * From one connection of a host to another *)

Lemma loopback_specified ip : is_loopback ip = true -> is_unspecified ip = false.
Proof.
  destruct ip as [[|a o]|o]; cbn; [done| |]; intros H%bool_decide_eq_true; rewrite H; [reflexivity|].
  apply not_true_iff_false. intros Ha. vm_compute in Ha. discriminate Ha.
Qed.

(** What is sent to a loopback address joins the chunks of the open connection that
    answers there, with the address of the sender, and changes nothing else; and it is what
    that connection receives next when it has nothing to receive yet. *)
Theorem loopback_delivers now tag c d u buf target src v : vnet_reachable v ->
  is_loopback (sa_ip target) = true ->
  determine_source_ip v (conn_ip c) (sa_ip target) = Some src ->
  is_open v d -> conn_port d = sa_port target -> is_unspecified (conn_ip d) = true \/ conn_ip d = sa_ip target ->
  vn_conns v !! uc_id d = Some u -> uc_read_ch u = [] -> uc_rem_addr u = None ->
  exists v', send_to now tag c buf target v = (Ok (length buf), v') /\ vi_udp_conns v' = vi_udp_conns v /\ vi_router v' = vi_router v /\
    (forall i, i <> uc_id d -> vn_conns v' !! i = vn_conns v !! i) /\
    forall capacity, fst (recv_from d capacity v') = Ok (Some (take capacity buf, mkSocketAddr src (conn_port c))).
Proof.
  intros Hr Hl Hsrc Ho Hp Ha Hu Hq Hrem. apply vnet_reachable_inv in Hr as Hi.
  assert (Hfind : UdpConnMap_find target (vi_udp_conns v) = Some d).
  { apply find_spec; [by apply loopback_specified|apply Hi|]. split; [|done]. rewrite <- Hp. by apply Hi. }
  unfold send_to. fold (conn_ip c) (conn_port c). rewrite Hsrc. unfold observer_write. st_run.
  set (chunk := (ChunkUdp_new now tag _ target) <| ck_user_data := buf |>).
  assert (Hdest : destination_addr chunk = target) by (by destruct target).
  rewrite Hdest. rewrite Hl. change (bool_decide (network chunk = UDP_STR) && true) with true. cbv iota.
  unfold deliver_to. rewrite Hfind. unfold deliver. destruct (vi_ids v Hi _ u Hu) as [_ Hs].
  destruct Ho as (u' & Hu' & _ & Hc). rewrite Hu in Hu'. injection Hu' as <-.
  eexists. split; [reflexivity|]. split; [done|]. split; [done|]. split; [intros i Hne; cbn; by rewrite list_lookup_alter_ne|].
  intros capacity. unfold recv_from, on_conn. cbn. rewrite list_lookup_alter_eq, Hu. cbn. rewrite Hs, Hc. cbn. rewrite Hq, Hrem. cbn.
  rewrite <- Nat.min_comm. do 3 f_equal. destruct (Nat.min_spec (length buf) capacity) as [[? ->]|[? ->]]; [by rewrite !take_ge by lia|done].
Qed.
End vnet.

(** * The text of addresses, and 1:1 NAT *)
Lemma read_digits_value s n acc : Forall is_digit s -> read_digits 10 s n acc = ((n + length s)%nat, digits_value s acc, []).
Proof.
  intros Hs. revert n acc. induction Hs as [|c s Hc Hs IH]; intros n acc; [by rewrite Nat.add_0_r|]. cbn [read_digits length].
  assert (Hd : char_digit 10 c = Some (c - 48)).
  { unfold char_digit. unfold is_digit in Hc. rewrite (proj2 (in_interval_true _ _ _)) by done. by rewrite (proj2 (Z.ltb_lt _ _)) by lia. }
  rewrite Hd, IH. by rewrite <- Nat.add_succ_comm.
Qed.

Lemma read_port_text port : 0 <= port < 65536 -> read_port (chars ":" ++ print_int port) = Some port.
Proof.
  intros Hp. unfold read_port. cbn [app read_char Z.eqb Pos.eqb chars map list_byte_of_string]. unfold print_int. rewrite (proj2 (Z.ltb_ge _ _)) by lia.
  destruct (decimal_spec port ltac:(lia)) as (Hd & Hv & Hne). change (read_char 58 (chars ":" ++ decimal port)) with (Some (decimal port)). cbv iota.
  unfold read_number. rewrite read_digits_value, Hv by done. cbn [Nat.add].
  rewrite (proj2 (Nat.eqb_neq _ _)) by (by destruct (decimal port)). rewrite ltb_false by lia. by rewrite (proj2 (Z.ltb_ge _ _)) by lia.
Qed.

Lemma parse_socket_addr_ipv4 o port : length o = 4%nat -> 0 <= port < 65536 ->
  parse_socket_addr (ip_to_string (V4 o) ++ chars ":" ++ print_int port) = Some (mkSocketAddr (V4 o) port).
Proof.
  intros Ho Hp. unfold parse_socket_addr. cbn [ip_to_string]. rewrite ipv4_text_read by done. by rewrite read_port_text.
Qed.

(** A chunk through the 1:1 NAT, for an IPv4 pair: only the address of its destination
    changes, to the local one. *)
Lemma nat_1to1_ipv4 now c n o : nt_mode n = Nat1To1 -> ck_flags c = None -> 0 <= ck_destination_port c < 65536 ->
  get_paired_local_ip n (ci_destination_ip (ck_ip c)) = Some (V4 o) -> length o = 4%nat ->
  translate_inbound now c n = (Ok (Some (c <| ck_ip ::= fun i => i <| ci_destination_ip := V4 o |> |>)), n).
Proof.
  intros Hm Hf Hp Hl Ho. unfold translate_inbound, network. rewrite Hf, Hm. rewrite bool_decide_eq_true_2 by done. rewrite bool_decide_eq_true_2 by done.
  cbn [sa_ip sa_port destination_addr]. rewrite Hl. unfold set_destination_addr. rewrite parse_socket_addr_ipv4 by done. cbn. by destruct c, ck_ip0.
Qed.

(** The address of an IPv6 pair is written without its brackets, and so it is not read
    back: every chunk to it is dropped. *)
Example nat_1to1_ipv6 :
  let ip n := V6 (ipv6_of_groups [0x2001; 0xdb8; 0; 0; 0; 0; 0; n]) in
  let c := ChunkUdp_new 0 0 (mkSocketAddr (ip 1) 1000) (mkSocketAddr (ip 2) 2000) in
  fst (translate_inbound 0 c (mkNat Nat1To1 [ip 2] [ip 3] ∅ ∅)) = Err ParseIp.
Proof. by vm_compute. Qed.

(** * A host with an IPv4 and an IPv6 address *)
#[local] Instance sample_nets : IpNets := {|
  IpNet := IpAddr;
  net_addr ip := ip;
  net_of_text s := parse_ip (fst (split_once 47 s))
|}.
#[local] Existing Instance dev_profile.

Definition sample_ipv4 : IpAddr := V4 (map byte_of_u8 [10; 0; 0; 1]).
Definition sample_ipv6 : IpAddr := V6 (ipv6_of_groups [0xfe80; 0; 0; 0; 0; 0; 0; 1]).
Definition any_ipv4 : IpAddr := V4 (replicate 4 Byte.x00).
Definition localhost : IpAddr := V4 (map byte_of_u8 [127; 0; 0; 1]).

Definition vnet_run (events : list VnetEvent) (v : VNet) : VNet := fold_left (fun v e => snd (vnet_event e v)) events v.

Lemma vnet_run_reachable events v : vnet_reachable v -> vnet_reachable (vnet_run events v).
Proof.
  revert v. induction events as [|e events IH]; intros v Hv; [done|]. apply IH. destruct Hv as (ips & ip & H).
  exists ips, ip. eapply rtc_r; [exact H|by exists e].
Qed.

Definition sample_host : VNet := vnet_run [AddAddrs (chars "eth0") [sample_ipv4; sample_ipv6]] (Net_new [] []).

Lemma sample_host_reachable : vnet_reachable sample_host.
Proof. apply vnet_run_reachable. by exists [], []. Qed.

(** Connections at every IPv4 address, at the IPv6 one, and at one without a port *)
Definition sample_bound : VNet :=
  vnet_run [Bind 0 (mkSocketAddr any_ipv4 7000); Bind 0 (mkSocketAddr sample_ipv6 5000); Bind 17 (mkSocketAddr sample_ipv4 0)] sample_host.

Definition first_conn : UdpConn := mkUdpConn 0 (mkSocketAddr any_ipv4 7000).
Definition third_conn : UdpConn := mkUdpConn 2 (mkSocketAddr sample_ipv4 5017).

Lemma sample_bound_reachable : vnet_reachable sample_bound.
Proof. apply vnet_run_reachable, sample_host_reachable. Qed.

(** The port that is found for every IPv4 address may have an IPv6 connection, with which
    [insert] refuses it, though there are other ports. *)
Example bind_unspecified_refused :
  fst (bind 0 (mkSocketAddr any_ipv4 0) sample_bound) = Err ErrAddressAlreadyInUse /\
  fst (bind 1 (mkSocketAddr any_ipv4 0) sample_bound) = Ok (mkUdpConn 3 (mkSocketAddr any_ipv4 5001)).
Proof. by vm_compute. Qed.


Lemma bind_exact_witness :
  fst (bind 0 (mkSocketAddr sample_ipv4 5000) sample_bound) = Ok (mkUdpConn 3 (mkSocketAddr sample_ipv4 5000)) /\
  fst (bind 0 (mkSocketAddr sample_ipv4 7000) sample_bound) = Err ErrAddressAlreadyInUse.
Proof.
  assert (Hh : has_ipaddr sample_ipv4 sample_bound = true) by by vm_compute.
  pose proof (vnet_reachable_inv _ sample_bound_reachable) as Hi.
  split.
  - destruct (bind_exact 0 (mkSocketAddr sample_ipv4 5000) sample_bound sample_bound_reachable ltac:(lia)) as (_ & H & _).
    destruct (H Hh ltac:(done)) as [Hfree _]. assert (Hlen : length (vn_conns sample_bound) = 3%nat) by by vm_compute.
    rewrite Hlen in Hfree. apply Hfree, in_use_spec; [exact Hi|by vm_compute].
  - destruct (bind_exact 0 (mkSocketAddr sample_ipv4 7000) sample_bound sample_bound_reachable ltac:(lia)) as (_ & H & _).
    destruct (H Hh ltac:(done)) as [_ Hbusy]. apply Hbusy. intros Hf. apply in_use_spec in Hf; [|exact Hi]. by vm_compute in Hf.
Defined.
